(* ===== verification/_CoqProject ===== *)
-Q . S2P
Prelude.v
Bytes.v
ErtScheduler.v
ErtInvariant.v
ErtControl.v
ErtRun.v
ErtTheorems.v
ElfPatcher.v
ElfTheorems.v
CppStd.v
XclbinLayout.v
XclbinXml.v
XclbinSections.v
OclEvent.v
OclInvariant.v
OclOrder.v
OclQueueOrder.v
OclProgress.v
OclHistory.v
OclTermination.v
OclTheorems.v
OclAbort.v
XrtKernel.v
XrtRun.v
XrtPacket.v
XrtInvariant.v
XrtPreserve.v
XrtStart.v
XrtFa.v
XrtTheorems.v
XrtErt.v
XrtRunlist.v
XrtRunlistSpec.v
XrtRunlistWait.v
XrtRunlistTheorems.v
HwQueue.v
HwInvariant.v
HwSteps.v
HwActions.v
HwRuns.v
HwDiscipline.v
HwTermination.v
HwTheorems.v
HwRegistry.v
XrtBoDriver.v
XrtBo.v
XrtBoSpec.v
XrtBoTheorems.v
XrtBoCopy.v
XrtBoLife.v
HipStream.v
HipInvariant.v
HipCalls.v
HipTheorems.v
HipOrder.v
HipRanks.v
HipTidy.v
HipDeadlock.v
HipGraph.v
HipGraphOrder.v
HipGraphBuild.v
HipGraphPlaces.v
HipGraphRun.v
HipGraphTheorems.v
KdsEnv.v
KdsHls.v
KdsFa.v
KdsCu.v
KdsInvariant.v
KdsSteps.v
KdsRuns.v
KdsProtocol.v
KdsTheorems.v
KdsExec.v
OclNdrange.v
OclGroups.v
OclContext.v
OclRuns.v
OclNdrangeTheorems.v
