(* ===== verification/Prelude.v ===== *)
(** XRT, the Xilinx runtime: a verification development.

    * The program

    A host application uses XRT to run kernels on the compute units (CUs) of an
    accelerator card.  The parts that carry its own logic, from the application
    down to the device, with their directories under [src/src/runtime_src]:

    - OpenCL layer, [xocl]: events and command queues order commands; an NDRange
      kernel becomes an execution context that starts one run object per work
      group;
    - HIP layer, [hip]: streams with events and callbacks, and graphs of kernels
      and copies;
    - native layer, [core/common/api]: kernel and run objects build the command
      packet with the kernel arguments and the masks of the CUs that may execute
      it; run lists chain runs into larger submissions; buffer objects are
      memory of host and device; hardware queues with a command manager wait for
      commands and call back; [elf_patcher.cpp] patches buffer addresses into
      control code;
    - meta data, [core/common/xclbin_parser.cpp]: CUs, memory banks, kernel
      arguments and binary sections of the device image;
    - kernel drivers, [core/pcie/driver/linux/xocl] and [core/common/drv]: buffers of
      the device, the check of packets, and the scheduler KDS with the queues of
      each compute unit;
    - firmware, [ert/scheduler/scheduler.cpp]: the scheduler on the card decodes
      the packets, copies arguments to CU registers, starts CUs and reports
      completions.

    A packet that a run object builds is executed by the firmware, or by the driver
    when the firmware is disabled; both ways are composed with the run object.

    * The library

    This file holds the shared vocabulary: machine words as integers with their
    wrap-around written out, the state-and-error monad in which the imperative
    code is transcribed, its weakest-precondition calculus [wp], and lemmas on
    lists and bits.  [Bytes] models memory as a list of bytes with little-endian
    words, [CppStd] what is used of the C++ standard library and of boost's
    property tree.

    Firmware.  [ErtScheduler] transcribes all of [scheduler.cpp]; its state is
    [config] and [tables], a slot is a record, and everything outside of the
    processor is the class [Bus] of reads and writes on an arbitrary world.
    [ErtInvariant], [ErtControl] and [ErtRun] prove the invariant over every run
    on every bus; [ErtTheorems] has the properties and a memory-backed bus:
    running slots own their CUs exclusively, a scheduler step ends and stops only
    for listed reasons, completion frees the slot that owned the CU.

    Control code.  [ElfPatcher] transcribes the patch schemes over a byte buffer
    with the cache of descriptor words; [ElfTheorems]: accesses stay in bounds,
    every changed byte is synchronised, and patching again is patching once.

    Meta data.  [XclbinLayout] (CU order, index and address, memory banks),
    [XclbinXml] (kernel arguments and properties from the parsed document) and
    [XclbinSections] (raw sections): indices name the addresses they should, and
    offsets that a file provides are checked before they are used.

    Kernel and run objects.  [XrtKernel] and [XrtRun] transcribe kernel, command,
    argument setters, CU restriction, start, clone and argument update over the
    bytes of the execution buffer.  [XrtPacket], [XrtInvariant], [XrtPreserve],
    [XrtStart] and [XrtFa] prove the invariant [run_ok] for every reachable run,
    calls that throw included, and what each operation writes; [XrtTheorems] has
    the properties.  [XrtErt] composes them with the firmware: an argument set by
    the host is the value the firmware writes to the CU.

    Run lists.  [XrtRunlist] transcribes [runlist_impl], with run objects in a
    shared store and pointers that dangle once a vector moves its elements;
    [XrtRunlistSpec] has the invariant, [XrtRunlistWait] what wait, poll and state
    report, [XrtRunlistTheorems] the properties.

    Hardware queues.  [HwQueue] transcribes the queues and the command manager of
    [hw_queue.cpp] as steps of any number of threads; [HwInvariant], [HwSteps],
    [HwActions] and [HwRuns] prove the invariant of every interleaving,
    [HwDiscipline] says what an application has to respect, [HwTermination] bounds
    the runs, [HwTheorems] has the properties (a wait ends, callbacks are called
    once), [HwRegistry] the registry of queues.

    Buffer objects.  [XrtBoDriver] models buffers of the xocl driver, their
    creation, sync and copy; [XrtBo] the classes of [xrt_bo.cpp] over them;
    [XrtBoSpec] has the invariant and what a buffer is for an application;
    [XrtBoTheorems] (access, sub-buffers, sync), [XrtBoCopy] (copies, syncs of any
    range) and [XrtBoLife] (allocation, and every sequence of calls) the
    properties.

    Events and queues.  [OclEvent] transcribes [event.cpp] and
    [command_queue.cpp] as atomic steps of a pool of threads, a step being the
    code between two acquisitions of a mutex.  [OclInvariant], [OclOrder],
    [OclQueueOrder], [OclProgress], [OclHistory] and [OclTermination] prove the
    invariants of every interleaving; [OclTheorems]: order of in-order queues
    and barriers, wait lists, no failed assertion, callbacks, termination and
    completion; [OclAbort]: aborting events.

    NDRange kernels.  [OclNdrange] transcribes the work sizes and the execution
    context, over the interface [RunApi] of run objects; [OclGroups] treats the
    arithmetic of work groups and the work sizes; [OclContext] proves the
    invariant against the laws [RunLaws] of that interface, which [OclRuns] proves
    of the run objects of [XrtRun]; [OclNdrangeTheorems]: every work group is
    started exactly once with its own arguments, and the event completes once.

    HIP streams and events.  [HipStream] transcribes the commands, events and
    streams of [hip/core] and the calls of an application, with the mutexes they
    take; [HipInvariant] and [HipCalls] prove what every call keeps and that calls
    return; [HipTheorems] and [HipOrder]: synchronisation completes, a wait for an
    event orders streams; [HipRanks], [HipTidy] and [HipDeadlock]: an application
    that records every event once is never blocked.

    HIP graphs.  [HipGraph] transcribes nodes, instances and launches on top of the
    streams; [HipGraphOrder] proves the order of nodes exact, [HipGraphBuild],
    [HipGraphPlaces] and [HipGraphRun] what calls keep and where nodes run,
    [HipGraphTheorems] that a launch keeps the dependencies.

    Compute units in the drivers.  [KdsEnv] has commands, registers and the
    interface [XcuFuncs] of a compute unit with its laws [XcuLaws]; [KdsHls] and
    [KdsFa] are its two implementations [cu_hls.c] and [fast_adapter.c]; [KdsCu]
    transcribes the queues of [xrt_cu.c] for any of them.  [KdsInvariant],
    [KdsSteps] and [KdsRuns] prove what every function keeps and define the runs,
    with the thread of a compute unit in all interleavings with other threads, the
    timer and interrupts; [KdsProtocol] treats the protocol of HLS compute units.
    [KdsTheorems]: no command is lost or reported twice, no wake-up is lost, a
    closing client gets its commands back, a CU is started only when it is done.
    [KdsExec] transcribes the check and the conversion of packets in
    [xocl_kds.c] and [xgq_execbuf.c], copies of buffers and the path with XGQ included,
    with a fault for every access outside the packet or the payload; proves exactly
    which packets fault, and composes run object, driver and compute
    unit: an argument set by the host is in the register when the CU starts.

    * What the theorems assume

    Where the code does not behave as one would like for some inputs or schedules, the
    theorems exclude these, and an example next to them shows what happens there.  The
    main ones:
    - firmware: outside dataflow mode; no ABORT of a slot out of use, interrupts only
      from busy CUs and for free slots, and none inside a transition of a slot;
    - run objects: kernels that fit an execution buffer; connectivity holds for buffers
      that are not imported and for which some CU is connected;
    - control code: locations that do not overlap, for patching again;
    - OpenCL events: no aborts and no failing device action, except in [OclAbort];
    - NDRange kernels: no global offset, and submissions that are accepted;
    - HIP: one thread; a wait orders what is enqueued while it is the top event of its
      stream, and graphs keep dependencies in a stream without top event;
    - buffers: round trips for normal buffers, with host and device memory of one handle;
    - compute units: implementations that keep [XcuLaws] (HLS and fast adapter, not those
      behind XGQ or soft kernels), a thread started at initialisation; for the protocol of
      HLS compute units, a device that signals done only when it has been started, and commands that
      do not write the control registers.

    * Conventions, bounds and fuel

    A definition bears the name of the function it transcribes.  Exceptions and
    failed assertions are values of an error type; undefined behaviour (an access
    outside of an array or a buffer, a dangling pointer) stops the model with an
    error of its own, so that its absence is a theorem.  Unsigned arithmetic is
    reduced at its width where the code relies on it.  Behaviours that a user does
    not expect are stated as examples next to the properties.

    Most loops are structural in a bound of the code.  Where they are not, the
    model takes fuel: in the firmware for the polls of the DMA engines before it
    halts, where the code polls for ever and the theorems hold for every fuel; in
    [OclAbort] for the recursion of abort, where the theorems prove that some fuel
    is enough; in [HipStream] for the recursion along events, where four times
    the number of commands and four is more than the mutexes that can be taken;
    in [HipGraph] the number of nodes, each of which is visited once; in [KdsCu] the
    counters of the queues, which the invariant proves to be their lengths, so that
    running out of fuel is excluded by the theorems.  The steps of thread pools are
    a relation, and the measures of [OclTermination], [OclContext] and
    [HwTermination] bound every schedule.  A hypothesis on a size (fewer than 2^64
    runs in a list, fewer than 2^31 commands in a queue, kernels that fit an
    execution buffer) states what the code takes for granted.

    Parameters: bus and device registers, hardware queue, the driver's counter of
    events, copy engine, allocator and memory topology, XML parser, configuration
    file, capacity of vectors, content of recycled buffers and of memory behind a
    payload, whether runs and copies of HIP start and succeed.

    * Not modelled

    Shims and emulation (system calls and calls to a simulator), profiling, tools,
    bindings, the JSON runner and vendored code have little logic of their own that
    others rely on.  Of the drivers: DMA engines, management of the card, the queues of
    XGQ and compute units behind them, soft
    kernels, the contexts of clients in [kds_core.c], output to sysfs.  Of the parts above: kernels with an ELF module,
    mailboxes, and the wait and abort calls of a single run; printf buffers and
    migration of [clEnqueueNDRangeKernel]; memory objects and programs of [xocl];
    export, import and asynchronous syncs of buffers; modules, contexts and
    memory pools of HIP. *)

From Stdlib Require Export ZArith Lia Bool List Btauto.
From stdpp Require Export base list gmap strings.
#[global] Open Scope Z_scope.

(** * Machine words *)

Definition u8 (x : Z) : Z := x mod 2 ^ 8.
Definition u16 (x : Z) : Z := x mod 2 ^ 16.
Definition u32 (x : Z) : Z := x mod 2 ^ 32.
Definition u64 (x : Z) : Z := x mod 2 ^ 64.

(** Two's complement reading of a 32-bit word ([int32_t], [cl_int]). *)
Definition s32 (x : Z) : Z :=
  let y := u32 x in if y <? 2 ^ 31 then y else y - 2 ^ 32.

Definition b2z (b : bool) : Z := if b then 1 else 0.

Create HintDb word.

Lemma u32_range x : 0 <= u32 x < 2 ^ 32.
Proof. apply Z.mod_pos_bound; lia. Qed.

Lemma u64_range x : 0 <= u64 x < 2 ^ 64.
Proof. apply Z.mod_pos_bound; lia. Qed.

Lemma u32_small x : 0 <= x < 2 ^ 32 -> u32 x = x.
Proof. apply Z.mod_small. Qed.

Lemma u64_small x : 0 <= x < 2 ^ 64 -> u64 x = x.
Proof. apply Z.mod_small. Qed.

Lemma u32_idem x : u32 (u32 x) = u32 x.
Proof. apply u32_small, u32_range. Qed.

Lemma u64_idem x : u64 (u64 x) = u64 x.
Proof. apply u64_small, u64_range. Qed.

#[export] Hint Resolve u32_range u64_range : word.


(** * Bits

    [zbits] decides an equation between words built from [land], [lor],
    shifts, truncations and contiguous masks by comparing bit by bit; the bits
    of a variable above its width are known from a range hypothesis through
    [testbit_high]. *)

Definition mask (lo len : Z) : Z := Z.shiftl (Z.ones len) lo.

Lemma testbit_high x n i : 0 <= x < 2 ^ n -> 0 <= n <= i -> Z.testbit x i = false.
Proof.
  intros Hx Hn. rewrite <- (Z.mod_small x (2 ^ n)) by lia.
  apply Z.mod_pow2_bits_high; lia.
Qed.

Lemma testbit_ones n i :
  0 <= n -> 0 <= i -> Z.testbit (Z.ones n) i = (i <? n).
Proof.
  intros Hn Hi. destruct (Z.ltb_spec i n).
  - apply Z.ones_spec_low; lia.
  - apply Z.ones_spec_high; lia.
Qed.

Lemma testbit_mask lo len i :
  0 <= lo -> 0 <= len -> 0 <= i ->
  Z.testbit (mask lo len) i = (lo <=? i) && (i <? lo + len).
Proof.
  intros ? ? ?. unfold mask. rewrite Z.shiftl_spec by lia.
  destruct (Z.leb_spec lo i); simpl.
  - rewrite testbit_ones by lia. apply eq_bool_prop_intro; rewrite !Is_true_true.
    rewrite !Z.ltb_lt; lia.
  - apply Z.testbit_neg_r; lia.
Qed.

Lemma testbit_mod n x i :
  0 <= n -> 0 <= i -> Z.testbit (x mod 2 ^ n) i = (i <? n) && Z.testbit x i.
Proof.
  intros Hn Hi. destruct (Z.ltb_spec i n); simpl.
  - apply Z.mod_pow2_bits_low; lia.
  - apply Z.mod_pow2_bits_high; lia.
Qed.

Lemma testbit_shiftl x k i :
  0 <= i -> Z.testbit (Z.shiftl x k) i = (k <=? i) && Z.testbit x (i - k).
Proof.
  intros Hi. rewrite Z.shiftl_spec by lia. destruct (Z.leb_spec k i); simpl; [done|].
  apply Z.testbit_neg_r; lia.
Qed.

Lemma testbit_shiftr x k i :
  0 <= i -> Z.testbit (Z.shiftr x k) i = Z.testbit x (i + k).
Proof. intros Hi. apply Z.shiftr_spec; lia. Qed.

Lemma lor_nonneg a b : 0 <= a -> 0 <= b -> 0 <= Z.lor a b.
Proof. intros; apply Z.lor_nonneg; lia. Qed.

Lemma range_of_bits x n :
  0 <= n -> 0 <= x -> (forall i, n <= i -> Z.testbit x i = false) -> 0 <= x < 2 ^ n.
Proof.
  intros Hn Hx Hb. split; [done|].
  assert (x = x mod 2 ^ n) as ->; [|apply Z.mod_pos_bound; lia].
  apply Z.bits_inj'; intros i Hi. rewrite testbit_mod by lia.
  destruct (Z.ltb_spec i n); simpl; [done|]. apply Hb; lia.
Qed.

Lemma lor_range a b n :
  0 <= n -> 0 <= a < 2 ^ n -> 0 <= b < 2 ^ n -> 0 <= Z.lor a b < 2 ^ n.
Proof.
  intros Hn Ha Hb. apply range_of_bits; [done|apply lor_nonneg; lia|].
  intros i Hi. rewrite Z.lor_spec, (testbit_high a n i), (testbit_high b n i) by lia.
  done.
Qed.

Lemma land_range_r a b n :
  0 <= n -> 0 <= b < 2 ^ n -> 0 <= Z.land a b < 2 ^ n.
Proof.
  intros Hn Hb. apply range_of_bits; [done|apply Z.land_nonneg; lia|].
  intros i Hi. rewrite Z.land_spec, (testbit_high b n i) by lia. by rewrite andb_false_r.
Qed.

Lemma land_range_l a b n :
  0 <= n -> 0 <= a < 2 ^ n -> 0 <= Z.land a b < 2 ^ n.
Proof. intros. rewrite Z.land_comm. by apply land_range_r. Qed.

Lemma land_ones_mod x n : 0 <= n -> Z.land x (Z.ones n) = x mod 2 ^ n.
Proof. apply Z.land_ones. Qed.

Ltac zcases :=
  repeat match goal with
  | |- context [?a <? ?b] =>
      first [ rewrite (proj2 (Z.ltb_lt a b)) by lia
            | rewrite (proj2 (Z.ltb_ge a b)) by lia
            | destruct (Z.ltb_spec a b) ]
  | |- context [?a <=? ?b] =>
      first [ rewrite (proj2 (Z.leb_le a b)) by lia
            | rewrite (proj2 (Z.leb_gt a b)) by lia
            | destruct (Z.leb_spec a b) ]
  end.

Ltac zhigh :=
  repeat match goal with
  | H : 0 <= ?x < 2 ^ ?n |- context [Z.testbit ?x ?i] =>
      rewrite (testbit_high x n i H) by lia
  end.

Ltac zspec :=
  repeat first
    [ rewrite Z.lor_spec | rewrite Z.land_spec | rewrite Z.lxor_spec | rewrite Z.ldiff_spec
    | rewrite testbit_shiftl by lia | rewrite testbit_shiftr by lia
    | rewrite testbit_mod by lia | rewrite testbit_mask by lia
    | rewrite testbit_ones by lia | rewrite Z.testbit_0_l ].

Ltac zbits_at i :=
  do 4 (zspec; zcases; cbn [andb orb xorb negb]); zhigh;
  rewrite ?andb_true_r, ?andb_false_r, ?orb_false_r, ?orb_true_r;
  repeat match goal with
  | |- context [Z.testbit ?x ?e] =>
      lazymatch e with
      | i => fail
      | _ => replace e with i by lia
      end
  end;
  try done; try (f_equal; lia); try btauto; try (do 2 f_equal; lia).

Ltac zbits :=
  let i := fresh "i" in let Hi := fresh "Hi" in
  apply Z.bits_inj'; intros i Hi; zbits_at i.

(** * Bit fields

    A C bit field of [len] bits at bit [lo] of a word, read and assigned. *)

Definition get_bits (lo len h : Z) : Z := Z.land (Z.shiftr h lo) (Z.ones len).
Definition set_bits (lo len v h : Z) : Z :=
  Z.lor (Z.ldiff h (mask lo len)) (Z.shiftl (v mod 2 ^ len) lo).

Lemma testbit_get_bits lo len h i :
  0 <= lo -> 0 <= len -> 0 <= i ->
  Z.testbit (get_bits lo len h) i = (i <? len) && Z.testbit h (i + lo).
Proof.
  intros ? ? ?. unfold get_bits. rewrite Z.land_spec, testbit_shiftr, testbit_ones by lia.
  apply andb_comm.
Qed.

Lemma testbit_set_bits lo len v h i :
  0 <= lo -> 0 <= len -> 0 <= i ->
  Z.testbit (set_bits lo len v h) i =
    if (lo <=? i) && (i <? lo + len) then Z.testbit v (i - lo) else Z.testbit h i.
Proof.
  intros Hlo Hlen Hi. unfold set_bits.
  rewrite Z.lor_spec, Z.ldiff_spec, testbit_mask, testbit_shiftl by lia.
  destruct (Z.leb_spec lo i); cbn [andb]; [|by rewrite andb_true_r, orb_false_r].
  rewrite testbit_mod by lia.
  destruct (Z.ltb_spec i (lo + len)), (Z.ltb_spec (i - lo) len); try lia; cbn [andb negb];
    by rewrite ?andb_false_r, ?andb_true_r, ?orb_false_r.
Qed.

Lemma get_set_bits lo len v h :
  0 <= lo -> 0 <= len -> 0 <= v < 2 ^ len -> get_bits lo len (set_bits lo len v h) = v.
Proof.
  intros Hlo Hlen Hv. apply Z.bits_inj'. intros i Hi.
  rewrite testbit_get_bits, testbit_set_bits by lia.
  destruct (Z.ltb_spec i len); cbn [andb].
  - rewrite (proj2 (Z.leb_le _ _)), (proj2 (Z.ltb_lt _ _)) by lia. cbn. f_equal. lia.
  - symmetry. apply (testbit_high v len); lia.
Qed.

Lemma get_set_bits_ne lo len lo' len' v h :
  0 <= lo -> 0 <= len -> 0 <= lo' -> 0 <= len' -> lo + len <= lo' \/ lo' + len' <= lo ->
  get_bits lo len (set_bits lo' len' v h) = get_bits lo len h.
Proof.
  intros ? ? ? ? Hd. apply Z.bits_inj'. intros i Hi.
  rewrite !testbit_get_bits, testbit_set_bits by lia.
  destruct (Z.ltb_spec i len); cbn [andb]; [|done].
  destruct (Z.leb_spec lo' (i + lo)), (Z.ltb_spec (i + lo) (lo' + len')); cbn; lia || done.
Qed.

Lemma set_bits_range lo len v h n :
  0 <= lo -> 0 <= len -> lo + len <= n -> 0 <= h < 2 ^ n -> 0 <= set_bits lo len v h < 2 ^ n.
Proof.
  intros Hlo Hlen Hn Hh. apply range_of_bits; [lia| |].
  - unfold set_bits. apply lor_nonneg; [apply Z.ldiff_nonneg; lia|].
    apply Z.shiftl_nonneg. apply Z.mod_pos_bound. lia.
  - intros i Hi. rewrite testbit_set_bits by lia.
    destruct (Z.leb_spec lo i), (Z.ltb_spec i (lo + len)); cbn; try lia;
      apply (testbit_high h n); lia.
Qed.

Lemma get_bits_range lo len h : 0 <= len -> 0 <= get_bits lo len h < 2 ^ len.
Proof.
  intros Hl. apply land_range_r; [done|]. rewrite Z.ones_equiv. pose proof (Z.pow_pos_nonneg 2 len). lia.
Qed.

(** * Arrays

    C++ arrays and vectors are lists; an index is a machine word. *)

Definition zlookup {A} (l : list A) (i : Z) : option A :=
  if i <? 0 then None else l !! Z.to_nat i.

Lemma zlookup_nat {A} (l : list A) (i : nat) : zlookup l (Z.of_nat i) = l !! i.
Proof. unfold zlookup. destruct (Z.ltb_spec (Z.of_nat i) 0); [lia|]. by rewrite Nat2Z.id. Qed.

Lemma zlookup_Some {A} (l : list A) i x :
  zlookup l i = Some x -> 0 <= i < Z.of_nat (length l) /\ l !! Z.to_nat i = Some x.
Proof.
  unfold zlookup. destruct (Z.ltb_spec i 0); [done|]. intros H'.
  pose proof (lookup_lt_Some _ _ _ H'). split; [lia|done].
Qed.

Lemma zlookup_in_range {A} (l : list A) i :
  0 <= i < Z.of_nat (length l) -> exists x, zlookup l i = Some x.
Proof.
  intros Hi. unfold zlookup. destruct (Z.ltb_spec i 0); [lia|].
  apply lookup_lt_is_Some_2. lia.
Qed.

Definition zinsert {A} (i : Z) (x : A) (l : list A) : list A := <[Z.to_nat i := x]> l.

(** * A state-and-error monad

    [M S E A] is a C++ routine that reads and writes the state [S], returns an
    [A], and may stop with an [E] (a thrown exception, an [exit], or an
    undefined array access); the state at the point of the stop is kept, since
    a thrown exception does not undo what was done before. *)

Inductive result (S E A : Type) : Type :=
| Ok (a : A) (s : S)
| Err (e : E) (s : S).
Arguments Ok {S E A} _ _.
Arguments Err {S E A} _ _.

Definition M (S E A : Type) : Type := S -> result S E A.

Definition ret {S E A} (a : A) : M S E A := fun s => Ok a s.
Definition raise {S E A} (e : E) : M S E A := fun s => Err e s.
Definition bind {S E A B} (m : M S E A) (k : A -> M S E B) : M S E B :=
  fun s => match m s with Ok a s' => k a s' | Err e s' => Err e s' end.
Definition gets {S E A} (f : S -> A) : M S E A := fun s => Ok (f s) s.
Definition modify {S E} (f : S -> S) : M S E unit := fun s => Ok tt (f s).

Declare Scope xrt_scope.
Delimit Scope xrt_scope with xrt.
Notation "x <- m ;; k" := (bind m (fun x => k))
  (at level 100, m at next level, right associativity) : xrt_scope.
Notation "m ;;; k" := (bind m (fun _ => k))
  (at level 100, right associativity) : xrt_scope.
#[global] Open Scope xrt_scope.

Definition when {S E} (b : bool) (m : M S E unit) : M S E unit :=
  if b then m else ret tt.

(** [for (i = lo; i < lo + n; ++i) body(i)] with a bound that does not change. *)
Fixpoint for_range {S E} (n : nat) (lo : Z) (body : Z -> M S E unit) : M S E unit :=
  match n with
  | O => ret tt
  | S n' => body lo ;;; for_range n' (lo + 1) body
  end.

(** [for (x : l) body(x)]. *)
Fixpoint for_each {S E A} (l : list A) (body : A -> M S E unit) : M S E unit :=
  match l with
  | [] => ret tt
  | x :: l' => body x ;;; for_each l' body
  end.

Lemma for_each_app {S E A} (l1 l2 : list A) (body : A -> M S E unit) (s : S) :
  for_each (l1 ++ l2) body s =
    match for_each l1 body s with Ok _ s' => for_each l2 body s' | Err e s' => Err e s' end.
Proof.
  revert s. induction l1 as [|x l1 IH]; intros s; [done|]. cbn [app for_each]. unfold bind.
  destruct (body x s); [apply IH|done].
Qed.

(** ** Weakest preconditions

    [wp m Q R s]: run from [s], [m] returns a value and a state in [Q], or
    stops with an error and a state in [R].  With [R := no_err] it states that
    the routine returns. *)

Definition wp {S E A} (m : M S E A) (Q : A -> S -> Prop) (R : E -> S -> Prop) (s : S) : Prop :=
  match m s with Ok a s' => Q a s' | Err e s' => R e s' end.

Arguments wp : simpl never.
Arguments ret : simpl never.
Arguments bind : simpl never.

Definition no_err {S E} : E -> S -> Prop := fun _ _ => False.

Section wp.
Context {S E : Type}.
Implicit Types (s : S) (R : E -> S -> Prop).

Lemma wp_ret {A} (a : A) (Q : A -> S -> Prop) R s : Q a s -> wp (ret a) Q R s.
Proof. done. Qed.

Lemma wp_raise {A} (e : E) (Q : A -> S -> Prop) R s : R e s -> wp (raise e) Q R s.
Proof. done. Qed.

Lemma wp_bind {A B} (m : M S E A) (k : A -> M S E B) (Q : B -> S -> Prop) R s :
  wp m (fun a s' => wp (k a) Q R s') R s -> wp (bind m k) Q R s.
Proof. unfold wp, bind. destruct (m s); done. Qed.

Lemma wp_gets {A} (f : S -> A) (Q : A -> S -> Prop) R s : Q (f s) s -> wp (gets f) Q R s.
Proof. done. Qed.

Lemma wp_modify (f : S -> S) (Q : unit -> S -> Prop) R s : Q tt (f s) -> wp (modify f) Q R s.
Proof. done. Qed.

Lemma wp_mono {A} (m : M S E A) (Q Q' : A -> S -> Prop) R R' s :
  wp m Q R s -> (forall a s', Q a s' -> Q' a s') -> (forall e s', R e s' -> R' e s') ->
  wp m Q' R' s.
Proof. unfold wp. destruct (m s); eauto. Qed.

Lemma wp_when b (m : M S E unit) (Q : unit -> S -> Prop) R s :
  (b = true -> wp m Q R s) -> (b = false -> Q tt s) -> wp (when b m) Q R s.
Proof. destruct b; intros; [by auto|]. unfold when. apply wp_ret; auto. Qed.

Lemma wp_if {A} (b : bool) (m1 m2 : M S E A) (Q : A -> S -> Prop) R s :
  (b = true -> wp m1 Q R s) -> (b = false -> wp m2 Q R s) ->
  wp (if b then m1 else m2) Q R s.
Proof. destruct b; auto. Qed.

(** Loop rule: an invariant indexed by the loop counter. *)
Lemma wp_for_range (I : Z -> S -> Prop) n lo (body : Z -> M S E unit) R s :
  I lo s ->
  (forall i s', lo <= i < lo + Z.of_nat n -> I i s' ->
     wp (body i) (fun _ => I (i + 1)) R s') ->
  wp (for_range n lo body) (fun _ => I (lo + Z.of_nat n)) R s.
Proof.
  revert lo s. induction n as [|n IH]; intros lo s H0 Hb; cbn [for_range].
  - apply wp_ret. replace (lo + Z.of_nat 0) with lo by lia. done.
  - apply wp_bind. eapply wp_mono; [apply Hb; [lia|done]| |done].
    intros a s' HI. replace (lo + Z.of_nat (Datatypes.S n)) with (lo + 1 + Z.of_nat n) by lia.
    apply IH; [done|]. intros i s'' Hi. apply Hb. lia.
Qed.

Lemma wp_for_each {A} (I : S -> Prop) (l : list A) (body : A -> M S E unit) R s :
  I s -> (forall x s', x ∈ l -> I s' -> wp (body x) (fun _ => I) R s') ->
  wp (for_each l body) (fun _ => I) R s.
Proof.
  revert s. induction l as [|x l IH]; intros s H0 Hb; cbn [for_each].
  - by apply wp_ret.
  - apply wp_bind. eapply wp_mono; [apply Hb; [set_solver|done]| |done].
    intros a s' HI. apply IH; [done|]. intros y s'' Hy. apply Hb. set_solver.
Qed.

Lemma wp_run {A} (m : M S E A) (Q : A -> S -> Prop) R s a s' :
  wp m Q R s -> m s = Ok a s' -> Q a s'.
Proof. unfold wp. intros H Hm. by rewrite Hm in H. Qed.

Lemma wp_Ok {A} (m : M S E A) (Q : A -> S -> Prop) s :
  wp m Q no_err s -> exists a s', m s = Ok a s' /\ Q a s'.
Proof. unfold wp. destruct (m s); [eauto|done]. Qed.
End wp.

Ltac wp_step :=
  lazymatch goal with
  | |- wp (bind _ _) _ _ _ => apply wp_bind
  | |- wp (ret _) _ _ _ => apply wp_ret
  | |- wp (raise _) _ _ _ => apply wp_raise
  | |- wp (gets _) _ _ _ => apply wp_gets
  | |- wp (modify _) _ _ _ => apply wp_modify
  | |- wp (when _ _) _ _ _ => apply wp_when; intros ?
  | |- wp (if true then ?m else _) ?Q ?R ?s => change (wp m Q R s)
  | |- wp (if false then _ else ?m) ?Q ?R ?s => change (wp m Q R s)
  | |- wp (if _ then _ else _) _ _ _ => apply wp_if; intros ?
  | |- wp (let _ := _ in _) _ _ _ => cbv zeta
  end.
Ltac wps := repeat (wp_step; cbv beta).
