(* ===== verification/Bytes.v ===== *)
(** Byte buffers: C++ memory of a known extent as the list of its bytes, the
    little-endian 32-bit words in it, and the lemmas on loads and stores of
    single words and of windows of consecutive words. *)

From S2P Require Import Prelude.

Definition byte_of (w : Z) (k : nat) : Z := Z.land (Z.shiftr w (8 * Z.of_nat k)) 0xFF.
Definition byte_at (m : list Z) (i : nat) : Z := default 0 (m !! i).

Definition word_at (m : list Z) (p : nat) : Z :=
  Z.lor (byte_at m p) (Z.lor (Z.shiftl (byte_at m (p + 1)) 8)
    (Z.lor (Z.shiftl (byte_at m (p + 2)) 16) (Z.shiftl (byte_at m (p + 3)) 24))).

Definition set_word (p : nat) (w : Z) (m : list Z) : list Z :=
  <[p := byte_of w 0]> (<[(p + 1)%nat := byte_of w 1]>
    (<[(p + 2)%nat := byte_of w 2]> (<[(p + 3)%nat := byte_of w 3]> m))).

Definition bytes (m : list Z) : Prop := Forall (fun b => 0 <= b < 2 ^ 8) m.
Definition words (ws : list Z) : Prop := Forall (fun w => 0 <= w < 2 ^ 32) ws.

(** The [n] words from byte [p] on. *)
Fixpoint words_at (m : list Z) (p n : nat) : list Z :=
  match n with O => [] | S n' => word_at m p :: words_at m (p + 4) n' end.

Fixpoint set_words (p : nat) (ws : list Z) (m : list Z) : list Z :=
  match ws with [] => m | w :: ws' => set_word p w (set_words (p + 4) ws' m) end.

(** * Single words *)

Lemma byte_of_range w k : 0 <= byte_of w k < 2 ^ 8.
Proof. apply land_range_r; lia. Qed.

Lemma byte_at_range m i : bytes m -> 0 <= byte_at m i < 2 ^ 8.
Proof.
  intros Hm. unfold byte_at. destruct (m !! i) as [b|] eqn:Hb; cbn; [|lia].
  by eapply (Forall_lookup_1 _ _ _ _ Hm).
Qed.

Lemma testbit_byte_of w k i :
  0 <= i -> Z.testbit (byte_of w k) i = (i <? 8) && Z.testbit w (i + 8 * Z.of_nat k).
Proof.
  intros Hi. unfold byte_of. change 0xFF with (Z.ones 8).
  rewrite Z.land_spec, testbit_ones, testbit_shiftr, andb_comm by lia. done.
Qed.

Lemma word_of_bytes w :
  0 <= w < 2 ^ 32 ->
  Z.lor (byte_of w 0) (Z.lor (Z.shiftl (byte_of w 1) 8)
    (Z.lor (Z.shiftl (byte_of w 2) 16) (Z.shiftl (byte_of w 3) 24))) = w.
Proof.
  intros Hw. apply Z.bits_inj'. intros i Hi.
  rewrite !Z.lor_spec, !testbit_shiftl, testbit_byte_of by lia.
  destruct (Z.leb_spec 8 i), (Z.leb_spec 16 i), (Z.leb_spec 24 i); try lia;
    rewrite ?testbit_byte_of by lia; cbn [andb orb]; zcases; cbn [andb orb];
    rewrite ?orb_false_r; try (f_equal; lia). 
  symmetry. apply (testbit_high w 32); lia.
Qed.

Lemma byte_of_word b0 b1 b2 b3 k :
  0 <= b0 < 2 ^ 8 -> 0 <= b1 < 2 ^ 8 -> 0 <= b2 < 2 ^ 8 -> 0 <= b3 < 2 ^ 8 -> (k < 4)%nat ->
  byte_of (Z.lor b0 (Z.lor (Z.shiftl b1 8) (Z.lor (Z.shiftl b2 16) (Z.shiftl b3 24)))) k =
  match k with 0%nat => b0 | 1%nat => b1 | 2%nat => b2 | _ => b3 end.
Proof.
  intros H0 H1 H2 H3 Hk. apply Z.bits_inj'. intros i Hi. rewrite testbit_byte_of by lia.
  destruct (Z.ltb_spec i 8); cbn [andb].
  2:{ symmetry. apply (testbit_high _ 8); [|lia]. destruct k as [|[|[|k]]]; done. }
  rewrite !Z.lor_spec, !testbit_shiftl by lia.
  destruct k as [|[|[|[|k]]]]; try lia; cbn [Z.of_nat Z.mul Z.add Pos.mul Pos.of_succ_nat Pos.succ]; zcases; cbn [andb orb]; zhigh; rewrite ?orb_false_r;
   cbn [orb]; f_equal; lia.
Qed.

Lemma lookup_set_word p w m i :
  (p + 4 <= length m)%nat ->
  set_word p w m !! i =
    if decide (p <= i < p + 4)%nat then Some (byte_of w (i - p)) else m !! i.
Proof.
  intros Hp. unfold set_word. rewrite !list_lookup_insert, !length_insert.
  repeat case_decide; subst; try lia; try done; repeat f_equal; lia.
Qed.

Lemma length_set_word p w m : length (set_word p w m) = length m.
Proof. unfold set_word. by rewrite !length_insert. Qed.

Lemma byte_at_set_word p w m i :
  (p + 4 <= length m)%nat ->
  byte_at (set_word p w m) i = if decide (p <= i < p + 4)%nat then byte_of w (i - p) else byte_at m i.
Proof. intros Hp. unfold byte_at. rewrite lookup_set_word by done. by case_decide. Qed.

Lemma word_at_set_word p w m :
  (p + 4 <= length m)%nat -> 0 <= w < 2 ^ 32 -> word_at (set_word p w m) p = w.
Proof.
  intros Hp Hw. unfold word_at. rewrite !byte_at_set_word by done.
  repeat (case_decide; [|lia]). rewrite <- (word_of_bytes w) at 5 by done.
  repeat f_equal; lia.
Qed.

Lemma word_at_ext m m' p :
  (forall i, (p <= i < p + 4)%nat -> byte_at m i = byte_at m' i) -> word_at m p = word_at m' p.
Proof. intros H. unfold word_at. by rewrite !H by lia. Qed.

Lemma word_at_range m p : bytes m -> 0 <= word_at m p < 2 ^ 32.
Proof.
  intros Hm. unfold word_at.
  pose proof (byte_at_range m p Hm). pose proof (byte_at_range m (p + 1) Hm).
  pose proof (byte_at_range m (p + 2) Hm). pose proof (byte_at_range m (p + 3) Hm).
  rewrite !Z.shiftl_mul_pow2 by lia. repeat apply (lor_range _ _ 32); lia.
Qed.

Lemma byte_of_word_at m p k :
  bytes m -> (k < 4)%nat -> byte_of (word_at m p) k = byte_at m (p + k).
Proof.
  intros Hm Hk. unfold word_at. rewrite byte_of_word by (done || by apply byte_at_range).
  destruct k as [|[|[|[|k]]]]; try lia; f_equal; lia.
Qed.

(** * Windows of words *)

Lemma length_words_at m p n : length (words_at m p n) = n.
Proof. revert p. induction n; intros p; cbn; auto. Qed.

Lemma length_set_words p ws m : length (set_words p ws m) = length m.
Proof. revert p. induction ws; intros p; cbn; [done|]. by rewrite length_set_word. Qed.

Lemma lookup_words_at m p n i :
  (i < n)%nat -> words_at m p n !! i = Some (word_at m (p + 4 * i)).
Proof.
  revert p i. induction n as [|n IH]; intros p i Hi; [lia|]. destruct i as [|i]; cbn [words_at].
  - cbn. repeat f_equal. lia.
  - cbn [lookup list_lookup]. rewrite IH by lia. do 2 f_equal. lia.
Qed.

Lemma words_at_words m p n : bytes m -> words (words_at m p n).
Proof.
  intros Hm. revert p. induction n; intros p; cbn; constructor; [by apply word_at_range|].
  apply IHn.
Qed.

Lemma lookup_set_words p ws m i :
  (p + 4 * length ws <= length m)%nat ->
  set_words p ws m !! i =
    if decide (p <= i < p + 4 * length ws)%nat
    then Some (byte_of (ws !!! ((i - p) / 4)%nat) ((i - p) mod 4)) else m !! i.
Proof.
  revert p. induction ws as [|w ws IH]; intros p Hp; cbn [set_words length] in *.
  { case_decide; [lia|done]. }
  rewrite lookup_set_word by (rewrite length_set_words; lia). rewrite IH by lia.
  repeat case_decide; try lia; try done.
  - rewrite Nat.div_small, Nat.mod_small by lia. done.
  - replace (i - p)%nat with (i - (p + 4) + 1 * 4)%nat by lia.
    rewrite Nat.div_add, Nat.Div0.mod_add by lia. by rewrite Nat.add_1_r.
Qed.

Lemma byte_at_set_words p ws m i :
  (p + 4 * length ws <= length m)%nat ->
  byte_at (set_words p ws m) i =
    if decide (p <= i < p + 4 * length ws)%nat
    then byte_of (ws !!! ((i - p) / 4)%nat) ((i - p) mod 4) else byte_at m i.
Proof. intros Hp. unfold byte_at. rewrite lookup_set_words by done. by case_decide. Qed.

Lemma bytes_set_words p ws m :
  (p + 4 * length ws <= length m)%nat -> bytes m -> bytes (set_words p ws m).
Proof.
  intros Hp Hm. apply Forall_lookup. intros i b Hb. rewrite lookup_set_words in Hb by done.
  case_decide; [injection Hb as <-; apply byte_of_range|]. by eapply (Forall_lookup_1 _ _ _ _ Hm).
Qed.

Lemma word_at_set_words p ws m i w :
  (p + 4 * length ws <= length m)%nat -> words ws -> ws !! i = Some w ->
  word_at (set_words p ws m) (p + 4 * i) = w.
Proof.
  revert p i. induction ws as [|w' ws IH]; intros p i Hp Hw Hi; [done|]. cbn [set_words length] in *.
  inversion Hw as [|? ? Hw1 Hw2]; subst. destruct i as [|i]; cbn in Hi.
  - injection Hi as ->. rewrite Nat.add_0_r. apply word_at_set_word; [|done].
    rewrite length_set_words. lia.
  - rewrite <- (IH (p + 4)%nat i) by (done || lia).
    replace (p + 4 * S i)%nat with (p + 4 + 4 * i)%nat by lia. apply word_at_ext.
    intros j Hj. rewrite byte_at_set_word by (rewrite length_set_words; lia). case_decide; [lia|done].
Qed.

Lemma words_at_set_words p ws m :
  (p + 4 * length ws <= length m)%nat -> words ws ->
  words_at (set_words p ws m) p (length ws) = ws.
Proof.
  intros Hp Hw. apply list_eq. intros i. destruct (decide (i < length ws)%nat) as [Hi|Hi].
  - rewrite lookup_words_at by done. destruct (lookup_lt_is_Some_2 ws i Hi) as [w Hwi].
    rewrite Hwi. f_equal. by eapply word_at_set_words.
  - rewrite !lookup_ge_None_2; [done|lia|rewrite length_words_at; lia].
Qed.

Lemma set_words_at p n m :
  bytes m -> (p + 4 * n <= length m)%nat -> set_words p (words_at m p n) m = m.
Proof.
  intros Hm Hp. apply list_eq. intros i.
  rewrite lookup_set_words by (rewrite length_words_at; done). rewrite length_words_at.
  case_decide as Hi; [|done]. pose proof (Nat.div_mod_eq (i - p) 4).
  pose proof (Nat.mod_upper_bound (i - p) 4 ltac:(lia)).
  assert ((i - p) / 4 < n)%nat as Hn by (apply Nat.Div0.div_lt_upper_bound; lia).
  rewrite (list_lookup_total_correct _ _ _ (lookup_words_at m p n _ Hn)).
  rewrite byte_of_word_at by done. unfold byte_at.
  replace (p + 4 * ((i - p) / 4) + (i - p) mod 4)%nat with i by lia.
  destruct (lookup_lt_is_Some_2 m i) as [b ->]; [lia|done].
Qed.

(** A store inside the window is an update of the list of words. *)
Lemma set_word_set_words p ws m i w :
  (p + 4 * length ws <= length m)%nat -> (i < length ws)%nat ->
  set_word (p + 4 * i) w (set_words p ws m) = set_words p (<[i := w]> ws) m.
Proof.
  intros Hp Hi. apply list_eq. intros j.
  rewrite lookup_set_word by (rewrite length_set_words; lia).
  rewrite !lookup_set_words by (rewrite ?length_insert; lia). rewrite length_insert.
  pose proof (Nat.div_mod_eq (j - p) 4). pose proof (Nat.mod_upper_bound (j - p) 4 ltac:(lia)).
  repeat case_decide; try lia; try done; f_equal; rewrite list_lookup_total_insert by done;
    case_decide; try lia; try done. f_equal. lia.
Qed.

(** The last write to a window counts. *)
Lemma set_words_set_words p ws ws' m :
  length ws = length ws' -> (p + 4 * length ws <= length m)%nat ->
  set_words p ws (set_words p ws' m) = set_words p ws m.
Proof.
  intros Hl Hp. apply list_eq. intros j.
  rewrite !lookup_set_words by (rewrite ?length_set_words; lia). rewrite Hl. by case_decide.
Qed.

(** Two windows of [n] words are disjoint. *)
Definition apart (n p q : nat) : Prop := (p + 4 * n <= q \/ q + 4 * n <= p)%nat.

Lemma set_words_comm n p q ws vs m :
  length ws = n -> length vs = n -> apart n p q ->
  (p + 4 * n <= length m)%nat -> (q + 4 * n <= length m)%nat ->
  set_words p ws (set_words q vs m) = set_words q vs (set_words p ws m).
Proof.
  intros Hw Hv Ha Hp Hq. apply list_eq. intros j. unfold apart in Ha.
  rewrite !lookup_set_words by (rewrite ?length_set_words; lia).
  repeat case_decide; lia || done.
Qed.

Lemma words_at_apart n p q vs m :
  length vs = n -> apart n p q -> (q + 4 * n <= length m)%nat ->
  words_at (set_words q vs m) p n = words_at m p n.
Proof.
  intros Hv Ha Hq. apply list_eq. intros i. unfold apart in Ha.
  destruct (decide (i < n)%nat) as [Hi|Hi].
  - rewrite !lookup_words_at by done. f_equal. apply word_at_ext. intros j Hj.
    rewrite byte_at_set_words by lia. case_decide; [lia|done].
  - rewrite !lookup_ge_None_2; [done|rewrite length_words_at; lia..].
Qed.

(** * Runs of bytes *)

(** [std::copy_n(bs, p)]: the bytes [bs] from byte [p] on. *)
Definition put_bytes (p : nat) (bs m : list Z) : list Z := list_inserts p bs m.

(** [n] bytes from byte [p] on. *)
Definition bytes_at (m : list Z) (p n : nat) : list Z := take n (drop p m).

(** The [n] low bytes of an integer, least significant first. *)
Definition le_bytes (n : nat) (v : Z) : list Z := byte_of v <$> seq 0 n.

Lemma length_put_bytes p bs m : length (put_bytes p bs m) = length m.
Proof. apply length_inserts. Qed.

Lemma length_le_bytes n v : length (le_bytes n v) = n.
Proof. unfold le_bytes. by rewrite length_fmap, length_seq. Qed.

Lemma bytes_le_bytes n v : bytes (le_bytes n v).
Proof. apply Forall_fmap, Forall_true. intros k. apply byte_of_range. Qed.

Lemma lookup_put_bytes p bs m i :
  (p + length bs <= length m)%nat ->
  put_bytes p bs m !! i =
    if decide (p <= i < p + length bs)%nat then bs !! (i - p)%nat else m !! i.
Proof.
  intros Hp. unfold put_bytes. case_decide as Hi.
  - apply list_lookup_inserts; lia.
  - destruct (decide (i < p)%nat).
    + by rewrite list_lookup_inserts_lt by lia.
    + by rewrite list_lookup_inserts_ge by lia.
Qed.

Lemma byte_at_put_bytes p bs m i :
  (p + length bs <= length m)%nat ->
  byte_at (put_bytes p bs m) i =
    if decide (p <= i < p + length bs)%nat then byte_at bs (i - p) else byte_at m i.
Proof. intros Hp. unfold byte_at. rewrite lookup_put_bytes by done. by case_decide. Qed.

Lemma bytes_put_bytes p bs m :
  (p + length bs <= length m)%nat -> bytes bs -> bytes m -> bytes (put_bytes p bs m).
Proof.
  intros Hp Hb Hm. apply Forall_lookup. intros i b. rewrite lookup_put_bytes by done.
  case_decide; intros Hi; [by eapply (Forall_lookup_1 _ _ _ _ Hb)|by eapply (Forall_lookup_1 _ _ _ _ Hm)].
Qed.

Lemma lookup_bytes_at m p n i :
  bytes_at m p n !! i = if decide (i < n)%nat then m !! (p + i)%nat else None.
Proof.
  unfold bytes_at. case_decide.
  - by rewrite lookup_take_lt, lookup_drop by done.
  - by rewrite lookup_take_ge by lia.
Qed.

Lemma length_bytes_at m p n : (p + n <= length m)%nat -> length (bytes_at m p n) = n.
Proof. intros. unfold bytes_at. rewrite length_take, length_drop. lia. Qed.

Lemma bytes_at_put_bytes p bs m :
  (p + length bs <= length m)%nat -> bytes_at (put_bytes p bs m) p (length bs) = bs.
Proof.
  intros Hp. apply list_eq. intros i. rewrite lookup_bytes_at, lookup_put_bytes by done.
  case_decide; [|by rewrite lookup_ge_None_2 by lia]. case_decide; [|lia]. f_equal. lia.
Qed.

Lemma bytes_at_frame p bs m q n :
  (p + length bs <= length m)%nat -> (q + n <= p \/ p + length bs <= q)%nat ->
  bytes_at (put_bytes p bs m) q n = bytes_at m q n.
Proof.
  intros Hp Hd. apply list_eq. intros i. rewrite !lookup_bytes_at, lookup_put_bytes by done.
  repeat case_decide; lia || done.
Qed.

Lemma word_at_put_bytes_frame p bs m q :
  (p + length bs <= length m)%nat -> (q + 4 <= p \/ p + length bs <= q)%nat ->
  word_at (put_bytes p bs m) q = word_at m q.
Proof.
  intros Hp Hd. apply word_at_ext. intros i Hi. rewrite byte_at_put_bytes by done.
  case_decide; [lia|done].
Qed.

Lemma word_at_put_bytes p bs m q :
  (p + length bs <= length m)%nat -> (q + 4 <= length bs)%nat ->
  word_at (put_bytes p bs m) (p + q) = word_at bs q.
Proof.
  intros Hp Hq. unfold word_at. rewrite !byte_at_put_bytes by done.
  repeat (case_decide; [|lia]). repeat f_equal; lia.
Qed.

Lemma put_bytes_app p bs cs m :
  (p + length bs + length cs <= length m)%nat ->
  put_bytes p (bs ++ cs) m = put_bytes (p + length bs) cs (put_bytes p bs m).
Proof.
  intros Hl. apply list_eq. intros i.
  rewrite !lookup_put_bytes by (rewrite ?length_put_bytes, ?length_app; lia).
  rewrite length_app. repeat case_decide; try lia; [..|done].
  - rewrite lookup_app_r by lia. f_equal. lia.
  - by rewrite lookup_app_l by lia.
Qed.

Lemma word_at_bytes_at m p n q :
  (q + 4 <= n)%nat -> word_at (bytes_at m p n) q = word_at m (p + q).
Proof.
  intros Hq. unfold word_at, byte_at. rewrite !lookup_bytes_at. repeat (case_decide; [|lia]).
  by rewrite !Nat.add_assoc.
Qed.

Lemma bytes_bytes_at m p n : bytes m -> bytes (bytes_at m p n).
Proof. intros Hm. by apply Forall_take, Forall_drop. Qed.

Lemma bytes_set_word p w m : (p + 4 <= length m)%nat -> bytes m -> bytes (set_word p w m).
Proof. intros Hp Hm. apply (bytes_set_words p [w] m); cbn; [lia|done]. Qed.

Lemma word_at_set_word_ne p q w m :
  (q + 4 <= length m)%nat -> (p + 4 <= q \/ q + 4 <= p)%nat ->
  word_at (set_word q w m) p = word_at m p.
Proof.
  intros Hq Hd. apply word_at_ext. intros i Hi. rewrite byte_at_set_word by done.
  case_decide; [lia|done].
Qed.

Lemma bytes_at_set_word p n q w m :
  (q + 4 <= length m)%nat -> (p + n <= q \/ q + 4 <= p)%nat ->
  bytes_at (set_word q w m) p n = bytes_at m p n.
Proof.
  intros Hq Hd. apply list_eq. intros i. rewrite !lookup_bytes_at. case_decide; [|done].
  rewrite lookup_set_word by done. case_decide; [lia|done].
Qed.

(** ** Writes confined to a window *)

(** [m'] has the length of [m] and its bytes outside [lo, hi). *)
Definition agree_outside (lo hi : nat) (m m' : list Z) : Prop :=
  length m' = length m /\ forall i, (i < lo \/ hi <= i)%nat -> m' !! i = m !! i.

Lemma agree_refl lo hi m : agree_outside lo hi m m.
Proof. done. Qed.

Lemma agree_trans lo hi m m' m'' :
  agree_outside lo hi m m' -> agree_outside lo hi m' m'' -> agree_outside lo hi m m''.
Proof.
  intros [Hl H] [Hl' H']. split; [congruence|]. intros i Hi. rewrite H' by done. by apply H.
Qed.

Lemma agree_weaken lo hi lo' hi' m m' :
  agree_outside lo hi m m' -> (lo' <= lo)%nat -> (hi <= hi')%nat -> agree_outside lo' hi' m m'.
Proof. intros [Hl H] ? ?. split; [done|]. intros i Hi. apply H. lia. Qed.

Lemma agree_set_word lo hi p w m :
  (p + 4 <= length m)%nat -> (lo <= p)%nat -> (p + 4 <= hi)%nat ->
  agree_outside lo hi m (set_word p w m).
Proof.
  intros Hp ? ?. split; [apply length_set_word|]. intros i Hi. rewrite lookup_set_word by done.
  case_decide; [lia|done].
Qed.

Lemma agree_put_bytes lo hi p bs m :
  (p + length bs <= length m)%nat -> (lo <= p)%nat -> (p + length bs <= hi)%nat ->
  agree_outside lo hi m (put_bytes p bs m).
Proof.
  intros Hp ? ?. split; [apply length_put_bytes|]. intros i Hi. rewrite lookup_put_bytes by done.
  case_decide; [lia|done].
Qed.

Lemma agree_word lo hi m m' p :
  agree_outside lo hi m m' -> (p + 4 <= lo \/ hi <= p)%nat -> word_at m' p = word_at m p.
Proof.
  intros [_ H] Hp. apply word_at_ext. intros i Hi. unfold byte_at. by rewrite H by lia.
Qed.

Lemma agree_bytes lo hi m m' p n :
  agree_outside lo hi m m' -> (p + n <= lo \/ hi <= p)%nat -> bytes_at m' p n = bytes_at m p n.
Proof.
  intros [_ H] Hp. apply list_eq. intros i. rewrite !lookup_bytes_at. case_decide; [|done].
  apply H. lia.
Qed.

Lemma agree_length lo hi m m' : agree_outside lo hi m m' -> length m' = length m.
Proof. by intros [H _]. Qed.

Create HintDb bytes.
#[export] Hint Resolve agree_refl bytes_set_word bytes_put_bytes bytes_le_bytes : bytes.
