(* ===== verification/ErtScheduler.v ===== *)
(** The embedded runtime scheduler, [src/runtime_src/ert/scheduler/scheduler.cpp]:
    the firmware that runs on the MicroBlaze of the ERT subsystem, fetches
    commands from the command queue, starts compute units (CUs) and reports
    completions to the host.

    The firmware's static variables are the fields of [config] (what a
    CONFIGURE packet sets), [tables] (the fixed-size arrays and bitsets) and
    [reg_table] (the register addresses).  Everything outside the
    MicroBlaze is the class [Bus]: reads and writes of memory-mapped registers
    act on an arbitrary world [W], so that volatile registers, the CUs and the
    host are unconstrained.  An access outside a fixed-size array stops the
    model with [Oob].  The default (non verbose) build is transcribed:
    [ERT_ASSERT] and the debug prints expand to nothing. *)

From S2P Require Import Prelude.

(** * Constants *)

(** HLS AXI-lite control bits. *)
Definition AP_START : Z := 0x1.
Definition AP_DONE : Z := 0x2.
Definition AP_IDLE : Z := 0x4.
Definition AP_CONTINUE : Z := 0x10.

(** Handshake encoding in the low byte of a CU address. *)
Definition AP_CTRL_NONE : Z := 2.
Definition CU_HANDSHAKE (addr : Z) : Z := Z.land addr 0xff.
Definition CU_ADDR (addr : Z) : Z := Z.land addr 0xffffff00.

Definition no_index : Z := 2 ^ 32 - 1.
Definition max_slots : nat := 128.
Definition max_cus : nat := 128.

(** Opcodes and command types of [ert.h] that the firmware distinguishes. *)
Definition ERT_START_KERNEL : Z := 0.
Definition ERT_CONFIGURE : Z := 2.
Definition ERT_EXIT : Z := 3.
Definition ERT_ABORT : Z := 4.
Definition ERT_EXEC_WRITE : Z := 5.
Definition ERT_CU_STAT : Z := 6.
Definition ERT_CU : Z := 3.

Definition ERT_CQ_SIZE : Z := 0x10000.
Definition ERT_HLS_MODULE_IDLE : Z := 0x1.

(** * Build targets

    [ERT_BUILD_U50] and [ERT_BUILD_V20] select addresses at compile time,
    [ERT_HW_EMU] the emulation build; [ERT_VERSION] is the git hash the build
    script passes in. *)

Inductive build := BUILD_DEFAULT | BUILD_U50 | BUILD_V20.

Record target := Target { bld : build; hw_emu : bool; ERT_VERSION : Z }.

(** * The world outside the MicroBlaze *)

Class Bus (W : Type) := {
  bus_read : Z -> W -> Z * W;
  bus_write : Z -> Z -> W -> W;
  microblaze_enable_interrupts : W -> W;
  microblaze_disable_interrupts : W -> W;
  reg_access_wait : W -> W;
}.

(** * State *)

Record slot_info := SlotInfo {
  slot_addr : Z;
  header_value : Z;
  slot_opcode : Z;
  slot_cu_idx : Z;
  slot_regmap_addr : Z;
  slot_regmap_size : Z;
}.

Definition default_slot : slot_info := SlotInfo 0 0 0 no_index 0 0.

Record config := Config {
  num_slots : Z;
  num_slot_masks : Z;
  num_cus : Z;
  num_cu_masks : Z;
  cu_base_address : Z;
  cu_offset : Z;
  slot_size : Z;
  cu_dma_enabled : bool;
  cu_interrupt_enabled : bool;
  cq_status_enabled : bool;
  mb_host_interrupt_enabled : bool;
  cu_dma_52 : bool;
  cdma_enabled : bool;
  dataflow_enabled : bool;
  kds_30 : bool;
  echo : bool;
}.

(** The values of the static initialisers. *)
Definition reset_config : config :=
  Config 16 1 3 1 0 16 0x1000 false false false false false false false false false.

Record tables := Tables {
  command_slots : list slot_info;
  slot_cache : list Z;
  cu_addr_map : list Z;
  cu_slot_usage : list Z;
  cu_usage : list Z;
  cu_status : list bool;
  slot_submitted : list bool;
  cu_interrupt_mask : list bool;
}.

Definition reset_tables : tables :=
  Tables (replicate max_slots default_slot) (replicate max_slots 0)
    (replicate max_cus 0) (replicate max_cus 0) (replicate max_cus 0)
    (replicate 128 false) (replicate 128 false) (replicate 128 false).

Record reg_table := RegTable {
  STATUS_REGISTER_ADDR : list Z;
  CU_DMA_REGISTER_ADDR : list Z;
  CU_STATUS_REGISTER_ADDR : list Z;
  CQ_STATUS_REGISTER_ADDR : list Z;
}.

Definition reset_regs : reg_table :=
  RegTable (replicate 4 0) (replicate 4 0) (replicate 4 0) (replicate 4 0).

(** Why a run of the firmware stops: an access outside a fixed-size array, a
    division by a zero slot size, the [exit(0)] of an EXIT command, or the poll
    budget of the model. *)
Inductive stop := Oob | DivZero | Exited | OutOfFuel.

Record fw (W : Type) := Fw {
  cfg : config;
  tab : tables;
  reg : reg_table;
  ert_base_addr : Z;
  world : W;
}.
Arguments Fw {W} _ _ _ _ _.
Arguments cfg {W} _.
Arguments tab {W} _.
Arguments reg {W} _.
Arguments ert_base_addr {W} _.
Arguments world {W} _.

Definition set_world {W} (w : W) (s : fw W) : fw W :=
  Fw (cfg s) (tab s) (reg s) (ert_base_addr s) w.
Definition set_cfg {W} (c : config) (s : fw W) : fw W :=
  Fw c (tab s) (reg s) (ert_base_addr s) (world s).
Definition set_tab {W} (t : tables) (s : fw W) : fw W :=
  Fw (cfg s) t (reg s) (ert_base_addr s) (world s).
Definition set_reg {W} (r : reg_table) (s : fw W) : fw W :=
  Fw (cfg s) (tab s) r (ert_base_addr s) (world s).
Definition set_base {W} (b : Z) (s : fw W) : fw W :=
  Fw (cfg s) (tab s) (reg s) b (world s).

Definition set_slots (l : list slot_info) (t : tables) : tables :=
  Tables l (slot_cache t) (cu_addr_map t) (cu_slot_usage t) (cu_usage t)
    (cu_status t) (slot_submitted t) (cu_interrupt_mask t).
Definition set_slot_cache (l : list Z) (t : tables) : tables :=
  Tables (command_slots t) l (cu_addr_map t) (cu_slot_usage t) (cu_usage t)
    (cu_status t) (slot_submitted t) (cu_interrupt_mask t).
Definition set_addr_map (l : list Z) (t : tables) : tables :=
  Tables (command_slots t) (slot_cache t) l (cu_slot_usage t) (cu_usage t)
    (cu_status t) (slot_submitted t) (cu_interrupt_mask t).
Definition set_slot_usage (l : list Z) (t : tables) : tables :=
  Tables (command_slots t) (slot_cache t) (cu_addr_map t) l (cu_usage t)
    (cu_status t) (slot_submitted t) (cu_interrupt_mask t).
Definition set_usage (l : list Z) (t : tables) : tables :=
  Tables (command_slots t) (slot_cache t) (cu_addr_map t) (cu_slot_usage t) l
    (cu_status t) (slot_submitted t) (cu_interrupt_mask t).
Definition set_status (l : list bool) (t : tables) : tables :=
  Tables (command_slots t) (slot_cache t) (cu_addr_map t) (cu_slot_usage t) (cu_usage t)
    l (slot_submitted t) (cu_interrupt_mask t).
Definition set_submitted (l : list bool) (t : tables) : tables :=
  Tables (command_slots t) (slot_cache t) (cu_addr_map t) (cu_slot_usage t) (cu_usage t)
    (cu_status t) l (cu_interrupt_mask t).
Definition set_intr_mask (l : list bool) (t : tables) : tables :=
  Tables (command_slots t) (slot_cache t) (cu_addr_map t) (cu_slot_usage t) (cu_usage t)
    (cu_status t) (slot_submitted t) l.

(** [slot.header_value = h]. *)
Definition set_header (h : Z) (sl : slot_info) : slot_info :=
  SlotInfo (slot_addr sl) h (slot_opcode sl) (slot_cu_idx sl)
    (slot_regmap_addr sl) (slot_regmap_size sl).

(** The slot state kept in the last four bits of the header. *)
Definition state_of (h : Z) : Z := Z.land h 0xF.
Definition st_new : Z := 0x1.
Definition st_queued : Z := 0x2.
Definition st_running : Z := 0x3.
Definition st_free : Z := 0x4.

(** [(h & ~0xF) | s]. *)
Definition with_state (h s : Z) : Z := Z.lor (Z.land h 0xfffffff0) s.

(** * Header fields *)

Definition opcode (h : Z) : Z := Z.land (Z.shiftr h 23) 0x1F.
Definition cmd_type (h : Z) : Z := Z.land (Z.shiftr h 28) 0xF.
Definition payload_size (h : Z) : Z := Z.land (Z.shiftr h 12) 0x7FF.
Definition cu_masks (h : Z) : Z := 1 + Z.land (Z.shiftr h 10) 0x3.
Definition cu_section_addr (sa : Z) : Z := u32 (sa + 4).
Definition regmap_section_addr (h sa : Z) : Z := u32 (cu_section_addr sa + cu_masks h * 4).
Definition regmap_size (h : Z) : Z := u32 (payload_size h - cu_masks h).

(** [1 << n] on the 32-bit MicroBlaze, whose barrel shifter uses the low five
    bits of the shift amount; [notify_host] relies on it. *)
Definition shl1 (n : Z) : Z := u32 (Z.shiftl 1 (n mod 32)).

Definition idx_in_mask (idx mask_idx : Z) : bool :=
  idx <? u32 (Z.shiftl (u32 (mask_idx + 1)) 5).
Definition idx_to_mask (idx mask_idx : Z) : Z :=
  if idx_in_mask idx mask_idx then shl1 (u32 (idx - u32 (Z.shiftl mask_idx 5))) else 0.

Section firmware.
  Context {W : Type} `{!Bus W} (tgt : target).

Definition ert : Type -> Type := M (fw W) stop.

(** * Registers and arrays *)

Definition read_reg (addr : Z) : ert Z :=
  fun s => let '(v, w') := bus_read addr (world s) in Ok (u32 v) (set_world w' s).
Definition write_reg (addr val : Z) : ert unit :=
  modify (fun s => set_world (bus_write addr (u32 val) (world s)) s).

Definition idx {A} (l : list A) (i : Z) : ert A :=
  match zlookup l i with Some x => ret x | None => raise Oob end.
Definition put {A} (get : tables -> list A) (set : list A -> tables -> tables)
    (i : Z) (x : A) : ert unit :=
  t <- gets tab ;;
  _ <- idx (get t) i ;;
  modify (set_tab (set (zinsert i x (get t)) t)).

Definition get_slot (i : Z) : ert slot_info :=
  t <- gets tab ;; idx (command_slots t) i.
Definition upd_slot (i : Z) (f : slot_info -> slot_info) : ert unit :=
  sl <- get_slot i ;; put command_slots set_slots i (f sl).
Definition get_cu_status (cu : Z) : ert bool :=
  t <- gets tab ;; idx (cu_status t) cu.
(** [cu_status[cu] = !cu_status[cu]]. *)
Definition toggle_cu_status (cu : Z) : ert unit :=
  b <- get_cu_status cu ;; put cu_status set_status cu (negb b).

Definition ERT_CQ_BASE_ADDR (s : fw W) : Z :=
  match bld tgt with
  | BUILD_U50 => 0x340000
  | BUILD_V20 => u32 (0x000000 + ert_base_addr s)
  | BUILD_DEFAULT => 0x190000
  end.
Definition ERT_CSR_ADDR (s : fw W) : Z :=
  match bld tgt with
  | BUILD_U50 => 0x360000
  | BUILD_V20 => u32 (0x010000 + ert_base_addr s)
  | BUILD_DEFAULT => 0x180000
  end.
Definition ERT_INTC_ADDR : Z :=
  match bld tgt with
  | BUILD_U50 => 0x00310000
  | BUILD_V20 => 0x01F20000
  | BUILD_DEFAULT => 0x41200000
  end.
Definition ERT_BASE_ADDR : Z := 0x01F30008.
(** A control and status register at an offset of the CSR base. *)
Definition csr (off : Z) (s : fw W) : Z := u32 (ERT_CSR_ADDR s + off).
Definition ERT_INTC_IPR_ADDR : Z := ERT_INTC_ADDR + 0x4.
Definition ERT_INTC_IER_ADDR : Z := ERT_INTC_ADDR + 0x8.
Definition ERT_INTC_IAR_ADDR : Z := ERT_INTC_ADDR + 0x0C.
Definition ERT_INTC_MER_ADDR : Z := ERT_INTC_ADDR + 0x1C.
Definition write_csr (off val : Z) : ert unit :=
  a <- gets (csr off) ;; write_reg a val.

Definition cu_idx_to_addr (cu : Z) : ert Z :=
  t <- gets tab ;; a <- idx (cu_addr_map t) cu ;; ret (CU_ADDR a).
Definition cu_idx_to_ctrl (cu : Z) : ert Z :=
  t <- gets tab ;; a <- idx (cu_addr_map t) cu ;; ret (CU_HANDSHAKE a).

(** The scope guard that masks interrupts around a routine: constructor and
    destructor read the feature flags at that time. *)
Definition intr_master (v : Z) : ert unit :=
  c <- gets cfg ;;
  when (cu_interrupt_enabled c || cq_status_enabled c) (write_reg ERT_INTC_MER_ADDR v).
Definition disable_interrupt_guard {A} (m : ert A) : ert A :=
  intr_master 0x0 ;;; r <- m ;; intr_master 0x3 ;;; ret r.

(** * Set up *)

Definition setup_ert_base_addr : ert unit :=
  modify (fun s => set_tab (set_addr_map (replicate max_cus AP_CTRL_NONE) (tab s)) s) ;;;
  match bld tgt with
  | BUILD_V20 => b <- read_reg ERT_BASE_ADDR ;; modify (set_base b)
  | _ => ret tt
  end ;;;
  modify (fun s => set_reg
    (RegTable [csr 0x0 s; csr 0x4 s; csr 0x8 s; csr 0xC s]
              [csr 0x1C s; csr 0x20 s; csr 0x24 s; csr 0x28 s]
              [csr 0x44 s; csr 0x48 s; csr 0x4C s; csr 0x50 s]
              [csr 0x58 s; csr 0x5C s; csr 0x60 s; csr 0x64 s]) s).

(** [ERT_CQ_SIZE / slot_size]. *)
Definition slots_per_queue (c : config) : ert Z :=
  if slot_size c =? 0 then raise DivZero else ret (ERT_CQ_SIZE / slot_size c).

Definition set_counts (n m k : Z) (c : config) : config :=
  Config n m (num_cus c) k (cu_base_address c) (cu_offset c) (slot_size c)
    (cu_dma_enabled c) (cu_interrupt_enabled c) (cq_status_enabled c)
    (mb_host_interrupt_enabled c) (cu_dma_52 c) (cdma_enabled c) (dataflow_enabled c)
    (kds_30 c) (echo c).

Definition setup_counts : ert unit :=
  c <- gets cfg ;;
  n <- (if dataflow_enabled c then
          if kds_30 c then slots_per_queue c else ret (u32 (num_cus c + 1))
        else slots_per_queue c) ;;
  modify (set_cfg (set_counts n (u32 (Z.shiftr (u32 (n - 1)) 5 + 1))
                     (u32 (Z.shiftr (u32 (num_cus c - 1)) 5 + 1)) c)).

(** The body of the loop that initialises the command slots. *)
Definition setup_slot (i : Z) : ert unit :=
  c <- gets cfg ;;
  base <- gets ERT_CQ_BASE_ADDR ;;
  upd_slot i (fun sl => SlotInfo (u32 (base + u32 (slot_size c * i))) 0x4
                          (slot_opcode sl) no_index 0 0) ;;;
  sl <- get_slot i ;;
  write_reg (slot_addr sl) 0x0 ;;;
  put slot_cache set_slot_cache i 0.

Definition clear_csr (i : Z) : ert unit :=
  r <- gets reg ;; a <- idx (STATUS_REGISTER_ADDR r) i ;; _ <- read_reg a ;; ret tt.

Definition setup_cu_usage (i : Z) : ert unit :=
  put cu_slot_usage set_slot_usage i no_index ;;;
  put cu_usage set_usage i 0.

Definition setup_csr : ert unit :=
  c <- gets cfg ;;
  write_csr 0x2C (slot_size c / 4) ;;;
  when (negb (cu_dma_52 c)) (write_csr 0x30 (cu_offset c)) ;;;
  write_csr 0x34 (num_slots c) ;;;
  when (negb (cu_dma_52 c)) (write_csr 0x38 (cu_base_address c / 4)) ;;;
  match bld tgt with
  | BUILD_DEFAULT => base <- gets ERT_CQ_BASE_ADDR ;; write_csr 0x3C (base / 4)
  | _ => write_csr 0x3C 0x0
  end ;;;
  write_csr 0x68 (num_cus c) ;;;
  write_csr 0x18 (b2z (cu_dma_enabled c)) ;;;
  when (cu_dma_52 c)
    (for_range (Z.to_nat (num_cus c)) 0 (fun i =>
       a <- cu_idx_to_addr i ;;
       lut <- gets (csr 0x400) ;;
       write_reg (u32 (lut + i * 4)) (a / 4))).

(** Enable or disable the interrupt of one CU. *)
Definition setup_cu_interrupt (enable : bool) (cu : Z) : ert unit :=
  ctrl <- cu_idx_to_ctrl cu ;;
  if ctrl =? AP_CTRL_NONE then ret tt else
  a <- cu_idx_to_addr cu ;;
  write_reg (u32 (a + 0x4)) (b2z enable) ;;;
  write_reg (u32 (a + 0x8)) (b2z enable) ;;;
  when enable (put cu_interrupt_mask set_intr_mask cu true).

(** Returns the bits to accept in the interrupt controller. *)
Definition setup_cu_interrupts : ert Z :=
  modify (fun s => set_tab (set_intr_mask (replicate 128 false) (tab s)) s) ;;;
  c <- gets cfg ;;
  for_range (Z.to_nat (num_cus c)) 0 (setup_cu_interrupt (cu_interrupt_enabled c)) ;;;
  if cu_interrupt_enabled c then
    write_csr 0x40 1 ;;;
    ret (Z.lor 0x2 (if cdma_enabled c then 0x4 else 0))
  else
    v <- read_reg ERT_INTC_IER_ADDR ;;
    write_reg ERT_INTC_IER_ADDR (Z.land v 0xfffffff9) ;;;
    write_csr 0x40 0 ;;;
    ret 0.

Definition setup_cq_status (intc_ier_mask : Z) : ert Z :=
  c <- gets cfg ;;
  if cq_status_enabled c then
    write_csr 0x54 1 ;;;
    ret (Z.lor intc_ier_mask 0x1)
  else
    v <- read_reg ERT_INTC_IER_ADDR ;;
    write_reg ERT_INTC_IER_ADDR (Z.land v 0xfffffffe) ;;;
    write_csr 0x54 0 ;;;
    ret intc_ier_mask.

Definition setup_master (intc_ier_mask : Z) : ert unit :=
  c <- gets cfg ;;
  if cu_interrupt_enabled c || cq_status_enabled c then
    write_reg ERT_INTC_IER_ADDR intc_ier_mask ;;;
    write_reg ERT_INTC_MER_ADDR 0x3 ;;;
    modify (fun s => set_world (microblaze_enable_interrupts (world s)) s)
  else
    v <- read_reg ERT_INTC_MER_ADDR ;;
    write_reg ERT_INTC_MER_ADDR (Z.land v 0xfffffffc) ;;;
    modify (fun s => set_world (microblaze_disable_interrupts (world s)) s).

Definition setup : ert unit :=
  setup_counts ;;;
  c <- gets cfg ;;
  for_range (Z.to_nat (num_slots c)) 0 setup_slot ;;;
  for_range 4 0 clear_csr ;;;
  modify (fun s => set_tab (set_status (replicate 128 false) (tab s)) s) ;;;
  modify (fun s => set_tab (set_submitted (replicate 128 false) (tab s)) s) ;;;
  for_range (Z.to_nat (num_cus c)) 0 setup_cu_usage ;;;
  setup_csr ;;;
  m <- setup_cu_interrupts ;;
  m <- setup_cq_status m ;;
  setup_master m ;;;
  write_csr 0x100 (b2z (mb_host_interrupt_enabled c)).

(** * Starting compute units *)

(** Record which slot a CU executes and count the execution. *)
Definition set_cu_info (cu slot_idx : Z) : ert unit :=
  put cu_slot_usage set_slot_usage cu slot_idx ;;;
  t <- gets tab ;;
  n <- idx (cu_usage t) cu ;;
  put cu_usage set_usage cu (u32 (n + 1)).

Definition notify_host (cmd_idx : Z) : ert unit :=
  r <- gets reg ;;
  a <- idx (STATUS_REGISTER_ADDR r) (Z.shiftr cmd_idx 5) ;;
  write_reg a (shl1 cmd_idx).

(** Copy the register map, from word 4 on, and start the CU. *)
Definition configure_cu (cu_addr regmap_addr regmap_size : Z) : ert unit :=
  for_range (Z.to_nat (regmap_size - 4)) 4 (fun i =>
    v <- read_reg (u32 (regmap_addr + Z.shiftl i 2)) ;;
    write_reg (u32 (cu_addr + Z.shiftl i 2)) v) ;;;
  write_reg cu_addr 0x1.

(** Address-value pairs: iteration [k] handles the words [2 k] and [2 k + 1].
    The counter of the source steps by two in 32 bits, so it never reaches a
    size of [2^32 - 1] and that loop does not end. *)
Definition configure_cu_ooo (cu_addr regmap_addr regmap_size : Z) : ert unit :=
  if regmap_size =? 2 ^ 32 - 1 then raise OutOfFuel else
  for_range (Z.to_nat ((regmap_size + 1) / 2)) 0 (fun k =>
    let i := 2 * k in
    offset <- read_reg (u32 (regmap_addr + Z.shiftl i 2)) ;;
    value <- read_reg (u32 (regmap_addr + Z.shiftl (i + 1) 2)) ;;
    write_reg (u32 (cu_addr + offset)) value) ;;;
  write_reg cu_addr 0x1.

Definition configure_cu_dma (cu slot_idx sa : Z) : ert unit :=
  c <- gets cfg ;;
  (if cu_dma_52 c then
     a <- cu_idx_to_addr cu ;;
     write_reg (cu_section_addr sa) (Z.shiftr a 2)
   else
     for_range (Z.to_nat (num_cu_masks c)) 0 (fun mask_idx =>
       write_reg (u32 (cu_section_addr sa + Z.shiftl mask_idx 2)) (idx_to_mask cu mask_idx))) ;;;
  let mask_idx := Z.shiftr slot_idx 5 in
  r <- gets reg ;;
  a <- idx (CU_DMA_REGISTER_ADDR r) mask_idx ;;
  write_reg a (idx_to_mask slot_idx mask_idx).

(** The three ways to hand a command to an idle CU. *)
Definition launch (slot_idx : Z) (sl : slot_info) : ert unit :=
  c <- gets cfg ;;
  let cu := slot_cu_idx sl in
  if slot_opcode sl =? ERT_EXEC_WRITE then
    a <- cu_idx_to_addr cu ;;
    configure_cu_ooo a (slot_regmap_addr sl) (slot_regmap_size sl)
  else if cu_dma_enabled c && (cu_dma_52 c || (regmap_size (header_value sl) <? 127 + 4)) then
    configure_cu_dma cu slot_idx (slot_addr sl)
  else
    a <- cu_idx_to_addr cu ;;
    configure_cu a (slot_regmap_addr sl) (slot_regmap_size sl).

Definition start_cu (slot_idx : Z) : ert Z :=
  sl <- get_slot slot_idx ;;
  let cu := slot_cu_idx sl in
  busy <- get_cu_status cu ;;
  if busy : bool then ret no_index else
  launch slot_idx sl ;;;
  toggle_cu_status cu ;;;
  set_cu_info cu slot_idx ;;;
  ret cu.

(** * Completion *)

(** [slot.header_value = (slot.header_value & ~0xF) | 0x4]. *)
Definition free_slot (slot_idx : Z) : ert unit :=
  upd_slot slot_idx (fun sl => set_header (with_state (header_value sl) st_free) sl).

Definition check_command (slot_idx cu : Z) : ert unit :=
  notify_host slot_idx ;;; free_slot slot_idx.

Definition check_cu (cu : Z) : ert bool :=
  t <- gets tab ;;
  by_interrupt <- idx (cu_interrupt_mask t) cu ;;
  if by_interrupt : bool then ret false else
  a <- cu_idx_to_addr cu ;;
  v <- read_reg a ;;
  if Z.land v AP_DONE =? 0 then ret false else
  toggle_cu_status cu ;;;
  put cu_slot_usage set_slot_usage cu no_index ;;;
  ret true.

(** * Control commands *)

Definition feature (features bit : Z) : bool := negb (Z.land features bit =? 0).

Definition configure_mb (slot_idx : Z) : ert bool :=
  sl <- get_slot slot_idx ;;
  let sa := slot_addr sl in
  ssize <- read_reg (u32 (sa + 0x4)) ;;
  ncus <- read_reg (u32 (sa + 0x8)) ;;
  offs <- read_reg (u32 (sa + 0xC)) ;;
  base <- read_reg (u32 (sa + 0x10)) ;;
  features <- read_reg (u32 (sa + 0x14)) ;;
  c <- gets cfg ;;
  modify (set_cfg
    (Config (num_slots c) (num_slot_masks c) ncus (num_cu_masks c) base offs ssize
       (feature features 0x4) (feature features 0x8) (feature features 0x10)
       (negb (feature features 0x2))
       (if hw_emu tgt then true else feature features 0x80000000)
       (feature features 0x20) (feature features 0x40) (feature features 0x100)
       (feature features 0x400))) ;;;
  for_range (Z.to_nat ncus) 0 (fun i =>
    a <- read_reg (u32 (sa + 0x18 + Z.shiftl i 2)) ;;
    put cu_addr_map set_addr_map i a) ;;;
  setup ;;;
  notify_host slot_idx ;;;
  free_slot slot_idx ;;;
  ret true.

Definition set_exit (c : config) : config :=
  Config (num_slots c) (num_slot_masks c) (num_cus c) (num_cu_masks c) (cu_base_address c)
    (cu_offset c) (slot_size c) false false (cq_status_enabled c)
    (mb_host_interrupt_enabled c) (cu_dma_52 c) (cdma_enabled c) (dataflow_enabled c)
    (kds_30 c) (echo c).

(** The poll of the DMA and ISR state machines; [fuel] bounds the polls. *)
Fixpoint exit_poll (fuel : nat) (cu_dma_state cu_isr_state : Z) : ert unit :=
  if negb (cu_dma_state =? ERT_HLS_MODULE_IDLE) && negb (cu_isr_state =? ERT_HLS_MODULE_IDLE)
  then match fuel with
       | O => raise OutOfFuel
       | S fuel' =>
           d <- gets (csr 0x318) ;; d <- read_reg d ;;
           i <- gets (csr 0x328) ;; i <- read_reg i ;;
           exit_poll fuel' d i
       end
  else ret tt.

Definition exit_mb (fuel : nat) (slot_idx : Z) : ert bool :=
  modify (fun s => set_cfg (set_exit (cfg s)) s) ;;;
  write_csr 0x18 0 ;;;
  write_csr 0x40 0 ;;;
  d <- gets (csr 0x318) ;; d <- read_reg d ;;
  i <- gets (csr 0x328) ;; i <- read_reg i ;;
  exit_poll fuel d i ;;;
  free_slot slot_idx ;;;
  sl <- get_slot slot_idx ;;
  write_reg (slot_addr sl) (header_value sl) ;;;
  raise Exited.

(** [for (i = 0; pkt_idx < max_idx && i < n; ++i) write(pkt_idx++, word(i))];
    returns the next packet index. *)
Fixpoint stat_words (n : nat) (i pkt_idx max_idx sa : Z) (word : Z -> ert Z) : ert Z :=
  match n with
  | O => ret pkt_idx
  | S n' =>
      if pkt_idx <? max_idx then
        v <- word i ;;
        write_reg (u32 (sa + Z.shiftl pkt_idx 2)) v ;;;
        stat_words n' (i + 1) (pkt_idx + 1) max_idx sa word
      else ret pkt_idx
  end.

Definition cu_stat (slot_idx : Z) : ert bool :=
  sl <- get_slot slot_idx ;;
  let sa := slot_addr sl in
  c <- gets cfg ;;
  let max_idx := Z.shiftr (slot_size c) 2 in
  write_reg (u32 (sa + Z.shiftl 1 2)) 0x51a10000 ;;;
  write_reg (u32 (sa + Z.shiftl 2 2)) (ERT_VERSION tgt) ;;;
  write_reg (u32 (sa + Z.shiftl 3 2)) (num_slots c) ;;;
  write_reg (u32 (sa + Z.shiftl 4 2)) (num_cus c) ;;;
  p <- stat_words (Z.to_nat (num_cus c)) 0 5 max_idx sa
         (fun i => t <- gets tab ;; idx (cu_usage t) i) ;;
  p <- stat_words (Z.to_nat (num_cus c)) 0 p max_idx sa
         (fun i => b <- get_cu_status i ;; ret (b2z b)) ;;
  p <- stat_words (Z.to_nat (num_slots c)) 0 p max_idx sa
         (fun i => s <- get_slot i ;; ret (state_of (header_value s))) ;;
  notify_host slot_idx ;;;
  free_slot slot_idx ;;;
  ret true.

Definition abort_mb (slot_idx : Z) : ert bool :=
  disable_interrupt_guard
    (sl <- get_slot slot_idx ;;
     let sidx := Z.land (Z.shiftr (header_value sl) 15) 0xFF in
     s <- get_slot sidx ;;
     if negb (opcode (header_value s) =? ERT_START_KERNEL) then ret true else
     if negb (state_of (header_value s) =? st_running) then ret true else
     let cu := slot_cu_idx s in
     check_command sidx cu ;;;
     put cu_slot_usage set_slot_usage cu no_index ;;;
     toggle_cu_status cu ;;;
     notify_host slot_idx ;;;
     ret true).

Definition process_special_command (fuel : nat) (opc slot_idx : Z) : ert bool :=
  if opc =? ERT_CONFIGURE then configure_mb slot_idx
  else if opc =? ERT_CU_STAT then cu_stat slot_idx
  else if opc =? ERT_EXIT then exit_mb fuel slot_idx
  else if opc =? ERT_ABORT then abort_mb slot_idx
  else ret false.

(** * Slot state transitions *)

Definition free_to_new (slot_idx : Z) : ert bool :=
  sl <- get_slot slot_idx ;;
  header <- read_reg (slot_addr sl) ;;
  if state_of header =? st_new then
    write_reg (slot_addr sl) (Z.lor header 0xF) ;;;
    upd_slot slot_idx (set_header header) ;;;
    ret true
  else ret false.

Definition set_opcode (o : Z) (sl : slot_info) : slot_info :=
  SlotInfo (slot_addr sl) (header_value sl) o (slot_cu_idx sl)
    (slot_regmap_addr sl) (slot_regmap_size sl).

Definition new_to_queued (fuel : nat) (slot_idx : Z) : ert bool :=
  sl <- get_slot slot_idx ;;
  let cmt := cmd_type (header_value sl) in
  let opc := opcode (header_value sl) in
  upd_slot slot_idx (set_opcode opc) ;;;
  if negb (cmt =? ERT_CU) then
    _ <- process_special_command fuel opc slot_idx ;;
    ret false
  else
    cu <- read_reg (cu_section_addr (slot_addr sl)) ;;
    upd_slot slot_idx (fun sl =>
      SlotInfo (slot_addr sl) (with_state (header_value sl) st_queued) (slot_opcode sl) cu
        (regmap_section_addr (header_value sl) (slot_addr sl))
        (regmap_size (header_value sl))) ;;;
    ret true.

Definition queued_to_running (slot_idx : Z) : ert bool :=
  disable_interrupt_guard
    (cu <- start_cu slot_idx ;;
     if cu =? no_index then ret false else
     upd_slot slot_idx (fun sl => set_header (Z.lor (header_value sl) 0x1) sl) ;;;
     ret true).

Definition running_to_free (slot_idx : Z) : ert bool :=
  sl <- get_slot slot_idx ;;
  finished <- check_cu (slot_cu_idx sl) ;;
  if negb finished then ret false else
  notify_host slot_idx ;;;
  free_slot slot_idx ;;;
  ret true.

(** * Dataflow mode of KDS 3.0 *)

Definition command_queue_fetch (slot_idx : Z) : ert unit :=
  sl <- get_slot slot_idx ;;
  let sa := slot_addr sl in
  val <- read_reg sa ;;
  val <- (if negb (val =? 0) then read_reg sa else ret val) ;;
  if Z.land val AP_START =? 0 then ret tt else
  write_reg sa 0x0 ;;;
  c <- gets cfg ;;
  if echo c then notify_host slot_idx else
  put slot_cache set_slot_cache slot_idx val ;;;
  cu <- read_reg (cu_section_addr sa) ;;
  upd_slot slot_idx (fun sl =>
    SlotInfo (slot_addr sl) val (opcode val) cu (regmap_section_addr val sa) (regmap_size val)).

Definition cu_state_check (slot_idx : Z) : ert unit :=
  sl <- get_slot slot_idx ;;
  let cu := slot_cu_idx sl in
  a <- cu_idx_to_addr cu ;;
  cuvalue <- read_reg a ;;
  busy <- get_cu_status cu ;;
  if busy && negb (Z.land cuvalue AP_DONE =? 0) then
    t <- gets tab ;;
    cu_slot <- idx (cu_slot_usage t) cu ;;
    write_reg a AP_CONTINUE ;;;
    notify_host cu_slot ;;;
    toggle_cu_status cu ;;;
    put slot_cache set_slot_cache cu_slot 0
  else ret tt.

Definition cu_execution (slot_idx : Z) : ert unit :=
  sl <- get_slot slot_idx ;;
  let cu := slot_cu_idx sl in
  busy <- get_cu_status cu ;;
  if busy : bool then ret tt else
  t <- gets tab ;;
  cached <- idx (slot_cache t) slot_idx ;;
  if Z.land cached AP_START =? 0 then ret tt else
  a <- cu_idx_to_addr cu ;;
  (if slot_opcode sl =? ERT_EXEC_WRITE
   then configure_cu_ooo a (slot_regmap_addr sl) (slot_regmap_size sl)
   else configure_cu a (slot_regmap_addr sl) (slot_regmap_size sl)) ;;;
  toggle_cu_status cu ;;;
  set_cu_info cu slot_idx.

(** * The scheduler loop *)

(** Dataflow mode of KDS 2.0: poll the CU of a slot. *)
Definition dataflow_poll (slot_idx : Z) : ert unit :=
  sl <- get_slot slot_idx ;;
  let cu := u32 (slot_idx - 1) in
  polled <- get_cu_status cu ;;
  (if polled : bool then ret tt else
     cqvalue <- read_reg (slot_addr sl) ;;
     if Z.land cqvalue (Z.lor AP_START AP_CONTINUE) =? 0 then ret tt else
     write_reg (slot_addr sl) 0x0 ;;;
     toggle_cu_status cu) ;;;
  polled <- get_cu_status cu ;;
  if negb polled then ret tt else
  a <- cu_idx_to_addr cu ;;
  cuvalue <- read_reg a ;;
  if Z.land cuvalue (Z.lor AP_DONE AP_IDLE) =? 0 then ret tt else
  toggle_cu_status cu ;;;
  notify_host slot_idx.

(** Dataflow mode of KDS 3.0: fetch, check, execute. *)
Definition dataflow_kds30 (slot_idx : Z) : ert unit :=
  t <- gets tab ;;
  cached <- idx (slot_cache t) slot_idx ;;
  when (cached =? 0) (command_queue_fetch slot_idx) ;;;
  t <- gets tab ;;
  cached <- idx (slot_cache t) slot_idx ;;
  if cached =? 0 then ret tt else
  cu_state_check slot_idx ;;;
  cu_execution slot_idx.

(** The state nibble of a slot, read through the reference [slot]. *)
Definition slot_state (slot_idx : Z) : ert Z :=
  sl <- get_slot slot_idx ;; ret (state_of (header_value sl)).

(** The four guarded transitions of a slot in normal mode, the last one first;
    [continue] of the source is the early return. *)
Definition running_stage (slot_idx : Z) : ert unit :=
  c <- gets cfg ;;
  n <- slot_state slot_idx ;;
  if negb (cu_interrupt_enabled c) && (n =? st_running) then
    _ <- running_to_free slot_idx ;; ret tt
  else ret tt.

Definition queued_stage (slot_idx : Z) : ert unit :=
  n <- slot_state slot_idx ;;
  ok <- (if n =? st_queued then queued_to_running slot_idx else ret true) ;;
  if negb ok then ret tt else running_stage slot_idx.

Definition new_stage (fuel : nat) (slot_idx : Z) : ert unit :=
  n <- slot_state slot_idx ;;
  ok <- (if n =? st_new then new_to_queued fuel slot_idx else ret true) ;;
  if negb ok then ret tt else queued_stage slot_idx.

Definition normal_slot (fuel : nat) (slot_idx : Z) : ert unit :=
  c <- gets cfg ;;
  n <- slot_state slot_idx ;;
  ok <- (if negb (cq_status_enabled c) && (n =? st_free) then free_to_new slot_idx else ret true) ;;
  if negb ok then ret tt else new_stage fuel slot_idx.

(** The body of the loop over the slots. *)
Definition scheduler_slot (fuel : nat) (slot_idx : Z) : ert unit :=
  _ <- get_slot slot_idx ;;
  when (hw_emu tgt) (modify (fun s => set_world (reg_access_wait (world s)) s)) ;;;
  c <- gets cfg ;;
  if dataflow_enabled c && (0 <? slot_idx) && negb (kds_30 c) then dataflow_poll slot_idx
  else if dataflow_enabled c && (0 <? slot_idx) && kds_30 c then dataflow_kds30 slot_idx
  else normal_slot fuel slot_idx.

(** One round over the slots; the bound is re-read because a CONFIGURE command
    changes the number of slots.  A round visits at most [max_slots] slots
    before an access leaves the slot array, hence the [rounds] bound. *)
Fixpoint scheduler_round (rounds fuel : nat) (slot_idx : Z) : ert unit :=
  c <- gets cfg ;;
  if slot_idx <? num_slots c then
    match rounds with
    | O => raise OutOfFuel
    | S rounds' => scheduler_slot fuel slot_idx ;;; scheduler_round rounds' fuel (slot_idx + 1)
    end
  else ret tt.

Fixpoint scheduler_rounds (n fuel : nat) : ert unit :=
  match n with
  | O => ret tt
  | S n' => scheduler_round (S max_slots) fuel 0 ;;; scheduler_rounds n' fuel
  end.

(** [n] iterations of the outer [while (1)]. *)
Definition scheduler_loop (n fuel : nat) : ert unit :=
  setup_ert_base_addr ;;; setup ;;; scheduler_rounds n fuel.

(** * Interrupt service routine *)

(** A CU is done: free its slot, notify the host, mark the CU idle. *)
Definition complete_cu (cu : Z) : ert unit :=
  t <- gets tab ;;
  s <- idx (cu_slot_usage t) cu ;;
  check_command s cu ;;;
  put cu_slot_usage set_slot_usage cu no_index ;;;
  toggle_cu_status cu.

(** [for (cu = offset; cu_mask; cu_mask >>= 1, ++cu)]: 32 steps empty a mask. *)
Fixpoint cu_mask_loop (fuel : nat) (cu_mask cu : Z) : ert unit :=
  if cu_mask =? 0 then ret tt else
  match fuel with
  | O => raise OutOfFuel
  | S fuel' =>
      (if Z.land cu_mask 0x1 =? 0 then ret tt else
         t <- gets tab ;;
         enabled <- idx (cu_interrupt_mask t) cu ;;
         if enabled : bool then complete_cu cu else ret tt) ;;;
      cu_mask_loop fuel' (Z.shiftr cu_mask 1) (cu + 1)
  end.

Fixpoint slot_mask_loop (fuel : nat) (slot_mask slot_idx : Z) : ert unit :=
  if slot_mask =? 0 then ret tt else
  match fuel with
  | O => raise OutOfFuel
  | S fuel' =>
      (if Z.land slot_mask 0x1 =? 0 then ret tt else
         _ <- free_to_new slot_idx ;; ret tt) ;;;
      slot_mask_loop fuel' (Z.shiftr slot_mask 1) (slot_idx + 1)
  end.

Definition cu_interrupt (w : Z) : ert unit :=
  r <- gets reg ;;
  a <- idx (CU_STATUS_REGISTER_ADDR r) w ;;
  m <- read_reg a ;;
  cu_mask_loop 32 m (32 * w).

Definition host_interrupt (w : Z) : ert unit :=
  r <- gets reg ;;
  a <- idx (CQ_STATUS_REGISTER_ADDR r) w ;;
  m <- read_reg a ;;
  slot_mask_loop 32 m (32 * w).

Definition cdma_interrupt : ert unit :=
  c <- gets cfg ;;
  let cu := u32 (num_cus c - 1) in
  complete_cu cu ;;;
  a <- cu_idx_to_addr cu ;;
  _ <- read_reg a ;;
  write_reg (u32 (a + 0xC)) 1.

Definition cu_interrupt_handler : ert unit :=
  intc_mask <- read_reg ERT_INTC_IPR_ADDR ;;
  c <- gets cfg ;;
  when (negb (Z.land intc_mask 0x2 =? 0))
    (for_range (Z.to_nat (num_cu_masks c)) 0 cu_interrupt) ;;;
  when (negb (Z.land intc_mask 0x1 =? 0))
    (for_range (Z.to_nat (num_slot_masks c)) 0 host_interrupt) ;;;
  when (negb (Z.land intc_mask 0x4 =? 0)) cdma_interrupt ;;;
  write_reg ERT_INTC_IAR_ADDR intc_mask.

End firmware.
