(* ===== verification/ErtInvariant.v ===== *)
(** Safety of the embedded scheduler: compute units are used exclusively.

    The bus is arbitrary in this file, so the theorems hold whatever the host
    writes to the command queue and whatever the registers return.  A routine
    that only touches the world is [quiet]; the invariant [Inv] relates the slot
    states, [cu_status] and [cu_slot_usage]. *)

From S2P Require Import Prelude ErtScheduler.

Section invariant.
  Context {W : Type} `{!Bus W} (tgt : target).
  Implicit Types (s : fw W) (c : config) (t : tables) (sl : slot_info).
  Local Abbreviation ert := (ert (W := W)).

(** * Routines that only touch the world *)

Definition quiet {A} (m : ert A) s : Prop :=
  forall (Q : A -> fw W -> Prop) R, (forall a w, Q a (set_world w s)) -> wp m Q R s.

Lemma set_world_world s : set_world (world s) s = s.
Proof. by destruct s. Qed.

Lemma quiet_ret {A} (a : A) s : quiet (ret a) s.
Proof. intros Q R H. apply wp_ret. rewrite <- (set_world_world s). apply H. Qed.

Lemma quiet_bind {A B} (m : ert A) (k : A -> ert B) s :
  quiet m s -> (forall a w, quiet (k a) (set_world w s)) -> quiet (bind m k) s.
Proof. intros Hm Hk Q R H. apply wp_bind, Hm. intros a w. apply Hk. intros b w'. apply H. Qed.

Lemma quiet_gets {A} (f : fw W -> A) (k : A -> ert unit) s :
  quiet (k (f s)) s -> quiet (bind (gets f) k) s.
Proof. intros Hk Q R H. apply wp_bind, wp_gets, Hk. done. Qed.

Lemma quiet_gets' {A B} (f : fw W -> A) (k : A -> ert B) s :
  quiet (k (f s)) s -> quiet (bind (gets f) k) s.
Proof. intros Hk Q R H. apply wp_bind, wp_gets, Hk. done. Qed.

Lemma quiet_read a s : quiet (read_reg a) s.
Proof. intros Q R H. unfold wp, read_reg. destruct (bus_read a (world s)). apply H. Qed.

Lemma quiet_write a v s : quiet (write_reg a v) s.
Proof. intros Q R H. apply wp_modify. apply (H tt). Qed.

Lemma quiet_idx {A} (l : list A) i s :
  0 <= i < Z.of_nat (length l) -> quiet (idx l i) s.
Proof.
  intros Hi. unfold idx. destruct (zlookup_in_range l i Hi) as [x ->]. apply quiet_ret.
Qed.

Lemma quiet_when b (m : ert unit) s : (b = true -> quiet m s) -> quiet (when b m) s.
Proof. destruct b; intros H; [by apply H|apply quiet_ret]. Qed.

Lemma quiet_if {A} (b : bool) (m1 m2 : ert A) s :
  (b = true -> quiet m1 s) -> (b = false -> quiet m2 s) -> quiet (if b then m1 else m2) s.
Proof. destruct b; auto. Qed.

Lemma quiet_for_range n lo (body : Z -> ert unit) s :
  (forall i w, lo <= i < lo + Z.of_nat n -> quiet (body i) (set_world w s)) ->
  quiet (for_range n lo body) s.
Proof.
  intros Hb Q R H.
  eapply wp_mono with (R := R);
    [apply (wp_for_range (fun _ s' => exists w, s' = set_world w s))| |done].
  - exists (world s). by rewrite set_world_world.
  - intros i s' Hi [w ->]. apply Hb; [done|]. intros ? w'. by exists w'.
  - intros [] s' [w ->]. apply H.
Qed.

End invariant.

Create HintDb quiet.
#[export] Hint Resolve quiet_ret quiet_read quiet_write : quiet.

(** Structural rules; what is left are array bounds. *)
Ltac quiet_step :=
  first
    [ solve [eauto with quiet]
    | lazymatch goal with
      | |- quiet (bind (gets _) _) _ => apply quiet_gets'; cbn beta
      | |- quiet (bind _ _) _ => apply quiet_bind; [|intros ? ?]
      | |- quiet (when _ _) _ => apply quiet_when; intros ?
      | |- quiet (if _ then _ else _) _ => apply quiet_if; intros ?
      | |- quiet (for_range _ _ _) _ => apply quiet_for_range; intros ? ? ?
      | |- quiet (idx _ _) _ => apply quiet_idx; cbn
      end ].
Ltac quiet := repeat quiet_step.

(** * The invariant *)

(** Array sizes. *)
Record lens (t : tables) (r : reg_table) : Prop := {
  len_command_slots : length (command_slots t) = 128%nat;
  len_slot_cache : length (slot_cache t) = 128%nat;
  len_cu_addr_map : length (cu_addr_map t) = 128%nat;
  len_cu_slot_usage : length (cu_slot_usage t) = 128%nat;
  len_cu_usage : length (cu_usage t) = 128%nat;
  len_cu_status : length (cu_status t) = 128%nat;
  len_cu_interrupt_mask : length (cu_interrupt_mask t) = 128%nat;
  len_status_register : length (STATUS_REGISTER_ADDR r) = 4%nat;
  len_dma_register : length (CU_DMA_REGISTER_ADDR r) = 4%nat;
  len_cu_status_register : length (CU_STATUS_REGISTER_ADDR r) = 4%nat;
  len_cq_status_register : length (CQ_STATUS_REGISTER_ADDR r) = 4%nat;
}.

(** Array sizes, and slot and CU counts that fit them. *)
Record wf (c : config) (t : tables) (r : reg_table) : Prop := {
  wf_lens : lens t r;
  wf_num_slots : 0 <= num_slots c <= 128;
  wf_num_cus : 0 <= num_cus c <= 128;
}.

(** Bring an index bound on one of the arrays down to arithmetic. *)
Ltac lens_solve :=
  repeat match goal with
  | H : wf _ _ _ |- _ => destruct H
  | H : lens _ _ |- _ => destruct H
  end; cbn in *; unfold zinsert in *;
  rewrite ?length_insert, ?length_replicate in *;
  repeat match goal with H : length ?l = _%nat |- context [length ?l] => rewrite H end;
  try lia; try done.
Ltac lens_keep := constructor; lens_solve.

Definition running (sl : slot_info) : Prop := state_of (header_value sl) = st_running.

(** A running slot owns its CU, and a busy CU belongs to a running slot. *)
Definition exclusive (ns : Z) (slots : list slot_info) (status : list bool)
    (usage : list Z) : Prop :=
  (forall i sl, Z.of_nat i < ns -> slots !! i = Some sl -> running sl ->
     exists cu, slot_cu_idx sl = Z.of_nat cu /\ status !! cu = Some true /\
                usage !! cu = Some (Z.of_nat i)) /\
  (forall cu, status !! cu = Some true ->
     exists i sl, Z.of_nat i < ns /\ usage !! cu = Some (Z.of_nat i) /\
                  slots !! i = Some sl /\ running sl /\ slot_cu_idx sl = Z.of_nat cu).

Definition excl (c : config) (t : tables) : Prop :=
  exclusive (num_slots c) (command_slots t) (cu_status t) (cu_slot_usage t).

(** In dataflow mode [cu_status] is a polling flag and slots do not run. *)
Definition Inv {W} (s : fw W) : Prop :=
  wf (cfg s) (tab s) (reg s) /\ (dataflow_enabled (cfg s) = false -> excl (cfg s) (tab s)).

(** ** How the three table updates act on exclusiveness *)

Section exclusive.
Implicit Types (slots : list slot_info) (status : list bool) (usage : list Z).

Lemma exclusive_idle ns slots status usage i sl sl' :
  exclusive ns slots status usage ->
  slots !! i = Some sl -> (Z.of_nat i < ns -> ~ running sl) -> ~ running sl' ->
  exclusive ns (<[i := sl']> slots) status usage.
Proof.
  intros [H1 H2] Hi Hn Hn'. pose proof (lookup_lt_Some _ _ _ Hi) as Hlt. split.
  - intros j slj Hj Hlj Hr. destruct (decide (i = j)) as [->|Hne].
    + rewrite list_lookup_insert_eq in Hlj by done. by simplify_eq.
    + rewrite list_lookup_insert_ne in Hlj by done. eauto.
  - intros cu Hcu. destruct (H2 cu Hcu) as (j & slj & Hj & Hu & Hlj & Hr & Hc).
    exists j, slj. rewrite list_lookup_insert_ne; [done|]. intros ->. simplify_eq.
    by apply Hn.
Qed.

Lemma exclusive_start ns slots status usage i cu sl sl' :
  exclusive ns slots status usage ->
  Z.of_nat i < ns -> slots !! i = Some sl -> ~ running sl ->
  running sl' -> slot_cu_idx sl' = Z.of_nat cu ->
  status !! cu = Some false -> (cu < length usage)%nat ->
  exclusive ns (<[i := sl']> slots) (<[cu := true]> status) (<[cu := Z.of_nat i]> usage).
Proof.
  intros [H1 H2] Hns Hi Hn Hr' Hcu Hst Hus.
  pose proof (lookup_lt_Some _ _ _ Hi) as Hlt.
  pose proof (lookup_lt_Some _ _ _ Hst) as Hlt'. split.
  - intros j slj Hj Hlj Hr. destruct (decide (i = j)) as [->|Hne].
    + rewrite list_lookup_insert_eq in Hlj by done. simplify_eq.
      exists cu. rewrite !list_lookup_insert_eq by done. done.
    + rewrite list_lookup_insert_ne in Hlj by done.
      destruct (H1 j slj Hj Hlj Hr) as (cu' & ? & Hs & ?). exists cu'.
      assert (cu <> cu') by (intros ->; congruence).
      rewrite !list_lookup_insert_ne by done. done.
  - intros cu' Hcu'. destruct (decide (cu = cu')) as [->|Hne].
    + exists i, sl'. rewrite !list_lookup_insert_eq by done. done.
    + rewrite list_lookup_insert_ne in Hcu' by done.
      destruct (H2 cu' Hcu') as (j & slj & Hj & Hu & Hlj & Hr & Hc).
      exists j, slj. rewrite !list_lookup_insert_ne; [done|intros ->; by simplify_eq|done].
Qed.

Lemma exclusive_finish ns slots status usage i cu sl sl' u :
  exclusive ns slots status usage ->
  Z.of_nat i < ns -> slots !! i = Some sl -> running sl ->
  slot_cu_idx sl = Z.of_nat cu -> ~ running sl' ->
  exclusive ns (<[i := sl']> slots) (<[cu := false]> status) (<[cu := u]> usage).
Proof.
  intros [H1 H2] Hns Hi Hr Hcu Hn'.
  pose proof (lookup_lt_Some _ _ _ Hi) as Hlt.
  destruct (H1 i sl Hns Hi Hr) as (cu0 & Hc0 & Hst & Hus).
  assert (cu0 = cu) as -> by lia. pose proof (lookup_lt_Some _ _ _ Hst) as Hlt'. split.
  - intros j slj Hj Hlj Hrj. destruct (decide (i = j)) as [->|Hne].
    + rewrite list_lookup_insert_eq in Hlj by done. by simplify_eq.
    + rewrite list_lookup_insert_ne in Hlj by done.
      destruct (H1 j slj Hj Hlj Hrj) as (cu' & ? & Hs & Hu'). exists cu'.
      assert (cu <> cu').
      { intros ->. rewrite Hus in Hu'. injection Hu' as Hu'. lia. }
      rewrite !list_lookup_insert_ne by done. done.
  - intros cu' Hcu'. destruct (decide (cu = cu')) as [->|Hne].
    { by rewrite list_lookup_insert_eq in Hcu'. }
    rewrite list_lookup_insert_ne in Hcu' by done.
    destruct (H2 cu' Hcu') as (j & slj & Hj & Hu & Hlj & Hrj & Hc).
    exists j, slj. rewrite !list_lookup_insert_ne; [done|intros ->|done].
    rewrite Hi in Hlj. injection Hlj as <-. lia.
Qed.

Lemma exclusive_none ns slots usage n :
  (forall i sl, Z.of_nat i < ns -> slots !! i = Some sl -> ~ running sl) ->
  exclusive ns slots (replicate n false) usage.
Proof.
  intros H. split.
  - intros i sl Hi Hl Hr. by destruct (H i sl Hi Hl).
  - intros cu Hcu. apply lookup_replicate in Hcu as [? _]. done.
Qed.

(** Two running slots never share a CU. *)
Lemma exclusive_disjoint ns slots status usage i j sli slj :
  exclusive ns slots status usage ->
  Z.of_nat i < ns -> Z.of_nat j < ns -> slots !! i = Some sli -> slots !! j = Some slj ->
  running sli -> running slj -> slot_cu_idx sli = slot_cu_idx slj -> i = j.
Proof.
  intros [H1 _] Hi Hj Hli Hlj Hri Hrj Heq.
  destruct (H1 i sli Hi Hli Hri) as (cu & Hc & _ & Hu).
  destruct (H1 j slj Hj Hlj Hrj) as (cu' & Hc' & _ & Hu').
  assert (cu = cu') as <- by lia. rewrite Hu in Hu'. injection Hu'. lia.
Qed.
End exclusive.

(** ** State nibbles *)

Lemma land_15 x : Z.land x 15 = x mod 2 ^ 4.
Proof. apply (Z.land_ones x 4). lia. Qed.

Lemma state_with_state h n : 0 <= n < 16 -> state_of (with_state h n) = n.
Proof.
  intros Hn. unfold state_of, with_state.
  change 0xfffffff0 with (mask 4 28). change 0xF with (mask 0 4).
  assert (0 <= n < 2 ^ 4) by lia. zbits.
Qed.

Lemma state_or_1 h : state_of h = st_queued -> state_of (Z.lor h 0x1) = st_running.
Proof.
  unfold state_of. intros H. rewrite Z.land_lor_distr_l, H. done.
Qed.

Lemma not_running_state h n sl :
  header_value sl = h -> state_of h = n -> n <> st_running -> ~ running sl.
Proof. unfold running. intros -> -> ?. done. Qed.

(** * Rules for the primitives *)

Section rules.
Context {W : Type} `{!Bus W} (tgt : target).
Implicit Types (s : fw W).

Lemma wp_read_reg a (Q : Z -> fw W -> Prop) R s :
  (forall v w, 0 <= v < 2 ^ 32 -> Q v (set_world w s)) -> wp (read_reg a) Q R s.
Proof.
  intros H. unfold wp, read_reg. destruct (bus_read a (world s)). apply H, u32_range.
Qed.

Lemma wp_write_reg a v (Q : unit -> fw W -> Prop) R s :
  (forall w, Q tt (set_world w s)) -> wp (write_reg a v) Q R s.
Proof. intros H. apply wp_modify, H. Qed.

Lemma wp_idx {A} (l : list A) i (Q : A -> fw W -> Prop) R s :
  (forall x, zlookup l i = Some x -> Q x s) -> (zlookup l i = None -> R Oob s) ->
  wp (idx l i) Q R s.
Proof. unfold idx. destruct (zlookup l i); intros; [apply wp_ret|apply wp_raise]; auto. Qed.

Lemma wp_idx_in {A} (l : list A) i (Q : A -> fw W -> Prop) R s :
  0 <= i < Z.of_nat (length l) ->
  (forall x, zlookup l i = Some x -> Q x s) -> wp (idx l i) Q R s.
Proof.
  intros Hi H. apply wp_idx; [done|]. destruct (zlookup_in_range l i Hi) as [x ->]. done.
Qed.

Lemma wp_put {A} (get : tables -> list A) set i x (Q : unit -> fw W -> Prop) R s :
  0 <= i < Z.of_nat (length (get (tab s))) ->
  Q tt (set_tab (set (zinsert i x (get (tab s))) (tab s)) s) ->
  wp (put get set i x) Q R s.
Proof.
  intros Hi H. unfold put. wps. apply wp_idx_in; [done|]. intros y _. by apply wp_modify.
Qed.

Lemma wp_get_slot i (Q : slot_info -> fw W -> Prop) R s :
  0 <= i < Z.of_nat (length (command_slots (tab s))) ->
  (forall sl, command_slots (tab s) !! Z.to_nat i = Some sl -> Q sl s) ->
  wp (get_slot i) Q R s.
Proof.
  intros Hi H. unfold get_slot. wps. apply wp_idx_in; [done|].
  intros x Hx. apply H, zlookup_Some, Hx.
Qed.

Lemma wp_upd_slot i f (Q : unit -> fw W -> Prop) R s :
  0 <= i < Z.of_nat (length (command_slots (tab s))) ->
  (forall sl, command_slots (tab s) !! Z.to_nat i = Some sl ->
     Q tt (set_tab (set_slots (<[Z.to_nat i := f sl]> (command_slots (tab s))) (tab s)) s)) ->
  wp (upd_slot i f) Q R s.
Proof.
  intros Hi H. unfold upd_slot. wps. apply wp_get_slot; [done|].
  intros sl Hsl. apply wp_put; [done|]. by apply H.
Qed.

Lemma wp_toggle cu b (Q : unit -> fw W -> Prop) R s :
  zlookup (cu_status (tab s)) cu = Some b ->
  Q tt (set_tab (set_status (<[Z.to_nat cu := negb b]> (cu_status (tab s))) (tab s)) s) ->
  wp (toggle_cu_status cu) Q R s.
Proof.
  intros Hb H. destruct (zlookup_Some _ _ _ Hb) as [Hr _].
  unfold toggle_cu_status, get_cu_status. wps.
  apply wp_idx_in; [done|]. intros x Hx. rewrite Hb in Hx. injection Hx as <-.
  by apply wp_put.
Qed.

(** ** Quiet routines *)

Lemma quiet_notify_host i s :
  length (STATUS_REGISTER_ADDR (reg s)) = 4%nat -> 0 <= i < 128 ->
  quiet (notify_host i) s.
Proof.
  intros Hl Hi. unfold notify_host. quiet. rewrite Hl.
  rewrite Z.shiftr_div_pow2 by lia. split; [apply Z.div_pos; lia|].
  apply Z.div_lt_upper_bound; lia.
Qed.

Lemma quiet_write_csr off v s : quiet (write_csr tgt off v) s.
Proof. unfold write_csr. quiet. Qed.

Lemma quiet_cu_idx_to_addr cu s :
  0 <= cu < Z.of_nat (length (cu_addr_map (tab s))) -> quiet (cu_idx_to_addr cu) s.
Proof. intros H. unfold cu_idx_to_addr. quiet. Qed.

Lemma quiet_configure_cu a ra rs s : quiet (configure_cu a ra rs) s.
Proof. unfold configure_cu. quiet. Qed.

Lemma quiet_configure_cu_ooo a ra rs s :
  rs <> 2 ^ 32 - 1 -> quiet (configure_cu_ooo a ra rs) s.
Proof.
  intros H. unfold configure_cu_ooo. destruct (Z.eqb_spec rs (2 ^ 32 - 1)); [done|].
  quiet.
Qed.

Lemma quiet_intr_master v s : quiet (intr_master tgt v) s.
Proof. unfold intr_master. quiet. Qed.

End rules.
#[export] Hint Resolve quiet_write_csr quiet_configure_cu quiet_intr_master : quiet.

Section transitions.
Context {W : Type} `{!Bus W} (tgt : target).
Implicit Types (s : fw W).

Lemma quiet_configure_cu_dma cu i sa s :
  lens (tab s) (reg s) -> 0 <= cu < 128 -> 0 <= i < 128 ->
  quiet (configure_cu_dma cu i sa) s.
Proof.
  intros Hl Hcu Hi. unfold configure_cu_dma. quiet.
  - apply quiet_cu_idx_to_addr. lens_solve.
  - rewrite (len_dma_register _ _ Hl), Z.shiftr_div_pow2 by lia.
    split; [apply Z.div_pos; lia|apply Z.div_lt_upper_bound; lia].
Qed.

Lemma quiet_launch i sl s :
  lens (tab s) (reg s) -> 0 <= slot_cu_idx sl < 128 -> 0 <= i < 128 ->
  (slot_opcode sl = ERT_EXEC_WRITE -> slot_regmap_size sl <> 2 ^ 32 - 1) ->
  quiet (launch i sl) s.
Proof.
  intros Hl Hcu Hi Hrs. unfold launch. apply quiet_gets'. cbv zeta. quiet.
  - apply quiet_cu_idx_to_addr. lens_solve.
  - apply quiet_configure_cu_ooo, Hrs. by apply Z.eqb_eq.
  - by apply quiet_configure_cu_dma.
  - apply quiet_cu_idx_to_addr. lens_solve.
Qed.

Lemma wp_guard {A} (m : ert A) (Q : A -> fw W -> Prop) R s :
  (forall w, wp m (fun a s' => forall w', Q a (set_world w' s')) R (set_world w s)) ->
  wp (disable_interrupt_guard tgt m) Q R s.
Proof.
  intros H. unfold disable_interrupt_guard. wps. apply quiet_intr_master. intros _ w. wps.
  eapply wp_mono; [apply H| |done]. intros a s' Hq. wps. apply quiet_intr_master.
  intros _ w'. apply wp_ret, Hq.
Qed.

(** A queued command starts if and only if its CU is idle. *)
Lemma queued_to_running_spec (i : nat) sl (cu : nat) (busy : bool) s R :
  Inv s -> dataflow_enabled (cfg s) = false -> Z.of_nat i < num_slots (cfg s) ->
  command_slots (tab s) !! i = Some sl -> state_of (header_value sl) = st_queued ->
  slot_cu_idx sl = Z.of_nat cu -> cu_status (tab s) !! cu = Some busy ->
  (slot_opcode sl = ERT_EXEC_WRITE -> slot_regmap_size sl <> 2 ^ 32 - 1) ->
  wp (queued_to_running tgt (Z.of_nat i))
     (fun b s' => Inv s' /\ cfg s' = cfg s /\
        if busy then b = false /\ tab s' = tab s
        else b = true /\ cu_status (tab s') !! cu = Some true /\
             cu_slot_usage (tab s') !! cu = Some (Z.of_nat i) /\
             command_slots (tab s') !! i =
               Some (set_header (Z.lor (header_value sl) 1) sl)) R s.
Proof.
  intros [Hwf Hex] Hdf Hi Hsl Hq Hcu Hb Hrs. pose proof (wf_lens _ _ _ Hwf) as Hl.
  pose proof (lookup_lt_Some _ _ _ Hb) as Hlt. rewrite (len_cu_status _ _ Hl) in Hlt.
  pose proof (wf_num_slots _ _ _ Hwf) as Hns.
  specialize (Hex Hdf). unfold queued_to_running. apply wp_guard. intros w.
  unfold start_cu. wps. apply wp_get_slot; [lens_solve|]. cbn. rewrite Nat2Z.id.
  intros sl' Hsl'. simplify_eq. cbv zeta. unfold get_cu_status. wps.
  apply wp_idx_in; [lens_solve|]. cbn. intros b Hb'. rewrite Hcu, zlookup_nat in Hb'.
  simplify_eq. destruct busy; wps.
  { intros w'. by destruct s. }
  { done. }
  apply quiet_launch; [done|lia|lia|done|]. intros _ w1. wps.
  apply wp_toggle with (b := false); [by rewrite Hcu, zlookup_nat|]. wps.
  unfold set_cu_info. wps. apply wp_put; [lens_solve|]. wps.
  apply wp_idx_in; [lens_solve|]. intros n _. apply wp_put; [lens_solve|].
  rewrite Hcu. wps; [unfold no_index in *; lia|].
  apply wp_upd_slot; [lens_solve|]. cbn. rewrite Nat2Z.id. intros sl' Hsl'. simplify_eq.
  apply wp_ret. intros w2. unfold Inv, excl. cbn. unfold zinsert. rewrite !Nat2Z.id.
  rewrite !list_lookup_insert_eq by lens_solve.
  split_and!; try done.
  - constructor; [lens_keep| |]; apply Hwf.
  - intros _. eapply exclusive_start; eauto.
    + by apply (not_running_state _ _ sl eq_refl Hq).
    + by apply state_or_1.
    + lens_solve.
Qed.

(** The tables after [i] is freed and its CU released, in the order of
    [running_to_free]; [check_command] based completions differ only in order. *)
Lemma running_to_free_spec (i : nat) sl s R :
  Inv s -> dataflow_enabled (cfg s) = false -> Z.of_nat i < num_slots (cfg s) ->
  command_slots (tab s) !! i = Some sl -> running sl ->
  wp (running_to_free (Z.of_nat i))
     (fun b s' => Inv s' /\ cfg s' = cfg s /\
        if b : bool then
          command_slots (tab s') !! i = Some (set_header (with_state (header_value sl) 4) sl)
          /\ cu_status (tab s') !! Z.to_nat (slot_cu_idx sl) = Some false
        else tab s' = tab s) R s.
Proof.
  intros [Hwf Hex] Hdf Hi Hsl Hr. pose proof (wf_lens _ _ _ Hwf) as Hl.
  pose proof (wf_num_slots _ _ _ Hwf) as Hns. specialize (Hex Hdf).
  destruct (proj1 Hex i sl Hi Hsl Hr) as (cu & Hcu & Hst & Hus).
  pose proof (lookup_lt_Some _ _ _ Hst) as Hlt. rewrite (len_cu_status _ _ Hl) in Hlt.
  unfold running_to_free. wps. apply wp_get_slot; [lens_solve|].
  rewrite Nat2Z.id. intros sl' Hsl'. simplify_eq. unfold check_cu. wps.
  apply wp_idx_in; [lens_solve|]. intros b _. destruct b; wps.
  { done. } { done. }
  apply quiet_cu_idx_to_addr; [lens_solve|]. intros a w. wps. apply wp_read_reg. intros v w1 _.
  wps; [done|done|]. apply wp_toggle with (b := true); [by rewrite Hcu, zlookup_nat|]. wps.
  apply wp_put; [lens_solve|]. wps; [done|].
  apply quiet_notify_host; [lens_solve|lia|]. intros _ w2. wps. unfold free_slot.
  apply wp_upd_slot; [lens_solve|]. cbn. rewrite Nat2Z.id. intros sl' Hsl'. simplify_eq.
  apply wp_ret. unfold Inv, excl, zinsert. cbn. rewrite Hcu, Nat2Z.id.
  rewrite !list_lookup_insert_eq by lens_solve. split_and!; try done.
  - constructor; [lens_keep| |]; apply Hwf.
  - intros _. eapply exclusive_finish; eauto.
    unfold running. cbn. rewrite state_with_state; done.
Qed.

Lemma free_to_new_spec (i : nat) sl s R :
  Inv s -> Z.of_nat i < 128 -> command_slots (tab s) !! i = Some sl -> ~ running sl ->
  wp (free_to_new (Z.of_nat i))
     (fun b s' => Inv s' /\ cfg s' = cfg s /\
        if b : bool then exists h, 0 <= h < 2 ^ 32 /\ state_of h = st_new /\
          tab s' = set_slots (<[i := set_header h sl]> (command_slots (tab s))) (tab s)
        else tab s' = tab s) R s.
Proof.
  intros [Hwf Hex] Hi Hsl Hr. pose proof (wf_lens _ _ _ Hwf) as Hl.
  unfold free_to_new. wps. apply wp_get_slot; [lens_solve|].
  rewrite Nat2Z.id. intros sl' Hsl'. simplify_eq. wps. apply wp_read_reg. intros h w Hh.
  wps; [|done]. apply wp_write_reg. intros w1. wps.
  apply wp_upd_slot; [lens_solve|]. cbn. rewrite Nat2Z.id. intros sl' Hsl'. simplify_eq.
  apply wp_ret. unfold Inv, excl. cbn. split_and!; try done.
  - constructor; [lens_keep| |]; apply Hwf.
  - intros Hdf. eapply exclusive_idle; [by apply Hex|done|done|].
    apply (not_running_state h st_new); [done| |done].
    by apply Z.eqb_eq.
  - exists h. split; [done|]. split; [by apply Z.eqb_eq|done].
Qed.

(** Completion from the interrupt handler. *)
Lemma complete_cu_spec (cu : nat) s R :
  Inv s -> dataflow_enabled (cfg s) = false -> cu_status (tab s) !! cu = Some true ->
  wp (complete_cu (Z.of_nat cu))
     (fun _ s' => Inv s' /\ cfg s' = cfg s /\ reg s' = reg s /\
        cu_status (tab s') = <[cu := false]> (cu_status (tab s)) /\
        cu_interrupt_mask (tab s') = cu_interrupt_mask (tab s) /\
        exists i sl, cu_slot_usage (tab s) !! cu = Some (Z.of_nat i) /\
          command_slots (tab s) !! i = Some sl /\ running sl /\
          command_slots (tab s') =
            <[i := set_header (with_state (header_value sl) 4) sl]> (command_slots (tab s)))
     R s.
Proof.
  intros [Hwf Hex] Hdf Hst. pose proof (wf_lens _ _ _ Hwf) as Hl.
  pose proof (wf_num_slots _ _ _ Hwf) as Hns. specialize (Hex Hdf).
  destruct (proj2 Hex cu Hst) as (i & sl & Hi & Hus & Hsl & Hr & Hcu).
  pose proof (lookup_lt_Some _ _ _ Hst) as Hlt. rewrite (len_cu_status _ _ Hl) in Hlt.
  unfold complete_cu. wps. apply wp_idx_in; [lens_solve|]. intros x Hx.
  rewrite zlookup_nat, Hus in Hx. injection Hx as <-. unfold check_command, free_slot. wps.
  apply quiet_notify_host; [lens_solve|lia|]. intros _ w.
  apply wp_upd_slot; [lens_solve|]. cbn. rewrite Nat2Z.id. intros sl' Hsl'. simplify_eq.
  wps. apply wp_put; [lens_solve|]. apply wp_toggle with (b := true); [by rewrite zlookup_nat|].
  unfold Inv, excl, zinsert. cbn. rewrite Nat2Z.id. split_and!; try done.
  - constructor; [lens_keep| |]; apply Hwf.
  - intros _. eapply exclusive_finish; eauto.
    unfold running. cbn. rewrite state_with_state; done.
  - by exists i, sl.
Qed.
End transitions.
