(* ===== verification/ErtControl.v ===== *)
(** Control commands of the embedded scheduler, the whole slot step, the
    interrupt handler, and the invariant over arbitrary runs. *)

From S2P Require Import Prelude ErtScheduler ErtInvariant.

(** The opcodes cached in the slots: set-up never changes them. *)
Definition ops (t : tables) : list Z := slot_opcode <$> command_slots t.

Lemma ops_insert (slots : list slot_info) i sl sl' :
  slots !! i = Some sl -> slot_opcode sl' = slot_opcode sl ->
  slot_opcode <$> <[i := sl']> slots = slot_opcode <$> slots.
Proof.
  intros Hi Heq. rewrite list_fmap_insert, Heq. apply list_insert_id.
  by rewrite list_lookup_fmap, Hi.
Qed.

Section setup.
Context {W : Type} `{!Bus W} (tgt : target).
Implicit Types (s : fw W).

Definition frame (c : config) (s s' : fw W) : Prop :=
  cfg s' = c /\ reg s' = reg s /\ lens (tab s') (reg s') /\ ops (tab s') = ops (tab s).

(** The number of slots a configuration asks for. *)
Definition slot_count (c : config) : Z :=
  if dataflow_enabled c && negb (kds_30 c) then u32 (num_cus c + 1)
  else ERT_CQ_SIZE / slot_size c.

(** Two configurations that ask for the same counts. *)
Definition asks (c c' : config) : Prop :=
  slot_count c' = slot_count c /\ num_cus c' = num_cus c /\ slot_size c' = slot_size c.

(** Set-up stops only when it is asked for more slots or CUs than the arrays
    hold, or for slots of size zero. *)
Definition setup_stop (s : fw W) (e : stop) (s' : fw W) : Prop :=
  ops (tab s') = ops (tab s) /\ asks (cfg s) (cfg s') /\
  match e with
  | Oob => 128 < slot_count (cfg s) \/ 128 < num_cus (cfg s)
  | DivZero => slot_size (cfg s) = 0
  | _ => False
  end.

(** The counts that [setup_counts] computed. *)
Definition counted (c : config) (s : fw W) : Prop :=
  num_slots c = slot_count (cfg s) /\ num_cus c = num_cus (cfg s) /\
  dataflow_enabled c = dataflow_enabled (cfg s) /\ asks (cfg s) c.

Definition freed (n : Z) (s : fw W) : Prop :=
  forall j sl, Z.of_nat j < n -> command_slots (tab s) !! j = Some sl -> header_value sl = 4.

Lemma wp_slot_oob i (Q : slot_info -> fw W -> Prop) R s :
  lens (tab s) (reg s) -> 128 <= i -> R Oob s -> wp (get_slot i) Q R s.
Proof.
  intros Hl Hi HR. unfold get_slot. wps. apply wp_idx; [|done].
  intros x Hx. apply zlookup_Some in Hx as [Hx _]. rewrite (len_command_slots _ _ Hl) in Hx. lia.
Qed.

Lemma setup_slot_spec c i s s' :
  counted c s -> 0 <= i <= 128 -> i < num_slots c -> frame c s s' -> freed i s' ->
  wp (setup_slot tgt i) (fun _ s'' => frame c s s'' /\ freed (i + 1) s'' /\ i + 1 <= 128)
     (setup_stop s) s'.
Proof.
  intros (Hns & Hnc & _ & Hk) Hi Hin (Hc & Hr & Hl & Ho) Hf. unfold setup_slot. wps.
  destruct (decide (i = 128)) as [->|Hne].
  { unfold upd_slot. wps. apply wp_slot_oob; [done|lia|]. split_and!; [done|by rewrite Hc|lia]. }
  apply wp_upd_slot; [lens_solve|]. intros sl Hsl. wps.
  apply wp_get_slot; [lens_solve|]. intros sl' _. wps. apply wp_write_reg. intros w.
  apply wp_put; [lens_solve|]. unfold frame, freed. cbn. split_and!; try done.
  - lens_keep.
  - rewrite <- Ho. unfold ops. cbn. by eapply ops_insert.
  - intros j slj Hj Hlj. destruct (decide (Z.to_nat i = j)) as [<-|Hn].
    + rewrite list_lookup_insert_eq in Hlj by lens_solve. by injection Hlj as <-.
    + rewrite list_lookup_insert_ne in Hlj by done. eapply Hf; [|done]. lia.
  - lia.
Qed.

Lemma setup_cu_usage_spec c i s s' ns :
  counted c s -> 0 <= i <= 128 -> i < num_cus c ->
  frame c s s' -> freed ns s' -> cu_status (tab s') = replicate 128 false ->
  wp (setup_cu_usage i)
     (fun _ s'' => (frame c s s'' /\ freed ns s'' /\ cu_status (tab s'') = replicate 128 false)
                   /\ i + 1 <= 128) (setup_stop s) s'.
Proof.
  intros (Hns & Hnc & _ & Hk) Hi Hin (Hc & Hr & Hl & Ho) Hf Hst. unfold setup_cu_usage. wps.
  destruct (decide (i = 128)) as [->|Hne].
  { unfold put at 1. wps. apply wp_idx; [|intros _; split_and!; [done|by rewrite Hc|right; lia]]. intros x Hx.
    apply zlookup_Some in Hx as [Hx _]. rewrite (len_cu_slot_usage _ _ Hl) in Hx. lia. }
  apply wp_put; [lens_solve|]. apply wp_put; [lens_solve|].
  unfold frame. cbn. split_and!; try done; [lens_keep|lia].
Qed.

Lemma setup_cu_interrupt_spec c b i s s' ns :
  0 <= i < 128 -> frame c s s' -> freed ns s' -> cu_status (tab s') = replicate 128 false ->
  wp (setup_cu_interrupt b i)
     (fun _ s'' => frame c s s'' /\ freed ns s'' /\ cu_status (tab s'') = replicate 128 false)
     (setup_stop s) s'.
Proof.
  intros Hi (Hc & Hr & Hl & Ho) Hf Hst. unfold setup_cu_interrupt, cu_idx_to_ctrl. wps.
  apply wp_idx_in; [lens_solve|]. intros x _. wps; [done|].
  apply quiet_cu_idx_to_addr; [lens_solve|]. intros a w. wps.
  apply wp_write_reg; intros w1. wps. apply wp_write_reg; intros w2. wps; [|done].
  apply wp_put; [lens_solve|]. unfold frame. cbn. split_and!; try done. lens_keep.
Qed.

Lemma quiet_setup_csr s :
  lens (tab s) (reg s) -> num_cus (cfg s) <= 128 -> quiet (setup_csr tgt) s.
Proof.
  intros Hl Hn. unfold setup_csr. quiet.
  - destruct (bld tgt); quiet.
  - apply quiet_cu_idx_to_addr. lens_solve.
Qed.

Lemma quiet_setup_cq_status m s : quiet (setup_cq_status tgt m) s.
Proof. unfold setup_cq_status. quiet. Qed.

Lemma quiet_world f s : quiet (modify (fun s0 : fw W => set_world (f (world s0)) s0)) s.
Proof. intros Q R H. apply wp_modify, (H tt). Qed.

Lemma quiet_setup_master m s : quiet (setup_master tgt m) s.
Proof. unfold setup_master. quiet; apply quiet_world. Qed.

Lemma quiet_clear_csr i s :
  lens (tab s) (reg s) -> 0 <= i < 4 -> quiet (clear_csr i) s.
Proof. intros Hl Hi. unfold clear_csr. quiet. lens_solve. Qed.

Lemma slots_per_queue_nonneg c : 0 <= slot_size c -> 0 <= ERT_CQ_SIZE / slot_size c.
Proof.
  intros H. destruct (decide (slot_size c = 0)) as [->|]; [done|].
  apply Z.div_pos; unfold ERT_CQ_SIZE; lia.
Qed.

Lemma setup_counts_spec s :
  0 <= slot_size (cfg s) -> 0 <= num_cus (cfg s) ->
  wp (setup_counts)
     (fun _ s' => tab s' = tab s /\ reg s' = reg s /\ world s' = world s /\
        counted (cfg s') s /\ 0 <= num_slots (cfg s'))
     (setup_stop s) s.
Proof.
  intros Hs Hn. pose proof (slots_per_queue_nonneg (cfg s) Hs) as Hq.
  pose proof (u32_range (num_cus (cfg s) + 1)) as Hu.
  unfold setup_counts, slots_per_queue, counted, setup_stop, asks, slot_count. wps; cbn;
    repeat match goal with H : _ = true |- _ => rewrite H
                         | H : dataflow_enabled _ = false |- _ => rewrite H
                         | H : kds_30 _ = false |- _ => rewrite H end; cbn;
    try (split_and!; [done..|]; by apply Z.eqb_eq); split_and!; done || lia.
Qed.

(** What holds between the stages of [setup]. *)
Definition staged (c : config) (s : fw W) (s' : fw W) : Prop :=
  frame c s s' /\ freed (num_slots c) s' /\ cu_status (tab s') = replicate 128 false.

Lemma setup_slots_spec c s s1 :
  counted c s -> frame c s s1 -> 0 <= num_slots c ->
  wp (for_range (Z.to_nat (num_slots c)) 0 (setup_slot tgt))
     (fun _ s2 => frame c s s2 /\ freed (num_slots c) s2 /\ num_slots c <= 128)
     (setup_stop s) s1.
Proof.
  intros Hcnt Hf1 Hs1. eapply wp_mono; [apply (wp_for_range
    (fun i s' => (frame c s s' /\ freed i s') /\ i <= 128))| |done].
  - split; [|lia]. split; [done|]. intros j ? Hj. lia.
  - intros i s' Hi [[Hf Hfr] Hi']. eapply wp_mono; [by apply setup_slot_spec; [done|lia|lia|..]| |done].
    intros _ s'' (? & ? & ?). done.
  - intros _ s2 [[Hf2 Hfr2] Hb2]. rewrite Z2Nat.id in Hfr2, Hb2 by done. done.
Qed.

Lemma setup_cus_spec c s s1 :
  counted c s -> staged c s s1 -> 0 <= num_cus c ->
  wp (for_range (Z.to_nat (num_cus c)) 0 setup_cu_usage)
     (fun _ s2 => staged c s s2 /\ num_cus c <= 128) (setup_stop s) s1.
Proof.
  intros Hcnt Hf1 Hs1. eapply wp_mono; [apply (wp_for_range
    (fun i s' => staged c s s' /\ i <= 128))| |done].
  - split; [done|lia].
  - intros i s' Hi [(Hf & Hfr & Hst) Hi']. by apply (setup_cu_usage_spec c); [done|lia|lia|..].
  - intros _ s2 [Hf2 Hb2]. rewrite Z2Nat.id in Hb2 by done. done.
Qed.

Lemma setup_cu_interrupts_spec c s s1 :
  staged c s s1 -> 0 <= num_cus c <= 128 ->
  wp (setup_cu_interrupts tgt) (fun _ s2 => staged c s s2) (setup_stop s) s1.
Proof.
  intros ((Hc & Hr & Hl & Ho) & Hfr & Hst) Hn. unfold setup_cu_interrupts. wps.
  eapply wp_mono; [apply (wp_for_range (fun _ s' => staged c s s'))| |done].
  - unfold staged, frame. cbn. split_and!; try done. lens_keep.
  - intros i s' Hi (Hf' & Hfr' & Hst'). cbn in Hi. rewrite Hc in Hi.
    by apply setup_cu_interrupt_spec; [lia|..].
  - intros ? s2 H2. cbn [cfg set_tab]. wps.
    + apply quiet_write_csr. intros _ w. by apply wp_ret.
    + apply wp_read_reg. intros v w _. wps. apply wp_write_reg. intros w1. wps.
      apply quiet_write_csr. intros _ w2. by apply wp_ret.
Qed.

(** Set-up establishes the invariant: every slot is free and every CU idle. *)
Lemma setup_spec s :
  lens (tab s) (reg s) -> 0 <= slot_size (cfg s) -> 0 <= num_cus (cfg s) ->
  wp (setup tgt)
     (fun _ s' => Inv s' /\ reg s' = reg s /\ ops (tab s') = ops (tab s) /\
        freed (num_slots (cfg s')) s' /\ cu_status (tab s') = replicate 128 false /\
        counted (cfg s') s)
     (setup_stop s) s.
Proof.
  intros Hl Hss Hnc. unfold setup. wps.
  eapply wp_mono; [by apply setup_counts_spec| |done].
  intros _ s1 (Ht & Hr & _ & Hcnt & Hs1). wps. set (c := cfg s1). fold c in Hcnt, Hs1.
  pose proof Hcnt as (Hns & Hn1 & _).
  assert (frame c s s1) as Hf1 by (unfold frame; rewrite Ht, Hr; done).
  eapply wp_mono; [by apply setup_slots_spec| |done].
  intros _ s2 ((Hc2 & Hr2 & Hl2 & Ho2) & Hfr2 & Hb2). wps.
  apply quiet_for_range. { intros i w Hi. apply quiet_clear_csr; [done|lia]. }
  intros _ w2. wps. eapply wp_mono; [apply (setup_cus_spec c s)| |done].
  { done. }
  { unfold staged, frame. cbn. split_and!; try done. lens_keep. }
  { lia. }
  intros _ s3 [((Hc3 & Hr3 & Hl3 & Ho3) & Hfr3 & Hst3) Hb3]. wps.
  apply quiet_setup_csr; [done|rewrite Hc3; lia|]. intros _ w3. wps.
  eapply wp_mono; [apply (setup_cu_interrupts_spec c s); [done|lia]| |done].
  intros m s4 ((Hc4 & Hr4 & Hl4 & Ho4) & Hfr4 & Hst4). wps.
  apply quiet_setup_cq_status. intros m' w4. wps. apply quiet_setup_master. intros _ w5.
  apply quiet_write_csr. intros _ w6. unfold Inv. cbn. rewrite Hc4. split_and!; try done.
  - constructor; [done|lia|lia].
  - intros _. unfold excl. rewrite Hst4. apply exclusive_none.
    intros i sl Hi Hsl Hrun. unfold running in Hrun. by rewrite (Hfr4 i sl Hi Hsl) in Hrun.
Qed.
End setup.

(** * Control commands *)

(** The target slot of an ABORT command. *)
Definition abort_target (h : Z) : Z := Z.land (Z.shiftr h 15) 0xFF.

(** Why a slot step stops.  Everything but an [EXIT] is a command that breaks
    the contract with the host: a CU index beyond the 128 CUs, a CONFIGURE packet
    that asks for more than 128 CUs or 128 slots or for slots of size zero, an ABORT
    of a slot that is not in use, or a payload size smaller than its own CU masks. *)
Definition stop_cause {W} (i : nat) (e : stop) (s : fw W) : Prop :=
  exists sl, command_slots (tab s) !! i = Some sl /\
  match e with
  | Oob => (state_of (header_value sl) = st_queued /\ ~ (0 <= slot_cu_idx sl < 128)) \/
           (slot_opcode sl = ERT_CONFIGURE /\
            (128 < slot_count (cfg s) \/ 128 < num_cus (cfg s))) \/
           (slot_opcode sl = ERT_ABORT /\ num_slots (cfg s) <= abort_target (header_value sl))
  | DivZero => slot_opcode sl = ERT_CONFIGURE /\ slot_size (cfg s) = 0
  | Exited => slot_opcode sl = ERT_EXIT
  | OutOfFuel => slot_opcode sl = ERT_EXIT \/
                 (state_of (header_value sl) = st_queued /\ slot_opcode sl = ERT_EXEC_WRITE /\
                  slot_regmap_size sl = 2 ^ 32 - 1)
  end.

(** An ABORT whose target is a slot that the last CONFIGURE command took out of use. *)
Definition stale_abort {W} (i : nat) (s : fw W) : Prop :=
  exists sl, command_slots (tab s) !! i = Some sl /\ slot_opcode sl = ERT_ABORT /\
    num_slots (cfg s) <= abort_target (header_value sl).

Section control.
Context {W : Type} `{!Bus W} (tgt : target).
Implicit Types (s : fw W).

Lemma ops_lookup (i : nat) sl s s' :
  ops (tab s') = ops (tab s) -> command_slots (tab s) !! i = Some sl ->
  exists sl', command_slots (tab s') !! i = Some sl' /\ slot_opcode sl' = slot_opcode sl.
Proof.
  intros Ho Hsl. apply (f_equal (lookup i)) in Ho. unfold ops in Ho.
  rewrite !list_lookup_fmap, Hsl in Ho. destruct (command_slots (tab s') !! i) as [sl'|];
    [|done]. exists sl'. split; [done|]. by injection Ho.
Qed.

Lemma free_slot_spec (i : nat) sl s (Q : unit -> fw W -> Prop) R :
  Inv s -> (i < 128)%nat -> command_slots (tab s) !! i = Some sl ->
  (Z.of_nat i < num_slots (cfg s) -> ~ running sl) ->
  (forall s', Inv s' -> cfg s' = cfg s ->
     tab s' = set_slots (<[i := set_header (with_state (header_value sl) 4) sl]>
                           (command_slots (tab s))) (tab s) ->
     world s' = world s -> Q tt s') ->
  wp (free_slot (Z.of_nat i)) Q R s.
Proof.
  intros [Hwf Hex] Hi Hsl Hn HQ. pose proof (wf_lens _ _ _ Hwf) as Hl. unfold free_slot.
  apply wp_upd_slot; [lens_solve|]. rewrite Nat2Z.id. intros sl' Hsl'. simplify_eq.
  apply HQ; [|done..]. unfold Inv, excl. cbn. split.
  - constructor; [lens_keep| |]; apply Hwf.
  - intros Hdf. eapply exclusive_idle; [by apply Hex|done|done|].
    unfold running. cbn. rewrite state_with_state; done.
Qed.

Lemma quiet_stat_words n i p m sa word s :
  (forall j w, i <= j < i + Z.of_nat n -> quiet (word j) (set_world w s)) ->
  quiet (stat_words n i p m sa word) s.
Proof.
  revert i p s. induction n as [|n IH]; intros i p s Hw; cbn [stat_words]; quiet.
  - rewrite <- (set_world_world s). apply Hw. lia.
  - apply IH. intros j w' Hj. apply (Hw j w'). lia.
Qed.

Lemma cu_stat_spec (i : nat) sl s R :
  Inv s -> Z.of_nat i < num_slots (cfg s) -> command_slots (tab s) !! i = Some sl ->
  ~ running sl ->
  wp (cu_stat tgt (Z.of_nat i))
     (fun _ s' => Inv s' /\ command_slots (tab s') =
        <[i := set_header (with_state (header_value sl) 4) sl]> (command_slots (tab s))) R s.
Proof.
  intros HI Hi Hsl Hn. pose proof HI as [Hwf _]. pose proof (wf_lens _ _ _ Hwf) as Hl.
  pose proof (wf_num_slots _ _ _ Hwf). pose proof (wf_num_cus _ _ _ Hwf).
  unfold cu_stat. wps. apply wp_get_slot; [lens_solve|]. intros sl' _. wps.
  do 4 (apply wp_write_reg; intros ?; wps).
  apply quiet_stat_words. { intros j wj Hj. quiet. lens_solve. } intros p1 wd1. wps.
  apply quiet_stat_words. { intros j wj Hj. unfold get_cu_status. quiet. lens_solve. }
  intros p2 wd2. wps. apply quiet_stat_words.
  { intros j wj Hj. unfold get_slot. quiet. lens_solve. }
  intros p3 wd3. wps. apply quiet_notify_host; [lens_solve|lia|]. intros _ wd4. wps.
  apply free_slot_spec with (sl := sl); [done|lia|done|done|].
  intros s' HI' _ Ht _. apply wp_ret. rewrite Ht. done.
Qed.

Lemma configure_mb_spec (i : nat) sl s :
  Inv s -> Z.of_nat i < num_slots (cfg s) -> command_slots (tab s) !! i = Some sl ->
  slot_opcode sl = ERT_CONFIGURE ->
  wp (configure_mb tgt (Z.of_nat i)) (fun _ s' => Inv s') (stop_cause i) s.
Proof.
  intros HI Hi Hsl Ho. pose proof HI as [Hwf _]. pose proof (wf_lens _ _ _ Hwf) as Hl.
  pose proof (wf_num_slots _ _ _ Hwf).
  assert (forall e s', match e with
      | Oob => 128 < slot_count (cfg s') \/ 128 < num_cus (cfg s')
      | DivZero => slot_size (cfg s') = 0
      | _ => False
      end -> ops (tab s') = ops (tab s) -> stop_cause i e s') as Hstop.
  { intros e s' He Hop. destruct (ops_lookup i sl s s' Hop Hsl) as (sl' & Hsl' & Ho').
    exists sl'. rewrite Ho', Ho. destruct e; auto; done. }
  unfold configure_mb. wps. apply wp_get_slot; [lens_solve|]. intros sl' _. wps.
  apply wp_read_reg; intros ssize w1 Hs. wps. apply wp_read_reg; intros ncus w2 Hn. wps.
  apply wp_read_reg; intros offs w3 _. wps. apply wp_read_reg; intros base w4 _. wps.
  apply wp_read_reg; intros features w5 _. wps.
  set (c := Config _ _ _ _ _ _ _ _ _ _ _ _ _ _ _ _).
  eapply wp_mono; [apply (wp_for_range (fun k s' => cfg s' = c /\ lens (tab s') (reg s') /\
    reg s' = reg s /\ ops (tab s') = ops (tab s)))| |done].
  - done.
  - intros k s' Hk (Hc' & Hl' & Hr' & Hop'). wps. apply wp_read_reg; intros a w _.
    unfold put. wps. apply wp_idx; [intros x Hx; wps|].
    2:{ intros Hx. apply Hstop; [right|done]. cbn in *. rewrite Hc'. cbn.
        destruct (decide (128 < ncus)) as [|Hle]; [done|].
        destruct (zlookup_in_range (cu_addr_map (tab s')) k) as [y Hy]; [lens_solve|].
        by rewrite Hy in Hx. }
    cbn. split_and!; try done. lens_keep.
  - intros _ s1 (Hc1 & Hl1 & Hr1 & Hop1). wps.
    eapply wp_mono; [apply setup_spec; [done|rewrite Hc1; cbn; lia..]| |].
    2:{ intros e s' (Hop & (E1 & E2 & E3) & He). apply Hstop; [|congruence].
        destruct e; rewrite ?E1, ?E2, ?E3; done. }
    intros _ s2 (HI2 & Hr2 & Hop2 & Hfr2 & _). wps.
    pose proof HI2 as [Hwf2 _]. pose proof (wf_lens _ _ _ Hwf2) as Hl2.
    apply quiet_notify_host; [lens_solve|lia|]. intros _ w. wps.
    destruct (ops_lookup i sl s s2) as (sl2 & Hsl2 & _); [congruence|done|].
    apply free_slot_spec with (sl := sl2); [done|lia|done| |].
    + intros Hlt Hrun. cbn in Hlt. unfold running in Hrun. by rewrite (Hfr2 i sl2 Hlt Hsl2) in Hrun.
    + intros s' HI' _ _ _. by apply wp_ret.
Qed.

Lemma exit_poll_spec fuel d j (i : nat) sl s :
  command_slots (tab s) !! i = Some sl -> slot_opcode sl = ERT_EXIT ->
  wp (exit_poll tgt fuel d j) (fun _ s' => exists w, s' = set_world w s) (stop_cause i) s.
Proof.
  intros Hsl Ho. revert d j s Hsl. induction fuel as [|fuel IH]; intros d j s Hsl;
    cbn [exit_poll]; wps.
  - exists sl. split; [done|by left].
  - exists (world s). by rewrite set_world_world.
  - apply wp_read_reg; intros d' w _. wps. apply wp_read_reg; intros j' w' _.
    eapply wp_mono; [by apply IH| |done]. intros _ s' [w'' ->]. by exists w''.
  - exists (world s). by rewrite set_world_world.
Qed.

Lemma exit_mb_spec fuel (i : nat) sl s :
  Inv s -> Z.of_nat i < num_slots (cfg s) -> command_slots (tab s) !! i = Some sl ->
  slot_opcode sl = ERT_EXIT -> ~ running sl ->
  wp (exit_mb tgt fuel (Z.of_nat i)) (fun _ _ => False) (stop_cause i) s.
Proof.
  intros HI Hi Hsl Ho Hn. pose proof HI as [Hwf _]. pose proof (wf_lens _ _ _ Hwf) as Hl.
  pose proof (wf_num_slots _ _ _ Hwf).
  unfold exit_mb. wps. apply quiet_write_csr; intros _ w1. wps.
  apply quiet_write_csr; intros _ w2. wps. apply wp_read_reg; intros d w3 _. wps.
  apply wp_read_reg; intros j w4 _. wps.
  eapply wp_mono; [by eapply exit_poll_spec| |done]. intros _ s' [w ->]. wps.
  unfold free_slot. apply wp_upd_slot; [lens_solve|]. cbn. rewrite Nat2Z.id.
  intros sl' Hsl'. simplify_eq. wps. apply wp_get_slot; [lens_solve|]. intros sl' _. wps.
  apply wp_write_reg; intros w5. wps. eexists. cbn.
  rewrite list_lookup_insert_eq by lens_solve. done.
Qed.
End control.

(** * Routines that keep the configuration and the array sizes *)

Section keeps.
Context {W : Type} `{!Bus W} (tgt : target).
Implicit Types (s : fw W).

Definition keeps {A} (m : ert A) : Prop :=
  forall s, lens (tab s) (reg s) ->
    wp m (fun _ s' => cfg s' = cfg s /\ reg s' = reg s /\ lens (tab s') (reg s'))
         (fun _ s' => cfg s' = cfg s) s.

Lemma keeps_quiet {A} (m : ert A) : (forall s, quiet m s) -> keeps m.
Proof. intros H s Hl. apply H. done. Qed.

Lemma keeps_bind {A B} (m : ert A) (k : A -> ert B) :
  keeps m -> (forall a, keeps (k a)) -> keeps (bind m k).
Proof.
  intros Hm Hk s Hl. apply wp_bind. eapply wp_mono; [by apply Hm| |done].
  intros a s' (Hc & Hr & Hl'). eapply wp_mono; [by apply Hk|..]; intros; cbn in *; intuition congruence.
Qed.

Lemma keeps_ret {A} (a : A) : keeps (ret a).
Proof. apply keeps_quiet. intros. apply quiet_ret. Qed.

Lemma keeps_raise {A} (e : stop) : keeps (raise (A := A) e).
Proof. intros s Hl. by apply wp_raise. Qed.

Lemma keeps_gets {A} (f : fw W -> A) : keeps (gets f).
Proof. intros s Hl. by apply wp_gets. Qed.

Lemma keeps_idx {A} (l : list A) i : keeps (idx l i).
Proof. intros s Hl. by apply wp_idx. Qed.

Lemma keeps_put {A} (get : tables -> list A) set i x :
  (forall t r, lens t r -> lens (set (zinsert i x (get t)) t) r) ->
  keeps (put get set i x).
Proof.
  intros Hset s Hl. unfold put. wps. apply wp_idx; [|done]. intros y Hy.
  apply wp_modify. cbn. split_and!; auto.
Qed.

Lemma keeps_if {A} (b : bool) (m1 m2 : ert A) :
  keeps m1 -> keeps m2 -> keeps (if b then m1 else m2).
Proof. by destruct b. Qed.

Lemma keeps_when b (m : ert unit) : keeps m -> keeps (when b m).
Proof. intros H. destruct b; [done|apply keeps_ret]. Qed.

Lemma keeps_for_range n lo (body : Z -> ert unit) :
  (forall i, keeps (body i)) -> keeps (for_range n lo body).
Proof.
  intros Hb. revert lo. induction n as [|n IH]; intros lo; cbn [for_range];
    [apply keeps_ret|apply keeps_bind; auto].
Qed.
End keeps.

Ltac keeps_step :=
  lazymatch goal with
  | |- keeps (bind _ _) => apply keeps_bind; [|intros ?]
  | |- keeps (ret _) => apply keeps_ret
  | |- keeps (raise _) => apply keeps_raise
  | |- keeps (gets _) => apply keeps_gets
  | |- keeps (idx _ _) => apply keeps_idx
  | |- keeps (read_reg _) => apply keeps_quiet; intros; apply quiet_read
  | |- keeps (write_reg _ _) => apply keeps_quiet; intros; apply quiet_write
  | |- keeps (put _ _ _ _) => apply keeps_put; intros ? ? ?; lens_keep
  | |- keeps (if _ then _ else _) => apply keeps_if
  | |- keeps (when _ _) => apply keeps_when
  | |- keeps (for_range _ _ _) => apply keeps_for_range; intros ?
  | |- keeps (let _ := _ in _) => cbv zeta
  end.
Ltac keeps := repeat keeps_step.

Section keeping.
Context {W : Type} `{!Bus W} (tgt : target).

Lemma keeps_notify_host i : keeps (W := W) (notify_host i).
Proof. unfold notify_host. keeps. Qed.

Lemma keeps_launch i sl : keeps (W := W) (launch i sl).
Proof.
  unfold launch, configure_cu_ooo, configure_cu, configure_cu_dma, cu_idx_to_addr. keeps.
Qed.

Lemma keeps_queued_to_running i : keeps (W := W) (queued_to_running tgt i).
Proof.
  unfold queued_to_running, disable_interrupt_guard, intr_master, start_cu, get_slot,
    get_cu_status, toggle_cu_status, set_cu_info, upd_slot. keeps; try apply keeps_launch.
  all: unfold get_cu_status, get_slot; keeps.
Qed.

Lemma keeps_running_to_free i : keeps (W := W) (running_to_free i).
Proof.
  unfold running_to_free, check_cu, free_slot, upd_slot, get_slot, toggle_cu_status,
    get_cu_status, cu_idx_to_addr. keeps. apply keeps_notify_host.
Qed.

Lemma keeps_dataflow_poll i : keeps (W := W) (dataflow_poll i).
Proof.
  unfold dataflow_poll, get_slot, toggle_cu_status, get_cu_status, cu_idx_to_addr. keeps.
  apply keeps_notify_host.
Qed.

Lemma keeps_dataflow_kds30 i : keeps (W := W) (dataflow_kds30 i).
Proof.
  unfold dataflow_kds30, command_queue_fetch, cu_state_check, cu_execution, get_slot,
    upd_slot, set_cu_info, toggle_cu_status, get_cu_status, cu_idx_to_addr, configure_cu_ooo,
    configure_cu. keeps; try apply keeps_notify_host. all: unfold get_slot; keeps.
Qed.
End keeping.
