(* ===== verification/ErtRun.v ===== *)
(** The slot step, the scheduler loop and the interrupt handler of the embedded
    scheduler: CUs stay exclusive along every run, and a run only stops for the
    reasons listed in [stop_cause]. *)

From S2P Require Import Prelude ErtScheduler ErtInvariant ErtControl.

Section steps.
Context {W : Type} `{!Bus W} (tgt : target).
Implicit Types (s : fw W).

(** What a slot step leaves: the invariant, unless an ABORT named a slot that
    is no longer in use. *)
Definition stepped (i : nat) (s : fw W) : Prop := Inv s \/ stale_abort i s.

(** Why a slot step that starts with configuration [c] stops; the dataflow modes
    are not analysed further. *)
Definition stopped (c : config) (i : nat) (e : stop) (s : fw W) : Prop :=
  stop_cause i e s \/ dataflow_enabled c = true.

Lemma Inv_dataflow s s' :
  wf (cfg s) (tab s) (reg s) -> cfg s' = cfg s -> lens (tab s') (reg s') ->
  dataflow_enabled (cfg s) = true -> Inv s'.
Proof.
  intros Hwf Hc Hl Hdf. unfold Inv. rewrite Hc. split; [|congruence].
  constructor; [done|apply Hwf..].
Qed.

(** In dataflow mode a routine that keeps the array sizes keeps the invariant. *)
Lemma keeps_Inv {A} (m : ert A) i s :
  keeps m -> Inv s -> dataflow_enabled (cfg s) = true ->
  wp m (fun _ s' => Inv s' /\ cfg s' = cfg s) (stopped (cfg s) i) s.
Proof.
  intros Hk [Hwf _] Hdf. eapply wp_mono; [apply Hk, Hwf| |].
  - intros a s' (Hc & Hr & Hl). split; [by apply (Inv_dataflow s)|done].
  - intros e s' _. by right.
Qed.

Lemma abort_target_nonneg h : 0 <= abort_target h.
Proof. apply Z.land_nonneg. right. lia. Qed.

Lemma check_command_spec (i : nat) sl cu s (Q : unit -> fw W -> Prop) R :
  wf (cfg s) (tab s) (reg s) -> (i < 128)%nat -> command_slots (tab s) !! i = Some sl ->
  (forall w, Q tt (set_tab (set_slots
     (<[i := set_header (with_state (header_value sl) 4) sl]> (command_slots (tab s)))
     (tab s)) (set_world w s))) ->
  wp (check_command (Z.of_nat i) cu) Q R s.
Proof.
  intros Hwf Hi Hsl HQ. pose proof (wf_lens _ _ _ Hwf) as Hl. unfold check_command, free_slot.
  wps. apply quiet_notify_host; [lens_solve|lia|]. intros _ w. apply wp_upd_slot; [lens_solve|].
  cbn. rewrite Nat2Z.id. intros sl' Hsl'. simplify_eq. apply HQ.
Qed.

Lemma keeps_abort_mb i : keeps (W := W) (abort_mb tgt i).
Proof.
  unfold abort_mb, disable_interrupt_guard, intr_master, check_command, free_slot, upd_slot,
    get_slot, toggle_cu_status, get_cu_status. keeps; apply keeps_notify_host.
Qed.

(** The last steps of [abort_mb], once the target is known to run on [cu]. *)
Definition abort_release (i : nat) (cu : Z) : ert bool :=
  put cu_slot_usage set_slot_usage cu no_index ;;;
  toggle_cu_status cu ;;; notify_host (Z.of_nat i) ;;; ret true.

(** A stale target: the released CU may be anything, the ABORT slot is kept. *)
Lemma abort_release_stale (i : nat) sl cu s :
  wf (cfg s) (tab s) (reg s) -> Z.of_nat i < num_slots (cfg s) ->
  command_slots (tab s) !! i = Some sl -> slot_opcode sl = ERT_ABORT ->
  num_slots (cfg s) <= abort_target (header_value sl) ->
  wp (abort_release i cu)
     (fun _ s' => command_slots (tab s') !! i = Some sl /\ cfg s' = cfg s) (stopped (cfg s) i) s.
Proof.
  intros Hwf Hi Hsl Ho Hk. pose proof (wf_lens _ _ _ Hwf) as Hl.
  pose proof (wf_num_slots _ _ _ Hwf) as Hns.
  assert (forall s', command_slots (tab s') !! i = Some sl -> cfg s' = cfg s ->
    stopped (cfg s) i Oob s') as Hstop.
  { intros s' Hs' Hc'. left. exists sl. rewrite Hc'. auto. }
  unfold abort_release, toggle_cu_status, get_cu_status, put. wps.
  apply wp_idx; [intros ? _; wps|intros _; by apply Hstop].
  apply wp_idx; [intros ? _; wps|intros _; by apply Hstop].
  apply wp_idx; [intros ? _; wps|intros _; by apply Hstop].
  apply quiet_notify_host; [lens_solve|lia|]. intros _ w. by apply wp_ret.
Qed.

Lemma abort_release_owned (i k cu : nat) sl st s s1 :
  Inv s -> dataflow_enabled (cfg s) = false -> Z.of_nat i < num_slots (cfg s) ->
  Z.of_nat k < num_slots (cfg s) ->
  command_slots (tab s) !! k = Some st -> running st -> slot_cu_idx st = Z.of_nat cu ->
  cfg s1 = cfg s -> reg s1 = reg s -> ~ running sl ->
  tab s1 = set_slots (<[k := sl]> (command_slots (tab s))) (tab s) ->
  wp (abort_release i (Z.of_nat cu)) (fun _ s' => Inv s') (stopped (cfg s) i) s1.
Proof.
  intros [Hwf Hex] Hdf Hi Hk Hst Hr Hcu Hc1 Hr1 Hn Ht1. specialize (Hex Hdf).
  pose proof (wf_lens _ _ _ Hwf) as Hl. pose proof (wf_num_slots _ _ _ Hwf) as Hns.
  assert (lens (tab s1) (reg s1)) as Hl1 by (rewrite Ht1, Hr1; lens_keep).
  destruct (proj1 Hex k st Hk Hst Hr) as (cu' & Hcu' & Hstat & _).
  assert (cu' = cu) as -> by lia. pose proof (lookup_lt_Some _ _ _ Hstat) as Hlt.
  rewrite (len_cu_status _ _ Hl) in Hlt.
  unfold abort_release. wps. apply wp_put; [lens_solve|]. wps.
  apply wp_toggle with (b := true); [cbn; by rewrite Ht1, zlookup_nat|]. wps.
  apply quiet_notify_host; [lens_solve|lia|]. intros _ w. apply wp_ret.
  unfold Inv, excl, zinsert. cbn. rewrite Hc1, Ht1. cbn. rewrite Nat2Z.id. split.
  - constructor; [lens_keep| |]; apply Hwf.
  - intros _. eapply exclusive_finish; eauto.
Qed.

Lemma abort_mb_spec (i : nat) sl s :
  Inv s -> Z.of_nat i < num_slots (cfg s) -> command_slots (tab s) !! i = Some sl ->
  slot_opcode sl = ERT_ABORT -> ~ running sl ->
  wp (abort_mb tgt (Z.of_nat i)) (fun _ => stepped i) (stopped (cfg s) i) s.
Proof.
  intros HI Hi Hsl Ho Hn. destruct (dataflow_enabled (cfg s)) eqn:Hdf.
  { eapply wp_mono; [by apply keeps_Inv; [apply keeps_abort_mb|..]| |done].
    intros b s' [HI' _]. by left. }
  pose proof HI as [Hwf Hex]. pose proof (wf_lens _ _ _ Hwf) as Hl.
  pose proof (wf_num_slots _ _ _ Hwf) as Hns.
  unfold abort_mb. apply wp_guard. intros w. wps. apply wp_get_slot; [lens_solve|].
  cbn. rewrite Nat2Z.id. intros sl' Hsl'. simplify_eq. cbv zeta.
  fold (abort_target (header_value sl)). pose proof (abort_target_nonneg (header_value sl)) as Ht.
  remember (abort_target (header_value sl)) as k eqn:Hk. unfold get_slot. wps.
  apply wp_idx; [intros st Hst|].
  2:{ intros Hno. left. exists sl. split; [done|]. right. right. split; [done|]. rewrite <- Hk. cbn in *.
      destruct (decide (k < num_slots (cfg s))) as [Hlt|]; [|lia].
      destruct (zlookup_in_range (command_slots (tab s)) k) as [y Hy]; [lens_solve|]. by rewrite Hy in Hno. }
  apply zlookup_Some in Hst as [Hkr Hst]. cbn in Hkr, Hst.
  rewrite (len_command_slots _ _ Hl) in Hkr. wps; try (by intros w'; left).
  assert (running st) as Hr by (apply Z.eqb_eq, negb_false_iff; assumption).
  assert (i <> Z.to_nat k) as Hki by (intros ->; congruence).
  rewrite <- (Z2Nat.id k) by lia.
  apply check_command_spec with (sl := st); [done|lia|done|]. intros w1.
  change (wp (abort_release i (slot_cu_idx st)) (fun b s' => forall w', stepped i (set_world w' s'))
    (stopped (cfg s) i) (set_tab (set_slots (<[Z.to_nat k := set_header (with_state (header_value st) 4) st]>
       (command_slots (tab s))) (tab s)) (set_world w1 s))).
  destruct (decide (k < num_slots (cfg s))) as [Hlt|Hge].
  - destruct (proj1 (Hex Hdf) (Z.to_nat k) st ltac:(lia) Hst Hr) as (cu & Hcu & _).
    rewrite Hcu. eapply wp_mono; [eapply (abort_release_owned i (Z.to_nat k) cu
      (set_header (with_state (header_value st) 4) st) st s); eauto; [lia|]| |done].
    + unfold running. cbn. rewrite state_with_state; done.
    + intros b s' HI' w'. by left.
  - eapply wp_mono; [apply (abort_release_stale i sl); cbn; [|done| |done|rewrite <- Hk; lia]| |done].
    + constructor; [lens_keep| |]; apply Hwf.
    + by rewrite list_lookup_insert_ne.
    + intros b s' [Hs' Hc'] w'. right. exists sl. cbn. rewrite Hc', <- Hk. split_and!; auto. cbn. lia.
Qed.

Lemma stopped_cause c i e s : stop_cause i e s -> stopped c i e s.
Proof. by left. Qed.

Lemma process_special_command_spec fuel (i : nat) sl s :
  Inv s -> Z.of_nat i < num_slots (cfg s) -> command_slots (tab s) !! i = Some sl ->
  ~ running sl ->
  wp (process_special_command tgt fuel (slot_opcode sl) (Z.of_nat i))
     (fun _ => stepped i) (stopped (cfg s) i) s.
Proof.
  intros HI Hi Hsl Hn. unfold process_special_command. wps.
  - eapply wp_mono; [by eapply configure_mb_spec; [..|apply Z.eqb_eq]|by left|apply stopped_cause].
  - eapply wp_mono; [by apply cu_stat_spec with (sl := sl)| |done]. intros b s' [HI' _]. by left.
  - eapply wp_mono; [by eapply exit_mb_spec; [..|apply Z.eqb_eq|]|done|apply stopped_cause].
  - by eapply abort_mb_spec; [..|apply Z.eqb_eq|].
  - by left.
Qed.

(** Replacing an idle slot by an idle slot keeps the invariant. *)
Lemma Inv_idle (i : nat) sl sl' s w :
  Inv s -> command_slots (tab s) !! i = Some sl -> ~ running sl -> ~ running sl' ->
  Inv (set_tab (set_slots (<[i := sl']> (command_slots (tab s))) (tab s)) (set_world w s)).
Proof.
  intros [Hwf Hex] Hsl Hn Hn'. pose proof (wf_lens _ _ _ Hwf). unfold Inv, excl. cbn. split.
  - constructor; [lens_keep| |]; apply Hwf.
  - intros Hdf. eapply exclusive_idle; [by apply Hex|done|done|done].
Qed.

Lemma new_to_queued_spec fuel (i : nat) sl s :
  Inv s -> Z.of_nat i < num_slots (cfg s) -> command_slots (tab s) !! i = Some sl ->
  state_of (header_value sl) = st_new ->
  wp (new_to_queued tgt fuel (Z.of_nat i))
     (fun b s' => if b : bool then Inv s' /\ cfg s' = cfg s /\
          exists cu, command_slots (tab s') !! i =
            Some (SlotInfo (slot_addr sl) (with_state (header_value sl) st_queued)
                    (opcode (header_value sl)) cu
                    (regmap_section_addr (header_value sl) (slot_addr sl))
                    (regmap_size (header_value sl)))
        else stepped i s') (stopped (cfg s) i) s.
Proof.
  intros HI Hi Hsl Hst. pose proof HI as [Hwf _]. pose proof (wf_lens _ _ _ Hwf) as Hl.
  pose proof (wf_num_slots _ _ _ Hwf) as Hns.
  assert (~ running sl) as Hn by by apply (not_running_state _ _ sl eq_refl Hst).
  unfold new_to_queued. wps. apply wp_get_slot; [lens_solve|]. rewrite Nat2Z.id.
  intros sl' Hsl'. simplify_eq. wps. apply wp_upd_slot; [lens_solve|]. rewrite Nat2Z.id.
  intros sl' Hsl'. simplify_eq.
  pose proof (Inv_idle i sl (set_opcode (opcode (header_value sl)) sl) s (world s) HI Hsl Hn Hn) as HI1.
  rewrite set_world_world in HI1. wps.
  - eapply wp_mono; [eapply (process_special_command_spec fuel i
      (set_opcode (opcode (header_value sl)) sl)); [done|done| |done]| |done].
    + cbn. by rewrite list_lookup_insert_eq by lens_solve.
    + intros b s' Hs'. by apply wp_ret.
  - apply wp_read_reg. intros cu w _. wps. apply wp_upd_slot; [lens_solve|].
    cbn. rewrite Nat2Z.id. intros sl' Hsl'.
    rewrite list_lookup_insert_eq in Hsl' by lens_solve. injection Hsl' as <-. apply wp_ret.
    split; [|split; [done|exists cu; cbn; by rewrite list_lookup_insert_eq by lens_solve]].
    eapply Inv_idle; [done|cbn; by rewrite list_lookup_insert_eq by lens_solve|done|].
    unfold running. cbn. rewrite state_with_state; done.
Qed.

(** Why starting a queued command can stop. *)
Lemma start_stops (i : nat) sl s :
  Inv s -> Z.of_nat i < num_slots (cfg s) -> command_slots (tab s) !! i = Some sl ->
  state_of (header_value sl) = st_queued ->
  ~ (0 <= slot_cu_idx sl < 128) \/
    (slot_opcode sl = ERT_EXEC_WRITE /\ slot_regmap_size sl = 2 ^ 32 - 1 /\
     zlookup (cu_status (tab s)) (slot_cu_idx sl) = Some false) ->
  wp (queued_to_running tgt (Z.of_nat i)) (fun _ _ => False) (stopped (cfg s) i) s.
Proof.
  intros [Hwf Hex] Hi Hsl Hst Hc. pose proof (wf_lens _ _ _ Hwf) as Hl.
  pose proof (wf_num_slots _ _ _ Hwf) as Hns.
  unfold queued_to_running. apply wp_guard. intros w. unfold start_cu, get_cu_status. wps.
  apply wp_get_slot; [lens_solve|]. cbn. rewrite Nat2Z.id. intros sl' Hsl'. simplify_eq. wps.
  cbn. destruct Hc as [Hc|(Ho & Hrs & Hb)].
  - apply wp_idx; [|intros _; left; exists sl; by auto].
    intros x Hx. apply zlookup_Some in Hx as [Hx _]. rewrite (len_cu_status _ _ Hl) in Hx. lia.
  - apply wp_idx; [|by rewrite Hb]. intros b Hb'. rewrite Hb in Hb'. injection Hb' as <-. wps.
    apply zlookup_Some in Hb as [Hcu _]. rewrite (len_cu_status _ _ Hl) in Hcu.
    unfold launch. wps; [|rewrite Ho in *; done..].
    apply quiet_cu_idx_to_addr; [lens_solve|]. intros a w1. unfold configure_cu_ooo.
    rewrite Hrs, Z.eqb_refl. wps. left. exists sl. auto.
Qed.

Lemma queued_to_running_any (i : nat) sl s :
  Inv s -> Z.of_nat i < num_slots (cfg s) -> command_slots (tab s) !! i = Some sl ->
  state_of (header_value sl) = st_queued ->
  wp (queued_to_running tgt (Z.of_nat i)) (fun _ s' => Inv s' /\ cfg s' = cfg s) (stopped (cfg s) i) s.
Proof.
  intros HI Hi Hsl Hst. pose proof HI as [Hwf Hex]. pose proof (wf_lens _ _ _ Hwf) as Hl.
  destruct (dataflow_enabled (cfg s)) eqn:Hdf.
  { by apply keeps_Inv; [apply keeps_queued_to_running|..]. }
  destruct (decide (0 <= slot_cu_idx sl < 128)) as [Hcu|Hcu].
  2:{ eapply wp_mono; [by apply start_stops with (sl := sl); auto|done|done]. }
  destruct (zlookup_in_range (cu_status (tab s)) (slot_cu_idx sl)) as [b Hb]; [lens_solve|].
  destruct (decide (b = false /\ slot_opcode sl = ERT_EXEC_WRITE /\
    slot_regmap_size sl = 2 ^ 32 - 1)) as [(-> & Ho & Hrs)|Hno].
  { eapply wp_mono; [by apply start_stops with (sl := sl); auto|done|done]. }
  destruct (zlookup_Some _ _ _ Hb) as [_ Hb']. destruct b.
  - (* busy: nothing is launched *)
    unfold queued_to_running. apply wp_guard. intros w. unfold start_cu, get_cu_status. wps.
    apply wp_get_slot; [lens_solve|]. cbn. rewrite Nat2Z.id. intros sl' Hsl'. simplify_eq. wps.
    cbn. apply wp_idx; [|by rewrite Hb]. intros b Hb''. rewrite Hb in Hb''.
    injection Hb'' as <-. by wps.
  - eapply wp_mono; [eapply (queued_to_running_spec tgt i sl (Z.to_nat (slot_cu_idx sl)) false);
      eauto; first [lia|naive_solver]| |done].
    intros b s' (? & ? & _). done.
Qed.

Lemma running_to_free_any (i : nat) sl s :
  Inv s -> Z.of_nat i < num_slots (cfg s) -> command_slots (tab s) !! i = Some sl -> running sl ->
  wp (running_to_free (Z.of_nat i)) (fun _ s' => Inv s') (stopped (cfg s) i) s.
Proof.
  intros HI Hi Hsl Hr. destruct (dataflow_enabled (cfg s)) eqn:Hdf.
  - eapply wp_mono; [by apply keeps_Inv; [apply keeps_running_to_free|..]| |done]. by intros b s' [].
  - eapply wp_mono; [by apply running_to_free_spec with (sl := sl)| |done]. by intros b s' (? & _).
Qed.

Lemma wp_slot_state (i : nat) sl (Q : Z -> fw W -> Prop) R s :
  command_slots (tab s) !! i = Some sl -> Q (state_of (header_value sl)) s ->
  wp (slot_state (Z.of_nat i)) Q R s.
Proof.
  intros Hsl HQ. pose proof (lookup_lt_Some _ _ _ Hsl). unfold slot_state. wps.
  apply wp_get_slot; [lia|]. rewrite Nat2Z.id. intros sl' Hsl'. simplify_eq. by apply wp_ret.
Qed.

(** The slot [i] exists, in a state that satisfies the invariant. *)
Definition ready (i : nat) (s : fw W) : Prop := Inv s /\ Z.of_nat i < num_slots (cfg s).

Lemma ready_slot i s : ready i s -> exists sl, command_slots (tab s) !! i = Some sl.
Proof.
  intros [[Hwf _] Hi]. apply lookup_lt_is_Some_2. pose proof (wf_num_slots _ _ _ Hwf). lens_solve.
Qed.

Lemma running_stage_spec (i : nat) s :
  ready i s -> wp (running_stage (Z.of_nat i)) (fun _ s' => Inv s') (stopped (cfg s) i) s.
Proof.
  intros Hr. destruct (ready_slot i s Hr) as [sl Hsl]. destruct Hr as [HI Hi].
  unfold running_stage. wps. apply wp_slot_state with (sl := sl); [done|]. wps; [|done].
  eapply wp_mono; [eapply running_to_free_any; eauto| |done].
  - apply Z.eqb_eq. by destruct (negb _).
  - intros b s' HI'. by apply wp_ret.
Qed.

Lemma queued_stage_spec (i : nat) s :
  ready i s -> wp (queued_stage tgt (Z.of_nat i)) (fun _ s' => Inv s') (stopped (cfg s) i) s.
Proof.
  intros Hr. destruct (ready_slot i s Hr) as [sl Hsl]. pose proof Hr as [HI Hi].
  unfold queued_stage. wps. apply wp_slot_state with (sl := sl); [done|]. wps; [|done|].
  - eapply wp_mono; [by eapply queued_to_running_any; [..|apply Z.eqb_eq]| |done].
    intros b s' [HI' Hc']. wps; [done|]. rewrite <- Hc'. apply running_stage_spec. split; [done|]. by rewrite Hc'.
  - by apply running_stage_spec.
Qed.

Lemma new_stage_spec fuel (i : nat) s :
  ready i s -> wp (new_stage tgt fuel (Z.of_nat i)) (fun _ => stepped i) (stopped (cfg s) i) s.
Proof.
  intros Hr. destruct (ready_slot i s Hr) as [sl Hsl]. pose proof Hr as [HI Hi].
  unfold new_stage. wps. apply wp_slot_state with (sl := sl); [done|]. wps; [|done|].
  - eapply wp_mono; [by eapply new_to_queued_spec; [..|apply Z.eqb_eq]| |done].
    intros b s' Hs'. wps; [by destruct b|]. destruct b; [|done]. destruct Hs' as (HI' & Hc' & _).
    rewrite <- Hc'. eapply wp_mono; [apply queued_stage_spec; split; [done|by rewrite Hc']|by left|done].
  - eapply wp_mono; [by apply queued_stage_spec|by left|done].
Qed.

(** The four transitions of a slot, chained. *)
Lemma normal_slot_spec fuel (i : nat) s :
  ready i s -> wp (normal_slot tgt fuel (Z.of_nat i)) (fun _ => stepped i) (stopped (cfg s) i) s.
Proof.
  intros Hr. destruct (ready_slot i s Hr) as [sl Hsl]. pose proof Hr as [HI Hi].
  pose proof HI as [Hwf _]. pose proof (wf_num_slots _ _ _ Hwf) as Hns.
  unfold normal_slot. wps. apply wp_slot_state with (sl := sl); [done|]. wps; [|done|].
  - eapply wp_mono; [apply free_to_new_spec with (sl := sl); [done|lia|done|]| |done].
    + apply (not_running_state _ st_free sl eq_refl); [|done].
      apply Z.eqb_eq. by destruct (negb _).
    + intros b s' (HI' & Hc' & _). wps; [by left|]. rewrite <- Hc'. apply new_stage_spec.
      split; [done|by rewrite Hc'].
  - by apply new_stage_spec.
Qed.

Lemma scheduler_slot_spec fuel (i : nat) s :
  ready i s -> wp (scheduler_slot tgt fuel (Z.of_nat i)) (fun _ => stepped i) (stopped (cfg s) i) s.
Proof.
  intros Hr. pose proof Hr as [HI Hi]. pose proof HI as [Hwf _].
  pose proof (wf_num_slots _ _ _ Hwf) as Hns. pose proof (wf_lens _ _ _ Hwf) as Hl.
  unfold scheduler_slot. wps. apply wp_get_slot; [lens_solve|]. intros sl _. wps; cbn.
  1,4: eapply wp_mono; [apply keeps_Inv; [apply keeps_dataflow_poll|done|]| |done];
    [cbn; repeat match goal with H : _ && _ = true |- _ => apply andb_true_iff in H as [? ?] end; done
    |intros ? s' [? _]; by left].
  1,3: eapply wp_mono; [apply keeps_Inv; [apply keeps_dataflow_kds30|done|]| |done];
    [cbn; repeat match goal with H : _ && _ = true |- _ => apply andb_true_iff in H as [? ?] end; done
    |intros ? s' [? _]; by left].
  all: first [by apply normal_slot_spec|exact (normal_slot_spec fuel i (set_world _ s) Hr)].
Qed.
End steps.
