(* ===== verification/ErtTheorems.v ===== *)
(** The properties of the embedded scheduler, stated over its code, with a
    memory-backed bus on which the witnesses and the end-to-end theorems run. *)

From S2P Require Import Prelude ErtScheduler ErtInvariant ErtControl ErtRun.

(** * Interrupt loops *)

Section interrupts.
Context {W : Type} `{!Bus W} (tgt : target).
Implicit Types (s : fw W).

(** Bit [c - off] of [m], for [c] at or above [off]. *)
Definition bit_at (m : Z) (off c : nat) : bool :=
  (off <=? c)%nat && Z.testbit m (Z.of_nat c - Z.of_nat off).

Lemma bit_at_self m off : bit_at m off off = Z.odd m.
Proof.
  unfold bit_at. rewrite Nat.leb_refl, Z.sub_diag. symmetry. apply Z.bit0_odd.
Qed.

Lemma bit_at_shift m off c :
  c <> off -> bit_at m off c = bit_at (Z.shiftr m 1) (S off) c.
Proof.
  intros Hne. unfold bit_at. destruct (Nat.leb_spec off c) as [H|H]; cbn [andb].
  - rewrite (proj2 (Nat.leb_le (S off) c)) by lia. cbn [andb].
    rewrite testbit_shiftr by lia. f_equal. lia.
  - by rewrite (proj2 (Nat.leb_gt (S off) c)) by lia.
Qed.

Lemma bit_at_below m off c : (c < off)%nat -> bit_at m off c = false.
Proof. intros H. unfold bit_at. by rewrite (proj2 (Nat.leb_gt off c)) by lia. Qed.

Lemma land_1_odd m : (Z.land m 1 =? 0) = negb (Z.odd m).
Proof.
  change 1 with (Z.ones 1) at 1. rewrite Z.land_ones by lia. change (2 ^ 1) with 2.
  rewrite Zmod_odd.
  by destruct (Z.odd m).
Qed.

Lemma shiftr_range m n : 0 <= m < 2 ^ Z.of_nat (S n) -> 0 <= Z.shiftr m 1 < 2 ^ Z.of_nat n.
Proof.
  intros H. rewrite Z.shiftr_div_pow2 by lia. change (2 ^ 1) with 2.
  rewrite Nat2Z.inj_succ, Z.pow_succ_r in H by lia.
  split; [apply Z.div_pos; lia|apply Z.div_lt_upper_bound; lia].
Qed.

(** The CUs that a status mask reports and whose interrupts are enabled. *)
Definition reported (m : Z) (off : nat) (enabled : list bool) (c : nat) : bool :=
  bit_at m off c && default false (enabled !! c).

Lemma reported_shift m off l c :
  c <> off -> reported m off l c = reported (Z.shiftr m 1) (S off) l c.
Proof. intros Hne. unfold reported. by rewrite bit_at_shift. Qed.

(** One bit of the status mask. *)
Lemma cu_bit_spec m off s R :
  (off < 128)%nat -> Inv s -> dataflow_enabled (cfg s) = false ->
  (reported m off (cu_interrupt_mask (tab s)) off = true ->
   cu_status (tab s) !! off = Some true) ->
  wp (if Z.land m 0x1 =? 0 then ret tt else
        t <- gets tab ;;
        enabled <- idx (cu_interrupt_mask t) (Z.of_nat off) ;;
        if enabled : bool then complete_cu (Z.of_nat off) else ret tt)
     (fun _ s' => Inv s' /\ cfg s' = cfg s /\ reg s' = reg s /\
        cu_interrupt_mask (tab s') = cu_interrupt_mask (tab s) /\
        cu_status (tab s') =
          if reported m off (cu_interrupt_mask (tab s)) off
          then <[off := false]> (cu_status (tab s)) else cu_status (tab s)) R s.
Proof.
  intros Hoff HI Hdf Hbusy. pose proof HI as [Hwf _]. pose proof (wf_lens _ _ _ Hwf) as Hl.
  unfold reported in *. rewrite bit_at_self, land_1_odd in *.
  destruct (Z.odd m); cbn [negb andb] in *; wps; [|done].
  apply wp_idx_in; [lens_solve|]. intros en Hen. rewrite zlookup_nat in Hen.
  rewrite Hen in *. cbn in *. destruct en; wps; [|done].
  eapply wp_mono; [by apply complete_cu_spec; auto| |done].
  intros _ s' (HI' & Hc' & Hr' & Hst' & Him' & _). done.
Qed.

Lemma cu_mask_loop_spec n m off s R :
  0 <= m < 2 ^ Z.of_nat n -> (off + n <= 128)%nat ->
  Inv s -> dataflow_enabled (cfg s) = false ->
  (forall c, reported m off (cu_interrupt_mask (tab s)) c = true ->
             cu_status (tab s) !! c = Some true) ->
  wp (cu_mask_loop n m (Z.of_nat off))
     (fun _ s' => Inv s' /\ cfg s' = cfg s /\ reg s' = reg s /\
        forall c, cu_status (tab s') !! c =
          if reported m off (cu_interrupt_mask (tab s)) c then Some false
          else cu_status (tab s) !! c) R s.
Proof.
  revert m off s. induction n as [|n IH]; intros m off s Hm Hoff HI Hdf Hbusy;
    cbn [cu_mask_loop]; (destruct (Z.eqb_spec m 0) as [->|Hm0];
    [wps; split_and!; try done; intros c; unfold reported, bit_at;
     by rewrite Z.testbit_0_l, andb_false_r|]); [cbn in Hm; lia|].
  pose proof HI as [Hwf Hex]. pose proof (wf_lens _ _ _ Hwf) as Hl. apply wp_bind.
  eapply wp_mono; [apply (cu_bit_spec m off); [lia|done|done|apply Hbusy]| |done].
  intros _ s1 (HI1 & Hc1 & Hr1 & Him1 & Hst1).
  replace (Z.of_nat off + 1) with (Z.of_nat (S off)) by lia.
  assert (forall c, c <> off -> cu_status (tab s1) !! c = cu_status (tab s) !! c) as Hst.
  { intros c Hne. rewrite Hst1. destruct (reported _ _ _ off); [|done].
    by rewrite list_lookup_insert_ne. }
  eapply wp_mono; [apply IH; [by apply shiftr_range|lia|done|by rewrite Hc1|]| |done].
  - intros c Hc. destruct (decide (c = off)) as [->|Hne].
    + unfold reported in Hc. by rewrite bit_at_below in Hc by lia.
    + rewrite Hst by done. apply Hbusy. rewrite reported_shift by done. by rewrite <- Him1.
  - intros _ s' (HI' & Hc' & Hr' & Hst'). split_and!; try congruence. intros c.
    rewrite Hst', Him1. destruct (decide (c = off)) as [->|Hne].
    + unfold reported at 1. rewrite bit_at_below by lia. cbn [andb]. rewrite Hst1.
      destruct (reported m off _ off) eqn:Hrep; [|done].
      rewrite list_lookup_insert_eq; [done|]. rewrite (len_cu_status _ _ Hl). lia.
    + rewrite <- reported_shift by done. by rewrite Hst.
Qed.

(** Host interrupts: new commands are fetched into slots that do not run. *)
Lemma slot_mask_loop_spec n m off s R :
  0 <= m < 2 ^ Z.of_nat n -> (off + n <= 128)%nat -> Inv s ->
  (forall c sl, bit_at m off c = true -> command_slots (tab s) !! c = Some sl -> ~ running sl) ->
  wp (slot_mask_loop n m (Z.of_nat off))
     (fun _ s' => Inv s' /\ cfg s' = cfg s /\ cu_status (tab s') = cu_status (tab s)) R s.
Proof.
  revert m off s. induction n as [|n IH]; intros m off s Hm Hoff HI Hidle;
    cbn [slot_mask_loop]; (destruct (Z.eqb_spec m 0) as [->|Hm0]; [by wps|]); [cbn in Hm; lia|].
  pose proof HI as [Hwf _]. pose proof (wf_lens _ _ _ Hwf) as Hl.
  replace (Z.of_nat off + 1) with (Z.of_nat (S off)) by lia. rewrite land_1_odd.
  destruct (lookup_lt_is_Some_2 (command_slots (tab s)) off) as [sl Hsl]; [lens_solve|].
  assert (forall s1, Inv s1 -> cfg s1 = cfg s -> cu_status (tab s1) = cu_status (tab s) ->
    (forall c, c <> off -> command_slots (tab s1) !! c = command_slots (tab s) !! c) ->
    wp (slot_mask_loop n (Z.shiftr m 1) (Z.of_nat (S off)))
      (fun _ s' => Inv s' /\ cfg s' = cfg s /\ cu_status (tab s') = cu_status (tab s)) R s1) as Hrec.
  { intros s1 HI1 Hc1 Hst1 Hsl1. eapply wp_mono; [apply IH; [by apply shiftr_range|lia|done|]| |done].
    - intros c slc Hb Hc. destruct (decide (c = off)) as [->|Hne];
        [by rewrite bit_at_below in Hb by lia|]. rewrite Hsl1 in Hc by done.
      eapply Hidle; [|done]. by rewrite bit_at_shift.
    - intros _ s' (? & ? & ?). split_and!; congruence || done. }
  destruct (Z.odd m) eqn:Hodd; cbn [negb]; wps; [|by apply Hrec].
  eapply wp_mono; [apply free_to_new_spec with (sl := sl); [done|lia|done|]| |done].
  - apply (Hidle off); [by rewrite bit_at_self|done].
  - intros b s1 (HI1 & Hc1 & Ht1). wps. apply Hrec; try done; destruct b;
      [destruct Ht1 as (h & _ & _ & ->)|rewrite Ht1|destruct Ht1 as (h & _ & _ & ->)|rewrite Ht1];
      try done. intros c Hne. cbn. by rewrite list_lookup_insert_ne.
Qed.
End interrupts.

(** * Runs *)

Section runs.
Context {W : Type} `{!Bus W} (tgt : target).
Implicit Types (s : fw W).

(** The state the firmware image starts in. *)
Definition power_on (w : W) : fw W := Fw reset_config reset_tables reset_regs 0 w.

(** What [scheduler_loop] does before its [while (1)]. *)
Definition boot : ert unit := setup_ert_base_addr tgt ;;; setup tgt.

Lemma setup_ert_base_addr_spec s (Q : unit -> fw W -> Prop) R :
  length (command_slots (tab s)) = 128%nat -> length (slot_cache (tab s)) = 128%nat ->
  length (cu_slot_usage (tab s)) = 128%nat -> length (cu_usage (tab s)) = 128%nat ->
  length (cu_status (tab s)) = 128%nat -> length (cu_interrupt_mask (tab s)) = 128%nat ->
  (forall s', lens (tab s') (reg s') -> cfg s' = cfg s -> Q tt s') ->
  wp (setup_ert_base_addr tgt) Q R s.
Proof.
  intros ? ? ? ? ? ? HQ. unfold setup_ert_base_addr. wps.
  destruct (bld tgt); wps; try (apply HQ; [|done]; constructor; cbn; done).
  apply wp_read_reg. intros b w _. wps. apply HQ; [|done]; constructor; cbn; done.
Qed.

Lemma boot_spec w R :
  wp boot (fun _ s => Inv s /\ num_slots (cfg s) = 16 /\ num_cus (cfg s) = 3 /\
    dataflow_enabled (cfg s) = false /\ freed 16 s /\
    cu_status (tab s) = replicate 128 false) R (power_on w).
Proof.
  unfold boot. wps. apply setup_ert_base_addr_spec; try done.
  intros s' Hl Hc. eapply wp_mono; [apply setup_spec; [done|rewrite Hc; cbn; lia..]| |].
  - intros _ s (HI & _ & _ & Hf & Hst & Hns & Hnc & Hdf & _). rewrite Hc in *. cbn in *.
    rewrite Hns in Hf. done.
  - intros e s (_ & _ & He). rewrite Hc in He. unfold slot_count in He. cbn in He.
    destruct e; try done. change (ERT_CQ_SIZE / 4096) with 16 in He. lia.
Qed.

(** The scheduler and its environment.  The main loop makes whole slot steps, or
    the single transitions of a slot, between which the interrupt handler may run:
    it completes a compute unit or fetches a command.  Any change of the world by the host, the
    compute units and the DMA engine is a step.  The steps assume four things that the firmware does
    not check: no ABORT names a slot that is out of use ([stale_abort]); only
    a compute unit that is busy raises an interrupt; the host raises its interrupt only for a slot
    that is free; and the handler does not run inside a transition, where the code
    disables interrupts only in [queued_to_running] and [abort_mb]. *)
Inductive sched_step : fw W -> fw W -> Prop :=
| step_slot fuel i s s' :
    Z.of_nat i < num_slots (cfg s) ->
    scheduler_slot tgt fuel (Z.of_nat i) s = Ok tt s' -> ~ stale_abort i s' ->
    sched_step s s'
| step_new fuel i sl b s s' :
    Z.of_nat i < num_slots (cfg s) -> command_slots (tab s) !! i = Some sl ->
    state_of (header_value sl) = st_new ->
    new_to_queued tgt fuel (Z.of_nat i) s = Ok b s' -> ~ stale_abort i s' -> sched_step s s'
| step_queued i sl b s s' :
    Z.of_nat i < num_slots (cfg s) -> command_slots (tab s) !! i = Some sl ->
    state_of (header_value sl) = st_queued ->
    queued_to_running tgt (Z.of_nat i) s = Ok b s' -> sched_step s s'
| step_running i sl b s s' :
    Z.of_nat i < num_slots (cfg s) -> command_slots (tab s) !! i = Some sl -> running sl ->
    running_to_free (Z.of_nat i) s = Ok b s' -> sched_step s s'
| step_cu_done cu s s' :
    dataflow_enabled (cfg s) = false -> cu_status (tab s) !! cu = Some true ->
    complete_cu (Z.of_nat cu) s = Ok tt s' -> sched_step s s'
| step_fetch i sl b s s' :
    (i < 128)%nat -> command_slots (tab s) !! i = Some sl ->
    state_of (header_value sl) = st_free ->
    free_to_new (Z.of_nat i) s = Ok b s' -> sched_step s s'
| step_world w s : sched_step s (set_world w s).

Lemma sched_step_Inv s s' : sched_step s s' -> Inv s -> Inv s'.
Proof.
  intros [fuel i s1 s2 Hi Hrun Hns|fuel i sl b s1 s2 Hi Hsl Hst Hrun Hns|i sl b s1 s2 Hi Hsl Hst Hrun
    |i sl b s1 s2 Hi Hsl Hr Hrun|cu s1 s2 Hdf Hb Hrun|i sl b s1 s2 Hi Hsl Hf Hrun|w s1] HI.
  - by destruct (wp_run _ _ _ _ _ _ (scheduler_slot_spec tgt fuel i s1 (conj HI Hi)) Hrun).
  - pose proof (wp_run _ _ _ _ _ _ (new_to_queued_spec tgt fuel i sl s1 HI Hi Hsl Hst) Hrun) as H.
    destruct b; by destruct H.
  - by destruct (wp_run _ _ _ _ _ _ (queued_to_running_any tgt i sl s1 HI Hi Hsl Hst) Hrun).
  - exact (wp_run _ _ _ _ _ _ (running_to_free_any i sl s1 HI Hi Hsl Hr) Hrun).
  - by destruct (wp_run _ _ _ _ _ _ (complete_cu_spec cu s1 no_err HI Hdf Hb) Hrun).
  - assert (~ running sl) as Hn by by apply (not_running_state _ st_free sl eq_refl).
    by destruct (wp_run _ _ _ _ _ _ (free_to_new_spec i sl s1 no_err HI ltac:(lia) Hsl Hn) Hrun).
  - done.
Qed.

Lemma runs_Inv s s' : Inv s -> rtc sched_step s s' -> Inv s'.
Proof. intros HI Hr. induction Hr; eauto using sched_step_Inv. Qed.

(** C6: compute units are exclusive, outside dataflow mode and for a host and compute units that
    keep their contract.  In every state that the steps of [sched_step] reach from power-on
    (slot steps and their single transitions, completions and fetches by the interrupt handler
    between transitions, any changes of registers; no ABORT of a slot out of use, interrupts only of
    busy compute units and for free slots), two
    different slots in state running never use the same compute unit, a running
    slot's compute unit is marked busy and recorded as used by that slot, and a
    busy compute unit belongs to a running slot. *)
Theorem cu_exclusive w s s' :
  boot (power_on w) = Ok tt s -> rtc sched_step s s' ->
  dataflow_enabled (cfg s') = false ->
  (forall i j sli slj, Z.of_nat i < num_slots (cfg s') -> Z.of_nat j < num_slots (cfg s') ->
     command_slots (tab s') !! i = Some sli -> command_slots (tab s') !! j = Some slj ->
     running sli -> running slj -> slot_cu_idx sli = slot_cu_idx slj -> i = j) /\
  (forall i sl, Z.of_nat i < num_slots (cfg s') -> command_slots (tab s') !! i = Some sl ->
     running sl -> exists cu, slot_cu_idx sl = Z.of_nat cu /\
       cu_status (tab s') !! cu = Some true /\ cu_slot_usage (tab s') !! cu = Some (Z.of_nat i)) /\
  (forall cu, cu_status (tab s') !! cu = Some true ->
     exists i sl, Z.of_nat i < num_slots (cfg s') /\ command_slots (tab s') !! i = Some sl /\
       running sl /\ slot_cu_idx sl = Z.of_nat cu).
Proof.
  intros Hb Hr Hdf. pose proof (wp_run _ _ _ _ _ _ (boot_spec w no_err) Hb) as HB.
  destruct (runs_Inv s s' (proj1 HB) Hr) as [_ Hex]. specialize (Hex Hdf). split_and!.
  - intros i j sli slj ? ? ? ? ? ? ?.
    by apply (exclusive_disjoint _ _ _ _ i j sli slj Hex).
  - exact (proj1 Hex).
  - intros cu Hcu. destruct (proj2 Hex cu Hcu) as (i & sl & ? & _ & ? & ? & ?). by exists i, sl.
Qed.
End runs.

(** * A memory-backed bus *)

(** Registers that keep what was written, and read as zero before. *)
Abbreviation ram := (gmap Z Z).

#[export] Instance ram_bus : Bus ram := {
  bus_read := fun a w => (default 0 (w !! a), w);
  bus_write := fun a v w => <[a := v]> w;
  microblaze_enable_interrupts := fun w => w;
  microblaze_disable_interrupts := fun w => w;
  reg_access_wait := fun w => w;
}.

Definition state_of_result {S E A} (r : result S E A) : S :=
  match r with Ok _ s => s | Err _ s => s end.

Definition default_target : target := Target BUILD_DEFAULT false 0.

Definition booted : fw ram := state_of_result (boot default_target (power_on ∅)).

(** A START_KERNEL packet for CU 2 in slot 0 with two arguments: header, CU
    index, and a register map of six words of which the first four are the
    control registers. *)
Definition start_packet : ram :=
  <[0x190000 := 0x30007001]> (<[0x190004 := 2]> (
  <[0x190018 := 0xA]> (<[0x19001C := 0xB]> ∅))).

Definition submitted : fw ram := set_world (start_packet ∪ world booted) booted.
Definition started : fw ram :=
  state_of_result (scheduler_slot default_target 0 0 submitted).

Lemma booted_ok : boot default_target (power_on ∅) = Ok tt booted.
Proof. vm_compute. reflexivity. Qed.

Lemma started_ok : scheduler_slot default_target 0 0 submitted = Ok tt started.
Proof. vm_compute. reflexivity. Qed.

(** The slot 0 of [started]. *)
Definition slot0 : slot_info := default default_slot (command_slots (tab started) !! 0%nat).

Lemma started_runs : rtc (sched_step default_target) booted started.
Proof.
  eapply rtc_l; [apply (step_world default_target (start_packet ∪ world booted))|].
  eapply rtc_l; [|apply rtc_refl].
  apply (step_slot default_target 0 0); [by vm_compute|apply started_ok|].
  intros (sl & Hsl & Ho & _). vm_compute in Hsl. injection Hsl as <-. done.
Qed.

Lemma cu_exclusive_witness :
  running slot0 /\ exists cu, slot_cu_idx slot0 = Z.of_nat cu /\
    cu_status (tab started) !! cu = Some true /\ cu_slot_usage (tab started) !! cu = Some 0.
Proof.
  split; [by vm_compute|].
  apply (proj1 (proj2 (cu_exclusive default_target ∅ booted started booted_ok started_runs
    ltac:(by vm_compute)))  0%nat slot0); by vm_compute.
Defined.

Section claims.
Context {W : Type} `{!Bus W} (tgt : target).
Implicit Types (s : fw W).

(** C29: a step of the scheduler on a slot in use, outside dataflow mode.  It returns
    with the invariant (CUs exclusive, counts within the arrays), unless the slot holds
    an ABORT of a slot that is not in use; and it stops only for an EXIT command or for a packet
    that breaks the contract with the host: a queued command with a CU index beyond 128 or with a
    register map smaller than its CU masks, a CONFIGURE packet for more than 128 CUs or 128 slots
    or with slot size zero, an ABORT of a slot that is not in use. *)
Theorem scheduler_slot_total fuel (i : nat) s :
  Inv s -> dataflow_enabled (cfg s) = false -> Z.of_nat i < num_slots (cfg s) ->
  match scheduler_slot tgt fuel (Z.of_nat i) s with
  | Ok _ s' => ~ stale_abort i s' -> Inv s'
  | Err e s' => stop_cause i e s'
  end.
Proof.
  intros HI Hdf Hi. pose proof (scheduler_slot_spec tgt fuel i s (conj HI Hi)) as H. unfold wp in H.
  destruct (scheduler_slot tgt fuel (Z.of_nat i) s) as [u s'|e s'].
  - intros Hns. by destruct H.
  - destruct H as [H|H]; [done|by rewrite Hdf in H].
Qed.

(** The firmware boots whatever the registers read: set-up returns with
    16 free slots, 3 CUs, all CUs idle, and the invariant established. *)
Theorem boot_establishes_invariant (w : W) :
  exists s, boot tgt (power_on w) = Ok tt s /\ Inv s /\
    num_slots (cfg s) = 16 /\ num_cus (cfg s) = 3 /\
    cu_status (tab s) = replicate 128 false /\
    forall j sl, Z.of_nat j < 16 -> command_slots (tab s) !! j = Some sl ->
      state_of (header_value sl) = st_free.
Proof.
  destruct (wp_Ok _ _ _ (boot_spec tgt w no_err)) as ([] & s & Hb & HI & Hn & Hc & _ & Hf & Hst).
  exists s. split_and!; try done. intros j sl Hj Hsl. by rewrite (Hf j sl Hj Hsl).
Qed.

(** A queued command starts exactly when its CU is idle.  If the CU is
    busy nothing changes and the command stays queued; if it is idle the slot
    becomes running, the CU busy, and the CU is recorded as used by the slot. *)
Theorem queued_starts_iff_idle (i cu : nat) sl busy s :
  Inv s -> dataflow_enabled (cfg s) = false -> Z.of_nat i < num_slots (cfg s) ->
  command_slots (tab s) !! i = Some sl -> state_of (header_value sl) = st_queued ->
  slot_cu_idx sl = Z.of_nat cu -> cu_status (tab s) !! cu = Some busy ->
  (slot_opcode sl = ERT_EXEC_WRITE -> slot_regmap_size sl <> 2 ^ 32 - 1) ->
  exists s', queued_to_running tgt (Z.of_nat i) s = Ok (negb busy) s' /\ Inv s' /\
    if busy then tab s' = tab s
    else (exists sl', command_slots (tab s') !! i = Some sl' /\ running sl' /\
           slot_cu_idx sl' = slot_cu_idx sl) /\
         cu_status (tab s') !! cu = Some true /\
         cu_slot_usage (tab s') !! cu = Some (Z.of_nat i).
Proof.
  intros HI Hdf Hi Hsl Hq Hcu Hb Hrs.
  destruct (wp_Ok _ _ _ (queued_to_running_spec tgt i sl cu busy s no_err HI Hdf Hi Hsl Hq Hcu
    Hb Hrs)) as (b & s' & Hrun & HI' & _ & H). exists s'. rewrite Hrun.
  destruct busy; [destruct H as [-> H]; done|]. destruct H as (-> & Hst & Hus & Hsl').
  split_and!; try done. eexists. split; [done|]. split; [by apply state_or_1|done].
Qed.

(** One word of the CU interrupt.  The loop over the status register ends
    after at most 32 steps, marks idle exactly the CUs that the register
    reports and whose interrupts are enabled, and keeps the invariant. *)
Theorem cu_interrupt_completes_reported (k : nat) a m w' s :
  (k < 4)%nat -> Inv s -> dataflow_enabled (cfg s) = false ->
  CU_STATUS_REGISTER_ADDR (reg s) !! k = Some a -> bus_read a (world s) = (m, w') ->
  (forall c, reported (u32 m) (32 * k) (cu_interrupt_mask (tab s)) c = true ->
             cu_status (tab s) !! c = Some true) ->
  exists s', cu_interrupt (Z.of_nat k) s = Ok tt s' /\ Inv s' /\
    forall c, cu_status (tab s') !! c =
      if reported (u32 m) (32 * k) (cu_interrupt_mask (tab s)) c then Some false
      else cu_status (tab s) !! c.
Proof.
  intros Hk HI Hdf Ha Hr Hb. pose proof (u32_range m) as Hm.
  unfold cu_interrupt, bind at 1, gets at 1, bind at 1, idx at 1.
  rewrite zlookup_nat, Ha. unfold ret at 1, bind at 1, read_reg at 1. rewrite Hr.
  replace (32 * Z.of_nat k) with (Z.of_nat (32 * k)) by lia.
  destruct (wp_Ok _ _ _ (cu_mask_loop_spec 32 (u32 m) (32 * k) (set_world w' s) no_err
    ltac:(done) ltac:(lia) HI Hdf Hb)) as ([] & s' & Hrun & HI' & _ & _ & H).
  by exists s'.
Qed.

(** A completed CU is handed back.  The interrupt service of a busy CU
    notifies the host of the slot the CU was executing, frees that slot and
    only that slot, and marks the CU idle. *)
Theorem complete_cu_frees_owner (cu : nat) s :
  Inv s -> dataflow_enabled (cfg s) = false -> cu_status (tab s) !! cu = Some true ->
  exists s' i sl, complete_cu (Z.of_nat cu) s = Ok tt s' /\ Inv s' /\
    command_slots (tab s) !! i = Some sl /\ running sl /\ slot_cu_idx sl = Z.of_nat cu /\
    cu_status (tab s') = <[cu := false]> (cu_status (tab s)) /\
    (exists sl', command_slots (tab s') !! i = Some sl' /\
       state_of (header_value sl') = st_free) /\
    (forall j, j <> i -> command_slots (tab s') !! j = command_slots (tab s) !! j).
Proof.
  intros HI Hdf Hst.
  destruct (wp_Ok _ _ _ (complete_cu_spec cu s no_err HI Hdf Hst))
    as ([] & s' & Hrun & HI' & _ & _ & Hst' & _ & i & sl & Hus & Hsl & Hr & Hs').
  pose proof HI as [Hwf Hex]. destruct (proj2 (Hex Hdf) cu Hst)
    as (i' & sl' & _ & Hus' & Hsl' & _ & Hcu').
  rewrite Hus in Hus'. injection Hus' as Hii. apply Nat2Z.inj in Hii as <-. simplify_eq.
  exists s', i, sl. split_and!; try done.
  - eexists. rewrite Hs', list_lookup_insert_eq by by eapply lookup_lt_Some.
    split; [done|]. by apply state_with_state.
  - intros j Hj. by rewrite Hs', list_lookup_insert_ne.
Qed.

(** The completion bit.  For a slot index below 128 the host is notified
    by exactly one register write, of bit [i mod 32] to the status register
    [i / 32]; nothing else of the firmware's state changes. *)
Theorem notify_host_bit i a s :
  0 <= i < 128 -> STATUS_REGISTER_ADDR (reg s) !! Z.to_nat (i / 32) = Some a ->
  notify_host i s = Ok tt (set_world (bus_write a (2 ^ (i mod 32)) (world s)) s).
Proof.
  intros Hi Ha. unfold notify_host, bind at 1, gets at 1, bind at 1, idx.
  rewrite Z.shiftr_div_pow2 by lia. change (2 ^ 5) with 32.
  pose proof (Z.div_pos i 32). unfold zlookup at 1.
  rewrite (proj2 (Z.ltb_ge _ _)) by lia. rewrite Ha.
  unfold ret, write_reg, modify, shl1. pose proof (Z.mod_pos_bound i 32).
  rewrite Z.shiftl_1_l, !u32_small; [done| |].
  all: try rewrite u32_small; split; try apply Z.pow_nonneg; try apply Z.pow_lt_mono_r; lia.
Qed.
End claims.

(** * The ABORT command *)

Section abort.
Context {W : Type} `{!Bus W} (tgt : target).
Implicit Types (s : fw W).

Lemma abort_mb_slot (i : nat) sl s :
  Inv s -> dataflow_enabled (cfg s) = false -> Z.of_nat i < num_slots (cfg s) ->
  command_slots (tab s) !! i = Some sl -> ~ running sl ->
  abort_target (header_value sl) < num_slots (cfg s) ->
  wp (abort_mb tgt (Z.of_nat i)) (fun b s' => command_slots (tab s') !! i = Some sl) no_err s.
Proof.
  intros [Hwf Hex] Hdf Hi Hsl Hn Hk. specialize (Hex Hdf). pose proof (wf_lens _ _ _ Hwf) as Hl.
  pose proof (wf_num_slots _ _ _ Hwf) as Hns.
  pose proof (abort_target_nonneg (header_value sl)) as Ht.
  unfold abort_mb. apply wp_guard. intros w. wps. apply wp_get_slot; [lens_solve|].
  cbn. rewrite Nat2Z.id. intros sl' Hsl'. simplify_eq. cbv zeta.
  fold (abort_target (header_value sl)). set (k := abort_target (header_value sl)) in *. wps.
  apply wp_get_slot; [lens_solve|]. cbn. intros st Hst. wps; [done|done|].
  assert (running st) as Hr by (apply Z.eqb_eq, negb_false_iff; assumption).
  destruct (proj1 Hex (Z.to_nat k) st ltac:(lia) Hst Hr) as (cu & Hcu & Hstat & _).
  pose proof (lookup_lt_Some _ _ _ Hstat) as Hlt. rewrite (len_cu_status _ _ Hl) in Hlt.
  rewrite <- (Z2Nat.id k) by lia.
  apply check_command_spec with (sl := st); [done|lia|done|]. intros w1. rewrite Hcu. wps.
  apply wp_put; [lens_solve|]. wps. apply wp_toggle with (b := true); [by rewrite zlookup_nat|].
  wps. apply quiet_notify_host; [lens_solve|lia|]. intros _ w2. apply wp_ret. intros w3. cbn.
  rewrite list_lookup_insert_ne; [done|]. intros Heq. rewrite Heq in Hst. by simplify_eq.
Qed.

(** An ABORT command is never retired.  When the slot of a new ABORT
    command is processed, the slot keeps its header, state new included:
    [abort_mb] frees the target and notifies the host for both slots, but does
    not free its own, so the same command is processed again on every round. *)
Theorem abort_slot_stays_new fuel (i : nat) sl s :
  Inv s -> dataflow_enabled (cfg s) = false -> Z.of_nat i < num_slots (cfg s) ->
  command_slots (tab s) !! i = Some sl -> state_of (header_value sl) = st_new ->
  cmd_type (header_value sl) <> ERT_CU -> opcode (header_value sl) = ERT_ABORT ->
  abort_target (header_value sl) < num_slots (cfg s) ->
  exists s' sl', new_to_queued tgt fuel (Z.of_nat i) s = Ok false s' /\
    command_slots (tab s') !! i = Some sl' /\ header_value sl' = header_value sl /\
    state_of (header_value sl') = st_new.
Proof.
  intros HI Hdf Hi Hsl Hst Hty Hop Hk. pose proof HI as [Hwf _].
  pose proof (wf_lens _ _ _ Hwf) as Hl. pose proof (wf_num_slots _ _ _ Hwf) as Hns.
  assert (~ running sl) as Hn by by apply (not_running_state _ _ sl eq_refl Hst).
  enough (wp (new_to_queued tgt fuel (Z.of_nat i)) (fun b s' => b = false /\
    command_slots (tab s') !! i = Some (set_opcode ERT_ABORT sl)) no_err s) as H.
  { apply wp_Ok in H as (b & s' & -> & -> & H). by exists s', (set_opcode ERT_ABORT sl). }
  unfold new_to_queued. wps. apply wp_get_slot; [lens_solve|]. rewrite Nat2Z.id.
  intros sl' Hsl'. simplify_eq. wps. apply wp_upd_slot; [lens_solve|]. rewrite Nat2Z.id.
  intros sl' Hsl'. simplify_eq. rewrite Hop, (proj2 (Z.eqb_neq _ _) Hty). cbn [negb]. wps.
  pose proof (Inv_idle i sl (set_opcode ERT_ABORT sl) s (world s) HI Hsl Hn Hn) as HI1.
  rewrite set_world_world in HI1. unfold process_special_command. cbn [Z.eqb ERT_ABORT].
  eapply wp_mono; [apply (abort_mb_slot i (set_opcode ERT_ABORT sl)); try done| |done].
  - cbn. by rewrite list_lookup_insert_eq by lens_solve.
  - intros b s' H. by apply wp_ret.
Qed.
End abort.

(** * Masks *)

(** A CU or slot index as a bit of a 32-bit mask word.  The word that holds
    the index gets exactly the bit [idx mod 32]; words below it get zero; words
    above it get the same bit as well, because only the upper end of the range
    is checked. *)
Theorem idx_to_mask_words i k :
  0 <= i < 128 -> 0 <= k < 4 ->
  idx_to_mask i k = if k <? i / 32 then 0 else 2 ^ (i mod 32).
Proof.
  intros Hi Hk. unfold idx_to_mask, idx_in_mask, shl1.
  rewrite (u32_small (k + 1)) by lia.
  rewrite (Z.shiftl_mul_pow2 k), (Z.shiftl_mul_pow2 (k + 1)) by lia.
  change (2 ^ 5) with 32. rewrite (u32_small (k * 32)), (u32_small ((k + 1) * 32)) by lia.
  pose proof (Z.div_mod i 32 ltac:(lia)) as Hd. pose proof (Z.mod_pos_bound i 32 ltac:(lia)).
  pose proof (Z.pow_lt_mono_r 2 (i mod 32) 32 ltac:(lia) ltac:(lia) ltac:(lia)).
  assert (u32 (i - k * 32) mod 32 = i mod 32) as ->.
  { unfold u32. change (2 ^ 32) with (32 * 2 ^ 27).
    rewrite (Z.rem_mul_r _ 32) by lia. rewrite (Z.mul_comm 32), Z_mod_plus_full, Z.mod_mod by lia.
    rewrite <- (Z_mod_plus_full i (- k) 32). f_equal. lia. }
  rewrite Z.shiftl_1_l, u32_small by lia.
  destruct (Z.ltb_spec k (i / 32)); destruct (Z.ltb_spec i ((k + 1) * 32)); lia || done.
Qed.

(** * Handing a register map to a compute unit *)

(** [n] words copied from [ra] on to [ca] on, word [lo] first. *)
Definition copied (w w' : ram) (ca ra lo n : Z) : Prop :=
  (forall i, lo <= i < lo + n -> w' !! (ca + 4 * i) = Some (u32 (default 0 (w !! (ra + 4 * i))))) /\
  (forall a, (forall i, lo <= i < lo + n -> a <> ca + 4 * i) -> w' !! a = w !! a).

Lemma configure_cu_loop ca ra n s R :
  0 <= ca -> 0 <= ra -> ca + 4 * (4 + Z.of_nat n) <= 2 ^ 32 -> ra + 4 * (4 + Z.of_nat n) <= 2 ^ 32 ->
  ra + 4 * (4 + Z.of_nat n) <= ca \/ ca + 4 * (4 + Z.of_nat n) <= ra ->
  wp (for_range n 4 (fun i =>
        v <- read_reg (u32 (ra + Z.shiftl i 2)) ;; write_reg (u32 (ca + Z.shiftl i 2)) v))
     (fun _ s' => copied (world s) (world s') ca ra 4 (Z.of_nat n) /\
                  exists w, s' = set_world w s) R s.
Proof.
  intros Hca Hra Hc Hr Hd. eapply wp_mono; [apply (wp_for_range (fun k s' =>
    copied (world s) (world s') ca ra 4 (k - 4) /\ exists w, s' = set_world w s))| |].
  - split; [split; [lia|done]|]. exists (world s). by rewrite set_world_world.
  - intros i s' Hi [[H1 H2] [w ->]]. cbn [world set_world] in H1, H2. unfold wp, bind, read_reg, write_reg, modify.
    cbn [world set_world bus_read bus_write ram_bus].
    rewrite Z.shiftl_mul_pow2 by lia. change (2 ^ 2) with 4.
    rewrite !(u32_small (_ + i * 4)), u32_idem by lia. split; [|eexists; done].
    replace (ca + i * 4) with (ca + 4 * i) by lia. replace (ra + i * 4) with (ra + 4 * i) by lia.
    rewrite H2 by (intros; lia). split.
    + intros j Hj. destruct (decide (j = i)) as [->|Hne].
      * by rewrite lookup_insert_eq.
      * rewrite lookup_insert_ne by lia. apply H1. lia.
    + intros a Ha. rewrite lookup_insert_ne; [apply H2; intros j Hj; apply Ha; lia|].
      intros <-. apply (Ha i); lia.
  - intros _ s' [H1 H2]. replace (4 + Z.of_nat n - 4) with (Z.of_nat n) in H1 by lia. done.
  - done.
Qed.

(** Starting a CU.  Over memory-like registers, [configure_cu] copies
    every word of the register map from word 4 on to the CU's registers, then
    writes AP_START to its control register, and touches nothing else. *)
Theorem configure_cu_copies_regmap ca ra n (s : fw ram) :
  0 <= ca -> 0 <= ra -> ca + 4 * (4 + Z.of_nat n) <= 2 ^ 32 -> ra + 4 * (4 + Z.of_nat n) <= 2 ^ 32 ->
  ra + 4 * (4 + Z.of_nat n) <= ca \/ ca + 4 * (4 + Z.of_nat n) <= ra ->
  exists w, configure_cu ca ra (4 + Z.of_nat n) s = Ok tt (set_world w s) /\
    w !! ca = Some AP_START /\
    (forall i, 4 <= i < 4 + Z.of_nat n ->
       w !! (ca + 4 * i) = Some (u32 (default 0 (world s !! (ra + 4 * i))))) /\
    (forall a, a <> ca -> (forall i, 4 <= i < 4 + Z.of_nat n -> a <> ca + 4 * i) ->
       w !! a = world s !! a).
Proof.
  intros Hca Hra Hc Hr Hd.
  destruct (wp_Ok _ _ _ (configure_cu_loop ca ra n s no_err Hca Hra Hc Hr Hd))
    as ([] & s' & Hrun & [H1 H2] & w & ->).
  unfold configure_cu. replace (Z.to_nat (4 + Z.of_nat n - 4)) with n by lia.
  unfold bind at 1. rewrite Hrun. unfold write_reg, modify. eexists. split; [done|].
  cbn [world set_world bus_write ram_bus] in *. split_and!.
  - by rewrite lookup_insert_eq.
  - intros i Hi. rewrite lookup_insert_ne by lia. auto.
  - intros a Ha Hi. rewrite lookup_insert_ne by done. apply H2. intros j Hj. apply Hi. lia.
Qed.

(** * Witnesses *)

(** A closed fact about a concrete state. *)
Ltac run := vm_compute; first [reflexivity | discriminate | done].

Definition host (p : ram) (s : fw ram) : fw ram := set_world (p ∪ world s) s.
Definition run_slot (i : Z) (s : fw ram) : fw ram :=
  state_of_result (scheduler_slot default_target 0 i s).

(** A CONFIGURE packet for three CUs with interrupts enabled. *)
Definition configure_packet : ram :=
  <[0x190000 := 0x11009001]> (<[0x190004 := 0x1000]> (<[0x190008 := 3]> (<[0x19000C := 16]> (
  <[0x190010 := 0]> (<[0x190014 := 0x8]> (<[0x190018 := 0x1800000]> (
  <[0x19001C := 0x1810000]> (<[0x190020 := 0x1820000]> ∅)))))))).

(** An ABORT packet in slot 1 for the command in slot 0. *)
Definition abort_packet : ram := <[0x191000 := 0x12000001]> ∅.

Definition configured : fw ram := run_slot 0 (host configure_packet booted).
Definition busy2 : fw ram := run_slot 0 (host start_packet configured).
Definition fetched : fw ram :=
  state_of_result (free_to_new 0 (host start_packet configured)).
Definition queued2 : fw ram := state_of_result (new_to_queued default_target 0 0 fetched).
Definition aborting : fw ram := state_of_result (free_to_new 1 (host abort_packet busy2)).
Definition slot_at (i : nat) (s : fw ram) : slot_info :=
  default default_slot (command_slots (tab s) !! i).

Lemma booted_Inv : Inv booted.
Proof.
  exact (proj1 (wp_run _ _ _ _ _ _ (boot_spec default_target ∅ no_err) booted_ok)).
Qed.

Lemma host_Inv p s : Inv s -> Inv (host p s).
Proof. done. Qed.

Definition is_ok {S E A} (r : result S E A) : bool :=
  match r with Ok _ _ => true | Err _ _ => false end.

Lemma run_slot_Inv (i : nat) k s :
  Inv s -> k = Z.of_nat i -> (k <? num_slots (cfg s)) = true ->
  is_ok (scheduler_slot default_target 0 k s) = true ->
  (slot_opcode (slot_at i (run_slot k s)) =? ERT_ABORT) = false -> Inv (run_slot k s).
Proof.
  intros HI -> Hi Hok Hop. apply Z.ltb_lt in Hi. apply Z.eqb_neq in Hop. unfold run_slot in *.
  destruct (scheduler_slot default_target 0 (Z.of_nat i) s) as [[] s'|e s'] eqn:E; [|done].
  eapply sched_step_Inv; [eapply step_slot; [exact Hi|exact E|]|done].
  intros (sl & Hsl & Ho & _). unfold slot_at in Hop. by rewrite Hsl in Hop.
Qed.

Lemma configured_Inv : Inv configured.
Proof. apply (run_slot_Inv 0); [apply host_Inv, booted_Inv|vm_compute; reflexivity..]. Qed.

Lemma busy2_Inv : Inv busy2.
Proof. apply (run_slot_Inv 0); [apply host_Inv, configured_Inv|vm_compute; reflexivity..]. Qed.

Lemma fetch_Inv (i : nat) k s :
  Inv s -> k = Z.of_nat i -> (i <? 128)%nat = true ->
  state_of (header_value (slot_at i s)) = st_free -> is_ok (free_to_new k s) = true ->
  Inv (state_of_result (free_to_new k s)).
Proof.
  intros HI -> Hi Hst Hok. apply Nat.ltb_lt in Hi.
  destruct (free_to_new (Z.of_nat i) s) as [b s'|e s'] eqn:E; [|done]. pose proof HI as [Hwf _]. pose proof (wf_lens _ _ _ Hwf) as Hl.
  destruct (lookup_lt_is_Some_2 (command_slots (tab s)) i) as [sl Hsl]; [lens_solve|].
  unfold slot_at in Hst. rewrite Hsl in Hst.
  eapply (sched_step_Inv default_target); [|exact HI]. by eapply step_fetch.
Qed.

Lemma fetched_Inv : Inv fetched.
Proof. apply (fetch_Inv 0); [apply host_Inv, configured_Inv|vm_compute; reflexivity..]. Qed.

Lemma aborting_Inv : Inv aborting.
Proof. apply (fetch_Inv 1); [apply host_Inv, busy2_Inv|vm_compute; reflexivity..]. Qed.

Lemma queued2_Inv : Inv queued2.
Proof.
  pose proof (new_to_queued_spec default_target 0 0 (slot_at 0 fetched) fetched fetched_Inv
    ltac:(run) ltac:(run) ltac:(run)) as H.
  assert (new_to_queued default_target 0 (Z.of_nat 0) fetched = Ok true queued2) as E
    by run. exact (proj1 (wp_run _ _ _ _ _ _ H E)).
Qed.

(** ABORT of a slot that is out of use: the command in slot 5 runs on CU 2, a CONFIGURE
    command leaves two slots, slot 0 runs on CU 2, and the ABORT in slot 1 names slot 5. *)
Definition start_packet5 : ram :=
  <[0x195000 := 0x30007001]> (<[0x195004 := 2]> (
  <[0x195018 := 0xA]> (<[0x19501C := 0xB]> ∅))).
Definition two_slots_packet : ram := <[0x190000 := 0x11009001]> (<[0x190004 := 0x8000]> configure_packet).
Definition abort5_packet : ram := <[0x198000 := 0x12028001]> ∅.
Definition running5 : fw ram := run_slot 5 (host start_packet5 configured).
Definition two_slots : fw ram := run_slot 0 (host two_slots_packet running5).
Definition aborted5 : fw ram := run_slot 1 (host abort5_packet (run_slot 0 (host start_packet two_slots))).

Example stale_abort_releases_busy_cu :
  num_slots (cfg aborted5) = 2 /\ running (slot_at 0 aborted5) /\ slot_cu_idx (slot_at 0 aborted5) = 2 /\
  cu_status (tab aborted5) !! 2%nat = Some false.
Proof. by vm_compute. Qed.

Lemma scheduler_slot_total_witness :
  Inv (host start_packet configured) /\ Inv busy2.
Proof.
  split; [apply host_Inv, configured_Inv|].
  pose proof (scheduler_slot_total default_target 0 0 (host start_packet configured)
    (host_Inv _ _ configured_Inv) ltac:(run) ltac:(run)) as H.
  assert (scheduler_slot default_target 0 (Z.of_nat 0) (host start_packet configured) = Ok tt busy2)
    as E by run. rewrite E in H. apply H.
  intros (sl & Hsl & Ho & _). vm_compute in Hsl. injection Hsl as <-. done.
Defined.

Lemma queued_starts_iff_idle_witness :
  exists s', queued_to_running default_target 0 queued2 = Ok true s' /\
    cu_status (tab s') !! 2%nat = Some true.
Proof.
  destruct (queued_starts_iff_idle default_target 0 2 (slot_at 0 queued2) false queued2 queued2_Inv)
    as (s' & Hrun & _ & _ & Hst & _); [run..|].
  exists s'. exact (conj Hrun Hst).
Defined.

(** CU 2 has raised its interrupt. *)
Definition raised : fw ram := host (<[0x180044 := 4]> ∅) busy2.

Lemma cu_interrupt_completes_reported_witness :
  cu_status (tab raised) !! 2%nat = Some true /\
  exists s', cu_interrupt 0 raised = Ok tt s' /\ cu_status (tab s') !! 2%nat = Some false.
Proof.
  split; [run|].
  destruct (cu_interrupt_completes_reported 0 0x180044 4 (world raised) raised ltac:(lia)
    (host_Inv _ _ busy2_Inv))
    as (s' & Hrun & _ & Hst); [run..| |].
  - intros c Hc. destruct (decide (c = 2%nat)) as [->|Hne]; [run|].
    unfold reported, bit_at in Hc. apply andb_true_iff in Hc as [Hc _].
    apply andb_true_iff in Hc as [_ Hc]. change (u32 4) with (2 ^ 2) in Hc.
    rewrite Z.pow2_bits_false in Hc by lia. done.
  - exists s'. split; [exact Hrun|]. rewrite Hst. run.
Defined.

Lemma complete_cu_frees_owner_witness :
  exists s' i sl, complete_cu 2 busy2 = Ok tt s' /\ running sl /\
    command_slots (tab busy2) !! i = Some sl.
Proof.
  destruct (complete_cu_frees_owner 2 busy2 busy2_Inv) as (s' & i & sl & Hrun & _ & Hsl & Hr & _);
    [run..|].
  exists s', i, sl. exact (conj Hrun (conj Hr Hsl)).
Defined.

Lemma notify_host_bit_witness :
  notify_host 5 configured = Ok tt (set_world (bus_write 0x180000 32 (world configured)) configured).
Proof. apply (notify_host_bit 5 0x180000); [lia|run]. Defined.

Lemma abort_slot_stays_new_witness :
  exists s' sl', new_to_queued default_target 0 1 aborting = Ok false s' /\
    command_slots (tab s') !! 1%nat = Some sl' /\ state_of (header_value sl') = st_new.
Proof.
  destruct (abort_slot_stays_new default_target 0 1 (slot_at 1 aborting) aborting aborting_Inv)
    as (s' & sl' & Hrun & Hsl & _ & Hst); [run..|].
  exists s', sl'. exact (conj Hrun (conj Hsl Hst)).
Defined.

Lemma idx_to_mask_words_witness : idx_to_mask 37 1 = 32 /\ idx_to_mask 37 2 = 32.
Proof. split; [apply (idx_to_mask_words 37 1)|apply (idx_to_mask_words 37 2)]; lia. Defined.

Lemma configure_cu_copies_regmap_witness :
  exists w, configure_cu 0x1820000 0x190008 6 (host start_packet configured) =
      Ok tt (set_world w (host start_packet configured)) /\
    w !! 0x1820000 = Some 1 /\ w !! 0x1820010 = Some 0xA.
Proof.
  destruct (configure_cu_copies_regmap 0x1820000 0x190008 2 (host start_packet configured))
    as (w & Hrun & H1 & H2 & _); [lia..|]. exists w.
  split; [exact Hrun|]. split; [exact H1|].
  change (w !! (0x1820000 + 4 * 4) = Some 0xA). rewrite (H2 4) by lia. run.
Defined.
