(* ===== verification/ElfPatcher.v ===== *)
(** Patching of control code, [src/runtime_src/core/common/api/elf_patcher.cpp]
    and [elf_patcher.h]: the addresses of buffers are written into bit fields of
    buffer descriptors (BDs) inside an instruction buffer.

    The instruction buffer is a list of bytes; a [uint32_t*] into it is a byte
    offset and an access outside the buffer stops the model with [UB].  Words are
    little-endian.  [state] holds what a [symbol_patcher] and its buffer object
    keep: the BD cache per patch location, the bytes, and the log of device
    synchronisations. *)

From Stdlib Require Import Ascii.
From S2P Require Import Prelude Bytes.

(** * Data *)

Inductive buf_type :=
| ctrltext | ctrldata | preempt_save | preempt_restore | pdi | ctrlpkt_pm | pad | dump | ctrlpkt.

#[export] Instance buf_type_eq_dec : EqDecision buf_type.
Proof. solve_decision. Defined.

Definition buf_type_index (t : buf_type) : nat :=
  match t with
  | ctrltext => 0 | ctrldata => 1 | preempt_save => 2 | preempt_restore => 3 | pdi => 4
  | ctrlpkt_pm => 5 | pad => 6 | dump => 7 | ctrlpkt => 8
  end.

Definition section_names : list string :=
  [".ctrltext"; ".ctrldata"; ".preempt_save"; ".preempt_restore"; ".pdi"; ".ctrlpkt.pm";
   ".pad"; ".dump"; ".ctrlpkt"]%string.

Definition get_section_name (t : buf_type) : string :=
  default ""%string (section_names !! buf_type_index t).

Inductive symbol_type :=
| uc_dma_remote_ptr_symbol_kind | shim_dma_base_addr_symbol_kind | scalar_32bit_kind
| control_packet_48 | shim_dma_48 | shim_dma_aie4_base_addr_symbol_kind | control_packet_57
| address_64 | control_packet_57_aie4 | unknown_symbol_kind | pl_ddr_64.

#[export] Instance symbol_type_eq_dec : EqDecision symbol_type.
Proof. solve_decision. Defined.

Record patch_config := PatchConfig {
  offset_to_patch_buffer : Z;
  offset_to_base_bo_addr : Z;
  config_mask : Z;
}.

Record patcher_config := PatcherConfig {
  m_symbol_type : symbol_type;
  m_buf_type : buf_type;
  m_patch_configs : list patch_config;
}.

Definition add_patch (pc : patch_config) (c : patcher_config) : patcher_config :=
  PatcherConfig (m_symbol_type c) (m_buf_type c) (m_patch_configs c ++ [pc]).

Record patch_state := PatchState { dirty : bool; bd_data_ptrs : list Z }.

Inductive perr :=
| ConfigNotSet            (** "symbol_patcher: config not set" *)
| UnsupportedType         (** an unsupported symbol type *)
| OffsetExceedsBuffer     (** -EINVAL, "ELF patch offset exceeds instruction buffer" *)
| CacheSizeMismatch       (** -EINVAL, "BD cache size mismatch" *)
| NotAligned              (** "address is not 4 byte aligned for patch32" *)
| UB.                     (** an access outside the buffer *)

Record state := State {
  m_states : list patch_state;
  buf : list Z;
  syncs : list (Z * Z);     (** size and offset of every sync to the device *)
}.

Definition set_buf (b : list Z) (s : state) : state := State (m_states s) b (syncs s).
Definition set_states (l : list patch_state) (s : state) : state := State l (buf s) (syncs s).
Definition add_sync (e : Z * Z) (s : state) : state := State (m_states s) (buf s) (syncs s ++ [e]).

Definition patcher : Type -> Type := M state perr.

(** * Names *)

(** [std::to_string] of a one-digit number. *)
Definition digit (n : nat) : ascii := ascii_of_nat (48 + n).

Definition generate_key_string (argument_name : string) (t : buf_type) : string :=
  (argument_name +:+ String (digit (buf_type_index t)) EmptyString)%string.

(** [section_name.rfind('.')]. *)
Fixpoint rfind_dot (s : list ascii) : option nat :=
  match s with
  | [] => None
  | c :: s' => match rfind_dot s' with
               | Some n => Some (S n)
               | None => if decide (c = "."%char) then Some 0%nat else None
               end
  end.

Definition get_symbol_name_from_section_name (section_name : list ascii) : list ascii :=
  match rfind_dot section_name with
  | Some (S n) => take (S n) section_name
  | _ => section_name
  end.

(** * Words in memory *)

(** [bd_data_ptr[i]] as a value and as a target. *)
Definition ld (p i : nat) : patcher Z :=
  m <- gets buf ;;
  if (p + 4 * i + 4 <=? length m)%nat then ret (word_at m (p + 4 * i)) else raise UB.
Definition st (p i : nat) (w : Z) : patcher unit :=
  m <- gets buf ;;
  if (p + 4 * i + 4 <=? length m)%nat then modify (set_buf (set_word (p + 4 * i) (u32 w) m))
  else raise UB.

Definition required_patch_bytes (t : symbol_type) : option Z :=
  match t with
  | address_64 => Some (2 * 4)
  | scalar_32bit_kind => Some (1 * 4)
  | shim_dma_base_addr_symbol_kind => Some (9 * 4)
  | shim_dma_aie4_base_addr_symbol_kind => Some (2 * 4)
  | control_packet_57 | control_packet_48 => Some (4 * 4)
  | shim_dma_48 => Some (3 * 4)
  | control_packet_57_aie4 => Some (3 * 4)
  | pl_ddr_64 => Some (10 * 4)
  | _ => None
  end.

(** The words a patch covers. *)
Definition patch_words (t : symbol_type) : nat :=
  match required_patch_bytes t with Some b => Z.to_nat (b / 4) | None => 0 end.

Section patching.
(** The environment variable XCL_EMULATION_DEVICE_TARGET and the address the
    buffer is mapped at. *)
Context (xemtarget : option string) (map_addr : Z).

Definition get_ddr_aie_addr_offset : Z :=
  if decide (xemtarget = Some "npu3_snl"%string) then 0 else 0x80000000.

(** * Patching one location *)

Definition patch64 (p : nat) (addr : Z) : patcher unit :=
  st p 0 (Z.land addr 0xffffffff) ;;;
  st p 1 (Z.land (Z.shiftr addr 32) 0xffffffff).

Definition patch32 (p : nat) (register_value mask : Z) : patcher unit :=
  if negb (Z.land (map_addr + Z.of_nat p) 0x3 =? 0) then raise NotAligned else
  new_value <- ld p 0 ;;
  st p 0 (Z.lor (Z.land new_value (2 ^ 32 - 1 - mask)) (Z.land register_value mask)).

Definition patch57 (p : nat) (patch : Z) : patcher unit :=
  w8 <- ld p 8 ;; w2 <- ld p 2 ;; w1 <- ld p 1 ;;
  let base_address := Z.lor (Z.lor (Z.shiftl (Z.land w8 0x1FF) 48)
                                   (Z.shiftl (Z.land w2 0xFFFF) 32)) w1 in
  let base_address := u64 (base_address + patch) in
  st p 1 (Z.land base_address 0xFFFFFFFF) ;;;
  w2 <- ld p 2 ;;
  st p 2 (Z.lor (Z.land w2 0xFFFF0000) (Z.land (Z.shiftr base_address 32) 0xFFFF)) ;;;
  w8 <- ld p 8 ;;
  st p 8 (Z.lor (Z.land w8 0xFFFFFE00) (Z.land (Z.shiftr base_address 48) 0x1FF)).

Definition patch57_aie4 (p : nat) (patch : Z) : patcher unit :=
  w0 <- ld p 0 ;; w1 <- ld p 1 ;;
  let base_address := Z.lor (Z.shiftl (Z.land w0 0x1FFFFFF) 32) w1 in
  let base_address := u64 (base_address + u64 (patch + get_ddr_aie_addr_offset)) in
  st p 1 (Z.land base_address 0xFFFFFFFF) ;;;
  w0 <- ld p 0 ;;
  st p 0 (Z.lor (Z.land w0 0xFE000000) (Z.land (Z.shiftr base_address 32) 0x1FFFFFF)).

(** The low-12-bit scheme of control packets, shared by [patch_ctrl57] and
    [patch_ctrl48], which differ in the DDR offset. *)
Definition patch_ctrl (p : nat) (delta : Z) : patcher unit :=
  w3 <- ld p 3 ;; w2 <- ld p 2 ;;
  let base_address := Z.lor (Z.shiftl (Z.land w3 0xFFF) 32) w2 in
  let base_address := u64 (base_address + delta) in
  st p 2 (Z.land base_address 0xFFFFFFFC) ;;;
  w3 <- ld p 3 ;;
  st p 3 (Z.lor (Z.land w3 0xFFFF0000) (Z.shiftr base_address 32)).

Definition patch_ctrl57 (p : nat) (patch : Z) : patcher unit := patch_ctrl p patch.
Definition patch_ctrl48 (p : nat) (patch : Z) : patcher unit :=
  patch_ctrl p (patch + get_ddr_aie_addr_offset).

Definition patch_shim48 (p : nat) (patch : Z) : patcher unit :=
  w2 <- ld p 2 ;; w1 <- ld p 1 ;;
  let base_address := Z.lor (Z.shiftl (Z.land w2 0xFFFF) 32) w1 in
  let base_address := u64 (base_address + patch + get_ddr_aie_addr_offset) in
  st p 1 (Z.land base_address 0xFFFFFFFC) ;;;
  w2 <- ld p 2 ;;
  st p 2 (Z.lor (Z.land w2 0xFFFF0000) (Z.shiftr base_address 32)).

Definition patch_ctrl57_aie4 (p : nat) (patch : Z) : patcher unit :=
  w1 <- ld p 1 ;; w2 <- ld p 2 ;;
  let base_address := Z.lor (Z.shiftl (Z.land w1 0x1FFFFFF) 32) w2 in
  let base_address := u64 (base_address + u64 (patch + get_ddr_aie_addr_offset)) in
  st p 2 (Z.land base_address 0xFFFFFFFF) ;;;
  w1 <- ld p 1 ;;
  st p 1 (Z.lor (Z.land w1 0xFE000000) (Z.land (Z.shiftr base_address 32) 0x1FFFFFF)).

Definition patch_pl_ddr64 (p : nat) (patch : Z) : patcher unit :=
  w9 <- ld p 9 ;; w8 <- ld p 8 ;;
  let base_address := Z.lor (Z.shiftl w9 32) w8 in
  let base_address := u64 (base_address + patch) in
  st p 8 (Z.land base_address 0xFFFFFFFF) ;;;
  st p 9 (Z.land (Z.shiftr base_address 32) 0xFFFFFFFF).

(** The [switch] over the symbol type; the result tells whether anything was
    patched (a scalar with an empty mask is skipped). *)
Definition patch_one (t : symbol_type) (c : patch_config) (p : nat) (value : Z) : patcher bool :=
  let sum := u64 (value + offset_to_base_bo_addr c) in
  match t with
  | address_64 => patch64 p value ;;; ret true
  | scalar_32bit_kind =>
      if config_mask c =? 0 then ret false else patch32 p value (config_mask c) ;;; ret true
  | shim_dma_base_addr_symbol_kind => patch57 p sum ;;; ret true
  | shim_dma_aie4_base_addr_symbol_kind => patch57_aie4 p sum ;;; ret true
  | control_packet_57 => patch_ctrl57 p sum ;;; ret true
  | control_packet_48 => patch_ctrl48 p sum ;;; ret true
  | shim_dma_48 => patch_shim48 p sum ;;; ret true
  | control_packet_57_aie4 => patch_ctrl57_aie4 p sum ;;; ret true
  | pl_ddr_64 => patch_pl_ddr64 p sum ;;; ret true
  | _ => raise UnsupportedType
  end.

(** * The symbol patcher *)

(** The constructor: clean states with a cache of the right size. *)
Definition fresh_state (n : nat) : patch_state := PatchState false (replicate n 0).
Definition new_symbol_patcher (c : patcher_config) : list patch_state :=
  replicate (length (m_patch_configs c)) (fresh_state (patch_words (m_symbol_type c))).

(** [m_states.resize(n)], then caches for the new entries. *)
Definition resize_states (n words : nat) (l : list patch_state) : list patch_state :=
  take n l ++ replicate (n - length l) (fresh_state words).

(** [std::copy] between the buffer and a cache. *)
Fixpoint ld_words (p i n : nat) : patcher (list Z) :=
  match n with
  | O => ret []
  | S n' => w <- ld p i ;; ws <- ld_words p (S i) n' ;; ret (w :: ws)
  end.
Fixpoint st_words (p i : nat) (ws : list Z) : patcher unit :=
  match ws with
  | [] => ret tt
  | w :: ws' => st p i w ;;; st_words p (S i) ws'
  end.

(** Cache the BD words the first time, restore them afterwards. *)
Definition cache_bd (i p words : nat) : patcher unit :=
  l <- gets m_states ;;
  match l !! i with
  | None => raise UB
  | Some ps =>
      if negb (length (bd_data_ptrs ps) =? words)%nat then raise CacheSizeMismatch
      else if dirty ps then st_words p 0 (bd_data_ptrs ps)
      else ws <- ld_words p 0 words ;;
           modify (set_states (<[i := PatchState true ws]> l))
  end.

Definition sync_range (t : symbol_type) (patch_bytes offset : Z) : Z * Z :=
  match t with
  | pl_ddr_64 => (2 * 4, offset + 8 * 4)
  | _ => (patch_bytes, offset)
  end.

(** One patch location: bounds check, cache, patch, sync. *)
Definition patch_location (t : symbol_type) (patch_bytes value : Z) (first is_arg : bool)
    (i : nat) (c : patch_config) : patcher unit :=
  m <- gets buf ;;
  let bo_size := Z.of_nat (length m) in
  let offset := offset_to_patch_buffer c in
  if (bo_size <? offset) || (bo_size - offset <? patch_bytes) then raise OffsetExceedsBuffer else
  let p := Z.to_nat offset in
  when is_arg (cache_bd i p (Z.to_nat (patch_bytes / 4))) ;;;
  patched <- patch_one t c p value ;;
  when (patched && negb first) (modify (add_sync (sync_range t patch_bytes offset))).

Fixpoint patch_locations (t : symbol_type) (patch_bytes value : Z) (first is_arg : bool)
    (i : nat) (l : list patch_config) : patcher unit :=
  match l with
  | [] => ret tt
  | c :: l' => patch_location t patch_bytes value first is_arg i c ;;;
               patch_locations t patch_bytes value first is_arg (S i) l'
  end.

Definition patch_symbol (config : option patcher_config) (value : Z) (first is_arg : bool)
    : patcher unit :=
  match config with
  | None => raise ConfigNotSet
  | Some c =>
      match required_patch_bytes (m_symbol_type c) with
      | None => raise UnsupportedType
      | Some patch_bytes =>
          let n := length (m_patch_configs c) in
          modify (fun s => if (length (m_states s) =? n)%nat then s else
            set_states (resize_states n (Z.to_nat (patch_bytes / 4)) (m_states s)) s) ;;;
          patch_locations (m_symbol_type c) patch_bytes value first is_arg 0 (m_patch_configs c)
      end
  end.

Definition patch_symbol_raw (value : Z) (c : patcher_config) : patcher unit :=
  for_each (m_patch_configs c) (fun cfg =>
    match required_patch_bytes (m_symbol_type c) with
    | None => raise UnsupportedType
    | Some patch_bytes =>
        m <- gets buf ;;
        let buf_size := Z.of_nat (length m) in
        let offset := offset_to_patch_buffer cfg in
        if (buf_size <? offset) || (buf_size - offset <? patch_bytes) then raise OffsetExceedsBuffer
        else _ <- patch_one (m_symbol_type c) cfg (Z.to_nat offset) value ;; ret tt
    end).

End patching.
