(* ===== verification/ElfTheorems.v ===== *)
(** Properties of the control-code patcher: every scheme adds the buffer address
    to its address field and keeps the other bits, accesses stay inside the
    buffer, and patching an argument again is the same as patching it once. *)

From Stdlib Require Import Ascii.
From S2P Require Import Prelude Bytes ElfPatcher.

(** * Word-level reference *)

(** The address field of a symbol type, over the words of its window. *)
Definition addr_field (t : symbol_type) (ws : list Z) : Z :=
  match t with
  | shim_dma_base_addr_symbol_kind =>
      Z.lor (Z.lor (Z.shiftl (Z.land (ws !!! 8%nat) 0x1FF) 48)
                   (Z.shiftl (Z.land (ws !!! 2%nat) 0xFFFF) 32)) (ws !!! 1%nat)
  | shim_dma_aie4_base_addr_symbol_kind =>
      Z.lor (Z.shiftl (Z.land (ws !!! 0%nat) 0x1FFFFFF) 32) (ws !!! 1%nat)
  | control_packet_57 | control_packet_48 =>
      Z.lor (Z.shiftl (Z.land (ws !!! 3%nat) 0xFFF) 32) (ws !!! 2%nat)
  | shim_dma_48 => Z.lor (Z.shiftl (Z.land (ws !!! 2%nat) 0xFFFF) 32) (ws !!! 1%nat)
  | control_packet_57_aie4 =>
      Z.lor (Z.shiftl (Z.land (ws !!! 1%nat) 0x1FFFFFF) 32) (ws !!! 2%nat)
  | pl_ddr_64 => Z.lor (Z.shiftl (ws !!! 9%nat) 32) (ws !!! 8%nat)
  | address_64 => Z.lor (Z.shiftl (ws !!! 1%nat) 32) (ws !!! 0%nat)
  | _ => 0
  end.

(** Store an address in the field, the way each scheme does. *)
Definition put_addr (t : symbol_type) (b : Z) (ws : list Z) : list Z :=
  match t with
  | shim_dma_base_addr_symbol_kind =>
      <[8%nat := u32 (Z.lor (Z.land (ws !!! 8%nat) 0xFFFFFE00) (Z.land (Z.shiftr b 48) 0x1FF))]>
      (<[2%nat := u32 (Z.lor (Z.land (ws !!! 2%nat) 0xFFFF0000) (Z.land (Z.shiftr b 32) 0xFFFF))]>
      (<[1%nat := u32 (Z.land b 0xFFFFFFFF)]> ws))
  | shim_dma_aie4_base_addr_symbol_kind =>
      <[0%nat := u32 (Z.lor (Z.land (ws !!! 0%nat) 0xFE000000) (Z.land (Z.shiftr b 32) 0x1FFFFFF))]>
      (<[1%nat := u32 (Z.land b 0xFFFFFFFF)]> ws)
  | control_packet_57 | control_packet_48 =>
      <[3%nat := u32 (Z.lor (Z.land (ws !!! 3%nat) 0xFFFF0000) (Z.shiftr b 32))]>
      (<[2%nat := u32 (Z.land b 0xFFFFFFFC)]> ws)
  | shim_dma_48 =>
      <[2%nat := u32 (Z.lor (Z.land (ws !!! 2%nat) 0xFFFF0000) (Z.shiftr b 32))]>
      (<[1%nat := u32 (Z.land b 0xFFFFFFFC)]> ws)
  | control_packet_57_aie4 =>
      <[1%nat := u32 (Z.lor (Z.land (ws !!! 1%nat) 0xFE000000) (Z.land (Z.shiftr b 32) 0x1FFFFFF))]>
      (<[2%nat := u32 (Z.land b 0xFFFFFFFF)]> ws)
  | pl_ddr_64 =>
      <[9%nat := u32 (Z.land (Z.shiftr b 32) 0xFFFFFFFF)]>
      (<[8%nat := u32 (Z.land b 0xFFFFFFFF)]> ws)
  | address_64 =>
      <[1%nat := u32 (Z.land (Z.shiftr b 32) 0xffffffff)]>
      (<[0%nat := u32 (Z.land b 0xffffffff)]> ws)
  | _ => ws
  end.

(** The schemes for memory behind the AIE see DDR at an offset. *)
Definition ddr_offset (xemtarget : option string) (t : symbol_type) : Z :=
  match t with
  | shim_dma_aie4_base_addr_symbol_kind | control_packet_48 | shim_dma_48
  | control_packet_57_aie4 => get_ddr_aie_addr_offset xemtarget
  | _ => 0
  end.

(** The address that a patch of [value] stores. *)
Definition new_addr (xemtarget : option string) (t : symbol_type) (c : patch_config)
    (value : Z) (ws : list Z) : Z :=
  match t with
  | address_64 => value
  | _ => u64 (addr_field t ws + (value + offset_to_base_bo_addr c) + ddr_offset xemtarget t)
  end.

(** The words after a patch. *)
Definition new_words (xemtarget : option string) (t : symbol_type) (c : patch_config)
    (value : Z) (ws : list Z) : list Z :=
  match t with
  | scalar_32bit_kind =>
      if config_mask c =? 0 then ws else
      <[0%nat := u32 (Z.lor (Z.land (ws !!! 0%nat) (2 ^ 32 - 1 - config_mask c))
                            (Z.land value (config_mask c)))]> ws
  | _ => put_addr t (new_addr xemtarget t c value ws) ws
  end.

Definition supported (t : symbol_type) : Prop := required_patch_bytes t <> None.

(** Only a scalar with a mask is checked for alignment. *)
Definition aligned (map_addr : Z) (t : symbol_type) (c : patch_config) (p : nat) : Prop :=
  t = scalar_32bit_kind -> config_mask c <> 0 -> Z.land (map_addr + Z.of_nat p) 0x3 = 0.

(** * Loads and stores on a window *)

(** The state in which the window at [p] of the buffer [m] holds [ws]. *)
Definition win (s : state) (p : nat) (m ws : list Z) : state := set_buf (set_words p ws m) s.

Lemma bind_ld {A} p i w ws m s (k : Z -> patcher A) :
  (p + 4 * length ws <= length m)%nat -> words ws -> ws !! i = Some w ->
  bind (ld p i) k (win s p m ws) = k w (win s p m ws).
Proof.
  intros Hp Hw Hi. pose proof (lookup_lt_Some _ _ _ Hi). unfold ld, bind, gets, win. cbn [buf set_buf].
  rewrite length_set_words, (proj2 (Nat.leb_le _ _)) by lia. unfold ret.
  by rewrite (word_at_set_words p ws m i w).
Qed.

Lemma st_win p i v ws m s :
  (p + 4 * length ws <= length m)%nat -> (i < length ws)%nat ->
  st p i v (win s p m ws) = Ok tt (win s p m (<[i := u32 v]> ws)).
Proof.
  intros Hp Hi. unfold st, bind, gets, win. cbn [buf set_buf].
  rewrite length_set_words, (proj2 (Nat.leb_le _ _)) by lia. unfold modify.
  by rewrite set_word_set_words.
Qed.

Lemma bind_st {A} p i v ws m s (k : unit -> patcher A) :
  (p + 4 * length ws <= length m)%nat -> (i < length ws)%nat ->
  bind (st p i v) k (win s p m ws) = k tt (win s p m (<[i := u32 v]> ws)).
Proof. intros Hp Hi. unfold bind. by rewrite st_win. Qed.

Lemma words_insert i v ws : words ws -> words (<[i := u32 v]> ws).
Proof. intros Hw. apply Forall_insert; [done|]. apply u32_range. Qed.
#[export] Hint Resolve words_insert : word.

Ltac win_step :=
  first
    [ erewrite bind_ld by (first [done | eauto with word | cbn; lia | reflexivity])
    | rewrite bind_st by (rewrite ?length_insert; cbn; lia)
    | rewrite st_win by (rewrite ?length_insert; cbn; lia) ].

(** * Each scheme computes its reference *)

(** Split a list of known length into its words. *)
Ltac split_words ws H :=
  repeat (destruct ws as [|? ws]; [discriminate H|]); destruct ws; [|discriminate H]; clear H.

Lemma u64_add_l a b c : u64 (a + u64 (b + c)) = u64 (a + (b + c)).
Proof. unfold u64. by rewrite Zplus_mod_idemp_r. Qed.

Lemma u64_add_u64 a b c : u64 (a + (u64 b + c)) = u64 (a + (b + c)).
Proof.
  unfold u64. replace (a + (b mod 2 ^ 64 + c)) with (a + c + b mod 2 ^ 64) by lia.
  rewrite Zplus_mod_idemp_r. f_equal. lia.
Qed.

Section schemes.
Context (xemtarget : option string) (map_addr : Z).

Lemma patch64_win p v s m ws :
  length ws = 2%nat -> (p + 4 * 2 <= length m)%nat -> words ws ->
  patch64 p v (win s p m ws) = Ok tt (win s p m
    (put_addr address_64 v ws)).
Proof. intros Hl Hp Hw. split_words ws Hl. unfold patch64. repeat win_step. done. Qed.

Lemma patch57_win p v s m ws :
  length ws = 9%nat -> (p + 4 * 9 <= length m)%nat -> words ws ->
  patch57 p v (win s p m ws) = Ok tt (win s p m
    (put_addr shim_dma_base_addr_symbol_kind (u64 (addr_field shim_dma_base_addr_symbol_kind ws + v)) ws)).
Proof. intros Hl Hp Hw. split_words ws Hl. unfold patch57. repeat win_step. done. Qed.

Lemma patch57_aie4_win p v s m ws :
  length ws = 2%nat -> (p + 4 * 2 <= length m)%nat -> words ws ->
  patch57_aie4 xemtarget p v (win s p m ws) = Ok tt (win s p m
    (put_addr shim_dma_aie4_base_addr_symbol_kind (u64 (addr_field shim_dma_aie4_base_addr_symbol_kind ws + (v + get_ddr_aie_addr_offset xemtarget))) ws)).
Proof. intros Hl Hp Hw. split_words ws Hl. unfold patch57_aie4. repeat win_step. by rewrite u64_add_l. Qed.

Lemma patch_ctrl_win p v s m ws :
  length ws = 4%nat -> (p + 4 * 4 <= length m)%nat -> words ws ->
  patch_ctrl p v (win s p m ws) = Ok tt (win s p m
    (put_addr control_packet_57 (u64 (addr_field control_packet_57 ws + v)) ws)).
Proof. intros Hl Hp Hw. split_words ws Hl. unfold patch_ctrl. repeat win_step. done. Qed.

Lemma patch_shim48_win p v s m ws :
  length ws = 3%nat -> (p + 4 * 3 <= length m)%nat -> words ws ->
  patch_shim48 xemtarget p v (win s p m ws) = Ok tt (win s p m
    (put_addr shim_dma_48 (u64 (addr_field shim_dma_48 ws + v + get_ddr_aie_addr_offset xemtarget)) ws)).
Proof. intros Hl Hp Hw. split_words ws Hl. unfold patch_shim48. repeat win_step. done. Qed.

Lemma patch_ctrl57_aie4_win p v s m ws :
  length ws = 3%nat -> (p + 4 * 3 <= length m)%nat -> words ws ->
  patch_ctrl57_aie4 xemtarget p v (win s p m ws) = Ok tt (win s p m
    (put_addr control_packet_57_aie4 (u64 (addr_field control_packet_57_aie4 ws + (v + get_ddr_aie_addr_offset xemtarget))) ws)).
Proof. intros Hl Hp Hw. split_words ws Hl. unfold patch_ctrl57_aie4. repeat win_step. by rewrite u64_add_l. Qed.

Lemma patch_pl_ddr64_win p v s m ws :
  length ws = 10%nat -> (p + 4 * 10 <= length m)%nat -> words ws ->
  patch_pl_ddr64 p v (win s p m ws) = Ok tt (win s p m
    (put_addr pl_ddr_64 (u64 (addr_field pl_ddr_64 ws + v)) ws)).
Proof. intros Hl Hp Hw. split_words ws Hl. unfold patch_pl_ddr64. repeat win_step. done. Qed.

Lemma patch32_win p v k s m ws :
  Z.land (map_addr + Z.of_nat p) 0x3 = 0 ->
  length ws = 1%nat -> (p + 4 * 1 <= length m)%nat -> words ws ->
  patch32 map_addr p v k (win s p m ws) = Ok tt (win s p m
    (<[0%nat := u32 (Z.lor (Z.land (ws !!! 0%nat) (2 ^ 32 - 1 - k)) (Z.land v k))]> ws)).
Proof.
  intros Ha Hl Hp Hw. split_words ws Hl. unfold patch32. rewrite Ha. cbn [Z.eqb negb].
  by repeat win_step.
Qed.

Lemma patch_one_win t c p value s m ws :
  supported t -> aligned map_addr t c p ->
  length ws = patch_words t -> (p + 4 * length ws <= length m)%nat -> words ws ->
  patch_one xemtarget map_addr t c p value (win s p m ws) =
    Ok (negb (match t with scalar_32bit_kind => config_mask c =? 0 | _ => false end))
       (win s p m (new_words xemtarget t c value ws)).
Proof.
  intros Hs Ha Hl Hp Hw. rewrite Hl in Hp. destruct t; try done; cbn in Hl, Hp;
    unfold patch_one, new_words, new_addr, ddr_offset, patch_ctrl57, patch_ctrl48.
  - unfold bind at 1. by rewrite patch57_win, u64_add_l, Z.add_0_r.
  - destruct (Z.eqb_spec (config_mask c) 0) as [Hm|Hm]; [done|].
    unfold bind at 1. by rewrite patch32_win by auto.
  - unfold bind at 1. rewrite patch_ctrl_win by done. cbn [addr_field put_addr].
    by rewrite u64_add_u64, Z.add_assoc.
  - unfold bind at 1. rewrite patch_shim48_win by done. by rewrite <- Z.add_assoc, u64_add_u64, Z.add_assoc.
  - unfold bind at 1. rewrite patch57_aie4_win by done. by rewrite u64_add_u64, Z.add_assoc.
  - unfold bind at 1. by rewrite patch_ctrl_win, u64_add_l, Z.add_0_r.
  - unfold bind at 1. by rewrite patch64_win.
  - unfold bind at 1. rewrite patch_ctrl57_aie4_win by done. by rewrite u64_add_u64, Z.add_assoc.
  - unfold bind at 1. by rewrite patch_pl_ddr64_win, u64_add_l, Z.add_0_r.
Qed.
(** ** On any buffer *)

Lemma length_put_addr t b ws : length (put_addr t b ws) = length ws.
Proof. destruct t; cbn [put_addr]; by rewrite ?length_insert. Qed.

Lemma length_new_words t c value ws : length (new_words xemtarget t c value ws) = length ws.
Proof.
  destruct t; cbn [new_words]; rewrite ?length_put_addr; try done.
  case_match; by rewrite ?length_insert.
Qed.

Lemma words_put_addr t b ws : words ws -> words (put_addr t b ws).
Proof. intros Hw. destruct t; cbn [put_addr]; auto with word. Qed.

Lemma words_new_words t c value ws : words ws -> words (new_words xemtarget t c value ws).
Proof.
  intros Hw. destruct t; cbn [new_words]; auto using words_put_addr. case_match; auto with word.
Qed.

(** The buffer after one patch. *)
Definition patch_at (t : symbol_type) (value : Z) (c : patch_config) (m : list Z) : list Z :=
  let p := Z.to_nat (offset_to_patch_buffer c) in
  set_words p (new_words xemtarget t c value (words_at m p (patch_words t))) m.

Definition patches (t : symbol_type) (c : patch_config) : bool :=
  negb (match t with scalar_32bit_kind => config_mask c =? 0 | _ => false end).

Lemma win_self s p n : bytes (buf s) -> (p + 4 * n <= length (buf s))%nat ->
  win s p (buf s) (words_at (buf s) p n) = s.
Proof. intros Hb Hp. unfold win. rewrite set_words_at by done. by destruct s. Qed.

Lemma patch_one_ok t c p value s :
  supported t -> aligned map_addr t c p -> bytes (buf s) ->
  (p + 4 * patch_words t <= length (buf s))%nat ->
  patch_one xemtarget map_addr t c p value s =
    Ok (patches t c) (set_buf (set_words p
      (new_words xemtarget t c value (words_at (buf s) p (patch_words t))) (buf s)) s).
Proof.
  intros Hs Ha Hb Hp. rewrite <- (win_self s p (patch_words t)) at 1 by done.
  rewrite patch_one_win; rewrite ?length_words_at; try done. by apply words_at_words.
Qed.
End schemes.

(** * The address field *)

Lemma u32_land x : u32 x = Z.land x 0xFFFFFFFF.
Proof. unfold u32. symmetry. apply (Z.land_ones x 32). lia. Qed.

(** Replacing the bits [B] of a word and keeping the bits [A]. *)
Lemma field_get A B w x :
  Z.land A B = 0 -> Z.land B 0xFFFFFFFF = B ->
  Z.land (u32 (Z.lor (Z.land w A) (Z.land x B))) B = Z.land x B.
Proof.
  intros HAB HB. rewrite u32_land, <- Z.land_assoc, (Z.land_comm 0xFFFFFFFF), HB.
  rewrite Z.land_lor_distr_l, <- !Z.land_assoc, HAB, Z.land_0_r, Z.land_diag. done.
Qed.

Lemma field_keep A B w x :
  Z.land A B = 0 -> Z.lor A B = 0xFFFFFFFF -> 0 <= w < 2 ^ 32 ->
  Z.ldiff (u32 (Z.lor (Z.land w A) (Z.land x B))) B = Z.ldiff w B.
Proof.
  intros HAB HO Hw. rewrite u32_land. apply Z.bits_inj'. intros i Hi.
  apply (f_equal (fun z => Z.testbit z i)) in HAB, HO.
  change 0xFFFFFFFF with (Z.ones 32) in *.
  rewrite Z.lor_spec in HO. rewrite Z.land_spec, Z.testbit_0_l in HAB.
  rewrite !Z.ldiff_spec, Z.land_spec, Z.lor_spec, !Z.land_spec.
  rewrite testbit_ones in * by lia. destruct (Z.ltb_spec i 32).
  - destruct (Z.testbit A i), (Z.testbit B i), (Z.testbit w i), (Z.testbit x i); done.
  - rewrite (testbit_high w 32) by lia. by rewrite andb_false_r.
Qed.

Lemma join57 b :
  Z.lor (Z.lor (Z.shiftl (Z.land (Z.shiftr b 48) 0x1FF) 48)
               (Z.shiftl (Z.land (Z.shiftr b 32) 0xFFFF) 32)) (Z.land b 0xFFFFFFFF) = b mod 2 ^ 57.
Proof.
  change 0x1FF with (Z.ones 9); change 0xFFFF with (Z.ones 16); change 0xFFFFFFFF with (Z.ones 32).
  zbits.
Qed.

Lemma join_at k n b :
  0 <= n -> k = Z.ones n ->
  Z.lor (Z.shiftl (Z.land (Z.shiftr b 32) k) 32) (Z.land b 0xFFFFFFFF) = b mod 2 ^ (32 + n).
Proof. intros Hn ->. change 0xFFFFFFFF with (Z.ones 32). zbits. Qed.

Lemma u32_low b : u32 (Z.land b 0xFFFFFFFF) = Z.land b 0xFFFFFFFF.
Proof. by rewrite u32_land, <- Z.land_assoc, Z.land_diag. Qed.

Lemma ldiff_low b : 0 <= b < 2 ^ 32 -> Z.ldiff b 0xFFFFFFFF = 0.
Proof. intros Hb. change 0xFFFFFFFF with (Z.ones 32). zbits. Qed.

(** The symbol types whose field holds the whole address, its width and its bits. *)
Definition addr_width (t : symbol_type) : option Z :=
  match t with
  | shim_dma_base_addr_symbol_kind | shim_dma_aie4_base_addr_symbol_kind
  | control_packet_57_aie4 => Some 57
  | pl_ddr_64 => Some 64
  | _ => None
  end.

Definition addr_masks (t : symbol_type) : list Z :=
  match t with
  | shim_dma_base_addr_symbol_kind => [0; 0xFFFFFFFF; 0xFFFF; 0; 0; 0; 0; 0; 0x1FF]
  | shim_dma_aie4_base_addr_symbol_kind => [0x1FFFFFF; 0xFFFFFFFF]
  | control_packet_57_aie4 => [0; 0x1FFFFFF; 0xFFFFFFFF]
  | pl_ddr_64 => [0; 0; 0; 0; 0; 0; 0; 0; 0xFFFFFFFF; 0xFFFFFFFF]
  | _ => []
  end.

(** The bits of a window outside the address field. *)
Definition other_bits (t : symbol_type) (ws : list Z) : list Z :=
  zip_with Z.ldiff ws (addr_masks t).

Lemma addr_put_addr t n b ws :
  addr_width t = Some n -> length ws = patch_words t -> words ws ->
  addr_field t (put_addr t b ws) = b mod 2 ^ n /\
  other_bits t (put_addr t b ws) = other_bits t ws.
Proof.
  intros Hn Hl Hw. destruct t; try discriminate Hn; injection Hn as <-; cbn in Hl; split_words ws Hl;
    unfold words in Hw;
    repeat match goal with H : Forall _ (_ :: _) |- _ => inversion_clear H end.
  all: cbn [addr_field put_addr other_bits addr_masks zip_with insert list_insert lookup_total
    list_lookup_total]; rewrite ?u32_low, ?field_get by done.
  all: split; [first [rewrite join57 | rewrite (join_at 0x1FFFFFF 25) by done
                     | rewrite (join_at 0xFFFFFFFF 32) by done]; reflexivity|].
  all: repeat (apply (f_equal2 cons); [|try done]); try done.
  all: rewrite ?field_keep by done; rewrite ?ldiff_low; try done; apply (land_range_r _ _ 32); lia.
Qed.

Lemma mod_u64 x n : 0 <= n <= 64 -> u64 x mod 2 ^ n = x mod 2 ^ n.
Proof. intros Hn. unfold u64. zbits. Qed.

Section fields.
Context (xemtarget : option string) (map_addr : Z).

(** The window of a patched buffer. *)
Lemma window_after t c value p ws m :
  length ws = patch_words t -> words ws -> (p + 4 * patch_words t <= length m)%nat ->
  words_at (set_words p (new_words xemtarget t c value ws) m) p (patch_words t) =
  new_words xemtarget t c value ws.
Proof.
  intros Hl Hw Hp. rewrite <- Hl at 1. rewrite <- (length_new_words xemtarget t c value ws).
  apply words_at_set_words; [rewrite length_new_words; lia|by apply words_new_words].
Qed.

(** Patching adds to the address field.  For the 57- and 64-bit schemes,
    patching a location adds the value, the configured offset and the DDR offset
    to the address in the field, modulo the width of the field; every other bit
    of the window, and every byte outside it, keeps its value. *)
Theorem patch_adds_address t n c p value s :
  addr_width t = Some n -> bytes (buf s) -> (p + 4 * patch_words t <= length (buf s))%nat ->
  exists s', patch_one xemtarget map_addr t c p value s = Ok true s' /\
    m_states s' = m_states s /\ syncs s' = syncs s /\
    (let ws := words_at (buf s) p (patch_words t) in
     let ws' := words_at (buf s') p (patch_words t) in
     addr_field t ws' =
       (addr_field t ws + value + offset_to_base_bo_addr c + ddr_offset xemtarget t) mod 2 ^ n /\
     other_bits t ws' = other_bits t ws) /\
    (forall i, (i < p \/ p + 4 * patch_words t <= i)%nat -> buf s' !! i = buf s !! i).
Proof.
  intros Hn Hb Hp. assert (0 <= n <= 64) by (destruct t; simplify_eq Hn; intros; subst; lia).
  assert (supported t /\ aligned map_addr t c p /\ patches t c = true) as (Hs & Ha & Hpt)
    by (destruct t; done).
  rewrite patch_one_ok, Hpt by done. eexists. split; [done|]. cbn [m_states syncs buf set_buf].
  split; [done|]. split; [done|]. set (ws := words_at (buf s) p (patch_words t)).
  assert (length ws = patch_words t) as Hl by apply length_words_at.
  assert (words ws) as Hw by by apply words_at_words.
  split; [|intros i Hi; rewrite lookup_set_words; rewrite length_new_words, Hl; [case_decide; [lia|done]|lia]].
  rewrite window_after by done.
  assert (new_words xemtarget t c value ws =
    put_addr t (u64 (addr_field t ws + (value + offset_to_base_bo_addr c) + ddr_offset xemtarget t)) ws)
    as -> by (destruct t; done).
  destruct (addr_put_addr t n (u64 (addr_field t ws + (value + offset_to_base_bo_addr c)
    + ddr_offset xemtarget t)) ws Hn Hl Hw) as [-> ->].
  rewrite mod_u64 by done. split; [f_equal; lia|done].
Qed.

Lemma words_nth ws i : words ws -> 0 <= ws !!! i < 2 ^ 32.
Proof.
  intros Hw. destruct (decide (i < length ws)%nat) as [Hi|Hi].
  - eapply (Forall_lookup_total_1 _ _ _ Hw); lia.
  - rewrite list_lookup_total_alt, lookup_ge_None_2 by lia. cbn. lia.
Qed.

Lemma clear_low_bits x : x mod 2 ^ 48 - x mod 4 = Z.ldiff (x mod 2 ^ 48) (Z.ones 2).
Proof.
  rewrite Z.ldiff_ones_r, Z.shiftl_mul_pow2, Z.shiftr_div_pow2 by lia. change (2 ^ 2) with 4.
  assert (x mod 4 = (x mod 2 ^ 48) mod 4) as -> by (change 4 with (2 ^ 2); zbits).
  rewrite Z.mod_eq with (b := 4) by lia. lia.
Qed.

(** The words of the 48-bit schemes that hold the high and the low part. *)
Definition hi48 (t : symbol_type) (ws : list Z) : Z :=
  match t with shim_dma_48 => ws !!! 2%nat | _ => ws !!! 3%nat end.
Definition lo48 (t : symbol_type) (ws : list Z) : Z :=
  match t with shim_dma_48 => ws !!! 1%nat | _ => ws !!! 2%nat end.
Definition is48 (t : symbol_type) : bool :=
  match t with shim_dma_48 | control_packet_48 | control_packet_57 => true | _ => false end.

Lemma put_addr48 t b ws :
  is48 t = true -> length ws = patch_words t ->
  hi48 t (put_addr t b ws) = u32 (Z.lor (Z.land (hi48 t ws) 0xFFFF0000) (Z.shiftr b 32)) /\
  lo48 t (put_addr t b ws) = u32 (Z.land b 0xFFFFFFFC).
Proof. intros Ht Hl. destruct t; try discriminate Ht; cbn in Hl; by split_words ws Hl. Qed.

(** The 48-bit schemes.  The patched location holds bits 2 to 47 of the sum
    of the old address, the value, the offset and the DDR offset (the low two
    bits are cleared).  The upper half of the high word is kept when the sum fits
    48 bits; otherwise bits 48 to 63 of the sum are or-ed into it. *)
Theorem patch48_address t c p value s :
  is48 t = true -> bytes (buf s) -> (p + 4 * patch_words t <= length (buf s))%nat ->
  exists s', patch_one xemtarget map_addr t c p value s = Ok true s' /\
    let ws := words_at (buf s) p (patch_words t) in
    let ws' := words_at (buf s') p (patch_words t) in
    let sum := u64 (addr_field t ws + (value + offset_to_base_bo_addr c) + ddr_offset xemtarget t) in
    Z.lor (Z.shiftl (Z.land (hi48 t ws') 0xFFFF) 32) (lo48 t ws') = sum mod 2 ^ 48 - sum mod 4 /\
    Z.shiftr (hi48 t ws') 16 = Z.lor (Z.shiftr (hi48 t ws) 16) (Z.shiftr sum 48).
Proof.
  intros Ht Hb Hp. assert (supported t /\ aligned map_addr t c p /\ patches t c = true)
    as (Hs & Ha & Hpt) by (destruct t; done).
  rewrite patch_one_ok, Hpt by done. eexists. split; [done|]. cbn [buf set_buf].
  set (ws := words_at (buf s) p (patch_words t)).
  assert (length ws = patch_words t) as Hl by apply length_words_at.
  assert (words ws) as Hw by by apply words_at_words.
  rewrite window_after by done. cbv zeta.
  set (sum := u64 _). assert (0 <= sum < 2 ^ 64) as Hsum by apply u64_range.
  assert (new_words xemtarget t c value ws = put_addr t sum ws) as -> by (destruct t; done).
  destruct (put_addr48 t sum ws Ht Hl) as [-> ->].
  assert (0 <= hi48 t ws < 2 ^ 32) as Hhi by (unfold hi48; destruct t; by apply words_nth).
  unfold u32. change 0xFFFF0000 with (mask 16 16). change 0xFFFFFFFC with (mask 2 30).
  change 0xFFFF with (Z.ones 16). split; [|zbits].
  rewrite clear_low_bits. zbits.
Qed.
End fields.

(** * Patch locations *)

Definition loc (c : patch_config) : nat := Z.to_nat (offset_to_patch_buffer c).

Definition fits (t : symbol_type) (c : patch_config) (size : nat) : Prop :=
  0 <= offset_to_patch_buffer c /\
  offset_to_patch_buffer c + 4 * Z.of_nat (patch_words t) <= Z.of_nat size.

Lemma required_words t b :
  required_patch_bytes t = Some b -> b = 4 * Z.of_nat (patch_words t).
Proof. unfold patch_words. intros H. rewrite H. by destruct t; try discriminate H; injection H as <-. Qed.

Lemma required_supported t b : required_patch_bytes t = Some b -> supported t.
Proof. intros H. unfold supported. by rewrite H. Qed.

Lemma ld_words_ok p i n s :
  (p + 4 * (i + n) <= length (buf s))%nat ->
  ld_words p i n s = Ok (words_at (buf s) (p + 4 * i) n) s.
Proof.
  revert i. induction n as [|n IH]; intros i Hp; [done|]. cbn [ld_words words_at].
  unfold bind at 1. unfold ld, bind at 1, gets.
  rewrite (proj2 (Nat.leb_le _ _)) by lia. unfold ret at 1, bind at 1. rewrite IH by lia.
  replace (p + 4 * S i)%nat with (p + 4 * i + 4)%nat by lia. done.
Qed.

Lemma set_words_cons_comm p w ws m :
  (p + 4 * S (length ws) <= length m)%nat ->
  set_words (p + 4) ws (set_word p w m) = set_word p w (set_words (p + 4) ws m).
Proof.
  intros Hp. apply list_eq. intros j.
  rewrite !lookup_set_words, !lookup_set_word, ?lookup_set_words
    by (rewrite ?length_set_word, ?length_set_words; lia).
  repeat case_decide; lia || done.
Qed.

Lemma st_words_ok p i ws s :
  (p + 4 * (i + length ws) <= length (buf s))%nat -> words ws ->
  st_words p i ws s = Ok tt (set_buf (set_words (p + 4 * i) ws (buf s)) s).
Proof.
  revert i s. induction ws as [|w ws IH]; intros i s Hp Hw; cbn [st_words set_words].
  { by destruct s. }
  inversion_clear Hw as [|? ? Hw1 Hw2]. cbn [length] in Hp.
  unfold bind at 1. unfold st, bind at 1, gets. rewrite (proj2 (Nat.leb_le _ _)) by lia.
  unfold modify. rewrite u32_small by done. rewrite IH; [|cbn; rewrite length_set_word; lia|done].
  cbn [buf set_buf]. replace (p + 4 * S i)%nat with (p + 4 * i + 4)%nat by lia.
  rewrite set_words_cons_comm by lia. done.
Qed.

Section locations.
Context (xemtarget : option string) (map_addr : Z).

(** The words a patch starts from: the cached ones of a dirty argument, the ones
    in the buffer otherwise. *)
Definition source_words (t : symbol_type) (is_arg : bool) (ps : patch_state) (c : patch_config)
    (m : list Z) : list Z :=
  if is_arg && dirty ps then bd_data_ptrs ps else words_at m (loc c) (patch_words t).

Definition good_state (t : symbol_type) (ps : patch_state) : Prop :=
  length (bd_data_ptrs ps) = patch_words t /\ words (bd_data_ptrs ps).

Lemma cache_bd_ok t c i ps s :
  fits t c (length (buf s)) -> m_states s !! i = Some ps -> good_state t ps -> bytes (buf s) ->
  cache_bd i (loc c) (patch_words t) s =
    Ok tt (State (if dirty ps then m_states s
                  else <[i := PatchState true (words_at (buf s) (loc c) (patch_words t))]> (m_states s))
                 (set_words (loc c) (source_words t true ps c (buf s)) (buf s)) (syncs s)).
Proof.
  intros [Hc0 Hc] Hi [Hl Hw] Hb. unfold cache_bd, bind at 1, gets, source_words. rewrite Hi, Hl, Nat.eqb_refl.
  assert (loc c + 4 * patch_words t <= length (buf s))%nat by (unfold loc; lia).
  cbn [negb andb]. destruct (dirty ps).
  - rewrite st_words_ok by (done || lia). by replace (loc c + 4 * 0)%nat with (loc c) by lia.
  - unfold bind. rewrite ld_words_ok by lia. replace (loc c + 4 * 0)%nat with (loc c) by lia.
    unfold modify. by rewrite set_words_at.
Qed.

Lemma source_words_ok t is_arg ps c m :
  good_state t ps -> bytes m ->
  length (source_words t is_arg ps c m) = patch_words t /\ words (source_words t is_arg ps c m).
Proof.
  intros [Hl Hw] Hb. unfold source_words. destruct (is_arg && dirty ps); [done|].
  split; [apply length_words_at|by apply words_at_words].
Qed.

Lemma patch_location_ok t b value first is_arg i c ps s :
  required_patch_bytes t = Some b -> fits t c (length (buf s)) -> aligned map_addr t c (loc c) ->
  bytes (buf s) -> m_states s !! i = Some ps -> good_state t ps ->
  let ws := source_words t is_arg ps c (buf s) in
  patch_location xemtarget map_addr t b value first is_arg i c s =
    Ok tt (State (if is_arg && negb (dirty ps) then <[i := PatchState true ws]> (m_states s)
                  else m_states s)
                 (set_words (loc c) (new_words xemtarget t c value ws) (buf s))
                 (syncs s ++ if patches t c && negb first
                             then [sync_range t b (offset_to_patch_buffer c)] else [])).
Proof.
  intros Hr Hf Ha Hb Hi Hg ws. pose proof Hf as [Hc0 Hc]. pose proof (required_words t b Hr) as Hbw.
  destruct (source_words_ok t is_arg ps c (buf s) Hg Hb) as [Hwl Hww]. fold ws in Hwl, Hww.
  assert (loc c + 4 * patch_words t <= length (buf s))%nat as Hp by (unfold loc; lia).
  unfold patch_location, bind at 1, gets.
  rewrite (proj2 (Z.ltb_ge _ _)), (proj2 (Z.ltb_ge _ _)) by lia. cbn [orb]. fold (loc c).
  replace (Z.to_nat (b / 4)) with (patch_words t)
    by (rewrite Hbw, Z.mul_comm, Z.div_mul by lia; lia).
  unfold bind at 1. destruct is_arg; cbn [when andb] in *.
  - rewrite (cache_bd_ok t c i ps s) by done. fold ws. unfold bind at 1.
    rewrite patch_one_ok; cbn [buf]; [|by eapply required_supported|done|
      apply bytes_set_words; lia || done|rewrite length_set_words; done].
    assert (words_at (set_words (loc c) ws (buf s)) (loc c) (patch_words t) = ws) as ->
      by (rewrite <- Hwl; apply words_at_set_words; done || lia).
    rewrite set_words_set_words by (rewrite ?length_new_words; lia).
    unfold source_words in ws. cbn [andb] in ws. destruct (patches t c && negb first); subst ws;
      destruct (dirty ps); cbn; rewrite ?app_nil_r; done.
  - unfold ret at 1, bind at 1. rewrite patch_one_ok by (done || by eapply required_supported).
    destruct (patches t c && negb first); cbn; rewrite ?app_nil_r; by destruct s.
Qed.

Lemma patch_location_oob t b value first is_arg i c s :
  required_patch_bytes t = Some b -> 0 <= offset_to_patch_buffer c -> ~ fits t c (length (buf s)) ->
  patch_location xemtarget map_addr t b value first is_arg i c s = Err OffsetExceedsBuffer s.
Proof.
  intros Hr H0 Hf. pose proof (required_words t b Hr) as Hbw. unfold patch_location, bind at 1, gets.
  unfold fits in Hf. destruct (Z.ltb_spec (Z.of_nat (length (buf s))) (offset_to_patch_buffer c)); [done|].
  rewrite (proj2 (Z.ltb_lt _ _)) by lia. done.
Qed.

(** ** A whole symbol *)

(** The buffer after patching every location of a symbol. *)
Definition ref_patch (t : symbol_type) (value : Z) (l : list patch_config) (m : list Z) : list Z :=
  foldl (fun m c => patch_at xemtarget t value c m) m l.

(** No location of the symbol overlaps another one. *)
Definition disjoint_locs (t : symbol_type) (l : list patch_config) : Prop :=
  ForallOrdPairs (fun c d => apart (patch_words t) (loc c) (loc d)) l.

Definition outside (t : symbol_type) (l : list patch_config) (j : nat) : Prop :=
  forall c, c ∈ l -> (j < loc c \/ loc c + 4 * patch_words t <= j)%nat.

Definition sync_log (t : symbol_type) (b : Z) (first : bool) (l : list patch_config) : list (Z * Z) :=
  concat ((fun c => if patches t c && negb first
                    then [sync_range t b (offset_to_patch_buffer c)] else []) <$> l).

Lemma fits_loc t c n : fits t c n -> (loc c + 4 * patch_words t <= n)%nat.
Proof. intros [? ?]. unfold loc. lia. Qed.

Lemma length_patch_at t value c m : length (patch_at xemtarget t value c m) = length m.
Proof. apply length_set_words. Qed.

Lemma bytes_patch_at t value c m :
  fits t c (length m) -> bytes m -> bytes (patch_at xemtarget t value c m).
Proof.
  intros Hf Hb. apply bytes_set_words; [|done]. rewrite length_new_words, length_words_at.
  by apply fits_loc.
Qed.

Lemma lookup_set_new t c value ws m j :
  length ws = patch_words t -> fits t c (length m) ->
  (j < loc c \/ loc c + 4 * patch_words t <= j)%nat ->
  set_words (loc c) (new_words xemtarget t c value ws) m !! j = m !! j.
Proof.
  intros Hl Hf Hj. pose proof (fits_loc _ _ _ Hf).
  rewrite lookup_set_words by (rewrite length_new_words; lia). rewrite length_new_words, Hl.
  case_decide; [lia|done].
Qed.

Lemma ref_patch_outside t value l m j :
  Forall (fun c => fits t c (length m)) l -> outside t l j ->
  ref_patch t value l m !! j = m !! j.
Proof.
  revert m. induction l as [|c l IH]; intros m Hf Ho; [done|].
  inversion_clear Hf as [|? ? Hc Hl]. cbn [ref_patch foldl].
  change (ref_patch t value l (patch_at xemtarget t value c m) !! j = m !! j).
  rewrite IH; [|by rewrite length_patch_at|intros d Hd; apply Ho; by right].
  apply lookup_set_new; [apply length_words_at|done|apply Ho; by left].
Qed.

Lemma length_ref_patch t value l m : length (ref_patch t value l m) = length m.
Proof.
  revert m. induction l as [|c l IH]; intros m; [done|]. cbn. etransitivity; [apply IH|].
  apply length_patch_at.
Qed.

Lemma bytes_ref_patch t value l m :
  Forall (fun c => fits t c (length m)) l -> bytes m -> bytes (ref_patch t value l m).
Proof.
  revert m. induction l as [|c l IH]; intros m Hf Hb; [done|]. inversion_clear Hf as [|? ? Hc Hl].
  apply IH; [by rewrite length_patch_at|by apply bytes_patch_at].
Qed.

(** What the caches and the buffer must provide for the locations from index [i]
    on: the source words of each are the ones of [r]. *)
Definition provides (t : symbol_type) (is_arg : bool) (i : nat) (l : list patch_config)
    (s : state) (r : list Z) : Prop :=
  forall k c, l !! k = Some c -> exists ps, m_states s !! (i + k)%nat = Some ps /\
    good_state t ps /\ source_words t is_arg ps c (buf s) = words_at r (loc c) (patch_words t).

Lemma source_words_apart t is_arg ps c d value ws m :
  length ws = patch_words t -> fits t c (length m) -> apart (patch_words t) (loc c) (loc d) ->
  source_words t is_arg ps d (set_words (loc c) (new_words xemtarget t c value ws) m) =
  source_words t is_arg ps d m.
Proof.
  intros Hl Hf Ha. pose proof (fits_loc _ _ _ Hf). unfold source_words.
  destruct (is_arg && dirty ps); [done|]. apply words_at_apart; [by rewrite length_new_words| |done].
  unfold apart in *. lia.
Qed.

Lemma provides_step t is_arg i c l s r value b first s' ps :
  required_patch_bytes t = Some b ->
  Forall (fun d => apart (patch_words t) (loc c) (loc d)) l ->
  fits t c (length (buf s)) -> length r = length (buf s) ->
  m_states s !! i = Some ps -> good_state t ps -> bytes (buf s) ->
  source_words t is_arg ps c (buf s) = words_at r (loc c) (patch_words t) ->
  aligned map_addr t c (loc c) ->
  patch_location xemtarget map_addr t b value first is_arg i c s = Ok tt s' ->
  provides t is_arg i (c :: l) s r ->
  provides t is_arg (S i) l s' (patch_at xemtarget t value c r).
Proof.
  intros Hr Hap Hf Hlen Hi Hg Hb Hs Ha Hrun Hp.
  rewrite (patch_location_ok t b value first is_arg i c ps s) in Hrun by done.
  injection Hrun as <-. intros k d Hd. destruct (Hp (S k) d Hd) as (ps' & Hps' & Hg' & Hs').
  exists ps'. replace (S i + k)%nat with (i + S k)%nat by lia. cbn [m_states buf].
  assert (apart (patch_words t) (loc c) (loc d)) as Had
    by by apply (Forall_lookup_1 _ _ k d Hap).
  split_and!; [|done|].
  - destruct (is_arg && negb (dirty ps)); [|done]. rewrite list_lookup_insert_ne by lia. done.
  - destruct (source_words_ok t is_arg ps c (buf s) Hg Hb) as [Hwl _].
    rewrite source_words_apart by done. rewrite Hs'. symmetry. unfold patch_at. fold (loc c).
    apply words_at_apart; [by rewrite length_new_words, length_words_at|unfold apart in *; lia|].
    rewrite Hlen. by apply fits_loc.
Qed.

Lemma patch_locations_ok t b value first is_arg l : forall i s r,
  required_patch_bytes t = Some b -> Forall (fun c => fits t c (length (buf s))) l ->
  Forall (fun c => aligned map_addr t c (loc c)) l -> disjoint_locs t l ->
  bytes (buf s) -> length r = length (buf s) ->
  (forall j, outside t l j -> buf s !! j = r !! j) -> provides t is_arg i l s r ->
  exists s', patch_locations xemtarget map_addr t b value first is_arg i l s = Ok tt s' /\
    buf s' = ref_patch t value l r /\ syncs s' = syncs s ++ sync_log t b first l /\
    length (m_states s') = length (m_states s) /\
    (forall j, (j < i)%nat -> m_states s' !! j = m_states s !! j) /\
    (is_arg = true -> forall k c, l !! k = Some c ->
       m_states s' !! (i + k)%nat = Some (PatchState true (words_at r (loc c) (patch_words t)))).
Proof.
  induction l as [|c l IH]; intros i s r Hr Hf Ha Hd Hb Hlen Ho Hp; cbn [patch_locations].
  { exists s. split; [done|]. split; [|cbn; by rewrite app_nil_r].
    apply list_eq. intros j. apply Ho. intros c Hc. by apply elem_of_nil in Hc. }
  inversion_clear Hf as [|? ? Hfc Hfl]. inversion_clear Ha as [|? ? Hac Hal].
  inversion_clear Hd as [|? ? Hdc Hdl].
  destruct (Hp 0%nat c eq_refl) as (ps & Hi & Hg & Hsrc). rewrite Nat.add_0_r in Hi.
  destruct (source_words_ok t is_arg ps c (buf s) Hg Hb) as [Hwl Hww].
  pose proof (patch_location_ok t b value first is_arg i c ps s Hr Hfc Hac Hb Hi Hg) as Hrun.
  cbv zeta in Hrun. rewrite Hsrc in Hrun, Hwl, Hww. unfold bind at 1. rewrite Hrun.
  set (s1 := State _ _ _) in *.
  assert (length (buf s1) = length (buf s)) as Hl1 by apply length_set_words.
  destruct (IH (S i) s1 (patch_at xemtarget t value c r)) as
    (s' & Hrun' & Hbuf & Hsync & Hlm & Hlow & Hst); try done.
  - by rewrite Hl1.
  - apply bytes_set_words; [rewrite length_new_words, Hwl; by apply fits_loc|done].
  - by rewrite length_patch_at, Hl1.
  - intros j Hj. cbn [s1 buf]. unfold patch_at. fold (loc c).
    pose proof (fits_loc _ _ _ Hfc).
    rewrite !lookup_set_words by (rewrite length_new_words, length_words_at; lia).
    case_decide as Hin; [done|]. rewrite length_new_words, length_words_at in Hin.
    apply Ho. intros d [->|Hd]%elem_of_cons; [lia|by apply Hj].
  - by eapply (provides_step t is_arg i c l s).
  - exists s'. split; [done|]. split; [done|]. split.
    { rewrite Hsync. cbn [s1 syncs]. by rewrite <- app_assoc. }
    split; [rewrite Hlm; cbn [s1 m_states]; case_match; by rewrite ?length_insert|]. split.
    { intros j Hj. rewrite Hlow by lia. cbn [s1 m_states]. case_match; [|done].
      by rewrite list_lookup_insert_ne by lia. }
    intros -> k d Hk. destruct k as [|k]; cbn in Hk.
    + injection Hk as <-. rewrite Nat.add_0_r, Hlow by lia. cbn [s1 m_states andb].
      unfold source_words in Hsrc. cbn [andb] in Hsrc. destruct ps as [[] bd]; cbn in *.
      * by rewrite Hi, Hsrc.
      * rewrite list_lookup_insert_eq; [done|]. by eapply lookup_lt_Some.
    + replace (i + S k)%nat with (S i + k)%nat by lia. rewrite (Hst eq_refl k d Hk).
      do 2 f_equal. unfold patch_at. fold (loc c).
      pose proof (Forall_lookup_1 _ _ k d Hdc Hk) as Had. cbn in Had.
      apply words_at_apart; [by rewrite length_new_words, length_words_at|unfold apart in *; lia|].
      rewrite Hlen. by apply fits_loc.
Qed.

(** ** The whole routine *)

(** A symbol whose locations fit the buffer, do not overlap and are aligned. *)
Record patchable (c : patcher_config) (size : nat) : Prop := {
  pat_supported : supported (m_symbol_type c);
  pat_fits : Forall (fun d => fits (m_symbol_type c) d size) (m_patch_configs c);
  pat_aligned : Forall (fun d => aligned map_addr (m_symbol_type c) d (loc d)) (m_patch_configs c);
  pat_disjoint : disjoint_locs (m_symbol_type c) (m_patch_configs c);
}.

(** The state of a patcher that was just constructed. *)
Definition clean (c : patcher_config) (s : state) : Prop :=
  m_states s = new_symbol_patcher c /\ bytes (buf s).

(** The state after argument patches: the caches hold the words of [m]. *)
Definition cached (c : patcher_config) (m : list Z) (s : state) : Prop :=
  m_states s = (fun d => PatchState true (words_at m (loc d) (patch_words (m_symbol_type c))))
                 <$> m_patch_configs c.

Lemma patch_symbol_sized c b value first is_arg s :
  required_patch_bytes (m_symbol_type c) = Some b ->
  length (m_states s) = length (m_patch_configs c) ->
  patch_symbol xemtarget map_addr (Some c) value first is_arg s =
  patch_locations xemtarget map_addr (m_symbol_type c) b value first is_arg 0 (m_patch_configs c) s.
Proof.
  intros Hr Hl. unfold patch_symbol. rewrite Hr. unfold bind at 1, modify.
  by rewrite Hl, Nat.eqb_refl.
Qed.

Lemma clean_provides c is_arg s :
  clean c s -> provides (m_symbol_type c) is_arg 0 (m_patch_configs c) s (buf s).
Proof.
  intros [Hs Hb] k d Hd. eexists. rewrite Hs. unfold new_symbol_patcher.
  rewrite lookup_replicate_2 by by eapply lookup_lt_Some. split; [done|]. split.
  - split; cbn; [apply length_replicate|]. apply Forall_replicate. lia.
  - unfold source_words, fresh_state. cbn [dirty]. by rewrite andb_false_r.
Qed.

Lemma cached_provides c m s :
  cached c m s -> bytes m -> provides (m_symbol_type c) true 0 (m_patch_configs c) s m.
Proof.
  intros Hs Hb k d Hd. eexists. cbn [Nat.add]. rewrite Hs, list_lookup_fmap, Hd. split; [done|]. split; [|done].
  split; cbn; [apply length_words_at|by apply words_at_words].
Qed.

Lemma cached_of_lookup c m s :
  length (m_states s) = length (m_patch_configs c) ->
  (forall k d, m_patch_configs c !! k = Some d ->
     m_states s !! k = Some (PatchState true (words_at m (loc d) (patch_words (m_symbol_type c))))) ->
  cached c m s.
Proof.
  intros Hl H. unfold cached. apply list_eq. intros k. rewrite list_lookup_fmap.
  destruct (m_patch_configs c !! k) as [d|] eqn:Hd; [by rewrite (H k d Hd)|].
  apply lookup_ge_None in Hd. cbn. apply lookup_ge_None. lia.
Qed.

Lemma supported_bytes t : supported t -> exists b, required_patch_bytes t = Some b.
Proof. unfold supported. destruct (required_patch_bytes t); [eauto|done]. Qed.

(** From a clean state the buffer is patched at every location. *)
Lemma patch_symbol_clean c value first is_arg s :
  patchable c (length (buf s)) -> clean c s ->
  exists b s', required_patch_bytes (m_symbol_type c) = Some b /\
    patch_symbol xemtarget map_addr (Some c) value first is_arg s = Ok tt s' /\
    buf s' = ref_patch (m_symbol_type c) value (m_patch_configs c) (buf s) /\
    syncs s' = syncs s ++ sync_log (m_symbol_type c) b first (m_patch_configs c) /\
    (is_arg = true -> cached c (buf s) s').
Proof.
  intros [Hs Hf Ha Hd] Hc. destruct (supported_bytes _ Hs) as [b Hr]. exists b.
  assert (length (m_states s) = length (m_patch_configs c)) as Hl
    by (rewrite (proj1 Hc); apply length_replicate).
  rewrite (patch_symbol_sized c b) by done.
  destruct (patch_locations_ok (m_symbol_type c) b value first is_arg (m_patch_configs c) 0 s (buf s))
    as (s' & Hrun & Hbuf & Hsync & Hlm & _ & Hst); try done.
  - apply Hc.
  - by apply clean_provides.
  - exists s'. split_and!; try done. intros ->. apply cached_of_lookup; [congruence|]. by apply Hst.
Qed.

(** After an argument was patched, patching it again starts from the same words. *)
Lemma patch_symbol_cached c value first m s :
  patchable c (length (buf s)) -> bytes (buf s) -> bytes m -> length m = length (buf s) ->
  cached c m s -> (forall j, outside (m_symbol_type c) (m_patch_configs c) j -> buf s !! j = m !! j) ->
  exists s', patch_symbol xemtarget map_addr (Some c) value first true s = Ok tt s' /\
    buf s' = ref_patch (m_symbol_type c) value (m_patch_configs c) m /\ cached c m s'.
Proof.
  intros [Hs Hf Ha Hd] Hb Hm Hlen Hc Ho. destruct (supported_bytes _ Hs) as [b Hr].
  assert (length (m_states s) = length (m_patch_configs c)) as Hl
    by (rewrite Hc; apply length_fmap).
  rewrite (patch_symbol_sized c b) by done.
  destruct (patch_locations_ok (m_symbol_type c) b value first true (m_patch_configs c) 0 s m)
    as (s' & Hrun & Hbuf & Hsync & Hlm & _ & Hst); try done.
  - by apply cached_provides.
  - exists s'. split_and!; try done. apply cached_of_lookup; [congruence|]. by apply Hst.
Qed.

(** One more patch of an argument, after none or some earlier ones. *)
Lemma repatch_once c value first s s1 :
  patchable c (length (buf s)) -> clean c s ->
  s1 = s \/ (cached c (buf s) s1 /\ exists v,
    buf s1 = ref_patch (m_symbol_type c) v (m_patch_configs c) (buf s)) ->
  exists s2, patch_symbol xemtarget map_addr (Some c) value first true s1 = Ok tt s2 /\
    buf s2 = ref_patch (m_symbol_type c) value (m_patch_configs c) (buf s) /\ cached c (buf s) s2.
Proof.
  intros Hp Hc [->|[Hca [v Hbuf]]].
  - destruct (patch_symbol_clean c value first true s Hp Hc) as (b & s' & _ & ? & ? & _ & Hca).
    exists s'. auto.
  - pose proof (pat_fits _ _ Hp) as Hf. apply patch_symbol_cached; try done.
    + by rewrite Hbuf, length_ref_patch.
    + rewrite Hbuf. by apply bytes_ref_patch, Hc.
    + apply Hc.
    + by rewrite Hbuf, length_ref_patch.
    + intros j Hj. rewrite Hbuf. by apply ref_patch_outside.
Qed.

(** C9: patching an argument again.  Let the locations of a symbol fit the buffer, be aligned and not
    overlap, and let the patcher be new.  After any number of earlier patches of the
    same kernel argument, a patch leaves exactly the buffer that a single patch
    of the original buffer with the last value gives: the cached words undo the
    earlier patches. *)
Theorem repatch_argument c values value first s :
  patchable c (length (buf s)) -> clean c s ->
  exists s1 s2 s3,
    for_each values (fun v => patch_symbol xemtarget map_addr (Some c) v first true) s = Ok tt s1 /\
    patch_symbol xemtarget map_addr (Some c) value first true s1 = Ok tt s2 /\
    patch_symbol xemtarget map_addr (Some c) value first true s = Ok tt s3 /\
    buf s2 = buf s3.
Proof.
  intros Hp Hc. pose proof (proj2 Hc) as Hb.
  destruct (patch_symbol_clean c value first true s Hp Hc) as (b & s3 & _ & Hrun3 & Hbuf3 & _ & _).
  assert (exists s1, for_each values (fun v => patch_symbol xemtarget map_addr (Some c) v first true) s
    = Ok tt s1 /\ (s1 = s \/ (cached c (buf s) s1 /\ exists v,
        buf s1 = ref_patch (m_symbol_type c) v (m_patch_configs c) (buf s)))) as (s1 & Hrun1 & Hs1).
  { induction values as [|v values IH] using rev_ind; [exists s; by auto|].
    destruct IH as (s1 & Hrun1 & Hs1). rewrite for_each_app, Hrun1. cbn [for_each]. unfold bind.
    destruct (repatch_once c v first s s1 Hp Hc Hs1) as (s2 & -> & Hbuf & Hca).
    exists s2. split; [done|]. right. eauto. }
  destruct (repatch_once c value first s s1 Hp Hc Hs1) as (s2 & Hrun2 & Hbuf2 & _).
  exists s1, s2, s3. split_and!; try done. congruence.
Qed.

(** ** Memory safety *)

Lemma patch32_unaligned p v k s :
  Z.land (map_addr + Z.of_nat p) 0x3 <> 0 -> patch32 map_addr p v k s = Err NotAligned s.
Proof. intros Ha. unfold patch32. by rewrite (proj2 (Z.eqb_neq _ _)). Qed.

Lemma aligned_dec t c p :
  aligned map_addr t c p \/
  (t = scalar_32bit_kind /\ config_mask c <> 0 /\ Z.land (map_addr + Z.of_nat p) 0x3 <> 0).
Proof.
  unfold aligned. destruct (decide (Z.land (map_addr + Z.of_nat p) 0x3 = 0)); [by left; intros|].
  destruct (decide (config_mask c = 0)); [by left; intros|]. destruct t; try (by left; intros). by right.
Qed.

(** What every patch keeps: bytes stay bytes, the buffer keeps its size, the caches
    keep theirs. *)
Definition sane (t : symbol_type) (n size : nat) (s : state) : Prop :=
  bytes (buf s) /\ length (buf s) = size /\ length (m_states s) = n /\
  Forall (good_state t) (m_states s).

(** The buffer after a patch of locations, each with its cache. *)
Definition patched (t : symbol_type) (value : Z) (is_arg : bool) (l : list (patch_config * patch_state))
    (m : list Z) : list Z :=
  foldl (fun m x => set_words (loc (fst x))
    (new_words xemtarget t (fst x) value (source_words t is_arg (snd x) (fst x) m)) m) m l.

Lemma patch_location_sane t b value first is_arg i c n size s :
  required_patch_bytes t = Some b -> 0 <= offset_to_patch_buffer c -> (i < n)%nat ->
  sane t n size s ->
  wp (patch_location xemtarget map_addr t b value first is_arg i c)
     (fun _ s' => sane t n size s' /\ fits t c size /\ aligned map_addr t c (loc c) /\
        drop (S i) (m_states s') = drop (S i) (m_states s) /\
        exists ps, m_states s !! i = Some ps /\ buf s' = patched t value is_arg [(c, ps)] (buf s))
     (fun e s' => length (buf s') = size /\ (e = NotAligned /\ ~ aligned map_addr t c (loc c) \/
        e = OffsetExceedsBuffer /\ ~ fits t c size)) s.
Proof.
  intros Hr H0 Hi (Hb & Hsz & Hn & Hg). unfold wp.
  destruct (lookup_lt_is_Some_2 (m_states s) i) as [ps Hps]; [lia|].
  pose proof (Forall_lookup_1 _ _ _ _ Hg Hps) as Hgp.
  destruct (decide (offset_to_patch_buffer c + 4 * Z.of_nat (patch_words t) <= Z.of_nat size)) as [Hf|Hf].
  2:{ rewrite patch_location_oob; [split; [done|right]|done|done|rewrite Hsz; unfold fits; lia].
      split; [done|]. unfold fits. lia. }
  assert (fits t c (length (buf s))) as Hfit by (rewrite Hsz; by split).
  destruct (source_words_ok t is_arg ps c (buf s) Hgp Hb) as [Hwl Hww].
  destruct (aligned_dec t c (loc c)) as [Ha|(-> & Hm & Ha)].
  - rewrite (patch_location_ok t b value first is_arg i c ps s) by done.
    split; [|split; [by split|split; [done|split; [cbn; case_match; [by rewrite drop_insert_lt by lia|done]|by exists ps]]]].
    unfold sane. cbn [buf m_states]. rewrite length_set_words. split_and!; try done.
    + apply bytes_set_words; [rewrite length_new_words, Hwl; by apply fits_loc|done].
    + case_match; by rewrite ?length_insert.
    + case_match; [|done]. by apply Forall_insert.
  - pose proof (required_words _ _ Hr) as Hbw. unfold patch_location, bind at 1, gets.
    rewrite (proj2 (Z.ltb_ge _ _)), (proj2 (Z.ltb_ge _ _)) by lia. cbn [orb]. fold (loc c).
    replace (Z.to_nat (b / 4)) with (patch_words scalar_32bit_kind)
      by (rewrite Hbw, Z.mul_comm, Z.div_mul by lia; lia).
    unfold bind at 1. assert (forall s0, patch_one xemtarget map_addr scalar_32bit_kind c (loc c) value s0
      = Err NotAligned s0) as Hone.
    { intros s0. unfold patch_one. rewrite (proj2 (Z.eqb_neq _ _) Hm). unfold bind.
      by rewrite patch32_unaligned. }
    assert (~ aligned map_addr scalar_32bit_kind c (loc c)) by (intros Hal; by apply Ha, Hal).
    destruct is_arg; cbn [when]; [rewrite (cache_bd_ok _ c i ps s) by done|unfold ret at 1];
      unfold bind; rewrite Hone; (split; [cbn [buf]; by rewrite ?length_set_words|by left]).
Qed.

Lemma patch_locations_sane t b value first is_arg n size l : forall i s,
  required_patch_bytes t = Some b -> Forall (fun c => 0 <= offset_to_patch_buffer c) l ->
  (i + length l <= n)%nat -> sane t n size s ->
  wp (patch_locations xemtarget map_addr t b value first is_arg i l)
     (fun _ s' => sane t n size s' /\ Forall (fun c => fits t c size /\ aligned map_addr t c (loc c)) l /\
        buf s' = patched t value is_arg (zip l (drop i (m_states s))) (buf s))
     (fun e s' => length (buf s') = size /\
        (e = NotAligned /\ Exists (fun c => ~ aligned map_addr t c (loc c)) l \/
         e = OffsetExceedsBuffer /\ Exists (fun c => ~ fits t c size) l)) s.
Proof.
  induction l as [|c l IH]; intros i s Hr H0 Hn Hs; cbn [patch_locations length] in *.
  { by apply wp_ret. }
  inversion_clear H0 as [|? ? Hc Hl]. apply wp_bind.
  eapply wp_mono; [apply (patch_location_sane t b value first is_arg i c n size); done || lia| |].
  - intros _ s1 (Hs1 & Hf & Ha & Hd & ps & Hps & Hb1). eapply wp_mono; [apply IH; done || lia| |].
    + intros _ s2 (Hs2 & Hfl & Hb2). split_and!; [done|by constructor|].
      rewrite Hb2, Hd, (drop_S _ _ _ Hps), Hb1. done.
    + intros e s2 [? [[? ?]|[? ?]]]; (split; [done|]); [left|right]; (split; [done|]); by apply Exists_cons_tl.
  - intros e s1 [? [[? ?]|[? ?]]]; (split; [done|]); [left|right]; (split; [done|]); by apply Exists_cons_hd.
Qed.

Lemma sane_resize t n s :
  bytes (buf s) -> Forall (good_state t) (m_states s) ->
  sane t n (length (buf s))
    (if (length (m_states s) =? n)%nat then s
     else set_states (resize_states n (patch_words t) (m_states s)) s).
Proof.
  intros Hb Hg. unfold sane. destruct (Nat.eqb_spec (length (m_states s)) n); [done|].
  cbn [buf m_states set_states]. split_and!; try done.
  - unfold resize_states. rewrite length_app, length_take, length_replicate. lia.
  - apply Forall_app. split; [by apply Forall_take|]. apply Forall_replicate.
    split; cbn; [apply length_replicate|]. apply Forall_replicate. lia.
Qed.

(** C38: patching a symbol.  Whatever offsets a symbol's locations have, overlapping or not, and
    whatever the caches hold, a run of the patcher reads and writes only inside the instruction
    buffer and the caches and keeps the size of the buffer.  When it returns, every location fits
    and is aligned (which is checked for scalars with a mask), and the buffer is the old one with the new words of every location in turn, computed from the
    cached words of an argument that was patched before and from the words of the buffer otherwise.  Otherwise
    some location does not fit, or some location is not word aligned. *)
Theorem patch_symbol_memory_safe c value first is_arg s :
  supported (m_symbol_type c) -> Forall (fun d => 0 <= offset_to_patch_buffer d) (m_patch_configs c) ->
  bytes (buf s) -> Forall (good_state (m_symbol_type c)) (m_states s) ->
  let t := m_symbol_type c in
  let states := resize_states (length (m_patch_configs c)) (patch_words t) (m_states s) in
  match patch_symbol xemtarget map_addr (Some c) value first is_arg s with
  | Ok _ s' => length (buf s') = length (buf s) /\ bytes (buf s') /\
      Forall (fun d => fits t d (length (buf s)) /\ aligned map_addr t d (loc d)) (m_patch_configs c) /\
      buf s' = patched t value is_arg (zip (m_patch_configs c) states) (buf s)
  | Err OffsetExceedsBuffer s' => length (buf s') = length (buf s) /\
      Exists (fun d => ~ fits t d (length (buf s))) (m_patch_configs c)
  | Err NotAligned s' => length (buf s') = length (buf s) /\
      Exists (fun d => ~ aligned map_addr t d (loc d)) (m_patch_configs c)
  | Err _ _ => False
  end.
Proof.
  intros Hs H0 Hb Hg t states. destruct (supported_bytes _ Hs) as [b Hr].
  unfold patch_symbol. rewrite Hr. unfold bind at 1, modify.
  replace (Z.to_nat (b / 4)) with (patch_words (m_symbol_type c))
    by (unfold patch_words; by rewrite Hr).
  set (s0 := if (_ =? _)%nat then _ else _).
  assert (m_states s0 = states /\ buf s0 = buf s) as [Hst Hbf].
  { subst s0 states. destruct (Nat.eqb_spec (length (m_states s)) (length (m_patch_configs c))) as [E|]; [|done].
    split; [|done]. unfold resize_states. rewrite take_ge, E, Nat.sub_diag, app_nil_r by lia. done. }
  pose proof (patch_locations_sane (m_symbol_type c) b value first is_arg
    (length (m_patch_configs c)) (length (buf s)) (m_patch_configs c) 0 s0 Hr H0 ltac:(lia)
    (sane_resize _ (length (m_patch_configs c)) s Hb Hg)) as H. unfold wp in H.
  destruct (patch_locations _ _ _ _ _ _ _ _ _ _) as [a s'|e s'].
  - destruct H as ((? & ? & _) & ? & Hp). rewrite drop_0, Hst, Hbf in Hp. done.
  - destruct H as [? [[-> ?]|[-> ?]]]; done.
Qed.

(** ** Raw buffers *)

Lemma patch_symbol_raw_ok c value s :
  supported (m_symbol_type c) -> bytes (buf s) ->
  Forall (fun d => fits (m_symbol_type c) d (length (buf s))) (m_patch_configs c) ->
  Forall (fun d => aligned map_addr (m_symbol_type c) d (loc d)) (m_patch_configs c) ->
  patch_symbol_raw xemtarget map_addr value c s =
    Ok tt (set_buf (ref_patch (m_symbol_type c) value (m_patch_configs c) (buf s)) s).
Proof.
  intros Hs. destruct (supported_bytes _ Hs) as [b Hr]. unfold patch_symbol_raw. rewrite Hr.
  pose proof (required_words _ _ Hr) as Hbw. set (t := m_symbol_type c) in *.
  generalize (m_patch_configs c) as l. intros l. revert s. induction l as [|d l IH];
    intros s Hb Hf Ha; cbn [for_each]; [by destruct s|].
  inversion_clear Hf as [|? ? Hfd Hfl]. inversion_clear Ha as [|? ? Had Hal].
  pose proof (fits_loc _ _ _ Hfd) as Hp. pose proof Hfd as [? ?].
  unfold bind at 1. unfold bind at 1, gets.
  rewrite (proj2 (Z.ltb_ge _ _)), (proj2 (Z.ltb_ge _ _)) by lia. cbn [orb]. fold (loc d).
  unfold bind at 1. rewrite patch_one_ok by done. unfold ret at 1.
  rewrite IH; cbn [buf set_buf]; rewrite ?length_set_words; try done.
  apply bytes_set_words; [|done]. rewrite length_new_words, length_words_at. done.
Qed.

(** Raw patching agrees with the first patch of a symbol: on a buffer whose
    locations fit, do not overlap and are aligned, [patch_symbol_raw] leaves the
    same bytes as [patch_symbol] on a fresh patcher. *)
Theorem raw_patch_agrees c value first is_arg s :
  patchable c (length (buf s)) -> clean c s ->
  exists s1 s2, patch_symbol_raw xemtarget map_addr value c s = Ok tt s1 /\
    patch_symbol xemtarget map_addr (Some c) value first is_arg s = Ok tt s2 /\
    buf s1 = buf s2 /\ syncs s1 = syncs s.
Proof.
  intros Hp Hc. destruct (patch_symbol_clean c value first is_arg s Hp Hc)
    as (b & s2 & _ & Hrun & Hbuf & _). destruct Hp as [Hs Hf Ha _].
  rewrite patch_symbol_raw_ok by (done || apply Hc).
  eexists _, s2. split; [done|]. split; [done|]. by split.
Qed.
End locations.

(** * Synchronisation *)

Section sync.
Context (xemtarget : option string) (map_addr : Z).

Definition in_range (j : nat) (r : Z * Z) : Prop := r.2 <= Z.of_nat j < r.2 + r.1.

(** A patch of [pl_ddr_64] only changes the last two words of its window. *)
Lemma pl_ddr_changes c value m j :
  fits pl_ddr_64 c (length m) -> bytes m ->
  patch_at xemtarget pl_ddr_64 value c m !! j <> m !! j ->
  (loc c + 32 <= j < loc c + 40)%nat.
Proof.
  intros Hf Hb Hj. pose proof (fits_loc _ _ _ Hf) as Hp.
  change (patch_words pl_ddr_64) with 10%nat in Hp. unfold patch_at in Hj.
  fold (loc c) in Hj. cbn [new_words put_addr] in Hj. set (ws := words_at m (loc c) _) in Hj.
  assert (length ws = 10%nat) as Hl by apply length_words_at.
  rewrite <- set_word_set_words in Hj by (rewrite ?length_insert; lia).
  rewrite <- set_word_set_words in Hj by lia.
  unfold ws in Hj at 3. rewrite set_words_at in Hj by (done || cbn; lia).
  rewrite !lookup_set_word in Hj by (rewrite ?length_set_word; lia).
  repeat case_decide; try lia; done.
Qed.

Lemma patch_changes t b c value m j :
  required_patch_bytes t = Some b -> fits t c (length m) -> bytes m ->
  patch_at xemtarget t value c m !! j <> m !! j ->
  patches t c = true /\ in_range j (sync_range t b (offset_to_patch_buffer c)).
Proof.
  intros Hr Hf Hb Hj. pose proof Hf as [H0 Hfit]. pose proof (required_words t b Hr) as Hbw.
  assert (loc c <= j < loc c + 4 * patch_words t)%nat as Hin.
  { destruct (decide (loc c <= j < loc c + 4 * patch_words t)%nat); [done|]. exfalso. apply Hj.
    unfold patch_at. fold (loc c). apply (lookup_set_new xemtarget t c); [apply length_words_at|done|lia]. }
  split.
  - unfold patches. destruct t; try done. destruct (Z.eqb_spec (config_mask c) 0) as [Hm|]; [|done].
    exfalso. apply Hj. unfold patch_at. cbn [new_words]. rewrite Hm, Z.eqb_refl.
    by rewrite set_words_at by (done || by apply fits_loc).
  - destruct (decide (t = pl_ddr_64)) as [->|Ht].
    + pose proof (pl_ddr_changes c value m j Hf Hb Hj). unfold in_range, loc in *. cbn. lia.
    + assert (sync_range t b (offset_to_patch_buffer c) = (b, offset_to_patch_buffer c)) as ->
        by (destruct t; done). unfold in_range, loc in *. cbn. lia.
Qed.

Lemma ref_patch_changes t b value l m j :
  required_patch_bytes t = Some b -> Forall (fun c => fits t c (length m)) l -> bytes m ->
  ref_patch xemtarget t value l m !! j <> m !! j ->
  Exists (in_range j) (sync_log t b false l).
Proof.
  intros Hr. revert m. induction l as [|c l IH]; intros m Hf Hb Hj; [by destruct Hj|].
  inversion_clear Hf as [|? ? Hc Hl]. unfold sync_log. cbn [fmap list_fmap concat].
  apply Exists_app. cbn [ref_patch foldl] in Hj.
  change (ref_patch xemtarget t value l (patch_at xemtarget t value c m) !! j <> m !! j) in Hj.
  destruct (decide (patch_at xemtarget t value c m !! j = m !! j)) as [Heq|Hne].
  - right. apply (IH (patch_at xemtarget t value c m)).
    + by rewrite length_patch_at.
    + by apply bytes_patch_at.
    + by rewrite Heq.
  - left. destruct (patch_changes t b c value m j Hr Hc Hb Hne) as [-> Hin]. by constructor.
Qed.

(** Every byte a patch changes is synchronised.  When a symbol is patched
    with synchronisation on, each byte of the buffer that differs afterwards lies
    in one of the ranges that were synced to the device. *)
Theorem patch_syncs_changes c value is_arg s :
  patchable map_addr c (length (buf s)) -> clean c s ->
  exists s' log, patch_symbol xemtarget map_addr (Some c) value false is_arg s = Ok tt s' /\
    syncs s' = syncs s ++ log /\
    forall j, buf s' !! j <> buf s !! j -> Exists (in_range j) log.
Proof.
  intros Hp Hc. destruct (patch_symbol_clean xemtarget map_addr c value false is_arg s Hp Hc)
    as (b & s' & Hr & Hrun & Hbuf & Hsync & _). exists s'. eexists. split; [done|].
  split; [done|]. intros j Hj. rewrite Hbuf in Hj.
  eapply ref_patch_changes; [done|apply Hp|apply Hc|done].
Qed.

(** Scalars.  Patching a 32-bit scalar replaces exactly the bits of the mask
    by those of the value. *)
Theorem patch32_masked p value k s :
  Z.land (map_addr + Z.of_nat p) 0x3 = 0 -> bytes (buf s) -> (p + 4 <= length (buf s))%nat ->
  0 <= k < 2 ^ 32 ->
  exists s', patch32 map_addr p value k s = Ok tt s' /\
    (forall i, 0 <= i -> Z.testbit (word_at (buf s') p) i =
       if Z.testbit k i then Z.testbit value i else Z.testbit (word_at (buf s) p) i) /\
    (forall j, (j < p \/ p + 4 <= j)%nat -> buf s' !! j = buf s !! j).
Proof.
  intros Ha Hb Hp Hk.
  pose proof (patch32_win map_addr p value k s (buf s) (words_at (buf s) p 1) Ha eq_refl
    ltac:(lia) (words_at_words _ _ _ Hb)) as Hrun. rewrite win_self in Hrun by (done || lia).
  eexists. split; [exact Hrun|]. unfold win. cbn [buf set_buf words_at insert list_insert lookup_total
    list_lookup_total set_words]. rewrite word_at_set_word by (done || apply u32_range). split.
  - pose proof (word_at_range (buf s) p Hb) as Hw. set (w := word_at (buf s) p) in *.
    intros i Hi. replace (2 ^ 32 - 1 - k) with (Z.ldiff (Z.ones 32) k).
    + unfold u32. rewrite testbit_mod, Z.lor_spec, !Z.land_spec, Z.ldiff_spec, testbit_ones by lia.
      destruct (Z.ltb_spec i 32); cbn [andb].
      * destruct (Z.testbit k i), (Z.testbit w i), (Z.testbit value i); done.
      * by rewrite (testbit_high k 32), (testbit_high w 32) by lia.
    + rewrite <- Z.sub_nocarry_ldiff; [done|]. zbits.
  - intros j Hj. rewrite lookup_set_word by done. case_decide; [lia|done].
Qed.
End sync.

(** * Names *)

Lemma string_app_digit a b (x y : ascii) :
  (a +:+ String x EmptyString)%string = (b +:+ String y EmptyString)%string -> a = b /\ x = y.
Proof.
  revert b. induction a as [|ca a IH]; intros [|cb b] H; cbn in H.
  - by injection H as ->.
  - injection H as _ H. by destruct b.
  - injection H as _ H. by destruct a.
  - injection H as -> H. destruct (IH b H) as [-> ->]. done.
Qed.

(** The key of a patcher determines the argument name and the buffer type. *)
Theorem generate_key_string_inj a b t u :
  generate_key_string a t = generate_key_string b u -> a = b /\ t = u.
Proof.
  intros H. apply string_app_digit in H as [-> H]. split; [done|]. by destruct t, u.
Qed.

Lemma rfind_dot_none s : "."%char ∉ s -> rfind_dot s = None.
Proof.
  induction s as [|c s IH]; intros H; [done|]. cbn. apply not_elem_of_cons in H as [H1 H2].
  rewrite IH by done. case_decide; congruence.
Qed.

Lemma rfind_dot_app s g : "."%char ∉ g -> rfind_dot (s ++ "."%char :: g) = Some (length s).
Proof.
  intros Hg. induction s as [|c s IH]; cbn; [|by rewrite IH]. rewrite rfind_dot_none by done.
  by case_decide.
Qed.

(** The symbol name of a section.  The group index after the last dot is
    removed; a name without a dot after its first character is kept. *)
Theorem symbol_name_drops_group s g :
  "."%char ∉ g ->
  get_symbol_name_from_section_name (s ++ "."%char :: g) =
    (if decide (s = []) then "."%char :: g else s) /\
  get_symbol_name_from_section_name g = g.
Proof.
  intros Hg. unfold get_symbol_name_from_section_name.
  rewrite rfind_dot_app, rfind_dot_none by done. split; [|done].
  destruct s as [|c s]; cbn; [by case_decide|]. case_decide; [done|].
  f_equal. by rewrite take_app_length.
Qed.

(** * Witnesses *)

Definition sample_buf : list Z := replicate 96 1.
Definition sample_config : patcher_config :=
  PatcherConfig shim_dma_base_addr_symbol_kind ctrltext [PatchConfig 0 16 0; PatchConfig 40 32 0].
Definition sample_state : state := State (new_symbol_patcher sample_config) sample_buf [].

Lemma sample_bytes : bytes (buf sample_state).
Proof. apply Forall_replicate. lia. Qed.

Lemma sample_clean : clean sample_config sample_state.
Proof. split; [done|apply sample_bytes]. Qed.

Lemma sample_patchable : patchable 0 sample_config (length (buf sample_state)).
Proof.
  split; [done| | |]; cbn.
  - repeat constructor; by vm_compute.
  - repeat constructor; done.
  - repeat constructor; vm_compute; lia.
Qed.

Lemma patch_adds_address_witness :
  exists s', patch_one None 0 shim_dma_base_addr_symbol_kind (PatchConfig 0 16 0) 0 0x1000 sample_state
    = Ok true s' /\
    addr_field shim_dma_base_addr_symbol_kind (words_at (buf s') 0 9) = 0x101010101011111.
Proof.
  destruct (patch_adds_address None 0 shim_dma_base_addr_symbol_kind 57 (PatchConfig 0 16 0) 0 0x1000
    sample_state eq_refl sample_bytes ltac:(vm_compute; lia)) as (s' & Hrun & _ & _ & [Ha _] & _).
  exists s'. split; [exact Hrun|]. etransitivity; [exact Ha|]. by vm_compute.
Defined.

Lemma patch48_address_witness :
  exists s', patch_one None 0 shim_dma_48 (PatchConfig 0 16 0) 0 0x1000 sample_state = Ok true s' /\
    Z.shiftr (hi48 shim_dma_48 (words_at (buf s') 0 3)) 16 = 0x0101.
Proof.
  destruct (patch48_address None 0 shim_dma_48 (PatchConfig 0 16 0) 0 0x1000
    sample_state eq_refl sample_bytes ltac:(vm_compute; lia)) as (s' & Hrun & _ & Hh).
  exists s'. split; [exact Hrun|]. etransitivity; [exact Hh|]. by vm_compute.
Defined.

Lemma repatch_argument_witness :
  exists s1 s2 s3,
    for_each [0x1000; 0x2000]
      (fun v => patch_symbol None 0 (Some sample_config) v false true) sample_state = Ok tt s1 /\
    patch_symbol None 0 (Some sample_config) 0x3000 false true s1 = Ok tt s2 /\
    patch_symbol None 0 (Some sample_config) 0x3000 false true sample_state = Ok tt s3 /\
    buf s2 = buf s3.
Proof.
  exact (repatch_argument None 0 sample_config [0x1000; 0x2000] 0x3000 false sample_state
    sample_patchable sample_clean).
Defined.

Lemma patch_symbol_memory_safe_witness :
  length sample_buf = 96%nat /\ Exists (fun d => ~ fits shim_dma_48 d 96) [PatchConfig 0 0 0; PatchConfig 88 0 0].
Proof.
  pose proof (patch_symbol_memory_safe None 0
    (PatcherConfig shim_dma_48 ctrltext [PatchConfig 0 0 0; PatchConfig 88 0 0])
    0x1000 false true (State [] sample_buf []) ltac:(done)
    ltac:(repeat constructor; cbn; lia) sample_bytes ltac:(constructor)) as H.
  split; [by vm_compute|]. apply proj2 in H. vm_compute in H |- *. exact H.
Defined.

Lemma raw_patch_agrees_witness :
  exists s1 s2, patch_symbol_raw None 0 0x1000 sample_config sample_state = Ok tt s1 /\
    patch_symbol None 0 (Some sample_config) 0x1000 true true sample_state = Ok tt s2 /\
    buf s1 = buf s2 /\ syncs s1 = syncs sample_state.
Proof.
  exact (raw_patch_agrees None 0 sample_config 0x1000 true true sample_state
    sample_patchable sample_clean).
Defined.

Lemma patch_syncs_changes_witness :
  exists s' log, patch_symbol None 0 (Some sample_config) 0x1000 false true sample_state = Ok tt s' /\
    syncs s' = syncs sample_state ++ log /\
    forall j, buf s' !! j <> buf sample_state !! j -> Exists (in_range j) log.
Proof.
  exact (patch_syncs_changes None 0 sample_config 0x1000 true sample_state
    sample_patchable sample_clean).
Defined.

Lemma patch32_masked_witness :
  exists s', patch32 0 4 0x00550000 0x00ff0000 sample_state = Ok tt s' /\
    Z.testbit (word_at (buf s') 4) 16 = true.
Proof.
  destruct (patch32_masked 0 4 0x00550000 0x00ff0000 sample_state eq_refl sample_bytes
    ltac:(vm_compute; lia) ltac:(lia)) as (s' & Hrun & Hb & _).
  exists s'. split; [exact Hrun|]. etransitivity; [exact (Hb 16 ltac:(lia))|]. by vm_compute.
Defined.

Lemma generate_key_string_inj_witness : "arg0"%string = "arg0"%string /\ pdi = pdi.
Proof. apply (generate_key_string_inj "arg0" "arg0" pdi pdi). reflexivity. Defined.

Lemma symbol_name_drops_group_witness :
  get_symbol_name_from_section_name
    (String.list_ascii_of_string ".ctrlpkt-57" ++ "."%char :: String.list_ascii_of_string "1") =
  String.list_ascii_of_string ".ctrlpkt-57".
Proof.
  refine (proj1 (symbol_name_drops_group (String.list_ascii_of_string ".ctrlpkt-57")
    (String.list_ascii_of_string "1") _)).
  cbn. intros [H|H]%elem_of_cons; [discriminate|]. by apply elem_of_nil in H.
Defined.
