(* ===== verification/CppStd.v ===== *)
(** What the host code uses of the C++ standard library and of the property
    tree: strings with [find], [substr], [stoul] and [stoi], sorting, and
    [boost::property_tree::ptree] as the tree of keys and data it documents. *)

From Stdlib Require Import Ascii Sorting.Permutation Sorting.Sorted.
From S2P Require Import Prelude.

(** * Exceptions *)

Inductive exn :=
| invalid_argument | out_of_range | ptree_bad_path | ptree_bad_data
| runtime_error (msg : string) | xrt_error (msg : string)
| bad_read    (** a read outside the image, undefined in C++ *)
| bad_write.  (** a write outside the buffer, undefined in C++ *)

(** A routine without state. *)
Definition fallible : Type -> Type := M unit exn.

(** * Strings *)

Definition chars (s : string) : list ascii := String.list_ascii_of_string s.

Fixpoint is_prefix (p l : list ascii) : bool :=
  match p, l with
  | [], _ => true
  | _, [] => false
  | x :: p', y :: l' => if decide (x = y) then is_prefix p' l' else false
  end.

(** Position of the first occurrence of [p] in [l]; [std::string::find]. *)
Fixpoint find_str (p l : list ascii) : option nat :=
  if is_prefix p l then Some 0%nat else
  match l with
  | [] => None
  | _ :: l' => S <$> find_str p l'
  end.

(** [l.find(p, pos)]. *)
Definition find_from (p l : list ascii) (pos : nat) : option nat :=
  Nat.add pos <$> find_str p (drop pos l).

Definition is_space (c : ascii) : bool :=
  let n := nat_of_ascii c in (n =? 32)%nat || ((9 <=? n) && (n <=? 13))%nat.

Fixpoint skip_space (l : list ascii) : list ascii :=
  match l with
  | c :: l' => if is_space c then skip_space l' else l
  | [] => []
  end.

(** Value of a digit of any base. *)
Definition digit_value (c : ascii) : option Z :=
  let n := Z.of_nat (nat_of_ascii c) in
  if (48 <=? n) && (n <=? 57) then Some (n - 48)
  else if (97 <=? n) && (n <=? 122) then Some (n - 87)
  else if (65 <=? n) && (n <=? 90) then Some (n - 55)
  else None.

Definition digit_in (base : Z) (c : ascii) : option Z :=
  match digit_value c with
  | Some d => if d <? base then Some d else None
  | None => None
  end.

(** The longest prefix of digits; [None] when there is none. *)
Fixpoint digits (base acc : Z) (l : list ascii) : Z * list ascii :=
  match l with
  | c :: l' => match digit_in base c with
               | Some d => digits base (acc * base + d) l'
               | None => (acc, l)
               end
  | [] => (acc, [])
  end.
Definition number (base : Z) (l : list ascii) : option (Z * list ascii) :=
  match l with
  | c :: _ => match digit_in base c with Some _ => Some (digits base 0 l) | None => None end
  | [] => None
  end.

Definition sign (l : list ascii) : bool * list ascii :=
  match l with
  | c :: l' => if Ascii.eqb c "-" then (true, l') else
               if Ascii.eqb c "+" then (false, l') else (false, l)
  | [] => (false, l)
  end.

Definition is_hex (l : list ascii) : bool :=
  match l with
  | x :: d :: _ => (Ascii.eqb x "x" || Ascii.eqb x "X") &&
                   match digit_in 16 d with Some _ => true | None => false end
  | _ => false
  end.

(** The base that [strtoul] deduces from the prefix, and the digits. *)
Definition auto_base (l : list ascii) : Z * list ascii :=
  match l with
  | c :: l' => if Ascii.eqb c "0" then (if is_hex l' then (16, drop 1 l') else (8, l)) else (10, l)
  | [] => (10, l)
  end.

(** [std::stoul(str, nullptr, 0)]. *)
Definition stoul0 (s : list ascii) : fallible Z :=
  let '(neg, l) := sign (skip_space s) in
  let '(base, l) := auto_base l in
  match number base l with
  | None => raise invalid_argument
  | Some (v, _) =>
      if 2 ^ 64 <=? v then raise out_of_range
      else ret (if neg : bool then u64 (- v) else v)
  end.

(** [std::stoi(str)]. *)
Definition stoi (s : list ascii) : fallible Z :=
  let '(neg, l) := sign (skip_space s) in
  match number 10 l with
  | None => raise invalid_argument
  | Some (v, _) =>
      let v := if neg : bool then - v else v in
      if (v <? - 2 ^ 31) || (2 ^ 31 <=? v) then raise out_of_range else ret v
  end.

(** Extraction of an unsigned number from a stream that must be consumed. *)
Definition read_unsigned (width : Z) (s : list ascii) : fallible Z :=
  let '(neg, l) := sign (skip_space s) in
  match number 10 l with
  | None => raise ptree_bad_data
  | Some (v, rest) =>
      if 2 ^ width <=? v then raise ptree_bad_data
      else if negb (match skip_space rest with [] => true | _ => false end) then raise ptree_bad_data
      else ret (if neg : bool then (- v) mod 2 ^ width else v)
  end.

(** * Sorting *)

(** What [std::sort] and [std::stable_sort] require of a comparison. *)
Record strict_weak_order {A} (lt : A -> A -> bool) : Prop := {
  swo_irrefl : forall x, lt x x = false;
  swo_trans : forall x y z, lt x y = true -> lt y z = true -> lt x z = true;
  swo_incomp : forall x y z, lt x y = false -> lt y z = false -> lt x z = false;
}.

(** No element comes before one that must precede it. *)
Definition sorted_by {A} (lt : A -> A -> bool) (l : list A) : Prop :=
  StronglySorted (fun x y => lt y x = false) l.

(** [std::sort]: the order of equivalent elements is not specified. *)
Class StdSort := {
  std_sort : forall {A}, (A -> A -> bool) -> list A -> list A;
  std_sort_perm : forall {A} (lt : A -> A -> bool) l, Permutation (std_sort lt l) l;
  std_sort_sorted : forall {A} (lt : A -> A -> bool) l,
    strict_weak_order lt -> sorted_by lt (std_sort lt l);
}.

(** [std::stable_sort] is determined; it is given by insertion. *)
Fixpoint insert_sorted {A} (lt : A -> A -> bool) (x : A) (l : list A) : list A :=
  match l with
  | [] => [x]
  | y :: l' => if lt y x then y :: insert_sorted lt x l' else x :: l
  end.
Definition stable_sort {A} (lt : A -> A -> bool) (l : list A) : list A :=
  foldr (insert_sorted lt) [] l.

(** * Property trees *)

#[warnings="-register-all"]
Inductive ptree := Node (data : string) (children : list (string * ptree)).

Definition data (t : ptree) : string := let 'Node d _ := t in d.
Definition children (t : ptree) : list (string * ptree) := let 'Node _ l := t in l.

Definition assoc (k : string) (l : list (string * ptree)) : option ptree :=
  snd <$> List.find (fun kv => String.eqb kv.1 k) l.

(** [get_child_optional] of a path. *)
Fixpoint get_child_optional (path : list string) (t : ptree) : option ptree :=
  match path with
  | [] => Some t
  | k :: path' => match assoc k (children t) with
                  | Some t' => get_child_optional path' t'
                  | None => None
                  end
  end.
Definition get_child (path : list string) (t : ptree) : fallible ptree :=
  match get_child_optional path t with Some t' => ret t' | None => raise ptree_bad_path end.

(** [get<std::string>(path)], and with a default. *)
Definition get_string (path : list string) (t : ptree) : fallible string :=
  c <- get_child path t ;; ret (data c).
Definition get_string_or (path : list string) (dflt : string) (t : ptree) : string :=
  match get_child_optional path t with Some c => data c | None => dflt end.
(** [get<T>(path)] for an unsigned [T]. *)
Definition get_unsigned (width : Z) (path : list string) (t : ptree) : fallible Z :=
  c <- get_child path t ;; read_unsigned width (chars (data c)).

Definition xmlattr (a : string) : list string := ["<xmlattr>"%string; a].

(** * Sorting lemmas *)

Lemma insert_sorted_perm {A} (lt : A -> A -> bool) x l :
  Permutation (insert_sorted lt x l) (x :: l).
Proof.
  induction l as [|y l IH]; cbn; [done|]. destruct (lt y x); [|done].
  rewrite IH. apply Permutation_swap.
Qed.

Lemma stable_sort_perm {A} (lt : A -> A -> bool) l : Permutation (stable_sort lt l) l.
Proof. induction l as [|x l IH]; cbn; [done|]. by rewrite insert_sorted_perm, IH. Qed.

Lemma insert_sorted_sorted {A} (lt : A -> A -> bool) x l :
  strict_weak_order lt -> sorted_by lt l -> sorted_by lt (insert_sorted lt x l).
Proof.
  intros Hlt Hl. unfold sorted_by in *.
  induction Hl as [|y l Hl IH Hy]; cbn; [by repeat constructor|].
  destruct (lt y x) eqn:Hyx.
  - constructor; [done|]. rewrite insert_sorted_perm. constructor; [|done].
    destruct (lt x y) eqn:Hxy; [|done].
    pose proof (swo_trans _ Hlt _ _ _ Hxy Hyx) as H. by rewrite (swo_irrefl _ Hlt) in H.
  - constructor; [by constructor|]. constructor; [done|]. eapply Forall_impl; [exact Hy|].
    cbn. intros z Hz. by eapply (swo_incomp _ Hlt); [exact Hz|].
Qed.

Lemma stable_sort_sorted {A} (lt : A -> A -> bool) l :
  strict_weak_order lt -> sorted_by lt (stable_sort lt l).
Proof.
  intros Hlt. induction l as [|x l IH]; cbn; [constructor|]. by apply insert_sorted_sorted.
Qed.

(** Insertion sort is one admissible [std::sort]. *)
Definition insertion_sort : StdSort := {|
  std_sort := @stable_sort;
  std_sort_perm := @stable_sort_perm;
  std_sort_sorted := @stable_sort_sorted;
|}.

Lemma ltb_strict_weak {A} (key : A -> Z) : strict_weak_order (fun x y => key x <? key y).
Proof. split; intros *; rewrite ?Z.ltb_lt, ?Z.ltb_ge; lia. Qed.
