(* ===== verification/XclbinLayout.v ===== *)
(** Compute units and memory banks of an xclbin,
    [src/runtime_src/core/common/xclbin_parser.cpp]: the tables of the IP_LAYOUT,
    DEBUG_IP_LAYOUT and MEM_TOPOLOGY sections and what the runtime derives from
    them: the order and index of every CU, its encoded address, its control
    protocol, and the bank of an address.

    A table is the list of the entries its count names; the configuration and
    the environment that the code reads are parameters. *)

From Stdlib Require Import Ascii Sorting.Permutation Sorting.Sorted.
From S2P Require Import Prelude CppStd.

(** * Tables *)

(** [enum IP_TYPE] values that the code tests, and the property bits. *)
Definition IP_KERNEL : Z := 1.
Definition IP_PS_KERNEL : Z := 7.
Definition IP_INTERRUPT_ID_MASK : Z := 0x00FE.
Definition IP_CONTROL_MASK : Z := 0xFF00.
Definition IP_CONTROL_SHIFT : Z := 0x8.
Definition AP_CTRL_HS : Z := 0.
Definition AP_CTRL_CHAIN : Z := 1.
Definition MEM_STREAMING : Z := 3.
Definition MEM_STREAMING_CONNECTION : Z := 9.
Definition AXI_MONITOR_FIFO_LITE : Z := 5.
Definition AXI_MONITOR_FIFO_FULL : Z := 6.

Record ip_data := IpData {
  m_type : Z;
  properties : Z;
  m_base_address : Z;
  m_name : string;
}.
Abbreviation ip_layout := (list ip_data).

Record mem_data := MemData {
  mem_type : Z;
  m_used : Z;
  m_size : Z;
  mem_base_address : Z;
  m_tag : string;
}.
Abbreviation mem_topology := (list mem_data).

Record debug_ip_data := DebugIpData { debug_type : Z; debug_base_address : Z }.

(** [struct cuidx_type]. *)
Record cuidx_type := CuIdx { domain : Z; domain_index : Z }.

(** [static_cast<size_t>(-1)]: the address of a streaming CU. *)
Definition no_address : Z := 2 ^ 64 - 1.

(** * Compute units *)

Definition is_valid_cu (ip : ip_data) : bool :=
  if m_type ip =? IP_KERNEL then true
  else if m_type ip =? IP_PS_KERNEL then true
  else false.

Definition interrupt_id (ip : ip_data) : Z := Z.land (properties ip) IP_INTERRUPT_ID_MASK.
Definition control (ip : ip_data) : Z :=
  Z.shiftr (Z.land (properties ip) IP_CONTROL_MASK) IP_CONTROL_SHIFT.

(** Counts CUs and CUs without an interrupt id. *)
Definition is_legacy_cu_intr (ips : ip_layout) : bool :=
  let '(cu_cnt, intr_cnt) :=
    foldl (fun '(cu_cnt, intr_cnt) ip =>
      if negb (is_valid_cu ip) then (cu_cnt, intr_cnt)
      else (cu_cnt + 1, if interrupt_id ip =? 0 then intr_cnt + 1 else intr_cnt)) (0, 0) ips in
  cu_cnt =? intr_cnt.

Definition compare_intr_id (l r : ip_data) : bool :=
  if m_base_address l =? no_address then false
  else if m_base_address r =? no_address then true
  else interrupt_id l <? interrupt_id r.

Definition get_base_addr (ip : ip_data) : Z :=
  if m_base_address ip =? no_address then Z.land (2 ^ 64 - 1) (2 ^ 64 - 1 - 0xFF)
  else m_base_address ip.

Section layout.
Context {SS : StdSort}.
(** [config::get_kernel_channel_info] and XCL_EMULATION_MODE. *)
Context (kernel_channel_info : string) (xcl_emulation_mode : string).

Definition is_sw_emulation : bool := String.eqb xcl_emulation_mode "sw_emu".

(** The context id configured for a kernel as "{name:id}". *)
Definition kernel_max_ctx (ip : ip_data) : fallible Z :=
  let ctx := chars kernel_channel_info in
  match ctx with
  | [] => ret 0
  | _ =>
      let knm := chars (m_name ip) in
      let knm := match find_str (chars ":") knm with Some n => take n knm | None => knm end in
      match find_str (chars "{" ++ knm ++ chars ":") ctx with
      | None => ret 0
      | Some pos1 =>
          match find_from (chars "}") ctx pos1 with
          | None => ret 0
          | Some pos2 =>
              let start := (pos1 + length knm + 2)%nat in
              if (pos2 <? start)%nat then ret 0 else
              ctxid <- stoi (take pos2 (drop start ctx)) ;;
              if (ctxid <? 0) || (31 <? ctxid)
              then raise (runtime_error "context id must be between 0 and 31")
              else ret ctxid
          end
      end
  end.

Definition encode_addr (encode : bool) (ip : ip_data) : fallible Z :=
  let addr := get_base_addr ip in
  if negb encode then ret addr else
  ctx <- kernel_max_ctx ip ;;
  ret (Z.lor (Z.lor addr (control ip)) (Z.shiftl ctx 3)).

(** Evaluate a fallible function on every element, in order. *)
Fixpoint map_fallible {A B} (f : A -> fallible B) (l : list A) : fallible (list B) :=
  match l with
  | [] => ret []
  | x :: l' => y <- f x ;; ys <- map_fallible f l' ;; ret (y :: ys)
  end.

(** CU base addresses in index order. *)
Definition get_cus (layout : ip_layout) (encode : bool) : fallible (list Z) :=
  let ips := List.filter is_valid_cu layout in
  let ips := if is_legacy_cu_intr layout then ips else std_sort compare_intr_id ips in
  cus <- map_fallible (encode_addr encode) ips ;;
  ret (if is_legacy_cu_intr layout then std_sort Z.ltb cus else cus).

Fixpoint index_of (a : Z) (l : list Z) : option nat :=
  match l with
  | [] => None
  | x :: l' => if x =? a then Some 0%nat else S <$> index_of a l'
  end.

(** [std::map::emplace]: an existing key is kept. *)
Definition emplace {A} (k : string) (v : A) (m : gmap string A) : gmap string A :=
  match m !! k with Some _ => m | None => <[k := v]> m end.

(** One entry of the table; [ps] is the index of the next PS kernel. *)
Definition cu_index_step (cus : list Z) (st : Z * gmap string cuidx_type) (ip : ip_data)
    : Z * gmap string cuidx_type :=
  let '(ps, cu2idx) := st in
  if negb (is_valid_cu ip) then st
  else if m_type ip =? IP_PS_KERNEL then
    (u16 (ps + 1), emplace (m_name ip) (CuIdx 1 ps) cu2idx)
  else
    match index_of (m_base_address ip) cus with
    | None => st
    | Some n => (ps, emplace (m_name ip) (CuIdx 0 (u16 (Z.of_nat n))) cu2idx)
    end.

Definition get_cu_indices (layout : ip_layout) : fallible (gmap string cuidx_type) :=
  cus <- get_cus layout false ;;
  ret (foldl (cu_index_step cus) (0, ∅) layout).2.

Definition get_ip_name (layout : ip_layout) (addr : Z) : fallible string :=
  match List.find (fun ip => m_base_address ip =? addr) layout with
  | Some ip => ret (m_name ip)
  | None => raise (runtime_error "No IP with base address")
  end.

Definition debug_ip_size (d : debug_ip_data) : Z :=
  if (debug_type d =? AXI_MONITOR_FIFO_LITE) || (debug_type d =? AXI_MONITOR_FIFO_FULL)
  then 0x2000 else 0x10000.

Definition pair_ltb (x y : Z * Z) : bool :=
  (x.1 <? y.1) || ((x.1 =? y.1) && (x.2 <? y.2)).

(** [None] is a missing section. *)
Definition get_debug_ips (layout : option (list debug_ip_data)) : list (Z * Z) :=
  match layout with
  | None => []
  | Some l => std_sort pair_ltb ((fun d => (debug_base_address d, debug_ip_size d)) <$> l)
  end.

Definition get_cu_control (layout : option ip_layout) (cuaddr : Z) : fallible Z :=
  match layout with
  | None => if is_sw_emulation then ret AP_CTRL_HS
            else raise (runtime_error "No such CU at address")
  | Some l =>
      match List.find (fun ip =>
        (if m_base_address ip =? no_address then 2 ^ 64 - 1 else m_base_address ip) =? cuaddr) l with
      | Some ip => ret (control ip)
      | None => raise (runtime_error "No such CU at address")
      end
  end.

Definition get_cu_base_offset (layout : option ip_layout) : Z :=
  match layout with
  | None => 0
  | Some l => foldl (fun base ip =>
      if is_valid_cu ip then Z.min base (get_base_addr ip) else base) (2 ^ 32 - 1) l
  end.

Definition get_cuisr (layout : option ip_layout) : bool :=
  match layout with
  | None => false
  | Some l => negb (existsb (fun ip => is_valid_cu ip && (Z.land (properties ip) 0x1 =? 0)) l)
  end.

Definition get_dataflow (layout : option ip_layout) : bool :=
  match layout with
  | None => false
  | Some l => existsb (fun ip => is_valid_cu ip && (control ip =? AP_CTRL_CHAIN)) l
  end.

Definition get_cus_pair (layout : ip_layout) : fallible (list (Z * Z)) :=
  cus <- get_cus layout false ;; ret ((fun cu => (cu, 0x10000)) <$> cus).

(** * Memory banks *)

(** [None] is a null topology; a negative index reads before the table. *)
Definition memidx_to_name (topology : option mem_topology) (midx : Z) (to_string : Z -> string)
    : fallible string :=
  match topology with
  | None => ret (to_string midx)
  | Some l =>
      if Z.of_nat (length l) <=? midx then ret (to_string midx) else
      match zlookup l midx with Some md => ret (m_tag md) | None => raise bad_read end
  end.

(** A bank that may hold the address. *)
Definition bank_holds (address : Z) (mem : mem_data) : bool :=
  negb (m_used mem =? 0) &&
  negb (mem_type mem =? MEM_STREAMING) &&
  negb (mem_type mem =? MEM_STREAMING_CONNECTION) &&
  negb (address <? mem_base_address mem) &&
  negb (u64 (mem_base_address mem + u64 (m_size mem * 1024)) <? address).

(** The loop from the last bank to the first. *)
Fixpoint bank_search (address : Z) (l : mem_topology) (n : nat) : Z :=
  match n with
  | O => 2 ^ 31 - 1
  | S idx => match l !! idx with
             | Some mem => if bank_holds address mem then Z.of_nat idx else bank_search address l idx
             | None => bank_search address l idx
             end
  end.

Definition address_to_memidx (l : mem_topology) (address : Z) : Z :=
  if is_sw_emulation then 0 else bank_search address l (length l).

Fixpoint first_used (l : mem_topology) (i : Z) : Z :=
  match l with
  | [] => -1
  | mem :: l' => if negb (m_used mem =? 0) then i else first_used l' (i + 1)
  end.

Definition get_first_used_mem (topology : option mem_topology) : Z :=
  match topology with None => -1 | Some l => first_used l 0 end.

End layout.

(** * Properties *)

Lemma compare_swo : strict_weak_order compare_intr_id.
Proof.
  unfold compare_intr_id. split; [intros x|intros x y z|intros x y z];
    repeat (case_match; try done); rewrite ?Z.ltb_lt, ?Z.ltb_ge; try lia; congruence.
Qed.

(** Sorting CUs by interrupt id is well defined: the comparison is a strict
    weak order, and it puts every streaming CU after every addressable one. *)
Theorem compare_intr_id_order :
  strict_weak_order compare_intr_id /\
  (forall l r, m_base_address l <> no_address -> m_base_address r = no_address ->
     compare_intr_id l r = true) /\
  (forall l r, m_base_address l <> no_address -> m_base_address r <> no_address ->
     compare_intr_id l r = (interrupt_id l <? interrupt_id r)).
Proof.
  split; [apply compare_swo|]. unfold compare_intr_id. split; intros l r Hl Hr.
  - rewrite (proj2 (Z.eqb_neq _ _)) by done. by rewrite (proj2 (Z.eqb_eq _ _)).
  - by rewrite !(proj2 (Z.eqb_neq _ _)).
Qed.

Lemma map_fallible_ret {A B} (f : A -> fallible B) (g : A -> B) l :
  (forall x, f x tt = Ok (g x) tt) -> map_fallible f l tt = Ok (g <$> l) tt.
Proof.
  intros H. induction l as [|x l IH]; [done|]. cbn. unfold bind. by rewrite H, IH.
Qed.

Section order.
Context {SS : StdSort} (info : string).

(** The CUs of a layout in index order. *)
Definition ordered_cus (layout : ip_layout) : list Z :=
  let ips := List.filter is_valid_cu layout in
  if is_legacy_cu_intr layout then std_sort Z.ltb (get_base_addr <$> ips)
  else get_base_addr <$> std_sort compare_intr_id ips.

Lemma get_cus_ok layout : get_cus info layout false tt = Ok (ordered_cus layout) tt.
Proof.
  unfold get_cus, bind, ordered_cus. rewrite (map_fallible_ret _ get_base_addr) by done. cbn.
  by destruct (is_legacy_cu_intr layout).
Qed.

Lemma ordered_cus_perm layout :
  Permutation (ordered_cus layout) (get_base_addr <$> List.filter is_valid_cu layout).
Proof.
  unfold ordered_cus. destruct (is_legacy_cu_intr layout); [apply std_sort_perm|].
  apply fmap_Permutation, std_sort_perm.
Qed.

Lemma Z_ltb_swo : strict_weak_order Z.ltb.
Proof. exact (ltb_strict_weak (fun x => x)). Qed.

(** The order of the CUs.  The list of CU addresses holds every valid CU of
    the layout once; without interrupt ids it is sorted by address, with them it
    follows the interrupt ids, streaming CUs last. *)
Theorem get_cus_order layout :
  exists cus, get_cus info layout false tt = Ok cus tt /\
    Permutation cus (get_base_addr <$> List.filter is_valid_cu layout) /\
    (is_legacy_cu_intr layout = true -> StronglySorted Z.le cus) /\
    (is_legacy_cu_intr layout = false -> exists ips, cus = get_base_addr <$> ips /\
       Permutation ips (List.filter is_valid_cu layout) /\ sorted_by compare_intr_id ips).
Proof.
  exists (ordered_cus layout). split; [apply get_cus_ok|]. split; [apply ordered_cus_perm|].
  unfold ordered_cus. split; intros ->.
  - eapply StronglySorted_ind with (P := fun l => StronglySorted Z.le l);
      [constructor| |exact (std_sort_sorted Z.ltb _ Z_ltb_swo)].
    intros a l _ IH Ha. constructor; [done|]. eapply Forall_impl; [exact Ha|].
    cbn. intros b Hb. by apply Z.ltb_ge in Hb.
  - eexists. split; [done|]. split; [apply std_sort_perm|].
    apply std_sort_sorted, compare_swo.
Qed.

(** ** CU indices *)

Lemma index_of_Some a l n : index_of a l = Some n -> l !! n = Some a.
Proof.
  revert n. induction l as [|x l IH]; intros n H; [done|]. cbn in H.
  destruct (Z.eqb_spec x a) as [->|]; [by injection H as <-|].
  destruct (index_of a l) as [k|]; [|done]. injection H as <-. by apply IH.
Qed.

Lemma index_of_in a l : a ∈ l -> exists n, index_of a l = Some n.
Proof.
  induction l as [|x l IH]; [by intros ?%elem_of_nil|]. intros H. cbn.
  destruct (Z.eqb_spec x a) as [->|Hne]; [eauto|].
  apply elem_of_cons in H as [->|H]; [done|]. destruct (IH H) as [n ->]. cbn. eauto.
Qed.

Lemma index_of_notin a l : a ∉ l -> index_of a l = None.
Proof.
  intros H. destruct (index_of a l) as [n|] eqn:E; [|done]. apply index_of_Some in E.
  destruct H. by eapply list_elem_of_lookup_2.
Qed.

Lemma get_base_addr_valid ip : get_base_addr ip <> no_address.
Proof. unfold get_base_addr. by destruct (Z.eqb_spec (m_base_address ip) no_address). Qed.

Lemma ordered_cus_in layout ip :
  ip ∈ layout -> is_valid_cu ip = true -> m_base_address ip <> no_address ->
  m_base_address ip ∈ ordered_cus layout.
Proof.
  intros Hin Hv Ha. rewrite ordered_cus_perm. apply list_elem_of_fmap. exists ip. split.
  - unfold get_base_addr. by rewrite (proj2 (Z.eqb_neq _ _)).
  - apply list_elem_of_In, filter_In. split; [by apply list_elem_of_In|done].
Qed.

Lemma ordered_cus_no_address layout : no_address ∉ ordered_cus layout.
Proof.
  rewrite ordered_cus_perm. intros (ip & H & _)%list_elem_of_fmap.
  by apply (get_base_addr_valid ip).
Qed.

(** The names of the CUs that get an index. *)
Definition indexed (ip : ip_data) : bool :=
  is_valid_cu ip &&
  ((m_type ip =? IP_PS_KERNEL) || negb (m_base_address ip =? no_address)).

Lemma cu_index_step_other cus st ip k :
  (indexed ip = true -> m_name ip <> k) -> no_address ∉ cus ->
  (cu_index_step cus st ip).2 !! k = st.2 !! k.
Proof.
  intros Hk Hno. destruct st as [ps m]. unfold cu_index_step, indexed in *. cbn.
  destruct (is_valid_cu ip); cbn in *; [|done].
  destruct (m_type ip =? IP_PS_KERNEL); cbn in *.
  - unfold emplace. destruct (m !! m_name ip); [done|]. by rewrite lookup_insert_ne by auto.
  - destruct (Z.eqb_spec (m_base_address ip) no_address) as [->|]; cbn in *.
    + by rewrite index_of_notin.
    + destruct (index_of _ cus); [|done]. cbn. unfold emplace.
      destruct (m !! m_name ip); [done|]. by rewrite lookup_insert_ne by auto.
Qed.

Lemma cu_index_fold_other cus l : forall st k,
  Forall (fun ip => indexed ip = true -> m_name ip <> k) l -> no_address ∉ cus ->
  (foldl (cu_index_step cus) st l).2 !! k = st.2 !! k.
Proof.
  induction l as [|ip l IH]; intros st k Hf Hno; [done|]. inversion_clear Hf.
  cbn. rewrite IH by done. by apply cu_index_step_other.
Qed.

Lemma get_cu_indices_ok layout :
  get_cu_indices info layout tt =
    Ok (foldl (cu_index_step (ordered_cus layout)) (0, ∅) layout).2 tt.
Proof. unfold get_cu_indices, bind. by rewrite get_cus_ok. Qed.

(** CU indices name the right CU.  When CU names are distinct and there are
    fewer than 2^16 CUs, every addressable PL kernel is mapped to domain 0 and the
    position of its address in the CU list, and a streaming kernel gets no index. *)
Theorem cu_index_addresses l1 ip l2 :
  let layout := l1 ++ ip :: l2 in
  is_valid_cu ip = true -> m_type ip <> IP_PS_KERNEL ->
  Forall (fun other => m_name other <> m_name ip) (l1 ++ l2) ->
  Z.of_nat (length layout) < 2 ^ 16 ->
  exists cus idx, get_cus info layout false tt = Ok cus tt /\
    get_cu_indices info layout tt = Ok idx tt /\
    if m_base_address ip =? no_address then idx !! m_name ip = None
    else exists n, idx !! m_name ip = Some (CuIdx 0 (Z.of_nat n)) /\
           cus !! n = Some (m_base_address ip).
Proof.
  intros layout Hv Hps Hn Hlen. exists (ordered_cus layout). eexists.
  split; [apply get_cus_ok|]. split; [apply get_cu_indices_ok|].
  apply Forall_app in Hn as [Hn1 Hn2].
  assert (no_address ∉ ordered_cus layout) as Hno by apply ordered_cus_no_address.
  unfold layout at 2 4. rewrite foldl_app. cbn [foldl].
  set (st := foldl _ (0, ∅) l1). assert (st.2 !! m_name ip = None) as Hst.
  { unfold st. rewrite cu_index_fold_other; [done| |done]. eapply Forall_impl; [exact Hn1|]. auto. }
  rewrite cu_index_fold_other; [|eapply Forall_impl; [exact Hn2|]; auto|done].
  destruct st as [ps m]. cbn in Hst. unfold cu_index_step. rewrite Hv. cbn [negb].
  rewrite (proj2 (Z.eqb_neq (m_type ip) IP_PS_KERNEL)) by done.
  destruct (Z.eqb_spec (m_base_address ip) no_address) as [Ha|Ha].
  - by rewrite Ha, index_of_notin.
  - destruct (index_of_in (m_base_address ip) (ordered_cus layout)) as [n Hi].
    { apply ordered_cus_in; [|done|done]. unfold layout. set_solver. }
    rewrite Hi. exists n. apply index_of_Some in Hi. split; [|done]. cbn. unfold emplace.
    rewrite Hst, lookup_insert_eq. do 2 f_equal. apply Z.mod_small.
    apply lookup_lt_Some in Hi. rewrite (Permutation_length (ordered_cus_perm layout)) in Hi.
    rewrite length_fmap in Hi. pose proof (List.filter_length_le is_valid_cu layout). lia.
Qed.
End order.

(** ** Encoded addresses *)

Section encoding.
Context (info : string).

(** The encoded address of a CU can be taken apart.  For a CU whose address
    is 256-byte aligned (or that is streaming) and whose control protocol fits
    three bits, the low three bits are the protocol, the next five the context
    id, and the rest is the address. *)
Theorem encoded_cu_address ip ctx :
  Z.land (get_base_addr ip) 0xFF = 0 -> 0 <= control ip < 8 ->
  kernel_max_ctx info ip tt = Ok ctx tt -> 0 <= ctx < 32 ->
  exists addr, encode_addr info true ip tt = Ok addr tt /\
    Z.land addr 0x7 = control ip /\ Z.land (Z.shiftr addr 3) 0x1F = ctx /\
    Z.ldiff addr 0xFF = get_base_addr ip.
Proof.
  intros Ha Hc Hctx Hr. unfold encode_addr. cbn [negb]. unfold bind. rewrite Hctx.
  eexists. split; [done|].
  assert (0 <= control ip < 2 ^ 3) as Hc' by lia. assert (0 <= ctx < 2 ^ 5) as Hr' by lia.
  change 0xFF with (Z.ones 8) in *. change 0x7 with (Z.ones 3). change 0x1F with (Z.ones 5).
  assert (forall i, 0 <= i < 8 -> Z.testbit (get_base_addr ip) i = false) as Hlow.
  { intros i Hi. apply (f_equal (fun z => Z.testbit z i)) in Ha.
    rewrite Z.land_spec, testbit_ones, Z.testbit_0_l, (proj2 (Z.ltb_lt _ _)) in Ha by lia.
    by rewrite andb_true_r in Ha. }
  split_and!; apply Z.bits_inj'; intros i Hi;
    repeat first [rewrite Z.lor_spec | rewrite Z.land_spec | rewrite Z.ldiff_spec
      | rewrite testbit_shiftl by lia | rewrite testbit_shiftr by lia | rewrite testbit_ones by lia].
  - destruct (Z.ltb_spec i 3); [rewrite Hlow by lia|zhigh]; zcases; cbn;
      by rewrite ?andb_false_r, ?andb_true_r, ?orb_false_r.
  - destruct (Z.ltb_spec i 5); [rewrite Hlow by lia|zhigh; by rewrite andb_false_r]. zcases. cbn.
    zhigh. rewrite andb_true_r. cbn. f_equal. lia.
  - destruct (Z.ltb_spec i 8); [rewrite (Hlow i) by lia; by rewrite andb_false_r|]. zcases. cbn.
    zhigh. by rewrite !orb_false_r, andb_true_r.
Qed.
End encoding.

(** ** Memory banks *)

Lemma bank_search_spec address l n :
  (n <= length l)%nat ->
  (exists idx mem, (idx < n)%nat /\ l !! idx = Some mem /\ bank_holds address mem = true /\
     bank_search address l n = Z.of_nat idx /\
     forall j m', (idx < j < n)%nat -> l !! j = Some m' -> bank_holds address m' = false) \/
  (bank_search address l n = 2 ^ 31 - 1 /\
     forall j m', (j < n)%nat -> l !! j = Some m' -> bank_holds address m' = false).
Proof.
  induction n as [|n IH]; intros Hn; cbn [bank_search]; [right; split; [done|lia]|].
  destruct (lookup_lt_is_Some_2 l n) as [mem Hm]; [lia|]. rewrite Hm.
  destruct (bank_holds address mem) eqn:Hh.
  - left. exists n, mem. split_and!; try done; [lia|]. intros j m' Hj. lia.
  - destruct (IH ltac:(lia)) as [(idx & m0 & Hi & Hl & Hb & Hs & Hmax)|[Hs Hnone]].
    + left. exists idx, m0. split_and!; try done; [lia|]. intros j m' Hj Hj'.
      destruct (decide (j = n)) as [->|]; [congruence|]. apply (Hmax j); [lia|done].
    + right. split; [done|]. intros j m' Hj Hj'.
      destruct (decide (j = n)) as [->|]; [congruence|]. apply (Hnone j); [lia|done].
Qed.

Section banks.
Context (mode : string).

(** The bank of an address.  Outside software emulation the result is the
    last used, non streaming bank whose range contains the address, or the
    largest index when there is none. *)
Theorem address_to_memidx_last l address :
  is_sw_emulation mode = false ->
  (exists idx mem, address_to_memidx mode l address = Z.of_nat idx /\ l !! idx = Some mem /\
     bank_holds address mem = true /\
     forall j m', (idx < j)%nat -> l !! j = Some m' -> bank_holds address m' = false) \/
  (address_to_memidx mode l address = 2 ^ 31 - 1 /\
     forall mem, mem ∈ l -> bank_holds address mem = false).
Proof.
  intros Hm. unfold address_to_memidx. rewrite Hm.
  destruct (bank_search_spec address l (length l) ltac:(lia))
    as [(idx & mem & _ & Hl & Hb & Hs & Hmax)|[Hs Hnone]].
  - left. exists idx, mem. split_and!; try done. intros j m' Hj Hj'.
    apply (Hmax j); [|done]. split; [done|]. by eapply lookup_lt_Some.
  - right. split; [done|]. intros mem [j Hj]%list_elem_of_lookup_1.
    apply (Hnone j); [|done]. by eapply lookup_lt_Some.
Qed.
End banks.

(** ** Witnesses *)

Definition vadd1 : ip_data := IpData 1 0x0002 0x1800000 "vadd:vadd_1".
Definition vadd2 : ip_data := IpData 1 0x0104 0x1810000 "vadd:vadd_2".
Definition stream1 : ip_data := IpData 1 0x0200 no_address "stream:stream_1".
Definition sample_layout : ip_layout := [stream1; vadd2; vadd1].

Lemma cu_index_addresses_witness :
  exists cus idx, get_cus (SS := insertion_sort) "" sample_layout false tt = Ok cus tt /\
    get_cu_indices (SS := insertion_sort) "" sample_layout tt = Ok idx tt /\
    exists n, idx !! "vadd:vadd_2"%string = Some (CuIdx 0 (Z.of_nat n)) /\
      cus !! n = Some 0x1810000.
Proof.
  apply (cu_index_addresses (SS := insertion_sort) "" [stream1] vadd2 [vadd1]).
  - reflexivity.
  - discriminate.
  - repeat constructor; discriminate.
  - reflexivity.
Defined.

Lemma encoded_cu_address_witness :
  exists addr, encode_addr "{vadd:3}" true vadd2 tt = Ok addr tt /\
    Z.land addr 0x7 = 1 /\ Z.land (Z.shiftr addr 3) 0x1F = 3 /\ Z.ldiff addr 0xFF = 0x1810000.
Proof.
  apply (encoded_cu_address "{vadd:3}" vadd2 3);
    [reflexivity|vm_compute; split; [discriminate|reflexivity]|vm_compute; reflexivity|lia].
Defined.

Lemma address_to_memidx_last_witness :
  address_to_memidx "" [MemData 1 1 0x400 0 "bank0"; MemData 1 1 0x400 0x100000 "bank1"] 0x80000 = 0.
Proof.
  destruct (address_to_memidx_last ""
    [MemData 1 1 0x400 0 "bank0"; MemData 1 1 0x400 0x100000 "bank1"] 0x80000 eq_refl)
    as [(idx & mem & Hi & _)|[_ Hnone]].
  - reflexivity.
  - exfalso. specialize (Hnone (MemData 1 1 0x400 0 "bank0") ltac:(left)). discriminate Hnone.
Defined.
