(* ===== verification/XclbinXml.v ===== *)
(** Kernel meta data of an xclbin, [src/runtime_src/core/common/xclbin_parser.cpp]:
    the EMBEDDED_METADATA section is an XML document; the code reads kernel
    arguments, properties, address ranges and clock frequencies from it.

    [boost::property_tree::read_xml] is third-party code: every routine takes the
    tree it returned.  The [ini] configuration is a record of parameters. *)

From Stdlib Require Import Ascii Sorting.Permutation Sorting.Sorted.
From S2P Require Import Prelude CppStd XclbinLayout.

(** * Data *)

Definition no_index : Z := 2 ^ 64 - 1.

Record kernel_argument := KernelArgument {
  name : string;
  hosttype : string;
  port : string;
  port_width : Z;
  index : Z;
  offset : Z;
  size : Z;
  hostsize : Z;
  fa_desc_offset : Z;
  argtype : Z;
  dir_output : bool;
}.

Inductive kernel_type := kt_none | kt_pl | kt_ps | kt_dpu.
Inductive mailbox_type := mb_none | mb_in | mb_out | mb_inout.

#[export] Instance mailbox_type_eq_dec : EqDecision mailbox_type.
Proof. solve_decision. Defined.

Record kernel_properties := KernelProperties {
  kp_name : string;
  kp_type : kernel_type;
  counted_auto_restart : Z;
  mailbox : mailbox_type;
  address_range : Z;
  sw_reset : bool;
  functional : Z;
  kernel_id : Z;
  workgroupsize : Z;
  compileworkgroupsize : Z * Z * Z;
  maxworkgroupsize : Z * Z * Z;
  stringtable : gmap Z string;
}.

Definition default_properties : kernel_properties :=
  KernelProperties "" kt_none 0 mb_none 0x10000 false 0 0 0 (0, 0, 0) (0, 0, 0) ∅.

Record kernel_object := KernelObject {
  ko_name : string;
  ko_args : list kernel_argument;
  ko_range : Z;
  ko_sw_reset : bool;
}.

(** The [xrt.ini] strings that list kernels as "/name1/name2/". *)
Record ini := Ini {
  mailbox_kernels : string;
  auto_restart_kernels : string;
  sw_reset_kernels : string;
}.

(** * Conversions *)

Definition convert (str : string) : fallible Z :=
  match chars str with [] => ret 0 | l => stoul0 l end.

Definition to_kernel_type (str : string) : kernel_type :=
  if String.eqb str "pl" then kt_pl
  else if String.eqb str "ps" then kt_ps
  else if String.eqb str "dpu" then kt_dpu
  else kt_none.

Definition to_bool (str : string) : bool := String.eqb str "true".

Definition mailbox_table : list (string * mailbox_type) :=
  [("none", mb_none); ("in", mb_in); ("out", mb_out); ("inout", mb_inout); ("both", mb_inout);
   ("true", mb_inout); ("false", mb_none)]%string.

Definition convert_to_mailbox_type (str : string) : fallible mailbox_type :=
  match List.find (fun kv => String.eqb kv.1 str) mailbox_table with
  | Some kv => ret kv.2
  | None => raise (xrt_error "Invalid mailbox property")
  end.

(** [list.find("/" + kname + "/") != npos]. *)
Definition listed (kernels kname : string) : bool :=
  match find_str (chars "/" ++ chars kname ++ chars "/") (chars kernels) with
  | Some _ => true | None => false
  end.

Definition get_mailbox_from_ini (i : ini) (kname : string) : mailbox_type :=
  if listed (mailbox_kernels i) kname then mb_inout else mb_none.
Definition get_restart_from_ini (i : ini) (kname : string) : Z :=
  if listed (auto_restart_kernels i) kname then 1 else 0.
Definition get_sw_reset_from_ini (i : ini) (kname : string) : bool :=
  listed (sw_reset_kernels i) kname.

(** * Kernel elements *)

(** The children with a given key. *)
Definition elements (key : string) (t : ptree) : list ptree :=
  snd <$> List.filter (fun kv => String.eqb kv.1 key) (children t).

Definition attr_number (a : string) (t : ptree) : fallible Z :=
  s <- get_string (xmlattr a) t ;; convert s.

Definition get_functional (xml_kernel : ptree) (element : string) : fallible Z :=
  match elements element xml_kernel with
  | [] => ret 0
  | e :: _ => attr_number "functional" e
  end.

Definition get_kernel_id (xml_kernel : ptree) (element : string) : fallible Z :=
  match elements element xml_kernel with
  | [] => ret 0
  | e :: _ => attr_number "dpu_kernel_id" e
  end.

Fixpoint address_range_loop (ports : list ptree) (range : Z) : fallible Z :=
  match ports with
  | [] => ret range
  | p :: ports' =>
      mode <- get_string (xmlattr "mode") p ;;
      if String.eqb mode "slave" then attr_number "range" p
      else address_range_loop ports' range
  end.
Definition get_address_range (xml_kernel : ptree) : fallible Z :=
  address_range_loop (elements "port" xml_kernel) (64 * 1024).

Definition get_xyz (xml_kernel : ptree) (element : string) : fallible (Z * Z * Z) :=
  match elements element xml_kernel with
  | [] => ret (0, 0, 0)
  | e :: _ => x <- attr_number "x" e ;; y <- attr_number "y" e ;; z <- attr_number "z" e ;;
              ret (x, y, z)
  end.

Fixpoint string_formats (l : list ptree) (stbl : gmap Z string) : fallible (gmap Z string) :=
  match l with
  | [] => ret stbl
  | f :: l' =>
      id <- get_unsigned 32 (xmlattr "id") f ;;
      value <- get_string (xmlattr "value") f ;;
      string_formats l' (match stbl !! id with Some _ => stbl | None => <[id := value]> stbl end)
  end.
Definition get_stringtable (xml_kernel : ptree) : fallible (gmap Z string) :=
  string_formats (mjoin (elements "format_string" <$> elements "string_table" xml_kernel)) ∅.

Fixpoint port_widths (l : list ptree) (pwmap : gmap string Z) : fallible (gmap string Z) :=
  match l with
  | [] => ret pwmap
  | p :: l' =>
      let nm := get_string_or (xmlattr "name") "" p in
      let dw := get_string_or (xmlattr "dataWidth") "" p in
      if String.eqb nm "" || String.eqb dw "" then port_widths l' pwmap else
      w <- convert dw ;; port_widths l' (emplace nm w pwmap)
  end.
Definition get_portname_width_map (xml_kernel : ptree) : fallible (gmap string Z) :=
  port_widths (elements "port" xml_kernel) ∅.

(** * Merging of multi-component arguments *)

(** [arg] absorbs the next component. *)
Definition merge_component (arg next : kernel_argument) : kernel_argument :=
  KernelArgument (name arg) (hosttype arg) (port arg) (port_width arg) (index arg)
    (Z.min (offset arg) (offset next)) (u64 (size arg + size next))
    (u64 (hostsize arg + hostsize next)) (fa_desc_offset arg) (argtype arg) (dir_output arg).

(** The loop of [merge_args] from the argument [arg] on: the components with the
    same index are absorbed and erased, then the next index starts; arguments
    without an index end the loop. *)
Fixpoint merge_from (arg : kernel_argument) (rest : list kernel_argument) : list kernel_argument :=
  match rest with
  | [] => [arg]
  | next :: rest' =>
      if index next =? index arg then merge_from (merge_component arg next) rest'
      else arg :: (if index next =? no_index then rest else merge_from next rest')
  end.
Definition merge_loop (args : list kernel_argument) : list kernel_argument :=
  match args with
  | [] => []
  | arg :: rest => if index arg =? no_index then args else merge_from arg rest
  end.

(** The post-condition that the code asserts. *)
Fixpoint check_indices (argidx : Z) (args : list kernel_argument) : bool :=
  match args with
  | [] => true
  | arg :: args' => ((index arg =? argidx) || (index arg =? no_index)) && check_indices (argidx + 1) args'
  end.

Definition merge_args (args : list kernel_argument) : fallible (list kernel_argument) :=
  let args := merge_loop args in
  if check_indices 0 args then ret args
  else raise (runtime_error "xclbin parser internal error: mismatched argument index").

(** * Documents *)

Definition core_path : list string := ["project"; "platform"; "device"; "core"]%string.

Definition kernels (xml_project : ptree) : fallible (list ptree) :=
  core <- get_child core_path xml_project ;; ret (elements "kernel" core).

(** One [arg] element. *)
Definition parse_argument (pwmap : gmap string Z) (xml_arg : ptree) : fallible kernel_argument :=
  id <- get_string (xmlattr "id") xml_arg ;;
  idx <- (if String.eqb id "" then ret no_index else convert id) ;;
  let prt := get_string_or (xmlattr "port") "no-port" xml_arg in
  let pwidth := default 0 (pwmap !! prt) in
  nm <- get_string (xmlattr "name") xml_arg ;;
  let ty := get_string_or (xmlattr "type") "no-type" xml_arg in
  ofs <- attr_number "offset" xml_arg ;;
  sz <- attr_number "size" xml_arg ;;
  hsz <- attr_number "hostSize" xml_arg ;;
  q <- get_unsigned 64 (xmlattr "addressQualifier") xml_arg ;;
  ret (KernelArgument nm ty prt pwidth idx ofs sz hsz 0 q false).

(** The first kernel with a name. *)
Fixpoint find_kernel (kname : string) (l : list ptree) : fallible (option ptree) :=
  match l with
  | [] => ret None
  | k :: l' => nm <- get_string (xmlattr "name") k ;;
               if String.eqb nm kname then ret (Some k) else find_kernel kname l'
  end.

Definition get_kernel_arguments (xml_project : ptree) (kname : string)
    : fallible (list kernel_argument) :=
  ks <- kernels xml_project ;;
  k <- find_kernel kname ks ;;
  match k with
  | None => ret []
  | Some xml_kernel =>
      pwmap <- get_portname_width_map xml_kernel ;;
      args <- map_fallible (parse_argument pwmap) (elements "arg" xml_kernel) ;;
      merge_args (stable_sort (fun a1 a2 => index a1 <? index a2) args)
  end.

(** The end of the register map of one kernel's arguments. *)
Fixpoint max_arg_end (xml_kernel : ptree) (range maxsz : Z) (l : list ptree) : fallible Z :=
  match l with
  | [] => ret maxsz
  | xml_arg :: l' =>
      ofs <- attr_number "offset" xml_arg ;;
      sz <- attr_number "size" xml_arg ;;
      if range <? u64 (ofs + sz) then
        knm <- get_string (xmlattr "name") xml_kernel ;;
        argnm <- get_string (xmlattr "name") xml_arg ;;
        raise (xrt_error "Invalid kernel offset in xclbin")
      else max_arg_end xml_kernel range (Z.max maxsz (u64 (ofs + sz))) l'
  end.
Fixpoint max_cu_size_loop (maxsz : Z) (l : list ptree) : fallible Z :=
  match l with
  | [] => ret maxsz
  | k :: l' => range <- get_address_range k ;;
               m <- max_arg_end k range maxsz (elements "arg" k) ;;
               max_cu_size_loop m l'
  end.
Definition get_max_cu_size (xml_project : ptree) : fallible Z :=
  ks <- kernels xml_project ;; max_cu_size_loop 0 ks.

(** CU base addresses for software emulation. *)
Definition get_cus_xml {SS : StdSort} (xml_project : ptree) : fallible (list Z) :=
  ks <- kernels xml_project ;;
  cus <- map_fallible (attr_number "base")
           (mjoin ((fun k => mjoin (elements "addrRemap" <$> elements "instance" k)) <$> ks)) ;;
  ret (std_sort Z.ltb cus).

(** The frequency without its unit. *)
Definition strip_units (freq : string) : list ascii :=
  match find_str (chars "MHz") (chars freq) with
  | Some n => take n (chars freq)
  | None => chars freq
  end.
Fixpoint kernel_freq_loop (freq : Z) (l : list ptree) : fallible Z :=
  match l with
  | [] => ret freq
  | c :: l' =>
      let prt := get_string_or (xmlattr "port") "" c in
      let f := strip_units (get_string_or (xmlattr "frequency") "100" c) in
      if negb (match f with [] => true | _ => false end) && String.eqb prt "KERNEL_CLK"
      then v <- stoul0 f ;; kernel_freq_loop v l'
      else kernel_freq_loop freq l'
  end.
Definition get_kernel_freq (xml_project : ptree) : fallible Z :=
  match get_child_optional (core_path ++ ["kernelClocks"%string]) xml_project with
  | None => ret 100
  | Some clocks => kernel_freq_loop 100 (elements "clock" clocks)
  end.

Definition kernel_properties_of (i : ini) (kname : string) (xml_kernel : ptree)
    : fallible kernel_properties :=
  mb <- convert_to_mailbox_type (get_string_or (xmlattr "mailbox") "none" xml_kernel) ;;
  let mb := if decide (mb = mb_none) then get_mailbox_from_ini i kname else mb in
  restart <- convert (get_string_or (xmlattr "countedAutoRestart") "0" xml_kernel) ;;
  let restart := if restart =? 0 then get_restart_from_ini i kname else restart in
  let reset := to_bool (get_string_or (xmlattr "swReset") "false" xml_kernel) in
  let reset := if negb reset then get_sw_reset_from_ini i kname else reset in
  fn <- get_functional xml_kernel "extended-data" ;;
  kid <- get_kernel_id xml_kernel "extended-data" ;;
  range <- get_address_range xml_kernel ;;
  wgs <- convert (get_string_or (xmlattr "workGroupSize") "0" xml_kernel) ;;
  cwgs <- get_xyz xml_kernel "compileWorkGroupSize" ;;
  mwgs <- get_xyz xml_kernel "maxWorkGroupSize" ;;
  stbl <- get_stringtable xml_kernel ;;
  ret (KernelProperties kname (to_kernel_type (get_string_or (xmlattr "type") "pl" xml_kernel))
         restart mb range reset fn kid wgs cwgs mwgs stbl).

Definition get_kernel_properties (i : ini) (xml_project : ptree) (kname : string)
    : fallible kernel_properties :=
  ks <- kernels xml_project ;;
  k <- find_kernel kname ks ;;
  match k with
  | None => ret default_properties
  | Some xml_kernel => kernel_properties_of i kname xml_kernel
  end.

Definition get_kernel_names (xml_project : ptree) : fallible (list string) :=
  ks <- kernels xml_project ;; map_fallible (get_string (xmlattr "name")) ks.

Definition get_kernels (i : ini) (xml_project : ptree) : fallible (list kernel_object) :=
  knames <- get_kernel_names xml_project ;;
  map_fallible (fun kname =>
    kprop <- get_kernel_properties i xml_project kname ;;
    args <- get_kernel_arguments xml_project kname ;;
    ret (KernelObject kname args (address_range kprop) (sw_reset kprop))) knames.

Definition get_project_name (xml_project : ptree) : string :=
  get_string_or ["project"; "<xmlattr>"; "name"]%string "" xml_project.

Definition get_fpga_device_name (xml_project : ptree) : string :=
  get_string_or ["project"; "platform"; "device"; "<xmlattr>"; "fpgaDevice"]%string "" xml_project.

(** * Properties *)

(** ** Merged arguments *)

(** The components of the argument with index [k]. *)
Definition components (k : Z) (args : list kernel_argument) : list kernel_argument :=
  List.filter (fun a => index a =? k) args.
Definition sum_of (f : kernel_argument -> Z) (l : list kernel_argument) : Z :=
  foldr (fun a n => f a + n) 0 l.

(** [a] stands for the components of its index. *)
Definition merges (args : list kernel_argument) (a : kernel_argument) : Prop :=
  size a = u64 (sum_of size (components (index a) args)) /\
  hostsize a = u64 (sum_of hostsize (components (index a) args)) /\
  (exists c, c ∈ components (index a) args /\ offset c = offset a) /\
  (forall c, c ∈ components (index a) args -> offset a <= offset c).

Definition sized (a : kernel_argument) : Prop :=
  0 <= size a < 2 ^ 64 /\ 0 <= hostsize a < 2 ^ 64 /\ 0 <= index a <= no_index.

Definition by_index (args : list kernel_argument) : Prop :=
  StronglySorted (fun a b => index a <= index b) args.

Lemma components_cons k a l :
  components k (a :: l) = if index a =? k then a :: components k l else components k l.
Proof. done. Qed.

Lemma components_none k l :
  Forall (fun a => index a <> k) l -> components k l = [].
Proof.
  induction 1 as [|a l Ha _ IH]; [done|]. rewrite components_cons, IH.
  by rewrite (proj2 (Z.eqb_neq _ _)).
Qed.

Lemma elem_of_components a k l : a ∈ components k l <-> a ∈ l /\ index a = k.
Proof.
  unfold components. rewrite !list_elem_of_In, filter_In, Z.eqb_eq. done.
Qed.

Lemma sized_merge a b : sized a -> sized b -> sized (merge_component a b).
Proof. intros (? & ? & ?) (? & ? & ?). split_and!; cbn; try apply u64_range; lia. Qed.

(** Absorbing the next component does not change what the rest merges to. *)
Lemma merges_absorb arg next rest a :
  index next = index arg ->
  merges (merge_component arg next :: rest) a -> merges (arg :: next :: rest) a.
Proof.
  intros Hi. unfold merges. rewrite !components_cons. cbn [index merge_component]. rewrite Hi.
  destruct (Z.eqb_spec (index arg) (index a)) as [He|]; [|done]. cbn [sum_of foldr size hostsize merge_component].
  intros (Hs & Hh & (c & Hc & Hco) & Hmin). unfold u64 in *. rewrite Zplus_mod_idemp_l in Hs, Hh.
  split; [rewrite Hs; f_equal; lia|]. split; [rewrite Hh; f_equal; lia|]. split.
  - apply elem_of_cons in Hc as [->|Hc]; [|exists c; set_solver].
    cbn in Hco. destruct (Z.min_spec (offset arg) (offset next)) as [[_ Hm]|[_ Hm]]; rewrite Hm in Hco;
      [exists arg|exists next]; set_solver.
  - pose proof (Hmin (merge_component arg next) ltac:(left)) as Hm. cbn in Hm.
    intros d [->|[->|Hd]%elem_of_cons]%elem_of_cons; [lia|lia|]. apply Hmin. by right.
Qed.

Lemma merges_skip arg rest a :
  index arg <> index a -> merges rest a -> merges (arg :: rest) a.
Proof. intros Hi. unfold merges. by rewrite components_cons, (proj2 (Z.eqb_neq _ _)). Qed.

Lemma merges_alone arg rest :
  sized arg -> Forall (fun b => index b <> index arg) rest -> merges (arg :: rest) arg.
Proof.
  intros (Hs & Hh & _) Hr. unfold merges. rewrite components_cons, Z.eqb_refl, components_none by done.
  cbn. rewrite !Z.add_0_r, !u64_small by done. split_and!; try done.
  - exists arg. by split; [left|].
  - by intros c ->%list_elem_of_singleton.
Qed.

(** [r] is what merging [args] should give: the merged arguments in increasing
    order of index, then the arguments without index. *)
Definition merged (args r : list kernel_argument) : Prop :=
  exists ix, r = ix ++ components no_index args /\
    Forall (fun a => merges args a /\ index a <> no_index) ix /\
    StronglySorted (fun a b => index a < index b) ix /\
    (forall b, b ∈ args -> index b <> no_index -> exists a, a ∈ ix /\ index a = index b) /\
    (forall a, a ∈ ix -> exists b, b ∈ args /\ index b = index a).

Lemma merged_free args :
  Forall (fun a => index a = no_index) args -> merged args args.
Proof.
  intros H. exists []. split_and!; try (by constructor).
  - cbn. unfold components. symmetry. induction H as [|a l Ha _ IH]; [done|]. cbn.
    by rewrite Ha, Z.eqb_refl, IH.
  - intros b Hb Hn. by destruct Hn, (proj1 (Forall_forall _ _) H b Hb).
  - by intros a ?%elem_of_nil.
Qed.

Lemma merged_absorb arg next rest r :
  index next = index arg -> index arg <> no_index ->
  merged (merge_component arg next :: rest) r -> merged (arg :: next :: rest) r.
Proof.
  intros Hi Hn (ix & -> & Hm & Hs & Hc & Hb). exists ix. split_and!; try done.
  - rewrite !components_cons. cbn. rewrite Hi. by rewrite (proj2 (Z.eqb_neq _ _)).
  - eapply Forall_impl; [exact Hm|]. intros a [Ha ?]. split; [by apply merges_absorb|done].
  - intros b Hb' Hbn. apply elem_of_cons in Hb' as [->|[->|Hb']%elem_of_cons];
      [apply (Hc (merge_component arg next)); [left|done]| |apply Hc; [by right|done]].
    rewrite Hi. apply (Hc (merge_component arg next)); [left|done].
  - intros a Ha. destruct (Hb a Ha) as (b & [->|Hb']%elem_of_cons & Hbi);
      [exists arg|exists b]; split; try done; [left|by do 2 right].
Qed.

Lemma merged_next arg rest r :
  sized arg -> index arg <> no_index -> Forall (fun b => index arg < index b) rest ->
  merged rest r -> merged (arg :: rest) (arg :: r).
Proof.
  intros Hsz Hn Hlt (ix & -> & Hm & Hs & Hc & Hb). exists (arg :: ix).
  assert (forall a, a ∈ ix -> index arg < index a) as Hix.
  { intros a Ha. destruct (Hb a Ha) as (b & Hb' & <-). exact (proj1 (Forall_forall _ _) Hlt b Hb'). }
  split_and!.
  - rewrite components_cons, (proj2 (Z.eqb_neq _ _)) by done. done.
  - constructor; [split; [|done]|].
    + apply merges_alone; [done|]. eapply Forall_impl; [exact Hlt|]. cbn. lia.
    + apply Forall_forall. intros a Ha. destruct (proj1 (Forall_forall _ _) Hm a Ha) as [? ?].
      split; [|done]. apply merges_skip; [|done]. specialize (Hix a Ha). lia.
  - constructor; [done|]. by apply Forall_forall.
  - intros b [->|Hb']%elem_of_cons Hbn; [exists arg; by split; [left|]|].
    destruct (Hc b Hb' Hbn) as (a & ? & ?). exists a. by split; [right|].
  - intros a [->|Ha]%elem_of_cons; [exists arg; by split; [left|]|].
    destruct (Hb a Ha) as (b & ? & ?). exists b. by split; [right|].
Qed.

Lemma merge_from_merged rest : forall arg,
  by_index (arg :: rest) -> Forall sized (arg :: rest) -> index arg <> no_index ->
  merged (arg :: rest) (merge_from arg rest).
Proof.
  induction rest as [|next rest IH]; intros arg Hs Hz Hn; cbn [merge_from].
  { inversion_clear Hz. apply merged_next; [done|done|constructor|by apply merged_free]. }
  inversion_clear Hs as [|? ? Hs1 Ha]. inversion_clear Hz as [|? ? Hza Hz1].
  inversion_clear Hs1 as [|? ? Hs2 Hnx]. inversion_clear Hz1 as [|? ? Hzn Hz2].
  inversion_clear Ha as [|? ? Han Har]. destruct (Z.eqb_spec (index next) (index arg)) as [He|He].
  - apply merged_absorb; [done|done|]. apply IH; [|constructor; [by apply sized_merge|done]|done].
    constructor; [done|]. done.
  - assert (Forall (fun b => index arg < index b) (next :: rest)) as Hlt.
    { constructor; [lia|]. eapply Forall_impl; [exact Hnx|]. cbn. lia. }
    apply merged_next; try done. destruct (Z.eqb_spec (index next) no_index) as [Hnn|Hnn].
    + apply merged_free. constructor; [done|]. apply Forall_forall. intros b Hb.
      pose proof (proj1 (Forall_forall _ _) Hnx b Hb) as H1.
      destruct (proj1 (Forall_forall _ _) Hz2 b Hb) as (_ & _ & H2). cbn in H1. lia.
    + apply IH; [by constructor|by constructor|done].
Qed.

Lemma merge_loop_merged args :
  by_index args -> Forall sized args -> merged args (merge_loop args).
Proof.
  intros Hs Hz. destruct args as [|arg rest]; [by apply merged_free|]. cbn.
  destruct (Z.eqb_spec (index arg) no_index) as [Hn|Hn]; [|by apply merge_from_merged].
  apply merged_free. constructor; [done|]. inversion_clear Hs as [|? ? _ Ha].
  inversion_clear Hz as [|? ? _ Hz']. apply Forall_forall. intros b Hb.
  pose proof (proj1 (Forall_forall _ _) Ha b Hb) as H1.
  destruct (proj1 (Forall_forall _ _) Hz' b Hb) as (_ & _ & H2). cbn in H1. lia.
Qed.

(** ** The asserted post-condition *)

Lemma check_indices_free k l :
  Forall (fun a => index a = no_index) l -> check_indices k l = true.
Proof.
  intros H. revert k. induction H as [|a l Ha _ IH]; intros k; [done|]. cbn.
  by rewrite Ha, Z.eqb_refl, orb_true_r, IH.
Qed.

Lemma check_indices_spec ix free k :
  Forall (fun a => index a = no_index) free -> Forall (fun a => index a <> no_index) ix ->
  check_indices k (ix ++ free) = true <->
  (forall i a, ix !! i = Some a -> index a = k + Z.of_nat i).
Proof.
  intros Hf Hx. revert k. induction Hx as [|a ix Ha _ IH]; intros k; cbn [app check_indices].
  { split; [done|]. intros _. by apply check_indices_free. }
  rewrite (proj2 (Z.eqb_neq (index a) no_index)) by done. rewrite orb_false_r, andb_true_iff, IH, Z.eqb_eq.
  split.
  - intros [Hk H] [|i] b Hb; cbn in Hb; [injection Hb as <-; lia|]. rewrite (H i b Hb). lia.
  - intros H. split; [rewrite (H 0%nat a eq_refl); lia|]. intros i b Hb.
    rewrite (H (S i) b Hb). lia.
Qed.

(** Increasing indices that leave no gap are the positions. *)
Lemma increasing_positions ix :
  StronglySorted (fun a b => index a < index b) ix -> Forall (fun a => 0 <= index a) ix ->
  (forall i a, ix !! i = Some a -> Z.of_nat i <= index a).
Proof.
  assert (forall lo l, StronglySorted (fun a b => index a < index b) l ->
    Forall (fun a => lo <= index a) l -> forall i a, l !! i = Some a -> lo + Z.of_nat i <= index a) as H.
  { intros lo l Hs. revert lo. induction Hs as [|a l Hs IH Ha]; intros lo Hlo i b Hb; [done|].
    inversion_clear Hlo. destruct i as [|i]; cbn in Hb; [injection Hb as <-; lia|].
    specialize (IH (lo + 1)). rewrite Nat2Z.inj_succ. assert (lo + 1 + Z.of_nat i <= index b); [|lia].
    apply IH; [|done]. eapply Forall_impl; [exact Ha|]. cbn. lia. }
  intros Hs H0 i a Ha. specialize (H 0 ix Hs H0 i a Ha). lia.
Qed.

Lemma components_free args : Forall (fun a => index a = no_index) (components no_index args).
Proof. apply Forall_forall. intros a [_ ?]%elem_of_components. done. Qed.

Lemma merged_indexed args ix :
  Forall (fun a => merges args a /\ index a <> no_index) ix -> Forall (fun a => index a <> no_index) ix.
Proof. intros H. eapply Forall_impl; [exact H|]. by intros a [_ ?]. Qed.

Lemma strongly_sorted_lt {A} (R : A -> A -> Prop) l i j x y :
  StronglySorted R l -> l !! i = Some x -> l !! j = Some y -> (i < j)%nat -> R x y.
Proof.
  intros Hs. revert i j. induction Hs as [|a l Hs IH Ha]; intros i j Hi Hj Hij; [done|].
  destruct j as [|j]; [lia|]. destruct i as [|i]; cbn in *.
  - injection Hi as <-. exact (Forall_lookup_1 _ _ _ _ Ha Hj).
  - apply (IH i j); [done|done|lia].
Qed.

(** Merging kernel arguments.  Arguments sorted by index are merged so that
    the argument at position i is the one with index i, its size and host size
    are the sums over the components with that index, its offset the least of
    theirs, and the arguments without index follow unchanged. *)
Theorem merge_args_positions args r :
  by_index args -> Forall sized args -> merge_args args tt = Ok r tt ->
  exists ix, r = ix ++ components no_index args /\
    (forall i a, ix !! i = Some a -> index a = Z.of_nat i /\ merges args a) /\
    (forall b, b ∈ args -> index b <> no_index ->
       exists a, ix !! Z.to_nat (index b) = Some a /\ index a = index b).
Proof.
  intros Hs Hz Hm. destruct (merge_loop_merged args Hs Hz) as (ix & Hr & Hmx & Hsx & Hc & Hb).
  unfold merge_args in Hm. destruct (check_indices 0 (merge_loop args)) eqn:Hck; [|done].
  injection Hm as <-. exists ix. split; [done|]. rewrite Hr in Hck.
  pose proof (proj1 (check_indices_spec ix (components no_index args) 0 (components_free args)
    (merged_indexed args ix Hmx)) Hck) as Hpos.
  split.
  - intros i a Hi. split; [by apply Hpos|].
    destruct (proj1 (Forall_forall _ _) Hmx a) as [? _]; [by eapply list_elem_of_lookup_2|done].
  - intros b Hbin Hbn. destruct (Hc b Hbin Hbn) as (a & Ha & Hai). exists a. split; [|done].
    apply list_elem_of_lookup_1 in Ha as [i Hi]. by rewrite <- Hai, (Hpos i a Hi), Z.add_0_l, Nat2Z.id.
Qed.

(** Merging succeeds exactly when no index is skipped: it reports an error
    if and only if some argument has an index whose predecessor is missing. *)
Theorem merge_args_total args :
  by_index args -> Forall sized args ->
  (exists r, merge_args args tt = Ok r tt) <->
  (forall b, b ∈ args -> index b <> no_index -> 0 < index b ->
     exists c, c ∈ args /\ index c = index b - 1).
Proof.
  intros Hs Hz. destruct (merge_loop_merged args Hs Hz) as (ix & Hr & Hmx & Hsx & Hc & Hb).
  pose proof (components_free args) as Hf. pose proof (merged_indexed args ix Hmx) as Hx.
  pose proof (check_indices_spec ix (components no_index args) 0 Hf Hx) as Hck.
  assert ((exists r, merge_args args tt = Ok r tt) <-> check_indices 0 (ix ++ components no_index args) = true)
    as ->.
  { unfold merge_args. rewrite Hr. destruct (check_indices _ _); split; try done; [by eexists|].
    by intros [r ?]. }
  rewrite Hck. clear Hck. split.
  - intros Hpos b Hbin Hbn Hb0. destruct (Hc b Hbin Hbn) as (a & Ha & Hai).
    apply list_elem_of_lookup_1 in Ha as [i Hi]. pose proof (Hpos i a Hi) as Hia.
    destruct i as [|i]; [lia|]. destruct (lookup_lt_is_Some_2 ix i) as [a' Ha'].
    { apply lookup_lt_Some in Hi. lia. }
    destruct (Hb a') as (c & Hcin & Hci); [by eapply list_elem_of_lookup_2|]. exists c.
    split; [done|]. rewrite Hci, (Hpos i a' Ha'). lia.
  - intros Hpred i. induction i as [i IH] using lt_wf_ind. intros a Ha.
    pose proof (increasing_positions ix Hsx) as Hge.
    assert (Forall (fun a => 0 <= index a) ix) as H0.
    { apply Forall_forall. intros d Hd. destruct (Hb d Hd) as (c & Hcin & <-).
      destruct (proj1 (Forall_forall _ _) Hz c Hcin) as (_ & _ & ?). lia. }
    specialize (Hge H0 i a Ha). destruct (decide (index a = Z.of_nat i)) as [|Hne]; [lia|exfalso].
    destruct (Hb a) as (b & Hbin & Hbi); [by eapply list_elem_of_lookup_2|].
    destruct (Hpred b Hbin) as (c & Hcin & Hci).
    { rewrite Hbi. by eapply (proj1 (Forall_forall _ _) Hx), list_elem_of_lookup_2. }
    { lia. }
    destruct (Hc c Hcin) as (d & Hd & Hdi).
    { destruct (proj1 (Forall_forall _ _) Hz b Hbin) as (_ & _ & ?). lia. }
    apply list_elem_of_lookup_1 in Hd as [j Hj].
    destruct (Nat.lt_trichotomy j i) as [Hji|[->|Hij]].
    + pose proof (IH j Hji d Hj). lia.
    + simplify_eq. lia.
    + assert (index a < index d); [|lia]. exact (strongly_sorted_lt _ ix i j a d Hsx Ha Hj Hij).
Qed.

(** ** Parsed arguments *)

Lemma digit_in_nonneg base c d : digit_in base c = Some d -> 0 <= d.
Proof.
  unfold digit_in, digit_value. intros H.
  repeat (case_match; simplify_eq; try done); rewrite ?andb_true_iff, ?Z.leb_le in *; lia.
Qed.

Lemma digits_nonneg base l : forall acc, 0 <= base -> 0 <= acc -> 0 <= (digits base acc l).1.
Proof.
  induction l as [|c l IH]; intros acc Hb Ha; cbn [digits]; [done|].
  destruct (digit_in base c) as [d|] eqn:Hd; [|done]. apply digit_in_nonneg in Hd. apply IH; nia.
Qed.

Lemma number_nonneg base l v rest : 0 <= base -> number base l = Some (v, rest) -> 0 <= v.
Proof.
  intros Hb H. destruct l as [|c l]; [done|]. unfold number in H.
  destruct (digit_in base c); [|done]. apply (inj Some) in H.
  pose proof (digits_nonneg base (c :: l) 0 Hb ltac:(lia)) as Hn. by rewrite H in Hn.
Qed.

Lemma auto_base_nonneg l : 0 <= (auto_base l).1.
Proof. unfold auto_base. destruct l as [|c l]; cbn; repeat case_match; cbn; lia. Qed.

Lemma stoul0_range l s : wp (stoul0 l) (fun v _ => 0 <= v < 2 ^ 64) (fun _ _ => True) s.
Proof.
  unfold stoul0. destruct (sign (skip_space l)) as [neg l1].
  pose proof (auto_base_nonneg l1) as Hb. destruct (auto_base l1) as [base l2]. cbn in Hb.
  destruct (number base l2) as [[v rest]|] eqn:Hn; [|by apply wp_raise].
  apply number_nonneg in Hn; [|done]. wps; [done|]. apply Z.leb_gt in H.
  destruct neg; [apply u64_range|lia].
Qed.

Lemma convert_range str s : wp (convert str) (fun v _ => 0 <= v < 2 ^ 64) (fun _ _ => True) s.
Proof.
  unfold convert. destruct (chars str); [apply wp_ret; lia|]. apply stoul0_range.
Qed.

Lemma wp_get_string path t (Q : string -> unit -> Prop) s :
  (forall v, Q v s) -> wp (get_string path t) Q (fun _ _ => True) s.
Proof.
  intros H. unfold get_string, get_child. wps.
  destruct (get_child_optional path t); [apply wp_ret; by wps|by apply wp_raise].
Qed.

Lemma attr_number_range a t s :
  wp (attr_number a t) (fun v _ => 0 <= v < 2 ^ 64) (fun _ _ => True) s.
Proof. unfold attr_number. wps. apply wp_get_string. intros v. apply convert_range. Qed.

Lemma parse_argument_sized pwmap t s :
  wp (parse_argument pwmap t) (fun a _ => sized a) (fun _ _ => True) s.
Proof.
  unfold parse_argument. wps. apply wp_get_string. intros id. apply wp_bind.
  eapply (wp_mono _ (fun v _ => 0 <= v < 2 ^ 64) _ (fun _ _ => True)); [| |done].
  { apply wp_if; intros _; [apply wp_ret; unfold no_index; lia|apply convert_range]. }
  intros idx [] Hi. wps. apply wp_get_string. intros nm. wps.
  eapply wp_mono; [apply attr_number_range| |done]. intros ofs [] _. wps.
  eapply wp_mono; [apply attr_number_range| |done]. intros sz [] Hs. wps.
  eapply wp_mono; [apply attr_number_range| |done]. intros hsz [] Hh. apply wp_bind.
  eapply (wp_mono _ (fun _ _ => True) _ (fun _ _ => True)); [by unfold wp; case_match| |done].
  intros q [] _. apply wp_ret. unfold sized, no_index. cbn. lia.
Qed.

Lemma map_fallible_Forall {A B} (f : A -> fallible B) (P : B -> Prop) l ys :
  (forall x, wp (f x) (fun y _ => P y) (fun _ _ => True) tt) ->
  map_fallible f l tt = Ok ys tt -> Forall P ys.
Proof.
  intros Hf. revert ys. induction l as [|x l IH]; intros ys H; cbn in H; unfold bind in H.
  { injection H as <-. constructor. }
  specialize (Hf x). unfold wp in Hf. destruct (f x tt) as [y []|]; [|done].
  destruct (map_fallible f l tt) as [ys' []|]; [|done]. injection H as <-. constructor; auto.
Qed.

Lemma components_perm k l l' : Permutation l l' -> Permutation (components k l) (components k l').
Proof.
  induction 1 as [|x l l' _ IH|x y l|l l' l'' _ IH1 _ IH2]; rewrite ?components_cons.
  - done.
  - case_match; [by constructor|done].
  - repeat case_match; try done. apply Permutation_swap.
  - by etransitivity.
Qed.

Lemma sum_of_perm f l l' : Permutation l l' -> sum_of f l = sum_of f l'.
Proof. unfold sum_of. induction 1; cbn; lia. Qed.

Lemma merges_perm l l' a : Permutation l l' -> merges l a -> merges l' a.
Proof.
  intros Hp. apply (components_perm (index a)) in Hp. unfold merges.
  rewrite (sum_of_perm size _ _ Hp), (sum_of_perm hostsize _ _ Hp).
  intros (Hs & Hh & (c & Hc & Ho) & Hm). split_and!; try done.
  - exists c. by rewrite <- Hp.
  - intros d Hd. apply Hm. by rewrite Hp.
Qed.

Lemma sort_by_index args :
  let r := stable_sort (fun a1 a2 => index a1 <? index a2) args in
  by_index r /\ Permutation r args.
Proof.
  cbv zeta. split; [|apply stable_sort_perm]. unfold by_index.
  assert (Hs := stable_sort_sorted _ args (ltb_strict_weak index)). unfold sorted_by in Hs.
  induction Hs as [|a l Hs IH Ha]; constructor; [done|].
  eapply Forall_impl; [exact Ha|]. cbn. intros b Hb. by apply Z.ltb_ge in Hb.
Qed.

(** Kernel arguments in position.  When the arguments of a kernel are read
    from the meta data, the argument at position i has index i, and its size,
    host size and offset are the totals and the minimum over the XML components
    with that index; arguments without index come last. *)
Theorem kernel_arguments_positions xml kname ks k pwmap args r :
  kernels xml tt = Ok ks tt -> find_kernel kname ks tt = Ok (Some k) tt ->
  get_portname_width_map k tt = Ok pwmap tt ->
  map_fallible (parse_argument pwmap) (elements "arg" k) tt = Ok args tt ->
  get_kernel_arguments xml kname tt = Ok r tt ->
  exists ix free, r = ix ++ free /\ Forall (fun a => index a = no_index) free /\
    (forall i a, ix !! i = Some a -> index a = Z.of_nat i /\ merges args a) /\
    (forall b, b ∈ args -> index b <> no_index ->
       exists a, ix !! Z.to_nat (index b) = Some a /\ index a = index b).
Proof.
  intros Hks Hk Hpw Hargs Hr. unfold get_kernel_arguments in Hr.
  unfold bind at 1 in Hr. rewrite Hks in Hr. unfold bind at 1 in Hr. rewrite Hk in Hr.
  unfold bind at 1 in Hr. rewrite Hpw in Hr. unfold bind at 1 in Hr. rewrite Hargs in Hr.
  destruct (sort_by_index args) as [Hs Hp]. set (sargs := stable_sort _ args) in *.
  assert (Forall sized args) as Hz
    by (eapply map_fallible_Forall; [|exact Hargs]; intros x; apply parse_argument_sized).
  rewrite <- Hp in Hz. destruct (merge_loop_merged sargs Hs Hz) as (ix & Hl & Hmx & Hsx & Hc & Hb).
  unfold merge_args in Hr. destruct (check_indices 0 (merge_loop sargs)) eqn:Hck; [|done].
  injection Hr as <-. exists ix, (components no_index sargs). split; [done|].
  split; [apply components_free|]. rewrite Hl in Hck.
  pose proof (proj1 (check_indices_spec ix (components no_index sargs) 0 (components_free sargs)
    (merged_indexed sargs ix Hmx)) Hck) as Hpos. split.
  - intros i a Hi. split; [by apply Hpos|]. apply (merges_perm sargs); [done|].
    by destruct (proj1 (Forall_forall _ _) Hmx a) as [? _]; [eapply list_elem_of_lookup_2|].
  - intros b Hbin Hbn. destruct (Hc b) as (a & Ha & Hai); [by rewrite Hp|done|]. exists a. split; [|done].
    apply list_elem_of_lookup_1 in Ha as [i Hi]. by rewrite <- Hai, (Hpos i a Hi), Z.add_0_l, Nat2Z.id.
Qed.

(** ** Register map size *)

Lemma max_arg_end_spec k range l : forall maxsz m,
  max_arg_end k range maxsz l tt = Ok m tt ->
  maxsz <= m /\ (m = maxsz \/ m <= range) /\
  Forall (fun a => exists ofs sz, attr_number "offset" a tt = Ok ofs tt /\
    attr_number "size" a tt = Ok sz tt /\ u64 (ofs + sz) <= range /\ u64 (ofs + sz) <= m) l.
Proof.
  induction l as [|a l IH]; intros maxsz m H; cbn [max_arg_end] in H.
  { injection H as <-. split_and!; [lia|by left|constructor]. }
  unfold bind at 1 in H. destruct (attr_number "offset" a tt) as [ofs []|] eqn:Ho; [|done].
  unfold bind at 1 in H. destruct (attr_number "size" a tt) as [sz []|] eqn:Hs; [|done].
  destruct (Z.ltb_spec range (u64 (ofs + sz))) as [Hlt|Hge].
  { unfold bind in H. by repeat case_match. }
  destruct (IH _ _ H) as (Hm & Hr & Hf). split_and!; [lia|lia|]. constructor; [|done].
  exists ofs, sz. split_and!; try done. lia.
Qed.

(** The register map size covers every argument.  The size computed for the
    xclbin is at least the end (offset plus size, in 64 bits) of every argument of
    every kernel, and every such end lies within the kernel's address range. *)
Theorem max_cu_size_covers xml ks m :
  kernels xml tt = Ok ks tt -> get_max_cu_size xml tt = Ok m tt ->
  Forall (fun k => exists range, get_address_range k tt = Ok range tt /\
    Forall (fun a => exists ofs sz, attr_number "offset" a tt = Ok ofs tt /\
      attr_number "size" a tt = Ok sz tt /\ u64 (ofs + sz) <= range /\ u64 (ofs + sz) <= m)
      (elements "arg" k)) ks.
Proof.
  intros Hks H. unfold get_max_cu_size in H. unfold bind at 1 in H. rewrite Hks in H.
  assert (forall l maxsz, max_cu_size_loop maxsz l tt = Ok m tt -> maxsz <= m /\
    Forall (fun k => exists range, get_address_range k tt = Ok range tt /\
      Forall (fun a => exists ofs sz, attr_number "offset" a tt = Ok ofs tt /\
        attr_number "size" a tt = Ok sz tt /\ u64 (ofs + sz) <= range /\ u64 (ofs + sz) <= m)
        (elements "arg" k)) l) as Hgen; [|exact (proj2 (Hgen ks 0 H))].
  clear H. induction l as [|k l IH]; intros maxsz H; cbn [max_cu_size_loop] in H.
  { injection H as <-. split; [lia|constructor]. }
  unfold bind at 1 in H. destruct (get_address_range k tt) as [range []|] eqn:Hr; [|done].
  unfold bind at 1 in H. destruct (max_arg_end k range maxsz (elements "arg" k) tt) as [m1 []|] eqn:Hm;
    [|done]. destruct (max_arg_end_spec _ _ _ _ _ Hm) as (H1 & _ & Hf).
  destruct (IH _ H) as [H2 Hl]. split; [lia|]. constructor; [|done]. exists range. split; [done|].
  eapply Forall_impl; [exact Hf|]. cbn. intros a (ofs & sz & ? & ? & ? & ?). exists ofs, sz.
  split_and!; try done. lia.
Qed.

(** ** Witnesses *)

Definition attrs (l : list (string * string)) : string * ptree :=
  ("<xmlattr>"%string, Node "" ((fun kv => (kv.1, Node kv.2 [])) <$> l)).

Definition sample_arg (id nm ofs sz : string) : string * ptree :=
  ("arg"%string, Node "" [attrs [("id", id); ("name", nm); ("offset", ofs); ("size", sz);
     ("hostSize", sz); ("addressQualifier", "0")]%string]).

(** A kernel "vadd" whose argument 1 has two components. *)
Definition sample_kernel : ptree :=
  Node "" [attrs [("name", "vadd")]%string;
           ("port"%string, Node "" [attrs [("mode", "slave"); ("range", "0x1000")]%string]);
           sample_arg "1" "b" "0x18" "4"; sample_arg "0" "a" "0x10" "0x8";
           sample_arg "" "hidden" "0x30" "0x4"; sample_arg "1" "b" "0x1c" "4"].

Definition sample_xml : ptree :=
  Node "" [("project", Node "" [("platform", Node "" [("device", Node "" [("core",
    Node "" [("kernel", sample_kernel)])])])])]%string.

Definition sample_args : list kernel_argument :=
  match map_fallible (parse_argument ∅) (elements "arg" sample_kernel) tt with
  | Ok l _ => l | Err _ _ => []
  end.

Definition sample_sorted : list kernel_argument :=
  stable_sort (fun a1 a2 => index a1 <? index a2) sample_args.

Lemma sample_args_ok :
  map_fallible (parse_argument ∅) (elements "arg" sample_kernel) tt = Ok sample_args tt.
Proof. vm_compute. reflexivity. Qed.

Lemma sample_sorted_sized : Forall sized sample_sorted.
Proof.
  unfold sample_sorted. rewrite (proj2 (sort_by_index sample_args)).
  eapply map_fallible_Forall; [|exact sample_args_ok]. intros x. apply parse_argument_sized.
Qed.

Lemma sample_merge_ok : merge_args sample_sorted tt = Ok (merge_loop sample_sorted) tt.
Proof. vm_compute. reflexivity. Qed.

Definition sample_b : kernel_argument := nth 1 sample_sorted (KernelArgument "" "" "" 0 0 0 0 0 0 0 false).

Lemma sample_b_in : sample_b ∈ sample_sorted.
Proof. apply list_elem_of_In. vm_compute. auto. Qed.

Lemma merge_args_positions_witness :
  exists ix a, merge_loop sample_sorted = ix ++ components no_index sample_sorted /\
    ix !! 1%nat = Some a /\ index a = 1.
Proof.
  destruct (merge_args_positions sample_sorted (merge_loop sample_sorted)
    (proj1 (sort_by_index sample_args)) sample_sorted_sized sample_merge_ok) as (ix & Hr & _ & Hall).
  destruct (Hall sample_b sample_b_in ltac:(vm_compute; discriminate)) as (a & Ha & Hi).
  exists ix, a. split; [exact Hr|]. split; [exact Ha|exact Hi].
Defined.

Lemma merge_args_total_witness : exists c, c ∈ sample_sorted /\ index c = index sample_b - 1.
Proof.
  apply (proj1 (merge_args_total sample_sorted (proj1 (sort_by_index sample_args)) sample_sorted_sized)
    (ex_intro _ _ sample_merge_ok)).
  - exact sample_b_in.
  - vm_compute. discriminate.
  - vm_compute. reflexivity.
Defined.

Definition sample_result : list kernel_argument := merge_loop sample_sorted.

Lemma kernel_arguments_positions_witness :
  exists ix free, sample_result = ix ++ free /\ Forall (fun a => index a = no_index) free /\
    exists a, ix !! 1%nat = Some a /\ index a = 1.
Proof.
  destruct (kernel_arguments_positions sample_xml "vadd" [sample_kernel] sample_kernel ∅ sample_args
    sample_result) as (ix & free & Hr & Hf & _ & Hall); [vm_compute; reflexivity..|].
  destruct (Hall sample_b) as (a & Ha & Hi).
  - rewrite <- (proj2 (sort_by_index sample_args)). exact sample_b_in.
  - vm_compute. discriminate.
  - exists ix, free. split; [exact Hr|]. split; [exact Hf|]. exists a. split; [exact Ha|exact Hi].
Defined.

Lemma max_cu_size_covers_witness :
  get_max_cu_size sample_xml tt = Ok 0x34 tt /\
  Forall (fun k => exists range, get_address_range k tt = Ok range tt /\
    Forall (fun a => exists ofs sz, attr_number "offset" a tt = Ok ofs tt /\
      attr_number "size" a tt = Ok sz tt /\ u64 (ofs + sz) <= range /\ u64 (ofs + sz) <= 0x34)
      (elements "arg" k)) [sample_kernel].
Proof.
  split; [vm_compute; reflexivity|].
  apply (max_cu_size_covers sample_xml [sample_kernel] 0x34); vm_compute; reflexivity.
Defined.

(** The range check of [get_max_cu_size] is on the wrapped sum: an argument at
    offset 2^64 - 8 of size 16 ends at 8. *)
Lemma max_cu_size_wraps :
  max_arg_end sample_kernel 0x1000 0 [(sample_arg "0" "a" "0xfffffffffffffff8" "16").2] tt = Ok 8 tt.
Proof. vm_compute. reflexivity. Qed.
