(* ===== verification/XclbinSections.v ===== *)
(** Binary sections of an xclbin, [src/runtime_src/core/common/xclbin_parser.cpp]
    and the section look-up of [src/runtime_src/core/include/xrt/detail/xclbin.h]:
    bounds checks, soft kernels and the AIE partition, which are read from raw
    bytes through offsets that the file itself provides.

    The file is a list of bytes with its decoded header; a read outside of it
    stops the model with [bad_read]. *)

From Stdlib Require Import Ascii.
From S2P Require Import Prelude CppStd XclbinLayout.

(** * Sections *)

Definition EMBEDDED_METADATA : Z := 2.
Definition MEM_TOPOLOGY : Z := 6.
Definition CONNECTIVITY : Z := 7.
Definition SOFT_KERNEL : Z := 23.
Definition ASK_GROUP_TOPOLOGY : Z := 26.
Definition ASK_GROUP_CONNECTIVITY : Z := 27.
Definition AIE_PARTITION : Z := 32.
Definition AM_LOAD_AIE : Z := 1.
Definition PDI_IMAGE_MAX_SIZE : Z := 32 * 1024 * 64 * 64.

Record axlf_section_header := SectionHeader {
  m_sectionKind : Z;
  m_sectionOffset : Z;
  m_sectionSize : Z;
}.

Record axlf := Axlf {
  m_length : Z;
  m_actionMask : Z;
  m_sections : list axlf_section_header;
  bytes : list Z;
}.

(** [::xclbin::get_axlf_section]. *)
Definition find_section (top : axlf) (kind : Z) : option axlf_section_header :=
  List.find (fun sec => m_sectionKind sec =? kind) (m_sections top).

(** The sections that the [get_axlf_section] / [get_axlf_section_next] loop visits. *)
Definition sections_of (top : axlf) (kind : Z) : list axlf_section_header :=
  List.filter (fun sec => m_sectionKind sec =? kind) (m_sections top).

(** [xrt_core::xclbin::get_axlf_section]; [use_groups] is configuration. *)
Definition get_axlf_section (use_groups : bool) (top : axlf) (kind : Z)
    : option axlf_section_header :=
  let kind :=
    if (kind =? ASK_GROUP_TOPOLOGY) && negb use_groups then MEM_TOPOLOGY
    else if (kind =? ASK_GROUP_CONNECTIVITY) && negb use_groups then CONNECTIVITY
    else kind in
  match find_section top kind with
  | Some hdr => Some hdr
  | None =>
      if kind =? ASK_GROUP_TOPOLOGY then find_section top MEM_TOPOLOGY
      else if kind =? ASK_GROUP_CONNECTIVITY then find_section top CONNECTIVITY
      else None
  end.

(** Address and size of the XML text. *)
Definition get_xml_section (top : axlf) : fallible (Z * Z) :=
  match find_section top EMBEDDED_METADATA with
  | None => raise (runtime_error "No xml meta data in xclbin")
  | Some hdr => ret (m_sectionOffset hdr, m_sectionSize hdr)
  end.

Definition is_aie_only (top : axlf) : bool := negb (Z.land (m_actionMask top) AM_LOAD_AIE =? 0).

(** * Bounds checks *)

Definition is_valid_range (offset size section_size : Z) : bool :=
  if (0 <? size) && (u64 (section_size - size) <? offset) then false
  else u64 (offset + size) <=? section_size.

Definition EINVAL (msg : string) : exn := xrt_error msg.

Definition validate_offset_size (offset size section_size : Z) : fallible unit :=
  if is_valid_range offset size section_size then ret tt
  else raise (EINVAL "offset/size out of bounds").

Definition validate_pointer_offset (offset element_size count section_size : Z) : fallible unit :=
  let total_size := u64 (element_size * count) in
  if (0 <? count) && negb (total_size / count =? element_size) then raise (EINVAL "size overflow")
  else validate_offset_size offset total_size section_size.

Definition validate_string_offset (offset section_size : Z) : fallible unit :=
  if offset <? section_size then ret tt else raise (EINVAL "string offset out of bounds").

(** * Reads *)

Fixpoint le_value (l : list Z) : Z :=
  match l with [] => 0 | b :: l' => b + 256 * le_value l' end.

Section reads.
Context (top : axlf).

(** [n] bytes at an address. *)
Definition rd_bytes (a n : Z) : fallible (list Z) :=
  if (0 <=? a) && (0 <=? n) && (a + n <=? Z.of_nat (length (bytes top)))
  then ret (take (Z.to_nat n) (drop (Z.to_nat a) (bytes top)))
  else raise bad_read.

(** A little-endian integer of [n] bytes. *)
Definition rd (n a : Z) : fallible Z := l <- rd_bytes a n ;; ret (le_value l).

(** [count] elements of [n] bytes. *)
Fixpoint rd_array (n : Z) (count : nat) (a : Z) : fallible (list Z) :=
  match count with
  | O => ret []
  | S c => v <- rd n a ;; vs <- rd_array n c (a + n) ;; ret (v :: vs)
  end.

(** The characters up to the terminating zero. *)
Fixpoint until_nul (l : list Z) : option (list Z) :=
  match l with
  | [] => None
  | b :: l' => if b =? 0 then Some [] else cons b <$> until_nul l'
  end.
Definition rd_string (a : Z) : fallible (list Z) :=
  if (a <? 0) || (Z.of_nat (length (bytes top)) <=? a) then raise bad_read else
  match until_nul (drop (Z.to_nat a) (bytes top)) with
  | Some s => ret s
  | None => raise bad_read
  end.

(** * Soft kernels *)

Record softkernel_object := SoftKernel {
  ninst : Z;
  mpo_name : list Z;
  mpo_version : list Z;
  symbol_name : list Z;
  sk_size : Z;
  sk_buf : Z;      (** address of the image *)
}.

Definition sizeof_soft_kernel : Z := 80.

Definition get_softkernel (sec : axlf_section_header) : fallible softkernel_object :=
  let section_size := m_sectionSize sec in
  validate_offset_size (m_sectionOffset sec) section_size (m_length top) ;;;
  if section_size <? sizeof_soft_kernel
  then raise (EINVAL "SOFT_KERNEL section too small for header") else
  let begin := m_sectionOffset sec in
  name <- rd 4 begin ;;
  image_offset <- rd 4 (begin + 4) ;;
  image_size <- rd 4 (begin + 8) ;;
  version <- rd 4 (begin + 12) ;;
  symbol <- rd 4 (begin + 20) ;;
  instances <- rd 4 (begin + 24) ;;
  validate_string_offset symbol section_size ;;;
  validate_string_offset name section_size ;;;
  validate_string_offset version section_size ;;;
  validate_offset_size image_offset image_size section_size ;;;
  sname <- rd_string (begin + symbol) ;;
  nm <- rd_string (begin + name) ;;
  ver <- rd_string (begin + version) ;;
  ret (SoftKernel instances nm ver sname image_size (begin + image_offset)).

Definition get_softkernels : fallible (list softkernel_object) :=
  map_fallible get_softkernel (sections_of top SOFT_KERNEL).

(** * The AIE partition *)

Record aie_cdo_group_obj := CdoGroup {
  cdo_name : list Z;
  cdo_type : Z;
  pdi_id : Z;
  kernel_ids : list Z;
}.

Record aie_pdi_obj := Pdi {
  uuid : list Z;
  cdo_groups : list aie_cdo_group_obj;
  pdi : list Z;
}.

Record aie_partition_obj := Partition {
  ncol : Z;
  start_col_list : list Z;
  partition_name : list Z;
  ops_per_cycle : Z;
  pdis : list aie_pdi_obj;
}.

Definition sizeof_aie_partition : Z := 184.
Definition sizeof_aie_pdi : Z := 96.
Definition sizeof_cdo_group : Z := 96.

Definition get_cdo_group (topbase section_size cdop : Z) : fallible aie_cdo_group_obj :=
  ids_size <- rd 4 (cdop + 16) ;;
  ids_offset <- rd 4 (cdop + 20) ;;
  validate_pointer_offset ids_offset 8 ids_size section_size ;;;
  ids <- rd_array 8 (Z.to_nat ids_size) (topbase + ids_offset) ;;
  mpo <- rd 4 cdop ;;
  validate_string_offset mpo section_size ;;;
  nm <- rd_string (topbase + mpo) ;;
  ty <- rd 1 (cdop + 4) ;;
  id <- rd 8 (cdop + 8) ;;
  ret (CdoGroup nm ty id ids).

(** [for (j = 0; j < size; j++)] over elements of a fixed size. *)
Definition for_elements {A} (f : Z -> fallible A) (base stride size : Z) : fallible (list A) :=
  map_fallible (fun j => f (base + Z.of_nat j * stride)) (seq 0 (Z.to_nat size)).

Definition get_aie_pdi (topbase section_size aiepdip : Z) : fallible aie_pdi_obj :=
  image_size <- rd 4 (aiepdip + 16) ;;
  image_offset <- rd 4 (aiepdip + 20) ;;
  if PDI_IMAGE_MAX_SIZE <? image_size then raise (EINVAL "PDI image size exceeds maximum") else
  validate_offset_size image_offset image_size section_size ;;;
  uid <- rd_bytes aiepdip 16 ;;
  image <- rd_bytes (topbase + image_offset) image_size ;;
  groups_size <- rd 4 (aiepdip + 24) ;;
  groups_offset <- rd 4 (aiepdip + 28) ;;
  validate_pointer_offset groups_offset sizeof_cdo_group groups_size section_size ;;;
  groups <- for_elements (get_cdo_group topbase section_size)
              (topbase + groups_offset) sizeof_cdo_group groups_size ;;
  ret (Pdi uid groups image).

(** Without a partition section the result is the empty object. *)
Definition get_aie_partition : fallible aie_partition_obj :=
  match find_section top AIE_PARTITION with
  | None => ret (Partition 0 [] [] 0 [])
  | Some sec =>
      let section_offset := m_sectionOffset sec in
      let section_size := m_sectionSize sec in
      validate_offset_size section_offset section_size (m_length top) ;;;
      if section_size <? sizeof_aie_partition
      then raise (EINVAL "AIE_PARTITION section too small for header") else
      let topbase := section_offset in
      cols_size <- rd 4 (topbase + 40) ;;
      cols_offset <- rd 4 (topbase + 44) ;;
      validate_pointer_offset cols_offset 2 cols_size section_size ;;;
      mpo <- rd 4 (topbase + 4) ;;
      validate_string_offset mpo section_size ;;;
      width <- rd 2 (topbase + 32) ;;
      cols <- rd_array 2 (Z.to_nat cols_size) (topbase + cols_offset) ;;
      nm <- rd_string (topbase + mpo) ;;
      ops <- rd 4 (topbase + 8) ;;
      pdi_size <- rd 4 (topbase + 120) ;;
      pdi_offset <- rd 4 (topbase + 124) ;;
      validate_pointer_offset pdi_offset sizeof_aie_pdi pdi_size section_size ;;;
      l <- for_elements (get_aie_pdi topbase section_size)
             (topbase + pdi_offset) sizeof_aie_pdi pdi_size ;;
      ret (Partition width cols nm ops l)
  end.

End reads.

(** * Properties *)

(** ** Bounds checks *)

(** Exactly what the range check accepts.  For 64-bit values it accepts a
    range that lies in the section, and also a range that is larger than the
    section and whose end wraps around to inside the section. *)
Theorem is_valid_range_exact offset size section_size :
  0 <= offset < 2 ^ 64 -> 0 <= size < 2 ^ 64 -> 0 <= section_size < 2 ^ 64 ->
  is_valid_range offset size section_size = true <->
  offset + size <= section_size \/
  (section_size < size /\ 2 ^ 64 <= offset + size <= 2 ^ 64 + section_size).
Proof.
  intros Ho Hs Hn. unfold is_valid_range.
  assert (u64 (section_size - size) = if size <=? section_size then section_size - size
    else section_size - size + 2 ^ 64) as Hsub.
  { unfold u64. destruct (Z.leb_spec size section_size); [apply Z.mod_small; lia|].
    rewrite <- (Z_mod_plus_full _ 1). apply Z.mod_small. lia. }
  assert (u64 (offset + size) = if offset + size <? 2 ^ 64 then offset + size
    else offset + size - 2 ^ 64) as Hadd.
  { unfold u64. destruct (Z.ltb_spec (offset + size) (2 ^ 64)); [apply Z.mod_small; lia|].
    rewrite <- (Z_mod_plus_full _ (-1)). rewrite Z.mod_small; lia. }
  rewrite Hsub, Hadd.
  destruct (Z.leb_spec size section_size), (Z.ltb_spec (offset + size) (2 ^ 64)),
    (Z.ltb_spec 0 size); cbn [andb];
    repeat match goal with |- context [?a <? ?b] => destruct (Z.ltb_spec a b) end;
    rewrite ?Z.leb_le; intuition (lia || done).
Qed.

Lemma valid_range_small offset size section_size :
  0 <= offset < 2 ^ 63 -> 0 <= size < 2 ^ 63 -> 0 <= section_size < 2 ^ 64 ->
  is_valid_range offset size section_size = true -> offset + size <= section_size.
Proof.
  intros Ho Hs Hn. unfold is_valid_range, u64. rewrite (Z.mod_small (offset + size)) by lia.
  case_match; [done|]. by intros ?%Z.leb_le.
Qed.

(** ** Reads stay inside the file *)

(** The routine never reads outside the file. *)
Definition no_bad_read {A} (m : fallible A) (Q : A -> Prop) : Prop :=
  wp m (fun a _ => Q a) (fun e _ => e <> bad_read) tt.

Lemma safe_bind {A B} (m : fallible A) (k : A -> fallible B) P Q :
  no_bad_read m P -> (forall a, P a -> no_bad_read (k a) Q) -> no_bad_read (bind m k) Q.
Proof.
  intros Hm Hk. apply wp_bind. eapply wp_mono; [exact Hm| |done]. intros a [] Ha. by apply Hk.
Qed.

Lemma safe_ret {A} (a : A) (Q : A -> Prop) : Q a -> no_bad_read (ret a) Q.
Proof. done. Qed.

Lemma safe_raise {A} e (Q : A -> Prop) : e <> bad_read -> no_bad_read (raise e) Q.
Proof. done. Qed.

Lemma safe_map {A B} (f : A -> fallible B) l :
  (forall x, x ∈ l -> no_bad_read (f x) (fun _ => True)) ->
  no_bad_read (map_fallible f l) (fun _ => True).
Proof.
  induction l as [|x l IH]; intros H; cbn [map_fallible]; [done|].
  apply (safe_bind _ _ (fun _ => True)); [apply H; left|]. intros y _.
  apply (safe_bind _ _ (fun _ => True)); [apply IH; intros z Hz; apply H; by right|]. done.
Qed.

Section safety.
Context (top : axlf).
Let len : Z := Z.of_nat (length (bytes top)).

Lemma le_value_nonneg l : Forall (fun b => 0 <= b) l -> 0 <= le_value l.
Proof. induction 1; cbn [le_value]; lia. Qed.

(** A well-formed file: bytes, as long as its header says, and ending in a zero
    so that a string that starts inside it ends inside it. *)
Record file_ok : Prop := {
  fo_bytes : Forall (fun b => 0 <= b < 256) (bytes top);
  fo_length : m_length top = len;
  fo_nul : last (bytes top) = Some 0;
  fo_small : len < 2 ^ 63;
}.

Lemma le_value_range l :
  Forall (fun b => 0 <= b < 256) l -> 0 <= le_value l < 256 ^ Z.of_nat (length l).
Proof.
  induction 1 as [|b l Hb _ IH]; cbn [le_value length]; [done|].
  rewrite Nat2Z.inj_succ, Z.pow_succ_r by lia. nia.
Qed.

Lemma safe_rd_bytes a n :
  0 <= a -> 0 <= n -> a + n <= len -> no_bad_read (rd_bytes top a n) (fun _ => True).
Proof.
  intros Ha Hn Hl. unfold rd_bytes, len in *.
  rewrite !(proj2 (Z.leb_le _ _)) by lia. done.
Qed.

Lemma safe_rd n a :
  file_ok -> 0 <= a -> 0 <= n -> a + n <= len ->
  no_bad_read (rd top n a) (fun v => 0 <= v < 256 ^ n).
Proof.
  intros Hf Ha Hn Hl. unfold rd, no_bad_read. wps. unfold rd_bytes, len in *.
  rewrite !(proj2 (Z.leb_le _ _)) by lia. cbn [andb]. apply wp_ret. wps.
  pose proof (le_value_range (take (Z.to_nat n) (drop (Z.to_nat a) (bytes top)))) as H.
  rewrite length_take, length_drop in H.
  replace (Z.of_nat (Z.to_nat n `min` (length (bytes top) - Z.to_nat a))) with n in H by lia.
  apply H. apply Forall_take, Forall_drop, Hf.
Qed.

Lemma safe_rd_array n count a :
  file_ok -> 0 <= a -> 0 < n -> a + n * Z.of_nat count <= len ->
  no_bad_read (rd_array top n count a) (fun _ => True).
Proof.
  intros Hf. revert a. induction count as [|c IH]; intros a Ha Hn Hl; cbn [rd_array]; [done|].
  apply (safe_bind _ _ (fun v => 0 <= v < 256 ^ n)); [apply safe_rd; done || lia|]. intros v _.
  apply (safe_bind _ _ (fun _ => True)); [apply IH; lia|]. done.
Qed.

Lemma until_nul_some l : last l = Some 0 -> exists s, until_nul l = Some s.
Proof.
  induction l as [|b l IH]; intros H; [done|]. cbn [until_nul].
  destruct (Z.eqb_spec b 0) as [|Hb]; [eauto|]. destruct l as [|b' l].
  - cbn in H. congruence.
  - destruct (IH H) as [s ->]. cbn. eauto.
Qed.

Lemma safe_rd_string a :
  file_ok -> 0 <= a < len -> no_bad_read (rd_string top a) (fun _ => True).
Proof.
  intros Hf Ha. unfold rd_string, len in *.
  rewrite (proj2 (Z.ltb_ge _ _)), (proj2 (Z.leb_gt _ _)) by lia. cbn [orb].
  destruct (until_nul_some (drop (Z.to_nat a) (bytes top))) as [s ->]; [|done].
  rewrite <- (fo_nul Hf). rewrite <- (take_drop (Z.to_nat a) (bytes top)) at 2.
  rewrite last_app. destruct (drop (Z.to_nat a) (bytes top)) as [|b l] eqn:Hd.
  - apply (f_equal length) in Hd. rewrite length_drop in Hd. cbn in Hd. lia.
  - by destruct (last (b :: l)) eqn:Hlast; [|apply last_None in Hlast].
Qed.

End safety.

Lemma safe_offset_size o s n :
  0 <= o < 2 ^ 63 -> 0 <= s < 2 ^ 63 -> 0 <= n < 2 ^ 64 ->
  no_bad_read (validate_offset_size o s n) (fun _ => o + s <= n).
Proof.
  intros Ho Hs Hn. unfold validate_offset_size. destruct (is_valid_range o s n) eqn:H; [|done].
  apply safe_ret. by apply valid_range_small.
Qed.

Lemma safe_pointer_offset o e c n :
  0 <= o < 2 ^ 32 -> 0 <= e < 2 ^ 16 -> 0 <= c < 2 ^ 32 -> 0 <= n < 2 ^ 64 ->
  no_bad_read (validate_pointer_offset o e c n) (fun _ => o + e * c <= n).
Proof.
  intros Ho He Hc Hn. unfold validate_pointer_offset.
  assert (0 <= e * c < 2 ^ 48) as Hec by nia. rewrite u64_small by lia.
  case_match; [done|]. apply safe_offset_size; lia.
Qed.

Lemma safe_string_offset o n : no_bad_read (validate_string_offset o n) (fun _ => o < n).
Proof. unfold validate_string_offset. destruct (Z.ltb_spec o n); done. Qed.

(** Step through a parser: reads, checks, early errors. *)
Ltac safe_step :=
  lazymatch goal with
  | |- no_bad_read (bind (rd _ _ _) _) _ =>
      eapply safe_bind; [apply safe_rd; [done|lia..]|]; let v := fresh "v" in let H := fresh "Hv" in
      intros v H; cbv beta in H;
      lazymatch type of H with
      | _ <= _ < ?p => let r := eval vm_compute in p in change p with r in H
      end
  | |- no_bad_read (bind (rd_bytes _ _ _) _) _ =>
      eapply safe_bind; [apply safe_rd_bytes; lia|]; intros ? _
  | |- no_bad_read (bind (rd_array _ _ _ _) _) _ =>
      eapply safe_bind; [apply safe_rd_array; [done|lia..]|]; intros ? _
  | |- no_bad_read (bind (rd_string _ _) _) _ =>
      eapply safe_bind; [apply safe_rd_string; [done|lia]|]; intros ? _
  | |- no_bad_read (bind (validate_string_offset _ _) _) _ =>
      eapply safe_bind; [apply safe_string_offset|]; cbv beta; intros _ ?
  | |- no_bad_read (bind (validate_pointer_offset _ _ _ _) _) _ =>
      eapply safe_bind; [apply safe_pointer_offset; lia|]; cbv beta; intros _ ?
  | |- no_bad_read (bind (validate_offset_size _ _ _) _) _ =>
      eapply safe_bind; [apply safe_offset_size; lia|]; cbv beta; intros _ ?
  | |- no_bad_read (if ?b then raise _ else _) _ => destruct b eqn:?; [done|]
  | |- no_bad_read (ret _) _ => apply safe_ret; done
  | |- no_bad_read (let _ := _ in _) _ => cbv zeta
  end.
Ltac safe := repeat safe_step.

Section parsers.
Context (top : axlf).

(** A section whose header does not wrap around. *)
Definition section_small (sec : axlf_section_header) : Prop :=
  0 <= m_sectionOffset sec < 2 ^ 63 /\ 0 <= m_sectionSize sec < 2 ^ 63.

Lemma safe_cdo_group topbase ss cdop :
  file_ok top -> 0 <= topbase -> topbase + ss <= Z.of_nat (length (bytes top)) ->
  0 <= ss < 2 ^ 63 -> topbase <= cdop -> cdop + 96 <= topbase + ss ->
  no_bad_read (get_cdo_group top topbase ss cdop) (fun _ => True).
Proof. intros Hf H0 Hl Hs Hc Hc'. unfold get_cdo_group. safe. Qed.

Lemma safe_for_elements {A} (f : Z -> fallible A) base stride size n :
  0 < stride -> 0 <= size -> base + stride * size <= n ->
  (forall a, base <= a -> a + stride <= n -> no_bad_read (f a) (fun _ => True)) ->
  no_bad_read (for_elements f base stride size) (fun _ => True).
Proof.
  intros Hst Hsz Hn Hf. apply safe_map. intros j Hj. apply elem_of_seq in Hj. apply Hf; nia.
Qed.

Lemma safe_aie_pdi topbase ss p :
  file_ok top -> 0 <= topbase -> topbase + ss <= Z.of_nat (length (bytes top)) ->
  0 <= ss < 2 ^ 63 -> topbase <= p -> p + 96 <= topbase + ss ->
  no_bad_read (get_aie_pdi top topbase ss p) (fun _ => True).
Proof.
  intros Hf H0 Hl Hs Hp Hp'. unfold get_aie_pdi, sizeof_cdo_group. safe.
  eapply safe_bind; [|intros ? _; by apply safe_ret].
  apply (safe_for_elements _ _ _ _ (topbase + ss)); [lia..|].
  intros q Hq Hq'. apply safe_cdo_group; done || lia.
Qed.
End parsers.

(** A tiny image: a section of [kind] whose header covers [body], at offset 4. *)
Definition image (kind : Z) (body : list Z) : axlf :=
  Axlf (4 + Z.of_nat (length body)) 0 [SectionHeader kind 4 (Z.of_nat (length body))]
    ([0; 0; 0; 0] ++ body).

(** Reading the soft kernels never reads outside the file: for a file that
    is as long as its header says and ends in a zero byte, whatever the
    contents of its soft kernel sections, every field, string and image that is
    touched lies in the file, or the parser reports an error. *)
Theorem get_softkernels_safe top :
  file_ok top -> (forall sec, sec ∈ m_sections top -> section_small sec) ->
  no_bad_read (get_softkernels top) (fun _ => True).
Proof.
  intros Hf Hs. apply safe_map. intros sec Hsec.
  assert (section_small sec) as [? ?].
  { apply Hs. unfold sections_of in Hsec. apply list_elem_of_In, List.filter_In in Hsec as [Hsec _].
    by apply list_elem_of_In. }
  pose proof (fo_length _ Hf). pose proof (fo_small _ Hf).
  unfold get_softkernel, sizeof_soft_kernel. cbv zeta. safe_step.
  destruct (Z.ltb_spec (m_sectionSize sec) 80); [done|]. safe.
Qed.

(** Reading the AIE partition never reads outside the file, at any nesting
    level of columns, PDIs, CDO groups and kernel ids: every offset that the file
    provides is checked before it is used. *)
Theorem get_aie_partition_safe top :
  file_ok top -> (forall sec, sec ∈ m_sections top -> section_small sec) ->
  no_bad_read (get_aie_partition top) (fun _ => True).
Proof.
  intros Hf Hs. unfold get_aie_partition, find_section.
  destruct (List.find _ _) as [sec|] eqn:Hfind; [|done].
  assert (section_small sec) as [? ?].
  { apply Hs, list_elem_of_In. by apply List.find_some in Hfind as [? _]. }
  pose proof (fo_length _ Hf). pose proof (fo_small _ Hf).
  unfold sizeof_aie_partition, sizeof_aie_pdi. cbv zeta. safe_step.
  destruct (Z.ltb_spec (m_sectionSize sec) 184); [done|]. safe.
  eapply safe_bind; [|intros ? _; by apply safe_ret].
  apply (safe_for_elements _ _ _ _ (m_sectionOffset sec + m_sectionSize sec)); [lia..|].
  intros q Hq Hq'. apply safe_aie_pdi; done || lia.
Qed.

(** ** Witnesses *)

(** A soft kernel section: every string at offset 81, an empty image at offset 80. *)
Definition sk_body : list Z :=
  [81;0;0;0; 80;0;0;0; 0;0;0;0; 81;0;0;0; 0;0;0;0; 81;0;0;0; 2;0;0;0]
  ++ repeat 0 52 ++ [0; 97; 0].

Lemma file_ok_image kind body :
  Forall (fun b => 0 <= b < 256) body -> last body = Some 0 ->
  Z.of_nat (length body) < 2 ^ 32 -> file_ok (image kind body).
Proof.
  intros Hb Hl Hs. unfold image. constructor; cbn [bytes m_length].
  - apply Forall_app. split; [|done]. repeat constructor; lia.
  - rewrite length_app. cbn [length]. lia.
  - by rewrite last_app, Hl.
  - rewrite length_app. cbn [length]. lia.
Qed.

Lemma section_small_image kind body sec :
  Z.of_nat (length body) < 2 ^ 32 -> sec ∈ m_sections (image kind body) -> section_small sec.
Proof.
  intros Hs ->%list_elem_of_singleton. unfold section_small. cbn [m_sectionOffset m_sectionSize].
  lia.
Qed.

Lemma get_softkernels_safe_witness :
  exists l, get_softkernels (image SOFT_KERNEL sk_body) tt = Ok l tt /\
    map ninst l = [2] /\ map symbol_name l = [[97]] /\
    no_bad_read (get_softkernels (image SOFT_KERNEL sk_body)) (fun _ => True).
Proof.
  eexists. split; [vm_compute; reflexivity|]. split; [reflexivity|]. split; [reflexivity|].
  apply (get_softkernels_safe (image SOFT_KERNEL sk_body)).
  - apply file_ok_image; [repeat constructor; vm_compute; (done || congruence)|reflexivity|reflexivity].
  - intros sec. apply section_small_image. reflexivity.
Defined.

(** A partition of one column (column 7) without PDIs, named "a". *)
Definition partition_body : list Z :=
  [0;0;0;0; 186;0;0;0; 0;0;0;0] ++ repeat 0 20 ++ [1;0] ++ repeat 0 6
  ++ [1;0;0;0; 184;0;0;0] ++ repeat 0 136 ++ [7;0; 97;0].

Lemma get_aie_partition_safe_witness :
  exists p, get_aie_partition (image AIE_PARTITION partition_body) tt = Ok p tt /\
    start_col_list p = [7] /\ partition_name p = [97] /\
    no_bad_read (get_aie_partition (image AIE_PARTITION partition_body)) (fun _ => True).
Proof.
  eexists. split; [vm_compute; reflexivity|]. split; [reflexivity|]. split; [reflexivity|].
  apply (get_aie_partition_safe (image AIE_PARTITION partition_body)).
  - apply file_ok_image; [repeat constructor; vm_compute; (done || congruence)|reflexivity|reflexivity].
  - intros sec. apply section_small_image. reflexivity.
Defined.

(** Accepted: a range of [2 ^ 64 - 10] bytes at offset 50 of a section of 100 bytes. *)
Lemma is_valid_range_exact_witness :
  is_valid_range 50 (2 ^ 64 - 10) 100 = true /\ is_valid_range 50 50 100 = true /\
  is_valid_range 51 50 100 = false.
Proof.
  split; [apply (is_valid_range_exact 50 (2 ^ 64 - 10) 100); lia|].
  split; [apply (is_valid_range_exact 50 50 100); lia|reflexivity].
Defined.
