(* ===== verification/OclEvent.v ===== *)
(** OpenCL events and command queues, [src/runtime_src/xocl/core/event.cpp],
    [event.h] and [command_queue.cpp]: the status of an event, the chains by
    which an event waits for others, in-order and out-of-order queues, barriers,
    completion callbacks and profiling times, under any interleaving of threads.

    A thread is the stack of what it has still to do.  One step of a thread runs
    the code between two acquisitions of a mutex, which is how the threads of the
    program can interleave.  Event mutexes are released inside such a region,
    except in [event::queue], which keeps the mutex of the event and of the queue
    while it chains other events: [m_events_mutex] records the event that is
    being queued.  A failed [assert] or a thrown exception is a [Fault].

    Events and queues are addressed by their position in a list, which is the
    [m_uid] that the constructors hand out.  [m_wait_count] is a natural number:
    reaching [2 ^ 32] takes that many pending dependencies.  Reference counts are
    not modelled.  The fields [waits], [requested] and [m_log], [called] and
    [registered] are history: the code keeps them nowhere. *)

From S2P Require Import Prelude.

(** * Data *)

Definition CL_QUEUED : Z := 3.
Definition CL_SUBMITTED : Z := 2.
Definition CL_RUNNING : Z := 1.
Definition CL_COMPLETE : Z := 0.
Definition status_new : Z := -1.

(** The shapes of [m_enqueue_action] in [xocl/api/enqueue.cpp]: none, work done
    in place by the submitting thread (copy_buffer), or tasks scheduled one after
    the other on a thread of the device (the others; migration has many). *)
Inductive action := no_action | in_place | scheduled (more_tasks : nat).

(** [event_with_profiling]. *)
Record times := Times { m_queued : Z; m_submit : Z; m_start : Z; m_end : Z }.

Record event := Event {
  m_command_queue : option nat;
  is_barrier : bool;
  m_enqueue_action : action;
  m_status : Z;
  m_wait_count : nat;
  m_chain : list nat;
  m_callbacks : list nat;
  m_times : times;
  waits : list nat;
  requested : bool;
}.

Record command_queue := CommandQueue {
  out_of_order : bool;
  m_events : gset nat;
  m_barriers : list nat;
  m_last_queued_event : option nat;
  m_events_mutex : option nat;
  m_log : list nat;
}.

Record state := State {
  events : list event;
  queues : list command_queue;
  called : list (nat * nat);
  registered : list (nat * nat);
  now : Z;
}.

Inductive instr :=
| Construct (ev : nat) (deps : list nat)   (** the constructor, [deps] still to chain *)
| Queue (ev : nat)                         (** [event::queue] *)
| Link (ev : nat) (deps : list nat)        (** inside [command_queue::queue] *)
| Submit (ev : nat)                        (** [event::submit] *)
| Trigger (ev : nat)                       (** [event::trigger_enqueue_action] *)
| Run (ev : nat) (more : nat)              (** a task of the enqueue action *)
| Complete (ev : nat)                      (** [event::set_status(CL_COMPLETE)] *)
| Callbacks (ev : nat)                     (** [event::run_callbacks] *)
| Remove (ev : nat).                       (** the end of [event::set_status] *)

Inductive outcome :=
| Blocked
| Fault (what : string)
| Go (s : state) (next : list instr) (spawn : list (list instr)).

(** ** Updates *)

Definition on_status (f : Z -> Z) (e : event) : event :=
  Event (m_command_queue e) (is_barrier e) (m_enqueue_action e) (f (m_status e)) (m_wait_count e)
    (m_chain e) (m_callbacks e) (m_times e) (waits e) (requested e).
Definition on_wait (f : nat -> nat) (e : event) : event :=
  Event (m_command_queue e) (is_barrier e) (m_enqueue_action e) (m_status e) (f (m_wait_count e))
    (m_chain e) (m_callbacks e) (m_times e) (waits e) (requested e).
Definition on_chain (f : list nat -> list nat) (e : event) : event :=
  Event (m_command_queue e) (is_barrier e) (m_enqueue_action e) (m_status e) (m_wait_count e)
    (f (m_chain e)) (m_callbacks e) (m_times e) (waits e) (requested e).
Definition on_callbacks (f : list nat -> list nat) (e : event) : event :=
  Event (m_command_queue e) (is_barrier e) (m_enqueue_action e) (m_status e) (m_wait_count e)
    (m_chain e) (f (m_callbacks e)) (m_times e) (waits e) (requested e).
Definition on_times (f : times -> times) (e : event) : event :=
  Event (m_command_queue e) (is_barrier e) (m_enqueue_action e) (m_status e) (m_wait_count e)
    (m_chain e) (m_callbacks e) (f (m_times e)) (waits e) (requested e).
Definition on_requested (e : event) : event :=
  Event (m_command_queue e) (is_barrier e) (m_enqueue_action e) (m_status e) (m_wait_count e)
    (m_chain e) (m_callbacks e) (m_times e) (waits e) true.

Definition on_event (f : event -> event) (ev : nat) (s : state) : state :=
  State (alter f ev (events s)) (queues s) (called s) (registered s) (now s).
Definition on_queue (f : command_queue -> command_queue) (q : nat) (s : state) : state :=
  State (events s) (alter f q (queues s)) (called s) (registered s) (now s).

(** * Operations *)

(** [event_with_profiling::time_set]. *)
Definition time_set (status ns : Z) (t : times) : times :=
  if status =? CL_QUEUED then Times ns (m_submit t) (m_start t) (m_end t)
  else if status =? CL_SUBMITTED then Times (m_queued t) ns (m_start t) (m_end t)
  else if status =? CL_RUNNING then Times (m_queued t) (m_submit t) ns (m_end t)
  else if status =? CL_COMPLETE then Times (m_queued t) (m_submit t) (m_start t) ns
  else t.
Definition time_start (t : times) : Z := if m_start t =? 0 then m_end t else m_start t.

(** The status changes and the time of the change is recorded. *)
Definition enter (status ns : Z) (e : event) : event :=
  on_times (time_set status ns) (on_status (fun _ => status) e).

Definition is_hard (e : event) : bool :=
  match m_command_queue e with Some _ => true | None => false end.

(** The event is being queued: its mutex is held across steps. *)
Definition locked (s : state) (ev : nat) : bool :=
  match events s !! ev with
  | Some e => match m_command_queue e with
              | Some q => match queues s !! q with
                          | Some cq => bool_decide (m_events_mutex cq = Some ev)
                          | None => false
                          end
              | None => false
              end
  | None => false
  end.

(** [d->chain(ev)]. *)
Definition chain (d ev : nat) (s : state) (next : list instr) : outcome :=
  if locked s d then Blocked else
  match events s !! d, events s !! ev with
  | Some ed, Some e =>
      if negb (m_status e =? status_new) then Fault "chain: event is queued"
      else if m_status ed =? CL_COMPLETE then Go s next []
      else Go (on_event (on_wait S) ev (on_event (on_chain (fun l => l ++ [ev])) d s)) next []
  | _, _ => Fault "chain: no such event"
  end.

(** The events that [command_queue::queue] chains a new event to. *)
Definition chain_targets (cq : command_queue) : list nat :=
  if out_of_order cq then m_barriers cq else option_list (m_last_queued_event cq).

Definition lock (ev : nat) (cq : command_queue) : command_queue :=
  CommandQueue (out_of_order cq) (m_events cq) (m_barriers cq) (m_last_queued_event cq) (Some ev)
    (m_log cq).

(** The rest of [command_queue::queue], after the chaining. *)
Definition insert_event (ev : nat) (e : event) (cq : command_queue) : command_queue :=
  CommandQueue (out_of_order cq) ({[ev]} ∪ m_events cq)
    (if out_of_order cq && is_barrier e then m_barriers cq ++ [ev] else m_barriers cq)
    (Some ev) None (m_log cq ++ [ev]).

(** [v.erase(std::find(v.begin(), v.end(), x))]. *)
Fixpoint erase_first (x : nat) (l : list nat) : list nat :=
  match l with
  | [] => []
  | y :: l' => if decide (y = x) then l' else y :: erase_first x l'
  end.

(** [command_queue::remove] of an event that is in the queue. *)
Definition erase_event (ev : nat) (e : event) (cq : command_queue) : command_queue :=
  CommandQueue (out_of_order cq) (m_events cq ∖ {[ev]})
    (if out_of_order cq && is_barrier e then erase_first ev (m_barriers cq)
     else m_barriers cq)
    (if decide (m_last_queued_event cq = Some ev) then None else m_last_queued_event cq)
    (m_events_mutex cq) (m_log cq).

Definition queue (ev : nat) (s : state) : outcome :=
  match events s !! ev with
  | None => Fault "queue: no such event"
  | Some e =>
      match m_command_queue e with
      | None => Go (on_event (enter CL_QUEUED (now s)) ev s) [Submit ev] []
      | Some q =>
          match queues s !! q with
          | None => Fault "queue: no such queue"
          | Some cq =>
              match m_events_mutex cq with
              | Some _ => Blocked
              | None => Go (on_queue (lock ev) q s) [Link ev (chain_targets cq)] []
              end
          end
      end
  end.

Definition queue_end (ev : nat) (s : state) : outcome :=
  match events s !! ev with
  | None => Fault "queue: no such event"
  | Some e =>
      match m_command_queue e with
      | None => Fault "queue: no queue"
      | Some q => Go (on_event (enter CL_QUEUED (now s)) ev (on_queue (insert_event ev e) q s))
                    [Submit ev] []
      end
  end.

Definition submit (ev : nat) (s : state) : outcome :=
  if locked s ev then Blocked else
  match events s !! ev with
  | None => Fault "submit: no such event"
  | Some e =>
      if (m_wait_count e =? 0)%nat then Fault "submit: wait count underflow" else
      let s := on_event (on_wait pred) ev s in
      if negb (pred (m_wait_count e) =? 0)%nat then Go s [] [] else
      if is_hard e && negb (m_status e =? CL_QUEUED) then Fault "submit: event is not queued" else
      Go (on_event (enter CL_SUBMITTED (now s)) ev s) (if is_hard e then [Trigger ev] else []) []
  end.

Definition trigger_enqueue_action (ev : nat) (s : state) : outcome :=
  match events s !! ev with
  | None => Fault "trigger: no such event"
  | Some e =>
      match m_enqueue_action e with
      | no_action => Go s [Complete ev] []
      | in_place => Go s [Run ev 0] []
      | scheduled n => Go s [] [[Run ev n]]
      end
  end.

(** [event::set_status], up to the end of the locked region. *)
Definition set_status (ev : nat) (status : Z) (s : state) (next : list instr) : outcome :=
  if locked s ev then Blocked else
  match events s !! ev with
  | None => Fault "set_status: no such event"
  | Some e =>
      if m_status e =? status then
        if status =? CL_RUNNING then Go s next [] else Fault "set_status: status is already set"
      else Go (on_event (enter status (now s)) ev s)
             (if status =? CL_COMPLETE then [Callbacks ev; Remove ev] else next) []
  end.

Definition run_callbacks (ev : nat) (s : state) : outcome :=
  if locked s ev then Blocked else
  match events s !! ev with
  | None => Fault "run_callbacks: no such event"
  | Some e => Go (State (events s) (queues s) (called s ++ (pair ev <$> m_callbacks e)) (registered s)
                   (now s)) [] []
  end.

(** [queue_remove], then the submission of the chained events. *)
Definition remove (ev : nat) (s : state) : outcome :=
  match events s !! ev with
  | None => Fault "remove: no such event"
  | Some e =>
      match m_command_queue e with
      | None => Go s (Submit <$> m_chain e) []
      | Some q =>
          match queues s !! q with
          | None => Fault "remove: no such queue"
          | Some cq =>
              match m_events_mutex cq with
              | Some _ => Blocked
              | None =>
                  if negb (bool_decide (ev ∈ m_events cq)) then Fault "event never submitted"
                  else if is_barrier e && out_of_order cq && negb (bool_decide (ev ∈ m_barriers cq))
                  then Fault "remove: barrier is not listed"
                  else Go (on_queue (erase_event ev e) q s) (Submit <$> m_chain e) []
              end
          end
      end
  end.

(** One step of a thread. *)
Definition exec (i : instr) (s : state) : outcome :=
  match i with
  | Construct ev [] => Go s [Queue ev] []
  | Construct ev (d :: deps) => chain d ev s [Construct ev deps]
  | Queue ev => queue ev s
  | Link ev [] => queue_end ev s
  | Link ev (d :: deps) => chain d ev s [Link ev deps]
  | Submit ev => submit ev s
  | Trigger ev => trigger_enqueue_action ev s
  | Run ev more => set_status ev CL_RUNNING s
                     (match more with O => [Complete ev] | S n => [Run ev n] end)
  | Complete ev => set_status ev CL_COMPLETE s []
  | Callbacks ev => run_callbacks ev s
  | Remove ev => remove ev s
  end.

(** The constructor of an event: nothing is chained yet, the wait count is 1. *)
Definition new_event (cq : option nat) (barrier : bool) (act : action) (deps : list nat) : event :=
  Event cq barrier act status_new 1 [] [] (Times 0 0 0 0) deps false.
Definition new_queue (ooo : bool) : command_queue := CommandQueue ooo ∅ [] None None [].

(** [event::add_callback]. *)
Definition add_callback (ev cb : nat) (s : state) : option state :=
  match events s !! ev with
  | None => None
  | Some e =>
      if locked s ev then None
      else if m_status e =? CL_COMPLETE
      then Some (State (events s) (queues s) (called s ++ [(ev, cb)]) (registered s ++ [(ev, cb)])
                   (now s))
      else Some (State (alter (on_callbacks (fun l => l ++ [cb])) ev (events s)) (queues s) (called s)
                   (registered s ++ [(ev, cb)]) (now s))
  end.

(** [event::wait] and [command_queue::wait] return: the loops on the condition
    variables end. *)
Definition event_wait_returns (e : event) : bool := negb (0 <? m_status e).
Definition queue_wait_returns (cq : command_queue) : bool := bool_decide (m_events cq = ∅).

(** * Executions *)

Abbreviation threads := (list (list instr)).
Definition config : Type := state * threads.

(** What the application does.  An event handle is returned after the event was
    queued, so an event can only wait for events that are queued.  Only a soft
    event is completed by the application, once.  The actions of the device succeed, and nothing is
    aborted: [event::abort] is modelled in its own file, as one transition from a configuration that is
    reached by these calls, and what is proved of these configurations need not hold after it. *)
Inductive call :=
| call_queue (ooo : bool)
| call_enqueue (cq : option nat) (barrier : bool) (act : action) (deps : list nat)
| call_complete (ev : nat)
| call_callback (ev cb : nat)
| call_tick.

Definition handle (s : state) (ev : nat) : bool :=
  match events s !! ev with Some e => negb (m_status e =? status_new) | None => false end.

Definition do_call (c : call) (s : state) : option (state * threads) :=
  match c with
  | call_queue ooo => Some (State (events s) (queues s ++ [new_queue ooo]) (called s) (registered s) (now s), [])
  | call_enqueue cq barrier act deps =>
      if forallb (handle s) deps && match cq with Some q => (q <? length (queues s))%nat | None => true end
      then Some (State (events s ++ [new_event cq barrier act deps]) (queues s) (called s) (registered s) (now s),
                 [[Construct (length (events s)) deps]])
      else None
  | call_complete ev =>
      match events s !! ev with
      | Some e => if negb (is_hard e) && (m_status e =? CL_SUBMITTED) && negb (requested e)
                  then Some (on_event on_requested ev s, [[Complete ev]]) else None
      | None => None
      end
  | call_callback ev cb =>
      if handle s ev then (fun s' => (s', [])) <$> add_callback ev cb s else None
  | call_tick => Some (State (events s) (queues s) (called s) (registered s) (now s + 1), [])
  end.

Inductive step : config -> config -> Prop :=
| step_thread s ts n i k s' next spawn :
    ts !! n = Some (i :: k) -> exec i s = Go s' next spawn ->
    step (s, ts) (s', <[n := next ++ k]> ts ++ spawn)
| step_call c s ts s' spawn :
    do_call c s = Some (s', spawn) -> step (s, ts) (s', ts ++ spawn).

Definition init : config := (State [] [] [] [] 1, []).

Inductive reachable : config -> Prop :=
| reachable_init : reachable init
| reachable_step c c' : reachable c -> step c c' -> reachable c'.

(** A schedule: at every point a call of the application or a step of a thread. *)
Inductive choice := do (c : call) | go (n : nat).

Definition choose (x : choice) (c : config) : option config :=
  let '(s, ts) := c in
  match x with
  | do a => (fun '(s', spawn) => (s', ts ++ spawn)) <$> do_call a s
  | go n => match ts !! n with
            | Some (i :: k) => match exec i s with
                               | Go s' next spawn => Some (s', <[n := next ++ k]> ts ++ spawn)
                               | _ => None
                               end
            | _ => None
            end
  end.
Fixpoint run (l : list choice) (c : config) : option config :=
  match l with
  | [] => Some c
  | x :: l' => match choose x c with Some c' => run l' c' | None => None end
  end.

Lemma choose_step x c c' : choose x c = Some c' -> step c c'.
Proof.
  destruct c as [s ts]. destruct x as [a|n]; cbn.
  - destruct (do_call a s) as [[s' spawn]|] eqn:H; [|done]. intros [= <-]. by eapply step_call.
  - destruct (ts !! n) as [[|i k]|] eqn:Hn; [done| |done].
    destruct (exec i s) eqn:He; [done|done|]. intros [= <-]. by eapply step_thread.
Qed.

Lemma run_reachable l c c' : reachable c -> run l c = Some c' -> reachable c'.
Proof.
  revert c. induction l as [|x l IH]; intros c Hc; cbn; [by intros [= <-]|].
  destruct (choose x c) as [c1|] eqn:H; [|done]. apply IH. econstructor; [done|].
  by eapply choose_step.
Qed.
