(* ===== verification/OclInvariant.v ===== *)
(** Invariants of events and command queues: how many pending steps of all
    threads concern an event, and what the queues hold.  They are stated for the
    list of all pending steps, whatever thread they belong to. *)

From Stdlib Require Import Sorting.Permutation.
From S2P Require Import Prelude OclEvent.

(** * Counting *)

Abbreviation total := sum_list_with.
Abbreviation occurs := (count_occ Nat.eq_dec).

Definition same (x y : nat) : nat := if decide (x = y) then 1 else 0.

(** The steps before the event is queued; a thread holds exactly one. *)
Definition own (ev : nat) (i : instr) : nat :=
  match i with Construct e _ | Queue e | Link e _ => same ev e | _ => 0 end.
(** The steps between submission and completion. *)
Definition drv (ev : nat) (i : instr) : nat :=
  match i with Trigger e | Run e _ | Complete e => same ev e | _ => 0 end.
Definition fin (ev : nat) (i : instr) : nat :=
  match i with Remove e => same ev e | _ => 0 end.

Definition chain_of (s : state) (d : nat) : list nat :=
  match events s !! d with Some e => m_chain e | None => [] end.

(** What [ev] waits for on behalf of a pending step. *)
Definition token (s : state) (ev : nat) (i : instr) : nat :=
  match i with
  | Construct e _ | Queue e | Link e _ | Submit e => same ev e
  | Remove d => occurs (chain_of s d) ev
  | _ => 0
  end.
(** What [ev] waits for on behalf of an event that is not complete. *)
Definition held_by (ev : nat) (e : event) : nat :=
  if m_status e =? CL_COMPLETE then 0 else occurs (m_chain e) ev.

Definition subject (i : instr) : nat :=
  match i with
  | Construct e _ | Queue e | Link e _ | Submit e | Trigger e | Run e _ | Complete e
  | Callbacks e | Remove e => e
  end.

Definition waiting (e : event) : bool := (m_status e =? status_new) || (m_status e =? CL_QUEUED).
Definition started (e : event) : bool := (m_status e =? CL_SUBMITTED) || (m_status e =? CL_RUNNING).

Definition b2n (b : bool) : nat := if b then 1 else 0.

(** The invariant of one event. *)
Record event_ok (s : state) (L : list instr) (ev : nat) (e : event) : Prop := {
  eo_status : m_status e ∈ [status_new; CL_QUEUED; CL_SUBMITTED; CL_RUNNING; CL_COMPLETE];
  eo_wait : m_wait_count e = (total (held_by ev) (events s) + total (token s ev) L)%nat;
  eo_live : waiting e = true <-> (0 < m_wait_count e)%nat;
  eo_own : total (own ev) L = b2n (m_status e =? status_new);
  eo_drv : total (drv ev) L = b2n (started e && (is_hard e || requested e));
  eo_fin : le (total (fin ev) L) (b2n (m_status e =? CL_COMPLETE));
  eo_req : requested e = true -> waiting e = false;
  eo_chain : Forall (fun x => (x < length (events s))%nat) (m_chain e);
}.

Record counts (s : state) (L : list instr) : Prop := {
  co_event : forall ev e, events s !! ev = Some e -> event_ok s L ev e;
  co_subject : Forall (fun i => (subject i < length (events s))%nat) L;
}.

(** ** Sums *)

Section sums.
Context {A : Type}.
Implicit Types (f : A -> nat) (l : list A).

Lemma total_cons f x l : total f (x :: l) = (f x + total f l)%nat.
Proof. done. Qed.

Lemma total_app f l1 l2 : total f (l1 ++ l2) = (total f l1 + total f l2)%nat.
Proof. induction l1; cbn [app]; rewrite ?total_cons; [done|lia]. Qed.

Lemma total_perm f l1 l2 : Permutation l1 l2 -> total f l1 = total f l2.
Proof. induction 1; rewrite ?total_cons; lia. Qed.

Lemma total_ext f g l : (forall x, x ∈ l -> f x = g x) -> total f l = total g l.
Proof.
  induction l as [|x l IH]; intros H; [done|]. rewrite !total_cons, IH, (H x); [done|left|].
  intros y Hy. apply H. by right.
Qed.

Lemma total_zero f l : (forall x, x ∈ l -> f x = 0%nat) -> total f l = 0%nat.
Proof. intros H. rewrite (total_ext f (fun _ => 0%nat)) by done. clear H. by induction l. Qed.

Lemma total_pos f l x : x ∈ l -> (f x <= total f l)%nat.
Proof. induction 1; rewrite total_cons; lia. Qed.

Lemma total_alter f g i l x :
  l !! i = Some x -> (total f (alter g i l) + f x = total f l + f (g x))%nat.
Proof.
  revert i. induction l as [|y l IH]; intros [|i] Hi; try done.
  - injection Hi as ->. change (alter g 0%nat (x :: l)) with (g x :: l). rewrite !total_cons. lia.
  - change (alter g (S i) (y :: l)) with (y :: alter g i l). rewrite !total_cons.
    specialize (IH i Hi). lia.
Qed.
End sums.

Lemma occurs_app l1 l2 x : occurs (l1 ++ l2) x = (occurs l1 x + occurs l2 x)%nat.
Proof. apply count_occ_app. Qed.

Lemma occurs_one x y : occurs [x] y = same y x.
Proof. unfold same. cbn. destruct (Nat.eq_dec x y), (decide (y = x)); congruence. Qed.

Lemma occurs_submits s l ev : total (token s ev) (Submit <$> l) = occurs l ev.
Proof.
  induction l as [|x l IH]; [done|]. rewrite fmap_cons, total_cons, IH. cbn [token].
  change (x :: l) with ([x] ++ l). rewrite occurs_app, occurs_one. done.
Qed.

Lemma same_refl x : same x x = 1%nat.
Proof. unfold same. by rewrite decide_True. Qed.
Lemma same_ne x y : x <> y -> same x y = 0%nat.
Proof. intros H. unfold same. by rewrite decide_False. Qed.

Lemma lookup_on_event f ev s x :
  events (on_event f ev s) !! x = if decide (x = ev) then f <$> events s !! x else events s !! x.
Proof.
  cbn. destruct (decide (x = ev)) as [->|H]; [by rewrite list_lookup_alter_eq|].
  by rewrite list_lookup_alter_ne.
Qed.

(** * The counts are preserved *)

(** ** Steps that leave the events alone *)

Lemma event_ok_perm s L L' ev e : Permutation L L' -> event_ok s L ev e -> event_ok s L' ev e.
Proof.
  intros HL [H1 H2 H3 H4 H5 H6 H7 H8].
  split; [done| |done| | | |done|done]; rewrite <- ?(total_perm _ _ _ HL); done.
Qed.

Lemma counts_perm s L L' : Permutation L L' -> counts s L -> counts s L'.
Proof.
  intros HL [H1 H2]. split; [|by rewrite <- HL]. intros ev e He. eapply event_ok_perm; [done|eauto].
Qed.

(** The pending steps change, the events do not: what is counted must not. *)
Lemma counts_steps s s' K old new :
  events s' = events s ->
  (forall ev, total (token s ev) new = total (token s ev) old) ->
  (forall ev, total (own ev) new = total (own ev) old) ->
  (forall ev, total (drv ev) new = total (drv ev) old) ->
  (forall ev, total (fin ev) new <= total (fin ev) old)%nat ->
  Forall (fun i => (subject i < length (events s))%nat) new ->
  counts s (old ++ K) -> counts s' (new ++ K).
Proof.
  intros Hs Ht Ho Hd Hf Hn [H1 H2]. split.
  - intros ev e He. rewrite Hs in He. destruct (H1 ev e He) as [Q1 Q2 Q3 Q4 Q5 Q6 Q7 Q8].
    assert (forall i, token s' ev i = token s ev i) as Ht'
      by (intros []; cbn; unfold chain_of; rewrite ?Hs; done).
    split; [done| |done| | | |done|by rewrite Hs].
    + rewrite Q2, Hs, (total_ext (token s' ev) (token s ev)) by done. rewrite !total_app, Ht. done.
    + rewrite <- Q4, !total_app, Ho. done.
    + rewrite <- Q5, !total_app, Hd. done.
    + rewrite total_app in *. specialize (Hf ev). lia.
  - rewrite Hs. apply Forall_app. split; [done|]. by apply Forall_app in H2 as [_ ?].
Qed.

(** ** Steps that change one event *)

Lemma chain_of_on_event f ev s d :
  (forall e, events s !! ev = Some e -> m_chain (f e) = m_chain e) ->
  chain_of (on_event f ev s) d = chain_of s d.
Proof.
  intros H. unfold chain_of. rewrite lookup_on_event. case_decide as Hd; [|done]. subst d.
  destruct (events s !! ev) as [e|] eqn:He; cbn; [|done]. by apply H.
Qed.

Lemma token_on_event f ev s x i :
  (forall e, events s !! ev = Some e -> m_chain (f e) = m_chain e) ->
  token (on_event f ev s) x i = token s x i.
Proof. intros H. destruct i; cbn; try done. by rewrite chain_of_on_event. Qed.

(** One event changes from [e] to [f e] while the steps [old] become [new]. *)
Lemma counts_event s ev e f K old new :
  events s !! ev = Some e -> m_chain (f e) = m_chain e ->
  m_status (f e) ∈ [status_new; CL_QUEUED; CL_SUBMITTED; CL_RUNNING; CL_COMPLETE] ->
  (waiting (f e) = true <-> (0 < m_wait_count (f e))%nat) ->
  (requested (f e) = true -> waiting (f e) = false) ->
  (forall x, held_by x (f e) + total (token s x) new + (if decide (x = ev) then m_wait_count e else 0) =
     held_by x e + total (token s x) old + (if decide (x = ev) then m_wait_count (f e) else 0))%nat ->
  (forall x, total (own x) new + (if decide (x = ev) then b2n (m_status e =? status_new)%Z else 0) =
     total (own x) old + (if decide (x = ev) then b2n (m_status (f e) =? status_new)%Z else 0))%nat ->
  (forall x, total (drv x) new +
       (if decide (x = ev) then b2n (started e && (is_hard e || requested e)) else 0) =
     total (drv x) old +
       (if decide (x = ev) then b2n (started (f e) && (is_hard (f e) || requested (f e))) else 0))%nat ->
  (forall x, total (fin x) new + (if decide (x = ev) then b2n (m_status e =? CL_COMPLETE)%Z else 0) <=
     total (fin x) old + (if decide (x = ev) then b2n (m_status (f e) =? CL_COMPLETE)%Z else 0))%nat ->
  Forall (fun i => (subject i < length (events s))%nat) new ->
  counts s (old ++ K) -> counts (on_event f ev s) (new ++ K).
Proof.
  intros He Hc Hst Hlive Hreq Ht Ho Hd Hf Hn [H1 H2].
  assert (forall e0, events s !! ev = Some e0 -> m_chain (f e0) = m_chain e0) as Hc'
    by (intros e0; rewrite He; intros [= <-]; done).
  assert (length (events (on_event f ev s)) = length (events s)) as Hlen
    by (cbn; apply length_alter).
  split; [|rewrite Hlen; apply Forall_app; split; [done|by apply Forall_app in H2 as [_ ?]]].
  intros x ex Hx. rewrite lookup_on_event in Hx.
  pose proof (total_alter (held_by x) f ev (events s) e He) as Hh.
  specialize (Ht x). specialize (Ho x). specialize (Hd x). specialize (Hf x).
  assert (total (token (on_event f ev s) x) (new ++ K) = total (token s x) (new ++ K)) as Htok
    by (apply total_ext; intros; by apply token_on_event).
  case_decide as Hxe.
  - subst x. rewrite He in Hx. injection Hx as <-. destruct (H1 ev e He) as [Q1 Q2 Q3 Q4 Q5 Q6 Q7 Q8].
    rewrite !total_app in *. split; [done| |done| | | |done|by rewrite Hc, Hlen].
    + rewrite total_app, Htok. cbn [events on_event]. lia.
    + rewrite total_app. lia.
    + rewrite total_app. lia.
    + rewrite total_app. lia.
  - destruct (H1 x ex Hx) as [Q1 Q2 Q3 Q4 Q5 Q6 Q7 Q8].
    rewrite !total_app in *. split; [done| |done| | | |done|by rewrite Hlen].
    + rewrite total_app, Htok. cbn [events on_event]. lia.
    + rewrite total_app. lia.
    + rewrite total_app. lia.
    + rewrite total_app. lia.
Qed.

(** Comparing counts: case analysis on the event counted. *)
Ltac count_unfold :=
  intros; cbn [app total sum_list_with token own drv fin];
  unfold same, held_by, started, is_hard;
  cbn [m_status m_chain m_wait_count m_command_queue requested enter on_status on_times on_wait
       on_requested on_callbacks].
Ltac count_cases :=
  repeat case_decide; simplify_eq;
  cbn [b2n Z.eqb Pos.eqb CL_QUEUED CL_SUBMITTED CL_RUNNING CL_COMPLETE status_new orb andb];
  try lia.
Ltac count := count_unfold; count_cases.
Ltac count_at H := count_unfold; rewrite ?H; count_cases.

Lemma status_cases e :
  m_status e ∈ [status_new; CL_QUEUED; CL_SUBMITTED; CL_RUNNING; CL_COMPLETE] ->
  m_status e = status_new \/ m_status e = CL_QUEUED \/ m_status e = CL_SUBMITTED \/
  m_status e = CL_RUNNING \/ m_status e = CL_COMPLETE.
Proof. rewrite !elem_of_cons. intros [|[|[|[|[|?]]]]]; eauto. exfalso. by eapply not_elem_of_nil. Qed.

Lemma counts_events s s' L : events s' = events s -> counts s L -> counts s' L.
Proof.
  intros Hs H. exact (counts_steps s s' L [] [] Hs (fun _ => eq_refl) (fun _ => eq_refl) (fun _ => eq_refl)
    (fun _ => le_n _) (List.Forall_nil _) H).
Qed.

Lemma counts_own s i K ev e :
  counts s (i :: K) -> events s !! ev = Some e -> own ev i = 1%nat -> m_status e = status_new.
Proof.
  intros [H _] He Hi. pose proof (eo_own _ _ _ _ (H ev e He)) as Ho. rewrite total_cons, Hi in Ho.
  destruct (Z.eqb_spec (m_status e) status_new); [done|]. cbn in Ho. lia.
Qed.

Lemma counts_drv s i K ev e :
  counts s (i :: K) -> events s !! ev = Some e -> drv ev i = 1%nat ->
  (m_status e = CL_SUBMITTED \/ m_status e = CL_RUNNING) /\ is_hard e || requested e = true.
Proof.
  intros [H _] He Hi. pose proof (eo_drv _ _ _ _ (H ev e He)) as Hd. rewrite total_cons, Hi in Hd.
  unfold started in Hd. destruct (is_hard e || requested e); [|by rewrite andb_false_r in Hd].
  split; [|done].
  destruct (Z.eqb_spec (m_status e) CL_SUBMITTED); [by left|].
  destruct (Z.eqb_spec (m_status e) CL_RUNNING); [by right|]. done.
Qed.

Lemma counts_subject s i K : counts s (i :: K) -> exists e, events s !! subject i = Some e.
Proof. intros [_ H]. apply Forall_cons in H as [H _]. by apply lookup_lt_is_Some_2. Qed.

Ltac event_fields :=
  cbn [m_status m_chain m_wait_count m_command_queue requested enter on_status on_times on_wait
       on_requested on_callbacks on_chain].

Ltac known_status := rewrite !elem_of_cons; auto 10.

(** Queuing: from [Queue] of a soft event or [Link] of a hard one. *)
Lemma counts_queued s ev e t i K :
  events s !! ev = Some e -> i = Queue ev \/ i = Link ev [] ->
  counts s (i :: K) -> counts (on_event (enter CL_QUEUED t) ev s) (Submit ev :: K).
Proof.
  intros He Hi H. assert (own ev i = 1%nat) as Hown by (destruct Hi as [-> | ->]; apply same_refl).
  pose proof (counts_own _ _ _ _ _ H He Hown) as Hst. pose proof (co_event _ _ H ev e He) as Hok.
  apply (counts_event s ev e (enter CL_QUEUED t) K [i] [Submit ev]); [done|done|..|done]; event_fields.
  - known_status.
  - rewrite <- (eo_live _ _ _ _ Hok). unfold waiting. event_fields. by rewrite Hst.
  - intros Hr%(eo_req _ _ _ _ Hok). unfold waiting in Hr. by rewrite Hst in Hr.
  - destruct Hi as [-> | ->]; count_at Hst.
  - destruct Hi as [-> | ->]; count_at Hst.
  - destruct Hi as [-> | ->]; count_at Hst.
  - destruct Hi as [-> | ->]; count_at Hst.
  - constructor; [|done]. cbn. by eapply lookup_lt_Some.
Qed.

(** [submit] of an event that still waits. *)
Lemma counts_submit_wait s ev e K :
  events s !! ev = Some e -> pred (m_wait_count e) <> 0%nat ->
  counts s (Submit ev :: K) -> counts (on_event (on_wait pred) ev s) K.
Proof.
  intros He Hw H. assert (Hok := co_event _ _ H ev e He).
  apply (counts_event s ev e (on_wait pred) K [Submit ev] []); [done|done|..|done]; event_fields.
  - apply Hok.
  - change (waiting (on_wait pred e)) with (waiting e). rewrite (eo_live _ _ _ _ Hok). lia.
  - change (waiting (on_wait pred e)) with (waiting e). apply Hok.
  - count.
  - count.
  - count.
  - count.
  - constructor.
Qed.

Lemma on_event_twice f g ev s :
  on_event g ev (on_event f ev s) = on_event (fun e => g (f e)) ev s.
Proof.
  unfold on_event. cbn. f_equal. apply list_eq. intros x.
  destruct (decide (x = ev)) as [->|Hx].
  - rewrite !list_lookup_alter_eq. by destruct (events s !! ev).
  - by rewrite !list_lookup_alter_ne.
Qed.

(** The last [submit]: the event is queued, and it is submitted. *)
Lemma counts_submit_status s ev e K :
  events s !! ev = Some e -> pred (m_wait_count e) = 0%nat -> counts s (Submit ev :: K) ->
  m_status e = CL_QUEUED /\ m_wait_count e = 1%nat.
Proof.
  intros He Hw H. destruct (co_event _ _ H ev e He) as [Q1 Q2 Q3 Q4 Q5 Q6 Q7 Q8].
  rewrite total_cons in Q2. cbn [token] in Q2. rewrite same_refl in Q2.
  assert (m_wait_count e = 1%nat) as Hw1 by lia. split; [|done].
  assert (waiting e = true) as Hwait by (apply Q3; lia).
  unfold waiting in Hwait. apply orb_true_iff in Hwait as [Hn%Z.eqb_eq|Hq%Z.eqb_eq]; [|done].
  rewrite Hn in Q4. cbn [b2n] in Q4. rewrite total_cons in Q4. cbn [own] in Q4.
  assert (total (own ev) K <= total (token s ev) K)%nat; [|cbn in Q4; lia].
  clear. induction K as [|i K IH]; [done|]. rewrite !total_cons. destruct i; cbn [own token]; lia.
Qed.

Lemma counts_submit s ev e t K :
  events s !! ev = Some e -> pred (m_wait_count e) = 0%nat -> counts s (Submit ev :: K) ->
  counts (on_event (enter CL_SUBMITTED t) ev (on_event (on_wait pred) ev s))
    ((if is_hard e then [Trigger ev] else []) ++ K).
Proof.
  intros He Hw H. rewrite on_event_twice.
  destruct (counts_submit_status _ _ _ _ He Hw H) as [Hst Hw1].
  assert (requested e = false) as Hr.
  { destruct (requested e) eqn:Hr; [|done]. apply (eo_req _ _ _ _ (co_event _ _ H ev e He)) in Hr.
    unfold waiting in Hr. by rewrite Hst in Hr. }
  apply (counts_event s ev e (fun e => enter CL_SUBMITTED t (on_wait pred e)) K [Submit ev]);
    [done|done|..|done]; event_fields.
  - known_status.
  - rewrite Hw1. unfold waiting. event_fields. split; [done|lia].
  - by rewrite Hr.
  - destruct (is_hard e); count_at Hst.
  - destruct (is_hard e); count_at Hst.
  - unfold is_hard. destruct (m_command_queue e) eqn:Hq; count_unfold; rewrite Hst, Hr, Hq; count_cases.
  - destruct (is_hard e); count_at Hst.
  - destruct (is_hard e); [|done]. constructor; [|done]. cbn. by eapply lookup_lt_Some.
Qed.

Lemma started_count s L ev e : event_ok s L ev e -> waiting e = false -> m_wait_count e = 0%nat.
Proof.
  intros Hok Hw. pose proof (eo_live _ _ _ _ Hok) as Hl. rewrite Hw in Hl.
  destruct (m_wait_count e); [done|]. discriminate (proj2 Hl). lia.
Qed.

(** A task starts or goes on. *)
Lemma counts_running s ev e t n i K :
  events s !! ev = Some e -> drv ev i = 1%nat -> (forall x, x <> ev -> drv x i = 0%nat) ->
  counts s (Run ev n :: K) -> subject i = ev ->
  (forall x, token s x i = 0%nat /\ own x i = 0%nat /\ fin x i = 0%nat) ->
  counts (on_event (enter CL_RUNNING t) ev s) (i :: K).
Proof.
  intros He Hd Hd' H Hs Hi. pose proof (co_event _ _ H ev e He) as Hok.
  destruct (counts_drv _ _ _ _ _ H He (same_refl ev)) as [Hst Hh].
  assert (waiting e = false) as Hwait
    by (unfold waiting; destruct Hst as [-> | ->]; done).
  pose proof (started_count _ _ _ _ Hok Hwait) as Hw.
  apply (counts_event s ev e (enter CL_RUNNING t) K [Run ev n] [i]); [done|done|..|done]; event_fields.
  - known_status.
  - rewrite Hw. unfold waiting. event_fields. split; [done|lia].
  - done.
  - intros x. destruct (Hi x) as (Ht & _). count_unfold. rewrite Ht.
    destruct Hst as [Hst|Hst]; rewrite ?Hst; count_cases.
  - intros x. destruct (Hi x) as (_ & Ho & _). count_unfold. rewrite Ho.
    destruct Hst as [Hst|Hst]; rewrite ?Hst; count_cases.
  - intros x. unfold started. event_fields.
    change (is_hard (enter CL_RUNNING t e)) with (is_hard e). rewrite Hh.
    cbn [sum_list_with drv]. unfold same.
    destruct (decide (x = ev)) as [->|Hx]; [rewrite Hd|rewrite (Hd' x Hx)];
      destruct Hst as [Hst|Hst]; rewrite ?Hst; done.
  - intros x. destruct (Hi x) as (_ & _ & Hf). count_unfold. rewrite Hf.
    destruct Hst as [Hst|Hst]; rewrite ?Hst; count_cases.
  - constructor; [|done]. rewrite Hs. by eapply lookup_lt_Some.
Qed.

(** Completion: what the chain held is now held by the pending [Remove]. *)
Lemma counts_complete s ev e t K :
  events s !! ev = Some e -> counts s (Complete ev :: K) ->
  counts (on_event (enter CL_COMPLETE t) ev s) (Callbacks ev :: Remove ev :: K).
Proof.
  intros He H. pose proof (co_event _ _ H ev e He) as Hok.
  destruct (counts_drv _ _ _ _ _ H He (same_refl ev)) as [Hst Hh].
  assert (waiting e = false) as Hwait by (unfold waiting; destruct Hst as [-> | ->]; done).
  pose proof (started_count _ _ _ _ Hok Hwait) as Hw.
  apply (counts_event s ev e (enter CL_COMPLETE t) K [Complete ev] [Callbacks ev; Remove ev]);
    [done|done|..|done]; event_fields.
  - known_status.
  - rewrite Hw. unfold waiting. event_fields. split; [done|lia].
  - done.
  - count_unfold. unfold chain_of. rewrite He. destruct Hst as [Hst|Hst]; rewrite ?Hst; count_cases.
  - destruct Hst as [Hst|Hst]; count_at Hst.
  - intros x. unfold started. event_fields. rewrite Hh. change (is_hard (enter CL_COMPLETE t e)) with (is_hard e).
    rewrite Hh. cbn [sum_list_with drv]. unfold same.
    destruct (decide (x = ev)) as [->|Hx]; destruct Hst as [Hst|Hst]; rewrite ?Hst; done.
  - destruct Hst as [Hst|Hst]; count_at Hst.
  - pose proof (lookup_lt_Some _ _ _ He). by repeat constructor.
Qed.

(** The chained events are submitted one by one. *)
Lemma counts_remove s s' ev e K :
  events s' = events s -> events s !! ev = Some e ->
  counts s (Remove ev :: K) -> counts s' ((Submit <$> m_chain e) ++ K).
Proof.
  intros Hs He H. pose proof (co_event _ _ H ev e He) as Hok.
  assert (forall (f : instr -> nat), (forall x, f (Submit x) = 0%nat) -> total f (Submit <$> m_chain e) = 0%nat)
    as Hz.
  { intros f Hf. apply total_zero. intros i (x & -> & _)%list_elem_of_fmap. apply Hf. }
  apply (counts_steps s s' K [Remove ev] (Submit <$> m_chain e)); [done|..|done].
  - intros x. rewrite occurs_submits. cbn [total sum_list_with token]. unfold chain_of. rewrite He. lia.
  - intros x. by rewrite Hz.
  - intros x. by rewrite Hz.
  - intros x. rewrite Hz by done. lia.
  - apply Forall_fmap. eapply Forall_impl; [apply Hok|done].
Qed.

(** The application asks for the completion of a soft event. *)
Lemma counts_request s ev e K :
  events s !! ev = Some e -> is_hard e = false -> m_status e = CL_SUBMITTED -> requested e = false ->
  counts s K -> counts (on_event on_requested ev s) (Complete ev :: K).
Proof.
  intros He Hh Hst Hr H. pose proof (co_event _ _ H ev e He) as Hok.
  apply (counts_event s ev e on_requested K [] [Complete ev]); [done|done|..|done]; event_fields.
  - rewrite Hst. known_status.
  - apply Hok.
  - intros _. unfold waiting. event_fields. by rewrite Hst.
  - count_at Hst.
  - count_at Hst.
  - intros x. unfold started. event_fields. change (is_hard (on_requested e)) with (is_hard e).
    rewrite Hst, Hr, Hh. cbn [sum_list_with drv]. unfold same. by destruct (decide (x = ev)).
  - count_at Hst.
  - constructor; [|done]. cbn. by eapply lookup_lt_Some.
Qed.

Lemma counts_callback s ev e f K :
  events s !! ev = Some e -> counts s K -> counts (on_event (on_callbacks f) ev s) K.
Proof.
  intros He H. pose proof (co_event _ _ H ev e He) as Hok.
  apply (counts_event s ev e (on_callbacks f) K [] []); [done|done|..|done]; event_fields.
  - apply Hok.
  - apply Hok.
  - apply Hok.
  - count.
  - count.
  - count.
  - count.
  - constructor.
Qed.

(** ** Chaining *)

Lemma token_chain s d ed ev l x i :
  events s !! d = Some ed -> fin d i = 0%nat ->
  token (on_event (on_wait S) ev (on_event (on_chain l) d s)) x i = token s x i.
Proof.
  intros Hd Hf. destruct i as [| | | | | | | |d']; cbn [token]; try done.
  rewrite chain_of_on_event by done. unfold chain_of. rewrite lookup_on_event.
  case_decide as Hdd; [|done]. subst d'. cbn in Hf. by rewrite same_refl in Hf.
Qed.

Lemma held_chain s d ed ev x :
  events s !! d = Some ed -> m_status ed <> CL_COMPLETE -> (exists e, events s !! ev = Some e) ->
  total (held_by x) (events (on_event (on_wait S) ev (on_event (on_chain (fun l => l ++ [ev])) d s))) =
  (total (held_by x) (events s) + same x ev)%nat.
Proof.
  intros Hd Hst [e He]. pose proof (total_alter (held_by x) (on_chain (fun l => l ++ [ev])) d _ _ Hd) as H1.
  set (s1 := on_event (on_chain (fun l => l ++ [ev])) d s) in *.
  assert (exists e1, events s1 !! ev = Some e1) as [e1 He1]
    by (unfold s1; rewrite lookup_on_event; rewrite He; case_decide; eauto).
  pose proof (total_alter (held_by x) (on_wait S) ev _ _ He1) as H2.
  change (alter (on_wait S) ev (events s1)) with (events (on_event (on_wait S) ev s1)) in H2.
  change (alter (on_chain (fun l => l ++ [ev])) d (events s)) with (events s1) in H1.
  assert (held_by x (on_wait S e1) = held_by x e1) as He1' by done. rewrite He1' in H2.
  assert (held_by x (on_chain (fun l => l ++ [ev]) ed) = held_by x ed + same x ev)%nat as Hed.
  { unfold held_by. cbn [m_status on_chain m_chain]. rewrite (proj2 (Z.eqb_neq _ _) Hst).
    by rewrite occurs_app, occurs_one. }
  lia.
Qed.

Lemma counts_chain s d ed ev e i j K :
  events s !! d = Some ed -> m_status ed <> CL_COMPLETE ->
  events s !! ev = Some e -> own ev i = 1%nat -> subject j = ev ->
  (forall x s, token s x i = token s x j /\ own x i = own x j /\ drv x i = drv x j /\
     fin x i = 0%nat /\ fin x j = 0%nat) ->
  counts s (i :: K) ->
  counts (on_event (on_wait S) ev (on_event (on_chain (fun l => l ++ [ev])) d s)) (j :: K).
Proof.
  intros Hd Hstd He Hown Hsub Hij H. pose proof (counts_own _ _ _ _ _ H He Hown) as Hst.
  set (s' := on_event (on_wait S) ev _).
  assert (length (events s') = length (events s)) as Hlen by (cbn; by rewrite !length_alter).
  destruct H as [H1 H2]. apply Forall_cons in H2 as [_ H2].
  split; [|rewrite Hlen; constructor; [rewrite Hsub; by eapply lookup_lt_Some|done]].
  assert (forall y, y ∈ K -> fin d y = 0%nat) as Hfin.
  { intros y Hy. pose proof (eo_fin _ _ _ _ (H1 d ed Hd)) as Hf.
    rewrite (proj2 (Z.eqb_neq _ _) Hstd), total_cons in Hf. cbn [b2n] in Hf.
    pose proof (total_pos (fin d) K y Hy). lia. }
  intros x ex Hx.
  assert (total (token s' x) (j :: K) = total (token s x) (i :: K)) as Htok.
  { rewrite !total_cons. destruct (Hij x s') as (Hi1 & _). destruct (Hij x s) as (Hi2 & _). f_equal.
    - rewrite <- Hi1. eapply token_chain; [exact Hd|]. apply (Hij d s).
    - apply total_ext. intros y Hy. eapply token_chain; [exact Hd|by apply Hfin]. }
  pose proof (held_chain s d ed ev x Hd Hstd ltac:(eauto)) as Hheld. fold s' in Hheld.
  assert (exists e0, events s !! x = Some e0 /\ m_status ex = m_status e0 /\
    m_wait_count ex = (m_wait_count e0 + same x ev)%nat /\ is_hard ex = is_hard e0 /\
    requested ex = requested e0 /\ Forall (fun y => (y < length (events s))%nat) (m_chain ex))
    as (e0 & He0 & Es & Ew & Eh & Er & Ec).
  { pose proof (lookup_lt_Some _ _ _ He) as Hlt. unfold s' in Hx. rewrite !lookup_on_event in Hx.
    destruct (events s !! x) as [e0|] eqn:He0; [|by repeat case_decide].
    pose proof (eo_chain _ _ _ _ (H1 x e0 He0)) as Hc. exists e0. unfold same.
    repeat case_decide; cbn in Hx; injection Hx as <-; cbn; split_and!; try done; try lia;
      (apply Forall_app; split; [done|by repeat constructor]). }
  destruct (H1 x e0 He0) as [Q1 Q2 Q3 Q4 Q5 Q6 Q7 Q8].
  destruct (Hij x s) as (_ & Ho & Hdr & Hf1 & Hf2).
  split; unfold waiting, started in *; rewrite ?Es, ?Eh, ?Er, ?Hlen; try done.
  - rewrite Ew, Q2, Htok, Hheld. lia.
  - rewrite Ew. destruct (decide (x = ev)) as [->|Hxe]; [|rewrite same_ne, Nat.add_0_r; done].
    rewrite He in He0. injection He0 as <-. rewrite same_refl, Hst. split; [lia|done].
  - rewrite total_cons, <- Ho, <- total_cons. done.
  - rewrite total_cons, <- Hdr, <- total_cons. done.
  - rewrite total_cons in *. lia.
Qed.

(** ** A new event *)

Lemma occurs_above l n m : Forall (fun x => (x < n)%nat) l -> (n <= m)%nat -> occurs l m = 0%nat.
Proof.
  intros H Hm. apply count_occ_not_In. intros Hin. rewrite List.Forall_forall in H.
  specialize (H _ Hin). cbn in H. lia.
Qed.

Lemma counts_create s s' cq barrier act deps K :
  events s' = events s ++ [new_event cq barrier act deps] ->
  counts s K -> counts s' (Construct (length (events s)) deps :: K).
Proof.
  intros Hs [H1 H2]. set (n := length (events s)) in *.
  assert (length (events s') = S n) as Hlen by (rewrite Hs, length_app; cbn; lia).
  assert (forall x i, i ∈ K -> token s' x i = token s x i) as Htok.
  { intros x i Hi. destruct i as [| | | | | | | |d]; cbn [token]; try done. unfold chain_of.
    rewrite Hs. rewrite Forall_forall in H2. pose proof (H2 _ Hi) as Hd. cbn in Hd.
    by rewrite lookup_app_l. }
  assert (forall x, total (held_by x) (events s') = total (held_by x) (events s)) as Hheld.
  { intros x. rewrite Hs, total_app. cbn. unfold held_by. cbn. lia. }
  assert (forall (f : instr -> nat), (forall i, subject i <> n -> f i = 0%nat) -> total f K = 0%nat) as Hz.
  { intros f Hf. apply total_zero. intros i Hi. apply Hf. rewrite Forall_forall in H2.
    specialize (H2 i Hi). cbn in H2. lia. }
  split.
  - intros x ex Hx. rewrite Hs in Hx. apply lookup_snoc_Some in Hx as [[Hlt Hx]|[-> <-]].
    + destruct (H1 x ex Hx) as [Q1 Q2 Q3 Q4 Q5 Q6 Q7 Q8]. split; try done.
      * rewrite total_cons, Hheld, (total_ext (token s' x) (token s x)) by auto.
        cbn [token]. rewrite same_ne by lia. done.
      * rewrite total_cons. cbn [own]. by rewrite same_ne by lia.
      * rewrite Hlen. eapply Forall_impl; [exact Q8|]. cbn. lia.
    + fold n. split; cbn [m_status m_wait_count new_event requested m_chain]; try done.
      * apply elem_of_cons. by left.
      * rewrite total_cons, Hheld, (total_ext (token s' n) (token s n)) by auto.
        rewrite (total_zero (held_by n)), (total_zero (token s n)); cbn [token].
        -- rewrite same_refl. lia.
        -- intros i Hi. assert (subject i <> n) as Hne
             by (rewrite Forall_forall in H2; specialize (H2 i Hi); cbn in H2; lia).
           destruct i as [| | | | | | | |d]; cbn in *; try done; try (apply same_ne; congruence).
           unfold chain_of. destruct (events s !! d) as [e|] eqn:He; [|done].
           eapply occurs_above; [apply (eo_chain _ _ _ _ (H1 d e He))|]. done.
        -- intros e (d & He)%list_elem_of_lookup_1. unfold held_by. case_match; [done|].
           eapply occurs_above; [apply (eo_chain _ _ _ _ (H1 d e He))|]. done.
      * unfold waiting. cbn. split; [lia|done].
      * rewrite total_cons. cbn [own]. rewrite same_refl, Hz; [done|].
        intros i Hi. destruct i; cbn in *; try done; apply same_ne; congruence.
      * rewrite total_cons. cbn [drv]. rewrite Hz; [done|].
        intros i Hi. destruct i; cbn in *; try done; apply same_ne; congruence.
      * rewrite total_cons. cbn [fin]. rewrite Hz; [done|].
        intros i Hi. destruct i; cbn in *; try done; apply same_ne; congruence.
  - constructor; [cbn; lia|]. eapply Forall_impl; [exact H2|]. cbn. lia.
Qed.

(** ** Every step *)

Lemma counts_exec s i K s' next spawn :
  counts s (i :: K) -> exec i s = Go s' next spawn -> counts s' (next ++ mjoin spawn ++ K).
Proof.
  intros H He. destruct (counts_subject _ _ _ H) as [e Hev].
  destruct i as [ev [|d deps]|ev|ev [|d deps]|ev|ev|ev n|ev|ev|ev]; cbn [exec subject] in *.
  - injection He as <- <- <-. apply (counts_steps s s K [Construct ev []] [Queue ev]); try done.
    constructor; [|done]. by eapply lookup_lt_Some.
  - unfold chain in He. rewrite Hev in He. repeat case_match; simplify_eq; cbn [mjoin list_join app].
    + eapply (counts_steps s' s' K [Construct ev (d :: deps)] [Construct ev deps]); try done.
      constructor; [|done]. by eapply lookup_lt_Some.
    + eapply (counts_chain s _ _ ev _ (Construct ev (d :: deps))); [done|by apply Z.eqb_neq|done|apply (same_refl ev)|done|done|exact H].
  - unfold queue in He. rewrite Hev in He. repeat case_match; simplify_eq; cbn [mjoin list_join app].
    + eapply (counts_steps s _ K [Queue ev] [Link ev _]); [done|..|exact H]; try done.
      constructor; [|done]. by eapply lookup_lt_Some.
    + eapply counts_queued; [done|by left|done].
  - unfold queue_end in He. rewrite Hev in He. repeat case_match; simplify_eq; cbn [mjoin list_join app].
    eapply counts_queued; [done|by right|]. eapply counts_events; [|exact H]. done.
  - unfold chain in He. rewrite Hev in He. repeat case_match; simplify_eq; cbn [mjoin list_join app].
    + eapply (counts_steps s' s' K [Link ev (d :: deps)] [Link ev deps]); try done.
      constructor; [|done]. by eapply lookup_lt_Some.
    + eapply (counts_chain s _ _ ev _ (Link ev (d :: deps))); [done|by apply Z.eqb_neq|done|apply (same_refl ev)|done|done|exact H].
  - unfold submit in He. rewrite Hev in He. case_match; [done|]. case_match; [done|].
    cbv zeta in He. destruct (Nat.eqb_spec (pred (m_wait_count e)) 0) as [Hw|Hw]; cbn [negb] in He.
    + case_match; [done|]. injection He as <- <- <-. cbn [mjoin list_join app now on_event].
      by apply counts_submit.
    + injection He as <- <- <-. cbn [mjoin list_join app]. by eapply counts_submit_wait.
  - unfold trigger_enqueue_action in He. rewrite Hev in He.
    pose proof (lookup_lt_Some _ _ _ Hev).
    case_match; injection He as <- <- <-; cbn [mjoin list_join app].
    + apply (counts_steps s s K [Trigger ev] [Complete ev]); try done. by repeat constructor.
    + apply (counts_steps s s K [Trigger ev] [Run ev 0]); try done. by repeat constructor.
    + apply (counts_steps s s K [Trigger ev] [Run ev more_tasks]); try done. by repeat constructor.
  - unfold set_status in He. rewrite Hev in He. case_match; [done|].
    set (j := match n with O => Complete ev | S n0 => Run ev n0 end).
    replace (match n with O => [Complete ev] | S n0 => [Run ev n0] end) with [j] in He
      by (unfold j; by destruct n).
    assert (subject j = ev) as Hj by (unfold j; by destruct n).
    assert (forall x, drv x j = same x ev /\ token s x j = 0%nat /\ own x j = 0%nat /\ fin x j = 0%nat)
      as Hj' by (intros x; unfold j; by destruct n).
    case_match.
    + injection He as <- <- <-. cbn [mjoin list_join app].
      apply (counts_steps s s K [Run ev n] [j]); try done;
        try (intros x; cbn; destruct (Hj' x); lia).
      constructor; [|done]. rewrite Hj. by eapply lookup_lt_Some.
    + injection He as <- <- <-. cbn [mjoin list_join app].
      eapply counts_running; [done| | |exact H|done|].
      * destruct (Hj' ev) as [-> _]. apply same_refl.
      * intros x Hx. destruct (Hj' x) as [-> _]. by apply same_ne.
      * intros x. by destruct (Hj' x).
  - unfold set_status in He. rewrite Hev in He. case_match; [done|]. case_match; [done|].
    injection He as <- <- <-. by eapply counts_complete.
  - unfold run_callbacks in He. rewrite Hev in He. case_match; [done|]. injection He as <- <- <-.
    apply (counts_steps s _ K [Callbacks ev] []); done.
  - unfold remove in He. rewrite Hev in He. repeat case_match; simplify_eq; cbn [mjoin list_join];
      (eapply counts_remove; [|exact Hev|exact H]; done).
Qed.

Lemma counts_call s c K s' spawn :
  counts s K -> do_call c s = Some (s', spawn) -> counts s' (mjoin spawn ++ K).
Proof.
  intros H Hc. destruct c as [ooo|cq barrier act deps|ev|ev cb|]; cbn in Hc.
  - injection Hc as <- <-. by eapply counts_events; [|exact H].
  - case_match; [|done]. injection Hc as <- <-. cbn [mjoin list_join app]. by eapply counts_create.
  - destruct (events s !! ev) as [e|] eqn:He; [|done]. case_match; [|done]. injection Hc as <- <-.
    rewrite !andb_true_iff in *. destruct_and!. cbn [mjoin list_join app].
    eapply counts_request; [done|by apply negb_true_iff|by apply Z.eqb_eq|by apply negb_true_iff|done].
  - unfold add_callback in Hc. case_match; [|done].
    destruct (events s !! ev) as [e|] eqn:He; [|done].
    repeat case_match; simplify_eq; cbn in *; simplify_eq; [by eapply counts_events; [|exact H]|].
    eapply (counts_events (on_event (on_callbacks (fun l => l ++ [cb])) ev s)); [done|].
    by eapply counts_callback.
  - injection Hc as <- <-. by eapply counts_events; [|exact H].
Qed.
