(* ===== verification/OclOrder.v ===== *)
(** Invariants of the command queues and of the order in which events start:
    what a queue holds, who holds its mutex, and which events an event is linked
    to, on top of the counts of [OclInvariant]. *)

From Stdlib Require Import Sorting.Permutation.
From S2P Require Import Prelude OclEvent OclInvariant.

(** * What a step does to an event *)

Record grows (e e' : event) : Prop := {
  gr_queue : m_command_queue e' = m_command_queue e;
  gr_barrier : is_barrier e' = is_barrier e;
  gr_waits : waits e' = waits e;
  gr_chain : forall x, x ∈ m_chain e -> x ∈ m_chain e';
  gr_complete : m_status e = CL_COMPLETE -> m_status e' = CL_COMPLETE;
  gr_queued : m_status e <> status_new -> m_status e' <> status_new;
}.

Lemma grows_refl e : grows e e.
Proof. by split. Qed.

Definition events_grow (s s' : state) : Prop :=
  forall x e, events s !! x = Some e -> exists e', events s' !! x = Some e' /\ grows e e'.

Lemma events_grow_eq s s' : events s' = events s -> events_grow s s'.
Proof. intros H x e He. rewrite H. eauto using grows_refl. Qed.

Lemma events_grow_one f ev s :
  (forall e, events s !! ev = Some e -> grows e (f e)) -> events_grow s (on_event f ev s).
Proof.
  intros H x e He. rewrite lookup_on_event. rewrite He. case_decide; cbn; [|eauto using grows_refl].
  subst x. eauto.
Qed.

Lemma grows_enter status t e :
  status <> status_new -> m_status e <> CL_COMPLETE -> grows e (enter status t e).
Proof. intros H1 H2. by split. Qed.

Lemma exec_grows s i K s' next spawn :
  counts s (i :: K) -> exec i s = Go s' next spawn -> events_grow s s'.
Proof.
  intros H He. destruct (counts_subject _ _ _ H) as [e Hev].
  assert (forall d ev next' s'' next'' sp, chain d ev s next' = Go s'' next'' sp -> events_grow s s'') as Hchain.
  { intros d ev n' s'' n'' sp Hc. unfold chain in Hc. repeat case_match; simplify_eq;
      [by apply events_grow_eq|]. intros x ex Hx. rewrite !lookup_on_event, Hx.
    repeat case_decide; cbn; eexists; (split; [done|]); split; try done; cbn; set_solver. }
  destruct i as [ev [|d deps]|ev|ev [|d deps]|ev|ev|ev n|ev|ev|ev]; cbn [exec subject] in *;
    try (by eapply Hchain); try (injection He as <- _ _; by apply events_grow_eq).
  - unfold queue in He. rewrite Hev in He.
    repeat case_match; simplify_eq; [by apply events_grow_eq|]. apply events_grow_one.
    intros e0 He0. rewrite Hev in He0. injection He0 as <-. apply grows_enter; [done|].
    rewrite (counts_own _ _ _ _ _ H Hev (same_refl ev)). done.
  - unfold queue_end in He. rewrite Hev in He. case_match; [|done]. injection He as <- _ _.
    apply (events_grow_one _ _ (on_queue _ _ s)).
    intros e0 He0. cbn in He0. rewrite Hev in He0. injection He0 as <-. apply grows_enter; [done|].
    rewrite (counts_own _ _ _ _ _ H Hev (same_refl ev)). done.
  - unfold submit in He. rewrite Hev in He. case_match; [done|]. case_match; [done|]. cbv zeta in He.
    destruct (Nat.eqb_spec (pred (m_wait_count e)) 0) as [Hw|Hw]; cbn [negb] in He.
    + case_match; [done|]. injection He as <- _ _. rewrite on_event_twice. apply events_grow_one.
      intros e0 He0. rewrite Hev in He0. injection He0 as <-.
      destruct (counts_submit_status _ _ _ _ Hev Hw H) as [Hst _]. split; cbn; try done. by rewrite Hst.
    + injection He as <- _ _. apply events_grow_one. intros e0 _. by split.
  - unfold trigger_enqueue_action in He. rewrite Hev in He.
    case_match; injection He as <- _ _; by apply events_grow_eq.
  - unfold set_status in He. rewrite Hev in He. case_match; [done|].
    case_match; [injection He as <- _ _; by apply events_grow_eq|]. injection He as <- _ _.
    apply events_grow_one. intros e0 He0. rewrite Hev in He0. injection He0 as <-.
    destruct (counts_drv _ _ _ _ _ H Hev (same_refl ev)) as [Hst _].
    apply grows_enter; [done|]. by destruct Hst as [-> | ->].
  - unfold set_status in He. rewrite Hev in He. case_match; [done|]. case_match; [done|].
    injection He as <- _ _. apply events_grow_one. intros e0 He0. split; try done; cbn; done.
  - unfold run_callbacks in He. rewrite Hev in He. case_match; [done|]. injection He as <- _ _.
    by apply events_grow_eq.
  - unfold remove in He. rewrite Hev in He. repeat case_match; simplify_eq; by apply events_grow_eq.
Qed.

Lemma call_grows c s s' spawn : do_call c s = Some (s', spawn) -> events_grow s s'.
Proof.
  intros Hc. destruct c as [ooo|cq barrier act deps|ev|ev cb|]; cbn in Hc.
  - injection Hc as <- _. by apply events_grow_eq.
  - case_match; [|done]. injection Hc as <- _. intros x e He. cbn.
    rewrite lookup_app_l by (by eapply lookup_lt_Some). eauto using grows_refl.
  - destruct (events s !! ev) as [e|] eqn:He; [|done]. case_match; [|done]. injection Hc as <- _.
    apply events_grow_one. by split.
  - unfold add_callback in Hc. repeat case_match; cbn in Hc; simplify_eq;
      [by apply events_grow_eq|].
    apply (events_grow_one (on_callbacks (fun l => l ++ [cb])) ev s). by split.
  - injection Hc as <- _. by apply events_grow_eq.
Qed.

(** * Linked events *)

Definition complete (s : state) (d : nat) : Prop :=
  exists e, events s !! d = Some e /\ m_status e = CL_COMPLETE.

(** [d] is complete, or it will submit [ev] when it completes. *)
Definition linked (s : state) (d ev : nat) : Prop :=
  exists e, events s !! d = Some e /\ (m_status e = CL_COMPLETE \/ ev ∈ m_chain e).

Lemma complete_grows s s' d : events_grow s s' -> complete s d -> complete s' d.
Proof.
  intros H (e & He & Hs). destruct (H _ _ He) as (e' & He' & Hg). exists e'. split; [done|]. by apply Hg.
Qed.

Lemma linked_grows s s' d ev : events_grow s s' -> linked s d ev -> linked s' d ev.
Proof.
  intros H (e & He & Hs). destruct (H _ _ He) as (e' & He' & Hg). exists e'. split; [done|].
  destruct Hs as [Hs|Hs]; [left|right]; by apply Hg.
Qed.

Lemma occurs_pos l x : x ∈ l -> (0 < occurs l x)%nat.
Proof. intros H%list_elem_of_In. by apply (count_occ_In Nat.eq_dec) in H. Qed.

(** An event that started has only complete predecessors. *)
Lemma linked_complete s L d ev e :
  counts s L -> events s !! ev = Some e -> waiting e = false -> linked s d ev -> complete s d.
Proof.
  intros [H _] He Hw (ed & Hd & [Hs|Hin]); [by exists ed|]. exists ed. split; [done|].
  destruct (decide (m_status ed = CL_COMPLETE)) as [|Hne]; [done|exfalso].
  pose proof (started_count _ _ _ _ (H ev e He) Hw) as H0.
  pose proof (eo_wait _ _ _ _ (H ev e He)) as Hwait.
  assert (held_by ev ed <= total (held_by ev) (events s))%nat as Hh
    by (apply total_pos; by eapply list_elem_of_lookup_2).
  unfold held_by at 1 in Hh. rewrite (proj2 (Z.eqb_neq _ _) Hne) in Hh.
  pose proof (occurs_pos _ _ Hin). lia.
Qed.

(** * Queues *)

Definition active (e : event) : bool :=
  (m_status e =? CL_QUEUED) || (m_status e =? CL_SUBMITTED) || (m_status e =? CL_RUNNING).

(** [ev] belongs to the queue and was not removed from it yet. *)
Definition member (s : state) (L : list instr) (q ev : nat) : Prop :=
  exists e, events s !! ev = Some e /\ m_command_queue e = Some q /\ (active e = true \/ Remove ev ∈ L).
(** [ev] is being queued. *)
Definition linking (s : state) (L : list instr) (q ev : nat) : Prop :=
  exists e, events s !! ev = Some e /\ m_command_queue e = Some q /\ exists ds, Link ev ds ∈ L.
Definition barrier (s : state) (ev : nat) : Prop :=
  exists e, events s !! ev = Some e /\ is_barrier e = true.

Record queue_ok (s : state) (L : list instr) (q : nat) (cq : command_queue) : Prop := {
  qo_members : forall ev, ev ∈ m_events cq <-> member s L q ev;
  qo_nodup : NoDup (m_barriers cq);
  qo_barriers : forall b, b ∈ m_barriers cq <-> out_of_order cq = true /\ b ∈ m_events cq /\ barrier s b;
  qo_mutex : forall ev, m_events_mutex cq = Some ev <-> linking s L q ev;
}.

Record queues_ok (s : state) (L : list instr) : Prop := {
  qs_valid : forall ev e q, events s !! ev = Some e -> m_command_queue e = Some q -> is_Some (queues s !! q);
  qs_queue : forall q cq, queues s !! q = Some cq -> queue_ok s L q cq;
}.

Lemma queues_ok_perm s L L' : Permutation L L' -> queues_ok s L -> queues_ok s L'.
Proof.
  intros HL [H1 H2]. split; [done|]. intros q cq Hq. destruct (H2 q cq Hq) as [Q1 Q2 Q3 Q4].
  split; [|done|done|].
  - intros ev. rewrite Q1. unfold member. by setoid_rewrite HL.
  - intros ev. rewrite Q4. unfold linking. by setoid_rewrite HL.
Qed.

(** ** Steps that the queues do not see *)

Definition view (e : event) : option nat * bool * bool :=
  (m_command_queue e, is_barrier e, is_hard e && active e).

Definition same_view (s s' : state) : Prop :=
  forall ev, view <$> events s' !! ev = view <$> events s !! ev.

Lemma same_view_some s s' ev e' :
  same_view s s' -> events s' !! ev = Some e' -> exists e, events s !! ev = Some e /\ view e = view e'.
Proof.
  intros H He'. specialize (H ev). rewrite He' in H. destruct (events s !! ev) as [e|]; [|done].
  injection H as H1 H2 H3. exists e. split; [done|]. unfold view. congruence.
Qed.

Lemma same_view_sym s s' : same_view s s' -> same_view s' s.
Proof. intros H ev. by rewrite H. Qed.

Lemma same_view_eq s s' : events s' = events s -> same_view s s'.
Proof. intros H ev. by rewrite H. Qed.

Lemma same_view_one f ev s :
  (forall e, events s !! ev = Some e -> view (f e) = view e) -> same_view s (on_event f ev s).
Proof.
  intros H x. rewrite lookup_on_event. case_decide; [|done]. subst x.
  destruct (events s !! ev) as [e|] eqn:He; cbn; [|done]. f_equal. by apply H.
Qed.

Definition same_marks (L L' : list instr) : Prop :=
  (forall ev, Remove ev ∈ L' <-> Remove ev ∈ L) /\
  (forall ev, (exists ds, Link ev ds ∈ L') <-> (exists ds, Link ev ds ∈ L)).

Lemma member_view s s' L L' q ev :
  same_view s s' -> same_marks L L' -> member s L q ev -> member s' L' q ev.
Proof.
  intros Hv [Hr _] (e & He & Hq & Ha). destruct (same_view_some s' s ev e (same_view_sym _ _ Hv) He)
    as (e' & He' & Hview). injection Hview as Hv1 Hv2 Hv3. exists e'. split; [done|].
  rewrite Hv1, Hr. split; [done|]. unfold is_hard in Hv3. rewrite Hv1, Hq in Hv3. cbn in Hv3.
  by rewrite Hv3.
Qed.

Lemma linking_view s s' L L' q ev :
  same_view s s' -> same_marks L L' -> linking s L q ev -> linking s' L' q ev.
Proof.
  intros Hv [_ Hl] (e & He & Hq & Ha). destruct (same_view_some s' s ev e (same_view_sym _ _ Hv) He)
    as (e' & He' & Hview). injection Hview as Hv1 Hv2 Hv3. exists e'. split; [done|].
  rewrite Hv1. split; [done|]. by apply Hl.
Qed.

Lemma barrier_view s s' ev : same_view s s' -> barrier s ev -> barrier s' ev.
Proof.
  intros Hv (e & He & Hb). destruct (same_view_some s' s ev e (same_view_sym _ _ Hv) He)
    as (e' & He' & Hview). injection Hview as Hv1 Hv2 Hv3. exists e'. by rewrite Hv2.
Qed.

Lemma same_marks_sym L L' : same_marks L L' -> same_marks L' L.
Proof. intros [H1 H2]. split; intros ev; [by rewrite H1|by rewrite H2]. Qed.

Lemma queues_ok_view s s' L L' :
  queues s' = queues s -> same_view s s' -> same_marks L L' -> queues_ok s L -> queues_ok s' L'.
Proof.
  intros Hq Hv Hm [H1 H2]. split.
  - intros ev e q He Hc. destruct (same_view_some _ _ _ _ Hv He) as (e0 & He0 & Hview).
    injection Hview as Hv1 _ _. rewrite Hq. eapply H1; [exact He0|congruence].
  - intros q cq Hcq. rewrite Hq in Hcq. destruct (H2 q cq Hcq) as [Q1 Q2 Q3 Q4].
    pose proof (same_view_sym _ _ Hv) as Hv'. pose proof (same_marks_sym _ _ Hm) as Hm'.
    split; [|done| |].
    + intros ev. rewrite Q1. split; by apply member_view.
    + intros b. rewrite Q3. split; intros (? & ? & ?); (split_and!; [done|done|]);
        by eapply barrier_view; [|done].
    + intros ev. rewrite Q4. split; by apply linking_view.
Qed.

Lemma lookup_on_queue f q s x :
  queues (on_queue f q s) !! x = if decide (x = q) then f <$> queues s !! x else queues s !! x.
Proof.
  cbn. destruct (decide (x = q)) as [->|H]; [by rewrite list_lookup_alter_eq|].
  by rewrite list_lookup_alter_ne.
Qed.

(** ** Steps that change a queue *)

Lemma queues_ok_lock s ev e q cq ds K :
  events s !! ev = Some e -> m_command_queue e = Some q -> queues s !! q = Some cq ->
  m_events_mutex cq = None ->
  queues_ok s (Queue ev :: K) -> queues_ok (on_queue (lock ev) q s) (Link ev ds :: K).
Proof.
  intros He Hq Hcq Hm [H1 H2]. split.
  - intros x ex qx Hx Hqx. rewrite lookup_on_queue. destruct (H1 x ex qx Hx Hqx) as [c ->].
    by case_decide.
  - intros q' cq' Hcq'. rewrite lookup_on_queue in Hcq'.
    assert (forall x, member (on_queue (lock ev) q s) (Link ev ds :: K) q' x <-> member s (Queue ev :: K) q' x)
      as Hmem by (intros x; unfold member; cbn [events on_queue]; setoid_rewrite elem_of_cons;
                  split; intros (e0 & ? & ? & [?|[?|?]]); simplify_eq; eauto 10).
    case_decide as Hqq.
    + subst q'. rewrite Hcq in Hcq'. injection Hcq' as <-. destruct (H2 q cq Hcq) as [Q1 Q2 Q3 Q4].
      split; cbn [m_events m_barriers m_events_mutex lock]; try done.
      * intros x. by rewrite Hmem.
      * intros x. split.
        -- intros [= <-]. exists e. split_and!; [done|done|]. exists ds. left.
        -- intros (e0 & He0 & Hq0 & ds0 & [Hl|Hl]%elem_of_cons); [by simplify_eq|].
           assert (linking s (Queue ev :: K) q x) as Hx
             by (exists e0; split_and!; [done|done|]; exists ds0; by right).
           apply Q4 in Hx. congruence.
    + destruct (H2 q' cq' Hcq') as [Q1 Q2 Q3 Q4]. split; try done.
      * intros x. by rewrite Hmem.
      * intros x. rewrite Q4. unfold linking. cbn [events on_queue].
        split; intros (e0 & He0 & Hq0 & ds0 & [Hl|Hl]%elem_of_cons); simplify_eq.
        -- exists e0. split_and!; [done|done|]. exists ds0. by right.
        -- exists e0. split_and!; [done|done|]. exists ds0. by right.
Qed.

Lemma no_own s K ev e i ds :
  counts s (i :: K) -> events s !! ev = Some e -> own ev i = 1%nat -> Link ev ds ∈ K -> False.
Proof.
  intros [H _] He Hi Hin. pose proof (eo_own _ _ _ _ (H ev e He)) as Ho. rewrite total_cons, Hi in Ho.
  pose proof (total_pos (own ev) K _ Hin) as Hp. cbn [own] in Hp. rewrite same_refl in Hp.
  destruct (m_status e =? status_new); cbn in Ho; lia.
Qed.

Lemma no_fin s K ev e i :
  counts s (i :: K) -> events s !! ev = Some e ->
  (m_status e <> CL_COMPLETE \/ fin ev i = 1%nat) -> Remove ev ∈ K -> False.
Proof.
  intros [H _] He Hi Hin. pose proof (eo_fin _ _ _ _ (H ev e He)) as Ho. rewrite total_cons in Ho.
  pose proof (total_pos (fin ev) K _ Hin) as Hp. cbn [fin] in Hp. rewrite same_refl in Hp.
  destruct (Z.eqb_spec (m_status e) CL_COMPLETE), Hi as [Hi|Hi]; cbn in Ho; try lia; done.
Qed.

Lemma lookup_enter status t ev e s x :
  events s !! ev = Some e ->
  events (on_event (enter status t) ev s) !! x = if decide (x = ev) then Some (enter status t e) else events s !! x.
Proof. intros He. rewrite lookup_on_event. case_decide; [|done]. subst x. by rewrite He. Qed.

Section insert_step.
Context (s : state) (ev q : nat) (e : event) (cq : command_queue) (t : Z) (K : list instr).
Context (He : events s !! ev = Some e) (Hq : m_command_queue e = Some q) (Hcq : queues s !! q = Some cq).
Context (Hcnt : counts s (Link ev [] :: K)) (Hok : queues_ok s (Link ev [] :: K)).
Let s' : state := on_event (enter CL_QUEUED t) ev (on_queue (insert_event ev e) q s).

Lemma insert_lookup x :
  events s' !! x = if decide (x = ev) then Some (enter CL_QUEUED t e) else events s !! x.
Proof. exact (lookup_enter _ t ev e (on_queue (insert_event ev e) q s) x He). Qed.

Lemma insert_member q' x :
  member s' (Submit ev :: K) q' x <-> member s (Link ev [] :: K) q' x \/ (x = ev /\ q' = q).
Proof.
  assert (forall x, Remove x ∈ Submit ev :: K <-> Remove x ∈ Link ev [] :: K) as Hrem
    by (intros y; rewrite !elem_of_cons; split; intros [|]; (done || by right)).
  unfold member. rewrite insert_lookup. setoid_rewrite Hrem. case_decide as Hx.
  - subst x. split; [intros (e0 & [= <-] & Hq0 & _); cbn in Hq0; right; split; congruence|].
    intros [(e0 & He0 & Hq0 & _)|[_ ->]]; eexists; (split; [done|]); cbn.
    + split; [congruence|by left].
    + split; [done|by left].
  - split; [by left|]. intros [|[? _]]; [done|congruence].
Qed.

Lemma insert_linking q' x :
  linking s' (Submit ev :: K) q' x <-> linking s (Link ev [] :: K) q' x /\ x <> ev.
Proof.
  unfold linking. rewrite insert_lookup. split.
  - intros (e0 & He0 & Hq0 & ds & [|Hin]%elem_of_cons); [done|].
    case_decide as Hx; [subst x; exfalso; eapply no_own; [exact Hcnt|exact He|apply same_refl|done]|].
    split; [|done]. exists e0. split_and!; [done|done|]. exists ds. by right.
  - intros [(e0 & He0 & Hq0 & ds & [|Hin]%elem_of_cons) Hx]; [congruence|]. rewrite decide_False by done.
    exists e0. split_and!; [done|done|]. exists ds. by right.
Qed.

Lemma insert_barrier x : barrier s' x <-> barrier s x.
Proof.
  unfold barrier. rewrite insert_lookup. case_decide; [subst x|done].
  split; intros (e0 & He0 & Hb); eexists; (split; [done|]); simplify_eq; done.
Qed.

Lemma insert_new : ev ∉ m_events cq.
Proof.
  pose proof (counts_own _ _ _ _ _ Hcnt He (same_refl ev)) as Hst.
  rewrite (qo_members _ _ _ _ (qs_queue _ _ Hok q cq Hcq)).
  intros (e0 & He0 & _ & [Ha|Hr]); rewrite He in He0; injection He0 as <-.
  - unfold active in Ha. by rewrite Hst in Ha.
  - apply elem_of_cons in Hr as [|Hr]; [done|].
    eapply no_fin; [exact Hcnt|exact He|left; by rewrite Hst|done].
Qed.

Lemma insert_ok : queue_ok s' (Submit ev :: K) q (insert_event ev e cq).
Proof.
  pose proof insert_new as Hnew. destruct (qs_queue _ _ Hok q cq Hcq) as [Q1 Q2 Q3 Q4].
  assert (m_events_mutex cq = Some ev) as Hmx
    by (apply Q4; exists e; split_and!; [done|done|exists []; left]).
  assert (barrier s ev <-> is_barrier e = true) as Hbe
    by (unfold barrier; rewrite He; split; [intros (? & [= <-] & ?); done|eauto]).
  split; cbn [m_events m_barriers m_events_mutex insert_event out_of_order].
  - intros x. rewrite insert_member, elem_of_union, elem_of_singleton, Q1. clear. naive_solver.
  - destruct (out_of_order cq && is_barrier e); [|done]. apply NoDup_app.
    split_and!; [done| |apply NoDup_singleton].
    intros x Hx ->%list_elem_of_singleton. apply Q3 in Hx. by destruct Hx as (_ & ? & _).
  - intros b. rewrite insert_barrier, elem_of_union, elem_of_singleton.
    destruct (out_of_order cq && is_barrier e) eqn:Hob.
    + apply andb_true_iff in Hob as [Ho Hb]. rewrite elem_of_app, Q3, list_elem_of_singleton.
      clear -Ho Hb Hbe. naive_solver.
    + rewrite Q3. split; [clear; naive_solver|]. intros (Ho & [->|?] & Hb); [|done].
      apply Hbe in Hb. by rewrite Ho, Hb in Hob.
  - intros x. rewrite insert_linking, <- Q4, Hmx. split; [done|]. intros [[= <-] ?]. done.
Qed.

Lemma queues_ok_insert : queues_ok s' (Submit ev :: K).
Proof.
  split.
  - intros x ex qx Hx Hqx. change (queues s') with (queues (on_queue (insert_event ev e) q s)).
    rewrite lookup_on_queue. rewrite insert_lookup in Hx.
    assert (is_Some (queues s !! qx)) as [c ->]; [|by destruct (decide (qx = q))].
    case_decide; simplify_eq; [eapply Hok; [exact He|done]|by eapply Hok].
  - intros q' cq' Hcq'. change (queues s') with (queues (on_queue (insert_event ev e) q s)) in Hcq'.
    rewrite lookup_on_queue in Hcq'. case_decide as Hqq.
    + subst q'. rewrite Hcq in Hcq'. injection Hcq' as <-. apply insert_ok.
    + destruct (qs_queue _ _ Hok q' cq' Hcq') as [P1 P2 P3 P4]. split; [|done| |].
      * intros x. rewrite insert_member, P1. split; [by left|]. intros [|[-> ->]]; done.
      * intros b. by rewrite insert_barrier, P3.
      * intros x. rewrite insert_linking, P4. split; [|by intros [? _]]. intros Hl. split; [done|].
        intros ->. destruct Hl as (e0 & He0 & Hq0 & _). congruence.
Qed.
End insert_step.

(** Completion: the event stays in its queue until it is removed. *)
Lemma queues_ok_complete s ev e t K :
  events s !! ev = Some e -> counts s (Complete ev :: K) -> queues_ok s (Complete ev :: K) ->
  queues_ok (on_event (enter CL_COMPLETE t) ev s) (Callbacks ev :: Remove ev :: K).
Proof.
  intros He Hcnt [H1 H2]. set (s' := on_event _ ev s).
  destruct (counts_drv _ _ _ _ _ Hcnt He (same_refl ev)) as [Hst _].
  assert (forall x, events s' !! x = if decide (x = ev) then Some (enter CL_COMPLETE t e) else events s !! x)
    as Hlook by (intros x; by apply lookup_enter).
  split.
  - intros x ex qx Hx Hqx. rewrite Hlook in Hx. case_decide; simplify_eq; eapply H1; done.
  - intros q cq Hcq. destruct (H2 q cq Hcq) as [Q1 Q2 Q3 Q4]. split; [|done| |].
    + intros x. rewrite Q1. unfold member. rewrite Hlook. case_decide as Hx.
      * subst x. rewrite He. split; intros (e0 & [= <-] & Hq & _); eexists; (split; [done|]); cbn.
        -- split; [done|]. right. rewrite !elem_of_cons. auto.
        -- split; [done|]. left. unfold active. by destruct Hst as [-> | ->].
      * setoid_rewrite elem_of_cons. setoid_rewrite elem_of_cons. clear -Hx. naive_solver.
    + intros b. rewrite Q3. unfold barrier. rewrite Hlook. case_decide; [subst b|done].
      rewrite He. split; intros (? & ? & e0 & [= <-] & Hb); eauto 10.
    + intros x. rewrite Q4. unfold linking. rewrite Hlook.
      assert (forall ds, Link x ds ∈ Callbacks ev :: Remove ev :: K <-> Link x ds ∈ Complete ev :: K) as Hl
        by (intros ds; rewrite !elem_of_cons; clear; naive_solver).
      setoid_rewrite Hl. case_decide; [subst x|done].
      rewrite He. split; intros (e0 & [= <-] & Hq); eauto.
Qed.

Lemma elem_of_erase_first x l y : NoDup l -> y ∈ erase_first x l <-> y ∈ l /\ y <> x.
Proof.
  induction 1 as [|z l Hz Hl IH]; cbn [erase_first].
  - split; [intros H; by apply not_elem_of_nil in H|by intros [H _]; apply not_elem_of_nil in H].
  - case_decide as Hzx.
    + subst z. rewrite elem_of_cons. split; [intros Hy; split; [by right|by intros ->]|].
      by intros [[->|?] ?].
    + rewrite !elem_of_cons, IH. split; [intros [->|[? ?]]; auto|]. intros [[->|?] ?]; auto.
Qed.

Lemma NoDup_erase_first x l : NoDup l -> NoDup (erase_first x l).
Proof.
  induction 1 as [|z l Hz Hl IH]; cbn [erase_first]; [constructor|]. case_decide; [done|].
  constructor; [|done]. rewrite elem_of_erase_first by done. by intros [? _].
Qed.

(** Removal. *)
Lemma queues_ok_erase s ev e q cq K :
  events s !! ev = Some e -> m_command_queue e = Some q -> queues s !! q = Some cq ->
  counts s (Remove ev :: K) -> queues_ok s (Remove ev :: K) ->
  queues_ok (on_queue (erase_event ev e) q s) ((Submit <$> m_chain e) ++ K).
Proof.
  intros He Hq Hcq Hcnt [H1 H2]. set (s' := on_queue _ q s). set (L := (Submit <$> m_chain e) ++ K).
  pose proof (no_fin _ _ ev e _ Hcnt He (or_intror (same_refl ev))) as Hno.
  assert (m_status e = CL_COMPLETE) as Hst.
  { pose proof (eo_fin _ _ _ _ (co_event _ _ Hcnt ev e He)) as Hf. rewrite total_cons in Hf. cbn [fin] in Hf.
    rewrite same_refl in Hf. destruct (Z.eqb_spec (m_status e) CL_COMPLETE); [done|]. cbn in Hf. lia. }
  assert (forall i, (forall x, i <> Submit x) -> i ∈ L <-> i ∈ K) as HL.
  { intros i Hi. unfold L. rewrite elem_of_app, list_elem_of_fmap. split; [|by right].
    intros [(x & -> & _)|]; [by destruct (Hi x)|done]. }
  assert (forall q' x, member s' L q' x <-> member s (Remove ev :: K) q' x /\ x <> ev) as Hmem.
  { intros q' x. unfold member. setoid_rewrite (HL (Remove x) ltac:(done)). cbn [events on_queue s']. split.
    - intros (e0 & He0 & Hq0 & Ha). split.
      + exists e0. split_and!; [done|done|]. destruct Ha; [by left|right; by right].
      + intros ->. rewrite He in He0. injection He0 as <-. destruct Ha as [Ha|Ha]; [|done].
        unfold active in Ha. by rewrite Hst in Ha.
    - intros [(e0 & He0 & Hq0 & Ha) Hx]. exists e0. split_and!; [done|done|].
      destruct Ha as [|[|]%elem_of_cons]; [by left|congruence|by right]. }
  assert (forall q' x, linking s' L q' x <-> linking s (Remove ev :: K) q' x) as Hlnk.
  { intros q' x. unfold linking. cbn [events on_queue s'].
    split; intros (e0 & He0 & Hq0 & ds & Hl); exists e0; (split_and!; [done|done|]); exists ds.
    - right. by apply HL.
    - apply HL; [done|]. by apply elem_of_cons in Hl as [|]. }
  split.
  - intros x ex qx Hx Hqx. unfold s'. rewrite lookup_on_queue.
    destruct (H1 x ex qx Hx Hqx) as [c ->]. by case_decide.
  - intros q' cq' Hcq'. unfold s' in Hcq'. rewrite lookup_on_queue in Hcq'. case_decide as Hqq.
    + subst q'. rewrite Hcq in Hcq'. injection Hcq' as <-. destruct (H2 q cq Hcq) as [Q1 Q2 Q3 Q4].
      split; cbn [m_events m_barriers m_events_mutex erase_event out_of_order].
      * intros x. by rewrite Hmem, elem_of_difference, not_elem_of_singleton, Q1.
      * destruct (out_of_order cq && is_barrier e); [by apply NoDup_erase_first|done].
      * intros b. change (barrier s' b) with (barrier s b).
        rewrite elem_of_difference, not_elem_of_singleton.
        destruct (out_of_order cq && is_barrier e) eqn:Hob.
        -- rewrite elem_of_erase_first, Q3 by done. tauto.
        -- rewrite Q3. split; [|tauto]. intros (Ho & Hb & Hbar). split_and!; try done. intros ->.
           destruct Hbar as (e0 & He0 & Hb0). rewrite He in He0. injection He0 as <-.
           by rewrite Ho, Hb0 in Hob.
      * intros x. by rewrite Hlnk, Q4.
    + destruct (H2 q' cq' Hcq') as [P1 P2 P3 P4]. split; [|done|done|].
      * intros x. rewrite Hmem, P1. split; [|by intros [? _]]. intros Hm. split; [done|]. intros ->.
        destruct Hm as (e0 & He0 & Hq0 & _). congruence.
      * intros x. by rewrite Hlnk, P4.
Qed.

(** A new event, in a queue that exists. *)
Lemma queues_ok_create s s' cq b act deps K :
  events s' = events s ++ [new_event cq b act deps] -> queues s' = queues s ->
  (forall q, cq = Some q -> (q < length (queues s))%nat) -> counts s K ->
  queues_ok s K -> queues_ok s' (Construct (length (events s)) deps :: K).
Proof.
  intros Hs Hqs Hcq Hcnt [H1 H2]. set (n := length (events s)).
  assert (forall x e, events s !! x = Some e -> events s' !! x = Some e) as Hold
    by (intros x e He; rewrite Hs, lookup_app_l; [done|by eapply lookup_lt_Some]).
  assert (forall x e, events s' !! x = Some e -> events s !! x = Some e \/
            (x = n /\ e = new_event cq b act deps)) as Hnew.
  { intros x e He. rewrite Hs in He. apply lookup_snoc_Some in He as [[_ He]|[-> <-]]; auto. }
  assert (forall i, subject i = n -> i ∉ K) as Hfresh.
  { intros i Hi Hin. pose proof (co_subject _ _ Hcnt) as Hf. rewrite Forall_forall in Hf.
    specialize (Hf i Hin). cbn in Hf. unfold n in Hi. lia. }
  split; rewrite Hqs.
  - intros x e q He Hq. apply Hnew in He as [He|[-> ->]]; [by eapply H1|].
    apply lookup_lt_is_Some_2. by apply Hcq.
  - intros q cq0 Hq. destruct (H2 q cq0 Hq) as [Q1 Q2 Q3 Q4].
    split; [|done| |].
    + intros x. rewrite Q1. unfold member. setoid_rewrite elem_of_cons. split.
      * intros (e & He & ? & ?). exists e. split; [by apply Hold|]. naive_solver.
      * intros (e & He & Hqe & Ha). apply Hnew in He as [He|[-> ->]]; [exists e; naive_solver|].
        destruct Ha as [|[|Hr]]; [done|done|]. by apply Hfresh in Hr.
    + intros x. rewrite Q3. unfold barrier. split.
      * intros (? & ? & e & He & ?). split_and!; [done|done|]. exists e. split; [by apply Hold|done].
      * intros (? & Hx & e & He & ?). split_and!; [done|done|]. apply Hnew in He as [He|[-> ->]]; [eauto|].
        apply Q1 in Hx as (e & He & _). apply lookup_lt_Some in He. unfold n in He. lia.
    + intros x. rewrite Q4. unfold linking. setoid_rewrite elem_of_cons. split.
      * intros (e & He & ? & ds & ?). exists e. split; [by apply Hold|]. eauto.
      * intros (e & He & ? & ds & [|Hl]); [done|]. apply Hnew in He as [He|[-> ->]]; [eauto|].
        by apply Hfresh in Hl.
Qed.

Lemma queues_ok_new s s' ooo K :
  events s' = events s -> queues s' = queues s ++ [new_queue ooo] -> queues_ok s K -> queues_ok s' K.
Proof.
  intros Hs Hqs [H1 H2]. split.
  - intros x e q. rewrite Hs, Hqs. intros He Hq. destruct (H1 x e q He Hq) as [c Hc].
    rewrite lookup_app_l by (by eapply lookup_lt_Some). eauto.
  - assert (same_view s s') as Hv by (by apply same_view_eq).
    assert (same_marks K K) as Hm by done.
    intros q cq Hq. rewrite Hqs in Hq. apply lookup_snoc_Some in Hq as [[_ Hq]|[-> <-]].
    + destruct (H2 q cq Hq) as [Q1 Q2 Q3 Q4]. split; [|done| |]; intros x.
      * rewrite Q1. unfold member. by rewrite Hs.
      * rewrite Q3. unfold barrier. by rewrite Hs.
      * rewrite Q4. unfold linking. by rewrite Hs.
    + assert (forall x e, events s !! x = Some e -> m_command_queue e <> Some (length (queues s))) as Hno.
      { intros x e He Hq. destruct (H1 x e _ He Hq) as [c Hc]. apply lookup_lt_Some in Hc. lia. }
      split; [|constructor| |]; intros x; cbn.
      * split; [by intros ?%not_elem_of_empty|]. intros (e & He & Hq & _). rewrite Hs in He. by destruct (Hno x e).
      * split; [intros H; by apply not_elem_of_nil in H|]. by intros (_ & ?%not_elem_of_empty & _).
      * split; [done|]. intros (e & He & Hq & _). rewrite Hs in He. by destruct (Hno x e).
Qed.

(** ** Every step *)

Lemma same_marks_cons L i j :
  (forall ev, i <> Remove ev) -> (forall ev ds, i <> Link ev ds) ->
  (forall ev, j <> Remove ev) -> (forall ev ds, j <> Link ev ds) -> same_marks (i :: L) (j :: L).
Proof.
  intros Hi1 Hi2 Hj1 Hj2. split; intros ev.
  - rewrite !elem_of_cons. split; intros [H|H]; try (by right); exfalso; [by eapply Hj1|by eapply Hi1].
  - split; intros [ds [H|H]%elem_of_cons].
    + exfalso. by eapply Hj2.
    + exists ds. by right.
    + exfalso. by eapply Hi2.
    + exists ds. by right.
Qed.

Lemma same_marks_drop L i :
  (forall ev, i <> Remove ev) -> (forall ev ds, i <> Link ev ds) -> same_marks (i :: L) L.
Proof.
  intros H1 H2. split; intros ev; [rewrite elem_of_cons; split; [by right|intros [H|]; [by destruct (H1 ev)|done]]|].
  split; intros [ds Hd]; [exists ds; by right|]. apply elem_of_cons in Hd as [Hd|Hd]; [by destruct (H2 ev ds)|eauto].
Qed.

Lemma view_active f e :
  m_command_queue (f e) = m_command_queue e -> is_barrier (f e) = is_barrier e ->
  active (f e) = active e -> view (f e) = view e.
Proof. intros H1 H2 H3. unfold view, is_hard. by rewrite H1, H2, H3. Qed.

Lemma chain_view d ev s next s' next' spawn :
  chain d ev s next = Go s' next' spawn ->
  same_view s s' /\ queues s' = queues s /\ next' = next /\ spawn = [].
Proof.
  unfold chain. intros H. repeat case_match; simplify_eq; (split; [|done]); [done|].
  intros x. rewrite !lookup_on_event. repeat case_decide; destruct (events s !! x); done.
Qed.

Lemma queues_ok_soft s ev e K :
  events s !! ev = Some e -> m_command_queue e = None ->
  queues_ok s (Remove ev :: K) -> queues_ok s ((Submit <$> m_chain e) ++ K).
Proof.
  intros He Hq [H1 H2]. split; [done|]. intros q cq Hcq. destruct (H2 q cq Hcq) as [Q1 Q2 Q3 Q4].
  assert (forall i, (forall x, i <> Submit x) -> i ∈ (Submit <$> m_chain e) ++ K <-> i ∈ K) as HL.
  { intros i Hi. rewrite elem_of_app, list_elem_of_fmap. split; [|by right].
    intros [(x & -> & _)|]; [by destruct (Hi x)|done]. }
  split; [|done|done|]; intros x.
  - rewrite Q1. unfold member. setoid_rewrite (HL (Remove x) ltac:(done)). setoid_rewrite elem_of_cons.
    split; intros (e0 & He0 & Hq0 & Ha); exists e0; (split_and!; [done|done|]).
    + destruct Ha as [|[[= ->]|]]; [by left|congruence|by right].
    + destruct Ha as [|]; auto.
  - rewrite Q4. unfold linking. setoid_rewrite elem_of_cons.
    split; intros (e0 & He0 & Hq0 & ds & Hl); exists e0; (split_and!; [done|done|]); exists ds.
    + apply HL; [done|]. by destruct Hl.
    + right. by apply HL in Hl.
Qed.

Lemma queues_ok_exec s i K s' next spawn :
  counts s (i :: K) -> queues_ok s (i :: K) -> exec i s = Go s' next spawn ->
  queues_ok s' (next ++ mjoin spawn ++ K).
Proof.
  intros Hc H He. destruct (counts_subject _ _ _ Hc) as [e Hev].
  destruct i as [ev [|d deps]|ev|ev [|d deps]|ev|ev|ev n|ev|ev|ev]; cbn [exec subject] in *.
  - injection He as <- <- <-. eapply (queues_ok_view s); [done|done| |exact H]. by apply same_marks_cons.
  - apply chain_view in He as (Hv & Hq & -> & ->).
    eapply (queues_ok_view s); [done|done| |exact H]. by apply same_marks_cons.
  - unfold queue in He. rewrite Hev in He. destruct (m_command_queue e) as [q|] eqn:Hq.
    + repeat case_match; simplify_eq. cbn [mjoin list_join app]. by eapply queues_ok_lock.
    + injection He as <- <- <-. eapply (queues_ok_view s); [done| | |exact H]; [|by apply same_marks_cons].
      apply same_view_one. intros e0 He0. rewrite Hev in He0. injection He0 as <-.
      unfold view, is_hard. cbn. by rewrite Hq.
  - unfold queue_end in He. rewrite Hev in He. destruct (m_command_queue e) as [q|] eqn:Hq; [|done].
    injection He as <- <- <-. destruct (qs_valid _ _ H ev e q Hev Hq) as [cq Hcq].
    by eapply queues_ok_insert.
  - apply chain_view in He as (Hv & Hq & -> & ->).
    eapply (queues_ok_view s); [done|done| |exact H]. split; intros x.
    + cbn. rewrite !elem_of_cons. split; intros [|]; try done; by right.
    + split; intros [ds [Hd|Hd]%elem_of_cons]; simplify_eq; eexists; try (by left); by right.
  - unfold submit in He. rewrite Hev in He. case_match; [done|]. case_match; [done|]. cbv zeta in He.
    destruct (Nat.eqb_spec (pred (m_wait_count e)) 0) as [Hw|Hw]; cbn [negb] in He.
    + case_match; [done|]. injection He as <- <- <-. destruct (counts_submit_status _ _ _ _ Hev Hw Hc) as [Hst _].
      eapply (queues_ok_view s); [done| | |exact H].
      * rewrite on_event_twice. apply same_view_one. intros e0 He0. rewrite Hev in He0. injection He0 as <-.
        apply (view_active (fun e => enter CL_SUBMITTED _ (on_wait pred e))); [done|done|]. unfold active. cbn. by rewrite Hst.
      * destruct (is_hard e); [by apply same_marks_cons|by apply same_marks_drop].
    + injection He as <- <- <-. eapply (queues_ok_view s); [done| | |exact H]; [|by apply same_marks_drop].
      by apply same_view_one.
  - unfold trigger_enqueue_action in He. rewrite Hev in He.
    case_match; injection He as <- <- <-; (eapply (queues_ok_view s); [done|done| |exact H]); by apply same_marks_cons.
  - unfold set_status in He. rewrite Hev in He. case_match; [done|].
    destruct (counts_drv _ _ _ _ _ Hc Hev (same_refl ev)) as [Hst _].
    case_match; injection He as <- <- <-; (eapply (queues_ok_view s); [done| | |exact H]).
    + done.
    + destruct n; by apply same_marks_cons.
    + apply same_view_one. intros e0 He0. rewrite Hev in He0. injection He0 as <-.
      apply view_active; [done|done|]. unfold active. cbn. by destruct Hst as [-> | ->].
    + destruct n; by apply same_marks_cons.
  - unfold set_status in He. rewrite Hev in He. case_match; [done|]. case_match; [done|].
    injection He as <- <- <-. by eapply queues_ok_complete.
  - unfold run_callbacks in He. rewrite Hev in He. case_match; [done|]. injection He as <- <- <-.
    eapply (queues_ok_view s); [done|by apply same_view_eq| |exact H]. by apply same_marks_drop.
  - unfold remove in He. rewrite Hev in He. destruct (m_command_queue e) as [q|] eqn:Hq.
    + repeat case_match; simplify_eq. cbn [mjoin list_join]. by eapply queues_ok_erase.
    + injection He as <- <- <-. cbn [mjoin list_join]. by eapply queues_ok_soft.
Qed.

Lemma queues_ok_call s c K s' spawn :
  counts s K -> queues_ok s K -> do_call c s = Some (s', spawn) -> queues_ok s' (mjoin spawn ++ K).
Proof.
  intros Hc H Hd. destruct c as [ooo|cq b act deps|ev|ev cb|]; cbn in Hd.
  - injection Hd as <- <-. by eapply queues_ok_new; [| |exact H].
  - case_match; [|done]. injection Hd as <- <-. cbn [mjoin list_join app].
    eapply queues_ok_create; [done|done| |done|done]. intros q ->. rewrite andb_true_iff in *.
    destruct_and!. by apply Nat.ltb_lt.
  - destruct (events s !! ev) as [e|] eqn:He; [|done]. case_match; [|done]. injection Hd as <- <-.
    eapply (queues_ok_view s); [done|by apply same_view_one| |exact H].
    apply same_marks_sym. by apply same_marks_drop.
  - unfold add_callback in Hd. repeat case_match; cbn in Hd; simplify_eq; cbn in *; simplify_eq;
      (eapply (queues_ok_view s); [done| |done|exact H]); [by apply same_view_eq|].
    by apply (same_view_one (on_callbacks (fun l => l ++ [cb])) ev s).
  - injection Hd as <- <-. eapply (queues_ok_view s); [done|by apply same_view_eq|done|exact H].
Qed.
