(* ===== verification/OclQueueOrder.v ===== *)
(** Which events must wait for which: the wait lists of the application, the
    previous event of an in-order queue, the barriers of an out-of-order queue.
    The invariants say that every such pair is linked, from which the order of
    execution follows with the counts of [OclInvariant]. *)

From Stdlib Require Import Sorting.Permutation.
From S2P Require Import Prelude OclEvent OclInvariant OclOrder.

(** * Kinds of steps *)

Definition plain (i : instr) : Prop :=
  match i with Construct _ _ | Link _ _ => False | _ => True end.

(** No hard event becomes queued. *)
Definition none_queued (s s' : state) : Prop :=
  forall ev e' q, events s' !! ev = Some e' -> m_command_queue e' = Some q -> m_status e' <> status_new ->
  exists e, events s !! ev = Some e /\ m_status e <> status_new.

Inductive effect (s : state) (i : instr) (s' : state) (new : list instr) : Prop :=
| eff_plain : plain i -> Forall plain new -> queues s' = queues s -> none_queued s s' -> effect s i s' new
| eff_constructed ev : i = Construct ev [] -> s' = s -> new = [Queue ev] -> effect s i s' new
| eff_chain d ev ds (b : bool) :
    i = (if b then Construct ev (d :: ds) else Link ev (d :: ds)) ->
    new = [if b then Construct ev ds else Link ev ds] ->
    queues s' = queues s -> none_queued s s' -> linked s' d ev -> effect s i s' new
| eff_lock ev e q cq :
    i = Queue ev -> events s !! ev = Some e -> m_command_queue e = Some q -> queues s !! q = Some cq ->
    s' = on_queue (lock ev) q s -> new = [Link ev (chain_targets cq)] -> effect s i s' new
| eff_insert ev e q cq :
    i = Link ev [] -> events s !! ev = Some e -> m_command_queue e = Some q -> queues s !! q = Some cq ->
    s' = on_event (enter CL_QUEUED (now s)) ev (on_queue (insert_event ev e) q s) ->
    new = [Submit ev] -> effect s i s' new
| eff_erase ev e q cq :
    i = Remove ev -> events s !! ev = Some e -> m_command_queue e = Some q -> queues s !! q = Some cq ->
    s' = on_queue (erase_event ev e) q s -> Forall plain new -> effect s i s' new.

Lemma none_queued_eq s s' : events s' = events s -> none_queued s s'.
Proof. intros H ev e q He _ Hs. rewrite H in He. eauto. Qed.

Lemma none_queued_one s f ev :
  (forall e, events s !! ev = Some e -> m_command_queue (f e) = None \/
     (m_status (f e) <> status_new -> m_status e <> status_new)) ->
  none_queued s (on_event f ev s).
Proof.
  intros H x e' q He Hq Hs. rewrite lookup_on_event in He. case_decide; [subst x|eauto].
  destruct (events s !! ev) as [e|]; [|done]. cbn in He. injection He as <-.
  destruct (H e eq_refl) as [Hn|Hn]; [congruence|eauto].
Qed.

Lemma chain_effect d ev s next s' next' spawn :
  chain d ev s next = Go s' next' spawn ->
  queues s' = queues s /\ none_queued s s' /\ linked s' d ev /\ next' = next /\ spawn = [].
Proof.
  unfold chain. intros H. repeat case_match; simplify_eq.
  - split_and!; try done; [by apply none_queued_eq|]. eexists. split; [done|]. left. by apply Z.eqb_eq.
  - split_and!; try done.
    + intros x e' q. rewrite !lookup_on_event. destruct (events s !! x) as [ex|];
        repeat case_decide; cbn; try done; intros [= <-] _ Hs; cbn in Hs; eauto.
    + unfold linked. rewrite !lookup_on_event.
      match goal with H : events s !! d = Some _ |- _ => rewrite H end.
      repeat case_decide; try done; cbn; eexists; (split; [done|]); right; cbn;
        apply elem_of_app; right; apply elem_of_cons; by left.
Qed.

Lemma exec_effect s i K s' next spawn :
  counts s (i :: K) -> queues_ok s (i :: K) -> exec i s = Go s' next spawn ->
  effect s i s' (next ++ mjoin spawn).
Proof.
  intros Hc Hqs He. destruct (counts_subject _ _ _ Hc) as [e Hev].
  destruct i as [ev [|d deps]|ev|ev [|d deps]|ev|ev|ev n|ev|ev|ev]; cbn [exec subject] in *.
  - injection He as <- <- <-. by eapply eff_constructed.
  - apply chain_effect in He as (? & ? & ? & -> & ->). by eapply (eff_chain _ _ _ _ d ev deps true).
  - unfold queue in He. rewrite Hev in He. destruct (m_command_queue e) as [q|] eqn:Hq.
    + repeat case_match; simplify_eq. by eapply eff_lock.
    + injection He as <- <- <-. apply eff_plain; [done|by repeat constructor|done|].
      apply none_queued_one. intros e0 He0. rewrite Hev in He0. injection He0 as <-. by left.
  - unfold queue_end in He. rewrite Hev in He. destruct (m_command_queue e) as [q|] eqn:Hq; [|done].
    injection He as <- <- <-. destruct (qs_valid _ _ Hqs ev e q Hev Hq) as [cq Hcq]. by eapply eff_insert.
  - apply chain_effect in He as (? & ? & ? & -> & ->). by eapply (eff_chain _ _ _ _ d ev deps false).
  - unfold submit in He. rewrite Hev in He. case_match; [done|]. case_match; [done|]. cbv zeta in He.
    destruct (Nat.eqb_spec (pred (m_wait_count e)) 0) as [Hw|Hw]; cbn [negb] in He.
    + case_match; [done|]. injection He as <- <- <-.
      apply eff_plain; [done|destruct (is_hard e); by repeat constructor|done|].
      rewrite on_event_twice. apply none_queued_one. intros e0 He0. rewrite Hev in He0. injection He0 as <-.
      right. destruct (counts_submit_status _ _ _ _ Hev Hw Hc) as [-> _]. done.
    + injection He as <- <- <-. apply eff_plain; [done|by constructor|done|].
      apply none_queued_one. intros. by right.
  - unfold trigger_enqueue_action in He. rewrite Hev in He.
    case_match; injection He as <- <- <-; apply eff_plain; (done || by repeat constructor || by apply none_queued_eq).
  - unfold set_status in He. rewrite Hev in He. case_match; [done|].
    assert (Forall plain (match n with O => [Complete ev] | S n0 => [Run ev n0] end))
      by (destruct n; by repeat constructor).
    destruct (counts_drv _ _ _ _ _ Hc Hev (same_refl ev)) as [Hst _].
    destruct (m_status e =? CL_RUNNING); cbn [Z.eqb Pos.eqb CL_RUNNING CL_COMPLETE] in He;
      injection He as <- <- <-; cbn [mjoin list_join]; rewrite app_nil_r;
      (apply eff_plain; [done|done|done|]); [by apply none_queued_eq|].
    apply none_queued_one. intros e0 He0. rewrite Hev in He0. injection He0 as <-. right.
    by destruct Hst as [-> | ->].
  - unfold set_status in He. rewrite Hev in He. case_match; [done|]. case_match; [done|].
    injection He as <- <- <-. apply eff_plain; [done|by repeat constructor|done|].
    destruct (counts_drv _ _ _ _ _ Hc Hev (same_refl ev)) as [Hst _].
    apply none_queued_one. intros e0 He0. rewrite Hev in He0. injection He0 as <-. right.
    by destruct Hst as [-> | ->].
  - unfold run_callbacks in He. rewrite Hev in He. case_match; [done|]. injection He as <- <- <-.
    apply eff_plain; [done|by constructor|done|by apply none_queued_eq].
  - assert (Forall plain (Submit <$> m_chain e)) as Hp by (apply Forall_fmap, Forall_true; done).
    unfold remove in He. rewrite Hev in He. destruct (m_command_queue e) as [q|] eqn:Hq.
    + repeat case_match; simplify_eq. eapply eff_erase; [done..|]. cbn. by rewrite app_nil_r.
    + injection He as <- <- <-. cbn. rewrite app_nil_r. apply eff_plain; [done|done|done|by apply none_queued_eq].
Qed.

(** * Links that must exist *)

Definition handled (s : state) (d : nat) : Prop :=
  exists e, events s !! d = Some e /\ m_status e <> status_new.

Record waits_ok (s : state) (L : list instr) : Prop := {
  wo_handles : forall ev ds, Construct ev ds ∈ L \/ Link ev ds ∈ L -> Forall (handled s) ds;
  wo_waits : forall ev e d, events s !! ev = Some e -> d ∈ waits e ->
    linked s d ev \/ exists ds, Construct ev ds ∈ L /\ d ∈ ds;
  wo_link : forall ev ds e q cq x, Link ev ds ∈ L -> events s !! ev = Some e ->
    m_command_queue e = Some q -> queues s !! q = Some cq -> x ∈ chain_targets cq ->
    x ∈ ds \/ linked s x ev;
}.

Record log_ok (s : state) (q : nat) (cq : command_queue) : Prop := {
  lo_events : forall x, x ∈ m_log cq ->
    exists e, events s !! x = Some e /\ m_command_queue e = Some q /\ m_status e <> status_new;
  lo_all : forall x e, events s !! x = Some e -> m_command_queue e = Some q ->
    m_status e <> status_new -> x ∈ m_log cq;
  lo_in_order : out_of_order cq = false -> forall i a b,
    m_log cq !! i = Some a -> m_log cq !! S i = Some b -> linked s a b;
  lo_last : out_of_order cq = false ->
    match m_last_queued_event cq with
    | Some x => last (m_log cq) = Some x
    | None => forall x, x ∈ m_log cq -> complete s x
    end;
  lo_ooo : out_of_order cq = true -> forall i j a b, (i < j)%nat ->
    m_log cq !! i = Some a -> m_log cq !! j = Some b -> barrier s a -> linked s a b;
  lo_barriers : out_of_order cq = true -> forall a, a ∈ m_log cq -> barrier s a ->
    a ∈ m_barriers cq \/ complete s a;
}.

Definition logs_ok (s : state) : Prop := forall q cq, queues s !! q = Some cq -> log_ok s q cq.

Lemma handled_grows s s' d : events_grow s s' -> handled s d -> handled s' d.
Proof.
  intros H (e & He & Hs). destruct (H _ _ He) as (e' & He' & Hg). exists e'. split; [done|]. by apply Hg.
Qed.

Lemma waits_ok_perm s L L' : Permutation L L' -> waits_ok s L -> waits_ok s L'.
Proof.
  intros HL [H1 H2 H3]. split.
  - intros ev ds. rewrite <- HL. apply H1.
  - intros ev e d He Hd. destruct (H2 ev e d He Hd) as [|(ds & Hds & Hin)]; [by left|right].
    exists ds. by rewrite <- HL.
  - intros ev ds e q cq x. rewrite <- HL. apply H3.
Qed.

(** An event of an in-order queue that started was preceded by complete events. *)
Lemma in_order_before s L q cq j b e :
  counts s L -> log_ok s q cq -> out_of_order cq = false ->
  m_log cq !! j = Some b -> events s !! b = Some e -> waiting e = false ->
  forall i a, (i < j)%nat -> m_log cq !! i = Some a -> complete s a.
Proof.
  intros Hc Hl Ho. revert b e. induction j as [|j IH]; intros b e Hj He Hw i a Hi Ha; [lia|].
  destruct (lookup_lt_is_Some_2 (m_log cq) j) as [a' Ha']; [apply lookup_lt_Some in Hj; lia|].
  assert (complete s a') as Hca
    by (eapply linked_complete; [exact Hc|exact He|done|]; by eapply lo_in_order).
  destruct (decide (i = j)) as [->|Hne]; [congruence|].
  pose proof Hca as (e' & He' & Hs'). eapply (IH a' e') with (i := i); [done|done| |lia|done].
  unfold waiting. by rewrite Hs'.
Qed.

(** ** Logs *)

Lemma barrier_grows s s' a : events_grow s s' -> handled s a -> barrier s' a -> barrier s a.
Proof.
  intros H (e & He & _) (e' & He' & Hb). destruct (H _ _ He) as (e'' & He'' & Hg).
  exists e. split; [done|]. rewrite He' in He''. injection He'' as <-. by rewrite <- (gr_barrier _ _ Hg).
Qed.

Lemma log_ok_grows s s' q cq cq' :
  events_grow s s' ->
  (forall x e', events s' !! x = Some e' -> m_command_queue e' = Some q -> m_status e' <> status_new ->
     exists e, events s !! x = Some e /\ m_status e <> status_new) ->
  m_log cq' = m_log cq -> out_of_order cq' = out_of_order cq ->
  (m_last_queued_event cq' = m_last_queued_event cq \/
   (m_last_queued_event cq' = None /\ (out_of_order cq = false -> forall x, x ∈ m_log cq -> complete s' x))) ->
  (forall a, a ∈ m_barriers cq -> a ∈ m_barriers cq' \/ complete s' a) ->
  log_ok s q cq -> log_ok s' q cq'.
Proof.
  intros Hg Hn Hlog Hooo Hlast Hbar [L1 L2 L3 L4 L5 L6].
  assert (forall x, x ∈ m_log cq -> handled s x) as Hh
    by (intros x (e & ? & _ & ?)%L1; by exists e).
  split; rewrite ?Hlog, ?Hooo.
  - intros x (e & He & Hq & Hs)%L1. destruct (Hg _ _ He) as (e' & He' & G). exists e'.
    split_and!; [done|by rewrite (gr_queue _ _ G)|by apply G].
  - intros x e' He' Hq Hs. destruct (Hn x e' He' Hq Hs) as (e & He & Hs').
    eapply L2; [done| |done]. destruct (Hg _ _ He) as (e'' & He'' & G). rewrite He' in He''. injection He'' as <-.
    by rewrite <- (gr_queue _ _ G).
  - intros Ho i a b Ha Hb. eapply linked_grows; [done|]. by eapply L3.
  - intros Ho. destruct Hlast as [->|[-> Hc]]; [|by apply Hc]. specialize (L4 Ho).
    destruct (m_last_queued_event cq); [done|]. intros x Hx. eapply complete_grows; [done|]. by apply L4.
  - intros Ho i j a b Hij Ha Hb Hba. eapply linked_grows; [done|]. eapply L5; [done..|].
    eapply barrier_grows; [done| |done]. apply Hh. by eapply list_elem_of_lookup_2.
  - intros Ho a Ha Hba. destruct (L6 Ho a Ha) as [Hin|Hc]; [|by apply Hbar|].
    + eapply barrier_grows; [done| |done]. by apply Hh.
    + right. by eapply complete_grows.
Qed.

Lemma last_lookup_S {A} (l : list A) x : last l = Some x -> l !! pred (length l) = Some x.
Proof. intros H. by rewrite <- last_lookup. Qed.

(** Appending [ev], to which every chaining target is linked. *)
Lemma log_ok_insert s s' ev e q cq :
  events_grow s s' -> events s !! ev = Some e -> m_command_queue e = Some q -> m_status e = status_new ->
  (forall x e', events s' !! x = Some e' -> m_status e' <> status_new -> x = ev \/ handled s x) ->
  handled s' ev ->
  (forall x, x ∈ chain_targets cq -> linked s x ev) ->
  log_ok s q cq -> log_ok s' q (insert_event ev e cq).
Proof.
  intros Hg He Hq Hst Hn Hev Ht [L1 L2 L3 L4 L5 L6].
  assert (forall x, x ∈ m_log cq -> handled s x) as Hh by (intros x (e0 & ? & _ & ?)%L1; by exists e0).
  assert (forall x, x ∈ m_log cq -> x <> ev) as Hne
    by (intros x (e0 & He0 & _ & Hs)%L1 ->; congruence).
  destruct Hev as (e' & He' & Hs'). pose proof (Hg _ _ He) as (e'' & He'' & G).
  rewrite He' in He''. injection He'' as <-.
  split; cbn [m_log m_barriers m_last_queued_event out_of_order insert_event].
  - intros x [Hx|Hx]%elem_of_app.
    + apply L1 in Hx as (e0 & He0 & Hq0 & Hs0). destruct (Hg _ _ He0) as (e1 & He1 & G1). exists e1.
      split_and!; [done|by rewrite (gr_queue _ _ G1)|by apply G1].
    + apply list_elem_of_singleton in Hx as ->. exists e'. by rewrite (gr_queue _ _ G).
  - intros x ex Hx Hqx Hsx. apply elem_of_app.
    destruct (Hn x ex Hx Hsx) as [->|(e0 & He0 & Hs0)]; [right; apply elem_of_cons; by left|left].
    eapply L2; [done| |done]. destruct (Hg _ _ He0) as (e1 & He1 & G1). rewrite Hx in He1.
    injection He1 as <-. by rewrite <- (gr_queue _ _ G1).
  - intros Ho i a b Ha Hb. eapply linked_grows; [done|].
    apply lookup_snoc_Some in Hb as [[_ Hb]|[Hi <-]].
    + apply lookup_snoc_Some in Ha as [[_ Ha]|[-> _]]; [by eapply L3|]. apply lookup_lt_Some in Hb. lia.
    + apply lookup_snoc_Some in Ha as [[_ Ha]|[-> _]]; [|lia]. specialize (L4 Ho).
      destruct (m_last_queued_event cq) as [x|] eqn:Hx.
      * apply last_lookup_S in L4. replace (pred (length (m_log cq))) with i in L4 by lia.
        rewrite Ha in L4. injection L4 as ->.
        apply Ht. unfold chain_targets. rewrite Ho, Hx. apply elem_of_cons. by left.
      * destruct (L4 a) as (e0 & He0 & Hs0); [by eapply list_elem_of_lookup_2|]. exists e0. auto.
  - intros _. by rewrite last_snoc.
  - intros Ho i j a b Hij Ha Hb Hba. eapply linked_grows; [done|].
    assert (m_log cq !! i = Some a) as Ha'.
    { apply lookup_snoc_Some in Ha as [[_ Ha]|[-> _]]; [done|]. apply lookup_lt_Some in Hb.
      rewrite length_app in Hb. cbn in Hb. lia. }
    assert (a ∈ m_log cq) as Hin by (by eapply list_elem_of_lookup_2).
    assert (barrier s a) as Hbs by (eapply barrier_grows; [done|by apply Hh|done]).
    apply lookup_snoc_Some in Hb as [[_ Hb]|[_ <-]]; [by eapply (L5 Ho i j)|].
    destruct (L6 Ho a Hin Hbs) as [Hbr|(e0 & He0 & Hs0)]; [|exists e0; auto].
    apply Ht. unfold chain_targets. by rewrite Ho.
  - intros Ho a [Ha|Ha]%elem_of_app Hba.
    + destruct (L6 Ho a Ha) as [Hbr|Hc]; [eapply barrier_grows; [done|by apply Hh|done]| |].
      * left. destruct (out_of_order cq && is_barrier e); [apply elem_of_app; by left|done].
      * right. by eapply complete_grows.
    + apply list_elem_of_singleton in Ha as ->. left. destruct Hba as (e0 & He0 & Hb0).
      rewrite He' in He0. injection He0 as <-. rewrite (gr_barrier _ _ G) in Hb0. rewrite Ho, Hb0. cbn.
      apply elem_of_app. right. apply elem_of_cons. by left.
Qed.

(** Removing a complete event. *)
Lemma log_ok_erase s L ev e q cq s' :
  events s' = events s -> counts s L -> events s !! ev = Some e -> m_status e = CL_COMPLETE ->
  NoDup (m_barriers cq) -> log_ok s q cq -> log_ok s' q (erase_event ev e cq).
Proof.
  intros Hs Hc He Hst Hnd Hl.
  apply (log_ok_grows s s' q cq); [by apply events_grow_eq|rewrite Hs; eauto|done|done| | |exact Hl].
  - cbn. case_decide as Hlast; [|by left]. right. split; [done|]. intros Ho x Hx.
    pose proof (lo_last _ _ _ Hl Ho) as Hll. rewrite Hlast in Hll. apply last_lookup_S in Hll.
    apply list_elem_of_lookup_1 in Hx as [i Hi]. unfold complete. rewrite Hs.
    destruct (decide (i = pred (length (m_log cq)))) as [->|Hne].
    + exists e. split; [congruence|done].
    + eapply (in_order_before s L q cq _ ev e) with (i := i); try done; [unfold waiting; by rewrite Hst|].
      apply lookup_lt_Some in Hi. lia.
  - intros a Ha. cbn. destruct (out_of_order cq && is_barrier e); [|by left]. rewrite elem_of_erase_first by done.
    destruct (decide (a = ev)) as [->|]; [right|by left]. exists e. by rewrite Hs.
Qed.

(** * Every step *)

Record order_ok (s : state) (L : list instr) : Prop := {
  or_waits : waits_ok s L;
  or_logs : logs_ok s;
}.

Lemma order_ok_perm s L L' : Permutation L L' -> order_ok s L -> order_ok s L'.
Proof. intros HL [H1 H2]. split; [by eapply waits_ok_perm|done]. Qed.

(** Queues that differ only in fields the order does not depend on. *)
Definition same_order (cq cq' : command_queue) : Prop :=
  m_log cq' = m_log cq /\ out_of_order cq' = out_of_order cq /\
  m_last_queued_event cq' = m_last_queued_event cq /\ m_barriers cq' = m_barriers cq.

Lemma logs_ok_same s s' :
  events_grow s s' -> none_queued s s' ->
  (forall q cq', queues s' !! q = Some cq' -> exists cq, queues s !! q = Some cq /\ same_order cq cq') ->
  logs_ok s -> logs_ok s'.
Proof.
  intros Hg Hn Hq Hl q cq' Hcq'. destruct (Hq q cq' Hcq') as (cq & Hcq & E1 & E2 & E3 & E4).
  apply (log_ok_grows s s' q cq); try done; [intros; by eapply Hn|by left| |by apply Hl].
  intros a Ha. left. by rewrite E4.
Qed.

Lemma remove_complete s L ev e : counts s L -> Remove ev ∈ L -> events s !! ev = Some e -> m_status e = CL_COMPLETE.
Proof.
  intros [H _] Hin He. pose proof (eo_fin _ _ _ _ (H ev e He)) as Hf.
  pose proof (total_pos (fin ev) L _ Hin) as Hp. cbn [fin] in Hp. rewrite same_refl in Hp.
  destruct (Z.eqb_spec (m_status e) CL_COMPLETE); [done|]. cbn in Hf. lia.
Qed.

Lemma targets_handled s L q cq :
  counts s L -> queue_ok s L q cq -> log_ok s q cq -> Forall (handled s) (chain_targets cq).
Proof.
  intros Hc Hq Hl. apply Forall_forall. intros x. unfold chain_targets.
  destruct (out_of_order cq) eqn:Ho.
  - intros (_ & Hx & _)%(qo_barriers _ _ _ _ Hq). apply (qo_members _ _ _ _ Hq) in Hx as (e & He & _ & Ha).
    exists e. split; [done|]. destruct Ha as [Ha|Hr].
    + unfold active in Ha. intros Hst. by rewrite Hst in Ha.
    + rewrite (remove_complete _ _ _ _ Hc Hr He). done.
  - pose proof (lo_last _ _ _ Hl Ho) as Hll. destruct (m_last_queued_event cq) as [y|]; cbn;
      [|by intros ?%not_elem_of_nil].
    intros ->%list_elem_of_singleton. destruct (lo_events _ _ _ Hl y) as (e & He & _ & Hs); [|by exists e].
    apply last_lookup_S in Hll. by eapply list_elem_of_lookup_2.
Qed.

(** Pending steps without [Construct] and [Link] do not matter. *)
Lemma plain_construct new K ev ds : Forall plain new -> Construct ev ds ∈ new ++ K -> Construct ev ds ∈ K.
Proof. intros H [Hin|Hin]%elem_of_app; [|done]. rewrite Forall_forall in H. by apply H in Hin. Qed.
Lemma plain_link new K ev ds : Forall plain new -> Link ev ds ∈ new ++ K -> Link ev ds ∈ K.
Proof. intros H [Hin|Hin]%elem_of_app; [|done]. rewrite Forall_forall in H. by apply H in Hin. Qed.

Lemma cons_construct i K ev ds : plain i -> Construct ev ds ∈ i :: K -> Construct ev ds ∈ K.
Proof. intros H [<-|]%elem_of_cons; done. Qed.
Lemma cons_link i K ev ds : plain i -> Link ev ds ∈ i :: K -> Link ev ds ∈ K.
Proof. intros H [<-|]%elem_of_cons; done. Qed.

(** [waits_ok] when the pending [Construct] and [Link] steps only shrink. *)
Lemma waits_ok_grows s s' L L' :
  events_grow s s' -> (forall ev e', events s' !! ev = Some e' -> is_Some (events s !! ev)) ->
  (forall q cq', queues s' !! q = Some cq' -> exists cq, queues s !! q = Some cq /\
     forall x, x ∈ chain_targets cq' -> x ∈ chain_targets cq) ->
  (forall ev ds', Construct ev ds' ∈ L' \/ Link ev ds' ∈ L' ->
     exists ds, (Construct ev ds ∈ L \/ Link ev ds ∈ L) /\ forall x, x ∈ ds' -> x ∈ ds) ->
  (forall ev ds d, Construct ev ds ∈ L -> d ∈ ds -> linked s' d ev \/
     exists ds', Construct ev ds' ∈ L' /\ d ∈ ds') ->
  (forall ev ds', Link ev ds' ∈ L' -> exists ds, Link ev ds ∈ L /\ forall x, x ∈ ds -> x ∈ ds' \/ linked s' x ev) ->
  waits_ok s L -> waits_ok s' L'.
Proof.
  intros Hg Hold Hq Hh Hc Hl [W1 W2 W3]. split.
  - intros ev ds' Hin. destruct (Hh ev ds' Hin) as (ds & Hds & Hsub). apply Forall_forall. intros x Hx.
    eapply handled_grows; [done|]. specialize (W1 ev ds Hds). rewrite Forall_forall in W1. by apply W1, Hsub.
  - intros ev e' d He' Hd. destruct (Hold ev e' He') as [e He]. destruct (Hg _ _ He) as (e1 & He1 & G).
    rewrite He' in He1. injection He1 as <-. rewrite (gr_waits _ _ G) in Hd.
    destruct (W2 ev e d He Hd) as [Hlk|(ds & Hds & Hin)]; [left; by eapply linked_grows|by eapply Hc].
  - intros ev ds' e' q cq' x Hin He' Hqe Hcq' Hx. destruct (Hold ev e' He') as [e He].
    destruct (Hg _ _ He) as (e1 & He1 & G). rewrite He' in He1. injection He1 as <-. rewrite (gr_queue _ _ G) in Hqe.
    destruct (Hq q cq' Hcq') as (cq & Hcq & Ht). destruct (Hl ev ds' Hin) as (ds & Hds & Hlk).
    destruct (W3 ev ds e q cq x Hds He Hqe Hcq (Ht x Hx)) as [Hxd|Hxl]; [by apply Hlk|right].
    by eapply linked_grows.
Qed.

Lemma exec_length i s s' next spawn : exec i s = Go s' next spawn -> length (events s') = length (events s).
Proof.
  intros He. destruct i as [ev [|d deps]|ev|ev [|d deps]|ev|ev|ev n|ev|ev|ev]; cbn [exec] in He;
    unfold chain, queue, queue_end, submit, trigger_enqueue_action, set_status, run_callbacks, remove in He;
    repeat case_match; simplify_eq; cbn; rewrite ?length_alter; done.
Qed.

Section order_step.
Context (s s' : state) (i : instr) (new K : list instr).
Context (Hc : counts s (i :: K)) (Hqs : queues_ok s (i :: K)) (Ho : order_ok s (i :: K)).
Context (Hg : events_grow s s') (Hold : forall ev e', events s' !! ev = Some e' -> is_Some (events s !! ev)).

Lemma order_plain :
  plain i -> Forall plain new -> queues s' = queues s -> none_queued s s' -> order_ok s' (new ++ K).
Proof.
  intros Hi Hn Hq Hnq. split.
  - apply (waits_ok_grows s s' (i :: K)); [done|done| | | | |apply Ho].
    + rewrite Hq. eauto.
    + intros ev ds' [Hin|Hin]; exists ds'; (split; [|done]);
        [left|right]; right; [by eapply plain_construct|by eapply plain_link].
    + intros ev ds d Hin Hd. right. exists ds. split; [|done]. apply elem_of_app. right.
      by eapply cons_construct.
    + intros ev ds' Hin. exists ds'. split; [right; by eapply plain_link|by left].
  - apply (logs_ok_same s s'); [done|done| |apply Ho]. rewrite Hq. intros q cq Hcq. by exists cq.
Qed.

Lemma order_chain d ev ds (b : bool) :
  i = (if b then Construct ev (d :: ds) else Link ev (d :: ds)) ->
  new = [if b then Construct ev ds else Link ev ds] ->
  queues s' = queues s -> none_queued s s' -> linked s' d ev -> order_ok s' (new ++ K).
Proof.
  intros -> -> Hq Hnq Hl. split.
  - apply (waits_ok_grows s s' ((if b then Construct ev (d :: ds) else Link ev (d :: ds)) :: K));
      [done|done| | | | |apply Ho].
    + rewrite Hq. eauto.
    + intros x ds' Hin. cbn in Hin. rewrite !elem_of_cons in Hin. setoid_rewrite elem_of_cons.
      destruct b, Hin as [[[= -> ->]|?]|[[= -> ->]|?]]; try done; (eexists; split; [eauto|]); intros y Hy;
        try done; by right.
    + intros x dx y Hin Hy. apply elem_of_cons in Hin as [Hin|Hin].
      * destruct b; [|done]. injection Hin as -> ->. apply elem_of_cons in Hy as [->|Hy]; [by left|].
        right. exists ds. split; [left|done].
      * right. exists dx. split; [by right|done].
    + intros x ds' Hin. cbn in Hin. apply elem_of_cons in Hin as [Hin|Hin].
      * destruct b; [done|]. injection Hin as -> ->. exists (d :: ds). split; [left|].
        intros y [->|Hy]%elem_of_cons; auto.
      * exists ds'. split; [by right|auto].
  - apply (logs_ok_same s s'); [done|done| |apply Ho]. rewrite Hq. intros q cq Hcq. by exists cq.
Qed.

Lemma order_lock ev e q cq :
  i = Queue ev -> events s !! ev = Some e -> m_command_queue e = Some q -> queues s !! q = Some cq ->
  s' = on_queue (lock ev) q s -> new = [Link ev (chain_targets cq)] ->
  order_ok s' (new ++ K).
Proof.
  intros -> He Hq Hcq Hs ->. destruct Ho as [[W1 W2 W3] Hlogs].
  assert (forall q' cq', queues s' !! q' = Some cq' -> exists cq0, queues s !! q' = Some cq0 /\ same_order cq0 cq')
    as Hqueues.
  { intros q' cq'. rewrite Hs, lookup_on_queue. case_decide as Hqq; [|intros; by exists cq'].
    subst q'. rewrite Hcq. cbn. intros [= <-]. by exists cq. }
  assert (events s' = events s) as Hev by (by rewrite Hs).
  assert (forall d x, linked s' d x <-> linked s d x) as Hlk by (intros; unfold linked; by rewrite Hev).
  split; [split|].
  - intros x ds. cbn. rewrite !elem_of_cons.
    assert (forall l, Forall (handled s) l -> Forall (handled s') l) as Hh
      by (intros l Hl; eapply Forall_impl; [exact Hl|]; intros y (ey & Hy & Hsy); exists ey; by rewrite Hev).
    intros [[|Hin]|[[= -> ->]|Hin]]; [done| | |].
    + apply Hh, (W1 x). left. by right.
    + apply Hh. eapply targets_handled; [exact Hc|by apply Hqs|by apply Hlogs].
    + apply Hh, (W1 x). right. by right.
  - intros x ex d Hx Hd. rewrite Hev in Hx. rewrite Hlk.
    destruct (W2 x ex d Hx Hd) as [|(ds & [|Hin]%elem_of_cons & Hds)]; [by left|done|right].
    exists ds. split; [by right|done].
  - intros x ds ex qx cqx y Hin Hx Hqx Hcqx Hy. rewrite Hev in Hx. rewrite Hlk.
    destruct (Hqueues qx cqx Hcqx) as (cq0 & Hcq0 & E1 & E2 & E3 & E4).
    assert (chain_targets cqx = chain_targets cq0) as Ht by (unfold chain_targets; by rewrite E2, E3, E4).
    rewrite Ht in Hy. cbn in Hin. apply elem_of_cons in Hin as [[= -> ->]|Hin].
    + left. rewrite He in Hx. injection Hx as <-. congruence.
    + eapply W3; [by right|done|exact Hqx|done|done].
  - apply (logs_ok_same s s'); [done|by apply none_queued_eq|done|done].
Qed.

Lemma order_insert ev e q cq :
  i = Link ev [] -> events s !! ev = Some e -> m_command_queue e = Some q -> queues s !! q = Some cq ->
  s' = on_event (enter CL_QUEUED (now s)) ev (on_queue (insert_event ev e) q s) ->
  new = [Submit ev] -> order_ok s' (new ++ K).
Proof.
  intros Hi He Hq Hcq Hs ->. rewrite Hi in Hc, Hqs, Ho.
  pose proof (counts_own _ _ _ _ _ Hc He (same_refl ev)) as Hst.
  destruct Ho as [[W1 W2 W3] Hlogs].
  assert (forall x, events s' !! x = if decide (x = ev) then Some (enter CL_QUEUED (now s) e) else events s !! x)
    as Hlook by (intros x; rewrite Hs; exact (lookup_enter _ _ ev e (on_queue (insert_event ev e) q s) x He)).
  assert (forall q' cq', queues s' !! q' = Some cq' ->
    (q' = q /\ cq' = insert_event ev e cq) \/ (q' <> q /\ queues s !! q' = Some cq')) as Hqueues.
  { intros q' cq'. rewrite Hs. change (queues (on_event ?f ev ?t)) with (queues t).
    rewrite lookup_on_queue. case_decide as Hqq; [subst q'; rewrite Hcq; cbn; intros [= <-]|]; auto. }
  split; [split|].
  - intros x ds Hin. eapply Forall_impl; [|intros y; by apply handled_grows]. apply (W1 x).
    cbn in Hin. rewrite !elem_of_cons in *. destruct Hin as [[|]|[|]]; auto; done.
  - intros x ex d Hx Hd. destruct (Hold x ex Hx) as [e0 He0]. destruct (Hg _ _ He0) as (e1 & He1 & G).
    rewrite Hx in He1. injection He1 as <-. rewrite (gr_waits _ _ G) in Hd.
    destruct (W2 x e0 d He0 Hd) as [|(ds & [|Hin]%elem_of_cons & Hds)];
      [left; by eapply linked_grows|done|right]. exists ds. split; [by right|done].
  - intros x ds ex qx cqx y Hin Hx Hqx Hcqx Hy. cbn in Hin. apply elem_of_cons in Hin as [|Hin]; [done|].
    destruct (Hold x ex Hx) as [e0 He0]. destruct (Hg _ _ He0) as (e1 & He1 & G).
    rewrite Hx in He1. injection He1 as <-. rewrite (gr_queue _ _ G) in Hqx.
    destruct (Hqueues qx cqx Hcqx) as [[-> ->]|[Hne Hcq']].
    + exfalso. assert (linking s (Link ev [] :: K) q x) as Hl1
        by (exists e0; split_and!; [done|done|]; exists ds; by right).
      assert (linking s (Link ev [] :: K) q ev) as Hl2
        by (exists e; split_and!; [done|done|]; exists []; left).
      pose proof (qs_queue _ _ Hqs q cq Hcq) as Hqo.
      apply (qo_mutex _ _ _ _ Hqo) in Hl1, Hl2. assert (x = ev) as -> by congruence.
      eapply no_own; [exact Hc|exact He|apply same_refl|exact Hin].
    + destruct (W3 x ds e0 qx cqx y) as [|]; try done; [by right|by left|right; by eapply linked_grows].
  - intros q' cq' Hcq'. destruct (Hqueues q' cq' Hcq') as [[-> ->]|[Hne Hq']].
    + apply (log_ok_insert s s'); try done; [| | |by apply Hlogs].
      * intros x ex Hx Hsx. rewrite Hlook in Hx. case_decide; [by left|right]. by exists ex.
      * exists (enter CL_QUEUED (now s) e). rewrite Hlook, decide_True by done. done.
      * intros x Hx. destruct (W3 ev [] e q cq x) as [Hn|]; try done; [left|]. by apply not_elem_of_nil in Hn.
    + apply (log_ok_grows s s' q' cq'); try done; [|by left|by left|by apply Hlogs].
      intros x ex Hx Hqx Hsx. rewrite Hlook in Hx. case_decide; [|eauto]. simplify_eq. cbn in Hqx. congruence.
Qed.

Lemma order_erase ev e q cq :
  i = Remove ev -> events s !! ev = Some e -> m_command_queue e = Some q -> queues s !! q = Some cq ->
  s' = on_queue (erase_event ev e) q s -> Forall plain new -> order_ok s' (new ++ K).
Proof.
  intros Hi He Hq Hcq Hs Hn. pose proof (qs_queue _ _ Hqs q cq Hcq) as Hqo.
  assert (m_status e = CL_COMPLETE) as Hst
    by (eapply remove_complete; [exact Hc|rewrite Hi; left|done]).
  assert (forall q' cq', queues s' !! q' = Some cq' ->
    (q' = q /\ cq' = erase_event ev e cq) \/ (q' <> q /\ queues s !! q' = Some cq')) as Hqueues.
  { intros q' cq'. rewrite Hs, lookup_on_queue.
    case_decide as Hqq; [subst q'; rewrite Hcq; cbn; intros [= <-]|]; auto. }
  assert (plain i) as Hp by (by rewrite Hi).
  split.
  - apply (waits_ok_grows s s' (i :: K)); [done|done| | | | |apply Ho].
    + intros q' cq' Hcq'. destruct (Hqueues q' cq' Hcq') as [[-> ->]|[_ Hq']]; [|eauto].
      exists cq. split; [done|]. intros x. unfold chain_targets. cbn. destruct (out_of_order cq); cbn.
      * destruct (is_barrier e); [|done]. rewrite elem_of_erase_first by apply Hqo. by intros [? _].
      * case_decide; [|done]. cbn. intros Hx. by apply not_elem_of_nil in Hx.
    + intros x ds' [Hin|Hin]; exists ds'; (split; [|done]);
        [left|right]; right; [by eapply plain_construct|by eapply plain_link].
    + intros x ds d Hin Hd. right. exists ds. split; [|done]. apply elem_of_app. right.
      by eapply cons_construct.
    + intros x ds' Hin. exists ds'. split; [right; by eapply plain_link|by left].
  - intros q' cq' Hcq'. destruct (Hqueues q' cq' Hcq') as [[-> ->]|[_ Hq']].
    + eapply (log_ok_erase s); [by rewrite Hs|exact Hc|done|done|apply Hqo|by apply Ho].
    + apply (log_ok_grows s s' q' cq'); try done; [rewrite Hs; eauto|by left|by left|by apply Ho].
Qed.
End order_step.

Lemma order_ok_exec s i K s' next spawn :
  counts s (i :: K) -> queues_ok s (i :: K) -> order_ok s (i :: K) -> exec i s = Go s' next spawn ->
  order_ok s' (next ++ mjoin spawn ++ K).
Proof.
  intros Hc Hqs Ho He. pose proof (exec_grows _ _ _ _ _ _ Hc He) as Hg.
  assert (forall ev e', events s' !! ev = Some e' -> is_Some (events s !! ev)) as Hold.
  { intros ev e' He'. apply lookup_lt_is_Some_2. rewrite <- (exec_length _ _ _ _ _ He).
    by eapply lookup_lt_Some. }
  rewrite app_assoc. destruct (exec_effect _ _ _ _ _ _ Hc Hqs He) as
    [Hp Hn Hq Hnq|ev Hi Hs Hn|d ev ds b Hi Hn Hq Hnq Hl|ev e q cq Hi Hev Hq Hcq Hs Hn
    |ev e q cq Hi Hev Hq Hcq Hs Hn|ev e q cq Hi Hev Hq Hcq Hs Hn].
  - by eapply order_plain.
  - rewrite Hn. subst i s'. destruct Ho as [[W1 W2 W3] Hlogs]. split; [split|done].
    + intros x ds. cbn. rewrite !elem_of_cons. intros [[|]|[|]]; try done; apply (W1 x); rewrite !elem_of_cons; auto.
    + intros x ex d Hx Hd. destruct (W2 x ex d Hx Hd) as [|(ds & [Hin|Hin]%elem_of_cons & Hds)]; [by left| |right].
      * injection Hin as -> ->. by apply not_elem_of_nil in Hds.
      * exists ds. split; [by right|done].
    + intros x ds ex qx cqx y Hin. cbn in Hin. apply elem_of_cons in Hin as [|Hin]; [done|].
      apply W3. by right.
  - by eapply order_chain.
  - by eapply order_lock.
  - by eapply order_insert.
  - by eapply order_erase.
Qed.

Lemma order_ok_new_queue s ooo K :
  queues_ok s K -> order_ok s K ->
  order_ok (State (events s) (queues s ++ [new_queue ooo]) (called s) (registered s) (now s)) K.
Proof.
  intros Hqs [[W1 W2 W3] Hl]. set (s' := State _ _ _ _ _).
  assert (forall x e q, events s !! x = Some e -> m_command_queue e = Some q -> (q < length (queues s))%nat)
    as Hv by (intros x e q He Hq; destruct (qs_valid _ _ Hqs x e q He Hq) as [c ?]; by eapply lookup_lt_Some).
  split; [split|].
  - exact W1.
  - exact W2.
  - intros ev ds e q cq x Hin He Hq Hcq. apply (W3 ev ds e q cq x Hin He Hq). cbn in Hcq.
    by rewrite lookup_app_l in Hcq by (by eapply Hv).
  - intros q cq Hcq. cbn in Hcq. apply lookup_snoc_Some in Hcq as [[_ Hcq]|[-> <-]].
    + apply (log_ok_grows s s' q cq); try done; [by apply events_grow_eq|eauto|by left|by left|by apply Hl].
    + split; cbn; try done.
      * intros x Hx. by apply not_elem_of_nil in Hx.
      * intros x e He Hq _. specialize (Hv x e _ He Hq). lia.
      * intros _ x Hx. by apply not_elem_of_nil in Hx.
      * intros _ a Hx. by apply not_elem_of_nil in Hx.
Qed.

Lemma order_ok_create s cq b act deps K :
  counts s K -> order_ok s K -> Forall (handled s) deps ->
  order_ok (State (events s ++ [new_event cq b act deps]) (queues s) (called s) (registered s) (now s))
    (Construct (length (events s)) deps :: K).
Proof.
  intros Hc [[W1 W2 W3] Hl] Hd. set (s' := State _ _ _ _ _). set (n := length (events s)).
  assert (events_grow s s') as Hg.
  { intros x e He. exists e. split; [|apply grows_refl]. cbn.
    by rewrite lookup_app_l by (by eapply lookup_lt_Some). }
  assert (forall x e, events s' !! x = Some e ->
            events s !! x = Some e \/ (x = n /\ e = new_event cq b act deps)) as Hnew.
  { intros x e He. cbn in He. apply lookup_snoc_Some in He as [[_ He]|[-> <-]]; auto. }
  assert (forall i, subject i = n -> i ∉ K) as Hfresh.
  { intros i Hi Hin. pose proof (co_subject _ _ Hc) as Hf. rewrite Forall_forall in Hf.
    specialize (Hf i Hin). cbn in Hf. unfold n in Hi. lia. }
  split; [split|].
  - assert (forall l, Forall (handled s) l -> Forall (handled s') l) as Hh
      by (intros l Hl'; eapply Forall_impl; [exact Hl'|]; intros y; by apply handled_grows).
    intros x ds. rewrite !elem_of_cons. intros [[[= -> ->]|Hin]|[|Hin]]; [by apply Hh|..|done|];
      apply Hh, (W1 x); auto.
  - intros x e d He Hin. apply Hnew in He as [He|[-> ->]].
    + destruct (W2 x e d He Hin) as [|(ds & Hds & ?)]; [left; by eapply linked_grows|right].
      exists ds. split; [by right|done].
    + right. exists deps. split; [left|done].
  - intros x ds e q c y Hin He Hq Hcq Hy. apply elem_of_cons in Hin as [|Hin]; [done|].
    apply Hnew in He as [He|[-> ->]]; [|exfalso; by apply Hfresh in Hin].
    destruct (W3 x ds e q c y) as [|]; try done; [by left|right; by eapply linked_grows].
  - intros q c Hcq. apply (log_ok_grows s s' q c); try done; [|by left|by left|by apply Hl].
    intros x e He _ Hs. apply Hnew in He as [He|[-> ->]]; [eauto|done].
Qed.

(** Calls that do not concern queues or wait lists. *)
Lemma order_ok_quiet s s' K' K :
  order_ok s K -> events_grow s s' -> queues s' = queues s -> Forall plain K' ->
  events s' = events s \/
    (exists ev f, events s' = events (on_event f ev s) /\ forall e, m_status (f e) = m_status e) ->
  counts s K -> queues_ok s K -> order_ok s' (K' ++ K).
Proof.
  intros Ho Hg Hq HK Hev Hc Hqs. apply (order_plain s s' (Trigger 0) K' K); try done.
  - split; [|apply Ho]. destruct Ho as [[W1 W2 W3] _]. split.
    + intros ev ds. rewrite !elem_of_cons. intros [[|]|[|]]; try done; apply (W1 ev); auto.
    + intros ev e d He Hd'. destruct (W2 ev e d He Hd') as [|(ds & Hin & Hds)]; [by left|right].
      exists ds. split; [by right|done].
    + intros ev ds e q cq x Hin. apply elem_of_cons in Hin as [|Hin]; [done|]. by apply W3.
  - intros ev e' He'. destruct Hev as [Hev|(x & f & Hev & _)]; rewrite Hev in He'; [eauto|].
    rewrite lookup_on_event in He'. case_decide; [|eauto]. destruct (events s !! ev); eauto; done.
  - destruct Hev as [Hev|(x & f & Hev & Hf)]; [by apply none_queued_eq|].
    assert (none_queued s (on_event f x s)) as Hn
      by (apply none_queued_one; intros e _; right; by rewrite Hf).
    intros ev e' q He'. rewrite Hev in He'. by apply Hn.
Qed.

Lemma order_ok_call s c K s' spawn :
  counts s K -> queues_ok s K -> order_ok s K -> do_call c s = Some (s', spawn) ->
  order_ok s' (mjoin spawn ++ K).
Proof.
  intros Hc Hqs Ho Hd. pose proof (call_grows _ _ _ _ Hd) as Hg.
  destruct c as [ooo|cq b act deps|ev|ev cb|]; cbn in Hd.
  - injection Hd as <- <-. by apply order_ok_new_queue.
  - case_match eqn:Hguard; [|done]. injection Hd as <- <-. apply order_ok_create; [done|done|].
    apply andb_true_iff in Hguard as [Hh _]. rewrite forallb_forall in Hh.
    apply List.Forall_forall. intros d Hin. specialize (Hh d Hin). unfold handle in Hh.
    destruct (events s !! d) as [e|] eqn:He; [|done]. exists e. split; [done|].
    by apply negb_true_iff, Z.eqb_neq in Hh.
  - destruct (events s !! ev) as [e|] eqn:He; [|done]. case_match; [|done]. injection Hd as <- <-.
    eapply (order_ok_quiet s); eauto 10. by repeat constructor.
  - unfold add_callback in Hd. repeat case_match; cbn in Hd; simplify_eq; cbn in *; simplify_eq;
      eapply (order_ok_quiet s _ []); eauto 10.
  - injection Hd as <- <-. eapply (order_ok_quiet s _ []); eauto.
Qed.
