(* ===== verification/OclProgress.v ===== *)
(** The invariants hold in every reachable configuration, no assertion fails and
    no exception is thrown, and a configuration in which no thread can go on has
    no pending work. *)

From Stdlib Require Import Sorting.Permutation.
From S2P Require Import Prelude OclEvent OclInvariant OclOrder OclQueueOrder.

(** * Events that are being queued are hard *)

Definition links_hard (s : state) (L : list instr) : Prop :=
  forall ev ds, Link ev ds ∈ L -> exists e q, events s !! ev = Some e /\ m_command_queue e = Some q.

Lemma links_hard_grows s s' L L' :
  events_grow s s' -> (forall ev ds, Link ev ds ∈ L' -> exists ds', Link ev ds' ∈ L) ->
  links_hard s L -> links_hard s' L'.
Proof.
  intros Hg HL H ev ds Hin. destruct (HL ev ds Hin) as [ds' Hin']. destruct (H ev ds' Hin') as (e & q & He & Hq).
  destruct (Hg _ _ He) as (e' & He' & G). exists e', q. split; [done|]. by rewrite (gr_queue _ _ G).
Qed.

Lemma links_hard_effect s i K s' new :
  events_grow s s' -> effect s i s' new -> links_hard s (i :: K) -> links_hard s' (new ++ K).
Proof.
  intros Hg He H. destruct He as
    [Hp Hn _ _|ev Hi Hs Hn|d ev ds b Hi Hn _ _ _|ev e q cq Hi Hev Hq Hcq Hs Hn
    |ev e q cq Hi Hev Hq Hcq Hs Hn|ev e q cq Hi Hev Hq Hcq Hs Hn].
  - eapply links_hard_grows; [done| |exact H]. intros ev ds Hin. exists ds. right. by eapply plain_link.
  - eapply links_hard_grows; [done| |exact H]. subst new. intros x ds Hin. exists ds. right.
    by apply elem_of_cons in Hin as [|].
  - eapply links_hard_grows; [done| |exact H]. subst new i. intros x ds' Hin. cbn in Hin.
    apply elem_of_cons in Hin as [Hin|Hin]; [|exists ds'; by right]. destruct b; [done|].
    injection Hin as -> ->. eexists. left.
  - subst new. intros x ds Hin. cbn in Hin. apply elem_of_cons in Hin as [[= -> ->]|Hin].
    + exists e, q. split; [by rewrite Hs|done].
    + eapply (links_hard_grows s s' (i :: K) K); [done| |done|exact Hin]. intros y dy Hy. exists dy. by right.
  - eapply links_hard_grows; [done| |exact H]. subst new. intros x ds Hin. exists ds. right.
    by apply elem_of_cons in Hin as [|].
  - eapply links_hard_grows; [done| |exact H]. intros x ds Hin. exists ds. right. by eapply plain_link.
Qed.

(** * Acyclicity *)

(** The events in the order in which they were queued: an event is chained only
    to events queued before it. *)
Definition queued_order (s : state) (l : list nat) : Prop :=
  NoDup l /\ (forall x, x ∈ l <-> handled s x) /\
  forall d ed ev, events s !! d = Some ed -> ev ∈ m_chain ed ->
    d ∈ l /\ forall i j, l !! i = Some d -> l !! j = Some ev -> (i < j)%nat.

Definition acyclic (s : state) : Prop := exists l, queued_order s l.

(** What a step does to chains and to the set of queued events. *)
Inductive link_change (s s' : state) : Prop :=
| lc_same : (forall x, handled s' x <-> handled s x) ->
    (forall x e', events s' !! x = Some e' -> m_chain e' = chain_of s x) -> link_change s s'
| lc_chain d ev : (forall x, handled s' x <-> handled s x) -> handled s d -> ~ handled s ev ->
    (forall x e', events s' !! x = Some e' ->
       m_chain e' = chain_of s x ++ (if decide (x = d) then [ev] else [])) -> link_change s s'
| lc_queued ev : ~ handled s ev -> (forall x, handled s' x <-> handled s x \/ x = ev) ->
    (forall x e', events s' !! x = Some e' -> m_chain e' = chain_of s x) -> link_change s s'.

Lemma chain_of_in s d ev : ev ∈ chain_of s d -> exists e, events s !! d = Some e /\ ev ∈ m_chain e.
Proof. unfold chain_of. destruct (events s !! d); [eauto|]. by intros ?%not_elem_of_nil. Qed.

Lemma acyclic_change s s' : link_change s s' -> acyclic s -> acyclic s'.
Proof.
  intros Hc (l & Hnd & Hl & Ho).
  assert (forall d ev, ev ∈ chain_of s d -> d ∈ l /\ forall i j, l !! i = Some d -> l !! j = Some ev -> (i < j)%nat)
    as Ho' by (intros d ev (e & He & Hin)%chain_of_in; by eapply Ho).
  destruct Hc as [Hh Hch|d ev Hh Hd Hev Hch|ev Hev Hh Hch].
  - exists l. split_and!; [done|intros x; by rewrite Hl, Hh|]. intros x e y Hx Hy.
    rewrite (Hch x e Hx) in Hy. by apply Ho'.
  - exists l. split_and!; [done|intros x; by rewrite Hl, Hh|]. intros x e y Hx Hy.
    rewrite (Hch x e Hx) in Hy. apply elem_of_app in Hy as [Hy|Hy]; [by apply Ho'|].
    case_decide; [subst x|by apply not_elem_of_nil in Hy]. apply list_elem_of_singleton in Hy as ->.
    split; [by apply Hl|]. intros i j _ Hj. apply list_elem_of_lookup_2, Hl in Hj. done.
  - assert (ev ∉ l) as Hnew by (by rewrite Hl). exists (l ++ [ev]). split_and!.
    + apply NoDup_app. split_and!; [done| |apply NoDup_singleton].
      intros x Hx ->%list_elem_of_singleton. done.
    + intros x. by rewrite elem_of_app, list_elem_of_singleton, Hl, Hh.
    + intros x e y Hx Hy. rewrite (Hch x e Hx) in Hy. destruct (Ho' x y Hy) as [Hxl Hij].
      split; [apply elem_of_app; by left|]. intros i j Hi Hj.
      apply lookup_snoc_Some in Hi as [[Hlt Hi]|[_ ->]]; [|done].
      apply lookup_snoc_Some in Hj as [[_ Hj]|[-> _]]; [by eapply Hij|done].
Qed.

Lemma lc_eq s s' : events s' = events s -> link_change s s'.
Proof.
  intros H. apply lc_same; [intros x; unfold handled; by rewrite H|].
  intros x e He. unfold chain_of. rewrite H in He. by rewrite He.
Qed.

Lemma lc_one s f ev e :
  events s !! ev = Some e -> m_chain (f e) = m_chain e ->
  (m_status (f e) <> status_new <-> m_status e <> status_new) -> link_change s (on_event f ev s).
Proof.
  intros He Hc Hs. apply lc_same.
  - intros x. unfold handled. rewrite lookup_on_event. case_decide; [subst x|done].
    rewrite He. cbn. split; intros (e0 & [= <-] & H0); eexists; (split; [done|]); by apply Hs.
  - intros x e'. unfold chain_of. rewrite lookup_on_event. case_decide; [subst x|by intros ->].
    rewrite He. cbn. by intros [= <-].
Qed.

Lemma lc_enter s t ev e :
  events s !! ev = Some e -> m_status e = status_new -> link_change s (on_event (enter CL_QUEUED t) ev s).
Proof.
  intros He Hs. apply (lc_queued _ _ ev).
  - intros (e0 & He0 & Hne). congruence.
  - intros x. unfold handled. rewrite (lookup_enter _ _ _ _ _ _ He). case_decide as Hx.
    + subst x. split; [by right|]. intros _. by eexists.
    + split; [by left|]. by intros [|].
  - intros x e'. unfold chain_of. rewrite (lookup_enter _ _ _ _ _ _ He).
    case_decide; [subst x; intros [= <-]; by rewrite He|by intros ->].
Qed.

(** Only the events matter. *)
Lemma lc_events s s1 s' : events s1 = events s -> link_change s1 s' -> link_change s s'.
Proof.
  intros H [Hh Hc|d ev Hh Hd Hev Hc|ev Hev Hh Hc];
    unfold handled, chain_of in *; rewrite H in *; [by apply lc_same|by apply (lc_chain _ _ d ev)|].
  by apply (lc_queued _ _ ev).
Qed.

Lemma lc_events_r s s' s1 : events s1 = events s' -> link_change s s1 -> link_change s s'.
Proof.
  intros H [Hh Hc|d ev Hh Hd Hev Hc|ev Hev Hh Hc]; rewrite H in *;
    (assert (forall x, handled s' x <-> handled s1 x) as Hx by (intros x; unfold handled; by rewrite H)).
  - apply lc_same; [|done]. intros x. by rewrite Hx.
  - apply (lc_chain _ _ d ev); try done. intros x. by rewrite Hx.
  - apply (lc_queued _ _ ev); try done. intros x. by rewrite Hx.
Qed.

Lemma chain_link_change s d ev next s' next' spawn :
  handled s d -> chain d ev s next = Go s' next' spawn -> link_change s s'.
Proof.
  intros Hd Hc. unfold chain in Hc. case_match; [done|].
  destruct (events s !! d) as [ed|] eqn:Hed; [|done]. destruct (events s !! ev) as [e|] eqn:He; [|done].
  destruct (Z.eqb_spec (m_status e) status_new) as [Hst|]; cbn [negb] in Hc; [|done].
  case_match; injection Hc as <- _ _; [by apply lc_eq|].
  assert (d <> ev) as Hne by (intros ->; destruct Hd as (e0 & He0 & ?); congruence).
  apply (lc_chain _ _ d ev).
  - intros x. unfold handled. rewrite !lookup_on_event.
    destruct (events s !! x) as [ex|] eqn:Hx; repeat case_decide; cbn; try done;
      (split; intros (e0 & [= <-] & H'); eexists; (split; [done|]); done).
  - done.
  - intros (e0 & He0 & ?). congruence.
  - intros x e'. unfold chain_of. rewrite !lookup_on_event.
    destruct (events s !! x) as [ex|] eqn:Hx; repeat case_decide; simplify_eq; cbn; try done;
      intros [= <-]; cbn; by rewrite ?app_nil_r.
Qed.

Lemma exec_link_change s i K s' next spawn :
  counts s (i :: K) -> waits_ok s (i :: K) -> exec i s = Go s' next spawn -> link_change s s'.
Proof.
  intros Hc Hw He. destruct (counts_subject _ _ _ Hc) as [e Hev].
  destruct i as [ev [|d deps]|ev|ev [|d deps]|ev|ev|ev n|ev|ev|ev]; cbn [exec subject] in *.
  - injection He as <- _ _. by apply lc_eq.
  - eapply chain_link_change; [|exact He].
    assert (Forall (handled s) (d :: deps)) as Hf by (apply (wo_handles _ _ Hw ev); left; left).
    by apply Forall_cons in Hf as [? _].
  - unfold queue in He. rewrite Hev in He. repeat case_match; simplify_eq; [by apply lc_eq|].
    eapply lc_enter; [exact Hev|]. by eapply counts_own; [exact Hc|exact Hev|apply same_refl].
  - unfold queue_end in He. rewrite Hev in He. case_match; [|done]. injection He as <- _ _.
    pose proof (counts_own _ _ _ _ _ Hc Hev (same_refl ev)) as Hst.
    eapply (lc_events s (on_queue _ _ s)); [done|]. by eapply (lc_enter (on_queue _ _ s)).
  - eapply chain_link_change; [|exact He].
    assert (Forall (handled s) (d :: deps)) as Hf by (apply (wo_handles _ _ Hw ev); right; left).
    by apply Forall_cons in Hf as [? _].
  - unfold submit in He. rewrite Hev in He. case_match; [done|]. case_match; [done|]. cbv zeta in He.
    destruct (Nat.eqb_spec (pred (m_wait_count e)) 0) as [Hwc|Hwc]; cbn [negb] in He.
    + case_match; [done|]. injection He as <- _ _. rewrite on_event_twice.
      destruct (counts_submit_status _ _ _ _ Hev Hwc Hc) as [Hst _].
      eapply lc_one; [exact Hev|done|]. cbn. by rewrite Hst.
    + injection He as <- _ _. by eapply lc_one.
  - unfold trigger_enqueue_action in He. rewrite Hev in He. case_match; injection He as <- _ _; by apply lc_eq.
  - unfold set_status in He. rewrite Hev in He. case_match; [done|].
    destruct (counts_drv _ _ _ _ _ Hc Hev (same_refl ev)) as [Hst _].
    destruct (m_status e =? CL_RUNNING); cbn [Z.eqb Pos.eqb CL_RUNNING CL_COMPLETE] in He;
      injection He as <- _ _; [by apply lc_eq|].
    eapply lc_one; [exact Hev|done|]. cbn. by destruct Hst as [-> | ->].
  - unfold set_status in He. rewrite Hev in He. case_match; [done|]. case_match; [done|].
    destruct (counts_drv _ _ _ _ _ Hc Hev (same_refl ev)) as [Hst _].
    injection He as <- _ _. eapply lc_one; [exact Hev|done|]. cbn. by destruct Hst as [-> | ->].
  - unfold run_callbacks in He. rewrite Hev in He. case_match; [done|]. injection He as <- _ _. by apply lc_eq.
  - unfold remove in He. rewrite Hev in He. repeat case_match; simplify_eq; by apply lc_eq.
Qed.

Lemma call_link_change s c s' spawn : do_call c s = Some (s', spawn) -> acyclic s -> acyclic s'.
Proof.
  intros Hd Ha. destruct c as [ooo|cq b act deps|ev|ev cb|]; cbn in Hd.
  - injection Hd as <- _. by apply (acyclic_change s); [apply lc_eq|].
  - case_match; [|done]. injection Hd as <- _. apply (acyclic_change s); [|done]. apply lc_same.
    + intros x. unfold handled. cbn. split; intros (e & He & Hs).
      * apply lookup_snoc_Some in He as [[_ He]|[_ <-]]; [eauto|done].
      * exists e. split; [|done]. by rewrite lookup_app_l by (by eapply lookup_lt_Some).
    + intros x e He. cbn in He. unfold chain_of. apply lookup_snoc_Some in He as [[_ ->]|[-> <-]]; [done|].
      by rewrite lookup_ge_None_2.
  - destruct (events s !! ev) as [e|] eqn:He; [|done]. case_match; [|done]. injection Hd as <- _.
    apply (acyclic_change s); [|done]. by eapply lc_one.
  - unfold add_callback in Hd. repeat case_match; cbn in Hd; simplify_eq;
      (apply (acyclic_change s); [|done]); [by apply lc_eq|].
    eapply (lc_events_r _ _ (on_event (on_callbacks (fun l => l ++ [cb])) ev s)); [done|]. by eapply lc_one.
  - injection Hd as <- _. by apply (acyclic_change s); [apply lc_eq|].
Qed.

(** * Reachable configurations *)

Abbreviation pending := mjoin.

Record inv (s : state) (L : list instr) : Prop := {
  in_counts : counts s L;
  in_queues : queues_ok s L;
  in_order : order_ok s L;
  in_links : links_hard s L;
  in_acyclic : acyclic s;
}.

(** [command_queue::queue] is the innermost call of its thread. *)
Definition thread_ok (k : list instr) : Prop :=
  Forall (fun i => forall ev ds, i <> Link ev ds) (tail k).

Lemma inv_perm s L L' : Permutation L L' -> inv s L -> inv s L'.
Proof.
  intros HL [H1 H2 H3 H4 H5]. split; [by eapply counts_perm|by eapply queues_ok_perm|by eapply order_ok_perm| |done].
  intros ev ds. rewrite <- HL. apply H4.
Qed.

Lemma inv_exec s i K s' next spawn :
  inv s (i :: K) -> exec i s = Go s' next spawn -> inv s' (next ++ pending spawn ++ K).
Proof.
  intros [H1 H2 H3 H4 H5] He. split.
  - by eapply counts_exec.
  - by eapply queues_ok_exec.
  - by eapply order_ok_exec.
  - rewrite app_assoc. eapply links_hard_effect; [by eapply exec_grows|by eapply exec_effect|done].
  - eapply acyclic_change; [|done]. eapply exec_link_change; [done|apply H3|done].
Qed.

Lemma inv_call s c K s' spawn :
  inv s K -> do_call c s = Some (s', spawn) -> inv s' (pending spawn ++ K).
Proof.
  intros [H1 H2 H3 H4 H5] Hd. split.
  - by eapply counts_call.
  - by eapply queues_ok_call.
  - by eapply order_ok_call.
  - eapply links_hard_grows; [by eapply call_grows| |exact H4]. intros ev ds Hin. exists ds.
    apply elem_of_app in Hin as [Hin|]; [|done]. exfalso.
    destruct c; cbn in Hd; unfold add_callback in Hd; repeat case_match; cbn in Hd; simplify_eq; cbn in Hin;
      repeat case_match; simplify_eq; cbn in Hin; set_solver.
  - by eapply call_link_change.
Qed.

Lemma pending_cons (k : list instr) (ts : threads) : pending (k :: ts) = k ++ pending ts.
Proof. done. Qed.

Lemma pending_split (ts : threads) n i k :
  ts !! n = Some (i :: k) ->
  exists K, Permutation (pending ts) (i :: K) /\
    forall next spawn, Permutation (pending (<[n := next ++ k]> ts ++ spawn)) (next ++ pending spawn ++ K).
Proof.
  intros Hn. exists (k ++ pending (take n ts) ++ pending (drop (S n) ts)). split.
  - rewrite <- (take_drop_middle _ _ _ Hn) at 1. rewrite join_app, pending_cons. cbn [app].
    solve_Permutation.
  - intros next spawn. pose proof (lookup_lt_Some _ _ _ Hn) as Hlt.
    rewrite insert_take_drop by done. rewrite !join_app, pending_cons.
    solve_Permutation.
Qed.

Lemma exec_thread_ok i k s s' next spawn :
  thread_ok (i :: k) -> exec i s = Go s' next spawn -> thread_ok (next ++ k) /\ Forall thread_ok spawn.
Proof.
  intros Hk He. unfold thread_ok in *. cbn [tail] in Hk.
  assert (Forall (fun i => forall ev ds, i <> Link ev ds) (tail k)) as Hk'
    by (destruct k; [done|]; by apply Forall_cons in Hk as [_ ?]).
  assert (forall l, Forall (fun i => forall ev ds, i <> Link ev ds) (tail ((Submit <$> l) ++ k))) as Hsub.
  { intros [|x l]; [done|]. cbn. apply Forall_app. split; [|done]. apply Forall_fmap, Forall_true. done. }
  destruct i as [ev [|d deps]|ev|ev [|d deps]|ev|ev|ev n|ev|ev|ev]; cbn [exec] in He;
    unfold chain, queue, queue_end, submit, trigger_enqueue_action, set_status, run_callbacks, remove in He;
    repeat case_match; simplify_eq; cbn [tail app]; try (split; [done|]; by repeat constructor);
    try (split; [by apply Hsub|constructor]).
  all: split; [by repeat constructor|constructor].
Qed.

Definition cinv (c : config) : Prop := inv c.1 (pending c.2) /\ Forall thread_ok c.2.

Lemma inv_init : inv init.1 (pending init.2).
Proof.
  split.
  - split; [intros ev e He; discriminate He|constructor].
  - split; intros; discriminate.
  - split; [split|]; try (intros; discriminate).
    intros ev ds [H|H]; by apply not_elem_of_nil in H.
  - intros ev ds Hin. by apply not_elem_of_nil in Hin.
  - exists []. split_and!; [constructor| |intros; discriminate].
    intros x. split; [by intros ?%not_elem_of_nil|]. intros (e & He & _). discriminate He.
Qed.

Lemma reachable_cinv c : reachable c -> cinv c.
Proof.
  induction 1 as [|c c' _ IH Hstep].
  - split; [apply inv_init|constructor].
  - destruct Hstep as [s ts n i k s' next spawn Hn He|c s ts s' spawn Hd]; destruct IH as [IH Hts]; cbn in *.
    + destruct (pending_split ts n i k Hn) as (K & HK & HK'). split; cbn.
      * eapply inv_perm; [symmetry; apply HK'|]. eapply inv_exec; [|exact He]. by eapply inv_perm.
      * assert (thread_ok (i :: k)) as Hk by (by eapply Forall_lookup_1 in Hn).
        destruct (exec_thread_ok _ _ _ _ _ _ Hk He) as [Hk1 Hk2].
        apply Forall_app. split; [|done]. by apply Forall_insert.
    + split; cbn.
      * eapply inv_perm; [|eapply inv_call; [exact IH|exact Hd]]. rewrite join_app. apply Permutation_app_comm.
      * apply Forall_app. split; [done|].
        destruct c; cbn in Hd; unfold add_callback in Hd; repeat case_match; cbn in Hd; simplify_eq; cbn in *;
          repeat case_match; simplify_eq; by repeat constructor.
Qed.

(** * No fault *)

Lemma chain_no_fault s d ev e next msg :
  handled s d -> events s !! ev = Some e -> m_status e = status_new -> chain d ev s next <> Fault msg.
Proof.
  intros (ed & Hd & _) He Hst. unfold chain. rewrite Hd, He, Hst. cbn.
  repeat case_match; done.
Qed.

Lemma submit_count s ev e K :
  counts s (Submit ev :: K) -> events s !! ev = Some e -> m_wait_count e <> 0%nat.
Proof.
  intros H He. rewrite (eo_wait _ _ _ _ (co_event _ _ H ev e He)), total_cons. cbn [token].
  rewrite same_refl. lia.
Qed.

Lemma exec_no_fault s i K msg : inv s (i :: K) -> exec i s <> Fault msg.
Proof.
  intros [Hc Hq [Hw _] Hl _]. destruct (counts_subject _ _ _ Hc) as [e Hev].
  destruct i as [ev [|d deps]|ev|ev [|d deps]|ev|ev|ev n|ev|ev|ev]; cbn [exec subject] in *.
  - done.
  - eapply chain_no_fault; [|exact Hev|by eapply counts_own; [exact Hc|exact Hev|apply same_refl]].
    assert (Forall (handled s) (d :: deps)) as Hf by (apply (wo_handles _ _ Hw ev); left; left).
    by apply Forall_cons in Hf as [? _].
  - unfold queue. rewrite Hev. destruct (m_command_queue e) as [q|] eqn:Hqe; [|done].
    destruct (qs_valid _ _ Hq ev e q Hev Hqe) as [cq ->]. by case_match.
  - destruct (Hl ev []) as (e0 & q & He0 & Hqe); [left|]. unfold queue_end. by rewrite He0, Hqe.
  - eapply chain_no_fault; [|exact Hev|by eapply counts_own; [exact Hc|exact Hev|apply same_refl]].
    assert (Forall (handled s) (d :: deps)) as Hf by (apply (wo_handles _ _ Hw ev); right; left).
    by apply Forall_cons in Hf as [? _].
  - unfold submit. rewrite Hev. case_match; [done|].
    rewrite (proj2 (Nat.eqb_neq _ _) (submit_count _ _ _ _ Hc Hev)).
    destruct (Nat.eqb_spec (pred (m_wait_count e)) 0) as [Hwc|]; cbn [negb]; [|done].
    destruct (counts_submit_status _ _ _ _ Hev Hwc Hc) as [-> _]. by rewrite andb_false_r.
  - unfold trigger_enqueue_action. rewrite Hev. by case_match.
  - unfold set_status. rewrite Hev. case_match; [done|]. by destruct (m_status e =? CL_RUNNING).
  - unfold set_status. rewrite Hev. case_match; [done|].
    destruct (counts_drv _ _ _ _ _ Hc Hev (same_refl ev)) as [Hst _].
    by destruct Hst as [-> | ->].
  - unfold run_callbacks. rewrite Hev. by case_match.
  - unfold remove. rewrite Hev. destruct (m_command_queue e) as [q|] eqn:Hqe; [|done].
    destruct (qs_valid _ _ Hq ev e q Hev Hqe) as [cq Hcq]. rewrite Hcq. case_match; [done|].
    pose proof (qs_queue _ _ Hq q cq Hcq) as Hqo.
    assert (ev ∈ m_events cq) as Hin
      by (apply (qo_members _ _ _ _ Hqo); exists e; split_and!; [done|done|right; left]).
    rewrite (bool_decide_eq_true_2 _ Hin). cbn [negb].
    destruct (is_barrier e && out_of_order cq) eqn:Hb; [|done]. apply andb_true_iff in Hb as [Hb Ho].
    rewrite bool_decide_eq_true_2; [done|]. apply (qo_barriers _ _ _ _ Hqo).
    split_and!; [done|done|]. by exists e.
Qed.

(** * Nothing is stuck *)

Lemma locked_link s L ev :
  queues_ok s L -> locked s ev = true -> exists ds, Link ev ds ∈ L.
Proof.
  intros Hq H. unfold locked in H. repeat case_match; try done. apply bool_decide_eq_true in H.
  destruct (proj1 (qo_mutex _ _ _ _ (qs_queue _ _ Hq _ _ ltac:(eassumption)) _) H) as (e0 & _ & _ & ?). done.
Qed.

Lemma handled_unlocked s L d : counts s L -> queues_ok s L -> handled s d -> locked s d = false.
Proof.
  intros [Hc _] Hq (e & He & Hs). destruct (locked s d) eqn:H; [|done].
  destruct (locked_link _ _ _ Hq H) as [ds Hin]. pose proof (eo_own _ _ _ _ (Hc d e He)) as Ho.
  rewrite (proj2 (Z.eqb_neq _ _) Hs) in Ho. pose proof (total_pos (own d) L _ Hin) as Hp.
  cbn [own] in Hp. rewrite same_refl in Hp. cbn in Ho. lia.
Qed.

(** Inside [command_queue::queue] a thread is never blocked. *)
Lemma link_not_blocked s ev ds K : inv s (Link ev ds :: K) -> exec (Link ev ds) s <> Blocked.
Proof.
  intros [Hc Hq [Hw _] Hl _]. destruct ds as [|d ds]; cbn [exec].
  - unfold queue_end. by repeat case_match.
  - assert (handled s d) as Hd.
    { assert (Forall (handled s) (d :: ds)) as Hf by (apply (wo_handles _ _ Hw ev); right; left).
      by apply Forall_cons in Hf as [? _]. }
    unfold chain. rewrite (handled_unlocked _ _ _ Hc Hq Hd). by repeat case_match.
Qed.

(** Without a thread inside [command_queue::queue] no mutex is held. *)
Lemma free_not_blocked s i K :
  inv s (i :: K) -> (forall ev ds, Link ev ds ∉ i :: K) -> exec i s <> Blocked.
Proof.
  intros [Hc Hq _ _ _] Hno.
  assert (forall x, locked s x = false) as Hlk.
  { intros x. destruct (locked s x) eqn:H; [|done]. destruct (locked_link _ _ _ Hq H) as [ds Hin].
    by apply Hno in Hin. }
  assert (forall q cq, queues s !! q = Some cq -> m_events_mutex cq = None) as Hmx.
  { intros q cq Hcq. destruct (m_events_mutex cq) as [ev|] eqn:Hm; [|done].
    apply (qo_mutex _ _ _ _ (qs_queue _ _ Hq q cq Hcq)) in Hm as (e & _ & _ & ds & Hin). by apply Hno in Hin. }
  destruct i as [ev [|d deps]|ev|ev [|d deps]|ev|ev|ev n|ev|ev|ev]; cbn [exec];
    unfold chain, queue, queue_end, submit, trigger_enqueue_action, set_status, run_callbacks, remove;
    rewrite ?Hlk; repeat case_match; try done;
    match goal with H : queues s !! _ = Some ?cq, H' : m_events_mutex ?cq = Some _ |- _ =>
      rewrite (Hmx _ _ H) in H'; discriminate H' end.
Qed.

(** A configuration in which no thread can take a step. *)
Definition quiescent (c : config) : Prop :=
  forall n i k, c.2 !! n = Some (i :: k) -> forall s' next spawn, exec i c.1 <> Go s' next spawn.

Lemma quiescent_blocked c n i k :
  cinv c -> quiescent c -> c.2 !! n = Some (i :: k) ->
  exists K, Permutation (pending c.2) (i :: K) /\ inv c.1 (i :: K) /\ exec i c.1 = Blocked.
Proof.
  intros [Hi _] Hq Hn. destruct (pending_split _ _ _ _ Hn) as (K & HK & _). exists K. split; [done|].
  assert (inv c.1 (i :: K)) as HiK by (by eapply inv_perm). split; [done|].
  destruct (exec i c.1) eqn:He; [done|by apply (exec_no_fault _ _ _ _ HiK) in He|by apply (Hq n i k Hn) in He].
Qed.

Lemma quiescent_done c : cinv c -> quiescent c -> pending c.2 = [].
Proof.
  intros Hc Hq.
  assert (forall n i k, c.2 !! n = Some (i :: k) -> forall ev ds, i <> Link ev ds) as Hhead.
  { intros n i k Hn ev ds ->. destruct (quiescent_blocked _ _ _ _ Hc Hq Hn) as (K & _ & Hi & Hb).
    by eapply link_not_blocked. }
  assert (forall ev ds, Link ev ds ∉ pending c.2) as Hno.
  { intros ev ds Hin. apply list_elem_of_join in Hin as (k & Hin & Hk).
    apply list_elem_of_lookup_1 in Hk as [n Hn]. destruct k as [|i k]; [by apply not_elem_of_nil in Hin|].
    apply elem_of_cons in Hin as [Hin|Hin]; [by eapply (Hhead n i k Hn)|].
    destruct Hc as [_ Hts]. eapply Forall_lookup_1 in Hn; [|exact Hts]. unfold thread_ok in Hn. cbn in Hn.
    rewrite Forall_forall in Hn. by eapply Hn. }
  destruct (pending c.2) as [|i0 L] eqn:HL; [done|exfalso].
  assert (i0 ∈ pending c.2) as Hin by (rewrite HL; left).
  apply list_elem_of_join in Hin as (k & Hin & Hk). apply list_elem_of_lookup_1 in Hk as [n Hn].
  destruct k as [|i k]; [by apply not_elem_of_nil in Hin|].
  destruct (quiescent_blocked _ _ _ _ Hc Hq Hn) as (K & HK & Hi & Hb).
  eapply free_not_blocked; [exact Hi| |exact Hb]. intros ev ds Hin'. rewrite <- HK, HL in Hin'. by eapply Hno.
Qed.
