(* ===== verification/OclHistory.v ===== *)
(** Profiling times and completion callbacks of events: what was recorded and
    what was called in the course of an execution. *)

From Stdlib Require Import Sorting.Permutation.
From S2P Require Import Prelude OclEvent OclInvariant OclOrder OclQueueOrder OclProgress.

(** * Profiling times *)

(** The times recorded so far, for every status. *)
Definition times_ok (t : Z) (e : event) : Prop :=
  let m := m_times e in
  (m_status e = status_new -> m = Times 0 0 0 0) /\
  (m_status e = CL_QUEUED -> 0 < m_queued m <= t /\ m_submit m = 0 /\ m_start m = 0 /\ m_end m = 0) /\
  (m_status e = CL_SUBMITTED ->
     0 < m_queued m <= m_submit m /\ m_submit m <= t /\ m_start m = 0 /\ m_end m = 0) /\
  (m_status e = CL_RUNNING ->
     0 < m_queued m <= m_submit m /\ m_submit m <= m_start m <= t /\ m_end m = 0) /\
  (m_status e = CL_COMPLETE ->
     0 < m_queued m <= m_submit m /\ m_submit m <= time_start m <= m_end m /\ m_end m <= t).

Definition all_times (s : state) : Prop :=
  0 < now s /\ forall ev e, events s !! ev = Some e -> times_ok (now s) e.

Lemma times_ok_same t e f :
  m_status (f e) = m_status e -> m_times (f e) = m_times e -> times_ok t e -> times_ok t (f e).
Proof. intros H1 H2. unfold times_ok. by rewrite H1, H2. Qed.

Lemma times_ok_enter t e status :
  0 < t -> times_ok t e ->
  (status = CL_QUEUED /\ m_status e = status_new) \/
  (status = CL_SUBMITTED /\ m_status e = CL_QUEUED) \/
  (status = CL_RUNNING /\ m_status e = CL_SUBMITTED) \/
  (status = CL_COMPLETE /\ (m_status e = CL_SUBMITTED \/ m_status e = CL_RUNNING)) ->
  times_ok t (enter status t e).
Proof.
  intros Ht (H0 & H1 & H2 & H3 & H4) Hst. unfold times_ok. cbn [m_status m_times enter on_times on_status].
  destruct Hst as [[-> Hs]|[[-> Hs]|[[-> Hs]|[-> [Hs|Hs]]]]];
    [rewrite (H0 Hs)|specialize (H1 Hs)|specialize (H2 Hs)|specialize (H2 Hs)|specialize (H3 Hs)];
    (split_and!; intros Hn; try discriminate Hn); cbn; try lia.
  - unfold time_start. cbn. destruct (Z.eqb_spec (m_start (m_times e)) 0); lia.
  - unfold time_start. cbn. destruct (Z.eqb_spec (m_start (m_times e)) 0); lia.
Qed.

Lemma all_times_one s f ev :
  all_times s -> (forall e, events s !! ev = Some e -> times_ok (now s) e -> times_ok (now s) (f e)) ->
  all_times (on_event f ev s).
Proof.
  intros [H1 H2] Hf. split; [done|]. intros x e. rewrite lookup_on_event. case_decide; [subst x|apply H2].
  destruct (events s !! ev) as [e0|] eqn:He; [|done]. cbn. intros [= <-]. by apply Hf, H2 with ev.
Qed.

Lemma all_times_exec s i K s' next spawn :
  counts s (i :: K) -> all_times s -> exec i s = Go s' next spawn -> all_times s'.
Proof.
  intros Hc H He. destruct (counts_subject _ _ _ Hc) as [e Hev].
  assert (forall d ev next' s'' n'' sp, chain d ev s next' = Go s'' n'' sp -> all_times s'') as Hchain.
  { intros d ev n' s'' n'' sp Hch. unfold chain in Hch. repeat case_match; simplify_eq; [done|].
    apply all_times_one; [apply all_times_one; [done|]|]; intros e' _; by apply times_ok_same. }
  assert (0 < now s) as Ht by apply H.
  assert (forall status, (status = CL_QUEUED /\ m_status e = status_new) \/
    (status = CL_SUBMITTED /\ m_status e = CL_QUEUED) \/ (status = CL_RUNNING /\ m_status e = CL_SUBMITTED) \/
    (status = CL_COMPLETE /\ (m_status e = CL_SUBMITTED \/ m_status e = CL_RUNNING)) ->
    all_times (on_event (enter status (now s)) (subject i) s)) as Henter.
  { intros status Hst. apply all_times_one; [done|]. intros e0 He0. rewrite Hev in He0. injection He0 as <-.
    intros Hok. by apply times_ok_enter. }
  destruct i as [ev [|d deps]|ev|ev [|d deps]|ev|ev|ev n|ev|ev|ev]; cbn [exec subject] in *;
    try (by eapply Hchain); try (injection He as <- _ _; done).
  - unfold queue in He. rewrite Hev in He. repeat case_match; simplify_eq; [done|]. apply Henter. left.
    split; [done|]. by eapply counts_own; [exact Hc|exact Hev|apply same_refl].
  - unfold queue_end in He. rewrite Hev in He. case_match; [|done]. injection He as <- _ _.
    apply (Henter CL_QUEUED). left. split; [done|]. by eapply counts_own; [exact Hc|exact Hev|apply same_refl].
  - unfold submit in He. rewrite Hev in He. case_match; [done|]. case_match; [done|]. cbv zeta in He.
    destruct (Nat.eqb_spec (pred (m_wait_count e)) 0) as [Hw|Hw]; cbn [negb] in He.
    + case_match; [done|]. injection He as <- _ _. destruct (counts_submit_status _ _ _ _ Hev Hw Hc) as [Hst _].
      apply (all_times_one (on_event (on_wait pred) ev s)).
      * apply all_times_one; [done|]. intros e0 _. by apply times_ok_same.
      * intros e0 He0 Hok. rewrite lookup_on_event, decide_True, Hev in He0 by done. injection He0 as <-.
        apply times_ok_enter; [done|done|]. auto.
    + injection He as <- _ _. apply all_times_one; [done|]. intros e0 _. by apply times_ok_same.
  - unfold trigger_enqueue_action in He. rewrite Hev in He. case_match; injection He as <- _ _; done.
  - unfold set_status in He. rewrite Hev in He. case_match; [done|].
    destruct (counts_drv _ _ _ _ _ Hc Hev (same_refl ev)) as [Hst _].
    destruct (Z.eqb_spec (m_status e) CL_RUNNING) as [|Hne]; cbn [Z.eqb Pos.eqb CL_RUNNING CL_COMPLETE] in He;
      injection He as <- _ _; [done|]. apply (Henter CL_RUNNING). destruct Hst; [auto|done].
  - unfold set_status in He. rewrite Hev in He. case_match; [done|]. case_match; [done|].
    destruct (counts_drv _ _ _ _ _ Hc Hev (same_refl ev)) as [Hst _].
    injection He as <- _ _. apply Henter. auto.
  - unfold run_callbacks in He. rewrite Hev in He. case_match; [done|]. by injection He as <- _ _.
  - unfold remove in He. rewrite Hev in He. repeat case_match; simplify_eq; done.
Qed.

Lemma all_times_call s c s' spawn : all_times s -> do_call c s = Some (s', spawn) -> all_times s'.
Proof.
  intros H Hd. destruct c as [ooo|cq b act deps|ev|ev cb|]; cbn in Hd.
  - by injection Hd as <- _.
  - case_match; [|done]. injection Hd as <- _. split; [apply H|]. intros x e He. cbn in He.
    apply lookup_snoc_Some in He as [[_ He]|[_ <-]]; [by eapply H|]. by split_and!.
  - destruct (events s !! ev) as [e|] eqn:He; [|done]. case_match; [|done]. injection Hd as <- _.
    apply all_times_one; [done|]. intros e0 _. by apply times_ok_same.
  - unfold add_callback in Hd. repeat case_match; cbn in Hd; simplify_eq; [done|].
    apply (all_times_one s (on_callbacks (fun l => l ++ [cb])) ev H). intros e0 _. by apply times_ok_same.
  - injection Hd as <- _. destruct H as [H1 H2]. split; cbn; [lia|]. intros ev e He.
    destruct (H2 ev e He) as (Q0 & Q1 & Q2 & Q3 & Q4). split_and!; intros Hs; auto;
      [specialize (Q1 Hs)|specialize (Q2 Hs)|specialize (Q3 Hs)|specialize (Q4 Hs)]; lia.
Qed.

Lemma reachable_times c : reachable c -> all_times c.1.
Proof.
  induction 1 as [|c c' Hr IH Hstep]; [split; [done|]; intros; discriminate|].
  destruct Hstep as [s ts n i k s' next spawn Hn He|c s ts s' spawn Hd]; cbn in *.
  - destruct (reachable_cinv _ Hr) as [Hi _]. destruct (pending_split _ _ _ _ Hn) as (K & HK & _).
    eapply all_times_exec; [|done|exact He]. eapply counts_perm; [exact HK|]. apply Hi.
  - by eapply all_times_call.
Qed.

(** * Callbacks *)

Definition pair_count (x : nat * nat) (l : list (nat * nat)) : nat :=
  count_occ (fun a b => decide (a = b)) l x.

Definition cbk (ev : nat) (i : instr) : nat :=
  match i with Callbacks e => same ev e | _ => 0 end.

(** Callbacks that were installed and not called yet. *)
Definition uncalled (L : list instr) (ev : nat) (e : event) (cb : nat) : nat :=
  if (m_status e =? CL_COMPLETE) && (total (cbk ev) L =? 0)%nat then 0 else occurs (m_callbacks e) cb.

Record callbacks_ok (s : state) (L : list instr) : Prop := {
  cb_pending : forall ev e, events s !! ev = Some e -> le (total (cbk ev) L) (b2n (m_status e =? CL_COMPLETE));
  cb_count : forall ev e cb, events s !! ev = Some e ->
    (pair_count (ev, cb) (called s) + uncalled L ev e cb)%nat = pair_count (ev, cb) (registered s);
  cb_early : forall ev e cb, events s !! ev = Some e -> m_status e <> CL_COMPLETE ->
    pair_count (ev, cb) (called s) = 0%nat;
  cb_known : forall ev cb, (length (events s) <= ev)%nat ->
    pair_count (ev, cb) (called s) = 0%nat /\ pair_count (ev, cb) (registered s) = 0%nat;
}.

Lemma callbacks_ok_perm s L L' : Permutation L L' -> callbacks_ok s L -> callbacks_ok s L'.
Proof.
  intros HL [H1 H2 H3 H4]. split; try done.
  - intros ev e He. rewrite <- (total_perm _ _ _ HL). by apply H1.
  - intros ev e cb He. unfold uncalled. rewrite <- (total_perm _ _ _ HL). by apply H2.
Qed.

(** Steps that neither complete an event nor touch callbacks. *)
Lemma callbacks_ok_same s s' L L' :
  called s' = called s -> registered s' = registered s -> length (events s') = length (events s) ->
  (forall ev e', events s' !! ev = Some e' -> exists e, events s !! ev = Some e /\
     (m_status e' = CL_COMPLETE <-> m_status e = CL_COMPLETE) /\ m_callbacks e' = m_callbacks e) ->
  (forall ev, total (cbk ev) L' = total (cbk ev) L) ->
  callbacks_ok s L -> callbacks_ok s' L'.
Proof.
  intros Hca Hre Hlen Hev HL [H1 H2 H3 H4].
  assert (forall e e', (m_status e' = CL_COMPLETE <-> m_status e = CL_COMPLETE) ->
    (m_status e' =? CL_COMPLETE) = (m_status e =? CL_COMPLETE)) as Heqb.
  { intros e e' H. apply eq_bool_prop_intro. by rewrite !Is_true_true, !Z.eqb_eq. }
  split; rewrite ?Hca, ?Hre, ?Hlen.
  - intros ev e' He'. destruct (Hev ev e' He') as (e & He & Hs & _). rewrite HL, (Heqb _ _ Hs). by apply H1.
  - intros ev e' cb He'. destruct (Hev ev e' He') as (e & He & Hs & Hc). rewrite <- (H2 ev e cb He).
    unfold uncalled. by rewrite HL, (Heqb _ _ Hs), Hc.
  - intros ev e' cb He' Hs'. destruct (Hev ev e' He') as (e & He & Hs & _). apply (H3 ev e cb He).
    by rewrite <- Hs.
  - done.
Qed.

Lemma same_events_cb s s' :
  events s' = events s ->
  forall ev e', events s' !! ev = Some e' -> exists e, events s !! ev = Some e /\
     (m_status e' = CL_COMPLETE <-> m_status e = CL_COMPLETE) /\ m_callbacks e' = m_callbacks e.
Proof. intros H ev e'. rewrite H. eauto. Qed.

Lemma one_event_cb s f ev e :
  events s !! ev = Some e -> m_callbacks (f e) = m_callbacks e ->
  (m_status (f e) = CL_COMPLETE <-> m_status e = CL_COMPLETE) ->
  forall x e', events (on_event f ev s) !! x = Some e' -> exists e0, events s !! x = Some e0 /\
     (m_status e' = CL_COMPLETE <-> m_status e0 = CL_COMPLETE) /\ m_callbacks e' = m_callbacks e0.
Proof.
  intros He Hc Hs x e'. rewrite lookup_on_event. case_decide; [subst x|eauto].
  rewrite He. cbn. intros [= <-]. eauto.
Qed.

(** Completion: the installed callbacks are now due. *)
Lemma callbacks_ok_complete s ev e t K :
  events s !! ev = Some e -> m_status e <> CL_COMPLETE -> callbacks_ok s (Complete ev :: K) ->
  callbacks_ok (on_event (enter CL_COMPLETE t) ev s) (Callbacks ev :: Remove ev :: K).
Proof.
  intros He Hst [H1 H2 H3 H4].
  assert (total (cbk ev) K = 0%nat) as H0
    by (specialize (H1 ev e He); rewrite (proj2 (Z.eqb_neq _ _) Hst) in H1; cbn in H1; lia).
  split.
  - intros x e'. rewrite (lookup_enter _ _ _ _ _ _ He), !total_cons. case_decide as Hx.
    + subst x. intros [= <-]. cbn. rewrite same_refl. lia.
    + intros Hx'. specialize (H1 x e' Hx'). rewrite total_cons in H1. cbn in *. rewrite same_ne by done. lia.
  - intros x e' cb. rewrite (lookup_enter _ _ _ _ _ _ He). cbn [called registered on_event]. case_decide as Hx.
    + subst x. intros [= <-]. rewrite <- (H2 ev e cb He). unfold uncalled. rewrite !total_cons.
      cbn [cbk]. rewrite same_refl. cbn [m_status enter on_times on_status m_callbacks].
      rewrite (proj2 (Z.eqb_neq _ _) Hst). cbn [andb]. done.
    + intros Hx'. rewrite <- (H2 x e' cb Hx'). unfold uncalled. rewrite !total_cons. cbn [cbk].
      by rewrite same_ne by done.
  - intros x e' cb. rewrite (lookup_enter _ _ _ _ _ _ He). case_decide; [|by apply H3].
    by intros [= <-].
  - intros x cb. cbn [events on_event called registered]. rewrite length_alter. apply H4.
Qed.

Lemma pair_count_app x l1 l2 : pair_count x (l1 ++ l2) = (pair_count x l1 + pair_count x l2)%nat.
Proof. apply count_occ_app. Qed.

Lemma pair_count_map ev x cb l :
  pair_count (x, cb) (pair ev <$> l) = if decide (x = ev) then occurs l cb else 0%nat.
Proof.
  induction l as [|c l IH]; [by case_decide|]. rewrite fmap_cons. unfold pair_count in *. cbn [count_occ].
  rewrite IH. destruct (Nat.eq_dec c cb); repeat case_decide; simplify_eq; done.
Qed.

Lemma callbacks_ok_run s ev e K :
  events s !! ev = Some e -> m_status e = CL_COMPLETE -> callbacks_ok s (Callbacks ev :: K) ->
  callbacks_ok (State (events s) (queues s) (called s ++ (pair ev <$> m_callbacks e)) (registered s) (now s)) K.
Proof.
  intros He Hst [H1 H2 H3 H4].
  assert (total (cbk ev) K = 0%nat) as H0.
  { specialize (H1 ev e He). rewrite Hst, total_cons in H1. cbn [cbk] in H1. rewrite same_refl in H1. cbn in H1. lia. }
  split; cbn [events called registered].
  - intros x e' Hx. specialize (H1 x e' Hx). rewrite total_cons in H1. lia.
  - intros x e' cb Hx. rewrite <- (H2 x e' cb Hx), pair_count_app, pair_count_map. unfold uncalled.
    rewrite total_cons. cbn [cbk]. case_decide as Hxe.
    + subst x. rewrite He in Hx. injection Hx as <-. rewrite H0, same_refl, Hst. cbn. lia.
    + rewrite same_ne by done. cbn. lia.
  - intros x e' cb Hx Hs. rewrite pair_count_app, pair_count_map. case_decide; [congruence|].
    rewrite (H3 x e' cb Hx Hs). done.
  - intros x cb Hx. rewrite pair_count_app, pair_count_map. destruct (H4 x cb Hx) as [-> ->].
    case_decide; [|done]. subst x. apply lookup_lt_Some in He. lia.
Qed.

Lemma callbacks_ok_exec s i K s' next spawn :
  counts s (i :: K) -> callbacks_ok s (i :: K) -> exec i s = Go s' next spawn ->
  callbacks_ok s' (next ++ mjoin spawn ++ K).
Proof.
  intros Hc H He. pose proof (exec_length _ _ _ _ _ He) as Hlen.
  destruct (counts_subject _ _ _ Hc) as [e Hev].
  assert (forall d ev j, (forall x, cbk x i = 0%nat) -> (forall x, cbk x j = 0%nat) ->
    chain d ev s [j] = Go s' next spawn -> callbacks_ok s' (next ++ mjoin spawn ++ K)) as Hchain.
  { intros d ev j Hi Hj Hch. unfold chain in Hch. repeat case_match; simplify_eq;
      (eapply callbacks_ok_same; [| | | | |exact H]; [done|done|done| |intros x; cbn; by rewrite Hi, Hj]);
      [by apply same_events_cb|].
    intros x e'. rewrite !lookup_on_event. destruct (events s !! x) as [ex|];
      repeat case_decide; cbn; try done; intros [= <-]; eauto. }
  destruct i as [ev [|d deps]|ev|ev [|d deps]|ev|ev|ev n|ev|ev|ev]; cbn [exec subject] in *;
    try (by eapply Hchain; [..|exact He]).
  - injection He as <- <- <-. eapply callbacks_ok_same; [| | | | |exact H]; [done|done|done|by apply same_events_cb|done].
  - unfold queue in He. rewrite Hev in He. pose proof (counts_own _ _ _ _ _ Hc Hev (same_refl ev)) as Hst.
    repeat case_match; simplify_eq;
      (eapply callbacks_ok_same; [| | | | |exact H]; [done|done|done| |done]); [by apply same_events_cb|].
    eapply one_event_cb; [exact Hev|done|]. cbn. by rewrite Hst.
  - unfold queue_end in He. rewrite Hev in He. pose proof (counts_own _ _ _ _ _ Hc Hev (same_refl ev)) as Hst.
    case_match; [|done]. injection He as <- <- <-.
    eapply callbacks_ok_same; [| | | | |exact H]; [done|done|done| |done].
    apply (one_event_cb (on_queue (insert_event ev e) n s) (enter CL_QUEUED (now s)) ev e Hev); [done|].
    cbn. by rewrite Hst.
  - unfold submit in He. rewrite Hev in He. case_match; [done|]. case_match; [done|]. cbv zeta in He.
    destruct (Nat.eqb_spec (pred (m_wait_count e)) 0) as [Hw|Hw]; cbn [negb] in He.
    + case_match; [done|]. injection He as <- <- <-. destruct (counts_submit_status _ _ _ _ Hev Hw Hc) as [Hst _].
      eapply callbacks_ok_same; [| | | | |exact H]; [done|done|done| |intros x; by destruct (is_hard e)].
      rewrite on_event_twice. eapply one_event_cb; [exact Hev|done|]. cbn. by rewrite Hst.
    + injection He as <- <- <-. eapply callbacks_ok_same; [| | | | |exact H]; [done|done|done| |done].
      by eapply one_event_cb.
  - unfold trigger_enqueue_action in He. rewrite Hev in He.
    case_match; injection He as <- <- <-;
      (eapply callbacks_ok_same; [| | | | |exact H]; [done|done|done|by apply same_events_cb|done]).
  - unfold set_status in He. rewrite Hev in He. case_match; [done|].
    destruct (counts_drv _ _ _ _ _ Hc Hev (same_refl ev)) as [Hst _].
    destruct (m_status e =? CL_RUNNING); cbn [Z.eqb Pos.eqb CL_RUNNING CL_COMPLETE] in He;
      injection He as <- <- <-;
      (eapply callbacks_ok_same; [| | | | |exact H]; [done|done|done| |intros x; by destruct n]);
      [by apply same_events_cb|].
    eapply one_event_cb; [exact Hev|done|]. cbn. by destruct Hst as [-> | ->].
  - unfold set_status in He. rewrite Hev in He. case_match; [done|]. case_match; [done|].
    destruct (counts_drv _ _ _ _ _ Hc Hev (same_refl ev)) as [Hst _].
    injection He as <- <- <-. eapply callbacks_ok_complete; [exact Hev| |exact H].
    by destruct Hst as [-> | ->].
  - unfold run_callbacks in He. rewrite Hev in He. case_match; [done|]. injection He as <- <- <-.
    eapply callbacks_ok_run; [exact Hev| |exact H].
    pose proof (cb_pending _ _ H ev e Hev) as Hp. rewrite total_cons in Hp. cbn [cbk] in Hp.
    rewrite same_refl in Hp. destruct (Z.eqb_spec (m_status e) CL_COMPLETE); [done|]. cbn in Hp. lia.
  - assert (forall x, total (cbk x) (Submit <$> m_chain e) = 0%nat) as Hz.
    { intros x. apply total_zero. intros j (y & -> & _)%list_elem_of_fmap. done. }
    unfold remove in He. rewrite Hev in He. repeat case_match; simplify_eq;
      (eapply callbacks_ok_same; [| | | | |exact H]; [done|done|done|by apply same_events_cb|]);
      intros x; cbn [mjoin list_join]; by rewrite total_app, Hz.
Qed.

Lemma callbacks_ok_create s s' ev b act deps K :
  events s' = events s ++ [new_event ev b act deps] -> called s' = called s -> registered s' = registered s ->
  counts s K -> callbacks_ok s K -> callbacks_ok s' (Construct (length (events s)) deps :: K).
Proof.
  intros Hev Hca Hre Hc [H1 H2 H3 H4].
  assert (total (cbk (length (events s))) K = 0%nat) as Hz.
  { apply total_zero. intros i Hi. pose proof (co_subject _ _ Hc) as Hf. rewrite Forall_forall in Hf.
    specialize (Hf i Hi). destruct i; cbn in *; try done. apply same_ne. lia. }
  split; rewrite ?Hev, ?Hca, ?Hre.
  - intros x e He. apply lookup_snoc_Some in He as [[_ He]|[-> <-]]; [by apply H1|]. by rewrite total_cons, Hz.
  - intros x e cb He. apply lookup_snoc_Some in He as [[_ He]|[-> <-]]; [by apply H2|].
    destruct (H4 (length (events s)) cb) as [-> ->]; done.
  - intros x e cb He. apply lookup_snoc_Some in He as [[_ He]|[-> <-]]; [by apply H3|]. intros _. by apply H4.
  - intros x cb. rewrite length_app. cbn. intros Hx. apply H4. lia.
Qed.

Lemma pair_count_one ev cb x c : pair_count (x, c) [(ev, cb)] = if decide (x = ev) then occurs [cb] c else 0%nat.
Proof. change [(ev, cb)] with (pair ev <$> [cb]). apply pair_count_map. Qed.

(** A callback for an event that is complete is called at once. *)
Lemma callbacks_ok_late s ev e cb K :
  events s !! ev = Some e -> m_status e = CL_COMPLETE -> callbacks_ok s K ->
  callbacks_ok (State (events s) (queues s) (called s ++ [(ev, cb)]) (registered s ++ [(ev, cb)]) (now s)) K.
Proof.
  intros He Hst [H1 H2 H3 H4]. split; cbn [events called registered].
  - done.
  - intros x ex c Hx. rewrite !pair_count_app, <- (H2 x ex c Hx). lia.
  - intros x ex c Hx Hsx. rewrite pair_count_app, (H3 x ex c Hx Hsx), pair_count_one.
    case_decide; [congruence|done].
  - intros x c Hx. rewrite !pair_count_app, pair_count_one. destruct (H4 x c Hx) as [-> ->].
    case_decide; [|done]. subst x. apply lookup_lt_Some in He. lia.
Qed.

(** Otherwise it is installed. *)
Lemma callbacks_ok_install s ev e cb K :
  events s !! ev = Some e -> m_status e <> CL_COMPLETE -> callbacks_ok s K ->
  callbacks_ok (State (alter (on_callbacks (fun l => l ++ [cb])) ev (events s)) (queues s) (called s)
                  (registered s ++ [(ev, cb)]) (now s)) K.
Proof.
  intros He Hst [H1 H2 H3 H4]. set (f := on_callbacks (fun l => l ++ [cb])).
  assert (forall x, alter f ev (events s) !! x = if decide (x = ev) then Some (f e) else events s !! x) as Hlook.
  { intros x. change (alter f ev (events s)) with (events (on_event f ev s)). rewrite lookup_on_event.
    case_decide; [|done]. subst x. by rewrite He. }
  split; cbn [events called registered].
  - intros x ex. rewrite Hlook. case_decide; [|apply H1]. intros [= <-]. subst x. exact (H1 ev e He).
  - intros x ex c. rewrite Hlook, pair_count_app, pair_count_one. case_decide as Hxe.
    + subst x. intros [= <-]. rewrite <- (H2 ev e c He). unfold uncalled, f.
      cbn [m_status m_callbacks on_callbacks]. rewrite (proj2 (Z.eqb_neq _ _) Hst). cbn [andb].
      rewrite occurs_app. lia.
    + intros Hx. rewrite (H2 x ex c Hx). lia.
  - intros x ex c. rewrite Hlook. case_decide; [|apply H3]. subst x. intros [= <-]. exact (H3 ev e c He).
  - intros x c. rewrite length_alter, pair_count_app, pair_count_one. intros Hx.
    destruct (H4 x c Hx) as [-> ->]. case_decide; [|done]. subst x. apply lookup_lt_Some in He. lia.
Qed.

Lemma callbacks_ok_call s c K s' spawn :
  callbacks_ok s K -> counts s K -> do_call c s = Some (s', spawn) -> callbacks_ok s' (mjoin spawn ++ K).
Proof.
  intros H Hc Hd. destruct c as [ooo|cq b act deps|ev|ev cb|]; cbn in Hd.
  - injection Hd as <- <-. eapply callbacks_ok_same; [| | | | |exact H]; [done|done|done|by apply same_events_cb|done].
  - case_match; [|done]. injection Hd as <- <-. by eapply callbacks_ok_create.
  - destruct (events s !! ev) as [e|] eqn:He; [|done]. case_match; [|done]. injection Hd as <- <-.
    eapply callbacks_ok_same; [| | | | |exact H]; [done|done|cbn; apply length_alter| |done]. by eapply one_event_cb.
  - case_match; [|done]. unfold add_callback in Hd. destruct (events s !! ev) as [e|] eqn:He; [|done].
    case_match; [done|]. destruct (Z.eqb_spec (m_status e) CL_COMPLETE) as [Hst|Hst];
      cbn in Hd; injection Hd as <- <-; [by eapply callbacks_ok_late|by eapply callbacks_ok_install].
  - injection Hd as <- <-. eapply callbacks_ok_same; [| | | | |exact H]; [done|done|done|by apply same_events_cb|done].
Qed.

Lemma reachable_callbacks s ts : reachable (s, ts) -> callbacks_ok s (pending ts).
Proof.
  intros Hr. change (callbacks_ok (s, ts).1 (pending (s, ts).2)). induction Hr as [|c c' Hr IH Hstep].
  - split; intros; try discriminate. done.
  - pose proof (reachable_cinv _ Hr) as [Hi _].
    destruct Hstep as [s0 ts0 n i k s' next spawn Hn He|c s0 ts0 s' spawn Hd]; cbn in *.
    + destruct (pending_split _ _ _ _ Hn) as (K & HK & HK').
      eapply callbacks_ok_perm; [symmetry; apply HK'|].
      eapply callbacks_ok_exec; [|by eapply callbacks_ok_perm|exact He].
      eapply counts_perm; [exact HK|apply Hi].
    + eapply callbacks_ok_perm; [|eapply callbacks_ok_call; [exact IH|apply Hi|exact Hd]].
      rewrite join_app. apply Permutation_app_comm.
Qed.
