(* ===== verification/OclTermination.v ===== *)
(** The threads come to rest: a bound on the number of steps that threads can
    take when the application makes no further calls. *)

From Stdlib Require Import Sorting.Permutation.
From stdpp Require Import relations.
From S2P Require Import Prelude OclEvent OclInvariant OclOrder OclQueueOrder OclProgress.

(** * The work left *)

Definition more_tasks (e : event) : nat :=
  match m_enqueue_action e with scheduled n => n | _ => 0 end.
Definition tasks_of (s : state) (ev : nat) : nat :=
  match events s !! ev with Some e => more_tasks e | None => 0 end.

(** What an event will still cause: its execution, the submission of its chain. *)
Definition event_work (e : event) : nat :=
  ((if waiting e then 8 + more_tasks e else 0) +
   (if (m_status e =? CL_COMPLETE)%Z then 0 else 2 * length (m_chain e)))%nat.

(** What a pending step will cause at most; [n] bounds the events. *)
Definition step_work (s : state) (n : nat) (i : instr) : nat :=
  match i with
  | Construct _ ds => 3 * length ds + 3 * n + 6
  | Queue _ => 3 * n + 5
  | Link _ ds => 3 * length ds + 4
  | Submit _ => 1
  | Trigger ev => 7 + tasks_of s ev
  | Run _ more => 6 + more
  | Complete _ => 5
  | Callbacks _ => 1
  | Remove ev => 2 + 2 * length (chain_of s ev)
  end.

Definition work (s : state) (L : list instr) : nat :=
  (total event_work (events s) + total (step_work s (length (events s))) L)%nat.

(** The work of the other steps does not change with one event. *)
Lemma step_work_one s f ev e n i :
  events s !! ev = Some e -> m_chain (f e) = m_chain e -> m_enqueue_action (f e) = m_enqueue_action e ->
  step_work (on_event f ev s) n i = step_work s n i.
Proof.
  intros He Hc Ha. destruct i; cbn; try done.
  - unfold tasks_of. rewrite lookup_on_event. case_decide; [subst; rewrite He; cbn|done].
    unfold more_tasks. by rewrite Ha.
  - rewrite chain_of_on_event; [done|]. intros e0 He0. congruence.
Qed.

Lemma work_one s f ev e old new K :
  events s !! ev = Some e -> m_chain (f e) = m_chain e -> m_enqueue_action (f e) = m_enqueue_action e ->
  (event_work (f e) + total (step_work s (length (events s))) new <
   event_work e + total (step_work s (length (events s))) old)%nat ->
  (work (on_event f ev s) (new ++ K) < work s (old ++ K))%nat.
Proof.
  intros He Hc Ha Hlt. unfold work. rewrite !total_app.
  pose proof (total_alter event_work f ev (events s) e He) as Hev.
  assert (length (events (on_event f ev s)) = length (events s)) as -> by (cbn; apply length_alter).
  rewrite !(total_ext (step_work (on_event f ev s) _) (step_work s (length (events s))))
    by (intros; by eapply step_work_one).
  cbn [events on_event]. lia.
Qed.

Lemma step_work_eq s s' n i : events s' = events s -> step_work s' n i = step_work s n i.
Proof. intros H. destruct i; cbn; try done; unfold tasks_of, chain_of; by rewrite H. Qed.

Lemma work_steps s s' old new K :
  events s' = events s ->
  (total (step_work s (length (events s))) new < total (step_work s (length (events s))) old)%nat ->
  (work s' (new ++ K) < work s (old ++ K))%nat.
Proof.
  intros H Hlt. unfold work. rewrite H, !total_app.
  rewrite !(total_ext (step_work s' _) (step_work s (length (events s)))) by (intros; by apply step_work_eq).
  lia.
Qed.

(** Chaining one more event. *)
Lemma work_chain s d ev next s' j i K :
  counts s (i :: K) -> (exists e, events s !! ev = Some e) ->
  (forall x s n, step_work s n i = (step_work s n j + 3)%nat /\ fin x i = 0%nat /\ fin x j = 0%nat) ->
  chain d ev s [j] = Go s' next [] -> (work s' (next ++ K) < work s (i :: K))%nat.
Proof.
  intros Hc [e He] Hij Hch. unfold chain in Hch. case_match; [done|].
  destruct (events s !! d) as [ed|] eqn:Hd; [|done]. rewrite He in Hch.
  destruct (negb (m_status e =? status_new)); [done|].
  destruct (Z.eqb_spec (m_status ed) CL_COMPLETE) as [|Hst]; injection Hch as <- <-.
  - apply (work_steps s s [i] [j] K); [done|]. cbn. destruct (Hij 0%nat s (length (events s))) as [-> _]. lia.
  - set (s1 := on_event (on_chain (fun l => l ++ [ev])) d s).
    assert (exists e1, events s1 !! ev = Some e1) as [e1 He1]
      by (unfold s1; rewrite lookup_on_event, He; case_decide; cbn; eauto).
    assert (work (on_event (on_wait S) ev s1) ([j] ++ K) <= work s1 ([j] ++ K))%nat as Hw.
    { unfold work. pose proof (total_alter event_work (on_wait S) ev (events s1) e1 He1) as Hev.
      assert (length (events (on_event (on_wait S) ev s1)) = length (events s1)) as -> by (cbn; apply length_alter).
      rewrite (total_ext (step_work (on_event (on_wait S) ev s1) _) (step_work s1 (length (events s1))))
        by (intros; by eapply step_work_one).
      change (events (on_event (on_wait S) ev s1)) with (alter (on_wait S) ev (events s1)).
      change (event_work (on_wait S e1)) with (event_work e1) in Hev. lia. }
    assert (work s1 ([j] ++ K) + 1 <= work s (i :: K))%nat; [|lia].
    unfold work. pose proof (total_alter event_work (on_chain (fun l => l ++ [ev])) d (events s) ed Hd) as Hev.
    assert (length (events s1) = length (events s)) as -> by (cbn; apply length_alter).
    change (alter (on_chain (fun l => l ++ [ev])) d (events s)) with (events s1) in Hev.
    assert (event_work (on_chain (fun l => l ++ [ev]) ed) = event_work ed + 2)%nat as Hed.
    { unfold event_work. cbn [m_status on_chain m_chain]. rewrite (proj2 (Z.eqb_neq _ _) Hst), length_app. cbn [length].
      change (waiting (on_chain (fun l => l ++ [ev]) ed)) with (waiting ed).
      change (more_tasks (on_chain (fun l => l ++ [ev]) ed)) with (more_tasks ed). lia. }
    assert (forall y, y ∈ [j] ++ K -> step_work s1 (length (events s)) y = step_work s (length (events s)) y) as Hsame.
    { intros y Hy. assert (fin d y = 0%nat) as Hf.
      { apply elem_of_app in Hy as [->%list_elem_of_singleton|Hy]; [apply (Hij d s 0%nat)|].
        pose proof (eo_fin _ _ _ _ (co_event _ _ Hc d ed Hd)) as Hf.
        rewrite (proj2 (Z.eqb_neq _ _) Hst), total_cons in Hf. cbn [b2n] in Hf.
        pose proof (total_pos (fin d) K y Hy). lia. }
      destruct y as [| | | |x| | | |x]; cbn [step_work]; try done.
      - unfold tasks_of, s1. rewrite lookup_on_event. case_decide; [subst x; by rewrite Hd|done].
      - unfold chain_of, s1. rewrite lookup_on_event. case_decide; [subst x|done]. cbn in Hf. by rewrite same_refl in Hf. }
    rewrite (total_ext _ _ _ Hsame), total_app, total_cons. cbn [total sum_list_with].
    destruct (Hij 0%nat s (length (events s))) as [-> _]. lia.
Qed.

(** A queue chains a new event to at most as many events as there are. *)
Lemma NoDup_bounded (l : list nat) n : NoDup l -> Forall (fun x => (x < n)%nat) l -> (length l <= n)%nat.
Proof.
  intros Hnd Hf. rewrite <- (length_seq n 0). apply NoDup_incl_length; [by apply NoDup_ListNoDup|].
  intros x Hx%list_elem_of_In. rewrite Forall_forall in Hf. apply in_seq. specialize (Hf x Hx). cbn in Hf. lia.
Qed.

Lemma targets_length s L q cq :
  queue_ok s L q cq -> logs_ok s -> queues s !! q = Some cq ->
  (0 < length (events s))%nat -> (length (chain_targets cq) <= length (events s))%nat.
Proof.
  intros Hq Hl Hcq Hpos. unfold chain_targets. destruct (out_of_order cq).
  - apply NoDup_bounded; [apply Hq|]. apply Forall_forall. intros x (_ & Hx & _)%(qo_barriers _ _ _ _ Hq).
    apply (qo_members _ _ _ _ Hq) in Hx as (e & He & _). by eapply lookup_lt_Some.
  - destruct (m_last_queued_event cq); cbn; lia.
Qed.

Lemma work_submits s l : total (step_work s (length (events s))) (Submit <$> l) = length l.
Proof. induction l as [|x l IH]; [done|]. rewrite fmap_cons, total_cons, IH. done. Qed.

Lemma exec_work s i K s' next spawn :
  inv s (i :: K) -> exec i s = Go s' next spawn ->
  (work s' (next ++ mjoin spawn ++ K) < work s (i :: K))%nat.
Proof.
  intros [Hc Hqs [Hw Hl] _ _] He. destruct (counts_subject _ _ _ Hc) as [e Hev].
  pose proof (lookup_lt_Some _ _ _ Hev) as Hlt. set (N := length (events s)).
  assert (forall d ev next0 s0 n0 sp, chain d ev s next0 = Go s0 n0 sp -> sp = []) as Hsp
    by (intros; by eapply chain_effect).
  destruct i as [ev [|d deps]|ev|ev [|d deps]|ev|ev|ev n|ev|ev|ev]; cbn [exec subject] in *.
  - injection He as <- <- <-. apply (work_steps s s [Construct ev []] [Queue ev]); [done|]. cbn. lia.
  - pose proof (Hsp _ _ _ _ _ _ He) as ->. eapply work_chain; [exact Hc|eauto| |exact He].
    intros; cbn; split_and!; (done || lia).
  - unfold queue in He. rewrite Hev in He. destruct (m_command_queue e) as [q|] eqn:Hq.
    + destruct (queues s !! q) as [cq|] eqn:Hcq; [|done]. case_match; [done|]. injection He as <- <- <-.
      apply (work_steps s _ [Queue ev] [Link ev (chain_targets cq)]); [done|]. cbn.
      pose proof (targets_length s _ q cq (qs_queue _ _ Hqs q cq Hcq) Hl Hcq ltac:(lia)). lia.
    + injection He as <- <- <-.
      pose proof (counts_own _ _ _ _ _ Hc Hev (same_refl ev)) as Hst.
      eapply (work_one s _ ev e [Queue ev] [Submit ev]); [done|done|done|].
      unfold event_work, waiting, more_tasks. cbn. rewrite Hst. cbn. lia.
  - unfold queue_end in He. rewrite Hev in He. destruct (m_command_queue e) as [q|] eqn:Hq; [|done].
    injection He as <- <- <-. pose proof (counts_own _ _ _ _ _ Hc Hev (same_refl ev)) as Hst.
    assert (work (on_queue (insert_event ev e) q s) (Link ev [] :: K) = work s (Link ev [] :: K)) as <-.
    { unfold work. cbn [events on_queue]. f_equal. }
    eapply (work_one (on_queue (insert_event ev e) q s) _ ev e [Link ev []] [Submit ev]); [done|done|done|].
    unfold event_work, waiting, more_tasks. cbn. rewrite Hst. cbn. lia.
  - pose proof (Hsp _ _ _ _ _ _ He) as ->. eapply work_chain; [exact Hc|eauto| |exact He].
    intros; cbn; split_and!; (done || lia).
  - unfold submit in He. rewrite Hev in He. case_match; [done|]. case_match; [done|]. cbv zeta in He.
    destruct (Nat.eqb_spec (pred (m_wait_count e)) 0) as [Hwc|Hwc]; cbn [negb] in He.
    + case_match; [done|]. injection He as <- <- <-. rewrite on_event_twice.
      destruct (counts_submit_status _ _ _ _ Hev Hwc Hc) as [Hst _].
      eapply (work_one s _ ev e [Submit ev]); [done|done|done|].
      assert (tasks_of s ev = more_tasks e) as Ht by (unfold tasks_of; by rewrite Hev).
      unfold event_work, waiting. cbn [m_status m_chain enter on_times on_status on_wait].
      rewrite Hst. destruct (is_hard e); cbn; rewrite ?Ht; lia.
    + injection He as <- <- <-. eapply (work_one s _ ev e [Submit ev] []); [done|done|done|].
      change (event_work (on_wait pred e)) with (event_work e). cbn. lia.
  - unfold trigger_enqueue_action in He. rewrite Hev in He.
    assert (tasks_of s ev = more_tasks e) as Ht by (unfold tasks_of; by rewrite Hev). unfold more_tasks in Ht.
    destruct (m_enqueue_action e) as [| |m]; injection He as <- <- <-;
      [apply (work_steps s s [Trigger ev] [Complete ev])|apply (work_steps s s [Trigger ev] [Run ev 0])
      |apply (work_steps s s [Trigger ev] [Run ev m])]; try done; cbn; rewrite Ht; lia.
  - unfold set_status in He. rewrite Hev in He. case_match; [done|].
    destruct (counts_drv _ _ _ _ _ Hc Hev (same_refl ev)) as [Hst _].
    destruct (m_status e =? CL_RUNNING); cbn [Z.eqb Pos.eqb CL_RUNNING CL_COMPLETE] in He;
      injection He as <- <- <-.
    + eapply (work_steps s s [Run ev n]); [done|]. destruct n; cbn; lia.
    + eapply (work_one s _ ev e [Run ev n]); [done|done|done|].
      unfold event_work, waiting. cbn. destruct Hst as [-> | ->], n; cbn; lia.
  - unfold set_status in He. rewrite Hev in He. case_match; [done|]. case_match; [done|].
    destruct (counts_drv _ _ _ _ _ Hc Hev (same_refl ev)) as [Hst _].
    injection He as <- <- <-. eapply (work_one s _ ev e [Complete ev]); [done|done|done|].
    unfold event_work, waiting, chain_of. cbn. unfold chain_of. rewrite Hev. destruct Hst as [-> | ->]; cbn; lia.
  - unfold run_callbacks in He. rewrite Hev in He. case_match; [done|]. injection He as <- <- <-.
    apply (work_steps s _ [Callbacks ev] []); [done|]. cbn. lia.
  - assert (forall s', events s' = events s -> (work s' ((Submit <$> m_chain e) ++ K) < work s (Remove ev :: K))%nat) as Hrem.
    { intros s0 Hs0. eapply (work_steps s s0 [Remove ev]); [done|]. rewrite work_submits. cbn. unfold chain_of.
      rewrite Hev. lia. }
    unfold remove in He. rewrite Hev in He. repeat case_match; simplify_eq; by apply Hrem.
Qed.

(** * Runs of the threads *)

(** A step of a thread, as opposed to a call of the application. *)
Inductive thread_step : config -> config -> Prop :=
| thread_step_intro s ts n i k s' next spawn :
    ts !! n = Some (i :: k) -> exec i s = Go s' next spawn ->
    thread_step (s, ts) (s', <[n := next ++ k]> ts ++ spawn).

Lemma thread_step_step c c' : thread_step c c' -> step c c'.
Proof. intros []. by eapply step_thread. Qed.

Definition work_left (c : config) : nat := work c.1 (pending c.2).

Lemma work_perm s L L' : Permutation L L' -> work s L = work s L'.
Proof. intros H. unfold work. by rewrite (total_perm _ _ _ H). Qed.

Lemma thread_step_work c c' : reachable c -> thread_step c c' -> (work_left c' < work_left c)%nat.
Proof.
  intros Hr Hs. destruct Hs as [s ts n i k s' next spawn Hn He]. unfold work_left. cbn [fst snd].
  destruct (reachable_cinv _ Hr) as [Hi _]. destruct (pending_split _ _ _ _ Hn) as (K & HK & HK').
  rewrite (work_perm _ _ _ HK), (work_perm _ _ _ (HK' next spawn)).
  apply exec_work; [|done]. by eapply inv_perm.
Qed.

Lemma thread_steps_work n c c' :
  reachable c -> nsteps thread_step n c c' -> reachable c' /\ (n + work_left c' <= work_left c)%nat.
Proof.
  intros Hr Hn. revert Hr. induction Hn as [c|n c c1 c' Hs _ IH]; intros Hr; [split; [done|lia]|].
  pose proof (thread_step_work _ _ Hr Hs). destruct IH as [Hr' Hle]; [|split; [done|lia]].
  econstructor; [done|]. by apply thread_step_step.
Qed.
