(* ===== verification/OclTheorems.v ===== *)
(** What the OpenCL event machinery promises, for every interleaving of the
    threads of the application and of the device. *)

From stdpp Require Import relations.
From S2P Require Import Prelude OclEvent OclInvariant OclOrder OclQueueOrder OclProgress OclHistory OclTermination.

(** * Order of execution *)

Lemma no_construct s L ev e ds :
  counts s L -> events s !! ev = Some e -> waiting e = false -> Construct ev ds ∉ L.
Proof.
  intros [H _] He Hw Hin. pose proof (eo_own _ _ _ _ (H ev e He)) as Ho.
  pose proof (total_pos (own ev) L _ Hin) as Hp. cbn [own] in Hp. rewrite same_refl in Hp.
  unfold waiting in Hw. destruct (m_status e =? status_new); [done|]. cbn in Ho. lia.
Qed.

(** C13: wait lists are honoured.  In every reachable configuration an event that
    was submitted, runs or is complete only waited for events that are complete:
    every event of its wait list is. *)
Theorem starts_after_wait_list s ts ev e d :
  reachable (s, ts) -> events s !! ev = Some e -> waiting e = false -> d ∈ waits e -> complete s d.
Proof.
  intros H He Hw Hd. destruct (reachable_cinv _ H) as [[Hc _ [Ho _] _ _] _].
  destruct (wo_waits _ _ Ho ev e d He Hd) as [Hl|(ds & Hin & _)]; [by eapply linked_complete|].
  exfalso. by eapply no_construct.
Qed.

(** C4: command queues keep their order.  Of two events queued one after the
    other, the later one is not submitted before the earlier one is complete,
    if the queue is in order, or if the earlier one is a barrier. *)
Theorem queue_order s ts q cq i j a b e :
  reachable (s, ts) -> queues s !! q = Some cq -> (i < j)%nat ->
  m_log cq !! i = Some a -> m_log cq !! j = Some b -> out_of_order cq = false \/ barrier s a ->
  events s !! b = Some e -> waiting e = false -> complete s a.
Proof.
  intros H Hq Hij Ha Hb Hor He Hw. destruct (reachable_cinv _ H) as [[Hc _ [_ Hl] _ _] _].
  destruct (out_of_order cq) eqn:Ho.
  - destruct Hor as [|Hbar]; [done|]. eapply linked_complete; [exact Hc|exact He|done|].
    by eapply (lo_ooo _ _ _ (Hl q cq Hq)).
  - eapply (in_order_before s (pending ts) q cq j b e) with (i := i); try done. by apply Hl.
Qed.

(** C33: no assertion fails and no exception is thrown as long as nothing is aborted and no
    action of the device fails: in every configuration that the threads and the calls of the application reach by
    creating queues, enqueueing, completing user events, and adding callbacks, whatever a thread does
    next is not the failure of a check, and the wait count of an event that is submitted is not zero. *)
Theorem no_assertion_fails s ts n i k msg :
  reachable (s, ts) -> ts !! n = Some (i :: k) -> exec i s <> Fault msg.
Proof.
  intros H Hn. destruct (reachable_cinv _ H) as [Hi _].
  destruct (pending_split _ _ _ _ Hn) as (K & HK & _). eapply exec_no_fault. by eapply inv_perm.
Qed.

(** * Progress *)

Lemma total_none {A} (f : A -> nat) l : (0 < total f l)%nat -> exists x, x ∈ l /\ (0 < f x)%nat.
Proof.
  induction l as [|x l IH]; [cbn; lia|]. rewrite total_cons. intros H.
  destruct (f x) eqn:Hx; [|exists x; split; [left|lia]].
  destruct IH as (y & Hy & Hf); [lia|]. exists y. split; [by right|done].
Qed.

(** In a quiescent configuration every event is complete, unless a soft event is
    not, by induction on the order in which the events were queued. *)
Lemma quiescent_events s l :
  counts s [] -> queued_order s l ->
  (forall ev e, events s !! ev = Some e -> is_hard e = false -> m_status e = CL_COMPLETE) ->
  forall j ev e, l !! j = Some ev -> events s !! ev = Some e -> m_status e = CL_COMPLETE.
Proof.
  intros [Hc _] (Hnd & Hl & Ho) Hsoft j. induction j as [j IH] using lt_wf_ind. intros ev e Hj He.
  destruct (is_hard e) eqn:Hh; [|by eapply Hsoft]. destruct (Hc ev e He) as [Q1 Q2 Q3 Q4 Q5 Q6 Q7 Q8].
  destruct (status_cases e Q1) as [Hst|[Hst|[Hst|[Hst|Hst]]]]; [..|done]; exfalso.
  - rewrite Hst in Q4. done.
  - assert (0 < total (held_by ev) (events s))%nat as Hpos.
    { cbn in Q2. assert (waiting e = true) as Hw by (unfold waiting; by rewrite Hst). apply Q3 in Hw. lia. }
    apply total_none in Hpos as (ed & Hed & Hocc). apply list_elem_of_lookup_1 in Hed as [d Hd].
    unfold held_by in Hocc. destruct (Z.eqb_spec (m_status ed) CL_COMPLETE) as [|Hne]; [lia|].
    apply (count_occ_In Nat.eq_dec) in Hocc. apply list_elem_of_In in Hocc.
    destruct (Ho d ed ev Hd Hocc) as [Hdl Hij]. apply list_elem_of_lookup_1 in Hdl as [i Hi].
    specialize (Hij i j Hi Hj). by apply Hne, (IH i Hij d ed).
  - unfold started in Q5. by rewrite Hst, Hh in Q5.
  - unfold started in Q5. by rewrite Hst, Hh in Q5.
Qed.

(** C7: nothing hangs.  When no thread can go on, no thread has anything left to
    do; if every user event was completed, every event is complete and every
    command queue is empty, so that waiting for an event or for a queue
    returns. *)
Theorem quiescent_complete s ts :
  reachable (s, ts) -> quiescent (s, ts) ->
  pending ts = [] /\
  ((forall ev e, events s !! ev = Some e -> is_hard e = false -> m_status e = CL_COMPLETE) ->
   (forall ev e, events s !! ev = Some e -> m_status e = CL_COMPLETE /\ event_wait_returns e = true) /\
   (forall q cq, queues s !! q = Some cq -> queue_wait_returns cq = true)).
Proof.
  intros H Hq. pose proof (reachable_cinv _ H) as Hcinv. pose proof (quiescent_done _ Hcinv Hq) as HL.
  split; [done|]. intros Hsoft. destruct Hcinv as [[Hc Hqs _ _ (l & Hord)] _]. cbn in *. rewrite HL in *.
  assert (forall ev e, events s !! ev = Some e -> m_status e = CL_COMPLETE) as Hall.
  { intros ev e He. assert (ev ∈ l) as Hin.
    { destruct Hord as (_ & Hl & _). apply Hl. exists e. split; [done|]. intros Hst.
      pose proof (eo_own _ _ _ _ (co_event _ _ Hc ev e He)) as Ho. by rewrite Hst in Ho. }
    apply list_elem_of_lookup_1 in Hin as [j Hj]. by eapply quiescent_events. }
  split; [intros ev e He; unfold event_wait_returns; by rewrite (Hall ev e He)|].
  intros q cq Hcq. apply bool_decide_eq_true. apply set_eq. intros ev. split; [|by intros ?%not_elem_of_empty].
  intros (e & He & _ & [Ha|Hr])%(qo_members _ _ _ _ (qs_queue _ _ Hqs q cq Hcq)).
  - unfold active in Ha. by rewrite (Hall ev e He) in Ha.
  - by apply not_elem_of_nil in Hr.
Qed.

Definition can_step (c : config) : bool :=
  existsb (fun k => match k with
                    | i :: _ => match exec i c.1 with Go _ _ _ => true | _ => false end
                    | [] => false
                    end) c.2.

Lemma can_step_true c : can_step c = true -> exists c', thread_step c c'.
Proof.
  destruct c as [s ts]. unfold can_step. cbn. intros (k & Hk & Hg)%existsb_exists.
  apply list_elem_of_In, list_elem_of_lookup_1 in Hk as [n Hn]. destruct k as [|i k]; [done|].
  destruct (exec i s) as [| |s' next spawn] eqn:He; [done|done|]. eexists. by econstructor.
Qed.

Lemma can_step_false c : can_step c = false -> quiescent c.
Proof.
  destruct c as [s ts]. unfold can_step. cbn. intros Hf n i k Hn s' next spawn He. cbn in *.
  assert (existsb (fun k => match k with
            | i :: _ => match exec i s with Go _ _ _ => true | _ => false end | [] => false end) ts = true) as Ht;
    [|congruence].
  apply existsb_exists. exists (i :: k). split; [|by rewrite He].
  apply list_elem_of_In. by eapply list_elem_of_lookup_2.
Qed.

(** C15: the threads come to rest.  When the application makes no further call,
    the number of steps that the threads can take is bounded, whatever the
    scheduling, and they can run until no thread can go on. *)
Theorem threads_come_to_rest c :
  reachable c ->
  (forall n c', nsteps thread_step n c c' -> (n <= work_left c)%nat) /\
  exists c', rtc thread_step c c' /\ reachable c' /\ quiescent c'.
Proof.
  intros Hr. split; [intros n c' Hn; pose proof (thread_steps_work _ _ _ Hr Hn) as [_ ?]; lia|].
  remember (work_left c) as m eqn:Hm. revert c Hr Hm. induction m as [m IH] using lt_wf_ind. intros c Hr ->.
  destruct (can_step c) eqn:Hc.
  - apply can_step_true in Hc as [c1 Hs]. pose proof (thread_step_work _ _ Hr Hs) as Hlt.
    destruct (IH (work_left c1) Hlt c1) as (c' & Hrtc & ? & ?); [|done|].
    + econstructor; [done|]. by apply thread_step_step.
    + exists c'. split; [|done]. by econstructor.
  - exists c. split; [constructor|]. split; [done|]. by apply can_step_false.
Qed.

(** * History *)

(** Profiling times are in order.  For an event that is complete, with a clock
    that does not go back: queued before submitted, submitted before started,
    started before ended, where a command that never ran starts when it ends. *)
Theorem profiling_times_ordered s ts ev e :
  reachable (s, ts) -> events s !! ev = Some e -> m_status e = CL_COMPLETE ->
  0 < m_queued (m_times e) <= m_submit (m_times e) /\
  m_submit (m_times e) <= time_start (m_times e) <= m_end (m_times e) /\ m_end (m_times e) <= now s.
Proof.
  intros H He Hst. destruct (reachable_times _ H) as [_ Ht]. by apply (Ht ev e He).
Qed.

(** Every callback is called exactly once, and only when its event is
    complete: none before, and once the callbacks of the event were run, every
    registered callback was called as often as it was registered. *)
Theorem callbacks_called_once s ts ev e cb :
  reachable (s, ts) -> events s !! ev = Some e ->
  ((ev, cb) ∈ called s -> m_status e = CL_COMPLETE) /\
  (m_status e = CL_COMPLETE -> Callbacks ev ∉ pending ts ->
   pair_count (ev, cb) (called s) = pair_count (ev, cb) (registered s)).
Proof.
  intros H He. destruct (reachable_callbacks _ _ H) as [H1 H2 H3 _]. split.
  - intros Hin. destruct (decide (m_status e = CL_COMPLETE)) as [|Hne]; [done|exfalso].
    pose proof (H3 ev e cb He Hne) as H0. apply list_elem_of_In in Hin.
    apply (count_occ_In (fun a b => decide (a = b))) in Hin. unfold pair_count in H0. lia.
  - intros Hst Hno. rewrite <- (H2 ev e cb He). unfold uncalled. rewrite Hst.
    assert (total (cbk ev) (pending ts) = 0%nat) as ->.
    { apply total_zero. intros i Hi. destruct i; cbn; try done. apply same_ne. by intros <-. }
    cbn. lia.
Qed.

(** * Witnesses *)

Definition state_after (l : list choice) : config :=
  match run l init with Some c => c | None => init end.

Lemma state_after_reachable l : reachable ((state_after l).1, (state_after l).2).
Proof.
  rewrite <- surjective_pairing. unfold state_after. destruct (run l init) eqn:H; [|constructor].
  eapply run_reachable; [constructor|exact H].
Qed.

(** An in-order queue with two events, of which the second waits for the first. *)
Definition two_events : list choice :=
  [do (call_queue false); do (call_enqueue (Some 0%nat) false (scheduled 0) []);
   go 0; go 0; go 0; go 0; go 0;
   do (call_enqueue (Some 0%nat) false no_action [0%nat]); go 2; go 2; go 2; go 2; go 2; go 2;
   do (call_callback 1 7); do call_tick].
(** The device runs the first event, which completes both. *)
Definition two_events_done : list choice :=
  two_events ++ [go 1; go 1; go 1; go 1; go 1; go 1; go 1; go 1; go 1; go 1].

Definition event_of (c : config) (ev : nat) : event :=
  default (new_event None false no_action []) (events c.1 !! ev).
Definition queue_of (c : config) (q : nat) : command_queue := default (new_queue false) (queues c.1 !! q).

Lemma starts_after_wait_list_witness :
  waits (event_of (state_after two_events_done) 1) = [0%nat] /\ complete (state_after two_events_done).1 0.
Proof.
  split; [vm_compute; reflexivity|].
  apply (starts_after_wait_list _ (state_after two_events_done).2 1
           (event_of (state_after two_events_done) 1) 0 (state_after_reachable _));
    [vm_compute; reflexivity|vm_compute; reflexivity|].
  replace (waits _) with [0%nat] by (vm_compute; reflexivity). left.
Defined.

Lemma queue_order_witness :
  m_log (queue_of (state_after two_events_done) 0) = [0; 1]%nat /\ complete (state_after two_events_done).1 0.
Proof.
  split; [vm_compute; reflexivity|].
  apply (queue_order _ (state_after two_events_done).2 0 (queue_of (state_after two_events_done) 0)
           0 1 0 1 (event_of (state_after two_events_done) 1) (state_after_reachable _));
    try (vm_compute; reflexivity). left. vm_compute. reflexivity.
Defined.

Lemma no_assertion_fails_witness :
  (state_after two_events).2 !! 1%nat = Some [Run 0 0] /\
  exec (Run 0 0) (state_after two_events).1 <> Fault "set_status: status is already set".
Proof.
  split; [vm_compute; reflexivity|].
  apply (no_assertion_fails _ (state_after two_events).2 1 (Run 0 0) [] _ (state_after_reachable _)).
  vm_compute. reflexivity.
Defined.

Lemma two_events_quiescent : quiescent ((state_after two_events_done).1, (state_after two_events_done).2).
Proof. apply can_step_false. vm_compute. reflexivity. Qed.

Lemma quiescent_complete_witness :
  pending (state_after two_events_done).2 = [] /\
  m_status (event_of (state_after two_events_done) 0) = CL_COMPLETE.
Proof.
  split; [apply (quiescent_complete _ _ (state_after_reachable two_events_done) two_events_quiescent)|].
  vm_compute. reflexivity.
Defined.

Lemma threads_come_to_rest_witness :
  can_step (state_after two_events) = true /\
  exists c', rtc thread_step ((state_after two_events).1, (state_after two_events).2) c' /\ reachable c' /\ quiescent c'.
Proof.
  split; [vm_compute; reflexivity|].
  apply (threads_come_to_rest _ (state_after_reachable two_events)).
Defined.

Lemma profiling_times_ordered_witness :
  m_times (event_of (state_after two_events_done) 1) = Times 1 2 0 2 /\
  m_submit (m_times (event_of (state_after two_events_done) 1)) <=
    time_start (m_times (event_of (state_after two_events_done) 1)).
Proof.
  split; [vm_compute; reflexivity|].
  apply (profiling_times_ordered _ (state_after two_events_done).2 1
           (event_of (state_after two_events_done) 1) (state_after_reachable _)); vm_compute; reflexivity.
Defined.

Lemma callbacks_called_once_witness :
  called (state_after two_events_done).1 = [(1, 7)]%nat /\
  m_status (event_of (state_after two_events_done) 1) = CL_COMPLETE.
Proof.
  split; [vm_compute; reflexivity|].
  apply (callbacks_called_once _ (state_after two_events_done).2 1
           (event_of (state_after two_events_done) 1) 7 (state_after_reachable _)); [vm_compute; reflexivity|].
  replace (called _) with [(1, 7)]%nat by (vm_compute; reflexivity). left.
Defined.
