(* ===== verification/OclAbort.v ===== *)
(** Aborting an event, [event::abort] of [src/runtime_src/xocl/core/event.cpp], and
    the user event API on top of it, [clSetUserEventStatus].

    The routine holds the mutex of the event; it is modelled as one transition.
    It recurses and keeps a stack of events, so that the model takes fuel; for
    the states that the program can reach enough fuel exists. *)

From stdpp Require Import relations.
From S2P Require Import Prelude OclEvent OclInvariant OclOrder OclQueueOrder OclProgress.

(** * Model *)

Inductive abort_result :=
| Aborted (s : state)
| Thrown (what : string) (s : state)
| NoFuel.

(** [queue_abort]: a hard event is removed from its queue. *)
Definition queue_abort (ev : nat) (s : state) : abort_result :=
  match events s !! ev with
  | None => Thrown "no such event" s
  | Some e =>
      match m_command_queue e with
      | None => Aborted s
      | Some q =>
          match queues s !! q with
          | None => Thrown "no such queue" s
          | Some cq =>
              if negb (bool_decide (ev ∈ m_events cq)) then Thrown "event never submitted" s
              else if is_barrier e && out_of_order cq && negb (bool_decide (ev ∈ m_barriers cq))
              then Thrown "barrier is not listed" s
              else Aborted (on_queue (erase_event ev e) q s)
          end
      end
  end.

(** The events of all queues of the context. *)
Definition collected (s : state) : list nat :=
  mjoin ((fun cq => elements (m_events cq)) <$> queues s).

(** The part of the loop that concerns the event [abort] was called for. *)
Definition abort_this (status : Z) (fatal : bool) (ev : nat) (s : state) : abort_result :=
  match events s !! ev with
  | None => Thrown "no such event" s
  | Some e => if fatal || (m_status e =? CL_QUEUED)
              then queue_abort ev (on_event (on_status (fun _ => status)) ev s)
              else Aborted s
  end.

(** [evs] are the events collected at the beginning, [aborts] the stack. *)
Fixpoint abort_loop (fuel : nat) (status : Z) (fatal : bool) (this : nat) (evs aborts : list nat)
    (s : state) : abort_result :=
  match fuel with
  | O => NoFuel
  | S fuel' =>
      match aborts with
      | [] => Aborted s
      | a :: rest =>
          let r := if decide (a = this) then abort_this status fatal a s
                   else abort_loop fuel' status fatal a (collected s) [a] s in
          match r with
          | Aborted s1 =>
              abort_loop fuel' status fatal this evs
                (rev (List.filter (fun ev => bool_decide (ev ∈ chain_of s1 a)) evs) ++ rest) s1
          | _ => r
          end
      end
  end.

Definition abort (fuel : nat) (this : nat) (status : Z) (fatal : bool) (s : state) : abort_result :=
  if 0 <=? status then Thrown "event::abort() called with non negative value" s
  else abort_loop fuel status fatal this (collected s) [this] s.

(** [clSetUserEventStatus]: [None] is an error code; the new state and what the
    calling thread does next. *)
Definition set_user_event_status (fuel : nat) (ev : nat) (execution_status : Z) (s : state)
    : option (abort_result * list instr) :=
  match events s !! ev with
  | None => None
  | Some e =>
      if negb (execution_status =? CL_COMPLETE) && (0 <=? execution_status) then None
      else if negb (m_status e =? CL_SUBMITTED) then None
      else if execution_status =? CL_COMPLETE then Some (Aborted s, [Complete ev])
      else Some (abort fuel ev execution_status false s, [])
  end.

(** * Fuel *)

Lemma abort_loop_more n m status fatal this evs w s :
  (n <= m)%nat -> abort_loop n status fatal this evs w s <> NoFuel ->
  abort_loop m status fatal this evs w s = abort_loop n status fatal this evs w s.
Proof.
  revert m this evs w s. induction n as [|n IH]; intros m this evs w s Hm Hn; [done|].
  destruct m as [|m]; [lia|]. cbn [abort_loop] in *. destruct w as [|a rest]; [done|]. cbv zeta in *.
  assert ((if decide (a = this) then abort_this status fatal a s
           else abort_loop m status fatal a (collected s) [a] s) =
          (if decide (a = this) then abort_this status fatal a s
           else abort_loop n status fatal a (collected s) [a] s)) as Heq.
  { case_decide; [done|]. apply IH; [lia|]. intros Hx. by rewrite Hx in Hn. }
  rewrite Heq. destruct (if decide (a = this) then _ else _) as [s1| |]; [|done|done]. apply IH; [lia|done].
Qed.

(** The stack is worked off from the top. *)
Lemma abort_loop_app status fatal this evs w1 w2 n1 n2 s s1 r :
  abort_loop n1 status fatal this evs w1 s = Aborted s1 ->
  abort_loop n2 status fatal this evs w2 s1 = r -> r <> NoFuel ->
  abort_loop (n1 + n2) status fatal this evs (w1 ++ w2) s = r.
Proof.
  revert w1 s. induction n1 as [|n1 IH]; intros w1 s H1 H2 Hr; [done|].
  destruct w1 as [|a rest].
  - cbn [abort_loop] in H1. injection H1 as ->. cbn [app].
    rewrite (abort_loop_more n2); [done|lia|by rewrite H2].
  - cbn [Nat.add app abort_loop] in *. cbv zeta in *.
    assert ((if decide (a = this) then abort_this status fatal a s
             else abort_loop (n1 + n2) status fatal a (collected s) [a] s) =
            (if decide (a = this) then abort_this status fatal a s
             else abort_loop n1 status fatal a (collected s) [a] s)) as Heq.
    { case_decide; [done|]. apply abort_loop_more; [lia|]. intros Hx. by rewrite Hx in H1. }
    rewrite Heq. destruct (if decide (a = this) then _ else _) as [s2| |]; [|done|done].
    rewrite app_assoc. by apply IH.
Qed.

(** * What a non-fatal abort does *)

Definition unqueued (s : state) (x : nat) : Prop :=
  forall e, events s !! x = Some e -> m_status e <> CL_QUEUED.

(** Queued events are where [queue_abort] looks for them. *)
Record ready (s : state) : Prop := {
  rd_queued : forall x e q, events s !! x = Some e -> m_command_queue e = Some q -> m_status e = CL_QUEUED ->
    exists cq, queues s !! q = Some cq /\ x ∈ m_events cq /\
      (is_barrier e && out_of_order cq = true -> x ∈ m_barriers cq);
  rd_known : forall x, x ∈ collected s -> is_Some (events s !! x);
}.

Lemma elem_of_collected s x :
  x ∈ collected s <-> exists q cq, queues s !! q = Some cq /\ x ∈ m_events cq.
Proof.
  unfold collected. rewrite list_elem_of_join. split.
  - intros (l & Hx & (cq & -> & Hcq)%list_elem_of_fmap). apply list_elem_of_lookup_1 in Hcq as [q Hq].
    exists q, cq. split; [done|]. by apply elem_of_elements.
  - intros (q & cq & Hq & Hx). exists (elements (m_events cq)). split; [by apply elem_of_elements|].
    apply list_elem_of_fmap. exists cq. split; [done|]. by eapply list_elem_of_lookup_2.
Qed.

Lemma erase_first_other x y l : y ∈ l -> y <> x -> y ∈ erase_first x l.
Proof.
  induction l as [|z l IH]; intros H Hne; [done|]. cbn [erase_first].
  apply elem_of_cons in H as [->|H]; case_decide; simplify_eq; [left|done|right; by apply IH].
Qed.

Lemma collected_erase s ev e q x :
  x ∈ collected (on_queue (erase_event ev e) q s) -> x ∈ collected s.
Proof.
  rewrite !elem_of_collected. intros (q' & cq & Hq & Hx). rewrite lookup_on_queue in Hq. case_decide.
  - destruct (queues s !! q') as [cq0|] eqn:Hq0; [|done]. cbn in Hq. injection Hq as <-. cbn in Hx.
    exists q', cq0. split; [done|]. set_solver.
  - eauto.
Qed.

Section nonfatal.
Context (ch : nat -> list nat) (rank : nat -> nat) (st : Z) (E : list nat).
Context (Hrank : forall a x, x ∈ ch a -> (rank x < rank a)%nat) (Hst : st <> CL_QUEUED).

Definition edge (evs : list nat) (a x : nat) : Prop := x ∈ ch a /\ x ∈ evs.

(** The state changed from [s] to [s'] by aborting queued events that depend on [w]. *)
Record evolves (w : list nat) (s s' : state) : Prop := {
  ev_events : forall x e, events s !! x = Some e -> events s' !! x = Some e \/
    (m_status e = CL_QUEUED /\ events s' !! x = Some (on_status (fun _ => st) e) /\
     exists a, a ∈ w /\ rtc (edge E) a x);
  ev_collected : forall x, x ∈ collected s' -> x ∈ collected s;
  ev_chain : forall x, chain_of s' x = chain_of s x;
  ev_ready : ready s -> ready s';
}.

Lemma evolves_refl w s : evolves w s s.
Proof. split; auto. Qed.

Lemma evolves_known w s s' x : evolves w s s' -> is_Some (events s !! x) -> is_Some (events s' !! x).
Proof. intros H [e He]. destruct (ev_events _ _ _ H x e He) as [->|(_ & -> & _)]; eauto. Qed.

Lemma evolves_unqueued w s s' x :
  evolves w s s' -> is_Some (events s !! x) -> unqueued s x -> unqueued s' x.
Proof.
  intros H [e He] Hu e' He'. destruct (ev_events _ _ _ H x e He) as [H'|(_ & H' & _)]; rewrite H' in He';
    injection He' as <-; [by apply Hu|done].
Qed.

Lemma evolves_trans w1 w2 w s s1 s2 :
  evolves w1 s s1 -> evolves w2 s1 s2 ->
  (forall b x, b ∈ w1 \/ b ∈ w2 -> rtc (edge E) b x -> exists a, a ∈ w /\ rtc (edge E) a x) ->
  evolves w s s2.
Proof.
  intros H1 H2 Hw. split.
  - intros x e He. destruct (ev_events _ _ _ H1 x e He) as [He1|(Hq & He1 & a & Ha & Hr)].
    + destruct (ev_events _ _ _ H2 x e He1) as [|(Hq & He2 & a & Ha & Hr)]; [by left|right].
      split_and!; [done|done|]. eapply Hw; [by right|done].
    + right. split; [done|]. destruct (ev_events _ _ _ H2 x _ He1) as [He2|(Hq2 & _)]; [|done].
      split; [done|]. eapply Hw; [by left|done].
  - intros x Hx. by apply H1, H2.
  - intros x. by rewrite (ev_chain _ _ _ H2), (ev_chain _ _ _ H1).
  - intros Hr. by apply H2, H1.
Qed.

Lemma chain_of_status s ev x : chain_of (on_event (on_status (fun _ => st)) ev s) x = chain_of s x.
Proof. by apply chain_of_on_event. Qed.

(** The event [abort] was called for. *)
Lemma abort_this_spec ev s :
  ready s -> is_Some (events s !! ev) ->
  exists s1, abort_this st false ev s = Aborted s1 /\ evolves [ev] s s1 /\ unqueued s1 ev.
Proof.
  intros Hr [e He]. unfold abort_this. rewrite He. cbn [orb].
  destruct (Z.eqb_spec (m_status e) CL_QUEUED) as [Hq|Hq].
  2:{ exists s. split_and!; [done|apply evolves_refl|]. intros e0. rewrite He. by intros [= <-]. }
  set (s0 := on_event (on_status (fun _ => st)) ev s).
  assert (events s0 !! ev = Some (on_status (fun _ => st) e)) as He0
    by (unfold s0; rewrite lookup_on_event, decide_True, He; done).
  assert (forall s1, events s1 = events s0 -> forall x e0, events s !! x = Some e0 ->
    events s1 !! x = Some e0 \/ (m_status e0 = CL_QUEUED /\ events s1 !! x = Some (on_status (fun _ => st) e0) /\
     exists a, a ∈ [ev] /\ rtc (edge E) a x)) as Hev.
  { intros s1 Hs1 x e0 Hx. rewrite Hs1. unfold s0. rewrite lookup_on_event, Hx. case_decide; [right|by left].
    subst x. rewrite He in Hx. injection Hx as <-. split_and!; [done|done|]. exists ev. split; [left|constructor]. }
  unfold queue_abort. rewrite He0. cbn [m_command_queue on_status is_barrier].
  destruct (m_command_queue e) as [q|] eqn:Hcq.
  - destruct (rd_queued _ Hr ev e q He Hcq Hq) as (cq & Hqs & Hin & Hbar).
    change (queues s0) with (queues s). rewrite Hqs, (bool_decide_eq_true_2 _ Hin). cbn [negb].
    assert (is_barrier e && out_of_order cq && negb (bool_decide (ev ∈ m_barriers cq)) = false) as ->.
    { destruct (is_barrier e && out_of_order cq) eqn:Hb; [|done]. cbn. by rewrite (bool_decide_eq_true_2 _ (Hbar eq_refl)). }
    eexists. split; [done|]. split.
    + split; [by apply Hev|by apply collected_erase|apply chain_of_status|]. intros _. split.
      * intros x e0 q0. cbn [events on_queue]. unfold s0. rewrite lookup_on_event. case_decide as Hx.
        { subst x. rewrite He. cbn. intros [= <-] _. done. }
        intros Hx0 Hq0 Hs0. destruct (rd_queued _ Hr x e0 q0 Hx0 Hq0 Hs0) as (c & Hc & Hxin & Hxb).
        rewrite lookup_on_queue. destruct (decide (q0 = q)) as [->|]; [|by exists c].
        cbn [queues on_event]. rewrite Hc. eexists. split; [done|]. cbn.
        split; [set_solver|]. intros Hb.
        destruct (out_of_order c && is_barrier e); [|by apply Hxb]. apply erase_first_other; [by apply Hxb|done].
      * intros x Hx. apply collected_erase in Hx. apply (rd_known _ Hr) in Hx as [e0 Hx0].
        cbn [events on_queue]. unfold s0. rewrite lookup_on_event, Hx0. case_decide; cbn; eauto.
    + intros e1. cbn [events on_queue]. rewrite He0. by intros [= <-].
  - exists s0. split; [done|]. split; [|intros e1; rewrite He0; by intros [= <-]].
    split; [by apply Hev|done|apply chain_of_status|]. intros _. split.
    + intros x e0 q0. unfold s0. rewrite lookup_on_event. case_decide; [subst x; rewrite He; cbn; intros [= <-]; done|].
      apply Hr.
    + intros x [e0 Hx0]%(rd_known _ Hr). unfold s0. rewrite lookup_on_event, Hx0. case_decide; cbn; eauto.
Qed.

(** The dependents of [a] among [evs], as they are pushed. *)
Definition dependents (s : state) (evs : list nat) (a : nat) : list nat :=
  rev (List.filter (fun ev => bool_decide (ev ∈ chain_of s a)) evs).

Lemma elem_of_dependents s evs a x :
  (forall y, chain_of s y = ch y) -> x ∈ dependents s evs a <-> edge evs a x.
Proof.
  intros Hch. unfold dependents, edge. rewrite list_elem_of_In, <- in_rev, filter_In, <- list_elem_of_In, Hch.
  rewrite bool_decide_eq_true. tauto.
Qed.

(** What holds when the loop starts. *)
Record start (evs w : list nat) (k : nat) (s : state) : Prop := {
  sa_ready : ready s;
  sa_chain : forall y, chain_of s y = ch y;
  sa_evs : forall x, x ∈ evs -> is_Some (events s !! x) /\ x ∈ E;
  sa_collected : forall x, x ∈ collected s -> x ∈ E;
  sa_w : forall x, x ∈ w -> is_Some (events s !! x) /\ (rank x < k)%nat;
}.

(** The loop ends, and aborts exactly what it should. *)
Definition loop_spec (k : nat) : Prop := forall this evs w s, start evs w k s ->
  exists n s', abort_loop n st false this evs w s = Aborted s' /\ evolves w s s' /\
    forall a x, a ∈ w -> rtc (edge evs) a x -> unqueued s' x.

Lemma start_evolves evs w k w' k' w0 s s' :
  start evs w k s -> evolves w0 s s' ->
  (forall x, x ∈ w' -> is_Some (events s !! x) /\ (rank x < k')%nat) -> start evs w' k' s'.
Proof.
  intros H Hv Hw. split.
  - by apply (ev_ready _ _ _ Hv), H.
  - intros y. rewrite (ev_chain _ _ _ Hv). apply H.
  - intros x Hx. destruct (sa_evs _ _ _ _ H x Hx) as [? ?]. split; [by eapply evolves_known|done].
  - intros x Hx. by apply (sa_collected _ _ _ _ H), (ev_collected _ _ _ Hv).
  - intros x Hx. destruct (Hw x Hx) as [? ?]. split; [by eapply evolves_known|done].
Qed.

Lemma edge_E evs a x : (forall y, y ∈ evs -> y ∈ E) -> rtc (edge evs) a x -> rtc (edge E) a x.
Proof. intros H. apply rtc_subrel. intros y z [? ?]. split; auto. Qed.

(** The dependents of [a], given the specification for smaller ranks. *)
Lemma push_spec this evs k s1 a :
  (forall j, (j < k)%nat -> loop_spec j) -> start evs [a] k s1 ->
  exists n s2, abort_loop n st false this evs (dependents s1 evs a) s1 = Aborted s2 /\
    evolves [a] s1 s2 /\ forall x, rtc (edge evs) a x -> x = a \/ unqueued s2 x.
Proof.
  intros IH Hs. destruct (sa_w _ _ _ _ Hs a ltac:(left)) as [_ Ha].
  pose proof (fun x => elem_of_dependents s1 evs a x (sa_chain _ _ _ _ Hs)) as Hd.
  destruct (IH (rank a) Ha this evs (dependents s1 evs a) s1) as (n & s2 & Hn & Hv & Hc).
  { eapply start_evolves; [exact Hs|apply (evolves_refl [])|]. intros x [Hx Hin]%Hd.
    split; [by apply (sa_evs _ _ _ _ Hs)|by apply Hrank]. }
  exists n, s2. split; [done|]. split.
  - eapply (evolves_trans [] _ [a]); [apply evolves_refl|exact Hv|].
    intros b x [Hb|Hb]; [by apply not_elem_of_nil in Hb|]. apply Hd in Hb as [? ?]. intros Hr.
    exists a. split; [left|]. econstructor; [|exact Hr]. split; [done|]. by apply (sa_evs _ _ _ _ Hs).
  - intros x Hr. inversion Hr as [|? y ? Hay Hyx]; subst; [by left|right]. eapply Hc; [|exact Hyx]. by apply Hd.
Qed.

(** The top of the stack is aborted, by this call or by a nested one. *)
Lemma top_spec this evs k s a :
  (forall j, (j < k)%nat -> loop_spec j) -> start evs [a] k s ->
  exists n s1, (if decide (a = this) then abort_this st false a s
                else abort_loop n st false a (collected s) [a] s) = Aborted s1 /\
    evolves [a] s s1 /\ unqueued s1 a.
Proof.
  intros IH Hs. destruct (sa_w _ _ _ _ Hs a ltac:(left)) as [Hka Ha].
  destruct (abort_this_spec a s (sa_ready _ _ _ _ Hs) Hka) as (s1 & Hs1 & Hv1 & Hu1).
  case_decide; [by exists 0%nat, s1|].
  assert (start (collected s) [a] k s1) as Hst1.
  { eapply (start_evolves (collected s) [a]); [|exact Hv1|].
    - destruct Hs as [R1 R2 R3 R4 R5]. split; try done. intros x Hx. split; [by apply R1|by apply R4].
    - intros x ->%list_elem_of_singleton. done. }
  destruct (push_spec a (collected s) k s1 a IH Hst1) as (n & s2 & Hn & Hv2 & _).
  exists (S n), s2. split; [|split].
  - cbn [abort_loop]. rewrite decide_True by done. cbv zeta. rewrite Hs1. rewrite app_nil_r. exact Hn.
  - eapply (evolves_trans [a] [a] [a]); [done|done|]. intros b x [->%list_elem_of_singleton| ->%list_elem_of_singleton] Hr;
      exists a; (split; [left|done]).
  - eapply evolves_unqueued; [exact Hv2|by eapply evolves_known|done].
Qed.

Lemma abort_loop_spec k : loop_spec k.
Proof.
  induction k as [k IH] using lt_wf_ind. intros this evs w.
  induction w as [|a rest IHw]; intros s Hs.
  - exists 1%nat, s. split_and!; [done|apply evolves_refl|]. intros a x Ha. by apply not_elem_of_nil in Ha.
  - assert (start evs [a] k s) as Hsa.
    { eapply start_evolves; [exact Hs|apply (evolves_refl [])|]. intros x ->%list_elem_of_singleton. apply Hs. left. }
    destruct (top_spec this evs k s a IH Hsa) as (n1 & s1 & H1 & Hv1 & Hu1).
    destruct (push_spec this evs k s1 a IH) as (n2 & s2 & H2 & Hv2 & Hc2).
    { eapply start_evolves; [exact Hsa|exact Hv1|]. intros x ->%list_elem_of_singleton. apply Hs. left. }
    assert (evolves [a] s s2) as Hv12.
    { eapply (evolves_trans [a] [a] [a]); [done|done|]. intros b x [->%list_elem_of_singleton| ->%list_elem_of_singleton] Hr;
        exists a; (split; [left|done]). }
    destruct (IHw s2) as (n3 & s3 & H3 & Hv3 & Hc3).
    { eapply start_evolves; [exact Hs|exact Hv12|]. intros x Hx. apply Hs. by right. }
    exists (S (n1 + (n2 + n3))), s3. split_and!.
    + pose proof (abort_loop_app _ _ _ _ _ _ _ _ _ _ _ H2 H3 ltac:(done)) as H23.
      cbn [abort_loop]. cbv zeta.
      assert ((if decide (a = this) then abort_this st false a s
               else abort_loop (n1 + (n2 + n3)) st false a (collected s) [a] s) = Aborted s1) as ->.
      { case_decide; [done|]. rewrite (abort_loop_more n1); [done|lia|by rewrite H1]. }
      fold (dependents s1 evs a). rewrite (abort_loop_more (n2 + n3)); [exact H23|lia|by rewrite H23].
    + eapply (evolves_trans [a] rest); [exact Hv12|exact Hv3|].
      intros b x [->%list_elem_of_singleton|Hb] Hr; [exists a|exists b]; (split; [|done]); [left|by right].
    + assert (forall x, rtc (edge evs) a x -> is_Some (events s !! x)) as Hk.
      { intros x Hr. apply rtc_inv_r in Hr as [->|(y & _ & [_ Hx])]; [apply (sa_w _ _ _ _ Hs); left|by apply (sa_evs _ _ _ _ Hs)]. }
      intros b x [->|Hb]%elem_of_cons Hr; [|by eapply Hc3].
      destruct (Hc2 x Hr) as [->|Hu].
      * eapply evolves_unqueued; [exact Hv3|eapply evolves_known; [exact Hv12|by apply Hk]|].
        eapply evolves_unqueued; [exact Hv2|eapply evolves_known; [exact Hv1|by apply Hk]|done].
      * eapply evolves_unqueued; [exact Hv3|eapply evolves_known; [exact Hv12|by apply Hk]|done].
Qed.
End nonfatal.

(** ** Reachable states *)

Lemma reachable_ready s L : queues_ok s L -> ready s.
Proof.
  intros Hq. split.
  - intros x e q He Hqe Hst. destruct (qs_valid _ _ Hq x e q He Hqe) as [cq Hcq].
    pose proof (qs_queue _ _ Hq q cq Hcq) as Hqo.
    assert (x ∈ m_events cq) as Hin.
    { apply (qo_members _ _ _ _ Hqo). exists e. split_and!; [done|done|left]. unfold active. by rewrite Hst. }
    exists cq. split_and!; [done|done|]. intros [Hb Ho]%andb_true_iff. apply (qo_barriers _ _ _ _ Hqo).
    split_and!; [done|done|by exists e].
  - intros x (q & cq & Hcq & Hx)%elem_of_collected.
    apply (qo_members _ _ _ _ (qs_queue _ _ Hq q cq Hcq)) in Hx as (e & He & _). eauto.
Qed.

(** The position of an event in the order of queuing. *)
Fixpoint position (x : nat) (l : list nat) : nat :=
  match l with [] => 0 | y :: l' => if decide (y = x) then 0 else S (position x l') end.

Lemma position_lookup x l : x ∈ l -> l !! position x l = Some x.
Proof.
  induction l as [|y l IH]; intros H; [by apply not_elem_of_nil in H|]. cbn [position].
  case_decide as Hy; [by rewrite Hy|]. apply elem_of_cons in H as [|H]; [congruence|]. by apply IH.
Qed.

Definition queue_rank (l : list nat) (x : nat) : nat :=
  if decide (x ∈ l) then length l - position x l else 0.

Lemma queue_rank_decreases s l a x :
  queued_order s l -> x ∈ chain_of s a -> (queue_rank l x < queue_rank l a)%nat.
Proof.
  intros (_ & _ & Ho) (e & He & Hx)%chain_of_in. destruct (Ho a e x He Hx) as [Ha Hij].
  unfold queue_rank. rewrite (decide_True _ _ Ha). pose proof (position_lookup a l Ha) as Hpa.
  pose proof (lookup_lt_Some _ _ _ Hpa). case_decide as Hxl; [|lia].
  pose proof (position_lookup x l Hxl) as Hpx. specialize (Hij _ _ Hpa Hpx).
  apply lookup_lt_Some in Hpx. lia.
Qed.

(** [x] depends on [a] through events that are in a command queue. *)
Definition depends (s : state) (a x : nat) : Prop := rtc (edge (chain_of s) (collected s)) a x.

Lemma abort_spec s ts this status :
  reachable (s, ts) -> is_Some (events s !! this) -> status < 0 ->
  exists fuel s', abort fuel this status false s = Aborted s' /\
    forall x e, events s !! x = Some e ->
      (m_status e = CL_QUEUED -> depends s this x -> events s' !! x = Some (on_status (fun _ => status) e)) /\
      (m_status e <> CL_QUEUED \/ ~ depends s this x -> events s' !! x = Some e).
Proof.
  intros Hr Hk Hs. destruct (reachable_cinv _ Hr) as [[_ Hq _ _ (l & Hl)] _]. cbn in Hq, Hl.
  assert (status <> CL_QUEUED) as Hne by (unfold CL_QUEUED; lia).
  destruct (abort_loop_spec (chain_of s) (queue_rank l) status (collected s)
    (fun a x => queue_rank_decreases s l a x Hl) Hne (S (queue_rank l this)) this (collected s) [this] s)
    as (n & s' & Hn & Hv & Hc).
  { pose proof (reachable_ready _ _ Hq) as Hready. split; try done.
    - intros x Hx. split; [by apply Hready|done].
    - intros x ->%list_elem_of_singleton. split; [done|lia]. }
  exists n, s'. unfold abort. rewrite (proj2 (Z.leb_gt 0 status)) by lia. split; [done|].
  intros x e He. destruct (ev_events _ _ _ _ _ _ Hv x e He) as [Hx|(Hqx & Hx & a & Ha & Hdep)].
  - split; [|done]. intros Hst Hdep. exfalso. by eapply (Hc this x ltac:(left) Hdep).
  - apply list_elem_of_singleton in Ha as ->. split; [done|]. by intros [|].
Qed.

(** C32: aborting an event stops what depends on it, and nothing else.  In every
    reachable configuration a non-fatal abort of an event ends without an
    exception; the events that are queued and are or depend on the event get the
    given status, every other event stays as it is. *)
Theorem abort_stops_dependents s ts this status :
  reachable (s, ts) -> is_Some (events s !! this) -> status < 0 ->
  exists fuel s', abort fuel this status false s = Aborted s' /\
    forall x e, events s !! x = Some e ->
      (m_status e = CL_QUEUED -> depends s this x -> events s' !! x = Some (on_status (fun _ => status) e)) /\
      (m_status e <> CL_QUEUED \/ ~ depends s this x -> events s' !! x = Some e).
Proof. exact (abort_spec s ts this status). Qed.

(** An error status given to a user event is lost.  [clSetUserEventStatus]
    with a negative status accepts a user event that is submitted and ends
    without error, but the event stays submitted with the status it had, so that
    a thread that waits for it is never released by the call. *)
Theorem user_event_error_lost s ts ev e status :
  reachable (s, ts) -> events s !! ev = Some e -> m_status e = CL_SUBMITTED -> status < 0 ->
  exists fuel s', set_user_event_status fuel ev status s = Some (Aborted s', []) /\
    events s' !! ev = Some e.
Proof.
  intros Hr He Hst Hs. destruct (abort_spec s ts ev status Hr) as (n & s' & Hn & Hx); [eauto|done|].
  exists n, s'. unfold set_user_event_status. rewrite He, Hst, Hn.
  rewrite (proj2 (Z.leb_gt 0 status)), (proj2 (Z.eqb_neq status CL_COMPLETE)) by (unfold CL_COMPLETE; lia).
  split; [done|]. apply (Hx ev e He). left. by rewrite Hst.
Qed.

(** * A fatal abort *)

Definition state_of (l : list choice) : config := match run l init with Some c => c | None => init end.

(** Three events of an out-of-order queue, each waiting for the one before; the
    first was started by the device. *)
Definition three_events : list choice :=
  [do (call_queue true);
   do (call_enqueue (Some 0%nat) false (scheduled 0) []); go 0; go 0; go 0; go 0; go 0;
   do (call_enqueue (Some 0%nat) false no_action [0%nat]); go 2; go 2; go 2; go 2; go 2;
   do (call_enqueue (Some 0%nat) false no_action [1%nat]); go 3; go 3; go 3; go 3; go 3;
   go 1].

(** A fatal abort with dependents of dependents throws.  When the first of
    three events that depend on each other fails on the device, [abort] has
    already removed the last one from the queue when it meets it again in its
    stale list of events, and the second removal throws. *)
Theorem fatal_abort_throws :
  m_status (default (new_event None false no_action []) (events (state_of three_events).1 !! 0%nat)) = CL_RUNNING /\
  exists s', abort 20 0 (-1) true (state_of three_events).1 = Thrown "event never submitted" s' /\
    map m_status (events s') = [-1; -1; -1].
Proof. split; [vm_compute; reflexivity|]. eexists. split; vm_compute; reflexivity. Qed.

(** * Witnesses *)

Lemma state_of_reachable l : reachable ((state_of l).1, (state_of l).2).
Proof.
  rewrite <- surjective_pairing. unfold state_of. destruct (run l init) eqn:H; [|constructor].
  eapply run_reachable; [constructor|exact H].
Qed.

(** A user event and a command that waits for it. *)
Definition user_event : list choice :=
  [do (call_queue false); do (call_enqueue None false no_action []); go 0; go 0; go 0;
   do (call_enqueue (Some 0%nat) false no_action [0%nat]); go 1; go 1; go 1; go 1; go 1].

(** A user event that is aborted stays submitted (see above); when the application completes it
    afterwards, the assertion that the event behind it is queued fails in [event::submit]. *)
Definition aborted_user_event : option config :=
  match abort 20 0 (-5) false (state_of user_event).1 with
  | Aborted s => run [do (call_complete 0); go 2; go 2; go 2] (s, (state_of user_event).2)
  | _ => None
  end.

Example aborted_then_completed : exists s ts,
  aborted_user_event = Some (s, ts) /\ ts !! 2%nat = Some [Submit 1] /\ exec (Submit 1) s = Fault "submit: event is not queued".
Proof.
  destruct aborted_user_event as [[s ts]|] eqn:E; [|vm_compute in E; discriminate E].
  exists s, ts. vm_compute in E. injection E as <- <-. vm_compute. by split_and!.
Qed.

Lemma user_event_depends : depends (state_of user_event).1 0 1.
Proof.
  apply rtc_once. split.
  - apply (bool_decide_eq_true_1 (1%nat ∈ chain_of (state_of user_event).1 0)). vm_compute. reflexivity.
  - apply (bool_decide_eq_true_1 (1%nat ∈ collected (state_of user_event).1)). vm_compute. reflexivity.
Qed.

Lemma abort_stops_dependents_witness :
  exists fuel s' e, abort fuel 0 (-5) false (state_of user_event).1 = Aborted s' /\
    events s' !! 1%nat = Some (on_status (fun _ => -5) e) /\ m_status e = CL_QUEUED.
Proof.
  destruct (abort_stops_dependents (state_of user_event).1 (state_of user_event).2 0 (-5)
              (state_of_reachable user_event)) as (fuel & s' & Hn & Hx); [vm_compute; eauto|lia|].
  destruct (events (state_of user_event).1 !! 1%nat) as [e|] eqn:He; [|vm_compute in He; discriminate He].
  assert (m_status e = CL_QUEUED) as Hst by (vm_compute in He; injection He as <-; reflexivity).
  destruct (Hx 1%nat e He) as [H1 _]. exists fuel, s', e.
  exact (conj Hn (conj (H1 Hst user_event_depends) Hst)).
Defined.

Lemma user_event_error_lost_witness :
  exists fuel s' e, set_user_event_status fuel 0 (-5) (state_of user_event).1 = Some (Aborted s', []) /\
    events s' !! 0%nat = Some e /\ m_status e = CL_SUBMITTED.
Proof.
  destruct (events (state_of user_event).1 !! 0%nat) as [e|] eqn:He; [|vm_compute in He; discriminate He].
  assert (m_status e = CL_SUBMITTED) as Hst by (vm_compute in He; injection He as <-; reflexivity).
  destruct (user_event_error_lost (state_of user_event).1 (state_of user_event).2 0 e (-5)
              (state_of_reachable user_event) He Hst) as (fuel & s' & Hn & Hx); [lia|].
  exists fuel, s', e. exact (conj Hn (conj Hx Hst)).
Defined.
