(* ===== verification/XrtKernel.v ===== *)
(** Kernels, [core/common/api/xrt_kernel.cpp]: the argument connectivity of a
    compute unit ([ip_context::connectivity]), the kernel object a host
    application runs ([kernel_impl]: its CU mask, register map and fast
    adapter layout), and the command packet it initializes
    ([kernel_command], [ert_start_kernel_cmd] of [ert.h]).

    A command's execution buffer is the list of its bytes; the packet header
    is its first word, with the bit fields of [ert.h].  An execution buffer
    comes from a cache, so that a new command starts with whatever an earlier
    command left in it.  The flow of an xclbin kernel is modelled, without an
    ELF module ([m_module] null). *)

From S2P Require Import Prelude Bytes CppStd XclbinXml.

(** * Command packets *)

Definition ERT_CMD_STATE_NEW : Z := 1.
Definition ERT_CMD_STATE_COMPLETED : Z := 4.
Definition ERT_CMD_STATE_ABORT : Z := 6.
Definition ERT_START_CU : Z := 0.
Definition ERT_SK_START : Z := 9.
Definition ERT_INIT_CU : Z := 11.
Definition ERT_START_FA : Z := 12.
Definition ERT_CMD_CHAIN : Z := 19.
Definition ERT_CU : Z := 3.
Definition ERT_FA_ISSUED : Z := 0.

Definition max_cus : Z := 128.
Definition cus_per_word : Z := 32.

(** [kernel_command::allocation_size]. *)
Definition allocation_size : Z := 4096.

(** Bit fields of the packet header. *)
Definition pkt_state (h : Z) : Z := get_bits 0 4 h.
Definition pkt_bit4 (h : Z) : Z := get_bits 4 1 h.
Definition pkt_extra_cu_masks (h : Z) : Z := get_bits 10 2 h.
Definition pkt_count (h : Z) : Z := get_bits 12 11 h.
Definition pkt_opcode (h : Z) : Z := get_bits 23 5 h.
Definition pkt_type (h : Z) : Z := get_bits 28 4 h.

Definition set_state (v h : Z) : Z := set_bits 0 4 v h.
Definition set_bit4 (v h : Z) : Z := set_bits 4 1 v h.
Definition set_extra_cu_masks (v h : Z) : Z := set_bits 10 2 v h.
Definition set_count (v h : Z) : Z := set_bits 12 11 v h.
Definition set_opcode (v h : Z) : Z := set_bits 23 5 v h.
Definition set_type (v h : Z) : Z := set_bits 28 4 v h.

(** A routine that works on an execution buffer; [pkt->data[i]] is the word
    at byte [4 + 4 i]. *)
Definition packet : Type -> Type := M (list Z) exn.

Definition header (m : list Z) : Z := word_at m 0.
Definition upd_header (f : Z -> Z) : packet unit :=
  modify (fun m => set_word 0 (f (header m)) m).
Definition set_data (i : Z) (v : Z) : packet unit :=
  m <- gets id ;;
  if (0 <=? i) && (4 + 4 * i + 4 <=? Z.of_nat (length m))
  then modify (set_word (Z.to_nat (4 + 4 * i)) (u32 v)) else raise bad_write.
Definition get_data (i : Z) : packet Z :=
  m <- gets id ;;
  if (0 <=? i) && (4 + 4 * i + 4 <=? Z.of_nat (length m))
  then ret (word_at m (Z.to_nat (4 + 4 * i))) else raise bad_read.

(** The CU masks follow the header: word [cu / 32], bit [cu mod 32]. *)
Definition encode_cu (cumask cu_idx : Z) : packet unit :=
  when (Z.testbit cumask cu_idx) (
    let mask_idx := cu_idx / cus_per_word in
    let idx_in_mask := cu_idx - mask_idx * cus_per_word in
    w <- get_data mask_idx ;;
    set_data mask_idx (Z.lor w (u32 (Z.shiftl 1 idx_in_mask)))).

Definition encode_compute_units (cumask num_cumasks : Z) : packet unit :=
  for_range (Z.to_nat num_cumasks) 0 (fun i => set_data i 0) ;;;
  for_range (Z.to_nat max_cus) 0 (encode_cu cumask).

(** * Connectivity of a compute unit *)

Definition no_memidx : Z := -1.
Definition max_connections : Z := 64.
Definition size_max : Z := 2 ^ 64 - 1.

Record connectivity := Connectivity {
  connections : list Z;          (** a 64-bit set of encoded banks per argument *)
  default_connection : list Z;
}.

Definition no_connectivity : connectivity := Connectivity [] [].

Definition at_ {S A} (l : list A) (i : Z) : M S exn A :=
  match zlookup l i with Some x => ret x | None => raise out_of_range end.

Definition resize (n : Z) (c : connectivity) : connectivity :=
  if n <=? Z.of_nat (length (connections c)) then c else
  let extend {A} (x : A) (l : list A) := l ++ replicate (Z.to_nat n - length l) x in
  Connectivity (extend 0 (connections c)) (extend no_memidx (default_connection c)).

(** [encoded_bitset::set] and [test]: [std::bitset] throws past its size. *)
Definition bitset_pos {S} (encoding : list Z) (memidx : Z) : M S exn Z :=
  p <- at_ encoding memidx ;;
  if p <? max_connections then ret p else raise out_of_range.

Definition connect (encoding : list Z) (argidx memidx : Z) : M connectivity exn unit :=
  e <- at_ encoding memidx ;;
  if e =? size_max then ret tt else
  modify (resize (argidx + 1)) ;;;
  p <- bitset_pos encoding memidx ;;
  modify (fun c => Connectivity
    (alter (fun b => Z.lor b (2 ^ p)) (Z.to_nat argidx) (connections c))
    (alter (fun d => Z.max d memidx) (Z.to_nat argidx) (default_connection c))).

(** The constructor, over the (index, banks) of each argument of the IP. *)
Definition connect_args (encoding : list Z) (ip_args : list (Z * list Z)) : M connectivity exn unit :=
  for_each ip_args (fun a =>
    if fst a =? no_index then raise (xrt_error "Invalid kernel argument index in xclbin") else
    for_each (snd a) (connect encoding (fst a))).

Definition get_arg_memidx (argidx : Z) (c : connectivity) : Z :=
  default no_memidx (zlookup (default_connection c) argidx).

(** [connections[argidx]] is not bounds checked. *)
Definition valid_arg_connection {S} (encoding : list Z) (c : connectivity) (argidx memidx : Z)
    : M S exn bool :=
  match zlookup (connections c) argidx with
  | None => raise bad_read
  | Some b => p <- bitset_pos encoding memidx ;; ret (Z.testbit b p)
  end.

(** * Kernels *)

Inductive control_type := ctrl_hs | ctrl_chain | ctrl_none | ctrl_fa.

#[export] Instance control_type_eq_dec : EqDecision control_type.
Proof. solve_decision. Defined.
#[export] Instance kernel_type_eq_dec : EqDecision kernel_type.
Proof. solve_decision. Defined.

(** An opened compute unit: its index in CU masks, the xclbin slot, the size of
    its register space, its control protocol and its connectivity. *)
Record ip_context := IpContext {
  ip_cuidx : Z;
  ip_slot : Z;
  ip_control : control_type;
  ip_args : connectivity;
  ip_encoding : list Z;
}.

Definition valid_connection {S} (argidx memidx : Z) (ip : ip_context) : M S exn bool :=
  valid_arg_connection (ip_encoding ip) (ip_args ip) argidx memidx.

Record kernel := Kernel {
  k_args : list kernel_argument;
  ipctxs : list ip_context;
  k_type : kernel_type;
  k_cumask : Z;
  k_regmap_size : Z;
  fa_num_inputs : Z;
  fa_num_outputs : Z;
  fa_input_entry_bytes : Z;
  fa_output_entry_bytes : Z;
  num_cumasks : Z;
  protocol : control_type;
}.

Definition new_kernel (t : kernel_type) : kernel :=
  Kernel [] [] t 0 0 0 0 0 0 1 ctrl_none.

Definition set_args (a : list kernel_argument) (r : Z) (k : kernel) : kernel :=
  Kernel a (ipctxs k) (k_type k) (k_cumask k) r (fa_num_inputs k) (fa_num_outputs k)
    (fa_input_entry_bytes k) (fa_output_entry_bytes k) (num_cumasks k) (protocol k).
Definition set_protocol (p : control_type) (k : kernel) : kernel :=
  Kernel (k_args k) (ipctxs k) (k_type k) (k_cumask k) (k_regmap_size k) (fa_num_inputs k)
    (fa_num_outputs k) (fa_input_entry_bytes k) (fa_output_entry_bytes k) (num_cumasks k) p.
Definition set_cu (ips : list ip_context) (m n : Z) (k : kernel) : kernel :=
  Kernel (k_args k) ips (k_type k) m (k_regmap_size k) (fa_num_inputs k) (fa_num_outputs k)
    (fa_input_entry_bytes k) (fa_output_entry_bytes k) n (protocol k).
Definition set_fa (a : list kernel_argument) (ni no bi bo r : Z) (k : kernel) : kernel :=
  Kernel a (ipctxs k) (k_type k) (k_cumask k) r ni no bi bo (num_cumasks k) (protocol k).

(** Record an opened CU in the kernel's CU mask. *)
Definition open_cu_context (ip : ip_context) : M kernel exn unit :=
  modify (fun k => set_cu (ipctxs k ++ [ip]) (k_cumask k) (num_cumasks k) k) ;;;
  if max_cus <=? ip_cuidx ip then raise out_of_range else
  modify (fun k => set_cu (ipctxs k) (Z.lor (k_cumask k) (2 ^ ip_cuidx ip))
    (Z.max (num_cumasks k) (ip_cuidx ip / cus_per_word + 1)) k).

(** A mix of AP_CTRL_CHAIN and AP_CTRL_HS counts as AP_CTRL_HS. *)
Fixpoint merge_control {S} (ctrl : control_type) (l : list control_type) : M S exn control_type :=
  match l with
  | [] => ret ctrl
  | c :: l' =>
      if decide (c = ctrl) then merge_control ctrl l' else
      if decide (c = ctrl_chain \/ c = ctrl_hs) then merge_control ctrl_hs l'
      else raise (runtime_error "CU control protocol mismatch")
  end.

Definition get_ip_control {S} (l : list control_type) : M S exn control_type :=
  match l with [] => ret ctrl_none | c :: l' => merge_control c l' end.

(** [argument::argument]: which types of argument a run can set. *)
Definition make_argument (a : kernel_argument) : M kernel exn unit :=
  if (argtype a =? 0) && String.eqb (hosttype a) "float*"
  then raise (runtime_error "float* kernel argument not supported") else
  if 5 <=? argtype a then raise (runtime_error "Unexpected error") else
  modify (fun k => set_args (k_args k ++ [a]) (k_regmap_size k) k).

Definition is_input (a : kernel_argument) : bool := negb (dir_output a).
Definition is_output (a : kernel_argument) : bool := dir_output a.
Definition is_buffer (a : kernel_argument) : bool := (argtype a =? 1) || (argtype a =? 2).

Definition set_fa_desc_offset (o : Z) (a : kernel_argument) : kernel_argument :=
  KernelArgument (name a) (hosttype a) (port a) (port_width a) (index a) (offset a) (size a)
    (hostsize a) o (argtype a) (dir_output a).

Definition sizeof_fa_desc_entry : Z := 8.
Definition sizeof_fa_descriptor : Z := 20.

(** One pass over the arguments of a direction: number, bytes, and the running
    offset of the descriptor entries. *)
Fixpoint fa_pass (sel : kernel_argument -> bool) (desc_offset : Z) (l : list kernel_argument)
    : list kernel_argument * Z * Z * Z :=
  match l with
  | [] => ([], 0, 0, desc_offset)
  | a :: l' =>
      if sel a then
        let '(r, n, b, o) := fa_pass sel (u64 (desc_offset + (size a + sizeof_fa_desc_entry))) l' in
        (set_fa_desc_offset desc_offset a :: r, n + 1, u64 (size a + b), o)
      else
        let '(r, n, b, o) := fa_pass sel desc_offset l' in (a :: r, n, b, o)
  end.

(** The last argument ("nextDescriptorAddr") is not set by the user. *)
Definition amend_fa_args : M kernel exn unit :=
  k <- gets id ;;
  if (length (k_args k) =? 0)%nat then raise bad_write else
  let args := take (length (k_args k) - 1) (k_args k) in
  let '(args1, ni, bi, o1) := fa_pass is_input 0 args in
  let '(args2, no, bo, o2) := fa_pass is_output o1 args1 in
  modify (set_fa args2 ni no bi bo (u64 (sizeof_fa_descriptor + o2) / 4)).

Definition amend_ap_args : M kernel exn unit :=
  modify (fun k => set_args (k_args k) (Z.max (k_regmap_size k) 4) k).

Definition amend_args : M kernel exn unit :=
  k <- gets id ;;
  match k_type k with
  | kt_dpu => amend_ap_args
  | kt_pl | kt_ps =>
      if decide (protocol k = ctrl_fa) then amend_fa_args else
      if decide (protocol k = ctrl_hs \/ protocol k = ctrl_chain) then amend_ap_args else ret tt
  | kt_none => raise (runtime_error "Internal error: wrong kernel type can't set cmd opcode")
  end.

(** The constructor, once the CUs matching the kernel's name are known. *)
Definition kernel_impl (nm : string) (kernel_cus : list ip_context) (arginfo : list kernel_argument)
    : M kernel exn unit :=
  (if (length kernel_cus =? 0)%nat
   then raise (runtime_error (String.append "No compute units matching " nm)) else ret tt) ;;;
  for_each kernel_cus (fun cu =>
    if decide (ip_control cu = ctrl_none)
    then raise (xrt_error "AP_CTRL_NONE is only supported by XRT native API xrt::ip")
    else open_cu_context cu) ;;;
  p <- get_ip_control (ip_control <$> kernel_cus) ;;
  modify (set_protocol p) ;;;
  for_each arginfo (fun a =>
    modify (fun k => set_args (k_args k) (Z.max (k_regmap_size k) (u64 (offset a + size a) / 4)) k) ;;;
    make_argument a) ;;;
  amend_args.

(** The bank of an argument, with the slot, as buffer flags ([xcl_bo_flags]). *)
Definition group_id {S} (argno : Z) (k : kernel) : M S exn Z :=
  if (argno <? 0) || (Z.of_nat (length (k_args k)) <=? argno)
  then raise (xrt_error "No such kernel argument at index") else
  match ipctxs k, zlookup (k_args k) argno with
  | ip :: _, Some a =>
      let memidx := get_arg_memidx argno (ip_args ip) in
      if (memidx =? no_memidx) && is_buffer a
      then raise (xrt_error "No memory group assigned for global argument")
      else ret (s32 (Z.lor (u16 memidx) (Z.shiftl (u8 (ip_slot ip)) 16)))
  | _, _ => raise bad_read
  end.

Definition get_arg {S} (argidx : Z) (nocheck : bool) (k : kernel) : M S exn kernel_argument :=
  a <- at_ (k_args k) argidx ;;
  if negb nocheck && (index a =? no_index) then raise (runtime_error "Bad argument index") else ret a.

(** ** The command packet of a kernel *)

Definition initialize_command_header (k : kernel) : packet unit :=
  upd_header (set_extra_cu_masks (num_cumasks k - 1)) ;;;
  upd_header (set_count (num_cumasks k + k_regmap_size k)) ;;;
  upd_header (set_type ERT_CU) ;;;
  upd_header (set_state ERT_CMD_STATE_NEW) ;;;
  match k_type k with
  | kt_ps => upd_header (set_opcode ERT_SK_START)
  | kt_pl => upd_header (set_opcode (if decide (protocol k = ctrl_fa) then ERT_START_FA else ERT_START_CU))
  | kt_dpu => upd_header (set_opcode ERT_START_CU)
  | kt_none => raise (runtime_error "Internal error: wrong kernel type can't set cmd opcode")
  end.

(** The fast adapter descriptor starts with five words. *)
Definition initialize_fadesc (k : kernel) (d : Z) : packet unit :=
  set_data d ERT_FA_ISSUED ;;;
  set_data (d + 1) (fa_num_inputs k) ;;;
  set_data (d + 2) (fa_input_entry_bytes k) ;;;
  set_data (d + 3) (fa_num_outputs k) ;;;
  set_data (d + 4) (fa_output_entry_bytes k).

(** Initialize the packet; the result is the index in [pkt->data] of the
    payload that follows the CU masks. *)
Definition initialize_command (k : kernel) : packet Z :=
  initialize_command_header k ;;;
  encode_compute_units (k_cumask k) (num_cumasks k) ;;;
  h <- gets header ;;
  let data := 1 + pkt_extra_cu_masks h in
  when (pkt_opcode h =? ERT_START_FA) (initialize_fadesc k data) ;;;
  ret data.
