(* ===== verification/XrtRun.v ===== *)
(** Runs, [core/common/api/xrt_kernel.cpp]: a run object ([run_impl]) owns a
    command packet initialized by its kernel, sets kernel arguments in the
    packet's payload per control protocol, restricts the CUs the command may
    run on, and starts the command; [run_update_type] updates an argument of a
    running kernel; a clone runs concurrently with its origin. *)

From S2P Require Import Prelude Bytes CppStd XclbinXml XrtKernel.

(** * Commands *)

(** [kernel_command]: the execution buffer, whether the command is done,
    whether it was started with callbacks, the callbacks, and the buffers bound
    to its arguments. *)
Record bo := Bo { bo_address : Z; bo_size : Z; bo_group : Z; bo_imported : bool }.

Record command := Command {
  execbuf : list Z;
  c_done : bool;
  c_managed : bool;
  c_callbacks : list Z;
  c_bound : list (Z * bo);
}.

Definition new_command (buf : list Z) : command := Command buf true false [] [].
Definition set_execbuf (m : list Z) (c : command) : command :=
  Command m (c_done c) (c_managed c) (c_callbacks c) (c_bound c).
Definition set_done (d : bool) (c : command) : command :=
  Command (execbuf c) d (c_managed c) (c_callbacks c) (c_bound c).
Definition set_managed (b : bool) (c : command) : command :=
  Command (execbuf c) (c_done c) b (c_callbacks c) (c_bound c).
Definition set_callbacks (l : list Z) (c : command) : command :=
  Command (execbuf c) (c_done c) (c_managed c) l (c_bound c).
Definition add_bound (e : Z * bo) (c : command) : command :=
  Command (execbuf c) (c_done c) (c_managed c) (c_callbacks c) (c_bound c ++ [e]).

(** Submission to the hardware queue may throw; the command can then be
    started again. *)
Definition command_run (submitted : bool) : M command exn unit :=
  c <- gets id ;;
  if negb (c_done c) then raise (runtime_error "bad command state, can't launch") else
  modify (set_managed (negb (length (c_callbacks c) =? 0)%nat)) ;;;
  modify (set_done false) ;;;
  if submitted then ret tt else
  modify (set_done true) ;;; raise (runtime_error "submit failed").

(** [notify]: the callbacks to call, once per completed start. *)
Definition command_notify (s : Z) : M command exn (list Z) :=
  c <- gets id ;;
  if (s <? ERT_CMD_STATE_COMPLETED) || c_done c then ret [] else
  modify (set_done true) ;;; ret (c_callbacks c).

(** Add a callback; the result is the callback to call at once, when the
    command has completed already. *)
Definition add_callback (f : Z) : M command exn (list Z) :=
  c <- gets id ;;
  if negb (c_managed c) && negb (c_done c)
  then raise (xrt_error "Cannot add callback to running unmanaged command") else
  modify (fun c => set_callbacks (c_callbacks c ++ [f]) c) ;;;
  ret (if c_done c && (ERT_CMD_STATE_COMPLETED <=? pkt_state (header (execbuf c))) then [f] else []).

Definition pop_callback : M command exn unit :=
  modify (fun c => set_callbacks (take (length (c_callbacks c) - 1) (c_callbacks c)) c).

(** * Argument setters

    [d] is the byte of the payload in the execution buffer, [ps] the payload's
    size in bytes. *)

Inductive setter_kind := HS | FA | PS.

Definition payload_error : exn := xrt_error "kernel arg offset/size exceeds execbuf payload".
Definition fa_payload_error : exn := xrt_error "kernel fa_desc_offset exceeds execbuf payload".

(** [std::copy_n] to, and a view of, the execution buffer. *)
Definition copy_n (bs : list Z) (p : Z) : packet unit :=
  m <- gets id ;;
  if (0 <=? p) && (p + Z.of_nat (length bs) <=? Z.of_nat (length m))
  then modify (put_bytes (Z.to_nat p) bs) else raise bad_write.
Definition view (p n : Z) : packet (list Z) :=
  m <- gets id ;;
  if (0 <=? p) && (p + n <=? Z.of_nat (length m))
  then ret (bytes_at m (Z.to_nat p) (Z.to_nat n)) else raise bad_read.

(** [off > ps || n > ps - off] *)
Definition outside (ps off n : Z) : bool := (ps <? off) || (u64 (ps - off) <? n).

Definition hs_set_offset_value (d ps off : Z) (value : list Z) : packet unit :=
  let count := Z.min 4 (Z.of_nat (length value)) in
  if outside ps off count then raise payload_error else copy_n (take (Z.to_nat count) value) (d + off).

Definition hs_set_arg_value (d ps : Z) (a : kernel_argument) (value : list Z) : packet unit :=
  let count := Z.min (size a) (Z.of_nat (length value)) in
  if outside ps (offset a) count then raise payload_error
  else copy_n (take (Z.to_nat count) value) (d + offset a).

Definition hs_get_arg_value (d ps : Z) (a : kernel_argument) : packet (list Z) :=
  if outside ps (offset a) (size a) then raise payload_error else view (d + offset a) (size a).

Definition fa_offset (a : kernel_argument) : Z := fa_desc_offset a / 4 * 4.
Definition fa_outside (ps : Z) (a : kernel_argument) : bool :=
  (u64 (ps - sizeof_fa_descriptor) <? fa_offset a) ||
  (u64 (ps - sizeof_fa_descriptor - fa_offset a) <? sizeof_fa_desc_entry).

(** A descriptor entry: the argument's register offset, its size, its value. *)
Definition fa_set_arg_value (d ps : Z) (a : kernel_argument) (value : list Z) : packet unit :=
  if fa_outside ps a then raise fa_payload_error else
  let e := d + sizeof_fa_descriptor + fa_offset a in
  copy_n (le_bytes 4 (offset a)) e ;;;
  copy_n (le_bytes 4 (size a)) (e + 4) ;;;
  copy_n (take (Z.to_nat (Z.min (size a) (Z.of_nat (length value)))) value) (e + 8).

Definition fa_get_arg_value (d ps : Z) (a : kernel_argument) : packet (list Z) :=
  if fa_outside ps a then raise fa_payload_error else
  view (d + sizeof_fa_descriptor + fa_offset a + 8) (size a).

Definition setter_set (kind : setter_kind) (d ps : Z) (a : kernel_argument) (v : list Z) : packet unit :=
  match kind with FA => fa_set_arg_value d ps a v | HS | PS => hs_set_arg_value d ps a v end.

Definition setter_get (kind : setter_kind) (d ps : Z) (a : kernel_argument) : packet (list Z) :=
  match kind with FA => fa_get_arg_value d ps a | HS | PS => hs_get_arg_value d ps a end.

(** A buffer argument: its address, and for a PS kernel also its size. *)
Definition setter_set_bo (kind : setter_kind) (d ps : Z) (a : kernel_argument) (b : bo) : packet unit :=
  match kind with
  | PS => hs_set_arg_value d ps a (le_bytes 8 (bo_address b) ++ le_bytes 8 (bo_size b))
  | _ => setter_set kind d ps a (le_bytes 8 (bo_address b))
  end.

Definition setter_set_offset (kind : setter_kind) (d ps off : Z) (v : list Z) : packet unit :=
  match kind with
  | FA => raise (xrt_error "fast adapter set_offset_value")
  | _ => hs_set_offset_value d ps off v
  end.

(** * Run objects *)

Record run := Run {
  r_kernel : kernel;
  r_ips : list ip_context;
  r_cumask : Z;
  r_cmd : command;
  r_data : Z;                              (** payload, as an index in [pkt->data] *)
  r_header : Z;                            (** header cached by the first start *)
  r_setter : option (setter_kind * Z);
  encode_cumasks : bool;
  runlist_counter : Z;
}.

Definition set_cmd (c : command) (r : run) : run :=
  Run (r_kernel r) (r_ips r) (r_cumask r) c (r_data r) (r_header r) (r_setter r)
    (encode_cumasks r) (runlist_counter r).
Definition set_ips (l : list ip_context) (m : Z) (r : run) : run :=
  Run (r_kernel r) l m (r_cmd r) (r_data r) (r_header r) (r_setter r) true (runlist_counter r).
Definition set_encoded (r : run) : run :=
  Run (r_kernel r) (r_ips r) (r_cumask r) (r_cmd r) (r_data r) (r_header r) (r_setter r)
    false (runlist_counter r).
Definition cache_header (h : Z) (r : run) : run :=
  Run (r_kernel r) (r_ips r) (r_cumask r) (r_cmd r) (r_data r) h (r_setter r)
    (encode_cumasks r) (runlist_counter r).
Definition set_setter (s : setter_kind * Z) (r : run) : run :=
  Run (r_kernel r) (r_ips r) (r_cumask r) (r_cmd r) (r_data r) (r_header r) (Some s)
    (encode_cumasks r) (runlist_counter r).
Definition add_runlist (n : Z) (r : run) : run :=
  Run (r_kernel r) (r_ips r) (r_cumask r) (r_cmd r) (r_data r) (r_header r) (r_setter r)
    (encode_cumasks r) (u64 (runlist_counter r + n)).

Definition in_execbuf {A} (m : packet A) : M command exn A := fun c =>
  match m (execbuf c) with
  | Ok x b => Ok x (set_execbuf b c)
  | Err e b => Err e (set_execbuf b c)
  end.
Definition on_command {A} (m : M command exn A) : M run exn A := fun r =>
  match m (r_cmd r) with
  | Ok x c => Ok x (set_cmd c r)
  | Err e c => Err e (set_cmd c r)
  end.
Definition on_packet {A} (m : packet A) : M run exn A := on_command (in_execbuf m).

(** The constructor, on an execution buffer from the cache. *)
Definition run_impl (k : kernel) (buf : list Z) : exn + run :=
  match initialize_command k buf with
  | Ok data b => inr (Run k (ipctxs k) (k_cumask k) (new_command b) data 0 None false 0)
  | Err e _ => inl e
  end.

Definition data_byte (r : run) : Z := 4 + 4 * r_data r.

Definition payload_size : M run exn Z :=
  r <- gets id ;;
  let reserved := data_byte r in
  let payload := u64 (allocation_size - reserved) in
  let regmap := k_regmap_size (r_kernel r) in
  if regmap =? 0 then ret payload else
  if payload <? u64 (regmap * 4) then raise (xrt_error "kernel register map exceeed command payload size")
  else ret (u64 (regmap * 4)).

Definition setter_of (k : kernel) : option setter_kind :=
  match k_type k with
  | kt_pl => Some (if decide (protocol k = ctrl_fa) then FA else HS)
  | kt_ps => Some PS
  | kt_dpu => Some HS
  | kt_none => None
  end.

Definition make_arg_setter : M run exn (setter_kind * Z) :=
  r <- gets id ;;
  match setter_of (r_kernel r) with
  | None => raise (runtime_error "Internal error: unknown kernel type")
  | Some kind => ps <- payload_size ;; ret (kind, ps)
  end.

Definition get_arg_setter : M run exn (setter_kind * Z) :=
  r <- gets id ;;
  match r_setter r with
  | Some s => ret s
  | None => s <- make_arg_setter ;; modify (set_setter s) ;;; ret s
  end.

Definition run_get_arg_value (a : kernel_argument) : M run exn (list Z) :=
  s <- get_arg_setter ;; r <- gets id ;;
  on_packet (setter_get (fst s) (data_byte r) (snd s) a).

Definition run_set_arg_value (a : kernel_argument) (v : list Z) : M run exn unit :=
  s <- get_arg_setter ;; r <- gets id ;;
  on_packet (setter_set (fst s) (data_byte r) (snd s) a v).

Definition run_set_arg_bo (a : kernel_argument) (b : bo) : M run exn unit :=
  s <- get_arg_setter ;; r <- gets id ;;
  on_packet (setter_set_bo (fst s) (data_byte r) (snd s) a b) ;;;
  on_command (modify (add_bound (index a, b))).

Definition run_set_offset_value (off : Z) (v : list Z) : M run exn unit :=
  s <- get_arg_setter ;; r <- gets id ;;
  on_packet (setter_set_offset (fst s) (data_byte r) (snd s) off v).

(** [run.set_arg(index, value)], and [kernel_int::set_arg_at_index], which
    also sets arguments the user does not. *)
Definition set_arg_at_index (i : Z) (v : list Z) : M run exn unit :=
  r <- gets id ;; a <- get_arg i false (r_kernel r) ;; run_set_arg_value a v.
Definition int_set_arg_at_index (i : Z) (v : list Z) : M run exn unit :=
  r <- gets id ;; a <- get_arg i true (r_kernel r) ;; run_set_arg_value a v.

(** ** Restricting the CUs of a run *)

Definition mask_of (l : list ip_context) : Z :=
  foldr (fun ip m => Z.lor (2 ^ ip_cuidx ip) m) 0 l.

(** [std::remove_if] with a predicate that may throw. *)
Fixpoint filter_m {S A} (p : A -> M S exn bool) (l : list A) : M S exn (list A) :=
  match l with
  | [] => ret []
  | x :: l' => b <- p x ;; r <- filter_m p l' ;; ret (if b : bool then x :: r else r)
  end.

Definition validate_ip_arg_connectivity (argidx grpidx : Z) : M run exn bool :=
  r <- gets id ;;
  kept <- filter_m (valid_connection argidx grpidx) (r_ips r) ;;
  if (length kept =? 0)%nat then ret false else
  if (length kept =? length (r_ips r))%nat then ret true else
  modify (set_ips kept (mask_of kept)) ;;; ret true.

Definition set_cus (mask : Z) : M run exn unit :=
  r <- gets id ;;
  kept <- filter_m (fun ip => if ip_cuidx ip <? max_cus then ret (Z.testbit mask (ip_cuidx ip))
                              else raise out_of_range) (r_ips r) ;;
  if (length kept =? 0)%nat then raise (runtime_error "Specified No compute units left") else
  modify (set_ips kept (mask_of kept)).

Section buffers.
(** The option that disables the check, and the copy of a buffer in another
    memory bank ([xrt_core::bo::clone], which allocates device memory). *)
Context (skip_connectivity : bool) (clone_bo : bo -> Z -> bo).

Definition validate_bo_at_index (i : Z) (b : bo) : M run exn bo :=
  if bo_imported b || skip_connectivity then ret b else
  ok <- validate_ip_arg_connectivity i (u16 (bo_group b)) ;;
  if ok : bool then ret b else
  r <- gets id ;;
  g <- group_id i (r_kernel r) ;;
  ret (clone_bo b g).

Definition set_arg_bo_at_index (i : Z) (b : bo) : M run exn unit :=
  b' <- validate_bo_at_index i b ;;
  r <- gets id ;;
  a <- get_arg i false (r_kernel r) ;;
  run_set_arg_bo a b'.
End buffers.

(** ** Starting a run *)

Definition run_encode_compute_units : M run exn unit :=
  r <- gets id ;;
  if encode_cumasks r then
    on_packet (encode_compute_units (r_cumask r) (num_cumasks (r_kernel r))) ;;;
    modify set_encoded
  else ret tt.

Definition prep_start : M run exn unit :=
  run_encode_compute_units ;;;
  modify (fun r => if r_header r =? 0 then cache_header (header (execbuf (r_cmd r))) r else r) ;;;
  r <- gets id ;;
  on_packet (upd_header (fun _ => r_header r)) ;;;
  on_packet (upd_header (set_state ERT_CMD_STATE_NEW)).

Definition start (submitted : bool) : M run exn unit :=
  r <- gets id ;;
  if negb (runlist_counter r =? 0)
  then raise (xrt_error "Run object belongs to a runlist and cannot be explicitly started") else
  prep_start ;;; on_command (command_run submitted).

(** ** Clones *)

(** [clone_command_data]: the header, and [count] words of payload, of the
    origin's packet; the rest of the buffer is what the cache hands out. *)
Definition clone_command_data (m : list Z) : packet unit :=
  upd_header (fun _ => header m) ;;;
  upd_header (set_state ERT_CMD_STATE_NEW) ;;;
  copy_n (bytes_at m 4 (Z.to_nat (4 * pkt_count (header m)))) 4.

Definition clone_run (r : run) (buf : list Z) : exn + run :=
  match clone_command_data (execbuf (r_cmd r)) buf with
  | Ok _ b => inr (Run (r_kernel r) (r_ips r) (r_cumask r) (new_command b) (r_data r) (r_header r)
                     None (encode_cumasks r) 0)
  | Err e _ => inl e
  end.

(** * Argument update of a running kernel *)

(** The ERT_INIT_CU packet: eight reserved words, the CU masks, (offset, value) pairs. *)
Definition data_offset : Z := 9.

Definition reset_cmd : packet unit :=
  h <- gets header ;; upd_header (set_count (data_offset + pkt_extra_cu_masks h)).

(** The packet of a new [run_update_type], from the packet [rm] of its run. *)
Definition run_update_init (rm : list Z) : packet unit :=
  upd_header (set_opcode ERT_INIT_CU) ;;;
  upd_header (set_type ERT_CU) ;;;
  upd_header (set_bit4 1) ;;;
  let extra := pkt_extra_cu_masks (header rm) in
  upd_header (set_extra_cu_masks extra) ;;;
  set_data 8 (word_at rm 4) ;;;
  for_range (Z.to_nat extra) 0 (fun i => set_data (9 + i) (word_at rm (Z.to_nat (8 + 4 * i)))) ;;;
  reset_cmd.

(** [for (auto v : value)]: the elements of [value] are bytes. *)
Fixpoint update_pairs (idx off : Z) (value : list Z) : packet unit :=
  match value with
  | [] => ret tt
  | v :: rest =>
      set_data (9 + idx) off ;;; set_data (9 + (idx + 1)) v ;;; update_pairs (idx + 2) (off + 4) rest
  end.

(** The (offset, value) pairs of an update. *)
Definition update_packet (a : kernel_argument) (value : list Z) : packet unit :=
  reset_cmd ;;;
  h <- gets header ;;
  update_pairs (pkt_count h - data_offset) (offset a) value ;;;
  upd_header (fun h => set_count (pkt_count h + Z.of_nat (length value) * 2) h).

(** [run_update_type]: the run, and the command that updates it. *)
Record run_update := RunUpdate { u_run : run; u_cmd : command }.

Definition on_run {A} (m : M run exn A) : M run_update exn A := fun u =>
  match m (u_run u) with
  | Ok x r => Ok x (RunUpdate r (u_cmd u))
  | Err e r => Err e (RunUpdate r (u_cmd u))
  end.
Definition on_update {A} (m : M command exn A) : M run_update exn A := fun u =>
  match m (u_cmd u) with
  | Ok x c => Ok x (RunUpdate (u_run u) c)
  | Err e c => Err e (RunUpdate (u_run u) c)
  end.

(** The argument also changes in the run; the command is run and waited for,
    which notifies it. *)
Definition update_arg_range (submitted : bool) (a : kernel_argument) (value : list Z)
    : M run_update exn unit :=
  on_update (in_execbuf (update_packet a value)) ;;;
  on_run (run_set_arg_value a value) ;;;
  on_update (in_execbuf (upd_header (set_state ERT_CMD_STATE_NEW))) ;;;
  on_update (command_run submitted) ;;;
  on_update (_ <- command_notify ERT_CMD_STATE_COMPLETED ;; ret tt).

Definition update_arg_value (submitted : bool) (a : kernel_argument) (value : list Z)
    : M run_update exn unit :=
  update_arg_range submitted a (take (Z.to_nat (Z.min (size a) (Z.of_nat (length value)))) value).

Definition update_arg_at_index (submitted : bool) (i : Z) (value : list Z) : M run_update exn unit :=
  u <- gets id ;;
  a <- get_arg i false (r_kernel (u_run u)) ;;
  update_arg_value submitted a value.
