(* ===== verification/XrtPacket.v ===== *)
(** What the packet routines of [XrtKernel] and [XrtRun] do to an execution
    buffer: the fields of the header, the encoding of the CU masks, and the
    window of bytes each routine writes. *)

From S2P Require Import Prelude Bytes CppStd XclbinXml XrtKernel XrtRun.

(** * The header *)

Lemma header_set_word h m :
  (4 <= length m)%nat -> 0 <= h < 2 ^ 32 -> header (set_word 0 h m) = h.
Proof. intros. by apply word_at_set_word. Qed.

Lemma header_range m : bytes m -> 0 <= header m < 2 ^ 32.
Proof. apply word_at_range. Qed.

(** Every field after a field was assigned. *)
Ltac fields :=
  unfold pkt_state, pkt_bit4, pkt_extra_cu_masks, pkt_count, pkt_opcode, pkt_type,
    set_state, set_bit4, set_extra_cu_masks, set_count, set_opcode, set_type in *;
  repeat first [ rewrite get_set_bits by lia | rewrite get_set_bits_ne by lia ].

Lemma set_field_range lo len v h :
  0 <= lo -> 0 <= len -> lo + len <= 32 -> 0 <= h < 2 ^ 32 -> 0 <= set_bits lo len v h < 2 ^ 32.
Proof. intros. by apply set_bits_range. Qed.

Ltac field_range := repeat (apply set_field_range; [lia..|]); done || apply header_range; done.

(** * Words of the payload *)

Lemma wp_set_data i v (Q : unit -> list Z -> Prop) R m :
  0 <= i -> 8 + 4 * i <= Z.of_nat (length m) ->
  Q tt (set_word (Z.to_nat (4 + 4 * i)) (u32 v) m) -> wp (set_data i v) Q R m.
Proof.
  intros Hi Hm HQ. unfold set_data. wps. unfold id in *.
  - done.
  - exfalso. match goal with H : _ = false |- _ => apply andb_false_iff in H end. unfold id in *. lia.
Qed.

Lemma wp_get_data i (Q : Z -> list Z -> Prop) R m :
  0 <= i -> 8 + 4 * i <= Z.of_nat (length m) ->
  Q (word_at m (Z.to_nat (4 + 4 * i))) m -> wp (get_data i) Q R m.
Proof.
  intros Hi Hm HQ. unfold get_data. wps; [done|].
  exfalso. match goal with H : _ = false |- _ => apply andb_false_iff in H end. unfold id in *. lia.
Qed.

(** * CU masks *)

(** Word [w] of the CU masks holds the bits [32 w ..] of the set. *)
Definition masks_hold (n cumask : Z) (m : list Z) : Prop :=
  forall w, 0 <= w < n -> word_at m (Z.to_nat (4 + 4 * w)) = get_bits (32 * w) 32 cumask.

Definition packet_ok (m m' : list Z) (lo hi : nat) : Prop := bytes m' /\ agree_outside lo hi m m'.

Lemma get_bits_mod_succ w i cumask :
  0 <= w -> 0 <= i ->
  get_bits (32 * w) 32 (cumask mod 2 ^ (i + 1)) =
    if (i / 32 =? w) && Z.testbit cumask i
    then Z.lor (get_bits (32 * w) 32 (cumask mod 2 ^ i)) (u32 (Z.shiftl 1 (i - i / 32 * 32)))
    else get_bits (32 * w) 32 (cumask mod 2 ^ i).
Proof.
  intros Hw Hi. pose proof (Z.div_mod i 32). pose proof (Z.mod_pos_bound i 32).
  assert (forall j, 0 <= j -> Z.testbit (get_bits (32 * w) 32 (cumask mod 2 ^ (i + 1))) j =
    (j <? 32) && ((j + 32 * w <? i) && Z.testbit cumask (j + 32 * w) ||
                  (j + 32 * w =? i) && Z.testbit cumask i)) as Hl.
  { intros j Hj. rewrite testbit_get_bits, testbit_mod by lia.
    destruct (Z.ltb_spec j 32); cbn [andb]; [|done].
    destruct (Z.eqb_spec (j + 32 * w) i) as [->|Hne].
    - rewrite (proj2 (Z.ltb_lt i (i + 1))), Z.ltb_irrefl by lia. done.
    - cbn [andb]. rewrite orb_false_r. f_equal. apply eq_bool_prop_intro.
      rewrite !Is_true_true, !Z.ltb_lt. lia. }
  apply Z.bits_inj'. intros j Hj. rewrite Hl by done.
  destruct (Z.eqb_spec (i / 32) w) as [<-|Hne]; cbn [andb].
  - destruct (Z.testbit cumask i); cbn [andb].
    + unfold u32. rewrite Z.lor_spec, testbit_get_bits, !testbit_mod, testbit_shiftl by lia.
      replace (i - i / 32 * 32) with (i mod 32) by lia.
      destruct (Z.ltb_spec j 32); cbn [andb]; [|done]. rewrite andb_true_r. f_equal.
      destruct (Z.eqb_spec (j + 32 * (i / 32)) i), (Z.leb_spec (i mod 32) j); cbn [andb]; try lia.
      * by replace (j - i mod 32) with 0 by lia.
      * symmetry. apply (testbit_high 1 1); lia.
    + rewrite testbit_get_bits, testbit_mod, andb_false_r, orb_false_r by lia. done.
  - rewrite testbit_get_bits, testbit_mod by lia.
    destruct (Z.ltb_spec j 32); cbn [andb]; [|done].
    destruct (Z.eqb_spec (j + 32 * w) i); cbn [andb]; [|by rewrite orb_false_r].
    exfalso. apply Hne. subst i. rewrite Z.add_comm, Z.mul_comm, Z.div_add_l by lia.
    rewrite Z.div_small; lia.
Qed.

Section encode.
Variables (n cumask : Z) (m0 : list Z).
Hypothesis n_range : 0 <= n <= 4.
Hypothesis room : (20 <= length m0)%nat.
Hypothesis m0_bytes : bytes m0.
Hypothesis cumask_range : 0 <= cumask < 2 ^ (32 * n).

Let win (m : list Z) : Prop := packet_ok m0 m 4 (Z.to_nat (4 + 4 * n)).

Lemma win_set i v m :
  0 <= i < n -> win m -> win (set_word (Z.to_nat (4 + 4 * i)) v m).
Proof.
  intros Hi [Hb Ha]. pose proof (agree_length _ _ _ _ Ha). split.
  - apply bytes_set_word; [lia|done].
  - eapply agree_trans; [exact Ha|]. apply agree_set_word; lia.
Qed.

Lemma clear_masks :
  wp (for_range (Z.to_nat n) 0 (fun i => set_data i 0))
    (fun _ m => win m /\ forall w, 0 <= w < n -> word_at m (Z.to_nat (4 + 4 * w)) = 0) no_err m0.
Proof.
  eapply wp_mono.
  - apply (wp_for_range (fun i m => win m /\ forall w, 0 <= w < i -> word_at m (Z.to_nat (4 + 4 * w)) = 0)).
    + split; [|lia]. split; [done|apply agree_refl].
    + intros i m Hi [Hw Hz]. pose proof (agree_length _ _ _ _ (proj2 Hw)).
      apply wp_set_data; [lia..|]. split; [apply win_set; [lia|done]|]. intros w Hw'.
      destruct (decide (w = i)) as [->|].
      * rewrite word_at_set_word; [done|lia|done].
      * rewrite word_at_set_word_ne by lia. apply Hz. lia.
  - intros _ m [Hw Hz]. split; [done|]. intros w Hw'. apply Hz. lia.
  - done.
Qed.

Lemma set_masks m :
  win m -> (forall w, 0 <= w < n -> word_at m (Z.to_nat (4 + 4 * w)) = 0) ->
  wp (for_range (Z.to_nat max_cus) 0 (encode_cu cumask))
    (fun _ m' => win m' /\ masks_hold n cumask m') no_err m.
Proof.
  intros Hm Hz. eapply wp_mono.
  - apply (wp_for_range (fun i m => win m /\ masks_hold n (cumask mod 2 ^ i) m)).
    + split; [done|]. intros w Hw. rewrite Hz by done. rewrite Z.pow_0_r, Z.mod_1_r.
      unfold get_bits. by rewrite Z.shiftr_0_l, Z.land_0_l.
    + intros i m' Hi [Hw Hh]. pose proof (agree_length _ _ _ _ (proj2 Hw)) as Hlen.
      unfold encode_cu. apply wp_when; intros Ht.
      * assert (i < 32 * n).
        { destruct (Z.ltb_spec i (32 * n)); [done|].
          by rewrite (testbit_high cumask (32 * n)) in Ht by lia. }
        assert (0 <= i / cus_per_word < n).
        { unfold cus_per_word. split; [apply Z.div_pos; lia|apply Z.div_lt_upper_bound; lia]. }
        apply wp_bind, wp_get_data; [lia..|]. apply wp_set_data; [lia..|].
        split; [apply win_set; done|]. intros w Hw'. rewrite get_bits_mod_succ, Ht, andb_true_r by lia.
        destruct (Z.eqb_spec (i / 32) w) as [<-|Hne].
        -- rewrite word_at_set_word; [|lia|apply u32_range].
           rewrite Hh by done. unfold cus_per_word. apply u32_small.
           apply lor_range; [lia|apply get_bits_range; lia|apply u32_range].
        -- rewrite word_at_set_word_ne by (unfold cus_per_word in *; lia). by apply Hh.
      * split; [done|]. intros w Hw'. rewrite get_bits_mod_succ, Ht, andb_false_r by lia. by apply Hh.
  - intros _ m' [Hw Hh]. split; [done|]. rewrite Z.mod_small in Hh; [done|].
    split; [lia|]. eapply Z.lt_le_trans; [apply cumask_range|].
    apply Z.pow_le_mono_r; unfold max_cus; lia.
  - done.
Qed.

(** The CU masks are the encoding of the set, whatever the buffer held. *)
Lemma encode_compute_units_spec :
  exists m, encode_compute_units cumask n m0 = Ok tt m /\
    packet_ok m0 m 4 (Z.to_nat (4 + 4 * n)) /\ masks_hold n cumask m.
Proof.
  destruct (wp_Ok (encode_compute_units cumask n) (fun _ m => win m /\ masks_hold n cumask m) m0)
    as ([] & m & Hrun & Hm); [|by exists m].
  unfold encode_compute_units. apply wp_bind. eapply wp_mono; [apply clear_masks| |done].
  intros [] m [Hw Hz]. by apply set_masks.
Qed.
End encode.

(** Reading a mask back: bit [cu] of the set. *)
Lemma masks_hold_bit n cumask m cu :
  masks_hold n cumask m -> 0 <= cu < 32 * n ->
  Z.testbit (word_at m (Z.to_nat (4 + 4 * (cu / 32)))) (cu mod 32) = Z.testbit cumask cu.
Proof.
  intros Hh Hcu. pose proof (Z.div_mod cu 32). pose proof (Z.mod_pos_bound cu 32).
  rewrite Hh by (split; [apply Z.div_pos|apply Z.div_lt_upper_bound]; lia).
  rewrite testbit_get_bits by lia. rewrite (proj2 (Z.ltb_lt _ _)) by lia. cbn. f_equal. lia.
Qed.

Lemma testbit_mask_of l cu :
  Forall (fun ip => 0 <= ip_cuidx ip) l -> 0 <= cu ->
  Z.testbit (mask_of l) cu = true <-> exists ip, ip ∈ l /\ ip_cuidx ip = cu.
Proof.
  intros Hl Hcu. induction Hl as [|ip l Hip Hl IH]; cbn [mask_of foldr].
  - rewrite Z.testbit_0_l. set_solver.
  - fold (mask_of l). rewrite Z.lor_spec, Z.pow2_bits_eqb, orb_true_iff, Z.eqb_eq, IH by done.
    set_solver.
Qed.

Lemma mask_of_range l n :
  Forall (fun ip => 0 <= ip_cuidx ip < n) l -> 0 <= n -> 0 <= mask_of l < 2 ^ n.
Proof.
  intros Hl Hn. induction Hl as [|ip l Hip Hl IH]; cbn [mask_of foldr]; [lia|].
  apply lor_range; [lia| |apply IH]. split; [lia|]. apply Z.pow_lt_mono_r; lia.
Qed.
