(* ===== verification/XrtInvariant.v ===== *)
(** Well-formed kernels and runs: the constructor of a kernel establishes
    [kernel_ok]; the constructor of a run establishes [run_ok] and every
    operation of the run interface preserves it, whether it returns or throws. *)

From S2P Require Import Prelude Bytes CppStd XclbinXml XrtKernel XrtRun XrtPacket.

(** * Kernels *)

Definition arg_ok (a : kernel_argument) : Prop :=
  0 <= offset a < 2 ^ 64 /\ 0 <= size a < 2 ^ 64 /\ 0 <= fa_desc_offset a < 2 ^ 64.

Record kernel_ok (k : kernel) : Prop := {
  ko_masks : 1 <= num_cumasks k <= 4;
  ko_ips : Forall (fun ip => 0 <= ip_cuidx ip < 32 * num_cumasks k) (ipctxs k);
  ko_mask : k_cumask k = mask_of (ipctxs k);
  ko_regmap : 0 <= k_regmap_size k < 2 ^ 62;
  ko_args_ok : Forall arg_ok (k_args k);
}.

Lemma mask_of_snoc l ip : mask_of (l ++ [ip]) = Z.lor (mask_of l) (2 ^ ip_cuidx ip).
Proof.
  induction l as [|x l IH]; cbn [mask_of foldr app].
  - by rewrite Z.lor_comm.
  - unfold mask_of in IH. by rewrite IH, Z.lor_assoc.
Qed.

Lemma open_cu_context_ok ip k :
  0 <= ip_cuidx ip -> kernel_ok k ->
  wp (open_cu_context ip) (fun _ => kernel_ok) (fun _ _ => True) k.
Proof.
  intros Hip [Hn Hips Hm Hr Ha]. unfold open_cu_context. wps; [done|].
  unfold max_cus in *. assert (ip_cuidx ip < 128) by lia.
  assert (0 <= ip_cuidx ip / cus_per_word < 4).
  { unfold cus_per_word. split; [apply Z.div_pos; lia|apply Z.div_lt_upper_bound; lia]. }
  split; cbn; try done; try lia.
  - apply Forall_app. split.
    + eapply Forall_impl; [exact Hips|]. cbn. lia.
    + constructor; [|done]. unfold cus_per_word in *. pose proof (Z.div_mod (ip_cuidx ip) 32).
      pose proof (Z.mod_pos_bound (ip_cuidx ip) 32). lia.
  - by rewrite mask_of_snoc, Hm.
Qed.

Lemma fa_pass_ok sel o l l' n b o' :
  fa_pass sel o l = (l', n, b, o') -> 0 <= o < 2 ^ 64 -> Forall arg_ok l ->
  Forall arg_ok l' /\ 0 <= o' < 2 ^ 64.
Proof.
  revert o l' n b o'. induction l as [|a l IH]; intros o l' n b o' Hp Ho Hl; cbn [fa_pass] in Hp.
  { injection Hp as <- <- <- <-. done. }
  inversion Hl as [|? ? Ha Hl']; subst. destruct (sel a).
  - destruct (fa_pass sel (u64 _) l) as [[[r n1] b1] o1] eqn:Hr. injection Hp as <- <- <- <-.
    destruct (IH _ _ _ _ _ Hr) as [H1 H2]; [apply u64_range|done|]. split; [|done].
    constructor; [|done]. unfold arg_ok in *. cbn. lia.
  - destruct (fa_pass sel o l) as [[[r n1] b1] o1] eqn:Hr. injection Hp as <- <- <- <-.
    destruct (IH _ _ _ _ _ Hr) as [H1 H2]; [done..|]. split; [|done]. by constructor.
Qed.

Lemma quarter_range x : 0 <= u64 x / 4 < 2 ^ 62.
Proof.
  pose proof (u64_range x). split; [apply Z.div_pos; lia|apply Z.div_lt_upper_bound; lia].
Qed.

Lemma amend_args_ok k :
  kernel_ok k -> wp amend_args (fun _ => kernel_ok) (fun _ _ => True) k.
Proof.
  intros [Hn Hips Hm Hr Ha].
  assert (forall k', k' = k -> wp amend_ap_args (fun _ => kernel_ok) (fun _ _ => True) k') as Hap.
  { intros k' ->. unfold amend_ap_args. wps. split; cbn; done || lia. }
  assert (wp amend_fa_args (fun _ => kernel_ok) (fun _ _ => True) k) as Hfa.
  { unfold amend_fa_args. wps; [done|]. unfold id.
    destruct (fa_pass is_input 0 _) as [[[a1 ni] bi] o1] eqn:H1.
    destruct (fa_pass is_output o1 a1) as [[[a2 no] bo] o2] eqn:H2.
    destruct (fa_pass_ok _ _ _ _ _ _ _ H1) as [Ha1 Ho1]; [lia|by apply Forall_take|].
    destruct (fa_pass_ok _ _ _ _ _ _ _ H2) as [Ha2 Ho2]; [done|done|].
    wps. split; cbn; try done. apply quarter_range. }
  unfold amend_args. wps. unfold id. destruct (k_type k).
  - by wps.
  - repeat case_decide; [done|by apply Hap|by wps].
  - repeat case_decide; [done|by apply Hap|by wps].
  - by apply Hap.
Qed.

(** The constructor of a kernel. *)
Lemma kernel_impl_ok nm cus args t k :
  Forall (fun ip => 0 <= ip_cuidx ip) cus -> Forall arg_ok args ->
  kernel_impl nm cus args (new_kernel t) = Ok tt k -> kernel_ok k.
Proof.
  intros Hcus Hargs. apply (wp_run _ (fun _ => kernel_ok) (fun _ _ => True)).
  unfold kernel_impl. wps; try done.
  eapply (wp_mono _ _ _ (fun _ _ => True)); [apply (wp_for_each kernel_ok)| |done].
  { split; cbn; first [lia | done | constructor]. }
  { intros ip k' Hin Hk. cbv beta. case_decide; [wps; done|]. apply open_cu_context_ok; [|done].
    by eapply (Forall_forall (fun ip => 0 <= ip_cuidx ip)). }
  intros [] k1 Hk1. wps.
  assert (forall S (c : control_type) l (s : S) (Q : control_type -> S -> Prop),
    (forall p, Q p s) -> wp (merge_control c l) Q (fun _ _ => True) s) as Hmc.
  { intros S c l. revert c. induction l as [|x l IH]; intros c s Q HQ; cbn [merge_control]; [by wps|].
    repeat case_decide; [by apply IH|by apply IH|by wps]. }
  unfold get_ip_control. destruct (ip_control <$> cus) as [|c l]; [wps|apply Hmc; intros p; wps];
  (eapply (wp_mono _ _ _ (fun _ _ => True)); [apply (wp_for_each kernel_ok)|intros [] k2 Hk2; by apply amend_args_ok|done];
   [by destruct Hk1; split|];
   intros a k2 Hin [Hn Hips Hm Hr Ha]; unfold make_argument; wps; try done;
   split; cbn; try done;
   [pose proof (quarter_range (offset a + size a)); lia|];
   apply Forall_app; split; [done|]; constructor; [|done]; exact (proj1 (Forall_forall _ _) Hargs a Hin)).
Qed.

(** * Packets and runs *)

Definition opcode_of (k : kernel) : Z :=
  match k_type k with
  | kt_ps => ERT_SK_START
  | kt_pl => if decide (protocol k = ctrl_fa) then ERT_START_FA else ERT_START_CU
  | _ => ERT_START_CU
  end.

(** The command fits its execution buffer. *)
Definition fits (k : kernel) : Prop :=
  4 + 4 * num_cumasks k + 4 * k_regmap_size k <= allocation_size.

(** The fields the kernel determines. *)
Definition hdr_ok (k : kernel) (h : Z) : Prop :=
  0 <= h < 2 ^ 32 /\ pkt_type h = ERT_CU /\ pkt_opcode h = opcode_of k /\
  pkt_count h = num_cumasks k + k_regmap_size k /\ pkt_extra_cu_masks h = num_cumasks k - 1.

Definition packet_room (m : list Z) : Prop := length m = Z.to_nat allocation_size /\ bytes m.

Lemma hdr_ok_state k h s : hdr_ok k h -> hdr_ok k (set_state s h).
Proof.
  intros (Hr & H1 & H2 & H3 & H4). unfold hdr_ok. fields. split; [|done].
  apply set_field_range; lia.
Qed.

Lemma hdr_ok_nonzero k h : hdr_ok k h -> h <> 0.
Proof. intros (_ & Ht & _) ->. discriminate. Qed.

Lemma room_agree lo hi m m' : packet_room m -> packet_ok m m' lo hi -> packet_room m'.
Proof. intros [Hl Hb] [Hb' Ha]. split; [|done]. by rewrite (agree_length _ _ _ _ Ha). Qed.

Lemma room_header h m : packet_room m -> packet_room (set_word 0 h m).
Proof.
  intros [Hl Hb]. unfold allocation_size in *. split; [by rewrite length_set_word|].
  apply bytes_set_word; [lia|done].
Qed.

(** Setting the header leaves everything else. *)
Lemma upd_header_ok f m :
  packet_room m -> 0 <= f (header m) < 2 ^ 32 ->
  exists m', upd_header f m = Ok tt m' /\ packet_ok m m' 0 4 /\ header m' = f (header m).
Proof.
  intros [Hl Hb] Hf. unfold allocation_size in *. eexists. split; [done|].
  rewrite header_set_word by (lia || done). split_and!; [|done].
  split; [apply bytes_set_word; [lia|done]|]. apply agree_set_word; lia.
Qed.

Lemma wp_upd_header f (Q : unit -> list Z -> Prop) R m0 m h :
  packet_room m0 -> packet_ok m0 m 0 4 -> header m = h -> 0 <= f h < 2 ^ 32 ->
  (forall m', packet_ok m0 m' 0 4 -> header m' = f h -> Q tt m') -> wp (upd_header f) Q R m.
Proof.
  intros Hm Hk <- Hf HQ. pose proof (room_agree _ _ _ _ Hm Hk) as Hr.
  destruct (upd_header_ok f m Hr Hf) as (m' & Hrun & [Hb Ha] & Hh). unfold wp. rewrite Hrun.
  apply HQ; [|done]. split; [done|]. eapply agree_trans; [apply Hk|done].
Qed.

Lemma initialize_command_header_spec k m :
  kernel_ok k -> fits k -> packet_room m ->
  wp (initialize_command_header k)
    (fun _ m' => packet_ok m m' 0 4 /\ hdr_ok k (header m') /\
       pkt_state (header m') = ERT_CMD_STATE_NEW /\ get_bits 4 6 (header m') = get_bits 4 6 (header m) /\
       k_type k <> kt_none)
    (fun e m' => k_type k = kt_none) m.
Proof.
  intros [Hn _ _ Hr _] Hf Hm. unfold fits, allocation_size in *.
  set (h := set_state ERT_CMD_STATE_NEW (set_type ERT_CU (set_count (num_cumasks k + k_regmap_size k)
    (set_extra_cu_masks (num_cumasks k - 1) (header m))))).
  assert (0 <= header m < 2 ^ 32) as Hh by apply header_range, Hm.
  assert (forall o m1, packet_ok m m1 0 4 -> header m1 = header m ->
    wp (upd_header (set_extra_cu_masks (num_cumasks k - 1)) ;;;
      upd_header (set_count (num_cumasks k + k_regmap_size k)) ;;;
      upd_header (set_type ERT_CU) ;;; upd_header (set_state ERT_CMD_STATE_NEW) ;;;
      upd_header (set_opcode o))
    (fun _ m' => packet_ok m m' 0 4 /\ header m' = set_opcode o h) no_err m1) as Hgo.
  { intros o m1 H0 H1. subst h.
    do 4 (apply wp_bind; eapply wp_upd_header; [done|exact H0|exact H1|field_range|];
          clear dependent m1; intros m1 H0 H1).
    eapply wp_upd_header; [done|exact H0|exact H1|field_range|]. done. }
  assert (forall o, 0 <= o < 2 ^ 5 -> 0 <= set_opcode o h < 2 ^ 32 /\
    pkt_type (set_opcode o h) = ERT_CU /\ pkt_opcode (set_opcode o h) = o /\
    pkt_count (set_opcode o h) = num_cumasks k + k_regmap_size k /\
    pkt_extra_cu_masks (set_opcode o h) = num_cumasks k - 1 /\
    pkt_state (set_opcode o h) = ERT_CMD_STATE_NEW /\
    get_bits 4 6 (set_opcode o h) = get_bits 4 6 (header m)) as Hfld.
  { intros o Ho. subst h. unfold ERT_CU, ERT_CMD_STATE_NEW. fields. split_and!; try done.
    all: repeat (apply set_field_range; [lia..|]); done || lia. }
  assert (forall o, opcode_of k = o -> 0 <= o < 2 ^ 5 -> k_type k <> kt_none -> forall m', packet_ok m m' 0 4 /\ header m' = set_opcode o h ->
    packet_ok m m' 0 4 /\ hdr_ok k (header m') /\ pkt_state (header m') = ERT_CMD_STATE_NEW /\
    get_bits 4 6 (header m') = get_bits 4 6 (header m) /\ k_type k <> kt_none) as Hfin.
  { intros o Ho Hor Ht m' [Hp ->]. destruct (Hfld o Hor) as (F1 & F2 & F3 & F4 & F5 & F6 & F7).
    unfold hdr_ok. rewrite Ho. split_and!; done || lia. }
  assert (packet_ok m m 0 4) as H0 by (split; [apply Hm|apply agree_refl]).
  unfold initialize_command_header, opcode_of in *. destruct (k_type k) eqn:Hk.
  - unfold wp, upd_header, modify, bind, raise. done.
  - eapply wp_mono; [by apply Hgo|intros [] m'; apply Hfin; [done| |done]|done]. by case_decide.
  - eapply wp_mono; [by apply Hgo|intros [] m'; by apply Hfin|done].
  - eapply wp_mono; [by apply Hgo|intros [] m'; by apply Hfin|done].
Qed.

(** The buffer holds a packet of kernel [k]: its header, and the CU masks of
    the set [cumask]. *)
Definition packet_for (k : kernel) (m : list Z) : Prop := packet_room m /\ hdr_ok k (header m).

Lemma packet_for_agree k lo hi m m' :
  packet_for k m -> packet_ok m m' lo hi -> (4 <= lo)%nat -> packet_for k m'.
Proof.
  intros [Hr Hh] Hp Hlo. split; [by eapply room_agree|]. destruct Hp as [_ Ha].
  unfold header in *. by rewrite (agree_word _ _ _ _ 0 Ha) by lia.
Qed.

Lemma masks_hold_agree n cumask lo hi m m' :
  masks_hold n cumask m -> packet_ok m m' lo hi -> 0 <= n ->
  (hi <= 4 \/ Z.to_nat (4 + 4 * n) <= lo)%nat -> masks_hold n cumask m'.
Proof.
  intros Hh [_ Ha] Hn Hd w Hw. rewrite (agree_word _ _ _ _ _ Ha) by lia. by apply Hh.
Qed.

Lemma packet_ok_trans lo hi m m' m'' :
  packet_ok m m' lo hi -> packet_ok m' m'' lo hi -> packet_ok m m'' lo hi.
Proof. intros [_ H1] [Hb H2]. split; [done|]. by eapply agree_trans. Qed.

Lemma packet_ok_weaken lo hi lo' hi' m m' :
  packet_ok m m' lo hi -> (lo' <= lo)%nat -> (hi <= hi')%nat -> packet_ok m m' lo' hi'.
Proof. intros [Hb H]. split; [done|]. by eapply agree_weaken. Qed.

Lemma packet_ok_refl lo hi m : bytes m -> packet_ok m m lo hi.
Proof. intros Hb. split; [done|apply agree_refl]. Qed.

Lemma initialize_fadesc_spec k d m :
  packet_room m -> 0 <= d <= 4 ->
  wp (initialize_fadesc k d) (fun _ m' => packet_ok m m' (Z.to_nat (4 + 4 * d)) (Z.to_nat allocation_size))
    no_err m.
Proof.
  intros [Hl Hb] Hd. unfold allocation_size in *. unfold initialize_fadesc.
  assert (forall m' i v (Q : unit -> list Z -> Prop), packet_ok m m' (Z.to_nat (4 + 4 * d)) 4096 ->
    d <= i <= d + 4 ->
    (forall m'', packet_ok m m'' (Z.to_nat (4 + 4 * d)) 4096 -> Q tt m'') -> wp (set_data i v) Q no_err m')
    as Hset.
  { intros m' i v Q [Hb' Ha] Hi HQ. pose proof (agree_length _ _ _ _ Ha).
    apply wp_set_data; [lia..|]. apply HQ. split; [apply bytes_set_word; [lia|done]|].
    eapply agree_trans; [exact Ha|]. apply agree_set_word; lia. }
  assert (packet_ok m m (Z.to_nat (4 + 4 * d)) 4096) as H0 by by apply packet_ok_refl.
  do 4 (apply wp_bind; eapply Hset; [eassumption|lia|]; intros ? ?).
  eapply Hset; [eassumption|lia|done].
Qed.

(** A fresh command: the packet of the kernel in state NEW, the CU masks of the
    kernel, and bits 4 to 9 of the header as they were in the buffer. *)
Lemma initialize_command_spec k m :
  kernel_ok k -> fits k -> packet_room m -> k_type k <> kt_none ->
  exists m', initialize_command k m = Ok (num_cumasks k) m' /\
    packet_for k m' /\ masks_hold (num_cumasks k) (k_cumask k) m' /\
    pkt_state (header m') = ERT_CMD_STATE_NEW /\ get_bits 4 6 (header m') = get_bits 4 6 (header m).
Proof.
  intros Hk Hf Hm Ht.
  destruct (wp_Ok (initialize_command k) (fun d m' => d = num_cumasks k /\ packet_for k m' /\
    masks_hold (num_cumasks k) (k_cumask k) m' /\ pkt_state (header m') = ERT_CMD_STATE_NEW /\
    get_bits 4 6 (header m') = get_bits 4 6 (header m)) m) as (d & m' & Hrun & -> & H); [|by exists m'].
  pose proof Hk as [Hn Hips Hmask _ _].
  unfold initialize_command. apply wp_bind.
  eapply wp_mono; [by apply initialize_command_header_spec| |by intros e m' ?].
  intros [] m1 (P1 & H1 & S1 & B1 & _). pose proof (room_agree _ _ _ _ Hm P1) as R1.
  destruct (encode_compute_units_spec (num_cumasks k) (k_cumask k) m1) as (m2 & Hrun & P2 & M2).
  { lia. } { destruct R1 as [-> _]. unfold allocation_size. lia. } { apply R1. }
  { rewrite Hmask. apply mask_of_range; [done|lia]. }
  apply wp_bind. unfold wp at 1. rewrite Hrun.
  assert (header m2 = header m1) as Hh.
  { unfold header. apply (agree_word _ _ _ _ 0 (proj2 P2)). lia. }
  pose proof (room_agree _ _ _ _ R1 P2) as R2.
  apply wp_bind, wp_gets. rewrite Hh. cbv zeta. pose proof H1 as (_ & _ & _ & _ & ->).
  replace (1 + (num_cumasks k - 1)) with (num_cumasks k) by lia. apply wp_bind.
  assert (packet_for k m2 /\ masks_hold (num_cumasks k) (k_cumask k) m2 /\
    pkt_state (header m2) = ERT_CMD_STATE_NEW /\ get_bits 4 6 (header m2) = get_bits 4 6 (header m))
    as (Q1 & Q2 & Q3 & Q4) by (unfold packet_for; by rewrite Hh).
  apply wp_when; intros _; [|by apply wp_ret].
  eapply wp_mono; [apply initialize_fadesc_spec; [done|lia]| |done].
  intros [] m3 P3. apply wp_ret. split; [done|]. split; [eapply packet_for_agree; [done|exact P3|lia]|].
  split; [eapply masks_hold_agree; [done|exact P3|lia|lia]|].
  unfold header in *. rewrite (agree_word _ _ _ _ 0 (proj2 P3)) by lia. done.
Qed.

(** ** Runs *)

Definition payload_bytes (k : kernel) : Z :=
  if k_regmap_size k =? 0 then allocation_size - (4 + 4 * num_cumasks k) else 4 * k_regmap_size k.

Record run_ok (r : run) : Prop := {
  ro_kernel : kernel_ok (r_kernel r);
  ro_fits : fits (r_kernel r);
  ro_type : k_type (r_kernel r) <> kt_none;
  ro_packet : packet_for (r_kernel r) (execbuf (r_cmd r));
  ro_data : r_data r = num_cumasks (r_kernel r);
  ro_header : r_header r = 0 \/ hdr_ok (r_kernel r) (r_header r);
  ro_ips : sublist (r_ips r) (ipctxs (r_kernel r));
  ro_mask : r_cumask r = mask_of (r_ips r);
  ro_setter : r_setter r = None \/
    exists kind, setter_of (r_kernel r) = Some kind /\ r_setter r = Some (kind, payload_bytes (r_kernel r));
  ro_encoded : encode_cumasks r = false ->
    masks_hold (num_cumasks (r_kernel r)) (r_cumask r) (execbuf (r_cmd r));
}.

(** The constructor of a run, on any recycled buffer. *)
Lemma run_impl_ok k buf :
  kernel_ok k -> fits k -> packet_room buf -> k_type k <> kt_none ->
  exists r, run_impl k buf = inr r /\ run_ok r /\ r_kernel r = k /\ r_ips r = ipctxs k /\
    pkt_state (header (execbuf (r_cmd r))) = ERT_CMD_STATE_NEW.
Proof.
  intros Hk Hf Hb Ht. destruct (initialize_command_spec k buf) as (m & Hrun & P & Hm & Hs & _); [done..|].
  unfold run_impl. rewrite Hrun. eexists. split; [done|]. split; [|done].
  destruct Hk as [Hn Hips Hmk Hr Ha]. split; cbn; try done; auto.
Qed.

Lemma run_ips_range r :
  run_ok r -> Forall (fun ip => 0 <= ip_cuidx ip < 32 * num_cumasks (r_kernel r)) (r_ips r).
Proof.
  intros H. destruct (ro_kernel r H) as [_ Hips _ _ _]. pose proof (ro_ips r H) as Hs.
  apply Forall_forall. intros ip Hip. apply (proj1 (Forall_forall _ _) Hips).
  eapply elem_of_submseteq; [done|]. by apply sublist_submseteq.
Qed.
