(* ===== verification/XrtPreserve.v ===== *)
(** Every operation of the run interface preserves [run_ok], whether it returns
    or throws: what a run writes to its packet stays in the payload, except for
    the header and the CU masks written by [prep_start]. *)

From S2P Require Import Prelude Bytes CppStd XclbinXml XrtKernel XrtRun XrtPacket XrtInvariant.

(** * Routines confined to the payload *)

Definition confined {A} (lo : nat) (p : packet A) : Prop :=
  forall m, packet_room m ->
    wp p (fun _ m' => packet_ok m m' lo (Z.to_nat allocation_size))
      (fun _ m' => packet_ok m m' lo (Z.to_nat allocation_size)) m.

Create HintDb confined.

Lemma confined_ret {A} lo (x : A) : confined lo (ret x).
Proof. intros m [_ Hm]. apply wp_ret. by apply packet_ok_refl. Qed.

Lemma confined_raise {A} lo e : confined lo (raise e : packet A).
Proof. intros m [_ Hm]. apply wp_raise. by apply packet_ok_refl. Qed.

Lemma confined_bind {A B} lo (p : packet A) (q : A -> packet B) :
  confined lo p -> (forall x, confined lo (q x)) -> confined lo (bind p q).
Proof.
  intros Hp Hq m Hm. apply wp_bind. eapply wp_mono; [by apply Hp| |done].
  intros x m' Hm'. eapply wp_mono; [apply Hq; exact (room_agree _ _ _ _ Hm Hm')| |];
    intros ? m'' Hm''; exact (packet_ok_trans _ _ _ _ _ Hm' Hm'').
Qed.

Lemma confined_if {A} lo (b : bool) (p q : packet A) :
  confined lo p -> confined lo q -> confined lo (if b then p else q).
Proof. by destruct b. Qed.

Lemma confined_copy_n lo bs p : bytes bs -> Z.of_nat lo <= p -> confined lo (copy_n bs p).
Proof.
  intros Hb Hp m [Hl Hm]. unfold copy_n. wps; unfold id in *.
  - split; [apply bytes_put_bytes; [lia|done..]|]. apply agree_put_bytes; lia.
  - by apply packet_ok_refl.
Qed.

Lemma confined_view lo p n : confined lo (view p n).
Proof. intros m [_ Hm]. unfold view. wps; by apply packet_ok_refl. Qed.

#[export] Hint Resolve confined_ret confined_raise confined_bind confined_if confined_view : confined.

Lemma bytes_take n v : bytes v -> bytes (take n v).
Proof. apply Forall_take. Qed.

#[export] Hint Resolve bytes_take bytes_le_bytes Forall_app_2 : confined.

Lemma fa_offset_nonneg a : arg_ok a -> 0 <= fa_offset a.
Proof. intros (_ & _ & H). unfold fa_offset. apply Z.mul_nonneg_nonneg; [apply Z.div_pos|]; lia. Qed.

Section setters.
Context (lo : nat) (d ps : Z) (Hlo : Z.of_nat lo <= d).

Lemma confined_setter_set kind a v : arg_ok a -> bytes v -> confined lo (setter_set kind d ps a v).
Proof.
  intros Ha Hv. pose proof (fa_offset_nonneg a Ha). destruct Ha as (H1 & H2 & H3).
  assert (confined lo (hs_set_arg_value d ps a v)).
  { unfold hs_set_arg_value. cbv zeta. apply confined_if; [apply confined_raise|].
    apply confined_copy_n; [by apply bytes_take|lia]. }
  destruct kind; [done| |done]. cbn. unfold fa_set_arg_value. cbv zeta.
  apply confined_if; [apply confined_raise|].
  unfold sizeof_fa_descriptor.
  apply confined_bind; [|intros _; apply confined_bind; [|intros _]];
    (apply confined_copy_n; [auto with confined|lia]).
Qed.

Lemma confined_setter_get kind a : confined lo (setter_get kind d ps a).
Proof.
  destruct kind; cbn; unfold hs_get_arg_value, fa_get_arg_value; auto with confined.
Qed.

Lemma confined_setter_set_bo kind a b : arg_ok a -> confined lo (setter_set_bo kind d ps a b).
Proof.
  intros Ha. destruct kind; unfold setter_set_bo.
  1,2: apply confined_setter_set; [done|apply bytes_le_bytes].
  apply (confined_setter_set PS); [done|]. apply Forall_app; split; apply bytes_le_bytes.
Qed.

Lemma confined_setter_set_offset kind off v :
  0 <= off -> bytes v -> confined lo (setter_set_offset kind d ps off v).
Proof.
  intros Ho Hv. assert (confined lo (hs_set_offset_value d ps off v)).
  { unfold hs_set_offset_value. cbv zeta. apply confined_if; [apply confined_raise|].
    apply confined_copy_n; [by apply bytes_take|lia]. }
  destruct kind; [done|apply confined_raise|done].
Qed.
End setters.

(** * Runs *)

(** What setting an argument leaves of a run. *)
Definition same_cus (r r' : run) : Prop :=
  r_kernel r' = r_kernel r /\ r_ips r' = r_ips r /\ r_cumask r' = r_cumask r /\
  encode_cumasks r' = encode_cumasks r /\ r_header r' = r_header r /\
  runlist_counter r' = runlist_counter r /\ c_done (r_cmd r') = c_done (r_cmd r) /\
  c_callbacks (r_cmd r') = c_callbacks (r_cmd r).

Lemma same_cus_refl r : same_cus r r.
Proof. done. Qed.

Lemma same_cus_trans r1 r2 r3 : same_cus r1 r2 -> same_cus r2 r3 -> same_cus r1 r3.
Proof. unfold same_cus. intuition congruence. Qed.

Lemma data_byte_eq r : run_ok r -> data_byte r = 4 + 4 * num_cumasks (r_kernel r).
Proof. intros H. unfold data_byte. by rewrite (ro_data r H). Qed.

(** A change of the payload. *)
Lemma run_ok_payload r m :
  run_ok r -> packet_ok (execbuf (r_cmd r)) m (Z.to_nat (data_byte r)) (Z.to_nat allocation_size) ->
  run_ok (set_cmd (set_execbuf m (r_cmd r)) r).
Proof.
  intros H Hm. pose proof (data_byte_eq r H) as Hd.
  destruct H as [Hk Hf Ht Hp Hdt Hh Hi Hmk Hs He]. pose proof (ko_masks _ Hk).
  split; cbn; try done.
  - eapply packet_for_agree; [done|exact Hm|lia].
  - intros Henc. eapply masks_hold_agree; [by apply He|exact Hm|lia|]. right. lia.
Qed.

Lemma wp_on_packet {A} (p : packet A) r (Q : A -> run -> Prop) R :
  wp p (fun x m => Q x (set_cmd (set_execbuf m (r_cmd r)) r))
    (fun e m => R e (set_cmd (set_execbuf m (r_cmd r)) r)) (execbuf (r_cmd r)) ->
  wp (on_packet p) Q R r.
Proof. unfold wp, on_packet, on_command, in_execbuf. by destruct (p _). Qed.

Lemma on_packet_ok {A} (p : packet A) r :
  run_ok r -> confined (Z.to_nat (data_byte r)) p ->
  wp (on_packet p) (fun _ r' => run_ok r' /\ same_cus r r') (fun _ r' => run_ok r' /\ same_cus r r') r.
Proof.
  intros H Hp. apply wp_on_packet.
  eapply wp_mono; [apply Hp, (ro_packet r H)|intros ? m Hm..]; (split; [by apply run_ok_payload|done]).
Qed.

Lemma run_ok_setter r kind :
  run_ok r -> setter_of (r_kernel r) = Some kind ->
  run_ok (set_setter (kind, payload_bytes (r_kernel r)) r).
Proof. intros [Hk Hf Ht Hp Hdt Hh Hi Hmk Hs He] Hkind. split; cbn; try done. right. by exists kind. Qed.

(** The setter is the one of the kernel's protocol, over the register map. *)
Lemma get_arg_setter_ok r :
  run_ok r -> exists kind r', setter_of (r_kernel r) = Some kind /\
    get_arg_setter r = Ok (kind, payload_bytes (r_kernel r)) r' /\ run_ok r' /\ same_cus r r' /\
    r_cmd r' = r_cmd r /\ r_data r' = r_data r.
Proof.
  intros H. pose proof (data_byte_eq r H) as Hd. pose proof (ro_kernel r H) as Hk.
  pose proof (ko_masks _ Hk). pose proof (ko_regmap _ Hk). pose proof (ro_fits r H) as Hf.
  unfold get_arg_setter, bind, gets, id. destruct (ro_setter r H) as [Hs|(kind & Hkind & Hs)]; rewrite Hs.
  2:{ exists kind, r. by split_and!. }
  destruct (setter_of (r_kernel r)) as [kind|] eqn:Hkind.
  2:{ exfalso. apply (ro_type r H). unfold setter_of in Hkind. by destruct (k_type (r_kernel r)). }
  exists kind, (set_setter (kind, payload_bytes (r_kernel r)) r). split; [done|].
  assert (payload_size r = Ok (payload_bytes (r_kernel r)) r) as Hps.
  { unfold payload_size, payload_bytes, bind, gets, id, ret, raise, fits, allocation_size in *.
    rewrite Hd. rewrite !u64_small by lia. destruct (k_regmap_size (r_kernel r) =? 0); [done|].
    destruct (Z.ltb_spec (4096 - (4 + 4 * num_cumasks (r_kernel r))) (k_regmap_size (r_kernel r) * 4));
      [lia|]. f_equal. lia. }
  unfold make_arg_setter, bind, gets, id. rewrite Hkind, Hps. unfold ret, modify.
  split_and!; [done| |done..]. by apply run_ok_setter.
Qed.

(** A routine over the setter of the run that stays in the payload. *)
Lemma with_setter_ok {A} (f : setter_kind * Z -> Z -> packet A) r :
  run_ok r -> (forall s, confined (Z.to_nat (data_byte r)) (f s (data_byte r))) ->
  wp (s <- get_arg_setter ;; r' <- gets id ;; on_packet (f s (data_byte r')))
    (fun _ r' => run_ok r' /\ same_cus r r') (fun _ r' => run_ok r' /\ same_cus r r') r.
Proof.
  intros H Hf. destruct (get_arg_setter_ok r H) as (kind & r1 & _ & Hrun & H1 & S1 & C1 & D1).
  apply wp_bind. unfold wp at 1. rewrite Hrun. apply wp_bind, wp_gets. unfold id.
  assert (data_byte r1 = data_byte r) as Hd by (unfold data_byte; by rewrite D1). rewrite Hd.
  eapply wp_mono; [apply on_packet_ok; [done|by rewrite Hd]|intros ? r2 [H2 S2]..];
    (split; [done|by eapply same_cus_trans]).
Qed.

Lemma run_arg_ok r a : run_ok r -> a ∈ k_args (r_kernel r) -> arg_ok a.
Proof. intros H. pose proof (ko_args_ok _ (ro_kernel r H)) as Hf. by apply (proj1 (Forall_forall _ _) Hf). Qed.

Lemma data_byte_lo r : run_ok r -> Z.of_nat (Z.to_nat (data_byte r)) <= data_byte r.
Proof. intros H. rewrite (data_byte_eq r H). pose proof (ko_masks _ (ro_kernel r H)). lia. Qed.

(** The outcome every payload operation has. *)
Abbreviation keeps_run r m :=
  (wp m (fun _ r' => run_ok r' /\ same_cus r r') (fun _ r' => run_ok r' /\ same_cus r r') r).

Lemma run_set_arg_value_ok r a v :
  run_ok r -> arg_ok a -> bytes v -> keeps_run r (run_set_arg_value a v).
Proof.
  intros H Ha Hv. apply (with_setter_ok (fun s d => setter_set (fst s) d (snd s) a v)); [done|].
  intros s. apply confined_setter_set; [by apply data_byte_lo|done..].
Qed.

Lemma run_get_arg_value_ok r a : run_ok r -> keeps_run r (run_get_arg_value a).
Proof.
  intros H. apply (with_setter_ok (fun s d => setter_get (fst s) d (snd s) a)); [done|].
  intros s. by apply confined_setter_get.
Qed.

Lemma run_set_offset_value_ok r off v :
  run_ok r -> 0 <= off -> bytes v -> keeps_run r (run_set_offset_value off v).
Proof.
  intros H Ho Hv. apply (with_setter_ok (fun s d => setter_set_offset (fst s) d (snd s) off v)); [done|].
  intros s. apply confined_setter_set_offset; [by apply data_byte_lo|done..].
Qed.

(** Changing the command but not its packet. *)
Lemma run_ok_command r c :
  run_ok r -> execbuf c = execbuf (r_cmd r) -> run_ok (set_cmd c r).
Proof. intros [Hk Hf Ht Hp Hdt Hh Hi Hmk Hs He] Hc. split; cbn; rewrite ?Hc; done. Qed.

Lemma run_set_arg_bo_ok r a b : run_ok r -> arg_ok a -> keeps_run r (run_set_arg_bo a b).
Proof.
  intros H Ha. unfold run_set_arg_bo.
  assert (forall r1, run_ok r1 /\ same_cus r r1 ->
    wp (on_command (modify (add_bound (index a, b)))) (fun _ r' => run_ok r' /\ same_cus r r')
      (fun _ r' => run_ok r' /\ same_cus r r') r1) as Hb.
  { intros r1 [H1 S1]. unfold wp, on_command, modify. split; [by apply run_ok_command|done]. }
  pose proof (with_setter_ok (fun s d => setter_set_bo (fst s) d (snd s) a b) r H) as Hw.
  specialize (Hw ltac:(intros s; apply confined_setter_set_bo; [by apply data_byte_lo|done])).
  revert Hw. unfold wp, bind. destruct (get_arg_setter r) as [s r1|e r1]; [|done].
  unfold gets, id. destruct (on_packet _ r1) as [[] r2|e r2]; [|done]. intros H2.
  apply (Hb r2 H2).
Qed.

(** * Restricting the CUs *)

Definition reads_only {S A} (p : A -> M S exn bool) : Prop :=
  forall x, (exists b, forall s, p x s = Ok b s) \/ (exists e, forall s, p x s = Err e s).

Lemma filter_m_spec {S A} (p : A -> M S exn bool) l s :
  reads_only p ->
  (exists kept, filter_m p l s = Ok kept s /\ sublist kept l /\
     forall x, x ∈ kept <-> x ∈ l /\ p x s = Ok true s) \/
  (exists e, filter_m p l s = Err e s).
Proof.
  intros Hp. induction l as [|x l IH]; cbn [filter_m].
  { left. exists []. split_and!; [done|constructor|]. set_solver. }
  unfold bind. destruct (Hp x) as [[b Hb]|[e He]]; [|right; exists e; by rewrite He].
  rewrite Hb. destruct IH as [(kept & -> & Hs & Hk)|[e ->]]; [|by right; exists e].
  left. exists (if b then x :: kept else kept). split; [done|]. split.
  - destruct b; by constructor.
  - intros y. destruct b; rewrite ?elem_of_cons, Hk; [naive_solver|].
    split; [intros ?; split; [right|]; tauto|]. intros [[->|Hy] Hpy]; [|done]. rewrite Hb in Hpy. discriminate.
Qed.

Lemma at_cases {S A} (l : list A) i :
  (exists x, forall s : S, at_ l i s = Ok x s) \/ (forall s : S, at_ l i s = Err out_of_range s).
Proof. unfold at_. destruct (zlookup l i); [left|right]; eauto. Qed.

Lemma bitset_pos_cases {S} enc i :
  (exists x, forall s : S, bitset_pos enc i s = Ok x s) \/
  (forall s : S, bitset_pos enc i s = Err out_of_range s).
Proof.
  unfold bitset_pos, bind. destruct (@at_cases S Z enc i) as [[x Hx]|Hx].
  - destruct (x <? max_connections) eqn:He.
    + left. exists x. intros s. by rewrite Hx, He.
    + right. intros s. by rewrite Hx, He.
  - right. intros s. by rewrite Hx.
Qed.

Lemma valid_connection_reads {S} i b : reads_only (@valid_connection S i b).
Proof.
  intros ip. unfold valid_connection, valid_arg_connection.
  destruct (zlookup (connections (ip_args ip)) i) as [c|]; [|right; by exists bad_read].
  unfold bind. destruct (@bitset_pos_cases S (ip_encoding ip) b) as [[x Hx]|Hx].
  - left. exists (Z.testbit c x). intros s. by rewrite Hx.
  - right. exists out_of_range. intros s. by rewrite Hx.
Qed.

(** An argument of the CU is connected to a memory bank. *)
Definition connected (argidx bank : Z) (ip : ip_context) : Prop :=
  valid_connection argidx bank ip tt = Ok true tt.

Lemma connected_any {S} i b ip (s : S) :
  valid_connection i b ip s = Ok true s <-> connected i b ip.
Proof.
  unfold connected, valid_connection, valid_arg_connection, bitset_pos, at_, bind, ret, raise.
  destruct (zlookup (connections (ip_args ip)) i) as [c|]; [|done].
  destruct (zlookup (ip_encoding ip) b) as [x|]; [|done].
  destruct (x <? max_connections); [|done]. split; congruence.
Qed.

Lemma run_ok_set_ips r kept :
  run_ok r -> sublist kept (r_ips r) -> run_ok (set_ips kept (mask_of kept) r).
Proof.
  intros [Hk Hf Ht Hp Hdt Hh Hi Hmk Hs He] Hsub. split; cbn; try done. by etrans.
Qed.

Lemma sublist_length_eq {A} (l k : list A) : sublist l k -> length l = length k -> l = k.
Proof.
  induction 1 as [|x l k Hs IH|x l k Hs IH]; cbn; intros Hl; [done|f_equal; auto|].
  apply sublist_length in Hs. lia.
Qed.

(** Keeping the CUs an argument's bank is connected to; without any, the run
    is unchanged. *)
Lemma validate_ip_arg_connectivity_spec i b r :
  run_ok r ->
  (exists kept r', validate_ip_arg_connectivity i b r = Ok true r' /\ kept <> [] /\
     run_ok r' /\ r_ips r' = kept /\ r_kernel r' = r_kernel r /\ r_cmd r' = r_cmd r /\
     runlist_counter r' = runlist_counter r /\ r_data r' = r_data r /\
     forall ip, ip ∈ kept <-> ip ∈ r_ips r /\ connected i b ip) \/
  (validate_ip_arg_connectivity i b r = Ok false r /\ forall ip, ip ∈ r_ips r -> ~ connected i b ip) \/
  (exists e, validate_ip_arg_connectivity i b r = Err e r).
Proof.
  intros H. unfold validate_ip_arg_connectivity, bind, gets, id.
  destruct (filter_m_spec (valid_connection i b) (r_ips r) r) as [(kept & -> & Hs & Hk)|[e ->]];
    [apply valid_connection_reads| |right; right; by exists e].
  setoid_rewrite connected_any in Hk. destruct (length kept =? 0)%nat eqn:H0.
  { right. left. split; [done|]. intros ip Hip Hc. apply Nat.eqb_eq, length_zero_iff_nil in H0 as ->.
    by apply (not_elem_of_nil ip), Hk. }
  apply Nat.eqb_neq in H0. left. destruct (length kept =? length (r_ips r))%nat eqn:He.
  - apply Nat.eqb_eq in He. assert (kept = r_ips r) as -> by by apply sublist_length_eq.
    exists (r_ips r), r. split_and!; try done. intros Hn. by rewrite Hn in H0.
  - exists kept, (set_ips kept (mask_of kept) r). split_and!; try done; [by intros ->|].
    by apply run_ok_set_ips.
Qed.

Lemma set_cus_spec mask r :
  run_ok r ->
  (exists kept r', set_cus mask r = Ok tt r' /\ run_ok r' /\ r_ips r' = kept /\ kept <> [] /\
     r_cmd r' = r_cmd r /\ r_kernel r' = r_kernel r /\
     forall ip, ip ∈ kept <-> ip ∈ r_ips r /\ Z.testbit mask (ip_cuidx ip) = true) \/
  (set_cus mask r = Err (runtime_error "Specified No compute units left") r /\
     forall ip, ip ∈ r_ips r -> Z.testbit mask (ip_cuidx ip) = false).
Proof.
  intros H. pose proof (run_ips_range r H) as Hr. pose proof (ko_masks _ (ro_kernel r H)).
  set (p := fun ip : ip_context => if ip_cuidx ip <? max_cus
    then ret (Z.testbit mask (ip_cuidx ip)) else raise out_of_range : M run exn bool).
  assert (forall l, Forall (fun ip => ip_cuidx ip < 128) l -> exists kept, filter_m p l r = Ok kept r) as Hok.
  { induction 1 as [|ip l Hip Hl [kept IH]]; cbn [filter_m]; [by eexists|].
    unfold bind, p at 1. rewrite (proj2 (Z.ltb_lt _ _)) by done. unfold ret. rewrite IH. by eexists. }
  destruct (Hok (r_ips r)) as [kept0 Hk0]; [eapply Forall_impl; [exact Hr|]; cbn; lia|].
  destruct (filter_m_spec p (r_ips r) r) as [(kept & Hrun & Hs & Hk)|[e He]]; [|..|congruence].
  { intros ip. unfold p. destruct (_ <? _); [left; eexists|right; eexists]; by intros. }
  assert (forall ip, ip ∈ kept <-> ip ∈ r_ips r /\ Z.testbit mask (ip_cuidx ip) = true) as Hiff.
  { intros ip. rewrite Hk. split; intros [Hip Hb]; (split; [done|]);
      pose proof (proj1 (Forall_forall _ _) Hr ip Hip) as Hlt; cbn in Hlt; unfold p, ret in *;
      rewrite (proj2 (Z.ltb_lt _ _)) in * by (unfold max_cus; lia); congruence. }
  unfold set_cus, bind, gets, id. fold p. rewrite Hrun. destruct (length kept =? 0)%nat eqn:Hz.
  - right. split; [done|]. apply Nat.eqb_eq, length_zero_iff_nil in Hz as ->. intros ip Hip.
    destruct (Z.testbit mask (ip_cuidx ip)) eqn:Hb; [|done].
    by destruct (not_elem_of_nil ip (proj2 (Hiff ip) (conj Hip Hb))).
  - apply Nat.eqb_neq in Hz. left. exists kept, (set_ips kept (mask_of kept) r).
    split_and!; try done; [by apply run_ok_set_ips|by intros ->].
Qed.
