(* ===== verification/XrtStart.v ===== *)
(** Starting and cloning a run, and the run interface as a whole: [run_ok]
    holds of every run reachable by calls of the interface and by the state
    changes the device makes; and arguments in the payload of a run: what setting an argument
    writes, when it throws, and what the other arguments keep, for the register map of
    AP_CTRL_HS / AP_CTRL_CHAIN and PS kernels and for the descriptor of fast
    adapter kernels. *)

From S2P Require Import Prelude Bytes CppStd XclbinXml XrtKernel XrtRun XrtPacket XrtInvariant XrtPreserve.

Definition buf (r : run) : list Z := execbuf (r_cmd r).

(** The argument payload of a packet. *)
Definition payload (r : run) : list Z :=
  bytes_at (buf r) (Z.to_nat (data_byte r)) (Z.to_nat (allocation_size - data_byte r)).

(** Encoding the CU masks of a run. *)
Lemma run_encode_compute_units_spec r :
  run_ok r -> exists r', run_encode_compute_units r = Ok tt r' /\ run_ok r' /\
    encode_cumasks r' = false /\ r_kernel r' = r_kernel r /\ r_ips r' = r_ips r /\
    r_header r' = r_header r /\ r_data r' = r_data r /\ runlist_counter r' = runlist_counter r /\
    r_cmd r' = set_execbuf (buf r') (r_cmd r) /\
    packet_ok (buf r) (buf r') 4 (Z.to_nat (data_byte r)).
Proof.
  intros H. pose proof (data_byte_eq r H) as Hd. pose proof (ro_kernel r H) as Hk.
  pose proof (ko_masks _ Hk). pose proof (ro_packet r H) as Hp. pose proof Hp as [[Hl Hb] _].
  unfold run_encode_compute_units, bind, gets, id. destruct (encode_cumasks r) eqn:Henc.
  - destruct (encode_compute_units_spec (num_cumasks (r_kernel r)) (r_cumask r) (buf r))
      as (m & Hrun & Pm & Hm); [lia|unfold buf; rewrite Hl; unfold allocation_size; lia|done| |].
    { rewrite (ro_mask r H). apply mask_of_range; [by apply run_ips_range|lia]. }
    unfold on_packet, on_command, in_execbuf. fold (buf r). rewrite Hrun. eexists. split; [done|].
    rewrite Hd. split_and!; try done.
    destruct H as [_ Hf Ht _ Hdt Hh Hi Hmk Hs He]. split; cbn; try done.
    eapply packet_for_agree; [done|exact Pm|lia].
  - exists r. split; [done|]. split_and!; first [done | by unfold buf; destruct (r_cmd r) | by apply packet_ok_refl].
Qed.

(** Rewriting the header with one the kernel determines. *)
Lemma run_ok_header r h :
  run_ok r -> hdr_ok (r_kernel r) h ->
  run_ok (set_cmd (set_execbuf (set_word 0 h (buf r)) (r_cmd r)) r) /\
  packet_ok (buf r) (set_word 0 h (buf r)) 0 4 /\ header (set_word 0 h (buf r)) = h.
Proof.
  intros H Hh. pose proof (ro_packet r H) as [Hr _]. pose proof (ko_masks _ (ro_kernel r H)).
  destruct (upd_header_ok (fun _ => h) (buf r)) as (m & [= <-] & Pm & Hhm); [done|by destruct Hh|].
  split_and!; [|done|done]. destruct H as [Hk Hf Ht Hp Hdt Hhd Hi Hmk Hs He]. split; cbn; try done.
  - split; [by eapply room_agree|]. by rewrite Hhm.
  - intros Henc. eapply masks_hold_agree; [by apply He|exact Pm|lia|]. left. lia.
Qed.

(** What a run hands to the scheduler. *)
Definition prepared (r r' : run) : Prop :=
  run_ok r' /\ encode_cumasks r' = false /\ pkt_state (header (buf r')) = ERT_CMD_STATE_NEW /\
  r_kernel r' = r_kernel r /\ r_ips r' = r_ips r /\ payload r' = payload r /\
  runlist_counter r' = runlist_counter r /\ c_done (r_cmd r') = c_done (r_cmd r) /\
  c_callbacks (r_cmd r') = c_callbacks (r_cmd r).

Lemma prep_start_spec r : run_ok r -> exists r', prep_start r = Ok tt r' /\ prepared r r'.
Proof.
  intros H. pose proof (ko_masks _ (ro_kernel r H)). pose proof (data_byte_eq r H) as Hd.
  destruct (run_encode_compute_units_spec r H)
    as (r1 & Hrun & H1 & E1 & K1 & I1 & Hh1 & D1 & L1 & C1 & P1).
  unfold prep_start, bind at 1. rewrite Hrun. unfold bind at 1, modify at 1.
  set (r2 := if r_header r1 =? 0 then _ else r1).
  assert (run_ok r2 /\ hdr_ok (r_kernel r1) (r_header r2) /\ r_cmd r2 = r_cmd r1 /\
    r_kernel r2 = r_kernel r1 /\ r_ips r2 = r_ips r1 /\ r_data r2 = r_data r1 /\
    runlist_counter r2 = runlist_counter r1 /\ encode_cumasks r2 = false)
    as (H2 & Hh2 & C2 & K2 & I2 & D2 & L2 & E2).
  { subst r2. destruct (Z.eqb_spec (r_header r1) 0) as [Hz|Hz].
    - pose proof (ro_packet r1 H1) as [_ Hp]. split_and!; try done. 
      destruct H1 as [Hk Hf Ht Hp1 Hdt Hh Hi Hmk Hs He]. split; cbn; try done. by right.
    - split_and!; try done. by destruct (ro_header r1 H1). }
  clearbody r2. unfold bind at 1, gets, id. unfold on_packet at 1, on_command, in_execbuf, upd_header, modify.
  unfold bind. fold (buf r2). rewrite <- K2 in Hh2.
  destruct (run_ok_header r2 (r_header r2) H2 Hh2) as (H3 & P3 & Hd3).
  set (r3 := set_cmd _ r2) in *. unfold on_packet, on_command, in_execbuf.
  assert (header (buf r3) = r_header r2) as Hb3 by done.
  destruct (run_ok_header r3 (set_state ERT_CMD_STATE_NEW (header (buf r3))) H3) as (H4 & P4 & Hd4).
  { rewrite Hb3. by apply hdr_ok_state. }
  change (execbuf (r_cmd r3)) with (buf r3). eexists. split; [done|]. unfold prepared.
  split_and!; try done.
  - change (header (buf _)) with (header (set_word 0 (set_state ERT_CMD_STATE_NEW (header (buf r3))) (buf r3))).
    rewrite Hd4. unfold ERT_CMD_STATE_NEW. by fields.
  - cbn. congruence.
  - cbn. congruence.
  - unfold payload. change (data_byte (set_cmd _ r3)) with (data_byte r2).
    change (buf (set_cmd _ r3)) with (set_word 0 (set_state ERT_CMD_STATE_NEW (header (buf r3))) (buf r3)).
    assert (data_byte r2 = data_byte r) as -> by (unfold data_byte; congruence).
    rewrite (agree_bytes _ _ _ _ _ _ (proj2 P4)) by lia.
    change (buf r3) with (set_word 0 (r_header r2) (buf r2)).
    rewrite (agree_bytes _ _ _ _ _ _ (proj2 P3)) by lia.
    unfold buf at 1. rewrite C2. fold (buf r1). by rewrite (agree_bytes _ _ _ _ _ _ (proj2 P1)) by lia.
  - cbn. congruence.
  - cbn. rewrite C2, C1. done.
  - cbn. rewrite C2, C1. done.
Qed.

(** * The run interface *)

Inductive api :=
| SetArg (i : Z) (v : list Z)
| IntSetArg (i : Z) (v : list Z)
| SetBo (skip : bool) (clone_bo : bo -> Z -> bo) (i : Z) (b : bo)
| SetOffset (off : Z) (v : list Z)
| SetCus (mask : Z)
| Start (submitted : bool)
| Notify (s : Z)
| AddCallback (f : Z)
| PopCallback
| AddToRunlist (n : Z)
| DeviceState (s : Z).   (** the scheduler changes the state of the packet *)

Definition outcome {A} (m : M run exn A) (r : run) : run :=
  match m r with Ok _ r' | Err _ r' => r' end.

Definition call (op : api) (r : run) : run :=
  match op with
  | SetArg i v => outcome (set_arg_at_index i v) r
  | IntSetArg i v => outcome (int_set_arg_at_index i v) r
  | SetBo skip cl i b => outcome (set_arg_bo_at_index skip cl i b) r
  | SetOffset off v => outcome (run_set_offset_value off v) r
  | SetCus mask => outcome (set_cus mask) r
  | Start s => outcome (start s) r
  | Notify s => outcome (on_command (command_notify s)) r
  | AddCallback f => outcome (on_command (add_callback f)) r
  | PopCallback => outcome (on_command pop_callback) r
  | AddToRunlist n => add_runlist n r
  | DeviceState s => outcome (on_packet (upd_header (set_state s))) r
  end.

(** The exception a call throws. *)
Definition thrown {A} (m : M run exn A) (r : run) : option exn :=
  match m r with Ok _ _ => None | Err e _ => Some e end.

Definition call_throws (op : api) (r : run) : option exn :=
  match op with
  | SetArg i v => thrown (set_arg_at_index i v) r
  | IntSetArg i v => thrown (int_set_arg_at_index i v) r
  | SetBo skip cl i b => thrown (set_arg_bo_at_index skip cl i b) r
  | SetOffset off v => thrown (run_set_offset_value off v) r
  | SetCus mask => thrown (set_cus mask) r
  | Start s => thrown (start s) r
  | Notify s => thrown (on_command (command_notify s)) r
  | AddCallback f => thrown (on_command (add_callback f)) r
  | PopCallback => thrown (on_command pop_callback) r
  | AddToRunlist n => None
  | DeviceState s => thrown (on_packet (upd_header (set_state s))) r
  end.

(** Values are bytes, an offset is a [uint32_t]. *)
Definition api_ok (op : api) : Prop :=
  match op with
  | SetArg _ v | IntSetArg _ v => bytes v
  | SetOffset off v => 0 <= off < 2 ^ 32 /\ bytes v
  | _ => True
  end.

Lemma outcome_wp {A} (m : M run exn A) (P : run -> Prop) r :
  wp m (fun _ => P) (fun _ => P) r -> P (outcome m r).
Proof. unfold wp, outcome. by destruct (m r). Qed.

Lemma get_arg_spec {S} i nocheck k (s : S) :
  (exists a, get_arg i nocheck k s = Ok a s /\ a ∈ k_args k /\ zlookup (k_args k) i = Some a) \/
  (exists e, get_arg i nocheck k s = Err e s).
Proof.
  unfold get_arg, at_, bind. destruct (zlookup (k_args k) i) as [a|] eqn:Ha; [|right; by eexists].
  unfold ret, raise. destruct (negb nocheck && _); [right; eexists; reflexivity|]. left. exists a.
  split_and!; [done| |done]. apply zlookup_Some in Ha as [_ Ha]. by eapply list_elem_of_lookup_2.
Qed.

Lemma set_arg_ok i nocheck v r :
  run_ok r -> bytes v ->
  keeps_run r (r0 <- gets id ;; a <- get_arg i nocheck (r_kernel r0) ;; run_set_arg_value a v).
Proof.
  intros H Hv. apply wp_bind, wp_gets. unfold id. apply wp_bind. unfold wp at 1.
  destruct (get_arg_spec i nocheck (r_kernel r) r) as [(a & -> & Hin & _)|[e ->]]; [|done].
  apply run_set_arg_value_ok; [done|by eapply run_arg_ok|done].
Qed.

Lemma group_id_cases {S} i k (s : S) :
  (exists g, group_id i k s = Ok g s) \/ (exists e, group_id i k s = Err e s).
Proof.
  unfold group_id, ret, raise. destruct (_ || _); [right; by eexists|].
  destruct (ipctxs k) as [|ip l]; [right; by eexists|].
  destruct (zlookup (k_args k) i) as [a|]; [|right; by eexists].
  destruct (_ && _); [right|left]; by eexists.
Qed.

Lemma validate_ok skip cl i b r :
  run_ok r -> wp (validate_bo_at_index skip cl i b) (fun _ r' => run_ok r' /\ r_kernel r' = r_kernel r)
    (fun _ r' => run_ok r' /\ r_kernel r' = r_kernel r) r.
Proof.
  intros H. unfold validate_bo_at_index. apply wp_if; intros _; [by apply wp_ret|].
  apply wp_bind. unfold wp at 1.
  destruct (validate_ip_arg_connectivity_spec i (u16 (bo_group b)) r H)
    as [(kept & r1 & -> & _ & H1 & _ & K1 & _)|[[-> _]|[e ->]]]; [|..|done].
  - by apply wp_ret.
  - apply wp_bind, wp_gets. unfold id. apply wp_bind. unfold wp at 1.
    destruct (group_id_cases i (r_kernel r) r) as [[g ->]|[e ->]]; [by apply wp_ret|done].
Qed.

Lemma set_arg_bo_ok skip cl i b r :
  run_ok r -> wp (set_arg_bo_at_index skip cl i b) (fun _ r' => run_ok r' /\ r_kernel r' = r_kernel r)
    (fun _ r' => run_ok r' /\ r_kernel r' = r_kernel r) r.
Proof.
  intros H. unfold set_arg_bo_at_index. apply wp_bind. eapply wp_mono; [by apply validate_ok| |done].
  intros b' r1 [H1 K1]. apply wp_bind, wp_gets. unfold id. apply wp_bind. unfold wp at 1.
  destruct (get_arg_spec i false (r_kernel r1) r1) as [(a & -> & Hin & _)|[e ->]]; [|done].
  eapply wp_mono; [apply run_set_arg_bo_ok; [done|by eapply run_arg_ok]|intros ? ? [? (-> & _)]..]; done.
Qed.

Lemma start_cases s r :
  run_ok r -> exists r1, prepared r r1 /\
    (start s r = Ok tt (set_cmd (set_done false (set_managed (negb (length (c_callbacks (r_cmd r1)) =? 0)%nat)
       (r_cmd r1))) r1) /\ s = true /\ c_done (r_cmd r) = true /\ runlist_counter r = 0 \/
     (exists e r', start s r = Err e r' /\ run_ok r' /\ r_kernel r' = r_kernel r)).
Proof.
  intros H. destruct (prep_start_spec r H) as (r1 & Hrun & Hp). exists r1. split; [done|].
  destruct Hp as (H1 & _ & _ & K1 & _ & _ & _ & D1 & _).
  destruct (start s r) as [[] r2|e r2] eqn:Hst; unfold start, bind at 1, gets, id in Hst;
    destruct (Z.eqb_spec (runlist_counter r) 0) as [Hz|Hz]; cbn [negb] in Hst; try done;
    [|right; exists e, r2; split; [done|]..].
  3: by injection Hst as <- <-.
  all: unfold bind at 1 in Hst; rewrite Hrun in Hst.
  all: unfold on_command, command_run, bind, gets, modify, raise, ret, id in Hst.
  all: rewrite D1 in Hst; destruct (c_done (r_cmd r)) eqn:Hd, s; cbn [negb] in Hst; try done.
  all: injection Hst as <- <- || injection Hst as <-.
  { by left. }
  all: split; [by apply run_ok_command|done].
Qed.

Lemma start_ok s r :
  run_ok r -> wp (start s) (fun _ r' => run_ok r' /\ r_kernel r' = r_kernel r)
    (fun _ r' => run_ok r' /\ r_kernel r' = r_kernel r) r.
Proof.
  intros H. destruct (start_cases s r H) as (r1 & Hp & Hs). unfold wp.
  destruct Hp as (H1 & _ & _ & K1 & _). destruct Hs as [(-> & _)|(e & r' & -> & H2 & K2)]; [|done].
  split; [by apply run_ok_command|done].
Qed.

(** A start that returns. *)
Lemma start_Ok s r r' :
  run_ok r -> start s r = Ok tt r' ->
  run_ok r' /\ encode_cumasks r' = false /\ pkt_state (header (buf r')) = ERT_CMD_STATE_NEW /\
  r_kernel r' = r_kernel r /\ r_ips r' = r_ips r /\ payload r' = payload r /\
  c_done (r_cmd r) = true /\ c_done (r_cmd r') = false /\ runlist_counter r = 0.
Proof.
  intros H Hs. destruct (start_cases s r H) as (r1 & Hp & Hst).
  destruct Hp as (H1 & E1 & S1 & K1 & I1 & P1 & _).
  destruct Hst as [(Hst & _ & Hd & Hl)|(e & r2 & Hst & _)]; [|congruence].
  rewrite Hst in Hs. injection Hs as <-. split_and!; try done. by apply run_ok_command.
Qed.

Lemma on_command_ok {A} (m : M command exn A) r :
  run_ok r -> (forall c, match m c with Ok _ c' | Err _ c' => execbuf c' = execbuf c end) ->
  run_ok (outcome (on_command m) r) /\ r_kernel (outcome (on_command m) r) = r_kernel r.
Proof.
  intros H Hm. specialize (Hm (r_cmd r)). unfold outcome, on_command.
  destruct (m (r_cmd r)); (split; [by apply run_ok_command|done]).
Qed.

Lemma call_ok op r :
  run_ok r -> api_ok op -> run_ok (call op r) /\ r_kernel (call op r) = r_kernel r.
Proof.
  intros H Ho.
  assert (forall A (m : M run exn A), keeps_run r m ->
    run_ok (outcome m r) /\ r_kernel (outcome m r) = r_kernel r) as Hk.
  { intros A m Hm. apply (outcome_wp m (fun r' => run_ok r' /\ r_kernel r' = r_kernel r)).
    eapply wp_mono; [exact Hm|intros ? ? [? (-> & _)]..]; done. }
  destruct op; cbn [call api_ok] in *.
  - by apply Hk, set_arg_ok.
  - by apply Hk, set_arg_ok.
  - apply (outcome_wp _ (fun r' => run_ok r' /\ r_kernel r' = r_kernel r)). by apply set_arg_bo_ok.
  - apply Hk, run_set_offset_value_ok; tauto || lia.
  - destruct (set_cus_spec mask r H) as [(kept & r' & Hrun & H1 & _ & _ & _ & K1 & _)|[Hrun _]];
      unfold outcome; by rewrite Hrun.
  - apply (outcome_wp _ (fun r' => run_ok r' /\ r_kernel r' = r_kernel r)). by apply start_ok.
  - apply on_command_ok; [done|]. intros c. unfold command_notify, bind, gets, id, ret, modify.
    by destruct (_ || _).
  - apply on_command_ok; [done|]. intros c. unfold add_callback, bind, gets, id, ret, modify, raise.
    by destruct (_ && _).
  - apply on_command_ok; [done|]. by intros c.
  - split; [|done]. destruct H as [Hk0 Hf Ht Hp Hdt Hh Hi Hmk Hs He]. by split.
  - pose proof (ro_packet r H) as [_ Hh].
    destruct (run_ok_header r (set_state s (header (buf r))) H) as (H1 & _); [by apply hdr_ok_state|done].
Qed.

(** Runs reachable from a new run of kernel [k].  A call that would write outside the execution buffer
    stops the model there, as any exception does; [call_throws] tells which error a call ends with, and that
    it is never this one is proved of every run that is reachable. *)
Inductive reachable (k : kernel) : run -> Prop :=
| reach_new b r : packet_room b -> run_impl k b = inr r -> reachable k r
| reach_call op r : reachable k r -> api_ok op -> reachable k (call op r).

Lemma reachable_ok k r :
  kernel_ok k -> fits k -> reachable k r -> run_ok r /\ r_kernel r = k.
Proof.
  intros Hk Hf. induction 1 as [b r Hb Hr|op r _ [IH <-] Ho]; [|by apply call_ok].
  destruct (decide (k_type k = kt_none)) as [Ht|Ht].
  - unfold run_impl, initialize_command, bind in Hr.
    pose proof (initialize_command_header_spec k b Hk Hf Hb) as Hw. unfold wp in Hw.
    destruct (initialize_command_header k b); [tauto|done].
  - destruct (run_impl_ok k b Hk Hf Hb Ht) as (r' & Hr' & H & K & _).
    assert (r = r') as -> by congruence. done.
Qed.

(** * Arguments in the payload of a run *)

(** * Register map arguments *)

(** Where an argument lives in the payload. *)
Definition arg_bytes (r : run) (a : kernel_argument) : list Z :=
  bytes_at (buf r) (Z.to_nat (data_byte r + offset a)) (Z.to_nat (size a)).

Definition in_payload (k : kernel) (a : kernel_argument) : Prop :=
  offset a + size a <= payload_bytes k.

#[export] Instance in_payload_dec k a : Decision (in_payload k a).
Proof. unfold in_payload. apply _. Defined.

Definition regs_disjoint (a b : kernel_argument) : Prop :=
  offset a + size a <= offset b \/ offset b + size b <= offset a.

Definition hs_kernel (k : kernel) : Prop := setter_of k = Some HS \/ setter_of k = Some PS.

Lemma payload_bytes_range k : kernel_ok k -> fits k -> 0 <= payload_bytes k <= allocation_size - (4 + 4 * num_cumasks k).
Proof.
  intros [Hn _ _ Hr _] Hf. unfold fits, payload_bytes, allocation_size in *.
  destruct (Z.eqb_spec (k_regmap_size k) 0); lia.
Qed.

Lemma outside_false ps off n : 0 <= ps < 2 ^ 64 -> 0 <= off -> 0 <= n -> off + n <= ps -> outside ps off n = false.
Proof. intros. unfold outside. rewrite u64_small by lia. lia. Qed.

Lemma outside_true ps off n : 0 <= ps < 2 ^ 64 -> 0 <= off -> 0 <= n -> ps < off + n -> outside ps off n = true.
Proof.
  intros. unfold outside. destruct (Z.ltb_spec ps off); [done|]. rewrite u64_small by lia. cbn. lia.
Qed.

Lemma copy_n_ok bs p m :
  0 <= p -> p + Z.of_nat (length bs) <= Z.of_nat (length m) ->
  copy_n bs p m = Ok tt (put_bytes (Z.to_nat p) bs m).
Proof.
  intros Hp Hl. unfold copy_n, bind, gets, id.
  rewrite (proj2 (Z.leb_le _ _) Hp), (proj2 (Z.leb_le _ _) Hl). done.
Qed.

Lemma view_ok p n m :
  0 <= p -> p + n <= Z.of_nat (length m) -> view p n m = Ok (bytes_at m (Z.to_nat p) (Z.to_nat n)) m.
Proof.
  intros Hp Hl. unfold view, bind, gets, id.
  rewrite (proj2 (Z.leb_le _ _) Hp), (proj2 (Z.leb_le _ _) Hl). done.
Qed.

Lemma run_room r : run_ok r -> length (buf r) = Z.to_nat allocation_size /\ bytes (buf r).
Proof. intros H. by destruct (ro_packet r H) as [[? ?] _]. Qed.

Section registers.
Context (r : run) (a : kernel_argument) (v : list Z).
Hypothesis r_ok : run_ok r.
Hypothesis hs : hs_kernel (r_kernel r).
Hypothesis a_ok : arg_ok a.
Hypothesis v_bytes : bytes v.

Let count : Z := Z.min (size a) (Z.of_nat (length v)).

(** Outside the register map: an exception, and the run keeps its packet. *)
Lemma set_arg_value_outside :
  payload_bytes (r_kernel r) < offset a + count ->
  exists r', run_set_arg_value a v r = Err payload_error r' /\ run_ok r' /\ r_cmd r' = r_cmd r.
Proof.
  intros Hout. destruct a_ok as (H1 & H2 & _).
  pose proof (payload_bytes_range _ (ro_kernel r r_ok) (ro_fits r r_ok)). unfold allocation_size in *.
  pose proof (ko_masks _ (ro_kernel r r_ok)).
  destruct (get_arg_setter_ok r r_ok) as (kind & r1 & Hkind & Hrun & H1' & S1 & C1 & D1).
  exists (set_cmd (r_cmd r1) r1). split; [|split; [by apply run_ok_command|done]].
  unfold run_set_arg_value, bind. rewrite Hrun. unfold gets, id. cbn [fst snd].
  assert (setter_set kind (data_byte r1) (payload_bytes (r_kernel r)) a v =
    hs_set_arg_value (data_byte r1) (payload_bytes (r_kernel r)) a v) as ->.
  { destruct hs as [Hh|Hh]; rewrite Hh in Hkind; by injection Hkind as <-. }
  unfold on_packet, on_command, in_execbuf, hs_set_arg_value. fold count.
  rewrite outside_true by lia. unfold raise. by destruct r1, r_cmd.
Qed.

(** Inside: the bytes are copied to the argument's registers. *)
Lemma set_arg_value_inside :
  offset a + count <= payload_bytes (r_kernel r) ->
  exists r', run_set_arg_value a v r = Ok tt r' /\ run_ok r' /\ same_cus r r' /\ data_byte r' = data_byte r /\
    buf r' = put_bytes (Z.to_nat (data_byte r + offset a)) (take (Z.to_nat count) v) (buf r).
Proof.
  intros Hin. destruct a_ok as (H1 & H2 & _).
  pose proof (payload_bytes_range _ (ro_kernel r r_ok) (ro_fits r r_ok)). unfold allocation_size in *.
  pose proof (data_byte_eq r r_ok) as Hd. pose proof (ko_masks _ (ro_kernel r r_ok)).
  destruct (get_arg_setter_ok r r_ok) as (kind & r1 & Hkind & Hrun & H1' & S1 & C1 & D1).
  assert (data_byte r1 = data_byte r) as Hd1 by (unfold data_byte; by rewrite D1).
  pose proof (run_set_arg_value_ok r a v r_ok a_ok v_bytes) as Hw.
  assert (setter_set kind (data_byte r1) (payload_bytes (r_kernel r)) a v (buf r) =
    Ok tt (put_bytes (Z.to_nat (data_byte r + offset a)) (take (Z.to_nat count) v) (buf r))) as Hset.
  { destruct (run_room r r_ok) as [Hl _].
    assert (setter_set kind (data_byte r1) (payload_bytes (r_kernel r)) a v =
      hs_set_arg_value (data_byte r1) (payload_bytes (r_kernel r)) a v) as ->.
    { destruct hs as [Hh|Hh]; rewrite Hh in Hkind; by injection Hkind as <-. }
    unfold hs_set_arg_value. fold count. rewrite outside_false, Hd1 by lia.
    apply copy_n_ok; [lia|]. rewrite Hl, length_take. unfold allocation_size. lia. }
  unfold run_set_arg_value, bind in *. unfold wp in Hw. rewrite Hrun in Hw |- *. unfold gets, id in *.
  cbn [fst snd] in *. unfold on_packet, on_command, in_execbuf in *.
  replace (execbuf (r_cmd r1)) with (buf r) in Hw |- * by (unfold buf; by rewrite C1).
  rewrite Hset in Hw |- *. eexists. split; [done|]. destruct Hw as [Hok Hs]. done.
Qed.

Lemma get_arg_value_inside :
  in_payload (r_kernel r) a ->
  exists r', run_get_arg_value a r = Ok (arg_bytes r a) r' /\ run_ok r' /\ r_cmd r' = r_cmd r.
Proof using r_ok hs a_ok.
  clear count v_bytes v.
  intros Hin. destruct a_ok as (H1 & H2 & _). unfold in_payload in Hin.
  pose proof (payload_bytes_range _ (ro_kernel r r_ok) (ro_fits r r_ok)). unfold allocation_size in *.
  pose proof (data_byte_eq r r_ok) as Hd. pose proof (ko_masks _ (ro_kernel r r_ok)).
  destruct (run_room r r_ok) as [Hl _].
  destruct (get_arg_setter_ok r r_ok) as (kind & r1 & Hkind & Hrun & H1' & S1 & C1 & D1).
  assert (data_byte r1 = data_byte r) as Hd1 by (unfold data_byte; by rewrite D1).
  exists (set_cmd (r_cmd r1) r1). split; [|split; [by apply run_ok_command|done]].
  unfold run_get_arg_value, bind. rewrite Hrun. unfold gets, id. cbn [fst snd].
  assert (setter_get kind (data_byte r1) (payload_bytes (r_kernel r)) a =
    hs_get_arg_value (data_byte r1) (payload_bytes (r_kernel r)) a) as ->.
  { destruct hs as [Hh|Hh]; rewrite Hh in Hkind; by injection Hkind as <-. }
  unfold on_packet, on_command, in_execbuf, hs_get_arg_value. rewrite outside_false by lia.
  rewrite C1. fold (buf r). rewrite view_ok by (rewrite ?Hl, ?Hd1; unfold allocation_size; lia).
  rewrite Hd1. unfold buf. f_equal. rewrite ?C1. by destruct (r_cmd r).
Qed.
End registers.

(** What a write to one argument leaves of another. *)
Lemma arg_bytes_frame r r' a b bs :
  data_byte r' = data_byte r -> 0 <= data_byte r -> arg_ok a -> arg_ok b ->
  (Z.to_nat (data_byte r + offset a) + length bs <= length (buf r))%nat ->
  Z.of_nat (length bs) <= size a -> regs_disjoint a b ->
  buf r' = put_bytes (Z.to_nat (data_byte r + offset a)) bs (buf r) ->
  arg_bytes r' b = arg_bytes r b.
Proof.
  intros Hd H0 (Ha & Ha' & _) (Hb & Hb' & _) Hl Hs Hdis Hbuf. unfold arg_bytes, regs_disjoint in *.
  rewrite Hbuf, Hd. apply bytes_at_frame; [done|]. lia.
Qed.

(** * Clones *)

(** A clone has the packet of its origin, in state NEW, on its own buffer. *)
Lemma clone_run_ok r b :
  run_ok r -> packet_room b -> k_regmap_size (r_kernel r) <> 0 ->
  exists r', clone_run r b = inr r' /\ run_ok r' /\ r_kernel r' = r_kernel r /\ r_ips r' = r_ips r /\
    c_done (r_cmd r') = true /\ pkt_state (header (buf r')) = ERT_CMD_STATE_NEW /\
    data_byte r' = data_byte r /\ runlist_counter r' = 0 /\
    forall a, arg_ok a -> in_payload (r_kernel r) a -> arg_bytes r' a = arg_bytes r a.
Proof.
  intros H Hb Hreg. pose proof (ro_kernel r H) as Hk. pose proof (ko_masks _ Hk).
  pose proof (ko_regmap _ Hk). pose proof (ro_fits r H) as Hf. pose proof (data_byte_eq r H) as Hd.
  destruct (ro_packet r H) as [[Hl Hm] Hh]. pose proof Hh as (Hr & _ & _ & Hc & _).
  unfold fits, allocation_size in *. set (n := Z.to_nat (4 * pkt_count (header (buf r)))).
  destruct (upd_header_ok (fun _ => header (buf r)) b Hb) as (b1 & Hrun1 & P1 & Hh1); [done|].
  pose proof (room_agree _ _ _ _ Hb P1) as R1.
  destruct (upd_header_ok (set_state ERT_CMD_STATE_NEW) b1 R1) as (b2 & Hrun2 & P2 & Hh2).
  { rewrite Hh1. apply set_field_range; done || lia. }
  pose proof (room_agree _ _ _ _ R1 P2) as [L2 B2]. unfold allocation_size in *.
  assert (length (bytes_at (buf r) 4 n) = n) as Hn.
  { apply length_bytes_at. subst n. fold (buf r) in Hl, Hc. rewrite Hl, Hc. lia. }
  assert (4 + n <= length b2)%nat as Hfit by (subst n; fold (buf r) in Hc; rewrite L2, Hc; lia).
  set (b3 := put_bytes 4 (bytes_at (buf r) 4 n) b2).
  assert (clone_command_data (buf r) b = Ok tt b3) as Hrun.
  { unfold clone_command_data, bind. rewrite Hrun1, Hrun2. fold n. rewrite copy_n_ok by lia. done. }
  assert (header b3 = set_state ERT_CMD_STATE_NEW (header (buf r))) as Hh3.
  { unfold header, b3. rewrite word_at_put_bytes_frame by lia. fold (header b2). by rewrite Hh2, Hh1. }
  assert (forall p q, (4 <= p)%nat -> (p + q <= 4 + n)%nat -> bytes_at b3 p q = bytes_at (buf r) p q) as Hcopy.
  { intros p q Hp Hq. apply list_eq. intros i. rewrite !lookup_bytes_at. case_decide; [|done].
    unfold b3. rewrite lookup_put_bytes, lookup_bytes_at by lia. repeat (case_decide; [|lia]).
    f_equal. lia. }
  assert (forall p, (4 <= p)%nat -> (p + 4 <= 4 + n)%nat -> word_at b3 p = word_at (buf r) p) as Hword.
  { intros p Hp Hq. unfold b3. replace p with (4 + (p - 4))%nat by lia.
    rewrite word_at_put_bytes by lia. unfold word_at, byte_at. rewrite !lookup_bytes_at.
    repeat (case_decide; [|lia]). repeat f_equal; lia. }
  assert (Z.of_nat n = 4 * (num_cumasks (r_kernel r) + k_regmap_size (r_kernel r))) as Hnz
    by (subst n; fold (buf r) in Hc; rewrite Hc; lia).
  unfold clone_run. fold (buf r). rewrite Hrun. eexists. split; [done|]. split_and!; try done.
  - destruct H as [_ _ Ht _ Hdt Hhd Hi Hmk Hs He]. split; cbn; try done; [|by left|].
    + split; [|rewrite Hh3; by apply hdr_ok_state]. unfold b3. split.
      * rewrite length_put_bytes. done.
      * apply bytes_put_bytes; [lia|by apply bytes_bytes_at|done].
    + intros Henc w Hw. rewrite Hword by lia. by apply He.
  - change (header (buf _)) with (header b3). rewrite Hh3. unfold ERT_CMD_STATE_NEW. by fields.
  - intros a (Ho & Hsz & _) Hin. unfold in_payload, payload_bytes in Hin.
    rewrite (proj2 (Z.eqb_neq _ _) Hreg) in Hin. unfold arg_bytes.
    change (data_byte (Run _ _ _ _ _ _ _ _ _)) with (data_byte r).
    change (buf (Run _ _ _ _ _ _ _ _ _)) with b3. apply Hcopy; lia.
Qed.
