(* ===== verification/XrtFa.v ===== *)
(** The fast adapter descriptor: with argument sizes that are multiples of a
    word, [amend_fa_args] lays the descriptor entries out one after the other,
    inputs first, and the register map is exactly the descriptor; setting an
    argument then writes its entry and no other. *)

From Stdlib Require Import Sorting.Permutation.
From S2P Require Import Prelude Bytes CppStd XclbinXml XrtKernel XrtRun XrtPacket XrtInvariant XrtPreserve XrtStart.

(** * Pairwise relations *)

Fixpoint pairwise {A} (R : A -> A -> Prop) (l : list A) : Prop :=
  match l with [] => True | x :: l' => Forall (R x) l' /\ pairwise R l' end.

Lemma pairwise_perm {A} (R : A -> A -> Prop) l l' :
  (forall x y, R x y -> R y x) -> l ≡ₚ l' -> pairwise R l -> pairwise R l'.
Proof.
  intros Hsym. induction 1 as [|x l l' Hp IH|x y l|l1 l2 l3 _ IH1 _ IH2]; cbn; [done|..].
  - intros [Hf Hl]. split; [by rewrite <- Hp|auto].
  - intros [Hf [Hg Hl]]. inversion Hf as [|? ? Hyx Hf']; subst. split; [constructor; auto|by split].
  - auto.
Qed.

Lemma pairwise_lookup {A} (R : A -> A -> Prop) l i j x y :
  (forall x y, R x y -> R y x) -> pairwise R l -> l !! i = Some x -> l !! j = Some y -> i <> j -> R x y.
Proof.
  intros Hsym. revert i j. induction l as [|z l IH]; intros i j Hl Hi Hj Hne; [done|].
  destruct Hl as [Hf Hl]. destruct i as [|i], j as [|j]; cbn in Hi, Hj; [done|..].
  - injection Hi as <-. by eapply (Forall_lookup_1 _ _ _ _ Hf).
  - injection Hj as <-. apply Hsym. by eapply (Forall_lookup_1 _ _ _ _ Hf).
  - eapply IH; [done..|congruence].
Qed.

(** * Layout *)

Definition entry_size (a : kernel_argument) : Z := size a + sizeof_fa_desc_entry.
Fixpoint entries_size (l : list kernel_argument) : Z :=
  match l with [] => 0 | a :: l' => entry_size a + entries_size l' end.

(** Consecutive entries from [o] on. *)
Fixpoint place (o : Z) (l : list kernel_argument) : list kernel_argument :=
  match l with
  | [] => []
  | a :: l' => set_fa_desc_offset o a :: place (o + entry_size a) l'
  end.

Definition apart_entries (a b : kernel_argument) : Prop :=
  fa_desc_offset a + entry_size a <= fa_desc_offset b \/ fa_desc_offset b + entry_size b <= fa_desc_offset a.

Definition whole_words (a : kernel_argument) : Prop := 0 <= size a /\ size a mod 4 = 0.

Lemma entries_size_app l l' : entries_size (l ++ l') = entries_size l + entries_size l'.
Proof. induction l as [|a l IH]; cbn [app entries_size]; [done|]. rewrite IH. lia. Qed.

Lemma entries_size_nonneg l : Forall whole_words l -> 0 <= entries_size l.
Proof.
  induction 1 as [|a l [Ha _] _ IH]; cbn [entries_size]; [done|].
  unfold entry_size, sizeof_fa_desc_entry in *. lia.
Qed.

Lemma place_app o l l' : place o (l ++ l') = place o l ++ place (o + entries_size l) l'.
Proof.
  revert o. induction l as [|a l IH]; intros o; cbn [app place entries_size].
  - by replace (o + 0) with o by lia.
  - by rewrite IH, Z.add_assoc.
Qed.

Ltac chosen := cbn; first [exact I | intros []].

(** One pass places the selected arguments and leaves the others. *)
Lemma fa_pass_place (sel : kernel_argument -> bool) o l l' n b o' :
  (forall o a, sel (set_fa_desc_offset o a) = sel a) ->
  0 <= o -> o + entries_size (filter sel l) < 2 ^ 64 -> Forall whole_words l ->
  fa_pass sel o l = (l', n, b, o') ->
  filter sel l' = place o (filter sel l) /\
  filter (fun a => negb (sel a)) l' = filter (fun a => negb (sel a)) l /\
  o' = o + entries_size (filter sel l) /\ l' ≡ₚ filter sel l' ++ filter (fun a => negb (sel a)) l'.
Proof.
  intros Hsel. revert o l' n b o'.
  induction l as [|a l IH]; intros o l' n b o' Ho Hs Hw Hp; cbn [fa_pass] in Hp.
  { injection Hp as <- <- <- <-. cbn. split_and!; [done..|lia|done]. }
  inversion Hw as [|? ? [Ha Ha4] Hw']; subst.
  assert (Forall whole_words (filter (fun a => sel a) l)) as Hwf.
  { apply Forall_forall. intros x Hx. apply list_elem_of_filter in Hx as [_ Hx].
    by apply (proj1 (Forall_forall _ _) Hw'). }
  pose proof (entries_size_nonneg _ Hwf). destruct (sel a) eqn:Hsa.
  - rewrite filter_cons_True in Hs |- * by (rewrite Hsa; chosen).
    cbn [entries_size place] in *.
    unfold entry_size in Hs. rewrite u64_small in Hp by (unfold sizeof_fa_desc_entry in *; lia).
    destruct (fa_pass sel _ l) as [[[r n1] b1] o1] eqn:Hr. injection Hp as <- <- <- <-.
    destruct (fun A B => IH _ _ _ _ _ A B Hw' Hr) as (H1 & H2 & H3 & H4);
      [unfold sizeof_fa_desc_entry in *; lia..|].
    rewrite (filter_cons_True _ (set_fa_desc_offset o a)) by (rewrite Hsel, Hsa; chosen).
    rewrite (filter_cons_False (fun a => negb (sel a))) by (rewrite Hsel, Hsa; chosen).
    rewrite (filter_cons_False (fun a => negb (sel a))) by (rewrite Hsa; chosen).
    split_and!; [by rewrite H1|done|unfold entry_size; lia|]. cbn. by rewrite <- H4.
  - rewrite filter_cons_False in Hs |- * by (rewrite Hsa; chosen).
    destruct (fa_pass sel o l) as [[[r n1] b1] o1] eqn:Hr. injection Hp as <- <- <- <-.
    destruct (IH _ _ _ _ _ Ho Hs Hw' Hr) as (H1 & H2 & H3 & H4).
    rewrite (filter_cons_False (fun a => sel a)) by (rewrite Hsa; chosen).
    rewrite !(filter_cons_True (fun a => negb (sel a))) by (rewrite Hsa; chosen).
    split_and!; [done|by rewrite H2|done|]. rewrite <- Permutation_middle. by rewrite <- H4.
Qed.

Lemma place_offsets o l a :
  Forall whole_words l -> a ∈ place o l ->
  o <= fa_desc_offset a /\ fa_desc_offset a + entry_size a <= o + entries_size l /\
  (o mod 4 = 0 -> fa_desc_offset a mod 4 = 0) /\ whole_words a.
Proof.
  intros Hw. revert o. induction Hw as [|b l [Hb Hb4] Hw IH]; intros o Ha; cbn [place] in Ha; [set_solver|].
  pose proof (entries_size_nonneg l Hw). cbn [entries_size].
  unfold entry_size, sizeof_fa_desc_entry in *. apply elem_of_cons in Ha as [->|Ha].
  - cbn. unfold whole_words. cbn. lia.
  - destruct (IH _ Ha) as (H1 & H2 & H3 & H4). split_and!; [lia|lia| |done..].
    intros Ho. apply H3. clear -Ho Hb4. Z.div_mod_to_equations. lia.
Qed.

Lemma place_apart o l : Forall whole_words l -> pairwise apart_entries (place o l).
Proof.
  intros Hw. revert o. induction Hw as [|a l Ha Hw IH]; intros o; cbn; [done|]. split; [|apply IH].
  apply Forall_forall. intros b Hb. left. cbn. by apply place_offsets in Hb as (H & _).
Qed.

(** The arguments of a fast adapter kernel after [amend_fa_args]. *)
Definition fa_layout (k : kernel) : Prop :=
  payload_bytes k <= allocation_size - (4 + 4 * num_cumasks k) /\ pairwise apart_entries (k_args k) /\
  Forall (fun a => whole_words a /\ 0 <= fa_desc_offset a /\ fa_desc_offset a mod 4 = 0 /\
    sizeof_fa_descriptor + fa_desc_offset a + entry_size a <= payload_bytes k) (k_args k).

Lemma amend_fa_args_layout k k' :
  Forall whole_words (k_args k) -> sizeof_fa_descriptor + entries_size (k_args k) < 2 ^ 64 ->
  amend_fa_args k = Ok tt k' -> kernel_ok k' -> fits k' -> fa_layout k'.
Proof.
  intros Hw Hs Hrun Hok Hfit. unfold amend_fa_args, bind, gets, id in Hrun.
  destruct (length (k_args k) =? 0)%nat eqn:Hz; [done|]. apply Nat.eqb_neq in Hz.
  set (args := take (length (k_args k) - 1) (k_args k)) in *.
  assert (Forall whole_words args) as Hwa by by apply Forall_take.
  assert (entries_size args <= entries_size (k_args k)) as Hle.
  { pose proof (take_drop (length (k_args k) - 1) (k_args k)) as Htd. fold args in Htd.
    pose proof (entries_size_app args (drop (length (k_args k) - 1) (k_args k))) as Happ.
    pose proof (entries_size_nonneg (drop (length (k_args k) - 1) (k_args k)) ltac:(by apply Forall_drop)).
    rewrite Htd in Happ. lia. }
  destruct (fa_pass is_input 0 args) as [[[a1 ni] bi] o1] eqn:P1.
  destruct (fa_pass is_output o1 a1) as [[[a2 no] bo] o2] eqn:P2.
  unfold modify in Hrun. injection Hrun as <-.
  assert (forall f : kernel_argument -> bool, Forall whole_words (filter f args)) as Hwf.
  { intros f. apply Forall_forall. intros x Hx. apply list_elem_of_filter in Hx as [_ Hx].
    by apply (proj1 (Forall_forall _ _) Hwa). }
  assert (entries_size (filter is_input args) + entries_size (filter is_output args) = entries_size args) as Hsum.
  { clear. induction args as [|a l IH]; [done|]. destruct (dir_output a) eqn:Hd.
    - rewrite (filter_cons_False is_input), (filter_cons_True is_output) by (unfold is_input, is_output; rewrite Hd; chosen).
      cbn [entries_size]. lia.
    - rewrite (filter_cons_True is_input), (filter_cons_False is_output) by (unfold is_input, is_output; rewrite Hd; chosen).
      cbn [entries_size]. lia. }
  pose proof (entries_size_nonneg _ (Hwf is_input)). pose proof (entries_size_nonneg _ (Hwf is_output)).
  unfold sizeof_fa_descriptor in *.
  destruct (fa_pass_place is_input 0 args a1 ni bi o1) as (F1 & N1 & -> & E1); [done|lia..|done|done|].
  assert (Forall whole_words a1) as Hw1.
  { apply Forall_forall. intros x. rewrite E1, elem_of_app, F1, N1. intros [Hx|Hx].
    - by eapply place_offsets in Hx as (_ & _ & _ & ?).
    - apply list_elem_of_filter in Hx as [_ Hx]. by apply (proj1 (Forall_forall _ _) Hwa). }
  assert (filter is_output a1 = filter is_output args) as Ho1.
  { rewrite <- (list_filter_iff (fun a => negb (is_input a)) is_output a1), N1.
    - apply list_filter_iff. intros a. unfold is_input. by rewrite negb_involutive.
    - intros a. unfold is_input. by rewrite negb_involutive. }
  rewrite Z.add_0_l in P2.
  destruct (fa_pass_place is_output (entries_size (filter is_input args)) a1 a2 no bo o2)
    as (F2 & N2 & -> & E2); [done|lia|rewrite Ho1; lia|done|done|].
  rewrite Ho1 in *.
  assert (a2 ≡ₚ place 0 (filter is_input args ++ filter is_output args)) as Hperm.
  { rewrite place_app, E2, Permutation_app_comm, F2. f_equiv; [by rewrite N2, <- F1|by rewrite Z.add_0_l]. }
  rewrite Z.add_assoc in *. rewrite u64_small in * by lia.
  assert (Forall whole_words (filter is_input args ++ filter is_output args)) as Hwio by by apply Forall_app.
  assert (entries_size args mod 4 = 0) as H4.
  { clear -Hwa. induction Hwa as [|a l [_ Ha] _ IH]; cbn [entries_size]; [done|].
    unfold entry_size, sizeof_fa_desc_entry. Z.div_mod_to_equations. lia. }
  set (k' := set_fa _ _ _ _ _ _ _) in *.
  assert (payload_bytes k' = 20 + entries_size args) as Hpay.
  { unfold payload_bytes. change (k_regmap_size k') with ((20 + entries_size (filter is_input args) + entries_size (filter is_output args)) / 4).
    replace (20 + entries_size (filter is_input args) + entries_size (filter is_output args))
      with (20 + entries_size args) by lia.
    destruct (Z.eqb_spec ((20 + entries_size args) / 4) 0); Z.div_mod_to_equations; lia. }
  split; [by apply payload_bytes_range|]. split.
  - eapply pairwise_perm; [|symmetry; exact Hperm|by apply place_apart]. unfold apart_entries. tauto.
  - change (k_args k') with a2. apply Forall_forall. intros a Ha. rewrite Hperm in Ha.
    destruct (place_offsets _ _ _ Hwio Ha) as (O1 & O2 & O3 & O4). rewrite entries_size_app in O2.
    rewrite Hpay. split_and!; [done|lia|by apply O3|unfold sizeof_fa_descriptor; lia].
Qed.

(** * Setting an argument *)

(** The entry of an argument in the execution buffer, and the value in it. *)
Definition entry_pos (r : run) (a : kernel_argument) : nat :=
  Z.to_nat (data_byte r + sizeof_fa_descriptor + fa_desc_offset a).
Definition fa_value (r : run) (a : kernel_argument) : list Z :=
  bytes_at (buf r) (entry_pos r a + 8) (Z.to_nat (size a)).

Lemma fa_offset_words a : fa_desc_offset a mod 4 = 0 -> fa_offset a = fa_desc_offset a.
Proof. intros H. unfold fa_offset. Z.div_mod_to_equations. lia. Qed.

Section entries.
Context (r : run) (a : kernel_argument).
Hypothesis r_ok : run_ok r.
Hypothesis fa : setter_of (r_kernel r) = Some FA.
Hypothesis layout : fa_layout (r_kernel r).
Hypothesis a_arg : a ∈ k_args (r_kernel r).

Lemma entry_facts :
  whole_words a /\ fa_offset a = fa_desc_offset a /\ 0 <= fa_desc_offset a /\
  fa_outside (payload_bytes (r_kernel r)) a = false /\
  data_byte r + sizeof_fa_descriptor + fa_desc_offset a + entry_size a <= Z.of_nat (length (buf r)) /\
  0 <= data_byte r.
Proof.
  destruct layout as (Hp & _ & Hl). apply (proj1 (Forall_forall _ _) Hl) in a_arg as (Hw & H0 & H4 & He).
  pose proof (data_byte_eq r r_ok) as Hd. pose proof (ko_masks _ (ro_kernel r r_ok)).
  destruct (run_room r r_ok) as [-> _]. pose proof (fa_offset_words a H4) as Hf. pose proof Hw as [Hs _].
  unfold entry_size, sizeof_fa_desc_entry, sizeof_fa_descriptor, allocation_size in *.
  split_and!; try done; try lia. unfold fa_outside. rewrite Hf.
  unfold sizeof_fa_descriptor, sizeof_fa_desc_entry. rewrite !u64_small by lia. lia.
Qed.

Lemma fa_get :
  exists r', run_get_arg_value a r = Ok (fa_value r a) r' /\ run_ok r' /\ r_cmd r' = r_cmd r.
Proof.
  destruct entry_facts as ([Hs _] & Hf & H0 & Ho & He & Hd0).
  destruct (get_arg_setter_ok r r_ok) as (kind & r1 & Hkind & Hrun & H1' & S1 & C1 & D1).
  assert (kind = FA) as -> by congruence.
  assert (data_byte r1 = data_byte r) as Hd1 by (unfold data_byte; by rewrite D1).
  exists (set_cmd (r_cmd r1) r1). split; [|split; [by apply run_ok_command|done]].
  unfold run_get_arg_value, bind. rewrite Hrun. unfold gets, id. cbn [fst snd setter_get].
  unfold on_packet, on_command, in_execbuf, fa_get_arg_value. rewrite Ho, C1, Hd1, Hf. fold (buf r).
  unfold entry_size, sizeof_fa_desc_entry, sizeof_fa_descriptor in *.
  rewrite view_ok by lia. unfold fa_value, entry_pos, sizeof_fa_descriptor.
  replace (Z.to_nat (data_byte r + 20 + fa_desc_offset a + 8))
    with (Z.to_nat (data_byte r + 20 + fa_desc_offset a) + 8)%nat by lia.
  f_equal. unfold buf. f_equal. by destruct (r_cmd r).
Qed.

Lemma fa_set v :
  bytes v -> Z.of_nat (length v) = size a ->
  exists r', run_set_arg_value a v r = Ok tt r' /\ run_ok r' /\ same_cus r r' /\
    data_byte r' = data_byte r /\
    buf r' = put_bytes (entry_pos r a) (le_bytes 4 (offset a) ++ le_bytes 4 (size a) ++ v) (buf r).
Proof.
  intros Hv Hl. destruct entry_facts as ([Hs _] & Hf & H0 & Ho & He & Hd0).
  pose proof (run_set_arg_value_ok r a v r_ok (run_arg_ok r a r_ok a_arg) Hv) as Hw.
  destruct (get_arg_setter_ok r r_ok) as (kind & r1 & Hkind & Hrun & H1' & S1 & C1 & D1).
  assert (kind = FA) as -> by congruence.
  assert (data_byte r1 = data_byte r) as Hd1 by (unfold data_byte; by rewrite D1).
  assert (fa_set_arg_value (data_byte r) (payload_bytes (r_kernel r)) a v (buf r) =
    Ok tt (put_bytes (entry_pos r a) (le_bytes 4 (offset a) ++ le_bytes 4 (size a) ++ v) (buf r))) as Hset.
  { unfold fa_set_arg_value, entry_size, entry_pos, sizeof_fa_desc_entry, sizeof_fa_descriptor in *.
    rewrite Ho, Hf. rewrite Z.min_l, take_ge by lia. unfold bind.
    rewrite copy_n_ok by (rewrite ?length_le_bytes; lia).
    rewrite copy_n_ok by (rewrite ?length_put_bytes, ?length_le_bytes; lia).
    rewrite copy_n_ok by (rewrite ?length_put_bytes, ?length_le_bytes; lia).
    rewrite !put_bytes_app by (rewrite ?length_app, ?length_put_bytes, ?length_le_bytes; lia).
    rewrite !length_le_bytes. do 2 f_equal; [lia|]. f_equal. lia. }
  unfold run_set_arg_value, bind in *. unfold wp in Hw. rewrite Hrun in Hw |- *. unfold gets, id in *.
  cbn [fst snd setter_set] in *. unfold on_packet, on_command, in_execbuf in *.
  replace (execbuf (r_cmd r1)) with (buf r) in Hw |- * by (unfold buf; by rewrite C1).
  rewrite Hd1, Hset in Hw |- *. eexists. split; [done|]. destruct Hw as [Hok Hsm]. done.
Qed.
End entries.
