(* ===== verification/XrtTheorems.v ===== *)
(** Properties of kernels and runs: the command packet is well formed in every
    reachable state, an argument set is the argument the device sees, a command
    starts only on CUs connected to its buffers, clones carry the arguments. *)

From S2P Require Import Prelude Bytes CppStd XclbinXml XrtKernel XrtRun XrtPacket XrtInvariant XrtPreserve XrtStart XrtFa.

(** Bit [cu] of the CU masks of a packet. *)
Definition mask_bit (m : list Z) (cu : Z) : bool :=
  Z.testbit (word_at m (Z.to_nat (4 + 4 * (cu / 32)))) (cu mod 32).

Lemma mask_bit_iff r cu :
  run_ok r -> encode_cumasks r = false -> 0 <= cu < 32 * num_cumasks (r_kernel r) ->
  mask_bit (buf r) cu = true <-> exists ip, ip ∈ r_ips r /\ ip_cuidx ip = cu.
Proof.
  intros H He Hcu. unfold mask_bit. rewrite (masks_hold_bit _ _ _ _ (ro_encoded r H He)) by done.
  rewrite (ro_mask r H). apply testbit_mask_of; [|lia].
  eapply Forall_impl; [by apply run_ips_range|]. cbn. lia.
Qed.

(** * Writes stay in the execution buffer *)

(** A routine that does not write outside the buffer. *)
Definition in_bounds {S A} (m : M S exn A) (s : S) : Prop :=
  wp m (fun _ _ => True) (fun e _ => e <> bad_write) s.

Lemma in_bounds_thrown {A} (m : M run exn A) r : in_bounds m r -> thrown m r <> Some bad_write.
Proof. unfold in_bounds, wp, thrown. destruct (m r); congruence. Qed.

Lemma in_bounds_copy_n bs p m :
  0 <= p -> p + Z.of_nat (length bs) <= Z.of_nat (length m) ->
  wp (copy_n bs p) (fun _ m' => length m' = length m) (fun e _ => e <> bad_write) m.
Proof. intros H1 H2. unfold wp. rewrite copy_n_ok by done. apply length_put_bytes. Qed.

Section bounds.
Context (r : run) (r_ok : run_ok r).
Context (fa : setter_of (r_kernel r) = Some FA -> fa_layout (r_kernel r)).
Implicit Types (a : kernel_argument).

Lemma in_bounds_hs a v m :
  arg_ok a -> length m = Z.to_nat allocation_size ->
  in_bounds (hs_set_arg_value (data_byte r) (payload_bytes (r_kernel r)) a v) m.
Proof.
  intros (Ho & Hs & _) Hm. pose proof (data_byte_eq r r_ok) as Hd. pose proof (ko_masks _ (ro_kernel r r_ok)).
  pose proof (payload_bytes_range _ (ro_kernel r r_ok) (ro_fits r r_ok)) as Hp. unfold allocation_size in *.
  unfold in_bounds, hs_set_arg_value. apply wp_if; intros Hout; [by apply wp_raise|].
  eapply wp_mono; [apply in_bounds_copy_n; [lia|]|done..]. rewrite length_take.
  destruct (Z.leb_spec (offset a + Z.min (size a) (Z.of_nat (length v))) (payload_bytes (r_kernel r))); [lia|].
  rewrite outside_true in Hout by lia. done.
Qed.

Lemma in_bounds_fa a v m :
  setter_of (r_kernel r) = Some FA -> a ∈ k_args (r_kernel r) -> length m = Z.to_nat allocation_size ->
  in_bounds (fa_set_arg_value (data_byte r) (payload_bytes (r_kernel r)) a v) m.
Proof.
  intros Hfa Ha Hm. destruct (entry_facts r a r_ok (fa Hfa) Ha) as ([Hs _] & Hf & H0 & Ho & He & Hd0).
  destruct (run_room r r_ok) as [Hl _]. rewrite Hl in He.
  unfold entry_size, sizeof_fa_desc_entry, sizeof_fa_descriptor in *.
  unfold in_bounds, fa_set_arg_value. rewrite Ho, Hf. unfold sizeof_fa_descriptor.
  apply wp_bind. eapply wp_mono; [apply in_bounds_copy_n; rewrite ?length_le_bytes; lia| |done].
  intros [] m1 L1. apply wp_bind. eapply wp_mono; [apply in_bounds_copy_n; rewrite ?length_le_bytes; lia| |done].
  intros [] m2 L2. eapply wp_mono; [apply in_bounds_copy_n; rewrite ?length_take; lia|done..].
Qed.

Lemma in_bounds_setter kind a v m :
  setter_of (r_kernel r) = Some kind -> a ∈ k_args (r_kernel r) -> length m = Z.to_nat allocation_size ->
  in_bounds (setter_set kind (data_byte r) (payload_bytes (r_kernel r)) a v) m.
Proof.
  intros Hk Ha Hm. pose proof (run_arg_ok r a r_ok Ha). destruct kind; [by apply in_bounds_hs| |by apply in_bounds_hs].
  by apply in_bounds_fa.
Qed.

Lemma in_bounds_setter_bo kind a b m :
  setter_of (r_kernel r) = Some kind -> a ∈ k_args (r_kernel r) -> length m = Z.to_nat allocation_size ->
  in_bounds (setter_set_bo kind (data_byte r) (payload_bytes (r_kernel r)) a b) m.
Proof.
  intros Hk Ha Hm. destruct kind; [by apply (in_bounds_setter HS)|by apply (in_bounds_setter FA)|].
  by apply (in_bounds_setter PS).
Qed.

Lemma in_bounds_setter_offset kind off v m :
  0 <= off < 2 ^ 32 -> length m = Z.to_nat allocation_size ->
  in_bounds (setter_set_offset kind (data_byte r) (payload_bytes (r_kernel r)) off v) m.
Proof.
  intros Ho Hm. assert (in_bounds (hs_set_offset_value (data_byte r) (payload_bytes (r_kernel r)) off v) m) as H;
    [|destruct kind; [done|by apply wp_raise|done]].
  pose proof (data_byte_eq r r_ok) as Hd. pose proof (ko_masks _ (ro_kernel r r_ok)).
  pose proof (payload_bytes_range _ (ro_kernel r r_ok) (ro_fits r r_ok)) as Hp. unfold allocation_size in *.
  unfold in_bounds, hs_set_offset_value. apply wp_if; intros Hout; [by apply wp_raise|].
  eapply wp_mono; [apply in_bounds_copy_n; [lia|]|done..]. rewrite length_take.
  destruct (Z.leb_spec (off + Z.min 4 (Z.of_nat (length v))) (payload_bytes (r_kernel r))); [lia|].
  rewrite outside_true in Hout by lia. done.
Qed.

(** A routine over the setter of the run. *)
Lemma in_bounds_with_setter {A} (f : setter_kind * Z -> Z -> packet A) :
  (forall kind, setter_of (r_kernel r) = Some kind ->
     in_bounds (f (kind, payload_bytes (r_kernel r)) (data_byte r)) (buf r)) ->
  in_bounds (s <- get_arg_setter ;; r' <- gets id ;; on_packet (f s (data_byte r'))) r.
Proof.
  intros Hf. destruct (get_arg_setter_ok r r_ok) as (kind & r1 & Hk & Hrun & _ & _ & C1 & D1).
  unfold in_bounds. apply wp_bind. unfold wp at 1. rewrite Hrun. apply wp_bind, wp_gets. unfold id.
  assert (data_byte r1 = data_byte r) as -> by (unfold data_byte; by rewrite D1).
  apply wp_on_packet. rewrite C1. exact (Hf kind Hk).
Qed.

Lemma in_bounds_set_arg_bo a b : a ∈ k_args (r_kernel r) -> in_bounds (run_set_arg_bo a b) r.
Proof.
  intros Ha. destruct (run_room r r_ok) as [Hl _].
  pose proof (in_bounds_with_setter (fun s d => setter_set_bo (fst s) d (snd s) a b)
    (fun kind Hk => in_bounds_setter_bo kind a b (buf r) Hk Ha Hl)) as H.
  revert H. unfold in_bounds, run_set_arg_bo, wp, bind, gets, id. destruct (get_arg_setter r) as [s r1|e r1]; [|done].
  destruct (on_packet _ r1); done.
Qed.

Lemma in_bounds_set_arg i nocheck v :
  in_bounds (r0 <- gets id ;; a <- get_arg i nocheck (r_kernel r0) ;; run_set_arg_value a v) r.
Proof.
  destruct (run_room r r_ok) as [Hl _]. unfold in_bounds. apply wp_bind, wp_gets. unfold id. apply wp_bind.
  assert (in_bounds (get_arg i nocheck (r_kernel r)) r) as Hg
    by (unfold in_bounds, get_arg, at_; wps; by destruct (zlookup _ _); wps).
  destruct (get_arg_spec i nocheck (r_kernel r) r) as [(a & Ha & Hin & _)|[e He]].
  - unfold wp at 1. rewrite Ha. apply (in_bounds_with_setter (fun s d => setter_set (fst s) d (snd s) a v)).
    intros kind Hk. by apply in_bounds_setter.
  - unfold wp at 1. unfold in_bounds, wp in Hg. by rewrite He in Hg |- *.
Qed.
End bounds.

Lemma in_bounds_filter {S A} (p : A -> M S exn bool) l s :
  (forall x, wp (p x) (fun _ s' => s' = s) (fun e _ => e <> bad_write) s) ->
  wp (filter_m p l) (fun _ s' => s' = s) (fun e _ => e <> bad_write) s.
Proof.
  intros Hp. induction l as [|x l IH]; cbn [filter_m]; [by apply wp_ret|]. apply wp_bind.
  eapply wp_mono; [apply Hp| |done]. intros b s' ->. apply wp_bind. eapply wp_mono; [apply IH| |done].
  intros l' s' ->. by apply wp_ret.
Qed.

Lemma in_bounds_validate skip cl i b r :
  wp (validate_bo_at_index skip cl i b) (fun _ _ => True) (fun e _ => e <> bad_write) r.
Proof.
  unfold validate_bo_at_index, validate_ip_arg_connectivity. wps; try done; unfold id.
  eapply wp_mono; [apply in_bounds_filter| |done].
  { intros ip. unfold valid_connection, valid_arg_connection, bitset_pos, at_.
    destruct (zlookup (connections (ip_args ip)) i); wps; try done.
    destruct (zlookup (ip_encoding ip) _); wps; done. }
  intros kept r' ->. unfold group_id. wps; try done.
  repeat case_match; wps; done.
Qed.

Lemma in_bounds_set_bo skip cl i b r :
  run_ok r -> (setter_of (r_kernel r) = Some FA -> fa_layout (r_kernel r)) ->
  in_bounds (set_arg_bo_at_index skip cl i b) r.
Proof.
  intros H Hfa. unfold in_bounds, set_arg_bo_at_index. apply wp_bind.
  pose proof (in_bounds_validate skip cl i b r) as Hv. pose proof (validate_ok skip cl i b r H) as Hk.
  unfold wp at 1. unfold wp in Hv, Hk. destruct (validate_bo_at_index skip cl i b r) as [b' r1|e r1]; [|done].
  destruct Hk as [H1 K1]. apply wp_bind, wp_gets. unfold id. apply wp_bind.
  destruct (get_arg_spec i false (r_kernel r1) r1) as [(a & Ha & Hin & _)|[e He]].
  - unfold wp at 1. rewrite Ha. apply in_bounds_set_arg_bo; [done|by rewrite K1|done].
  - assert (in_bounds (get_arg i false (r_kernel r1)) r1) as Hg
      by (unfold in_bounds, get_arg, at_; wps; by destruct (zlookup _ _); wps).
    unfold wp at 1. unfold in_bounds, wp in Hg. by rewrite He in Hg |- *.
Qed.

(** No call of the run interface writes outside the execution buffer. *)
Lemma call_in_bounds op r :
  run_ok r -> (setter_of (r_kernel r) = Some FA -> fa_layout (r_kernel r)) -> api_ok op ->
  call_throws op r <> Some bad_write.
Proof.
  intros H Hfa Ho. destruct op; cbn [call_throws api_ok] in *; try (apply in_bounds_thrown); try done.
  - by apply in_bounds_set_arg.
  - by apply in_bounds_set_arg.
  - by apply in_bounds_set_bo.
  - destruct Ho as [Ho _]. destruct (run_room r H) as [Hl _].
    apply (in_bounds_with_setter r H (fun s d => setter_set_offset (fst s) d (snd s) off v)).
    intros kind _. by apply in_bounds_setter_offset.
  - destruct (set_cus_spec mask r H) as [(kept & r' & Hrun & _)|[Hrun _]]; unfold in_bounds, wp; by rewrite Hrun.
  - destruct (prep_start_spec r H) as (r1 & Hrun & _). unfold in_bounds, start. wps; [done|].
    unfold wp at 1. rewrite Hrun. unfold wp, on_command, command_run, bind, gets, modify, ret, raise, id.
    repeat case_match; simplify_eq; done.
  - unfold in_bounds, wp, on_command, command_notify, bind, gets, id, ret, modify. by destruct (_ || _).
  - unfold in_bounds, wp, on_command, add_callback, bind, gets, id, ret, modify, raise. by destruct (_ && _).
Qed.

(** C30: the type of command packets.  For every kernel the constructor makes
    that fits an execution buffer, a run of it that is reachable by calls of the
    run interface (whether they return or throw), on any recycled execution
    buffer, holds a packet with the command type, the opcode of the kernel's
    type and protocol, the word count of the CU masks and the register map, and
    the number of extra masks; its CUs are CUs of the kernel, and unless the
    masks are due to be re-encoded they name exactly the run's CUs.  No next call writes
    outside the execution buffer; for a fast adapter kernel, when the entries of its arguments
    lie in its register map. *)
Theorem run_packet_typed nm cus args t k r :
  Forall (fun ip => 0 <= ip_cuidx ip) cus -> Forall arg_ok args ->
  kernel_impl nm cus args (new_kernel t) = Ok tt k -> fits k -> reachable k r ->
  length (buf r) = Z.to_nat allocation_size /\
  pkt_type (header (buf r)) = ERT_CU /\ pkt_opcode (header (buf r)) = opcode_of k /\
  pkt_count (header (buf r)) = num_cumasks k + k_regmap_size k /\
  pkt_extra_cu_masks (header (buf r)) = num_cumasks k - 1 /\
  sublist (r_ips r) (ipctxs k) /\
  (encode_cumasks r = false -> forall cu, 0 <= cu < 32 * num_cumasks k ->
     mask_bit (buf r) cu = true <-> exists ip, ip ∈ r_ips r /\ ip_cuidx ip = cu) /\
  ((setter_of k = Some FA -> fa_layout k) -> forall op, api_ok op -> call_throws op r <> Some bad_write).
Proof.
  intros Hcus Hargs Hk Hf Hr. apply kernel_impl_ok in Hk; [|done..].
  destruct (reachable_ok k r Hk Hf Hr) as [H <-].
  destruct (ro_packet r H) as [[Hl _] (_ & H1 & H2 & H3 & H4)].
  split_and!; try done; [apply (ro_ips r H)| |].
  - intros He cu Hcu. by apply mask_bit_iff.
  - intros Hfa op Ho. by apply call_in_bounds.
Qed.

(** * The CUs of a run *)

Lemma same_cus_subseteq r {A} (m : M run exn A) : keeps_run r m -> r_ips (outcome m r) ⊆ r_ips r.
Proof. unfold wp, outcome. destruct (m r); intros [_ (_ & -> & _)]; done. Qed.

Lemma set_bo_subseteq skip cl i b r : run_ok r -> r_ips (outcome (set_arg_bo_at_index skip cl i b) r) ⊆ r_ips r.
Proof.
  intros H. apply (outcome_wp _ (fun r' => r_ips r' ⊆ r_ips r)). unfold set_arg_bo_at_index. apply wp_bind.
  assert (forall r1 b', run_ok r1 -> r_ips r1 ⊆ r_ips r ->
    wp (r0 <- gets id ;; a <- get_arg i false (r_kernel r0) ;; run_set_arg_bo a b')
      (fun _ r' => r_ips r' ⊆ r_ips r) (fun _ r' => r_ips r' ⊆ r_ips r) r1) as Hset.
  { intros r1 b' H1 I1. apply wp_bind, wp_gets. unfold id. apply wp_bind. unfold wp at 1.
    destruct (get_arg_spec i false (r_kernel r1) r1) as [(a & -> & Hin & _)|[e ->]]; [|done].
    eapply wp_mono; [apply run_set_arg_bo_ok; [done|by eapply run_arg_ok]|intros ? ? [_ (_ & -> & _)]..]; done. }
  unfold validate_bo_at_index. apply wp_if; intros _; [by apply wp_ret, Hset|]. apply wp_bind. unfold wp at 1.
  destruct (validate_ip_arg_connectivity_spec i (u16 (bo_group b)) r H)
    as [(kept & r1 & -> & _ & H1 & I1 & _ & _ & _ & _ & Hk)|[[-> _]|[e ->]]]; [|..|done].
  - apply wp_ret, Hset; [done|]. rewrite I1. intros ip Hip. by apply Hk.
  - apply wp_bind, wp_gets. unfold id. apply wp_bind. unfold wp at 1.
    destruct (group_id_cases i (r_kernel r) r) as [[g ->]|[e ->]]; [by apply wp_ret, Hset|done].
Qed.

Lemma start_ips s r : run_ok r -> r_ips (outcome (start s) r) ⊆ r_ips r.
Proof.
  intros H. destruct (prep_start_spec r H) as (r1 & Hrun & Hp). destruct Hp as (_ & _ & _ & _ & I1 & _).
  apply (outcome_wp _ (fun r' => r_ips r' ⊆ r_ips r)). unfold start. wps; [done|]. unfold wp at 1. rewrite Hrun.
  rewrite <- I1. unfold wp, on_command, command_run, bind, gets, modify, ret, raise, id.
  repeat case_match; simplify_eq; done.
Qed.

(** A call never adds a CU to a run. *)
Lemma call_subseteq op r : run_ok r -> api_ok op -> r_ips (call op r) ⊆ r_ips r.
Proof.
  intros H Ho. assert (forall A (m : M command exn A), r_ips (outcome (on_command m) r) ⊆ r_ips r) as Hc
    by (intros A m; unfold outcome, on_command; by destruct (m (r_cmd r))).
  destruct op; cbn [call api_ok] in *; try done; try apply Hc.
  - by apply same_cus_subseteq, set_arg_ok.
  - by apply same_cus_subseteq, set_arg_ok.
  - by apply set_bo_subseteq.
  - apply same_cus_subseteq, run_set_offset_value_ok; tauto || lia.
  - destruct (set_cus_spec mask r H) as [(kept & r' & Hrun & _ & I1 & _ & _ & _ & Hk)|[Hrun _]];
      unfold outcome; rewrite Hrun; [|done]. rewrite I1. intros ip Hip. by apply Hk.
  - by apply start_ips.
Qed.

(** Any calls of the interface. *)
Definition calls : run -> run -> Prop := rtc (fun r r' => exists op, api_ok op /\ r' = call op r).

Lemma calls_subseteq r r' : calls r r' -> run_ok r -> run_ok r' /\ r_kernel r' = r_kernel r /\ r_ips r' ⊆ r_ips r.
Proof.
  induction 1 as [r|r _ r' (op & Ho & ->) _ IH]; intros H; [done|]. destruct (call_ok op r H Ho) as [H1 K1].
  destruct (IH H1) as (H2 & K2 & I2). split_and!; [done|congruence|]. etrans; [exact I2|by apply call_subseteq].
Qed.

(** Setting a buffer that some CU of the run is connected to. *)
Lemma set_bo_keeps_connected cl i b r r1 :
  run_ok r -> bo_imported b = false -> (exists ip, ip ∈ r_ips r /\ connected i (u16 (bo_group b)) ip) ->
  set_arg_bo_at_index false cl i b r = Ok tt r1 ->
  run_ok r1 /\ r_kernel r1 = r_kernel r /\
  forall ip, ip ∈ r_ips r1 <-> ip ∈ r_ips r /\ connected i (u16 (bo_group b)) ip.
Proof.
  intros H Himp (ip0 & Hip0 & Hc0) Hset.
  unfold set_arg_bo_at_index, validate_bo_at_index in Hset. rewrite Himp in Hset. cbn [orb] in Hset.
  unfold bind at 1 2 in Hset.
  destruct (validate_ip_arg_connectivity_spec i (u16 (bo_group b)) r H)
    as [(kept & r' & Hv & _ & H' & I' & K' & _ & _ & _ & Hk)|[[Hv Hn]|[e Hv]]];
    rewrite Hv in Hset; [|by destruct (Hn ip0)|done].
  unfold ret at 1 in Hset. unfold bind, gets, id in Hset.
  destruct (get_arg_spec i false (r_kernel r') r') as [(a & Ha & Hin & _)|[e He]];
    [rewrite Ha in Hset|by rewrite He in Hset].
  pose proof (run_set_arg_bo_ok r' a b H' (run_arg_ok r' a H' Hin)) as Hw.
  unfold wp in Hw. rewrite Hset in Hw. destruct Hw as [H1 (K & I & _)].
  split_and!; [done|congruence|]. by rewrite I, I'.
Qed.

(** C12: a command runs only where its buffers are.  Let a buffer that is not imported be set
    as an argument, with the connectivity check on, and let some CU of the run be connected to its
    memory bank (otherwise the buffer is cloned).  After any further calls of the run interface, a
    command that is started names in the CU masks of its packet only CUs of the run that are connected to
    that bank; started at once, it names exactly those. *)
Theorem started_on_connected_cus cl i b r r1 r2 r3 :
  run_ok r -> bo_imported b = false ->
  (exists ip, ip ∈ r_ips r /\ connected i (u16 (bo_group b)) ip) ->
  set_arg_bo_at_index false cl i b r = Ok tt r1 -> calls r1 r2 -> start true r2 = Ok tt r3 ->
  forall cu, 0 <= cu < 32 * num_cumasks (r_kernel r) ->
    (mask_bit (buf r3) cu = true ->
     exists ip, ip ∈ r_ips r /\ ip_cuidx ip = cu /\ connected i (u16 (bo_group b)) ip) /\
    (r2 = r1 -> mask_bit (buf r3) cu = true <->
     exists ip, ip ∈ r_ips r /\ ip_cuidx ip = cu /\ connected i (u16 (bo_group b)) ip).
Proof.
  intros H Himp Hex Hset Hcs Hst cu Hcu. destruct (set_bo_keeps_connected cl i b r r1 H Himp Hex Hset) as (H1 & K1 & Hk).
  destruct (calls_subseteq r1 r2 Hcs H1) as (H2 & K2 & I2). destruct (start_Ok true r2 r3 H2 Hst) as (H3 & E3 & _ & K3 & I3 & _).
  rewrite (mask_bit_iff r3 cu H3 E3) by (by rewrite K3, K2, K1). rewrite I3. split.
  - intros (ip & Hip & <-). exists ip. apply I2, Hk in Hip as [? ?]. done.
  - intros ->. split; [intros (ip & Hip & <-)|intros (ip & Hip & <- & Hc)]; exists ip.
    + apply Hk in Hip as [? ?]. done.
    + split; [|done]. by apply Hk.
Qed.


(** Arguments of fast adapter kernels.  With argument sizes in whole words,
    the descriptor a fast adapter kernel lays out gives every argument an entry
    of its own inside the register map: setting an argument writes its register
    offset, its size and its value there, reading it back gives the value, and
    every other argument keeps its value. *)
Theorem fa_args_roundtrip k0 k r i a v :
  Forall whole_words (k_args k0) -> sizeof_fa_descriptor + entries_size (k_args k0) < 2 ^ 64 ->
  amend_fa_args k0 = Ok tt k -> run_ok r -> r_kernel r = k -> setter_of k = Some FA ->
  k_args k !! i = Some a -> bytes v -> Z.of_nat (length v) = size a ->
  exists r', run_set_arg_value a v r = Ok tt r' /\ run_ok r' /\
    bytes_at (buf r') (entry_pos r a) 8 = le_bytes 4 (offset a) ++ le_bytes 4 (size a) /\
    (exists r'', run_get_arg_value a r' = Ok v r'') /\
    forall j b, j <> i -> k_args k !! j = Some b -> fa_value r' b = fa_value r b.
Proof.
  intros Hw Hsz Hk H <- Hfa Hi Hv Hl.
  pose proof (amend_fa_args_layout _ _ Hw Hsz Hk (ro_kernel r H) (ro_fits r H)) as Hlay.
  assert (a ∈ k_args (r_kernel r)) as Hin by by eapply list_elem_of_lookup_2.
  destruct (fa_set r a H Hfa Hlay Hin v Hv Hl) as (r' & Hrun & H' & S' & D' & B').
  destruct (entry_facts r a H Hlay Hin) as ([Hs _] & _ & H0 & _ & He & Hd0).
  unfold entry_size, sizeof_fa_desc_entry in He.
  rewrite app_assoc in B'. set (hd := le_bytes 4 (offset a) ++ le_bytes 4 (size a)) in *.
  assert (length hd = 8%nat) as Hhd by (unfold hd; by rewrite length_app, !length_le_bytes).
  assert (entry_pos r a + length hd + length v <= length (buf r))%nat as Hfit
    by (unfold entry_pos, sizeof_fa_descriptor in *; lia).
  pose proof (put_bytes_app (entry_pos r a) hd v (buf r) Hfit) as Hput.
  exists r'. split_and!; [done..| | |].
  - rewrite B', Hput, bytes_at_frame by (rewrite ?length_put_bytes; lia).
    rewrite <- Hhd. apply bytes_at_put_bytes. lia.
  - pose proof S' as (K' & _).
    destruct (fa_get r' a H' ltac:(by rewrite K') ltac:(by rewrite K') ltac:(by rewrite K')) as (r'' & Hg & _).
    exists r''. rewrite Hg. f_equal. unfold fa_value, entry_pos. rewrite D'. fold (entry_pos r a).
    rewrite B', Hput, Hhd. replace (Z.to_nat (size a)) with (length v) by lia.
    apply bytes_at_put_bytes. rewrite length_put_bytes. lia.
  - intros j b Hne Hj. assert (b ∈ k_args (r_kernel r)) as Hb by by eapply list_elem_of_lookup_2.
    pose proof Hlay as (_ & Hpw & _).
    assert (apart_entries a b) as Hap.
    { eapply (pairwise_lookup apart_entries); [|done|exact Hi|exact Hj|done]. unfold apart_entries. tauto. }
    destruct (entry_facts r b H Hlay Hb) as ([Hsb _] & _ & H0b & _ & Heb & _).
    unfold fa_value, entry_pos. rewrite D', B'. apply bytes_at_frame; rewrite length_app, Hhd; [lia|].
    unfold apart_entries, entry_pos, entry_size, sizeof_fa_desc_entry, sizeof_fa_descriptor in *. lia.
Qed.

(** * Witnesses

    A kernel with two CUs, the second in another mask word and connected to
    another bank, and two arguments; a fast adapter kernel with an input and an
    output. *)

Definition ex_cu (i bank : Z) (c : control_type) : ip_context :=
  IpContext i 0 c (Connectivity [2 ^ bank] [bank]) [0; 1; 2].
Definition ex_arg (i off sz ty : Z) (out : bool) : kernel_argument :=
  KernelArgument "arg" "uint" "M_AXI" 32 i off sz sz 0 ty out.
Definition ex_args : list kernel_argument := [ex_arg 0 0x10 8 1 false; ex_arg 1 0x1C 4 0 false].
Definition ex_cus : list ip_context := [ex_cu 0 0 ctrl_hs; ex_cu 33 1 ctrl_hs].
Definition ex_fa_args : list kernel_argument :=
  [ex_arg 0 0x10 8 1 false; ex_arg 1 0x18 4 0 true; ex_arg 2 0x20 8 0 false].

Definition state_after {A} (m : M kernel exn A) (k : kernel) : kernel :=
  match m k with Ok _ k' | Err _ k' => k' end.
Definition ex_kernel : kernel := state_after (kernel_impl "ex" ex_cus ex_args) (new_kernel kt_pl).
Definition ex_fa_base : kernel :=
  Kernel ex_fa_args [ex_cu 0 0 ctrl_fa] kt_pl 1 0 0 0 0 0 1 ctrl_fa.
Definition ex_fa_kernel : kernel := state_after amend_fa_args ex_fa_base.

Definition run_of (k : kernel) : run :=
  match run_impl k (replicate 4096 0) with
  | inr r => r
  | inl _ => Run k [] 0 (new_command []) 0 0 None false 0
  end.
Definition ex_run : run := run_of ex_kernel.
Definition ex_bo : bo := Bo 0x1122334455667788 64 1 false.
Definition ex_value : list Z := [0xEF; 0xBE; 0xAD; 0xDE].

Lemma ex_room : packet_room (replicate 4096 0).
Proof. split; [by rewrite length_replicate|]. by apply Forall_replicate. Qed.

Ltac each := repeat (apply Forall_cons; split; [vm_compute; intuition discriminate|]); apply Forall_nil; exact I.

Lemma ex_args_ok : Forall arg_ok ex_args.
Proof. each. Qed.

Lemma ex_kernel_eq : kernel_impl "ex" ex_cus ex_args (new_kernel kt_pl) = Ok tt ex_kernel.
Proof. vm_compute. reflexivity. Qed.

Lemma ex_kernel_ok : kernel_ok ex_kernel.
Proof. eapply kernel_impl_ok; [|apply ex_args_ok|apply ex_kernel_eq]. each. Qed.

Lemma ex_run_eq : run_impl ex_kernel (replicate 4096 0) = inr ex_run.
Proof. vm_compute. reflexivity. Qed.

Lemma ex_run_ok : run_ok ex_run.
Proof.
  destruct (run_impl_ok ex_kernel _ ex_kernel_ok ltac:(done) ex_room ltac:(done)) as (r & Hr & H & _).
  rewrite ex_run_eq in Hr. apply (inj inr) in Hr. by subst r.
Qed.

Lemma ex_fa_kernel_ok : kernel_ok ex_fa_kernel.
Proof.
  assert (kernel_ok ex_fa_base) as H by (split; [done|each|done..|each]).
  pose proof (amend_args_ok _ H) as Hw. exact Hw.
Qed.

Lemma ex_fa_run_ok : run_ok (run_of ex_fa_kernel).
Proof.
  destruct (run_impl_ok ex_fa_kernel _ ex_fa_kernel_ok ltac:(done) ex_room ltac:(done)) as (r & Hr & H & _).
  unfold run_of. by rewrite Hr.
Qed.

Ltac conc := vm_compute; try reflexivity.
Ltac range := vm_compute; intuition discriminate.

Lemma run_packet_typed_witness :
  pkt_count (header (buf (call (Start true) ex_run))) = 10 /\
  mask_bit (buf ex_run) 33 = true /\ mask_bit (buf ex_run) 34 = false.
Proof.
  assert (reachable ex_kernel ex_run) as Hr by (eapply reach_new; [apply ex_room|apply ex_run_eq]).
  assert (Forall (fun ip => 0 <= ip_cuidx ip) ex_cus) as Hc by each.
  split.
  - apply (run_packet_typed "ex" ex_cus ex_args kt_pl ex_kernel (call (Start true) ex_run));
      [done|apply ex_args_ok|apply ex_kernel_eq|range|by apply reach_call].
  - destruct (run_packet_typed "ex" ex_cus ex_args kt_pl ex_kernel ex_run)
      as (_ & _ & _ & _ & _ & _ & Hm & _); [done|apply ex_args_ok|apply ex_kernel_eq|range|done|].
    split; [|conc]. apply Hm; [conc|range|]. exists (ex_cu 33 1 ctrl_hs).
    split; [apply (list_elem_of_lookup_2 _ 1); conc|conc].
Defined.

Definition ex_bound : run := outcome (set_arg_bo_at_index false (fun b _ => b) 0 ex_bo) ex_run.
(** The other argument is set before the start. *)
Definition ex_ready : run := call (SetArg 1 ex_value) ex_bound.
Definition ex_started : run := outcome (start true) ex_ready.

Lemma started_on_connected_cus_witness :
  mask_bit (buf ex_started) 33 = true /\ mask_bit (buf ex_started) 0 = false.
Proof.
  split; [conc|]. apply not_true_iff_false. intros Hm.
  assert (calls ex_bound ex_ready) as Hcs.
  { apply rtc_once. exists (SetArg 1 ex_value). split; [each|done]. }
  destruct (proj1 (started_on_connected_cus (fun b _ => b) 0 ex_bo ex_run ex_bound ex_ready ex_started ex_run_ok
    ltac:(conc) ltac:(exists (ex_cu 33 1 ctrl_hs); split; [apply (list_elem_of_lookup_2 _ 1); conc|conc])
    ltac:(conc) Hcs ltac:(conc) 0 ltac:(range)) Hm) as (ip & Hip & H0 & Hc).
  apply elem_of_cons in Hip as [->|Hip]; [vm_compute in Hc; discriminate|].
  apply list_elem_of_singleton in Hip as ->. discriminate.
Defined.


Lemma fa_args_roundtrip_witness :
  exists r' r'', run_set_arg_value (set_fa_desc_offset 16 (ex_arg 1 0x18 4 0 true)) ex_value
      (run_of ex_fa_kernel) = Ok tt r' /\
    run_get_arg_value (set_fa_desc_offset 16 (ex_arg 1 0x18 4 0 true)) r' = Ok ex_value r''.
Proof.
  destruct (fa_args_roundtrip ex_fa_base ex_fa_kernel (run_of ex_fa_kernel) 1
    (set_fa_desc_offset 16 (ex_arg 1 0x18 4 0 true)) ex_value) as (r' & Hs & _ & _ & (r'' & Hg) & _);
    [each|range|conc|apply ex_fa_run_ok|conc|conc|conc|each|conc|].
  exact (ex_intro _ r' (ex_intro _ r'' (conj Hs Hg))).
Defined.
