(* ===== verification/XrtErt.v ===== *)
(** From the host to the compute unit: the packet a run builds
    ([xrt_kernel.cpp]), placed in a slot of the command queue, is what the
    embedded scheduler ([scheduler.cpp]) decodes and copies to the registers of
    the CU; the packet of an argument update, and the recycling of execution
    buffers. *)

From S2P Require Import Prelude Bytes ErtScheduler ErtTheorems CppStd XclbinXml XrtKernel XrtRun XrtPacket XrtInvariant XrtPreserve XrtStart XrtFa XrtTheorems.

(** * Start commands *)

(** The words of an execution buffer in a command queue slot at [sa]. *)
Definition slot_holds (w : ram) (sa : Z) (m : list Z) : Prop :=
  forall i, 0 <= i < 1024 -> w !! (sa + 4 * i) = Some (word_at m (Z.to_nat (4 * i))).

(** The firmware's decoding of a header. *)
Lemma decode_header k h sa :
  kernel_ok k -> fits k -> hdr_ok k h -> 0 <= sa -> sa + 4096 <= 2 ^ 32 ->
  ErtScheduler.opcode h = opcode_of k /\ cmd_type h = ErtScheduler.ERT_CU /\
  regmap_section_addr h sa = sa + (4 + 4 * num_cumasks k) /\
  ErtScheduler.regmap_size h = k_regmap_size k.
Proof.
  intros Hk Hf (Hr & Ht & Ho & Hc & He) Hsa Hsz. pose proof (ko_masks _ Hk). pose proof (ko_regmap _ Hk).
  unfold fits, allocation_size in *.
  assert (cu_masks h = num_cumasks k) as Hcu.
  { unfold cu_masks. change (Z.land (Z.shiftr h 10) 0x3) with (pkt_extra_cu_masks h). lia. }
  split; [done|]. split; [done|]. unfold regmap_section_addr, cu_section_addr, ErtScheduler.regmap_size.
  rewrite Hcu. change (ErtScheduler.payload_size h) with (pkt_count h). rewrite Hc, !u32_small by (rewrite ?u32_small; lia).
  lia.
Qed.

(** Setting an argument by index is setting the argument of the index. *)
Lemma set_arg_at_index_value i a v r r1 :
  zlookup (k_args (r_kernel r)) i = Some a -> set_arg_at_index i v r = Ok tt r1 ->
  a ∈ k_args (r_kernel r) /\ run_set_arg_value a v r = Ok tt r1.
Proof.
  intros Hi Hset. split.
  { apply zlookup_Some in Hi as [_ Hi]. by eapply list_elem_of_lookup_2. }
  unfold set_arg_at_index, get_arg, at_, bind, gets, id in Hset. rewrite Hi in Hset.
  unfold ret at 1 in Hset. by destruct (negb false && (index a =? no_index)).
Qed.

(** The words of an argument that was set, in the packet that is started. *)
Lemma started_arg_word a v r r1 r2 e j :
  run_ok r -> setter_of (r_kernel r) = Some HS -> 4 <= k_regmap_size (r_kernel r) ->
  a ∈ k_args (r_kernel r) -> bytes v -> Z.of_nat (length v) = size a -> in_payload (r_kernel r) a ->
  run_set_arg_value a v r = Ok tt r1 -> start true r1 = Ok tt r2 ->
  0 <= j -> 4 * j + 4 <= size a -> 4 * e = 4 + 4 * num_cumasks (r_kernel r) + offset a + 4 * j ->
  word_at (buf r2) (Z.to_nat (4 * e)) = word_at v (Z.to_nat (4 * j)).
Proof.
  intros H Hs Hreg Ha Hv Hl Hin Hset Hst Hj Hj4 He.
  pose proof (run_arg_ok r a H Ha) as Haok. pose proof Haok as (Hoff & Hsz & _).
  destruct (set_arg_value_inside r a v H (or_introl Hs) Haok Hv) as (r1' & Hrun & H1 & S1 & D1 & B1).
  { unfold in_payload in Hin. lia. }
  assert (r1' = r1) as -> by congruence. clear Hrun.
  destruct (start_Ok true r1 r2 H1 Hst) as (H2 & _ & _ & K2 & _ & P2 & _).
  rewrite (proj1 S1) in K2. pose proof (ko_masks _ (ro_kernel r H)). pose proof (ro_fits r H) as Hf.
  pose proof (data_byte_eq r H) as Hd. pose proof (data_byte_eq r2 H2) as Hd2. rewrite K2 in Hd2.
  destruct (run_room r H) as [Hlen _].
  unfold fits, in_payload, payload_bytes, payload, allocation_size in *.
  rewrite (proj2 (Z.eqb_neq _ _)) in Hin by lia.
  rewrite Hd2, <- Hd, D1 in P2.
  replace (Z.to_nat (4 * e)) with (Z.to_nat (data_byte r) + Z.to_nat (offset a + 4 * j))%nat by lia.
  rewrite <- (word_at_bytes_at _ _ (Z.to_nat (4096 - data_byte r))) by lia.
  rewrite P2, word_at_bytes_at, B1 by lia. rewrite Z.min_l, take_ge by lia.
  replace (Z.to_nat (data_byte r) + Z.to_nat (offset a + 4 * j))%nat
    with (Z.to_nat (data_byte r + offset a) + Z.to_nat (4 * j))%nat by lia.
  apply word_at_put_bytes; lia.
Qed.

(** C1: an argument set by the host reaches the compute unit.  When the
    application sets an argument of a register map kernel and starts the run,
    and the packet is placed in a command queue slot, then the embedded
    scheduler decodes it as a start command for CUs with the kernel's register
    map, and configuring a CU from the slot writes every word of the argument's
    value to the CU register at the argument's offset and then starts the CU. *)
Theorem run_args_reach_cu i a v r r1 r2 (s : fw ram) sa ca :
  run_ok r -> setter_of (r_kernel r) = Some HS -> 4 <= k_regmap_size (r_kernel r) ->
  zlookup (k_args (r_kernel r)) i = Some a -> bytes v -> Z.of_nat (length v) = size a ->
  in_payload (r_kernel r) a -> 16 <= offset a -> offset a mod 4 = 0 -> size a mod 4 = 0 ->
  set_arg_at_index i v r = Ok tt r1 -> start true r1 = Ok tt r2 ->
  slot_holds (world s) sa (buf r2) -> 0 <= sa -> sa + 4096 <= 2 ^ 32 -> 0 <= ca ->
  ca + 4 * k_regmap_size (r_kernel r) <= sa \/ sa + 4096 <= ca /\ ca + 4 * k_regmap_size (r_kernel r) <= 2 ^ 32 ->
  ErtScheduler.opcode (header (buf r2)) = ERT_START_KERNEL /\
  cmd_type (header (buf r2)) = ErtScheduler.ERT_CU /\
  exists w, configure_cu ca (regmap_section_addr (header (buf r2)) sa)
      (ErtScheduler.regmap_size (header (buf r2))) s = Ok tt (set_world w s) /\
    w !! ca = Some AP_START /\
    forall j, 0 <= j < size a / 4 -> w !! (ca + offset a + 4 * j) = Some (word_at v (Z.to_nat (4 * j))).
Proof.
  intros H Hs Hreg Hi Hv Hl Hin Hoff Hoff4 Hsz4 Hset Hst Hslot Hsa Hsa' Hca Hdis.
  destruct (set_arg_at_index_value _ _ _ _ _ Hi Hset) as [Ha Hset'].
  destruct (set_arg_value_inside r a v H (or_introl Hs) (run_arg_ok r a H Ha) Hv) as (r1' & Hrun & H1 & S1 & _).
  { unfold in_payload in Hin. lia. }
  assert (r1' = r1) as -> by congruence. clear Hrun.
  destruct (start_Ok true r1 r2 H1 Hst) as (H2 & _ & _ & K2 & _). rewrite (proj1 S1) in K2.
  pose proof (ro_packet r2 H2) as [_ Hh2]. rewrite K2 in Hh2. fold (buf r2) in Hh2.
  pose proof (ro_kernel r H) as Hk. pose proof (ro_fits r H) as Hf. pose proof (ko_masks _ Hk).
  destruct (decode_header _ _ sa Hk Hf Hh2 Hsa Hsa') as (Hop & Hty & Hra & Hrs).
  rewrite Hra, Hrs, Hop. split; [|split; [done|]].
  { unfold opcode_of, setter_of in *. destruct (k_type (r_kernel r)); try done. by case_decide. }
  set (nm := num_cumasks (r_kernel r)) in *. set (nr := k_regmap_size (r_kernel r)) in *.
  unfold fits, allocation_size in Hf. fold nm nr in Hf.
  destruct (configure_cu_copies_regmap ca (sa + (4 + 4 * nm)) (Z.to_nat (nr - 4)) s)
    as (w & Hcfg & Hstart & Hcopy & _); [lia..|].
  exists w. replace (4 + Z.of_nat (Z.to_nat (nr - 4))) with nr in * by lia.
  split_and!; [done..|]. intros j Hj. pose proof Hin as Hin'.
  unfold in_payload, payload_bytes in Hin'. fold nr in Hin'. rewrite (proj2 (Z.eqb_neq _ _)) in Hin' by lia.
  assert (0 <= j /\ 4 * j + 4 <= size a) as [Hj0 Hj4] by (clear -Hj Hsz4; Z.div_mod_to_equations; lia).
  set (q := offset a / 4 + j). assert (offset a + 4 * j = 4 * q) as Hq
    by (unfold q; clear -Hoff4; Z.div_mod_to_equations; lia).
  rewrite <- Z.add_assoc, Hq, (Hcopy q) by lia.
  replace (sa + (4 + 4 * nm) + 4 * q) with (sa + 4 * (1 + nm + q)) by lia.
  rewrite (Hslot (1 + nm + q)) by lia. cbn [default].
  rewrite (started_arg_word a v r r1 r2 (1 + nm + q) j) by (done || lia).
  by rewrite u32_small by apply word_at_range, Hv.
Qed.

(** * Argument updates *)

(** Pair [j] of an update packet whose CU masks end before word [base]. *)
Definition pair_at (m : list Z) (base : Z) (j : nat) : Z * Z :=
  (word_at m (Z.to_nat (4 + 4 * (base + 2 * Z.of_nat j))),
   word_at m (Z.to_nat (4 + 4 * (base + 2 * Z.of_nat j + 1)))).

Lemma update_pairs_spec idx off v m :
  packet_room m -> 0 <= idx -> 0 <= off -> off + 4 * Z.of_nat (length v) < 2 ^ 32 -> bytes v ->
  4 + 4 * (9 + idx + 2 * Z.of_nat (length v)) <= allocation_size ->
  exists m', update_pairs idx off v m = Ok tt m' /\
    packet_ok m m' (Z.to_nat (4 + 4 * (9 + idx))) (Z.to_nat allocation_size) /\
    forall j b, v !! j = Some b -> pair_at m' (9 + idx) j = (off + 4 * Z.of_nat j, b).
Proof.
  unfold allocation_size. revert idx off m. induction v as [|b v IH]; intros idx off m Hm Hi Ho Hlen Hv Hfit.
  { exists m. split; [done|]. split; [|done]. apply packet_ok_refl, Hm. }
  inversion Hv as [|? ? Hb Hv']; subst. cbn [length] in *. destruct Hm as [Hl Hbm]. unfold allocation_size in Hl.
  cbn [update_pairs]. set (p := Z.to_nat (4 + 4 * (9 + idx))).
  assert (forall i x y, 0 <= i -> 4 + 4 * i + 4 <= 4096 -> length y = 4096%nat ->
    set_data i x y = Ok tt (set_word (Z.to_nat (4 + 4 * i)) (u32 x) y)) as Hset.
  { intros i x y H0 H1 Hy. unfold set_data, bind, gets, id. rewrite Hy.
    rewrite (proj2 (Z.leb_le 0 i)), (proj2 (Z.leb_le _ _)) by lia. done. }
  unfold bind. rewrite (Hset (9 + idx)) by lia.
  rewrite (Hset (9 + (idx + 1))) by (rewrite ?length_set_word; lia).
  set (m1 := set_word _ _ (set_word _ _ m)).
  assert (packet_ok m m1 p 4096) as P1.
  { split; [repeat (apply bytes_set_word; [rewrite ?length_set_word; lia|]); done|].
    eapply agree_trans; apply agree_set_word; rewrite ?length_set_word; lia. }
  pose proof (room_agree _ _ _ _ (conj Hl Hbm : packet_room m) P1) as R1.
  destruct (IH (idx + 2) (off + 4) m1) as (m2 & Hrun & P2 & Hpairs); [done|lia..|done|lia|].
  exists m2. split; [done|]. split.
  { eapply packet_ok_trans; [exact P1|]. eapply packet_ok_weaken; [exact P2|lia|done]. }
  intros [|j] b' Hj; cbn in Hj.
  - injection Hj as <-. unfold pair_at. 
    rewrite !(agree_word _ _ _ _ _ (proj2 P2)) by lia. unfold m1. f_equal.
    + rewrite word_at_set_word_ne by (rewrite ?length_set_word; lia).
      replace (Z.to_nat (4 + 4 * (9 + idx + 2 * Z.of_nat 0))) with (Z.to_nat (4 + 4 * (9 + idx))) by lia.
      rewrite word_at_set_word; [rewrite u32_small; lia|lia|apply u32_range].
    + replace (Z.to_nat (4 + 4 * (9 + idx + 2 * Z.of_nat 0 + 1))) with (Z.to_nat (4 + 4 * (9 + (idx + 1)))) by lia.
      rewrite word_at_set_word; [rewrite u32_small; lia|rewrite length_set_word; lia|apply u32_range].
  - specialize (Hpairs j b' Hj). unfold pair_at in *.
    replace (9 + idx + 2 * Z.of_nat (S j)) with (9 + (idx + 2) + 2 * Z.of_nat j) by lia.
    rewrite Hpairs. f_equal. lia.
Qed.

(** What an argument update does.  The packet of an update holds, for a
    value of [n] bytes, [n] (offset, value) pairs: byte [j] of the value is
    written to the register at [offset + 4 j].  So the bytes of a value are
    spread over [n] registers, and a value of more than one byte changes the
    registers that follow the argument. *)
Theorem update_spreads_bytes a v m :
  packet_room m -> bytes v -> 0 <= offset a -> offset a + 4 * Z.of_nat (length v) < 2 ^ 32 ->
  4 + 4 * (9 + pkt_extra_cu_masks (header m) + 2 * Z.of_nat (length v)) <= allocation_size ->
  exists m', update_packet a v m = Ok tt m' /\
    pkt_count (header m') = 9 + pkt_extra_cu_masks (header m) + 2 * Z.of_nat (length v) /\
    forall j b, v !! j = Some b ->
      pair_at m' (9 + pkt_extra_cu_masks (header m)) j = (offset a + 4 * Z.of_nat j, b).
Proof.
  intros Hm Hv Ho Hlen Hfit. unfold update_packet, reset_cmd, data_offset.
  set (e := pkt_extra_cu_masks (header m)) in *.
  assert (0 <= e < 4) as He by (apply (get_bits_range 10 2); lia). unfold allocation_size in *.
  destruct (upd_header_ok (set_count (9 + e)) m Hm) as (m1 & Hrun1 & P1 & Hh1).
  { apply set_field_range; [lia..|]. apply header_range, Hm. }
  pose proof (room_agree _ _ _ _ Hm P1) as R1.
  assert (pkt_count (header m1) = 9 + e) as Hc1 by (rewrite Hh1; by fields).
  unfold bind, gets. fold e. rewrite Hrun1, Hc1.
  replace (9 + e - 9) with e by lia.
  destruct (update_pairs_spec e (offset a) v m1) as (m2 & Hrun2 & P2 & Hp); [done|lia..|done|unfold allocation_size; lia|].
  rewrite Hrun2. pose proof (room_agree _ _ _ _ R1 P2) as R2.
  assert (header m2 = header m1) as Hh2 by (apply (agree_word _ _ _ _ 0 (proj2 P2)); lia).
  set (f := fun h => set_count (pkt_count h + Z.of_nat (length v) * 2) h).
  destruct (upd_header_ok f m2 R2) as (m3 & Hrun3 & P3 & Hh3).
  { unfold f. apply set_field_range; [lia..|]. apply header_range, R2. }
  exists m3. split; [exact Hrun3|]. split.
  - rewrite Hh3. unfold f. rewrite Hh2, Hc1. fields. lia.
  - intros j b Hj. unfold pair_at. rewrite !(agree_word _ _ _ _ _ (proj2 P3)) by lia. by apply Hp.
Qed.

(** Any change of the header, and any write to the payload, by a routine that
    keeps bit 4. *)
Lemma keep_header f m (P : Z -> Prop) :
  packet_room m -> 0 <= f (header m) < 2 ^ 32 -> P (f (header m)) ->
  wp (upd_header f) (fun _ m' => packet_room m' /\ P (header m')) no_err m.
Proof.
  intros Hm Hf HP. destruct (upd_header_ok f m Hm Hf) as (m' & Hrun & Pm & Hh). unfold wp. rewrite Hrun.
  split; [by eapply room_agree|by rewrite Hh].
Qed.

Lemma keep_data i v m (P : Z -> Prop) :
  packet_room m -> P (header m) -> 0 <= i < 1000 ->
  wp (set_data i v) (fun _ m' => packet_room m' /\ P (header m')) no_err m.
Proof.
  intros Hm HP Hi. pose proof Hm as [Hl Hb]. unfold allocation_size in *. apply wp_set_data; [lia..|].
  unfold header. rewrite word_at_set_word_ne by lia. split; [|done].
  split; [by rewrite length_set_word|]. apply bytes_set_word; [lia|done].
Qed.

Lemma run_update_init_bit rm m :
  packet_room m -> packet_room rm ->
  wp (run_update_init rm) (fun _ m' => packet_room m' /\ pkt_bit4 (header m') = 1) no_err m.
Proof.
  intros Hm Hr. unfold run_update_init. set (P := fun h => pkt_bit4 h = 1).
  set (T := fun _ : Z => True).
  assert (forall v lo len h, 0 <= lo -> 0 <= len -> lo + len <= 32 -> 0 <= h < 2 ^ 32 ->
    0 <= set_bits lo len v h < 2 ^ 32) as Hrange by (intros; by apply set_field_range).
  apply wp_bind. eapply wp_mono; [apply (keep_header _ _ T); [done|apply Hrange; try lia; apply header_range, Hm|done]| |done].
  intros [] m1 [H1 _]. apply wp_bind.
  eapply wp_mono; [apply (keep_header _ _ T); [done|apply Hrange; try lia; apply header_range, H1|done]| |done].
  intros [] m2 [H2 _]. apply wp_bind.
  eapply wp_mono; [apply (keep_header _ _ P); [done|apply Hrange; try lia; apply header_range, H2|unfold P; by fields]| |done].
  intros [] m3 [H3 P3]. cbv zeta. apply wp_bind.
  eapply wp_mono; [apply (keep_header _ _ P); [done|apply Hrange; try lia; apply header_range, H3|unfold P in *; by fields]| |done].
  intros [] m4 [H4 P4]. apply wp_bind. eapply wp_mono; [by apply (keep_data _ _ _ P)| |done].
  intros [] m5 [H5 P5]. apply wp_bind.
  pose proof (get_bits_range 10 2 (header rm) ltac:(lia)) as He. fold (pkt_extra_cu_masks (header rm)) in He.
  eapply wp_mono; [apply (wp_for_range (fun _ m => packet_room m /\ P (header m))); [done|]| |done].
  { intros i m6 Hi [H6 P6]. apply keep_data; [done..|]. lia. }
  intros [] m6 [H6 P6]. unfold reset_cmd. apply wp_bind, wp_gets.
  apply (keep_header _ _ P); [done|apply Hrange; try lia; apply header_range, H6|unfold P in *; by fields].
Qed.

(** Recycled execution buffers.  A new run leaves bits 4 to 9 of the header
    as it finds them in the execution buffer it is given: on a buffer that an
    argument update has used, which sets bit 4 ([update_rtp]), the packet of
    the run has the bit that the scheduler reads as [stat_enabled]. *)
Theorem new_run_keeps_stale_bit k rm m0 m1 r :
  kernel_ok k -> fits k -> k_type k <> kt_none -> packet_room m0 -> packet_room rm ->
  run_update_init rm m0 = Ok tt m1 -> run_impl k m1 = inr r -> pkt_bit4 (header (buf r)) = 1.
Proof.
  intros Hk Hf Ht Hm0 Hrm Hup Hr. pose proof (run_update_init_bit rm m0 Hm0 Hrm) as Hw.
  unfold wp in Hw. rewrite Hup in Hw. destruct Hw as [Hm1 Hbit].
  destruct (initialize_command_spec k m1 Hk Hf Hm1 Ht) as (m2 & Hrun & _ & _ & _ & Hb).
  unfold run_impl in Hr. rewrite Hrun in Hr. injection Hr as <-. cbn [buf execbuf r_cmd new_command].
  rewrite <- Hbit. unfold pkt_bit4. apply Z.bits_inj'. intros i Hi.
  apply (f_equal (fun z => Z.testbit z i)) in Hb. rewrite !testbit_get_bits in Hb |- * by lia.
  destruct (Z.ltb_spec i 1); [|done]. rewrite (proj2 (Z.ltb_lt i 6)) in Hb by lia. done.
Qed.

(** * Witnesses *)

(** The memory with an execution buffer in a slot. *)
Definition slot_ram (sa : Z) (m : list Z) : ram :=
  list_to_map ((fun i : nat => (sa + 4 * Z.of_nat i, word_at m (4 * i))) <$> seq 0 1024).

Lemma slot_ram_holds sa m : slot_holds (slot_ram sa m) sa m.
Proof.
  intros i Hi. unfold slot_ram. apply elem_of_list_to_map_1.
  - rewrite <- list_fmap_compose. apply NoDup_fmap_2_strong; [|apply NoDup_seq].
    intros x y _ _. cbn. lia.
  - apply list_elem_of_fmap. exists (Z.to_nat i). split; [|apply elem_of_seq; lia].
    f_equal; [lia|]. f_equal. lia.
Qed.

Definition ex_set : run := outcome (set_arg_at_index 1 ex_value) ex_run.
Definition ex_running : run := outcome (start true) ex_set.
Definition ex_fw : fw ram := set_world (slot_ram 0x190000 (buf ex_running)) booted.

Lemma run_args_reach_cu_witness :
  exists w, configure_cu 0x1800000 (regmap_section_addr (header (buf ex_running)) 0x190000)
      (ErtScheduler.regmap_size (header (buf ex_running))) ex_fw = Ok tt (set_world w ex_fw) /\
    w !! (0x1800000 + 0x1C + 4 * 0) = Some 0xDEADBEEF.
Proof.
  pose proof (run_args_reach_cu 1 (ex_arg 1 0x1C 4 0 false) ex_value ex_run ex_set ex_running ex_fw
    0x190000 0x1800000 ex_run_ok) as Hw.
  specialize (Hw ltac:(conc) ltac:(range) ltac:(conc) ltac:(each) ltac:(conc) ltac:(range)).
  specialize (Hw ltac:(range) ltac:(conc) ltac:(conc) ltac:(conc) ltac:(conc) (slot_ram_holds _ _)).
  specialize (Hw ltac:(range) ltac:(range) ltac:(range) ltac:(right; range)).
  destruct Hw as (_ & _ & w & Hcfg & _ & Hj). exists w. split; [exact Hcfg|].
  replace (Some 0xDEADBEEF) with (Some (word_at ex_value (Z.to_nat (4 * 0)))) by conc.
  exact (Hj 0 ltac:(range)).
Defined.

Lemma update_spreads_bytes_witness :
  exists m', update_packet (ex_arg 1 0x1C 4 0 false) ex_value (replicate 4096 0) = Ok tt m' /\
    pair_at m' 9 0 = (0x1C, 0xEF) /\ pair_at m' 9 3 = (0x28, 0xDE).
Proof.
  destruct (update_spreads_bytes (ex_arg 1 0x1C 4 0 false) ex_value (replicate 4096 0) ex_room)
    as (m' & Hrun & _ & Hp); [each|range|range|range|].
  exists m'. split; [exact Hrun|].
  exact (conj (Hp 0%nat 0xEF eq_refl) (Hp 3%nat 0xDE eq_refl)).
Defined.

Definition ex_update_buf : list Z :=
  match run_update_init (buf ex_run) (replicate 4096 0) with Ok _ m | Err _ m => m end.
Definition ex_recycled : run :=
  match run_impl ex_kernel ex_update_buf with inr r => r | inl _ => ex_run end.

Lemma new_run_keeps_stale_bit_witness : pkt_bit4 (header (buf ex_recycled)) = 1.
Proof.
  apply (new_run_keeps_stale_bit ex_kernel (buf ex_run) (replicate 4096 0) ex_update_buf ex_recycled
    ex_kernel_ok); [range|conc; discriminate|apply ex_room|apply (run_room ex_run ex_run_ok)|conc|conc].
Defined.
