(* ===== verification/XrtRunlist.v ===== *)
(** Run lists, [runlist_impl] of [core/common/api/xrt_kernel.cpp]: runs are chained
    in command packets of at most 24 commands, which are submitted in order; the
    list reports the first run that failed and marks the runs after it aborted.

    Run objects live in a store, by handle; the list holds handles.  A chained
    command is a record of the packet's fields.  [m_submitted_cmds] holds
    pointers to elements of the vector [m_cmds]: a pointer is the allocation of
    the vector's elements and an index, and is dangling once the vector has
    moved its elements. *)

From S2P Require Import Prelude Bytes CppStd XclbinXml XrtKernel XrtRun.

(** * State *)

Definition submit_size : Z := 24.
Definition sizeof_chain_data : Z := 24.
Definition word_size : Z := 4.

Definition ERT_START_DPU : Z := 18.
Definition ERT_START_NPU : Z := 20.
Definition ERT_START_NPU_PREEMPT : Z := 21.
Definition ERT_START_NPU_PREEMPT_ELF : Z := 22.

Inductive list_state := idle | closed | running | error.

#[export] Instance list_state_eq_dec : EqDecision list_state.
Proof. solve_decision. Defined.

(** An [ert_packet] with opcode ERT_CMD_CHAIN and its [ert_cmd_chain_data]; the
    execution buffer has room for [submit_size] addresses. *)
Record chain := Chain {
  ch_state : Z;
  ch_opcode : Z;
  ch_count : Z;
  command_count : Z;
  submit_index : Z;
  error_index : Z;
  ch_data : list Z;
}.

Definition pointer : Type := nat * nat.

Record runlist := Runlist {
  m_state : list_state;
  m_runlist : list nat;
  m_bos : list nat;
  m_cmds : list chain;
  m_alloc : nat;                      (** the allocation of [m_cmds] *)
  m_submitted_cmds : list pointer;
  store : list run;
}.

(** Exceptions: those of the runtime, and [runlist::command_error] and
    [runlist::aie_error] with the run and its state. *)
Inductive list_exn :=
| other (e : exn)
| command_error (h : nat) (state : Z)
| aie_error (h : nat) (state : Z).

Definition set_list_state (s : list_state) (l : runlist) : runlist :=
  Runlist s (m_runlist l) (m_bos l) (m_cmds l) (m_alloc l) (m_submitted_cmds l) (store l).
Definition set_cmds (c : list chain) (a : nat) (l : runlist) : runlist :=
  Runlist (m_state l) (m_runlist l) (m_bos l) c a (m_submitted_cmds l) (store l).
Definition set_submitted (p : list pointer) (l : runlist) : runlist :=
  Runlist (m_state l) (m_runlist l) (m_bos l) (m_cmds l) (m_alloc l) p (store l).
Definition set_store (s : list run) (l : runlist) : runlist :=
  Runlist (m_state l) (m_runlist l) (m_bos l) (m_cmds l) (m_alloc l) (m_submitted_cmds l) s.
Definition push_run (h : nat) (l : runlist) : runlist :=
  Runlist (m_state l) (m_runlist l ++ [h]) (m_bos l ++ [h]) (m_cmds l) (m_alloc l) (m_submitted_cmds l) (store l).

Definition set_ch_state (s : Z) (c : chain) : chain :=
  Chain s (ch_opcode c) (ch_count c) (command_count c) (submit_index c) (error_index c) (ch_data c).
Definition put_command (i : nat) (v : Z) (c : chain) : chain :=
  Chain (ch_state c) (ch_opcode c) (ch_count c) (command_count c) (submit_index c) (error_index c)
    (<[i := v]> (ch_data c)).
Definition count_command (c : chain) : chain :=
  Chain (ch_state c) (ch_opcode c) (u32 (ch_count c + 8 / word_size)) (u32 (command_count c + 1)) (submit_index c)
    (error_index c) (ch_data c).

Definition RL (A : Type) : Type := M runlist list_exn A.

(** A call of a method of run [h]. *)
Definition call_run {A} (h : nat) (m : M run exn A) : RL A := fun l =>
  match store l !! h with
  | None => Err (other bad_read) l
  | Some r =>
      match m r with
      | Ok x r' => Ok x (set_store (<[h := r']> (store l)) l)
      | Err e r' => Err (other e) (set_store (<[h := r']> (store l)) l)
      end
  end.

(** Reading and changing a chained command through a pointer. *)
Definition at_pointer (p : pointer) : RL chain := fun l =>
  match (if (fst p =? m_alloc l)%nat then m_cmds l !! snd p else None) with
  | Some c => Ok c l
  | None => Err (other bad_read) l
  end.
Definition upd_chain (i : nat) (f : chain -> chain) : RL unit :=
  modify (fun l => set_cmds (alter f i (m_cmds l)) (m_alloc l) l).

(** * Operations *)

Section operations.
(** The kernel-mode handle of a run's execution buffer, the execution buffers the
    cache of the list hands out, and whether appending to a vector of that many
    elements moves them. *)
Context (kmhdl : nat -> Z) (fresh : nat -> chain) (grows : nat -> bool).

Definition create_exec_buf (c : chain) : chain :=
  Chain (ch_state c) ERT_CMD_CHAIN (sizeof_chain_data / word_size) 0 0 0 (ch_data c).

Definition get_cmd_chain_for_run_at_index (runidx : Z) : RL nat :=
  l <- gets id ;;
  let idx := Z.to_nat (runidx / submit_size) in
  if (idx <? length (m_cmds l))%nat then ret idx else
  modify (fun l => set_cmds (m_cmds l ++ [create_exec_buf (fresh (length (m_cmds l)))])
    (if grows (length (m_cmds l)) then S (m_alloc l) else m_alloc l) l) ;;;
  l' <- gets id ;;
  if (idx <? length (m_cmds l'))%nat then ret idx else raise (other out_of_range).

Definition set_run_state (h : nat) (s : Z) : RL unit :=
  call_run h (on_packet (upd_header (set_state s))).

Definition run_at (i : Z) : RL nat :=
  l <- gets id ;;
  match zlookup (m_runlist l) i with Some h => ret h | None => raise (other out_of_range) end.

Definition abort_runs (first last : Z) : RL unit :=
  for_range (Z.to_nat (last - first)) first (fun i => h <- run_at i ;; set_run_state h ERT_CMD_STATE_ABORT).

(** [m_hwqueue.wait]: whether the command has completed, with an error or not. *)
Definition hw_wait (p : pointer) : RL bool := c <- at_pointer p ;; ret (ERT_CMD_STATE_COMPLETED <=? ch_state c).

Definition get_completed_state (p : pointer) : RL Z :=
  b <- hw_wait p ;;
  if b : bool then c <- at_pointer p ;; ret (ch_state c)
  else raise (other (xrt_error "internal error: wait times out on completed command")).

Definition wait_last_cmd : RL bool :=
  l <- gets id ;;
  match last (m_submitted_cmds l) with None => ret true | Some p => hw_wait p end.

Definition poll_last_cmd : RL Z :=
  l <- gets id ;;
  match last (m_submitted_cmds l) with
  | None => ret ERT_CMD_STATE_COMPLETED
  | Some p => c <- at_pointer p ;; ret (ch_state c)
  end.

Definition throw_command_error (h : nat) (s : Z) : RL unit :=
  l <- gets id ;;
  match store l !! h with
  | None => raise (other bad_read)
  | Some r =>
      let op := pkt_opcode (header (execbuf (r_cmd r))) in
      let op := if (op =? ERT_START_CU) && bool_decide (k_type (r_kernel r) = kt_dpu) then ERT_START_NPU else op in
      if (op =? ERT_START_NPU) || (op =? ERT_START_DPU) || (op =? ERT_START_NPU_PREEMPT) || (op =? ERT_START_NPU_PREEMPT_ELF)
      then raise (aie_error h s) else raise (command_error h s)
  end.

(** The loop of [wait] over the submitted commands. *)
Fixpoint check_cmds (ps : list pointer) (runidx : Z) : RL unit :=
  match ps with
  | [] => ret tt
  | p :: ps' =>
      l <- gets id ;;
      s <- (if decide (last (m_submitted_cmds l) = Some p)
            then c <- at_pointer p ;; ret (ch_state c) else get_completed_state p) ;;
      if s =? ERT_CMD_STATE_COMPLETED then check_cmds ps' (runidx + submit_size) else
      modify (set_list_state idle) ;;;
      c <- at_pointer p ;;
      let first_error_idx := u64 (error_index c + runidx) in
      abort_runs (u64 (first_error_idx + 1)) (Z.of_nat (length (m_runlist l))) ;;;
      h <- run_at first_error_idx ;;
      set_run_state h s ;;;
      throw_command_error h s
  end.

(** [true] when the list has completed, [false] on a timeout. *)
Definition wait : RL bool :=
  b <- wait_last_cmd ;;
  if b : bool then l <- gets id ;; check_cmds (m_submitted_cmds l) 0 ;;; ret true else ret false.

(** [sub i]: the hardware queue accepts command [i]. *)
Fixpoint submit_cmds (sub : nat -> bool) (i n : nat) : RL unit :=
  match n with
  | O => ret tt
  | S n' =>
      upd_chain i (set_ch_state ERT_CMD_STATE_NEW) ;;;
      (if sub i then ret tt else raise (other (runtime_error "submit failed"))) ;;;
      modify (fun l => set_submitted (m_submitted_cmds l ++ [(m_alloc l, i)]) l) ;;;
      submit_cmds sub (S i) n'
  end.

Definition submit (sub : nat -> bool) : RL unit :=
  modify (set_submitted []) ;;;
  l <- gets id ;;
  submit_cmds sub 0 (length (m_cmds l)).

Definition clear_runs : RL unit :=
  l <- gets id ;;
  for_each (m_runlist l) (fun h => call_run h (modify (add_runlist (-1)))).

(** [binds]: the buffer of the run can be bound to the chained command. *)
Definition add (binds : bool) (h : nat) : RL unit :=
  l <- gets id ;;
  if decide (m_state l <> idle) then raise (other (xrt_error "runlist must be idle before adding run objects")) else
  i <- get_cmd_chain_for_run_at_index (Z.of_nat (length (m_runlist l))) ;;
  l <- gets id ;;
  match m_cmds l !! i with
  | None => raise (other bad_read)
  | Some c =>
      if negb (ch_opcode c =? ERT_CMD_CHAIN) then raise (other bad_read) else
      let data_idx := command_count c in
      if negb (data_idx <? submit_size) then raise (other bad_write) else
      upd_chain i (put_command (Z.to_nat data_idx) (kmhdl h)) ;;;
      (if binds then ret tt else raise (other (runtime_error "bind_at failed"))) ;;;
      call_run h (modify (add_runlist 1)) ;;;
      upd_chain i count_command ;;;
      modify (push_run h)
  end.

Definition execute (sub : nat -> bool) : RL unit :=
  l <- gets id ;;
  if decide (m_state l <> idle) then raise (other (xrt_error "runlist must be idle before submitting for execution")) else
  if (length (m_runlist l) =? 0)%nat then ret tt else
  for_each (m_runlist l) (fun h => call_run h prep_start) ;;;
  modify (set_list_state closed) ;;;
  (fun l => match submit sub l with
            | Ok _ l' => Ok tt (set_list_state running l')
            | Err e l' => Err e (set_list_state running l')
            end).

Definition wait_throw_on_error : RL bool :=
  l <- gets id ;;
  if decide (m_state l <> running) then ret true else
  b <- wait ;;
  if b : bool then modify (set_list_state idle) ;;; ret true else ret false.

Definition poll_or_throw_on_error : RL Z :=
  l <- gets id ;;
  if decide (m_state l <> running) then ret 1 else
  s <- poll_last_cmd ;;
  if s <? ERT_CMD_STATE_COMPLETED then ret 0 else
  _ <- wait_throw_on_error ;; ret 1.

Definition get_ert_state : RL Z :=
  s <- poll_last_cmd ;;
  if s <? ERT_CMD_STATE_COMPLETED then ret s else
  (fun l => match wait_throw_on_error l with
            | Ok _ l' => Ok ERT_CMD_STATE_COMPLETED l'
            | Err (command_error _ st) l' | Err (aie_error _ st) l' => Ok st l'
            | Err e l' => Err e l'
            end).

Definition reset : RL unit :=
  l <- gets id ;;
  if decide (m_state l = running) then raise (other (xrt_error "The runlist is submitted for execution and cannot be reset.")) else
  clear_runs ;;;
  modify (fun l => Runlist idle [] [] [] (S (m_alloc l)) [] (store l)).

(** The device updates a submitted command. *)
Definition device_update (i : nat) (s si ei : Z) (l : runlist) : runlist :=
  set_cmds (alter (fun c => Chain s (ch_opcode c) (ch_count c) (command_count c) si ei (ch_data c)) i (m_cmds l))
    (m_alloc l) l.
End operations.

Definition new_runlist (runs : list run) : runlist := Runlist idle [] [] [] 0 [] runs.
