(* ===== verification/XrtRunlistSpec.v ===== *)
(** Run lists: the chained commands hold the runs of the list in order, whatever
    calls are made and whether they return or throw; pointers to submitted
    commands are valid while the list runs. *)

From S2P Require Import Prelude Bytes CppStd XclbinXml XrtKernel XrtRun XrtPacket XrtInvariant XrtPreserve XrtStart XrtRunlist.

(** The fields of a list that is given explicitly. *)
Ltac rl_simpl :=
  cbn [m_state m_runlist m_bos m_cmds m_alloc m_submitted_cmds store
       set_list_state set_cmds set_submitted set_store push_run].

Section runlist.
Context (kmhdl : nat -> Z).

(** * Well-formed lists *)

(** A chained command with the runs [hs]. *)
Record chain_ok (hs : list nat) (c : chain) : Prop := {
  co_opcode : ch_opcode c = ERT_CMD_CHAIN;
  co_commands : command_count c = Z.of_nat (length hs);
  co_count : ch_count c = 6 + 2 * Z.of_nat (length hs);
  co_size : (length hs <= 24)%nat;
  co_data : take (length hs) (ch_data c) = kmhdl <$> hs;
  co_room : length (ch_data c) = 24%nat;
}.

(** The runs of chained command [i]. *)
Definition chunk (i : nat) (l : list nat) : list nat := take 24 (drop (24 * i) l).

Definition count (h : nat) (l : list nat) : Z := Z.of_nat (length (filter (fun x => x = h) l)).

(** [others h]: in how many other lists run [h] is. *)
Context (others : nat -> Z).

Record list_ok (l : runlist) : Prop := {
  lo_chains i c : m_cmds l !! i = Some c -> chain_ok (chunk i (m_runlist l)) c;
  lo_cover : (length (m_runlist l) <= 24 * length (m_cmds l))%nat;
  lo_least : (24 * (length (m_cmds l) - 1) <= length (m_runlist l))%nat;
  lo_bos : m_bos l = m_runlist l;
  lo_store : Forall run_ok (store l);
  lo_counter h r : store l !! h = Some r -> runlist_counter r = u64 (others h + count h (m_runlist l));
  lo_runs h : h ∈ m_runlist l -> (h < length (store l))%nat;
  lo_state : m_state l = idle \/ m_state l = running;
  lo_running : m_state l = running ->
    exists k, (k <= length (m_cmds l))%nat /\ m_submitted_cmds l = (fun i => (m_alloc l, i)) <$> seq 0 k;
}.

Abbreviation keeps m := (forall l, list_ok l -> wp m (fun _ => list_ok) (fun _ => list_ok) l).

Lemma list_ok_new rs :
  Forall run_ok rs -> (forall h r, rs !! h = Some r -> runlist_counter r = u64 (others h)) -> list_ok (new_runlist rs).
Proof.
  intros Hr Hc. split; cbn; try done; [|set_solver|by left].
  intros h r Hh. rewrite (Hc h r Hh). unfold count. cbn. by rewrite Z.add_0_r.
Qed.

(** ** Calls of run objects *)

(** Any change of the run objects that keeps them well formed and in the list. *)
Lemma list_ok_store l h r r' :
  list_ok l -> store l !! h = Some r -> run_ok r' -> runlist_counter r' = runlist_counter r ->
  list_ok (set_store (<[h := r']> (store l)) l).
Proof.
  intros [C1 C2 C3 C4 C5 C6 C7 C8 C9] Hh Hr Hc. split; cbn; try done.
  - by apply Forall_insert.
  - intros x rx Hx. destruct (decide (x = h)) as [->|Hne].
    + rewrite list_lookup_insert_eq in Hx by by eapply lookup_lt_Some. injection Hx as <-. rewrite Hc. by apply C6.
    + rewrite list_lookup_insert_ne in Hx by done. by apply C6.
  - intros x Hx. rewrite length_insert. by apply C7.
Qed.

Lemma call_run_keeps {A} h (m : M run exn A) l :
  list_ok l ->
  (forall r, run_ok r -> wp m (fun _ r' => run_ok r' /\ runlist_counter r' = runlist_counter r)
    (fun _ r' => run_ok r' /\ runlist_counter r' = runlist_counter r) r) ->
  wp (call_run h m) (fun _ => list_ok) (fun _ => list_ok) l.
Proof.
  intros L Hm. unfold wp, call_run. destruct (store l !! h) as [r|] eqn:Hh; [|done].
  assert (run_ok r) as Hr by (pose proof (lo_store l L) as Hs; rewrite Forall_forall in Hs; by eapply Hs, list_elem_of_lookup_2).
  specialize (Hm r Hr). unfold wp in Hm. destruct (m r); destruct Hm; by eapply list_ok_store.
Qed.

(** The runs [hs] have changed by [P], the others have not. *)
Definition changed (P : run -> run -> Prop) (hs : list nat) (l l' : runlist) : Prop :=
  forall h r, store l !! h = Some r ->
    exists r', store l' !! h = Some r' /\ if decide (h ∈ hs) then P r r' else r' = r.

Lemma run_ok_of l h r : list_ok l -> store l !! h = Some r -> run_ok r.
Proof. intros L Hh. pose proof (lo_store l L) as Hs. rewrite Forall_forall in Hs. by eapply Hs, list_elem_of_lookup_2. Qed.

(** A method that returns, called on each run of [hs]; a run may be there twice. *)
Lemma for_each_run (m : M run exn unit) (P : run -> run -> Prop) hs l :
  (forall r, run_ok r -> exists r', m r = Ok tt r' /\ run_ok r' /\ runlist_counter r' = runlist_counter r /\ P r r') ->
  (forall r1 r2 r3, P r1 r2 -> P r2 r3 -> P r1 r3) ->
  list_ok l -> (forall h, h ∈ hs -> (h < length (store l))%nat) ->
  exists s, for_each hs (fun h => call_run h m) l = Ok tt (set_store s l) /\
    list_ok (set_store s l) /\ changed P hs l (set_store s l) /\ length s = length (store l).
Proof.
  intros Hm Htr. revert l. induction hs as [|h hs IH]; intros l L Hlt.
  { exists (store l). destruct l. split_and!; try done. intros h r Hh. by exists r. }
  destruct (lookup_lt_is_Some_2 _ _ (Hlt h ltac:(set_solver))) as [r Hh].
  destruct (Hm r (run_ok_of l h r L Hh)) as (r' & Hrun & Hr' & Hc & HP).
  pose proof (list_ok_store l h r r' L Hh Hr' Hc) as L1. set (l1 := set_store (<[h := r']> (store l)) l) in *.
  assert (length (store l1) = length (store l)) as Hlen by apply length_insert.
  destruct (IH l1 L1) as (s & Hfor & L2 & Hpr & Hls); [intros x Hx; rewrite Hlen; apply Hlt; set_solver|].
  exists s. cbn [for_each]. unfold bind, call_run at 1. rewrite Hh, Hrun. fold l1.
  split_and!; [exact Hfor|exact L2| |by rewrite Hls].
  intros x rx Hx. destruct (decide (x = h)) as [->|Hne].
  - destruct (Hpr h r') as (r2 & H2 & Hif); [unfold l1; rl_simpl; apply list_lookup_insert_eq; by eapply lookup_lt_Some|].
    exists r2. rewrite Hh in Hx. injection Hx as <-. rewrite decide_True by set_solver.
    split; [done|]. destruct (decide _); [by eapply Htr|by subst r2].
  - destruct (Hpr x rx) as (r2 & H2 & Hif); [unfold l1; rl_simpl; by rewrite list_lookup_insert_ne|].
    exists r2. split; [done|]. destruct (decide (x ∈ hs)); [rewrite decide_True by set_solver|];
      [|rewrite decide_False by by intros [?|?]%elem_of_cons]; done.
Qed.

(** The state of a run's packet. *)
Definition run_state (r : run) : Z := pkt_state (header (buf r)).
Definition with_state (s : Z) (r : run) : run :=
  set_cmd (set_execbuf (set_word 0 (set_state s (header (buf r))) (buf r)) (r_cmd r)) r.

Lemma with_state_ok s r : run_ok r -> run_ok (with_state s r) /\ payload (with_state s r) = payload r /\
  (0 <= s < 16 -> run_state (with_state s r) = s).
Proof.
  intros H. pose proof (ro_packet r H) as [_ Hh]. pose proof (data_byte_eq r H) as Hd. pose proof (ko_masks _ (ro_kernel r H)) as Hm.
  destruct (run_ok_header r (set_state s (header (buf r))) H) as (H1 & P1 & E1); [by apply hdr_ok_state|].
  split; [done|]. split.
  - unfold payload. change (data_byte (with_state s r)) with (data_byte r).
    change (buf (with_state s r)) with (set_word 0 (set_state s (header (buf r))) (buf r)).
    apply (agree_bytes _ _ _ _ _ _ (proj2 P1)). lia.
  - intros Hs. unfold run_state. change (buf (with_state s r)) with (set_word 0 (set_state s (header (buf r))) (buf r)).
    rewrite E1. unfold pkt_state, set_state. apply get_set_bits; lia.
Qed.

Lemma set_run_state_eq h s l r :
  store l !! h = Some r -> set_run_state h s l = Ok tt (set_store (<[h := with_state s r]> (store l)) l).
Proof. intros Hh. unfold set_run_state, call_run. by rewrite Hh. Qed.
(** ** Adding a run *)

Lemma chunk_full i l : (24 * i + 24 <= length l)%nat -> forall h, chunk i (l ++ [h]) = chunk i l.
Proof. intros Hi h. unfold chunk. rewrite drop_app_le by lia. rewrite take_app_le; [done|]. rewrite length_drop. lia. Qed.

Lemma chunk_last i l h :
  (24 * i <= length l)%nat -> (length l < 24 * i + 24)%nat ->
  chunk i (l ++ [h]) = chunk i l ++ [h] /\ length (chunk i l) = (length l - 24 * i)%nat.
Proof.
  intros H1 H2. unfold chunk. rewrite drop_app_le by lia.
  rewrite (take_ge (drop _ l)), take_ge by (rewrite ?length_app, length_drop; cbn; lia).
  split; [done|]. apply length_drop.
Qed.

Lemma chunk_past i l : (length l <= 24 * i)%nat -> chunk i l = [].
Proof. intros Hi. unfold chunk. by rewrite drop_ge. Qed.

Lemma put_command_ok hs c v :
  chain_ok hs c -> (length hs < 24)%nat -> chain_ok hs (put_command (length hs) v c).
Proof.
  intros [A1 A2 A3 A4 A5 A6] Hl. split; cbn; try done.
  - rewrite take_insert_ge; [done|lia].
  - by rewrite length_insert.
Qed.

Lemma count_command_ok hs c h :
  chain_ok hs c -> (length hs < 24)%nat -> chain_ok (hs ++ [h]) (count_command (put_command (length hs) (kmhdl h) c)).
Proof.
  intros [A1 A2 A3 A4 A5 A6] Hl. split; cbn [ch_opcode command_count ch_count ch_data count_command put_command];
    rewrite ?length_app; cbn [length].
  - done.
  - rewrite A2, u32_small by lia. lia.
  - rewrite A3. change (8 / word_size) with 2. rewrite u32_small by lia. lia.
  - lia.
  - rewrite fmap_app, <- A5, Nat.add_1_r. rewrite (take_S_r _ _ (kmhdl h)), take_insert_ge; [done|lia|].
    rewrite list_lookup_insert_eq by lia. done.
  - by rewrite length_insert.
Qed.

(** A change of one chained command. *)
Lemma list_ok_chain l i f :
  list_ok l -> (forall c, m_cmds l !! i = Some c -> chain_ok (chunk i (m_runlist l)) (f c)) ->
  list_ok (set_cmds (alter f i (m_cmds l)) (m_alloc l) l).
Proof.
  intros [C1 C2 C3 C4 C5 C6 C7 C8 C9] Hf. split; cbn; rewrite ?length_alter; try done.
  intros j c. destruct (decide (i = j)) as [->|Hne].
  - rewrite list_lookup_alter_eq. intros (c0 & Hc & ->)%fmap_Some. by apply Hf.
  - rewrite list_lookup_alter_ne by done. apply C1.
Qed.

Section adding.
Context (fresh : nat -> chain) (grows : nat -> bool).
Hypothesis fresh_ok : forall n, length (ch_data (fresh n)) = Z.to_nat submit_size.

(** [get_cmd_chain_for_run_at_index] for the next run: the last chained command,
    which is new if the others are full. *)
Lemma get_chain_spec l :
  list_ok l -> m_state l = idle ->
  exists i l1 c, get_cmd_chain_for_run_at_index fresh grows (Z.of_nat (length (m_runlist l))) l = Ok i l1 /\
    list_ok l1 /\ m_runlist l1 = m_runlist l /\ m_state l1 = idle /\ store l1 = store l /\ m_submitted_cmds l1 = m_submitted_cmds l /\
    m_cmds l1 !! i = Some c /\ (24 * i <= length (m_runlist l))%nat /\ (length (m_runlist l) < 24 * i + 24)%nat /\
    length (m_cmds l1) = S i /\
    (if decide (length (m_runlist l) = 24 * length (m_cmds l))%nat
     then m_alloc l1 = if grows (length (m_cmds l)) then S (m_alloc l) else m_alloc l else m_alloc l1 = m_alloc l).
Proof.
  intros L Hs. pose proof L as [C1 C2 C3 C4 C5 C6 C7 C8 C9]. set (n := length (m_runlist l)) in *.
  unfold get_cmd_chain_for_run_at_index, bind, gets, id.
  replace (Z.of_nat n / submit_size) with (Z.of_nat (n / 24)) by (unfold submit_size; rewrite Nat2Z.inj_div; done).
  rewrite Nat2Z.id. pose proof (Nat.div_mod n 24 ltac:(lia)) as Hdm. pose proof (Nat.mod_upper_bound n 24 ltac:(lia)).
  destruct (Nat.ltb_spec (n / 24) (length (m_cmds l))) as [Hlt|Hge].
  - destruct (lookup_lt_is_Some_2 _ _ Hlt) as [c Hc]. exists (n / 24)%nat, l, c.
    rewrite decide_False by lia. split_and!; try done; lia.
  - set (c0 := create_exec_buf (fresh (length (m_cmds l)))).
    assert (n / 24 = length (m_cmds l))%nat as Hq by lia.
    exists (n / 24)%nat. eexists _, c0. unfold modify. cbn [m_cmds set_cmds]. rewrite length_app. cbn [length].
    rewrite (proj2 (Nat.ltb_lt (n / 24) (length (m_cmds l) + 1))) by lia.
    split; [done|]. rewrite decide_True by lia. split.
    { split; rl_simpl; rewrite ?length_app; cbn [length]; try done; [|lia|fold n; lia|by rewrite Hs].
      intros i c [Hc|[Hi Hc]]%lookup_app_Some; [by apply C1|].
      apply list_lookup_singleton_Some in Hc as [Hi0 <-].
      rewrite chunk_past by (fold n; lia). split; try done; [cbn; lia|]. cbn. rewrite fresh_ok. done. }
    split_and!; try done; rl_simpl; rewrite ?length_app; cbn [length]; try (fold n; lia).
    rewrite Hq. by apply list_lookup_middle.
Qed.
Lemma count_snoc h x l : count h (l ++ [x]) = count h l + (if decide (x = h) then 1 else 0).
Proof.
  unfold count. rewrite filter_app, length_app. destruct (decide (x = h)) as [->|Hne].
  - rewrite filter_cons_True by done. cbn. lia.
  - rewrite filter_cons_False by done. cbn. lia.
Qed.

Lemma run_ok_runlist n r : run_ok r -> run_ok (add_runlist n r).
Proof. intros [Hk Hf Ht Hp Hdt Hh Hi Hmk Hs He]. by split. Qed.

(** The state once the run is in its chained command and in the list. *)
Lemma list_ok_added l i c h r :
  list_ok l -> m_state l = idle -> m_cmds l !! i = Some c -> store l !! h = Some r ->
  (24 * i <= length (m_runlist l))%nat -> (length (m_runlist l) < 24 * i + 24)%nat -> length (m_cmds l) = S i ->
  list_ok (Runlist idle (m_runlist l ++ [h]) (m_bos l ++ [h])
    (alter count_command i (alter (put_command (Z.to_nat (command_count c)) (kmhdl h)) i (m_cmds l)))
    (m_alloc l) (m_submitted_cmds l) (<[h := add_runlist 1 r]> (store l))).
Proof.
  intros L Hs Hc Hh H1 H2 Hlen. pose proof L as [C1 C2 C3 C4 C5 C6 C7 C8 C9].
  pose proof (C1 i c Hc) as Hok. destruct (chunk_last i (m_runlist l) h H1 H2) as [E1 E2].
  pose proof (lookup_lt_Some _ _ _ Hh) as Hlt.
  split; rl_simpl; rewrite ?length_alter, ?length_app; cbn [length]; try done.
  - intros j cj Hj. destruct (decide (i = j)) as [<-|Hne].
    + rewrite !list_lookup_alter_eq, Hc in Hj. injection Hj as <-.
      rewrite (co_commands _ _ Hok), Nat2Z.id, E1. apply count_command_ok; [done|lia].
    + rewrite !list_lookup_alter_ne in Hj by done. pose proof (lookup_lt_Some _ _ _ Hj).
      rewrite chunk_full by lia. by apply C1.
  - lia.
  - lia.
  - by rewrite C4.
  - apply Forall_insert; [done|]. apply run_ok_runlist. rewrite Forall_forall in C5. by eapply C5, list_elem_of_lookup_2.
  - intros x rx Hx. rewrite count_snoc. destruct (decide (h = x)) as [<-|Hne].
    + rewrite list_lookup_insert_eq in Hx by done. injection Hx as <-. cbn. rewrite (C6 h r Hh).
      rewrite Z.add_assoc. unfold u64. rewrite Zplus_mod_idemp_l. done.
    + rewrite list_lookup_insert_ne in Hx by done. rewrite Z.add_0_r. by apply C6.
  - intros x [Hx|Hx]%elem_of_app; rewrite length_insert; [by apply C7|].
    apply list_elem_of_singleton in Hx as ->. done.
  - by left.
Qed.

Lemma add_spec binds h l :
  list_ok l -> m_state l = idle ->
  exists l1, list_ok l1 /\ m_runlist l1 = m_runlist l /\ store l1 = store l /\ m_submitted_cmds l1 = m_submitted_cmds l /\
    m_state l1 = idle /\
    (if decide (length (m_runlist l) = 24 * length (m_cmds l))%nat
     then m_alloc l1 = if grows (length (m_cmds l)) then S (m_alloc l) else m_alloc l else m_alloc l1 = m_alloc l) /\
    match store l !! h, binds with
    | Some r, true => exists l2, add kmhdl fresh grows binds h l = Ok tt l2 /\ list_ok l2 /\
        m_runlist l2 = m_runlist l ++ [h] /\ store l2 = <[h := add_runlist 1 r]> (store l) /\
        m_submitted_cmds l2 = m_submitted_cmds l /\ m_state l2 = idle /\ m_alloc l2 = m_alloc l1
    | _, _ => exists e, add kmhdl fresh grows binds h l = Err e l1
    end.
Proof.
  intros L Hs. destruct (get_chain_spec l L Hs) as (i & l1 & c & Hget & L1 & R1 & S1 & T1 & P1 & Hc & B1 & B2 & Hlen & Hal).
  pose proof (lo_chains l1 L1 i c Hc) as Hok. rewrite R1 in Hok.
  destruct (chunk_last i (m_runlist l) h B1 B2) as [_ E2].
  set (l2 := set_cmds (alter (put_command (Z.to_nat (command_count c)) (kmhdl h)) i (m_cmds l1)) (m_alloc l1) l1).
  assert (list_ok l2) as L2.
  { apply list_ok_chain; [done|]. intros c' Hc'. assert (c' = c) as -> by congruence.
    rewrite (co_commands _ _ Hok), Nat2Z.id, R1. apply put_command_ok; [done|lia]. }
  assert (add kmhdl fresh grows binds h l =
    ((if binds then ret tt else raise (other (runtime_error "bind_at failed"))) ;;;
     call_run h (modify (add_runlist 1)) ;;; upd_chain i count_command ;;; modify (push_run h)) l2) as ->.
  { unfold add, bind at 1, gets, id. rewrite decide_False by (rewrite Hs; auto). unfold bind at 1. rewrite Hget.
    unfold bind at 1, gets, id. rewrite Hc, (co_opcode _ _ Hok), Z.eqb_refl. cbn [negb].
    rewrite (co_commands _ _ Hok), (proj2 (Z.ltb_lt _ _)) by (unfold submit_size; lia). cbn [negb].
    by rewrite <- (co_commands _ _ Hok). }
  exists l2. split; [done|]. split_and!; [done..|].
  destruct binds; [|destruct (store l !! h); eexists; reflexivity].
  unfold bind, ret, call_run. change (store l2) with (store l1). rewrite T1.
  destruct (store l !! h) as [r|] eqn:Hh; [|eexists; reflexivity]. eexists. split; [reflexivity|].
  split; [|by rewrite <- R1].
  pose proof (list_ok_added l1 i c h r L1 S1 Hc) as Hfin. rewrite T1, R1 in Hfin. specialize (Hfin Hh B1 B2 Hlen).
  destruct l1. cbn in *. by subst.
Qed.

Lemma add_keeps binds h : keeps (add kmhdl fresh grows binds h).
Proof.
  intros l L. destruct (decide (m_state l = idle)) as [Hs|Hs].
  - destruct (add_spec binds h l L Hs) as (l1 & L1 & _ & _ & _ & _ & _ & H). unfold wp.
    destruct (store l !! h), binds; [destruct H as (l2 & -> & L2 & _)|destruct H as [e ->]..]; done.
  - unfold wp, add, bind, gets, id. by rewrite decide_True.
Qed.

End adding.

(** ** Executing the list *)

Lemma list_ok_state s l : list_ok l -> s = idle \/ m_state l = running -> s = idle \/ s = running -> list_ok (set_list_state s l).
Proof. intros [C1 C2 C3 C4 C5 C6 C7 C8 C9] Hs Hs'. split; rl_simpl; try done. intros ->. apply C9. by destruct Hs. Qed.

(** A run that is ready to be submitted. *)
Definition ready (r r' : run) : Prop := payload r' = payload r /\ run_state r' = ERT_CMD_STATE_NEW.

Lemma prep_runs_spec hs l :
  list_ok l -> (forall h, h ∈ hs -> (h < length (store l))%nat) ->
  exists s, for_each hs (fun h => call_run h prep_start) l = Ok tt (set_store s l) /\
    list_ok (set_store s l) /\ changed ready hs l (set_store s l) /\ length s = length (store l).
Proof.
  apply for_each_run; [|by intros r1 r2 r3 [P1 _] [P2 S2]; split; [congruence|]].
  intros r Hr. destruct (prep_start_spec r Hr) as (r' & Hrun & (Hr' & _ & Hn & _ & _ & Hp & Hc & _)).
  by exists r'.
Qed.

Definition pointers (a k : nat) : list pointer := (fun i => (a, i)) <$> seq 0 k.

Lemma pointers_S a k : pointers a (S k) = pointers a k ++ [(a, k)].
Proof. unfold pointers. by rewrite seq_S, fmap_app. Qed.

Lemma length_pointers a k : length (pointers a k) = k.
Proof. unfold pointers. by rewrite length_fmap, length_seq. Qed.

(** Submission: the commands accepted by the hardware queue are the submitted
    ones; nothing else of the list changes. *)
Definition submitted (k : nat) (l0 l : runlist) : Prop :=
  list_ok (set_list_state idle l) /\ (k <= length (m_cmds l))%nat /\ m_submitted_cmds l = pointers (m_alloc l) k /\
  m_runlist l = m_runlist l0 /\ store l = store l0 /\ length (m_cmds l) = length (m_cmds l0).

Lemma submit_cmds_spec sub n i l0 l :
  submitted i l0 l -> (i + n = length (m_cmds l))%nat ->
  wp (submit_cmds sub i n) (fun _ => submitted (i + n) l0) (fun _ l' => exists k, sub k = false /\ submitted k l0 l') l.
Proof.
  revert i l. induction n as [|n IH]; intros i l Hsub Hn; cbn [submit_cmds].
  { apply wp_ret. by rewrite Nat.add_0_r. }
  destruct Hsub as (L & Hk & Hp & Hr & Hs & Hl).
  set (l1 := set_cmds (alter (set_ch_state ERT_CMD_STATE_NEW) i (m_cmds l)) (m_alloc l) l).
  assert (list_ok (set_list_state idle l1)) as L1.
  { apply (list_ok_chain _ i (set_ch_state ERT_CMD_STATE_NEW) L). intros c Hc.
    destruct (lo_chains _ L i c Hc) as [A1 A2 A3 A4 A5 A6]. by split. }
  assert (length (m_cmds l1) = length (m_cmds l)) as Hl1 by (unfold l1; rl_simpl; apply length_alter).
  unfold upd_chain. wps; fold l1.
  - rewrite Nat.add_succ_r. apply (IH (S i)); rl_simpl; [|rewrite Hl1; lia]. split_and!; rl_simpl; try done.
    + destruct L1 as [C1 C2 C3 C4 C5 C6 C7 C8 C9]. by split.
    + rewrite Hl1. lia.
    + rewrite pointers_S. unfold l1. rl_simpl. by rewrite Hp.
    + by rewrite Hl1.
  - exists i. split; [done|]. split_and!; try done; rewrite Hl1; done || lia.
Qed.

Lemma submit_spec sub l :
  list_ok (set_list_state idle l) ->
  wp (submit sub) (fun _ => submitted (length (m_cmds l)) l) (fun _ l' => exists k, sub k = false /\ submitted k l l') l.
Proof.
  intros L. unfold submit. wps. apply (submit_cmds_spec sub (length (m_cmds l)) 0 l); [|done].
  split_and!; rl_simpl; try done; [|lia]. destruct L as [C1 C2 C3 C4 C5 C6 C7 C8 C9]. by split.
Qed.

Lemma submitted_running k l0 l : submitted k l0 l -> list_ok (set_list_state running l).
Proof.
  intros (L & Hk & Hp & _). destruct L as [C1 C2 C3 C4 C5 C6 C7 C8 C9]. split; rl_simpl; try done; [by right|].
  intros _. by exists k.
Qed.

Lemma list_execute_spec sub l :
  list_ok l -> m_state l = idle -> m_runlist l <> [] ->
  exists l1, list_ok (set_list_state idle l1) /\ m_runlist l1 = m_runlist l /\ m_cmds l1 = m_cmds l /\
    changed ready (m_runlist l) l l1 /\
    wp (execute sub) (fun _ l' => m_state l' = running /\ submitted (length (m_cmds l)) l1 l')
      (fun _ l' => m_state l' = running /\ exists k, sub k = false /\ submitted k l1 l') l.
Proof.
  intros L Hs Hne. destruct (prep_runs_spec (m_runlist l) l L (lo_runs l L)) as (s & Hfor & L1 & Hpr & _).
  set (l1 := set_store s l) in *. exists (set_list_state closed l1). split; [by apply (list_ok_state idle l1 L1); left|].
  split_and!; try done. unfold execute. wps. unfold id. rewrite decide_False by (rewrite Hs; auto).
  destruct (Nat.eqb_spec (length (m_runlist l)) 0) as [Hz|Hz]; [by apply nil_length_inv in Hz|]. wps.
  unfold wp at 1. rewrite Hfor. wps. change (set_list_state closed (set_store s l)) with (set_list_state closed l1).
  pose proof (submit_spec sub (set_list_state closed l1)) as Hsub.
  specialize (Hsub ltac:(by apply (list_ok_state idle l1 L1); left)). unfold wp in Hsub |- *.
  destruct (submit sub (set_list_state closed l1)) as [u l'|e l']; (split; [done|]); exact Hsub.
Qed.

Lemma submitted_ok k l0 l : m_state l = running -> submitted k l0 l -> list_ok l.
Proof. intros Hs H%submitted_running. destruct l; cbn in *. by subst. Qed.

Lemma execute_keeps sub : keeps (execute sub).
Proof.
  intros l L. destruct (decide (m_state l = idle)) as [Hs|Hs].
  - destruct (decide (m_runlist l = [])) as [Hn|Hn].
    + unfold wp, execute, bind, gets, id. rewrite decide_False by (rewrite Hs; auto). by rewrite Hn.
    + destruct (list_execute_spec sub l L Hs Hn) as (l1 & _ & _ & _ & _ & Hw).
      eapply wp_mono; [exact Hw|intros _ l' [Hr Hx]|intros _ l' [Hr (k & _ & Hx)]]; by eapply submitted_ok.
  - unfold wp, execute, bind, gets, id. by rewrite decide_True.
Qed.

(** ** Resetting the list *)

Lemma count_cons h x l : count h (x :: l) = (if decide (x = h) then 1 else 0) + count h l.
Proof.
  unfold count. destruct (decide (x = h)) as [->|Hne].
  - rewrite filter_cons_True by done. cbn [length]. lia.
  - by rewrite filter_cons_False.
Qed.

Definition counted (r : run) : Prop := run_ok r /\ u64 (runlist_counter r) = runlist_counter r.

(** Each run leaves the list as often as it is in it. *)
Lemma clear_spec hs l :
  Forall counted (store l) -> (forall h, h ∈ hs -> (h < length (store l))%nat) ->
  exists s, for_each hs (fun h => call_run h (modify (add_runlist (-1)))) l = Ok tt (set_store s l) /\
    Forall counted s /\
    forall h r', s !! h = Some r' -> exists r, store l !! h = Some r /\
      runlist_counter r' = u64 (runlist_counter r - count h hs).
Proof.
  revert l. induction hs as [|h hs IH]; intros l Hok Hlt.
  { exists (store l). destruct l. split_and!; try done. intros h r Hh. exists r. split; [done|].
    rewrite Forall_forall in Hok. change (count h []) with 0. rewrite Z.sub_0_r. symmetry. by eapply Hok, list_elem_of_lookup_2. }
  destruct (lookup_lt_is_Some_2 _ _ (Hlt h ltac:(set_solver))) as [r Hh].
  set (l1 := set_store (<[h := add_runlist (-1) r]> (store l)) l).
  destruct (IH l1) as (s & Hfor & Hs & Hcnt).
  { apply Forall_insert; [done|]. split; [|by cbn; unfold u64; rewrite Zmod_mod].
    apply run_ok_runlist. rewrite Forall_forall in Hok. by eapply Hok, list_elem_of_lookup_2. }
  { intros x Hx. unfold l1. rl_simpl. rewrite length_insert. apply Hlt. set_solver. }
  exists s. cbn [for_each]. unfold bind, call_run at 1. rewrite Hh. cbn [modify]. fold l1.
  split_and!; [exact Hfor|exact Hs|]. intros x rx Hx. destruct (Hcnt x rx Hx) as (r1 & Hr1 & Hc1). unfold l1 in Hr1.
  rewrite count_cons. destruct (decide (h = x)) as [<-|Hne].
  - revert Hr1. rl_simpl. rewrite list_lookup_insert_eq by by eapply lookup_lt_Some. intros [= <-].
    exists r. split; [done|]. rewrite Hc1. cbn [runlist_counter add_runlist].
    unfold u64. rewrite Zminus_mod_idemp_l. f_equal. lia.
  - revert Hr1. rl_simpl. rewrite list_lookup_insert_ne by done. intros Hr1. exists r1. split; [done|].
    by rewrite Z.add_0_l.
Qed.

Lemma reset_spec l :
  list_ok l -> m_state l <> running ->
  exists l', reset l = Ok tt l' /\ list_ok l' /\ m_runlist l' = [] /\ m_cmds l' = [] /\ m_submitted_cmds l' = [] /\ m_state l' = idle.
Proof.
  intros L Hs. pose proof L as [C1 C2 C3 C4 C5 C6 C7 C8 C9].
  destruct (clear_spec (m_runlist l) l) as (s & Hfor & Hok & Hcnt); [|done|].
  { rewrite Forall_forall in C5 |- *. intros r Hr. split; [by apply C5|].
    apply list_elem_of_lookup_1 in Hr as [h Hh]. rewrite (C6 h r Hh). unfold u64. by rewrite Zmod_mod. }
  unfold reset, clear_runs, bind, gets, id. rewrite decide_False by done.
  rewrite Hfor. eexists. split; [reflexivity|].
  split_and!; try done. split; rl_simpl; cbn [length]; try done; [lia..| | |set_solver|by left].
  - eapply Forall_impl; [exact Hok|]. by intros r [Hr _].
  - intros h r' Hr'. destruct (Hcnt h r' Hr') as (r & Hr & ->). rewrite (C6 h r Hr). unfold u64.
    rewrite Zminus_mod_idemp_l. f_equal. change (count h []) with 0. lia.
Qed.

Lemma reset_keeps : keeps reset.
Proof.
  intros l L. destruct (decide (m_state l = running)) as [Hs|Hs].
  - unfold wp, reset, bind, gets, id. by rewrite decide_True.
  - destruct (reset_spec l L Hs) as (l' & Hr & L' & _). unfold wp. by rewrite Hr.
Qed.
End runlist.
