(* ===== verification/XrtRunlistWait.v ===== *)
(** Run lists: what [wait], [poll] and [state] report of the chained commands, and
    the calls of a list in any order. *)

From S2P Require Import Prelude Bytes CppStd XclbinXml XrtKernel XrtRun XrtPacket XrtInvariant XrtPreserve XrtStart XrtRunlist XrtRunlistSpec.

Section wait.
Context (kmhdl : nat -> Z) (others : nat -> Z).
Abbreviation ok := (list_ok kmhdl others).

(** * The outcome of a submission, and what the device promises *)

Inductive list_result := Busy | Done | Failed (j : nat) (state : Z).

Definition submitted_chains (l : runlist) : list chain := take (length (m_submitted_cmds l)) (m_cmds l).

(** The first failing run is the one at [error_index] of the first chained
    command that has not completed without error. *)
Definition result_of (l : runlist) : list_result :=
  let cs := submitted_chains l in
  match last cs with
  | Some c =>
      if ch_state c <? ERT_CMD_STATE_COMPLETED then Busy else
      match list_find (fun c => ch_state c <> ERT_CMD_STATE_COMPLETED) cs with
      | None => Done
      | Some (i, c) => Failed (24 * i + Z.to_nat (error_index c)) (ch_state c)
      end
  | None => Done
  end.

(** The state is a field of 4 bits; execution is in order; a chained command that
    fails has the index of one of its commands. *)
Record device_ok (l : runlist) : Prop := {
  do_state i c : m_cmds l !! i = Some c -> 0 <= ch_state c < 16;
  do_order i c c' : submitted_chains l !! i = Some c -> last (submitted_chains l) = Some c' ->
    ERT_CMD_STATE_COMPLETED <= ch_state c' -> ERT_CMD_STATE_COMPLETED <= ch_state c;
  do_error i c : submitted_chains l !! i = Some c -> ERT_CMD_STATE_COMPLETED < ch_state c ->
    0 <= error_index c < command_count c;
}.

(** The exception for a failed run. *)
Definition aie_run (r : run) : bool :=
  let op := pkt_opcode (header (buf r)) in
  let op := if (op =? ERT_START_CU) && bool_decide (k_type (r_kernel r) = kt_dpu) then ERT_START_NPU else op in
  (op =? ERT_START_NPU) || (op =? ERT_START_DPU) || (op =? ERT_START_NPU_PREEMPT) || (op =? ERT_START_NPU_PREEMPT_ELF).
Definition failure (h : nat) (r : run) (s : Z) : list_exn := if aie_run r then aie_error h s else command_error h s.

(** * Changing the states of runs *)

Definition marked (s : Z) (r r' : run) : Prop :=
  payload r' = payload r /\ r_kernel r' = r_kernel r /\
  pkt_opcode (header (buf r')) = pkt_opcode (header (buf r)) /\ run_state r' = s.

Lemma with_state_marked s r :
  run_ok r -> 0 <= s < 16 -> run_ok (with_state s r) /\ runlist_counter (with_state s r) = runlist_counter r /\ marked s r (with_state s r).
Proof.
  intros H Hs. destruct (with_state_ok s r H) as (H1 & P1 & S1). split_and!; try done. split_and!; [done|done| |by apply S1].
  pose proof (ro_packet r H) as [_ Hh].
  destruct (run_ok_header r (set_state s (header (buf r))) H) as (_ & _ & E1); [by apply hdr_ok_state|].
  change (buf (with_state s r)) with (set_word 0 (set_state s (header (buf r))) (buf r)). rewrite E1.
  unfold pkt_opcode, set_state. apply get_set_bits_ne; lia.
Qed.

Lemma mark_runs_spec s hs l :
  0 <= s < 16 -> ok l -> (forall h, h ∈ hs -> (h < length (store l))%nat) ->
  exists st, for_each hs (fun h => set_run_state h s) l = Ok tt (set_store st l) /\
    ok (set_store st l) /\ changed (marked s) hs l (set_store st l) /\ length st = length (store l).
Proof.
  intros Hs. apply for_each_run.
  - intros r Hr. exists (with_state s r). split; [done|]. by apply with_state_marked.
  - intros r1 r2 r3 (A1 & A2 & A3 & A4) (B1 & B2 & B3 & B4). split_and!; congruence.
Qed.

Lemma run_at_eq l i h : m_runlist l !! i = Some h -> run_at (Z.of_nat i) l = Ok h l.
Proof. intros Hi. unfold run_at, bind, gets, id. by rewrite zlookup_nat, Hi. Qed.

Lemma set_run_state_list h s l u l' : set_run_state h s l = Ok u l' -> m_runlist l' = m_runlist l.
Proof.
  unfold set_run_state, call_run. destruct (store l !! h) as [r|]; [|done].
  destruct (on_packet _ r); [|done]. by intros [= <- <-].
Qed.

(** The loop of [abort_runs] to the end of the list. *)
Lemma abort_runs_each l lo :
  (lo <= length (m_runlist l))%nat ->
  abort_runs (Z.of_nat lo) (Z.of_nat (length (m_runlist l))) l =
  for_each (drop lo (m_runlist l)) (fun h => set_run_state h ERT_CMD_STATE_ABORT) l.
Proof.
  intros Hlo. unfold abort_runs. replace (Z.to_nat _) with (length (m_runlist l) - lo)%nat by lia.
  remember (length (m_runlist l) - lo)%nat as n eqn:Hn. set (f := fun i : Z => _).
  assert (forall l i h, m_runlist l !! i = Some h -> f (Z.of_nat i) l = set_run_state h ERT_CMD_STATE_ABORT l) as Hf.
  { intros l1 i h Hi. unfold f, bind. by rewrite (run_at_eq l1 i h Hi). }
  clearbody f. revert lo l Hlo Hn.
  induction n as [|n IH]; intros lo l Hlo Hn; [by rewrite drop_ge by lia|].
  destruct (lookup_lt_is_Some_2 (m_runlist l) lo) as [h Hh]; [lia|].
  rewrite (drop_S _ _ _ Hh). cbn [for_range for_each]. unfold bind. rewrite (Hf l lo h Hh).
  destruct (set_run_state h ERT_CMD_STATE_ABORT l) as [u l'|e l'] eqn:Hset; [|done].
  apply set_run_state_list in Hset. replace (Z.of_nat lo + 1) with (Z.of_nat (S lo)) by lia. rewrite <- Hset.
  apply (IH (S lo)); rewrite Hset; lia.
Qed.

(** * Failures *)

(** What [wait] does once it has found a chained command that failed. *)
Definition fail_at (n : nat) (j : Z) (s : Z) : RL unit :=
  modify (set_list_state idle) ;;;
  abort_runs (u64 (u64 j + 1)) (Z.of_nat n) ;;;
  h <- run_at (u64 j) ;;
  set_run_state h s ;;;
  throw_command_error h s.

(** The runs after [j] are aborted, run [j] has state [s]; runs may be twice in
    the list. *)
Definition failed_runs (h : nat) (j : nat) (s : Z) (l l' : runlist) : Prop :=
  forall x r, store l !! x = Some r -> exists r', store l' !! x = Some r' /\ payload r' = payload r /\
    run_state r' = (if decide (x = h) then s
                    else if decide (x ∈ drop (S j) (m_runlist l)) then ERT_CMD_STATE_ABORT else run_state r).

Lemma throw_eq h s l r : store l !! h = Some r -> throw_command_error h s l = Err (failure h r s) l.
Proof.
  intros Hh. unfold throw_command_error, failure, aie_run, bind, gets, id. rewrite Hh.
  change (execbuf (r_cmd r)) with (buf r). by destruct (_ || _).
Qed.

Lemma failure_marked h r r' s s' : marked s' r r' -> failure h r' s = failure h r s.
Proof. intros (_ & Hk & Ho & _). unfold failure, aie_run. by rewrite Hk, Ho. Qed.

Lemma fail_at_spec l j h r s :
  ok l -> m_runlist l !! j = Some h -> store l !! h = Some r -> 0 <= s < 16 ->
  Z.of_nat (length (m_runlist l)) < 2 ^ 64 ->
  exists st, fail_at (length (m_runlist l)) (Z.of_nat j) s l = Err (failure h r s) (set_store st (set_list_state idle l)) /\
    ok (set_store st (set_list_state idle l)) /\ failed_runs h j s l (set_store st (set_list_state idle l)).
Proof.
  intros L Hj Hh Hs Hlen. pose proof (lookup_lt_Some _ _ _ Hj) as Hlt.
  set (l1 := set_list_state idle l). assert (ok l1) as L1 by (apply list_ok_state; auto).
  unfold fail_at, bind at 1, modify at 1. fold l1.
  rewrite (u64_small (Z.of_nat j)), (u64_small (Z.of_nat j + 1)) by lia. replace (Z.of_nat j + 1) with (Z.of_nat (S j)) by lia.
  unfold bind at 1. change (m_runlist l) with (m_runlist l1). rewrite abort_runs_each by (cbn; lia).
  destruct (mark_runs_spec ERT_CMD_STATE_ABORT (drop (S j) (m_runlist l1)) l1) as (s1 & -> & L2 & Hm & Hl1);
    [done|done|intros x Hx; apply (lo_runs _ _ _ L1); by eapply subseteq_drop|].
  unfold bind at 1. rewrite (run_at_eq (set_store s1 l1) j h Hj).
  destruct (Hm h r Hh) as (r1 & Hr1 & Hif). revert Hr1; rl_simpl; intros Hr1.
  unfold bind at 1. rewrite (set_run_state_eq h s (set_store s1 l1) r1 Hr1).
  pose proof (run_ok_of _ _ _ h r1 L2 Hr1) as Hrok. destruct (with_state_marked s r1 Hrok Hs) as (Hw & Hc & Hmk).
  pose proof (lookup_lt_Some _ _ _ Hr1) as Hlt1.
  exists (<[h := with_state s r1]> s1). split_and!.
  - rewrite (throw_eq h s _ (with_state s r1)) by (rl_simpl; by apply list_lookup_insert_eq).
    f_equal. rewrite (failure_marked _ _ _ _ _ Hmk). destruct (decide _); [by eapply failure_marked|by subst r1].
  - by apply (list_ok_store _ _ (set_store s1 l1) h r1).
  - intros x rx Hx. destruct (Hm x rx Hx) as (r2 & Hr2 & Hif2). revert Hr2; rl_simpl; intros Hr2.
    destruct (decide (x = h)) as [->|Hne].
    + exists (with_state s r1). rewrite list_lookup_insert_eq by done. assert (rx = r) as -> by congruence.
      destruct Hmk as (P1 & _ & _ & S1). split_and!; [done| |done]. rewrite P1.
      destruct (decide _); [by destruct Hif|by subst r1].
    + exists r2. rewrite list_lookup_insert_ne by done. split; [done|].
      revert Hif2. change (m_runlist l1) with (m_runlist l). destruct (decide (x ∈ drop (S j) (m_runlist l))); [|by intros ->].
      by intros (P2 & _ & _ & S2).
Qed.

(** * The loop of [wait] *)

Lemma at_pointer_eq l i c : m_cmds l !! i = Some c -> at_pointer (m_alloc l, i) l = Ok c l.
Proof. intros Hc. unfold at_pointer. cbn [fst snd]. by rewrite Nat.eqb_refl, Hc. Qed.

Lemma completed_state l i (p : pointer) c :
  p = (m_alloc l, i) -> m_cmds l !! i = Some c -> ERT_CMD_STATE_COMPLETED <= ch_state c ->
  (if decide (last (m_submitted_cmds l) = Some p)
   then c <- at_pointer p ;; ret (ch_state c) else get_completed_state p) l = Ok (ch_state c) l.
Proof.
  intros -> Hc Hs. unfold get_completed_state, hw_wait, bind. destruct (decide _); rewrite (at_pointer_eq l i c Hc); [done|].
  unfold ret. rewrite (proj2 (Z.leb_le _ _)) by done. by rewrite (at_pointer_eq l i c Hc).
Qed.

Abbreviation failed := (fun c : chain => ch_state c <> ERT_CMD_STATE_COMPLETED).

(** From command [i] on, when all the submitted commands have completed. *)
Lemma check_cmds_spec l k n i :
  (forall j c, take k (m_cmds l) !! j = Some c -> ERT_CMD_STATE_COMPLETED <= ch_state c) ->
  (i + n = k)%nat -> (k <= length (m_cmds l))%nat ->
  check_cmds ((fun x => (m_alloc l, x)) <$> seq i n) (24 * Z.of_nat i) l =
  match list_find failed (drop i (take k (m_cmds l))) with
  | None => Ok tt l
  | Some (d, c) => fail_at (length (m_runlist l)) (error_index c + 24 * Z.of_nat (i + d)) (ch_state c) l
  end.
Proof.
  intros Hall. revert i. induction n as [|n IH]; intros i Hi Hk.
  { rewrite drop_ge by (rewrite length_take; lia). done. }
  destruct (lookup_lt_is_Some_2 (take k (m_cmds l)) i) as [c Hc]; [rewrite length_take; lia|].
  pose proof (Hall i c Hc) as Hst. rewrite (drop_S _ _ _ Hc). apply lookup_take_Some in Hc as [Hc _].
  cbn [seq fmap list_fmap check_cmds]. unfold bind at 1, gets, id.
  unfold bind at 1.
  rewrite (completed_state l i (m_alloc l, i) c eq_refl Hc Hst).
  cbn [list_find]. destruct (Z.eqb_spec (ch_state c) ERT_CMD_STATE_COMPLETED) as [He|He].
  - rewrite decide_False by auto. replace (24 * Z.of_nat i + submit_size) with (24 * Z.of_nat (S i)) by (unfold submit_size; lia).
    rewrite IH by lia. destruct (list_find failed (drop (S i) (take k (m_cmds l)))) as [[d c']|]; [|done].
    cbn. by rewrite Nat.add_succ_r.
  - rewrite decide_True by done. cbn. rewrite Nat.add_0_r. unfold bind at 1, modify at 1, fail_at, bind at 1, modify at 1.
    unfold bind at 1. by rewrite (at_pointer_eq (set_list_state idle l) i c Hc : at_pointer (m_alloc l, i) _ = _).
Qed.

(** * [wait_throw_on_error], [poll_or_throw_on_error] and [get_ert_state] *)

Lemma chunk_bound i e (l : list nat) : (e < length (chunk i l))%nat -> (24 * i + e < length l)%nat.
Proof. unfold chunk. rewrite length_take, length_drop. lia. Qed.

Lemma running_submitted l :
  ok l -> m_state l = running ->
  exists k, (k <= length (m_cmds l))%nat /\ m_submitted_cmds l = pointers (m_alloc l) k /\
    submitted_chains l = take k (m_cmds l).
Proof.
  intros L Hs. destruct (lo_running _ _ _ L Hs) as (k & Hk & Hp). exists k. split_and!; try done.
  unfold submitted_chains. by rewrite Hp, length_fmap, length_seq.
Qed.

Lemma wait_done_spec l :
  ok l -> m_state l = running -> device_ok l -> Z.of_nat (length (m_runlist l)) < 2 ^ 64 ->
  result_of l <> Busy ->
  match result_of l with
  | Failed j s => exists h r st, m_runlist l !! j = Some h /\ store l !! h = Some r /\
      check_cmds (m_submitted_cmds l) 0 l = Err (failure h r s) (set_store st (set_list_state idle l)) /\
      ok (set_store st (set_list_state idle l)) /\ failed_runs h j s l (set_store st (set_list_state idle l))
  | _ => check_cmds (m_submitted_cmds l) 0 l = Ok tt l
  end.
Proof.
  intros L Hs [D1 D2 D3] Hlen. destruct (running_submitted l L Hs) as (k & Hk & Hp & Hsc).
  unfold result_of. rewrite Hsc in D2, D3 |- *.
  destruct (last (take k (m_cmds l))) as [c|] eqn:Hlast.
  2:{ intros _. apply last_None in Hlast. assert (k = 0)%nat as ->; [|by rewrite Hp].
      destruct k, (m_cmds l); cbn in *; try done. lia. }
  destruct (Z.ltb_spec (ch_state c) ERT_CMD_STATE_COMPLETED) as [Hb|Hb]; [done|]. intros _.
  assert (forall j c', take k (m_cmds l) !! j = Some c' -> ERT_CMD_STATE_COMPLETED <= ch_state c') as Hall by (intros; by eapply D2).
  rewrite Hp. unfold pointers. pose proof (check_cmds_spec l k k 0 Hall eq_refl Hk) as Hcheck.
  rewrite drop_0 in Hcheck. change (24 * Z.of_nat 0) with 0 in Hcheck. rewrite Hcheck.
  destruct (list_find failed (take k (m_cmds l))) as [[d cd]|] eqn:Hfind; [|done].
  apply list_find_Some in Hfind as (Hd & Hne & _). pose proof (Hall d cd Hd) as Hge. specialize (D3 d cd Hd ltac:(lia)).
  apply lookup_take_Some in Hd as [Hd _].
  pose proof (lo_chains _ _ _ L d cd Hd) as Hok. rewrite (co_commands _ _ _ Hok) in D3.
  set (j := (24 * d + Z.to_nat (error_index cd))%nat).
  destruct (lookup_lt_is_Some_2 (m_runlist l) j) as [h Hh]; [apply chunk_bound; lia|].
  destruct (lookup_lt_is_Some_2 (store l) h) as [r Hr]; [by eapply lo_runs, list_elem_of_lookup_2|].
  destruct (fail_at_spec l j h r (ch_state cd) L Hh Hr (D1 d cd Hd) Hlen) as (st & Hf & Hrest).
  exists h, r, st. split_and!; try done; [|apply Hrest..]. rewrite <- Hf. f_equal. lia.
Qed.

Lemma last_pointers a k : last (pointers a (S k)) = Some (a, k).
Proof. by rewrite pointers_S, last_snoc. Qed.

(** The last submitted command. *)
Lemma last_command l :
  ok l -> m_state l = running ->
  (m_submitted_cmds l = [] /\ result_of l = Done) \/
  exists i c, last (m_submitted_cmds l) = Some (m_alloc l, i) /\ m_cmds l !! i = Some c /\
    last (submitted_chains l) = Some c /\
    (result_of l = Busy <-> ch_state c < ERT_CMD_STATE_COMPLETED).
Proof.
  intros L Hs. destruct (running_submitted l L Hs) as (k & Hk & Hp & Hsc).
  unfold result_of. destruct k as [|i]; [left; by rewrite Hsc, Hp|right].
  destruct (lookup_lt_is_Some_2 (m_cmds l) i) as [c Hc]; [lia|]. exists i, c.
  rewrite Hp, last_pointers, Hsc, (take_S_r _ _ _ Hc), last_snoc. split_and!; try done.
  destruct (Z.ltb_spec (ch_state c) ERT_CMD_STATE_COMPLETED); [done|].
  split; [|lia]. by destruct (list_find _ _) as [[]|].
Qed.

(** [wait] and [poll] agree on whether the list is busy. *)
Lemma wait_last_spec l :
  ok l -> m_state l = running ->
  (result_of l = Busy /\ wait_last_cmd l = Ok false l /\ exists s, poll_last_cmd l = Ok s l /\ s < ERT_CMD_STATE_COMPLETED) \/
  (result_of l <> Busy /\ wait_last_cmd l = Ok true l /\ exists s, poll_last_cmd l = Ok s l /\ ERT_CMD_STATE_COMPLETED <= s).
Proof.
  intros L Hs. unfold wait_last_cmd, poll_last_cmd, hw_wait, bind, gets, id.
  destruct (last_command l L Hs) as [[-> ->]|(i & c & -> & Hc & _ & Hb)].
  - right. cbn [last]. split_and!; try done. by eexists.
  - rewrite (at_pointer_eq l i c Hc). unfold ret. destruct (Z.leb_spec ERT_CMD_STATE_COMPLETED (ch_state c)) as [Hle|Hlt].
    + right. split_and!; [rewrite Hb; lia|done|by eexists].
    + left. split_and!; [by apply Hb|done|by eexists].
Qed.

Lemma wait_throw_spec l :
  ok l -> m_state l = running -> device_ok l -> Z.of_nat (length (m_runlist l)) < 2 ^ 64 ->
  match result_of l with
  | Busy => wait_throw_on_error l = Ok false l
  | Done => wait_throw_on_error l = Ok true (set_list_state idle l)
  | Failed j s => exists h r st, m_runlist l !! j = Some h /\ store l !! h = Some r /\
      wait_throw_on_error l = Err (failure h r s) (set_store st (set_list_state idle l)) /\
      ok (set_store st (set_list_state idle l)) /\ failed_runs h j s l (set_store st (set_list_state idle l))
  end.
Proof.
  intros L Hs D Hlen. pose proof (wait_done_spec l L Hs D Hlen) as Hd.
  assert (forall o, wait l = o -> wait_throw_on_error l =
    match o with Ok true l' => Ok true (set_list_state idle l') | _ => o end) as Hw.
  { intros o <-. unfold wait_throw_on_error, bind at 1, gets, id. rewrite decide_False by (rewrite Hs; auto).
    unfold bind, modify, ret. by destruct (wait l) as [[] l'|]. }
  unfold wait, bind in Hw. destruct (wait_last_spec l L Hs) as [(Hr & Hl & _)|(Hr & Hl & _)]; rewrite Hl in Hw.
  - rewrite Hr. by rewrite (Hw _ eq_refl).
  - unfold gets, id, ret in Hw. specialize (Hd Hr). destruct (result_of l) as [| |j s].
    + done.
    + rewrite Hd in Hw. by rewrite (Hw _ eq_refl).
    + destruct Hd as (h & r & st & A1 & A2 & A3 & A4). exists h, r, st. rewrite A3 in Hw. by rewrite (Hw _ eq_refl).
Qed.

(** * Whatever the device reports, the list stays well formed *)

Abbreviation keeps m := (forall l, ok l -> wp m (fun _ => ok) (fun _ => ok) l).

(** A query leaves the list as it is. *)
Definition query {A} (m : RL A) : Prop := forall l, wp m (fun _ l' => l' = l) (fun _ l' => l' = l) l.

Lemma query_bind {A B} (m : RL A) (f : A -> RL B) : query m -> (forall a, query (f a)) -> query (bind m f).
Proof. intros Hm Hf l. apply wp_bind. eapply wp_mono; [apply Hm|intros a l' ->; apply Hf|done]. Qed.

Lemma query_keeps {A B} (m : RL A) (f : A -> RL B) : query m -> (forall a, keeps (f a)) -> keeps (bind m f).
Proof. intros Hm Hf l L. apply wp_bind. eapply wp_mono; [apply Hm|intros a l' ->; by apply Hf|intros e l' ->; done]. Qed.

Lemma at_pointer_query p : query (at_pointer p).
Proof. intros l. unfold wp, at_pointer. destruct (fst p =? m_alloc l)%nat; [|done]. by destruct (m_cmds l !! snd p). Qed.

Lemma query_ret {A} (a : A) : query (ret a).
Proof. by intros l. Qed.

Lemma query_gets {A} (f : runlist -> A) : query (gets f).
Proof. by intros l. Qed.

Lemma query_raise {A} e : query (A := A) (raise e).
Proof. by intros l. Qed.

Lemma run_at_query i : query (run_at i).
Proof. apply query_bind; [apply query_gets|]. intros l. destruct (zlookup _ _); [apply query_ret|apply query_raise]. Qed.

Lemma hw_wait_query p : query (hw_wait p).
Proof. apply query_bind; [apply at_pointer_query|]. intros c. apply query_ret. Qed.

Lemma get_completed_query p : query (get_completed_state p).
Proof.
  apply query_bind; [apply hw_wait_query|]. intros []; [|apply query_raise].
  apply query_bind; [apply at_pointer_query|]. intros c. apply query_ret.
Qed.

Lemma wait_last_query : query wait_last_cmd.
Proof. apply query_bind; [apply query_gets|]. intros l. destruct (last _); [apply hw_wait_query|apply query_ret]. Qed.

Lemma poll_last_query : query poll_last_cmd.
Proof.
  apply query_bind; [apply query_gets|]. intros l. destruct (last _); [|apply query_ret].
  apply query_bind; [apply at_pointer_query|]. intros c. apply query_ret.
Qed.

Lemma throw_query h s : query (throw_command_error h s).
Proof.
  apply query_bind; [apply query_gets|]. intros l. destruct (_ !! h); [|apply query_raise].
  cbv zeta. destruct (_ || _); apply query_raise.
Qed.

Lemma query_keeps_last {A} (m : RL A) : query m -> keeps m.
Proof. intros Hm l L. eapply wp_mono; [apply Hm|intros a l' ->; done|intros e l' ->; done]. Qed.

Lemma list_keeps_bind {A B} (m : RL A) (f : A -> RL B) : keeps m -> (forall a, keeps (f a)) -> keeps (bind m f).
Proof. intros Hm Hf l L. apply wp_bind. eapply wp_mono; [by apply Hm|intros a l' L'; by apply Hf|done]. Qed.

Lemma set_run_state_keeps h s : keeps (set_run_state h s).
Proof.
  intros l L. apply call_run_keeps; [done|]. intros r Hr. split; [|done]. by apply with_state_ok.
Qed.

Lemma abort_runs_keeps lo hi : keeps (abort_runs lo hi).
Proof.
  intros l L. apply (wp_for_range (fun _ => ok)); [done|]. intros i l' _ L'.
  revert l' L'. apply query_keeps; [apply run_at_query|]. intros h. apply set_run_state_keeps.
Qed.

Lemma set_idle_keeps : keeps (modify (set_list_state idle) : RL unit).
Proof. intros l L. apply wp_modify. apply list_ok_state; auto. Qed.

Lemma check_cmds_keeps ps runidx : keeps (check_cmds ps runidx).
Proof.
  revert runidx. induction ps as [|p ps IH]; intros runidx; cbn [check_cmds]; [apply query_keeps_last, query_ret|].
  apply query_keeps; [apply query_gets|]. intros l0. apply query_keeps.
  { destruct (decide _); [apply query_bind; [apply at_pointer_query|intros c; apply query_ret]|apply get_completed_query]. }
  intros s. destruct (s =? _); [apply IH|].
  apply list_keeps_bind; [apply set_idle_keeps|]. intros _. apply query_keeps; [apply at_pointer_query|]. intros c. cbv zeta.
  apply list_keeps_bind; [apply abort_runs_keeps|]. intros _. apply query_keeps; [apply run_at_query|]. intros h.
  apply list_keeps_bind; [apply set_run_state_keeps|]. intros _. apply query_keeps_last, throw_query.
Qed.

Lemma wait_throw_keeps : keeps wait_throw_on_error.
Proof.
  apply query_keeps; [apply query_gets|]. intros l0. destruct (decide _); [apply query_keeps_last, query_ret|].
  apply list_keeps_bind.
  - apply query_keeps; [apply wait_last_query|]. intros []; [|apply query_keeps_last, query_ret].
    apply query_keeps; [apply query_gets|]. intros l1. apply list_keeps_bind; [apply check_cmds_keeps|].
    intros _. apply query_keeps_last, query_ret.
  - intros []; [|apply query_keeps_last, query_ret]. apply list_keeps_bind; [apply set_idle_keeps|].
    intros _. apply query_keeps_last, query_ret.
Qed.

Lemma poll_throw_keeps : keeps poll_or_throw_on_error.
Proof.
  apply query_keeps; [apply query_gets|]. intros l0. destruct (decide _); [apply query_keeps_last, query_ret|].
  apply query_keeps; [apply poll_last_query|]. intros s. destruct (_ <? _); [apply query_keeps_last, query_ret|].
  apply list_keeps_bind; [apply wait_throw_keeps|]. intros _. apply query_keeps_last, query_ret.
Qed.

Lemma get_ert_state_keeps : keeps get_ert_state.
Proof.
  apply query_keeps; [apply poll_last_query|]. intros s. destruct (_ <? _); [apply query_keeps_last, query_ret|].
  intros l L. pose proof (wait_throw_keeps l L) as Hw. unfold wp in *. by destruct (wait_throw_on_error l) as [|[] ].
Qed.

Lemma device_update_keeps i s si ei l : ok l -> ok (device_update i s si ei l).
Proof.
  intros L. apply (list_ok_chain kmhdl others l i); [done|]. intros c Hc.
  destruct (lo_chains _ _ _ L i c Hc) as [A1 A2 A3 A4 A5 A6]. by split.
Qed.
End wait.
