(* ===== verification/XrtRunlistTheorems.v ===== *)
(** Properties of run lists: the chained commands hold the runs of the list in
    order and a run of a list cannot be started on its own; executing the list
    hands all the runs to the hardware queue; [wait], [poll] and [state] report
    the first run that failed; and a list whose state is asked for after it has
    grown reads commands that have moved. *)

From S2P Require Import Prelude Bytes CppStd XclbinXml XrtKernel XrtRun XrtPacket XrtInvariant XrtPreserve XrtStart XrtTheorems.
From S2P Require Import XrtRunlist XrtRunlistSpec XrtRunlistWait.

(** * The calls of a list *)

Inductive list_call :=
| Add (binds : bool) (h : nat)
| Execute (sub : nat -> bool)
| Wait
| Poll
| State
| Reset
| Device (i : nat) (state submit_index error_index : Z).

(** The list after a call, whether it returns or throws. *)
Definition final {A} (m : RL A) (l : runlist) : runlist := match m l with Ok _ l' | Err _ l' => l' end.

Definition perform (kmhdl : nat -> Z) (fresh : nat -> chain) (grows : nat -> bool) (c : list_call) (l : runlist) : runlist :=
  match c with
  | Add b h => final (add kmhdl fresh grows b h) l
  | Execute sub => final (execute sub) l
  | Wait => final wait_throw_on_error l
  | Poll => final poll_or_throw_on_error l
  | State => final get_ert_state l
  | Reset => final reset l
  | Device i s si ei => device_update i s si ei l
  end.

(** The commands of a chained command. *)
Definition chain_commands (c : chain) : list Z := take (Z.to_nat (command_count c)) (ch_data c).

Lemma final_keeps {A} (m : RL A) (P : runlist -> Prop) l : wp m (fun _ => P) (fun _ => P) l -> P (final m l).
Proof. unfold wp, final. by destruct (m l). Qed.

Section calls.
Context (kmhdl : nat -> Z) (others : nat -> Z).

Lemma perform_keeps fresh grows c l :
  (forall n, length (ch_data (fresh n)) = Z.to_nat submit_size) ->
  list_ok kmhdl others l -> list_ok kmhdl others (perform kmhdl fresh grows c l).
Proof.
  intros Hf L. destruct c; cbn [perform]; try apply final_keeps.
  - by apply add_keeps.
  - by apply execute_keeps.
  - by apply wait_throw_keeps.
  - by apply poll_throw_keeps.
  - by apply get_ert_state_keeps.
  - by apply reset_keeps.
  - by apply device_update_keeps.
Qed.

Lemma perform_all fresh grows cs l :
  (forall n, length (ch_data (fresh n)) = Z.to_nat submit_size) ->
  list_ok kmhdl others l -> list_ok kmhdl others (foldl (fun l c => perform kmhdl fresh grows c l) l cs).
Proof. intros Hf. revert l. induction cs as [|c cs IH]; intros l L; [done|]. cbn. by apply IH, perform_keeps. Qed.

Lemma chunks_concat k (l : list nat) : (length l <= 24 * k)%nat -> concat ((fun i => chunk i l) <$> seq 0 k) = l.
Proof.
  intros Hk. assert (forall n, concat ((fun i => chunk i l) <$> seq 0 n) = take (24 * n) l) as H.
  { induction n as [|n IH]; [done|]. rewrite seq_S, fmap_app, concat_app, IH. cbn. rewrite app_nil_r. unfold chunk.
    rewrite take_take_drop. f_equal. lia. }
  rewrite H. by apply take_ge.
Qed.

Lemma list_commands l : list_ok kmhdl others l -> concat (chain_commands <$> m_cmds l) = kmhdl <$> m_runlist l.
Proof.
  intros L. assert (chain_commands <$> m_cmds l = (fun i => kmhdl <$> chunk i (m_runlist l)) <$> seq 0 (length (m_cmds l))) as ->.
  { apply list_eq. intros i. rewrite !list_lookup_fmap. destruct (m_cmds l !! i) as [c|] eqn:Hc.
    - rewrite lookup_seq_lt by by eapply lookup_lt_Some. cbn. f_equal. unfold chain_commands.
      destruct (lo_chains _ _ _ L i c Hc) as [A1 A2 A3 A4 A5 A6]. by rewrite A2, Nat2Z.id.
    - rewrite lookup_seq_ge; [done|]. by apply lookup_ge_None. }
  change (fun i => kmhdl <$> chunk i (m_runlist l)) with (fmap (M := list) kmhdl ∘ (fun i => chunk i (m_runlist l))).
  rewrite list_fmap_compose. etransitivity; [symmetry; apply concat_map|]. apply (f_equal (map kmhdl)). by apply chunks_concat, L.
Qed.

Lemma count_pos h l : h ∈ l -> 0 < count h l.
Proof.
  intros Hin. unfold count. destruct (filter (fun x => x = h) l) as [|x f] eqn:Hf; [|cbn; lia].
  assert (h ∈ filter (fun x => x = h) l) as Hh by by apply list_elem_of_filter. rewrite Hf in Hh. set_solver.
Qed.
End calls.

(** * Claims *)

(** C16: the chained commands of a list.  After any calls of a list (add, execute,
    wait, poll, state, reset) and any updates by the device, whether the calls
    return or throw, each chained command is a chain packet that counts at most 24
    commands and as many payload words as they take; together the chained
    commands hold the execution buffers of the runs of the list, in order; and a
    run of the list cannot be started on its own. *)
Theorem runlist_chains kmhdl others fresh grows rs cs :
  (forall n, length (ch_data (fresh n)) = Z.to_nat submit_size) ->
  Forall run_ok rs -> (forall h r, rs !! h = Some r -> runlist_counter r = u64 (others h)) ->
  let l := foldl (fun l c => perform kmhdl fresh grows c l) (new_runlist rs) cs in
  concat (chain_commands <$> m_cmds l) = kmhdl <$> m_runlist l /\
  (forall c, c ∈ m_cmds l -> ch_opcode c = ERT_CMD_CHAIN /\ 0 <= command_count c <= submit_size /\
     word_size * ch_count c = sizeof_chain_data + 8 * command_count c) /\
  (forall h r b, h ∈ m_runlist l -> store l !! h = Some r -> 0 <= others h -> others h + count h (m_runlist l) < 2 ^ 64 ->
     exists msg, start b r = Err (xrt_error msg) r).
Proof.
  intros Hf Hr Hc l. pose proof (perform_all kmhdl others fresh grows cs _ Hf (list_ok_new kmhdl others rs Hr Hc)) as L.
  fold l in L. split; [by apply list_commands with others|]. split.
  - intros c Hin. apply list_elem_of_lookup_1 in Hin as [i Hi].
    destruct (lo_chains _ _ _ L i c Hi) as [A1 A2 A3 A4 A5 A6]. rewrite A2, A3. unfold submit_size, word_size, sizeof_chain_data.
    split_and!; [done|lia..].
  - intros h r b Hin Hh Ho Hlt. pose proof (count_pos h (m_runlist l) Hin). eexists.
    unfold start, bind, gets, id. rewrite (lo_counter _ _ _ L h r Hh), u64_small by lia.
    destruct (Z.eqb_spec (others h + count h (m_runlist l)) 0); [lia|]. reflexivity.
Qed.

(** Executing a list.  An idle list with runs, whose chained commands the
    hardware queue accepts, is running after [execute]; what has been submitted
    is the execution buffers of all its runs, in order, each run is marked new
    and has the arguments that were set. *)
Theorem execute_submits kmhdl others l :
  list_ok kmhdl others l -> m_state l = idle -> m_runlist l <> [] ->
  exists l', execute (fun _ => true) l = Ok tt l' /\
  m_state l' = running /\ m_runlist l' = m_runlist l /\
  concat (chain_commands <$> submitted_chains l') = kmhdl <$> m_runlist l /\
  (forall h r, h ∈ m_runlist l -> store l !! h = Some r -> exists r', store l' !! h = Some r' /\
     run_state r' = ERT_CMD_STATE_NEW /\ payload r' = payload r).
Proof.
  intros L Hs Hne. destruct (list_execute_spec _ _ (fun _ => true) l L Hs Hne) as (l1 & L1 & Hr1 & Hc1 & Hch & Hw).
  unfold wp in Hw. destruct (execute (fun _ => true) l) as [[] l'|e l']; [|by destruct Hw as (_ & k & ? & _)].
  destruct Hw as [Hrun Hsub]. exists l'. split; [done|].
  pose proof (submitted_ok _ _ _ _ _ Hrun Hsub) as L'. destruct Hsub as (_ & Hk & Hp & Hr & Hst & Hlen).
  split_and!; [done|congruence| |].
  - unfold submitted_chains. rewrite Hp, length_pointers, take_ge by (rewrite Hlen, Hc1; done).
    rewrite (list_commands kmhdl others l' L'). congruence.
  - intros h r Hin Hh. destruct (Hch h r Hh) as (r' & Hr' & Hif). rewrite decide_True in Hif by done.
    exists r'. rewrite Hst. split; [done|]. by destruct Hif.
Qed.

(** C10: waiting for a list.  While the last chained command has not completed,
    [wait] times out and changes nothing.  When all have completed without error
    it returns and the list is idle.  Otherwise the first chained command with an
    error names the run that failed: the list becomes idle, that run gets the
    state of its chained command, the runs after it are marked aborted, all
    others and all arguments are left alone, and the exception has the run and
    its state. *)
Theorem wait_reports kmhdl others l :
  list_ok kmhdl others l -> m_state l = running -> device_ok l -> Z.of_nat (length (m_runlist l)) < 2 ^ 64 ->
  match result_of l with
  | Busy => wait_throw_on_error l = Ok false l
  | Done => wait_throw_on_error l = Ok true (set_list_state idle l)
  | Failed j s => exists h r l', m_runlist l !! j = Some h /\ store l !! h = Some r /\
      wait_throw_on_error l = Err (failure h r s) l' /\
      m_state l' = idle /\ m_runlist l' = m_runlist l /\ m_cmds l' = m_cmds l /\ failed_runs h j s l l'
  end.
Proof.
  intros L Hs D Hlen. pose proof (wait_throw_spec kmhdl others l L Hs D Hlen) as Hw. destruct (result_of l); [done..|].
  destruct Hw as (h & r & st & H1 & H2 & H3 & _ & H4). eexists h, r, _. split_and!; done.
Qed.

(** The three ways to ask agree.  On a running list [poll] returns 0 exactly
    while [wait] would time out, 1 when it would return and throws what [wait]
    throws; [state] returns a state before COMPLETED while the list is busy,
    COMPLETED when it is done and otherwise the state of the run that failed. *)
Theorem poll_and_state_agree kmhdl others l :
  list_ok kmhdl others l -> m_state l = running -> device_ok l -> Z.of_nat (length (m_runlist l)) < 2 ^ 64 ->
  match result_of l with
  | Busy => poll_or_throw_on_error l = Ok 0 l /\ exists s, get_ert_state l = Ok s l /\ s < ERT_CMD_STATE_COMPLETED
  | Done => poll_or_throw_on_error l = Ok 1 (set_list_state idle l) /\
      get_ert_state l = Ok ERT_CMD_STATE_COMPLETED (set_list_state idle l)
  | Failed j s => exists e l', wait_throw_on_error l = Err e l' /\
      poll_or_throw_on_error l = Err e l' /\ get_ert_state l = Ok s l'
  end.
Proof.
  intros L Hs D Hlen. pose proof (wait_throw_spec kmhdl others l L Hs D Hlen) as Hw.
  unfold poll_or_throw_on_error, get_ert_state, bind, gets, id, ret. rewrite !decide_False by (rewrite Hs; auto).
  destruct (wait_last_spec _ _ l L Hs) as [(Hr & _ & s & -> & Hlt)|(Hr & _ & s & -> & Hge)].
  - rewrite Hr, (proj2 (Z.ltb_lt _ _) Hlt). split; [done|]. by eexists.
  - rewrite (proj2 (Z.ltb_ge _ _) Hge). destruct (result_of l) as [| |j st]; [done| |].
    + rewrite Hw. split; reflexivity.
    + destruct Hw as (h & r & str & _ & _ & -> & _). eexists _, _. split_and!; [reflexivity..|].
      unfold failure. by destruct (aie_run r).
Qed.

(** Asking for the state of a list that has grown.  A list whose chained
    commands are all full has been executed and waited for; one more run is
    added, and the vector of chained commands moves its elements.  [state] then
    reads the last submitted command through a pointer to the old elements. *)
Theorem state_after_growth kmhdl others fresh grows l h r k :
  (forall n, length (ch_data (fresh n)) = Z.to_nat submit_size) ->
  list_ok kmhdl others l -> m_state l = idle -> m_submitted_cmds l = pointers (m_alloc l) (S k) ->
  length (m_runlist l) = (24 * length (m_cmds l))%nat -> grows (length (m_cmds l)) = true -> store l !! h = Some r ->
  exists l', add kmhdl fresh grows true h l = Ok tt l' /\ get_ert_state l' = Err (other bad_read) l'.
Proof.
  intros Hf L Hs Hp Hfull Hg Hh. destruct (add_spec kmhdl others fresh grows Hf true h l L Hs) as (l1 & _ & _ & _ & _ & _ & Ha & Hadd).
  rewrite Hh in Hadd. destruct Hadd as (l' & Hadd & _ & _ & _ & Hp' & _ & Ha'). exists l'. split; [done|].
  rewrite decide_True, Hg in Ha by done.
  unfold get_ert_state, poll_last_cmd, bind, gets, id. rewrite Hp', Hp, last_pointers. unfold at_pointer. cbn [fst snd].
  rewrite Ha', Ha. rewrite (proj2 (Nat.eqb_neq (m_alloc l) (S (m_alloc l)))) by lia. reflexivity.
Qed.

(** * Witnesses *)

Definition ex_kmhdl (h : nat) : Z := 100 + Z.of_nat h.
Definition ex_fresh (n : nat) : chain := Chain 0 0 0 7 7 7 (replicate 24 0).
Definition ex_grows (n : nat) : bool := (n =? 0)%nat || (n =? 2 ^ Nat.log2 n)%nat.
Definition ex_others (h : nat) : Z := 0.
Definition ex_calls (cs : list list_call) : runlist :=
  foldl (fun l c => perform ex_kmhdl ex_fresh ex_grows c l) (new_runlist [ex_run; ex_run]) cs.

Definition ex_added : runlist := ex_calls [Add true 0; Add true 1; Add true 0].
Definition ex_failed : runlist :=
  ex_calls [Add true 0; Add true 1; Add true 0; Execute (fun _ => true); Device 0 5 2 1].
Definition ex_full : runlist :=
  ex_calls (replicate 24 (Add true 0) ++ [Execute (fun _ => true); Device 0 4 0 0; Wait]).

Lemma ex_fresh_ok n : length (ch_data (ex_fresh n)) = Z.to_nat submit_size.
Proof. reflexivity. Qed.

Lemma ex_runs_ok : Forall run_ok [ex_run; ex_run].
Proof. apply Forall_cons; split; [apply ex_run_ok|]. apply Forall_cons; split; [apply ex_run_ok|]. apply Forall_nil, I. Qed.

Lemma ex_counter : runlist_counter ex_run = 0.
Proof. vm_compute. reflexivity. Qed.

Lemma ex_counters h r : [ex_run; ex_run] !! h = Some r -> runlist_counter r = u64 (ex_others h).
Proof.
  intros Hh. assert (r = ex_run) as ->; [|apply ex_counter].
  apply list_elem_of_lookup_2 in Hh. rewrite !elem_of_cons in Hh. destruct Hh as [Hh|[Hh|Hh]]; [exact Hh..|].
  by apply elem_of_nil in Hh.
Qed.

Lemma ex_calls_ok cs : list_ok ex_kmhdl ex_others (ex_calls cs).
Proof. apply perform_all; [apply ex_fresh_ok|]. apply list_ok_new; [apply ex_runs_ok|apply ex_counters]. Qed.

Lemma ex_added_runs : m_runlist ex_added = [0; 1; 0]%nat.
Proof. vm_compute. reflexivity. Qed.

Lemma runlist_chains_witness :
  concat (chain_commands <$> m_cmds ex_added) = [100; 101; 100] /\
  forall r, store ex_added !! 1%nat = Some r -> exists msg, start true r = Err (xrt_error msg) r.
Proof.
  destruct (runlist_chains ex_kmhdl ex_others ex_fresh ex_grows [ex_run; ex_run] [Add true 0; Add true 1; Add true 0]
    ex_fresh_ok ex_runs_ok ex_counters) as (H1 & _ & H3).
  split; [etransitivity; [exact H1|]; conc|]. unfold ex_added, ex_calls. intros r Hr. apply (H3 1%nat r true); [|exact Hr|done|].
  - apply (list_elem_of_lookup_2 _ 1). conc.
  - conc.
Defined.

Lemma execute_submits_witness :
  exists l', execute (fun _ => true) ex_added = Ok tt l' /\
    concat (chain_commands <$> submitted_chains l') = [100; 101; 100].
Proof.
  destruct (execute_submits ex_kmhdl ex_others ex_added) as (l' & H1 & _ & _ & H2 & _);
    [apply ex_calls_ok|conc|rewrite ex_added_runs; discriminate|].
  exists l'. split; [exact H1|]. rewrite H2, ex_added_runs. conc.
Defined.

Definition ex_failed_chain : chain := Chain 5 ERT_CMD_CHAIN 12 3 2 1 ([100; 101; 100] ++ replicate 21 0).

Lemma ex_failed_cmds : m_cmds ex_failed = [ex_failed_chain] /\ m_submitted_cmds ex_failed = [(1, 0)]%nat.
Proof. vm_compute. split; reflexivity. Qed.

Lemma ex_failed_chains : submitted_chains ex_failed = [ex_failed_chain].
Proof. unfold submitted_chains. destruct ex_failed_cmds as [-> ->]. reflexivity. Qed.

Lemma ex_failed_device : device_ok ex_failed.
Proof.
  assert (forall i c, [ex_failed_chain] !! i = Some c -> c = ex_failed_chain) as Hone.
  { intros i c Hc. by apply list_lookup_singleton_Some in Hc as [_ <-]. }
  split; rewrite ?ex_failed_chains, ?(proj1 ex_failed_cmds).
  - intros i c Hc. rewrite (Hone i c Hc). range.
  - intros i c c' Hc _ _. rewrite (Hone i c Hc). range.
  - intros i c Hc _. rewrite (Hone i c Hc). range.
Qed.

Lemma ex_failed_result : result_of ex_failed = Failed 1 5.
Proof. unfold result_of. rewrite ex_failed_chains. reflexivity. Qed.

Lemma wait_reports_witness :
  exists r l', wait_throw_on_error ex_failed = Err (failure 1 r 5) l' /\ m_state l' = idle /\
    failed_runs 1 1 5 ex_failed l'.
Proof.
  pose proof (wait_reports ex_kmhdl ex_others ex_failed (ex_calls_ok _) ltac:(conc) ex_failed_device ltac:(conc)) as H.
  rewrite ex_failed_result in H. destruct H as (h & r & l' & Hh & _ & Hw & Hs & _ & _ & Hf).
  assert (h = 1)%nat as ->.
  { apply (inj Some). rewrite <- Hh. conc. }
  exists r, l'. exact (conj Hw (conj Hs Hf)).
Defined.

Lemma poll_and_state_agree_witness : exists l', get_ert_state ex_failed = Ok 5 l'.
Proof.
  pose proof (poll_and_state_agree ex_kmhdl ex_others ex_failed (ex_calls_ok _) ltac:(conc) ex_failed_device ltac:(conc)) as H.
  rewrite ex_failed_result in H. destruct H as (e & l' & _ & _ & H). exact (ex_intro _ l' H).
Defined.

Lemma state_after_growth_witness :
  exists l', add ex_kmhdl ex_fresh ex_grows true 1 ex_full = Ok tt l' /\ get_ert_state l' = Err (other bad_read) l'.
Proof.
  assert (is_Some (store ex_full !! 1%nat)) as [r Hr] by (apply lookup_lt_is_Some_2; conc; lia).
  apply (state_after_growth ex_kmhdl ex_others ex_fresh ex_grows ex_full 1 r 0 ex_fresh_ok (ex_calls_ok _));
    [conc|conc|conc|conc|exact Hr].
Defined.
