(* ===== verification/HwQueue.v ===== *)
(** Hardware queues, [core/common/api/hw_queue.cpp] and the commands of
    [core/common/api/xrt_kernel.cpp] that are started on them: the monitor thread
    of a command manager, which notifies commands with callbacks, the threads
    that wait for a command, and the [exec_wait] call of a device that all of
    them share.

    A thread is at a point of its program and has the thread local call count of
    [exec_wait] ([seen]); one step runs the code up to the next point where
    other threads can interfere: a critical section, a read or a write of a
    packet, a wait of a condition variable.  A thread in such a wait is asleep
    until it is notified.  The driver writes the state of a completed command to
    its packet and then counts an event ([client->event]); a successful
    [exec_wait] of the device takes one event.  Commands are the command objects of
    [XrtRun]; a queue is addressed by the number of its device. *)

From S2P Require Import Prelude Bytes CppStd XclbinXml XrtKernel XrtRun.

(** * State *)

(** The queue of a device: events of the driver that are due and that have been
    counted, [m_exec_wait_call_count], [m_exec_wait_active], and the command
    manager. *)
Record kds_device := KdsDevice {
  signals : nat;
  events : nat;
  m_exec_wait_call_count : Z;
  m_exec_wait_active : Z;
  submitted_cmds : list nat;
  running_cmds : list nat;
  stop : bool;
}.

Definition new_device : kds_device := KdsDevice 0 0 0 0 [] [] false.

(** The points of [exec_wait]: before the first critical section, asleep in
    [m_work.wait], woken, in [device::exec_wait], before the second critical
    section, and before [m_work.notify_all]; the last two with the status. *)
Inductive wait_point := Enter | Asleep | Woken | InDevice | Leave (timeout : bool) | WakeAll (timeout : bool).

(** The points of [monitor_loop]. *)
Inductive monitor_point :=
| Idle
| IdleAsleep
| Go
| Waits (w : wait_point)
| Drain
| Scan (i n : nat) (busy_cmds : list nat)
| Notify (i n : nat) (busy_cmds : list nat) (cmd : nat)
| Mark (i n : nat) (busy_cmds : list nat) (cmd : nat) (state : Z)
| Exit.

Inductive point :=
| Ended
| Threw
| WaitTest (c : nat) (timed : bool)                    (** [kds_device::wait] *)
| WaitExec (c : nat) (timed : bool) (w : wait_point)
| WaitNotify (c : nat)
| DoneTest (c : nat) (timed : bool)                    (** [kernel_command::wait], managed *)
| DoneAsleep (c : nat) (timed : bool)
| Polls (c : nat)                                      (** [kernel_command::get_state] *)
| Starts (c : nat)                                     (** [run_impl::start] *)
| RunCmd (c : nat)                                     (** [kernel_command::run] *)
| Push (c : nat)                                       (** [command_manager::launch] *)
| Submit (c : nat)
| Kick (c : nat)
| Remove (c : nat)
| SubmitUnmanaged (c : nat)
| Restore (c : nat)                                    (** the handler in [kernel_command::run] *)
| Marks (c : nat) (state : Z)                             (** [kernel_command::notify] *)
| Monitor (d : nat) (m : monitor_point).

Record thread := Thread { seen : Z; at_point : point }.

(** [executing] are the commands the driver has accepted; [starts] and [calls] record
    the started commands and the callbacks that were called. *)
Record conf := Conf {
  cmds : list command;
  devs : list kds_device;
  executing : list nat;
  threads : list thread;
  starts : list nat;
  calls : list (nat * Z);
}.

(** * Updates *)

Definition on_cmds (f : list command -> list command) (s : conf) : conf :=
  Conf (f (cmds s)) (devs s) (executing s) (threads s) (starts s) (calls s).
Definition on_devs (f : list kds_device -> list kds_device) (s : conf) : conf :=
  Conf (cmds s) (f (devs s)) (executing s) (threads s) (starts s) (calls s).
Definition on_executing (f : list nat -> list nat) (s : conf) : conf :=
  Conf (cmds s) (devs s) (f (executing s)) (threads s) (starts s) (calls s).
Definition on_threads (f : list thread -> list thread) (s : conf) : conf :=
  Conf (cmds s) (devs s) (executing s) (f (threads s)) (starts s) (calls s).
Definition log_start (c : nat) (s : conf) : conf :=
  Conf (cmds s) (devs s) (executing s) (threads s) (starts s ++ [c]) (calls s).
Definition log_calls (c : nat) (fs : list Z) (s : conf) : conf :=
  Conf (cmds s) (devs s) (executing s) (threads s) (starts s) (calls s ++ map (fun f => (c, f)) fs).

Definition set_lists (sub run : list nat) (k : kds_device) : kds_device :=
  KdsDevice (signals k) (events k) (m_exec_wait_call_count k) (m_exec_wait_active k) sub run (stop k).
Definition set_stop (k : kds_device) : kds_device :=
  KdsDevice (signals k) (events k) (m_exec_wait_call_count k) (m_exec_wait_active k) (submitted_cmds k) (running_cmds k) true.
Definition set_wait (e : nat) (count act : Z) (k : kds_device) : kds_device :=
  KdsDevice (signals k) e count act (submitted_cmds k) (running_cmds k) (stop k).
Definition set_events (sg e : nat) (k : kds_device) : kds_device :=
  KdsDevice sg e (m_exec_wait_call_count k) (m_exec_wait_active k) (submitted_cmds k) (running_cmds k) (stop k).

(** * Commands *)

Definition get_command_state (c : command) : Z := pkt_state (header (execbuf c)).
Definition completed (c : command) : bool := ERT_CMD_STATE_COMPLETED <=? get_command_state c.
Definition put_state (x : Z) (c : command) : command :=
  set_execbuf (set_word 0 (set_state x (header (execbuf c))) (execbuf c)) c.

(** The notification of condition variables. *)
Definition wake_done (c : nat) (t : thread) : thread :=
  match at_point t with
  | DoneAsleep c' timed => if (c' =? c)%nat then Thread (seen t) (DoneTest c timed) else t
  | _ => t
  end.

Section queue.
(** The device of a command. *)
Context (dev_of : nat -> nat).

Definition wake_waiters (d : nat) (t : thread) : thread :=
  match at_point t with
  | WaitExec c b Asleep => if (dev_of c =? d)%nat then Thread (seen t) (WaitExec c b Woken) else t
  | Monitor d' (Waits Asleep) => if (d' =? d)%nat then Thread (seen t) (Monitor d' (Waits Woken)) else t
  | _ => t
  end.
Definition wake_monitor (d : nat) (t : thread) : thread :=
  match at_point t with
  | Monitor d' IdleAsleep => if (d' =? d)%nat then Thread (seen t) (Monitor d' Idle) else t
  | _ => t
  end.

(** [notify_host]: [kernel_command::notify] with a state that was read from the
    packet before. *)
Definition notify_host (c : nat) (state : Z) (s : conf) : conf :=
  match cmds s !! c with
  | None => s
  | Some cm =>
      match command_notify state cm with
      | Ok fs cm' =>
          let s := log_calls c fs (on_cmds <[c := cm']> s) in
          if (ERT_CMD_STATE_COMPLETED <=? state) && negb (c_done cm) then on_threads (map (wake_done c)) s else s
      | Err _ _ => s
      end
  end.

(** * [exec_wait]

    The result: the queue, the call count of the thread, where it goes on
    ([inr] with the status when it returns), and whether all sleepers are woken. *)
Definition exec_wait (timed choice : bool) (w : wait_point) (sn : Z) (k : kds_device)
  : option (kds_device * Z * (wait_point + bool) * bool) :=
  let count := m_exec_wait_call_count k in
  match w with
  | Enter =>
      if negb (sn =? count) then Some (k, count, inr false, false) else
      if negb (m_exec_wait_active k =? 0) then Some (k, sn, inl Asleep, false) else
      Some (set_wait (events k) count (m_exec_wait_active k + 1) k, sn, inl InDevice, false)
  | Asleep => if timed && negb choice then Some (k, count, inr (sn =? count), false) else None
  | Woken => if negb (sn =? count) then Some (k, count, inr false, false) else Some (k, sn, inl Asleep, false)
  | InDevice =>
      match events k with
      | S e => Some (set_wait e count (m_exec_wait_active k) k, sn, inl (Leave false), false)
      | O => if timed && negb choice then Some (k, sn, inl (Leave true), false) else None
      end
  | Leave b => Some (set_wait (events k) (u64 (count + 1)) (m_exec_wait_active k - 1) k, u64 (count + 1), inl (WakeAll b), false)
  | WakeAll b => Some (k, sn, inr b, true)
  end.

(** The thread goes on in [exec_wait] of device [d], or returns from it. *)
Definition exec_wait_step (d : nat) (timed choice : bool) (w : wait_point) (t : nat) (th : thread)
    (inside : wait_point -> point) (back : bool -> point) (s : conf) : option conf :=
  k ← devs s !! d;
  '(k', sn, r, wake) ← exec_wait timed choice w (seen th) k;
  let p := match r with inl w' => inside w' | inr b => back b end in
  let s := on_devs <[d := k']> s in
  Some (on_threads <[t := Thread sn p]> (if (wake : bool) then on_threads (map (wake_waiters d)) s else s)).

(** * The monitor thread *)

Definition monitor_loop (d : nat) (t : nat) (th : thread) (m : monitor_point) (s : conf) : option conf :=
  let go p := on_threads <[t := Thread (seen th) (Monitor d p)]> in
  k ← devs s !! d;
  match m with
  | Idle =>
      let empty := (length (running_cmds k) =? 0)%nat && (length (submitted_cmds k) =? 0)%nat in
      if negb (stop k) && empty then Some (go IdleAsleep s) else Some (go Go s)
  | IdleAsleep => None
  | Go => if stop k then Some (go Exit s) else Some (go (Waits Enter) s)
  | Waits w => exec_wait_step d false true w t th (fun w' => Monitor d (Waits w')) (fun _ => Monitor d Drain) s
  | Drain =>
      let run := running_cmds k ++ submitted_cmds k in
      Some (go (Scan 0 (length run) []) (on_devs <[d := set_lists [] run k]> s))
  | Scan i n busy =>
      if (i <? n)%nat then
        c ← running_cmds k !! i;
        cm ← cmds s !! c;
        if completed cm then Some (go (Notify i n busy c) s) else Some (go (Scan (S i) n (busy ++ [c])) s)
      else Some (go Idle (on_devs <[d := set_lists (submitted_cmds k) busy k]> s))
  | Notify i n busy c =>
      cm ← cmds s !! c;
      Some (go (Mark i n busy c (get_command_state cm)) s)
  | Mark i n busy c state => Some (go (Scan (S i) n busy) (notify_host c state s))
  | Exit => None
  end.

(** * Starting and waiting *)

Definition erase_first (c : nat) (l : list nat) : list nat :=
  match list_find (eq c) l with Some (i, _) => delete i l | None => l end.

(** The critical section of [kernel_command::run]. *)
Definition run_cmd (c : nat) (t : nat) (th : thread) (s : conf) : option conf :=
  cm ← cmds s !! c;
  let go p := on_threads <[t := Thread (seen th) p]> in
  match command_run true cm with
  | Ok _ cm' => Some (go (if c_managed cm' then Push c else SubmitUnmanaged c) (log_start c (on_cmds <[c := cm']> s)))
  | Err _ _ => Some (go Threw s)
  end.

(** [choice]: the driver accepts a submission; a timed wait does not time out. *)

(** [kds_device::wait] for a command, up to its notification. *)
Definition kds_wait (t : nat) (choice : bool) (th : thread) (s : conf) : option conf :=
  let go p := on_threads <[t := Thread (seen th) p]> in
  match at_point th with
  | WaitTest c timed =>
      cm ← cmds s !! c;
      Some (go (if completed cm then WaitNotify c else WaitExec c timed Enter) s)
  | WaitExec c timed w =>
      exec_wait_step (dev_of c) timed choice w t th (WaitExec c timed) (fun b => if (b : bool) then Ended else WaitTest c timed) s
  | WaitNotify c =>
      cm ← cmds s !! c;
      Some (go (Marks c (get_command_state cm)) s)
  | _ => None
  end.

(** [kernel_command::wait] of a managed command. *)
Definition command_wait (t : nat) (choice : bool) (th : thread) (s : conf) : option conf :=
  let go p := on_threads <[t := Thread (seen th) p]> in
  match at_point th with
  | DoneTest c timed =>
      cm ← cmds s !! c;
      Some (go (if c_done cm then Ended else DoneAsleep c timed) s)
  | DoneAsleep c timed => if timed && negb choice then Some (go Ended s) else None
  | _ => None
  end.

(** [kernel_command::get_state], up to its notification. *)
Definition command_get_state (t : nat) (th : thread) (s : conf) : option conf :=
  match at_point th with
  | Polls c =>
      cm ← cmds s !! c;
      Some (on_threads <[t := Thread (seen th) (Marks c (get_command_state cm))]> s)
  | _ => None
  end.

(** [run_impl::start]: the state of the packet; then [kernel_command::run] with its
    handler. *)
Definition start_run (t : nat) (choice : bool) (th : thread) (s : conf) : option conf :=
  let go p := on_threads <[t := Thread (seen th) p]> in
  match at_point th with
  | Starts c => Some (go (RunCmd c) (on_cmds (alter (put_state ERT_CMD_STATE_NEW) c) s))
  | RunCmd c => run_cmd c t th s
  | SubmitUnmanaged c => if choice then Some (go Ended (on_executing (cons c) s)) else Some (go (Restore c) s)
  | Restore c => Some (go Threw (on_cmds (alter (set_done true) c) s))
  | _ => None
  end.

(** [command_manager::launch]. *)
Definition launch (t : nat) (choice : bool) (th : thread) (s : conf) : option conf :=
  let go p := on_threads <[t := Thread (seen th) p]> in
  match at_point th with
  | Push c =>
      k ← devs s !! dev_of c;
      Some (go (Submit c) (on_devs <[dev_of c := set_lists (submitted_cmds k ++ [c]) (running_cmds k) k]> s))
  | Submit c => if choice then Some (go (Kick c) (on_executing (cons c) s)) else Some (go (Remove c) s)
  | Kick c => Some (go Ended (on_threads (map (wake_monitor (dev_of c))) s))
  | Remove c =>
      k ← devs s !! dev_of c;
      let k' := if decide (c ∈ submitted_cmds k) then set_lists (erase_first c (submitted_cmds k)) (running_cmds k) k
                else set_lists (submitted_cmds k) (erase_first c (running_cmds k)) k in
      Some (go (Restore c) (on_devs <[dev_of c := k']> s))
  | _ => None
  end.

(** One step of a thread. *)
Definition run_thread (t : nat) (choice : bool) (s : conf) : option conf :=
  th ← threads s !! t;
  match at_point th with
  | Ended | Threw => None
  | WaitTest _ _ | WaitExec _ _ _ | WaitNotify _ => kds_wait t choice th s
  | DoneTest _ _ | DoneAsleep _ _ => command_wait t choice th s
  | Polls _ => command_get_state t th s
  | Starts _ | RunCmd _ | SubmitUnmanaged _ | Restore _ => start_run t choice th s
  | Push _ | Submit _ | Kick _ | Remove _ => launch t choice th s
  | Marks c state => Some (on_threads <[t := Thread (seen th) Ended]> (notify_host c state s))
  | Monitor d m => monitor_loop d t th m s
  end.

(** * The device and the application *)

Inductive action :=
| Run (t : nat) (choice : bool)
| Complete (c : nat) (state : Z)           (** the driver writes the state of a command *)
| Signal (d : nat)                         (** and counts an event *)
| CallStart (t c : nat)                    (** calls of the application by thread [t] *)
| CallWait (t c : nat) (timed : bool)
| CallState (t c : nat)
| CallStop (d : nat).

(** A thread that has returned calls again, or a new thread calls. *)
Definition call (t : nat) (p : point) (s : conf) : option conf :=
  match threads s !! t with
  | Some (Thread sn (Ended | Threw)) => Some (on_threads <[t := Thread sn p]> s)
  | Some _ => None
  | None => if (t =? length (threads s))%nat then Some (on_threads (fun l => l ++ [Thread 0 p]) s) else None
  end.

Definition act (a : action) (s : conf) : option conf :=
  match a with
  | Run t choice => run_thread t choice s
  | Complete c x =>
      if decide (c ∈ executing s) then
        if (ERT_CMD_STATE_COMPLETED <=? x) && (x <? 16) then
          Some (on_devs (alter (fun k => set_events (S (signals k)) (events k) k) (dev_of c))
            (on_executing (erase_first c) (on_cmds (alter (put_state x) c) s)))
        else None
      else None
  | Signal d =>
      k ← devs s !! d;
      match signals k with
      | O => None
      | S n => Some (on_devs <[d := set_events n (S (events k)) k]> s)
      end
  | CallStart t c => call t (Starts c) s
  | CallWait t c timed => cm ← cmds s !! c; call t (if c_managed cm then DoneTest c timed else WaitTest c timed) s
  | CallState t c => call t (Polls c) s
  | CallStop d => Some (on_threads (map (wake_monitor d)) (on_devs (alter set_stop d) s))
  end.

(** Runs of the system, by their actions. *)
Fixpoint acts (l : list action) (s : conf) : option conf :=
  match l with
  | [] => Some s
  | a :: l' => s' ← act a s; acts l' s'
  end.

(** The start: queues with their monitor threads asleep, idle commands. *)
Definition boot (cs : list command) (n : nat) : conf :=
  Conf cs (replicate n new_device) [] (map (fun d => Thread 0 (Monitor d Idle)) (seq 0 n)) [] [].
End queue.
