(* ===== verification/HwInvariant.v ===== *)
(** The invariant of a hardware queue: one device, an application that starts a
    command only when it is done, and a driver that accepts submissions.

    A thread that waits owes a look at some commands: those whose packets it
    has read before they completed, or will read only after its next call of
    [exec_wait].  The central fact is that a thread with a completed command that
    it owes a look is alarmed: an event is due, or the call count has moved on
    since the thread last looked at it, or some thread is about to move it on. *)

From S2P Require Import Prelude Bytes CppStd XclbinXml XrtKernel XrtRun XrtPacket HwQueue.

(** * Counting threads *)

Definition cnt (f : point -> nat) (l : list thread) : nat := sum_list_with (fun th => f (at_point th)) l.

Lemma cnt_cons f th l : cnt f (th :: l) = (f (at_point th) + cnt f l)%nat.
Proof. done. Qed.

Lemma sum_insert {A} (f : A -> nat) l t x y :
  l !! t = Some x -> (sum_list_with f (<[t := y]> l) + f x = sum_list_with f l + f y)%nat.
Proof.
  revert t. induction l as [|z l IH]; intros t Hl; [done|]. destruct t as [|t]; cbn in Hl.
  - injection Hl as <-. change (<[0%nat := y]> (z :: l)) with (y :: l). cbn. lia.
  - specialize (IH t Hl). change (<[S t := y]> (z :: l)) with (z :: <[t := y]> l). cbn. lia.
Qed.

(** Sums of functions that differ at one place. *)
Lemma sum_except {A} (f g : A -> nat) l t x :
  l !! t = Some x -> (forall t0 y, t0 <> t -> l !! t0 = Some y -> g y = f y) ->
  (sum_list_with g l + f x = sum_list_with f l + g x)%nat.
Proof.
  revert t. induction l as [|z l IH]; intros [|t] Hl Hfg; try done; cbn in Hl |- *.
  - injection Hl as <-. assert (sum_list_with g l = sum_list_with f l) as ->; [|lia].
    assert (forall y, y ∈ l -> g y = f y) as H by (intros y [i Hi]%list_elem_of_lookup; by apply (Hfg (S i))).
    clear -H. induction l as [|y l IH]; [done|]. cbn. rewrite H, IH; set_solver.
  - pose proof (Hfg 0%nat z ltac:(done) eq_refl) as ->. pose proof (IH t Hl (fun t0 y Hne => Hfg (S t0) y ltac:(congruence))). lia.
Qed.

Lemma cnt_insert f l t th x : l !! t = Some th -> (cnt f (<[t := x]> l) + f (at_point th) = cnt f l + f (at_point x))%nat.
Proof. apply (sum_insert (fun th => f (at_point th))). Qed.

Lemma cnt_map f g l : (forall th, f (at_point (g th)) = f (at_point th)) -> cnt f (map g l) = cnt f l.
Proof. intros Hg. induction l as [|y l IH]; [done|]. unfold cnt in *. cbn. by rewrite Hg, IH. Qed.

Lemma lookup_map (g : thread -> thread) l t : map g l !! t = g <$> (l !! t).
Proof. apply list_lookup_fmap. Qed.

Lemma cnt_snoc f l th : cnt f (l ++ [th]) = (cnt f l + f (at_point th))%nat.
Proof. unfold cnt. rewrite sum_list_with_app. cbn. lia. Qed.

Lemma cnt_two f l t t' th th' :
  l !! t = Some th -> l !! t' = Some th' -> t <> t' -> (f (at_point th) + f (at_point th') <= cnt f l)%nat.
Proof.
  revert t t'. induction l as [|y l IH]; intros [|t] [|t'] H1 H2 Hne; cbn in *; try done.
  - injection H1 as <-. pose proof (sum_list_with_in th' (fun th => f (at_point th)) l (list_elem_of_lookup_2 _ _ _ H2)). unfold cnt. lia.
  - injection H2 as <-. pose proof (sum_list_with_in th (fun th => f (at_point th)) l (list_elem_of_lookup_2 _ _ _ H1)). lia.
  - pose proof (IH t t' H1 H2 ltac:(congruence)). unfold cnt in *. lia.
Qed.

Lemma cnt_lookup f l t th : l !! t = Some th -> (f (at_point th) <= cnt f l)%nat.
Proof. intros Hl. apply (sum_list_with_in th (fun th => f (at_point th))). by eapply list_elem_of_lookup_2. Qed.

Lemma cnt_pos f l : (0 < cnt f l)%nat -> exists t th, l !! t = Some th /\ (0 < f (at_point th))%nat.
Proof.
  induction l as [|y l IH]; [unfold cnt; cbn; lia|]. intros H. destruct (decide (0 < f (at_point y))%nat) as [Hy|Hy].
  - by exists 0%nat, y.
  - destruct IH as (t & th & Ht & Hf); [unfold cnt in *; cbn in H; lia|]. by exists (S t), th.
Qed.

(** * What is counted *)

(** In [device::exec_wait] or about to leave it. *)
Definition holds (p : point) : nat :=
  match p with
  | WaitExec _ _ (InDevice | Leave _) | Monitor _ (Waits (InDevice | Leave _)) => 1
  | _ => 0
  end.
Definition leaves (p : point) : nat :=
  match p with WaitExec _ _ (Leave _) | Monitor _ (Waits (Leave _)) => 1 | _ => 0 end.
Definition wakes (p : point) : nat :=
  match p with WaitExec _ _ (WakeAll _) | Monitor _ (Waits (WakeAll _)) => 1 | _ => 0 end.
Definition asleep (p : point) : Prop :=
  match p with WaitExec _ _ Asleep | Monitor _ (Waits Asleep) => True | _ => False end.
Definition dormant (p : point) : Prop :=
  match p with WaitExec _ _ (Asleep | Woken) | Monitor _ (Waits (Asleep | Woken)) => True | _ => False end.
(** Will notify the monitor. *)
Definition kicks (p : point) : nat := match p with Submit _ | Kick _ => 1 | _ => 0 end.
Definition mons (p : point) : nat := match p with Monitor _ _ => 1 | _ => 0 end.
(** Starting command [c], not yet submitted. *)
Definition stage (c : nat) (p : point) : nat :=
  match p with
  | Starts c' | RunCmd c' | Push c' | Submit c' | SubmitUnmanaged c' => if (c' =? c)%nat then 1 else 0
  | _ => 0
  end.
Definition unsubmitted (c : nat) (p : point) : nat :=
  match p with
  | RunCmd c' | Push c' | Submit c' | SubmitUnmanaged c' => if (c' =? c)%nat then 1 else 0
  | _ => 0
  end.
Definition pushes (c : nat) (p : point) : nat := match p with Push c' => if (c' =? c)%nat then 1 else 0 | _ => 0 end.

(** Has read that [c] is completed, and will mark it as done. *)
Definition stale (c : nat) (p : point) : nat :=
  match p with
  | Marks c' state | Monitor _ (Mark _ _ _ c' state) => if (c' =? c)%nat && (ERT_CMD_STATE_COMPLETED <=? state) then 1 else 0
  | _ => 0
  end.

(** * Commands *)

Definition comp (s : conf) (c : nat) : Prop := exists cm, cmds s !! c = Some cm /\ completed cm = true.
Definition isdone (s : conf) (c : nat) : Prop := exists cm, cmds s !! c = Some cm /\ c_done cm = true.
Definition pending (s : conf) (c : nat) : Prop := exists cm, cmds s !! c = Some cm /\ c_done cm = false.
Definition has_callbacks (s : conf) (c : nat) : Prop := exists cm, cmds s !! c = Some cm /\ c_callbacks cm <> [].

(** A start that has not been submitted yet. *)
Definition fresh_start (s : conf) (c : nat) : Prop :=
  pending s c /\ (~ comp s c) /\ (c ∉ executing s) /\ c ∈ starts s.

(** * Threads *)

Definition kd (s : conf) : kds_device := default new_device (devs s !! 0%nat).
Definition count (s : conf) : Z := m_exec_wait_call_count (kd s).
Definition due (s : conf) : nat := signals (kd s) + events (kd s).

(** The commands a thread owes a look after its next [exec_wait]. *)
Definition owed (k : kds_device) (p : point) : list nat :=
  match p with
  | WaitExec c _ (Enter | Asleep | Woken | InDevice) => [c]
  | Monitor _ (Idle | IdleAsleep | Go | Waits (Enter | Asleep | Woken | InDevice)) => submitted_cmds k ++ running_cmds k
  | Monitor _ (Scan _ _ busy | Notify _ _ busy _ | Mark _ _ busy _ _) => submitted_cmds k ++ busy
  | _ => []
  end.

(** The commands of the monitor that it has still to look at or will keep. *)
Definition live (s : conf) (m : monitor_point) : list nat :=
  let run := running_cmds (kd s) in
  match m with
  | Scan i _ busy => drop i run ++ busy
  | Notify i _ busy c => (if default false (completed <$> (cmds s !! c)) then [c] else []) ++ drop (S i) run ++ busy
  | Mark i _ busy c state => (if ERT_CMD_STATE_COMPLETED <=? state then [c] else []) ++ drop (S i) run ++ busy
  | _ => run
  end.

Record wait_ok (s : conf) (th : thread) : Prop := {
  w_seen : 0 <= seen th <= count s;
  w_holds : (0 < holds (at_point th))%nat -> seen th = count s;
  w_asleep : dormant (at_point th) -> seen th = count s -> m_exec_wait_active (kd s) = 1;
  w_woken : asleep (at_point th) -> seen th <> count s -> (0 < cnt wakes (threads s))%nat;
  w_alarm c : c ∈ owed (kd s) (at_point th) -> comp s c ->
    (0 < due s)%nat \/ seen th <> count s \/ (0 < cnt leaves (threads s))%nat;
}.

Record monitor_ok (s : conf) (m : monitor_point) : Prop := {
  mo_bounds : match m with
    | Scan i n busy => n = length (running_cmds (kd s)) /\ (i <= n)%nat /\ busy ⊆ starts s
    | Notify i n busy c => n = length (running_cmds (kd s)) /\ (i < n)%nat /\ busy ⊆ starts s /\ c ∈ starts s
    | Mark i n busy c state => n = length (running_cmds (kd s)) /\ (i < n)%nat /\ busy ⊆ starts s /\ c ∈ starts s /\
        (ERT_CMD_STATE_COMPLETED <= state -> comp s c)
    | Go | Waits _ => submitted_cmds (kd s) ++ running_cmds (kd s) <> []
    | IdleAsleep => submitted_cmds (kd s) ++ running_cmds (kd s) = [] \/ (0 < cnt kicks (threads s))%nat
    | Exit => False
    | _ => True
    end;
  mo_track c : pending s c -> has_callbacks s c ->
    c ∈ submitted_cmds (kd s) \/ c ∈ live s m \/ (0 < cnt (pushes c) (threads s))%nat;
}.

Definition point_ok (s : conf) (p : point) : Prop :=
  match p with
  | WaitTest c _ | WaitExec c _ _ | WaitNotify c => c ∈ starts s
  | DoneTest c _ => c ∈ starts s /\ has_callbacks s c
  | DoneAsleep c _ => c ∈ starts s /\ has_callbacks s c /\ pending s c
  | Starts c => isdone s c
  | RunCmd c => isdone s c /\ ~ comp s c
  | Push c | Submit c => fresh_start s c /\ has_callbacks s c
  | SubmitUnmanaged c => fresh_start s c
  | Remove _ | Restore _ | Threw => False
  | Monitor d m => d = 0%nat /\ monitor_ok s m
  | Polls c => (c < length (cmds s))%nat
  | Marks c state => ERT_CMD_STATE_COMPLETED <= state -> comp s c
  | Ended | Kick _ => True
  end.

(** * The invariant *)

Definition cmd_ok (s : conf) (c : nat) (cm : command) : Prop :=
  (4 <= length (execbuf cm))%nat /\ bytes (execbuf cm) /\
  (c ∈ starts s -> c_managed cm = negb (length (c_callbacks cm) =? 0)%nat) /\
  (map snd (filter (fun x => fst x = c) (calls s)) ++ (if c_done cm then [] else c_callbacks cm) =
   concat (replicate (length (filter (fun x => x = c) (starts s))) (c_callbacks cm))) /\
  (c_done cm = false -> c ∈ starts s).

Record inv (n : nat) (s : conf) : Prop := {
  i_devs : devs s = [kd s];
  i_stop : stop (kd s) = false;
  i_count : 0 <= count s <= Z.of_nat n;
  i_mon : cnt mons (threads s) = 1%nat;
  i_holds : m_exec_wait_active (kd s) = Z.of_nat (cnt holds (threads s)) /\ (cnt holds (threads s) <= 1)%nat;
  i_stage c : (cnt (stage c) (threads s) <= 1)%nat;
  i_lists : submitted_cmds (kd s) ⊆ starts s /\ running_cmds (kd s) ⊆ starts s;
  i_starts c : c ∈ starts s -> (c < length (cmds s))%nat;
  i_exec_nodup : NoDup (executing s);
  i_exec c : c ∈ executing s -> pending s c /\ ~ comp s c;
  i_life c : c ∈ starts s -> ~ comp s c -> c ∈ executing s \/ (0 < cnt (unsubmitted c) (threads s))%nat;
  i_cmds c cm : cmds s !! c = Some cm -> cmd_ok s c cm;
  i_wait t th : threads s !! t = Some th -> wait_ok s th;
  i_points t th : threads s !! t = Some th -> point_ok s (at_point th);
}.

(** A well-behaved application and driver: submissions are accepted, a command is
    started when it is done and no thread is about to mark it as done. *)
Definition polite (s : conf) (a : action) : Prop :=
  match a with
  | Run t choice =>
      match at_point <$> threads s !! t with
      | Some (Submit _ | SubmitUnmanaged _) => choice = true
      | Some (Starts c) => cnt (stale c) (threads s) = 0%nat
      | _ => True
      end
  | CallStart _ c => isdone s c /\ cnt (stage c) (threads s) = 0%nat
  | CallWait _ c _ => c ∈ starts s
  | CallState _ c => (c < length (cmds s))%nat
  | CallStop _ => False
  | _ => True
  end.

(** * Steps that only move a thread *)

Record same_counts (p p' : point) : Prop := {
  sc_mons : mons p' = mons p;
  sc_holds : holds p' = holds p;
  sc_leaves : leaves p' = leaves p;
  sc_wakes : wakes p' = wakes p;
  sc_kicks : kicks p' = kicks p;
  sc_stage c : stage c p' = stage c p;
  sc_unsubmitted c : unsubmitted c p' = unsubmitted c p;
  sc_pushes c : pushes c p' = pushes c p;
}.

Lemma cnt_same f l t th x : l !! t = Some th -> f (at_point x) = f (at_point th) -> cnt f (<[t := x]> l) = cnt f l.
Proof. intros Hl He. pose proof (cnt_insert f l t th x Hl). lia. Qed.

Lemma wait_ok_ext s s' th :
  cmds s' = cmds s -> devs s' = devs s -> cnt wakes (threads s') = cnt wakes (threads s) ->
  cnt leaves (threads s') = cnt leaves (threads s) -> wait_ok s th -> wait_ok s' th.
Proof.
  intros Hc Hd Hw Hl [A1 A2 A3 A4 A5]. unfold count, due, kd, comp in *. split; unfold count, due, kd, comp; rewrite ?Hc, ?Hd, ?Hw, ?Hl; auto.
Qed.

(** The parts of a configuration that the points of threads depend on. *)
Record same_lists (s s' : conf) : Prop := {
  sl_cmds : cmds s' = cmds s;
  sl_starts : starts s' = starts s;
  sl_executing : executing s' = executing s;
  sl_submitted : submitted_cmds (kd s') = submitted_cmds (kd s);
  sl_running : running_cmds (kd s') = running_cmds (kd s);
  sl_kicks : (cnt kicks (threads s) <= cnt kicks (threads s'))%nat;
  sl_pushes c : cnt (pushes c) (threads s') = cnt (pushes c) (threads s);
}.

Lemma monitor_ok_ext s s' m : same_lists s s' -> monitor_ok s m -> monitor_ok s' m.
Proof.
  intros [Hc Hs He Hsub Hrun Hk Hp] [B1 B2]. split.
  - unfold comp in *. destruct m; rewrite ?Hsub, ?Hrun, ?Hs, ?Hc in *; try done. destruct B1; [by left|right; lia].
  - intros c. unfold pending, has_callbacks, live in *. rewrite Hc, Hsub, Hrun, Hp. apply B2.
Qed.

Lemma point_ok_ext s s' p : same_lists s s' -> point_ok s p -> point_ok s' p.
Proof.
  intros SL. pose proof SL as [Hc Hs He Hsub Hrun Hk Hp].
  destruct p; cbn; unfold fresh_start, pending, has_callbacks, isdone, comp; rewrite ?Hc, ?Hs, ?He; try done.
  intros [-> H]. split; [done|]. by eapply monitor_ok_ext.
Qed.

Lemma inv_move n s t th th' :
  inv n s -> threads s !! t = Some th -> same_counts (at_point th) (at_point th') ->
  wait_ok s th' -> point_ok s (at_point th') -> inv n (on_threads <[t := th']> s).
Proof.
  intros I Ht [S1 S2 S3 S4 S5 S6 S7 S8] W P. set (s' := on_threads <[t := th']> s).
  assert (forall f, f (at_point th') = f (at_point th) -> cnt f (threads s') = cnt f (threads s)) as Hcnt by (intros; by eapply cnt_same).
  assert (forall th0, wait_ok s th0 -> wait_ok s' th0) as Hw by (intros th0; apply wait_ok_ext; by auto).
  assert (forall p, point_ok s p -> point_ok s' p) as Hp.
  { intros p. apply point_ok_ext. split; try done; [by rewrite (Hcnt kicks)|intros c; by apply Hcnt]. }
  destruct I as [I1 I2 I3 I4 I5 I6 I7 I8 I9 I10 I11 I12 I13 I14]. split; try done.
  - rewrite (Hcnt mons) by auto. apply I4.
  - rewrite (Hcnt holds) by auto. apply I5.
  - intros c. rewrite (Hcnt (stage c)) by auto. apply I6.
  - intros c Hc Hn. rewrite (Hcnt (unsubmitted c)) by auto. by apply I11.
  - intros t0 th0 H0. apply list_lookup_insert_Some in H0 as [(-> & <- & _)|[_ H0]]; [by apply Hw|]. by eapply Hw, I13.
  - intros t0 th0 H0. apply list_lookup_insert_Some in H0 as [(-> & <- & _)|[_ H0]]; [by apply Hp|]. by eapply Hp, I14.
Qed.

(** * Steps of [exec_wait] that change the queue *)

Lemma same_counts_refl p : same_counts p p.
Proof. done. Qed.

Lemma wake_waiters_counts th : same_counts (at_point th) (at_point (wake_waiters (fun _ => 0%nat) 0 th)).
Proof.
  destruct th as [sn p]. unfold wake_waiters. cbn [at_point].
  destruct p as [ | | | c b [ | | | | | ] | | | | | | | | | | | | | | d [ | | | [ | | | | | ] | | | | | ] ]; try done.
  by destruct (d =? 0)%nat.
Qed.

Lemma wake_waiters_point s th : point_ok s (at_point th) -> point_ok s (at_point (wake_waiters (fun _ => 0%nat) 0 th)).
Proof.
  destruct th as [sn p]. unfold wake_waiters. cbn [at_point].
  destruct p as [ | | | c b [ | | | | | ] | | | | | | | | | | | | | | d [ | | | [ | | | | | ] | | | | | ] ]; try done.
  intros [-> [B1 B2]]. cbn. split; [done|]. by split.
Qed.

(** The queue changes its counts, the thread moves, others may be woken. *)
Definition wait_step (t : nat) (th' : thread) (g : thread -> thread) (e : nat) (cn ac : Z) (s : conf) : conf :=
  on_threads (fun l => <[t := th']> (map g l)) (on_devs <[0%nat := set_wait e cn ac (kd s)]> s).

Lemma inv_wait_step n n' s t th th' g e cn ac :
  let s' := wait_step t th' g e cn ac s in
  inv n s -> threads s !! t = Some th ->
  (forall x, same_counts (at_point x) (at_point (g x))) ->
  (forall x, point_ok s (at_point x) -> point_ok s (at_point (g x))) ->
  mons (at_point th') = mons (at_point th) -> kicks (at_point th') = kicks (at_point th) ->
  (forall c, stage c (at_point th') = stage c (at_point th) /\ unsubmitted c (at_point th') = unsubmitted c (at_point th) /\
     pushes c (at_point th') = pushes c (at_point th)) ->
  0 <= cn <= Z.of_nat n' ->
  ac = Z.of_nat (cnt holds (threads s')) -> (cnt holds (threads s') <= 1)%nat ->
  (forall t0 th0, t0 <> t -> threads s !! t0 = Some th0 -> wait_ok s th0 -> wait_ok s' (g th0)) ->
  wait_ok s' th' -> point_ok s (at_point th') -> inv n' s'.
Proof.
  intros s' I Ht Hg Hgp Hm Hk Hst Hcn Hac Hh Hoth W P.
  assert (devs s' = [kd s']) as Hdev by (unfold s', wait_step, kd; cbn; by rewrite (i_devs n s I)).
  assert (kd s' = set_wait e cn ac (kd s)) as Hkd by (unfold s', wait_step; unfold kd at 1; cbn; by rewrite (i_devs n s I)).
  assert (forall f, (forall x, f (at_point (g x)) = f (at_point x)) -> f (at_point th') = f (at_point th) ->
    cnt f (threads s') = cnt f (threads s)) as Hcnt.
  { intros f Hf He. rewrite <- (cnt_map f g (threads s) Hf). apply (cnt_same f _ t (g th)); [cbn; by rewrite lookup_map, Ht|].
    by rewrite He, Hf. }
  assert (same_lists s s') as SL.
  { split; try done; [by rewrite Hkd|by rewrite Hkd| |].
    - rewrite (Hcnt kicks); [done| |done]. intros x. apply Hg.
    - intros c. apply Hcnt; [|apply Hst]. intros x. apply Hg. }
  assert (forall t0 th0', threads s' !! t0 = Some th0' -> (t0 = t /\ th0' = th') \/ exists th0, t0 <> t /\ threads s !! t0 = Some th0 /\ th0' = g th0) as Hcase.
  { intros t0 th0' H0. apply list_lookup_insert_Some in H0 as [(-> & <- & _)|[Hne H0]]; [by left|right].
    cbn in H0. rewrite lookup_map in H0. destruct (threads s !! t0) as [th0|] eqn:E; [|done]. injection H0 as <-. by exists th0. }
  destruct I as [I1 I2 I3 I4 I5 I6 I7 I8 I9 I10 I11 I12 I13 I14]. split; try done.
  - by rewrite Hkd.
  - unfold count. by rewrite Hkd.
  - rewrite (Hcnt mons); [done| |done]. intros x. apply Hg.
  - by rewrite Hkd.
  - intros c. rewrite (Hcnt (stage c)); [done|intros x; apply Hg|apply Hst].
  - by rewrite Hkd.
  - intros c Hc Hn. rewrite (Hcnt (unsubmitted c)); [by apply I11|intros x; apply Hg|apply Hst].
  - intros t0 th0' [[_ ->]|(th0 & Hne & H0 & ->)]%Hcase; [done|]. by eapply Hoth, I13.
  - intros t0 th0' [[_ ->]|(th0 & Hne & H0 & ->)]%Hcase; (eapply point_ok_ext; [exact SL|]); [done|]. by eapply Hgp, I14.
Qed.

Lemma inv_mono n n' s : (n <= n')%nat -> inv n s -> inv n' s.
Proof. intros Hn [I1 I2 I3 I4 I5 I6 I7 I8 I9 I10 I11 I12 I13 I14]. split; try done. lia. Qed.

(** The two callers of [exec_wait]. *)
Inductive site := AtWait (c : nat) (timed : bool) | AtMonitor.
Definition inside (x : site) (w : wait_point) : point :=
  match x with AtWait c b => WaitExec c b w | AtMonitor => Monitor 0 (Waits w) end.
Definition back (x : site) (timeout : bool) : point :=
  match x with AtWait c b => if timeout then Ended else WaitTest c b | AtMonitor => Monitor 0 Drain end.
Definition timed_site (x : site) : bool := match x with AtWait _ b => b | AtMonitor => false end.

Lemma site_points s x w w' : point_ok s (inside x w) -> point_ok s (inside x w').
Proof. destruct x; [done|]. cbn. intros [_ [B1 B2]]. split; [done|]. by split. Qed.

Lemma site_back s x w b : point_ok s (inside x w) -> point_ok s (back x b).
Proof. destruct x; [by destruct b|]. cbn. intros [_ [B1 B2]]. split; [done|]. by split. Qed.

Lemma site_counts x w p f :
  (exists w', p = inside x w') \/ (exists b, p = back x b) ->
  f ∈ [mons; kicks] -> f p = f (inside x w).
Proof.
  intros Hp Hf. rewrite !elem_of_cons, elem_of_nil in Hf.
  destruct Hp as [[w' ->]|[b ->]], x; cbn; try destruct b; destruct Hf as [->|[->|[]]]; done.
Qed.

Lemma site_stages x w p c :
  (exists w', p = inside x w') \/ (exists b, p = back x b) ->
  stage c p = stage c (inside x w) /\ unsubmitted c p = unsubmitted c (inside x w) /\ pushes c p = pushes c (inside x w).
Proof. intros [[w' ->]|[b ->]]; destruct x; cbn; try destruct b; done. Qed.

Lemma site_wait_ok n s t sn p : inv n s -> threads s !! t = Some (Thread sn p) -> wait_ok s (Thread sn p) /\ point_ok s p.
Proof. intros I Ht. split; [by eapply i_wait|]. by apply (i_points n s I t _ Ht). Qed.

(** Returning without a change of the queue. *)
Lemma exec_return n s t sn x w b :
  inv n s -> threads s !! t = Some (Thread sn (inside x w)) ->
  holds (inside x w) = 0%nat -> leaves (inside x w) = 0%nat -> wakes (inside x w) = 0%nat ->
  inv n (on_threads <[t := Thread (count s) (back x b)]> s).
Proof.
  intros I Ht Hh Hl Hw. destruct (site_wait_ok _ _ _ _ _ I Ht) as [W P].
  eapply inv_move; [exact I|exact Ht| | |by eapply site_back].
  - cbn [at_point]. split; destruct x, w; cbn in *; try done; try destruct b; done.
  - pose proof (i_count n s I). split; cbn [seen at_point]; try lia; destruct x; cbn; try destruct b; try done; set_solver.
Qed.

(** Going to sleep. *)
Lemma exec_sleep n s t sn x w :
  inv n s -> threads s !! t = Some (Thread sn (inside x w)) -> w = Enter \/ w = Woken ->
  sn = count s -> m_exec_wait_active (kd s) = 1 -> inv n (on_threads <[t := Thread sn (inside x Asleep)]> s).
Proof.
  intros I Ht Hw Hsn Ha. destruct (site_wait_ok _ _ _ _ _ I Ht) as [[W1 W2 W3 W4 W5] P].
  eapply inv_move; [exact I|exact Ht| | |by eapply site_points].
  - cbn [at_point]. split; destruct x, Hw as [-> | ->]; done.
  - split; cbn [seen at_point] in *; try done. destruct x, Hw as [-> | ->]; apply W5.
Qed.

(** The queue and the counts after a step that does not wake others. *)
Lemma wait_step_kd n s t th' g e cn ac : inv n s -> kd (wait_step t th' g e cn ac s) = set_wait e cn ac (kd s).
Proof. intros I. unfold wait_step. unfold kd at 1. cbn. by rewrite (i_devs n s I). Qed.

Lemma wait_step_cnt s t th th' g e cn ac f :
  threads s !! t = Some th -> (forall y, f (at_point (g y)) = f (at_point y)) ->
  (cnt f (threads (wait_step t th' g e cn ac s)) + f (at_point th) = cnt f (threads s) + f (at_point th'))%nat.
Proof.
  intros Ht Hg. rewrite <- (cnt_map f g (threads s) Hg), <- (Hg th). apply cnt_insert. by rewrite lookup_map, Ht.
Qed.

(** Entering [device::exec_wait]. *)
Lemma exec_enter n s t sn x :
  inv n s -> threads s !! t = Some (Thread sn (inside x Enter)) -> sn = count s -> m_exec_wait_active (kd s) = 0 ->
  inv n (wait_step t (Thread sn (inside x InDevice)) id (events (kd s)) (count s) (m_exec_wait_active (kd s) + 1) s).
Proof.
  intros I Ht Hsn Ha. destruct (site_wait_ok _ _ _ _ _ I Ht) as [[W1 W2 W3 W4 W5] P].
  pose proof (i_holds n s I) as [H1 H2]. set (s' := wait_step _ _ _ _ _ _ _).
  pose proof (wait_step_kd n s t (Thread sn (inside x InDevice)) id (events (kd s)) (count s) (m_exec_wait_active (kd s) + 1) I) as Hkd.
  fold s' in Hkd.
  assert (forall f, (cnt f (threads s') + f (inside x Enter) = cnt f (threads s) + f (inside x InDevice))%nat) as Hcnt.
  { intros f. by apply (wait_step_cnt s t (Thread sn (inside x Enter))). }
  assert (cnt leaves (threads s') = cnt leaves (threads s) /\ cnt wakes (threads s') = cnt wakes (threads s)) as [El Ew].
  { pose proof (Hcnt leaves). pose proof (Hcnt wakes). destruct x; cbn in *; lia. }
  assert (cnt holds (threads s') = 1%nat) as Eh by (pose proof (Hcnt holds); destruct x; cbn in *; lia).
  eapply (inv_wait_step n); [exact I|exact Ht|done|done| | | | | | | | |].
  1-3: destruct x; done.
  - apply (i_count n s I).
  - fold s'. rewrite Eh. lia.
  - fold s'. lia.
  - fold s'. intros t0 th0 Hne Ht0 [V1 V2 V3 V4 V5]. unfold id. split; unfold count, due in *; rewrite ?Hkd, ?El, ?Ew; cbn; try done.
    intros Hd Hs0. specialize (V3 Hd Hs0). lia.
  - fold s'. split; unfold count, due in *; rewrite ?Hkd, ?El, ?Ew; cbn [seen at_point] in *; try done; [by destruct x..|].
    intros c Hc Hco. apply (W5 c); [by destruct x|done].
  - by eapply site_points.
Qed.

(** Leaving [device::exec_wait], with an event or after a timeout. *)
Lemma exec_take n s t sn x b e :
  inv n s -> threads s !! t = Some (Thread sn (inside x InDevice)) ->
  inv n (wait_step t (Thread sn (inside x (Leave b))) id e (count s) (m_exec_wait_active (kd s)) s).
Proof.
  intros I Ht. destruct (site_wait_ok _ _ _ _ _ I Ht) as [[W1 W2 W3 W4 W5] P].
  pose proof (i_holds n s I) as [H1 H2]. set (s' := wait_step _ _ _ _ _ _ _).
  pose proof (wait_step_kd n s t (Thread sn (inside x (Leave b))) id e (count s) (m_exec_wait_active (kd s)) I) as Hkd. fold s' in Hkd.
  assert (forall f, (cnt f (threads s') + f (inside x InDevice) = cnt f (threads s) + f (inside x (Leave b)))%nat) as Hcnt.
  { intros f. by apply (wait_step_cnt s t (Thread sn (inside x InDevice))). }
  assert (0 < cnt leaves (threads s') /\ cnt wakes (threads s') = cnt wakes (threads s))%nat as [El Ew].
  { pose proof (Hcnt leaves). pose proof (Hcnt wakes). destruct x; cbn in *; lia. }
  assert (cnt holds (threads s') = cnt holds (threads s)) as Eh by (pose proof (Hcnt holds); destruct x; cbn in *; lia).
  eapply (inv_wait_step n); [exact I|exact Ht|done|done| | | | | | | | |].
  1-3: destruct x; done.
  - apply (i_count n s I).
  - fold s'. by rewrite Eh.
  - fold s'. by rewrite Eh.
  - fold s'. intros t0 th0 Hne Ht0 [V1 V2 V3 V4 V5]. unfold id. split; unfold count, due in *; rewrite ?Hkd, ?Ew; cbn; try done.
    intros c _ _. by right; right.
  - fold s'. split; unfold count, due in *; rewrite ?Hkd, ?Ew; cbn [seen at_point] in *; try done; [|by destruct x..|].
    + intros _. apply W2. destruct x; cbn; lia.
    + intros c Hc Hco. by right; right.
  - by eapply site_points.
Qed.

(** The second critical section. *)
Lemma exec_leave n s t sn x b :
  inv n s -> Z.of_nat n < 2 ^ 64 - 1 -> threads s !! t = Some (Thread sn (inside x (Leave b))) ->
  inv (S n) (wait_step t (Thread (u64 (count s + 1)) (inside x (WakeAll b))) id (events (kd s)) (u64 (count s + 1))
    (m_exec_wait_active (kd s) - 1) s).
Proof.
  intros I Hn Ht. destruct (site_wait_ok _ _ _ _ _ I Ht) as [[W1 W2 W3 W4 W5] P].
  pose proof (i_holds n s I) as [H1 H2]. pose proof (i_count n s I) as Hc. rewrite !u64_small by lia.
  set (s' := wait_step _ _ _ _ _ _ _).
  pose proof (wait_step_kd n s t (Thread (count s + 1) (inside x (WakeAll b))) id (events (kd s)) (count s + 1) (m_exec_wait_active (kd s) - 1) I) as Hkd.
  fold s' in Hkd.
  assert (forall f, (cnt f (threads s') + f (inside x (Leave b)) = cnt f (threads s) + f (inside x (WakeAll b)))%nat) as Hcnt.
  { intros f. by apply (wait_step_cnt s t (Thread sn (inside x (Leave b)))). }
  assert (0 < cnt wakes (threads s'))%nat as Ew by (pose proof (Hcnt wakes); destruct x; cbn in *; lia).
  assert (cnt holds (threads s) = 1 /\ cnt holds (threads s') = 0)%nat as [Eh Eh'].
  { pose proof (Hcnt holds). pose proof (cnt_lookup holds _ _ _ Ht). destruct x; cbn in *; lia. }
  eapply (inv_wait_step n); [exact I|exact Ht|done|done| | | | | | | | |].
  1-3: destruct x; done.
  - lia.
  - fold s'. lia.
  - fold s'. lia.
  - fold s'. intros t0 th0 Hne Ht0 [V1 V2 V3 V4 V5]. unfold id.
    assert (holds (at_point th0) = 0%nat) as Hh0.
    { pose proof (cnt_two holds _ _ _ _ _ Ht Ht0 (not_eq_sym Hne)). destruct x; cbn in *; lia. }
    split; unfold count, due in *; rewrite ?Hkd; cbn [set_wait m_exec_wait_call_count]; try lia.
  - fold s'. split; unfold count, due in *; rewrite ?Hkd; cbn [seen at_point] in *; try done; try (cbn; lia); destruct x; done || set_solver.
  - by eapply site_points.
Qed.

(** Waking the others, and returning. *)
Lemma exec_wake n s t sn x b :
  inv n s -> threads s !! t = Some (Thread sn (inside x (WakeAll b))) ->
  inv n (wait_step t (Thread sn (back x b)) (wake_waiters (fun _ => 0%nat) 0) (events (kd s)) (count s) (m_exec_wait_active (kd s)) s).
Proof.
  intros I Ht. destruct (site_wait_ok _ _ _ _ _ I Ht) as [[W1 W2 W3 W4 W5] P].
  pose proof (i_holds n s I) as [H1 H2]. set (s' := wait_step _ _ _ _ _ _ _).
  pose proof (wait_step_kd n s t (Thread sn (back x b)) (wake_waiters (fun _ => 0%nat) 0) (events (kd s)) (count s) (m_exec_wait_active (kd s)) I) as Hkd.
  fold s' in Hkd.
  assert (cnt leaves (threads s') = cnt leaves (threads s)) as El.
  { pose proof (wait_step_cnt s t _ (Thread sn (back x b)) (wake_waiters (fun _ => 0%nat) 0) (events (kd s)) (count s) (m_exec_wait_active (kd s)) leaves Ht
      (fun y => sc_leaves _ _ (wake_waiters_counts y))) as Hl. fold s' in Hl. destruct x; cbn in *; try destruct b; cbn in *; lia. }
  assert (cnt holds (threads s') = cnt holds (threads s)) as Eh.
  { pose proof (wait_step_cnt s t _ (Thread sn (back x b)) (wake_waiters (fun _ => 0%nat) 0) (events (kd s)) (count s) (m_exec_wait_active (kd s)) holds Ht
      (fun y => sc_holds _ _ (wake_waiters_counts y))) as Hl. fold s' in Hl. destruct x; cbn in *; try destruct b; cbn in *; lia. }
  eapply (inv_wait_step n); [exact I|exact Ht|apply wake_waiters_counts|apply wake_waiters_point| | | | | | | | |].
  1-3: destruct x; cbn; try destruct b; done.
  - apply (i_count n s I).
  - fold s'. by rewrite Eh.
  - fold s'. by rewrite Eh.
  - fold s'. intros t0 th0 Hne Ht0 [V1 V2 V3 V4 V5]. destruct th0 as [sn0 p0]. cbn [seen at_point] in *.
    pose proof (i_points n s I t0 _ Ht0) as Hp0. cbn [at_point] in Hp0.
    split; unfold count, due in *; rewrite ?Hkd, ?El; unfold wake_waiters; cbn [seen at_point set_wait m_exec_wait_call_count m_exec_wait_active signals events submitted_cmds running_cmds];
    destruct p0 as [ | | | c0 b0 [ | | | | | ] | | | | | | | | | | | | | | d0 [ | | | [ | | | | | ] | | | | | ] ];
      try done; destruct Hp0 as [-> _]; done.
  - fold s'. split; unfold count, due in *; rewrite ?Hkd; cbn [seen at_point] in *; try done; destruct x; cbn; try destruct b; done || set_solver.
  - by eapply site_back.
Qed.
