(* ===== verification/HwSteps.v ===== *)
(** Every step of the threads, of the device and of a well-behaved application
    preserves the invariant of the hardware queue. *)

From S2P Require Import Prelude Bytes CppStd XclbinXml XrtKernel XrtRun XrtPacket HwQueue HwInvariant.

Abbreviation dev0 := (fun _ : nat => 0%nat).

(** The step of a thread, in place. *)
Ltac unfold_thread := unfold run_thread, kds_wait, command_wait, command_get_state, start_run, launch.

Lemma devs_lookup n s : inv n s -> devs s !! 0%nat = Some (kd s).
Proof. intros I. by rewrite (i_devs n s I). Qed.

Lemma on_devs_same n s : inv n s -> on_devs <[0%nat := kd s]> s = s.
Proof.
  intros I. unfold on_devs. rewrite (list_insert_id (devs s) 0 (kd s)) by by eapply devs_lookup. by destruct s.
Qed.

Lemma wait_step_id t th' e cn ac s :
  wait_step t th' id e cn ac s = on_threads <[t := th']> (on_devs <[0%nat := set_wait e cn ac (kd s)]> s).
Proof. unfold wait_step, on_threads. cbn. by rewrite map_id. Qed.

Lemma set_wait_same k : set_wait (events k) (m_exec_wait_call_count k) (m_exec_wait_active k) k = k.
Proof. by destruct k. Qed.

(** * [exec_wait] *)

Lemma exec_wait_step_inv n s t sn x w choice s' :
  inv n s -> Z.of_nat n < 2 ^ 64 - 1 -> threads s !! t = Some (Thread sn (inside x w)) ->
  exec_wait_step dev0 0 (timed_site x) choice w t (Thread sn (inside x w)) (inside x) (back x) s = Some s' -> inv (S n) s'.
Proof.
  intros I Hn Ht. destruct (site_wait_ok _ _ _ _ _ I Ht) as [W P]. pose proof (i_holds n s I) as [Ha1 Ha2].
  unfold exec_wait_step. rewrite (devs_lookup n s I). cbn [mbind option_bind seen].
  assert (forall s1, inv n s1 -> inv (S n) s1) as Hm by (intros s1; apply inv_mono; lia).
  destruct w as [ | | | |b|b]; cbn [exec_wait].
  - destruct (Z.eqb_spec sn (m_exec_wait_call_count (kd s))) as [Hsn|Hsn]; cbn [negb].
    + destruct (Z.eqb_spec (m_exec_wait_active (kd s)) 0) as [Ha|Ha]; cbn [negb]; intros [= <-].
      * apply Hm. rewrite <- wait_step_id. by apply exec_enter.
      * rewrite (on_devs_same n s I). apply Hm. eapply exec_sleep; try done; [by left|lia].
    + intros [= <-]. rewrite (on_devs_same n s I). apply Hm. eapply exec_return; try done; by destruct x.
  - destruct (timed_site x && negb choice); [|done]. intros [= <-]. rewrite (on_devs_same n s I). apply Hm.
    eapply exec_return; try done; by destruct x.
  - destruct (Z.eqb_spec sn (m_exec_wait_call_count (kd s))) as [Hsn|Hsn]; cbn [negb]; intros [= <-];
      rewrite (on_devs_same n s I); apply Hm.
    + eapply exec_sleep; try done; [by right|]. apply (w_asleep s _ W); [by destruct x|done].
    + eapply exec_return; try done; by destruct x.
  - destruct (events (kd s)) as [|e]; [destruct (timed_site x && negb choice); [|done]|]; intros [= <-]; apply Hm.
    + rewrite <- (set_wait_same (kd s)) at 1. rewrite <- wait_step_id. by apply exec_take.
    + rewrite <- wait_step_id. by apply exec_take.
  - intros [= <-]. rewrite <- wait_step_id. by apply (exec_leave n s t sn x b).
  - intros [= <-]. apply Hm. rewrite <- (set_wait_same (kd s)) at 1. by apply exec_wake.
Qed.

(** * Notification *)

Lemma wake_done_counts c th : same_counts (at_point th) (at_point (wake_done c th)).
Proof. destruct th as [sn p]. unfold wake_done. destruct p; try done. cbn. by destruct (_ =? _)%nat. Qed.

Lemma notify_cases s c x :
  notify_host c x s = s \/
  exists cm, cmds s !! c = Some cm /\ ERT_CMD_STATE_COMPLETED <= x /\ c_done cm = false /\
    notify_host c x s = on_threads (map (wake_done c)) (log_calls c (c_callbacks cm) (on_cmds <[c := set_done true cm]> s)).
Proof.
  unfold notify_host. destruct (cmds s !! c) as [cm|] eqn:Hc; [|by left].
  unfold command_notify, bind, gets, id. rewrite Z.ltb_antisym.
  destruct (Z.leb_spec ERT_CMD_STATE_COMPLETED x) as [Hx|Hx]; cbn [negb orb andb].
  - destruct (c_done cm) eqn:Hd; cbn [negb].
    + left. unfold ret, log_calls, on_cmds. cbn. rewrite app_nil_r, list_insert_id by done. by destruct s.
    + right. by exists cm.
  - left. unfold ret, log_calls, on_cmds. cbn. rewrite app_nil_r, list_insert_id by done. by destruct s.
Qed.

Lemma calls_of_other (c c' : nat) (fs : list Z) :
  c' <> c -> map snd (filter (fun x : nat * Z => fst x = c') (map (fun f => (c, f)) fs)) = [].
Proof. intros Hne. induction fs as [|f fs IH]; [done|]. cbn [map]. rewrite filter_cons_False; [done|]. cbn. congruence. Qed.

Lemma calls_of_same (c : nat) (fs : list Z) :
  map snd (filter (fun x : nat * Z => fst x = c) (map (fun f => (c, f)) fs)) = fs.
Proof. induction fs as [|f fs IH]; [done|]. cbn [map]. rewrite filter_cons_True by done. cbn. by rewrite IH. Qed.

(** A change of one command that keeps a property. *)
Lemma cmd_same s s' c cm cm' (Q : command -> Prop) :
  cmds s !! c = Some cm -> (forall c', cmds s' !! c' = if decide (c' = c) then Some cm' else cmds s !! c') -> (Q cm' <-> Q cm) ->
  forall c', (exists y, cmds s' !! c' = Some y /\ Q y) <-> (exists y, cmds s !! c' = Some y /\ Q y).
Proof. intros Hc Hcm HQ c'. rewrite Hcm. case_decide; [subst|done]. rewrite Hc. naive_solver. Qed.

(** What a change of the commands has to keep. *)
Lemma wait_ok_le s s' th :
  devs s' = devs s -> cnt wakes (threads s') = cnt wakes (threads s) -> cnt leaves (threads s') = cnt leaves (threads s) ->
  (forall c, comp s' c -> comp s c) -> wait_ok s th -> wait_ok s' th.
Proof.
  intros Hd Hw Hl Hc [A1 A2 A3 A4 A5]. unfold count, due, kd in *. split; unfold count, due, kd; rewrite ?Hd, ?Hw, ?Hl; auto.
  intros c Ho Hco. eapply A5; eauto.
Qed.

Lemma point_ok_le s s' p :
  starts s ⊆ starts s' -> (forall c, has_callbacks s c -> has_callbacks s' c) ->
  (forall c b, p = DoneAsleep c b -> pending s c -> pending s' c) ->
  (forall c, stage c p <> 0%nat -> (isdone s c -> isdone s' c) /\ (pending s c -> pending s' c) /\
     (comp s' c -> comp s c) /\ (c ∈ executing s' -> c ∈ executing s)) ->
  (forall c x, p = Marks c x -> ERT_CMD_STATE_COMPLETED <= x -> comp s c -> comp s' c) -> length (cmds s') = length (cmds s) ->
  (forall d m, p = Monitor d m -> monitor_ok s m -> monitor_ok s' m) -> point_ok s p -> point_ok s' p.
Proof.
  intros Hs Hc Hd Hst Hk Hl Hm. unfold point_ok, fresh_start.
  destruct p as [ | |c b|c b w|c|c b|c b|c|c|c|c|c|c|c|c|c|c x|d m]; try done; try (specialize (Hst c); cbn in Hst; rewrite Nat.eqb_refl in Hst); try (by rewrite Hl); naive_solver.
Qed.

Lemma notify_inv n s c x : inv n s -> (ERT_CMD_STATE_COMPLETED <= x -> comp s c) -> inv n (notify_host c x s).
Proof.
  intros I Hcc. destruct (notify_cases s c x) as [->|(cm & Hc & Hco & Hd & ->)]; [done|]. specialize (Hcc Hco).
  set (s' := on_threads _ _). pose proof (lookup_lt_Some _ _ _ Hc) as Hlt.
  assert (forall c', cmds s' !! c' = if decide (c' = c) then Some (set_done true cm) else cmds s !! c') as Hcm.
  { intros c'. unfold s'; cbn. case_decide; subst; [by rewrite list_lookup_insert_eq|by rewrite list_lookup_insert_ne]. }
  assert (pending s c) as Hpc by by exists cm.
  assert (forall c', comp s' c' <-> comp s c') as Ecomp by by apply (cmd_same s s' c cm (set_done true cm) (fun y => completed y = true)).
  assert (forall c', pending s' c' <-> pending s c' /\ c' <> c) as Epend.
  { intros c'. unfold pending. rewrite Hcm. case_decide; subst; split; [intros (y & [= <-] & Hx); done|by intros []|done|by intros []]. }
  assert (forall c', has_callbacks s' c' <-> has_callbacks s c') as Ecb by by apply (cmd_same s s' c cm (set_done true cm) (fun y => c_callbacks y <> [])).
  assert (forall c', isdone s c' -> isdone s' c') as Edone.
  { intros c' (y & Hy & Hx). unfold isdone. rewrite Hcm. case_decide; subst; [by eexists|by exists y]. }
  assert (forall m, live s' m = live s m) as Elive.
  { intros [ | | | | | |i0 n0 b0 c'| | ]; try done. cbn. rewrite Hcm. case_decide; subst; [|done]. rewrite Hc. reflexivity. }
  assert (forall f, (forall y, f (at_point (wake_done c y)) = f (at_point y)) -> cnt f (threads s') = cnt f (threads s)) as Hcnt.
  { intros f Hf. by apply cnt_map. }
  assert (forall m, monitor_ok s m -> monitor_ok s' m) as Hmon.
  { intros m [B1 B2]. split.
    - destruct m; try done; [|by rewrite Ecomp]. rewrite (Hcnt kicks); [done|]. intros y. apply wake_done_counts.
    - intros c' [Hp _]%Epend Hcb%Ecb. rewrite Elive, (Hcnt (pushes c')) by (intros y; apply wake_done_counts). by apply B2. }
  destruct I as [I1 I2 I3 I4 I5 I6 I7 I8 I9 I10 I11 I12 I13 I14]. split; try done.
  - rewrite (Hcnt mons); [done|]. intros y. apply wake_done_counts.
  - rewrite (Hcnt holds); [done|]. intros y. apply wake_done_counts.
  - intros c'. rewrite (Hcnt (stage c')); [done|]. intros y. apply wake_done_counts.
  - intros c' Hc'. unfold s'; cbn. rewrite length_insert. by apply I8.
  - intros c' Hc'. destruct (I10 c' Hc') as [H1 H2]. split; [|by rewrite Ecomp]. apply Epend. split; [done|]. intros ->. done.
  - intros c' Hc' Hn. rewrite (Hcnt (unsubmitted c')) by (intros y; apply wake_done_counts). apply I11; [done|]. by rewrite <- Ecomp.
  - intros c' cm'. rewrite Hcm. unfold cmd_ok. destruct (decide (c' = c)) as [->|Hne].
    + intros [= <-]. destruct (I12 c cm Hc) as (J1 & J2 & J3 & J4 & J5). rewrite Hd in J4. split_and!; try done.
      unfold s'; cbn. rewrite filter_app, map_app, calls_of_same. rewrite app_nil_r. exact J4.
    + intros Hc'. destruct (I12 c' cm' Hc') as (J1 & J2 & J3 & J4 & J5). split_and!; try done.
      unfold s'; cbn. rewrite filter_app, map_app, calls_of_other by done. by rewrite app_nil_r.
  - intros t0 th0 H0. unfold s' in H0; cbn in H0. rewrite lookup_map in H0. destruct (threads s !! t0) as [th1|] eqn:E; [|done].
    injection H0 as <-. apply (wait_ok_le s s' (wake_done c th1)); try done; try (apply Hcnt; intros y; apply wake_done_counts); [apply Ecomp|].
    pose proof (I13 t0 th1 E) as [V1 V2 V3 V4 V5]. destruct th1 as [sn p]. unfold wake_done. cbn [at_point seen] in *.
    destruct p; try done. destruct (_ =? _)%nat; [|done]. by split.
  - intros t0 th0 H0. unfold s' in H0; cbn in H0. rewrite lookup_map in H0. destruct (threads s !! t0) as [th1|] eqn:E; [|done].
    injection H0 as <-. pose proof (I14 t0 th1 E) as Hp. destruct th1 as [sn p]. cbn [at_point] in *.
    assert (forall p0, (forall b, p0 <> DoneAsleep c b) -> point_ok s p0 -> point_ok s' p0) as Hle.
    { intros p0 Hna H0. apply (point_ok_le s s'); try done; [apply Ecb| | |intros; by apply Ecomp|apply length_insert|intros d m _; apply Hmon].
      - intros c' b -> Hp'. apply Epend. split; [done|]. intros ->. by apply (Hna b).
      - intros c' Hs. split_and!; [apply Edone| |apply Ecomp|done]. intros Hp'. apply Epend. split; [done|]. intros ->.
        destruct p0; cbn in Hs; try done; destruct (Nat.eqb_spec c0 c); try done; subst; cbn in H0; unfold fresh_start in H0.
        + destruct Hp' as (y & Hy & Hy'), H0 as (z & Hz & Hz'). congruence.
        + naive_solver.
        + naive_solver.
        + naive_solver.
        + naive_solver. }
    unfold wake_done. cbn [at_point]. destruct p; try (apply Hle; [done|exact Hp]).
    destruct (Nat.eqb_spec c0 c) as [->|Hne]; cbn [at_point].
    + destruct Hp as (Hp1 & Hp2 & Hp3). split; [done|by apply Ecb].
    + apply Hle; [congruence|exact Hp].
Qed.

(** After its notification a completed command is done. *)
Lemma notify_done s c x : ERT_CMD_STATE_COMPLETED <= x -> ~ pending (notify_host c x s) c.
Proof.
  intros Hx (cm & Hc & Hd). revert Hc. unfold notify_host. destruct (cmds s !! c) as [cm0|] eqn:E; [|by rewrite E].
  unfold command_notify, bind, gets, id. rewrite Z.ltb_antisym. apply Z.leb_le in Hx. rewrite Hx. cbn [negb orb andb].
  pose proof (lookup_lt_Some _ _ _ E) as Hlt.
  destruct (c_done cm0) eqn:Hd0; unfold ret; cbn; rewrite list_lookup_insert_eq by done; intros [= <-]; done || congruence.
Qed.

(** A thread that does not wait for the command is where it was. *)
Lemma notify_thread s c x t th :
  threads s !! t = Some th -> (forall c' b, at_point th <> DoneAsleep c' b) -> threads (notify_host c x s) !! t = Some th.
Proof.
  intros Ht Hn. destruct (notify_cases s c x) as [->|(cm & _ & _ & _ & ->)]; [done|]. cbn. rewrite lookup_map, Ht. cbn. f_equal.
  destruct th as [sn p]. unfold wake_done. cbn in *. destruct p; try done. by destruct (Hn c0 timed).
Qed.
