(* ===== verification/HwActions.v ===== *)
(** The steps of starting a command, of the monitor thread, of the device and of
    the application preserve the invariant of the hardware queue; so does every
    run of a well-behaved system. *)

From S2P Require Import Prelude Bytes CppStd XclbinXml XrtKernel XrtRun XrtPacket HwQueue HwInvariant HwSteps.

Lemma insert_all (P : nat -> thread -> Prop) (l : list thread) t x :
  (forall t0 th0, t0 <> t -> l !! t0 = Some th0 -> P t0 th0) -> P t x ->
  forall t0 th0, <[t := x]> l !! t0 = Some th0 -> P t0 th0.
Proof. intros Ho Hx t0 th0 [(<- & <- & _)|[Hne H0]]%list_lookup_insert_Some; [done|by apply Ho]. Qed.

(** * Starting a command *)

Lemma put_state_ok x cm :
  (4 <= length (execbuf cm))%nat -> bytes (execbuf cm) ->
  (4 <= length (execbuf (put_state x cm)))%nat /\ bytes (execbuf (put_state x cm)) /\
  (0 <= x < 16 -> get_command_state (put_state x cm) = x).
Proof.
  intros Hl Hb. pose proof (header_range _ Hb) as Hh.
  assert (0 <= set_state x (header (execbuf cm)) < 2 ^ 32) as Hr by (apply set_field_range; lia).
  unfold get_command_state, put_state. cbn [execbuf set_execbuf]. rewrite length_set_word. split_and!; [done|by apply bytes_set_word|].
  intros Hx. rewrite header_set_word by done. unfold pkt_state, set_state. apply get_set_bits; lia.
Qed.

Lemma put_new_incomplete n s c cm :
  inv n s -> cmds s !! c = Some cm -> completed (put_state ERT_CMD_STATE_NEW cm) = false.
Proof.
  intros I Hc. destruct (i_cmds n s I c cm Hc) as (Hl & Hb & _). destruct (put_state_ok ERT_CMD_STATE_NEW cm Hl Hb) as (_ & _ & Hs).
  unfold completed. rewrite Hs; [done|]. unfold ERT_CMD_STATE_NEW. lia.
Qed.

Lemma starts_inv n s t sn c :
  inv n s -> threads s !! t = Some (Thread sn (Starts c)) -> cnt (stale c) (threads s) = 0%nat ->
  inv n (on_threads <[t := Thread sn (RunCmd c)]> (on_cmds (alter (put_state ERT_CMD_STATE_NEW) c) s)).
Proof.
  intros I Ht Hstale. set (s' := on_threads _ _). pose proof (i_points n s I t _ Ht) as (cm & Hc & Hd).
  pose proof (put_new_incomplete n s c cm I Hc) as Hnew.
  assert (forall c', cmds s' !! c' = if decide (c' = c) then Some (put_state ERT_CMD_STATE_NEW cm) else cmds s !! c') as Hcm.
  { intros c'. unfold s'; cbn. case_decide; subst; [by rewrite list_lookup_alter_eq, Hc|by rewrite list_lookup_alter_ne by done]. }
  assert (forall c', comp s' c' <-> comp s c' /\ c' <> c) as Ecomp.
  { intros c'. unfold comp. rewrite Hcm. case_decide; subst; split; [intros (y & [= <-] & Hx); congruence|by intros []|done|by intros []]. }
  assert (forall c', pending s' c' <-> pending s c') as Epend by by apply (cmd_same s s' c cm (put_state ERT_CMD_STATE_NEW cm) (fun y => c_done y = false)).
  assert (forall c', has_callbacks s' c' <-> has_callbacks s c') as Ecb by by apply (cmd_same s s' c cm (put_state ERT_CMD_STATE_NEW cm) (fun y => c_callbacks y <> [])).
  assert (forall c', isdone s' c' <-> isdone s c') as Edone by by apply (cmd_same s s' c cm (put_state ERT_CMD_STATE_NEW cm) (fun y => c_done y = true)).
  assert (forall f, (cnt f (threads s') + f (Starts c) = cnt f (threads s) + f (RunCmd c))%nat) as Hcnt
    by (intros f; exact (cnt_insert f _ t (Thread sn (Starts c)) (Thread sn (RunCmd c)) Ht)).
  assert (forall m c', c' <> c -> c' ∈ live s m -> c' ∈ live s' m) as Elive.
  { intros [ | | | | | |i0 n0 b0 c1| | ] c' Hne; try done. cbn. rewrite Hcm. case_decide; [|done]. subst c1.
    cbn. rewrite Hnew. destruct (default _ _); set_solver. }
  assert (forall t0 sn0 p0 c' x, threads s !! t0 = Some (Thread sn0 p0) -> p0 = Marks c' x \/ (exists d i k b, p0 = Monitor d (Mark i k b c' x)) ->
    ERT_CMD_STATE_COMPLETED <= x -> c' <> c) as Hns.
  { intros t0 sn0 p0 c' x H0 Hp0 Hx ->. pose proof (cnt_lookup (stale c) _ _ _ H0) as Hl. apply Z.leb_le in Hx. rewrite Hstale in Hl.
    destruct Hp0 as [->|(d & i & k & b & ->)]; cbn [stale at_point] in Hl; rewrite Nat.eqb_refl, Hx in Hl; cbn in Hl; lia. }
  assert (forall t0 sn0 d m, threads s !! t0 = Some (Thread sn0 (Monitor d m)) -> monitor_ok s m -> monitor_ok s' m) as Hmon.
  { intros t0 sn0 d m H0 [B1 B2]. split.
    - destruct m; try done; [pose proof (Hcnt kicks) as Hk; cbn [kicks] in Hk; destruct B1; [by left|right; lia]|].
      destruct B1 as (B11 & B12 & B13 & B14 & B15). split_and!; try done. intros Hx. apply Ecomp. split; [by apply B15|].
      eapply Hns; [exact H0| |exact Hx]. right. by do 4 eexists.
    - intros c' Hp%Epend Hcb%Ecb. pose proof (Hcnt (pushes c')) as Hk. cbn [pushes] in Hk.
      destruct (B2 c' Hp Hcb) as [H|[H|H]]; [by left| |right; right; lia]. right; left. apply Elive; [|done]. intros ->.
      destruct Hp as (y & Hy & Hy'). congruence. }
  destruct I as [I1 I2 I3 I4 I5 I6 I7 I8 I9 I10 I11 I12 I13 I14]. split; try done.
  - pose proof (Hcnt mons) as Hk. cbn [mons] in Hk. lia.
  - pose proof (Hcnt holds) as Hk. cbn [holds] in Hk. replace (cnt holds (threads s')) with (cnt holds (threads s)) by lia. done.
  - intros c'. pose proof (Hcnt (stage c')) as Hk. cbn [stage] in Hk. specialize (I6 c'). lia.
  - intros c' Hc'. unfold s'; cbn. rewrite length_alter. by apply I8.
  - intros c' Hc'. rewrite Epend, Ecomp. destruct (I10 c' Hc'). naive_solver.
  - intros c' Hc' Hn. pose proof (Hcnt (unsubmitted c')) as Hk. cbn [unsubmitted] in Hk. rewrite Ecomp in Hn.
    destruct (Nat.eqb_spec c c') as [->|Hne]; [right; lia|]. destruct (I11 c' Hc') as [|]; [naive_solver|by left|right; lia].
  - intros c' cm'. rewrite Hcm. unfold cmd_ok. destruct (decide (c' = c)) as [->|Hne]; [|by apply I12].
    intros [= <-]. destruct (I12 c cm Hc) as (J1 & J2 & J3 & J4 & J5). destruct (put_state_ok ERT_CMD_STATE_NEW cm J1 J2) as (K1 & K2 & _). done.
  - apply insert_all; [|].
    + intros t0 th0 Hne H0. apply (wait_ok_le s s'); try done; [by pose proof (Hcnt wakes) as Hk; cbn [wakes] in Hk; lia|by pose proof (Hcnt leaves) as Hk; cbn [leaves] in Hk; lia|naive_solver|by eapply I13].
    + apply (wait_ok_le s s'); try done; [by pose proof (Hcnt wakes) as Hk; cbn [wakes] in Hk; lia|by pose proof (Hcnt leaves) as Hk; cbn [leaves] in Hk; lia|naive_solver|]. 
      destruct (I13 t _ Ht) as [V1 V2 V3 V4 V5]. by split.
  - apply insert_all; [|cbn; rewrite Edone, Ecomp; split; [by exists cm|naive_solver]].
    intros t0 th0 Hne H0. apply (point_ok_le s s'); try done; [apply Ecb|intros; by apply Epend| | |apply length_alter| |by eapply I14].
    2: { intros c' x Hp0 Hx Hco. apply Ecomp. split; [done|]. destruct th0. eapply Hns; [exact H0|by left|exact Hx]. }
    2: { intros d m Hp0. destruct th0. cbn in Hp0. subst. by eapply Hmon. }
    intros c' _. rewrite Edone, Epend, Ecomp. naive_solver.
Qed.

Lemma concat_replicate_S {A} k (l : list A) : concat (replicate (S k) l) = concat (replicate k l) ++ l.
Proof. rewrite replicate_S_end, concat_app. cbn. by rewrite app_nil_r. Qed.

(** The command as [kernel_command::run] leaves it. *)
Definition run_of (cm : command) : command := set_done false (set_managed (negb (length (c_callbacks cm) =? 0)%nat) cm).

Lemma run_cmd_eq s t th c cm :
  cmds s !! c = Some cm -> c_done cm = true ->
  run_cmd c t th s = Some (on_threads <[t := Thread (seen th) (if negb (length (c_callbacks cm) =? 0)%nat then Push c else SubmitUnmanaged c)]>
    (log_start c (on_cmds <[c := run_of cm]> s))).
Proof. intros Hc Hd. unfold run_cmd, command_run, bind, gets, id. rewrite Hc. cbn. by rewrite Hd. Qed.

Lemma run_cmd_inv n s t sn c s' :
  inv n s -> threads s !! t = Some (Thread sn (RunCmd c)) -> run_cmd c t (Thread sn (RunCmd c)) s = Some s' -> inv n s'.
Proof.
  intros I Ht. pose proof (i_points n s I t _ Ht) as [(cm & Hc & Hd) Hnc]. rewrite (run_cmd_eq s t _ c cm Hc Hd). cbn [seen].
  set (p' := if negb (length (c_callbacks cm) =? 0)%nat then _ else _). intros [= <-]. set (s' := on_threads _ _).
  pose proof (lookup_lt_Some _ _ _ Hc) as Hlt.
  assert (forall c', cmds s' !! c' = if decide (c' = c) then Some (run_of cm) else cmds s !! c') as Hcm.
  { intros c'. unfold s'; cbn. case_decide; subst; [by rewrite list_lookup_insert_eq|by rewrite list_lookup_insert_ne]. }
  assert (forall c', comp s' c' <-> comp s c') as Ecomp by by apply (cmd_same s s' c cm (run_of cm) (fun y => completed y = true)).
  assert (forall c', pending s' c' <-> pending s c' \/ c' = c) as Epend.
  { intros c'. unfold pending. rewrite Hcm. case_decide; subst; split; [by right|by eexists|by left|by intros []]. }
  assert (forall c', has_callbacks s' c' <-> has_callbacks s c') as Ecb by by apply (cmd_same s s' c cm (run_of cm) (fun y => c_callbacks y <> [])).
  assert (forall c', c' <> c -> isdone s c' -> isdone s' c') as Edone.
  { intros c' Hne. unfold isdone. rewrite Hcm. by case_decide. }
  assert (~ pending s c) as Hnp by (intros (y & Hy & Hy'); congruence).
  assert (forall f, (cnt f (threads s') + f (RunCmd c) = cnt f (threads s) + f p')%nat) as Hcnt
    by (intros f; exact (cnt_insert f _ t (Thread sn (RunCmd c)) (Thread sn p') Ht)).
  assert (forall m, live s' m = live s m) as Elive.
  { intros [ | | | | | |i0 n0 b0 c1| | ]; try done. cbn. rewrite Hcm. case_decide; [|done]. subst c1. by rewrite Hc. }
  assert (p' = Push c /\ has_callbacks s c \/ p' = SubmitUnmanaged c /\ c_callbacks cm = []) as Hp'.
  { unfold p'. destruct (c_callbacks cm) eqn:E; [by right|left]. split; [done|]. exists cm. by rewrite E. }
  assert (starts s' = starts s ++ [c]) as Hst by done.
  assert (forall m, monitor_ok s m -> monitor_ok s' m) as Hmon.
  { intros m [B1 B2]. split.
    - pose proof (Hcnt kicks) as Hk. destruct m; try done; [destruct B1; [by left|]; right; destruct Hp' as [[E _]|[E _]]; rewrite E in Hk; cbn [kicks] in Hk; lia|..];
        rewrite Hst; destruct B1 as (B11 & B12 & B13); split_and!; try done; set_solver.
    - intros c' Hp Hcb%Ecb. rewrite Elive. pose proof (Hcnt (pushes c')) as Hk. apply Epend in Hp as [Hp | ->].
      + destruct (B2 c' Hp Hcb) as [H|[H|H]]; [by left|by right; left|]. right; right. cbn [pushes] in Hk. lia.
      + right; right. destruct Hp' as [[E _]|[E E']]; [rewrite E in Hk; cbn [pushes] in Hk; rewrite Nat.eqb_refl in Hk; lia|].
        destruct Hcb as (y & Hy & Hy'). congruence. }
  destruct I as [I1 I2 I3 I4 I5 I6 I7 I8 I9 I10 I11 I12 I13 I14]. split; try done.
  - pose proof (Hcnt mons) as Hk. destruct Hp' as [[E _]|[E _]]; rewrite E in Hk; cbn [mons] in Hk; lia.
  - replace (cnt holds (threads s')) with (cnt holds (threads s)); [done|].
    pose proof (Hcnt holds) as Hk. destruct Hp' as [[E _]|[E _]]; rewrite E in Hk; cbn [holds] in Hk; lia.
  - intros c'. pose proof (Hcnt (stage c')) as Hk. specialize (I6 c'). destruct Hp' as [[E _]|[E _]]; rewrite E in Hk; cbn [stage] in Hk; lia.
  - rewrite Hst. destruct I7. split; set_solver.
  - intros c'. rewrite Hst, elem_of_app, list_elem_of_singleton. unfold s'; cbn. rewrite length_insert. intros [Hc'| ->]; [by apply I8|done].
  - intros c' Hc'. rewrite Epend, Ecomp. destruct (I10 c' Hc'). auto.
  - intros c'. rewrite Hst, Ecomp. intros Hc' Hn. pose proof (Hcnt (unsubmitted c')) as Hk.
    assert (cnt (unsubmitted c') (threads s') = cnt (unsubmitted c') (threads s)) as ->.
    { destruct Hp' as [[E _]|[E _]]; rewrite E in Hk; cbn [unsubmitted] in Hk; lia. }
    destruct (decide (c' = c)) as [->|Hne]; [|apply I11; [set_solver|done]].
    right. pose proof (cnt_lookup (unsubmitted c) _ _ _ Ht) as Hl. cbn in Hl. rewrite Nat.eqb_refl in Hl. unfold cnt in *. lia.
  - intros c' cm'. rewrite Hcm. unfold cmd_ok. rewrite Hst. change (calls s') with (calls s).
    destruct (decide (c' = c)) as [->|Hne].
    + intros [= <-]. destruct (I12 c cm Hc) as (J1 & J2 & J3 & J4 & J5). rewrite Hd, app_nil_r in J4. split_and!; try done; [|set_solver].
      replace (length (filter (fun x => x = c) (starts s ++ [c]))) with (S (length (filter (fun x => x = c) (starts s))))
        by (rewrite filter_app, filter_cons_True, length_app by done; cbn; lia).
      change (c_callbacks (run_of cm)) with (c_callbacks cm). by rewrite concat_replicate_S, <- J4.
    + intros Hc'. destruct (I12 c' cm' Hc') as (J1 & J2 & J3 & J4 & J5). split_and!; try done; [|
        |intros Hcd; specialize (J5 Hcd); set_solver].
      * intros [Hin|Hin]%elem_of_app; [by apply J3|]. apply list_elem_of_singleton in Hin. done.
      * rewrite filter_app, filter_cons_False by done. by rewrite app_nil_r.
  - assert (cnt wakes (threads s') = cnt wakes (threads s) /\ cnt leaves (threads s') = cnt leaves (threads s)) as [Ew El].
    { pose proof (Hcnt wakes) as Hk. pose proof (Hcnt leaves) as Hk'. destruct Hp' as [[E _]|[E _]]; rewrite E in Hk, Hk'; cbn [wakes leaves] in *; lia. }
    apply insert_all; [intros t0 th0 Hne H0|]; (apply (wait_ok_le s s'); try done; [apply Ecomp|]); [by eapply I13|].
    destruct (I13 t _ Ht) as [V1 V2 V3 V4 V5]. split; destruct Hp' as [[E _]|[E _]]; rewrite E; cbn in *; done || set_solver.
  - apply insert_all.
    + intros t0 th0 Hne H0. apply (point_ok_le s s'); try done; [rewrite Hst; set_solver|apply Ecb|intros; apply Epend; by left| |intros; by apply Ecomp|apply length_insert|intros d m _; apply Hmon|by eapply I14].
      intros c' Hs. rewrite Epend, Ecomp. split_and!; [|by left|done|done]. apply Edone. intros ->.
      pose proof (cnt_two (stage c) _ _ _ _ _ Ht H0 (not_eq_sym Hne)) as H2. specialize (I6 c). cbn [stage at_point] in H2.
      rewrite Nat.eqb_refl in H2. lia.
    + assert (fresh_start s' c) as Hf.
      { split_and!; [apply Epend; by right|by rewrite Ecomp| |rewrite Hst; set_solver]. intros Hex. destruct (I10 c Hex). done. }
      destruct Hp' as [[E Hcb]|[E _]]; rewrite E; cbn; [|done]. split; [done|by apply Ecb].
Qed.

(** The queue after a change of the lists of its manager. *)
Lemma set_lists_kd n s f sub run :
  inv n s -> let s' := on_threads f (on_devs <[0%nat := set_lists sub run (kd s)]> s) in
  kd s' = set_lists sub run (kd s) /\ devs s' = [kd s'].
Proof. intros I s'. unfold s', kd. cbn. by rewrite (i_devs n s I). Qed.

Lemma push_inv n s t sn c :
  inv n s -> threads s !! t = Some (Thread sn (Push c)) ->
  inv n (on_threads <[t := Thread sn (Submit c)]>
    (on_devs <[0%nat := set_lists (submitted_cmds (kd s) ++ [c]) (running_cmds (kd s)) (kd s)]> s)).
Proof.
  intros I Ht. destruct (set_lists_kd n s <[t := Thread sn (Submit c)]> (submitted_cmds (kd s) ++ [c]) (running_cmds (kd s)) I) as [Hkd Hdev].
  set (s' := on_threads _ _) in *. pose proof (i_points n s I t _ Ht) as [(Hp & Hnc & Hne & Hst) Hcb].
  assert (forall f, (cnt f (threads s') + f (Push c) = cnt f (threads s) + f (Submit c))%nat) as Hcnt
    by (intros f; exact (cnt_insert f _ t (Thread sn (Push c)) (Thread sn (Submit c)) Ht)).
  assert (cnt wakes (threads s') = cnt wakes (threads s) /\ cnt leaves (threads s') = cnt leaves (threads s)) as [Ew El].
  { pose proof (Hcnt wakes) as Hk. pose proof (Hcnt leaves) as Hk'. cbn [wakes leaves] in *. lia. }
  assert (forall th, wait_ok s th -> wait_ok s' th) as Hw.
  { intros th [V1 V2 V3 V4 V5]. split; unfold count, due in *; rewrite ?Hkd, ?Ew, ?El; try done.
    intros c' Ho Hco. change (comp s c') in Hco. assert (c' ∈ owed (kd s) (at_point th) \/ c' = c) as [Ho' | ->]; [|by eapply V5|done].
    revert Ho. destruct (at_point th) as [ | | | c0 b [ | | | | | ] | | | | | | | | | | | | | | d [ | | | [ | | | | | ] | | | | | ] ]; cbn; set_solver. }
  assert (forall m, monitor_ok s m -> monitor_ok s' m) as Hmon.
  { intros m [B1 B2]. pose proof (Hcnt kicks) as Hk. cbn [kicks] in Hk. split.
    - destruct m; rewrite ?Hkd; cbn [submitted_cmds running_cmds set_lists]; try done; [right; lia|..].
      all: intros E; apply (f_equal length) in E; rewrite !length_app in E; cbn in E; lia.
    - intros c' Hp' Hcb'. change (pending s c') in Hp'. change (has_callbacks s c') in Hcb'.
      assert (live s' m = live s m) as -> by (unfold live; by rewrite Hkd).
      pose proof (Hcnt (pushes c')) as Hk'. cbn [pushes] in Hk'. rewrite Hkd. cbn [submitted_cmds set_lists]. rewrite elem_of_app, list_elem_of_singleton.
      destruct (decide (c' = c)) as [->|Hne']; [by left; right|]. destruct (Nat.eqb_spec c c'); [done|].
      destruct (B2 c' Hp' Hcb') as [H|[H|H]]; [by left; left|by right; left|right; right; lia]. }
  destruct I as [I1 I2 I3 I4 I5 I6 I7 I8 I9 I10 I11 I12 I13 I14]. split; try done.
  - by rewrite Hkd.
  - unfold count. by rewrite Hkd.
  - pose proof (Hcnt mons) as Hk. cbn [mons] in Hk. lia.
  - rewrite Hkd. cbn [set_lists m_exec_wait_active]. replace (cnt holds (threads s')) with (cnt holds (threads s)); [done|]. pose proof (Hcnt holds) as Hk. cbn [holds] in Hk. lia.
  - intros c'. pose proof (Hcnt (stage c')) as Hk. specialize (I6 c'). cbn [stage] in Hk. lia.
  - rewrite Hkd. cbn. change (starts s') with (starts s). destruct I7. split; [set_solver|done].
  - intros c' Hc' Hn. pose proof (Hcnt (unsubmitted c')) as Hk. cbn [unsubmitted] in Hk.
    destruct (I11 c' Hc' Hn) as [H|H]; [by left|right; lia].
  - apply insert_all; [intros t0 th0 Hne' H0; by eapply Hw, I13|]. apply Hw. destruct (I13 t _ Ht) as [V1 V2 V3 V4 V5]. by split.
  - apply insert_all; [|done]. intros t0 th0 Hne' H0.
    apply (point_ok_le s s'); try done; [intros d m _; apply Hmon|by eapply I14].
Qed.

Lemma submit_inv n s t sn c p p' :
  inv n s -> threads s !! t = Some (Thread sn p) ->
  (p = SubmitUnmanaged c /\ p' = Ended) \/ (p = Submit c /\ p' = Kick c) ->
  inv n (on_threads <[t := Thread sn p']> (on_executing (cons c) s)).
Proof.
  intros I Ht Hpp. set (s' := on_threads _ _).
  assert (fresh_start s c) as (Hp & Hnc & Hne & Hst).
  { pose proof (i_points n s I t _ Ht) as Hpt. cbn [at_point] in Hpt. destruct Hpp as [[E _]|[E _]]; rewrite E in Hpt; [done|by destruct Hpt]. }
  assert (forall f, (cnt f (threads s') + f p = cnt f (threads s) + f p')%nat) as Hcnt
    by (intros f; exact (cnt_insert f _ t (Thread sn p) (Thread sn p') Ht)).
  assert (forall f, f (SubmitUnmanaged c) = f Ended -> f (Submit c) = f (Kick c) -> cnt f (threads s') = cnt f (threads s)) as Hsame.
  { intros f E1 E2. pose proof (Hcnt f) as Hk. destruct Hpp as [[-> ->]|[-> ->]]; lia. }
  assert (forall th, wait_ok s th -> wait_ok s' th) as Hw by (intros th; apply wait_ok_le; try done; by apply Hsame).
  assert (forall m, monitor_ok s m -> monitor_ok s' m) as Hmon.
  { intros m [B1 B2]. split; [destruct m; try done; by rewrite (Hsame kicks)|]. intros c'. rewrite (Hsame (pushes c')) by done. apply B2. }
  destruct I as [I1 I2 I3 I4 I5 I6 I7 I8 I9 I10 I11 I12 I13 I14]. split; try done.
  - by rewrite (Hsame mons).
  - by rewrite (Hsame holds).
  - intros c'. specialize (I6 c'). pose proof (Hcnt (stage c')) as Hk. destruct Hpp as [[E E']|[E E']]; rewrite E, E' in Hk; cbn [stage] in Hk; lia.
  - unfold s'; cbn. by apply NoDup_cons.
  - intros c' [->|Hc']%elem_of_cons; [done|]. by apply I10.
  - intros c' Hc' Hn. change (executing s') with (c :: executing s). rewrite elem_of_cons. pose proof (Hcnt (unsubmitted c')) as Hk.
    destruct (decide (c' = c)) as [->|Hnc']; [by left; left|].
    destruct (I11 c' Hc' Hn) as [H|H]; [by left; right|right]. destruct (Nat.eqb_spec c c') as [->|Hn2]; [done|].
    destruct Hpp as [[E E']|[E E']]; rewrite E, E' in Hk; cbn [unsubmitted] in Hk; apply Nat.eqb_neq in Hn2; rewrite Hn2 in Hk; lia.
  - apply insert_all; [intros t0 th0 Hne' H0; by eapply Hw, I13|]. apply Hw. destruct (I13 t _ Ht) as [V1 V2 V3 V4 V5].
    split; destruct Hpp as [[-> ->]|[-> ->]]; cbn in *; done || set_solver.
  - apply insert_all; [|by destruct Hpp as [[_ ->]|[_ ->]]]. intros t0 th0 Hne' H0.
    apply (point_ok_le s s'); try done; [|intros d m _; apply Hmon|by eapply I14]. intros c' Hs. split_and!; try done.
    unfold s'; cbn. intros [->|Hin]%elem_of_cons; [|done]. exfalso. specialize (I6 c).
    pose proof (cnt_two (stage c) _ _ _ _ _ Ht H0 (not_eq_sym Hne')) as H2. cbn [at_point] in H2.
    assert (stage c p = 1%nat) by (destruct Hpp as [[-> _]|[-> _]]; cbn; by rewrite Nat.eqb_refl). lia.
Qed.

Lemma wake_monitor_counts th : same_counts (at_point th) (at_point (wake_monitor 0 th)).
Proof.
  destruct th as [sn p]. unfold wake_monitor. destruct p as [ | | | | | | | | | | | | | | | | |d m]; try done.
  destruct m; try done. cbn. by destruct (_ =? _)%nat.
Qed.

Lemma kick_inv n s t sn c :
  inv n s -> threads s !! t = Some (Thread sn (Kick c)) ->
  inv n (on_threads <[t := Thread sn Ended]> (on_threads (map (wake_monitor 0)) s)).
Proof.
  intros I Ht. set (s' := on_threads _ _).
  assert (forall f, (forall y, f (at_point (wake_monitor 0 y)) = f (at_point y)) -> f (Kick c) = f Ended -> cnt f (threads s') = cnt f (threads s)) as Hcnt.
  { intros f Hf E. rewrite <- (cnt_map f (wake_monitor 0) (threads s) Hf).
    apply (cnt_same f _ t (wake_monitor 0 (Thread sn (Kick c)))); [cbn; by rewrite lookup_map, Ht|]. by rewrite Hf. }
  assert (forall t0 th0, t0 <> t -> map (wake_monitor 0) (threads s) !! t0 = Some th0 ->
    exists th1, threads s !! t0 = Some th1 /\ th0 = wake_monitor 0 th1) as Hlook.
  { intros t0 th0 _. rewrite lookup_map. destruct (threads s !! t0) as [th1|]; [|done]. intros [= <-]. by exists th1. }
  assert (forall th, wait_ok s th -> wait_ok s' (wake_monitor 0 th)) as Hw.
  { intros th [V1 V2 V3 V4 V5]. apply (wait_ok_le s s'); try done; [apply Hcnt; [intros y; apply wake_monitor_counts|done]..|].
    destruct th as [sn0 p]. unfold wake_monitor. destruct p as [ | | | | | | | | | | | | | | | | |d m]; try done.
    destruct m; try done. cbn [at_point]. destruct (_ =? _)%nat; [|done]. by split. }
  destruct I as [I1 I2 I3 I4 I5 I6 I7 I8 I9 I10 I11 I12 I13 I14]. split; try done.
  - rewrite (Hcnt mons); [done| |done]. intros y. apply wake_monitor_counts.
  - rewrite (Hcnt holds); [done| |done]. intros y. apply wake_monitor_counts.
  - intros c'. rewrite (Hcnt (stage c')); [done| |done]. intros y. apply wake_monitor_counts.
  - intros c' Hc' Hn. rewrite (Hcnt (unsubmitted c')); [by apply I11| |done]. intros y. apply wake_monitor_counts.
  - apply insert_all; [intros t0 th0 Hne (th1 & H0 & ->)%Hlook; [|done]; by eapply Hw, I13|].
    apply (Hw (Thread sn Ended)). destruct (I13 t _ Ht) as [V1 V2 V3 V4 V5]. by split.
  - apply insert_all; [|done]. intros t0 th0 Hne (th1 & H0 & ->)%Hlook; [|done]. pose proof (I14 t0 th1 H0) as Hp.
    assert (forall m, m <> IdleAsleep -> monitor_ok s m -> monitor_ok s' m) as Hmon.
    { intros m Hm [B1 B2]. split; [by destruct m|]. intros c' Hp' Hcb'.
      rewrite (Hcnt (pushes c')); [by apply B2| |done]. intros y. apply wake_monitor_counts. }
    destruct th1 as [sn0 p]. unfold wake_monitor. cbn [at_point] in *.
    destruct p as [ | | | | | | | | | | | | | | | | |d m]; try done. destruct Hp as [-> Hm]. 
    destruct m; cbn [at_point]; try (split; [done|]; by apply Hmon). cbn. split; [done|].
    apply Hmon; [done|]. destruct Hm as [B1 B2]. by split.
Qed.

(** * The monitor thread *)

Lemma only_monitor n s t sn d m t0 th0 :
  inv n s -> threads s !! t = Some (Thread sn (Monitor d m)) -> t0 <> t -> threads s !! t0 = Some th0 -> mons (at_point th0) = 0%nat.
Proof.
  intros I Ht Hne H0. pose proof (cnt_two mons _ _ _ _ _ Ht H0 (not_eq_sym Hne)) as H. rewrite (i_mon n s I) in H. cbn in H. lia.
Qed.

(** The monitor moves and changes its lists. *)
Lemma lists_inv n s t sn m m' sub run :
  inv n s -> threads s !! t = Some (Thread sn (Monitor 0 m)) ->
  (forall w, m <> Waits w) -> (forall w, m' <> Waits w) ->
  sub ⊆ starts s -> run ⊆ starts s ->
  let s' := on_threads <[t := Thread sn (Monitor 0 m')]> (on_devs <[0%nat := set_lists sub run (kd s)]> s) in
  (forall c, c ∈ owed (kd s') (Monitor 0 m') -> c ∈ owed (kd s) (Monitor 0 m)) -> monitor_ok s' m' -> inv n s'.
Proof.
  intros I Ht Hm Hm' Hsub Hrun s' Howed Hok.
  destruct (set_lists_kd n s <[t := Thread sn (Monitor 0 m')]> sub run I) as [Hkd Hdev]. fold s' in Hkd, Hdev.
  assert (forall f, f (Monitor 0 m') = f (Monitor 0 m) -> cnt f (threads s') = cnt f (threads s)) as Hcnt.
  { intros f Hf. by eapply (cnt_same f _ t _ (Thread sn (Monitor 0 m'))). }
  assert (holds (Monitor 0 m') = holds (Monitor 0 m) /\ leaves (Monitor 0 m') = leaves (Monitor 0 m) /\ wakes (Monitor 0 m') = wakes (Monitor 0 m)) as (E1 & E2 & E3).
  { destruct m; try (by destruct (Hm w)); destruct m'; try (by destruct (Hm' w)); done. }
  assert (forall th, (forall c, c ∈ owed (kd s') (at_point th) -> c ∈ owed (kd s) (at_point th)) -> wait_ok s th -> wait_ok s' th) as Hw.
  { intros th Ho [V1 V2 V3 V4 V5]. split; unfold count, due in *; rewrite ?Hkd, ?(Hcnt wakes E3), ?(Hcnt leaves E2); try done.
    intros c Hc Hco. rewrite <- Hkd in Hc. by eapply V5, Hco; apply Ho. }
  pose proof (only_monitor n s t sn 0 m) as Honly.
  pose proof I as [I1 I2 I3 I4 I5 I6 I7 I8 I9 I10 I11 I12 I13 I14]. split; try done.
  - by rewrite Hkd.
  - unfold count. by rewrite Hkd.
  - by rewrite (Hcnt mons).
  - rewrite Hkd. by rewrite (Hcnt holds).
  - intros c. by rewrite (Hcnt (stage c)).
  - by rewrite Hkd.
  - intros c Hc Hn. rewrite (Hcnt (unsubmitted c)) by done. by apply I11.
  - apply insert_all.
    + intros t0 th0 Hne H0. apply Hw; [|by eapply I13]. pose proof (Honly t0 th0 I Ht Hne H0) as Hn. by destruct (at_point th0).
    + destruct (I13 t _ Ht) as [V1 V2 V3 V4 V5]. split; unfold count, due in *; rewrite ?Hkd, ?(Hcnt wakes E3), ?(Hcnt leaves E2); cbn [at_point seen] in *.
      * done.
      * rewrite E1. done.
      * destruct m'; try done. by destruct (Hm' w).
      * destruct m'; try done. by destruct (Hm' w).
      * intros c Hc Hco. apply (V5 c); [|done]. apply Howed. by rewrite Hkd.
  - apply insert_all; [|done]. intros t0 th0 Hne H0. pose proof (Honly t0 th0 I Ht Hne H0) as Hn. pose proof (I14 t0 th0 H0) as Hp.
    by destruct (at_point th0).
Qed.

(** The monitor moves, its lists stay. *)
Lemma monitor_move n s t sn m m' :
  inv n s -> threads s !! t = Some (Thread sn (Monitor 0 m)) ->
  (forall w, m <> Waits w) -> m' = Waits Enter \/ (forall w, m' <> Waits w) ->
  (forall c, c ∈ owed (kd s) (Monitor 0 m') -> c ∈ owed (kd s) (Monitor 0 m) \/ ~ comp s c) -> monitor_ok s m' ->
  inv n (on_threads <[t := Thread sn (Monitor 0 m')]> s).
Proof.
  intros I Ht Hm Hm' Ho Hok. destruct (site_wait_ok _ _ _ _ _ I Ht) as [[V1 V2 V3 V4 V5] P].
  eapply inv_move; [exact I|exact Ht| | |done].
  - split; cbn [at_point]; try done; destruct m; try (by destruct (Hm w)); destruct Hm' as [->|Hm'']; try done; destruct m'; try done; by destruct (Hm'' w).
  - split; cbn [at_point seen] in *; try done.
    + destruct Hm' as [->|Hm'']; [cbn; lia|]. destruct m'; cbn; try lia. by destruct (Hm'' w).
    + destruct Hm' as [->|Hm'']; [done|]. destruct m'; try done. by destruct (Hm'' w).
    + destruct Hm' as [->|Hm'']; [done|]. destruct m'; try done. by destruct (Hm'' w).
    + intros c Hc Hco. destruct (Ho c Hc) as [Ho'|]; [by eapply V5|done].
Qed.

Lemma monitor_inv n s t sn m s' :
  inv n s -> Z.of_nat n < 2 ^ 64 - 1 -> threads s !! t = Some (Thread sn (Monitor 0 m)) ->
  monitor_loop dev0 0 t (Thread sn (Monitor 0 m)) m s = Some s' -> inv (S n) s'.
Proof.
  intros I Hn Ht. unfold monitor_loop. rewrite (devs_lookup n s I). cbn [mbind option_bind seen].
  assert (forall s1, inv n s1 -> inv (S n) s1) as Hm by (intros s1; apply inv_mono; lia).
  destruct (i_points n s I t _ Ht) as [_ [B1 B2]]. destruct (i_lists n s I) as [L1 L2].
  destruct m as [ | | |w| |i k b|i k b c|i k b c x| ]; try done.
  - rewrite (i_stop n s I). cbn [negb andb].
    destruct ((length (running_cmds (kd s)) =? 0)%nat && (length (submitted_cmds (kd s)) =? 0)%nat) eqn:E; intros [= <-]; apply Hm.
    + apply andb_true_iff in E as [E1%Nat.eqb_eq%nil_length_inv E2%Nat.eqb_eq%nil_length_inv].
      eapply monitor_move; try done; [by right|by left|]. split; [|done]. left. by rewrite E1, E2.
    + eapply monitor_move; try done; [by right|by left|]. split; [|done]. intros E'. apply app_nil in E' as [E1 E2]. by rewrite E1, E2 in E.
  - rewrite (i_stop n s I). intros [= <-]. apply Hm. apply (monitor_move n s t sn Go); [done|done|done|by left|by left|by split].
  - intros Hs. by eapply (exec_wait_step_inv n s t sn AtMonitor w true).
  - intros [= <-]. apply Hm. eapply lists_inv; try done; [apply list_subseteq_nil|set_solver| |].
    + intros c. destruct (set_lists_kd n s <[t := Thread sn (Monitor 0 (Scan 0 (length (running_cmds (kd s) ++ submitted_cmds (kd s))) []))]>
        [] (running_cmds (kd s) ++ submitted_cmds (kd s)) I) as [-> _]. cbn. set_solver.
    + set (s' := on_threads _ _). destruct (set_lists_kd n s <[t := Thread sn (Monitor 0 (Scan 0 (length (running_cmds (kd s) ++ submitted_cmds (kd s))) []))]>
        [] (running_cmds (kd s) ++ submitted_cmds (kd s)) I) as [Hkd _]. fold s' in Hkd. split.
      * rewrite Hkd. cbn [running_cmds set_lists]. split_and!; [done|lia|apply list_subseteq_nil].
      * intros c Hp Hcb. rewrite Hkd. unfold live. rewrite Hkd. cbn [submitted_cmds running_cmds set_lists drop]. rewrite app_nil_r.
        destruct (B2 c Hp Hcb) as [H|[H|H]]; [right; left; set_solver|right; left; cbn in H; set_solver|].
        right; right. unfold s'. cbn [threads on_threads on_devs]. by rewrite (cnt_same (pushes c) _ t _ _ Ht).
  - destruct B1 as (Hk & Hi & Hb). destruct (Nat.ltb_spec i k) as [Hlt|Hge].
    + destruct (lookup_lt_is_Some_2 (running_cmds (kd s)) i) as [c Hc]; [lia|]. rewrite Hc. cbn [mbind option_bind].
      assert (c ∈ starts s) as Hst by (apply L2; by eapply list_elem_of_lookup_2).
      destruct (lookup_lt_is_Some_2 (cmds s) c) as [cm Hcm]; [by apply (i_starts n s I)|]. rewrite Hcm. cbn [mbind option_bind].
      destruct (completed cm) eqn:Hco; intros [= <-]; apply Hm.
      * eapply monitor_move; try done; [by right|by left|]. split; [done|]. intros c' Hp Hcb.
        destruct (B2 c' Hp Hcb) as [H|[H|H]]; [by left| |by right; right]. right; left. cbn in H |- *. rewrite Hcm. cbn. rewrite Hco.
        rewrite (drop_S _ _ _ Hc) in H. set_solver.
      * assert (~ comp s c) as Hnc by (intros (y & Hy & Hy'); congruence).
        eapply monitor_move; try done; [by right| |].
        -- intros c'. cbn. rewrite !elem_of_app, list_elem_of_singleton. intros [H|[H| ->]]; auto.
        -- split; [split_and!; [done|lia|]; intros y; rewrite elem_of_app, list_elem_of_singleton; intros [H| ->]; [by apply Hb|done]|].
           intros c' Hp Hcb. destruct (B2 c' Hp Hcb) as [H|[H|H]]; [by left| |by right; right]. right; left. cbn in H |- *.
           rewrite (drop_S _ _ _ Hc) in H. set_solver.
    + intros [= <-]. apply Hm. eapply lists_inv; try done.
      * intros c. destruct (set_lists_kd n s <[t := Thread sn (Monitor 0 Idle)]> (submitted_cmds (kd s)) b I) as [-> _]. done.
      * set (s' := on_threads _ _). destruct (set_lists_kd n s <[t := Thread sn (Monitor 0 Idle)]> (submitted_cmds (kd s)) b I) as [Hkd _].
        fold s' in Hkd. split; [done|]. intros c Hp Hcb. unfold live. rewrite Hkd. cbn [submitted_cmds running_cmds set_lists].
        destruct (B2 c Hp Hcb) as [H|[H|H]]; [by left| |right; right; unfold s'; cbn [threads on_threads on_devs]; by rewrite (cnt_same (pushes c) _ t _ _ Ht)].
        right; left. cbn in H. rewrite drop_ge in H by lia. done.
  - destruct B1 as (Hk & Hi & Hb & Hst). destruct (lookup_lt_is_Some_2 (cmds s) c) as [cm Hc]; [by apply (i_starts n s I)|].
    rewrite Hc. cbn [mbind option_bind]. intros [= <-]. apply Hm. eapply monitor_move; try done; [by right|by left|]. split.
    + split_and!; try done. intros Hx. exists cm. split; [done|]. by apply Z.leb_le.
    + intros c' Hp Hcb. destruct (B2 c' Hp Hcb) as [H|[H|H]]; [by left| |by right; right]. right; left. cbn in H |- *. by rewrite Hc in H.
  - destruct B1 as (Hk & Hi & Hb & Hst & Hx). intros [= <-]. apply Hm. pose proof (notify_inv n s c x I Hx) as I'.
    pose proof (notify_thread s c x t _ Ht ltac:(done)) as Ht'. destruct (i_points n _ I' t _ Ht') as [_ [B1' B2']].
    apply (monitor_move n _ t sn (Mark i k b c x)); [done|done|done|by right|by left|].
    destruct B1' as (K1 & K2 & K3 & _). split; [split_and!; done|]. intros c' Hp Hcb.
    destruct (B2' c' Hp Hcb) as [H|[H|H]]; [by left| |by right; right]. right; left. revert H. cbn.
    rewrite !elem_of_app. intros [H|H]; [|done]. destruct (Z.leb_spec ERT_CMD_STATE_COMPLETED x) as [Hle|]; [|set_solver].
    apply list_elem_of_singleton in H as ->. by destruct (notify_done s c x Hle).
Qed.
