(* ===== verification/HwRuns.v ===== *)
(** The device and the application preserve the invariant of the hardware queue
    as well, and it holds at the start. *)

From S2P Require Import Prelude Bytes CppStd XclbinXml XrtKernel XrtRun XrtPacket HwQueue HwInvariant HwSteps HwActions.

Lemma erase_first_sub c l : erase_first c l ⊆ l.
Proof.
  unfold erase_first. destruct (list_find (eq c) l) as [[i y]|]; [|done].
  intros z Hz. rewrite delete_take_drop, elem_of_app in Hz. destruct Hz as [Hz|Hz]; [by eapply subseteq_take|by eapply subseteq_drop].
Qed.

Lemma erase_first_keep c c' l : c' <> c -> c' ∈ l -> c' ∈ erase_first c l.
Proof.
  intros Hne Hin. unfold erase_first. destruct (list_find (eq c) l) as [[i y]|] eqn:E; [|done].
  apply list_find_Some in E as (Hi & <- & _). rewrite <- (take_drop_middle l i c Hi) in Hin.
  rewrite delete_take_drop. set_solver.
Qed.

Lemma erase_first_nodup c l : NoDup l -> NoDup (erase_first c l) /\ c ∉ erase_first c l.
Proof.
  intros Hl. unfold erase_first. destruct (list_find (eq c) l) as [[i y]|] eqn:E.
  - apply list_find_Some in E as (Hi & <- & _). rewrite delete_take_drop. rewrite <- (take_drop_middle l i c Hi) in Hl.
    apply NoDup_app in Hl as (H1 & H2 & H3). apply NoDup_cons in H3 as [H3 H4]. split.
    + apply NoDup_app. split_and!; try done. intros z Hz. specialize (H2 z Hz). set_solver.
    + rewrite elem_of_app. intros [H|H]; [|done]. apply (H2 c H). set_solver.
  - split; [done|]. intros Hc. apply list_find_None in E. rewrite Forall_forall in E. by apply (E c).
Qed.

(** * The device *)

Lemma complete_inv n s c x :
  inv n s -> c ∈ executing s -> ERT_CMD_STATE_COMPLETED <= x < 16 ->
  inv n (on_devs (alter (fun k => set_events (S (signals k)) (events k) k) 0%nat)
    (on_executing (erase_first c) (on_cmds (alter (put_state x) c) s))).
Proof.
  intros I Hex Hx. set (s' := on_devs _ _). destruct (i_exec n s I c Hex) as [(cm & Hc & Hd) Hnc].
  destruct (i_cmds n s I c cm Hc) as (Hl & Hb & _). destruct (put_state_ok x cm Hl Hb) as (_ & _ & Hst).
  assert (completed (put_state x cm) = true) as Hco.
  { unfold completed. rewrite Hst by (unfold ERT_CMD_STATE_COMPLETED in *; lia). apply Z.leb_le. lia. }
  assert (kd s' = set_events (S (signals (kd s))) (events (kd s)) (kd s) /\ devs s' = [kd s']) as [Hkd Hdev].
  { unfold s', kd; cbn. by rewrite (i_devs n s I). }
  assert (forall c', cmds s' !! c' = if decide (c' = c) then Some (put_state x cm) else cmds s !! c') as Hcm.
  { intros c'. unfold s'; cbn. case_decide; subst; [by rewrite list_lookup_alter_eq, Hc|by rewrite list_lookup_alter_ne by done]. }
  assert (forall c', comp s' c' <-> comp s c' \/ c' = c) as Ecomp.
  { intros c'. unfold comp. rewrite Hcm. case_decide; subst; split; [by right|by eexists|by left|by intros []]. }
  assert (forall c', pending s' c' <-> pending s c') as Epend by by apply (cmd_same s s' c cm (put_state x cm) (fun y => c_done y = false)).
  assert (forall c', has_callbacks s' c' <-> has_callbacks s c') as Ecb by by apply (cmd_same s s' c cm (put_state x cm) (fun y => c_callbacks y <> [])).
  assert (forall c', isdone s' c' <-> isdone s c') as Edone by by apply (cmd_same s s' c cm (put_state x cm) (fun y => c_done y = true)).
  destruct (erase_first_nodup c (executing s) (i_exec_nodup n s I)) as [Hnd Hnotin].
  assert (forall m c', c' ∈ live s m -> c' ∈ live s' m) as Elive.
  { intros m c'. unfold live. rewrite Hkd. destruct m as [ | | | | | |i0 n0 b0 c1| | ]; try done. cbn [running_cmds set_events].
    rewrite Hcm. case_decide; [|done]. subst c1. cbn. rewrite Hco. destruct (default _ _); set_solver. }
  assert (forall m, monitor_ok s m -> monitor_ok s' m) as Hmon.
  { intros m [B1 B2]. split; [destruct m; rewrite ?Hkd; try done; rewrite Ecomp; naive_solver|]. intros c' Hp%Epend Hcb%Ecb. rewrite Hkd. cbn [submitted_cmds set_events].
    destruct (B2 c' Hp Hcb) as [H|[H|H]]; [by left|right; left; by apply Elive|by right; right]. }
  pose proof I as [I1 I2 I3 I4 I5 I6 I7 I8 I9 I10 I11 I12 I13 I14]. split; try done.
  - by rewrite Hkd.
  - unfold count. by rewrite Hkd.
  - by rewrite Hkd.
  - by rewrite Hkd.
  - intros c' Hc'. unfold s'; cbn. rewrite length_alter. by apply I8.
  - intros c' Hc'. change (c' ∈ erase_first c (executing s)) in Hc'. rewrite Epend, Ecomp.
    destruct (I10 c' (erase_first_sub c _ _ Hc')) as [H1 H2]. split; [done|]. intros [H| ->]; done.
  - intros c' Hc' Hn. rewrite Ecomp in Hn. destruct (I11 c' Hc') as [H|H]; [auto| |by right]. left. apply erase_first_keep; [auto|done].
  - intros c' cm'. rewrite Hcm. unfold cmd_ok. destruct (decide (c' = c)) as [->|Hne]; [|by apply I12].
    intros [= <-]. destruct (I12 c cm Hc) as (J1 & J2 & J3 & J4 & J5). destruct (put_state_ok x cm J1 J2) as (K1 & K2 & _). done.
  - intros t0 th0 H0. destruct (I13 t0 th0 H0) as [V1 V2 V3 V4 V5]. split; unfold count, due; rewrite ?Hkd; try done.
    intros c' _ _. left. cbn. lia.
  - intros t0 th0 H0. apply (point_ok_le s s'); try done; [apply Ecb|intros; by apply Epend| |intros; apply Ecomp; by left|apply length_alter|intros d m _; apply Hmon|by eapply I14].
    intros c' Hs. rewrite Edone, Epend, Ecomp. split_and!; try done; [|apply erase_first_sub]. intros [H| ->]; [done|]. exfalso.
    pose proof (I14 t0 th0 H0) as Hp. destruct (at_point th0); cbn in Hs; try done; destruct (Nat.eqb_spec c0 c); try done; subst c0; cbn in Hp; unfold fresh_start in Hp.
    + destruct Hp as (y & Hy & Hy'). congruence.
    + destruct Hp as [(y & Hy & Hy') _]. congruence.
    + naive_solver.
    + naive_solver.
    + naive_solver.
Qed.

Lemma signal_inv n s k :
  inv n s -> signals (kd s) = S k -> inv n (on_devs <[0%nat := set_events k (S (events (kd s))) (kd s)]> s).
Proof.
  intros I Hsg. set (s' := on_devs _ _).
  assert (kd s' = set_events k (S (events (kd s))) (kd s) /\ devs s' = [kd s']) as [Hkd Hdev].
  { unfold s', kd; cbn. by rewrite (i_devs n s I). }
  pose proof I as [I1 I2 I3 I4 I5 I6 I7 I8 I9 I10 I11 I12 I13 I14]. split; try done.
  - by rewrite Hkd.
  - unfold count. by rewrite Hkd.
  - by rewrite Hkd.
  - by rewrite Hkd.
  - intros t0 th0 H0. destruct (I13 t0 th0 H0) as [V1 V2 V3 V4 V5]. split; unfold count, due; rewrite ?Hkd; try done.
    intros c Hc Hco. left. cbn. lia.
  - intros t0 th0 H0. eapply point_ok_ext; [|by eapply I14]. split; try done; by rewrite Hkd.
Qed.

(** * The application *)

(** A point at which a call starts. *)
Definition entry (p : point) : Prop :=
  match p with WaitTest _ _ | DoneTest _ _ | Polls _ | Starts _ => True | _ => False end.

Lemma call_threads n s t p s' :
  inv n s -> entry p -> call t p s = Some s' ->
  exists sn l, s' = on_threads (fun _ => l) s /\ 0 <= sn <= count s /\
    (forall f, f Ended = 0%nat -> f Threw = 0%nat -> cnt f l = (cnt f (threads s) + f p)%nat) /\
    (forall t0 th0, l !! t0 = Some th0 -> threads s !! t0 = Some th0 \/ th0 = Thread sn p).
Proof.
  intros I Hp. unfold call. pose proof (i_count n s I) as Hc.
  assert (forall sn p0, p0 = Ended \/ p0 = Threw -> threads s !! t = Some (Thread sn p0) ->
    let l := <[t := Thread sn p]> (threads s) in
    0 <= sn <= count s /\
    (forall f, f Ended = 0%nat -> f Threw = 0%nat -> cnt f l = (cnt f (threads s) + f p)%nat) /\
    (forall t0 th0, l !! t0 = Some th0 -> threads s !! t0 = Some th0 \/ th0 = Thread sn p)) as Hins.
  { intros sn p0 Hp0 Ht l. split; [apply (w_seen _ _ (i_wait n s I t _ Ht))|]. split.
    - intros f H1 H2. pose proof (cnt_insert f _ t _ (Thread sn p) Ht) as Hi. fold l in Hi. cbn [at_point] in Hi. destruct Hp0 as [-> | ->]; lia.
    - intros t0 th0 [(-> & <- & _)|[_ H0]]%list_lookup_insert_Some; auto. }
  destruct (threads s !! t) as [[sn p0]|] eqn:Ht.
  - destruct p0; try done; intros [= <-]; eexists sn, _; (split; [reflexivity|]); (eapply Hins; [|reflexivity]); auto.
  - destruct (_ =? _)%nat; [|done]. intros [= <-]. eexists 0, _. split; [reflexivity|]. split; [lia|]. split.
    + intros f _ _. apply cnt_snoc.
    + intros t0 th0 [H0|[_ H0]]%lookup_app_Some; [by left|right]. by apply list_lookup_singleton_Some in H0 as [_ <-].
Qed.

Lemma call_inv n s t p s' :
  inv n s -> entry p -> call t p s = Some s' -> (forall c, (cnt (stage c) (threads s) + stage c p <= 1)%nat) -> point_ok s p -> inv n s'.
Proof.
  intros I Hp Hcall Hst Hok. destruct (call_threads n s t p s' I Hp Hcall) as (sn & l & -> & Hsn & Hcnt & Hl).
  set (s' := on_threads _ s) in *.
  assert (forall f, f Ended = 0%nat -> f Threw = 0%nat -> f p = 0%nat -> cnt f (threads s') = cnt f (threads s)) as Hsame.
  { intros f H1 H2 H3. unfold s'; cbn [threads on_threads]. rewrite (Hcnt f H1 H2). lia. }
  assert (same_lists s s') as SL.
  { split; try done; [rewrite (Hsame kicks); by destruct p|]. intros c. apply Hsame; by destruct p. }
  assert (forall th, wait_ok s th -> wait_ok s' th) as Hw by (intros th; apply wait_ok_le; try done; apply Hsame; by destruct p).
  pose proof I as [I1 I2 I3 I4 I5 I6 I7 I8 I9 I10 I11 I12 I13 I14]. split; try done.
  - rewrite (Hsame mons); [done|by destruct p..].
  - rewrite (Hsame holds); [done|by destruct p..].
  - intros c. unfold s'; cbn [threads on_threads]. rewrite (Hcnt (stage c)) by done. apply Hst.
  - intros c Hc Hn. rewrite (Hsame (unsubmitted c)); [by apply I11|by destruct p..].
  - intros t0 th0 [H0| ->]%Hl; [by eapply Hw, I13|]. apply Hw. split; cbn [seen at_point]; try done; destruct p; cbn; done || lia || set_solver.
  - intros t0 th0 [H0| ->]%Hl; (eapply point_ok_ext; [exact SL|]); [by eapply I14|done].
Qed.

(** * All actions *)

(** A thread reads the state that it will notify. *)
Lemma read_inv n s t sn c p s' :
  inv n s -> threads s !! t = Some (Thread sn p) -> p = WaitNotify c \/ p = Polls c -> (c < length (cmds s))%nat ->
  (cm ← cmds s !! c; Some (on_threads <[t := Thread sn (Marks c (get_command_state cm))]> s)) = Some s' -> inv (S n) s'.
Proof.
  intros I Ht Hp Hc. destruct (lookup_lt_is_Some_2 (cmds s) c Hc) as [cm Hcm]. rewrite Hcm. cbn [mbind option_bind]. intros [= <-].
  apply (inv_mono n); [lia|]. destruct (site_wait_ok _ _ _ _ _ I Ht) as [[V1 V2 V3 V4 V5] _]. eapply inv_move; [exact I|exact Ht| | |].
  - by destruct Hp as [-> | ->].
  - split; destruct Hp as [-> | ->]; cbn [seen at_point] in *; done || set_solver.
  - intros Hx. exists cm. split; [done|]. by apply Z.leb_le.
Qed.

Lemma run_thread_inv n s t choice s' :
  inv n s -> Z.of_nat n < 2 ^ 64 - 1 -> polite s (Run t choice) -> run_thread dev0 t choice s = Some s' -> inv (S n) s'.
Proof.
  intros I Hn Hpol. unfold_thread. unfold polite in Hpol.
  destruct (threads s !! t) as [[sn p]|] eqn:Ht; [|done]. cbn [mbind option_bind seen at_point fmap option_fmap option_map] in *.
  assert (forall s1, inv n s1 -> inv (S n) s1) as Hm by (intros s1; apply inv_mono; lia).
  destruct (site_wait_ok _ _ _ _ _ I Ht) as [[V1 V2 V3 V4 V5] P]. cbn [seen at_point] in *.
  destruct p as [ | |c b|c b w|c|c b|c b|c|c|c|c|c|c|c|c|c|c x|d m]; try done.
  - destruct (lookup_lt_is_Some_2 (cmds s) c) as [cm Hc]; [by apply (i_starts n s I)|]. rewrite Hc. cbn [mbind option_bind].
    intros [= <-]. apply Hm. eapply inv_move; [exact I|exact Ht| | |].
    + by destruct (completed cm).
    + split; cbn [seen at_point]; try done; destruct (completed cm) eqn:E; cbn; try done; try lia.
      intros c' ->%list_elem_of_singleton (y & Hy & Hy'). congruence.
    + by destruct (completed cm).
  - intros Hs. eapply (exec_wait_step_inv n s t sn (AtWait c b) w); done.
  - eapply read_inv; [exact I|exact Ht|by left|by apply (i_starts n s I)].
  - destruct P as [P1 (cm & Hc & Hcb)]. rewrite Hc. cbn [mbind option_bind]. intros [= <-]. apply Hm. eapply inv_move; [exact I|exact Ht| | |].
    + by destruct (c_done cm).
    + split; cbn [seen at_point]; try done; destruct (c_done cm); done || set_solver.
    + destruct (c_done cm) eqn:E; [done|]. split_and!; [done|by exists cm|by exists cm].
  - destruct (b && negb choice); [|done]. intros [= <-]. apply Hm. eapply inv_move; [exact I|exact Ht|done| |done]. by split.
  - eapply read_inv; [exact I|exact Ht|by right|done].
  - intros [= <-]. by apply Hm, starts_inv.
  - intros Hs. apply Hm. by eapply run_cmd_inv.
  - rewrite (devs_lookup n s I). cbn [mbind option_bind]. intros [= <-]. by apply Hm, push_inv.
  - subst choice. intros [= <-]. apply Hm. eapply submit_inv; [exact I|exact Ht|by right].
  - intros [= <-]. apply Hm. by eapply kick_inv.
  - subst choice. intros [= <-]. apply Hm. eapply submit_inv; [exact I|exact Ht|by left].
  - intros [= <-]. apply Hm. pose proof (notify_inv n s c x I P) as I'. pose proof (notify_thread s c x t _ Ht ltac:(done)) as Ht'.
    eapply inv_move; [exact I'|exact Ht'|done| |done]. destruct (i_wait n _ I' t _ Ht') as [U1 U2 U3 U4 U5]. by split.
  - destruct P as [-> _]. intros Hs. by eapply monitor_inv.
Qed.

Lemma act_inv n s a s' :
  inv n s -> Z.of_nat n < 2 ^ 64 - 1 -> polite s a -> act dev0 a s = Some s' -> inv (S n) s'.
Proof.
  intros I Hn Hpol. assert (forall s1, inv n s1 -> inv (S n) s1) as Hm by (intros s1; apply inv_mono; lia).
  destruct a as [t choice|c x|d|t c|t c b|t c|d]; cbn [act].
  - by apply run_thread_inv.
  - destruct (decide _) as [Hc|]; [|done]. destruct ((_ <=? _) && _) eqn:E; [|done].
    apply andb_true_iff in E as [E1%Z.leb_le E2%Z.ltb_lt]. intros [= <-]. by apply Hm, complete_inv.
  - destruct d as [|d]; [|by rewrite (i_devs n s I)]. rewrite (devs_lookup n s I). cbn [mbind option_bind].
    destruct (signals (kd s)) as [|k] eqn:E; [done|]. intros [= <-]. by apply Hm, signal_inv.
  - intros Hs. apply Hm. destruct Hpol as [Hd Hst]. eapply call_inv; [exact I| |exact Hs| |done]; [done|].
    intros c'. cbn [stage]. destruct (Nat.eqb_spec c c') as [->|]; [lia|]. pose proof (i_stage n s I c'). lia.
  - destruct (lookup_lt_is_Some_2 (cmds s) c) as [cm Hc]; [by apply (i_starts n s I)|]. rewrite Hc. cbn [mbind option_bind].
    intros Hs. apply Hm. destruct (i_cmds n s I c cm Hc) as (_ & _ & Hmg & _). specialize (Hmg Hpol).
    eapply call_inv; [exact I| |exact Hs| |]; destruct (c_managed cm); try done.
    + intros c'. pose proof (i_stage n s I c'). cbn. lia.
    + intros c'. pose proof (i_stage n s I c'). cbn. lia.
    + split; [done|]. exists cm. split; [done|]. by destruct (c_callbacks cm).
  - intros Hs. apply Hm. eapply call_inv; [exact I| |exact Hs| |done]; [done|]. intros c'. pose proof (i_stage n s I c'). cbn. lia.
  - done.
Qed.

(** * The start *)

(** Commands before their first start. *)
Definition idle_command (cm : command) : Prop :=
  (4 <= length (execbuf cm))%nat /\ bytes (execbuf cm) /\ c_done cm = true.

Lemma boot_inv cs : Forall idle_command cs -> inv 0 (boot cs 1).
Proof.
  intros Hcs. split; try done; try (by cbn; lia); try (by intros c ?%elem_of_nil).
  - apply NoDup_nil_2.
  - intros c cm Hc. apply (Forall_lookup_1 _ _ _ _ Hcs) in Hc as (H1 & H2 & H3). unfold cmd_ok. cbn [calls starts boot].
    rewrite H3. by split_and!; try done; intros ?%elem_of_nil.
  - intros t th Ht. apply list_lookup_singleton_Some in Ht as [_ <-]. split; cbn; try done; try lia. by intros c ?%elem_of_nil.
  - intros t th Ht. apply list_lookup_singleton_Some in Ht as [_ <-]. cbn. split; [done|]. split; [done|].
    intros c (cm & Hc & Hd) _. apply (Forall_lookup_1 _ _ _ _ Hcs) in Hc as (_ & _ & Hd'). congruence.
Qed.
