(* ===== verification/HwDiscipline.v ===== *)
(** Applications that use commands with discipline: a command is started when it is
    done and no other thread waits for it or asks for its state on the way to
    the queue, and the state of a command with callbacks is not asked for.  Then
    no thread is ever about to mark a command as done that is being started, and
    the invariant of the queue holds. *)

From S2P Require Import Prelude Bytes CppStd XclbinXml XrtKernel XrtRun XrtPacket HwQueue HwInvariant HwSteps HwActions HwRuns.

(** A thread that looks at the packet of [c] and may mark it as done. *)
Definition looks (c : nat) (p : point) : nat :=
  match p with
  | WaitTest c' _ | WaitExec c' _ _ | WaitNotify c' | Polls c' | Marks c' _ => if (c' =? c)%nat then 1 else 0
  | _ => 0
  end.

Definition disciplined (s : conf) (a : action) : Prop :=
  match a with
  | Run t choice =>
      match at_point <$> threads s !! t with Some (Submit _ | SubmitUnmanaged _) => choice = true | _ => True end
  | CallStart _ c => isdone s c /\ cnt (stage c) (threads s) = 0%nat /\ cnt (looks c) (threads s) = 0%nat
  | CallWait _ c _ => c ∈ starts s /\ cnt (stage c) (threads s) = 0%nat
  | CallState _ c => (c < length (cmds s))%nat /\ cnt (stage c) (threads s) = 0%nat /\ ~ has_callbacks s c
  | CallStop _ => False
  | Complete _ _ | Signal _ => True
  end.

(** The commands the monitor has still to notify. *)
Definition active (k : kds_device) (m : monitor_point) : list nat :=
  submitted_cmds k ++
  match m with
  | Scan i _ busy => drop i (running_cmds k) ++ busy
  | Notify i _ busy c | Mark i _ busy c _ => c :: drop (S i) (running_cmds k) ++ busy
  | _ => running_cmds k
  end.

Definition tracked (s : conf) (c : nat) : Prop := pending s c /\ has_callbacks s c /\ cnt (pushes c) (threads s) = 0%nat.

Record tidy (s : conf) : Prop := {
  t_looks c : cnt (stage c) (threads s) = 0%nat \/ cnt (looks c) (threads s) = 0%nat;
  t_plain c : (0 < cnt (looks c) (threads s))%nat -> ~ has_callbacks s c;
  t_active t sn m : threads s !! t = Some (Thread sn (Monitor 0 m)) ->
    NoDup (active (kd s) m) /\ Forall (tracked s) (active (kd s) m);
}.

(** * What a step has to keep *)

Definition le_points (s s' : conf) : Prop :=
  forall c, (cnt (stage c) (threads s') <= cnt (stage c) (threads s))%nat /\ (cnt (looks c) (threads s') <= cnt (looks c) (threads s))%nat /\
    (cnt (pushes c) (threads s') <= cnt (pushes c) (threads s))%nat.

Lemma tidy_step s s' :
  tidy s -> le_points s s' -> (forall c, has_callbacks s' c <-> has_callbacks s c) ->
  (forall t sn m', threads s' !! t = Some (Thread sn (Monitor 0 m')) ->
     exists t0 sn0 m, threads s !! t0 = Some (Thread sn0 (Monitor 0 m)) /\ active (kd s') m' ⊆+ active (kd s) m /\
       forall c, c ∈ active (kd s') m' -> pending s c -> pending s' c) -> tidy s'.
Proof.
  intros [T1 T2 T3] Hle Hcb Hm. split.
  - intros c. destruct (Hle c) as (H1 & H2 & H3). destruct (T1 c); [left|right]; lia.
  - intros c Hl. rewrite Hcb. destruct (Hle c) as (H1 & H2 & H3). apply T2. lia.
  - intros t sn m' Ht. destruct (Hm t sn m' Ht) as (t0 & sn0 & m & H0 & Hsub & Hp). destruct (T3 t0 sn0 m H0) as [Hn Ha]. split.
    + apply submseteq_Permutation in Hsub as [k Hk]. rewrite Hk in Hn. by apply NoDup_app in Hn as [Hn _].
    + rewrite Forall_forall in *. intros c Hc. destruct (Ha c) as (A1 & A2 & A3); [by eapply elem_of_submseteq|].
      destruct (Hle c) as (_ & _ & H3). split_and!; [by apply Hp|by apply Hcb|lia].
Qed.

(** A thread moves; the lists and the commands may change. *)
Lemma tidy_insert s s' t th th' :
  tidy s -> threads s !! t = Some th -> threads s' = <[t := th']> (threads s) ->
  (forall c, has_callbacks s' c <-> has_callbacks s c) ->
  (forall c, stage c (at_point th') <= stage c (at_point th) /\ looks c (at_point th') <= looks c (at_point th) /\
     pushes c (at_point th') <= pushes c (at_point th))%nat ->
  (forall m', at_point th' = Monitor 0 m' -> exists m, at_point th = Monitor 0 m /\ active (kd s') m' ⊆+ active (kd s) m /\
     forall c, c ∈ active (kd s') m' -> pending s c -> pending s' c) ->
  (forall t0 sn0 m, t0 <> t -> threads s !! t0 = Some (Thread sn0 (Monitor 0 m)) ->
     active (kd s') m = active (kd s) m /\ forall c, c ∈ active (kd s) m -> pending s c -> pending s' c) -> tidy s'.
Proof.
  intros T Ht Hth Hcb Hp Hm Ho. apply (tidy_step s s' T); [|done|].
  - intros c. rewrite Hth. destruct (Hp c) as (H1 & H2 & H3). pose proof (cnt_insert (stage c) _ _ _ th' Ht).
    pose proof (cnt_insert (looks c) _ _ _ th' Ht). pose proof (cnt_insert (pushes c) _ _ _ th' Ht). lia.
  - intros t0 sn0 m'. rewrite Hth. intros [(<- & E & _)|[Hne H0]]%list_lookup_insert_Some.
    + destruct (Hm m') as (m & E' & H1 & H2); [by rewrite E|]. exists t, (seen th), m. split; [|done]. rewrite Ht. destruct th. cbn in *. by rewrite E'.
    + destruct (Ho t0 sn0 m' (not_eq_sym Hne) H0) as [E H1]. exists t0, sn0, m'. rewrite E. split_and!; done.
Qed.

(** Threads are woken. *)
Lemma tidy_map s g :
  tidy s -> (forall th c, stage c (at_point (g th)) = stage c (at_point th) /\ looks c (at_point (g th)) = looks c (at_point th) /\
    pushes c (at_point (g th)) = pushes c (at_point th)) ->
  (forall th m', at_point (g th) = Monitor 0 m' -> exists m, at_point th = Monitor 0 m /\ active (kd s) m' = active (kd s) m) ->
  tidy (on_threads (map g) s).
Proof.
  intros T Hg Hm. apply (tidy_step s _ T); [|done|].
  - intros c. cbn [threads on_threads]. rewrite !cnt_map; [lia|intros th; apply (Hg th c)..].
  - intros t sn m'. cbn [threads on_threads]. rewrite lookup_map. destruct (threads s !! t) as [th|] eqn:E; [|done]. cbn. intros [= Ht].
    destruct (Hm th m') as (m & E1 & E2); [by rewrite Ht|]. exists t, (seen th), m. rewrite E. split_and!.
    + destruct th. cbn in *. by rewrite E1.
    + change (kd (on_threads (map g) s)) with (kd s). by rewrite E2.
    + done.
Qed.

(** The thread moves in the queue as it is, within the same lists. *)
Lemma tidy_hop s t th th' :
  tidy s -> threads s !! t = Some th ->
  (forall c, stage c (at_point th') <= stage c (at_point th) /\ looks c (at_point th') <= looks c (at_point th) /\
     pushes c (at_point th') <= pushes c (at_point th))%nat ->
  (forall m', at_point th' = Monitor 0 m' -> exists m, at_point th = Monitor 0 m /\ active (kd s) m' ⊆+ active (kd s) m) ->
  tidy (on_threads <[t := th']> s).
Proof.
  intros T Ht Hp Hm. eapply (tidy_insert s _ t th th' T Ht); [done|done|done| |done].
  intros m' E. destruct (Hm m' E) as (m & E1 & E2). exists m. by split_and!.
Qed.

(** The counts of the queue do not matter. *)
Lemma tidy_devs n s k :
  inv n s -> tidy s -> submitted_cmds k = submitted_cmds (kd s) -> running_cmds k = running_cmds (kd s) -> tidy (on_devs <[0%nat := k]> s).
Proof.
  intros I T E1 E2. apply (tidy_step s _ T); [by intros c|done|]. intros t sn m' Ht. exists t, sn, m'. split; [done|]. split; [|done].
  assert (kd (on_devs <[0%nat := k]> s) = k) as -> by (unfold kd; cbn; by rewrite (i_devs n s I)). unfold active. by rewrite E1, E2.
Qed.

Lemma tidy_wait n s t sn x w choice s' :
  inv n s -> tidy s -> threads s !! t = Some (Thread sn (inside x w)) ->
  exec_wait_step dev0 0 (timed_site x) choice w t (Thread sn (inside x w)) (inside x) (back x) s = Some s' -> tidy s'.
Proof.
  intros I T Ht. unfold exec_wait_step. rewrite (devs_lookup n s I). cbn [mbind option_bind seen].
  destruct (exec_wait (timed_site x) choice w sn (kd s)) as [[[[k' sn'] r] wake]|] eqn:E; [|done]. cbn [mbind option_bind]. intros [= <-].
  assert (submitted_cmds k' = submitted_cmds (kd s) /\ running_cmds k' = running_cmds (kd s)) as [E1 E2].
  { revert E. unfold exec_wait. repeat case_match; intros [= <- _ _ _]; done. }
  pose proof (tidy_devs n s k' I T E1 E2) as T1. set (s1 := on_devs _ s) in *.
  set (p' := match r with inl w' => inside x w' | inr b => back x b end).
  assert (forall s2, tidy s2 -> threads s2 !! t = Some (Thread sn (inside x w)) -> tidy (on_threads <[t := Thread sn' p']> s2)) as Hgo.
  { intros s2 T2 H2. eapply tidy_hop; [done|exact H2| |].
    - intros c. cbn [at_point]. unfold p'. destruct r, x; cbn; try case_match; cbn; lia.
    - intros m'. cbn [at_point]. unfold p'. destruct r as [w'|b], x; cbn; try (case_match; done); intros [= <-]; by exists (Waits w). }
  destruct wake; [|by apply Hgo]. assert (exists b, w = WakeAll b) as [b ->].
  { revert E. unfold exec_wait. repeat case_match; intros [=]. by eexists. }
  apply Hgo; [|unfold s1; cbn; rewrite lookup_map, Ht; by destruct x].
  apply tidy_map; [done| |].
  - intros [sn0 p] c. unfold wake_waiters. cbn [at_point].
    destruct p as [ | | | c0 b0 [ | | | | | ] | | | | | | | | | | | | | | d [ | | | [ | | | | | ] | | | | | ] ]; try done. by destruct (d =? 0)%nat.
  - intros [sn0 p] m'. unfold wake_waiters. cbn [at_point].
    destruct p as [ | | | c0 b0 [ | | | | | ] | | | | | | | | | | | | | | d [ | | | [ | | | | | ] | | | | | ] ]; try (intros [= -> <-]; by eexists); try done.
    destruct (d =? 0)%nat; cbn; intros [= -> <-]; by exists (Waits Asleep).
Qed.

(** Notification of a command that is not tracked any more. *)
Lemma tidy_notify s c x :
  tidy s -> (forall t sn m, threads s !! t = Some (Thread sn (Monitor 0 m)) -> c ∉ active (kd s) m) -> tidy (notify_host c x s).
Proof.
  intros T Hc. destruct (notify_cases s c x) as [->|(cm & Hcm & _ & _ & ->)]; [done|].
  assert (tidy (log_calls c (c_callbacks cm) (on_cmds <[c := set_done true cm]> s))) as T1; [|apply tidy_map; [exact T1| |]].
  - pose proof (lookup_lt_Some _ _ _ Hcm) as Hlt. set (s1 := log_calls _ _ _).
    assert (forall c', cmds s1 !! c' = if decide (c' = c) then Some (set_done true cm) else cmds s !! c') as Hs1.
    { intros c'. unfold s1; cbn. case_decide; subst; [by rewrite list_lookup_insert_eq|by rewrite list_lookup_insert_ne]. }
    apply (tidy_step s s1 T); [by intros c'|by apply (cmd_same s s1 c cm (set_done true cm) (fun y => c_callbacks y <> []))|].
    intros t sn m Ht. exists t, sn, m. split_and!; [done|done|]. intros c' Hin Hp. unfold pending. rewrite Hs1. case_decide; [|done]. subst.
    by destruct (Hc t sn m Ht).
  - intros [sn p] c'. unfold wake_done. destruct p; try done. cbn. by destruct (_ =? _)%nat.
  - intros [sn p] m'. unfold wake_done. destruct p; try done; [cbn; by destruct (_ =? _)%nat|]. cbn. intros [= -> <-]. by exists m.
Qed.

(** Moving a thread that does not sleep commutes with a notification. *)
Lemma notify_move s c x t th' :
  (forall c' b, at_point th' <> DoneAsleep c' b) ->
  on_threads <[t := th']> (notify_host c x s) = notify_host c x (on_threads <[t := th']> s).
Proof.
  intros Hn. assert (wake_done c th' = th') as Hw by (unfold wake_done; destruct (at_point th') eqn:E; try done; by destruct (Hn c0 timed)).
  unfold notify_host. change (cmds (on_threads <[t := th']> s)) with (cmds s). destruct (cmds s !! c) as [cm|]; [|done].
  destruct (command_notify x cm) as [fs cm'|]; [|done]. destruct (_ && _); [|done]. unfold on_threads, log_calls, on_cmds. cbn.
  f_equal. rewrite <- Hw at 1. symmetry. exact (list_fmap_insert (wake_done c) (threads s) t th').
Qed.

Lemma monitor_tidy n s t sn m s' :
  inv n s -> tidy s -> threads s !! t = Some (Thread sn (Monitor 0 m)) ->
  monitor_loop dev0 0 t (Thread sn (Monitor 0 m)) m s = Some s' -> tidy s'.
Proof.
  intros I T Ht. unfold monitor_loop. rewrite (devs_lookup n s I). cbn [mbind option_bind seen].
  destruct (i_points n s I t _ Ht) as [_ [B1 _]]. destruct (t_active s T t sn m Ht) as [Hn Ha].
  assert (forall m', active (kd s) m' ⊆+ active (kd s) m -> tidy (on_threads <[t := Thread sn (Monitor 0 m')]> s)) as Hhop.
  { intros m' Hs. eapply tidy_hop; [done|exact Ht|intros c; cbn; lia|]. intros m1 [= <-]. by exists m. }
  assert (forall m' sub run, active (set_lists sub run (kd s)) m' ⊆+ active (kd s) m ->
    tidy (on_threads <[t := Thread sn (Monitor 0 m')]> (on_devs <[0%nat := set_lists sub run (kd s)]> s))) as Hlist.
  { intros m' sub run Hs. destruct (set_lists_kd n s <[t := Thread sn (Monitor 0 m')]> sub run I) as [Hk _].
    eapply (tidy_insert s _ t _ _ T Ht); [done|done|intros c; cbn; lia| |].
    - intros m1 [= <-]. exists m. rewrite Hk. by split_and!.
    - intros t0 sn0 m0 Hne H0. pose proof (only_monitor n s t sn 0 m t0 _ I Ht Hne H0). done. }
  destruct m as [ | | |w| |i k b|i k b c|i k b c x| ]; try done.
  - case_match; intros [= <-]; by apply Hhop.
  - case_match; intros [= <-]; by apply Hhop.
  - by apply (tidy_wait n s t sn AtMonitor w true).
  - intros [= <-]. apply Hlist. unfold active. cbn [submitted_cmds running_cmds set_lists drop]. rewrite app_nil_r.
    rewrite drop_0. apply Permutation_submseteq. cbn [app]. apply Permutation_app_comm.
  - destruct B1 as (B1 & B2 & _). case_match eqn:E.
    + destruct (running_cmds (kd s) !! i) as [c|] eqn:Hc; [|done]. cbn [mbind option_bind]. destruct (cmds s !! c) as [cm|]; [|done].
      cbn [mbind option_bind]. destruct (completed cm); intros [= <-]; apply Hhop; unfold active; rewrite (drop_S _ _ _ Hc); [done|].
      apply Permutation_submseteq, Permutation_app_head. rewrite app_assoc. symmetry. apply Permutation_cons_append.
    + intros [= <-]. apply Nat.ltb_ge in E. apply Hlist. unfold active. cbn [submitted_cmds running_cmds set_lists]. rewrite drop_ge by lia. done.
  - destruct (cmds s !! c) as [cm|]; [|done]. intros [= <-]. by apply Hhop.
  - intros [= <-]. rewrite notify_move by done. apply tidy_notify.
    + apply Hhop. unfold active. rewrite <- Permutation_middle. by apply submseteq_cons.
    + intros t0 sn0 m0. cbn [threads on_threads]. intros [(_ & [= _ <-] & _)|[Hne H0]]%list_lookup_insert_Some.
      * change (kd (on_threads _ s)) with (kd s). unfold active in *. rewrite <- Permutation_middle in Hn. by apply NoDup_cons in Hn as [Hn _].
      * pose proof (only_monitor n s t sn 0 _ t0 _ I Ht (not_eq_sym Hne) H0). done.
Qed.

(** * Starting a command *)

Lemma run_cmd_tidy n s t sn c s' :
  inv n s -> tidy s -> threads s !! t = Some (Thread sn (RunCmd c)) -> run_cmd c t (Thread sn (RunCmd c)) s = Some s' -> tidy s'.
Proof.
  intros I T Ht. destruct (i_points n s I t _ Ht) as [(cm & Hc & Hd) _]. rewrite (run_cmd_eq s t _ c cm Hc Hd). cbn [seen].
  set (p' := if negb _ then _ else _). intros [= <-]. set (s' := on_threads _ _). pose proof (lookup_lt_Some _ _ _ Hc) as Hlt.
  assert (forall c', cmds s' !! c' = if decide (c' = c) then Some (run_of cm) else cmds s !! c') as Hcm.
  { intros c'. unfold s'; cbn. case_decide; subst; [by rewrite list_lookup_insert_eq|by rewrite list_lookup_insert_ne]. }
  assert (forall c', has_callbacks s' c' <-> has_callbacks s c') as Ecb by by apply (cmd_same s s' c cm (run_of cm) (fun y => c_callbacks y <> [])).
  assert (forall f, (cnt f (threads s') + f (RunCmd c) = cnt f (threads s) + f p')%nat) as Hcnt
    by (intros f; exact (cnt_insert f _ t (Thread sn (RunCmd c)) (Thread sn p') Ht)).
  destruct T as [T1 T2 T3]. split.
  - intros c'. pose proof (Hcnt (stage c')). pose proof (Hcnt (looks c')). specialize (T1 c'). unfold p' in *. destruct (negb _); cbn [stage looks] in *; lia.
  - intros c' Hl. rewrite Ecb. apply T2. pose proof (Hcnt (looks c')). unfold p' in *. destruct (negb _); cbn [stage looks] in *; lia.
  - intros t0 sn0 m. unfold s' at 1. cbn [threads on_threads]. intros [(_ & E & _)|[Hne H0]]%list_lookup_insert_Some; [unfold p' in E; by destruct (negb _)|].
    destruct (T3 t0 sn0 m H0) as [Hn Ha]. split; [done|]. change (kd s') with (kd s). rewrite Forall_forall in *. intros c' Hin.
    destruct (Ha c' Hin) as ((y & Hy & Hy') & A2 & A3). assert (c' <> c) as Hnc by (intros ->; congruence). split_and!.
    + exists y. rewrite Hcm. by rewrite decide_False.
    + by apply Ecb.
    + pose proof (Hcnt (pushes c')) as Hp. unfold p' in Hp. apply Nat.eqb_neq in Hnc. rewrite Nat.eqb_sym in Hnc.
      destruct (negb _); cbn [pushes] in Hp; rewrite ?Hnc in Hp; lia.
Qed.

Lemma push_tidy n s t sn c :
  inv n s -> tidy s -> threads s !! t = Some (Thread sn (Push c)) ->
  tidy (on_threads <[t := Thread sn (Submit c)]>
    (on_devs <[0%nat := set_lists (submitted_cmds (kd s) ++ [c]) (running_cmds (kd s)) (kd s)]> s)).
Proof.
  intros I T Ht. destruct (set_lists_kd n s <[t := Thread sn (Submit c)]> (submitted_cmds (kd s) ++ [c]) (running_cmds (kd s)) I) as [Hkd Hdev].
  set (s' := on_threads _ _) in *. destruct (i_points n s I t _ Ht) as [(Hp & _) Hcb].
  assert (forall f, (cnt f (threads s') + f (Push c) = cnt f (threads s) + f (Submit c))%nat) as Hcnt
    by (intros f; exact (cnt_insert f _ t (Thread sn (Push c)) (Thread sn (Submit c)) Ht)).
  assert (0 < cnt (pushes c) (threads s))%nat as Hpos.
  { pose proof (cnt_lookup (pushes c) _ _ _ Ht) as Hl. cbn [pushes at_point] in Hl. rewrite Nat.eqb_refl in Hl. lia. }
  assert (cnt (pushes c) (threads s) <= 1)%nat as Hone.
  { etrans; [|apply (i_stage n s I c)]. unfold cnt. clear. induction (threads s) as [|[sn0 p] l IH]; [done|]. cbn. destruct p; cbn; try lia. }
  destruct T as [T1 T2 T3]. split.
  - intros c'. pose proof (Hcnt (stage c')). pose proof (Hcnt (looks c')). specialize (T1 c'). cbn [stage looks] in *. lia.
  - intros c' Hl. change (~ has_callbacks s c'). apply T2. pose proof (Hcnt (looks c')). cbn [looks] in *. lia.
  - intros t0 sn0 m. unfold s' at 1. cbn [threads on_threads on_devs]. intros [(_ & E & _)|[Hne H0]]%list_lookup_insert_Some; [done|].
    destruct (T3 t0 sn0 m H0) as [Hn Ha]. rewrite Hkd.
    assert (active (set_lists (submitted_cmds (kd s) ++ [c]) (running_cmds (kd s)) (kd s)) m ≡ₚ c :: active (kd s) m) as Hperm.
    { unfold active. cbn [submitted_cmds running_cmds set_lists]. rewrite <- app_assoc. cbn [app]. by rewrite <- Permutation_middle. }
    rewrite Hperm. rewrite Forall_forall in Ha. split.
    + apply NoDup_cons. split; [|done]. intros Hin. destruct (Ha c Hin) as (_ & _ & Hz). lia.
    + rewrite Forall_forall. intros c' [->|Hin]%elem_of_cons.
      * split_and!; [done|done|]. pose proof (Hcnt (pushes c)) as H1. cbn [pushes] in H1. rewrite Nat.eqb_refl in H1. lia.
      * destruct (Ha c' Hin) as (A1 & A2 & A3). split_and!; [done|done|]. pose proof (Hcnt (pushes c')) as H1. cbn [pushes] in H1. lia.
Qed.

(** * All steps *)

Lemma alter_callbacks s c (x : Z) (f : Z -> command -> command) c' :
  (forall cm, c_callbacks (f x cm) = c_callbacks cm) -> has_callbacks (on_cmds (alter (f x) c) s) c' <-> has_callbacks s c'.
Proof.
  intros Hf. unfold has_callbacks. cbn. destruct (decide (c' = c)) as [->|Hne]; [|by rewrite list_lookup_alter_ne].
  rewrite list_lookup_alter_eq. destruct (cmds s !! c) as [cm|]; [|by split; intros (y & ? & ?)]. cbn. split.
  - intros (y & [= <-] & Hy). exists cm. by rewrite Hf in Hy.
  - intros (y & [= <-] & Hy). exists (f x cm). by rewrite Hf.
Qed.

(** A command that a thread looks at is not tracked by the monitor. *)
Lemma looked_at s t sn p c :
  tidy s -> threads s !! t = Some (Thread sn p) -> looks c p = 1%nat ->
  forall t0 sn0 m, threads s !! t0 = Some (Thread sn0 (Monitor 0 m)) -> c ∉ active (kd s) m.
Proof.
  intros T Ht Hl t0 sn0 m H0 Hin. destruct (t_active s T t0 sn0 m H0) as [_ Ha]. rewrite Forall_forall in Ha. destruct (Ha c Hin) as (_ & Hcb & _).
  apply (t_plain s T c); [|done]. pose proof (cnt_lookup (looks c) _ _ _ Ht) as H. cbn [at_point] in H. lia.
Qed.

Lemma put_state_tidy s c x : tidy s -> tidy (on_cmds (alter (put_state x) c) s).
Proof.
  intros T. apply (tidy_step s _ T); [by intros c'|intros c'; by apply (alter_callbacks s c x put_state)|].
  intros t sn m Ht. exists t, sn, m. split_and!; [done|done|]. intros c' _ (cm & Hc & Hd). unfold pending. cbn.
  destruct (decide (c' = c)) as [->|Hne]; [|rewrite list_lookup_alter_ne by done; by exists cm].
  rewrite list_lookup_alter_eq, Hc. by eexists.
Qed.

Lemma run_thread_tidy n s t choice s' :
  inv n s -> tidy s -> disciplined s (Run t choice) -> run_thread dev0 t choice s = Some s' -> tidy s'.
Proof.
  intros I T Hd. unfold_thread. unfold disciplined in Hd.
  destruct (threads s !! t) as [[sn p]|] eqn:Ht; [|done]. cbn [mbind option_bind seen at_point fmap option_fmap option_map] in *.
  pose proof (i_points n s I t _ Ht) as P. cbn [at_point] in P.
  assert (forall s1 p', threads s1 !! t = Some (Thread sn p) -> tidy s1 ->
    (forall c, stage c p' <= stage c p /\ looks c p' <= looks c p /\ pushes c p' <= pushes c p)%nat -> mons p' = 0%nat ->
    Some (on_threads <[t := Thread sn p']> s1) = Some s' -> tidy s') as Hhop.
  { intros s1 p' H1 T1 Hp Hm [= <-]. eapply tidy_hop; [done|exact H1|done|]. cbn. intros m' ->. done. }
  destruct p as [ | |c b|c b w|c|c b|c b|c|c|c|c|c|c|c|c|c|c x|d m]; try done.
  - destruct (cmds s !! c) as [cm|]; [|done]. apply (Hhop s); [done|done| |]; destruct (completed cm); done || (intros c'; cbn; lia).
  - by apply (tidy_wait n s t sn (AtWait c b)).
  - destruct (cmds s !! c) as [cm|]; [|done]. apply (Hhop s); [done|done|intros c'; cbn; lia|done].
  - destruct (cmds s !! c) as [cm|]; [|done]. apply (Hhop s); [done|done| |]; destruct (c_done cm); done || (intros c'; cbn; lia).
  - destruct (b && negb choice); [|done]. apply (Hhop s); [done|done|intros c'; cbn; lia|done].
  - destruct (cmds s !! c) as [cm|]; [|done]. apply (Hhop s); [done|done|intros c'; cbn; lia|done].
  - apply Hhop; [done|by apply put_state_tidy|intros c'; cbn; lia|done].
  - by apply (run_cmd_tidy n).
  - rewrite (devs_lookup n s I). intros [= <-]. by apply (push_tidy n).
  - subst choice. apply (Hhop (on_executing (cons c) s)); [done| |intros c'; cbn; lia|done]. destruct T as [T1 T2 T3]. by split.
  - apply Hhop; [cbn; by rewrite lookup_map, Ht| |intros c'; cbn; lia|done]. apply tidy_map; [done| |].
    + intros [sn0 p0] c'. unfold wake_monitor. destruct p0 as [ | | | | | | | | | | | | | | | | |d m]; try done. destruct m; try done. cbn. by destruct (_ =? _)%nat.
    + intros [sn0 p0] m'. unfold wake_monitor. destruct p0 as [ | | | | | | | | | | | | | | | | |d m]; try done.
      destruct m; cbn; try (intros [= -> <-]; by eexists). destruct (_ =? _)%nat; cbn; intros [= -> <-]; by exists IdleAsleep.
  - subst choice. apply (Hhop (on_executing (cons c) s)); [done| |intros c'; cbn; lia|done]. destruct T as [T1 T2 T3]. by split.
  - apply Hhop; [by apply notify_thread| |intros c'; cbn; lia|done]. apply tidy_notify; [done|].
    eapply (looked_at s t sn (Marks c x) c T Ht). cbn. by rewrite Nat.eqb_refl.
  - destruct P as [-> _]. by apply (monitor_tidy n).
Qed.

(** A call begins at a point of its own. *)
Lemma call_tidy n s t p s' :
  inv n s -> tidy s -> entry p -> call t p s = Some s' ->
  (forall c, stage c p + looks c p <> 0 -> (stage c p = 0 \/ cnt (looks c) (threads s) = 0) /\ (looks c p = 0 \/ cnt (stage c) (threads s) = 0))%nat ->
  (forall c, looks c p <> 0%nat -> ~ has_callbacks s c) -> tidy s'.
Proof.
  intros I [T1 T2 T3] Hp Hcall Hst Hcb. destruct (call_threads n s t p s' I Hp Hcall) as (sn & l & -> & _ & Hcnt & Hl).
  assert (forall f, f Ended = 0%nat -> f Threw = 0%nat -> cnt f (threads (on_threads (fun _ => l) s)) = (cnt f (threads s) + f p)%nat) as Hc by done.
  assert (forall c, stage c p = 0 \/ looks c p = 0)%nat as Hor by (intros c; destruct p; cbn; auto). split.
  - intros c. rewrite !Hc by done. specialize (T1 c). specialize (Hst c). specialize (Hor c). lia.
  - intros c. rewrite Hc by done. intros Hlt. destruct (decide (looks c p = 0)%nat); [apply T2; lia|by apply Hcb].
  - intros t0 sn0 m H0. destruct (Hl t0 _ H0) as [H1|[= _ <-]]; [|done]. destruct (T3 t0 sn0 m H1) as [Hn Ha]. split; [done|].
    eapply Forall_impl; [exact Ha|]. intros c (A1 & A2 & A3). split_and!; [done|done|]. rewrite Hc by done.
    assert (pushes c p = 0%nat) by (by destruct p). lia.
Qed.

Lemma act_tidy n s a s' : inv n s -> tidy s -> disciplined s a -> act dev0 a s = Some s' -> tidy s'.
Proof.
  intros I T Hd. destruct a as [t choice|c x|d|t c|t c b|t c|d]; cbn [act].
  - by apply (run_thread_tidy n).
  - destruct (decide _); [|done]. destruct (_ && _); [|done]. intros [= <-]. pose proof (put_state_tidy s c x T) as T'.
    apply (tidy_step _ _ T'); [by intros c'|done|]. intros t sn m Ht. exists t, sn, m. split_and!; [done| |done].
    unfold active, kd. cbn. by rewrite (i_devs n s I).
  - destruct d as [|d]; [|by rewrite (i_devs n s I)]. rewrite (devs_lookup n s I). cbn [mbind option_bind].
    destruct (signals (kd s)) as [|k]; [done|]. intros [= <-]. by apply (tidy_devs n).
  - intros Hs. destruct Hd as (_ & H1 & H2). eapply (call_tidy n s t (Starts c)); try done. intros c'. cbn. destruct (Nat.eqb_spec c c') as [->|]; [lia|done].
  - destruct Hd as [Hst H1]. destruct (lookup_lt_is_Some_2 (cmds s) c) as [cm Hc]; [by apply (i_starts n s I)|]. rewrite Hc. cbn [mbind option_bind].
    intros Hs. destruct (i_cmds n s I c cm Hc) as (_ & _ & Hmg & _). specialize (Hmg Hst). destruct (c_managed cm) eqn:E.
    + by eapply (call_tidy n s t (DoneTest c b)).
    + eapply (call_tidy n s t (WaitTest c b)); try done; intros c'; cbn; (destruct (Nat.eqb_spec c c') as [->|]; [|done]); [lia|].
      intros _ (y & Hy & Hy'). assert (y = cm) as -> by congruence. by destruct (c_callbacks cm).
  - intros Hs. destruct Hd as (H1 & H2 & H3). eapply (call_tidy n s t (Polls c)); try done; intros c'; cbn; (destruct (Nat.eqb_spec c c') as [->|]; [|done]); [lia|done].
  - done.
Qed.

(** * Discipline is enough *)

Lemma disciplined_polite n s a : inv n s -> tidy s -> disciplined s a -> polite s a.
Proof.
  intros I T. destruct a as [t choice|c x|d|t c|t c b|t c|d]; cbn; try naive_solver.
  destruct (threads s !! t) as [[sn p]|] eqn:Ht; [|done]. cbn. destruct p; try done. intros _.
  destruct (i_points n s I t _ Ht) as (cm & Hc & Hd). destruct (Nat.eq_0_gt_0_cases (cnt (stale c) (threads s))) as [|Hpos]; [done|exfalso].
  apply cnt_pos in Hpos as (t0 & [sn0 p0] & H0 & Hp0).
  assert (0 < cnt (stage c) (threads s))%nat as Hstage.
  { pose proof (cnt_lookup (stage c) _ _ _ Ht) as H. cbn [stage at_point] in H. rewrite Nat.eqb_refl in H. lia. }
  destruct p0 as [ | | | | | | | | | | | | | | | |c' x|d m]; cbn in Hp0; try lia.
  - destruct (Nat.eqb_spec c' c) as [->|]; [|cbn in Hp0; lia]. pose proof (cnt_lookup (looks c) _ _ _ H0) as H. cbn [looks at_point] in H.
    rewrite Nat.eqb_refl in H. destruct (t_looks s T c); lia.
  - destruct m; cbn in Hp0; try lia. destruct (Nat.eqb_spec cmd c) as [->|]; [|cbn in Hp0; lia].
    destruct (i_points n s I t0 _ H0) as [-> _]. destruct (t_active s T t0 sn0 _ H0) as [_ Ha]. rewrite Forall_forall in Ha.
    destruct (Ha c) as ((y & Hy & Hy') & _); [unfold active; set_solver|]. congruence.
Qed.

(** A run in which the application is disciplined and the driver accepts commands. *)
Fixpoint disciplined_run (l : list action) (s : conf) : Prop :=
  match l with
  | [] => True
  | a :: l' => disciplined s a /\ match act dev0 a s with Some s' => disciplined_run l' s' | None => True end
  end.

Lemma disciplined_inv l n s s' :
  inv n s -> tidy s -> Z.of_nat (n + length l) < 2 ^ 64 -> disciplined_run l s -> acts dev0 l s = Some s' -> inv (n + length l) s' /\ tidy s'.
Proof.
  revert n s. induction l as [|a l IH]; intros n s I T Hn Hp; cbn [acts].
  - intros [= <-]. cbn. by rewrite Nat.add_0_r.
  - destruct Hp as [Hp Hr]. cbn [length] in Hn. destruct (act dev0 a s) as [s1|] eqn:E; [|done]. cbn [mbind option_bind]. intros Hs.
    cbn [length]. rewrite <- Nat.add_succ_comm. pose proof (disciplined_polite n s a I T Hp) as Hpol.
    apply (IH (S n) s1); try done; [eapply act_inv; try done; lia|by eapply act_tidy|lia].
Qed.

Lemma boot_tidy cs : tidy (boot cs 1).
Proof.
  split.
  - intros c. by left.
  - intros c. cbn. lia.
  - intros t sn m Ht. apply list_lookup_singleton_Some in Ht as [_ [= <- <-]]. cbn. split; [apply NoDup_nil_2|by apply Forall_nil].
Qed.

Lemma disciplined_boot cs l s :
  Forall idle_command cs -> Z.of_nat (length l) < 2 ^ 64 -> disciplined_run l (boot cs 1) -> acts dev0 l (boot cs 1) = Some s ->
  inv (length l) s /\ tidy s.
Proof. intros Hcs Hl Hp Hs. by apply (disciplined_inv l 0 (boot cs 1) s); [apply boot_inv|apply boot_tidy| | |]. Qed.

(** * Deciding discipline *)

#[export] Instance with_cmd_dec (Q : command -> Prop) `{!forall cm, Decision (Q cm)} s c : Decision (exists cm, cmds s !! c = Some cm /\ Q cm).
Proof.
  destruct (cmds s !! c) as [cm|]; [|right; by intros (y & ? & _)].
  refine (cast_if (decide (Q cm))); [by exists cm|by intros (y & [= <-] & ?)].
Defined.

#[export] Instance disciplined_dec s a : Decision (disciplined s a).
Proof. destruct a; cbn; repeat case_match; unfold has_callbacks, isdone; apply _. Defined.

#[export] Instance disciplined_run_dec l s : Decision (disciplined_run l s).
Proof.
  revert s. induction l as [|a l IH]; intros s; cbn; [apply _|]. destruct (act dev0 a s) as [s'|]; apply _.
Defined.
