(* ===== verification/HwTermination.v ===== *)
(** Hardware queues come to rest: without new calls of the application, every run
    of the threads, the device and the driver ends.

    A run is measured by the work that is left for the device and the starting
    threads, which each completed [exec_wait] uses up; then by the
    notifications of sleeping threads; then by the steps of the threads
    themselves. *)

From Stdlib Require Import Wf_nat.
From S2P Require Import Prelude Bytes CppStd XclbinXml XrtKernel XrtRun XrtPacket HwQueue HwInvariant HwSteps HwActions HwRuns HwDiscipline.

(** * The measure *)

Definition one (b : bool) : nat := if b then 1 else 0.

(** The calls of [exec_wait] and the starts a thread may still complete. *)
Definition budget (p : point) : nat :=
  match p with
  | Starts _ => 7
  | RunCmd _ => 6
  | Push _ => 5
  | Submit _ | SubmitUnmanaged _ => 4
  | WaitTest _ timed | WaitExec _ timed (Enter | Asleep | Woken | InDevice) => one timed
  | WaitExec _ timed (Leave b) => S (one (timed && negb b))
  | WaitExec _ timed (WakeAll b) => one (timed && negb b)
  | Monitor _ (Waits (Leave _)) => 1
  | _ => 0
  end.

Definition work (s : conf) : nat := 3 * length (executing s) + 2 * signals (kd s) + events (kd s) + cnt budget (threads s).

Definition kick (p : point) : nat := match p with Kick _ => 1 | _ => 0 end.
Definition undone (cm : command) : nat := one (negb (c_done cm)).

Definition wakeups (s : conf) : nat := cnt wakes (threads s) + cnt kick (threads s) + sum_list_with undone (cmds s).

(** The commands the monitor will have to look at. *)
Definition load (k : kds_device) (m : monitor_point) : nat :=
  length (submitted_cmds k) +
  match m with
  | Scan i n busy => n - i + length busy
  | Notify i n busy _ | Mark i n busy _ _ => n - S i + length busy
  | _ => length (running_cmds k)
  end.

Definition wait_rank (w : wait_point) : nat :=
  match w with Enter => 8 | Asleep => 1 | Woken => 2 | InDevice => 3 | Leave _ => 2 | WakeAll _ => 0 end.

Definition monitor_rank (k : kds_device) (m : monitor_point) : nat :=
  match m with
  | Idle => 10
  | IdleAsleep | Exit => 0
  | Go => 9
  | Waits w => wait_rank w
  | Drain => 3 * load k m + 20
  | Scan i n _ => 3 * (n - i) + 11
  | Notify i n _ _ => 3 * (n - i) + 10
  | Mark i n _ _ _ => 3 * (n - i) + 9
  end.

(** [d]: whether the call count has moved on since the thread last looked. *)
Definition rank (k : kds_device) (th : thread) : nat :=
  let d := one (negb (seen th =? m_exec_wait_call_count k)) in
  match at_point th with
  | WaitTest _ _ => 20 * d + 9
  | WaitExec _ _ w => 20 * d + wait_rank w
  | WaitNotify _ | Polls _ | DoneTest _ _ => 2
  | Marks _ _ | DoneAsleep _ _ => 1
  | Monitor _ m => d * (3 * load k m + 40) + monitor_rank k m
  | _ => 0
  end.

Definition steps_left (s : conf) : nat := sum_list_with (rank (kd s)) (threads s).

Definition lower (s' s : conf) : Prop :=
  (work s' < work s)%nat \/ (work s' <= work s)%nat /\
  ((wakeups s' < wakeups s)%nat \/ (wakeups s' <= wakeups s)%nat /\ (steps_left s' < steps_left s)%nat).

Lemma lower_wf : well_founded lower.
Proof.
  intros s. remember (work s) as a eqn:Ha. assert (work s <= a)%nat as Hle by lia. clear Ha. revert s Hle.
  induction a as [a IHa] using lt_wf_ind. intros s Ha.
  remember (wakeups s) as b eqn:Hb. assert (wakeups s <= b)%nat as Hle by lia. clear Hb. revert s Ha Hle.
  induction b as [b IHb] using lt_wf_ind. intros s Ha Hb.
  remember (steps_left s) as c eqn:Hc. assert (steps_left s <= c)%nat as Hle by lia. clear Hc. revert s Ha Hb Hle.
  induction c as [c IHc] using lt_wf_ind. intros s Ha Hb Hc. constructor. intros s' [H|[H1 [H|[H2 H3]]]].
  - apply (IHa (work s')); lia.
  - apply (IHb (wakeups s')); lia.
  - apply (IHc (steps_left s')); lia.
Qed.

(** * Steps of a thread *)

(** Only the thread moves, and maybe the lists of the manager change. *)
Lemma move_less n s s' t th th' :
  inv n s -> threads s !! t = Some th -> threads s' = <[t := th']> (threads s) ->
  executing s' = executing s -> cmds s' = cmds s -> signals (kd s') = signals (kd s) ->
  m_exec_wait_call_count (kd s') = m_exec_wait_call_count (kd s) ->
  (submitted_cmds (kd s') = submitted_cmds (kd s) /\ running_cmds (kd s') = running_cmds (kd s) \/ mons (at_point th) = 1%nat) ->
  (events (kd s') + budget (at_point th') <= events (kd s) + budget (at_point th))%nat ->
  (wakes (at_point th') + kick (at_point th') <= wakes (at_point th) + kick (at_point th))%nat ->
  (rank (kd s') th' < rank (kd s) th)%nat -> lower s' s.
Proof.
  intros I Ht Hth He Hc Hsg Hcount Hk Hb Hw Hr. right. unfold work, wakeups, steps_left. rewrite He, Hc, Hsg, Hth.
  pose proof (cnt_insert budget _ _ _ th' Ht). pose proof (cnt_insert wakes _ _ _ th' Ht). pose proof (cnt_insert kick _ _ _ th' Ht).
  split; [lia|]. right. split; [lia|]. pose proof (sum_insert (rank (kd s)) _ _ _ th' Ht) as Hs.
  pose proof (lookup_lt_Some _ _ _ Ht) as Hlt.
  assert (sum_list_with (rank (kd s')) (<[t := th']> (threads s)) + rank (kd s) th' =
    sum_list_with (rank (kd s)) (<[t := th']> (threads s)) + rank (kd s') th')%nat; [|lia].
  apply (sum_except _ _ _ t); [by apply list_lookup_insert_eq|]. intros t0 th0 Hne Hy. rewrite list_lookup_insert_ne in Hy by done.
  unfold rank. rewrite Hcount. destruct Hk as [[E1 E2]|Hm]; [unfold monitor_rank, load; by rewrite E1, E2|].
  pose proof (cnt_two mons _ _ _ _ _ Ht Hy (not_eq_sym Hne)) as H2. rewrite (i_mon n s I) in H2.
  destruct (at_point th0); cbn in H2; done || lia.
Qed.

(** The thread moves in the queue as it is. *)
Lemma hop_less n s t th th' :
  inv n s -> threads s !! t = Some th ->
  (budget (at_point th') <= budget (at_point th))%nat ->
  (wakes (at_point th') + kick (at_point th') <= wakes (at_point th) + kick (at_point th))%nat ->
  (rank (kd s) th' < rank (kd s) th)%nat -> lower (on_threads <[t := th']> s) s.
Proof.
  intros I Ht Hb Hw Hr. eapply (move_less n s _ t th th'); [done|done|done|done|done|done|done|by left|by apply Nat.add_le_mono_l|lia|done].
Qed.

(** The thread uses up its budget. *)
Lemma work_less s s' t th th' :
  threads s !! t = Some th -> threads s' = <[t := th']> (threads s) ->
  signals (kd s') = signals (kd s) -> events (kd s') = events (kd s) ->
  (3 * length (executing s') + budget (at_point th') < 3 * length (executing s) + budget (at_point th))%nat -> lower s' s.
Proof.
  intros Ht Hth Hs He Hb. left. unfold work. rewrite Hth, Hs, He. pose proof (cnt_insert budget _ _ _ th' Ht). lia.
Qed.

Lemma wake_waiters_budget th : budget (at_point (wake_waiters dev0 0 th)) = budget (at_point th).
Proof.
  destruct th as [sn p]. unfold wake_waiters. cbn [at_point].
  destruct p as [ | | | c b [ | | | | | ] | | | | | | | | | | | | | | d [ | | | [ | | | | | ] | | | | | ] ]; try done. by destruct (d =? 0)%nat.
Qed.

Lemma wake_waiters_kick th : kick (at_point (wake_waiters dev0 0 th)) = kick (at_point th).
Proof.
  destruct th as [sn p]. unfold wake_waiters. cbn [at_point].
  destruct p as [ | | | c b [ | | | | | ] | | | | | | | | | | | | | | d [ | | | [ | | | | | ] | | | | | ] ]; try done. by destruct (d =? 0)%nat.
Qed.

(** The work and the notifications after a step of [exec_wait]. *)
Lemma wait_step_measures n s t th th' g e cn ac :
  inv n s -> threads s !! t = Some th ->
  (forall y, budget (at_point (g y)) = budget (at_point y)) -> (forall y, wakes (at_point (g y)) = wakes (at_point y)) ->
  (forall y, kick (at_point (g y)) = kick (at_point y)) ->
  let s' := wait_step t th' g e cn ac s in
  (work s' + events (kd s) + budget (at_point th) = work s + e + budget (at_point th'))%nat /\
  (wakeups s' + wakes (at_point th) + kick (at_point th) = wakeups s + wakes (at_point th') + kick (at_point th'))%nat.
Proof.
  intros I Ht H1 H2 H3 s'. unfold work, wakeups.
  pose proof (wait_step_cnt s t th th' g e cn ac budget Ht H1) as E1. pose proof (wait_step_cnt s t th th' g e cn ac wakes Ht H2) as E2.
  pose proof (wait_step_cnt s t th th' g e cn ac kick Ht H3) as E3. fold s' in E1, E2, E3.
  unfold s' at 1 2 3. rewrite (wait_step_kd n) by done. cbn [wait_step executing on_threads on_devs signals events set_wait cmds].
  change (executing s') with (executing s). change (cmds s') with (cmds s). lia.
Qed.

Lemma exec_wait_less n s t sn x w choice s' :
  inv n s -> threads s !! t = Some (Thread sn (inside x w)) ->
  exec_wait_step dev0 0 (timed_site x) choice w t (Thread sn (inside x w)) (inside x) (back x) s = Some s' -> lower s' s.
Proof.
  intros I Ht. unfold exec_wait_step. rewrite (devs_lookup n s I). cbn [mbind option_bind seen].
  assert (forall b, sn <> m_exec_wait_call_count (kd s) -> w = Enter \/ w = Asleep \/ w = Woken ->
    lower (on_threads <[t := Thread (m_exec_wait_call_count (kd s)) (back x b)]> s) s) as Hback.
  { intros b Hsn Hw. apply (hop_less n s t _ _ I Ht); destruct x, b, Hw as [->|[->| ->]]; unfold rank; cbn; rewrite ?Z.eqb_refl;
      apply Z.eqb_neq in Hsn; rewrite ?Hsn; cbn; unfold load; lia. }
  assert (forall p' e ac, let s1 := on_threads <[t := Thread sn p']> (on_devs <[0%nat := set_wait e (m_exec_wait_call_count (kd s)) ac (kd s)]> s) in
    (e + budget p' <= events (kd s) + budget (inside x w))%nat -> (wakes p' + kick p' <= wakes (inside x w) + kick (inside x w))%nat ->
    (rank (kd s) (Thread sn p') < rank (kd s) (Thread sn (inside x w)))%nat -> lower s1 s) as Hset.
  { intros p' e ac s1 H1 H2 H3. assert (kd s1 = set_wait e (m_exec_wait_call_count (kd s)) ac (kd s)) as Hk
      by (unfold s1, kd; cbn; by rewrite (i_devs n s I)).
    eapply (move_less n s s1 t _ (Thread sn p') I Ht); rewrite ?Hk; try done. by left. }
  destruct w as [ | | | |b|b]; cbn [exec_wait].
  - destruct (Z.eqb_spec sn (m_exec_wait_call_count (kd s))) as [Hsn|Hsn]; cbn [negb].
    + destruct (Z.eqb_spec (m_exec_wait_active (kd s)) 0) as [Ha|Ha]; cbn [negb]; intros [= <-].
      * apply Hset; destruct x; unfold rank, load; cbn; lia.
      * rewrite (on_devs_same n s I). apply (hop_less n s t _ _ I Ht); destruct x; unfold rank, load; cbn; lia.
    + intros [= <-]. rewrite (on_devs_same n s I). apply Hback; auto.
  - destruct (timed_site x && negb choice) eqn:E; [|done]. intros [= <-]. rewrite (on_devs_same n s I).
    destruct (Z.eqb_spec sn (m_exec_wait_call_count (kd s))) as [Hsn|Hsn]; [|apply Hback; auto].
    destruct x as [c []|]; cbn in E; try done. eapply (work_less s _ t _ _ Ht); [done|done|done|]. cbn. lia.
  - destruct (Z.eqb_spec sn (m_exec_wait_call_count (kd s))) as [Hsn|Hsn]; cbn [negb]; intros [= <-]; rewrite (on_devs_same n s I).
    + apply (hop_less n s t _ _ I Ht); destruct x; unfold rank, load; cbn; lia.
    + apply Hback; auto.
  - destruct (events (kd s)) as [|e] eqn:He; [destruct (timed_site x && negb choice) eqn:E; [|done]|]; intros [= <-].
    + rewrite (on_devs_same n s I). apply (hop_less n s t _ _ I Ht); destruct x as [c []|]; cbn in E; try done; unfold rank, load; cbn; lia.
    + apply Hset; destruct x as [c []|]; unfold rank, load; cbn; lia.
  - intros [= <-]. rewrite <- wait_step_id. left.
    destruct (wait_step_measures n s t _ (Thread (u64 (m_exec_wait_call_count (kd s) + 1)) (inside x (WakeAll b))) id (events (kd s))
      (u64 (m_exec_wait_call_count (kd s) + 1)) (m_exec_wait_active (kd s) - 1) I Ht) as [Hw _]; try done.
    destruct x; cbn in Hw |- *; lia.
  - intros [= <-]. rewrite <- (set_wait_same (kd s)) at 1.
    destruct (wait_step_measures n s t _ (Thread sn (back x b)) (wake_waiters dev0 0) (events (kd s)) (m_exec_wait_call_count (kd s))
      (m_exec_wait_active (kd s)) I Ht wake_waiters_budget) as [Hb Hw]; [apply wake_waiters_counts|apply wake_waiters_kick|].
    set (s1 := wait_step _ _ _ _ _ _ s) in Hb, Hw. change (lower s1 s). right. cbn [at_point] in Hb, Hw.
    assert (budget (back x b) <= budget (inside x (WakeAll b)) /\ kick (inside x (WakeAll b)) = 0 /\ wakes (inside x (WakeAll b)) = 1 /\
      wakes (back x b) = 0 /\ kick (back x b) = 0)%nat by (destruct x as [c []|], b; cbn; lia).
    split; [lia|]. left. lia.
Qed.

(** * Notification *)

Lemma notify_less n s c x t th th' :
  inv n s -> threads s !! t = Some th -> (forall c' b, at_point th <> DoneAsleep c' b) ->
  (budget (at_point th') <= budget (at_point th))%nat ->
  (wakes (at_point th') + kick (at_point th') <= wakes (at_point th) + kick (at_point th))%nat ->
  (rank (kd s) th' < rank (kd s) th)%nat -> lower (on_threads <[t := th']> (notify_host c x s)) s.
Proof.
  intros I Ht Hn Hb Hw Hr. pose proof (notify_thread s c x t th Ht Hn) as Ht'.
  destruct (notify_cases s c x) as [->|(cm & Hc & _ & Hd & E)]; [by apply (hop_less n s t th)|]. rewrite E in *. set (s1 := on_threads _ _) in *.
  assert (cnt budget (threads s1) = cnt budget (threads s)) as E1.
  { apply cnt_map. intros [sn p]. unfold wake_done. destruct p; try done. cbn. by destruct (_ =? _)%nat. }
  assert (cnt wakes (threads s1) = cnt wakes (threads s)) as E2 by (apply cnt_map; intros y; apply wake_done_counts).
  assert (cnt kick (threads s1) = cnt kick (threads s)) as E3.
  { apply cnt_map. intros [sn p]. unfold wake_done. destruct p; try done. cbn. by destruct (_ =? _)%nat. }
  pose proof (cnt_insert budget _ _ _ th' Ht') as F1. pose proof (cnt_insert wakes _ _ _ th' Ht') as F2. pose proof (cnt_insert kick _ _ _ th' Ht') as F3.
  pose proof (sum_insert undone _ _ _ (set_done true cm) Hc) as F4. unfold undone in F4 at 2 4. rewrite Hd in F4. cbn [negb one c_done set_done] in F4.
  right. unfold work, wakeups. change (kd (on_threads _ s1)) with (kd s). change (executing (on_threads _ s1)) with (executing s).
  change (cmds (on_threads _ s1)) with (<[c := set_done true cm]> (cmds s)). change (threads (on_threads <[t := th']> s1)) with (<[t := th']> (threads s1)).
  split; [lia|]. left. lia.
Qed.

(** * The monitor *)

Lemma wake_monitor_point f th :
  (forall d, f (Monitor d IdleAsleep) = f (Monitor d Idle)) -> f (at_point (wake_monitor 0 th)) = f (at_point th) :> nat.
Proof.
  intros Hf. destruct th as [sn p]. unfold wake_monitor. destruct p as [ | | | | | | | | | | | | | | | | |d m]; try done.
  destruct m; try done. cbn. by destruct (_ =? _)%nat.
Qed.

Lemma kick_less s t sn c :
  threads s !! t = Some (Thread sn (Kick c)) -> lower (on_threads <[t := Thread sn Ended]> (on_threads (map (wake_monitor 0)) s)) s.
Proof.
  intros Ht. set (s1 := on_threads (map _) s).
  assert (threads s1 !! t = Some (Thread sn (Kick c))) as Ht' by (unfold s1; cbn; by rewrite lookup_map, Ht).
  assert (forall f, (forall d, f (Monitor d IdleAsleep) = f (Monitor d Idle)) -> cnt f (threads s1) = cnt f (threads s)) as Hs.
  { intros f Hf. apply cnt_map. intros th. by apply wake_monitor_point. }
  pose proof (cnt_insert budget _ _ _ (Thread sn Ended) Ht') as F1. pose proof (cnt_insert wakes _ _ _ (Thread sn Ended) Ht') as F2.
  pose proof (cnt_insert kick _ _ _ (Thread sn Ended) Ht') as F3. rewrite !Hs in F1, F2, F3 by done. cbn [at_point budget wakes kick] in *.
  right. unfold work, wakeups. change (kd (on_threads _ s1)) with (kd s). change (executing (on_threads _ s1)) with (executing s).
  change (cmds (on_threads _ s1)) with (cmds s). change (threads (on_threads <[t := Thread sn Ended]> s1)) with (<[t := Thread sn Ended]> (threads s1)).
  split; [lia|]. left. lia.
Qed.

(** The monitor moves and changes its lists. *)
Lemma lists_less n s t sn m m' sub run :
  inv n s -> threads s !! t = Some (Thread sn (Monitor 0 m)) -> (forall w, m <> Waits w) -> (forall w, m' <> Waits w) ->
  load (set_lists sub run (kd s)) m' = load (kd s) m ->
  (monitor_rank (set_lists sub run (kd s)) m' < monitor_rank (kd s) m)%nat ->
  lower (on_threads <[t := Thread sn (Monitor 0 m')]> (on_devs <[0%nat := set_lists sub run (kd s)]> s)) s.
Proof.
  intros I Ht Hm Hm' Hl Hr. set (s1 := on_threads _ _).
  assert (kd s1 = set_lists sub run (kd s)) as Hk by (unfold s1, kd; cbn; by rewrite (i_devs n s I)).
  eapply (move_less n s s1 t _ _ I Ht); rewrite ?Hk; try done; [by right| | |].
  - destruct m'; cbn; try lia. by destruct (Hm' w).
  - destruct m'; cbn; try lia. by destruct (Hm' w).
  - unfold rank. cbn [at_point seen]. rewrite Hl. cbn [m_exec_wait_call_count set_lists]. lia.
Qed.

Lemma monitor_less n s t sn m s' :
  inv n s -> threads s !! t = Some (Thread sn (Monitor 0 m)) ->
  monitor_loop dev0 0 t (Thread sn (Monitor 0 m)) m s = Some s' -> lower s' s.
Proof.
  intros I Ht. unfold monitor_loop. rewrite (devs_lookup n s I). cbn [mbind option_bind seen].
  destruct (i_points n s I t _ Ht) as [_ [B1 B2]].
  assert (forall m', (budget (Monitor 0 m') <= budget (Monitor 0 m))%nat -> (wakes (Monitor 0 m') <= wakes (Monitor 0 m))%nat ->
    (load (kd s) m' <= load (kd s) m)%nat -> (monitor_rank (kd s) m' < monitor_rank (kd s) m)%nat ->
    lower (on_threads <[t := Thread sn (Monitor 0 m')]> s) s) as Hhop.
  { intros m' H1 H2 H3 H4. apply (hop_less n s t _ _ I Ht); [done|cbn in *; lia|]. unfold rank. cbn [at_point seen].
    destruct (negb _); cbn [one]; lia. }
  destruct m as [ | | |w| |i k b|i k b c|i k b c x| ]; try done.
  - rewrite (i_stop n s I). cbn [negb andb]. destruct (_ && _); intros [= <-]; apply Hhop; unfold load; cbn; lia.
  - rewrite (i_stop n s I). intros [= <-]. apply Hhop; unfold load; cbn; lia.
  - by apply (exec_wait_less n s t sn AtMonitor w true).
  - intros [= <-]. apply (lists_less n s t sn Drain); try done; unfold monitor_rank, load;
      cbn [submitted_cmds running_cmds set_lists length]; rewrite length_app; lia.
  - destruct (Nat.ltb_spec i k) as [Hlt|Hge].
    + destruct (running_cmds (kd s) !! i) as [c|]; [|done]. cbn [mbind option_bind]. destruct (cmds s !! c) as [cm|]; [|done]. cbn [mbind option_bind].
      destruct (completed cm); intros [= <-]; apply Hhop; unfold load; rewrite ?length_app; cbn; lia.
    + intros [= <-]. apply (lists_less n s t sn (Scan i k b)); try done; unfold monitor_rank, load; cbn [submitted_cmds running_cmds set_lists]; lia.
  - destruct (cmds s !! c) as [cm|]; [|done]. intros [= <-]. destruct B1 as (_ & B1 & _). apply Hhop; unfold load; cbn; lia.
  - intros [= <-]. destruct B1 as (_ & B1 & _). eapply (notify_less n s c x t _ _ I Ht); [done|cbn; lia|cbn; lia|]. unfold rank, monitor_rank, load.
    cbn [at_point seen]. destruct (negb _); cbn [one]; lia.
Qed.

(** * All steps *)

Lemma run_thread_less n s t choice s' :
  inv n s -> polite s (Run t choice) -> run_thread dev0 t choice s = Some s' -> lower s' s.
Proof.
  intros I Hpol. unfold_thread. unfold polite in Hpol.
  destruct (threads s !! t) as [[sn p]|] eqn:Ht; [|done]. cbn [mbind option_bind seen at_point fmap option_fmap option_map] in *.
  pose proof (i_points n s I t _ Ht) as P. cbn [at_point] in P.
  destruct p as [ | |c b|c b w|c|c b|c b|c|c|c|c|c|c|c|c|c|c x|d m]; try done.
  - destruct (cmds s !! c) as [cm|]; [|done]. intros [= <-]. apply (hop_less n s t _ _ I Ht); destruct (completed cm); unfold rank; cbn; lia.
  - by apply (exec_wait_less n s t sn (AtWait c b)).
  - destruct (cmds s !! c) as [cm|]; [|done]. intros [= <-]. apply (hop_less n s t _ _ I Ht); unfold rank; cbn; lia.
  - destruct (cmds s !! c) as [cm|]; [|done]. intros [= <-]. apply (hop_less n s t _ _ I Ht); destruct (c_done cm); unfold rank; cbn; lia.
  - destruct (b && negb choice); [|done]. intros [= <-]. apply (hop_less n s t _ _ I Ht); unfold rank; cbn; lia.
  - destruct (cmds s !! c) as [cm|]; [|done]. intros [= <-]. apply (hop_less n s t _ _ I Ht); unfold rank; cbn; lia.
  - intros [= <-]. eapply (work_less s _ t _ _ Ht); [done|done|done|]. cbn. lia.
  - destruct P as [(cm & Hc & Hd) _]. rewrite (run_cmd_eq s t _ c cm Hc Hd). intros [= <-].
    eapply (work_less s _ t _ _ Ht); [done|done|done|]. destruct (negb _); cbn; lia.
  - rewrite (devs_lookup n s I). intros [= <-].
    destruct (set_lists_kd n s <[t := Thread sn (Submit c)]> (submitted_cmds (kd s) ++ [c]) (running_cmds (kd s)) I) as [Hk _].
    eapply (work_less s _ t _ _ Ht); [done|by rewrite Hk|by rewrite Hk|]. cbn. lia.
  - subst choice. intros [= <-]. eapply (work_less s _ t _ _ Ht); [done|done|done|]. cbn. lia.
  - intros [= <-]. by apply (kick_less s t sn c).
  - subst choice. intros [= <-]. eapply (work_less s _ t _ _ Ht); [done|done|done|]. cbn. lia.
  - intros [= <-]. apply (notify_less n s c x t _ _ I Ht); [done|cbn; lia|cbn; lia|]. unfold rank; cbn; lia.
  - destruct P as [-> _]. by apply (monitor_less n).
Qed.

(** Steps that are not calls of the application. *)
Definition internal (a : action) : Prop := match a with Run _ _ | Complete _ _ | Signal _ => True | _ => False end.

Lemma erase_first_length c l : c ∈ l -> S (length (erase_first c l)) = length l.
Proof.
  intros Hc. unfold erase_first. destruct (list_find (eq c) l) as [[i y]|] eqn:E.
  - apply list_find_Some in E as (Hi & _). rewrite length_delete by done. apply lookup_lt_Some in Hi. lia.
  - apply list_find_None in E. rewrite Forall_forall in E. by destruct (E c Hc).
Qed.

Lemma act_less n s a s' : inv n s -> polite s a -> internal a -> act dev0 a s = Some s' -> lower s' s.
Proof.
  intros I Hpol. destruct a as [t choice|c x|d| | | | ]; cbn [act internal]; try done.
  - intros _. by apply (run_thread_less n).
  - intros _. destruct (decide _) as [Hc|]; [|done]. destruct (_ && _); [|done]. intros [= <-]. left.
    set (s1 := on_devs _ _). assert (kd s1 = set_events (S (signals (kd s))) (events (kd s)) (kd s)) as Hk
      by (unfold s1, kd; cbn; by rewrite (i_devs n s I)).
    pose proof (erase_first_length c _ Hc). unfold work. rewrite Hk. change (executing s1) with (erase_first c (executing s)).
    change (threads s1) with (threads s). cbn [signals events set_events]. lia.
  - intros _. destruct d as [|d]; [|by rewrite (i_devs n s I)]. rewrite (devs_lookup n s I). cbn [mbind option_bind].
    destruct (signals (kd s)) as [|k] eqn:E; [done|]. intros [= <-]. left. unfold work. cbn [executing threads on_devs].
    assert (forall k, kd (on_devs <[0%nat := k]> s) = k) as -> by (intros ?; unfold kd; cbn; by rewrite (i_devs n s I)). cbn. lia.
Qed.

(** The call count only moves on when work is done. *)
Lemma count_devs s s' : devs s' = devs s -> count s' = count s.
Proof. intros E. unfold count, kd. by rewrite E. Qed.

Lemma count_insert n s s' k :
  inv n s -> devs s' = <[0%nat := k]> (devs s) -> m_exec_wait_call_count k = m_exec_wait_call_count (kd s) -> count s' = count s.
Proof. intros I E Hk. unfold count at 1, kd. rewrite E, (i_devs n s I). done. Qed.

Definition counted (s s' : conf) : Prop := count s' = count s \/ count s' <= count s + 1 /\ (work s' < work s)%nat.

Lemma exec_wait_count n s t sn x w choice s' :
  inv n s -> threads s !! t = Some (Thread sn (inside x w)) ->
  exec_wait_step dev0 0 (timed_site x) choice w t (Thread sn (inside x w)) (inside x) (back x) s = Some s' -> counted s s'.
Proof.
  intros I Ht. unfold exec_wait_step. rewrite (devs_lookup n s I). cbn [mbind option_bind seen].
  destruct w as [ | | | |b|b]; cbn [exec_wait].
  - repeat case_match; intros [= <-]; left; by eapply count_insert.
  - case_match; [|done]. intros [= <-]. left. by eapply count_insert.
  - repeat case_match; intros [= <-]; left; by eapply count_insert.
  - repeat case_match; try done; intros [= <-]; left; by eapply count_insert.
  - intros [= <-]. right. rewrite <- wait_step_id. pose proof (i_count n s I) as Hcn. split.
    + unfold count at 1. rewrite (wait_step_kd n) by done. cbn. unfold u64, count in *. apply Z.mod_le; lia.
    + destruct (wait_step_measures n s t _ (Thread (u64 (m_exec_wait_call_count (kd s) + 1)) (inside x (WakeAll b))) id (events (kd s))
        (u64 (m_exec_wait_call_count (kd s) + 1)) (m_exec_wait_active (kd s) - 1) I Ht) as [Hw _]; try done.
      destruct x; cbn in Hw |- *; lia.
  - intros [= <-]. left. by eapply count_insert.
Qed.

Lemma notify_devs c x s : devs (notify_host c x s) = devs s.
Proof. by destruct (notify_cases s c x) as [->|(cm & _ & _ & _ & ->)]. Qed.

Lemma monitor_count n s t sn m s' :
  inv n s -> threads s !! t = Some (Thread sn (Monitor 0 m)) ->
  monitor_loop dev0 0 t (Thread sn (Monitor 0 m)) m s = Some s' -> counted s s'.
Proof.
  intros I Ht. unfold monitor_loop. rewrite (devs_lookup n s I). cbn [mbind option_bind seen].
  destruct m as [ | | |w| |i k b|i k b c|i k b c x| ]; try done.
  - case_match; intros [= <-]; left; by apply count_devs.
  - case_match; intros [= <-]; left; by apply count_devs.
  - by apply (exec_wait_count n s t sn AtMonitor w true).
  - intros [= <-]. left. by eapply count_insert.
  - case_match; [|intros [= <-]; left; by eapply count_insert].
    destruct (running_cmds (kd s) !! i) as [c|]; [|done]. cbn [mbind option_bind]. destruct (cmds s !! c) as [cm|]; [|done]. cbn [mbind option_bind].
    destruct (completed cm); intros [= <-]; left; by apply count_devs.
  - destruct (cmds s !! c) as [cm|]; [|done]. intros [= <-]. left. by apply count_devs.
  - intros [= <-]. left. apply count_devs. apply notify_devs.
Qed.

Lemma run_thread_count n s t choice s' :
  inv n s -> polite s (Run t choice) -> run_thread dev0 t choice s = Some s' -> counted s s'.
Proof.
  intros I Hpol. unfold_thread. unfold polite in Hpol.
  destruct (threads s !! t) as [[sn p]|] eqn:Ht; [|done]. cbn [mbind option_bind seen at_point fmap option_fmap option_map] in *.
  pose proof (i_points n s I t _ Ht) as P. cbn [at_point] in P.
  assert (forall s1, devs s1 = devs s -> Some s1 = Some s' -> counted s s') as Hsame by (intros s1 E [= <-]; left; by apply count_devs).
  destruct p as [ | |c b|c b w|c|c b|c b|c|c|c|c|c|c|c|c|c|c x|d m]; try done; try (by apply Hsame).
  - by destruct (cmds s !! c) as [cm|]; [apply Hsame|].
  - by apply (exec_wait_count n s t sn (AtWait c b)).
  - by destruct (cmds s !! c) as [cm|]; [apply Hsame|].
  - by destruct (cmds s !! c) as [cm|]; [apply Hsame|].
  - by destruct (b && negb choice); [apply Hsame|].
  - by destruct (cmds s !! c) as [cm|]; [apply Hsame|].
  - destruct P as [(cm & Hc & Hd) _]. rewrite (run_cmd_eq s t _ c cm Hc Hd). by apply Hsame.
  - rewrite (devs_lookup n s I). intros [= <-]. left. by eapply count_insert.
  - subst choice. by apply Hsame.
  - subst choice. by apply Hsame.
  - apply Hsame, notify_devs.
  - destruct P as [-> _]. by apply (monitor_count n).
Qed.

Lemma act_count n s a s' : inv n s -> polite s a -> internal a -> act dev0 a s = Some s' -> counted s s'.
Proof.
  intros I Hpol. destruct a as [t choice|c x|d| | | | ]; cbn [act internal]; try done; intros _.
  - by apply (run_thread_count n).
  - destruct (decide _); [|done]. destruct (_ && _); [|done]. intros [= <-]. left. unfold count, kd. cbn. by rewrite (i_devs n s I).
  - destruct d as [|d]; [|by rewrite (i_devs n s I)]. rewrite (devs_lookup n s I). cbn [mbind option_bind].
    destruct (signals (kd s)) as [|k]; [done|]. intros [= <-]. left. by eapply count_insert.
Qed.

(** * Every run ends *)

(** The internal steps of a system whose driver accepts commands. *)
Definition onward (s s' : conf) : Prop := exists a, internal a /\ disciplined s a /\ act dev0 a s = Some s'.

Lemma inv_count n n' s : inv n s -> count s <= Z.of_nat n' -> inv n' s.
Proof. intros [I1 I2 I3 I4 I5 I6 I7 I8 I9 I10 I11 I12 I13 I14] H. split; try done. lia. Qed.

(** The bound of the call count that the invariant needs holds along the run. *)
Definition bounded (s : conf) : Prop := exists n, inv n s /\ tidy s /\ count s + Z.of_nat (work s) < 2 ^ 64 - 1.

Lemma onward_bounded s s' : bounded s -> onward s s' -> bounded s' /\ lower s' s.
Proof.
  intros (n & I & T & Hb) (a & Ha & Hd & Hs). pose proof (disciplined_polite n s a I T Hd) as Hp. split; [|by eapply act_less]. pose proof (i_count n s I) as Hc.
  assert (inv (Z.to_nat (count s)) s) as I0 by (apply (inv_count n); [done|lia]). exists (S (Z.to_nat (count s))).
  split_and!; [eapply act_inv; try done; lia|by eapply act_tidy|]. pose proof (act_less n s a s' I Hp Ha Hs) as Hl.
  destruct (act_count n s a s' I Hp Ha Hs) as [E|[E1 E2]]; [|lia]. rewrite E. destruct Hl as [H|[H _]]; lia.
Qed.

Lemma onward_acc s : bounded s -> Acc (fun s2 s1 => onward s1 s2) s.
Proof.
  induction s as [s IH] using (well_founded_ind lower_wf). intros Hb. constructor. intros s' Ho.
  destruct (onward_bounded s s' Hb Ho). auto.
Qed.

Lemma onward_star s s' : rtc onward s s' -> bounded s -> bounded s'.
Proof. induction 1 as [|s1 s2 s3 H _ IH]; [done|]. intros Hb. apply IH. by apply (onward_bounded s1). Qed.
