(* ===== verification/HwTheorems.v ===== *)
(** Properties of hardware queues: with one device and a disciplined application
    every command is handed back exactly once and all threads return; with two
    devices, a command whose state is asked for while the monitor notifies it, a
    submission that fails or a start that comes too early this can go wrong. *)

From S2P Require Import Prelude Bytes CppStd XclbinXml XrtKernel XrtRun XrtPacket HwQueue HwInvariant HwSteps HwActions HwRuns HwDiscipline HwTermination.

(** * Queues at rest *)

(** No thread can run. *)
Definition at_rest (s : conf) : Prop := forall t choice, run_thread dev0 t choice s = None.

(** The points at which a thread is stuck. *)
Definition blocked (s : conf) (p : point) : Prop :=
  match p with
  | Ended | DoneAsleep _ _ | WaitExec _ _ Asleep | Monitor _ (IdleAsleep | Waits Asleep) => True
  | WaitExec _ _ InDevice | Monitor _ (Waits InDevice) => events (kd s) = 0%nat
  | _ => False
  end.

Lemma exec_wait_blocked n s d timed w t th ins bk :
  inv n s -> d = 0%nat -> exec_wait_step dev0 d timed true w t th ins bk s = None ->
  w = Asleep \/ w = InDevice /\ events (kd s) = 0%nat.
Proof.
  intros I ->. unfold exec_wait_step. rewrite (devs_lookup n s I). cbn [mbind option_bind].
  destruct w; cbn [exec_wait]; try done; auto.
  - repeat case_match; done.
  - repeat case_match; done.
  - destruct (events (kd s)); [by right|done].
Qed.

Lemma rest_blocked n s t th : inv n s -> at_rest s -> threads s !! t = Some th -> blocked s (at_point th).
Proof.
  intros I Hr Ht. specialize (Hr t true). unfold run_thread, kds_wait, command_wait, command_get_state, start_run, launch in Hr. rewrite Ht in Hr. cbn [mbind option_bind] in Hr.
  pose proof (i_points n s I t th Ht) as P.
  assert (forall c A (f : command -> option A), (c < length (cmds s))%nat -> (forall cm, f cm <> None) -> (cm ← cmds s !! c; f cm) = None -> False) as Hcm.
  { intros c A f Hc Hf. destruct (lookup_lt_is_Some_2 (cmds s) c Hc) as [cm ->]. apply Hf. }
  destruct (at_point th) as [ | |c b|c b w|c|c b|c b|c|c|c|c|c|c|c|c|c|c x|d m]; cbn in P |- *; try done.
  - refine (Hcm _ _ _ _ _ Hr); [|by intros cm]. by apply (i_starts n s I).
  - apply (exec_wait_blocked n) in Hr as [->|[-> ?]]; done.
  - refine (Hcm _ _ _ _ _ Hr); [|by intros cm]. by apply (i_starts n s I).
  - refine (Hcm _ _ _ _ _ Hr); [|by intros cm]. by apply (i_starts n s I), P.
  - refine (Hcm _ _ _ _ _ Hr); [done|by intros cm].
  - destruct P as [(cm & Hc & _) _]. unfold run_cmd in Hr. rewrite Hc in Hr. cbn [mbind option_bind] in Hr. by case_match.
  - by rewrite (devs_lookup n s I) in Hr.
  - destruct P as [-> [B _]]. unfold monitor_loop in Hr. rewrite (devs_lookup n s I) in Hr. cbn [mbind option_bind] in Hr.
    destruct m as [ | | |w| |i k l|i k l c|i k l c x| ]; try done.
    + by case_match.
    + by case_match.
    + apply (exec_wait_blocked n) in Hr as [->|[-> ?]]; done.
    + destruct B as (B1 & B2 & _). destruct (Nat.ltb_spec i k) as [Hi|]; [|done].
      destruct (lookup_lt_is_Some_2 (running_cmds (kd s)) i) as [c Hc]; [lia|]. rewrite Hc in Hr. cbn [mbind option_bind] in Hr.
      refine (Hcm _ _ _ _ _ Hr); [|intros cm; by case_match]. apply (i_starts n s I), (i_lists n s I). by eapply list_elem_of_lookup_2.
    + destruct B as (_ & _ & _ & B). refine (Hcm _ _ _ _ _ Hr); [|by intros cm]. by apply (i_starts n s I).
Qed.

Lemma cnt_zero f l : (forall t th, l !! t = Some th -> f (at_point th) = 0%nat) -> cnt f l = 0%nat.
Proof.
  intros H. destruct (Nat.eq_0_gt_0_cases (cnt f l)) as [|Hp]; [done|]. apply cnt_pos in Hp as (t & th & Ht & Hf).
  specialize (H t th Ht). lia.
Qed.

(** A queue whose device has finished its work is at rest only when all its
    threads have returned and the monitor sleeps with empty lists. *)
Section rest.
Context (n : nat) (s : conf).
Hypotheses (I : inv n s) (Hr : at_rest s) (Hex : executing s = []) (Hsg : signals (kd s) = 0%nat).

Lemma rest_zero f : (forall p, blocked s p -> f p = 0%nat) -> cnt f (threads s) = 0%nat.
Proof. intros Hf. apply cnt_zero. intros t th Ht. by apply Hf, (rest_blocked n s t). Qed.

Lemma rest_leaves : cnt leaves (threads s) = 0%nat.
Proof. apply rest_zero. intros [ | | |? ? []| | | | | | | | | | | | | |? [| | |[]| | | | |]]; done. Qed.

Lemma rest_wakes : cnt wakes (threads s) = 0%nat.
Proof. apply rest_zero. intros [ | | |? ? []| | | | | | | | | | | | | |? [| | |[]| | | | |]]; done. Qed.

Lemma rest_completed c : c ∈ starts s -> comp s c.
Proof.
  intros Hc. apply dec_stable. intros Hn. destruct (i_life n s I c Hc Hn) as [H|H]; [rewrite Hex in H; set_solver|].
  rewrite rest_zero in H; [lia|]. by intros [].
Qed.

Lemma rest_in_device t sn x : threads s !! t <> Some (Thread sn (inside x InDevice)).
Proof.
  intros Ht. pose proof (i_wait n s I t _ Ht) as [_ V2 _ _ V5]. pose proof (rest_blocked n s t _ I Hr Ht) as Hev.
  assert (events (kd s) = 0%nat /\ holds (inside x InDevice) = 1%nat) as [He Hh] by (by destruct x). cbn [seen at_point] in *.
  assert (exists c, c ∈ owed (kd s) (inside x InDevice) /\ c ∈ starts s) as (c & Ho & Hc).
  { pose proof (i_points n s I t _ Ht) as P. destruct x as [c b|]; cbn in P |- *; [exists c; set_solver|].
    destruct P as [_ [B _]]. cbn in B. destruct (_ ++ _) as [|c l] eqn:E; [done|]. exists c. split; [set_solver|].
    destruct (i_lists n s I). assert (c ∈ submitted_cmds (kd s) ++ running_cmds (kd s)) as H1 by (rewrite E; set_solver). set_solver. }
  pose proof rest_leaves. destruct (V5 c Ho (rest_completed c Hc)) as [H1|[H1|H1]]; [unfold due in H1; lia| |lia]. apply H1, V2. lia.
Qed.

Lemma rest_holds : cnt holds (threads s) = 0%nat.
Proof.
  apply cnt_zero. intros t [sn p] Ht. pose proof (rest_blocked n s t _ I Hr Ht) as Hbl. cbn [at_point] in *.
  destruct p as [ | | |c b []| | | | | | | | | | | | | |d [| | |[]| | | | |]]; try done; exfalso.
  - by apply (rest_in_device t sn (AtWait c b)).
  - destruct (i_points n s I t _ Ht) as [-> _]. by apply (rest_in_device t sn AtMonitor).
Qed.

Lemma rest_asleep t th : threads s !! t = Some th -> ~ asleep (at_point th).
Proof.
  intros Ht Ha. pose proof (i_wait n s I t _ Ht) as [_ _ V3 V4 _]. pose proof (i_holds n s I) as [A _]. rewrite rest_holds in A.
  pose proof rest_wakes. destruct (decide (seen th = count s)) as [Hs|Hs]; [|specialize (V4 Ha Hs); lia].
  assert (dormant (at_point th)) as Hd by (destruct (at_point th) as [ | | |? ? []| | | | | | | | | | | | | |? [| | |[]| | | | |]]; done).
  specialize (V3 Hd Hs). lia.
Qed.

(** The monitor sleeps, its lists are empty, and nothing is pending. *)
Lemma rest_monitor :
  submitted_cmds (kd s) = [] /\ running_cmds (kd s) = [] /\ (forall c, has_callbacks s c -> ~ pending s c).
Proof.
  destruct (cnt_pos mons (threads s)) as (t & [sn p] & Ht & Hp); [rewrite (i_mon n s I); lia|].
  pose proof (rest_blocked n s t _ I Hr Ht) as Hbl. pose proof (rest_asleep t _ Ht) as Ha. pose proof (i_points n s I t _ Ht) as P.
  destruct p as [ | | | | | | | | | | | | | | | | |d m]; cbn in Hp; try lia. cbn in Hbl, Ha. destruct P as [-> [B1 B2]].
  destruct m as [ | | |[]| | | | | ]; cbn in *; try done; [|by destruct (rest_in_device t sn AtMonitor)].
  rewrite rest_zero in B1 by by intros []. destruct B1 as [B1|]; [|lia]. apply app_nil in B1 as [E1 E2]. split_and!; try done.
  intros c Hcb Hpd. destruct (B2 c Hpd Hcb) as [H|[H|H]]; [rewrite E1 in H; set_solver|rewrite E2 in H; set_solver|].
  rewrite rest_zero in H by by intros []. lia.
Qed.

Lemma rest_threads t th : threads s !! t = Some th -> at_point th = Ended \/ at_point th = Monitor 0 IdleAsleep.
Proof.
  intros Ht. pose proof (rest_blocked n s t _ I Hr Ht) as Hbl. pose proof (rest_asleep t _ Ht) as Ha. pose proof (i_points n s I t _ Ht) as P.
  destruct th as [sn p]. cbn [at_point] in *. destruct rest_monitor as (_ & _ & Hn).
  destruct p as [ | | |c b []| | |c b| | | | | | | | | | |d [| | |[]| | | | |]]; cbn in Hbl, Ha, P; try done; auto.
  - by destruct (rest_in_device t sn (AtWait c b)).
  - destruct P as (_ & P2 & P3). by destruct (Hn c).
  - destruct P as [-> _]. by right.
  - destruct P as [-> _]. by destruct (rest_in_device t sn AtMonitor).
Qed.
End rest.

(** * Systems that cannot go on *)

Definition quiet (s : conf) : Prop := forall s', ~ onward s s'.

Lemma quiet_rest n s : inv n s -> quiet s -> at_rest s /\ executing s = [] /\ signals (kd s) = 0%nat.
Proof.
  intros I Hq. assert (forall a s', internal a -> disciplined s a -> act dev0 a s <> Some s') as Hno by (intros a s' ?? Ha; apply (Hq s'); by exists a).
  split_and!.
  - intros t choice. destruct (run_thread dev0 t choice s) as [s'|] eqn:E; [exfalso|done].
    destruct (threads s !! t) as [[sn p]|] eqn:Ht; [|unfold run_thread in E; by rewrite Ht in E].
    assert (disciplined s (Run t choice) -> False) as Hp by (intros Hp; by apply (Hno (Run t choice) s')).
    unfold disciplined in Hp. rewrite Ht in Hp. cbn in Hp. destruct p as [ | | | | | | | | | | |c| | |c| | | ]; try (by apply Hp).
    + eapply (Hno (Run t true)); [done| |unfold act, run_thread, start_run, launch; rewrite Ht; reflexivity]. unfold disciplined. by rewrite Ht.
    + eapply (Hno (Run t true)); [done| |unfold act, run_thread, start_run, launch; rewrite Ht; reflexivity]. unfold disciplined. by rewrite Ht.
  - destruct (executing s) as [|c l] eqn:E; [done|]. exfalso. eapply (Hno (Complete c ERT_CMD_STATE_COMPLETED)); [done|done|].
    cbn [act]. rewrite decide_True by (rewrite E; set_solver). reflexivity.
  - destruct (signals (kd s)) as [|k] eqn:E; [done|]. exfalso. eapply (Hno (Signal 0)); [done|done|].
    cbn [act]. rewrite (devs_lookup n s I). cbn. by rewrite E.
Qed.

(** The callbacks of a command that have been called, and its starts. *)
Definition called (s : conf) (c : nat) : list Z := map snd (filter (fun x => fst x = c) (calls s)).
Definition started (s : conf) (c : nat) : nat := length (filter (fun x => x = c) (starts s)).

(** A queue that has handed back all commands: every thread has returned, the
    monitor sleeps with empty lists, every started command is complete, and its
    callbacks have been called once for every start. *)
Record handed_back (s : conf) : Prop := {
  hb_threads t th : threads s !! t = Some th -> at_point th = Ended \/ at_point th = Monitor 0 IdleAsleep;
  hb_lists : submitted_cmds (kd s) = [] /\ running_cmds (kd s) = [];
  hb_complete c : c ∈ starts s -> exists cm, cmds s !! c = Some cm /\ completed cm = true;
  hb_calls c cm : cmds s !! c = Some cm ->
    called s c = concat (replicate (started s c) (c_callbacks cm)) /\ (c_callbacks cm <> [] -> c_done cm = true);
}.

Lemma quiet_handed_back n s : inv n s -> quiet s -> handed_back s.
Proof.
  intros I Hq. destruct (quiet_rest n s I Hq) as (Hr & He & Hs). destruct (rest_monitor n s I Hr He Hs) as (L1 & L2 & Hp). split.
  - by apply (rest_threads n s).
  - done.
  - by apply (rest_completed n s).
  - intros c cm Hc. destruct (i_cmds n s I c cm Hc) as (_ & _ & _ & J & _). fold (called s c) (started s c) in J.
    assert (c_callbacks cm <> [] -> c_done cm = true) as Hd.
    { intros Hcb. destruct (c_done cm) eqn:E; [done|]. destruct (Hp c); by exists cm. }
    split; [|done]. rewrite <- J. destruct (c_done cm) eqn:E; [by rewrite app_nil_r|]. destruct (c_callbacks cm); [by rewrite app_nil_r|by discriminate Hd].
Qed.

(** * One device, a disciplined application *)

(** C5: After a run in which the application starts only commands that are done and does
    not look at a command while another thread starts it, and the driver accepts the
    submissions: whatever the threads, the device and the driver do from there without
    further calls ends after finitely many steps, and where no step is left every
    thread that has called has returned, the monitor sleeps with empty lists, every
    started command is complete, and every callback has been called exactly once for
    every start of its command. *)
Theorem queue_hands_back cs l s :
  Forall idle_command cs -> disciplined_run l (boot cs 1) -> acts dev0 l (boot cs 1) = Some s ->
  Z.of_nat (length l + work s) < 2 ^ 64 - 1 ->
  Acc (fun s2 s1 => onward s1 s2) s /\ (forall s', rtc onward s s' -> quiet s' -> handed_back s').
Proof.
  intros Hcs Hp Hs Hl. destruct (disciplined_boot cs l s Hcs ltac:(lia) Hp Hs) as [I T].
  assert (bounded s) as B by (exists (length l); pose proof (i_count _ _ I); split_and!; try done; lia). split; [by apply onward_acc|].
  intros s' Hr Hq. destruct (onward_star s s' Hr B) as (n & I' & _). by apply (quiet_handed_back n).
Qed.

(** C8: In such a run a callback is never called before its command has completed, and
    never twice for one start: the callbacks called so far are those of all starts
    but the one that is still open; a command the device executes is open and not
    complete; and no call throws. *)
Theorem callbacks_once cs l s :
  Forall idle_command cs -> disciplined_run l (boot cs 1) -> acts dev0 l (boot cs 1) = Some s -> Z.of_nat (length l) < 2 ^ 64 ->
  (forall c cm, cmds s !! c = Some cm ->
     called s c ++ (if c_done cm then [] else c_callbacks cm) = concat (replicate (started s c) (c_callbacks cm)) /\
     (c ∈ executing s -> c_done cm = false /\ completed cm = false)) /\
  (forall t th, threads s !! t = Some th -> at_point th <> Threw).
Proof.
  intros Hcs Hp Hs Hl. destruct (disciplined_boot cs l s Hcs Hl Hp Hs) as [I _]. split.
  - intros c cm Hc. destruct (i_cmds _ s I c cm Hc) as (_ & _ & _ & J & _). split; [done|]. intros He.
    destruct (i_exec _ s I c He) as [(y & Hy & Hy') Hn]. assert (y = cm) as -> by congruence. split; [done|].
    apply not_true_is_false. intros E. apply Hn. by exists cm.
  - intros t th Ht E. pose proof (i_points _ s I t th Ht) as P. by rewrite E in P.
Qed.

(** A command with a callback and one without, started by one thread; another
    waits for the first. *)
Definition plain_cmd : command := Command [1; 0; 0; 0] true false [] [].
Definition callback_cmd : command := Command [1; 0; 0; 0] true false [5] [].
Definition steps (t k : nat) : list action := replicate k (Run t true).

Definition two_commands : list action :=
  [CallStart 1 0] ++ steps 1 5 ++ [CallStart 1 1; CallWait 2 0 false] ++ steps 1 3 ++ [CallWait 1 1 false] ++ steps 2 1 ++ steps 1 1 ++ steps 0 3 ++
  [Complete 0 4; Signal 0] ++ steps 0 7 ++ steps 2 1 ++ steps 0 2 ++ steps 1 3 ++ [Complete 1 4; Signal 0] ++ steps 1 6.

Definition after_two : conf := default (boot [] 1) (acts dev0 two_commands (boot [callback_cmd; plain_cmd] 1)).

Lemma idle_commands : Forall idle_command [callback_cmd; plain_cmd].
Proof. repeat constructor; cbn; lia. Qed.

Lemma two_commands_end : acts dev0 two_commands (boot [callback_cmd; plain_cmd] 1) = Some after_two.
Proof. vm_compute. reflexivity. Qed.

Lemma two_commands_disciplined : disciplined_run two_commands (boot [callback_cmd; plain_cmd] 1).
Proof. apply (bool_decide_unpack _). vm_compute. exact Logic.I. Qed.

Lemma queue_hands_back_witness :
  Acc (fun s2 s1 => onward s1 s2) after_two /\ (quiet after_two -> handed_back after_two) /\
  executing after_two = [] /\ calls after_two = [(0%nat, 5)].
Proof.
  destruct (queue_hands_back [callback_cmd; plain_cmd] two_commands after_two idle_commands two_commands_disciplined two_commands_end) as [H1 H2].
  - vm_compute. reflexivity.
  - split_and!; [exact H1|apply H2, rtc_refl|vm_compute; reflexivity..].
Defined.

Lemma callbacks_once_witness :
  called after_two 0 = [5] /\ (forall t th, threads after_two !! t = Some th -> at_point th <> Threw).
Proof.
  destruct (callbacks_once [callback_cmd; plain_cmd] two_commands after_two idle_commands two_commands_disciplined two_commands_end) as [H1 H2].
  - vm_compute. reflexivity.
  - split; [|exact H2]. destruct (H1 0%nat (Command [4; 0; 0; 0] true true [5] []) ltac:(vm_compute; reflexivity)) as [H _].
    cbn [c_done c_callbacks] in H. rewrite app_nil_r in H. rewrite H. vm_compute. reflexivity.
Defined.

(** * Where it goes wrong *)

(** No thread of a queue of several devices can run. *)
Definition stuck (dev_of : nat -> nat) (s : conf) : Prop := forall t choice, run_thread dev_of t choice s = None.

(** Two devices; command 0 runs on the first, the others on the second. *)
Definition home (c : nat) : nat := if (c =? 0)%nat then 0 else 1.

(** A thread waits for command 0, then for command 1, for which another thread
    waits as well. *)
Definition two_devices : list action :=
  steps 0 1 ++ steps 1 1 ++
  [CallStart 2 0] ++ steps 2 3 ++ [CallWait 2 0 false] ++ steps 2 2 ++ [Complete 0 4; Signal 0] ++ steps 2 6 ++
  [CallStart 2 1] ++ steps 2 3 ++ [CallWait 2 1 false] ++ steps 2 1 ++
  [CallWait 3 1 false] ++ steps 3 2 ++ [Complete 1 4; Signal 1] ++ steps 3 6 ++ steps 2 1.

(** The call count of a thread is shared by all devices: a thread that has waited on
    one device takes its count for that of another device, calls [device::exec_wait]
    for a command whose completion another thread has fetched already, and waits
    for ever although the command is complete, marked as done, and nothing is left to
    execute. *)
Theorem two_devices_lose_wakeup :
  exists s cm, acts home two_devices (boot [plain_cmd; plain_cmd] 2) = Some s /\ stuck home s /\
    executing s = [] /\ Forall (fun k => signals k = 0 /\ events k = 0)%nat (devs s) /\
    cmds s !! 1%nat = Some cm /\ completed cm = true /\ c_done cm = true /\
    at_point <$> threads s !! 2%nat = Some (WaitExec 1 false InDevice).
Proof.
  do 2 eexists. split; [vm_compute; reflexivity|]. split_and!; [|repeat constructor..].
  intros [|[|[|[|t]]]] []; vm_compute; reflexivity.
Qed.

(** The monitor has read that a command is complete when the application asks
    for its state and starts it again. *)
Definition asks_state : list action :=
  [CallStart 1 0] ++ steps 1 5 ++ steps 0 3 ++ [Complete 0 4; Signal 0] ++ steps 0 6 ++
  [CallState 1 0] ++ steps 1 2 ++ [CallStart 1 0] ++ steps 1 4 ++ steps 0 1.

(** The state that [notify] gets may be older than the last start: when the state of a
    managed command is asked for while the monitor is about to notify it, and the
    command is started again, the monitor marks the new execution as done and calls
    its callback while the device still executes it. *)
Theorem notification_of_previous_run :
  exists s cm, acts dev0 asks_state (boot [callback_cmd] 1) = Some s /\
    0%nat ∈ executing s /\ cmds s !! 0%nat = Some cm /\ completed cm = false /\ c_done cm = true /\
    started s 0 = 2%nat /\ called s 0 = [5; 5].
Proof.
  do 2 eexists. split; [vm_compute; reflexivity|]. split_and!; try (vm_compute; reflexivity). repeat constructor.
Qed.

(** The submission of command 0 fails while the monitor goes through its list. *)
Definition failed_submission : list action :=
  [CallStart 1 1] ++ steps 1 5 ++ steps 0 3 ++ [Complete 1 4; Signal 0] ++ [CallStart 1 0] ++ steps 1 3 ++
  steps 0 8 ++ [Run 1 false] ++ steps 1 2 ++ steps 0 4 ++ [CallStop 0].

(** The monitor goes through [running_cmds] without the mutex: a command whose
    submission fails meanwhile is erased from the list but comes back with the
    busy commands; the monitor then waits for it for ever and the destructor of the
    command manager, which joins the monitor, does not return. *)
Theorem failed_launch_stays :
  exists s, acts dev0 failed_submission (boot [callback_cmd; callback_cmd] 1) = Some s /\ at_rest s /\
    executing s = [] /\ running_cmds (kd s) = [0%nat] /\ stop (kd s) = true /\
    map at_point (threads s) = [Monitor 0 (Waits InDevice); Threw].
Proof.
  eexists. split; [vm_compute; reflexivity|]. split_and!; [|repeat constructor..].
  intros [|[|t]] []; vm_compute; reflexivity.
Qed.

(** A completed command that has not been waited for is started again. *)
Definition early_start : list action :=
  steps 0 1 ++ [CallStart 1 0] ++ steps 1 3 ++ [Complete 0 4; Signal 0; CallStart 1 0] ++ steps 1 2 ++ [CallWait 1 0 false] ++ steps 1 7.

(** [run_impl::start] writes the state of the packet before [kernel_command::run]
    refuses a command that is not done: the completion is lost, and a thread that
    waits for the command afterwards does not return. *)
Lemma refused_start_loses_completion :
  exists s cm, acts dev0 early_start (boot [plain_cmd] 1) = Some s /\ at_rest s /\
    executing s = [] /\ starts s = [0%nat] /\ cmds s !! 0%nat = Some cm /\ get_command_state cm = ERT_CMD_STATE_NEW /\
    at_point <$> threads s !! 1%nat = Some (WaitExec 0 false InDevice).
Proof.
  do 2 eexists. split; [vm_compute; reflexivity|]. split_and!; [|repeat constructor..].
  intros [|[|t]] []; vm_compute; reflexivity.
Qed.
