(* ===== verification/HwRegistry.v ===== *)
(** The registry of hardware queues, [core/common/api/hw_queue.cpp]: the queues of
    hardware contexts and devices behind weak pointers in [dev2hwc], and the pool
    that recycles the command managers, each with its monitor thread, of queues
    that are gone.

    Queues and managers are numbered in the order of their construction; a queue
    counts the shared pointers to it, and locking a weak pointer succeeds while
    that count is positive.  All operations run under the mutexes of the source,
    one after the other. *)

From S2P Require Import Prelude.

(** * State *)

Inductive queue_kind := kds (device : nat) | qds (device hwctx : nat).
#[export] Instance queue_kind_eq_dec : EqDecision queue_kind.
Proof. solve_decision. Defined.

Record queue := Queue { kind : queue_kind; refs : nat; m_cmd_manager : option nat }.

(** [dev2hwc]: for a device its slots by hardware context, [None] for the null
    context; a slot is a weak pointer, possibly empty.  [executors] are the
    [m_impl] of the command managers. *)
Abbreviation slots := (gmap (option nat) (option nat)).

Record registry := Registry {
  dev2hwc : gmap nat slots;
  queues : list queue;
  pool : list nat;
  executors : list (option nat);
}.

Definition empty_registry : registry := Registry ∅ [] [] [].

Definition with_map (f : gmap nat slots -> gmap nat slots) (r : registry) : registry := Registry (f (dev2hwc r)) (queues r) (pool r) (executors r).
Definition with_queues (f : list queue -> list queue) (r : registry) : registry := Registry (dev2hwc r) (f (queues r)) (pool r) (executors r).

Definition set_refs (n : nat) (q : queue) : queue := Queue (kind q) n (m_cmd_manager q).
Definition set_manager (m : option nat) (q : queue) : queue := Queue (kind q) (refs q) m.

(** [weak_ptr::lock]. *)
Definition lock (w : option nat) (r : registry) : option nat :=
  q ← w; x ← queues r !! q; if (refs x =? 0)%nat then None else Some q.
Definition retain (q : nat) (r : registry) : registry := with_queues (alter (fun x => set_refs (S (refs x)) x) q) r.
Definition new_queue (k : queue_kind) (r : registry) : nat * registry :=
  (length (queues r), with_queues (fun l => l ++ [Queue k 1 None]) r).

(** The slot of a context; an absent slot is an empty weak pointer. *)
Definition slot (h : option nat) (sl : slots) : option nat := default None (sl !! h).

(** * Operations *)

Definition get_kds_device_nolock (sl : slots) (d : nat) (r : registry) : slots * nat * registry :=
  match lock (slot None sl) r with
  | Some q => (sl, q, retain q r)
  | None => let '(q, r) := new_queue (kds d) r in (<[None := Some q]> sl, q, r)
  end.

Definition get_device_queue (d : nat) (r : registry) : nat * registry :=
  let '(sl, q, r) := get_kds_device_nolock (default ∅ (dev2hwc r !! d)) d r in (q, with_map <[d := sl]> r).

(** [hwqueue]: whether the shim has a queue for the context. *)
Definition get_hwctx_queue (d h : nat) (hwqueue : bool) (r : registry) : nat * registry :=
  let sl := default ∅ (dev2hwc r !! d) in
  match lock (slot (Some h) sl) r with
  | Some q => (q, with_map <[d := sl]> (retain q r))
  | None =>
      let '(sl, q, r) := if hwqueue then let '(q, r) := new_queue (qds d h) r in (sl, q, r) else get_kds_device_nolock sl d r in
      (q, with_map <[d := <[Some h := Some q]> sl]> r)
  end.

Definition remove_device (d : nat) (r : registry) : registry := with_map (delete d) r.

(** The manager of a queue, on demand: its own, a recycled one, or a new one. *)
Definition get_cmd_manager (q : nat) (r : registry) : option (nat * registry) :=
  x ← queues r !! q;
  match m_cmd_manager x with
  | Some m => Some (m, r)
  | None =>
      match last (pool r) with
      | Some m => Some (m, Registry (dev2hwc r) (<[q := set_manager (Some m) x]> (queues r)) (take (length (pool r) - 1) (pool r)) (<[m := Some q]> (executors r)))
      | None => let m := length (executors r) in
          Some (m, Registry (dev2hwc r) (<[q := set_manager (Some m) x]> (queues r)) (pool r) (executors r ++ [Some q]))
      end
  end.

(** A shared pointer is dropped; the last one runs the destructor of the queue. *)
Definition release (q : nat) (r : registry) : option registry :=
  x ← queues r !! q;
  match refs x with
  | O => None
  | S (S n) => Some (with_queues <[q := set_refs (S n) x]> r)
  | S O =>
      match m_cmd_manager x with
      | None => Some (with_queues <[q := set_refs 0 x]> r)
      | Some m => Some (Registry (dev2hwc r) (<[q := Queue (kind x) 0 None]> (queues r)) (pool r ++ [m]) (<[m := None]> (executors r)))
      end
  end.

(** [managed_start]: not supported by the queues of the shim. *)
Definition managed_start (q : nat) (r : registry) : option (nat * registry) :=
  x ← queues r !! q;
  match kind x with qds _ _ => None | kds _ => get_cmd_manager q r end.

(** [wait_while_devices] ends with an empty map, and [stop_monitor_threads] empties
    the pool. *)
Definition wait_while_devices (r : registry) : registry := with_map (fun _ => ∅) r.
Definition stop_monitor_threads (r : registry) : registry := Registry (dev2hwc r) (queues r) [] (executors r).

(** * Runs *)

Inductive op :=
| GetDevice (d : nat)
| GetHwctx (d h : nat) (hwqueue : bool)
| Release (q : nat)
| Finish (d : nat)
| ManagedStart (q : nat)
| Stop.

(** A queue is used while a shared pointer to it is held. *)
Definition reg_step (o : op) (r : registry) : option registry :=
  match o with
  | GetDevice d => Some (get_device_queue d r).2
  | GetHwctx d h b => Some (get_hwctx_queue d h b r).2
  | Release q => release q r
  | Finish d => Some (remove_device d r)
  | ManagedStart q => x ← queues r !! q; if (refs x =? 0)%nat then None else snd <$> managed_start q r
  | Stop => Some (stop_monitor_threads (wait_while_devices r))
  end.

Fixpoint run_ops (l : list op) (r : registry) : option registry :=
  match l with
  | [] => Some r
  | o :: l' => r' ← reg_step o r; run_ops l' r'
  end.

(** Induction over runs. *)
Lemma run_ops_ind (P : registry -> Prop) (ok : op -> Prop) l r r' :
  (forall o r r', ok o -> P r -> reg_step o r = Some r' -> P r') -> Forall ok l -> P r -> run_ops l r = Some r' -> P r'.
Proof.
  intros Hs Hl. revert r. induction Hl as [|o l Ho _ IH]; intros r Hr; cbn [run_ops]; [by intros [= <-]|].
  destruct (reg_step o r) as [r1|] eqn:E; [|done]. cbn. intros H. eapply IH; [by eapply Hs|done].
Qed.

(** * One queue per device *)

Definition live (r : registry) (q : nat) (k : queue_kind) : Prop := exists x, queues r !! q = Some x /\ refs x <> 0%nat /\ kind x = k.

(** The queues of a device that has not been removed. *)
Definition sentinel (d : nat) (r : registry) : Prop :=
  forall q, live r q (kds d) -> slot None (default ∅ (dev2hwc r !! d)) = Some q.

Lemma lock_live w r q : lock w r = Some q -> w = Some q /\ exists x, queues r !! q = Some x /\ refs x <> 0%nat.
Proof.
  unfold lock. destruct w as [q'|]; [|done]. cbn. destruct (queues r !! q') as [x|] eqn:E; [|done]. cbn.
  destruct (Nat.eqb_spec (refs x) 0); [done|]. intros [= ->]. split; [done|]. by exists x.
Qed.

Lemma lock_none d r : sentinel d r -> lock (slot None (default ∅ (dev2hwc r !! d))) r = None -> forall q, ~ live r q (kds d).
Proof.
  intros S Hl q Hq. rewrite (S q Hq) in Hl. destruct Hq as (x & Hx & Hr & _). unfold lock in Hl. cbn in Hl. rewrite Hx in Hl. cbn in Hl.
  by destruct (Nat.eqb_spec (refs x) 0).
Qed.

Lemma live_retain q r q' k : (exists x, queues r !! q = Some x /\ refs x <> 0%nat) -> live (retain q r) q' k -> live r q' k.
Proof.
  intros (y & Hy & Hry) (x & Hx & Hr & Hk). cbn in Hx. destruct (decide (q' = q)) as [->|Hne].
  - rewrite list_lookup_alter_eq, Hy in Hx. injection Hx as <-. by exists y.
  - rewrite list_lookup_alter_ne in Hx by done. by exists x.
Qed.

Lemma live_new k r q' k' : live (new_queue k r).2 q' k' -> live r q' k' \/ q' = length (queues r) /\ k' = k.
Proof.
  intros (x & Hx & Hr & Hk). cbn in Hx. apply lookup_app_Some in Hx as [Hx|[Hle Hx]]; [left; by exists x|right].
  apply list_lookup_singleton_Some in Hx as [E <-]. split; [lia|done].
Qed.

Lemma slot_insert h w sl : slot h (<[h := w]> sl) = w.
Proof. unfold slot. by rewrite lookup_insert_eq. Qed.

Lemma slot_insert_ne h h' w sl : h <> h' -> slot h (<[h' := w]> sl) = slot h sl.
Proof. intros Hne. unfold slot. by rewrite lookup_insert_ne. Qed.

(** A device other than [d], or one of its contexts. *)
Lemma sentinel_map d r f :
  sentinel d r -> slot None (default ∅ (f (dev2hwc r) !! d)) = slot None (default ∅ (dev2hwc r !! d)) -> sentinel d (with_map f r).
Proof. intros S E q Hq. cbn. rewrite E. by apply S. Qed.

Lemma sentinel_queues d r f : sentinel d r -> (forall q, live (with_queues f r) q (kds d) -> live r q (kds d)) -> sentinel d (with_queues f r).
Proof. intros S H q Hq. cbn. by apply S, H. Qed.

Lemma kds_device_sentinel d d' r sl q r' :
  get_kds_device_nolock (default ∅ (dev2hwc r !! d')) d' r = (sl, q, r') -> sentinel d r -> sentinel d (with_map <[d' := sl]> r').
Proof.
  unfold get_kds_device_nolock. destruct (lock _ r) as [q0|] eqn:E; [|].
  - intros [= <- <- <-] S. apply lock_live in E as [_ Hq0]. apply sentinel_map.
    + apply sentinel_queues; [done|]. intros q'. by apply live_retain.
    + cbn [dev2hwc with_queues retain]. destruct (decide (d' = d)) as [->|Hne]; [by rewrite lookup_insert_eq|by rewrite lookup_insert_ne].
  - intros [= <- <- <-] S q' Hq'. cbn [dev2hwc with_map with_queues]. apply (live_new (kds d')) in Hq' as [Hq'|[-> [= ->]]].
    + destruct (decide (d' = d)) as [->|Hne]; [by destruct (lock_none d r S E q')|]. rewrite lookup_insert_ne by done. by apply S.
    + rewrite lookup_insert_eq. apply (slot_insert None).
Qed.

Lemma get_kds_dev2hwc sl d r sl' q r' : get_kds_device_nolock sl d r = (sl', q, r') -> dev2hwc r' = dev2hwc r.
Proof. unfold get_kds_device_nolock. destruct (lock _ r); by intros [= _ _ <-]. Qed.

Lemma get_hwctx_sentinel d d' h b r : sentinel d r -> sentinel d (get_hwctx_queue d' h b r).2.
Proof.
  intros S. unfold get_hwctx_queue.
  assert (forall sl, slot None sl = slot None (default ∅ (dev2hwc r !! d')) ->
    slot None (default ∅ (<[d' := sl]> (dev2hwc r) !! d)) = slot None (default ∅ (dev2hwc r !! d))) as Hsl.
  { intros sl E. destruct (decide (d' = d)) as [->|Hne]; [by rewrite lookup_insert_eq|by rewrite lookup_insert_ne]. }
  destruct (lock _ r) as [q0|] eqn:E.
  - apply lock_live in E as [_ Hq0]. cbn [snd]. apply sentinel_map; [|by apply Hsl].
    apply sentinel_queues; [done|]. intros q'. by apply live_retain.
  - destruct b.
    + cbn [snd new_queue]. apply sentinel_map; [|apply Hsl; by apply slot_insert_ne].
      apply sentinel_queues; [done|]. intros q' Hq'. by apply (live_new (qds d' h)) in Hq' as [?|[_ ?]].
    + destruct (get_kds_device_nolock _ d' r) as [[sl q] r'] eqn:Eg. pose proof (kds_device_sentinel d d' r sl q r' Eg S) as S'. cbn [snd].
      intros q' Hq'. specialize (S' q' Hq'). cbn [dev2hwc with_map] in S' |- *. destruct (decide (d' = d)) as [->|Hne].
      * rewrite lookup_insert_eq in S' |- *. rewrite <- S'. by apply (slot_insert_ne None (Some h)).
      * by rewrite lookup_insert_ne in S' |- * by done.
Qed.

(** The operations on queues that keep what is live. *)
Lemma release_live q r r' q' k : release q r = Some r' -> live r' q' k -> live r q' k.
Proof.
  unfold release. destruct (queues r !! q) as [x|] eqn:Hq; [|done]. cbn [mbind option_bind].
  assert (forall n m, (n < refs x)%nat -> forall y, <[q := Queue (kind x) n m]> (queues r) !! q' = Some y -> refs y <> 0%nat -> kind y = k -> live r q' k) as Hl.
  { intros n m Hn y [(<- & <- & _)|[Hne Hy]]%list_lookup_insert_Some Hr Hk; [|by exists y]. exists x. cbn in *. split_and!; try done. lia. }
  destruct (refs x) as [|[|n]] eqn:Hr; [done| |].
  - destruct (m_cmd_manager x) as [m|]; intros [= <-] (y & Hy & Hry & Hk); eapply Hl; cbn in *; eauto.
  - intros [= <-] (y & Hy & Hry & Hk). eapply (Hl (S n) (m_cmd_manager x)); eauto.
Qed.

Lemma manager_live q r m r' q' k : get_cmd_manager q r = Some (m, r') -> live r' q' k -> live r q' k.
Proof.
  unfold get_cmd_manager. destruct (queues r !! q) as [x|] eqn:Hq; [|done]. cbn [mbind option_bind].
  assert (forall m y, <[q := set_manager (Some m) x]> (queues r) !! q' = Some y -> refs y <> 0%nat -> kind y = k -> live r q' k) as Hl.
  { intros m0 y [(<- & <- & _)|[Hne Hy]]%list_lookup_insert_Some Hr Hk; [by exists x|by exists y]. }
  destruct (m_cmd_manager x); [by intros [= _ <-]|]. destruct (last (pool r)); intros [= <- <-] (y & Hy & Hry & Hk); eapply Hl; eauto.
Qed.

(** The operations that do not take device [d] out of the map. *)
Definition keeps (d : nat) (o : op) : Prop := match o with Finish d' => d' <> d | Stop => False | _ => True end.

Lemma release_map q r r' : release q r = Some r' -> dev2hwc r' = dev2hwc r.
Proof. unfold release. destruct (queues r !! q) as [x|]; [|done]. cbn. repeat case_match; try done; by intros [= <-]. Qed.

Lemma manager_map q r m r' : get_cmd_manager q r = Some (m, r') -> dev2hwc r' = dev2hwc r.
Proof. unfold get_cmd_manager. destruct (queues r !! q) as [x|]; [|done]. cbn. repeat case_match; by intros [= _ <-]. Qed.

Lemma reg_step_sentinel d o r r' : keeps d o -> sentinel d r -> reg_step o r = Some r' -> sentinel d r'.
Proof.
  intros Hk S. destruct o as [d'|d' h b|q|d'|q| ]; cbn [reg_step].
  - intros [= <-]. unfold get_device_queue. destruct (get_kds_device_nolock _ d' r) as [[sl q] r1] eqn:E. by eapply kds_device_sentinel.
  - intros [= <-]. by apply get_hwctx_sentinel.
  - intros Hr q' Hq'. rewrite (release_map q r r' Hr). apply S. by eapply release_live.
  - intros [= <-]. apply sentinel_map; [done|]. cbn in Hk. by rewrite lookup_delete_ne.
  - destruct (queues r !! q) as [x|] eqn:Hx; [|done]. cbn. unfold managed_start. rewrite Hx. cbn.
    destruct (refs x =? 0)%nat; [done|]. destruct (kind x); [|done].
    destruct (get_cmd_manager q r) as [[m r1]|] eqn:E; [|done]. intros [= <-] q' Hq'. cbn in Hq'. cbn. rewrite (manager_map q r m r1 E). apply S.
    by eapply manager_live.
  - done.
Qed.

(** * Managers *)

Record managers_ok (r : registry) : Prop := {
  mg_owned q x m : queues r !! q = Some x -> m_cmd_manager x = Some m -> refs x <> 0%nat /\ executors r !! m = Some (Some q);
  mg_pool m : m ∈ pool r -> executors r !! m = Some None;
  mg_nodup : NoDup (pool r);
}.

Lemma managers_map f r : managers_ok r -> managers_ok (with_map f r).
Proof. intros [M1 M2 M3]. by split. Qed.

Lemma managers_retain q r : managers_ok r -> managers_ok (retain q r).
Proof.
  intros [M1 M2 M3]. split; [|done|done]. intros q' x m. cbn. destruct (decide (q' = q)) as [->|Hne].
  - rewrite list_lookup_alter_eq. destruct (queues r !! q) as [y|] eqn:E; [|done]. intros [= <-] Hm. split; [done|]. by apply (M1 q y m).
  - rewrite list_lookup_alter_ne by done. apply M1.
Qed.

Lemma managers_new k r : managers_ok r -> managers_ok (new_queue k r).2.
Proof.
  intros [M1 M2 M3]. split; [|done|done]. intros q' x m. cbn. intros [Hx|[_ Hx]]%lookup_app_Some; [by apply M1|].
  by apply list_lookup_singleton_Some in Hx as [_ <-].
Qed.

Lemma managers_kds sl d r sl' q r' : get_kds_device_nolock sl d r = (sl', q, r') -> managers_ok r -> managers_ok r'.
Proof.
  unfold get_kds_device_nolock. destruct (lock _ r); intros [= _ _ <-]; [apply managers_retain|apply (managers_new (kds d))].
Qed.

Lemma managers_release q r r' : release q r = Some r' -> managers_ok r -> managers_ok r'.
Proof.
  unfold release. destruct (queues r !! q) as [x|] eqn:Hq; [|done]. cbn [mbind option_bind]. intros Hr [M1 M2 M3]. revert Hr.
  assert (forall n, (refs x <> 1)%nat \/ m_cmd_manager x = None -> (n = refs x - 1)%nat -> refs x <> 0%nat ->
    managers_ok (with_queues <[q := set_refs n x]> r)) as Hset.
  { intros n Hn -> H0. split; [|done|done]. intros q' y m. cbn. intros [(<- & <- & _)|[Hne Hy]]%list_lookup_insert_Some; [|by apply M1].
    cbn. intros Hm. destruct Hn as [Hn|Hn]; [|congruence]. split; [lia|]. by apply (M1 q x m). }
  destruct (refs x) as [|[|n]] eqn:Hr; [done| |].
  - destruct (m_cmd_manager x) as [m|] eqn:Hm; intros [= <-]; [|by apply Hset; auto].
    destruct (M1 q x m Hq Hm) as [_ Hex]. assert (m ∉ pool r) as Hnp by (intros Hp%M2; congruence).
    pose proof (lookup_lt_Some _ _ _ Hex) as Hlt. split; cbn.
    + intros q' y m' [(<- & <- & _)|[Hne Hy]]%list_lookup_insert_Some Hm'; [done|]. destruct (M1 q' y m' Hy Hm') as [H1 H2]. split; [done|].
      rewrite list_lookup_insert_ne; [done|]. intros ->. congruence.
    + intros m' [Hp|Hp]%elem_of_app; [rewrite list_lookup_insert_ne; [by apply M2|congruence]|].
      apply list_elem_of_singleton in Hp as ->. by apply list_lookup_insert_eq.
    + apply NoDup_app. split_and!; [done|set_solver|apply NoDup_singleton].
  - intros [= <-]. apply Hset; auto.
Qed.

Lemma managers_get q r m r' x :
  queues r !! q = Some x -> refs x <> 0%nat -> get_cmd_manager q r = Some (m, r') -> managers_ok r -> managers_ok r'.
Proof.
  intros Hq Hr. unfold get_cmd_manager. rewrite Hq. cbn [mbind option_bind]. intros Hg [M1 M2 M3]. revert Hg.
  destruct (m_cmd_manager x) as [m0|] eqn:Hm; [by intros [= _ <-]|].
  destruct (last (pool r)) as [m0|] eqn:Hlast; intros [= <- <-].
  - apply last_Some in Hlast as [l Hl]. assert (take (length (pool r) - 1) (pool r) = l) as Ht.
    { rewrite Hl, length_app. cbn. replace (length l + 1 - 1)%nat with (length l) by lia. by rewrite take_app_length. }
    assert (executors r !! m0 = Some None) as Hex by (apply M2; rewrite Hl; set_solver). pose proof (lookup_lt_Some _ _ _ Hex) as Hlt.
    rewrite Hl in M3. apply NoDup_app in M3 as (N1 & N2 & _). split; cbn.
    + intros q' y m' [(<- & <- & _)|[Hne Hy]]%list_lookup_insert_Some Hm'.
      * cbn in Hm'. injection Hm' as <-. split; [done|]. by apply list_lookup_insert_eq.
      * destruct (M1 q' y m' Hy Hm') as [H1 H2]. split; [done|]. rewrite list_lookup_insert_ne; [done|]. intros ->. congruence.
    + intros m'. rewrite Ht. intros Hp. rewrite list_lookup_insert_ne; [apply M2; rewrite Hl; set_solver|]. intros ->. apply (N2 m' Hp). set_solver.
    + by rewrite Ht.
  - split; cbn; [|intros m' Hp; rewrite lookup_app_l; [by apply M2|by eapply lookup_lt_Some, M2]|done].
    intros q' y m' [(<- & <- & _)|[Hne Hy]]%list_lookup_insert_Some Hm'.
    + cbn in Hm'. injection Hm' as <-. split; [done|]. by apply list_lookup_middle.
    + destruct (M1 q' y m' Hy Hm') as [H1 H2]. split; [done|]. rewrite lookup_app_l; [done|by eapply lookup_lt_Some].
Qed.

Lemma reg_step_managers o r r' : managers_ok r -> reg_step o r = Some r' -> managers_ok r'.
Proof.
  intros M. destruct o as [d'|d' h b|q|d'|q| ]; cbn [reg_step].
  - intros [= <-]. unfold get_device_queue. destruct (get_kds_device_nolock _ d' r) as [[sl q] r1] eqn:E. by eapply managers_map, managers_kds.
  - intros [= <-]. unfold get_hwctx_queue. destruct (lock _ r) as [q0|]; [by apply managers_map, managers_retain|]. destruct b.
    + by apply managers_map, (managers_new (qds d' h)).
    + destruct (get_kds_device_nolock _ d' r) as [[sl q] r1] eqn:E. by eapply managers_map, managers_kds.
  - intros Hr. by eapply managers_release.
  - intros [= <-]. by apply managers_map.
  - destruct (queues r !! q) as [x|] eqn:Hx; [|done]. cbn. unfold managed_start. rewrite Hx. cbn.
    destruct (Nat.eqb_spec (refs x) 0) as [|Hr]; [done|]. destruct (kind x); [|done].
    destruct (get_cmd_manager q r) as [[m r1]|] eqn:E; [|done]. intros [= <-]. by eapply managers_get.
  - intros [= <-]. destruct M as [M1 M2 M3]. split; [exact M1|intros m Hm; by apply elem_of_nil in Hm|apply NoDup_nil_2].
Qed.

(** * Properties *)

(** As long as a device is not taken out of the registry there is at most one live
    [kds_device] for it, whatever queues are asked for, shared, released and asked for
    again; while it lives, asking for the queue of the device returns that
    queue, and so does asking for that of a new context without a queue of the shim. *)
Theorem one_kds_device d l r q :
  Forall (keeps d) l -> run_ops l empty_registry = Some r -> live r q (kds d) ->
  (forall q', live r q' (kds d) -> q' = q) /\ (get_device_queue d r).1 = q /\
  (forall h, slot (Some h) (default ∅ (dev2hwc r !! d)) = None -> (get_hwctx_queue d h false r).1 = q).
Proof.
  intros Hl Hr Hq. assert (sentinel d r) as S.
  { eapply (run_ops_ind (sentinel d) (keeps d)); [|exact Hl| |exact Hr]; [intros; by eapply reg_step_sentinel|].
    intros q' (x & Hx & _). cbn in Hx. by rewrite lookup_nil in Hx. }
  pose proof (S q Hq) as Hs. destruct Hq as (x & Hx & Hrx & Hk).
  assert (forall sl, slot None sl = Some q -> get_kds_device_nolock sl d r = (sl, q, retain q r)) as Hg.
  { intros sl E. unfold get_kds_device_nolock, lock. rewrite E. cbn. rewrite Hx. cbn. by destruct (Nat.eqb_spec (refs x) 0). }
  split_and!.
  - intros q' Hq'. specialize (S q' Hq'). congruence.
  - unfold get_device_queue. by rewrite (Hg _ Hs).
  - intros h Hh. unfold get_hwctx_queue. rewrite Hh. cbn [lock mbind option_bind]. by rewrite (Hg _ Hs).
Qed.

(** Two contexts of a device share its queue, which is released and made again. *)
Definition share_ops : list op := [GetHwctx 7 1 false; ManagedStart 0; GetHwctx 7 2 false; Release 0; Release 0; GetDevice 7; GetHwctx 7 2 false; GetDevice 8].
Definition shared_registry : registry := default empty_registry (run_ops share_ops empty_registry).

Lemma one_kds_device_witness :
  run_ops share_ops empty_registry = Some shared_registry /\ live shared_registry 1 (kds 7) /\ (get_device_queue 7 shared_registry).1 = 1%nat.
Proof.
  assert (run_ops share_ops empty_registry = Some shared_registry) as H1 by (vm_compute; reflexivity).
  assert (live shared_registry 1 (kds 7)) as H2 by (eexists; split_and!; [vm_compute; reflexivity|done|reflexivity]).
  split_and!; [exact H1|exact H2|]. apply (one_kds_device 7 share_ops shared_registry 1); [repeat constructor|exact H1|exact H2].
Defined.

(** A command manager, with its monitor thread, serves one queue at a time: no two
    queues have the same manager, a manager works for the queue that has it, which is
    alive, and no manager in the pool is in use or there twice. *)
Theorem managers_exclusive l r :
  run_ops l empty_registry = Some r ->
  (forall q q' x x' m, queues r !! q = Some x -> queues r !! q' = Some x' -> m_cmd_manager x = Some m -> m_cmd_manager x' = Some m -> q = q') /\
  (forall q x m, queues r !! q = Some x -> m_cmd_manager x = Some m ->
     refs x <> 0%nat /\ executors r !! m = Some (Some q) /\ m ∉ pool r) /\
  NoDup (pool r) /\ (forall m, m ∈ pool r -> executors r !! m = Some None).
Proof.
  intros Hr. assert (managers_ok r) as [M1 M2 M3].
  { eapply (run_ops_ind managers_ok (fun _ => True)); [|by apply Forall_true| |exact Hr]; [intros; by eapply reg_step_managers|].
    split; [intros q x m Hx; cbn in Hx; by rewrite lookup_nil in Hx|intros m Hm; by apply elem_of_nil in Hm|apply NoDup_nil_2]. }
  split_and!; [| |done|done].
  - intros q q' x x' m H1 H2 E1 E2. destruct (M1 q x m H1 E1) as [_ F1], (M1 q' x' m H2 E2) as [_ F2]. congruence.
  - intros q x m H1 E1. destruct (M1 q x m H1 E1) as [F1 F2]. split_and!; try done. intros Hp%M2. congruence.
Qed.

Lemma managers_exclusive_witness : pool shared_registry = [0%nat] /\ executors shared_registry !! 0%nat = Some None.
Proof.
  split; [vm_compute; reflexivity|].
  destruct (managers_exclusive share_ops shared_registry) as (_ & _ & _ & H); [vm_compute; reflexivity|]. apply H. vm_compute. left.
Defined.
