(* ===== verification/XrtBoDriver.v ===== *)
(** Buffers of the driver, [core/pcie/driver/linux/xocl]: their memory, the calls that
    create, sync and copy them ([userpf/xocl_bo.c]) and the memory to memory engine
    ([subdev/m2m.c]).

    A buffer has host pages, device memory, or both.  Sizes and offsets are 64-bit
    unsigned.  An access outside the memory of a buffer is [bad_read] or [bad_write].
    The handles are those of one device, which has channels for DMA; a buffer that
    another device exported is an imported one.  The allocator of the kernel for device
    addresses, the topology of the loaded xclbin and the slots of hardware contexts are
    parameters of the creation. *)

From S2P Require Import Prelude Bytes CppStd.

(** * Buffers of the driver *)

(** Host pages and device memory ([XOCL_BO_NORMAL], [XOCL_BO_USERPTR]); one memory that
    both see ([XOCL_BO_CMA], [XOCL_BO_P2P]); device memory; host pages of a command;
    pages of another device. *)
Inductive gem_kind := Normal | Coherent | DevOnly | ExecBuf | Imported.

#[export] Instance gem_kind_eq_dec : EqDecision gem_kind.
Proof. solve_decision. Defined.

(** The buffer has an address in the memory of the device ([mm_node]). *)
Definition local (k : gem_kind) : bool := match k with ExecBuf | Imported => false | _ => true end.

(** [drm_xocl_bo]: kind, size in whole pages, physical address, host pages, device
    memory, and the flags it was created with. *)
Record gem := Gem {
  g_kind : gem_kind;
  g_size : Z;
  g_paddr : Z;
  g_host : list Z;
  g_dev : list Z;
  g_flags : Z;
}.

Abbreviation store := (list gem).
Abbreviation BO := (M store exn).

Definition set_host (m : list Z) (g : gem) : gem := Gem (g_kind g) (g_size g) (g_paddr g) m (g_dev g) (g_flags g).
Definition set_dev (m : list Z) (g : gem) : gem := Gem (g_kind g) (g_size g) (g_paddr g) (g_host g) m (g_flags g).

(** The memory that the device copies from and to. *)
Definition dev_mem (g : gem) : list Z := match g_kind g with Coherent | Imported => g_host g | _ => g_dev g end.
Definition set_dev_mem (m : list Z) (g : gem) : gem := match g_kind g with Coherent | Imported => set_host m g | _ => set_dev m g end.

Definition slice (m : list Z) (off sz : Z) : list Z := bytes_at m (Z.to_nat off) (Z.to_nat sz).
Definition blit (off : Z) (bs m : list Z) : list Z := put_bytes (Z.to_nat off) bs m.
Definition fits (off sz : Z) (m : list Z) : bool := off + sz <=? Z.of_nat (length m).

Definition get_gem (h : nat) : BO gem := fun s => match s !! h with Some g => Ok g s | None => Err bad_read s end.
Definition put_gem (h : nat) (g : gem) : BO unit := modify <[h := g]>.

Inductive direction := to_device | from_device.

Definition EINVAL : Z := 22.
Definition EOPNOTSUPP : Z := 95.
Definition EADDRNOTAVAIL : Z := 99.

(** [xocl_sync_bo_ioctl]: 0 or a negative error number. *)
Definition xocl_sync_bo_ioctl (h : nat) (dir : direction) (size offset : Z) : BO Z :=
  g <- get_gem h ;;
  match g_kind g with
  | DevOnly | ExecBuf | Imported => ret (- EOPNOTSUPP)
  | Coherent => ret 0
  | Normal =>
      if g_size g <? u64 (offset + size) then ret (- EINVAL) else
      match dir with
      | to_device =>
          if fits offset size (g_host g) && fits offset size (g_dev g)
          then put_gem h (set_dev (blit offset (slice (g_host g) offset size) (g_dev g)) g) ;;; ret 0 else raise bad_read
      | from_device =>
          if fits offset size (g_host g) && fits offset size (g_dev g)
          then put_gem h (set_host (blit offset (slice (g_dev g) offset size) (g_host g)) g) ;;; ret 0 else raise bad_write
      end
  end.

(** [get_bo_paddr]: the physical address of a byte, or an error number. *)
Definition get_bo_paddr (h : nat) (off size : Z) : BO (Z + Z) :=
  g <- get_gem h ;;
  if negb (local (g_kind g)) then ret (inl (- EADDRNOTAVAIL)) else
  if (g_size g <=? off) || (g_size g <? u64 (off + size)) then ret (inl (- EINVAL)) else ret (inr (u64 (g_paddr g + off))).

Definition KDMA_BLOCK_SIZE : Z := 64.

(** Bytes of the memory of [src] are copied to that of [dst]. *)
Definition device_copy (dst src : nat) (dst_off src_off size : Z) : BO unit :=
  gs <- get_gem src ;;
  if negb (fits src_off size (dev_mem gs)) then raise bad_read else
  gd <- get_gem dst ;;
  if negb (fits dst_off size (dev_mem gd)) then raise bad_write else
  put_gem dst (set_dev_mem (blit dst_off (slice (dev_mem gs) src_off size) (dev_mem gd)) gd).

(** [copy_bo] of the memory to memory engine, whose size has 32 bits; the bytes are
    those at the two addresses. *)
Definition m2m_copy_bo (dst src : nat) (dst_off src_off dst_paddr src_paddr size : Z) : BO Z :=
  let size := u32 size in
  if negb (dst_paddr mod KDMA_BLOCK_SIZE =? 0) || negb (src_paddr mod KDMA_BLOCK_SIZE =? 0) || negb (size mod KDMA_BLOCK_SIZE =? 0)
  then ret (- EINVAL) else
  device_copy dst src dst_off src_off size ;;; ret 0.

(** A copy between a buffer of this device and one of another, whose size is that of
    a command, with 32 bits. *)
Definition xocl_copy_import_bo (dst src : nat) (size dst_off src_off : Z) : BO Z :=
  let cp_size := u32 size in
  gd <- get_gem dst ;;
  gs <- get_gem src ;;
  if (g_size gs <? u64 (src_off + cp_size)) || (g_size gd <? u64 (dst_off + cp_size)) then ret (- EINVAL) else
  if Bool.eqb (bool_decide (g_kind gs = Imported)) (bool_decide (g_kind gd = Imported)) then ret (- EINVAL) else
  if negb (local (if bool_decide (g_kind gs = Imported) then g_kind gd else g_kind gs)) then ret (- EINVAL) else
  device_copy dst src dst_off src_off cp_size ;;; ret 0.

Definition xocl_copy_bo_ioctl (dst src : nat) (size dst_off src_off : Z) : BO Z :=
  rs <- get_bo_paddr src src_off size ;;
  match rs with
  | inl e => if negb (e =? - EADDRNOTAVAIL) then ret e else
      rd <- get_bo_paddr dst dst_off size ;;
      match rd with
      | inl e' => if negb (e' =? - EADDRNOTAVAIL) then ret e' else ret (- EINVAL)
      | inr _ => xocl_copy_import_bo dst src size dst_off src_off
      end
  | inr src_paddr =>
      rd <- get_bo_paddr dst dst_off size ;;
      match rd with
      | inl e' => if negb (e' =? - EADDRNOTAVAIL) then ret e' else xocl_copy_import_bo dst src size dst_off src_off
      | inr dst_paddr => m2m_copy_bo dst src dst_off src_off dst_paddr src_paddr size
      end
  end.

(** * Creation *)

Definition XRT_BO_FLAGS_MEMIDX_MASK : Z := 0xFFFFFF.
Definition XCL_BO_FLAGS_CACHEABLE : Z := 2 ^ 24.
Definition XCL_BO_FLAGS_KERNBUF : Z := 2 ^ 25.
Definition XCL_BO_FLAGS_SVM : Z := 2 ^ 27.
Definition XCL_BO_FLAGS_DEV_ONLY : Z := 2 ^ 28.
Definition XCL_BO_FLAGS_HOST_ONLY : Z := 2 ^ 29.
Definition XCL_BO_FLAGS_P2P : Z := 2 ^ 30.
Definition XCL_BO_FLAGS_EXECBUF : Z := 2 ^ 31.

(** The fields of [xcl_bo_flags]. *)
Definition bank (x : Z) : Z := get_bits 0 16 x.
Definition slot (x : Z) : Z := get_bits 16 8 x.

(** [flags] with the bank and the slot of [grp]. *)
Definition with_group (flags grp : Z) : Z := set_bits 16 8 (slot grp) (set_bits 0 16 (bank grp) flags).

(** The type of a buffer: the flags without the memory index. *)
Definition bo_type (flags : Z) : Z := Z.land (u32 flags) (Z.lxor (2 ^ 32 - 1) XRT_BO_FLAGS_MEMIDX_MASK).

(** The classes of buffers of the driver. *)
Inductive bo_class := XOCL_BO_NORMAL | XOCL_BO_USERPTR | XOCL_BO_P2P | XOCL_BO_DEV_ONLY | XOCL_BO_IMPORT | XOCL_BO_EXECBUF | XOCL_BO_CMA.

#[export] Instance bo_class_eq_dec : EqDecision bo_class.
Proof. solve_decision. Defined.

Definition class_kind (c : bo_class) : gem_kind :=
  match c with
  | XOCL_BO_NORMAL | XOCL_BO_USERPTR => Normal
  | XOCL_BO_P2P | XOCL_BO_CMA => Coherent
  | XOCL_BO_DEV_ONLY => DevOnly
  | XOCL_BO_IMPORT => Imported
  | XOCL_BO_EXECBUF => ExecBuf
  end.

(** [xocl_bo_ddr_idx], [xocl_bo_slot_idx], [xocl_bo_set_slot_idx]. *)
Definition xocl_bo_ddr_idx (user_flags : Z) : Z := bank (Z.land user_flags XRT_BO_FLAGS_MEMIDX_MASK).
Definition xocl_bo_slot_idx (user_flags : Z) : Z := slot (Z.land user_flags XRT_BO_FLAGS_MEMIDX_MASK).
Definition xocl_bo_set_slot_idx (user_flags slot_id : Z) : Z := set_bits 16 8 slot_id (Z.land user_flags XRT_BO_FLAGS_MEMIDX_MASK).

Definition xocl_bo_type (user_flags : Z) : bo_class :=
  let type := bo_type user_flags in
  if type =? XCL_BO_FLAGS_EXECBUF then XOCL_BO_EXECBUF else
  if type =? XCL_BO_FLAGS_P2P then XOCL_BO_P2P else
  if type =? XCL_BO_FLAGS_DEV_ONLY then XOCL_BO_DEV_ONLY else
  if type =? XCL_BO_FLAGS_CACHEABLE then XOCL_BO_NORMAL else
  if type =? XCL_BO_FLAGS_HOST_ONLY then XOCL_BO_CMA else XOCL_BO_NORMAL.

(** An entry of the group topology. *)
Record bank_data := BankData { m_ps_kernel : bool; m_streaming : bool; m_used : bool }.

Definition PAGE_SIZE : Z := 4096.
Definition PAGE_ALIGN (n : Z) : Z := Z.land (u64 (n + (PAGE_SIZE - 1))) (Z.lxor (2 ^ 64 - 1) (PAGE_SIZE - 1)).
Definition INVALID_BO_PADDR : Z := 2 ^ 64 - 1.

Section create.
(** The topology of a slot, or an error number, or none; whether the platform has one
    topology for all of its memory, or a number of channels; the slot of a hardware context; the bank of host memory, negative if there is none;
    the allocator of addresses, from a bank, a slot and a size; the contents of
    new pages. *)
Context (topology : Z -> Z + option (list bank_data)) (unified : bool) (channels : Z) (slot_of_ctx : Z -> Z) (cma_bank_idx : Z).
Context (mm_insert_node : Z -> Z -> Z -> store -> Z + Z) (new_pages : Z -> list Z).

(** [XOCL_DDR_COUNT]. *)
Definition ddr_count (slot_id : Z) : Z :=
  if unified then match topology slot_id with inr (Some topo) => Z.of_nat (length topo) | _ => 0 end else channels.

Definition check_bo_user_reqs (flags : Z) (type : bo_class) : BO Z :=
  let ddr := xocl_bo_ddr_idx flags in
  let slot_id := xocl_bo_slot_idx flags in
  if bool_decide (type ∈ [XOCL_BO_EXECBUF; XOCL_BO_IMPORT; XOCL_BO_CMA]) then ret 0 else
  let count :=
    if (ddr_count slot_id =? 0) || (ddr_count slot_id <=? ddr) then ret (- EINVAL) else ret 0 in
  match topology slot_id with
  | inl err => ret err
  | inr None => count
  | inr (Some topo) =>
      match topo !! Z.to_nat ddr with
      | None => raise bad_read
      | Some m => if m_ps_kernel m then ret 0 else if m_streaming m then ret (- EINVAL) else if negb (m_used m) then ret (- EINVAL) else count
      end
  end.

Definition xocl_create_bo (unaligned_size user_flags : Z) (type : bo_class) : BO (Z + gem) :=
  let size := PAGE_ALIGN unaligned_size in
  let memidx := xocl_bo_ddr_idx user_flags in
  if size =? 0 then ret (inl (- EINVAL)) else
  err <- check_bo_user_reqs user_flags type ;;
  if negb (err =? 0) then ret (inl (- EINVAL)) else
  if bool_decide (type = XOCL_BO_CMA) && (cma_bank_idx <? 0) then ret (inl (- EINVAL)) else
  let memidx := if bool_decide (type = XOCL_BO_CMA) then cma_bank_idx else memidx in
  if (memidx =? cma_bank_idx) && bool_decide (type ∈ [XOCL_BO_USERPTR; XOCL_BO_IMPORT; XOCL_BO_P2P]) then ret (inl (- EINVAL)) else
  let flags := if memidx =? cma_bank_idx then XOCL_BO_CMA else type in
  let make paddr :=
    inr (Gem (class_kind flags) size paddr
           (if bool_decide (class_kind flags = DevOnly) then [] else new_pages size)
           (if bool_decide (class_kind flags ∈ [Normal; DevOnly]) then new_pages size else []) user_flags) in
  if negb (local (class_kind flags)) then ret (make INVALID_BO_PADDR) else
  s <- gets id ;;
  match mm_insert_node memidx (xocl_bo_slot_idx user_flags) size s with
  | inl err => ret (inl err)
  | inr start => ret (make start)
  end.

(** [__xocl_create_bo_ioctl], with pages for the buffer. *)
Definition xocl_create_bo_ioctl (size flags : Z) : BO (Z + gem) :=
  let type := xocl_bo_type flags in
  if bool_decide (type = XOCL_BO_EXECBUF) then xocl_create_bo size flags type else
  let slot_id := slot_of_ctx (xocl_bo_slot_idx flags) in
  if slot_id <? 0 then ret (inl slot_id) else
  xocl_create_bo size (xocl_bo_set_slot_idx flags slot_id) type.

(** The memory of the caller is pinned. *)
Definition xocl_userptr_bo_ioctl (addr size flags : Z) : BO (Z + gem) :=
  if negb (addr mod PAGE_SIZE =? 0) then ret (inl (- EINVAL)) else
  let slot_id := slot_of_ctx (xocl_bo_slot_idx flags) in
  if slot_id <? 0 then ret (inl slot_id) else
  xocl_create_bo size (xocl_bo_set_slot_idx flags slot_id) XOCL_BO_USERPTR.
End create.
