(* ===== verification/XrtBo.v ===== *)
(** Buffer objects, [core/common/api/xrt_bo.cpp], over the handles of the PCIe shim
    ([core/pcie/linux/shim.cpp]): the classes of [bo_impl] with their sub-buffers,
    reading, writing, syncing, copying and allocating.

    A host pointer is a byte of the host pages of a buffer of the driver.  All buffers
    are of one device, which is not software emulation.  The engine behind an
    [ERT_START_COPYBO] command is a parameter, and a platform without DMA has the
    memory to memory engine, as the source says. *)

From S2P Require Import Prelude Bytes CppStd XrtBoDriver.

(** * Handles of the shim

    [buffer_object] discards the error number. *)

Definition handle_sync (h : nat) (dir : direction) (size offset : Z) : BO unit := _ <- xocl_sync_bo_ioctl h dir size offset ;; ret tt.
Definition handle_copy (dst src : nat) (size dst_off src_off : Z) : BO unit := _ <- xocl_copy_bo_ioctl dst src size dst_off src_off ;; ret tt.

(** * Buffer objects *)

(** The classes of [bo_impl] with their members: the handle, the size; an imported
    buffer may have no host mapping; a buffer without DMA has a host and a
    device buffer; a sub-buffer has its parent and offset. *)
Inductive buffer :=
| buffer_ubuf (h : nat) (size : Z)
| buffer_hbuf (h : nat) (size : Z)
| buffer_kbuf (h : nat) (size : Z)
| buffer_import (h : nat) (size : Z) (mapped : bool)
| buffer_dbuf (h : nat) (size : Z)
| buffer_nodma (host device : nat) (size : Z)
| buffer_clone (h : nat) (size : Z)
| buffer_sub (parent : buffer) (size offset : Z).

Definition get_size (b : buffer) : Z :=
  match b with
  | buffer_ubuf _ n | buffer_hbuf _ n | buffer_kbuf _ n | buffer_import _ n _ | buffer_dbuf _ n | buffer_nodma _ _ n | buffer_clone _ n | buffer_sub _ n _ => n
  end.

Fixpoint get_handle (b : buffer) : nat :=
  match b with
  | buffer_ubuf h _ | buffer_hbuf h _ | buffer_kbuf h _ | buffer_import h _ _ | buffer_dbuf h _ | buffer_nodma _ h _ | buffer_clone h _ => h
  | buffer_sub p _ _ => get_handle p
  end.

Definition get_offset (b : buffer) : Z := match b with buffer_sub _ _ off => off | _ => 0 end.

Fixpoint get_allocation (b : buffer) : buffer := match b with buffer_sub p _ _ => get_allocation p | _ => b end.

Fixpoint get_address (b : buffer) : BO Z :=
  match b with
  | buffer_sub p _ off => a <- get_address p ;; ret (u64 (a + off))
  | _ => g <- get_gem (get_handle b) ;; ret (g_paddr g)
  end.

(** A host pointer: a byte of the host pages of a buffer, or so many bytes from
    the null pointer. *)
Inductive pointer := Host (h : nat) (off : Z) | Null (off : Z).

Definition advance (n : Z) (p : pointer) : pointer := match p with Host h off => Host h (off + n) | Null off => Null (off + n) end.

Fixpoint get_hbuf (b : buffer) : BO pointer :=
  match b with
  | buffer_ubuf h _ | buffer_hbuf h _ | buffer_kbuf h _ => ret (Host h 0)
  | buffer_import h _ mapped => if mapped then ret (Host h 0) else raise (xrt_error "No host memory for imported buffer")
  | buffer_dbuf _ _ => raise (xrt_error "device only buffer has no host buffer")
  | buffer_nodma h _ _ => ret (Host h 0)
  | buffer_clone _ _ => ret (Null 0)
  | buffer_sub p _ off => q <- get_hbuf p ;; ret (advance off q)
  end.

Definition is_null (p : pointer) : bool := match p with Null 0 => true | _ => false end.

Definition get_hbuf_or_error (b : buffer) : BO pointer :=
  p <- get_hbuf b ;; if is_null p then raise (xrt_error "buffer is not mapped") else ret p.

(** ** Host memory *)

Definition load (p : pointer) (sz : Z) : BO (list Z) :=
  match p with
  | Null _ => raise bad_read
  | Host h off => g <- get_gem h ;; if fits off sz (g_host g) then ret (slice (g_host g) off sz) else raise bad_read
  end.

Definition save (p : pointer) (bs : list Z) : BO unit :=
  match p with
  | Null _ => raise bad_write
  | Host h off =>
      g <- get_gem h ;;
      if fits off (Z.of_nat (length bs)) (g_host g) then put_gem h (set_host (blit off bs (g_host g)) g) else raise bad_write
  end.

(** [memcpy], undefined when the ranges overlap. *)
Definition overlap (p q : pointer) (sz : Z) : bool :=
  match p, q with
  | Host h off, Host h' off' => (h =? h')%nat && (off <? off' + sz) && (off' <? off + sz)
  | _, _ => false
  end.

Definition memcpy (dst src : pointer) (sz : Z) : BO unit :=
  if overlap dst src sz then raise bad_write else bs <- load src sz ;; save dst bs.

(** ** Read and write *)

(** [skip > size || sz > size - skip]. *)
Definition past (size skip sz : Z) : bool := (size <? skip) || (size - skip <? sz).

Definition write (b : buffer) (src : list Z) (seek : Z) : BO unit :=
  let sz := Z.of_nat (length src) in
  if past (get_size b) seek sz then raise (xrt_error "attempting to write past buffer size") else
  match b with
  | buffer_dbuf h _ =>
      g <- get_gem h ;;
      if fits seek sz (dev_mem g) then put_gem h (set_dev_mem (blit seek src (dev_mem g)) g) else raise bad_write
  | _ => p <- get_hbuf_or_error b ;; save (advance seek p) src
  end.

Definition read (b : buffer) (sz skip : Z) : BO (list Z) :=
  if past (get_size b) skip sz then raise (xrt_error "attempting to read past buffer size") else
  match b with
  | buffer_dbuf h _ => g <- get_gem h ;; if fits skip sz (dev_mem g) then ret (slice (dev_mem g) skip sz) else raise bad_read
  | _ => p <- get_hbuf_or_error b ;; load (advance skip p) sz
  end.

(** ** Sync *)

Fixpoint sync (b : buffer) (dir : direction) (sz offset : Z) : BO unit :=
  match b with
  | buffer_nodma hh hd size =>
      match dir with
      | to_device => handle_copy hd hh size offset offset
      | from_device => handle_copy hh hd sz offset offset
      end
  | buffer_sub p _ m_offset =>
      if (get_size p <? offset) || (get_size p - offset <? m_offset) then raise (xrt_error "Invalid offset and size when syncing sub buffer") else
      let off := offset + m_offset in
      if get_size p - off <? sz then raise (xrt_error "Invalid offset and size when syncing sub buffer") else
      sync p dir sz off
  | _ => handle_sync (get_handle b) dir sz offset
  end.

(** ** Copy *)

Section copy.
(** The device has a memory to memory engine; copying by a command is configured,
    and its effect ([None]: it throws). *)
Context (m2m cdma : bool) (kdma : nat -> nat -> Z -> Z -> Z -> store -> option store).

Definition copy_through_host (b src : buffer) (sz src_offset dst_offset : Z) : BO unit :=
  p <- get_hbuf src ;;
  if is_null p then raise (xrt_error "No host side buffer in source buffer") else
  q <- get_hbuf b ;;
  if is_null q then raise (xrt_error "No host side buffer in destination buffer") else
  sync src from_device sz src_offset ;;;
  memcpy (advance dst_offset q) (advance src_offset p) sz ;;;
  sync b to_device sz dst_offset.

Definition copy_base (b src : buffer) (sz src_offset dst_offset : Z) : BO unit :=
  if sz =? 0 then raise (xrt_error "size must be a positive number") else
  if past (get_size b) dst_offset sz then raise (xrt_error "copying past destination buffer size") else
  if past (get_size src) src_offset sz then raise (xrt_error "copying past source buffer size") else
  if m2m then handle_copy (get_handle b) (get_handle src) sz dst_offset src_offset else
  s <- gets id ;;
  match (if cdma then kdma (get_handle b) (get_handle src) sz dst_offset src_offset s else None) with
  | Some s' => modify (fun _ => s')
  | None => copy_through_host b src sz src_offset dst_offset
  end.

Definition copy (b src : buffer) (sz src_offset dst_offset : Z) : BO unit :=
  match b with
  | buffer_nodma hh hd _ =>
      copy_base b src sz src_offset dst_offset ;;; handle_copy hh hd sz dst_offset dst_offset
  | _ => copy_base b src sz src_offset dst_offset
  end.
End copy.

(** * Allocation *)

(** [get_bo_properties] of a buffer that was not imported: the driver returns the flags
    it stored. *)
Definition get_group_id (b : buffer) : BO Z := g <- get_gem (get_handle b) ;; ret (bank (g_flags g)).
Definition get_flags (b : buffer) : BO Z := g <- get_gem (get_handle b) ;; ret (bo_type (g_flags g)).

Section alloc.
(** The parameters of the driver, platforms without DMA, the alignment of host
    memory, whether a bank is in host memory. *)
Context (topology : Z -> Z + option (list bank_data)) (unified : bool) (channels : Z) (slot_of_ctx : Z -> Z) (cma_bank_idx : Z).
Context (mm_insert_node : Z -> Z -> Z -> store -> Z + Z) (new_pages : Z -> list Z).
Context (nodma : bool) (alignment : Z) (host_bank : Z -> bool).

(** A handle of the shim for a buffer that the driver has made. *)
Definition new_handle (msg : string) (r : Z + gem) : BO nat :=
  match r with
  | inl _ => raise (xrt_error msg)
  | inr g => h <- gets (@length gem) ;; modify (fun s => s ++ [g]) ;;; ret h
  end.

Definition xclAllocBO (size flags : Z) : BO nat :=
  r <- xocl_create_bo_ioctl topology unified channels slot_of_ctx cma_bank_idx mm_insert_node new_pages size flags ;;
  new_handle "failed to allocate bo" r.

Definition xclAllocUserPtrBO (userptr size flags : Z) : BO nat :=
  r <- xocl_userptr_bo_ioctl topology unified channels slot_of_ctx cma_bank_idx mm_insert_node new_pages userptr size flags ;;
  new_handle "failed to allocate userptr bo" r.

(** [alloc_bo] without and with memory of the caller; the shim takes the low 32 bits
    of the flags. *)
Definition alloc_bo (sz flags grp : Z) : BO nat := xclAllocBO sz (u32 (with_group flags grp)).
Definition alloc_user_bo (userptr sz flags grp : Z) : BO nat := xclAllocUserPtrBO userptr sz (u32 (with_group flags grp)).

Definition alloc_kbuf (sz flags grp : Z) : BO buffer := h <- alloc_bo sz flags grp ;; ret (buffer_kbuf h sz).

(** [userptr]: the address of the memory of the caller, 0 for the null pointer. *)
Definition alloc_ubuf (userptr sz flags grp : Z) : BO buffer :=
  if nodma then raise (xrt_error "userptr is not supported for NoDMA platforms") else
  if negb (negb (userptr =? 0) && (userptr mod alignment =? 0)) then raise (xrt_error "userptr is not aligned") else
  h <- alloc_user_bo userptr sz flags grp ;; ret (buffer_ubuf h sz).

(** [hbuf]: the address of memory from [aligned_alloc]. *)
Definition alloc_hbuf (hbuf sz flags grp : Z) : BO buffer := h <- alloc_user_bo hbuf sz flags grp ;; ret (buffer_hbuf h sz).

Definition alloc_dbuf (sz grp : Z) : BO buffer := h <- alloc_bo sz XCL_BO_FLAGS_DEV_ONLY grp ;; ret (buffer_dbuf h sz).

Definition alloc_nodma (sz grp : Z) : BO buffer :=
  if negb (sz mod 64 =? 0) then raise (xrt_error "Invalid buffer size, must be multiple of 64 bytes for NoDMA platforms") else
  hh <- alloc_bo sz XCL_BO_FLAGS_HOST_ONLY grp ;;
  hd <- alloc_bo sz XCL_BO_FLAGS_DEV_ONLY grp ;;
  ret (buffer_nodma hh hd sz).

Definition alloc (hbuf sz flags grp : Z) : BO buffer :=
  let type := bo_type flags in
  if type =? 0 then (if nodma then alloc_nodma sz grp else alloc_hbuf hbuf sz flags grp) else
  if bool_decide (type ∈ [XCL_BO_FLAGS_CACHEABLE; XCL_BO_FLAGS_KERNBUF; XCL_BO_FLAGS_SVM; XCL_BO_FLAGS_HOST_ONLY; XCL_BO_FLAGS_P2P; XCL_BO_FLAGS_EXECBUF])
  then alloc_kbuf sz flags grp else
  if type =? XCL_BO_FLAGS_DEV_ONLY then alloc_dbuf sz grp else
  raise (runtime_error "Unknown buffer type").

Definition alloc_sub (parent : buffer) (size offset : Z) : BO buffer :=
  _ <- get_hbuf parent ;;
  if past (get_size parent) offset size then raise (xrt_error "sub buffer size and offset") else
  ret (buffer_sub parent size offset).

(** The clone of a buffer in another bank, with its contents. *)
Definition alloc_clone (m2m cdma : bool) (kdma : nat -> nat -> Z -> Z -> Z -> store -> option store) (src : buffer) (grp : Z) : BO buffer :=
  flags <- get_flags src ;;
  h <- alloc_bo (get_size src) flags grp ;;
  let clone := buffer_clone h (get_size src) in
  copy_base m2m cdma kdma clone src (get_size src) 0 0 ;;;
  ret clone.

(** The default flags of a platform without DMA depend on the bank. *)
Definition adjust_buffer_flags (flags grp : Z) : Z :=
  if negb (flags =? 0) then flags else
  if negb nodma then flags else
  if host_bank (bank grp) then XCL_BO_FLAGS_HOST_ONLY else flags.
End alloc.
