(* ===== verification/XrtBoSpec.v ===== *)
(** Buffer objects as windows of their allocation: the invariant of buffers and of
    the memory of the driver, and what reading, writing and syncing do to it. *)

From S2P Require Import Prelude Bytes CppStd XrtBoDriver XrtBo.

(** * Well-formed memory and buffers *)

Record gem_ok (g : gem) : Prop := {
  go_size : 0 <= g_size g < 2 ^ 64;
  go_paddr : 0 <= g_paddr g < 2 ^ 64;
  go_local : local (g_kind g) = true -> g_paddr g + g_size g < 2 ^ 64 /\ g_paddr g mod KDMA_BLOCK_SIZE = 0;
  go_host : g_kind g <> DevOnly -> Z.of_nat (length (g_host g)) = g_size g;
  go_dev : g_kind g ∈ [Normal; DevOnly] -> Z.of_nat (length (g_dev g)) = g_size g;
}.

Definition store_ok (s : store) : Prop := Forall gem_ok s.

(** The buffer [h] exists, is of one of the kinds, and has at least [n] bytes. *)
Definition holds_gem (s : store) (h : nat) (ks : list gem_kind) (n : Z) : Prop :=
  exists g, s !! h = Some g /\ g_kind g ∈ ks /\ 0 <= n <= g_size g.

Fixpoint buf_ok (s : store) (b : buffer) : Prop :=
  match b with
  | buffer_ubuf h n | buffer_hbuf h n => holds_gem s h [Normal] n
  | buffer_kbuf h n => holds_gem s h [Normal; Coherent; ExecBuf] n
  | buffer_import h n _ => holds_gem s h [Normal; Coherent; ExecBuf; Imported] n
  | buffer_dbuf h n => holds_gem s h [DevOnly; Coherent] n
  | buffer_clone h n => holds_gem s h [Normal; Coherent; DevOnly; ExecBuf] n
  | buffer_nodma hh hd n => holds_gem s hh [Coherent] n /\ holds_gem s hd [DevOnly; Coherent] n
  | buffer_sub p n off => buf_ok s p /\ 0 <= n /\ 0 <= off /\ off + n <= get_size p
  end.

Lemma in_kinds (k k' : gem_kind) (ks : list gem_kind) : k ∈ ks -> bool_decide (k' ∈ ks) = false -> k <> k'.
Proof. intros Hk Hb ->. by apply bool_decide_eq_false in Hb. Qed.

(** The offset of a buffer in its allocation. *)
Fixpoint base (b : buffer) : Z := match b with buffer_sub p _ off => base p + off | _ => 0 end.

Lemma base_fits s b : buf_ok s b -> 0 <= base b /\ 0 <= get_size b /\ base b + get_size b <= get_size (get_allocation b).
Proof.
  induction b as [h n|h n|h n|h n m|h n|hh hd n|h n|p IH n off]; cbn [buf_ok base get_size get_allocation]; try (intros (g & _ & _ & H); lia).
  - intros [(g & _ & _ & H) _]. lia.
  - intros (Hp & Hn & Ho & Hle). specialize (IH Hp). cbn. lia.
Qed.

Lemma allocation_idem b : get_allocation (get_allocation b) = get_allocation b.
Proof. by induction b. Qed.

Lemma allocation_ok s b : buf_ok s b -> buf_ok s (get_allocation b).
Proof. induction b; cbn; try done. intros (Hp & _). by apply IHb. Qed.

Lemma allocation_handle b : get_handle (get_allocation b) = get_handle b.
Proof. by induction b. Qed.

Lemma allocation_gem s b : buf_ok s b -> exists g, s !! get_handle b = Some g /\ get_size (get_allocation b) <= g_size g.
Proof.
  induction b as [h n|h n|h n|h n m|h n|hh hd n|h n|p IH n off]; cbn [buf_ok get_handle get_allocation get_size];
    try (intros (g & Hg & _ & H); exists g; split; [done|lia]).
  - intros [_ (g & Hg & _ & H)]. exists g. split; [done|lia].
  - intros (Hp & _). by apply IH.
Qed.

(** The host memory of a buffer. *)
Fixpoint host_handle (b : buffer) : option nat :=
  match b with
  | buffer_ubuf h _ | buffer_hbuf h _ | buffer_kbuf h _ | buffer_import h _ true | buffer_nodma h _ _ => Some h
  | buffer_import _ _ false | buffer_dbuf _ _ | buffer_clone _ _ => None
  | buffer_sub p _ _ => host_handle p
  end.

Lemma hbuf_hosted b h s : host_handle b = Some h -> get_hbuf b s = Ok (Host h (base b)) s.
Proof.
  induction b as [| | |h' n []| | | |p IH n off]; cbn [host_handle get_hbuf base]; try done; try (by intros [= ->]).
  intros Hh. unfold bind. by rewrite (IH Hh).
Qed.

Lemma host_gem s b h : buf_ok s b -> host_handle b = Some h ->
  exists g, s !! h = Some g /\ g_kind g <> DevOnly /\ get_size (get_allocation b) <= g_size g.
Proof.
  induction b as [h' n|h' n|h' n|h' n []|h' n|hh hd n|h' n|p IH n off]; cbn [buf_ok host_handle get_allocation get_size]; try done.
  1-4: intros (g & Hg & Hk & H) [= ->]; exists g; split_and!; [done|by apply (in_kinds _ _ _ Hk)|lia].
  - intros [(g & Hg & Hk & H) _] [= ->]. exists g. split_and!; [done|by apply (in_kinds _ _ _ Hk)|lia].
  - intros (Hp & _). by apply IH.
Qed.

(** * Addresses *)

Lemma gem_at s h g : store_ok s -> s !! h = Some g -> gem_ok g.
Proof. intros Hs Hg. by apply (Forall_lookup_1 _ _ _ _ Hs Hg). Qed.

Lemma address_base s b g :
  store_ok s -> buf_ok s b -> s !! get_handle b = Some g ->
  get_address b s = Ok (u64 (g_paddr g + base b)) s /\ (local (g_kind g) = true -> u64 (g_paddr g + base b) = g_paddr g + base b).
Proof.
  intros Hs Hb Hg. destruct (allocation_gem s b Hb) as (g' & Hg' & Hsz). assert (g' = g) as -> by congruence.
  destruct (gem_at s _ g Hs Hg) as [G1 G2 G3 _ _]. pose proof (base_fits s b Hb) as Hf.
  split; [|intros Hl; apply u64_small; specialize (G3 Hl); lia]. clear Hf Hg' Hsz G3.
  induction b as [| | | | | | |p IH n off]; cbn [get_address base get_handle] in *; unfold bind, get_gem, ret.
  1-7: rewrite Hg, Z.add_0_r, u64_small; [done|lia].
  destruct Hb as (Hp & _). rewrite (IH Hp Hg). f_equal. unfold u64. rewrite Zplus_mod_idemp_l. f_equal. lia.
Qed.

(** * Reading and writing *)

Definition upd (h : nat) (f : gem -> gem) (s : store) : store := alter f h s.
Definition host_write (off : Z) (bs : list Z) (g : gem) : gem := set_host (blit off bs (g_host g)) g.
Definition dev_write (off : Z) (bs : list Z) (g : gem) : gem := set_dev_mem (blit off bs (dev_mem g)) g.

Lemma put_gem_upd (h : nat) (f : gem -> gem) (s : store) g : s !! h = Some g -> <[h := f g]> s = upd h f s.
Proof.
  intros Hg. unfold upd. apply list_eq. intros i. destruct (decide (i = h)) as [->|Hne].
  - rewrite list_lookup_insert_eq by by eapply lookup_lt_Some. by rewrite list_lookup_alter_eq, Hg.
  - by rewrite list_lookup_insert_ne, list_lookup_alter_ne by done.
Qed.

Lemma past_false size skip sz : past size skip sz = false <-> skip <= size /\ skip + sz <= size.
Proof. unfold past. rewrite orb_false_iff, !Z.ltb_ge. lia. Qed.

Lemma past_true size skip sz : 0 <= sz -> past size skip sz = true <-> size < skip + sz \/ size < skip.
Proof. intros Hs. unfold past. rewrite orb_true_iff, !Z.ltb_lt. lia. Qed.

Lemma match_not_dbuf {A} b (f : nat -> Z -> A) (x : A) :
  (forall h n, b <> buffer_dbuf h n) -> match b with buffer_dbuf h n => f h n | _ => x end = x.
Proof. intros Hn. destruct b; try done. by destruct (Hn h size). Qed.

Section access.
Context (s : store) (b : buffer) (h : nat).
Hypotheses (Hs : store_ok s) (Hb : buf_ok s b) (Hh : host_handle b = Some h).

Lemma access_gem off sz :
  0 <= off -> off + sz <= get_size b -> exists g, s !! h = Some g /\ fits (base b + off) sz (g_host g) = true.
Proof.
  intros Ho Hsz. destruct (host_gem s b h Hb Hh) as (g & Hg & Hk & Hsize). exists g. split; [done|].
  pose proof (go_host _ (gem_at s h g Hs Hg)) as Hl. pose proof (base_fits s b Hb). unfold fits. apply Z.leb_le. rewrite (Hl Hk). lia.
Qed.

Lemma hbuf_or_error : get_hbuf_or_error b s = Ok (Host h (base b)) s.
Proof. unfold get_hbuf_or_error, bind. by rewrite (hbuf_hosted b h s Hh). Qed.

Lemma not_dbuf : forall h' n, b <> buffer_dbuf h' n.
Proof. intros h' n ->. done. Qed.

Lemma write_hosted src seek :
  0 <= seek -> seek + Z.of_nat (length src) <= get_size b ->
  write b src seek s = Ok tt (upd h (host_write (base b + seek) src) s).
Proof.
  intros H1 H2. unfold write. assert (past (get_size b) seek (Z.of_nat (length src)) = false) as -> by (apply past_false; lia).
  destruct (access_gem seek (Z.of_nat (length src)) H1 H2) as (g & Hg & Hf).
  assert ((p <- get_hbuf_or_error b ;; save (advance seek p) src) s = Ok tt (upd h (host_write (base b + seek) src) s)) as H.
  { unfold bind. rewrite hbuf_or_error. cbn [advance save]. unfold bind, get_gem. rewrite Hg, Hf. unfold put_gem, modify.
    by rewrite <- (put_gem_upd h (host_write (base b + seek) src) s g Hg). }
  rewrite <- H. refine (f_equal (fun m : BO _ => m s) _). apply (match_not_dbuf b), not_dbuf.
Qed.

Lemma read_hosted sz skip g :
  0 <= skip -> 0 <= sz -> skip + sz <= get_size b -> s !! h = Some g ->
  read b sz skip s = Ok (slice (g_host g) (base b + skip) sz) s.
Proof.
  intros H1 H2 H3 Hg. unfold read. assert (past (get_size b) skip sz = false) as -> by (apply past_false; lia).
  destruct (access_gem skip sz H1 H3) as (g' & Hg' & Hf). assert (g' = g) as -> by congruence.
  assert ((p <- get_hbuf_or_error b ;; load (advance skip p) sz) s = Ok (slice (g_host g) (base b + skip) sz) s) as H.
  { unfold bind. rewrite hbuf_or_error. cbn [advance load]. unfold bind, get_gem. by rewrite Hg, Hf. }
  rewrite <- H. refine (f_equal (fun m : BO _ => m s) _). apply (match_not_dbuf b), not_dbuf.
Qed.
End access.

(** * Syncing *)

(** Sync through a sub-buffer is sync of the allocation. *)
Lemma sync_base s b dir sz off :
  buf_ok s b -> 0 <= sz -> 0 <= off ->
  (match b with buffer_sub p _ m_offset => off + m_offset + sz <= get_size p | _ => True end) ->
  sync b dir sz off s = sync (get_allocation b) dir sz (base b + off) s.
Proof.
  revert off. induction b as [| | | | | | |p IH n m_offset]; intros off Hb Hsz Ho Hle; cbn [get_allocation base]; try done.
  destruct Hb as (Hp & Hn & Hm & Hfit). cbn [sync].
  assert ((get_size p <? off) || (get_size p - off <? m_offset) = false) as -> by (rewrite orb_false_iff, !Z.ltb_ge; lia).
  assert ((get_size p - (off + m_offset) <? sz) = false) as -> by (apply Z.ltb_ge; lia).
  rewrite IH; [f_equal; lia|done|done|lia|]. destruct p; try done. cbn [get_size buf_ok] in *. lia.
Qed.

(** Outside of its parent a sub-buffer is not synced. *)
Lemma sync_outside s p n m_offset dir sz off :
  0 <= sz -> 0 <= off -> 0 <= m_offset -> get_size p < off + m_offset + sz ->
  sync (buffer_sub p n m_offset) dir sz off s = Err (xrt_error "Invalid offset and size when syncing sub buffer") s.
Proof.
  intros H1 H2 H3 H4. cbn [sync]. destruct ((get_size p <? off) || (get_size p - off <? m_offset)) eqn:E; [done|].
  rewrite orb_false_iff, !Z.ltb_ge in E. assert ((get_size p - (off + m_offset) <? sz) = true) as -> by (apply Z.ltb_lt; lia). done.
Qed.

(** The range of the memory of [h] is transferred. *)
Definition transfer (dir : direction) (off sz : Z) (g : gem) : gem :=
  match dir with
  | to_device => set_dev (blit off (slice (g_host g) off sz) (g_dev g)) g
  | from_device => set_host (blit off (slice (g_dev g) off sz) (g_host g)) g
  end.

Lemma handle_sync_normal s h g dir sz off :
  store_ok s -> s !! h = Some g -> g_kind g = Normal -> 0 <= sz -> 0 <= off -> off + sz <= g_size g ->
  handle_sync h dir sz off s = Ok tt (upd h (transfer dir off sz) s).
Proof.
  intros Hs Hg Hk H1 H2 H3. destruct (gem_at s h g Hs Hg) as [G1 _ _ G4 G5]. rewrite Hk in G4, G5.
  specialize (G4 ltac:(done)). specialize (G5 ltac:(set_solver)).
  unfold handle_sync, xocl_sync_bo_ioctl, bind, get_gem. rewrite Hg, Hk. rewrite u64_small by lia.
  assert ((g_size g <? off + sz) = false) as -> by (apply Z.ltb_ge; lia).
  assert (fits off sz (g_host g) = true /\ fits off sz (g_dev g) = true) as [F1 F2] by (unfold fits; rewrite !Z.leb_le, G4, G5; lia).
  rewrite F1, F2. cbn [andb]. rewrite <- (put_gem_upd h (transfer dir off sz) s g Hg). by destruct dir.
Qed.

(** * A memory with three buffers *)

Definition example_gem : gem := Gem Normal 8 0 [1; 2; 3; 4; 5; 6; 7; 8] [11; 12; 13; 14; 15; 16; 17; 18] 0.

Definition example_store : store :=
  [example_gem;
   Gem Coherent 128 128 (repeat 21 128) [] 0;
   Gem DevOnly 128 256 [] (repeat 31 128) 0].

Ltac conc_gem := split; vm_compute; intuition (done || discriminate || set_solver).

Lemma example_store_ok : store_ok example_store.
Proof. unfold store_ok, example_store. repeat (apply Forall_cons; split; [conc_gem|]). apply Forall_nil_2. Qed.

(** A sub-buffer of a sub-buffer of the first. *)
Definition example_sub : buffer := buffer_sub (buffer_sub (buffer_hbuf 0 8) 6 1) 4 2.

Lemma example_sub_ok : buf_ok example_store example_sub.
Proof. cbn. split; [|lia]. split; [|lia]. eexists. split; [done|]. split; [set_solver|cbn; lia]. Qed.

Lemma example_root_ok : buf_ok example_store (buffer_hbuf 0 8).
Proof. eexists. split; [done|]. split; [set_solver|cbn; lia]. Qed.

Lemma example_nodma_ok : buf_ok example_store (buffer_nodma 1 2 128).
Proof. split; eexists; (split; [done|]); (split; [set_solver|cbn; lia]). Qed.
