(* ===== verification/XrtBoTheorems.v ===== *)
(** Properties of buffer objects: sub-buffers are windows of their allocation,
    accesses are exact or throw, data written comes back through the device, copies
    through the host copy; and what copies by the engine of the device and syncs
    without DMA do instead. *)

From S2P Require Import Prelude Bytes CppStd XrtBoDriver XrtBo XrtBoSpec.

(** * Windows *)

Lemma base_allocation b : base (get_allocation b) = 0.
Proof. by induction b. Qed.

Lemma host_allocation b : host_handle (get_allocation b) = host_handle b.
Proof. induction b as [| | |h n []| | | |]; done. Qed.

(** C25: A buffer, through any nesting of sub-buffers, is a window of its allocation: it
    lies inside, its device address and its host pointer are those of the allocation
    advanced by the same number of bytes, and writing, reading and syncing a range
    of it is writing, reading and syncing that range of the allocation. *)
Theorem sub_buffer_window s b h :
  store_ok s -> buf_ok s b -> host_handle b = Some h ->
  let a := get_allocation b in let o := base b in
  0 <= o /\ o + get_size b <= get_size a /\
  (exists g, s !! get_handle b = Some g /\ get_address a s = Ok (g_paddr g) s /\ get_address b s = Ok (u64 (g_paddr g + o)) s /\
     (local (g_kind g) = true -> u64 (g_paddr g + o) = g_paddr g + o)) /\
  get_hbuf a s = Ok (Host h 0) s /\ get_hbuf b s = Ok (Host h o) s /\
  (forall src seek, 0 <= seek -> seek + Z.of_nat (length src) <= get_size b -> write b src seek s = write a src (o + seek) s) /\
  (forall sz skip, 0 <= skip -> 0 <= sz -> skip + sz <= get_size b -> read b sz skip s = read a sz (o + skip) s) /\
  (forall dir sz off, 0 <= off -> 0 <= sz -> off + sz <= get_size b -> sync b dir sz off s = sync a dir sz (o + off) s).
Proof.
  intros Hs Hb Hh a o. pose proof (base_fits s b Hb) as Hf. fold a o in Hf.
  assert (buf_ok s a) as Ha by by apply allocation_ok.
  assert (host_handle a = Some h) as Hha by (unfold a; by rewrite host_allocation).
  assert (base a = 0) as Hba by apply base_allocation. split_and!; try lia.
  - destruct (allocation_gem s b Hb) as (g & Hg & _). exists g. destruct (address_base s b g) as [E1 E2]; [done..|]. split_and!; try done.
    rewrite (proj1 (address_base s a g Hs Ha ltac:(unfold a; by rewrite allocation_handle))), Hba, Z.add_0_r, u64_small; [done|].
    apply (go_paddr _ (gem_at s _ g Hs Hg)).
  - by rewrite (hbuf_hosted a h s), Hba.
  - by apply hbuf_hosted.
  - intros src seek H1 H2. rewrite (write_hosted s b h), (write_hosted s a h), Hba, Z.add_0_l by (done || lia). done.
  - intros sz skip H1 H2 H3. destruct (host_gem s b h Hb Hh) as (g & Hg & _).
    rewrite (read_hosted s b h Hs Hb Hh sz skip g), (read_hosted s a h Hs Ha Hha sz (o + skip) g), Hba, Z.add_0_l by (done || lia). done.
  - intros dir sz off H1 H2 H3. apply sync_base; try done. clear -Hb H1 H2 H3. destruct b as [| | | | | | |p n m]; try done.
    cbn [buf_ok get_size] in *. lia.
Qed.

(** * Accesses *)

(** C34: For every 64-bit offset and every size a write to a buffer with host memory
    either changes exactly the bytes asked for, when they lie in the buffer, or throws
    and changes nothing; a read returns exactly these bytes or throws.  In particular
    the checks do not overflow and no access leaves the memory of the buffer. *)
Theorem access_exact s b h g :
  store_ok s -> buf_ok s b -> host_handle b = Some h -> s !! h = Some g ->
  (forall src seek, 0 <= seek < 2 ^ 64 ->
     write b src seek s =
       if seek + Z.of_nat (length src) <=? get_size b
       then Ok tt (upd h (host_write (base b + seek) src) s)
       else Err (xrt_error "attempting to write past buffer size") s) /\
  (forall sz skip, 0 <= skip < 2 ^ 64 -> 0 <= sz < 2 ^ 64 ->
     read b sz skip s =
       if skip + sz <=? get_size b
       then Ok (slice (g_host g) (base b + skip) sz) s
       else Err (xrt_error "attempting to read past buffer size") s).
Proof.
  intros Hs Hb Hh Hg. split.
  - intros src seek Hk. destruct (Z.leb_spec (seek + Z.of_nat (length src)) (get_size b)); [apply (write_hosted s b h); done || lia|].
    unfold write. assert (past (get_size b) seek (Z.of_nat (length src)) = true) as -> by (apply past_true; lia). done.
  - intros sz skip Hk Hz. destruct (Z.leb_spec (skip + sz) (get_size b)); [apply (read_hosted s b h); done || lia|].
    unfold read. assert (past (get_size b) skip sz = true) as -> by (apply past_true; lia). done.
Qed.

(** * Through the device *)

Lemma upd_lookup h f s g : s !! h = Some g -> upd h f s !! h = Some (f g).
Proof. intros Hg. unfold upd. by rewrite list_lookup_alter_eq, Hg. Qed.

Lemma upd_other h h' f s : h' <> h -> upd h f s !! h' = s !! h'.
Proof. intros Hne. unfold upd. by rewrite list_lookup_alter_ne. Qed.

(** Steps that change bytes keep the memory well formed. *)
Record same_gem (g g' : gem) : Prop := {
  sg_kind : g_kind g' = g_kind g;
  sg_size : g_size g' = g_size g;
  sg_paddr : g_paddr g' = g_paddr g;
  sg_flags : g_flags g' = g_flags g;
  sg_host : length (g_host g') = length (g_host g);
  sg_dev : length (g_dev g') = length (g_dev g);
}.

Definition same_shape : store -> store -> Prop := Forall2 same_gem.

#[export] Instance same_gem_preorder : PreOrder same_gem.
Proof. split; [done|]. intros g g' g'' [] []. split; congruence. Qed.

#[export] Instance same_shape_preorder : PreOrder same_shape.
Proof. unfold same_shape. apply _. Qed.

Lemma same_shape_upd h f s : (forall g, same_gem g (f g)) -> same_shape s (upd h f s).
Proof.
  intros Hf. apply Forall2_same_length_lookup. unfold upd. rewrite length_alter. split; [done|]. intros i x y Hx.
  destruct (decide (i = h)) as [->|Hne]; [rewrite list_lookup_alter_eq, Hx|rewrite list_lookup_alter_ne, Hx by done]; intros [= <-]; [apply Hf|done].
Qed.

Lemma same_shape_insert h g g' s : s !! h = Some g -> same_gem g g' -> same_shape s (<[h := g']> s).
Proof.
  intros Hg Hsame. apply Forall2_same_length_lookup. rewrite length_insert. split; [done|]. intros i x y Hx.
  intros [(<- & <- & _)|[_ Hy]]%list_lookup_insert_Some; [|by replace y with x by congruence]. by replace x with g by congruence.
Qed.

Lemma shape_store_ok s s' : same_shape s s' -> store_ok s -> store_ok s'.
Proof.
  intros Hsh Hs. induction Hsh as [|g g' s s' [E1 E2 E3 E4 E5 E6] _ IH]; [done|]. apply Forall_cons in Hs as [[G1 G2 G3 G4 G5] Hs].
  apply Forall_cons. split; [|by apply IH]. split; rewrite ?E1, ?E2, ?E3, ?E5, ?E6; done.
Qed.

Lemma shape_holds s s' h ks n : same_shape s s' -> holds_gem s h ks n -> holds_gem s' h ks n.
Proof.
  intros Hsh (g & Hg & Hk & Hn). destruct (Forall2_lookup_l _ _ _ _ _ Hsh Hg) as (g' & Hg' & [E1 E2 _ _ _ _]). exists g'. by rewrite E1, E2.
Qed.

Lemma shape_buf_ok s s' b : same_shape s s' -> buf_ok s b -> buf_ok s' b.
Proof.
  intros Hsh. induction b; cbn [buf_ok]; try (by apply shape_holds); [|naive_solver].
  intros [H1 H2]. split; by eapply shape_holds.
Qed.

Lemma host_write_same off bs g : same_gem g (host_write off bs g).
Proof. split; try done. cbn. apply length_put_bytes. Qed.

Lemma transfer_same dir off sz g : same_gem g (transfer dir off sz g).
Proof. destruct dir; split; try done; cbn; apply length_put_bytes. Qed.

(** The bytes of a range are those that were put there. *)
Lemma slice_blit off bs m : 0 <= off -> off + Z.of_nat (length bs) <= Z.of_nat (length m) -> slice (blit off bs m) off (Z.of_nat (length bs)) = bs.
Proof. intros H1 H2. unfold slice, blit. rewrite Nat2Z.id. apply bytes_at_put_bytes. lia. Qed.

Lemma length_slice m off sz : 0 <= off -> 0 <= sz -> off + sz <= Z.of_nat (length m) -> length (slice m off sz) = Z.to_nat sz.
Proof. intros H1 H2 H3. apply length_bytes_at. lia. Qed.

Lemma sync_normal s b h g dir sz off :
  store_ok s -> buf_ok s b -> host_handle b = Some h -> get_handle b = h -> s !! h = Some g -> g_kind g = Normal ->
  0 <= off -> 0 <= sz -> off + sz <= get_size b ->
  sync b dir sz off s = Ok tt (upd h (transfer dir (base b + off) sz) s).
Proof.
  intros Hs Hb Hh Hhd Hg Hk H1 H2 H3. pose proof (base_fits s b Hb) as Hf. destruct (allocation_gem s b Hb) as (g' & Hg' & Hsz).
  rewrite Hhd in Hg'. assert (g' = g) as -> by congruence.
  rewrite sync_base; try done; [|clear -Hb H1 H2 H3; destruct b as [| | | | | | |p n m]; try done; cbn [buf_ok get_size] in *; lia].
  assert (sync (get_allocation b) dir sz (base b + off) s = handle_sync h dir sz (base b + off) s) as ->.
  { rewrite <- allocation_handle in Hhd. pose proof (allocation_ok s b Hb) as Ha. rewrite <- host_allocation in Hh. pose proof (allocation_idem b) as Hi.
    clear -Hhd Ha Hh Hi Hg Hk. destruct (get_allocation b) as [h' n|h' n|h' n|h' n m|h' n|hh hd n|h' n|p n m]; cbn in *; try done; subst; try done.
    - destruct Ha as [_ (g' & Hg' & Hk' & _)]. assert (g' = g) as -> by congruence. rewrite Hk in Hk'. by apply in_kinds with (k' := Normal) in Hk'.
    - exfalso. assert (forall q, get_allocation q <> buffer_sub p n m) as Hno; [|by apply (Hno p)]. clear. induction q; cbn; try done. }
  apply (handle_sync_normal s h g); done || lia.
Qed.

(** C35: Data comes back through the device, for a normal buffer, whose host memory and device memory belong to
    one handle: what is written to a range of the buffer and
    synced to the device is read again after the host memory of the range has been
    overwritten and synced from the device, through any nesting of sub-buffers. *)
Theorem sync_roundtrip s b h g src junk seek :
  store_ok s -> buf_ok s b -> host_handle b = Some h -> get_handle b = h -> s !! h = Some g -> g_kind g = Normal ->
  0 <= seek -> seek + Z.of_nat (length src) <= get_size b -> length junk = length src ->
  let sz := Z.of_nat (length src) in
  exists s', (write b src seek ;;; sync b to_device sz seek ;;; write b junk seek ;;; sync b from_device sz seek ;;; read b sz seek) s = Ok src s'.
Proof.
  intros Hs Hb Hh Hhd Hg Hk H1 H2 Hj sz. set (o := base b + seek). pose proof (base_fits s b Hb) as Hf.
  destruct (allocation_gem s b Hb) as (g' & Hg' & Hsz). rewrite Hhd in Hg'. assert (g' = g) as -> by congruence.
  destruct (gem_at s h g Hs Hg) as [_ _ _ Lh Ld]. rewrite Hk in Lh, Ld. specialize (Lh ltac:(done)). specialize (Ld ltac:(set_solver)).
  set (g1 := host_write o src g). set (g2 := transfer to_device o sz g1). set (g3 := host_write o junk g2).
  set (g4 := transfer from_device o sz g3).
  set (s1 := upd h (host_write o src) s). set (s2 := upd h (transfer to_device o sz) s1). set (s3 := upd h (host_write o junk) s2).
  assert (s1 !! h = Some g1 /\ s2 !! h = Some g2 /\ s3 !! h = Some g3) as (E1 & E2 & E3)
    by (split_and!; repeat apply upd_lookup; done).
  assert (same_shape s s1) as P1 by (apply same_shape_upd, host_write_same).
  assert (same_shape s s2) as P2 by (etrans; [exact P1|apply same_shape_upd, transfer_same]).
  assert (same_shape s s3) as P3 by (etrans; [exact P2|apply same_shape_upd, host_write_same]).
  exists (upd h (transfer from_device o sz) s3). set (s4 := upd h (transfer from_device o sz) s3).
  assert (same_shape s s4) as P4 by (etrans; [exact P3|apply same_shape_upd, transfer_same]).
  assert (s4 !! h = Some g4) as E4 by by apply upd_lookup.
  unfold bind. rewrite (write_hosted s b h) by done. fold o s1.
  rewrite (sync_normal s1 b h g1) by (done || by eapply shape_store_ok || by eapply shape_buf_ok || lia). fold o s2.
  rewrite (write_hosted s2 b h) by (done || by eapply shape_store_ok || by eapply shape_buf_ok || lia). fold o s3.
  rewrite (sync_normal s3 b h g3) by (done || by eapply shape_store_ok || by eapply shape_buf_ok || lia). fold o s4.
  rewrite (read_hosted s4 b h) with (g := g4) by (done || by eapply shape_store_ok || by eapply shape_buf_ok || lia). fold o. f_equal.
  unfold g4, transfer, set_host. cbn [g_host]. change (g_dev g3) with (g_dev g2).
  assert (slice (g_dev g2) o sz = src) as E.
  { unfold g2, transfer, set_dev. cbn [g_dev]. change (g_dev g1) with (g_dev g). unfold g1, host_write, set_host. cbn [g_host].
    rewrite (slice_blit o src) by lia. apply slice_blit; lia. }
  rewrite E. apply slice_blit; [lia|]. unfold g3, host_write, set_host. cbn [g_host]. unfold blit. rewrite length_put_bytes.
  change (g_host g2) with (g_host g1). unfold g1, host_write, set_host. cbn [g_host]. unfold blit. rewrite length_put_bytes. lia.
Qed.

(** * Witnesses *)

Lemma sub_buffer_window_witness :
  get_address example_sub example_store = Ok 3 example_store /\
  write example_sub [9; 9] 1 example_store = write (buffer_hbuf 0 8) [9; 9] 4 example_store.
Proof.
  destruct (sub_buffer_window example_store example_sub 0 example_store_ok example_sub_ok eq_refl) as (_ & _ & (g & [= <-] & _ & Ha & _) & _ & _ & Hw & _).
  split; [exact Ha|]. apply (Hw [9; 9] 1); cbn; lia.
Defined.

Lemma access_exact_witness :
  read example_sub 2 1 example_store = Ok [5; 6] example_store /\
  read example_sub 2 (2 ^ 64 - 1) example_store = Err (xrt_error "attempting to read past buffer size") example_store.
Proof.
  destruct (access_exact example_store example_sub 0 _ example_store_ok example_sub_ok eq_refl eq_refl) as [_ Hr].
  split; [apply (Hr 2 1); lia|apply (Hr 2 (2 ^ 64 - 1)); lia].
Defined.

Lemma sync_roundtrip_witness :
  exists s', (write example_sub [9; 8] 1 ;;; sync example_sub to_device 2 1 ;;; write example_sub [0; 0] 1 ;;; sync example_sub from_device 2 1 ;;;
              read example_sub 2 1) example_store = Ok [9; 8] s'.
Proof.
  apply (sync_roundtrip example_store example_sub 0 _ [9; 8] [0; 0] 1 example_store_ok example_sub_ok eq_refl eq_refl eq_refl eq_refl); cbn; done || lia.
Defined.
