(* ===== verification/XrtBoCopy.v ===== *)
(** Copies of buffer objects and syncs outside the common case: the exact effect of
    a copy through the host, of a copy by the engine of the device, of a sync for every
    offset and size, and of a sync without DMA. *)

From S2P Require Import Prelude Bytes CppStd XrtBoDriver XrtBo XrtBoSpec XrtBoTheorems.

(** * Updates of the memory *)

Lemma upd_ext h f f' s : (forall g, s !! h = Some g -> f g = f' g) -> upd h f s = upd h f' s.
Proof.
  intros Hf. unfold upd. apply list_eq. intros i. destruct (decide (i = h)) as [->|Hne].
  - rewrite !list_lookup_alter_eq. destruct (s !! h) as [g|] eqn:E; [|done]. cbn. by rewrite (Hf g).
  - by rewrite !list_lookup_alter_ne.
Qed.

Lemma upd_upd h f f' s : upd h f (upd h f' s) = upd h (f ∘ f') s.
Proof.
  unfold upd. apply list_eq. intros i. destruct (decide (i = h)) as [->|Hne]; [|by rewrite !list_lookup_alter_ne].
  rewrite !list_lookup_alter_eq. by destruct (s !! h).
Qed.

(** Bytes put to the host pages and to the device memory. *)
Definition both_write (off : Z) (bs : list Z) (g : gem) : gem := set_dev (blit off bs (g_dev g)) (host_write off bs g).

Lemma length_blit off bs m : length (blit off bs m) = length m.
Proof. apply length_put_bytes. Qed.

Lemma write_then_transfer off bs g :
  0 <= off -> off + Z.of_nat (length bs) <= Z.of_nat (length (g_host g)) ->
  transfer to_device off (Z.of_nat (length bs)) (host_write off bs g) = both_write off bs g.
Proof. intros H1 H2. unfold transfer, both_write. cbn [g_host host_write set_host]. by rewrite slice_blit. Qed.

Lemma allocation_not_sub b p n m : get_allocation b <> buffer_sub p n m.
Proof. induction b; done. Qed.

(** * Copy through the host *)

(** A buffer with host pages and device memory, and the range of it. *)
Record range (s : store) (b : buffer) (h : nat) (g : gem) (off sz : Z) : Prop := {
  rg_ok : buf_ok s b;
  rg_host : host_handle b = Some h;
  rg_handle : get_handle b = h;
  rg_gem : s !! h = Some g;
  rg_kind : g_kind g = Normal;
  rg_off : 0 <= off;
  rg_in : off + sz <= get_size b;
}.

Lemma range_fits s b h g off sz :
  store_ok s -> range s b h g off sz ->
  0 <= base b /\ base b + off + sz <= Z.of_nat (length (g_host g)) /\ Z.of_nat (length (g_dev g)) = Z.of_nat (length (g_host g)).
Proof.
  intros Hs [Hb Hh Hhd Hg Hk H1 H2]. destruct (gem_at s h g Hs Hg) as [_ _ _ L1 L2]. rewrite Hk in L1, L2.
  specialize (L1 ltac:(done)). specialize (L2 ltac:(set_solver)). destruct (base_fits s b Hb) as (B1 & B2 & B3).
  destruct (allocation_gem s b Hb) as (g' & Hg' & Hsz). rewrite Hhd in Hg'. assert (g' = g) as -> by congruence. lia.
Qed.

Lemma range_sync s b h g off sz dir :
  store_ok s -> range s b h g off sz -> 0 <= sz -> sync b dir sz off s = Ok tt (upd h (transfer dir (base b + off) sz) s).
Proof. intros Hs [] H. by apply (sync_normal s b h g). Qed.

(** A range after bytes have changed. *)
Lemma range_shape s s' b h g off sz :
  same_shape s s' -> range s b h g off sz -> exists g', range s' b h g' off sz /\ s' !! h = Some g'.
Proof.
  intros Hsh [Hb Hh Hhd Hg Hk H1 H2]. destruct (Forall2_lookup_l _ _ _ _ _ Hsh Hg) as (g' & Hg' & E). exists g'. split; [|done].
  split; try done; [by eapply shape_buf_ok|]. by rewrite (sg_kind _ _ E).
Qed.

Lemma transfer_from off sz g : transfer from_device off sz g = host_write off (slice (g_dev g) off sz) g.
Proof. done. Qed.

Section host_copy.
Context (s : store) (b src : buffer) (hb hs : nat) (gb gs : gem) (sz so d : Z).
Hypotheses (Hs : store_ok s) (Rb : range s b hb gb d sz) (Rs : range s src hs gs so sz) (Hsz : 0 < sz).
Let od := base b + d.
Let os := base src + so.
Let data := slice (g_dev gs) os sz.
Hypothesis (Hdis : hb = hs -> od + sz <= os \/ os + sz <= od).

Lemma length_data : Z.of_nat (length data) = sz.
Proof. destruct (range_fits _ _ _ _ _ _ Hs Rs) as (F1 & F2 & F3). destruct Rs. unfold data. rewrite length_slice; lia. Qed.

Lemma copy_through_host_exact :
  copy_through_host b src sz so d s = Ok tt (upd hb (both_write od data) (upd hs (host_write os data) s)).
Proof.
  destruct (range_fits _ _ _ _ _ _ Hs Rb) as (B1 & B2 & B3), (range_fits _ _ _ _ _ _ Hs Rs) as (S1 & S2 & S3).
  assert (0 <= d /\ 0 <= so) as [Hd Hso] by (destruct Rb, Rs; done). pose proof length_data as Hl.
  unfold copy_through_host, bind. rewrite (hbuf_hosted src hs s) by (by destruct Rs). cbn [is_null].
  rewrite (hbuf_hosted b hb s) by (by destruct Rb). cbn [is_null].
  rewrite (range_sync s src hs gs) by (done || lia). fold os. set (s1 := upd hs (transfer from_device os sz) s).
  assert (s1 = upd hs (host_write os data) s) as E1.
  { unfold s1. apply upd_ext. intros g Hg. assert (g = gs) as -> by (destruct Rs; congruence). by rewrite transfer_from. }
  assert (same_shape s s1) as P1 by (apply same_shape_upd, transfer_same).
  assert (store_ok s1) as Hs1 by by eapply shape_store_ok.
  destruct (range_shape s s1 _ _ _ _ _ P1 Rs) as (gs1 & Rs1 & G1), (range_shape s s1 _ _ _ _ _ P1 Rb) as (gb1 & Rb1 & G2).
  destruct (range_fits _ _ _ _ _ _ Hs1 Rs1) as (_ & S2' & _), (range_fits _ _ _ _ _ _ Hs1 Rb1) as (_ & B2' & _).
  assert (slice (g_host gs1) os sz = data) as Hdata.
  { rewrite E1 in G1. rewrite (upd_lookup hs _ s gs) in G1 by by destruct Rs. injection G1 as <-. cbn [host_write set_host g_host].
    rewrite <- Hl. apply slice_blit; lia. }
  assert (memcpy (Host hb od) (Host hs os) sz s1 = Ok tt (upd hb (host_write od data) s1)) as E2.
  { unfold memcpy. assert (overlap (Host hb od) (Host hs os) sz = false) as ->.
    { unfold overlap. destruct (Nat.eqb_spec hb hs) as [E|]; [|done]. specialize (Hdis E). cbn [andb].
      rewrite andb_false_iff, !Z.ltb_ge. lia. }
    unfold bind, load, save, bind, get_gem. rewrite G1.
    assert (fits os sz (g_host gs1) = true) as -> by (apply Z.leb_le; lia).
    unfold ret. rewrite Hdata, Hl, G2. assert (fits od sz (g_host gb1) = true) as -> by (apply Z.leb_le; lia).
    unfold put_gem, modify. by rewrite <- (put_gem_upd hb (host_write od data) s1 gb1 G2). }
  cbn [advance]. fold od os. rewrite E2. set (s2 := upd hb (host_write od data) s1).
  assert (same_shape s1 s2) as P2 by (apply same_shape_upd, host_write_same).
  destruct (range_shape s1 s2 _ _ _ _ _ P2 Rb1) as (gb2 & Rb2 & G3).
  rewrite (range_sync s2 b hb gb2) by (done || lia || by eapply shape_store_ok). fold od. f_equal. unfold s2. rewrite upd_upd, E1.
  apply upd_ext. intros g Hg. rewrite <- E1 in Hg. assert (g = gb1) as -> by congruence. cbn. rewrite <- Hl at 1. apply write_then_transfer; lia.
Qed.
End host_copy.

(** C28: A copy through the host, between disjoint ranges of buffers with host and device
    memory and through any nesting of sub-buffers, has exactly this effect: the device
    data of the source range is in the host memory of the source range and in the
    host and the device memory of the destination range; no other byte of any buffer
    changes. *)
Theorem host_copy_exact cdma kdma s b src hb hs gb gs sz so d :
  store_ok s -> range s b hb gb d sz -> range s src hs gs so sz -> 0 < sz ->
  (hb = hs -> base b + d + sz <= base src + so \/ base src + so + sz <= base b + d) ->
  cdma = false \/ kdma (get_handle b) (get_handle src) sz d so s = None ->
  let data := slice (g_dev gs) (base src + so) sz in
  copy false cdma kdma b src sz so d s = Ok tt (upd hb (both_write (base b + d) data) (upd hs (host_write (base src + so) data) s)) /\
  Z.of_nat (length data) = sz.
Proof.
  intros Hs Rb Rs Hsz Hdis Hk data. split; [|by eapply length_data].
  assert (copy_base false cdma kdma b src sz so d s = copy_through_host b src sz so d s) as E.
  { unfold copy_base. assert ((sz =? 0) = false) as -> by (apply Z.eqb_neq; lia).
    assert (past (get_size b) d sz = false) as -> by (apply past_false; destruct Rb; lia).
    assert (past (get_size src) so sz = false) as -> by (apply past_false; destruct Rs; lia).
    unfold bind, gets, id. destruct cdma; [destruct Hk as [|Hk]; [done|]; by rewrite Hk|done]. }
  rewrite (copy_through_host_exact s b src hb hs gb gs sz so d Hs Rb Rs Hsz Hdis) in E. unfold data. rewrite <- E.
  destruct b; try done. exfalso. destruct Rb as [Hb Hh Hhd Hg Hkind _ _]. cbn in Hb, Hh, Hhd. destruct Hb as [_ (g & Hg' & Hk' & _)].
  assert (device = hb) as -> by done. assert (g = gb) as -> by congruence. rewrite Hkind in Hk'. set_solver.
Qed.

(** * Copy by the engine of the device *)

Lemma get_bo_paddr_ok s h g off sz :
  gem_ok g -> s !! h = Some g -> local (g_kind g) = true -> 0 <= off -> 0 < sz -> off + sz <= g_size g ->
  get_bo_paddr h off sz s = Ok (inr (g_paddr g + off)) s.
Proof.
  intros [G1 G2 G3 _ _] Hg Hl H1 H2 H3. destruct (G3 Hl) as [G4 _]. unfold get_bo_paddr, bind, get_gem. rewrite Hg, Hl. cbn [negb].
  rewrite !u64_small by lia. assert ((g_size g <=? off) || (g_size g <? off + sz) = false) as -> by (rewrite orb_false_iff, Z.leb_gt, Z.ltb_ge; lia).
  done.
Qed.

Lemma dev_mem_length g : gem_ok g -> local (g_kind g) = true -> Z.of_nat (length (dev_mem g)) = g_size g.
Proof.
  intros [_ _ _ L1 L2] Hl. unfold dev_mem. destruct (g_kind g); try done; try (apply L2; set_solver). by apply L1.
Qed.

Lemma u32_le n : 0 <= n -> 0 <= u32 n <= n.
Proof. intros Hn. unfold u32. pose proof (Z.mod_le n (2 ^ 32) Hn). pose proof (Z.mod_pos_bound n (2 ^ 32)). lia. Qed.

Lemma device_copy_ok s dst src gd gs dst_off src_off sz :
  s !! dst = Some gd -> s !! src = Some gs -> fits src_off sz (dev_mem gs) = true -> fits dst_off sz (dev_mem gd) = true ->
  device_copy dst src dst_off src_off sz s = Ok tt (upd dst (dev_write dst_off (slice (dev_mem gs) src_off sz)) s).
Proof.
  intros H1 H2 F1 F2. unfold device_copy, bind, get_gem. rewrite H2, F1. cbn [negb]. rewrite H1, F2. cbn [negb]. unfold put_gem, modify.
  by rewrite <- (put_gem_upd dst (dev_write dst_off (slice (dev_mem gs) src_off sz)) s gd H1).
Qed.

Lemma aligned_sum p n : p mod KDMA_BLOCK_SIZE = 0 -> (p + n) mod KDMA_BLOCK_SIZE = n mod KDMA_BLOCK_SIZE.
Proof. unfold KDMA_BLOCK_SIZE. intros H. rewrite Z.add_mod, H by done. apply Z.mod_mod. done. Qed.

(** The blocks of the engine. *)
Definition aligned (n : Z) : bool := n mod KDMA_BLOCK_SIZE =? 0.

Lemma handle_copy_local s dst src gd gs sz dst_off src_off :
  store_ok s -> s !! dst = Some gd -> s !! src = Some gs -> local (g_kind gd) = true -> local (g_kind gs) = true ->
  0 < sz -> 0 <= dst_off -> 0 <= src_off -> dst_off + sz <= g_size gd -> src_off + sz <= g_size gs ->
  handle_copy dst src sz dst_off src_off s =
    Ok tt (if aligned dst_off && aligned src_off && aligned (u32 sz)
           then upd dst (dev_write dst_off (slice (dev_mem gs) src_off (u32 sz))) s else s).
Proof.
  intros Hs Hd Hsrc Ld Ls H0 H1 H2 H3 H4. pose proof (gem_at _ _ _ Hs Hd) as Gd. pose proof (gem_at _ _ _ Hs Hsrc) as Gs.
  unfold handle_copy, xocl_copy_bo_ioctl, bind. rewrite (get_bo_paddr_ok s src gs), (get_bo_paddr_ok s dst gd) by done.
  unfold m2m_copy_bo. rewrite !aligned_sum by (by apply (go_local _ Gd) || by apply (go_local _ Gs)). fold (aligned dst_off) (aligned src_off) (aligned (u32 sz)).
  pose proof (dev_mem_length gd Gd Ld). pose proof (dev_mem_length gs Gs Ls). pose proof (u32_le sz ltac:(lia)).
  destruct (aligned dst_off), (aligned src_off), (aligned (u32 sz)); cbn [negb orb andb]; try done.
  unfold bind. by rewrite (device_copy_ok s dst src gd gs) by (done || apply Z.leb_le; lia).
Qed.

Lemma in_allocation s b g off sz :
  buf_ok s b -> s !! get_handle b = Some g -> off + sz <= get_size b -> off + sz <= g_size g.
Proof.
  intros Hb Hg H. destruct (allocation_gem s b Hb) as (g' & Hg' & Hsz). assert (g' = g) as -> by congruence. pose proof (base_fits s b Hb). lia.
Qed.

(** On a device with the memory to memory engine a copy between buffers of the
    device never fails.  When the offsets and the size are multiples of 64 it copies the
    size modulo [2 ^ 32] bytes of device memory, at the offsets counted from the start of
    the two allocations, also when the buffers are sub-buffers; otherwise it
    copies nothing. *)
Theorem engine_copy cdma kdma s b src gb gs sz so d :
  store_ok s -> buf_ok s b -> buf_ok s src -> s !! get_handle b = Some gb -> s !! get_handle src = Some gs ->
  local (g_kind gb) = true -> local (g_kind gs) = true ->
  0 < sz -> 0 <= d -> 0 <= so -> d + sz <= get_size b -> so + sz <= get_size src ->
  copy_base true cdma kdma b src sz so d s =
    Ok tt (if aligned d && aligned so && aligned (u32 sz)
           then upd (get_handle b) (dev_write d (slice (dev_mem gs) so (u32 sz))) s else s).
Proof.
  intros Hs Hb Hsrc Gb Gs Lb Ls H0 H1 H2 H3 H4. unfold copy_base. assert ((sz =? 0) = false) as -> by (apply Z.eqb_neq; lia).
  assert (past (get_size b) d sz = false) as -> by (apply past_false; lia).
  assert (past (get_size src) so sz = false) as -> by (apply past_false; lia).
  apply (handle_copy_local s _ _ gb gs); try done; [by apply (in_allocation s b)|by apply (in_allocation s src)].
Qed.

(** * Sync for every offset and size *)

(** C36: Syncing a normal buffer that is not a sub-buffer, for every 64-bit offset and size: a range
    of the buffer of the driver is transferred exactly; a range past its end is not, and the
    call returns as if it had been; and when the sum of offset and size wraps around to a
    small number the check passes and the transfer leaves the memory. *)
Theorem sync_every_range s b h g dir sz off :
  store_ok s -> buf_ok s b -> get_allocation b = b -> host_handle b = Some h -> get_handle b = h -> s !! h = Some g -> g_kind g = Normal ->
  0 <= sz < 2 ^ 64 -> 0 <= off < 2 ^ 64 ->
  sync b dir sz off s =
    if off + sz <=? g_size g then Ok tt (upd h (transfer dir off sz) s)
    else if g_size g <? u64 (off + sz) then Ok tt s
    else Err (match dir with to_device => bad_read | from_device => bad_write end) s.
Proof.
  intros Hs Hb Ha Hh Hhd Hg Hk Hz Ho. destruct (gem_at s h g Hs Hg) as [G1 _ _ G4 G5]. rewrite Hk in G4, G5.
  specialize (G4 ltac:(done)). specialize (G5 ltac:(set_solver)).
  assert (sync b dir sz off s = handle_sync h dir sz off s) as ->.
  { destruct b as [| | | | |hh hd n| |p n m]; cbn in *; try done; subst; try done.
    - exfalso. destruct Hb as [_ (g' & Hg' & Hk' & _)]. assert (g' = g) as -> by congruence. rewrite Hk in Hk'. set_solver.
    - exfalso. by apply (allocation_not_sub p p n m). }
  destruct (Z.leb_spec (off + sz) (g_size g)); [apply (handle_sync_normal s h g); done || lia|].
  unfold handle_sync, xocl_sync_bo_ioctl, bind, get_gem. rewrite Hg, Hk. destruct (g_size g <? u64 (off + sz)); [done|].
  assert (fits off sz (g_host g) = false) as -> by (apply Z.leb_gt; lia). by destruct dir.
Qed.

(** A sub-buffer, however nested, is synced exactly when the range lies in its parent,
    for every 64-bit offset and size and without an overflow; otherwise the call throws
    and changes nothing.  The range may go past the end of the sub-buffer itself. *)
Theorem sub_sync_every_range s p n m h g dir sz off :
  store_ok s -> buf_ok s (buffer_sub p n m) -> host_handle p = Some h -> get_handle p = h -> s !! h = Some g -> g_kind g = Normal ->
  0 <= sz < 2 ^ 64 -> 0 <= off < 2 ^ 64 ->
  sync (buffer_sub p n m) dir sz off s =
    if m + off + sz <=? get_size p then Ok tt (upd h (transfer dir (base p + (m + off)) sz) s)
    else Err (xrt_error "Invalid offset and size when syncing sub buffer") s.
Proof.
  intros Hs (Hp & Hn & Hm & Hfit) Hh Hhd Hg Hk Hz Ho. destruct (Z.leb_spec (m + off + sz) (get_size p)); [|apply sync_outside; lia].
  cbn [sync]. assert ((get_size p <? off) || (get_size p - off <? m) = false) as -> by (rewrite orb_false_iff, !Z.ltb_ge; lia).
  assert ((get_size p - (off + m) <? sz) = false) as -> by (apply Z.ltb_ge; lia).
  rewrite (Z.add_comm off m). apply (sync_normal s p h g); done || lia.
Qed.

(** * Sync without DMA *)

Lemma handle_copy_outside s dst src gs sz dst_off src_off :
  store_ok s -> s !! src = Some gs -> local (g_kind gs) = true -> 0 <= src_off -> 0 <= sz -> src_off + sz < 2 ^ 64 ->
  g_size gs <= src_off \/ g_size gs < src_off + sz -> handle_copy dst src sz dst_off src_off s = Ok tt s.
Proof.
  intros Hs Hsrc Ls H1 H2 H3 H4. unfold handle_copy, xocl_copy_bo_ioctl, bind, get_bo_paddr, bind, get_gem. rewrite Hsrc, Ls, u64_small by lia. cbn [negb].
  assert ((g_size gs <=? src_off) || (g_size gs <? src_off + sz) = true) as -> by (rewrite orb_true_iff, Z.leb_le, Z.ltb_lt; lia). done.
Qed.

(** On a platform without DMA, for a buffer that fills its allocations: a sync from
    the device of a part of it, in blocks of the engine, copies exactly that part; a sync to
    the device of a part copies the whole buffer when the part starts at 0, and nothing
    otherwise, and returns as if it had. *)
Theorem nodma_sync s hh hd n gh gd sz off :
  store_ok s -> buf_ok s (buffer_nodma hh hd n) -> s !! hh = Some gh -> s !! hd = Some gd -> g_size gh = n -> g_size gd = n ->
  0 < sz -> 0 <= off -> off + sz <= n -> n < 2 ^ 32 -> aligned n = true -> aligned sz = true -> aligned off = true ->
  sync (buffer_nodma hh hd n) from_device sz off s = Ok tt (upd hh (host_write off (slice (dev_mem gd) off sz)) s) /\
  sync (buffer_nodma hh hd n) to_device sz off s = Ok tt (if off =? 0 then upd hd (dev_write 0 (g_host gh)) s else s).
Proof.
  intros Hs [(g1 & Hg1 & Hk1 & _) (g2 & Hg2 & Hk2 & _)] Hgh Hgd Sh Sd H0 H1 H2 H3 A1 A2 A3.
  assert (g1 = gh) as -> by congruence. assert (g2 = gd) as -> by congruence.
  assert (g_kind gh = Coherent) as Kh by set_solver.
  assert (local (g_kind gd) = true) as Kd by (destruct (g_kind gd); done || set_solver). clear Hk1 Hk2. cbn [sync]. split.
  - rewrite (handle_copy_local s hh hd gh gd) by (done || (by rewrite Kh) || lia). rewrite (u32_small sz), A2, A3 by lia. cbn [andb].
    f_equal. apply upd_ext. intros g Hg. assert (g = gh) as -> by congruence. unfold dev_write, host_write, set_dev_mem. rewrite Kh. do 2 f_equal. unfold dev_mem. by rewrite Kh.
  - destruct (Z.eqb_spec off 0) as [->|Hne]; [|apply (handle_copy_outside s hd hh gh); done || (rewrite Kh; done) || lia].
    rewrite (handle_copy_local s hd hh gd gh) by (done || (by rewrite Kh) || lia). rewrite (u32_small n), A1 by lia. cbn [andb aligned].
    f_equal. apply upd_ext. intros g Hg. assert (g = gd) as -> by congruence. unfold dev_mem. rewrite Kh. f_equal.
    pose proof (go_host _ (gem_at _ _ _ Hs Hgh) ltac:(by rewrite Kh)). unfold slice, bytes_at. rewrite drop_0, take_ge; [done|lia].
Qed.

(** * Witnesses *)

Lemma example_range b off sz :
  buf_ok example_store b -> host_handle b = Some 0%nat -> get_handle b = 0%nat -> 0 <= off -> off + sz <= get_size b ->
  range example_store b 0 example_gem off sz.
Proof. intros. by split. Qed.

Lemma host_copy_exact_witness :
  exists s, copy false false (fun _ _ _ _ _ _ => None) (buffer_hbuf 0 8) example_sub 2 1 0 example_store = Ok tt s /\
    s !! 0%nat = Some (Gem Normal 8 0 [15; 16; 3; 4; 15; 16; 7; 8] [15; 16; 13; 14; 15; 16; 17; 18] 0).
Proof.
  destruct (host_copy_exact false (fun _ _ _ _ _ _ => None) example_store (buffer_hbuf 0 8) example_sub 0 0 _ _ 2 1 0 example_store_ok
    (example_range (buffer_hbuf 0 8) 0 2 example_root_ok eq_refl eq_refl ltac:(lia) ltac:(cbn; lia))
    (example_range example_sub 1 2 example_sub_ok eq_refl eq_refl ltac:(lia) ltac:(cbn; lia)) ltac:(lia) ltac:(cbn; lia) ltac:(by left)) as [H _].
  eexists. split; [exact H|reflexivity].
Defined.

(** Copying from a sub-buffer at 64 copies the first bytes of the allocation. *)
Lemma engine_copy_witness :
  copy_base true false (fun _ _ _ _ _ _ => None) (buffer_dbuf 2 128) (buffer_sub (buffer_kbuf 1 128) 64 64) 64 0 64 example_store =
    Ok tt (upd 2 (dev_write 64 (slice (repeat 21 128) 0 64)) example_store).
Proof.
  apply (engine_copy false (fun _ _ _ _ _ _ => None) example_store (buffer_dbuf 2 128) (buffer_sub (buffer_kbuf 1 128) 64 64)
    (Gem DevOnly 128 256 [] (repeat 31 128) 0) (Gem Coherent 128 128 (repeat 21 128) [] 0) 64 0 64 example_store_ok);
    try (reflexivity || lia || (cbn; lia)).
  - eexists. split; [reflexivity|]. split; [set_solver|cbn; lia].
  - split; [|cbn; lia]. eexists. split; [reflexivity|]. split; [set_solver|cbn; lia].
Defined.

Lemma sync_every_range_witness :
  sync (buffer_hbuf 0 8) to_device 4 6 example_store = Ok tt example_store /\
  sync (buffer_hbuf 0 8) to_device 8 (2 ^ 64 - 4) example_store = Err bad_read example_store.
Proof.
  split.
  - apply (sync_every_range example_store (buffer_hbuf 0 8) 0 example_gem to_device 4 6 example_store_ok example_root_ok); reflexivity || lia.
  - apply (sync_every_range example_store (buffer_hbuf 0 8) 0 example_gem to_device 8 (2 ^ 64 - 4) example_store_ok example_root_ok); reflexivity || lia.
Defined.

Lemma sub_sync_every_range_witness :
  sync example_sub to_device 8 (2 ^ 64 - 4) example_store = Err (xrt_error "Invalid offset and size when syncing sub buffer") example_store.
Proof.
  apply (sub_sync_every_range example_store (buffer_sub (buffer_hbuf 0 8) 6 1) 4 2 0 example_gem to_device 8 (2 ^ 64 - 4) example_store_ok example_sub_ok); reflexivity || lia.
Defined.

Lemma nodma_sync_witness :
  sync (buffer_nodma 1 2 128) from_device 64 64 example_store = Ok tt (upd 1 (host_write 64 (slice (repeat 31 128) 64 64)) example_store) /\
  sync (buffer_nodma 1 2 128) to_device 64 64 example_store = Ok tt example_store.
Proof.
  apply (nodma_sync example_store 1 2 128 (Gem Coherent 128 128 (repeat 21 128) [] 0) (Gem DevOnly 128 256 [] (repeat 31 128) 0) 64 64 example_store_ok example_nodma_ok); reflexivity || lia.
Defined.
