(* ===== verification/XrtBoLife.v ===== *)
(** Allocation of buffer objects: what the driver keeps of the flags and the memory group; and
    the buffers of a process from the first allocation on: the invariant over every sequence of
    calls, what an allocation returns, and what a clone is. *)

From S2P Require Import Prelude Bytes CppStd XrtBoDriver XrtBo XrtBoSpec XrtBoTheorems.

(** * Flags *)

Lemma testbit_bo_type x i : 0 <= i -> Z.testbit (bo_type x) i = (24 <=? i) && (i <? 32) && Z.testbit x i.
Proof.
  intros Hi. unfold bo_type, u32. change (Z.lxor (2 ^ 32 - 1) XRT_BO_FLAGS_MEMIDX_MASK) with (Z.shiftl (Z.ones 8) 24).
  rewrite Z.land_spec, Z.shiftl_spec, Z.testbit_mod_pow2 by lia. rewrite <- andb_assoc, (andb_comm (Z.testbit x i)), andb_assoc, (andb_comm (i <? 32)).
  f_equal. destruct (Z.leb_spec 24 i).
  - rewrite testbit_ones by lia. rewrite andb_true_l. destruct (Z.ltb_spec (i - 24) 8), (Z.ltb_spec i 32); done || lia.
  - rewrite Z.testbit_neg_r by lia. done.
Qed.

Lemma bo_type_ext x y : (forall i, 24 <= i < 32 -> Z.testbit x i = Z.testbit y i) -> bo_type x = bo_type y.
Proof.
  intros H. apply Z.bits_inj'. intros i Hi. rewrite !testbit_bo_type by done.
  destruct (Z.leb_spec 24 i), (Z.ltb_spec i 32); try done. cbn [andb]. apply H. lia.
Qed.

Lemma bo_type_group flags grp : bo_type (u32 (with_group flags grp)) = bo_type flags.
Proof.
  apply bo_type_ext. intros i Hi. unfold u32, with_group. rewrite testbit_mod, !testbit_set_bits by lia.
  rewrite (proj2 (Z.ltb_lt i 32)), (proj2 (Z.ltb_ge i (16 + 8))), (proj2 (Z.ltb_ge i (0 + 16))) by lia. by rewrite !andb_false_r.
Qed.

(** The driver puts the slot in flags that have lost their type. *)
Lemma bo_type_slot flags slot_id : bo_type (xocl_bo_set_slot_idx flags slot_id) = 0.
Proof.
  apply (bo_type_ext _ 0). intros i Hi. unfold xocl_bo_set_slot_idx. rewrite testbit_set_bits, Z.land_spec by lia.
  rewrite (proj2 (Z.ltb_ge i (16 + 8))), andb_false_r by lia. change XRT_BO_FLAGS_MEMIDX_MASK with (Z.ones 24).
  rewrite testbit_ones, Z.testbit_0_l by lia. rewrite (proj2 (Z.ltb_ge i 24)) by lia. apply andb_false_r.
Qed.

Lemma bank_ext x y : (forall i, 0 <= i < 16 -> Z.testbit x i = Z.testbit y i) -> bank x = bank y.
Proof.
  intros H. apply Z.bits_inj'. intros i Hi. unfold bank. rewrite !testbit_get_bits by lia.
  destruct (Z.ltb_spec i 16); [|done]. cbn [andb]. apply H. lia.
Qed.

Lemma bank_mask flags : bank (Z.land flags XRT_BO_FLAGS_MEMIDX_MASK) = bank flags.
Proof.
  apply bank_ext. intros i Hi. change XRT_BO_FLAGS_MEMIDX_MASK with (Z.ones 24). rewrite Z.land_spec, testbit_ones by lia.
  rewrite (proj2 (Z.ltb_lt i 24)) by lia. apply andb_true_r.
Qed.

Lemma bank_slot flags slot_id : bank (xocl_bo_set_slot_idx flags slot_id) = bank flags.
Proof.
  rewrite <- (bank_mask flags). apply bank_ext. intros i Hi. unfold xocl_bo_set_slot_idx. rewrite testbit_set_bits by lia.
  rewrite (proj2 (Z.leb_gt 16 i)) by lia. done.
Qed.

Lemma bank_group flags grp : bank (u32 (with_group flags grp)) = bank grp.
Proof.
  apply bank_ext. intros i Hi. unfold u32, with_group. rewrite testbit_mod, !testbit_set_bits by lia.
  rewrite (proj2 (Z.ltb_lt i 32)), (proj2 (Z.leb_gt 16 i)), (proj2 (Z.leb_le 0 i)), (proj2 (Z.ltb_lt i (0 + 16))) by lia. cbn [andb].
  unfold bank. rewrite testbit_get_bits by lia. rewrite (proj2 (Z.ltb_lt (i - 0) 16)) by lia. cbn [andb]. f_equal. lia.
Qed.

(** * Pages *)

Lemma page_align_eq n : PAGE_ALIGN n = u64 (n + (PAGE_SIZE - 1)) / PAGE_SIZE * PAGE_SIZE.
Proof.
  unfold PAGE_ALIGN. pose proof (u64_range (n + (PAGE_SIZE - 1))) as Hr. set (x := u64 _) in *.
  change PAGE_SIZE with (2 ^ 12). rewrite <- Z.shiftr_div_pow2, <- Z.shiftl_mul_pow2, <- Z.ldiff_ones_r by lia.
  apply Z.bits_inj'. intros i Hi. change (Z.lxor (2 ^ 64 - 1) (2 ^ 12 - 1)) with (Z.ldiff (Z.ones 64) (Z.ones 12)).
  rewrite Z.land_spec, !Z.ldiff_spec, !testbit_ones by lia. destruct (Z.ltb_spec i 64); [done|].
  rewrite (testbit_high x 64) by lia. done.
Qed.

Lemma page_align_spec n : 0 <= n < 2 ^ 64 -> PAGE_ALIGN n <> 0 -> n <= PAGE_ALIGN n < 2 ^ 64.
Proof.
  intros Hn. rewrite page_align_eq. pose proof (u64_range (n + (PAGE_SIZE - 1))) as Hr.
  pose proof (Z.div_mod (u64 (n + (PAGE_SIZE - 1))) PAGE_SIZE ltac:(done)). pose proof (Z.mod_pos_bound (u64 (n + (PAGE_SIZE - 1))) PAGE_SIZE ltac:(done)).
  destruct (Z.lt_ge_cases (n + (PAGE_SIZE - 1)) (2 ^ 64)) as [Hlt|Hge].
  - rewrite u64_small in * by (unfold PAGE_SIZE in *; lia). unfold PAGE_SIZE in *. lia.
  - intros Hne. exfalso. apply Hne. unfold u64. rewrite (Z.mod_eq _ (2 ^ 64)) by done.
    assert ((n + (PAGE_SIZE - 1)) / 2 ^ 64 = 1) as -> by (symmetry; apply (Z.div_unique_pos _ _ _ (n + (PAGE_SIZE - 1) - 2 ^ 64)); unfold PAGE_SIZE in *; lia).
    rewrite Z.div_small; [done|unfold PAGE_SIZE in *; lia].
Qed.

(** * All calls keep the memory well formed *)

(** Buffers of the driver stay, with their size, class and flags. *)
Definition extends (s s' : store) : Prop := forall h g, s !! h = Some g -> exists g', s' !! h = Some g' /\ same_gem g g'.

#[export] Instance extends_preorder : PreOrder extends.
Proof.
  split; [by intros s h g Hg; exists g|]. intros s s' s'' H1 H2 h g Hg. destruct (H1 h g Hg) as (g' & Hg' & E1).
  destruct (H2 h g' Hg') as (g'' & Hg'' & E2). exists g''. split; [done|]. by etrans.
Qed.

Lemma extends_holds s s' h ks n : extends s s' -> holds_gem s h ks n -> holds_gem s' h ks n.
Proof. intros He (g & Hg & Hk & Hn). destruct (He h g Hg) as (g' & Hg' & [E1 E2 _ _ _ _]). exists g'. by rewrite E1, E2. Qed.

Lemma extends_buf_ok s s' b : extends s s' -> buf_ok s b -> buf_ok s' b.
Proof.
  intros He. induction b; cbn [buf_ok]; try (by apply extends_holds); [|naive_solver].
  intros [H1 H2]. split; by eapply extends_holds.
Qed.

Lemma extends_shape s s' : same_shape s s' -> extends s s'.
Proof. intros Hsh h g Hg. by apply (Forall2_lookup_l _ _ _ _ _ Hsh Hg). Qed.

Lemma extends_app s g : extends s (s ++ [g]).
Proof. intros h g' Hg. exists g'. split; [|done]. by apply lookup_app_l_Some. Qed.

(** The memory is well formed and has all buffers of [s0]. *)
Definition from (s0 s : store) : Prop := store_ok s /\ extends s0 s.

Definition keeps_store {A} (m : BO A) : Prop := forall s0 s, from s0 s -> wp m (fun _ => from s0) (fun _ => from s0) s.

Lemma from_shape s0 s s' : from s0 s -> same_shape s s' -> from s0 s'.
Proof. intros [Hs He] Hsh. split; [by eapply shape_store_ok|]. etrans; [done|]. by apply extends_shape. Qed.

Lemma from_insert s0 s h g g' : from s0 s -> s !! h = Some g -> same_gem g g' -> from s0 (<[h := g']> s).
Proof. intros Hf Hg Hsame. apply (from_shape s0 s); [done|]. by eapply same_shape_insert. Qed.

Lemma wp_get_gem {A} h (k : gem -> BO A) Q R s :
  (forall g, s !! h = Some g -> wp (k g) Q R s) -> (forall e, R e s) -> wp (bind (get_gem h) k) Q R s.
Proof. intros Hk Hr. unfold wp, bind, get_gem. destruct (s !! h) as [g|] eqn:E; [apply (Hk g eq_refl)|apply Hr]. Qed.

Lemma bo_keeps_ret {A} (a : A) : keeps_store (ret a).
Proof. intros s0 s Hf. by apply wp_ret. Qed.

Lemma bo_keeps_raise {A} e : keeps_store (A := A) (raise e).
Proof. intros s0 s Hf. by apply wp_raise. Qed.

Lemma bo_keeps_bind {A B} (m : BO A) (k : A -> BO B) : keeps_store m -> (forall a, keeps_store (k a)) -> keeps_store (bind m k).
Proof. intros Hm Hk s0 s Hf. apply wp_bind. eapply wp_mono; [by apply Hm| |done]. intros a s' Hf'. by apply Hk. Qed.

Lemma bo_keeps_if {A} (b : bool) (m1 m2 : BO A) : keeps_store m1 -> keeps_store m2 -> keeps_store (if b then m1 else m2).
Proof. by destruct b. Qed.

(** A buffer is read, and then possibly changed. *)
Lemma bo_keeps_get {A} h (k : gem -> BO A) :
  (forall s0 s g, from s0 s -> s !! h = Some g -> wp (k g) (fun _ => from s0) (fun _ => from s0) s) -> keeps_store (bind (get_gem h) k).
Proof. intros Hk s0 s Hf. apply wp_get_gem; [|done]. intros g Hg. by apply Hk. Qed.

Lemma wp_put_gem s0 s h g g' (R : exn -> store -> Prop) :
  from s0 s -> s !! h = Some g -> same_gem g g' -> wp (put_gem h g') (fun _ => from s0) R s.
Proof. intros Hf Hg Hsame. apply wp_modify. by eapply from_insert. Qed.

Lemma set_host_same g m : length m = length (g_host g) -> same_gem g (set_host m g).
Proof. intros Hl. by split. Qed.

Lemma set_dev_same g m : length m = length (g_dev g) -> same_gem g (set_dev m g).
Proof. intros Hl. by split. Qed.

Lemma set_dev_mem_same g m : length m = length (dev_mem g) -> same_gem g (set_dev_mem m g).
Proof. unfold set_dev_mem, dev_mem. destruct (g_kind g); intros; by apply set_host_same || by apply set_dev_same. Qed.

Create HintDb bo_keeps discriminated.
#[export] Hint Resolve bo_keeps_ret bo_keeps_raise bo_keeps_if set_host_same set_dev_same set_dev_mem_same length_put_bytes : bo_keeps.

Lemma keeps_sync_ioctl h dir sz off : keeps_store (xocl_sync_bo_ioctl h dir sz off).
Proof.
  apply bo_keeps_get. intros s0 s g Hf Hg. destruct (g_kind g); try done. apply wp_if; intros _; [done|].
  destruct dir; (apply wp_if; intros _; [apply wp_bind; eapply wp_mono; [eapply (wp_put_gem s0 s h g _ no_err); eauto with bo_keeps|intros; by apply wp_ret|by intros ? ? []]|done]).
Qed.

Lemma bo_keeps_get_gem {A} h (k : gem -> BO A) : (forall g, keeps_store (k g)) -> keeps_store (bind (get_gem h) k).
Proof. intros Hk. apply bo_keeps_get. intros s0 s g Hf _. by apply Hk. Qed.

Lemma keeps_device_copy dst src o o' sz : keeps_store (device_copy dst src o o' sz).
Proof.
  apply bo_keeps_get_gem. intros gs. apply bo_keeps_if; [apply bo_keeps_raise|]. apply bo_keeps_get. intros s0 s g Hf Hg. wps; try done.
  eapply wp_put_gem; eauto with bo_keeps.
Qed.

Lemma keeps_bo_paddr h off sz : keeps_store (get_bo_paddr h off sz).
Proof. apply bo_keeps_get_gem. auto with bo_keeps. Qed.

Lemma keeps_handle_copy dst src sz o o' : keeps_store (handle_copy dst src sz o o').
Proof.
  apply bo_keeps_bind; [|auto with bo_keeps]. apply bo_keeps_bind; [apply keeps_bo_paddr|].
  assert (keeps_store (xocl_copy_import_bo dst src sz o o')) as Hi.
  { do 2 (apply bo_keeps_get_gem; intros ?). do 3 (apply bo_keeps_if; [apply bo_keeps_ret|]). apply bo_keeps_bind; [apply keeps_device_copy|auto with bo_keeps]. }
  intros [e|pa]; [apply bo_keeps_if; [apply bo_keeps_ret|]|]; (apply bo_keeps_bind; [apply keeps_bo_paddr|]; intros [e'|pa']; auto with bo_keeps).
  apply bo_keeps_if; [apply bo_keeps_ret|]. apply bo_keeps_bind; [apply keeps_device_copy|auto with bo_keeps].
Qed.

Lemma keeps_sync b dir sz off : keeps_store (sync b dir sz off).
Proof.
  revert off. induction b as [| | | | | | |p IH n m]; intros off; cbn [sync];
    try (apply bo_keeps_bind; [apply keeps_sync_ioctl|auto with bo_keeps]); [destruct dir; apply keeps_handle_copy|].
  do 2 (apply bo_keeps_if; [apply bo_keeps_raise|]). apply IH.
Qed.

Lemma keeps_hbuf b : keeps_store (get_hbuf b).
Proof. induction b; cbn [get_hbuf]; auto with bo_keeps. apply bo_keeps_bind; auto with bo_keeps. Qed.

Lemma keeps_save p bs : keeps_store (save p bs).
Proof. destruct p; [|apply bo_keeps_raise]. apply bo_keeps_get. intros s0 s g Hf Hg. wps; [|done]. eapply wp_put_gem; eauto with bo_keeps. Qed.

Lemma keeps_load p sz : keeps_store (load p sz).
Proof. destruct p; [|apply bo_keeps_raise]. apply bo_keeps_get_gem. auto with bo_keeps. Qed.

Lemma keeps_write b src seek : keeps_store (write b src seek).
Proof.
  apply bo_keeps_if; [apply bo_keeps_raise|].
  assert (keeps_store (p <- get_hbuf_or_error b ;; save (advance seek p) src)) as H.
  { apply bo_keeps_bind; [|intros; apply keeps_save]. apply bo_keeps_bind; [apply keeps_hbuf|auto with bo_keeps]. }
  destruct b; try done. apply bo_keeps_get. intros s0 s g Hf Hg. wps; [|done]. eapply wp_put_gem; eauto with bo_keeps.
Qed.

Section copies.
Context (m2m cdma : bool) (kdma : nat -> nat -> Z -> Z -> Z -> store -> option store).
(** The engine behind a command changes bytes only. *)
Hypothesis kdma_ok : forall dst src sz o o' s s', kdma dst src sz o o' s = Some s' -> same_shape s s'.

Lemma keeps_copy_through_host b src sz so d : keeps_store (copy_through_host b src sz so d).
Proof.
  apply bo_keeps_bind; [apply keeps_hbuf|intros p]. apply bo_keeps_if; [apply bo_keeps_raise|]. apply bo_keeps_bind; [apply keeps_hbuf|intros q].
  apply bo_keeps_if; [apply bo_keeps_raise|]. apply bo_keeps_bind; [apply keeps_sync|intros _]. apply bo_keeps_bind; [|intros; apply keeps_sync].
  apply bo_keeps_if; [apply bo_keeps_raise|]. apply bo_keeps_bind; [apply keeps_load|intros; apply keeps_save].
Qed.

Lemma keeps_copy_base b src sz so d : keeps_store (copy_base m2m cdma kdma b src sz so d).
Proof.
  do 3 (apply bo_keeps_if; [apply bo_keeps_raise|]). apply bo_keeps_if; [apply keeps_handle_copy|]. intros s0 s Hf. apply wp_bind, wp_gets. unfold id.
  destruct cdma; [|by apply keeps_copy_through_host]. destruct (kdma _ _ _ _ _ s) as [s'|] eqn:E; [|by apply keeps_copy_through_host].
  apply wp_modify. eapply from_shape; [done|by eapply kdma_ok].
Qed.

Lemma keeps_copy b src sz so d : keeps_store (copy m2m cdma kdma b src sz so d).
Proof. destruct b; try apply keeps_copy_base. apply bo_keeps_bind; [apply keeps_copy_base|intros; apply keeps_handle_copy]. Qed.
End copies.

(** * Creation *)

Section create.
Context (topology : Z -> Z + option (list bank_data)) (unified : bool) (channels : Z) (slot_of_ctx : Z -> Z) (cma_bank_idx : Z).
Context (mm_insert_node : Z -> Z -> Z -> store -> Z + Z) (new_pages : Z -> list Z).
(** The allocator of the kernel returns whole pages in the address space; new pages
    have the size asked for. *)
Hypothesis mm_ok : forall memidx slot_id size s start,
  mm_insert_node memidx slot_id size s = inr start -> 0 <= start /\ start + size < 2 ^ 64 /\ start mod PAGE_SIZE = 0.
Hypothesis pages_ok : forall n, 0 <= n -> Z.of_nat (length (new_pages n)) = n.

Abbreviation create_bo := (xocl_create_bo topology unified channels cma_bank_idx mm_insert_node new_pages).

(** What the driver makes. *)
Definition made (size flags : Z) (type : bo_class) (g : gem) : Prop :=
  gem_ok g /\ size <= g_size g /\ g_flags g = flags /\
  (g_kind g = class_kind type \/ g_kind g = Coherent /\ type ∉ [XOCL_BO_USERPTR; XOCL_BO_IMPORT; XOCL_BO_P2P]) /\
  (bank flags <> cma_bank_idx -> type <> XOCL_BO_CMA -> g_kind g = class_kind type).

Lemma gem_made size flags type paddr :
  0 <= size < 2 ^ 64 -> 0 <= paddr < 2 ^ 64 -> (local (class_kind type) = true -> paddr + size < 2 ^ 64 /\ paddr mod PAGE_SIZE = 0) ->
  gem_ok (Gem (class_kind type) size paddr (if bool_decide (class_kind type = DevOnly) then [] else new_pages size)
    (if bool_decide (class_kind type ∈ [Normal; DevOnly]) then new_pages size else []) flags).
Proof.
  intros Hs Hp Hl. split; cbn; try done.
  - intros H. destruct (Hl H) as [H1 H2]. split; [done|]. unfold PAGE_SIZE, KDMA_BLOCK_SIZE in *.
    apply Z.mod_divide in H2; [|done]. apply Z.mod_divide; [done|]. etrans; [|exact H2]. by exists 64.
  - intros H. rewrite bool_decide_false by done. apply pages_ok. lia.
  - intros H. rewrite bool_decide_true by done. apply pages_ok. lia.
Qed.

Lemma create_spec size flags type s :
  0 <= size < 2 ^ 64 ->
  wp (create_bo size flags type) (fun r s' => s' = s /\ forall g, r = inr g -> made size flags type g) (fun _ s' => s' = s) s.
Proof.
  intros Hsz. unfold xocl_create_bo. apply wp_if; [done|]. intros Hne%Z.eqb_neq. pose proof (page_align_spec size Hsz Hne) as Hp.
  apply wp_bind. eapply wp_mono with (Q := fun _ s' => s' = s) (R := fun _ s' => s' = s); [|intros err s' ->|done].
  { unfold check_bo_user_reqs. wps; try done. destruct (topology _) as [e|[topo|]]; try done; [|by wps].
    destruct (topo !! _); [|done]. wps; done. }
  do 3 (apply wp_if; intros ?; [done|]).
  set (memidx := if bool_decide (type = XOCL_BO_CMA) then cma_bank_idx else _) in *. set (fl := if memidx =? cma_bank_idx then XOCL_BO_CMA else type).
  assert (class_kind fl = class_kind type \/ class_kind fl = Coherent /\ type ∉ [XOCL_BO_USERPTR; XOCL_BO_IMPORT; XOCL_BO_P2P]) as Hk.
  { unfold fl. destruct (memidx =? cma_bank_idx); [|by left]. right. split; [done|]. cbn [andb] in H1. by apply bool_decide_eq_false in H1. }
  assert (bank flags <> cma_bank_idx -> type <> XOCL_BO_CMA -> class_kind fl = class_kind type) as Hk'.
  { intros Hb Ht. unfold fl, memidx. rewrite (bool_decide_false (type = XOCL_BO_CMA)) by done. unfold xocl_bo_ddr_idx.
    rewrite bank_mask, (proj2 (Z.eqb_neq _ _) Hb). done. }
  apply wp_if; intros Hl.
  - apply wp_ret. split; [done|]. intros g [= <-]. split_and!; try done; cbn; [|lia].
    apply gem_made; [lia|done|]. intros Hc. by rewrite Hc in Hl.
  - apply wp_bind, wp_gets. destruct (mm_insert_node _ _ _ _) as [e|start] eqn:E; apply wp_ret; [done|]. split; [done|]. intros g [= <-].
    destruct (mm_ok _ _ _ _ _ E) as (M1 & M2 & M3). split_and!; try done; cbn; [|lia]. apply gem_made; [lia|lia|done].
Qed.

Abbreviation alloc_with f := (f topology unified channels slot_of_ctx cma_bank_idx mm_insert_node new_pages) (only parsing).

(** A new handle, to a buffer of the driver made with the flags. *)
Definition added (size flags : Z) (type : bo_class) (s : store) (h : nat) (s' : store) : Prop :=
  h = length s /\ exists g, s' = s ++ [g] /\ made size flags type g.

Lemma new_handle_spec size flags type msg r s :
  (forall g, r = inr g -> made size flags type g) -> wp (new_handle msg r) (added size flags type s) (fun _ s' => s' = s) s.
Proof.
  intros Hr. destruct r as [e|g]; [by apply wp_raise|]. apply wp_bind, wp_gets, wp_bind, wp_modify, wp_ret. split; [done|]. exists g.
  split; [done|]. by apply Hr.
Qed.

(** The flags that the driver keeps. *)
Definition kept_flags (flags : Z) : Z :=
  if bool_decide (xocl_bo_type flags = XOCL_BO_EXECBUF) then flags else xocl_bo_set_slot_idx flags (slot_of_ctx (xocl_bo_slot_idx flags)).

Lemma alloc_bo_spec size flags grp s :
  0 <= size < 2 ^ 64 ->
  let fl := u32 (with_group flags grp) in
  wp (alloc_with alloc_bo size flags grp) (added size (kept_flags fl) (xocl_bo_type flags) s) (fun _ s' => s' = s) s.
Proof.
  intros Hsz fl. assert (xocl_bo_type fl = xocl_bo_type flags) as Ht by (unfold xocl_bo_type, fl; by rewrite bo_type_group).
  unfold alloc_bo, xclAllocBO. fold fl. apply wp_bind.
  eapply wp_mono with (Q := fun r s' => s' = s /\ forall g, r = inr g -> made size (kept_flags fl) (xocl_bo_type flags) g) (R := fun _ s' => s' = s);
    [|intros r s' [-> Hr]; by apply new_handle_spec|done].
  unfold xocl_create_bo_ioctl, kept_flags. rewrite Ht. apply wp_if; intros H.
  - rewrite H. by apply create_spec.
  - rewrite H. apply wp_if; intros _; [by apply wp_ret|]. by apply create_spec.
Qed.

Lemma alloc_user_spec userptr size flags grp s :
  0 <= size < 2 ^ 64 ->
  let fl := u32 (with_group flags grp) in
  wp (alloc_with alloc_user_bo userptr size flags grp)
     (added size (xocl_bo_set_slot_idx fl (slot_of_ctx (xocl_bo_slot_idx fl))) XOCL_BO_USERPTR s) (fun _ s' => s' = s) s.
Proof.
  intros Hsz fl. unfold alloc_user_bo, xclAllocUserPtrBO. fold fl. apply wp_bind.
  eapply wp_mono with (Q := fun r s' => s' = s /\ forall g, r = inr g -> made size (xocl_bo_set_slot_idx fl (slot_of_ctx (xocl_bo_slot_idx fl))) XOCL_BO_USERPTR g)
    (R := fun _ s' => s' = s); [|intros r s' [-> Hr]; by apply new_handle_spec|done].
  unfold xocl_userptr_bo_ioctl. do 2 (apply wp_if; intros _; [by apply wp_ret|]). by apply create_spec.
Qed.

Lemma added_from s0 size flags type s h s' : from s0 s -> added size flags type s h s' -> from s0 s'.
Proof.
  intros [Hs He] (-> & g & -> & Hg & _). split; [|etrans; [done|apply extends_app]]. apply Forall_app. split; [done|]. by apply Forall_singleton.
Qed.

Lemma added_gem size flags type s h s' : added size flags type s h s' -> exists g, s' !! h = Some g /\ made size flags type g.
Proof. intros (-> & g & -> & Hg). exists g. split; [|done]. by apply list_lookup_middle. Qed.

Lemma added_holds size flags type s h s' ks :
  0 <= size -> added size flags type s h s' -> class_kind type ∈ ks -> (type ∈ [XOCL_BO_USERPTR; XOCL_BO_IMPORT; XOCL_BO_P2P] \/ Coherent ∈ ks) ->
  holds_gem s' h ks size.
Proof.
  intros Hsz Ha Hk Hc. destruct (added_gem _ _ _ _ _ _ Ha) as (g & Hg & _ & Hs & _ & Hkind & _). exists g. split_and!; try done.
  destruct Hkind as [->|[-> Hno]]; [done|]. destruct Hc; [done|done].
Qed.

(** The result of an allocation: the buffer is well formed, has the size asked for, and
    the driver knows its bank; of its type it knows only that it is a command. *)
Record allocated (sz flags grp : Z) (s0 : store) (b : buffer) (s : store) : Prop := {
  al_from : from s0 s;
  al_ok : buf_ok s b;
  al_size : get_size b = sz;
  al_group : get_group_id b s = Ok (bank grp) s;
  al_flags : get_flags b s = Ok (if bool_decide (bo_type flags = XCL_BO_FLAGS_EXECBUF) then XCL_BO_FLAGS_EXECBUF else 0) s;
}.

(** The bank and the type in the flags that the driver keeps. *)
Definition keeps_group (flags grp fl : Z) : Prop :=
  bank fl = bank grp /\ bo_type fl = (if bool_decide (bo_type flags = XCL_BO_FLAGS_EXECBUF) then XCL_BO_FLAGS_EXECBUF else 0).

Lemma kept_flags_group flags grp : keeps_group flags grp (kept_flags (u32 (with_group flags grp))).
Proof.
  unfold keeps_group, kept_flags. set (fl := u32 (with_group flags grp)).
  assert (bool_decide (xocl_bo_type fl = XOCL_BO_EXECBUF) = bool_decide (bo_type flags = XCL_BO_FLAGS_EXECBUF)) as ->.
  { apply bool_decide_ext. unfold xocl_bo_type, fl. rewrite bo_type_group. destruct (Z.eqb_spec (bo_type flags) XCL_BO_FLAGS_EXECBUF); [done|].
    split; [|done]. by repeat destruct (_ =? _). }
  case_bool_decide as E; unfold fl; [by rewrite bank_group, bo_type_group|]. by rewrite bank_slot, bank_group, bo_type_slot.
Qed.

Lemma user_flags_group flags tf grp n :
  bo_type tf <> XCL_BO_FLAGS_EXECBUF -> keeps_group tf grp (xocl_bo_set_slot_idx (u32 (with_group flags grp)) n).
Proof. intros Hne. split; [by rewrite bank_slot, bank_group|]. by rewrite bo_type_slot, bool_decide_false. Qed.

Lemma allocated_intro sz flags grp s0 s1 s b fl type :
  from s0 s1 -> added sz fl type s1 (get_handle b) s -> keeps_group flags grp fl -> buf_ok s b -> get_size b = sz -> allocated sz flags grp s0 b s.
Proof.
  intros Hf Ha [H1 H2] Hb Hsz. destruct (added_gem _ _ _ _ _ _ Ha) as (g & Hg & _ & _ & Hfl & _ & _).
  split; [by eapply added_from|done|done| |]; unfold get_group_id, get_flags, bind, get_gem; rewrite Hg; unfold ret; [by rewrite Hfl, H1|by rewrite Hfl, H2].
Qed.

Lemma from_refl s : store_ok s -> from s s.
Proof. by split. Qed.

Lemma alloc_kbuf_spec sz flags grp s :
  store_ok s -> 0 <= sz < 2 ^ 64 -> bo_type flags <> XCL_BO_FLAGS_DEV_ONLY ->
  wp (alloc_with alloc_kbuf sz flags grp) (allocated sz flags grp s) (fun _ => from s) s.
Proof.
  intros Hs Hsz Ht. apply wp_bind. eapply wp_mono; [by apply alloc_bo_spec| |by intros ? ? ->; apply from_refl].
  intros h s' Ha. apply wp_ret. eapply allocated_intro; [by apply from_refl|exact Ha|apply kept_flags_group| |done].
  eapply added_holds; [lia|exact Ha| |right; set_solver]. unfold xocl_bo_type. rewrite (proj2 (Z.eqb_neq _ XCL_BO_FLAGS_DEV_ONLY) Ht).
  repeat destruct (_ =? _); set_solver.
Qed.

Lemma alloc_user_buf_spec (mk : nat -> Z -> buffer) userptr sz flags tf grp s :
  (forall h n, get_handle (mk h n) = h /\ get_size (mk h n) = n /\ (forall s, buf_ok s (mk h n) = holds_gem s h [Normal] n)) ->
  store_ok s -> 0 <= sz < 2 ^ 64 -> bo_type tf <> XCL_BO_FLAGS_EXECBUF ->
  wp (h <- alloc_with alloc_user_bo userptr sz flags grp ;; ret (mk h sz)) (allocated sz tf grp s) (fun _ => from s) s.
Proof.
  intros Hmk Hs Hsz Ht. apply wp_bind. eapply wp_mono; [by apply alloc_user_spec| |by intros ? ? ->; apply from_refl].
  intros h s' Ha. apply wp_ret. destruct (Hmk h sz) as (E1 & E2 & E3).
  eapply allocated_intro; [by apply from_refl|rewrite E1; exact Ha|by apply user_flags_group| |done].
  rewrite E3. eapply added_holds; [lia|exact Ha|set_solver|left; set_solver].
Qed.

Lemma alloc_dbuf_spec sz flags grp s :
  store_ok s -> 0 <= sz < 2 ^ 64 -> bo_type flags = XCL_BO_FLAGS_DEV_ONLY ->
  wp (alloc_with alloc_dbuf sz grp) (allocated sz flags grp s) (fun _ => from s) s.
Proof.
  intros Hs Hsz Ht. apply wp_bind. eapply wp_mono; [by apply alloc_bo_spec| |by intros ? ? ->; apply from_refl].
  intros h s' Ha. apply wp_ret. eapply allocated_intro; [by apply from_refl|exact Ha| |eapply added_holds; [lia|exact Ha|set_solver|right; set_solver]|done].
  pose proof (kept_flags_group XCL_BO_FLAGS_DEV_ONLY grp) as [H1 H2]. split; [done|]. by rewrite H2, Ht.
Qed.

Lemma alloc_nodma_spec sz flags grp s :
  store_ok s -> 0 <= sz < 2 ^ 64 -> bo_type flags = 0 ->
  wp (alloc_with alloc_nodma sz grp) (allocated sz flags grp s) (fun _ => from s) s.
Proof.
  intros Hs Hsz Ht. apply wp_if; intros _; [by apply wp_raise, from_refl|].
  apply wp_bind. eapply wp_mono; [by apply alloc_bo_spec| |by intros ? ? ->; apply from_refl]. intros hh s1 Ha1.
  assert (from s s1) as Hf by (eapply added_from; [by apply from_refl|done]).
  apply wp_bind. eapply wp_mono; [by apply alloc_bo_spec| |by intros ? ? ->]. intros hd s2 Ha2. apply wp_ret.
  eapply allocated_intro; [exact Hf|exact Ha2| | |done].
  - pose proof (kept_flags_group XCL_BO_FLAGS_DEV_ONLY grp) as [H1 H2]. split; [done|]. by rewrite H2, Ht.
  - split; [|eapply added_holds; [lia|exact Ha2|set_solver|right; set_solver]].
    apply (extends_holds s1 s2); [by eapply added_from; [apply from_refl, Hf|exact Ha2]|].
    eapply added_holds; [lia|exact Ha1|set_solver|right; set_solver].
Qed.

(** * Buffers of a process *)

Context (nodma : bool).

Lemma alloc_spec hbuf sz flags grp s :
  store_ok s -> 0 <= sz < 2 ^ 64 ->
  wp (alloc_with alloc nodma hbuf sz flags grp) (allocated sz flags grp s) (fun _ => from s) s.
Proof.
  intros Hs Hsz. unfold alloc. apply wp_if; intros Ht.
  - apply Z.eqb_eq in Ht. apply wp_if; intros _; [by apply alloc_nodma_spec|]. apply (alloc_user_buf_spec buffer_hbuf); try done. by rewrite Ht.
  - apply wp_if; intros Hm.
    + apply alloc_kbuf_spec; try done. intros E. rewrite E in Hm. by apply bool_decide_eq_true in Hm; set_solver.
    + apply wp_if; intros Hd; [|by apply wp_raise, from_refl]. apply alloc_dbuf_spec; try done. by apply Z.eqb_eq.
Qed.

Context (m2m cdma : bool) (kdma : nat -> nat -> Z -> Z -> Z -> store -> option store).
Hypothesis kdma_ok : forall dst src sz o o' s s', kdma dst src sz o o' s = Some s' -> same_shape s s'.

(** The clone: its flags are what the driver remembers of the source. *)
Lemma alloc_clone_spec src grp s :
  store_ok s -> buf_ok s src ->
  wp (alloc_with alloc_clone m2m cdma kdma src grp)
     (fun c s' => from s s' /\ buf_ok s' c /\ get_size c = get_size src /\
        forall flags g', get_flags src s = Ok flags s -> s' !! get_handle c = Some g' -> bank grp <> cma_bank_idx ->
          xocl_bo_type flags <> XOCL_BO_CMA -> g_kind g' = class_kind (xocl_bo_type flags)) (fun _ => from s) s.
Proof.
  intros Hs Hb. pose proof (base_fits s src Hb) as Hf. destruct (allocation_gem s src Hb) as (g & Hg & Hsz).
  pose proof (go_size _ (gem_at _ _ _ Hs Hg)) as Hgs. assert (0 <= get_size src < 2 ^ 64) as Hz by lia.
  set (flags := bo_type (g_flags g)). assert (get_flags src s = Ok flags s) as Efl by (unfold get_flags, bind, get_gem; by rewrite Hg).
  apply wp_bind. unfold wp at 1. rewrite Efl.
  apply wp_bind. eapply wp_mono; [by apply alloc_bo_spec| |by intros ? ? ->; apply from_refl]. intros h s1 Ha.
  assert (from s s1) as Hf1 by (eapply added_from; [by apply from_refl|done]).
  destruct (added_gem _ _ _ _ _ _ Ha) as (gc & Hgc & _ & Hsc & Hfl & Hkc & Hkc').
  apply wp_bind. eapply wp_mono; [by apply (keeps_copy_base m2m cdma kdma kdma_ok _ _ _ _ _ s1 s1 (from_refl s1 (proj1 Hf1)))| |].
  2: { intros e s2 [H1 H2]. split; [done|]. by etrans; [apply Hf1|]. }
  intros _ s2 [H1 H2]. apply wp_ret. split_and!.
  - split; [done|]. by etrans; [apply Hf1|].
  - eapply extends_holds; [exact H2|]. eapply added_holds; [lia|exact Ha| |right; set_solver]. unfold xocl_bo_type. repeat destruct (_ =? _); set_solver.
  - done.
  - intros fl g' Hfl' Hg' Hb1 Ht. assert (fl = flags) as -> by congruence. destruct (H2 _ _ Hgc) as (g2 & Hg2 & E). cbn in Hg'. assert (g2 = g') as -> by congruence.
    rewrite (sg_kind _ _ E). apply Hkc'; [|done]. destruct (kept_flags_group flags grp) as [-> _]. done.
Qed.
End create.

(** * Buffer objects from the first allocation on *)

Section life.
Context (topology : Z -> Z + option (list bank_data)) (unified : bool) (channels : Z) (slot_of_ctx : Z -> Z) (cma_bank_idx : Z).
Context (mm_insert_node : Z -> Z -> Z -> store -> Z + Z) (new_pages : Z -> list Z).
Context (nodma : bool) (alignment : Z) (host_bank : Z -> bool).
Context (m2m cdma : bool) (kdma : nat -> nat -> Z -> Z -> Z -> store -> option store).

Abbreviation with_driver f := (f topology unified channels slot_of_ctx cma_bank_idx mm_insert_node new_pages) (only parsing).

(** What remains of a call: the memory, and the buffers with the one it returned. *)
Definition created (bs : list buffer) (r : result store exn buffer) : store * list buffer :=
  match r with Ok b s => (s, b :: bs) | Err _ s => (s, bs) end.
Definition changed {A} (r : result store exn A) : store := match r with Ok _ s | Err _ s => s end.

(** The buffers of a process after a sequence of calls, failed ones included. *)
Inductive calls : store * list buffer -> Prop :=
| calls_none : calls ([], [])
| calls_alloc s bs hbuf sz flags grp :
    calls (s, bs) -> 0 <= sz < 2 ^ 64 ->
    calls (created bs (with_driver alloc nodma hbuf sz (adjust_buffer_flags nodma host_bank flags grp) grp s))
| calls_userptr s bs userptr sz flags grp :
    calls (s, bs) -> 0 <= sz < 2 ^ 64 -> calls (created bs (with_driver alloc_ubuf nodma alignment userptr sz flags grp s))
| calls_sub s bs p sz off :
    calls (s, bs) -> p ∈ bs -> 0 <= sz < 2 ^ 64 -> 0 <= off < 2 ^ 64 -> calls (created bs (alloc_sub p sz off s))
| calls_clone s bs b grp :
    calls (s, bs) -> b ∈ bs -> calls (created bs (with_driver alloc_clone m2m cdma kdma b grp s))
| calls_write s bs b src seek :
    calls (s, bs) -> b ∈ bs -> calls (changed (write b src seek s), bs)
| calls_sync s bs b dir sz off :
    calls (s, bs) -> b ∈ bs -> calls (changed (sync b dir sz off s), bs)
| calls_copy s bs b src sz so d :
    calls (s, bs) -> b ∈ bs -> src ∈ bs -> calls (changed (copy m2m cdma kdma b src sz so d s), bs).

Definition process_ok (p : store * list buffer) : Prop := store_ok p.1 /\ Forall (buf_ok p.1) p.2.

Lemma process_from s bs s' : process_ok (s, bs) -> from s s' -> process_ok (s', bs).
Proof. intros [Hs Hb] [Hs' He]. split; [done|]. eapply Forall_impl; [exact Hb|]. intros b. by apply extends_buf_ok. Qed.

Lemma created_ok s bs (m : BO buffer) :
  process_ok (s, bs) -> wp m (fun b s' => from s s' /\ buf_ok s' b) (fun _ => from s) s -> process_ok (created bs (m s)).
Proof.
  intros Hp. unfold wp. destruct (m s) as [b s'|e s']; [|by apply process_from]. intros [Hf Hb].
  destruct (process_from s bs s' Hp Hf) as [H1 H2]. split; [done|]. by apply Forall_cons.
Qed.

Lemma changed_ok s bs (m : BO unit) : process_ok (s, bs) -> keeps_store m -> process_ok (changed (m s), bs).
Proof.
  intros Hp Hk. specialize (Hk s s (from_refl s (proj1 Hp))). unfold wp in Hk. apply (process_from s); [done|]. unfold changed. by destruct (m s).
Qed.

Lemma sub_ok s p sz off :
  store_ok s -> buf_ok s p -> 0 <= sz -> 0 <= off -> wp (alloc_sub p sz off) (fun b s' => from s s' /\ buf_ok s' b) (fun _ => from s) s.
Proof.
  intros Hs Hp H1 H2. apply wp_bind. pose proof (keeps_hbuf p s s (from_refl s Hs)) as Hk. eapply wp_mono; [exact Hk| |done].
  intros q s' Hf. apply wp_if; intros E; [by apply wp_raise|]. apply past_false in E. apply wp_ret. split; [done|]. cbn [buf_ok].
  split_and!; try done; [|lia]. by eapply extends_buf_ok; [apply Hf|].
Qed.

Hypothesis mm_ok : forall memidx slot_id size s start,
  mm_insert_node memidx slot_id size s = inr start -> 0 <= start /\ start + size < 2 ^ 64 /\ start mod PAGE_SIZE = 0.
Hypothesis pages_ok : forall n, 0 <= n -> Z.of_nat (length (new_pages n)) = n.
Hypothesis kdma_ok : forall dst src sz o o' s s', kdma dst src sz o o' s = Some s' -> same_shape s s'.

(** C26: After every sequence of calls that allocate, split, clone, write, sync and copy
    buffers, failed calls included, each buffer of the process is well formed: its
    handle is that of a buffer of the driver of a fitting kind and at least its size, a
    sub-buffer lies in its parent, and the memory of every buffer has its full size. *)
Theorem buffers_stay_ok p : calls p -> process_ok p.
Proof.
  induction 1 as [|s bs hbuf sz flags grp _ IH Hz|s bs userptr sz flags grp _ IH Hz|s bs q sz off _ IH Hq Hz Ho|s bs b grp _ IH Hb
    |s bs b src seek _ IH Hb|s bs b dir sz off _ IH Hb|s bs b src sz so d _ IH Hb _].
  - split; [apply Forall_nil_2|by apply Forall_nil].
  - apply (created_ok s bs); [done|]. eapply wp_mono; [apply alloc_spec; done || apply IH| |done]. by intros b s' [].
  - apply (created_ok s bs); [done|]. unfold alloc_ubuf. do 2 (apply wp_if; intros _; [apply wp_raise, from_refl, IH|]).
    eapply wp_mono; [apply (alloc_user_buf_spec _ _ _ _ _ _ _ mm_ok pages_ok buffer_ubuf) with (tf := 0); done || apply IH| |done]. by intros b s' [].
  - apply (created_ok s bs (alloc_sub q sz off)); [done|]. destruct IH as [Hs Hbs]. rewrite Forall_forall in Hbs. apply sub_ok; [done|by apply Hbs|lia|lia].
  - apply (created_ok s bs); [done|]. destruct IH as [Hs Hbs]. rewrite Forall_forall in Hbs.
    eapply wp_mono; [apply alloc_clone_spec; done || by apply Hbs| |done]. by intros c s' (? & ? & _).
  - apply changed_ok; [done|apply keeps_write].
  - apply changed_ok; [done|apply keeps_sync].
  - apply changed_ok; [done|by apply keeps_copy].
Qed.

(** C37: An allocation that returns gives a well-formed buffer of the size and in the memory bank
    asked for.  The type it is asked for is not kept: unless it is a command, the flags of
    the buffer are those of a normal one afterwards. *)
Theorem alloc_returns hbuf sz flags grp s b s' :
  store_ok s -> 0 <= sz < 2 ^ 64 -> with_driver alloc nodma hbuf sz flags grp s = Ok b s' ->
  buf_ok s' b /\ get_size b = sz /\ get_group_id b s' = Ok (bank grp) s' /\
  get_flags b s' = Ok (if bool_decide (bo_type flags = XCL_BO_FLAGS_EXECBUF) then XCL_BO_FLAGS_EXECBUF else 0) s'.
Proof.
  intros Hs Hz E. assert (allocated sz flags grp s b s') as []; [|done].
  eapply wp_run; [|exact E]. by apply alloc_spec.
Qed.

(** The clone of a buffer in another bank has the size of the buffer, and is a normal
    buffer with host pages and device memory also when the buffer is in host memory only
    or on the device only, unless the bank is that of the host. *)
Theorem clone_is_normal hbuf sz flags grp grp' s b s1 c s2 :
  store_ok s -> 0 <= sz < 2 ^ 64 -> bo_type flags <> XCL_BO_FLAGS_EXECBUF -> bank grp' <> cma_bank_idx ->
  with_driver alloc nodma hbuf sz flags grp s = Ok b s1 -> with_driver alloc_clone m2m cdma kdma b grp' s1 = Ok c s2 ->
  get_size c = sz /\ exists g, s2 !! get_handle c = Some g /\ g_kind g = Normal.
Proof.
  intros Hs Hz Ht Hbank E1 E2. assert (allocated sz flags grp s b s1) as [Hf Hb Hsz _ Hfl] by (eapply wp_run; [by apply alloc_spec|exact E1]).
  rewrite bool_decide_false in Hfl by done.
  destruct (wp_run _ _ _ _ _ _ (alloc_clone_spec topology unified channels slot_of_ctx cma_bank_idx mm_insert_node new_pages mm_ok pages_ok
    m2m cdma kdma kdma_ok b grp' s1 (proj1 Hf) Hb) E2) as (_ & Hc & Hszc & Hk). split; [congruence|].
  destruct (allocation_gem s2 c Hc) as (g & Hg & _). exists g. split; [done|]. by apply (Hk 0 g Hfl Hg Hbank).
Qed.
End life.

(** * Witnesses *)

(** Two banks of the device and one of the host. *)
Definition example_topology (_ : Z) : Z + option (list bank_data) := inr (Some (repeat (BankData false false true) 3)).
Definition example_mm (_ _ size : Z) (s : store) : Z + Z :=
  let start := Z.of_nat (length s) * 2 ^ 20 in if start + size <? 2 ^ 64 then inr start else inl (-12).
Definition example_pages (n : Z) : list Z := repeat 0 (Z.to_nat n).
Definition example_kdma (_ _ : nat) (_ _ _ : Z) (_ : store) : option store := None.

Lemma example_mm_ok memidx slot_id size s start :
  example_mm memidx slot_id size s = inr start -> 0 <= start /\ start + size < 2 ^ 64 /\ start mod PAGE_SIZE = 0.
Proof.
  unfold example_mm. destruct (Z.ltb_spec (Z.of_nat (length s) * 2 ^ 20 + size) (2 ^ 64)); [|done]. intros [= <-]. split_and!; [lia|done|].
  unfold PAGE_SIZE. replace (Z.of_nat (length s) * 2 ^ 20) with (Z.of_nat (length s) * 2 ^ 8 * 4096) by lia. apply Z.mod_mul. done.
Qed.

Lemma example_pages_ok n : 0 <= n -> Z.of_nat (length (example_pages n)) = n.
Proof. intros Hn. unfold example_pages. rewrite repeat_length. lia. Qed.

Abbreviation example_alloc flags := (alloc example_topology true 0 (fun _ => 0) 2 example_mm example_pages false 4096 64 flags).

Lemma buffers_stay_ok_witness :
  let p := created [] (example_alloc 0 1 []) in p.2 = [buffer_hbuf 0 64] /\ process_ok p.
Proof.
  intros p. split; [vm_compute; reflexivity|].
  apply (buffers_stay_ok example_topology true 0 (fun _ => 0) 2 example_mm example_pages false 4096 (fun _ => false) true false example_kdma
    example_mm_ok example_pages_ok); [done|].
  apply (calls_alloc example_topology true 0 (fun _ => 0) 2 example_mm example_pages false 4096 (fun _ => false) true false example_kdma [] [] 4096 64 0 1);
    [apply calls_none|lia].
Defined.

Lemma alloc_returns_witness :
  exists s, example_alloc XCL_BO_FLAGS_HOST_ONLY 1 [] = Ok (buffer_kbuf 0 64) s /\ get_flags (buffer_kbuf 0 64) s = Ok 0 s.
Proof.
  eexists. split; [reflexivity|].
  apply (alloc_returns example_topology true 0 (fun _ => 0) 2 example_mm example_pages false example_mm_ok example_pages_ok
    4096 64 XCL_BO_FLAGS_HOST_ONLY 1 [] (buffer_kbuf 0 64)); [apply Forall_nil_2|lia|reflexivity].
Defined.

Definition example_host_only : store := changed (example_alloc XCL_BO_FLAGS_HOST_ONLY 1 []).
Abbreviation example_clone :=
  (alloc_clone example_topology true 0 (fun _ => 0) 2 example_mm example_pages true false example_kdma (buffer_kbuf 0 64) 1 example_host_only).

Lemma clone_is_normal_witness :
  example_alloc XCL_BO_FLAGS_HOST_ONLY 1 [] = Ok (buffer_kbuf 0 64) example_host_only /\
  (g_kind <$> example_host_only !! 0%nat) = Some Coherent /\
  exists g, changed example_clone !! 1%nat = Some g /\ g_kind g = Normal.
Proof.
  split; [vm_compute; reflexivity|]. split; [vm_compute; reflexivity|].
  apply (clone_is_normal example_topology true 0 (fun _ => 0) 2 example_mm example_pages false true false example_kdma
    example_mm_ok example_pages_ok (fun _ _ _ _ _ _ _ H => ltac:(discriminate H)) 4096 64 XCL_BO_FLAGS_HOST_ONLY 1 1 []
    (buffer_kbuf 0 64) example_host_only (buffer_clone 1 64) (changed example_clone));
    [apply Forall_nil_2|lia|vm_compute; discriminate|vm_compute; discriminate|vm_compute; reflexivity|vm_compute; reflexivity].
Defined.
