(* ===== verification/HipStream.v ===== *)
(** Commands, events and streams of the HIP runtime, [hip/core/event.cpp], [hip/core/event.h]
    and [hip/core/stream.cpp], and the calls of the application, [hip/api/hip_stream.cpp],
    [hip/api/hip_event.cpp].

    One application thread uses one context.  A command is its index in the list of all
    commands made so far, a stream its index in the list of streams.  A mutex that
    the thread already holds is a deadlock, and so is not an exception.  What a command
    does outside of this runtime is a step of a history: that a kernel, a list of kernels
    or a copy is started, and that waiting for it has returned.  Whether the run behind a
    command can be started, and whether it ends well, are parameters.  [submit] and [wait]
    call each other through events; they are one function with fuel. *)

From S2P Require Import Prelude.

(** * State *)

(** [command::state], [command::type]. *)
Inductive cmd_state := init | recording | recorded | running | completed | error | abort.
Inductive cmd_type := event | kernel_start | mem_cpy | kernel_list_start | empty | event_record | event_wait.

#[export] Instance cmd_state_eq_dec : EqDecision cmd_state.
Proof. solve_decision. Defined.
#[export] Instance cmd_type_eq_dec : EqDecision cmd_type.
Proof. solve_decision. Defined.

(** The enumerators in their order. *)
Definition state_num (s : cmd_state) : nat :=
  match s with init => 0 | recording => 1 | recorded => 2 | running => 3 | completed => 4 | error => 5 | abort => 6 end.

(** A command of any of the classes: whether the application can look it up, an event
    with its dependencies, its chain and its stream, the future of a copy, and the event
    and stream of a node of a graph. *)
Record command := Command {
  ctype : cmd_type;
  cstate : cmd_state;
  ctime : Z;
  cached : bool;
  m_recorded_commands : list nat;
  m_chain_of_commands : list nat;
  m_recorded_stream : option nat;
  m_handle : bool;
  m_event : option nat;
  m_stream : option nat;
}.

Definition new_command (t : cmd_type) : command := Command t init 0 true [] [] None false None None.

Record stream := Stream {
  m_nonblocking : bool;
  m_null : bool;
  in_cache : bool;
  m_cmd_queue : list nat;
  m_top_event : option nat;
}.

(** The mutexes of an event and of a stream. *)
Inductive lock := m_state_lock (c : nat) | m_recorded_cmds_lock (c : nat) | m_chain_cmds_lock (c : nat) | m_cmd_lock (s : nat).

#[export] Instance lock_eq_dec : EqDecision lock.
Proof. solve_decision. Defined.

Inductive action := Start (c : nat) | Done (c : nat).

Record world := World {
  commands : list command;
  streams : list stream;
  held : list lock;
  history : list action;
  clock : Z;
}.

Definition empty_world : world := World [] [] [] [] 0.

Inductive hip_code := hipErrorInvalidValue | hipErrorInvalidHandle | hipErrorInvalidResourceHandle | hipErrorIllegalState | hipErrorLaunchFailure
  | hipErrorStreamCaptureIsolation | hipErrorInvalidContext | hipErrorGraphExecUpdateFailure.

(** Exceptions, and ways to stop that are not exceptions. *)
Inductive stop := hip_error (e : hip_code) | std_error | deadlock | bad_pointer | out_of_fuel.

Abbreviation H := (M world stop).

(** ** Access *)

Definition set_state_of (st : cmd_state) (c : command) : command :=
  Command (ctype c) st (ctime c) (cached c) (m_recorded_commands c) (m_chain_of_commands c) (m_recorded_stream c) (m_handle c) (m_event c) (m_stream c).
Definition set_time_of (t : Z) (c : command) : command :=
  Command (ctype c) (cstate c) t (cached c) (m_recorded_commands c) (m_chain_of_commands c) (m_recorded_stream c) (m_handle c) (m_event c) (m_stream c).
Definition set_cached (b : bool) (c : command) : command :=
  Command (ctype c) (cstate c) (ctime c) b (m_recorded_commands c) (m_chain_of_commands c) (m_recorded_stream c) (m_handle c) (m_event c) (m_stream c).
Definition set_recorded_commands (l : list nat) (c : command) : command :=
  Command (ctype c) (cstate c) (ctime c) (cached c) l (m_chain_of_commands c) (m_recorded_stream c) (m_handle c) (m_event c) (m_stream c).
Definition set_chain (l : list nat) (c : command) : command :=
  Command (ctype c) (cstate c) (ctime c) (cached c) (m_recorded_commands c) l (m_recorded_stream c) (m_handle c) (m_event c) (m_stream c).
Definition set_recorded_stream (s : option nat) (c : command) : command :=
  Command (ctype c) (cstate c) (ctime c) (cached c) (m_recorded_commands c) (m_chain_of_commands c) s (m_handle c) (m_event c) (m_stream c).
Definition set_handle (b : bool) (c : command) : command :=
  Command (ctype c) (cstate c) (ctime c) (cached c) (m_recorded_commands c) (m_chain_of_commands c) (m_recorded_stream c) b (m_event c) (m_stream c).

Definition on_commands (f : list command -> list command) (w : world) : world := World (f (commands w)) (streams w) (held w) (history w) (clock w).
Definition on_streams (f : list stream -> list stream) (w : world) : world := World (commands w) (f (streams w)) (held w) (history w) (clock w).
Definition on_held (f : list lock -> list lock) (w : world) : world := World (commands w) (streams w) (f (held w)) (history w) (clock w).
Definition on_history (f : list action -> list action) (w : world) : world := World (commands w) (streams w) (held w) (f (history w)) (clock w).
Definition set_clock (t : Z) (w : world) : world := World (commands w) (streams w) (held w) (history w) t.

Definition get_cmd (c : nat) : H command := fun w => match commands w !! c with Some x => Ok x w | None => Err bad_pointer w end.
Definition on_cmd (c : nat) (f : command -> command) : H unit := modify (on_commands (alter f c)).
Definition get_stm (s : nat) : H stream := fun w => match streams w !! s with Some x => Ok x w | None => Err bad_pointer w end.
Definition on_stm (s : nat) (f : stream -> stream) : H unit := modify (on_streams (alter f s)).

Definition set_queue (l : list nat) (s : stream) : stream := Stream (m_nonblocking s) (m_null s) (in_cache s) l (m_top_event s).
Definition set_top (e : option nat) (s : stream) : stream := Stream (m_nonblocking s) (m_null s) (in_cache s) (m_cmd_queue s) e.
Definition set_in_cache (b : bool) (s : stream) : stream := Stream (m_nonblocking s) (m_null s) b (m_cmd_queue s) (m_top_event s).

Definition get_state (c : nat) : H cmd_state := x <- get_cmd c ;; ret (cstate x).
Definition set_state (c : nat) (st : cmd_state) : H unit := on_cmd c (set_state_of st).
Definition log (a : action) : H unit := modify (on_history (fun l => l ++ [a])).
Definition now : H Z := t <- gets clock ;; modify (set_clock (t + 1)) ;;; ret t.

(** A [std::lock_guard] in a block: the mutex is released when the block is left, also by
    an exception. *)
Definition with_lock {A} (l : lock) (m : H A) : H A := fun w =>
  if bool_decide (l ∈ held w) then Err deadlock w else
  match m (on_held (cons l) w) with
  | Ok a w' => Ok a (on_held (filter (fun x => x <> l)) w')
  | Err e w' => Err e (on_held (filter (fun x => x <> l)) w')
  end.

(** [catch (const std::exception&)]. *)
Definition try_catch {A} (m : H A) (h : H A) : H A := fun w =>
  match m w with
  | Err (hip_error _) w' | Err std_error w' => h w'
  | r => r
  end.

Definition throw_if (b : bool) (e : hip_code) : H unit := if b then raise (hip_error e) else ret tt.

(** * Events *)

Definition add_to_chain (e c : nat) : H unit :=
  with_lock (m_chain_cmds_lock e) (on_cmd e (fun x => set_chain (m_chain_of_commands x ++ [c]) x)).

Definition add_dependency (e c : nat) : H unit :=
  with_lock (m_recorded_cmds_lock e) (on_cmd e (fun x => set_recorded_commands (m_recorded_commands x ++ [c]) x)).

Definition is_recorded_no_lock (st : cmd_state) : bool := (state_num recorded <=? state_num st)%nat.
Definition is_recorded (e : nat) : H bool := with_lock (m_state_lock e) (st <- get_state e ;; ret (is_recorded_no_lock st)).
Definition query (e : nat) : H bool := with_lock (m_state_lock e) (st <- get_state e ;; ret (bool_decide (st = completed))).
Definition is_recorded_stream (e s : nat) : H bool := with_lock (m_state_lock e) (x <- get_cmd e ;; ret (bool_decide (m_recorded_stream x = Some s))).

Inductive op := Submit | Wait.
Inductive dependencies := Completed | NotCompleted | HasError.

Section commands.
(** The run of a command starts, and ends without an error. *)
Context (start_ok run_ok : nat -> bool).
(** [submit] and [wait] of another command. *)
Context (call : op -> nat -> H bool).

Fixpoint check_dependencies (wait : bool) (l : list nat) : H dependencies :=
  match l with
  | [] => ret Completed
  | d :: l' =>
      (if wait then _ <- call Wait d ;; ret tt else ret tt) ;;;
      st <- get_state d ;;
      if bool_decide (st = completed) then check_dependencies wait l' else
      if (state_num completed <? state_num st)%nat then ret HasError else ret NotCompleted
  end.

Fixpoint launch_chain (e : nat) (l : list nat) : H unit :=
  match l with
  | [] => ret tt
  | c :: l' => _ <- call Submit c ;; on_cmd e (fun x => set_chain (tail (m_chain_of_commands x)) x) ;;; launch_chain e l'
  end.

Definition check_and_launch_chain (e : nat) (wait_for_dependencies : bool) : H bool :=
  first <- with_lock (m_state_lock e) (
    st <- get_state e ;;
    if negb (is_recorded_no_lock st) || (bool_decide (st = running) && negb wait_for_dependencies) then ret None else
    if bool_decide (st = completed) then ret (Some true) else set_state e running ;;; ret (Some false)) ;;
  match first with
  | None => ret false
  | Some event_is_completed =>
      deps <- (if event_is_completed : bool then ret Completed else
               with_lock (m_recorded_cmds_lock e) (x <- get_cmd e ;; check_dependencies wait_for_dependencies (m_recorded_commands x))) ;;
      go <- with_lock (m_state_lock e) (
        match deps with
        | HasError => set_state e error ;;; raise (hip_error hipErrorLaunchFailure)
        | NotCompleted => set_state e recorded ;;; ret false
        | Completed => set_state e completed ;;; t <- now ;; on_cmd e (set_time_of t) ;;; ret true
        end) ;;
      if go : bool then
        with_lock (m_chain_cmds_lock e) (x <- get_cmd e ;; launch_chain e (m_chain_of_commands x)) ;;; ret true
      else ret false
  end.

(** * Streams *)

Definition enqueue (s c : nat) : H unit :=
  with_lock (m_cmd_lock s) (
    x <- get_stm s ;;
    match m_top_event x with
    | Some e => add_to_chain e c
    | None => _ <- call Submit c ;; ret tt
    end ;;;
    on_stm s (fun x => set_queue (m_cmd_queue x ++ [c]) x)).

Definition enqueue_event (s ev : nat) : H unit :=
  with_lock (m_cmd_lock s) (x <- get_stm s ;; for_each (m_cmd_queue x) (add_dependency ev)) ;;;
  enqueue s ev.

Definition record_top_event (s ev : nat) : H unit :=
  with_lock (m_cmd_lock s) (
    x <- get_stm s ;;
    match m_top_event x with Some old => add_dependency ev old | None => ret tt end ;;;
    on_stm s (set_top (Some ev))).

Definition clear_top_event (s : nat) : H unit := with_lock (m_cmd_lock s) (on_stm s (set_top None)).

(** [event::record]; the stream may be a null pointer. *)
Definition record (ev : nat) (s : option nat) : H unit :=
  x <- get_cmd ev ;;
  throw_if (negb (cached x)) hipErrorInvalidHandle ;;;
  with_lock (m_state_lock ev) (
    st <- get_state ev ;;
    throw_if (negb (bool_decide (st = init)) && (state_num st <? state_num completed)%nat) hipErrorIllegalState ;;;
    on_cmd ev (set_recorded_stream s) ;;;
    set_state ev recording) ;;;
  with_lock (m_recorded_cmds_lock ev) (on_cmd ev (set_recorded_commands [])) ;;;
  match s with None => raise bad_pointer | Some s => enqueue_event s ev end ;;;
  with_lock (m_state_lock ev) (set_state ev recorded).

Definition init_wait_event (ev s e : nat) : H unit :=
  add_dependency ev e ;;;
  add_to_chain e ev ;;;
  enqueue s ev ;;;
  record_top_event s ev ;;;
  with_lock (m_state_lock ev) (set_state ev recorded).

(** * Submitting and waiting *)

Definition kernel_start_submit (c : nat) (x : command) : H bool :=
  match cstate x with
  | init => if start_ok c then log (Start c) ;;; set_state c running ;;; ret true else raise std_error
  | running => ret true
  | _ => ret false
  end.

Definition kernel_start_wait (c : nat) (x : command) : H bool :=
  match cstate x with
  | running =>
      if run_ok c then log (Done c) ;;; set_state c completed ;;; ret true
      else set_state c error ;;; raise (hip_error hipErrorLaunchFailure)
  | completed => ret true
  | _ => ret false
  end.

Definition memcpy_submit (c : nat) : H bool := log (Start c) ;;; on_cmd c (set_handle true) ;;; ret true.

(** A future without a state throws. *)
Definition memcpy_wait (c : nat) (x : command) : H bool :=
  if m_handle x then log (Done c) ;;; set_state c completed ;;; ret true else raise std_error.

Definition kernel_list_start_wait (c : nat) (x : command) : H bool :=
  match cstate x with
  | completed => ret true
  | running => if run_ok c then log (Done c) ;;; set_state c completed ;;; ret true else raise std_error
  | _ => ret false
  end.

Definition kernel_list_start_submit (c : nat) (x : command) : H bool :=
  match cstate x with
  | running | completed => ret true
  | init => if start_ok c then log (Start c) ;;; set_state c running ;;; ret true else raise std_error
  | _ => ret false
  end.

Definition empty_submit (c : nat) : H bool := set_state c completed ;;; ret true.

Definition event_record_submit (c : nat) (x : command) : H bool :=
  match m_event x, m_stream x with
  | Some ev, Some s => record ev (Some s) ;;; set_state c completed ;;; ret true
  | _, _ => raise (hip_error hipErrorInvalidValue)
  end.

Definition event_wait_submit (c : nat) (x : command) : H bool :=
  match m_event x, m_stream x with
  | Some ev, Some s =>
      same <- is_recorded_stream ev s ;;
      (if same : bool then record_top_event s ev else ret tt) ;;;
      _ <- call Wait ev ;;
      same <- is_recorded_stream ev s ;;
      (if same : bool then clear_top_event s else ret tt) ;;;
      set_state c completed ;;; ret true
  | _, _ => raise (hip_error hipErrorInvalidValue)
  end.

(** The virtual functions. *)
Definition submit_command (c : nat) : H bool :=
  x <- get_cmd c ;;
  match ctype x with
  | event => check_and_launch_chain c false
  | kernel_start => kernel_start_submit c x
  | mem_cpy => memcpy_submit c
  | kernel_list_start => kernel_list_start_submit c x
  | empty => empty_submit c
  | event_record => event_record_submit c x
  | event_wait => event_wait_submit c x
  end.

Definition wait_command (c : nat) : H bool :=
  x <- get_cmd c ;;
  match ctype x with
  | event => check_and_launch_chain c true
  | kernel_start => kernel_start_wait c x
  | mem_cpy => memcpy_wait c x
  | kernel_list_start => kernel_list_start_wait c x
  | empty | event_record | event_wait => ret true
  end.
End commands.

Section calls.
Context (start_ok run_ok : nat -> bool).

Fixpoint call (fuel : nat) (o : op) (c : nat) : H bool :=
  match fuel with
  | O => raise out_of_fuel
  | S fuel' => match o with Submit => submit_command start_ok (call fuel') c | Wait => wait_command run_ok (call fuel') c end
  end.

(** Each nested call holds one more mutex of an event, so that the depth is bounded by their
    number. *)
Definition fuel_of (w : world) : nat := 4 * length (commands w) + 4.
Definition run_call (o : op) (c : nat) : H bool := fun w => call (fuel_of w) o c w.

Definition dequeue (s : nat) : H (option nat) :=
  with_lock (m_cmd_lock s) (
    x <- get_stm s ;;
    match m_cmd_queue x with [] => ret None | c :: l => on_stm s (set_queue l) ;;; ret (Some c) end).

Fixpoint erase_first (c : nat) (l : list nat) : option (list nat) :=
  match l with
  | [] => None
  | x :: l' => if (x =? c)%nat then Some l' else cons x <$> erase_first c l'
  end.

Definition erase_cmd (s c : nat) : H bool :=
  with_lock (m_cmd_lock s) (
    x <- get_stm s ;;
    match erase_first c (m_cmd_queue x) with Some l => on_stm s (set_queue l) ;;; ret true | None => ret false end).

(** ** Synchronization *)

(** The commands of a stream in their order; whether one has failed. *)
Fixpoint complete_commands (s : nat) (l : list nat) (has_failure : bool) : H bool :=
  match l with
  | [] => ret has_failure
  | c :: l' =>
      failed <- try_catch (
        _ <- run_call Wait c ;;
        st <- get_state c ;;
        if bool_decide (st = completed) then ret has_failure else raise std_error) (ret true) ;;
      x <- get_cmd c ;;
      (if bool_decide (ctype x = event) then ret tt else on_cmd c (set_cached false)) ;;;
      on_stm s (fun x => set_queue (tail (m_cmd_queue x)) x) ;;;
      complete_commands s l' failed
  end.

Definition await_completion (s : nat) : H unit :=
  with_lock (m_cmd_lock s) (
    x <- get_stm s ;;
    failed <- complete_commands s (m_cmd_queue x) false ;;
    on_stm s (set_top None) ;;;
    throw_if failed hipErrorLaunchFailure).

(** The handles that the context keeps are those of all streams, in the order of their
    creation. *)
Fixpoint synchronize_others (me : stream) (s : nat) (l : list nat) : H unit :=
  match l with
  | [] => ret tt
  | i :: l' =>
      x <- get_stm i ;;
      (if in_cache x && negb (m_nonblocking x) && negb (i =? s)%nat && (m_null me || m_null x)
       then await_completion i else ret tt) ;;;
      synchronize_others me s l'
  end.

Definition synchronize_streams (s : nat) : H unit :=
  me <- get_stm s ;;
  if m_nonblocking me then ret tt else
  n <- gets (fun w => length (streams w)) ;;
  synchronize_others me s (seq 0 n).

(** Between the two the code waits for [m_graph_exec_future], the task of the last launch of a graph
    into the stream; in this model the task has run to its end when the launch returns, so that the future is
    ready. *)
Definition synchronize (s : nat) : H unit := synchronize_streams s ;;; await_completion s.

(** * Calls of the application

    A handle of a stream is an index, or the null pointer. *)

Definition new_stream (nonblocking null : bool) : H nat :=
  n <- gets (fun w => length (streams w)) ;;
  modify (on_streams (fun l => l ++ [Stream nonblocking null true [] None])) ;;;
  ret n.

Fixpoint find_null (i : nat) (l : list stream) : option nat :=
  match l with
  | [] => None
  | x :: l' => if m_null x && in_cache x then Some i else find_null (S i) l'
  end.

Definition get_null_stream : H nat :=
  o <- gets (fun w => find_null 0 (streams w)) ;;
  match o with Some s => ret s | None => new_stream false true end.

Definition get_stream (h : option nat) : H (option nat) :=
  match h with
  | None => s <- get_null_stream ;; ret (Some s)
  | Some s => gets (fun w => match streams w !! s with Some x => if in_cache x then Some s else None | None => None end)
  end.

Definition stream_or_error (h : option nat) (e : hip_code) : H nat :=
  o <- get_stream h ;;
  match o with Some s => ret s | None => raise (hip_error e) end.

(** A command that is in the cache, by its handle. *)
Definition find_event (c : nat) (e : hip_code) : H nat :=
  o <- gets (fun w => commands w !! c) ;;
  match o with
  | Some x => if cached x && bool_decide (ctype x = event) then ret c else raise (hip_error e)
  | None => raise (hip_error e)
  end.

Definition insert_command (x : command) : H nat :=
  n <- gets (fun w => length (commands w)) ;;
  modify (on_commands (fun l => l ++ [x])) ;;;
  ret n.

Definition hip_stream_create_with_flags (flags : Z) : H nat :=
  throw_if (negb (flags =? 0) && negb (flags =? 1)) hipErrorInvalidValue ;;;
  new_stream (flags =? 1) false.

Definition hip_stream_destroy (h : option nat) : H unit :=
  match h with
  | None => raise (hip_error hipErrorInvalidHandle)
  | Some s => on_stm s (set_in_cache false)
  end.

Definition hip_stream_synchronize (h : option nat) : H unit :=
  s <- stream_or_error h hipErrorInvalidHandle ;; synchronize s.

Definition hip_stream_wait_event (h : option nat) (ev : nat) (flags : Z) : H unit :=
  throw_if (negb (flags =? 0)) hipErrorInvalidValue ;;;
  s <- stream_or_error h hipErrorInvalidResourceHandle ;;
  e <- find_event ev hipErrorInvalidResourceHandle ;;
  r <- is_recorded e ;;
  throw_if (negb r) hipErrorStreamCaptureIsolation ;;;
  same <- is_recorded_stream e s ;;
  if same : bool then record_top_event s e else
  dummy <- insert_command (new_command event) ;;
  init_wait_event run_call dummy s e.

Definition hip_event_create : H nat := insert_command (new_command event).

Definition hip_event_destroy (ev : nat) : H unit := on_cmd ev (set_cached false).

(** The stream is not checked. *)
Definition hip_event_record (ev : nat) (h : option nat) : H unit :=
  throw_if (bool_decide (h = None)) hipErrorInvalidValue ;;;
  s <- get_stream h ;;
  e <- find_event ev hipErrorInvalidValue ;;
  record run_call e s.

Definition hip_event_synchronize (ev : nat) : H unit :=
  e <- find_event ev hipErrorInvalidValue ;; _ <- run_call Wait e ;; ret tt.

Definition hip_event_query (ev : nat) : H bool := e <- find_event ev hipErrorInvalidValue ;; query e.

(** Difference of the times, in ticks. *)
Definition hip_event_elapsed_time (start stop : nat) : H Z :=
  a <- find_event start hipErrorInvalidValue ;;
  b <- find_event stop hipErrorInvalidValue ;;
  x <- get_cmd a ;; y <- get_cmd b ;; ret (ctime y - ctime x).

(** [hipModuleLaunchKernel] and [hipMemcpyAsync], from the check of the stream on. *)
Definition hip_module_launch_kernel (h : option nat) : H nat :=
  s <- stream_or_error h hipErrorInvalidValue ;;
  c <- insert_command (new_command kernel_start) ;;
  enqueue run_call s c ;;; ret c.

Definition hip_memcpy_async (h : option nat) : H nat :=
  s <- stream_or_error h hipErrorInvalidValue ;;
  c <- insert_command (new_command mem_cpy) ;;
  enqueue run_call s c ;;; ret c.
End calls.
