(* ===== verification/HipInvariant.v ===== *)
(** What [submit] and [wait] of commands keep: the shape of the world, the mutexes, and any
    invariant that their elementary steps keep; and that they return. *)

From S2P Require Import Prelude HipStream.

(** * How a world evolves *)

(** A command later: what does not change, and a chain from which commands are taken. *)
Record later (x y : command) : Prop := {
  lt_type : ctype y = ctype x;
  lt_deps : m_recorded_commands y = m_recorded_commands x;
  lt_rstream : m_recorded_stream y = m_recorded_stream x;
  lt_cached : cached y = cached x;
  lt_chain : m_chain_of_commands y `suffix_of` m_chain_of_commands x;
  lt_done : ctype x <> event -> cstate x = completed -> cstate y = completed;
  lt_init : cstate x <> init -> cstate y <> init;
}.

#[export] Instance later_preorder : PreOrder later.
Proof.
  split; [by split|]. intros x y z [H1 H2 H3 H4 H5 H6 H7] [G1 G2 G3 G4 G5 G6 G7]. split; [congruence..|by etrans| |by eauto].
  intros Ht Hs. apply G6; [by rewrite H1|by apply H6].
Qed.

Record evolves (w w' : world) : Prop := {
  ev_held : held w' = held w;
  ev_streams : streams w' = streams w;
  ev_commands : Forall2 later (commands w) (commands w');
  ev_history : history w `prefix_of` history w';
}.

#[export] Instance evolves_preorder : PreOrder evolves.
Proof. split; [by split|]. intros w w' w'' [] []. split; [congruence..|by etrans|by etrans]. Qed.

(** Commands of the application without graphs. *)
Definition plain_types : list cmd_type := [event; kernel_start; mem_cpy].
Definition plain (w : world) : Prop := Forall (fun x => ctype x ∈ plain_types) (commands w).

Lemma evolves_length w w' : evolves w w' -> length (commands w') = length (commands w).
Proof. intros []. symmetry. by eapply Forall2_length. Qed.

Lemma evolves_plain w w' : evolves w w' -> plain w -> plain w'.
Proof.
  intros [_ _ Hc _] Hp. unfold plain in *. revert Hp. induction Hc as [|x y l l' Hl _ IH]; [done|]. intros [H1 H2]%Forall_cons.
  apply Forall_cons. split; [|by apply IH]. by rewrite (lt_type _ _ Hl).
Qed.

Lemma evolves_lookup w w' c x : evolves w w' -> commands w !! c = Some x -> exists y, commands w' !! c = Some y /\ later x y.
Proof. intros [_ _ Hc _] Hx. by eapply Forall2_lookup_l. Qed.

Lemma plain_lookup w c x : plain w -> commands w !! c = Some x -> ctype x = event \/ ctype x = kernel_start \/ ctype x = mem_cpy.
Proof. intros Hp Hx. pose proof (Forall_lookup_1 _ _ _ _ Hp Hx) as H. unfold plain_types in H. set_solver. Qed.

(** ** Mutexes *)

Definition free_locks (w : world) : nat :=
  length (filter (fun l => l ∉ held w) ((m_recorded_cmds_lock <$> seq 0 (length (commands w))) ++ (m_chain_cmds_lock <$> seq 0 (length (commands w))))).

Lemma free_locks_bound w : (free_locks w <= 2 * length (commands w))%nat.
Proof. unfold free_locks. etrans; [apply length_filter|]. rewrite length_app, !length_fmap, !length_seq. lia. Qed.

Lemma filter_less {A} (P Q : A -> Prop) `{!forall x, Decision (P x), !forall x, Decision (Q x)} (l : list A) x :
  (forall y, Q y -> P y) -> x ∈ l -> P x -> ~ Q x -> (length (filter Q l) < length (filter P l))%nat.
Proof.
  intros HQP Hx HP HQ. assert (forall l, length (filter Q l) <= length (filter P l))%nat as Hle.
  { clear -HQP. induction l as [|y l IH]; [done|]. rewrite !filter_cons. destruct (decide (Q y)), (decide (P y)); cbn; naive_solver lia. }
  induction Hx as [x l|x y l Hx IH]; rewrite !filter_cons.
  - rewrite decide_False, decide_True by done. cbn. specialize (Hle l). lia.
  - specialize (IH HP HQ). destruct (decide (Q y)), (decide (P y)); cbn; naive_solver lia.
Qed.

Lemma free_locks_held w l c x :
  commands w !! c = Some x -> l ∉ held w -> l ∈ [m_recorded_cmds_lock c; m_chain_cmds_lock c] -> (free_locks (on_held (cons l) w) < free_locks w)%nat.
Proof.
  intros Hx Hn Hl. assert (c < length (commands w))%nat by by eapply lookup_lt_Some.
  apply (filter_less _ _ _ l); cbn; [set_solver| |done|set_solver]. apply elem_of_app.
  rewrite !list_elem_of_fmap. assert (c ∈ seq 0 (length (commands w))) by (apply elem_of_seq; lia). set_solver.
Qed.

Lemma evolves_free w w' : evolves w w' -> free_locks w' = free_locks w.
Proof. intros He. unfold free_locks. by rewrite (evolves_length _ _ He), (ev_held _ _ He). Qed.

(** ** Elementary steps *)

Lemma evolves_on_cmd w c f : (forall x, commands w !! c = Some x -> later x (f x)) -> evolves w (on_commands (alter f c) w).
Proof.
  intros Hf. split; try done. cbn. apply Forall2_same_length_lookup. rewrite length_alter. split; [done|]. intros i x y Hx.
  destruct (decide (i = c)) as [->|Hne]; [rewrite list_lookup_alter_eq, Hx|rewrite list_lookup_alter_ne, Hx by done]; intros [= <-]; [by apply Hf|done].
Qed.

Lemma lookup_on_cmd w c f i : commands (on_commands (alter f c) w) !! i = (if decide (i = c) then f <$> commands w !! i else commands w !! i).
Proof. cbn. destruct (decide (i = c)) as [->|Hne]; [by rewrite list_lookup_alter_eq|by rewrite list_lookup_alter_ne]. Qed.

(** * Invariants of the elementary steps *)

(** [F c h]: what is known for ever once the command [c] is complete; [P c h]: what allows to
    submit [c]. *)
Record stable (I : world -> Prop) (F P : nat -> list action -> Prop) : Prop := {
  st_F : forall c h h', F c h -> F c (h ++ h');
  st_P : forall c h h', P c h -> P c (h ++ h');
  st_held : forall w f, I w -> I (on_held f w);
  st_completed : forall w c x, I w -> commands w !! c = Some x -> cstate x = completed -> F c (history w);
  st_chain : forall w e x c, I w -> commands w !! e = Some x -> ctype x = event -> cstate x = completed -> c ∈ m_chain_of_commands x -> P c (history w);
  st_state : forall w e x s, I w -> commands w !! e = Some x -> ctype x = event -> s ∈ [recorded; running; error] ->
    I (on_commands (alter (set_state_of s) e) w);
  st_complete : forall w e x t, I w -> commands w !! e = Some x -> ctype x = event ->
    cstate x = completed \/ (forall d, d ∈ m_recorded_commands x -> F d (history w)) ->
    I (on_commands (alter (set_time_of t ∘ set_state_of completed) e) (set_clock (t + 1) w));
  st_pop : forall w e x, I w -> commands w !! e = Some x -> ctype x = event ->
    I (on_commands (alter (fun x => set_chain (tail (m_chain_of_commands x)) x) e) w);
  st_start : forall w c x, I w -> commands w !! c = Some x -> ctype x = kernel_start -> cstate x = init -> P c (history w) ->
    I (on_commands (alter (set_state_of running) c) (on_history (fun l => l ++ [Start c]) w));
  st_done : forall w c x, I w -> commands w !! c = Some x -> ctype x = kernel_start -> cstate x = running ->
    I (on_commands (alter (set_state_of completed) c) (on_history (fun l => l ++ [Done c]) w));
  st_failed : forall w c x, I w -> commands w !! c = Some x -> ctype x = kernel_start -> cstate x = running ->
    I (on_commands (alter (set_state_of error) c) w);
  st_copy : forall w c x, I w -> commands w !! c = Some x -> ctype x = mem_cpy -> P c (history w) ->
    I (on_commands (alter (set_handle true) c) (on_history (fun l => l ++ [Start c]) w));
  st_copied : forall w c x, I w -> commands w !! c = Some x -> ctype x = mem_cpy ->
    I (on_commands (alter (set_state_of completed) c) (on_history (fun l => l ++ [Done c]) w));
}.

Section sound.
Context (I : world -> Prop) (F P : nat -> list action -> Prop) (St : stable I F P).
Context (b : Prop).

(** The routine keeps the invariant and evolves the world; with enough fuel ([b]) it does not
    run out of it. *)
Definition sound {A} (m : H A) (w : world) (Q : A -> world -> Prop) : Prop :=
  wp m (fun a w' => I w' /\ evolves w w' /\ Q a w') (fun e w' => I w' /\ evolves w w' /\ (b -> e <> out_of_fuel)) w.

Lemma sound_ret {A} (a : A) w Q : I w -> Q a w -> sound (ret a) w Q.
Proof. intros. by apply wp_ret. Qed.

Lemma sound_raise {A} e w (Q : A -> world -> Prop) : I w -> e <> out_of_fuel -> sound (raise e) w Q.
Proof. intros. by apply wp_raise. Qed.

Lemma sound_bind {A B} (m : H A) (k : A -> H B) w Q Q' :
  sound m w Q -> (forall a w', I w' -> evolves w w' -> Q a w' -> sound (k a) w' Q') -> sound (bind m k) w Q'.
Proof.
  intros Hm Hk. apply wp_bind. eapply wp_mono; [exact Hm| |done]. cbn. intros a w' (Hi & He & HQ).
  eapply wp_mono; [by apply (Hk a w')| |]; cbn; intros ? w'' (? & ? & ?); (split_and!; [done|by etrans|done]).
Qed.

Lemma sound_mono {A} (m : H A) w (Q Q' : A -> world -> Prop) :
  sound m w Q -> (forall a w', I w' -> evolves w w' -> Q a w' -> Q' a w') -> sound m w Q'.
Proof. intros Hm HQ. eapply wp_mono; [exact Hm| |done]. cbn. naive_solver. Qed.

Lemma sound_get {A} c (k : command -> H A) w Q :
  I w -> (forall x, commands w !! c = Some x -> sound (k x) w Q) -> sound (bind (get_cmd c) k) w Q.
Proof. intros Hi Hk. unfold sound, wp, bind, get_cmd. destruct (commands w !! c) as [x|] eqn:E; [apply (Hk x eq_refl)|done]. Qed.

Lemma sound_state {A} c (k : cmd_state -> H A) w Q :
  I w -> (forall x, commands w !! c = Some x -> sound (k (cstate x)) w Q) -> sound (bind (get_state c) k) w Q.
Proof.
  intros Hi Hk. unfold sound, wp, bind, get_state, bind, get_cmd, ret. destruct (commands w !! c) as [x|] eqn:E; [apply (Hk x eq_refl)|done].
Qed.

Lemma evolves_held w w' l : l ∉ held w -> evolves (on_held (cons l) w) w' -> evolves w (on_held (filter (fun x => x <> l)) w').
Proof.
  intros Hn [H1 H2 H3 H4]. split; try done. cbn in *. rewrite H1, filter_cons, decide_False by (intros Hc; by apply Hc).
  clear -Hn. induction (held w) as [|y t IH]; [done|]. apply not_elem_of_cons in Hn as [Hne Hn]. rewrite filter_cons, decide_True by done. f_equal. by apply IH.
Qed.

Lemma sound_lock {A} l (m : H A) w (Q : A -> world -> Prop) :
  I w -> (forall a w' f, Q a w' -> Q a (on_held f w')) -> (l ∉ held w -> sound m (on_held (cons l) w) Q) -> sound (with_lock l m) w Q.
Proof.
  intros Hi HQ Hm. unfold sound, wp, with_lock. case_bool_decide as Hl; [done|]. specialize (Hm Hl). unfold sound, wp in Hm.
  destruct (m _) as [a w'|e w']; destruct Hm as (H1 & H2 & H3); (split_and!; [by apply (st_held _ _ _ St)|by apply evolves_held|]); [by apply HQ|done].
Qed.

(** A change of one command. *)
Lemma sound_cmd c f w (Q : unit -> world -> Prop) x :
  commands w !! c = Some x -> later x (f x) -> I (on_commands (alter f c) w) -> Q tt (on_commands (alter f c) w) -> sound (on_cmd c f) w Q.
Proof.
  intros Hx Hl Hi HQ. apply wp_modify. split_and!; [done| |done]. apply evolves_on_cmd. intros y Hy. by replace y with x by congruence.
Qed.
End sound.

Section calls.
Context (I : world -> Prop) (F P : nat -> list action -> Prop) (St : stable I F P).
Context (start_ok run_ok : nat -> bool).

Lemma sound_weaken {A} (b b' : Prop) (m : H A) w Q : sound I b m w Q -> (b' -> b) -> sound I b' m w Q.
Proof. intros Hm Hb. eapply wp_mono; [exact Hm|done|]. cbn. naive_solver. Qed.

(** What is assumed of the calls of other commands. *)
Definition calls_sound (call : op -> nat -> H bool) (n : nat) : Prop := forall o c w,
  plain w -> I w -> (o = Submit -> P c (history w)) -> sound I (free_locks w < n)%nat (call o c) w (fun _ _ => True).

Context (call : op -> nat -> H bool) (n : nat) (Hcall : calls_sound call n).

Lemma F_evolves w w' c : evolves w w' -> F c (history w) -> F c (history w').
Proof. intros [_ _ _ [h ->]]. apply (st_F _ _ _ St). Qed.

Lemma P_evolves w w' c : evolves w w' -> P c (history w) -> P c (history w').
Proof. intros [_ _ _ [h ->]]. apply (st_P _ _ _ St). Qed.

Lemma check_dependencies_sound wait l w :
  plain w -> I w ->
  sound I (free_locks w < n)%nat (check_dependencies call wait l) w (fun r w' => r = Completed -> forall d, d ∈ l -> F d (history w')).
Proof.
  revert w. induction l as [|d l IH]; intros w Hp Hi; cbn [check_dependencies]; [apply sound_ret; [done|set_solver]|].
  eapply (sound_bind _ _ _ _ _ (fun _ _ => True)).
  { destruct wait; [|by apply sound_ret]. eapply sound_bind; [by apply Hcall|]. intros a w' Hi' _ _. by apply sound_ret. }
  intros _ w1 Hi1 He1 _. apply sound_state; [done|]. intros x Hx. case_bool_decide as Hc.
  - pose proof (st_completed _ _ _ St w1 d x Hi1 Hx Hc) as HF. eapply sound_mono.
    + eapply sound_weaken; [apply IH; [by eapply evolves_plain|done]|]. by rewrite (evolves_free _ _ He1).
    + cbn. intros r w2 _ He2 Hr -> d' [->|Hd]%elem_of_cons; [by eapply F_evolves|by apply Hr].
  - destruct (_ <? _)%nat; by apply sound_ret.
Qed.

Lemma launch_chain_sound e l w :
  plain w -> I w -> (exists x, commands w !! e = Some x /\ ctype x = event) -> (forall c, c ∈ l -> P c (history w)) ->
  sound I (free_locks w < n)%nat (launch_chain call e l) w (fun _ _ => True).
Proof.
  revert w. induction l as [|c l IH]; intros w Hp Hi (x & Hx & Ht) HP; cbn [launch_chain]; [by apply sound_ret|].
  eapply sound_bind; [apply Hcall; [done|done|intros _; apply HP; set_solver]|]. intros _ w1 Hi1 He1 _.
  destruct (evolves_lookup _ _ _ _ He1 Hx) as (y & Hy & Hl). assert (ctype y = event) as Hty by (rewrite (lt_type _ _ Hl); done).
  eapply (sound_bind _ _ _ _ _ (fun _ _ => True)).
  { apply (sound_cmd _ _ _ _ _ _ y); [done| |by apply (st_pop _ _ _ St w1 e y)|done]. split; try done. cbn. destruct (m_chain_of_commands y); [done|]. by exists [n0]. }
  intros _ w2 Hi2 He2 _. assert (evolves w w2) as He by by etrans.
  eapply sound_weaken; [apply IH|by rewrite (evolves_free _ _ He)].
  - by eapply evolves_plain.
  - done.
  - destruct (evolves_lookup _ _ _ _ He2 Hy) as (z & Hz & Hlz). exists z. split; [done|]. by rewrite (lt_type _ _ Hlz).
  - intros c' Hc'. eapply P_evolves; [exact He|]. apply HP. set_solver.
Qed.

(** The event with its type, and its state where it matters. *)
Definition is_event (w : world) (e : nat) (c : bool) : Prop :=
  exists x, commands w !! e = Some x /\ ctype x = event /\ (c = true -> cstate x = completed).

Lemma is_event_evolves w w' e c : evolves w w' -> is_event w e c -> is_event w' e false.
Proof. intros He (x & Hx & Ht & _). destruct (evolves_lookup _ _ _ _ He Hx) as (y & Hy & Hl). exists y. split_and!; [done| |done]. by rewrite (lt_type _ _ Hl). Qed.

Lemma set_state_sound b e w s :
  I w -> is_event w e false -> s ∈ [recorded; running; error] -> sound I b (set_state e s) w (fun _ w' => is_event w' e false).
Proof.
  intros Hi (x & Hx & Ht & _) Hs. apply (sound_cmd _ _ _ _ _ _ x); [done|split; try done; cbn; set_solver|by eapply (st_state _ _ _ St)|].
  exists (set_state_of s x). rewrite lookup_on_cmd, decide_True by done. by rewrite Hx.
Qed.

Lemma complete_eq e w :
  (set_state e completed ;;; t <- now ;; on_cmd e (set_time_of t) ;;; ret true) w =
  Ok true (on_commands (alter (set_time_of (clock w) ∘ set_state_of completed) e) (set_clock (clock w + 1) w)).
Proof.
  unfold set_state, on_cmd, now, bind, gets, modify, ret. f_equal. destruct w; unfold on_commands, set_clock; cbn. f_equal.
  apply list_eq. intros i. destruct (decide (i = e)) as [->|]; [rewrite !list_lookup_alter_eq; by destruct (commands !! e)|by rewrite !list_lookup_alter_ne].
Qed.

Lemma complete_sound b e w :
  I w -> (exists x, commands w !! e = Some x /\ ctype x = event /\ (cstate x = completed \/ forall d, d ∈ m_recorded_commands x -> F d (history w))) ->
  sound I b (set_state e completed ;;; t <- now ;; on_cmd e (set_time_of t) ;;; ret true) w (fun _ w' => is_event w' e true).
Proof.
  intros Hi (x & Hx & Ht & Hd). set (t := clock w).
  unfold sound, wp. rewrite complete_eq. fold t. split_and!.
  - by apply (st_complete _ _ _ St w e x).
  - etrans; [|apply evolves_on_cmd; intros y Hy; by split]. by split.
  - exists (set_time_of t (set_state_of completed x)). rewrite lookup_on_cmd, decide_True by done. cbn [commands set_clock]. by rewrite Hx.
Qed.

Lemma check_and_launch_sound e wait w :
  plain w -> I w -> is_event w e false -> sound I (free_locks w < S n)%nat (check_and_launch_chain call e wait) w (fun _ _ => True).
Proof.
  intros Hp Hi He. unfold check_and_launch_chain.
  eapply (sound_bind _ _ _ _ _ (fun r w' => match r with Some c => is_event w' e c | None => True end)).
  { apply (sound_lock _ _ _ St); [done|by intros [c|] w' f|]. intros Hl. apply sound_state; [by apply (st_held _ _ _ St)|]. intros x Hx.
    destruct He as (x' & Hx' & Ht & _). cbn in Hx. assert (x' = x) as -> by congruence.
    destruct (_ || _); [by apply sound_ret; [apply (st_held _ _ _ St)|]|]. case_bool_decide as Hc.
    - apply sound_ret; [by apply (st_held _ _ _ St)|]. by exists x.
    - eapply sound_bind; [apply set_state_sound; [by apply (st_held _ _ _ St)|by exists x|set_solver]|]. intros ? w' Hi' _ He'. by apply sound_ret. }
  intros [c|] w1 Hi1 He1 Hev; [|by apply sound_ret].
  assert (plain w1) as Hp1 by by eapply evolves_plain.
  eapply (sound_bind _ _ _ _ _ (fun r w' => is_event w' e false /\ (r = Completed ->
    exists x, commands w' !! e = Some x /\ ctype x = event /\ (cstate x = completed \/ forall d, d ∈ m_recorded_commands x -> F d (history w'))))).
  { destruct c.
    - apply sound_ret; [done|]. destruct Hev as (x & Hx & Ht & Hc). split; [by exists x|]. intros _. exists x. naive_solver.
    - apply (sound_lock _ _ _ St); [done|by intros r w' f|]. intros Hl. apply sound_get; [by apply (st_held _ _ _ St)|]. intros x Hx.
      set (w1' := on_held _ w1) in *. assert (free_locks w1' < free_locks w1)%nat as Hfree by (eapply free_locks_held; [exact Hx|done|set_solver]).
      eapply sound_mono; [eapply sound_weaken; [apply check_dependencies_sound; [done|by apply (st_held _ _ _ St)]|]|].
      + rewrite (evolves_free _ _ He1) in Hfree. lia.
      + cbn. intros r w2 Hi2 He2 Hr. destruct Hev as (x' & Hx' & Ht & _). cbn in Hx. assert (x' = x) as -> by congruence.
        destruct (evolves_lookup _ _ _ _ He2 Hx) as (y & Hy & Hly). assert (ctype y = event) by (rewrite (lt_type _ _ Hly); done).
        split; [by exists y|]. intros Hc. exists y. split_and!; [done|done|]. right. rewrite (lt_deps _ _ Hly). by apply Hr. }
  intros r w2 Hi2 He2 [Hev2 Hr]. assert (evolves w w2) as He02 by by etrans.
  eapply (sound_bind _ _ _ _ _ (fun go w' => go = true -> is_event w' e true)).
  { apply (sound_lock _ _ _ St); [done|by intros go w' f|]. intros Hl. destruct r.
    - eapply sound_mono; [apply complete_sound; [by apply (st_held _ _ _ St)|by apply Hr]|done].
    - eapply sound_bind; [apply set_state_sound; [by apply (st_held _ _ _ St)|done|set_solver]|]. intros ? w' Hi' _ _. by apply sound_ret.
    - eapply sound_bind; [apply set_state_sound; [by apply (st_held _ _ _ St)|done|set_solver]|]. intros ? w' Hi' _ _. by apply sound_raise. }
  intros [] w3 Hi3 He3 Hgo; [|by apply sound_ret]. specialize (Hgo eq_refl). assert (evolves w w3) as He03 by by etrans.
  eapply (sound_bind _ _ _ _ _ (fun _ _ => True)); [|intros ? w' Hi' _ _; by apply sound_ret].
  apply (sound_lock _ _ _ St); [done|done|]. intros Hl. apply sound_get; [by apply (st_held _ _ _ St)|]. intros x Hx.
  destruct Hgo as (x' & Hx' & Ht & Hc). cbn in Hx. assert (x' = x) as -> by congruence.
  assert (free_locks (on_held (cons (m_chain_cmds_lock e)) w3) < free_locks w3)%nat as Hfree by (eapply free_locks_held; [exact Hx|done|set_solver]).
  eapply sound_weaken; [apply launch_chain_sound|rewrite (evolves_free _ _ He03) in Hfree; lia].
  - by apply (evolves_plain w w3).
  - by apply (st_held _ _ _ St).
  - by exists x.
  - intros c' Hc'. by apply (st_chain _ _ _ St w3 e x c' Hi3 Hx Ht (Hc eq_refl)).
Qed.

(** A step of the history, and a change of its command. *)
Lemma act_sound b a c f w x :
  commands w !! c = Some x -> later x (f x) -> I (on_commands (alter f c) (on_history (fun l => l ++ [a]) w)) ->
  sound I b (log a ;;; on_cmd c f ;;; ret true) w (fun _ _ => True).
Proof.
  intros Hx Hl Hi. unfold sound, wp, log, on_cmd, bind, modify, ret. split_and!; [done| |done].
  etrans; [|apply evolves_on_cmd; cbn; intros y Hy; by replace y with x by congruence]. split; try done. by exists [a].
Qed.

Lemma submit_sound c w :
  plain w -> I w -> P c (history w) -> sound I (free_locks w < S n)%nat (submit_command start_ok call c) w (fun _ _ => True).
Proof.
  intros Hp Hi HP. apply sound_get; [done|]. intros x Hx. destruct (plain_lookup w c x Hp Hx) as [Ht|[Ht|Ht]]; rewrite Ht.
  - apply check_and_launch_sound; [done|done|by exists x].
  - unfold kernel_start_submit. destruct (cstate x) eqn:Es; try by apply sound_ret. destruct (start_ok c); [|by apply sound_raise].
    apply (act_sound _ _ _ _ _ x); [done|split; naive_solver congruence|by eapply (st_start _ _ _ St)].
  - apply (act_sound _ _ _ _ _ x); [done|by split|by eapply (st_copy _ _ _ St)].
Qed.

Lemma wait_sound c w :
  plain w -> I w -> sound I (free_locks w < S n)%nat (wait_command run_ok call c) w (fun _ _ => True).
Proof.
  intros Hp Hi. apply sound_get; [done|]. intros x Hx. destruct (plain_lookup w c x Hp Hx) as [Ht|[Ht|Ht]]; rewrite Ht.
  - apply check_and_launch_sound; [done|done|by exists x].
  - unfold kernel_start_wait. destruct (cstate x) eqn:Es; try by apply sound_ret. destruct (run_ok c).
    + apply (act_sound _ _ _ _ _ x); [done|by split|by eapply (st_done _ _ _ St)].
    + eapply (sound_bind _ _ _ _ _ (fun _ _ => True)); [|intros ? w' Hi' _ _; by apply sound_raise].
      apply (sound_cmd _ _ _ _ _ _ x); [done|split; naive_solver congruence|by eapply (st_failed _ _ _ St)|done].
  - unfold memcpy_wait. destruct (m_handle x); [|by apply sound_raise]. apply (act_sound _ _ _ _ _ x); [done|by split|by eapply (st_copied _ _ _ St)].
Qed.
End calls.

(** [submit] and [wait] keep every invariant of the elementary steps, and return with fuel for
    the free mutexes. *)
Lemma call_sound I F P start_ok run_ok (St : stable I F P) fuel : calls_sound I P (call start_ok run_ok fuel) fuel.
Proof.
  induction fuel as [|fuel IH]; intros o c w Hp Hi HP; cbn [call].
  - apply wp_raise. split_and!; [done|done|]. lia.
  - destruct o; [eapply submit_sound; eauto|eapply wait_sound; eauto].
Qed.

Lemma run_call_sound I F P start_ok run_ok (St : stable I F P) o c w :
  plain w -> I w -> (o = Submit -> P c (history w)) -> sound I True (run_call start_ok run_ok o c) w (fun _ _ => True).
Proof.
  intros Hp Hi HP. eapply sound_weaken; [by apply (call_sound I F P start_ok run_ok St)|]. intros _. unfold fuel_of. pose proof (free_locks_bound w). lia.
Qed.
