(* ===== verification/HipCalls.v ===== *)
(** The calls of an application as steps, the worlds they lead to, and what all of them keep: a
    well-formed world, free mutexes, and any invariant of their elementary steps; that
    they return; and the invariants of the life of kernels and the order of streams. *)

From S2P Require Import Prelude HipStream HipInvariant.

(** * Calls *)

Inductive api :=
| StreamCreate (flags : Z) | StreamDestroy (h : option nat) | StreamSynchronize (h : option nat) | StreamWaitEvent (h : option nat) (ev : nat) (flags : Z)
| EventCreate | EventDestroy (ev : nat) | EventRecord (ev : nat) (h : option nat) | EventSynchronize (ev : nat) | EventQuery (ev : nat)
| LaunchKernel (h : option nat) | MemcpyAsync (h : option nat).

Definition ignore {A} (m : H A) : H unit := _ <- m ;; ret tt.

Section run.
Context (start_ok run_ok : nat -> bool).

Definition run (a : api) : H unit :=
  match a with
  | StreamCreate flags => ignore (hip_stream_create_with_flags flags)
  | StreamDestroy h => hip_stream_destroy h
  | StreamSynchronize h => hip_stream_synchronize start_ok run_ok h
  | StreamWaitEvent h ev flags => hip_stream_wait_event start_ok run_ok h ev flags
  | EventCreate => ignore hip_event_create
  | EventDestroy ev => hip_event_destroy ev
  | EventRecord ev h => hip_event_record start_ok run_ok ev h
  | EventSynchronize ev => hip_event_synchronize start_ok run_ok ev
  | EventQuery ev => ignore (hip_event_query ev)
  | LaunchKernel h => ignore (hip_module_launch_kernel start_ok run_ok h)
  | MemcpyAsync h => ignore (hip_memcpy_async start_ok run_ok h)
  end.

(** Exceptions become error codes ([handle_hip_func_error]) and the application goes on. *)
Definition after (r : result world stop unit) : option world :=
  match r with
  | Ok _ w | Err (hip_error _) w | Err std_error w => Some w
  | Err _ _ => None
  end.

Inductive steps (allowed : api -> Prop) (w : world) : world -> Prop :=
| steps_refl : steps allowed w w
| steps_call a w1 w2 : steps allowed w w1 -> allowed a -> after (run a w1) = Some w2 -> steps allowed w w2.

Definition reach (w : world) : Prop := steps (fun _ => True) empty_world w.

Lemma steps_reach allowed w w' : reach w -> steps allowed w w' -> reach w'.
Proof. intros Hr. induction 1; [done|]. by eapply steps_call. Qed.

(** A sequence of calls. *)
Fixpoint play (l : list api) (w : world) : option world :=
  match l with
  | [] => Some w
  | a :: l' => w' ← after (run a w); play l' w'
  end.

Lemma play_steps allowed l w w' : Forall allowed l -> play l w = Some w' -> steps allowed w w'.
Proof.
  intros Ha. assert (forall w0, steps allowed w0 w -> play l w = Some w' -> steps allowed w0 w') as H; [|apply H, steps_refl].
  revert w. induction Ha as [|a l Ha _ IH]; intros w w0 Hs; cbn [play]; [by intros [= <-]|].
  destruct (after (run a w)) as [w1|] eqn:E; [|done]. apply IH. by eapply steps_call.
Qed.

Lemma play_reach l w : play l empty_world = Some w -> reach w.
Proof. intros Hp. eapply play_steps; [|exact Hp]. apply Forall_forall. done. Qed.
End run.

(** * What the calls keep *)

(** The further elementary steps: [rec_ok] are the events that may be recorded, [new_ok] what
    may be put into a chain. *)
Record stable_calls (I : world -> Prop) (P : nat -> list action -> Prop) (rec_ok : nat -> Prop) (new_ok : nat -> Prop) : Prop := {
  sc_streams : forall w f, I w -> I (on_streams f w);
  sc_insert : forall w t, I w -> t ∈ plain_types -> I (on_commands (fun l => l ++ [new_command t]) w);
  sc_cached : forall w c b, I w -> I (on_commands (alter (set_cached b) c) w);
  sc_dep : forall w e x c, I w -> commands w !! e = Some x -> ctype x = event ->
    I (on_commands (alter (fun x => set_recorded_commands (m_recorded_commands x ++ [c]) x) e) w);
  sc_chain : forall w e x c, I w -> commands w !! e = Some x -> ctype x = event -> is_Some (commands w !! c) -> new_ok c ->
    I (on_commands (alter (fun x => set_chain (m_chain_of_commands x ++ [c]) x) e) w);
  sc_record : forall w e x s, I w -> commands w !! e = Some x -> ctype x = event -> rec_ok e ->
    I (on_commands (alter (set_state_of recording ∘ set_recorded_stream s) e) w);
  sc_clear : forall w e x, I w -> commands w !! e = Some x -> ctype x = event -> rec_ok e ->
    I (on_commands (alter (set_recorded_commands []) e) w);
  sc_new : forall w c, I w -> new_ok c -> P c (history w);
  sc_event : forall w e x, I w -> commands w !! e = Some x -> ctype x = event -> new_ok e;
  sc_fresh : forall w, I w -> new_ok (length (commands w));
}.

(** Commands keep their types, and what is not an event stays complete. *)
Definition grows (w w' : world) : Prop := forall c x, commands w !! c = Some x ->
  exists y, commands w' !! c = Some y /\ ctype y = ctype x /\ (ctype x <> event -> cstate x = completed -> cstate y = completed).

#[export] Instance grows_preorder : PreOrder grows.
Proof.
  split; [by intros w c x Hx; exists x|]. intros w w' w'' H1 H2 c x Hx. destruct (H1 _ _ Hx) as (y & Hy & E1 & D1), (H2 _ _ Hy) as (z & Hz & E2 & D2).
  exists z. split_and!; [done|congruence|]. intros Ht Hs. apply D2; [by rewrite E1|by apply D1].
Qed.

Definition event_at (w : world) (e : nat) : Prop := exists x, commands w !! e = Some x /\ ctype x = event.

Lemma grows_event w w' e : grows w w' -> event_at w e -> event_at w' e.
Proof. intros Hg (x & Hx & Ht). destruct (Hg _ _ Hx) as (y & Hy & E & _). exists y. split; [done|congruence]. Qed.

Lemma grows_some w w' c : grows w w' -> is_Some (commands w !! c) -> is_Some (commands w' !! c).
Proof. intros Hg [x Hx]. destruct (Hg _ _ Hx) as (y & Hy & _). by exists y. Qed.

Lemma event_some w e : event_at w e -> is_Some (commands w !! e).
Proof. intros (x & Hx & _). by exists x. Qed.

Lemma evolves_grows w w' : evolves w w' -> grows w w'.
Proof. intros He c x Hx. destruct (evolves_lookup _ _ _ _ He Hx) as (y & Hy & Hl). exists y. split_and!; [done|apply Hl..]. Qed.

(** Top events are events. *)
Definition tops (w : world) : Prop := forall s x e, streams w !! s = Some x -> m_top_event x = Some e -> event_at w e.

Lemma grows_alter w c f :
  (forall x, ctype (f x) = ctype x) -> (forall x, commands w !! c = Some x -> ctype x <> event -> cstate (f x) = cstate x) -> grows w (on_commands (alter f c) w).
Proof.
  intros Hf Hs i x Hx. rewrite lookup_on_cmd. destruct (decide (i = c)) as [->|]; [|by exists x]. exists (f x). rewrite Hx. split_and!; [done|apply Hf|].
  intros Ht E. by rewrite Hs.
Qed.

Lemma plain_alter w c f : (forall x, ctype (f x) = ctype x) -> plain w -> plain (on_commands (alter f c) w).
Proof.
  intros Hf Hp. apply Forall_lookup_2. intros i x. rewrite lookup_on_cmd. destruct (decide (i = c)) as [->|]; [|intros Hx; exact (Forall_lookup_1 _ _ _ _ Hp Hx)].
  destruct (commands w !! c) as [y|] eqn:E; [|done]. intros [= <-]. rewrite Hf. by apply (Forall_lookup_1 _ _ _ _ Hp E).
Qed.

Section keep.
Context (I : world -> Prop) (F P : nat -> list action -> Prop) (rec_ok new_ok : nat -> Prop).
Context (St : stable I F P) (Sc : stable_calls I P rec_ok new_ok).
Context (start_ok run_ok : nat -> bool).

(** The world of the application, with the mutexes [h] held. *)
Record fine (h : list lock) (w : world) : Prop := {
  fn_plain : plain w;
  fn_tops : tops w;
  fn_held : held w = h;
  fn_inv : I w;
}.

Definition keep (h : list lock) {A} (m : H A) (w : world) (Q : A -> world -> Prop) : Prop :=
  wp m (fun a w' => fine h w' /\ grows w w' /\ Q a w') (fun e w' => fine h w' /\ grows w w' /\ e <> out_of_fuel) w.

Lemma keep_ret h {A} (a : A) w Q : fine h w -> Q a w -> keep h (ret a) w Q.
Proof. intros. by apply wp_ret. Qed.

Lemma keep_raise h {A} e w (Q : A -> world -> Prop) : fine h w -> e <> out_of_fuel -> keep h (raise e) w Q.
Proof. intros. by apply wp_raise. Qed.

Lemma keep_bind h {A B} (m : H A) (k : A -> H B) w Q Q' :
  keep h m w Q -> (forall a w', fine h w' -> grows w w' -> Q a w' -> keep h (k a) w' Q') -> keep h (bind m k) w Q'.
Proof.
  intros Hm Hk. apply wp_bind. eapply wp_mono; [exact Hm| |done]. cbn. intros a w' (Hi & He & HQ).
  eapply wp_mono; [by apply (Hk a w')| |]; cbn; intros ? w'' (? & ? & ?); (split_and!; [done|by etrans|done]).
Qed.

Lemma keep_mono h {A} (m : H A) w (Q Q' : A -> world -> Prop) : keep h m w Q -> (forall a w', Q a w' -> Q' a w') -> keep h m w Q'.
Proof. intros Hm HQ. eapply wp_mono; [exact Hm| |done]. cbn. naive_solver. Qed.

Lemma keep_throw h c e w (Q : unit -> world -> Prop) : fine h w -> Q tt w -> keep h (throw_if c e) w Q.
Proof. intros. destruct c; [by apply keep_raise|by apply keep_ret]. Qed.

Lemma keep_get h {A} c (k : command -> H A) w Q :
  fine h w -> (forall x, commands w !! c = Some x -> keep h (k x) w Q) -> keep h (bind (get_cmd c) k) w Q.
Proof. intros Hf Hk. unfold keep, wp, bind, get_cmd. destruct (commands w !! c) as [x|] eqn:E; [apply (Hk x eq_refl)|done]. Qed.

Lemma keep_state h {A} c (k : cmd_state -> H A) w Q :
  fine h w -> (forall x, commands w !! c = Some x -> keep h (k (cstate x)) w Q) -> keep h (bind (get_state c) k) w Q.
Proof.
  intros Hf Hk. unfold keep, wp, bind, get_state, bind, get_cmd, ret. destruct (commands w !! c) as [x|] eqn:E; [apply (Hk x eq_refl)|done].
Qed.

Lemma keep_get_stm h {A} s (k : stream -> H A) w Q :
  fine h w -> (forall x, streams w !! s = Some x -> keep h (k x) w Q) -> keep h (bind (get_stm s) k) w Q.
Proof. intros Hf Hk. unfold keep, wp, bind, get_stm. destruct (streams w !! s) as [x|] eqn:E; [apply (Hk x eq_refl)|done]. Qed.

Lemma fine_held h w f : fine h w -> fine (f h) (on_held f w).
Proof. intros [H1 H2 H3 H4]. split; [done|done|cbn; by rewrite H3|by apply (st_held _ _ _ St)]. Qed.

Lemma filter_lock (l : lock) h : l ∉ h -> filter (fun x => x <> l) (l :: h) = h.
Proof.
  intros Hn. rewrite filter_cons, decide_False by (intros Hc; by apply Hc). induction h as [|y t IH]; [done|].
  apply not_elem_of_cons in Hn as [Hne Hn]. rewrite filter_cons, decide_True by done. f_equal. by apply IH.
Qed.

Lemma keep_lock h {A} l (m : H A) w (Q : A -> world -> Prop) :
  fine h w -> (forall a w' f, Q a w' -> Q a (on_held f w')) -> (l ∉ h -> forall w', fine (l :: h) w' -> grows w w' -> commands w' = commands w -> streams w' = streams w -> keep (l :: h) m w' Q) ->
  keep h (with_lock l m) w Q.
Proof.
  intros Hf HQ Hm. unfold keep, wp, with_lock. rewrite (fn_held _ _ Hf). case_bool_decide as Hl; [done|].
  specialize (Hm Hl (on_held (cons l) w) (fine_held h w (cons l) Hf)). unfold keep, wp in Hm. specialize (Hm (reflexivity (R := grows) w) eq_refl eq_refl).
  destruct (m _) as [a w'|e w']; destruct Hm as (H1 & H2 & H3);
    (split_and!; [rewrite <- (filter_lock l h Hl); by apply (fine_held (l :: h) w' (filter _))|done|]); [by apply HQ|done].
Qed.

Lemma keep_run_call h o c w :
  fine h w -> (o = Submit -> P c (history w)) -> keep h (run_call start_ok run_ok o c) w (fun _ _ => True).
Proof.
  intros [H1 H2 H3 H4] HP. assert (forall w', evolves w w' -> I w' -> fine h w') as Hfine.
  { intros w' He Hi. split; [by eapply evolves_plain| |by rewrite (ev_held _ _ He)|done].
    intros s x e Hs Ht. rewrite (ev_streams _ _ He) in Hs. eapply grows_event; [by apply evolves_grows|by eapply H2]. }
  eapply wp_mono; [by apply (run_call_sound I F P start_ok run_ok St o c w)| |]; cbn.
  - intros r w' (Hi & He & _). split_and!; [by apply Hfine|by apply evolves_grows|done].
  - intros e w' (Hi & He & Hne). split_and!; [by apply Hfine|by apply evolves_grows|by apply Hne].
Qed.

(** Changes of one command, which may not exist. *)
Lemma keep_cmd h c f w :
  fine h w -> (forall x, ctype (f x) = ctype x) -> (forall x, commands w !! c = Some x -> ctype x <> event -> cstate (f x) = cstate x) ->
  (forall x, commands w !! c = Some x -> I (on_commands (alter f c) w)) -> keep h (on_cmd c f) w (fun _ _ => True).
Proof.
  intros [H1 H2 H3 H4] Hf Hst Hi. pose proof (grows_alter w c f Hf Hst) as Hg. apply wp_modify. split; [|done]. split; [by apply plain_alter| |done|].
  - intros s x e Hs Ht. eapply grows_event; [exact Hg|by eapply H2].
  - destruct (commands w !! c) as [x|] eqn:E; [by eapply Hi|]. replace (on_commands (alter f c) w) with w; [done|].
    destruct w. unfold on_commands. cbn in *. f_equal. symmetry. apply list_eq. intros i. destruct (decide (i = c)) as [->|]; [by rewrite list_lookup_alter_eq, E|by rewrite list_lookup_alter_ne].
Qed.

Lemma keep_stm h s f w (Q : unit -> world -> Prop) :
  fine h w -> (forall x e, streams w !! s = Some x -> m_top_event (f x) = Some e -> m_top_event x = Some e \/ event_at w e) ->
  (forall w', commands w' = commands w -> Q tt w') -> keep h (on_stm s f) w Q.
Proof.
  intros [H1 H2 H3 H4] Hf HQ. apply wp_modify. split_and!; [|by intros c x Hx; exists x|by apply HQ]. split; [done| |done|by apply (sc_streams _ _ _ _ Sc)].
  intros i x e. cbn. destruct (decide (i = s)) as [->|].
  - rewrite list_lookup_alter_eq. destruct (streams w !! s) as [y|] eqn:E; [|done]. intros [= <-] Ht. destruct (Hf y e eq_refl Ht); [by eapply H2|done].
  - rewrite list_lookup_alter_ne by done. by apply H2.
Qed.

Lemma keep_try h {A} (m k : H A) w Q :
  keep h m w Q -> (forall w', fine h w' -> grows w w' -> keep h k w' Q) -> keep h (try_catch m k) w Q.
Proof.
  intros Hm Hk. unfold keep, wp, try_catch in *. destruct (m w) as [a w'|e w']; [done|]. destruct Hm as (Hf & Hg & Hne).
  assert (match k w' with Ok a w'' => fine h w'' /\ grows w w'' /\ Q a w'' | Err e w'' => fine h w'' /\ grows w w'' /\ e <> out_of_fuel end) as H.
  { specialize (Hk w' Hf Hg). destruct (k w'); destruct Hk as (? & ? & ?); (split_and!; [done|by etrans|done]). }
  by destruct e.
Qed.

Lemma keep_for_each h {A} (l : list A) (body : A -> H unit) w :
  fine h w -> (forall x w', fine h w' -> grows w w' -> keep h (body x) w' (fun _ _ => True)) -> keep h (for_each l body) w (fun _ _ => True).
Proof.
  revert w. induction l as [|x l IH]; intros w Hf Hb; cbn [for_each]; [by apply keep_ret|].
  eapply keep_bind; [by apply Hb|]. intros _ w' Hf' Hg _. apply IH; [done|]. intros y w'' Hf'' Hg'. apply Hb; [done|by etrans].
Qed.

(** ** Events and streams *)

Lemma keep_add_to_chain h e c w : fine h w -> event_at w e -> is_Some (commands w !! c) -> new_ok c -> keep h (add_to_chain e c) w (fun _ _ => True).
Proof.
  intros Hf (x & Hx & Ht) Hs Hc. apply keep_lock; [done|done|]. intros _ w' Hf' _ Ec _. apply keep_cmd; [done|done|done|]. intros y Hy.
  rewrite Ec in Hy. assert (y = x) as -> by congruence. apply (sc_chain _ _ _ _ Sc w' e x); [apply Hf'|by rewrite Ec|done|by rewrite Ec|done].
Qed.

Lemma keep_add_dependency h e c w : fine h w -> event_at w e -> keep h (add_dependency e c) w (fun _ _ => True).
Proof.
  intros Hf (x & Hx & Ht). apply keep_lock; [done|done|]. intros _ w' Hf' _ Ec _. apply keep_cmd; [done|done|done|]. intros y Hy.
  rewrite Ec in Hy. assert (y = x) as -> by congruence. apply (sc_dep _ _ _ _ Sc w' e x); [apply Hf'|by rewrite Ec|done].
Qed.

Lemma keep_enqueue h s c w : fine h w -> is_Some (commands w !! c) -> new_ok c -> keep h (enqueue (run_call start_ok run_ok) s c) w (fun _ _ => True).
Proof.
  intros Hf Hs Hc. apply keep_lock; [done|done|]. intros _ w1 Hf1 _ Ec _. apply keep_get_stm; [done|]. intros x Hx.
  eapply (keep_bind _ _ _ _ (fun _ _ => True)).
  - destruct (m_top_event x) as [e|] eqn:E; [apply keep_add_to_chain; [done|by eapply (fn_tops _ _ Hf1)|by rewrite Ec|done]|].
    eapply keep_bind; [apply keep_run_call; [done|]|intros ? w2 Hf2 _ _; by apply keep_ret].
    intros _. apply (sc_new _ _ _ _ Sc); [apply Hf1|done].
  - intros _ w2 Hf2 _ _. apply keep_stm; [done|by left|done].
Qed.

Lemma keep_enqueue_event h s ev w : fine h w -> event_at w ev -> keep h (enqueue_event (run_call start_ok run_ok) s ev) w (fun _ _ => True).
Proof.
  intros Hf Hev. eapply (keep_bind _ _ _ _ (fun _ _ => True)).
  - apply keep_lock; [done|done|]. intros _ w1 Hf1 Hg1 _ _. apply keep_get_stm; [done|]. intros x Hx. apply keep_for_each; [done|].
    intros d w2 Hf2 Hg2. apply keep_add_dependency; [done|]. eapply grows_event; [|exact Hev]. by etrans.
  - intros _ w1 Hf1 Hg1 _. apply keep_enqueue; [done|by eapply grows_some, event_some|]. destruct (grows_event _ _ _ Hg1 Hev) as (x & Hx & Ht).
    eapply (sc_event _ _ _ _ Sc); [apply Hf1|done|done].
Qed.

Lemma keep_record_top h s ev w : fine h w -> event_at w ev -> keep h (record_top_event s ev) w (fun _ _ => True).
Proof.
  intros Hf Hev. apply keep_lock; [done|done|]. intros _ w1 Hf1 Hg1 _ _. apply keep_get_stm; [done|]. intros x Hx.
  eapply (keep_bind _ _ _ _ (fun _ _ => True)).
  - destruct (m_top_event x) as [old|]; [|by apply keep_ret]. apply keep_add_dependency; [done|by eapply grows_event].
  - intros _ w2 Hf2 Hg2 _. apply keep_stm; [done| |done]. intros y e _ [= <-]. right. eapply grows_event; [|exact Hev]. by etrans.
Qed.

Lemma keep_set_state h e s w : fine h w -> event_at w e -> s ∈ [recorded; running; error] -> keep h (set_state e s) w (fun _ _ => True).
Proof.
  intros Hf (x & Hx & Ht) Hs. apply keep_cmd; [done|done|intros y Hy; congruence|]. intros y Hy. assert (y = x) as -> by congruence.
  eapply (st_state _ _ _ St); [apply Hf|done|done|done].
Qed.

Lemma keep_locked_state h e w : fine h w -> event_at w e -> keep h (with_lock (m_state_lock e) (set_state e recorded)) w (fun _ _ => True).
Proof.
  intros Hf He. apply keep_lock; [done|done|]. intros _ w1 Hf1 Hg1 _ _. apply keep_set_state; [done|by eapply grows_event|set_solver].
Qed.

Lemma on_cmd_on_cmd c f g w : (on_cmd c f ;;; on_cmd c g) w = on_cmd c (g ∘ f) w.
Proof.
  unfold on_cmd, bind, modify, on_commands. cbn. do 2 f_equal. apply list_eq. intros i.
  destruct (decide (i = c)) as [->|]; [rewrite !list_lookup_alter_eq; by destruct (commands w !! c)|by rewrite !list_lookup_alter_ne].
Qed.

Lemma keep_record h ev s w :
  fine h w -> event_at w ev -> rec_ok ev -> keep h (record (run_call start_ok run_ok) ev s) w (fun _ _ => True).
Proof.
  intros Hf Hev Hr. apply keep_get; [done|]. intros x Hx. eapply keep_bind; [by apply keep_throw with (Q := fun _ _ => True)|].
  intros _ w1 Hf1 Hg1 _. eapply (keep_bind _ _ _ _ (fun _ _ => True)).
  { apply keep_lock; [done|done|]. intros _ w2 Hf2 Hg2 _ _. apply keep_state; [done|]. intros y Hy.
    eapply keep_bind; [by apply keep_throw with (Q := fun _ w3 => w3 = w2)|]. intros _ ? _ _ ->.
    destruct (grows_event w w2 ev ltac:(by etrans) Hev) as (z & Hz & Ht).
    unfold keep, wp. unfold set_state. rewrite on_cmd_on_cmd. apply keep_cmd; [done|done|intros z' Hz'; congruence|]. intros z' Hz'.
    assert (z' = z) as -> by congruence.
    eapply (sc_record _ _ _ _ Sc); [apply Hf2|done|done|done]. }
  intros _ w2 Hf2 Hg2 _. eapply (keep_bind _ _ _ _ (fun _ _ => True)).
  { apply keep_lock; [done|done|]. intros _ w3 Hf3 Hg3 _ _. apply keep_cmd; [done|done|done|]. intros z Hz.
    destruct (grows_event w w3 ev ltac:(etrans; [exact Hg1|]; by etrans) Hev) as (z' & Hz' & Ht). assert (z' = z) as -> by congruence.
    eapply (sc_clear _ _ _ _ Sc); [apply Hf3|done|done|done]. }
  intros _ w3 Hf3 Hg3 _. assert (grows w w3) as Hg by (etrans; [exact Hg1|]; by etrans).
  eapply (keep_bind _ _ _ _ (fun _ _ => True)).
  { destruct s; [|by apply keep_raise]. apply keep_enqueue_event; [done|by eapply grows_event]. }
  intros _ w4 Hf4 Hg4 _. apply keep_locked_state; [done|]. eapply grows_event; [|exact Hev]. by etrans.
Qed.

Lemma keep_init_wait h ev s e w :
  fine h w -> event_at w ev -> event_at w e -> keep h (init_wait_event (run_call start_ok run_ok) ev s e) w (fun _ _ => True).
Proof.
  intros Hf Hev He. assert (forall w', fine h w' -> grows w w' -> new_ok ev) as Hnew.
  { intros w' Hf' Hg. destruct (grows_event _ _ _ Hg Hev) as (x & Hx & Ht). eapply (sc_event _ _ _ _ Sc); [apply Hf'|done|done]. }
  eapply keep_bind; [by apply keep_add_dependency|]. intros _ w1 Hf1 Hg1 _.
  eapply keep_bind; [apply keep_add_to_chain; [done|by eapply grows_event|by eapply grows_some, event_some|by eapply Hnew]|]. intros _ w2 Hf2 Hg2 _.
  eapply keep_bind; [apply keep_enqueue; [done|eapply grows_some, event_some; [|done]; by etrans|eapply Hnew; [done|by etrans]]|]. intros _ w3 Hf3 Hg3 _.
  assert (event_at w3 ev) as Hev3 by (eapply grows_event; [|exact Hev]; etrans; [exact Hg1|]; by etrans).
  eapply keep_bind; [by apply keep_record_top|]. intros _ w4 Hf4 Hg4 _. apply keep_locked_state; [done|by eapply grows_event].
Qed.

(** ** Synchronization *)

Lemma keep_complete h s l b w : fine h w -> keep h (complete_commands start_ok run_ok s l b) w (fun _ _ => True).
Proof.
  revert b w. induction l as [|c l IH]; intros b w Hf; cbn [complete_commands]; [by apply keep_ret|].
  eapply (keep_bind _ _ _ _ (fun _ _ => True)).
  { apply keep_try; [|intros w' Hf' _; by apply keep_ret]. eapply keep_bind; [by apply keep_run_call|]. intros _ w1 Hf1 _ _.
    apply keep_state; [done|]. intros x Hx. case_bool_decide; [by apply keep_ret|by apply keep_raise]. }
  intros failed w1 Hf1 _ _. apply keep_get; [done|]. intros x Hx. eapply (keep_bind _ _ _ _ (fun _ _ => True)).
  { case_bool_decide; [by apply keep_ret|]. apply keep_cmd; [done|done|done|]. intros _ _. apply (sc_cached _ _ _ _ Sc), Hf1. }
  intros _ w2 Hf2 _ _. eapply (keep_bind _ _ _ _ (fun _ _ => True)); [apply keep_stm; [done|by left|done]|]. intros _ w3 Hf3 _ _. by apply IH.
Qed.

Lemma keep_await h s w : fine h w -> keep h (await_completion start_ok run_ok s) w (fun _ _ => True).
Proof.
  intros Hf. apply keep_lock; [done|done|]. intros _ w1 Hf1 _ _ _. apply keep_get_stm; [done|]. intros x Hx.
  eapply keep_bind; [by apply keep_complete|]. intros failed w2 Hf2 _ _.
  eapply (keep_bind _ _ _ _ (fun _ _ => True)); [apply keep_stm; [done|done|done]|]. intros _ w3 Hf3 _ _. by apply keep_throw.
Qed.

Lemma keep_synchronize h s w : fine h w -> keep h (synchronize start_ok run_ok s) w (fun _ _ => True).
Proof.
  intros Hf. eapply (keep_bind _ _ _ _ (fun _ _ => True)); [|intros _ w1 Hf1 _ _; by apply keep_await].
  apply keep_get_stm; [done|]. intros me _. destruct (m_nonblocking me); [by apply keep_ret|].
  apply wp_bind, wp_gets. generalize (seq 0 (length (streams w))). intros l. change (keep h (synchronize_others start_ok run_ok me s l) w (fun _ _ => True)).
  revert w Hf. induction l as [|i l IH]; intros w Hf; cbn [synchronize_others]; [by apply keep_ret|]. apply keep_get_stm; [done|]. intros x _.
  eapply (keep_bind _ _ _ _ (fun _ _ => True)); [destruct (_ && _); [by apply keep_await|by apply keep_ret]|]. intros _ w1 Hf1 _ _. by apply IH.
Qed.

(** ** Calls of the application *)

Lemma keep_gets h {A B} (f : world -> A) (k : A -> H B) w Q : keep h (k (f w)) w Q -> keep h (bind (gets f) k) w Q.
Proof. intros Hk. exact Hk. Qed.

Lemma keep_insert h t w :
  fine h w -> t ∈ plain_types -> keep h (insert_command (new_command t)) w (fun c w' => new_ok c /\ exists x, commands w' !! c = Some x /\ ctype x = t).
Proof.
  intros [H1 H2 H3 H4] Ht. apply wp_bind, wp_gets, wp_bind, wp_modify, wp_ret.
  assert (grows w (on_commands (fun l => l ++ [new_command t]) w)) as Hg by (intros c x Hx; exists x; split; [by apply lookup_app_l_Some|done]).
  split_and!; [|done|by apply (sc_fresh _ _ _ _ Sc)|].
  - split; [apply Forall_app; split; [done|by apply Forall_singleton]| |done|by apply (sc_insert _ _ _ _ Sc)].
    intros s x e Hs Hx. eapply grows_event; [exact Hg|by eapply H2].
  - exists (new_command t). split; [|done]. by apply list_lookup_middle.
Qed.

Lemma keep_new_stream h n b w : fine h w -> keep h (new_stream n b) w (fun _ _ => True).
Proof.
  intros [H1 H2 H3 H4]. apply wp_bind, wp_gets, wp_bind, wp_modify, wp_ret. split_and!; [|by intros c x Hx; exists x|done].
  split; [done| |done|by apply (sc_streams _ _ _ _ Sc)]. intros s x e. cbn. intros [Hs|[_ Hs]]%lookup_app_Some Ht; [by eapply H2|].
  apply list_lookup_singleton_Some in Hs as [_ <-]. done.
Qed.

Lemma keep_get_stream h o w : fine h w -> keep h (get_stream o) w (fun _ _ => True).
Proof.
  intros Hf. destruct o as [s|]; [by apply wp_gets|]. eapply (keep_bind _ _ _ _ (fun _ _ => True)); [|intros ? w' Hf' _ _; by apply keep_ret].
  apply keep_gets. destruct (find_null _ _); [by apply keep_ret|by apply keep_new_stream].
Qed.

Lemma keep_stream_or_error h o e w : fine h w -> keep h (stream_or_error o e) w (fun _ _ => True).
Proof. intros Hf. eapply keep_bind; [by apply keep_get_stream|]. intros [s|] w' Hf' _ _; [by apply keep_ret|by apply keep_raise]. Qed.

Lemma keep_find_event h c e w : fine h w -> keep h (find_event c e) w (fun r w' => r = c /\ event_at w' r).
Proof.
  intros Hf. apply keep_gets. destruct (commands w !! c) as [x|] eqn:E; [|by apply keep_raise]. destruct (cached x); [|by apply keep_raise]. cbn [andb].
  case_bool_decide; [|by apply keep_raise]. apply keep_ret; [done|]. split; [done|]. by exists x.
Qed.

Lemma keep_locked_get h {A} l (m : H A) w :
  fine h w -> (forall w', fine (l :: h) w' -> keep (l :: h) m w' (fun _ _ => True)) -> keep h (with_lock l m) w (fun _ _ => True).
Proof. intros Hf Hm. apply keep_lock; [done|done|]. intros _ w' Hf' _ _ _. by apply Hm. Qed.

Lemma keep_launch h t o w :
  fine h w -> t ∈ plain_types ->
  keep h (s <- stream_or_error o hipErrorInvalidValue ;; c <- insert_command (new_command t) ;; enqueue (run_call start_ok run_ok) s c ;;; ret c) w (fun _ _ => True).
Proof.
  intros Hf Ht. eapply keep_bind; [by apply keep_stream_or_error|]. intros s w1 Hf1 _ _. eapply keep_bind; [by apply keep_insert|].
  intros c w2 Hf2 _ (Hn & x & Hx & _). eapply keep_bind; [by apply keep_enqueue|]. intros _ w3 Hf3 _ _. by apply keep_ret.
Qed.

(** Which events a call may record. *)
Definition may_record (a : api) : Prop := match a with EventRecord ev _ => rec_ok ev | _ => True end.

Lemma keep_ignore h {A} (m : H A) w Q : keep h m w Q -> keep h (ignore m) w (fun _ _ => True).
Proof. intros Hm. eapply keep_bind; [exact Hm|]. intros ? w' Hf _ _. by apply keep_ret. Qed.

Lemma keep_wait_event h o ev flags w : fine h w -> keep h (hip_stream_wait_event start_ok run_ok o ev flags) w (fun _ _ => True).
Proof.
  intros Hf. eapply keep_bind; [by apply keep_throw with (Q := fun _ _ => True)|]. intros _ w1 Hf1 _ _.
  eapply keep_bind; [by apply keep_stream_or_error|]. intros s w2 Hf2 _ _. eapply keep_bind; [by apply keep_find_event|]. intros e w3 Hf3 _ [_ He].
  eapply keep_bind; [apply keep_locked_get; [done|]; intros w' Hf'; apply keep_state; [done|]; intros x _; by apply keep_ret|]. intros r w4 Hf4 Hg4 _.
  eapply keep_bind; [by apply keep_throw with (Q := fun _ _ => True)|]. intros _ w5 Hf5 Hg5 _.
  eapply keep_bind; [apply keep_locked_get; [done|]; intros w' Hf'; apply keep_get; [done|]; intros x _; by apply keep_ret|]. intros same w6 Hf6 Hg6 _.
  assert (event_at w6 e) as He6 by (eapply grows_event; [|exact He]; etrans; [exact Hg4|]; by etrans).
  destruct same; [by apply keep_record_top|]. eapply keep_bind; [by apply keep_insert; [|set_solver]|]. intros dummy w7 Hf7 Hg7 [_ Hd].
  apply keep_init_wait; [done|done|by eapply grows_event].
Qed.

Lemma keep_run a w : fine [] w -> may_record a -> keep [] (run start_ok run_ok a) w (fun _ _ => True).
Proof.
  intros Hf Ha. destruct a as [flags|o|o|o ev flags| |ev|ev o|ev|ev|o|o]; cbn [run].
  - eapply keep_ignore, keep_bind; [by apply keep_throw with (Q := fun _ _ => True)|]. intros _ w1 Hf1 _ _. by apply keep_new_stream.
  - destruct o; [|by apply keep_raise]. apply keep_stm; [done|by left|done].
  - eapply keep_bind; [by apply keep_stream_or_error|]. intros s w1 Hf1 _ _. by apply keep_synchronize.
  - by apply keep_wait_event.
  - eapply keep_ignore, keep_insert; [done|set_solver].
  - apply keep_cmd; [done|done|done|]. intros _ _. apply (sc_cached _ _ _ _ Sc), Hf.
  - eapply keep_bind; [by apply keep_throw with (Q := fun _ _ => True)|]. intros _ w1 Hf1 _ _. eapply keep_bind; [by apply keep_get_stream|].
    intros s w2 Hf2 _ _. eapply keep_bind; [by apply keep_find_event|]. intros e w3 Hf3 _ [-> He]. by apply keep_record.
  - eapply keep_bind; [by apply keep_find_event|]. intros e w1 Hf1 _ _. eapply keep_bind; [by apply keep_run_call|]. intros ? w2 Hf2 _ _. by apply keep_ret.
  - eapply keep_ignore, keep_bind; [by apply keep_find_event|]. intros e w1 Hf1 _ _. apply keep_locked_get; [done|]. intros w' Hf'.
    apply keep_state; [done|]. intros x _. by apply keep_ret.
  - by eapply keep_ignore, keep_launch; [|set_solver].
  - by eapply keep_ignore, keep_launch; [|set_solver].
Qed.

Lemma after_fine a w w' : fine [] w -> may_record a -> after (run start_ok run_ok a w) = Some w' -> fine [] w' /\ grows w w'.
Proof.
  intros Hf Ha. pose proof (keep_run a w Hf Ha) as Hk. unfold keep, wp in Hk. destruct (run _ _ a w) as [u w1|e w1]; cbn [after].
  - intros [= <-]. by destruct Hk as (? & ? & _).
  - destruct Hk as (? & ? & _). destruct e; try done; by intros [= <-].
Qed.

Lemma steps_fine allowed w w' : (forall a, allowed a -> may_record a) -> fine [] w -> steps start_ok run_ok allowed w w' -> fine [] w' /\ grows w w'.
Proof.
  intros Ha Hf. induction 1 as [|a w1 w2 _ [IH1 IH2] Hal Haf]; [done|]. destruct (after_fine a w1 w2 IH1 (Ha a Hal) Haf) as [H1 H2]. split; [done|by etrans].
Qed.
End keep.

(** * The life of kernels and the order of streams *)

(** * Life of a kernel *)

Definition act_id (a : action) : nat := match a with Start c | Done c => c end.
Definition acts (c : nat) (h : list action) : list action := filter (fun a => act_id a = c) h.

Lemma acts_app c h a : acts c (h ++ [a]) = acts c h ++ (if decide (act_id a = c) then [a] else []).
Proof. unfold acts. rewrite filter_app, filter_cons, filter_nil. by destruct (decide _). Qed.

(** What the history has of a kernel in a state. *)
Definition life_ok (c : nat) (st : cmd_state) (h : list action) : Prop :=
  match st with
  | init => acts c h = []
  | running | error => acts c h = [Start c]
  | completed => acts c h = [Start c; Done c]
  | _ => False
  end.

(** A complete copy has ended. *)
Definition life_of (t : cmd_type) (c : nat) (st : cmd_state) (h : list action) : Prop :=
  match t with
  | kernel_start => life_ok c st h
  | mem_cpy => st = completed -> Done c ∈ h
  | _ => True
  end.

Record life (w : world) : Prop := {
  lf_of : forall c x, commands w !! c = Some x -> life_of (ctype x) c (cstate x) (history w);
  lf_history : forall a, a ∈ history w -> (act_id a < length (commands w))%nat;
  lf_chain : forall i x c, commands w !! i = Some x -> c ∈ m_chain_of_commands x -> (c < length (commands w))%nat;
}.

Lemma lf_kernel w c x : life w -> commands w !! c = Some x -> ctype x = kernel_start -> life_ok c (cstate x) (history w).
Proof. intros Hw Hx Ht. pose proof (lf_of _ Hw c x Hx) as H. by rewrite Ht in H. Qed.

Lemma life_ok_done c h : life_ok c completed h -> Done c ∈ h.
Proof. cbn. intros E. assert (Done c ∈ acts c h) as Hin by (rewrite E; set_solver). by apply list_elem_of_filter in Hin as [_ ?]. Qed.

(** What is complete, and not an event, has ended. *)
Lemma life_done w c x : plain w -> life w -> commands w !! c = Some x -> ctype x <> event -> cstate x = completed -> Done c ∈ history w.
Proof.
  intros Hp Hw Hx Ht Hs. pose proof (lf_of _ Hw c x Hx) as H. rewrite Hs in H.
  destruct (plain_lookup _ _ _ Hp Hx) as [E|[E|E]]; rewrite E in H; [done|by apply life_ok_done|by apply H].
Qed.

(** A change of one command that concerns no kernel, or one that the history follows. *)
Lemma life_alter w e x f h :
  life w -> commands w !! e = Some x -> ctype (f x) = ctype x -> m_chain_of_commands (f x) ⊆ m_chain_of_commands x ->
  (forall a, a ∈ h -> act_id a = e) ->
  life_of (ctype x) e (cstate (f x)) (history w ++ h) ->
  life (on_commands (alter f e) (on_history (fun l => l ++ h) w)).
Proof.
  intros [H1 H2 H3] Hx Ht Hc Hh Hl. split.
  - intros c y. rewrite lookup_on_cmd. cbn. destruct (decide (c = e)) as [->|Hne].
    + rewrite Hx. intros [= <-]. rewrite Ht. apply Hl.
    + intros Hy. specialize (H1 c y Hy). assert (acts c (history w ++ h) = acts c (history w)) as E.
      2: { destruct (ctype y); cbn in *; [done|by destruct (cstate y); cbn in *; rewrite ?E|set_solver|done..]. }
      unfold acts. rewrite filter_app. replace (filter (fun a => act_id a = c) h) with (@nil action); [by rewrite app_nil_r|].
      clear -Hh Hne. induction h as [|a h IH]; [done|]. rewrite filter_cons, decide_False by (rewrite (Hh a) by set_solver; congruence). apply IH. set_solver.
  - cbn. rewrite length_alter. intros a [Ha|Ha]%elem_of_app; [by apply H2|]. rewrite (Hh a Ha). by eapply lookup_lt_Some.
  - intros i y c. rewrite lookup_on_cmd. cbn. rewrite length_alter. destruct (decide (i = e)) as [->|]; [|by apply H3].
    rewrite Hx. intros [= <-] Hin. apply (H3 e x c Hx). by apply Hc.
Qed.

Lemma on_history_nil w : on_history (fun l => l ++ []) w = w.
Proof. destruct w. unfold on_history. cbn. by rewrite app_nil_r. Qed.

Lemma life_quiet w e x f :
  life w -> commands w !! e = Some x -> ctype (f x) = ctype x -> m_chain_of_commands (f x) ⊆ m_chain_of_commands x ->
  life_of (ctype x) e (cstate (f x)) (history w) -> life (on_commands (alter f e) w).
Proof.
  intros Hw Hx Ht Hc Hl. rewrite <- (on_history_nil w). eapply life_alter; try done; [set_solver|by rewrite app_nil_r].
Qed.

Lemma tail_subseteq {A} (l : list A) : tail l ⊆ l.
Proof. destruct l; set_solver. Qed.

Lemma acts_ne c c' h : c <> c' -> acts c (h ++ [Start c']) = acts c h.
Proof. intros Hne. rewrite acts_app, decide_False by done. apply app_nil_r. Qed.

Lemma life_stable : stable life (fun _ _ => True) (fun _ _ => True).
Proof.
  split; try done.
  - intros w f []. by split.
  - intros w e x s Hw Hx Ht _. eapply life_quiet; [done|done|done|done|]. by rewrite Ht.
  - intros w e x t Hw Hx Ht _. eapply (life_quiet (set_clock (t + 1) w)); [destruct Hw; by split|done|done|done|]. by rewrite Ht.
  - intros w e x Hw Hx Ht. eapply life_quiet; [done|done|done|apply tail_subseteq|]. by rewrite Ht.
  - intros w c x Hw Hx Ht Hs _. pose proof (lf_kernel w c x Hw Hx Ht) as H. rewrite Hs in H.
    eapply life_alter; [done|done|done|done|by intros a ->%list_elem_of_singleton|]. rewrite Ht. cbn. by rewrite acts_app, decide_True, H.
  - intros w c x Hw Hx Ht Hs. pose proof (lf_kernel w c x Hw Hx Ht) as H. rewrite Hs in H.
    eapply life_alter; [done|done|done|done|by intros a ->%list_elem_of_singleton|]. rewrite Ht. cbn. by rewrite acts_app, decide_True, H.
  - intros w c x Hw Hx Ht Hs. pose proof (lf_kernel w c x Hw Hx Ht) as H. rewrite Hs in H.
    eapply life_quiet; [done|done|done|done|]. by rewrite Ht.
  - intros w c x Hw Hx Ht _. eapply life_alter; [done|done|done|done|by intros a ->%list_elem_of_singleton|].
    pose proof (lf_of w Hw c x Hx) as H. rewrite Ht in *. cbn in *. set_solver.
  - intros w c x Hw Hx Ht. eapply life_alter; [done|done|done|done|by intros a ->%list_elem_of_singleton|]. rewrite Ht. cbn. set_solver.
Qed.

Lemma life_calls : stable_calls life (fun _ _ => True) (fun _ => True) (fun _ => True).
Proof.
  split; try done.
  - intros w f []. by split.
  - intros w t [H1 H2 H3] Ht. split.
    + intros c x. cbn. intros [Hx|[Hle Hx]]%lookup_app_Some; [by apply H1|]. apply list_lookup_singleton_Some in Hx as [Hc <-]. cbn.
      destruct t; try done. cbn. unfold acts. assert (c = length (commands w)) as -> by lia. clear -H2. induction (history w) as [|a h IH]; [done|].
      rewrite filter_cons, decide_False; [apply IH; set_solver|]. specialize (H2 a ltac:(set_solver)). lia.
    + cbn. rewrite length_app. intros a Ha. specialize (H2 a Ha). lia.
    + intros i x c. cbn. rewrite length_app. intros [Hx|[_ Hx]]%lookup_app_Some Hc; [specialize (H3 i x c Hx Hc); lia|].
      apply list_lookup_singleton_Some in Hx as [_ <-]. cbn in Hc. set_solver.
  - intros w c b Hw. destruct (commands w !! c) as [x|] eqn:Hx.
    + eapply life_quiet; [done|done|done|done|]. apply (lf_of _ Hw c x Hx).
    + replace (on_commands (alter (set_cached b) c) w) with w; [done|]. destruct w. unfold on_commands. cbn in *. f_equal. symmetry.
      apply list_eq. intros i. destruct (decide (i = c)) as [->|]; [by rewrite list_lookup_alter_eq, Hx|by rewrite list_lookup_alter_ne].
  - intros w e x c Hw Hx Ht. eapply life_quiet; [done|done|done|done|]. by rewrite Ht.
  - intros w e x c [H1 H2 H3] Hx Ht [y Hy] _. split.
    + intros i z. rewrite lookup_on_cmd. cbn. destruct (decide (i = e)) as [->|]; [|by apply H1]. rewrite Hx. intros [= <-]. cbn. by rewrite Ht.
    + cbn. rewrite length_alter. apply H2.
    + intros i z k. rewrite lookup_on_cmd. cbn. rewrite length_alter. destruct (decide (i = e)) as [->|]; [|by apply H3].
      rewrite Hx. intros [= <-]. cbn. intros [Hk|Hk]%elem_of_app; [by apply (H3 e x)|]. apply list_elem_of_singleton in Hk as ->. by eapply lookup_lt_Some.
  - intros w e x s Hw Hx Ht _. eapply life_quiet; [done|done|done|done|]. by rewrite Ht.
  - intros w e x Hw Hx Ht _. eapply life_quiet; [done|done|done|done|]. by rewrite Ht.
Qed.

Lemma life_empty : fine life [] empty_world.
Proof. split; [apply Forall_nil_2|done|done|]. split; cbn; set_solver. Qed.

Section reach.
Context (start_ok run_ok : nat -> bool).

Lemma reach_life w : reach start_ok run_ok w -> fine life [] w.
Proof. intros Hr. eapply (steps_fine life _ _ _ _ life_stable life_calls); [|apply life_empty|exact Hr]. by intros []. Qed.
End reach.
