(* ===== verification/HipTheorems.v ===== *)
(** Streams: every call returns, kernels run once, and what a synchronized stream has done. *)

From S2P Require Import Prelude HipStream HipInvariant HipCalls.

Section theorems.
Context (start_ok run_ok : nat -> bool).

(** * Synchronization *)

Abbreviation fine := (fine life).

Lemma run_call_life h o c w :
  fine h w -> wp (run_call start_ok run_ok o c) (fun _ w' => fine h w' /\ grows w w' /\ streams w' = streams w)
                 (fun _ w' => fine h w' /\ grows w w' /\ streams w' = streams w) w.
Proof.
  intros Hf. pose proof (keep_run_call life _ _ life_stable start_ok run_ok h o c w Hf (fun _ => Logic.I)) as Hk.
  pose proof (run_call_sound life _ _ start_ok run_ok life_stable o c w (fn_plain _ _ _ Hf) (fn_inv _ _ _ Hf) (fun _ => Logic.I)) as Hs.
  unfold keep, sound, wp in *. destruct (run_call _ _ o c w); destruct Hk as (? & ? & _), Hs as (_ & He & _); (split_and!; [done|done|apply He]).
Qed.

Lemma fine_stm h s f w :
  fine h w -> (forall x e, streams w !! s = Some x -> m_top_event (f x) = Some e -> m_top_event x = Some e) -> fine h (on_streams (alter f s) w).
Proof.
  intros Hf Hs. pose proof (keep_stm life _ _ _ life_calls h s f w (fun _ _ => True) Hf) as Hk. unfold keep, wp, on_stm, modify in Hk.
  apply Hk; [|done]. intros x e Hx He. left. by eapply Hs.
Qed.

(** What is known of a command of the queue once it has been completed. *)
Definition finished (w : world) (c : nat) : Prop := forall x, commands w !! c = Some x -> ctype x <> event -> cstate x = completed.

Lemma finished_grows w w' c : is_Some (commands w !! c) -> grows w w' -> finished w c -> finished w' c.
Proof.
  intros [x Hx] Hg Hc y Hy Ht. destruct (Hg _ _ Hx) as (y' & Hy' & E & Hd). assert (y' = y) as -> by congruence. apply Hd; [congruence|]. apply Hc; [done|congruence].
Qed.

Definition popped (n s : nat) (l : list stream) : list stream := alter (fun x => set_queue (drop n (m_cmd_queue x)) x) s l.

Lemma popped_0 s l : popped 0 s l = l.
Proof.
  apply list_eq. intros i. unfold popped. destruct (decide (i = s)) as [->|]; [rewrite list_lookup_alter_eq|by rewrite list_lookup_alter_ne].
  destruct (l !! s) as [[]|]; [|done]. cbn. by rewrite drop_0.
Qed.

Lemma popped_S n s l : popped n s (popped 1 s l) = popped (S n) s l.
Proof.
  apply list_eq. intros i. unfold popped. destruct (decide (i = s)) as [->|]; [rewrite !list_lookup_alter_eq|by rewrite !list_lookup_alter_ne].
  destruct (l !! s) as [[]|]; [|done]. cbn. unfold set_queue. cbn. by rewrite drop_drop.
Qed.
Lemma complete_spec h s l b w :
  fine h w ->
  wp (complete_commands start_ok run_ok s l b)
     (fun r w' => fine h w' /\ grows w w' /\ streams w' = popped (length l) s (streams w) /\ (r = false -> b = false /\ forall c, c ∈ l -> is_Some (commands w !! c) -> finished w' c))
     (fun _ _ => True) w.
Proof.
  revert b w. induction l as [|c l IH]; intros b w Hf; cbn [complete_commands].
  { apply wp_ret. rewrite popped_0. split_and!; [done|done|done|]. intros ->. split; [done|set_solver]. }
  apply wp_bind. apply (wp_mono _ (fun r w1 => fine h w1 /\ grows w w1 /\ streams w1 = streams w /\ (r = false -> b = false /\ finished w1 c)) _ (fun _ _ => True)); [| |done].
  { pose proof (run_call_life h Wait c w Hf) as Hc. unfold wp, try_catch, bind in *. destruct (run_call _ _ Wait c w) as [a w1|e w1]; destruct Hc as (H1 & H2 & H3).
    - unfold get_state, bind, get_cmd, ret, raise. destruct (commands w1 !! c) as [x|] eqn:Hx; [|done]. case_bool_decide as Hs; (split_and!; [done..|]); [|done].
      intros ->. split; [done|]. intros y Hy _. congruence.
    - by destruct e. }
  intros failed w1 (Hf1 & Hg1 & Es1 & Hr1). apply wp_bind. unfold wp at 1, get_cmd. destruct (commands w1 !! c) as [x|] eqn:Hx; [|done].
  apply wp_bind, (wp_mono _ (fun _ w2 => fine h w2 /\ grows w1 w2 /\ streams w2 = streams w1) _ (fun _ _ => True)); [| |done].
  { case_bool_decide; [by apply wp_ret|].
    pose proof (keep_cmd life h c (set_cached false) w1 Hf1 (fun _ => eq_refl) (fun _ _ _ => eq_refl) (fun _ _ => sc_cached _ _ _ _ life_calls w1 c false (fn_inv _ _ _ Hf1))) as Hk.
    unfold keep, wp, on_cmd, modify in *. by destruct Hk as (? & ? & _). }
  intros _ w2 (Hf2 & Hg2 & Es2). apply wp_bind, wp_modify. set (w3 := on_streams _ w2).
  assert (fine h w3) as Hf3 by by apply fine_stm. assert (grows w2 w3) as Hg3 by by intros i y Hy; exists y.
  eapply wp_mono; [by apply IH| |done]. cbn. intros r w4 (Hf4 & Hg4 & Es4 & Hr4). assert (grows w1 w4) as Hg14 by (etrans; [exact Hg2|]; by etrans).
  split_and!; [done|by etrans| |].
  - rewrite Es4, <- popped_S. f_equal. by rewrite <- Es1, <- Es2.
  - intros Er. destruct (Hr4 Er) as [Eb Hl]. destruct (Hr1 Eb) as [E0 Hc]. split; [done|]. intros i [->|Hi]%elem_of_cons [y Hy].
    + eapply finished_grows; [by eapply grows_some; [exact Hg1|exists y]|exact Hg14|done].
    + apply Hl; [done|]. eapply grows_some; [|by exists y]. etrans; [exact Hg1|]. by etrans; [exact Hg2|].
Qed.

(** The stream after its completion. *)
Definition drained (s : nat) (w w' : world) : Prop :=
  (forall i, i <> s -> streams w' !! i = streams w !! i) /\
  (forall x, streams w !! s = Some x -> streams w' !! s = Some (set_top None (set_queue [] x)) /\
     forall c, c ∈ m_cmd_queue x -> is_Some (commands w !! c) -> finished w' c).

Lemma await_spec h s w :
  fine h w -> wp (await_completion start_ok run_ok s) (fun _ w' => fine h w' /\ grows w w' /\ drained s w w') (fun _ _ => True) w.
Proof.
  intros Hf. unfold wp, await_completion, with_lock. rewrite (fn_held _ _ _ Hf). case_bool_decide as Hl; [done|].
  pose proof (fine_held life _ _ life_stable h w (cons (m_cmd_lock s)) Hf) as Hf1. set (w1 := on_held _ w) in *.
  unfold bind, get_stm. change (streams w1) with (streams w). destruct (streams w !! s) as [x|] eqn:Hx; [|done].
  pose proof (complete_spec _ s (m_cmd_queue x) false w1 Hf1) as Hc. unfold wp in Hc. destruct (complete_commands _ _ _ _ _ w1) as [r w2|]; [|done].
  destruct Hc as (Hf2 & Hg2 & Es & Hr). unfold on_stm, modify, throw_if. destruct r; [done|]. cbn beta iota.
  set (w3 := on_held (filter (fun l => l <> m_cmd_lock s)) (on_streams (alter (set_top None) s) w2)).
  assert (fine h w3) as Hf3.
  { rewrite <- (filter_lock (m_cmd_lock s) h Hl). apply (fine_held life _ _ life_stable (m_cmd_lock s :: h)). by apply fine_stm. }
  split_and!; [done|done|]. split.
  - intros i Hi. cbn. rewrite Es. unfold popped. by rewrite !list_lookup_alter_ne.
  - intros y Hy. assert (y = x) as -> by congruence. split.
    + cbn. rewrite Es. unfold popped. rewrite !list_lookup_alter_eq. change (streams w1) with (streams w). rewrite Hx. cbn. by rewrite drop_all.
    + by apply Hr.
Qed.

Lemma others_spec h me s l w :
  fine h w ->
  wp (synchronize_others start_ok run_ok me s l) (fun _ w' => fine h w' /\ grows w w' /\ streams w' !! s = streams w !! s) (fun _ _ => True) w.
Proof.
  revert w. induction l as [|i l IH]; intros w Hf; cbn [synchronize_others]; [by apply wp_ret|].
  apply wp_bind. unfold wp at 1, get_stm. destruct (streams w !! i) as [x|] eqn:Hx; [|done]. apply wp_bind.
  apply (wp_mono _ (fun _ w' => fine h w' /\ grows w w' /\ streams w' !! s = streams w !! s) _ (fun _ _ => True)); [| |done].
  - destruct (_ && _) eqn:Eb; [|by apply wp_ret]. eapply wp_mono; [by apply await_spec| |done]. cbn. intros _ w1 (H1 & H2 & H3 & _).
    split_and!; [done|done|]. apply H3. intros ->. rewrite Nat.eqb_refl in Eb. by destruct (in_cache x), (m_nonblocking x).
  - intros _ w1 (Hf1 & Hg1 & E1). eapply wp_mono; [by apply IH| |done]. cbn. intros _ w2 (? & ? & E2). split_and!; [done|by etrans|congruence].
Qed.

(** * Claims *)

(** From any world that an application can reach, every call comes to an end: it never
    exhausts the fuel of the model, and whether it returns or throws, it has released every
    mutex; a call that does neither waits for a mutex that its own thread holds, or uses a
    null pointer. *)
Theorem calls_return w a : reach start_ok run_ok w -> exists w', held w' = [] /\
  (run start_ok run_ok a w = Ok tt w' \/ exists e, run start_ok run_ok a w = Err e w' /\ e <> out_of_fuel).
Proof.
  intros Hr. pose proof (keep_run life _ _ _ _ life_stable life_calls start_ok run_ok a w (reach_life _ _ w Hr)) as Hk.
  assert (may_record (fun _ => True) a) as Ha by by destruct a. specialize (Hk Ha). unfold keep, wp in Hk.
  destruct (run start_ok run_ok a w) as [[] w'|e w'] eqn:E; destruct Hk as (Hf & _ & He); exists w'; (split; [apply (fn_held _ _ _ Hf)|]); [by left|right; by exists e].
Qed.

(** C40: A kernel is started at most once and awaited at most once, in this order, and its
    state says which of it has happened: nothing of it in [init], the start in [running] and
    [error], both in [completed]. *)
Theorem kernel_lifecycle w c x : reach start_ok run_ok w -> commands w !! c = Some x -> ctype x = kernel_start -> life_ok c (cstate x) (history w).
Proof. intros Hr. apply lf_kernel. apply (fn_inv _ _ _ (reach_life _ _ w Hr)). Qed.

(** C24: When [hipStreamSynchronize] returns without an error, the stream has no commands and
    no top event any more, and every kernel and every copy that was in its queue has ended and is
    complete. *)
Theorem sync_completes w s x w' :
  reach start_ok run_ok w -> streams w !! s = Some x -> hip_stream_synchronize start_ok run_ok (Some s) w = Ok tt w' ->
  streams w' !! s = Some (set_top None (set_queue [] x)) /\
  forall c y, c ∈ m_cmd_queue x -> commands w !! c = Some y -> ctype y <> event ->
    Done c ∈ history w' /\ exists y', commands w' !! c = Some y' /\ cstate y' = completed.
Proof.
  intros Hr Hx. pose proof (reach_life _ _ w Hr) as Hf. unfold hip_stream_synchronize, stream_or_error, get_stream, bind, gets. rewrite Hx.
  destruct (in_cache x); [|done]. unfold synchronize, bind, ret. assert (wp (synchronize_streams start_ok run_ok s)
    (fun _ w1 => fine [] w1 /\ grows w w1 /\ streams w1 !! s = streams w !! s) (fun _ _ => True) w) as Ho.
  { unfold synchronize_streams, wp, bind, get_stm, gets. rewrite Hx. destruct (m_nonblocking x); [done|]. rewrite <- Hx. by apply (others_spec [] x s (seq 0 (length (streams w))) w). }
  unfold wp in Ho. destruct (synchronize_streams _ _ s w) as [u w1|]; [|done]. destruct Ho as (Hf1 & Hg1 & E1). rewrite Hx in E1.
  pose proof (await_spec [] s w1 Hf1) as Ha. unfold wp in Ha. intros Hw. rewrite Hw in Ha. destruct Ha as (Hf2 & Hg2 & _ & Hd).
  destruct (Hd x E1) as [E2 Hq]. split; [done|]. intros c y Hc Hy Ht. destruct (Hg1 _ _ Hy) as (y1 & Hy1 & Et1 & _). destruct (Hg2 _ _ Hy1) as (y2 & Hy2 & Et2 & _).
  assert (ctype y2 <> event) by congruence. assert (cstate y2 = completed) as Hs2 by (eapply Hq; eauto). split; [|by exists y2].
  eapply life_done; [apply Hf2|apply Hf2|exact Hy2|done|done].
Qed.
End theorems.

(** * Witnesses *)

Definition good (c : nat) : bool := true.
Definition two_kernels : list api := [StreamCreate 1; LaunchKernel (Some 0%nat); LaunchKernel (Some 0%nat)].
Definition two_kernels_world : world := default empty_world (play good good two_kernels empty_world).

Lemma two_kernels_reach : reach good good two_kernels_world.
Proof. apply (play_reach _ _ two_kernels). vm_compute. reflexivity. Qed.

Lemma calls_return_witness : exists w', held w' = [] /\
  (run good good (StreamSynchronize (Some 0%nat)) two_kernels_world = Ok tt w' \/
   exists e, run good good (StreamSynchronize (Some 0%nat)) two_kernels_world = Err e w' /\ e <> out_of_fuel).
Proof. apply (calls_return good good). exact two_kernels_reach. Defined.

Lemma kernel_lifecycle_witness : life_ok 1 running (history two_kernels_world).
Proof.
  apply (kernel_lifecycle good good two_kernels_world 1 (set_state_of running (new_command kernel_start)) two_kernels_reach); vm_compute; reflexivity.
Defined.

Lemma sync_completes_witness :
  match hip_stream_synchronize good good (Some 0%nat) two_kernels_world with
  | Ok _ w' => streams w' !! 0%nat = Some (Stream true false true [] None) /\ Done 1 ∈ history w'
  | Err _ _ => False
  end.
Proof.
  destruct (hip_stream_synchronize good good (Some 0%nat) two_kernels_world) as [[] w'|] eqn:E; [|vm_compute in E; discriminate].
  destruct (sync_completes good good two_kernels_world 0 _ w' two_kernels_reach eq_refl E) as [H1 H2]. split; [exact H1|].
  eapply H2; [vm_compute; right; left|vm_compute; reflexivity|vm_compute; discriminate].
Defined.
