(* ===== verification/HipOrder.v ===== *)
(** Ordering by events: what is put into a stream after [hipStreamWaitEvent] starts only when
    all that was in the stream of the event, as it was recorded, has ended. *)

From S2P Require Import Prelude HipStream HipInvariant HipCalls.

(** * Gates

    [C] are the commands to wait for, [E] the events that stand for their end, [rs] the streams
    in which these have been recorded, and [K] is what has to wait. *)
Section gates.
Context (C : list nat) (rs : nat -> option nat).

Definition all_done (h : list action) : Prop := forall c, c ∈ C -> Done c ∈ h.

Definition work_type (t : cmd_type) : Prop := t = kernel_start \/ t = mem_cpy.
Definition work_at (w : world) (c : nat) : Prop := exists x, commands w !! c = Some x /\ work_type (ctype x).

Record gate (E : list nat) (h : list action) (g : nat) (x : command) : Prop := {
  gt_type : ctype x = event;
  gt_stream : m_recorded_stream x = rs g;
  gt_deps : C ⊆ m_recorded_commands x \/ exists e, e ∈ E /\ e ∈ m_recorded_commands x;
  gt_done : cstate x = completed -> all_done h;
}.

Record gated (E : list nat) (K : option nat) (w : world) : Prop := {
  gd_life : life w;
  gd_work : forall c, c ∈ C -> work_at w c;
  gd_gate : forall g, g ∈ E -> exists x, commands w !! g = Some x /\ gate E (history w) g x;
  gd_kind : forall k, K = Some k -> work_at w k;
  gd_chain : forall k i x, K = Some k -> commands w !! i = Some x -> k ∈ m_chain_of_commands x -> i ∈ E;
  gd_start : forall k h1 h2, K = Some k -> history w = h1 ++ Start k :: h2 -> all_done h1;
}.

Definition gate_F (E : list nat) (c : nat) (h : list action) : Prop := (c ∈ E -> all_done h) /\ (c ∈ C -> Done c ∈ h).
Definition gate_P (K : option nat) (c : nat) (h : list action) : Prop := K = Some c -> all_done h.

Lemma all_done_app h h' : all_done h -> all_done (h ++ h').
Proof. intros Hd c Hc. apply elem_of_app. left. by apply Hd. Qed.

Lemma work_alter w e f c : (forall x, ctype (f x) = ctype x) -> work_at w c -> work_at (on_commands (alter f e) w) c.
Proof.
  intros Hf (x & Hx & Ht). unfold work_at. rewrite lookup_on_cmd. destruct (decide (c = e)) as [->|]; [|by exists x]. exists (f x). rewrite Hx, Hf. done.
Qed.

Lemma work_done w c x : life w -> commands w !! c = Some x -> work_type (ctype x) -> cstate x = completed -> Done c ∈ history w.
Proof.
  intros Hw Hx Ht Hs. pose proof (lf_of _ Hw c x Hx) as H. rewrite Hs in H. destruct Ht as [E|E]; rewrite E in H; [by apply life_ok_done|by apply H].
Qed.

(** A step that changes one command, and starts or ends this command. *)
Lemma gated_alter E K w e x f h :
  gated E K w -> commands w !! e = Some x -> life (on_commands (alter f e) (on_history (fun l => l ++ h) w)) ->
  (forall x, ctype (f x) = ctype x) -> m_chain_of_commands (f x) ⊆ m_chain_of_commands x ->
  (e ∈ E -> gate E (history w ++ h) e x -> gate E (history w ++ h) e (f x)) ->
  (forall k, K = Some k -> h = [] \/ h = [Done e] \/ (h = [Start e] /\ gate_P K e (history w))) ->
  gated E K (on_commands (alter f e) (on_history (fun l => l ++ h) w)).
Proof.
  intros [G1 G2 G3 G4 G5 G6] Hx Hl Hf Hc Hg Hh. split; [done| | | | |].
  - intros c Hin. apply work_alter; [done|]. by apply G2.
  - intros g Hin. rewrite lookup_on_cmd. cbn. destruct (G3 g Hin) as (y & Hy & [D1 D2 D3 D4]).
    assert (gate E (history w ++ h) g y) as Hgy by (split; [done..|]; intros Hs; by apply all_done_app, D4).
    destruct (decide (g = e)) as [->|]; [|by exists y]. rewrite Hx in Hy |- *. injection Hy as ->. exists (f y). split; [done|by apply Hg].
  - intros k Hk. apply work_alter; [done|]. by apply G4.
  - intros k i y Hk. rewrite lookup_on_cmd. cbn. destruct (decide (i = e)) as [->|]; [|by apply G5]. rewrite Hx. intros [= <-] Hin. by apply (G5 k e x Hk Hx), Hc.
  - intros k h1 h2 Hk. cbn. destruct (Hh k Hk) as [->|[->|[-> HP]]]; [rewrite app_nil_r; by apply G6| |].
    + intros Eq. destruct h2 as [|a h2 _] using rev_ind; [apply app_inj_tail in Eq as [_ [=]]|].
      rewrite app_comm_cons, app_assoc in Eq. apply app_inj_tail in Eq as [Eq _]. by eapply G6.
    + intros Eq. destruct h2 as [|a h2 _] using rev_ind; [apply app_inj_tail in Eq as [<- [= ->]]; by apply HP|].
      rewrite app_comm_cons, app_assoc in Eq. apply app_inj_tail in Eq as [Eq _]. by eapply G6.
Qed.

Lemma gated_quiet E K w e x f :
  gated E K w -> commands w !! e = Some x -> life (on_commands (alter f e) w) -> (forall x, ctype (f x) = ctype x) ->
  m_chain_of_commands (f x) ⊆ m_chain_of_commands x -> (e ∈ E -> gate E (history w) e x -> gate E (history w) e (f x)) -> gated E K (on_commands (alter f e) w).
Proof.
  intros Hw Hx Hl Hf Hc Hg. rewrite <- (on_history_nil w) in Hl |- *. eapply gated_alter; [done|done|done|done|done| |by left]. by rewrite app_nil_r.
Qed.

(** An event that is no longer complete, or one whose gate is open. *)
Lemma gate_state E h e x s : s <> completed -> gate E h e x -> gate E h e (set_state_of s x).
Proof. intros Hs [D1 D2 D3 D4]. by split. Qed.

Lemma gate_not E h e x y : ctype x <> event -> gate E h e x -> gate E h e y.
Proof. intros Hn []. done. Qed.

Lemma gated_map E K w w' : gated E K w -> life w' -> commands w' = commands w -> history w' = history w -> gated E K w'.
Proof. intros [G1 G2 G3 G4 G5 G6] Hl Ec Eh. split; unfold work_at in *; rewrite ?Ec, ?Eh; done. Qed.

Lemma gated_stable E K : stable (gated E K) (gate_F E) (gate_P K).
Proof.
  split.
  - intros c h h' [H1 H2]. split; [intros Hc; by apply all_done_app, H1|]. intros Hc. apply elem_of_app. left. by apply H2.
  - intros c h h' HP Hk. by apply all_done_app, HP.
  - intros w f Hw. eapply gated_map; [done| |done|done]. by apply (st_held _ _ _ life_stable), Hw.
  - intros w c x Hw Hx Hs. split; intros Hc.
    + destruct (gd_gate _ _ _ Hw c Hc) as (y & Hy & Hg). assert (y = x) as -> by congruence. by apply Hg.
    + destruct (gd_work _ _ _ Hw c Hc) as (y & Hy & Ht). assert (y = x) as -> by congruence. by eapply work_done; [apply Hw| | |].
  - intros w e x c Hw Hx Ht Hs Hc Hk. pose proof (gd_chain _ _ _ Hw c e x Hk Hx Hc) as He.
    destruct (gd_gate _ _ _ Hw e He) as (y & Hy & Hg). assert (y = x) as -> by congruence. by apply Hg.
  - intros w e x s Hw Hx Ht Hs. eapply gated_quiet; [done|done|by apply (st_state _ _ _ life_stable w e x s (gd_life _ _ _ Hw))|done|done|].
    intros _. apply gate_state. set_solver.
  - intros w e x t Hw Hx Ht Hd. eapply (gated_quiet _ _ (set_clock (t + 1) w)); [|done|by apply (st_complete _ _ _ life_stable w e x t (gd_life _ _ _ Hw)); eauto|done|done|].
    + eapply gated_map; [done| |done|done]. destruct (gd_life _ _ _ Hw). by split.
    + intros He [D1 D2 D3 D4]. split; [done|done|done|]. intros _. destruct Hd as [Hs|Hd]; [by apply D4|].
      destruct D3 as [Hsub|(e' & He' & Hin)]; [|by apply (Hd e' Hin)]. intros c Hc. by apply (Hd c (Hsub c Hc)).
  - intros w e x Hw Hx Ht. eapply gated_quiet; [done|done|by apply (st_pop _ _ _ life_stable w e x (gd_life _ _ _ Hw))|done|apply tail_subseteq|]. by intros _ [].
  - intros w c x Hw Hx Ht Hs HP. eapply gated_alter; [done|done|by apply (st_start _ _ _ life_stable w c x (gd_life _ _ _ Hw))|done|done| |].
    + intros _. apply gate_not. by rewrite Ht.
    + intros k Hk. right. by right.
  - intros w c x Hw Hx Ht Hs. eapply gated_alter; [done|done|by apply (st_done _ _ _ life_stable w c x (gd_life _ _ _ Hw))|done|done| |].
    + intros _. apply gate_not. by rewrite Ht.
    + intros k Hk. right. by left.
  - intros w c x Hw Hx Ht Hs. eapply gated_quiet; [done|done|by apply (st_failed _ _ _ life_stable w c x (gd_life _ _ _ Hw))|done|done|].
    intros _. apply gate_not. by rewrite Ht.
  - intros w c x Hw Hx Ht HP. eapply gated_alter; [done|done|by apply (st_copy _ _ _ life_stable w c x (gd_life _ _ _ Hw))|done|done| |].
    + intros _. apply gate_not. by rewrite Ht.
    + intros k Hk. right. by right.
  - intros w c x Hw Hx Ht. eapply gated_alter; [done|done|by apply (st_copied _ _ _ life_stable w c x (gd_life _ _ _ Hw))|done|done| |].
    + intros _. apply gate_not. by rewrite Ht.
    + intros k Hk. right. by left.
Qed.

(** Every other event may be recorded, and everything but what waits may be put into chains. *)
Lemma gated_calls E K : stable_calls (gated E K) (gate_P K) (fun e => e ∉ E) (fun c => K <> Some c).
Proof.
  split.
  - intros w f Hw. eapply gated_map; [done| |done|done]. by apply (sc_streams _ _ _ _ life_calls), Hw.
  - intros w t [G1 G2 G3 G4 G5 G6] Ht. assert (forall c x, commands w !! c = Some x -> (commands w ++ [new_command t]) !! c = Some x) as Hmono by (intros c x; apply lookup_app_l_Some).
    split; [by apply (sc_insert _ _ _ _ life_calls)| | | | |done].
    + intros c Hc. destruct (G2 c Hc) as (x & Hx & ?). exists x. split; [by apply Hmono|done].
    + intros g Hg. destruct (G3 g Hg) as (x & Hx & ?). exists x. split; [by apply Hmono|done].
    + intros k Hk. destruct (G4 k Hk) as (x & Hx & ?). exists x. split; [by apply Hmono|done].
    + intros k i x Hk. cbn. intros [Hx|[_ Hx]]%lookup_app_Some; [by apply G5|]. apply list_lookup_singleton_Some in Hx as [_ <-]. cbn. set_solver.
  - intros w c b Hw. destruct (commands w !! c) as [x|] eqn:Hx.
    + eapply gated_quiet; [done|done|by apply (sc_cached _ _ _ _ life_calls), Hw|done|done|]. by intros _ [].
    + eapply gated_map; [done|by apply (sc_cached _ _ _ _ life_calls), Hw| |done]. cbn. apply list_eq. intros i.
      destruct (decide (i = c)) as [->|]; [by rewrite list_lookup_alter_eq, Hx|by rewrite list_lookup_alter_ne].
  - intros w e x c Hw Hx Ht. eapply gated_quiet; [done|done|by apply (sc_dep _ _ _ _ life_calls w e x c (gd_life _ _ _ Hw))|done|done|].
    intros _ [D1 D2 D3 D4]. split; [done|done| |done]. cbn. set_solver.
  - intros w e x c Hw Hx Ht Hc Hn. pose proof (sc_chain _ _ _ _ life_calls w e x c (gd_life _ _ _ Hw) Hx Ht Hc Logic.I) as Hl. destruct Hw as [G1 G2 G3 G4 G5 G6].
    split; [done| | | | |done].
    + intros i Hi. apply work_alter; [done|]. by apply G2.
    + intros g Hg. rewrite lookup_on_cmd. destruct (G3 g Hg) as (y & Hy & Hgate). destruct (decide (g = e)) as [->|]; [|by exists y].
      rewrite Hy. eexists. split; [done|]. by destruct Hgate.
    + intros k Hk. apply work_alter; [done|]. by apply G4.
    + intros k i y Hk. rewrite lookup_on_cmd. destruct (decide (i = e)) as [->|]; [|by apply G5]. rewrite Hx. intros [= <-]. cbn.
      intros [Hin|Hin]%elem_of_app; [by apply (G5 k e x)|]. apply list_elem_of_singleton in Hin as ->. done.
  - intros w e x s Hw Hx Ht He. eapply gated_quiet; [done|done|by apply (sc_record _ _ _ _ life_calls w e x s (gd_life _ _ _ Hw))|done|done|done].
  - intros w e x Hw Hx Ht He. eapply gated_quiet; [done|done|by apply (sc_clear _ _ _ _ life_calls w e x (gd_life _ _ _ Hw))|done|done|done].
  - intros w c Hw Hn Hk. done.
  - intros w e x Hw Hx Ht Hk. destruct (gd_kind _ _ _ Hw e Hk) as (y & Hy & [E1|E1]); congruence.
  - intros w Hw Hk. destruct (gd_kind _ _ _ Hw _ Hk) as (y & Hy%lookup_lt_Some & _). lia.
Qed.
End gates.

(** * The stages of the ordering *)
Section stages.
Context (start_ok run_ok : nat -> bool).

Lemma unlock_lock l w : l ∉ held w -> on_held (filter (fun x => x <> l)) (on_held (cons l) w) = w.
Proof. intros Hl. destruct w as [cs ss h hi cl]. unfold on_held. cbn [commands streams held history clock] in *. f_equal. by apply filter_lock. Qed.

Lemma lock_on_cmd l c f w : l ∉ held w -> with_lock l (on_cmd c f) w = Ok tt (on_commands (alter f c) w).
Proof.
  intros Hl. unfold with_lock. rewrite bool_decide_eq_false_2 by done. unfold on_cmd, modify. f_equal. rewrite <- (unlock_lock l w Hl) at 2. done.
Qed.

Lemma alter_alter w e f g : on_commands (alter g e) (on_commands (alter f e) w) = on_commands (alter (g ∘ f) e) w.
Proof.
  destruct w. unfold on_commands. cbn. f_equal. apply list_eq. intros i.
  destruct (decide (i = e)) as [->|]; [rewrite !list_lookup_alter_eq; by destruct (commands !! e)|by rewrite !list_lookup_alter_ne].
Qed.

Lemma alter_same w e f g : (forall x, commands w !! e = Some x -> f x = g x) -> on_commands (alter f e) w = on_commands (alter g e) w.
Proof.
  intros Hfg. destruct w. unfold on_commands. cbn in *. f_equal. apply list_eq. intros i.
  destruct (decide (i = e)) as [->|]; [|by rewrite !list_lookup_alter_ne]. rewrite !list_lookup_alter_eq. destruct (commands !! e) eqn:E; [|done]. cbn. by rewrite Hfg.
Qed.

Lemma add_dependencies e l w :
  m_recorded_cmds_lock e ∉ held w ->
  for_each l (add_dependency e) w = Ok tt (on_commands (alter (fun x => set_recorded_commands (m_recorded_commands x ++ l) x) e) w).
Proof.
  revert w. induction l as [|c l IH]; intros w Hl; cbn [for_each].
  - unfold ret. f_equal. destruct w. unfold on_commands. cbn. f_equal. apply list_eq. intros i.
    destruct (decide (i = e)) as [->|]; [|by rewrite !list_lookup_alter_ne]. rewrite list_lookup_alter_eq. destruct (commands !! e) as [[]|]; [|done].
    unfold set_recorded_commands. cbn. by rewrite app_nil_r.
  - unfold bind. unfold add_dependency at 1. rewrite lock_on_cmd by done. rewrite IH by done. f_equal. rewrite alter_alter. apply alter_same.
    intros x _. unfold set_recorded_commands. cbn. by rewrite <- app_assoc.
Qed.

(** An event as it is recorded in a stream with the queue [q]. *)
Definition recorded_in (s : nat) (q : list nat) (y : command) : command := set_recorded_commands q (set_state_of recording (set_recorded_stream (Some s) y)).

Lemma record_eq ev s x y w :
  held w = [] -> streams w !! s = Some x -> commands w !! ev = Some y -> cached y = true ->
  negb (bool_decide (cstate y = init)) && (state_num (cstate y) <? state_num completed)%nat = false ->
  record (run_call start_ok run_ok) ev (Some s) w =
    (enqueue (run_call start_ok run_ok) s ev ;;; with_lock (m_state_lock ev) (set_state ev recorded)) (on_commands (alter (recorded_in s (m_cmd_queue x)) ev) w).
Proof.
  intros Hh Hx Hy Hc Hs. unfold record. unfold bind at 1, get_cmd. rewrite Hy, Hc. cbn [negb throw_if].
  unfold bind at 1. unfold ret at 1. unfold bind at 1. unfold with_lock at 1. rewrite Hh, bool_decide_eq_false_2 by set_solver.
  unfold bind at 1, get_state, bind at 1, get_cmd. change (commands (on_held _ w)) with (commands w). rewrite Hy. unfold ret at 1.
  unfold bind at 1. rewrite Hs. unfold throw_if, ret at 1. unfold set_state at 1. rewrite on_cmd_on_cmd. unfold on_cmd at 1, modify.
  set (w2 := on_held _ _). assert (w2 = on_commands (alter (set_state_of recording ∘ set_recorded_stream (Some s)) ev) w) as ->.
  { rewrite <- (unlock_lock (m_state_lock ev) (on_commands _ w)) by (cbn; rewrite Hh; set_solver). done. }
  unfold bind at 1. rewrite lock_on_cmd by (cbn; rewrite Hh; set_solver). rewrite alter_alter. unfold bind at 1. unfold enqueue_event, bind at 1.
  unfold with_lock at 1. cbn [held on_commands]. rewrite Hh, bool_decide_eq_false_2 by set_solver. unfold bind at 1, get_stm. cbn [streams on_held on_commands]. rewrite Hx.
  rewrite add_dependencies by (cbn; rewrite Hh; set_solver). set (w3 := on_held _ _).
  assert (w3 = on_commands (alter (recorded_in s (m_cmd_queue x)) ev) w) as ->; [|done].
  subst w3. change (on_held (filter (fun l => l <> m_cmd_lock s)) (on_held (cons (m_cmd_lock s))
    (on_commands (alter (fun z => set_recorded_commands (m_recorded_commands z ++ m_cmd_queue x) z) ev) (on_commands (alter (set_recorded_commands [] ∘ (set_state_of recording ∘ set_recorded_stream (Some s))) ev) w)))
    = on_commands (alter (recorded_in s (m_cmd_queue x)) ev) w).
  rewrite unlock_lock by (cbn; rewrite Hh; set_solver). rewrite alter_alter. by apply alter_same.
Qed.

Lemma record_stage ev s x w w1 :
  held w = [] -> streams w !! s = Some x -> record (run_call start_ok run_ok) ev (Some s) w = Ok tt w1 ->
  (enqueue (run_call start_ok run_ok) s ev ;;; with_lock (m_state_lock ev) (set_state ev recorded)) (on_commands (alter (recorded_in s (m_cmd_queue x)) ev) w) = Ok tt w1.
Proof.
  intros Hh Hx Hr. assert (exists y, commands w !! ev = Some y /\ cached y = true /\ negb (bool_decide (cstate y = init)) && (state_num (cstate y) <? state_num completed)%nat = false) as (y & Hy & Hc & Hs).
  { revert Hr. unfold record. unfold bind at 1, get_cmd. destruct (commands w !! ev) as [y|] eqn:Hy; [|done]. destruct (cached y) eqn:Hc; [|done]. cbn [negb throw_if].
    unfold bind at 1. unfold ret at 1. unfold bind at 1. unfold with_lock at 1. rewrite Hh, bool_decide_eq_false_2 by set_solver.
    unfold bind at 1, get_state, bind at 1, get_cmd. change (commands (on_held _ w)) with (commands w). rewrite Hy. unfold ret at 1.
    unfold bind at 1. destruct (_ && _) eqn:Hs; [done|]. intros _. by exists y. }
  by rewrite <- (record_eq ev s x y w).
Qed.

Lemma lock_read {A} l c (f : command -> A) w x :
  l ∉ held w -> commands w !! c = Some x -> with_lock l (y <- get_cmd c ;; ret (f y)) w = Ok (f x) w.
Proof.
  intros Hl Hx. unfold with_lock. rewrite bool_decide_eq_false_2 by done. unfold bind, get_cmd. change (commands (on_held _ w)) with (commands w). rewrite Hx.
  unfold ret. f_equal. by apply unlock_lock.
Qed.

Lemma lock_read_state {A} l c (f : cmd_state -> A) w x :
  l ∉ held w -> commands w !! c = Some x -> with_lock l (st <- get_state c ;; ret (f st)) w = Ok (f (cstate x)) w.
Proof.
  intros Hl Hx. etrans; [|exact (lock_read l c (f ∘ cstate) w x Hl Hx)]. unfold with_lock, get_state, bind, get_cmd, ret.
  rewrite bool_decide_eq_false_2 by done. by destruct (commands (on_held _ w) !! c).
Qed.

Lemma record_no_stream ev w : wp (record (run_call start_ok run_ok) ev None) (fun _ _ => False) (fun _ _ => True) w.
Proof.
  assert (forall (A B : Type) (m : H A) (k : A -> H B) w, (forall a w', wp (k a) (fun _ _ => False) (fun _ _ => True) w') -> wp (bind m k) (fun _ _ => False) (fun _ _ => True) w) as Hb.
  { intros A B m k w' Hk. apply wp_bind. unfold wp at 1. destruct (m w'); [apply Hk|done]. }
  unfold record. do 4 (apply Hb; intros ? ?). by apply wp_bind, wp_raise.
Qed.

Lemma hip_event_record_ok ev s w w1 :
  hip_event_record start_ok run_ok ev (Some s) w = Ok tt w1 -> event_at w ev /\ record (run_call start_ok run_ok) ev (Some s) w = Ok tt w1.
Proof.
  unfold hip_event_record. unfold bind at 1. unfold throw_if. rewrite bool_decide_eq_false_2 by done. unfold ret at 1. unfold bind at 1, get_stream, gets.
  set (o := match streams w !! s with Some x => _ | None => _ end). unfold bind at 1, find_event, bind at 1, gets. destruct (commands w !! ev) as [y|] eqn:Hy; [|done].
  destruct (cached y); [|done]. cbn [andb]. case_bool_decide as Ht; [|done]. unfold ret at 1. destruct o as [i|] eqn:Ho.
  - intros Hr. split; [by exists y|]. replace i with s in Hr; [done|]. subst o. destruct (streams w !! s); [|done]. destruct (in_cache _); [|done]. congruence.
  - intros Hr. pose proof (record_no_stream ev w) as Hn. unfold wp in Hn. by rewrite Hr in Hn.
Qed.

Section one.
Context (c : nat) (rs : nat -> option nat).
Abbreviation fine_gated E K := (fine (gated [c] rs E K)).

Lemma keep_gated {A} E K h (m : H A) w a w' : keep (gated [c] rs E K) h m w (fun _ _ => True) -> m w = Ok a w' -> fine_gated E K h w'.
Proof. unfold keep, wp. intros Hk Em. rewrite Em in Hk. apply Hk. Qed.

(** More events and a further command that waits. *)
Lemma fine_more E K E' K' w : fine_gated E K [] w -> gated [c] rs E' K' w -> fine_gated E' K' [] w.
Proof. intros [H1 H2 H3 H4] Hg. by split. Qed.

Lemma record_gated ev s x w w1 :
  fine_gated [] None [] w -> event_at w ev -> streams w !! s = Some x -> c ∈ m_cmd_queue x -> rs ev = Some s ->
  record (run_call start_ok run_ok) ev (Some s) w = Ok tt w1 -> fine_gated [ev] None [] w1.
Proof.
  intros Hf (y & Hy & Ht) Hx Hc Hrs Hr. apply (record_stage _ _ x) in Hr; [|apply Hf|done]. set (w2 := on_commands _ w) in Hr.
  assert (commands w2 !! ev = Some (recorded_in s (m_cmd_queue x) y)) as Hy2 by (subst w2; rewrite lookup_on_cmd, decide_True by done; by rewrite Hy).
  assert (event_at w2 ev) as Hev by (exists (recorded_in s (m_cmd_queue x) y); done).
  assert (fine_gated [ev] None [] w2) as Hf2.
  { assert (gated [c] rs [] None w2) as [G1 G2 _ _ _ _] by (eapply gated_quiet; [apply Hf|exact Hy| |done|done|set_solver]; eapply life_quiet; [apply Hf|done|done|done|by rewrite Ht]).
    pose proof (grows_alter w ev (recorded_in s (m_cmd_queue x)) (fun _ => eq_refl) ltac:(intros z Hz; congruence)) as Hg. destruct Hf as [F1 F2 F3 F4].
    split; [by apply plain_alter| |done|].
    - intros i z e Hi Hz. eapply grows_event; [exact Hg|by eapply F2].
    - split; [done|done| |done|done|done]. intros g ->%list_elem_of_singleton. eexists. split; [exact Hy2|]. split; [done|by rewrite Hrs|left; set_solver|done]. }
  eapply keep_gated; [|exact Hr]. eapply (keep_bind _ _ _ _ _ (fun _ _ => True)).
  - eapply keep_enqueue; [apply gated_stable|apply gated_calls|done|by apply event_some|done].
  - intros _ w3 Hf3 Hg3 _. eapply keep_locked_state; [apply gated_stable|apply gated_calls|exact start_ok|exact run_ok|done|by eapply grows_event].
Qed.

(** The new event that the other stream waits for. *)
Lemma wait_gated e s t w w1 :
  fine_gated [e] None [] w -> rs e = Some s -> s <> t -> rs (length (commands w)) = None ->
  hip_stream_wait_event start_ok run_ok (Some t) e 0 w = Ok tt w1 -> fine_gated [e; length (commands w)] None [] w1.
Proof.
  intros Hf Hrs Hne Hd. destruct (gd_gate _ _ _ _ _ (fn_inv _ _ _ Hf) e ltac:(set_solver)) as (y & Hy & Hgate). pose proof (gt_type _ _ _ _ _ _ Hgate) as Hty.
  unfold hip_stream_wait_event. cbn [Z.eqb negb throw_if]. unfold bind at 1. unfold ret at 1. unfold bind at 1, stream_or_error, bind at 1, get_stream, gets.
  destruct (streams w !! t) as [x|]; [|done]. destruct (in_cache x); [|done]. unfold ret at 1. unfold bind at 1, find_event, bind at 1, gets. rewrite Hy.
  destruct (cached y); [|done]. rewrite bool_decide_eq_true_2 by done. cbn [andb]. unfold ret at 1. unfold bind at 1, is_recorded.
  rewrite (lock_read_state _ e is_recorded_no_lock w y) by (rewrite ?(fn_held _ _ _ Hf); set_solver).
  unfold bind at 1. destruct (is_recorded_no_lock _); [|done]. cbn [negb throw_if]. unfold ret at 1. unfold bind at 1, is_recorded_stream.
  rewrite (lock_read _ e (fun z => bool_decide (m_recorded_stream z = Some t)) w y) by (rewrite ?(fn_held _ _ _ Hf); set_solver).
  rewrite bool_decide_eq_false_2 by (rewrite (gt_stream _ _ _ _ _ _ Hgate); congruence).
  unfold bind at 1, insert_command, bind at 1, gets, bind at 1, modify, ret at 1. set (d := length (commands w)). set (w2 := on_commands _ w).
  unfold init_wait_event. unfold bind at 1. unfold add_dependency. rewrite lock_on_cmd by (cbn; rewrite (fn_held _ _ _ Hf); set_solver). set (w3 := on_commands _ w2).
  assert (fine_gated [e] None [] w2) as Hf2 by (pose proof (keep_insert _ _ _ _ (gated_calls [c] rs [e] None) [] event w Hf ltac:(set_solver)) as Hk; exact (proj1 Hk)).
  assert (e < d)%nat as Hlt by by eapply lookup_lt_Some.
  assert (commands w2 !! d = Some (new_command event)) as Hd2 by by apply list_lookup_middle.
  assert (forall z, commands w2 !! d = Some z -> ctype z = event) as Hdt by (intros z Hz; rewrite Hd2 in Hz; by injection Hz as <-).
  assert (fine_gated [e] None [] w3) as Hf3.
  { pose proof (keep_cmd _ _ d (fun x => set_recorded_commands (m_recorded_commands x ++ [e]) x) w2 Hf2 (fun _ => eq_refl) (fun _ _ _ => eq_refl)
      (fun z Hz => sc_dep _ _ _ _ (gated_calls [c] rs [e] None) w2 d z e (fn_inv _ _ _ Hf2) Hz (Hdt z Hz))) as Hk. exact (proj1 Hk). }
  assert (commands w3 !! d = Some (set_recorded_commands [e] (new_command event))) as Hd3 by (subst w3; rewrite lookup_on_cmd, decide_True by done; by rewrite Hd2).
  assert (fine_gated [e; d] None [] w3) as Hf4.
  { eapply fine_more; [exact Hf3|]. destruct (fn_inv _ _ _ Hf3) as [G1 G2 G3 G4 G5 G6]. split; [done|done| |done|done|done]. intros g Hg.
    destruct (decide (g = e)) as [->|Hge].
    - destruct (G3 e ltac:(set_solver)) as (z & Hz & [D1 D2 D3 D4]). exists z. split; [done|]. split; [done|done| |done]. set_solver.
    - assert (g = d) as -> by set_solver. eexists. split; [exact Hd3|]. split; [done|done| |done]. right. exists e. cbn. set_solver. }
  assert (event_at w3 d) as Hev by by eexists. assert (event_at w3 e) as Hee.
  { destruct (gd_gate _ _ _ _ _ (fn_inv _ _ _ Hf4) e ltac:(set_solver)) as (z & Hz & []). by exists z. }
  intros Hw1. eapply keep_gated; [|exact Hw1].
  eapply keep_bind; [eapply keep_add_to_chain; [apply gated_stable|apply gated_calls|done|done|by apply event_some|done]|]. intros _ w4 Hf5 Hg4 _.
  eapply keep_bind; [eapply keep_enqueue; [apply gated_stable|apply gated_calls|done|by eapply grows_some, event_some|done]|]. intros _ w5 Hf6 Hg5 _.
  assert (event_at w5 d) as Hev5 by (eapply grows_event; [|exact Hev]; by etrans).
  eapply keep_bind; [eapply keep_record_top; [apply gated_stable|apply gated_calls|done|done]|]. intros _ w6 Hf7 Hg6 _.
  eapply keep_locked_state; [apply gated_stable|apply gated_calls|exact start_ok|exact run_ok|done|by eapply grows_event].
Qed.

(** What is put into the stream now joins the chain of its top event. *)
Lemma launch_gated E d t ty y w k w1 :
  fine_gated E None [] w -> streams w !! t = Some y -> m_top_event y = Some d -> d ∈ E -> work_type ty ->
  (s <- stream_or_error (Some t) hipErrorInvalidValue ;; n <- insert_command (new_command ty) ;; enqueue (run_call start_ok run_ok) s n ;;; ret n) w = Ok k w1 ->
  k = length (commands w) /\ fine_gated E (Some k) [] w1.
Proof.
  intros Hf Hy Htop Hd Hty. pose proof (fn_held _ _ _ Hf) as Hh. unfold bind at 1, stream_or_error, bind at 1, get_stream, gets. rewrite Hy. destruct (in_cache y); [|done]. unfold ret at 1.
  unfold bind at 1, insert_command, bind at 1, gets, bind at 1, modify, ret at 1. set (n := length (commands w)). set (w2 := on_commands _ w).
  unfold bind at 1, enqueue, with_lock. cbn [held w2 on_commands]. rewrite Hh, bool_decide_eq_false_2 by set_solver.
  unfold bind at 1, get_stm. cbn [streams on_held w2 on_commands]. rewrite Hy, Htop. unfold bind at 1, add_to_chain. rewrite lock_on_cmd by (cbn; rewrite Hh; set_solver).
  unfold on_stm, modify. unfold ret. intros [= <- <-]. split; [done|].
  assert (fine_gated E None [] w2) as Hf2.
  { pose proof (keep_insert _ _ _ _ (gated_calls [c] rs E None) [] ty w Hf ltac:(destruct Hty as [-> | ->]; set_solver)) as Hk. exact (proj1 Hk). }
  assert (commands w2 !! n = Some (new_command ty)) as Hn by by apply list_lookup_middle.
  destruct (gd_gate _ _ _ _ _ (fn_inv _ _ _ Hf2) d Hd) as (z & Hz & Hgate).
  pose proof (sc_chain _ _ _ _ (gated_calls [c] rs E None) w2 d z n (fn_inv _ _ _ Hf2) Hz (gt_type _ _ _ _ _ _ Hgate) ltac:(by eexists) ltac:(done)) as Hg3.
  set (w3 := on_commands _ w2) in Hg3. destruct (fn_inv _ _ _ Hf) as [[_ L2 L3] _ _ _ _ _].
  assert (fine_gated E (Some n) [] w3) as Hf3.
  { pose proof (grows_alter w2 d (fun x => set_chain (m_chain_of_commands x ++ [n]) x) (fun _ => eq_refl) (fun _ _ _ => eq_refl)) as Hg. destruct Hf2 as [F1 F2 F3 F4].
    split; [by apply plain_alter| |done|].
    - intros i x e Hi Hx. eapply grows_event; [exact Hg|by eapply F2].
    - destruct Hg3 as [G1 G2 G3 G4 G5 G6]. split; [done|done|done| | |].
      + intros k [= <-]. apply work_alter; [done|]. eexists. split; [exact Hn|done].
      + intros k i x [= <-]. subst w3. rewrite lookup_on_cmd. destruct (decide (i = d)) as [->|]; [done|]. subst w2. cbn.
        intros [Hx|[_ Hx]]%lookup_app_Some Hin; [exfalso; specialize (L3 i x n Hx Hin); subst n; lia|]. apply list_lookup_singleton_Some in Hx as [_ <-]. cbn in Hin. set_solver.
      + intros k h1 h2 [= <-] Eh. cbn in Eh. specialize (L2 (Start n)). cbn in L2. rewrite Eh in L2. assert (n < length (commands w))%nat by (apply L2; set_solver). subst n. lia. }
  match goal with |- fine_gated _ _ _ (on_held ?f (on_streams ?g _)) =>
    pose proof (keep_stm _ _ _ _ (gated_calls [c] rs E (Some n)) [] t (fun x => set_queue (m_cmd_queue x ++ [n]) x) w3 (fun _ _ => True) Hf3 ltac:(by left) ltac:(done)) as Hk end.
  apply proj1 in Hk. rewrite <- (unlock_lock (m_cmd_lock t) (on_streams _ w3)) in Hk by (cbn; rewrite Hh; set_solver). exact Hk.
Qed.
End one.

(** C17: Let [e] be recorded in the stream [s] and let another stream [t] wait for it.  Whatever
    the application does besides recording [e] anew, a kernel or a copy that is put into [t]
    while the event made for this wait is the top event of [t] is started only after every
    kernel and every copy that was in [s] as [e] was recorded has ended. *)
Theorem wait_event_orders w0 w1 w2 w3 w4 w5 w6 s t e d x y k a c z h1 h2 :
  reach start_ok run_ok w0 -> streams w0 !! s = Some x -> s <> t ->
  hip_event_record start_ok run_ok e (Some s) w0 = Ok tt w1 -> steps start_ok run_ok (may_record (fun i => i ∉ [e])) w1 w2 ->
  d = length (commands w2) -> hip_stream_wait_event start_ok run_ok (Some t) e 0 w2 = Ok tt w3 -> steps start_ok run_ok (may_record (fun i => i ∉ [e; d])) w3 w4 ->
  streams w4 !! t = Some y -> m_top_event y = Some d ->
  a ∈ [hip_module_launch_kernel start_ok run_ok (Some t); hip_memcpy_async start_ok run_ok (Some t)] -> a w4 = Ok k w5 ->
  steps start_ok run_ok (may_record (fun i => i ∉ [e; d])) w5 w6 ->
  c ∈ m_cmd_queue x -> commands w0 !! c = Some z -> ctype z <> event ->
  history w6 = h1 ++ Start k :: h2 -> Done c ∈ h1.
Proof.
  intros Hr Hx Hst Hrec Hs12 -> Hwait Hs34 Hy Htop Ha Hk Hs56 Hc Hz Hnz Hh. set (d := length (commands w2)) in *.
  set (rs := fun i => if (i =? e)%nat then Some s else None). pose proof (reach_life _ _ _ Hr) as Hl.
  assert (work_at w0 c) as Hwork by (exists z; split; [done|]; destruct (plain_lookup _ _ _ (fn_plain _ _ _ Hl) Hz) as [?|[?|?]]; [done|by left|by right]).
  assert (fine (gated [c] rs [] None) [] w0) as Hf0.
  { destruct Hl as [F1 F2 F3 F4]. split; [done..|]. split; [done| |set_solver|done|done|done]. by intros i ->%list_elem_of_singleton. }
  assert (fine (gated [c] rs [e] None) [] w1) as Hf1.
  { apply hip_event_record_ok in Hrec as [Hev Hrec]. eapply record_gated; [done|done|done|done| |exact Hrec]. subst rs. cbn. by rewrite Nat.eqb_refl. }
  destruct (steps_fine _ _ _ _ _ (gated_stable [c] rs [e] None) (gated_calls [c] rs [e] None) start_ok run_ok _ w1 w2 (fun a H => H) Hf1 Hs12) as [Hf2 _].
  assert (e <> d) as Hed by (destruct (gd_gate _ _ _ _ _ (fn_inv _ _ _ Hf2) e ltac:(set_solver)) as (i & Hi%lookup_lt_Some & _); lia).
  assert (fine (gated [c] rs [e; d] None) [] w3) as Hf3.
  { eapply (wait_gated c rs e s t w2 w3 Hf2); [by subst rs; cbn; rewrite Nat.eqb_refl|done| |done]. 
    change (rs d = None). subst rs. cbn beta. destruct (Nat.eqb_spec d e); [congruence|done]. }
  destruct (steps_fine _ _ _ _ _ (gated_stable [c] rs [e; d] None) (gated_calls [c] rs [e; d] None) start_ok run_ok _ w3 w4 (fun a H => H) Hf3 Hs34) as [Hf4 _].
  assert (exists ty, work_type ty /\ (s <- stream_or_error (Some t) hipErrorInvalidValue ;; n <- insert_command (new_command ty) ;;
    enqueue (run_call start_ok run_ok) s n ;;; ret n) w4 = Ok k w5) as (ty & Hty & Hk').
  { apply elem_of_cons in Ha as [->|Ha]; [by exists kernel_start; split; [left|]|]. apply list_elem_of_singleton in Ha as ->. by exists mem_cpy; split; [right|]. }
  destruct (launch_gated c rs [e; d] d t ty y w4 k w5 Hf4 Hy Htop ltac:(set_solver) Hty Hk') as [_ Hf5].
  destruct (steps_fine _ _ _ _ _ (gated_stable [c] rs [e; d] (Some k)) (gated_calls [c] rs [e; d] (Some k)) start_ok run_ok _ w5 w6 (fun a H => H) Hf5 Hs56) as [Hf6 _].
  apply (gd_start _ _ _ _ _ (fn_inv _ _ _ Hf6) k h1 h2 eq_refl Hh). set_solver.
Qed.
End stages.

(** ** Witness *)

Definition always (c : nat) : bool := true.
Definition played (l : list api) : world := default empty_world (play always always l empty_world).

(** Two streams, an event, and a kernel in the first stream. *)
Definition order_calls : list api := [StreamCreate 1; StreamCreate 1; EventCreate; LaunchKernel (Some 0%nat)].
Definition order_record : list api := order_calls ++ [EventRecord 0 (Some 0%nat)].
Definition order_wait : list api := order_record ++ [StreamWaitEvent (Some 1%nat) 0 0].
Definition order_launch : list api := order_wait ++ [LaunchKernel (Some 1%nat)].

Lemma wait_event_orders_witness :
  history (played (order_launch ++ [StreamSynchronize (Some 1%nat)])) = [Start 1; Done 1; Start 3; Done 3] /\ Done 1 ∈ [Start 1; Done 1].
Proof.
  split; [vm_compute; reflexivity|].
  eapply (wait_event_orders always always (played order_calls) (played order_record) (played order_record) (played order_wait) (played order_wait) (played order_launch)
    (played (order_launch ++ [StreamSynchronize (Some 1%nat)])) 0 1 0 2 _ _ 3 (hip_module_launch_kernel always always (Some 1%nat)) 1 _ [Start 1; Done 1] [Done 3]).
  - apply (play_reach _ _ order_calls). vm_compute. reflexivity.
  - vm_compute. reflexivity.
  - lia.
  - vm_compute. reflexivity.
  - apply steps_refl.
  - vm_compute. reflexivity.
  - vm_compute. reflexivity.
  - apply steps_refl.
  - vm_compute. reflexivity.
  - vm_compute. reflexivity.
  - left.
  - vm_compute. reflexivity.
  - apply (steps_call _ _ _ _ (StreamSynchronize (Some 1%nat)) (played order_launch)); [apply steps_refl|exact Logic.I|vm_compute; reflexivity].
  - vm_compute. left.
  - vm_compute. reflexivity.
  - vm_compute. discriminate.
  - vm_compute. reflexivity.
Defined.
