(* ===== verification/HipRanks.v ===== *)
(** Calls of commands without deadlocks: with events ranked so that they depend on smaller ranks
    and chain greater ones, [submit] and [wait] are never blocked on a mutex that their own
    thread holds. *)

From S2P Require Import Prelude HipStream HipInvariant HipCalls HipOrder.

(** * Ranks

    Events have ranks: an event depends on events of smaller ranks, and its chain has events of
    greater ranks.  Waiting goes down and holds [m_recorded_cmds_lock], launching a chain
    goes up and holds [m_chain_cmds_lock]. *)
Section ranks.
Context (r : nat -> nat).

Record ranked (w : world) : Prop := {
  rk_deps : forall e x d, commands w !! e = Some x -> d ∈ m_recorded_commands x -> event_at w d -> (r d < r e)%nat;
  rk_chain : forall e x c, commands w !! e = Some x -> c ∈ m_chain_of_commands x -> event_at w c -> (r e < r c)%nat;
  rk_some : forall e x c, commands w !! e = Some x -> c ∈ m_recorded_commands x \/ c ∈ m_chain_of_commands x -> is_Some (commands w !! c);
}.

(** No mutex of a state is held, and who holds the dependencies of an event is evaluating it. *)
Record guarded (w : world) : Prop := {
  gu_state : forall e, m_state_lock e ∉ held w;
  gu_deps : forall e, m_recorded_cmds_lock e ∈ held w -> exists x, commands w !! e = Some x /\ ctype x = event /\ cstate x = running;
}.

Definition allowed (o : op) (e : nat) (w : world) : Prop :=
  match o with
  | Submit => forall i, m_chain_cmds_lock i ∈ held w -> (r i < r e)%nat
  | Wait => (forall i, m_chain_cmds_lock i ∉ held w) /\ forall i, m_recorded_cmds_lock i ∈ held w -> (r e < r i)%nat
  end.

Lemma evolves_lookup_r w w' c y : evolves w w' -> commands w' !! c = Some y -> exists x, commands w !! c = Some x /\ later x y.
Proof. intros [_ _ Hc _] Hy. by eapply Forall2_lookup_r. Qed.

Lemma evolves_event w w' e : evolves w w' -> event_at w' e -> event_at w e.
Proof. intros He (y & Hy & Ht). destruct (evolves_lookup_r _ _ _ _ He Hy) as (x & Hx & Hl). exists x. split; [done|]. by rewrite <- (lt_type _ _ Hl). Qed.

Lemma evolves_some w w' c : evolves w w' -> is_Some (commands w !! c) -> is_Some (commands w' !! c).
Proof. intros He [x Hx]. destruct (evolves_lookup _ _ _ _ He Hx) as (y & Hy & _). by exists y. Qed.

Lemma ranked_evolves w w' : evolves w w' -> ranked w -> ranked w'.
Proof.
  intros He [H1 H2 H3]. split.
  - intros e y d Hy Hd Hev. destruct (evolves_lookup_r _ _ _ _ He Hy) as (x & Hx & Hl). rewrite (lt_deps _ _ Hl) in Hd. by eapply H1; [| |eapply evolves_event].
  - intros e y c Hy Hc Hev. destruct (evolves_lookup_r _ _ _ _ He Hy) as (x & Hx & Hl). eapply H2; [done| |by eapply evolves_event].
    destruct (lt_chain _ _ Hl) as [l ->]. set_solver.
  - intros e y c Hy Hc. destruct (evolves_lookup_r _ _ _ _ He Hy) as (x & Hx & Hl). eapply evolves_some; [done|]. eapply H3; [exact Hx|]. rewrite (lt_deps _ _ Hl) in Hc.
    destruct Hc as [Hc|Hc]; [by left|right]. destruct (lt_chain _ _ Hl) as [l ->]. set_solver.
Qed.

Lemma ranked_same w w' : commands w' = commands w -> ranked w -> ranked w'.
Proof. intros E [H1 H2 H3]. split; unfold event_at in *; by rewrite E. Qed.

Lemma ranked_held w f : ranked w -> ranked (on_held f w).
Proof. by apply ranked_same. Qed.

(** The error is neither a mutex that the thread holds nor a pointer to nothing. *)
Definition regular (e : stop) : Prop := e <> deadlock /\ e <> bad_pointer.

(** The routine keeps the discipline and is not blocked. *)
Definition calm {A} (m : H A) (w : world) (Q : A -> world -> Prop) : Prop :=
  wp m (fun a w' => evolves w w' /\ guarded w' /\ Q a w') (fun e w' => evolves w w' /\ guarded w' /\ regular e) w.

Lemma calm_ret {A} (a : A) w Q : guarded w -> Q a w -> calm (ret a) w Q.
Proof. intros. by apply wp_ret. Qed.

Lemma calm_raise {A} e w (Q : A -> world -> Prop) : guarded w -> regular e -> calm (raise e) w Q.
Proof. intros. by apply wp_raise. Qed.

Lemma calm_bind {A B} (m : H A) (k : A -> H B) w Q Q' :
  calm m w Q -> (forall a w', guarded w' -> evolves w w' -> Q a w' -> calm (k a) w' Q') -> calm (bind m k) w Q'.
Proof.
  intros Hm Hk. apply wp_bind. eapply wp_mono; [exact Hm| |done]. cbn. intros a w' (He & Hg & HQ).
  eapply wp_mono; [by apply (Hk a w')| |]; cbn; intros ? w'' (? & ? & ?); (split_and!; [by etrans|done|done]).
Qed.

Lemma calm_get {A} c (k : command -> H A) w Q :
  is_Some (commands w !! c) -> (forall x, commands w !! c = Some x -> calm (k x) w Q) -> calm (bind (get_cmd c) k) w Q.
Proof. intros [x Hx] Hk. unfold calm, wp, bind, get_cmd. rewrite Hx. by apply Hk. Qed.

Lemma calm_state {A} c (k : cmd_state -> H A) w Q :
  is_Some (commands w !! c) -> (forall x, commands w !! c = Some x -> calm (k (cstate x)) w Q) -> calm (bind (get_state c) k) w Q.
Proof. intros [x Hx] Hk. unfold calm, wp, bind, get_state, bind, get_cmd, ret. rewrite Hx. by apply (Hk x). Qed.

Lemma calm_eq {A} (m : H A) a w w' Q : m w = Ok a w' -> evolves w w' -> guarded w' -> Q a w' -> calm m w Q.
Proof. intros Hm He Hg HQ. unfold calm, wp. by rewrite Hm. Qed.

Lemma guarded_unlock l w : guarded w -> guarded (on_held (filter (fun x => x <> l)) w).
Proof.
  intros [H1 H2]. split; cbn.
  - intros e [_ He]%list_elem_of_filter. by apply (H1 e).
  - intros e [_ He]%list_elem_of_filter. by apply H2.
Qed.

Lemma calm_lock {A} l (m : H A) w (Q : A -> world -> Prop) :
  l ∉ held w -> (forall a w' f, Q a w' -> Q a (on_held f w')) -> calm m (on_held (cons l) w) Q -> calm (with_lock l m) w Q.
Proof.
  intros Hl HQ Hm. unfold calm, wp, with_lock in *. rewrite bool_decide_eq_false_2 by done.
  destruct (m _) as [a w'|e w']; destruct Hm as (H1 & H2 & H3); (split_and!; [by apply evolves_held|by apply guarded_unlock|]); [by apply HQ|done].
Qed.

Lemma guarded_chain e w : guarded w -> guarded (on_held (cons (m_chain_cmds_lock e)) w).
Proof. intros [H1 H2]. split; cbn; [intros i Hi; set_solver|]. intros i Hi. apply H2. set_solver. Qed.

Lemma guarded_deps e x w : guarded w -> commands w !! e = Some x -> ctype x = event -> cstate x = running -> guarded (on_held (cons (m_recorded_cmds_lock e)) w).
Proof.
  intros [H1 H2] Hx Ht Hs. split; cbn; [intros i Hi; set_solver|]. intros i [Hi|Hi]%elem_of_cons; [|by apply H2]. injection Hi as ->. by exists x.
Qed.

(** A change of one command: of an event that nobody evaluates, or one that keeps its state. *)
Lemma guarded_alter w c f g :
  guarded w -> (m_recorded_cmds_lock c ∈ held w -> forall x, commands w !! c = Some x -> ctype x = event -> cstate x = running -> ctype (f x) = event /\ cstate (f x) = running) ->
  guarded (on_commands (alter f c) (set_clock g w)).
Proof.
  intros [H1 H2] Hf. split; [done|]. cbn. intros e He. destruct (H2 e He) as (x & Hx & Ht & Hs). change (alter f c (commands w)) with (commands (on_commands (alter f c) w)). rewrite lookup_on_cmd.
  destruct (decide (e = c)) as [->|]; [|by exists x]. exists (f x). rewrite Hx. split; [done|by apply Hf].
Qed.

Lemma set_clock_same w : set_clock (clock w) w = w.
Proof. by destruct w. Qed.

Lemma guarded_cmd w c f :
  guarded w -> (m_recorded_cmds_lock c ∈ held w -> forall x, commands w !! c = Some x -> ctype x = event -> cstate x = running -> ctype (f x) = event /\ cstate (f x) = running) -> guarded (on_commands (alter f c) w).
Proof. intros Hg Hf. rewrite <- (set_clock_same w). by apply guarded_alter. Qed.

(** ** The phases of an event *)

Definition start_phase (e : nat) (wait : bool) : H (option bool) :=
  st <- get_state e ;;
  if negb (is_recorded_no_lock st) || (bool_decide (st = running) && negb wait) then ret None else
  if bool_decide (st = completed) then ret (Some true) else set_state e running ;;; ret (Some false).

Definition end_phase (e : nat) (deps : dependencies) : H bool :=
  match deps with
  | HasError => set_state e error ;;; raise (hip_error hipErrorLaunchFailure)
  | NotCompleted => set_state e recorded ;;; ret false
  | Completed => set_state e completed ;;; t <- now ;; on_cmd e (set_time_of t) ;;; ret true
  end.

(** A block without calls, under a mutex that is free. *)
Lemma lock_quick {A} l (m : H A) w :
  l ∉ held w -> with_lock l m w = match m (on_held (cons l) w) with
    | Ok a w' => Ok a (on_held (filter (fun x => x <> l)) w') | Err e w' => Err e (on_held (filter (fun x => x <> l)) w') end.
Proof. intros Hl. unfold with_lock. by rewrite bool_decide_eq_false_2. Qed.

Lemma unlock_after l (g : world -> world) w :
  l ∉ held w -> (forall f w, g (on_held f w) = on_held f (g w)) -> on_held (filter (fun x => x <> l)) (g (on_held (cons l) w)) = g w.
Proof. intros Hl Hg. rewrite Hg. apply unlock_lock. pose proof (Hg (fun _ => held w) w) as E. intros Hin. apply Hl.
  replace w with (on_held (fun _ => held w) w) in Hin by by destruct w. by rewrite E in Hin. Qed.

Lemma start_phase_eq e wait w x :
  m_state_lock e ∉ held w -> commands w !! e = Some x ->
  with_lock (m_state_lock e) (start_phase e wait) w =
    if negb (is_recorded_no_lock (cstate x)) || (bool_decide (cstate x = running) && negb wait) then Ok None w else
    if bool_decide (cstate x = completed) then Ok (Some true) w else Ok (Some false) (on_commands (alter (set_state_of running) e) w).
Proof.
  intros Hl Hx. rewrite lock_quick by done. unfold start_phase, bind, get_state, bind, get_cmd. change (commands (on_held _ w)) with (commands w). rewrite Hx.
  unfold ret. destruct (_ || _); [by rewrite unlock_lock|]. case_bool_decide; [by rewrite unlock_lock|]. unfold set_state, on_cmd, modify.
  f_equal. by apply (unlock_after _ (on_commands (alter (set_state_of running) e))).
Qed.

Lemma end_phase_eq e deps w :
  m_state_lock e ∉ held w ->
  with_lock (m_state_lock e) (end_phase e deps) w =
    match deps with
    | HasError => Err (hip_error hipErrorLaunchFailure) (on_commands (alter (set_state_of error) e) w)
    | NotCompleted => Ok false (on_commands (alter (set_state_of recorded) e) w)
    | Completed => Ok true (on_commands (alter (set_time_of (clock w) ∘ set_state_of completed) e) (set_clock (clock w + 1) w))
    end.
Proof.
  intros Hl. rewrite lock_quick by done. destruct deps; unfold end_phase.
  - rewrite complete_eq. f_equal. by apply (unlock_after _ (fun w => on_commands (alter (set_time_of (clock w) ∘ set_state_of completed) e) (set_clock (clock w + 1) w))).
  - unfold set_state, on_cmd, modify, bind, ret. f_equal. by apply (unlock_after _ (on_commands (alter (set_state_of recorded) e))).
  - unfold set_state, on_cmd, modify, bind, raise. f_equal. by apply (unlock_after _ (on_commands (alter (set_state_of error) e))).
Qed.

Section calls.
Context (start_ok run_ok : nat -> bool).

Definition calls_calm (call : op -> nat -> H bool) : Prop := forall o c w,
  plain w -> ranked w -> guarded w -> is_Some (commands w !! c) -> (event_at w c -> allowed o c w) -> calm (call o c) w (fun _ _ => True).

Context (call : op -> nat -> H bool) (Hcall : calls_calm call).

Lemma allowed_evolves o c w w' : evolves w w' -> allowed o c w -> allowed o c w'.
Proof. intros He. unfold allowed. by rewrite (ev_held _ _ He). Qed.

Lemma check_dependencies_calm wait l w :
  plain w -> ranked w -> guarded w -> (forall d, d ∈ l -> is_Some (commands w !! d)) -> (wait = true -> forall d, d ∈ l -> event_at w d -> allowed Wait d w) ->
  calm (check_dependencies call wait l) w (fun _ _ => True).
Proof.
  revert w. induction l as [|d l IH]; intros w Hp Hr Hg Hl Ha; cbn [check_dependencies]; [by apply calm_ret|].
  eapply (calm_bind _ _ _ (fun _ _ => True)).
  { destruct wait; [|by apply calm_ret]. eapply calm_bind; [apply Hcall; [done|done|done|apply Hl; set_solver|apply Ha; [done|set_solver]]|]. intros a w' Hg' _ _. by apply calm_ret. }
  intros _ w1 Hg1 He1 _. apply calm_state; [eapply evolves_some; [done|apply Hl; set_solver]|]. intros x Hx. case_bool_decide; [|destruct (_ <? _)%nat; by apply calm_ret].
  apply IH; [by eapply evolves_plain|by eapply ranked_evolves|done|intros i Hi; eapply evolves_some; [done|apply Hl; set_solver]|]. intros Hw c Hc Hev. eapply allowed_evolves; [done|]. apply Ha; [done|set_solver|by eapply evolves_event].
Qed.

Lemma launch_chain_calm e l w :
  plain w -> ranked w -> guarded w -> event_at w e -> (forall c, c ∈ l -> is_Some (commands w !! c)) -> (forall c, c ∈ l -> event_at w c -> allowed Submit c w) -> calm (launch_chain call e l) w (fun _ _ => True).
Proof.
  revert w. induction l as [|c l IH]; intros w Hp Hr Hg Hev Hl Ha; cbn [launch_chain]; [by apply calm_ret|].
  eapply calm_bind; [apply Hcall; [done|done|done|apply Hl; set_solver|apply Ha; set_solver]|]. intros _ w1 Hg1 He1 _.
  set (f := fun x => set_chain (tail (m_chain_of_commands x)) x). assert (evolves w1 (on_commands (alter f e) w1)) as He2.
  { apply evolves_on_cmd. intros y Hy. split; try done. cbn. destruct (m_chain_of_commands y) as [|i q]; [done|]. by exists [i]. }
  eapply (calm_bind _ _ _ (fun _ _ => True)); [eapply calm_eq; [done|exact He2|by apply guarded_cmd|done]|]. intros _ w2 Hg2 He3 _.
  assert (evolves w w2) as He by by etrans. apply IH; [by eapply evolves_plain|by eapply ranked_evolves|done|eapply grows_event; [by apply evolves_grows|done]|intros i Hi; eapply evolves_some; [done|apply Hl; set_solver]|].
  intros i Hi Hei. eapply allowed_evolves; [exact He|]. apply Ha; [set_solver|by eapply evolves_event].
Qed.

Definition op_of (wait : bool) : op := if wait then Wait else Submit.

(** The dependencies of an event are free when it has to be evaluated. *)
Lemma deps_free e x wait w :
  guarded w -> allowed (op_of wait) e w -> commands w !! e = Some x -> negb (is_recorded_no_lock (cstate x)) || (bool_decide (cstate x = running) && negb wait) = false ->
  m_recorded_cmds_lock e ∉ held w.
Proof.
  intros Hg Ha Hx Hs Hin. destruct wait; [destruct Ha as [_ Ha]; specialize (Ha e Hin); lia|].
  destruct (gu_deps _ Hg e Hin) as (y & Hy & _ & Es). assert (y = x) as -> by congruence. by rewrite Es in Hs.
Qed.

Lemma chain_free e wait w : allowed (op_of wait) e w -> m_chain_cmds_lock e ∉ held w.
Proof. destruct wait; [intros [Ha _]; apply Ha|]. intros Ha Hin. specialize (Ha e Hin). lia. Qed.

(** The evaluation of the dependencies. *)
Lemma evaluate_calm e x wait w :
  plain w -> ranked w -> guarded w -> allowed (op_of wait) e w -> m_recorded_cmds_lock e ∉ held w -> commands w !! e = Some x -> ctype x = event -> cstate x = running ->
  calm (with_lock (m_recorded_cmds_lock e) (y <- get_cmd e ;; check_dependencies call wait (m_recorded_commands y))) w (fun _ _ => True).
Proof.
  intros Hp Hr Hg Ha Hl Hx Ht Hs. apply calm_lock; [done|done|]. pose proof (guarded_deps e x w Hg Hx Ht Hs) as Hg1. apply calm_get; [by exists x|]. intros y Hy. cbn in Hy.
  assert (y = x) as -> by congruence. apply check_dependencies_calm; [done|by apply ranked_held|done|intros d Hd; eapply (rk_some _ Hr); [exact Hx|by left]|]. intros -> d Hd Hev.
  pose proof (rk_deps _ Hr e x d Hx Hd Hev) as Hlt. destruct Ha as [Ha1 Ha2]. split; cbn.
  - intros i Hi. apply elem_of_cons in Hi as [Hi|Hi]; [done|by apply (Ha1 i)].
  - intros i [Hi|Hi]%elem_of_cons; [by injection Hi as ->|]. specialize (Ha2 i Hi). lia.
Qed.

Lemma end_calm e x deps w :
  guarded w -> commands w !! e = Some x -> ctype x = event -> m_recorded_cmds_lock e ∉ held w -> calm (with_lock (m_state_lock e) (end_phase e deps)) w (fun _ _ => True).
Proof.
  intros Hg Hx Ht Hl. unfold calm, wp. rewrite end_phase_eq by apply Hg.
  assert (forall s t, s <> init -> evolves w (on_commands (alter (set_state_of s) e) (set_clock t w)) /\ evolves w (on_commands (alter (set_time_of (clock w) ∘ set_state_of s) e) (set_clock t w))) as He.
  { intros s t Hs. assert (evolves w (set_clock t w)) as He0 by by split.
    split; (etrans; [exact He0|]; apply evolves_on_cmd; intros y Hy; cbn in Hy; assert (y = x) as -> by congruence; by split). }
  destruct deps; (split_and!; [|first [by apply guarded_cmd|by apply guarded_alter]|done]); [by apply He|..]; rewrite <- (set_clock_same w) at 2; by apply He.
Qed.

Lemma check_and_launch_calm e wait w :
  plain w -> ranked w -> guarded w -> event_at w e -> allowed (op_of wait) e w -> calm (check_and_launch_chain call e wait) w (fun _ _ => True).
Proof.
  intros Hp Hr Hg (x & Hx & Ht) Ha. assert (forall w', evolves w w' -> exists y, commands w' !! e = Some y /\ ctype y = event) as Hev.
  { intros w' He. destruct (grows_event w w' e (evolves_grows _ _ He)) as (y & Hy); [by exists x|by exists y]. }
  eapply (calm_bind _ _ _ (fun o w' => match o with
    | None => True | Some c => m_recorded_cmds_lock e ∉ held w' /\ (c = false -> exists y, commands w' !! e = Some y /\ ctype y = event /\ cstate y = running) end)).
  { pose proof (start_phase_eq e wait w x (gu_state _ Hg e) Hx) as E. unfold start_phase in E. unfold calm, wp. rewrite E. clear E. destruct (_ || _) eqn:Es; [done|].
    pose proof (deps_free e x wait w Hg Ha Hx Es) as Hl. clear Es. case_bool_decide as Hc; [by split_and!|]. split_and!; [| |done|].
    - apply evolves_on_cmd. intros y Hy. assert (y = x) as -> by congruence. by split.
    - by apply guarded_cmd.
    - intros _. exists (set_state_of running x). by rewrite lookup_on_cmd, decide_True, Hx. }
  intros [c|] w1 Hg1 He1; [intros [Hl1 Hrun]|intros _; by apply calm_ret]. eapply (calm_bind _ _ _ (fun _ _ => True)).
  { destruct c; [by apply calm_ret|]. destruct (Hrun eq_refl) as (y & Hy & Hty & Es).
    eapply evaluate_calm; [by eapply evolves_plain|by eapply ranked_evolves|done|by eapply allowed_evolves|done..]. }
  intros deps w2 Hg2 He2 _. assert (evolves w w2) as He by by etrans. destruct (Hev w2 He) as (y & Hy & Hty).
  eapply (calm_bind _ _ _ (fun _ _ => True)); [apply (end_calm e y deps); [done|done|done|by rewrite (ev_held _ _ He2)]|].
  intros [] w3 Hg3 He3 _; [|by apply calm_ret]. assert (evolves w w3) as He03 by by etrans.
  eapply (calm_bind _ _ _ (fun _ _ => True)); [|intros ? w' Hg' _ _; by apply calm_ret].
  apply calm_lock; [by apply (chain_free e wait), (allowed_evolves _ _ w)|done|]. destruct (Hev w3 He03) as (z & Hz & Htz). apply calm_get; [by exists z|]. intros z' Hz'. cbn in Hz'. assert (z' = z) as -> by congruence.
  assert (ranked w3) as Hr3 by by eapply ranked_evolves. apply launch_chain_calm; [exact (evolves_plain _ _ He03 Hp)|by apply ranked_held|by apply guarded_chain|by exists z|intros i Hi; eapply (rk_some _ Hr3); [exact Hz|by right]|].
  intros i Hi Hei. pose proof (rk_chain _ Hr3 e z i Hz Hi Hei) as Hlt. intros j [Hj|Hj]%elem_of_cons; [by injection Hj as ->|].
  rewrite (ev_held _ _ He03) in Hj. destruct wait; [destruct Ha as [Ha _]; by specialize (Ha j Hj)|]. specialize (Ha j Hj). lia.
Qed.

(** A step of the history of a command that is not an event, and a change of it. *)
Lemma act_calm {A} l c f w x (k : H A) Q :
  guarded w -> commands w !! c = Some x -> ctype x <> event -> later x (f x) ->
  (forall w', guarded w' -> evolves w w' -> calm k w' Q) ->
  calm (modify (on_history (fun h => h ++ l)) ;;; on_cmd c f ;;; k) w Q.
Proof.
  intros Hg Hx Ht Hl Hk. set (w1 := on_commands (alter f c) (on_history (fun h => h ++ l) w)).
  assert (evolves w w1) as He.
  { etrans; [|apply evolves_on_cmd; cbn; intros y Hy; by replace y with x by congruence]. split; try done. by exists l. }
  assert (guarded w1) as Hg1.
  { apply guarded_cmd; [destruct Hg as [H1 H2]; by split|]. intros _ y Hy. cbn in Hy. congruence. }
  eapply wp_mono; [exact (Hk w1 Hg1 He)| |]; cbn; intros ? w' (? & ? & ?); (split_and!; [by etrans|done|done]).
Qed.

Lemma submit_calm c w :
  plain w -> ranked w -> guarded w -> is_Some (commands w !! c) -> (event_at w c -> allowed Submit c w) -> calm (submit_command start_ok call c) w (fun _ _ => True).
Proof.
  intros Hp Hr Hg Hc Ha. apply calm_get; [done|]. intros x Hx. destruct (plain_lookup w c x Hp Hx) as [Ht|[Ht|Ht]]; rewrite Ht.
  - assert (event_at w c) as Hev by by exists x. by apply (check_and_launch_calm c false); [| | | |apply Ha].
  - unfold kernel_start_submit. destruct (cstate x) eqn:Es; try by apply calm_ret. destruct (start_ok c); [|by apply calm_raise].
    eapply act_calm; [done|done|by rewrite Ht|split; naive_solver congruence|]. intros w' Hg' _. by apply calm_ret.
  - eapply act_calm; [done|done|by rewrite Ht|by split|]. intros w' Hg' _. by apply calm_ret.
Qed.

Lemma wait_calm c w :
  plain w -> ranked w -> guarded w -> is_Some (commands w !! c) -> (event_at w c -> allowed Wait c w) -> calm (wait_command run_ok call c) w (fun _ _ => True).
Proof.
  intros Hp Hr Hg Hc Ha. apply calm_get; [done|]. intros x Hx. destruct (plain_lookup w c x Hp Hx) as [Ht|[Ht|Ht]]; rewrite Ht.
  - assert (event_at w c) as Hev by by exists x. by apply (check_and_launch_calm c true); [| | | |apply Ha].
  - unfold kernel_start_wait. destruct (cstate x) eqn:Es; try by apply calm_ret. destruct (run_ok c).
    + eapply act_calm; [done|done|by rewrite Ht|split; naive_solver congruence|]. intros w' Hg' _. by apply calm_ret.
    + eapply (calm_bind _ _ _ (fun _ _ => True)); [|intros ? w' Hg' _ _; by apply calm_raise]. eapply calm_eq; [done| | |done].
      * apply evolves_on_cmd. intros y Hy. assert (y = x) as -> by congruence. split; naive_solver congruence.
      * apply guarded_cmd; [done|]. intros _ y Hy. congruence.
  - unfold memcpy_wait. destruct (m_handle x); [|by apply calm_raise]. eapply act_calm; [done|done|by rewrite Ht|by split|]. intros w' Hg' _. by apply calm_ret.
Qed.
End calls.

Lemma call_calm start_ok run_ok fuel : calls_calm (call start_ok run_ok fuel).
Proof.
  induction fuel as [|fuel IH]; intros o c w Hp Hr Hg Hc Ha; cbn [call]; [by apply calm_raise|].
  destruct o; [by apply submit_calm|by apply wait_calm].
Qed.

Lemma run_call_calm start_ok run_ok o c w :
  plain w -> ranked w -> guarded w -> is_Some (commands w !! c) -> (event_at w c -> allowed o c w) -> calm (run_call start_ok run_ok o c) w (fun _ _ => True).
Proof. apply call_calm. Qed.
End ranks.
