(* ===== verification/HipTidy.v ===== *)
(** The world of a careful application: an event is known to others only once it has been
    recorded, and events can be ranked.  Every operation on streams keeps it, without a
    deadlock. *)

From S2P Require Import Prelude HipStream HipInvariant HipCalls HipOrder HipRanks.

(** * The world of a careful application *)

(** A command that an event or a stream refers to. *)
Definition used (w : world) (c : nat) : Prop :=
  (exists i y, commands w !! i = Some y /\ (c ∈ m_recorded_commands y \/ c ∈ m_chain_of_commands y)) \/
  (exists s z, streams w !! s = Some z /\ (c ∈ m_cmd_queue z \/ m_top_event z = Some c)).

(** An event is known to others only once it has been recorded. *)
Definition known (w : world) (c : nat) : Prop := exists y, commands w !! c = Some y /\ (ctype y = event -> cstate y <> init).

Record tidy (h : list lock) (w : world) : Prop := {
  td_plain : plain w;
  td_tops : tops w;
  td_held : held w = h;
  td_used : forall c, used w c -> known w c;
  td_init : forall e y, commands w !! e = Some y -> ctype y = event -> cstate y = init -> m_recorded_commands y = [] /\ m_chain_of_commands y = [];
  td_rank : exists r n, ranked r w /\ forall c, (r c < n)%nat;
}.

Lemma known_evolves w w' c : evolves w w' -> known w c -> known w' c.
Proof.
  intros He (y & Hy & Hs). destruct (evolves_lookup _ _ _ _ He Hy) as (y' & Hy' & Hl). exists y'. split; [done|]. intros Ht. apply (lt_init _ _ Hl), Hs. by rewrite <- (lt_type _ _ Hl).
Qed.

Lemma used_evolves w w' c : evolves w w' -> used w' c -> used w c.
Proof.
  intros He [(i & y & Hy & Hc)|(s & z & Hz & Hc)]; [left|right; exists s, z; by rewrite <- (ev_streams _ _ He)].
  destruct (evolves_lookup_r _ _ _ _ He Hy) as (x & Hx & Hl). exists i, x. split; [done|]. rewrite (lt_deps _ _ Hl) in Hc. destruct Hc as [Hc|Hc]; [by left|right].
  destruct (lt_chain _ _ Hl) as [l ->]. set_solver.
Qed.

Lemma tidy_evolves h w w' : evolves w w' -> tidy h w -> tidy h w'.
Proof.
  intros He [H1 H2 H3 H4 H5 (r & n & H6 & H7)]. split; [by eapply evolves_plain| |by rewrite (ev_held _ _ He)| | |].
  - intros s x e Hs Ht. rewrite (ev_streams _ _ He) in Hs. eapply grows_event; [by apply evolves_grows|by eapply H2].
  - intros c Hc. eapply known_evolves; [done|]. by eapply H4, used_evolves.
  - intros e y' Hy' Ht Hs. destruct (evolves_lookup_r _ _ _ _ He Hy') as (y & Hy & Hl). assert (ctype y = event) as Ht' by (by rewrite <- (lt_type _ _ Hl)).
    destruct (decide (cstate y = init)) as [Hi|Hi]; [|by apply (lt_init _ _ Hl) in Hi]. destruct (H5 e y Hy Ht' Hi) as [E1 E2]. rewrite (lt_deps _ _ Hl). split; [done|].
    destruct (lt_chain _ _ Hl) as [l E]. rewrite E2 in E. by destruct l, (m_chain_of_commands y').
  - exists r, n. split; [by eapply ranked_evolves|done].
Qed.

(** Only mutexes of streams are held. *)
Definition stream_locks (h : list lock) : Prop := forall l, l ∈ h -> exists s, l = m_cmd_lock s.

Definition ok (h : list lock) {A} (m : H A) (w : world) (Q : A -> world -> Prop) : Prop :=
  wp m (fun a w' => tidy h w' /\ Q a w') (fun e w' => tidy h w' /\ regular e) w.

Lemma ok_ret h {A} (a : A) w Q : tidy h w -> Q a w -> ok h (ret a) w Q.
Proof. intros. by apply wp_ret. Qed.

Lemma ok_raise h {A} e w (Q : A -> world -> Prop) : tidy h w -> regular e -> ok h (raise e) w Q.
Proof. intros. by apply wp_raise. Qed.

Lemma ok_bind h {A B} (m : H A) (k : A -> H B) w Q Q' : ok h m w Q -> (forall a w', tidy h w' -> Q a w' -> ok h (k a) w' Q') -> ok h (bind m k) w Q'.
Proof. intros Hm Hk. apply wp_bind. eapply wp_mono; [exact Hm| |done]. cbn. intros a w' [Ht HQ]. by apply Hk. Qed.

Lemma ok_get h {A} c (k : command -> H A) w Q : is_Some (commands w !! c) -> (forall x, commands w !! c = Some x -> ok h (k x) w Q) -> ok h (bind (get_cmd c) k) w Q.
Proof. intros [x Hx] Hk. unfold ok, wp, bind, get_cmd. rewrite Hx. by apply Hk. Qed.

Lemma ok_get_stm h {A} s (k : stream -> H A) w Q : is_Some (streams w !! s) -> (forall x, streams w !! s = Some x -> ok h (k x) w Q) -> ok h (bind (get_stm s) k) w Q.
Proof. intros [x Hx] Hk. unfold ok, wp, bind, get_stm. rewrite Hx. by apply Hk. Qed.

Lemma ok_throw h c e w (Q : unit -> world -> Prop) : tidy h w -> Q tt w -> ok h (throw_if c e) w Q.
Proof. intros. destruct c; [by apply ok_raise|by apply ok_ret]. Qed.

Lemma tidy_held h f w : tidy h w -> tidy (f h) (on_held f w).
Proof.
  intros [H1 H2 H3 H4 H5 (r & n & H6 & H7)]. split; [done|done|cbn; by rewrite H3|done|done|]. exists r, n. split; [by apply ranked_held|done].
Qed.

Lemma ok_lock h {A} l (m : H A) w (Q : A -> world -> Prop) :
  l ∉ h -> tidy h w -> (forall a w' f, Q a w' -> Q a (on_held f w')) -> ok (l :: h) m (on_held (cons l) w) Q -> ok h (with_lock l m) w Q.
Proof.
  intros Hl Hw HQ Hm. unfold ok, wp, with_lock in *. rewrite (td_held _ _ Hw), bool_decide_eq_false_2 by done.
  destruct (m _) as [a w'|e w']; destruct Hm as [H1 H2]; (split; [rewrite <- (filter_lock l h Hl); by apply (tidy_held (l :: h) (filter _))|]); [by apply HQ|done].
Qed.

Lemma ok_run_call h start_ok run_ok o c w :
  stream_locks h -> tidy h w -> is_Some (commands w !! c) -> ok h (run_call start_ok run_ok o c) w (fun _ w' => evolves w w').
Proof.
  intros Hh Hw Hc. destruct (td_rank _ _ Hw) as (r & n & Hr & _). pose proof (td_held _ _ Hw) as Eh.
  assert (guarded w) as Hg by (split; intros e He; rewrite Eh in He; destruct (Hh _ He); done).
  assert (allowed r o c w) as Ha by (destruct o; [intros i Hi|split; intros i Hi]; rewrite Eh in Hi; destruct (Hh _ Hi); done).
  eapply wp_mono; [exact (run_call_calm r start_ok run_ok o c w (td_plain _ _ Hw) Hr Hg Hc (fun _ => Ha))| |]; cbn; intros ? w' (He & _ & ?); (split; [by eapply tidy_evolves|done]).
Qed.

(** A world with the same commands, in which streams refer to no other commands. *)
Lemma tidy_streams h w f :
  tidy h w -> (forall s z' c, f (streams w) !! s = Some z' -> c ∈ m_cmd_queue z' \/ m_top_event z' = Some c -> known w c) ->
  (forall s z' e, f (streams w) !! s = Some z' -> m_top_event z' = Some e -> event_at w e) -> tidy h (on_streams f w).
Proof.
  intros [H1 H2 H3 H4 H5 (r & n & H6 & H7)] Hf Ht. split; [done|done|done| |done|by exists r, n; split; [eapply ranked_same; [|done]|]].
  intros c [Hc|(s & z & Hz & Hc)]; [apply H4; by left|by eapply Hf].
Qed.

Lemma stream_known h w s z c : tidy h w -> streams w !! s = Some z -> c ∈ m_cmd_queue z \/ m_top_event z = Some c -> known w c.
Proof. intros Hw Hz Hc. apply (td_used _ _ Hw). right. by exists s, z. Qed.

(** ** A new event

    [n] is a new command, or an event that nobody knows; it comes to depend on known commands, and
    known events and streams come to refer to it. *)
Record others (n : nat) (w w' : world) : Prop := {
  jn_old : forall i y, commands w !! i = Some y -> i <> n -> exists y', commands w' !! i = Some y' /\ ctype y' = ctype y /\ cstate y' = cstate y;
  jn_back : forall i y', commands w' !! i = Some y' -> i <> n -> exists y, commands w !! i = Some y /\ ctype y' = ctype y /\ cstate y' = cstate y /\
    m_recorded_commands y' = m_recorded_commands y /\ forall c, c ∈ m_chain_of_commands y' -> c ∈ m_chain_of_commands y \/ (c = n /\ (ctype y = event -> cstate y <> init));
  jn_streams : forall s z' c, streams w' !! s = Some z' -> c ∈ m_cmd_queue z' \/ m_top_event z' = Some c ->
    c = n \/ exists z, streams w !! s = Some z /\ (c ∈ m_cmd_queue z \/ m_top_event z = Some c);
  jn_tops : forall s z' e, streams w' !! s = Some z' -> m_top_event z' = Some e -> e = n \/ exists z, streams w !! s = Some z /\ m_top_event z = Some e;
}.

Record joins (n : nat) (w w' : world) : Prop := {
  jn_others : others n w w';
  jn_new : exists y, commands w' !! n = Some y /\ ctype y = event /\ cstate y = recorded /\ m_chain_of_commands y = [] /\
    forall d, d ∈ m_recorded_commands y -> d <> n /\ known w d;
}.

Lemma joins_known n w w' c : joins n w w' -> known w c -> known w' c.
Proof.
  intros [[J2 _ _ _] (y & Hy & _ & Hs & _)] (x & Hx & Hk). destruct (decide (c = n)) as [->|Hne].
  - exists y. split; [done|]. by rewrite Hs.
  - destruct (J2 c x Hx Hne) as (x' & Hx' & E1 & E2). exists x'. split; [done|]. by rewrite E1, E2.
Qed.

Lemma joins_event n w w' e : joins n w w' -> event_at w' e -> e <> n -> event_at w e.
Proof. intros [[_ J3 _ _] _] (y' & Hy' & Ht) Hne. destruct (J3 e y' Hy' Hne) as (y & Hy & E & _). exists y. split; [done|congruence]. Qed.

Lemma joins_some n w w' c : joins n w w' -> is_Some (commands w !! c) -> is_Some (commands w' !! c).
Proof. intros [[J2 _ _ _] (y & Hy & _)] [x Hx]. destruct (decide (c = n)) as [->|Hne]; [by exists y|]. destruct (J2 c x Hx Hne) as (x' & Hx' & _). by exists x'. Qed.

Lemma joins_rank n w w' r m : joins n w w' -> ~ used w n -> ranked r w -> (forall c, (r c < m)%nat) -> ranked (fun i => if decide (i = n) then m else r i) w'.
Proof.
  intros J Hn [R1 R2 R3] Hm. split.
  - intros e y' d Hy' Hd Hev. destruct (decide (e = n)) as [->|Hne].
    + destruct (jn_new _ _ _ J) as (y & Hy & _ & _ & _ & Hdep). assert (y' = y) as -> by congruence. destruct (Hdep d Hd) as [Hdn _]. by rewrite decide_False.
    + destruct (jn_back _ _ _ (jn_others _ _ _ J) e y' Hy' Hne) as (y & Hy & _ & _ & E & _). rewrite E in Hd. destruct (decide (d = n)) as [->|Hdn].
      * destruct Hn. left. exists e, y. by split; [|left].
      * eapply R1; [done|done|by eapply joins_event].
  - intros e y' c Hy' Hc Hev. destruct (decide (e = n)) as [->|Hne].
    + destruct (jn_new _ _ _ J) as (y & Hy & _ & _ & E & _). assert (y' = y) as -> by congruence. rewrite E in Hc. set_solver.
    + destruct (jn_back _ _ _ (jn_others _ _ _ J) e y' Hy' Hne) as (y & Hy & _ & _ & _ & Hch). destruct (Hch c Hc) as [Hold|[-> _]]; [|by rewrite decide_True].
      destruct (decide (c = n)) as [->|Hcn]; [done|]. eapply R2; [done|done|by eapply joins_event].
  - intros e y' c Hy' Hc. destruct (jn_new _ _ _ J) as (y & Hy & _ & _ & E & Hdep). destruct (decide (e = n)) as [->|Hne].
    + assert (y' = y) as -> by congruence. rewrite E in Hc. destruct Hc as [Hc|Hc]; [|set_solver]. destruct (Hdep c Hc) as [_ (x & Hx & _)]. eapply joins_some; [done|by exists x].
    + destruct (jn_back _ _ _ (jn_others _ _ _ J) e y' Hy' Hne) as (x & Hx & _ & _ & E1 & Hch). rewrite E1 in Hc. destruct Hc as [Hc|Hc]; [eapply joins_some; [done|]; eapply R3; [exact Hx|by left]|].
      destruct (Hch c Hc) as [Hold|[-> _]]; [eapply joins_some; [done|]; eapply R3; [exact Hx|by right]|by exists y].
Qed.

Lemma tidy_joins h n w w' : tidy h w -> ~ used w n -> joins n w w' -> held w' = h -> tidy h w'.
Proof.
  intros Hw Hn J Hh. pose proof J as [[J2 J3 J4 J5] (y & Hy & Ht & Hs & Hc & Hd)]. split; [| |done| | |].
  - apply Forall_lookup_2. intros i y' Hy'. destruct (decide (i = n)) as [->|Hne]; [assert (y' = y) as -> by congruence; rewrite Ht; set_solver|].
    destruct (J3 i y' Hy' Hne) as (x & Hx & E & _). rewrite E. exact (Forall_lookup_1 _ _ _ _ (td_plain _ _ Hw) Hx).
  - intros s z' e Hz' He. destruct (decide (e = n)) as [->|Hne]; [by exists y|]. destruct (J5 s z' e Hz' He) as [->|(z & Hz & Hez)]; [done|].
    destruct (td_tops _ _ Hw s z e Hz Hez) as (x & Hx & Htx). destruct (J2 e x Hx Hne) as (x' & Hx' & E & _). exists x'. split; [done|congruence].
  - intros c [(i & x' & Hx' & Hin)|(s & z' & Hz' & Hin)].
    + destruct (decide (i = n)) as [->|Hne].
      * assert (x' = y) as -> by congruence. rewrite Hc in Hin. destruct Hin as [Hin|Hin]; [|set_solver]. apply (joins_known n w w' c J). by apply Hd.
      * destruct (J3 i x' Hx' Hne) as (x & Hx & _ & _ & E & Hch). rewrite E in Hin. destruct (decide (c = n)) as [->|Hcn]; [exists y; split; [done|by rewrite Hs]|].
        apply (joins_known n w w' c J). apply (td_used _ _ Hw). left. exists i, x. split; [done|]. destruct Hin as [Hin|Hin]; [by left|]. destruct (Hch c Hin) as [?|[? _]]; [by right|done].
    + destruct (J4 s z' c Hz' Hin) as [->|(z & Hz & Hin')]; [exists y; split; [done|by rewrite Hs]|]. apply (joins_known n w w' c J). by apply (stream_known h w s z c Hw Hz).
  - intros e x' Hx' Hte Hi. destruct (decide (e = n)) as [->|Hne]; [assert (x' = y) as -> by congruence; congruence|].
    destruct (J3 e x' Hx' Hne) as (x & Hx & E1 & E2 & E3 & Hch). rewrite E1 in Hte. rewrite E2 in Hi. destruct (td_init _ _ Hw e x Hx Hte Hi) as [D1 D2]. rewrite E3. split; [done|].
    destruct (m_chain_of_commands x') as [|c l]; [done|]. destruct (Hch c ltac:(set_solver)) as [Hold|[_ Hno]]; [rewrite D2 in Hold; set_solver|by destruct (Hno Hte)].
  - destruct (td_rank _ _ Hw) as (r & m & Hr & Hm). exists (fun i => if decide (i = n) then m else r i), (S m). split; [by apply (joins_rank n w w')|].
    intros c. destruct (decide (c = n)); [lia|]. specialize (Hm c). lia.
Qed.

(** An event that nobody knows yet. *)
Lemma fresh_unused h w y e : tidy h w -> commands w !! e = Some y -> ctype y = event -> cstate y = init -> ~ used w e.
Proof. intros Hw Hy Ht Hs Hu. destruct (td_used _ _ Hw e Hu) as (x & Hx & Hk). assert (x = y) as -> by congruence. by apply Hk. Qed.

Lemma new_unused h w : tidy h w -> ~ used w (length (commands w)).
Proof. intros Hw Hu. destruct (td_used _ _ Hw _ Hu) as (x & Hx%lookup_lt_Some & _). lia. Qed.

(** ** Steps of a new event *)

Lemma others_refl n w : others n w w.
Proof. split; [by intros i y Hy; exists y| |by right; exists z'|by right; exists z']. intros i y Hy _. exists y. split_and!; [done..|]. by left. Qed.

Lemma others_self n w w' f : others n w w' -> others n w (on_commands (alter f n) w').
Proof.
  intros [O1 O2 O3 O4]. split; [| |done|done].
  - intros i y Hy Hne. rewrite lookup_on_cmd, decide_False by done. by apply O1.
  - intros i y'. rewrite lookup_on_cmd. intros Hy' Hne. rewrite decide_False in Hy' by done. by apply O2.
Qed.

Lemma others_chain n w w' e : others n w w' -> known w e -> others n w (on_commands (alter (fun x => set_chain (m_chain_of_commands x ++ [n]) x) e) w').
Proof.
  intros [O1 O2 O3 O4] (x & Hx & Hk). split; [| |done|done].
  - intros i y Hy Hne. destruct (O1 i y Hy Hne) as (y' & Hy' & E1 & E2). rewrite lookup_on_cmd. destruct (decide (i = e)) as [->|]; [|by exists y']. rewrite Hy'. by eexists.
  - intros i y'. rewrite lookup_on_cmd. destruct (decide (i = e)) as [->|]; [|by apply O2]. destruct (commands w' !! e) as [y1|] eqn:E; [|done]. intros [= <-] Hne.
    destruct (O2 e y1 E Hne) as (y & Hy & E1 & E2 & E3 & Hc). assert (y = x) as -> by congruence. exists x. split_and!; [done..|]. cbn.
    intros c [Hin|Hin]%elem_of_app; [by apply Hc|]. apply list_elem_of_singleton in Hin as ->. by right.
Qed.

Lemma others_queue n w w' s : others n w w' -> others n w (on_streams (alter (fun x => set_queue (m_cmd_queue x ++ [n]) x) s) w').
Proof.
  intros [O1 O2 O3 O4]. split; [done|done| |].
  - intros i z' c. cbn. destruct (decide (i = s)) as [->|]; [|rewrite list_lookup_alter_ne by done; apply O3]. rewrite list_lookup_alter_eq.
    destruct (streams w' !! s) as [z|] eqn:E; [|done]. intros [= <-]. cbn. intros [[Hin|Hin]%elem_of_app|Ht]; [by apply (O3 s z c E); left| |by apply (O3 s z c E); right].
    apply list_elem_of_singleton in Hin. by left.
  - intros i z' e. cbn. destruct (decide (i = s)) as [->|]; [|rewrite list_lookup_alter_ne by done; apply O4]. rewrite list_lookup_alter_eq.
    destruct (streams w' !! s) as [z|] eqn:E; [|done]. intros [= <-]. exact (O4 s z e E).
Qed.

Lemma others_top n w w' s : others n w w' -> others n w (on_streams (alter (set_top (Some n)) s) w').
Proof.
  intros [O1 O2 O3 O4]. split; [done|done| |].
  - intros i z' c. cbn. destruct (decide (i = s)) as [->|]; [|rewrite list_lookup_alter_ne by done; apply O3]. rewrite list_lookup_alter_eq.
    destruct (streams w' !! s) as [z|] eqn:E; [|done]. intros [= <-]. cbn. intros [Hin|[= <-]]; [by apply (O3 s z c E); left|by left].
  - intros i z' e. cbn. destruct (decide (i = s)) as [->|]; [|rewrite list_lookup_alter_ne by done; apply O4]. rewrite list_lookup_alter_eq.
    destruct (streams w' !! s) as [z|] eqn:E; [|done]. intros [= <-] [= <-]. by left.
Qed.

Lemma others_insert w x : others (length (commands w)) w (on_commands (fun l => l ++ [x]) w).
Proof.
  split; [| |by right; exists z'|by right; exists z'].
  - intros i y Hy _. exists y. split; [by apply lookup_app_l_Some|done].
  - intros i y' Hy' Hne. cbn in Hy'. apply lookup_app_Some in Hy' as [Hy'|[Hle Hy']]; [exists y'; split_and!; [done..|by left]|].
    apply list_lookup_singleton_Some in Hy' as [E _]. lia.
Qed.

(** ** Changes that no other command notices *)

(** The commands that others refer to exist. *)
Lemma used_some w e x c : (forall i, used w i -> known w i) -> commands w !! e = Some x -> c ∈ m_recorded_commands x \/ c ∈ m_chain_of_commands x -> is_Some (commands w !! c).
Proof. intros Hu Hx Hc. destruct (Hu c) as (y & Hy & _); [left; by exists e, x|by exists y]. Qed.

Lemma known_some w c : known w c -> is_Some (commands w !! c).
Proof. intros (y & Hy & _). by exists y. Qed.

(** A change of a command in what does not matter here. *)
Lemma tidy_alter h w c f :
  tidy h w -> (forall x, ctype (f x) = ctype x /\ cstate (f x) = cstate x /\ m_recorded_commands (f x) = m_recorded_commands x /\ m_chain_of_commands (f x) = m_chain_of_commands x) ->
  tidy h (on_commands (alter f c) w).
Proof.
  intros [H1 H2 H3 H4 H5 (r & n & [R1 R2 R3] & H7)] Hf.
  assert (forall i y', commands (on_commands (alter f c) w) !! i = Some y' -> exists y, commands w !! i = Some y /\ ctype y' = ctype y /\ cstate y' = cstate y /\
    m_recorded_commands y' = m_recorded_commands y /\ m_chain_of_commands y' = m_chain_of_commands y) as Hb.
  { intros i y'. rewrite lookup_on_cmd. destruct (decide (i = c)) as [->|]; [|by exists y']. destruct (commands w !! c) as [y|]; [|done]. intros [= <-]. exists y. by destruct (Hf y) as (? & ? & ? & ?). }
  assert (grows w (on_commands (alter f c) w)) as Hg by (apply grows_alter; [apply Hf|intros; apply Hf]).
  assert (forall e, event_at (on_commands (alter f c) w) e -> event_at w e) as He.
  { intros e (y' & Hy' & Ht). destruct (Hb e y' Hy') as (y & Hy & E & _). exists y. split; [done|congruence]. }
  assert (forall i, used (on_commands (alter f c) w) i -> known (on_commands (alter f c) w) i) as Hk.
  { intros i Hi. assert (used w i) as Hu.
    { destruct Hi as [(j & y' & Hy' & Hin)|Hi]; [|by right]. destruct (Hb j y' Hy') as (y & Hy & _ & _ & E3 & E4). left. exists j, y. by rewrite <- E3, <- E4. }
    destruct (H4 i Hu) as (y & Hy & Hk). unfold known. rewrite lookup_on_cmd. destruct (decide (i = c)) as [->|]; [|by exists y]. exists (f y). rewrite Hy. split; [done|].
    destruct (Hf y) as (-> & -> & _). done. }
  split; [by apply plain_alter; [apply Hf|]| |done|done| |].
  - intros s x e Hs Ht. eapply grows_event; [exact Hg|by eapply H2].
  - intros e y' Hy' Ht Hs. destruct (Hb e y' Hy') as (y & Hy & E1 & E2 & E3 & E4). rewrite E3, E4. apply (H5 e y Hy); congruence.
  - exists r, n. split; [|done]. split.
    + intros e y' d Hy' Hd Hev. destruct (Hb e y' Hy') as (y & Hy & _ & _ & E3 & _). rewrite E3 in Hd. eapply R1; [done|done|by apply He].
    + intros e y' d Hy' Hd Hev. destruct (Hb e y' Hy') as (y & Hy & _ & _ & _ & E4). rewrite E4 in Hd. eapply R2; [done|done|by apply He].
    + intros e y' d. by apply used_some.
Qed.

Lemma tidy_new_command h w t : tidy h w -> t ∈ plain_types -> tidy h (on_commands (fun l => l ++ [new_command t]) w).
Proof.
  intros [H1 H2 H3 H4 H5 (r & n & [R1 R2 R3] & H7)] Ht. set (w' := on_commands _ w).
  assert (forall i y', commands w' !! i = Some y' -> commands w !! i = Some y' \/ y' = new_command t) as Hb.
  { intros i y' [Hy|[_ Hy]]%lookup_app_Some; [by left|]. apply list_lookup_singleton_Some in Hy as [_ <-]. by right. }
  assert (grows w w') as Hg by (intros i x Hx; exists x; split; [by apply lookup_app_l_Some|done]).
  assert (forall c, used w' c -> used w c) as Hu.
  { intros c [(i & y & Hy & Hc)|Hc]; [|by right]. destruct (Hb i y Hy) as [Hy'| ->]; [left; by exists i, y|]. cbn in Hc. set_solver. }
  assert (forall c, used w' c -> event_at w' c -> event_at w c) as Hev.
  { intros c Hc (y & Hy & Hty). destruct (H4 c (Hu c Hc)) as (x & Hx & _). exists x. split; [done|]. assert (commands w' !! c = Some x) by by apply lookup_app_l_Some. congruence. }
  assert (forall c, used w' c -> known w' c) as Hkn.
  { intros c Hc. destruct (H4 c (Hu c Hc)) as (y & Hy & Hk). exists y. split; [by apply lookup_app_l_Some|done]. }
  split; [apply Forall_app; split; [done|by apply Forall_singleton]| |done|done| |].
  - intros s x e Hs Hx. eapply grows_event; [exact Hg|by eapply H2].
  - intros e y Hy Hty Hs. destruct (Hb e y Hy) as [Hy'| ->]; [by eapply H5|done].
  - exists r, n. split; [|done]. split; [| |intros e y d; by apply used_some]; intros e y d Hy Hd He; (destruct (Hb e y Hy) as [Hy'| ->]; [|cbn in Hd; set_solver]); eauto.
    + eapply R1; [done|done|]. apply Hev; [|done]. left. exists e, y. by split; [|left].
    + eapply R2; [done|done|]. apply Hev; [|done]. left. exists e, y. by split; [|right].
Qed.

(** A known command that is not an event joins the chain of a top event. *)
Lemma tidy_chain h w e c : tidy h w -> known w e -> known w c -> ~ event_at w c -> tidy h (on_commands (alter (fun x => set_chain (m_chain_of_commands x ++ [c]) x) e) w).
Proof.
  intros [H1 H2 H3 H4 H5 (r & n & [R1 R2 R3] & H7)] (x & Hx & Hke) Hkc Hc. set (f := fun x => _). set (w' := on_commands _ w).
  assert (grows w w') as Hg by by apply grows_alter. assert (forall i, known w i -> known w' i) as Hkn.
  { intros i (y & Hy & Hk). unfold known, w'. rewrite lookup_on_cmd. destruct (decide (i = e)) as [->|]; [|by exists y]. exists (f y). by rewrite Hy. }
  assert (forall i y', commands w' !! i = Some y' -> exists y, commands w !! i = Some y /\ ctype y' = ctype y /\ cstate y' = cstate y /\ m_recorded_commands y' = m_recorded_commands y /\
    (i = e \/ m_chain_of_commands y' = m_chain_of_commands y) /\ forall d, d ∈ m_chain_of_commands y' -> d ∈ m_chain_of_commands y \/ d = c) as Hb.
  { intros i y'. unfold w'. rewrite lookup_on_cmd. destruct (decide (i = e)) as [->|]; [|by exists y'; split_and!; auto]. rewrite Hx. intros [= <-]. exists x. split_and!; auto.
    intros d [Hd|Hd]%elem_of_app; [by left|]. apply list_elem_of_singleton in Hd. by right. }
  assert (forall i, event_at w' i -> event_at w i) as He by (intros i (y' & Hy' & Ht); destruct (Hb i y' Hy') as (y & Hy & E & _); exists y; split; [done|congruence]).
  assert (forall i, used w' i -> known w' i) as Hall.
  { intros i Hi. apply Hkn. destruct Hi as [(j & y' & Hy' & Hin)|Hi]; [|by apply H4; right]. destruct (Hb j y' Hy') as (y & Hy & _ & _ & E3 & _ & E4).
    rewrite E3 in Hin. destruct Hin as [Hin|Hin]; [apply H4; left; exists j, y; by split; [|left]|]. destruct (E4 i Hin) as [Hin'| ->]; [|done]. apply H4. left. exists j, y. by split; [|right]. }
  split; [by apply plain_alter| |done|done| |].
  - intros s z i Hs Hz. eapply grows_event; [exact Hg|by eapply H2].
  - intros i y' Hy' Ht Hs. destruct (Hb i y' Hy') as (y & Hy & E1 & E2 & E3 & E5 & _). rewrite E1 in Ht. rewrite E2 in Hs. destruct (H5 i y Hy Ht Hs) as [D1 D2]. rewrite E3. split; [done|].
    destruct E5 as [->|E5]; [|congruence]. assert (y = x) as -> by congruence. by destruct (Hke Ht).
  - exists r, n. split; [|done]. split.
    + intros i y' d Hy' Hd Hev. destruct (Hb i y' Hy') as (y & Hy & _ & _ & E3 & _). rewrite E3 in Hd. eapply R1; [done|done|by apply He].
    + intros i y' d Hy' Hd Hev. destruct (Hb i y' Hy') as (y & Hy & _ & _ & _ & _ & E4). destruct (E4 d Hd) as [Hd'| ->]; [eapply R2; [done|done|by apply He]|by destruct Hc; apply He].
    + intros i y' d. by apply used_some.
Qed.

Lemma tidy_stm h w s f :
  tidy h w -> (forall x c, streams w !! s = Some x -> c ∈ m_cmd_queue (f x) -> known w c) -> (forall x e, m_top_event (f x) = Some e -> m_top_event x = Some e) ->
  tidy h (on_streams (alter f s) w).
Proof.
  intros Hw Hq Ht. apply tidy_streams; [done| |].
  - intros i z' c. destruct (decide (i = s)) as [->|]; [|rewrite list_lookup_alter_ne by done; intros Hz; by eapply stream_known]. rewrite list_lookup_alter_eq.
    destruct (streams w !! s) as [z|] eqn:E; [|done]. intros [= <-] [Hc|Hc]; [by eapply Hq|]. eapply stream_known; [exact Hw|exact E|right; by apply Ht].
  - intros i z' e. destruct (decide (i = s)) as [->|]; [|rewrite list_lookup_alter_ne by done; apply (td_tops _ _ Hw)]. rewrite list_lookup_alter_eq.
    destruct (streams w !! s) as [z|] eqn:E; [|done]. intros [= <-] He. eapply (td_tops _ _ Hw); [exact E|by apply Ht].
Qed.

Lemma ok_modify h f w (Q : unit -> world -> Prop) : tidy h (f w) -> Q tt (f w) -> ok h (modify f) w Q.
Proof. intros. by apply wp_modify. Qed.

Lemma ok_try h {A} (m k : H A) w Q : ok h m w Q -> (forall w', tidy h w' -> ok h k w' Q) -> ok h (try_catch m k) w Q.
Proof.
  intros Hm Hk. unfold ok, wp, try_catch in *. destruct (m w) as [a w'|e w']; [done|]. destruct Hm as [Hw Hne]. specialize (Hk w' Hw). by destruct e.
Qed.

Lemma stream_locks_one s : stream_locks [m_cmd_lock s].
Proof. intros l ->%list_elem_of_singleton. by exists s. Qed.
Lemma stream_locks_nil : stream_locks [].
Proof. intros l Hl. set_solver. Qed.

Section careful.
Context (start_ok run_ok : nat -> bool).
Abbreviation rc := (run_call start_ok run_ok).

(** Submitting an event that is not recorded yet does nothing. *)
Lemma submit_unrecorded c y w :
  commands w !! c = Some y -> ctype y = event -> is_recorded_no_lock (cstate y) = false -> m_state_lock c ∉ held w -> rc Submit c w = Ok false w.
Proof.
  intros Hy Ht Hs Hl. unfold run_call, fuel_of. rewrite Nat.add_comm. cbn [call Nat.add]. unfold submit_command, bind at 1, get_cmd. rewrite Hy, Ht.
  pose proof (start_phase_eq c false w y Hl Hy) as E. unfold start_phase in E. unfold check_and_launch_chain, bind at 1. rewrite E. by rewrite Hs.
Qed.

(** What enqueueing a new event does. *)
Definition enqueued (s n : nat) (x : stream) (w : world) : world :=
  on_streams (alter (fun x => set_queue (m_cmd_queue x ++ [n]) x) s)
    (match m_top_event x with Some e => on_commands (alter (fun x => set_chain (m_chain_of_commands x ++ [n]) x) e) w | None => w end).

Lemma enqueue_new s n x y w :
  held w = [] -> streams w !! s = Some x -> commands w !! n = Some y -> ctype y = event -> is_recorded_no_lock (cstate y) = false -> enqueue rc s n w = Ok tt (enqueued s n x w).
Proof.
  intros Hh Hx Hy Ht Hs. unfold enqueue. rewrite lock_quick by (rewrite Hh; set_solver). unfold bind at 1, get_stm. cbn [streams on_held]. rewrite Hx. unfold enqueued.
  destruct (m_top_event x) as [e|].
  - unfold bind, add_to_chain. rewrite lock_on_cmd by (cbn; rewrite Hh; set_solver). unfold on_stm, modify. f_equal.
    by apply (unlock_after _ (fun w => on_streams _ (on_commands _ w))); [rewrite Hh; set_solver|].
  - unfold bind. rewrite (submit_unrecorded n y) by (cbn; rewrite ?Hh; set_solver). unfold ret, on_stm, modify. f_equal.
    by apply (unlock_after _ (on_streams _)); [rewrite Hh; set_solver|].
Qed.

Lemma enqueued_others s n x w0 w : others n w0 w -> (forall e, m_top_event x = Some e -> known w0 e) -> others n w0 (enqueued s n x w).
Proof. intros Ho Hk. apply others_queue. destruct (m_top_event x) as [e|]; [|done]. apply others_chain; [done|by apply Hk]. Qed.

Lemma enqueued_self s n x w : m_top_event x <> Some n -> commands (enqueued s n x w) !! n = commands w !! n.
Proof.
  intros Hn. unfold enqueued. destruct (m_top_event x) as [e|]; [|done]. change (commands (on_commands (alter (fun x => set_chain (m_chain_of_commands x ++ [n]) x) e) w) !! n = commands w !! n).
  rewrite lookup_on_cmd, decide_False; [done|congruence].
Qed.

Lemma ok_eq h {A} (m : H A) a w w' (Q : A -> world -> Prop) : m w = Ok a w' -> tidy h w' -> Q a w' -> ok h m w Q.
Proof. intros Hm Hw HQ. unfold ok, wp. by rewrite Hm. Qed.

Lemma not_known_top h w s x n : tidy h w -> ~ used w n -> streams w !! s = Some x -> m_top_event x <> Some n.
Proof. intros Hw Hn Hx Ht. apply Hn. right. exists s, x. by split; [|right]. Qed.

(** An event is recorded for the first time. *)
Lemma record_ok ev s x y w :
  tidy [] w -> streams w !! s = Some x -> commands w !! ev = Some y -> ctype y = event -> cstate y = init -> cached y = true -> ok [] (record rc ev (Some s)) w (fun _ _ => True).
Proof.
  intros Hw Hx Hy Ht Hs Hc. pose proof (td_held _ _ Hw) as Hh. pose proof (fresh_unused _ _ _ _ Hw Hy Ht Hs) as Hn. pose proof (not_known_top _ _ _ _ _ Hw Hn Hx) as Htop.
  set (w1 := on_commands (alter (recorded_in s (m_cmd_queue x)) ev) w). set (w2 := enqueued s ev x w1). set (w3 := on_commands (alter (set_state_of recorded) ev) w2).
  assert (commands w1 !! ev = Some (recorded_in s (m_cmd_queue x) y)) as Hy1 by (subst w1; by rewrite lookup_on_cmd, decide_True, Hy).
  assert (held w2 = []) as Hh2 by (subst w2; unfold enqueued; destruct (m_top_event x); done).
  assert (record rc ev (Some s) w = Ok tt w3) as E.
  { rewrite (record_eq start_ok run_ok ev s x y w Hh Hx Hy Hc ltac:(by rewrite Hs)). fold w1. unfold bind. rewrite (enqueue_new s ev x _ w1 Hh Hx Hy1) by done.
    unfold set_state. by rewrite lock_on_cmd by (fold w2; rewrite Hh2; set_solver). }
  eapply ok_eq; [exact E| |done]. apply (tidy_joins [] ev w w3 Hw Hn); [|done]. split.
  - apply others_self, enqueued_others; [by apply others_self, others_refl|]. intros e He. eapply stream_known; [exact Hw|exact Hx|by right].
  - eexists. split; [subst w3; rewrite lookup_on_cmd, decide_True by done; subst w2; rewrite enqueued_self, Hy1 by done; reflexivity|].
    destruct (td_init _ _ Hw ev y Hy Ht Hs) as [_ Ech]. split_and!; [done|done|done|]. cbn. intros d Hd. split.
    + intros ->. apply Hn. right. exists s, x. by split; [|left].
    + eapply stream_known; [exact Hw|exact Hx|by left].
Qed.

Definition on_top (s n : nat) (x : stream) (w : world) : world :=
  on_streams (alter (set_top (Some n)) s)
    (match m_top_event x with Some old => on_commands (alter (fun y => set_recorded_commands (m_recorded_commands y ++ [old]) y) n) w | None => w end).

Lemma record_top_eq s n x w : held w = [] -> streams w !! s = Some x -> record_top_event s n w = Ok tt (on_top s n x w).
Proof.
  intros Hh Hx. unfold record_top_event. rewrite lock_quick by (rewrite Hh; set_solver). unfold bind at 1, get_stm. cbn [streams on_held]. rewrite Hx. unfold on_top.
  destruct (m_top_event x) as [e|].
  - unfold bind, add_dependency. rewrite lock_on_cmd by (cbn; rewrite Hh; set_solver). unfold on_stm, modify. f_equal.
    by apply (unlock_after _ (fun w => on_streams _ (on_commands _ w))); [rewrite Hh; set_solver|].
  - unfold bind, ret, on_stm, modify. f_equal. by apply (unlock_after _ (on_streams _)); [rewrite Hh; set_solver|].
Qed.

(** Another stream waits for an event that has been recorded: a new event. *)
Lemma wait_ok s x e y w :
  tidy [] w -> streams w !! s = Some x -> commands w !! e = Some y -> ctype y = event -> cstate y <> init ->
  ok [] (n <- insert_command (new_command event) ;; init_wait_event rc n s e) w (fun _ _ => True).
Proof.
  intros Hw Hx Hy Ht Hs. pose proof (td_held _ _ Hw) as Hh. pose proof (new_unused _ _ Hw) as Hn. pose proof (not_known_top _ _ _ _ _ Hw Hn Hx) as Htop.
  set (n := length (commands w)) in *. assert (e < n)%nat as Hlt by by eapply lookup_lt_Some. assert (known w e) as Hk by (exists y; by split).
  assert (forall t, m_top_event x = Some t -> known w t) as Hkt by (intros t Et; eapply stream_known; [exact Hw|exact Hx|by right]).
  set (w1 := on_commands (fun l => l ++ [new_command event]) w). set (w2 := on_commands (alter (fun y => set_recorded_commands (m_recorded_commands y ++ [e]) y) n) w1).
  set (w3 := on_commands (alter (fun y => set_chain (m_chain_of_commands y ++ [n]) y) e) w2). set (w4 := enqueued s n x w3).
  set (x4 := set_queue (m_cmd_queue x ++ [n]) x). set (w5 := on_top s n x4 w4). set (w6 := on_commands (alter (set_state_of recorded) n) w5).
  assert (commands w1 !! n = Some (new_command event)) as Hn1 by by apply list_lookup_middle.
  assert (commands w2 !! n = Some (set_recorded_commands [e] (new_command event))) as Hn2 by (subst w2; by rewrite lookup_on_cmd, decide_True, Hn1).
  assert (commands w3 !! n = Some (set_recorded_commands [e] (new_command event))) as Hn3 by (subst w3; rewrite lookup_on_cmd, decide_False by lia; done).
  assert (commands w4 !! n = Some (set_recorded_commands [e] (new_command event))) as Hn4 by (subst w4; by rewrite enqueued_self).
  assert (streams w4 !! s = Some x4) as Hx4.
  { subst w4 x4. unfold enqueued. cbn. rewrite list_lookup_alter_eq. replace (streams _ !! s) with (Some x); [done|]. by destruct (m_top_event x). }
  assert (held w4 = []) as Hh4 by (subst w4; unfold enqueued; destruct (m_top_event x); done).
  assert (held w5 = []) as Hh5 by (subst w5; unfold on_top; destruct (m_top_event x4); done).
  assert ((n <- insert_command (new_command event) ;; init_wait_event rc n s e) w = Ok tt w6) as E.
  { unfold bind at 1, insert_command, bind at 1, gets, bind at 1, modify, ret. fold n w1. unfold init_wait_event, bind, add_dependency, add_to_chain.
    rewrite lock_on_cmd by (cbn; rewrite Hh; set_solver). fold w2. rewrite lock_on_cmd by (cbn; rewrite Hh; set_solver). fold w3.
    rewrite (enqueue_new s n x _ w3 Hh Hx Hn3) by done. fold w4. rewrite (record_top_eq s n x4 w4 Hh4 Hx4). fold w5. unfold set_state. by rewrite lock_on_cmd by (rewrite Hh5; set_solver). }
  eapply ok_eq; [exact E| |done]. apply (tidy_joins [] n w w6 Hw Hn); [|done]. split.
  - apply others_self, others_top. assert (others n w w4) as O4 by (apply enqueued_others; [apply others_chain; [apply others_self, others_insert|done]|done]).
    destruct (m_top_event x4); [by apply others_self|done].
  - assert (commands w5 !! n = Some (set_recorded_commands ([e] ++ option_list (m_top_event x)) (new_command event))) as Hn5.
    { subst w5. unfold on_top. replace (m_top_event x4) with (m_top_event x) by done. destruct (m_top_event x) as [t|]; [|done].
      change (commands (on_commands (alter (fun y => set_recorded_commands (m_recorded_commands y ++ [t]) y) n) w4) !! n = Some (set_recorded_commands [e; t] (new_command event))).
      by rewrite lookup_on_cmd, decide_True, Hn4. }
    eexists. split; [subst w6; rewrite lookup_on_cmd, decide_True, Hn5 by done; reflexivity|]. split_and!; [done|done|done|]. cbn. intros d Hd.
    apply elem_of_cons in Hd as [->|Hd]; [split; [lia|done]|]. destruct (m_top_event x) as [t|] eqn:Et; [|cbn in Hd; set_solver]. apply list_elem_of_singleton in Hd as ->.
    split; [congruence|by apply Hkt].
Qed.

(** ** The other calls *)

Lemma ok_enqueue s c w : tidy [] w -> is_Some (streams w !! s) -> known w c -> ~ event_at w c -> ok [] (enqueue rc s c) w (fun _ _ => True).
Proof.
  intros Hw Hs Hk Hc. apply ok_lock; [set_solver|done|done|]. pose proof (tidy_held [] (cons (m_cmd_lock s)) w Hw) as Hw1. set (w1 := on_held _ w) in *.
  apply ok_get_stm; [done|]. intros x Hx. eapply (ok_bind _ _ _ _ (fun _ w' => known w' c)).
  - destruct (m_top_event x) as [e|] eqn:E.
    + assert (known w1 e) as Hke by (eapply stream_known; [exact Hw1|exact Hx|by right]). apply ok_lock; [set_solver|done|done|].
      pose proof (tidy_held _ (cons (m_chain_cmds_lock e)) w1 Hw1) as Hw2. apply ok_modify; [by apply tidy_chain|].
      destruct Hk as (y & Hy & Hk). unfold known. rewrite lookup_on_cmd. destruct (decide (c = e)) as [->|]; [|by exists y]. eexists. split; [cbn; rewrite Hy; reflexivity|done].
    + eapply ok_bind; [apply ok_run_call; [apply stream_locks_one|done|by apply known_some]|]. intros ? w2 Hw2 He. apply ok_ret; [done|]. exact (known_evolves w1 w2 c He Hk).
  - intros _ w2 Hw2 Hk2. apply ok_modify; [|done]. apply tidy_stm; [done| |done]. intros y i Hy. cbn. intros [Hi|Hi]%elem_of_app; [eapply stream_known; [exact Hw2|exact Hy|by left]|].
    by apply list_elem_of_singleton in Hi as ->.
Qed.

(** The streams stay as many as they are. *)
Definition as_many (w w' : world) : Prop := length (streams w') = length (streams w).

Lemma as_many_some w w' s : as_many w w' -> is_Some (streams w !! s) -> is_Some (streams w' !! s).
Proof. intros E. rewrite !lookup_lt_is_Some. unfold as_many in E. lia. Qed.

Lemma ok_mono h {A} (m : H A) w (Q Q' : A -> world -> Prop) : ok h m w Q -> (forall a w', Q a w' -> Q' a w') -> ok h m w Q'.
Proof. intros Hm HQ. eapply wp_mono; [exact Hm| |done]. cbn. intros a w' [? ?]. split; [done|by apply HQ]. Qed.

(** A command is awaited: it is there afterwards, and the streams are the same. *)
Lemma ok_try_wait c b h w :
  stream_locks h -> tidy h w -> is_Some (commands w !! c) ->
  ok h (try_catch (_ <- rc Wait c ;; st <- get_state c ;; if bool_decide (st = HipStream.completed) then ret b else raise std_error) (ret true)) w (fun _ w' => streams w' = streams w /\ grows w w').
Proof.
  intros Hh Hw Hc. pose proof (ok_run_call h start_ok run_ok Wait c w Hh Hw Hc) as Hr. destruct (td_rank _ _ Hw) as (r & n & Hrk & _). pose proof (td_held _ _ Hw) as Eh.
  assert (guarded w) as Hg by (split; intros e He; rewrite Eh in He; destruct (Hh _ He); done).
  assert (allowed r Wait c w) as Ha by (split; intros i Hi; rewrite Eh in Hi; destruct (Hh _ Hi); done).
  pose proof (run_call_calm r start_ok run_ok Wait c w (td_plain _ _ Hw) Hrk Hg Hc (fun _ => Ha)) as Hcm. unfold calm, ok, wp in *. unfold try_catch, bind at 1.
  destruct (rc Wait c w) as [a w1|e w1].
  - destruct Hr as [Hw1 _], Hcm as (He & _ & _). assert (streams w1 = streams w /\ grows w w1) as Hk by (split; [apply (ev_streams _ _ He)|by apply evolves_grows]).
    destruct (evolves_some _ _ _ He Hc) as [x Hx]. unfold get_state, bind, get_cmd, ret. rewrite Hx. by case_bool_decide.
  - destruct Hr as [Hw1 Hreg], Hcm as (He & _ & _). assert (streams w1 = streams w /\ grows w w1) as Hk by (split; [apply (ev_streams _ _ He)|by apply evolves_grows]).
    destruct e; try done; by split.
Qed.

Lemma ok_complete s l b w :
  tidy [m_cmd_lock s] w -> (forall c, c ∈ l -> is_Some (commands w !! c)) -> ok [m_cmd_lock s] (complete_commands start_ok run_ok s l b) w (fun _ w' => as_many w w').
Proof.
  revert b w. induction l as [|c l IH]; intros b w Hw Hl; cbn [complete_commands]; [by apply ok_ret|].
  eapply ok_bind; [apply ok_try_wait; [apply stream_locks_one|done|apply Hl; set_solver]|]. intros failed w1 Hw1 [Es Hg].
  apply ok_get; [eapply grows_some; [exact Hg|apply Hl; set_solver]|]. intros x Hx. eapply (ok_bind _ _ _ _ (fun _ w2 => streams w2 = streams w1 /\ grows w1 w2)).
  { case_bool_decide; [by apply ok_ret; [|split; [|intros i y Hy; exists y]]|]. apply ok_modify; [by apply tidy_alter|]. split; [done|by apply grows_alter]. }
  intros _ w2 Hw2 [Es2 Hg2]. eapply (ok_bind _ _ _ _ (fun _ w3 => as_many w2 w3 /\ commands w3 = commands w2)).
  - apply ok_modify; [|split; [apply length_alter|done]]. apply tidy_stm; [done| |done]. intros y i Hy Hi. eapply stream_known; [exact Hw2|exact Hy|left]. by apply tail_subseteq.
  - intros _ w3 Hw3 [Em Ec]. eapply ok_mono; [apply IH; [done|]|].
    + intros i Hi. rewrite Ec. eapply grows_some; [exact Hg2|]. eapply grows_some; [exact Hg|]. apply Hl. set_solver.
    + cbn. unfold as_many in *. intros _ w' ->. by rewrite Em, Es2, Es.
Qed.

Lemma ok_await s w : tidy [] w -> is_Some (streams w !! s) -> ok [] (await_completion start_ok run_ok s) w (fun _ w' => as_many w w').
Proof.
  intros Hw Hs. apply ok_lock; [set_solver|done|done|]. pose proof (tidy_held [] (cons (m_cmd_lock s)) w Hw) as Hw1. apply ok_get_stm; [done|]. intros x Hx.
  eapply ok_bind; [apply ok_complete; [done|]|].
  { intros c Hc. eapply known_some, stream_known; [exact Hw1|exact Hx|by left]. }
  intros failed w2 Hw2 E2. eapply (ok_bind _ _ _ _ (fun _ w3 => as_many w w3)); [|intros _ w3 Hw3 E3; by apply ok_throw].
  apply ok_modify; [|unfold as_many; cbn; rewrite length_alter; exact E2]. apply tidy_stm; [done| |done]. intros y i Hy Hi. eapply stream_known; [exact Hw2|exact Hy|by left].
Qed.

Lemma ok_synchronize s w : tidy [] w -> is_Some (streams w !! s) -> ok [] (synchronize start_ok run_ok s) w (fun _ _ => True).
Proof.
  intros Hw Hs. eapply (ok_bind _ _ _ _ (fun _ w' => as_many w w')).
  - apply ok_get_stm; [done|]. intros me _. destruct (m_nonblocking me); [by apply ok_ret|].
    apply wp_bind, wp_gets. assert (forall i, i ∈ seq 0 (length (streams w)) -> is_Some (streams w !! i)) as Hl by (intros i Hi; apply elem_of_seq in Hi; apply lookup_lt_is_Some; lia).
    revert Hl. generalize (seq 0 (length (streams w))). intros l Hl. change (ok [] (synchronize_others start_ok run_ok me s l) w (fun _ w' => as_many w w')).
    clear Hs. revert w Hw Hl. induction l as [|i l IH]; intros w Hw Hl; cbn [synchronize_others]; [by apply ok_ret|]. apply ok_get_stm; [apply Hl; set_solver|]. intros x _.
    eapply (ok_bind _ _ _ _ (fun _ w' => as_many w w')); [destruct (_ && _); [apply ok_await; [done|apply Hl; set_solver]|by apply ok_ret]|].
    intros _ w1 Hw1 E1. eapply ok_mono; [apply IH; [done|intros j Hj; eapply as_many_some; [exact E1|apply Hl; set_solver]]|]. cbn. unfold as_many in *. by intros _ w' ->.
  - intros _ w1 Hw1 E1. eapply ok_mono; [apply ok_await; [done|by eapply as_many_some]|done].
Qed.
End careful.
