(* ===== verification/HipDeadlock.v ===== *)
(** Deadlocks of streams: an application that records every event once, and lets no stream wait for
    an event of its own, is never blocked on a mutex; and behaviours of streams and events that an
    application may not expect, each as a sequence of calls and what comes of it. *)

From S2P Require Import Prelude HipStream HipInvariant HipCalls HipOrder HipRanks HipTidy.

Section careful.
Context (start_ok run_ok : nat -> bool).
Abbreviation rc := (run_call start_ok run_ok).

(** * Careful applications *)

(** The stream that a handle stands for. *)
Definition target (h : option nat) (w : world) : nat :=
  match h with Some s => s | None => default (length (streams w)) (find_null 0 (streams w)) end.

(** Every event is recorded once, in a stream that has not been destroyed, and no stream waits
    for an event that was recorded in it. *)
Definition careful (a : api) (w : world) : Prop :=
  match a with
  | EventRecord ev h => (forall x, commands w !! ev = Some x -> cstate x = init) /\ (forall s, h = Some s -> exists z, streams w !! s = Some z /\ in_cache z = true)
  | StreamWaitEvent h ev _ => forall x, commands w !! ev = Some x -> m_recorded_stream x <> Some (target h w)
  | _ => True
  end.

Inductive careful_reach : world -> Prop :=
| careful_empty : careful_reach empty_world
| careful_call a w w' : careful_reach w -> careful a w -> after (run start_ok run_ok a w) = Some w' -> careful_reach w'.

Lemma find_null_lookup i l s : find_null i l = Some s -> (i <= s)%nat /\ is_Some (l !! (s - i)%nat).
Proof.
  revert i. induction l as [|x l IH]; intros i; cbn [find_null]; [done|]. destruct (_ && _); [intros [= <-]; rewrite Nat.sub_diag; by split|].
  intros Hs. destruct (IH (S i) Hs) as [Hle Hl]. split; [lia|]. by replace (s - i)%nat with (S (s - S i)) by lia.
Qed.

Lemma ok_new_stream nb nu w : tidy [] w -> ok [] (new_stream nb nu) w (fun s w' => s = length (streams w) /\ commands w' = commands w /\ is_Some (streams w' !! s)).
Proof.
  intros Hw. apply wp_bind, wp_gets, wp_bind, wp_modify, wp_ret. assert (forall i z', (streams w ++ [Stream nb nu true [] None]) !! i = Some z' ->
    streams w !! i = Some z' \/ z' = Stream nb nu true [] None) as Hb.
  { intros i z' [Hz|[_ Hz]]%lookup_app_Some; [by left|]. apply list_lookup_singleton_Some in Hz as [_ <-]. by right. }
  split_and!; [apply tidy_streams; [done| |]|done|done|].
  - intros i z' c Hz Hc. destruct (Hb i z' Hz) as [Hz'| ->]; [by eapply stream_known|]. cbn in Hc. set_solver.
  - intros i z' e Hz He. destruct (Hb i z' Hz) as [Hz'| ->]; [by eapply (td_tops _ _ Hw)|done].
  - cbn. exists (Stream nb nu true [] None). by apply list_lookup_middle.
Qed.

Lemma ok_get_stream o w : tidy [] w -> ok [] (get_stream o) w (fun r w' => commands w' = commands w /\ forall s, r = Some s -> s = target o w /\ is_Some (streams w' !! s)).
Proof.
  intros Hw. destruct o as [s|]; cbn [get_stream].
  - apply wp_gets. split_and!; [done|done|]. destruct (streams w !! s) as [x|] eqn:E; [|done]. destruct (in_cache x); [|done]. intros i [= <-]. split; [done|]. by exists x.
  - eapply (ok_bind _ _ _ _ (fun s w' => commands w' = commands w /\ s = target None w /\ is_Some (streams w' !! s))).
    + unfold get_null_stream. apply wp_bind, wp_gets. cbn [target]. destruct (find_null 0 (streams w)) as [s|] eqn:E.
      * apply (ok_ret [] s); [done|]. destruct (find_null_lookup _ _ _ E) as [_ Hs]. rewrite Nat.sub_0_r in Hs. done.
      * eapply wp_mono; [by apply ok_new_stream| |done]. cbn. naive_solver.
    + intros s w' Hw' (E & -> & Hs). apply ok_ret; [done|]. split; [done|]. by intros i [= <-].
Qed.

Lemma ok_stream_or_error o e w : tidy [] w -> ok [] (stream_or_error o e) w (fun s w' => commands w' = commands w /\ s = target o w /\ is_Some (streams w' !! s)).
Proof.
  intros Hw. eapply ok_bind; [by apply ok_get_stream|]. intros [s|] w' Hw' [E Hs]; [|by apply ok_raise]. apply ok_ret; [done|]. split; [done|]. by apply Hs.
Qed.

Lemma ok_find_event c e w :
  tidy [] w -> ok [] (find_event c e) w (fun r w' => r = c /\ w' = w /\ exists x, commands w !! c = Some x /\ ctype x = event /\ cached x = true).
Proof.
  intros Hw. apply wp_bind, wp_gets. destruct (commands w !! c) as [x|] eqn:E; [|by apply ok_raise]. destruct (cached x) eqn:Ec; [|by apply ok_raise]. cbn [andb].
  case_bool_decide; [|by apply ok_raise]. apply (ok_ret [] c); [done|]. split_and!; [done|done|]. by exists x.
Qed.

Lemma ok_launch t o w :
  tidy [] w -> t ∈ [kernel_start; mem_cpy] ->
  ok [] (s <- stream_or_error o hipErrorInvalidValue ;; c <- insert_command (new_command t) ;; enqueue rc s c ;;; ret c) w (fun _ _ => True).
Proof.
  intros Hw Ht. eapply ok_bind; [by apply ok_stream_or_error|]. intros s w1 Hw1 (_ & _ & Hs).
  eapply (ok_bind _ _ _ _ (fun c w' => is_Some (streams w' !! s) /\ known w' c /\ ~ event_at w' c)).
  - apply wp_bind, wp_gets, wp_bind, wp_modify, wp_ret. set (w2 := on_commands _ w1). assert (commands w2 !! length (commands w1) = Some (new_command t)) as Hn by by apply list_lookup_middle.
    split_and!; [by apply tidy_new_command; [|set_solver]|done| |].
    + exists (new_command t). split; [done|]. cbn. set_solver.
    + intros (y & Hy & Ety). assert (y = new_command t) as -> by congruence. cbn in Ety. set_solver.
  - intros c w2 Hw2 (Hs2 & Hk & Hc). eapply ok_bind; [by apply ok_enqueue|]. intros _ w3 Hw3 _. by apply ok_ret.
Qed.

Lemma ok_any h {A} (m : H A) w Q : ok h m w Q -> ok h m w (fun _ _ => True).
Proof. intros Hm. eapply wp_mono; [exact Hm| |done]. cbn. naive_solver. Qed.

Lemma ok_ignore {A} (m : H A) w Q : ok [] m w Q -> ok [] (ignore m) w (fun _ _ => True).
Proof. intros Hm. eapply ok_bind; [exact Hm|]. intros ? w' Hw _. by apply ok_ret. Qed.

Lemma ok_wait_event o ev flags w :
  tidy [] w -> careful (StreamWaitEvent o ev flags) w -> ok [] (hip_stream_wait_event start_ok run_ok o ev flags) w (fun _ _ => True).
Proof.
  intros Hw Hcare. eapply ok_bind; [by apply (ok_throw _ _ _ _ (fun _ w' => w' = w))|]. intros _ ? _ ->.
  eapply ok_bind; [by apply ok_stream_or_error|]. intros s w1 Hw1 (Ec & -> & [x Hx]). eapply ok_bind; [by apply ok_find_event|]. intros e ? _ (-> & -> & y & Hy & Ht & _).
  pose proof (td_held _ _ Hw1) as Hh. eapply (ok_bind _ _ _ _ (fun b w' => b = is_recorded_no_lock (cstate y) /\ w' = w1)).
  { eapply ok_eq; [apply lock_read_state; [rewrite Hh; set_solver|exact Hy]|done|done]. }
  intros rcd ? _ [-> ->]. destruct (is_recorded_no_lock (cstate y)) eqn:Er; [|by apply ok_raise]. eapply ok_bind; [by apply (ok_ret _ tt _ (fun _ w' => w' = w1))|]. intros _ ? _ ->.
  eapply (ok_bind _ _ _ _ (fun b w' => b = false /\ w' = w1)).
  { eapply ok_eq; [apply (lock_read _ ev (fun z => bool_decide (m_recorded_stream z = Some (target o w)))); [rewrite Hh; set_solver|exact Hy]|done|]. split; [|done].
    apply bool_decide_eq_false_2, Hcare. by rewrite <- Ec. }
  intros same ? _ [-> ->]. eapply wait_ok; [done|exact Hx|exact Hy|done|]. intros Es. by rewrite Es in Er.
Qed.

Lemma ok_run a w : tidy [] w -> careful a w -> ok [] (run start_ok run_ok a) w (fun _ _ => True).
Proof.
  intros Hw Ha. destruct a as [flags|o|o|o ev flags| |ev|ev o|ev|ev|o|o]; cbn [run].
  - eapply ok_ignore, ok_bind; [by apply ok_throw with (Q := fun _ _ => True)|]. intros _ w1 Hw1 _. by eapply ok_any, ok_new_stream.
  - destruct o as [s|]; [|by apply ok_raise]. apply ok_modify; [|done]. apply tidy_stm; [done| |done]. intros x c Hx Hc. eapply stream_known; [exact Hw|exact Hx|by left].
  - eapply ok_bind; [by apply ok_stream_or_error|]. intros s w1 Hw1 (_ & _ & Hs). by apply ok_synchronize.
  - by apply ok_wait_event.
  - eapply (ok_ignore _ _ (fun _ _ => True)). apply wp_bind, wp_gets, wp_bind, wp_modify, wp_ret. split; [by apply tidy_new_command; [|set_solver]|done].
  - apply ok_modify; [|done]. by apply tidy_alter.
  - eapply (ok_bind _ _ _ _ (fun _ w' => w' = w /\ o <> None)).
    { unfold throw_if. case_bool_decide; [by apply ok_raise|by apply ok_ret]. }
    intros _ ? _ [-> Ho]. destruct o as [s|]; [|done]. destruct Ha as [Hi Hz]. destruct (Hz s eq_refl) as (x & Hx & Hc). unfold ok, wp, bind at 1, get_stream, gets. rewrite Hx, Hc.
    change (ok [] (e <- find_event ev hipErrorInvalidValue ;; record rc e (Some s)) w (fun _ _ => True)).
    eapply ok_bind; [by apply ok_find_event|]. intros e ? _ (-> & -> & y & Hy & Ht & Hcy). eapply record_ok; [done|exact Hx|exact Hy|done|by apply Hi|done].
  - eapply ok_bind; [by apply ok_find_event|]. intros e ? _ (-> & -> & y & Hy & _). eapply ok_bind; [apply ok_run_call; [apply stream_locks_nil|done|by exists y]|]. intros ? w2 Hw2 _. by apply ok_ret.
  - eapply ok_ignore, ok_bind; [by apply ok_find_event|]. intros e ? _ (-> & -> & y & Hy & _). eapply ok_eq; [apply lock_read_state; [rewrite (td_held _ _ Hw); set_solver|exact Hy]|done|].
    instantiate (1 := fun _ _ => True). done.
  - eapply ok_ignore, ok_launch; [done|set_solver].
  - eapply ok_ignore, ok_launch; [done|set_solver].
Qed.

Lemma careful_tidy w : careful_reach w -> tidy [] w.
Proof.
  induction 1 as [|a w w' Hr IH Ha Hw'].
  - split; [apply Forall_nil_2|done|done| |done|].
    + intros c [(i & y & Hy & _)|(s & z & Hz & _)]; done.
    + exists (fun _ => 0%nat), 1%nat. split; [by split|lia].
  - pose proof (ok_run a w IH Ha) as Hk. unfold ok, wp in Hk. destruct (run start_ok run_ok a w) as [u w1|e w1]; cbn [after] in Hw'; [|destruct e; try done];
      destruct Hk as [Ht _]; by injection Hw' as <-.
Qed.

Lemma careful_steps w : careful_reach w -> reach start_ok run_ok w.
Proof. induction 1 as [|a w w' Hr IH Ha Hw']; [apply steps_refl|by eapply steps_call]. Qed.

(** C18: An application that records every event once, in a stream that lives, and lets no stream
    wait for an event that was recorded in this stream, is never blocked: every call returns or
    throws, with all mutexes released, and none waits for a mutex that its own thread holds or
    follows a pointer to nothing. *)
Theorem careful_never_blocks w a : careful_reach w -> careful a w -> exists w', held w' = [] /\
  (run start_ok run_ok a w = Ok tt w' \/ exists e, run start_ok run_ok a w = Err e w' /\ e <> deadlock /\ e <> bad_pointer /\ e <> out_of_fuel).
Proof.
  intros Hr Ha. pose proof (ok_run a w (careful_tidy w Hr) Ha) as Hk. assert (may_record (fun _ => True) a) as Hm by by destruct a.
  pose proof (keep_run life _ _ _ _ life_stable life_calls start_ok run_ok a w (reach_life _ _ w (careful_steps w Hr)) Hm) as Hf.
  unfold ok, keep, wp in *. destruct (run start_ok run_ok a w) as [[] w'|e w']; exists w'; destruct Hf as (Hf & _ & He), Hk as [_ Hd];
    (split; [apply (fn_held _ _ _ Hf)|]); [by left|right; destruct Hd; by exists e].
Qed.
End careful.

(** ** Witness *)

(** Two streams that wait for each other's events. *)
Definition two_streams : list api :=
  [StreamCreate 1; StreamCreate 1; EventCreate; EventCreate; LaunchKernel (Some 0%nat); EventRecord 0 (Some 0%nat); StreamWaitEvent (Some 1%nat) 0 0;
   LaunchKernel (Some 1%nat); EventRecord 1 (Some 1%nat); StreamWaitEvent (Some 0%nat) 1 0; LaunchKernel (Some 0%nat)].

(** The application is careful as long as each call is. *)
Fixpoint all_careful (l : list api) (w : world) : Prop :=
  match l with
  | [] => True
  | a :: l' => careful a w /\ match after (run always always a w) with Some w' => all_careful l' w' | None => False end
  end.

Lemma all_careful_reach l w w' : careful_reach always always w -> all_careful l w -> play always always l w = Some w' -> careful_reach always always w'.
Proof.
  revert w. induction l as [|a l IH]; intros w Hr; cbn [all_careful play]; [by intros _ [= <-]|]. intros [Ha Hl]. destruct (after _) as [w1|] eqn:E; [|done].
  apply IH; [by eapply careful_call|done].
Qed.

Lemma two_streams_careful : careful_reach always always (played two_streams).
Proof.
  apply (all_careful_reach two_streams empty_world); [constructor| |vm_compute; reflexivity].
  vm_compute. repeat split; try (intros x [= <-]; first [reflexivity|discriminate]); intros s [= <-]; eexists; split; reflexivity.
Qed.

Lemma careful_never_blocks_witness : exists w', held w' = [] /\
  (run always always (StreamSynchronize (Some 0%nat)) (played two_streams) = Ok tt w' \/
   exists e, run always always (StreamSynchronize (Some 0%nat)) (played two_streams) = Err e w' /\ e <> deadlock /\ e <> bad_pointer /\ e <> out_of_fuel).
Proof. apply (careful_never_blocks always always); [exact two_streams_careful|exact Logic.I]. Defined.

(** * Behaviours that an application may not expect *)

Definition never (c : nat) : bool := false.
Definition played_with (run_ok : nat -> bool) (l : list api) : world := default empty_world (play always run_ok l empty_world).
Definition outcome (r : result world stop unit) : option stop := match r with Ok _ _ => None | Err e _ => Some e end.

(** An event that is recorded again in its stream, after [hipEventSynchronize], is still in the
    queue of the stream, depends on itself, and can not be awaited any more. *)
Definition recorded_twice : list api :=
  [StreamCreate 1; EventCreate; EventRecord 0 (Some 0%nat); EventSynchronize 0; EventRecord 0 (Some 0%nat)].

Example recording_twice_deadlocks : outcome (run always always (EventSynchronize 0) (played recorded_twice)) = Some deadlock.
Proof. vm_compute. reflexivity. Qed.

(** Without recording an event twice: two streams that wait for each other's events, and a wait
    for an event of the same stream, which makes this event depend on a later one. *)
Definition waited_in_own_stream : list api :=
  [StreamCreate 1; StreamCreate 1; EventCreate; EventCreate; EventRecord 0 (Some 0%nat); StreamWaitEvent (Some 1%nat) 0 0;
   EventRecord 1 (Some 1%nat); StreamWaitEvent (Some 0%nat) 1 0; StreamWaitEvent (Some 0%nat) 0 0].

Example own_event_deadlocks : outcome (run always always (StreamSynchronize (Some 0%nat)) (played waited_in_own_stream)) = Some deadlock.
Proof. vm_compute. reflexivity. Qed.

(** A kernel that is put into a stream behind a complete event of the same stream joins a chain
    that is never started. *)
Definition behind_complete_event : list api :=
  [StreamCreate 1; EventCreate; EventRecord 0 (Some 0%nat); StreamSynchronize (Some 0%nat); StreamWaitEvent (Some 0%nat) 0 0; LaunchKernel (Some 0%nat)].

Example kernel_never_started :
  outcome (run always always (StreamSynchronize (Some 0%nat)) (played behind_complete_event)) = Some (hip_error hipErrorLaunchFailure) /\
  (forall w, after (run always always (StreamSynchronize (Some 0%nat)) (played behind_complete_event)) = Some w -> history w = []).
Proof. split; [vm_compute; reflexivity|]. intros w. vm_compute. intros [= <-]. reflexivity. Qed.

(** A stream that waits for an event of another stream, and then for a complete event of its own: the
    second wait takes the place of the first, and a kernel that is put into the stream starts while the
    kernel that the first event follows is running. *)
Definition second_wait_forgets_first : list api :=
  [StreamCreate 1; StreamCreate 1; EventCreate; EventCreate; EventRecord 1 (Some 1%nat); StreamSynchronize (Some 1%nat);
   LaunchKernel (Some 0%nat); EventRecord 0 (Some 0%nat); StreamWaitEvent (Some 1%nat) 0 0; StreamWaitEvent (Some 1%nat) 1 0;
   LaunchKernel (Some 1%nat); EventSynchronize 1].

Example wait_order_lost : history (played second_wait_forgets_first) = [Start 2; Start 4].
Proof. vm_compute. reflexivity. Qed.

(** A copy that is put into a stream after a kernel starts before the kernel has ended. *)
Example copy_overtakes_kernel :
  history (played [StreamCreate 1; LaunchKernel (Some 0%nat); MemcpyAsync (Some 0%nat); StreamSynchronize (Some 0%nat)]) = [Start 0; Start 1; Done 0; Done 1].
Proof. vm_compute. reflexivity. Qed.

(** An event whose kernel fails stays in the state [running] and can not be recorded again. *)
Definition failing_event : list api := [StreamCreate 1; EventCreate; LaunchKernel (Some 0%nat); EventRecord 0 (Some 0%nat); EventSynchronize 0].

Example failed_event_stays_running :
  outcome (run always never (EventRecord 0 (Some 0%nat)) (played_with never failing_event)) = Some (hip_error hipErrorIllegalState).
Proof. vm_compute. reflexivity. Qed.

(** Waiting for a complete event again changes its time. *)
Definition time_of (w : world) (e : nat) : option Z := ctime <$> commands w !! e.

Example second_wait_changes_time :
  let l := [StreamCreate 1; EventCreate; EventRecord 0 (Some 0%nat); EventSynchronize 0] in
  time_of (played l) 0 = Some 0 /\ time_of (played (l ++ [EventSynchronize 0])) 0 <> Some 0.
Proof. split; vm_compute; [reflexivity|discriminate]. Qed.
