(* ===== verification/HipGraph.v ===== *)
(** Graphs of the HIP runtime, [hip/core/graph.cpp], [hip/core/graph.h] and
    [hip/api/hip_graph.cpp]: nodes with their dependencies, the order in which they are visited, the
    grouping of kernels into lists, and the task that runs an instance of a graph.

    A node is its index in the list of all nodes, those of graphs and the lists of kernels
    alike, a graph the list of its nodes.  Commands, streams and their state are those of
    [HipStream].  The hardware context of a kernel is a parameter.  The task of a launched graph
    is a routine that runs from its beginning to its end.  The lists of an instance whose
    construction fails stay among the nodes; they are of no graph, and the order of the nodes does
    not depend on them. *)

From S2P Require Import Prelude HipStream.

(** * Nodes *)

(** [graph_node]; the nodes that the application adds have a command, children are weak
    pointers, and a node that has been destroyed is not [alive]. *)
Record graph_node := GraphNode {
  m_cmd : nat;
  m_deps_list : list nat;
  m_children : list nat;
  alive : bool;
}.

Definition new_node (c : nat) : graph_node := GraphNode c [] [] true.
Definition add_child (n : nat) (x : graph_node) : graph_node := GraphNode (m_cmd x) (m_deps_list x) (m_children x ++ [n]) (alive x).
Definition add_dep (n : nat) (x : graph_node) : graph_node := GraphNode (m_cmd x) (m_deps_list x ++ [n]) (m_children x) (alive x).
Definition set_alive (b : bool) (x : graph_node) : graph_node := GraphNode (m_cmd x) (m_deps_list x) (m_children x) b.

(** [node->add_dep_node(parent)]. *)
Definition add_dep_node (n parent : nat) (ns : list graph_node) : list graph_node := alter (add_dep parent) n (alter (add_child n) parent ns).

Definition get_deps_list (ns : list graph_node) (n : nat) : list nat := default [] (m_deps_list <$> ns !! n).

Definition is_alive (ns : list graph_node) (n : nat) : bool := match ns !! n with Some x => alive x | None => false end.
Definition get_children (ns : list graph_node) (n : nat) : list nat := filter (fun c => is_alive ns c = true) (default [] (m_children <$> ns !! n)).

(** * The order of the nodes *)

(** [--indegree[child] == 0]; a missing entry is 0. *)
Definition count_down (ind : gmap nat Z) (c : nat) : gmap nat Z * bool :=
  let x := u64 (default 0 (ind !! c) - 1) in (<[c := x]> ind, x =? 0).

Fixpoint visit_children (cs : list nat) (ind : gmap nat Z) (q : list nat) : gmap nat Z * list nat :=
  match cs with
  | [] => (ind, q)
  | c :: cs' => let '(ind', zero) := count_down ind c in visit_children cs' ind' (if zero : bool then q ++ [c] else q)
  end.

Fixpoint visit_nodes (fuel : nat) (ns : list graph_node) (ind : gmap nat Z) (q result : list nat) : option (list nat) :=
  match q, fuel with
  | [], _ => Some result
  | _, O => None
  | n :: q', S fuel' => let '(ind', q'') := visit_children (get_children ns n) ind q' in visit_nodes fuel' ns ind' q'' (result ++ [n])
  end.

Fixpoint root_nodes (ns : list graph_node) (l : list nat) (ind : gmap nat Z) (q : list nat) : gmap nat Z * list nat :=
  match l with
  | [] => (ind, q)
  | n :: l' =>
      let size := Z.of_nat (length (get_deps_list ns n)) in
      root_nodes ns l' (<[n := size]> ind) (if size =? 0 then q ++ [n] else q)
  end.

(** Each node is visited at most once, so that their number is enough fuel. *)
Definition get_ordered_nodes (ns : list graph_node) (node_list : list nat) : list nat + stop :=
  let '(ind, q) := root_nodes ns node_list ∅ [] in
  match visit_nodes (length node_list) ns ind q [] with
  | None => inr out_of_fuel
  | Some result => if (length result =? length node_list)%nat then inl result else inr (hip_error hipErrorGraphExecUpdateFailure)
  end.

(** * Instances *)

(** A world with graphs, where [None] is a graph that has been destroyed, and the runs of the
    lists of kernels by their commands. *)
Record gworld := GWorld {
  runtime : world;
  gnodes : list graph_node;
  graphs : list (option (list nat));
  execs : list (list nat);
  runs : gmap nat (nat * list nat);
}.

Abbreviation G := (M gworld stop).

Definition on_runtime (f : world -> world) (g : gworld) : gworld := GWorld (f (runtime g)) (gnodes g) (graphs g) (execs g) (runs g).
Definition on_nodes (f : list graph_node -> list graph_node) (g : gworld) : gworld := GWorld (runtime g) (f (gnodes g)) (graphs g) (execs g) (runs g).
Definition on_graphs (f : list (option (list nat)) -> list (option (list nat))) (g : gworld) : gworld := GWorld (runtime g) (gnodes g) (f (graphs g)) (execs g) (runs g).
Definition on_execs (f : list (list nat) -> list (list nat)) (g : gworld) : gworld := GWorld (runtime g) (gnodes g) (graphs g) (f (execs g)) (runs g).
Definition on_runs (f : gmap nat (nat * list nat) -> gmap nat (nat * list nat)) (g : gworld) : gworld := GWorld (runtime g) (gnodes g) (graphs g) (execs g) (f (runs g)).

(** A routine of the runtime. *)
Definition lift {A} (m : H A) : G A := fun g =>
  match m (runtime g) with Ok a w => Ok a (on_runtime (fun _ => w) g) | Err e w => Err e (on_runtime (fun _ => w) g) end.

Definition get_node (n : nat) : G graph_node := fun g => match gnodes g !! n with Some x => Ok x g | None => Err bad_pointer g end.

Definition insert_node (x : graph_node) : G nat :=
  n <- gets (fun g => length (gnodes g)) ;; modify (on_nodes (fun l => l ++ [x])) ;;; ret n.

Section instance.
(** The hardware context of the function of a kernel. *)
Context (get_hw_ctx : nat -> option nat).

(** [last_kl_cmd] with the same hardware context. *)
Definition last_list (node_list : list nat) (ctx : nat) : G (option nat) :=
  match last node_list with
  | None => ret None
  | Some n =>
      x <- get_node n ;;
      kl <- gets (fun g => runs g !! m_cmd x) ;;
      ret (match kl with Some (c, _) => if (c =? ctx)%nat then Some n else None | None => None end)
  end.

Definition add_run (kl_node : nat) (c : nat) : G unit :=
  x <- get_node kl_node ;; modify (on_runs (alter (fun '(ctx, l) => (ctx, l ++ [c])) (m_cmd x))).

(** A new [kernel_list_start]; it is not in the cache of commands. *)
Definition new_list (ctx : nat) : G nat :=
  c <- lift (insert_command (set_cached false (new_command kernel_list_start))) ;;
  modify (on_runs (<[c := (ctx, [])]>)) ;;;
  insert_node (new_node c).

Fixpoint resolve (kernel_to_list_map : gmap nat nat) (kl_node : nat) (deps : list nat) : G unit :=
  match deps with
  | [] => ret tt
  | d :: deps' =>
      x <- get_node d ;;
      cmd <- lift (get_cmd (m_cmd x)) ;;
      (if negb (bool_decide (ctype cmd = kernel_start)) then modify (on_nodes (add_dep_node kl_node d)) else
       match kernel_to_list_map !! d with
       | None => modify (on_nodes (add_dep_node kl_node d))
       | Some l => if (l =? kl_node)%nat then ret tt else modify (on_nodes (add_dep_node kl_node l))
       end) ;;;
      resolve kernel_to_list_map kl_node deps'
  end.

Fixpoint group (ordered : list nat) (node_list : list nat) (kernel_to_list_map : gmap nat nat) : G (list nat) :=
  match ordered with
  | [] => ret node_list
  | n :: ordered' =>
      x <- get_node n ;;
      cmd <- lift (get_cmd (m_cmd x)) ;;
      if negb (bool_decide (ctype cmd = kernel_start)) then group ordered' (node_list ++ [n]) kernel_to_list_map else
      match get_hw_ctx (m_cmd x) with
      | None => raise (hip_error hipErrorInvalidContext)
      | Some ctx =>
          o <- last_list node_list ctx ;;
          r <- match o with
               | Some kl => add_run kl (m_cmd x) ;;; ret (kl, node_list)
               | None => kl <- new_list ctx ;; add_run kl (m_cmd x) ;;; ret (kl, node_list ++ [kl])
               end ;;
          let '(kl, node_list') := r in
          resolve (<[n := kl]> kernel_to_list_map) kl (m_deps_list x) ;;;
          group ordered' node_list' (<[n := kl]> kernel_to_list_map)
      end
  end.

(** [init] of [graph.cpp]. *)
Definition init_exec (node_list : list nat) : G (list nat) :=
  r <- gets (fun g => get_ordered_nodes (gnodes g) node_list) ;;
  match r with inl ordered => group ordered [] ∅ | inr e => raise e end.

(** * Execution *)

Context (start_ok run_ok : nat -> bool).

Definition set_stream_of (s : nat) (c : command) : command :=
  Command (ctype c) (cstate c) (ctime c) (cached c) (m_recorded_commands c) (m_chain_of_commands c) (m_recorded_stream c) (m_handle c) (m_event c) (Some s).

Definition is_event_node (t : cmd_type) : bool := match t with event_record | event_wait => true | _ => false end.

Definition execute_node (s n : nat) : G unit :=
  x <- get_node n ;;
  cmd <- lift (get_cmd (m_cmd x)) ;;
  (if is_event_node (ctype cmd) then lift (on_cmd (m_cmd x) (set_stream_of s)) else ret tt) ;;;
  for_each (m_deps_list x) (fun d => y <- get_node d ;; _ <- lift (run_call start_ok run_ok Wait (m_cmd y)) ;; ret tt) ;;;
  lift (set_state (m_cmd x) init) ;;;
  if is_event_node (ctype cmd) then _ <- lift (run_call start_ok run_ok Submit (m_cmd x)) ;; ret tt
  else lift (enqueue (run_call start_ok run_ok) s (m_cmd x)).

(** The task of [graph_exec::execute]. *)
Definition execute (s : nat) (node_exec_list : list nat) : G unit := for_each node_exec_list (execute_node s).

(** * Calls of the application *)

Definition get_graph (h : nat) : G (list nat) := fun g => match graphs g !! h with Some (Some l) => Ok l g | _ => Err std_error g end.

Definition hip_graph_create : G nat :=
  n <- gets (fun g => length (graphs g)) ;; modify (on_graphs (fun l => l ++ [Some []])) ;;; ret n.

(** [graph::add_node]. *)
Definition add_node (h : nat) (x : graph_node) : G nat :=
  n <- insert_node x ;; modify (on_graphs (alter (fmap (fun l => l ++ [n])) h)) ;;; ret n.

Definition add_node_dependencies (h n : nat) (deps : list nat) : G unit :=
  for_each deps (fun d => l <- get_graph h ;; if bool_decide (d ∈ l) then modify (on_nodes (add_dep_node n d)) else raise std_error).

(** The functions [hip_graph_add_..._node], after their checks, for a command of their type. *)
Definition hip_graph_add_node (h : nat) (x : command) (deps : list nat) : G nat :=
  _ <- get_graph h ;;
  c <- lift (insert_command (set_cached false x)) ;;
  n <- add_node h (new_node c) ;;
  add_node_dependencies h n deps ;;;
  ret n.

Definition hip_graph_add_kernel_node (h : nat) (deps : list nat) : G nat := hip_graph_add_node h (new_command kernel_start) deps.
Definition hip_graph_add_empty_node (h : nat) (deps : list nat) : G nat := hip_graph_add_node h (new_command empty) deps.
Definition hip_graph_add_memcpy_node_1d (h : nat) (deps : list nat) (count : Z) : G nat :=
  lift (throw_if (count =? 0) hipErrorInvalidValue) ;;; hip_graph_add_node h (new_command mem_cpy) deps.

Definition event_node (t : cmd_type) (ev : nat) : command := Command t HipStream.init 0 true [] [] None false (Some ev) None.

Definition hip_graph_add_event_record_node (h : nat) (deps : list nat) (ev : nat) : G nat :=
  _ <- get_graph h ;; e <- lift (find_event ev hipErrorInvalidResourceHandle) ;; hip_graph_add_node h (event_node event_record e) deps.
Definition hip_graph_add_event_wait_node (h : nat) (deps : list nat) (ev : nat) : G nat :=
  _ <- get_graph h ;; e <- lift (find_event ev hipErrorInvalidResourceHandle) ;; hip_graph_add_node h (event_node event_wait e) deps.

(** The size that a memset node fills; [None] is a division by zero, which stops the
    process. *)
Definition memset_size (offset mem_size element_size width height : Z) : option (Z + hip_code) :=
  let total := u64 (u64 (width * (if 0 <? height then height else 1)) * element_size) in
  if mem_size <? u64 (offset + total) then Some (inr hipErrorInvalidValue) else
  if element_size =? 0 then None else
  if negb (total mod element_size =? 0) then Some (inr hipErrorInvalidValue) else
  if bool_decide (element_size ∈ [1; 2; 4]) then Some (inl total) else Some (inr hipErrorInvalidValue).

Definition hip_graph_add_memset_node (h : nat) (deps : list nat) (offset mem_size element_size width height : Z) : G nat :=
  _ <- get_graph h ;;
  match memset_size offset mem_size element_size width height with
  | None => raise bad_pointer
  | Some (inr e) => raise (hip_error e)
  | Some (inl _) => hip_graph_add_node h (new_command mem_cpy) deps
  end.

Definition hip_graph_instantiate (h : nat) : G nat :=
  l <- get_graph h ;;
  ex <- init_exec l ;;
  n <- gets (fun g => length (execs g)) ;;
  modify (on_execs (fun l => l ++ [ex])) ;;; ret n.

(** What the task throws is kept in its future, and no one asks for it; the stream is not
    checked. *)
Definition run_task (m : G unit) : G unit := fun g =>
  match m g with
  | Err (hip_error _) g' | Err std_error g' => Ok tt g'
  | r => r
  end.

Definition hip_graph_launch (e : nat) (h : option nat) : G unit :=
  o <- gets (fun g => execs g !! e) ;;
  match o with
  | None => raise std_error
  | Some l => s <- lift (get_stream h) ;; match s with Some s => run_task (execute s l) | None => raise bad_pointer end
  end.

Definition hip_graph_destroy (h : nat) : G unit := modify (on_graphs (alter (fun _ => None) h)).

(** The lists of kernels of an instance die with it. *)
Definition hip_graph_exec_destroy (e : nat) : G unit :=
  l <- gets (fun g => default [] (execs g !! e)) ;;
  for_each l (fun n => x <- get_node n ;; kl <- gets (fun g => runs g !! m_cmd x) ;;
    match kl with Some _ => modify (on_nodes (alter (set_alive false) n)) | None => ret tt end) ;;;
  modify (on_execs (alter (fun _ => []) e)).
End instance.
