(* ===== verification/HipGraphOrder.v ===== *)
(** The order of the nodes of a graph: [graph::get_ordered_nodes] returns every node once, behind
    its dependencies, and fails exactly when there is a cycle. *)

From S2P Require Import Prelude HipStream HipGraph.

(** * Counting *)

Definition occ (x : nat) (l : list nat) : nat := length (filter (fun y => y = x) l).

(** Dependencies that have not been visited. *)
Definition missing (done deps : list nat) : nat := length (filter (fun d => d ∉ done) deps).

Lemma occ_cons x y l : occ x (y :: l) = ((if decide (y = x) then 1 else 0) + occ x l)%nat.
Proof. unfold occ. rewrite filter_cons. by destruct (decide (y = x)). Qed.

Lemma occ_elem x l : x ∈ l <-> (0 < occ x l)%nat.
Proof.
  unfold occ. induction l as [|y l IH]; [split; [set_solver|cbn; lia]|]. rewrite filter_cons. destruct (decide (y = x)) as [->|Hne]; cbn; [split; [lia|set_solver]|].
  rewrite <- IH. set_solver.
Qed.

Lemma occ_le x l : (occ x l <= length l)%nat.
Proof. unfold occ. apply length_filter. Qed.

Lemma missing_snoc done n deps : n ∉ done -> missing done deps = (missing (done ++ [n]) deps + occ n deps)%nat.
Proof.
  intros Hn. unfold missing, occ. induction deps as [|d deps IH]; [done|]. rewrite !filter_cons.
  destruct (decide (d = n)) as [->|Hne].
  - rewrite (decide_True (P := n ∉ done)), (decide_False (P := n ∉ done ++ [n])) by set_solver. cbn. lia.
  - destruct (decide (d ∉ done)) as [Hd|Hd].
    + rewrite decide_True by set_solver. cbn. lia.
    + rewrite decide_False by set_solver. lia.
Qed.

Lemma missing_0 done deps : missing done deps = 0%nat <-> deps ⊆ done.
Proof.
  unfold missing. induction deps as [|d deps IH]; [split; [set_solver|done]|]. rewrite filter_cons. destruct (decide (d ∉ done)) as [Hd|Hd]; cbn.
  - split; [done|set_solver].
  - rewrite IH. assert (d ∈ done) by (destruct (decide (d ∈ done)); [done|by destruct Hd]). set_solver.
Qed.

Lemma missing_nil deps : missing [] deps = length deps.
Proof. unfold missing. induction deps as [|d deps IH]; [done|]. rewrite filter_cons, decide_True by set_solver. cbn. by rewrite IH. Qed.

Lemma missing_le done deps : (missing done deps <= length deps)%nat.
Proof. unfold missing. apply length_filter. Qed.

(** * Visiting *)

Section order.
Context (ns : list graph_node) (L : list nat).
Abbreviation deps n := (get_deps_list ns n).
Abbreviation children n := (get_children ns n).

(** The children of a node are those that depend on it; nodes that are not of the graph
    may be children too. *)
Record graph_ok : Prop := {
  go_nodup : NoDup L;
  go_deps : forall n d, n ∈ L -> d ∈ deps n -> d ∈ L;
  go_edges : forall n c, n ∈ L -> c ∈ L -> occ c (children n) = occ n (deps c);
  go_size : forall n, n ∈ L -> Z.of_nat (length (deps n)) < 2 ^ 64;
  go_total : Z.of_nat (sum_list_with (fun n => length (children n)) L) < 2 ^ 64;
}.

(** Nodes outside of the graph have been counted down from 0, at most [t] times. *)
Definition outside (t : nat) (ind : gmap nat Z) : Prop :=
  forall c, c ∉ L -> ind !! c = None \/ exists e, (1 <= e <= t)%nat /\ ind !! c = Some (2 ^ 64 - Z.of_nat e).

Lemma count_down_inside ind c k : c ∈ L -> ind !! c = Some (Z.of_nat (S k)) -> Z.of_nat (S k) < 2 ^ 64 -> count_down ind c = (<[c := Z.of_nat k]> ind, (k =? 0)%nat).
Proof.
  intros Hc Hk Hlt. unfold count_down. rewrite Hk. cbn [default from_option id]. replace (u64 (Z.of_nat (S k) - 1)) with (Z.of_nat k) by (rewrite u64_small; lia).
  f_equal. by destruct k.
Qed.

Lemma count_down_outside t ind c : c ∉ L -> Z.of_nat (S t) < 2 ^ 64 -> outside t ind -> exists x, count_down ind c = (<[c := x]> ind, false) /\ outside (S t) (<[c := x]> ind).
Proof.
  intros Hc Ht Ho. assert (exists e, (1 <= e <= S t)%nat /\ u64 (default 0 (ind !! c) - 1) = 2 ^ 64 - Z.of_nat e) as (e & He & E).
  { destruct (Ho c Hc) as [->|(e & He & ->)]; cbn [default from_option id].
    - exists 1%nat. split; [lia|reflexivity].
    - exists (S e). split; [lia|]. rewrite u64_small by lia. lia. }
  exists (2 ^ 64 - Z.of_nat e). unfold count_down. rewrite E. split; [f_equal; lia|]. intros i Hi. destruct (decide (i = c)) as [->|Hne].
  - right. exists e. split; [lia|]. by rewrite lookup_insert_eq.
  - rewrite lookup_insert_ne by done. destruct (Ho i Hi) as [?|(j & Hj & ?)]; [by left|right; exists j; split; [lia|done]].
Qed.

Lemma visit_children_spec cs t ind q (k : nat -> nat) :
  (forall c, c ∈ L -> ind !! c = Some (Z.of_nat (k c)) /\ (occ c cs <= k c)%nat /\ Z.of_nat (k c) < 2 ^ 64) -> outside t ind -> Z.of_nat (t + length cs) < 2 ^ 64 ->
  exists ind' new, visit_children cs ind q = (ind', q ++ new) /\ outside (t + length cs) ind' /\ NoDup new /\
    (forall c, c ∈ L -> ind' !! c = Some (Z.of_nat (k c - occ c cs))) /\ (forall c, c ∈ new <-> c ∈ L /\ (0 < occ c cs)%nat /\ occ c cs = k c).
Proof.
  revert t ind q k. induction cs as [|c cs IH]; intros t ind q k Hind Ho Ht; cbn [visit_children].
  { exists ind, []. rewrite app_nil_r, Nat.add_0_r. split_and!; [done|done|by apply NoDup_nil_2| |].
    - intros c Hc. unfold occ. cbn. rewrite Nat.sub_0_r. by apply Hind.
    - intros c. unfold occ. cbn. split; [set_solver|lia]. }
  cbn [length] in Ht. destruct (decide (c ∈ L)) as [Hc|Hc].
  - destruct (Hind c Hc) as (Hk & Hle & Hlt). rewrite occ_cons, decide_True in Hle by done. destruct (k c) as [|kc] eqn:Ekc; [lia|].
    rewrite (count_down_inside ind c kc) by done.
    destruct (IH (S t) (<[c := Z.of_nat kc]> ind) (if (kc =? 0)%nat then q ++ [c] else q) (fun i => if decide (i = c) then kc else k i)) as (ind' & new & E & Ho' & Hnd & Hi' & Hnew).
    + intros i Hi. destruct (decide (i = c)) as [->|Hne]; [rewrite lookup_insert_eq; split_and!; [done|lia|lia]|].
      rewrite lookup_insert_ne by done. destruct (Hind i Hi) as (? & Hoc & ?). rewrite occ_cons, decide_False in Hoc by done. done.
    + intros i Hi. rewrite lookup_insert_ne by (intros <-; done). destruct (Ho i Hi) as [?|(j & Hj & ?)]; [by left|right; exists j; split; [lia|done]].
    + lia.
    + assert (forall i, i ∈ L -> ind' !! i = Some (Z.of_nat (k i - occ i (c :: cs)))) as Hi2.
      { intros i Hi. rewrite (Hi' i Hi), occ_cons. destruct (decide (i = c)) as [->|Hne]; [rewrite decide_True by done; rewrite Ekc; do 2 f_equal; lia|by rewrite decide_False]. }
      exists ind'. destruct (Nat.eqb_spec kc 0) as [->|Hnz].
      * exists (c :: new). assert (occ c cs = 0%nat) as E0 by lia. split_and!; [by rewrite E, <- app_assoc|replace (t + length (c :: cs))%nat with (S t + length cs)%nat by (cbn; lia); done| |done|].
        { apply NoDup_cons. split; [|done]. intros Hin. apply Hnew in Hin. lia. }
        intros i. rewrite elem_of_cons, Hnew, occ_cons. destruct (decide (i = c)) as [->|Hne]; [rewrite decide_True by done; split; [intros _; split_and!; [done|lia|lia]|by left]|].
        rewrite decide_False by done. naive_solver.
      * exists new. split_and!; [done|replace (t + length (c :: cs))%nat with (S t + length cs)%nat by (cbn; lia); done|done|done|].
        intros i. rewrite Hnew, occ_cons. destruct (decide (i = c)) as [->|Hne]; [|by rewrite decide_False].
        rewrite decide_True by done. rewrite Ekc. split; intros (? & ? & ?); split_and!; try done; lia.
  - destruct (count_down_outside t ind c Hc ltac:(lia) Ho) as (x & E & Ho1). rewrite E.
    destruct (IH (S t) (<[c := x]> ind) q k) as (ind' & new & E' & Ho' & Hnd & Hi' & Hnew).
    + intros i Hi. rewrite lookup_insert_ne by (intros <-; done). destruct (Hind i Hi) as (? & Hoc & ?). rewrite occ_cons, decide_False in Hoc by (intros ->; done). done.
    + done.
    + lia.
    + assert (forall i, i ∈ L -> occ i (c :: cs) = occ i cs) as Eo by (intros i Hi; rewrite occ_cons, decide_False; [done|intros ->; done]).
      exists ind', new. split_and!; [done|replace (t + length (c :: cs))%nat with (S t + length cs)%nat by (cbn; lia); done|done|by intros i Hi; rewrite Eo; auto|].
      intros i. rewrite Hnew. split; intros (Hi & ? & ?); (split_and!; [done|rewrite ?Eo in *; auto..]).
Qed.

(** Every node behind its dependencies. *)
Definition topological (l : list nat) : Prop := forall l1 n l2, l = l1 ++ n :: l2 -> deps n ⊆ l1.

Definition visits (done : list nat) : nat := sum_list_with (fun n => length (children n)) done.

(** The state of the loop. *)
Record visiting (ind : gmap nat Z) (q done : list nat) : Prop := {
  vs_nodup : NoDup (done ++ q);
  vs_in : done ++ q ⊆ L;
  vs_count : forall n, n ∈ L -> ind !! n = Some (Z.of_nat (missing done (deps n)));
  vs_ready : forall n, n ∈ L -> n ∈ done ++ q <-> missing done (deps n) = 0%nat;
  vs_topo : topological done;
  vs_outside : outside (visits done) ind;
}.

Lemma topological_snoc done n : topological done -> deps n ⊆ done -> topological (done ++ [n]).
Proof.
  intros Ht Hd l1 m l2 E. destruct l2 as [|a l2 _] using rev_ind; [apply app_inj_tail in E as [<- <-]; done|].
  rewrite app_comm_cons, app_assoc in E. apply app_inj_tail in E as [-> _]. by eapply Ht.
Qed.

Lemma visits_bound done : graph_ok -> NoDup done -> done ⊆ L -> Z.of_nat (visits done) < 2 ^ 64.
Proof.
  intros Hok Hnd Hin. pose proof (go_total Hok) as Ht. assert (visits done <= sum_list_with (fun n => length (children n)) L)%nat; [|lia].
  destruct (submseteq_Permutation done L) as [l E]; [by apply NoDup_submseteq|]. unfold visits. rewrite E, sum_list_with_app. lia.
Qed.

Lemma visit_step ind n q done :
  graph_ok -> visiting ind (n :: q) done ->
  exists ind' new, visit_children (children n) ind q = (ind', q ++ new) /\ visiting ind' (q ++ new) (done ++ [n]).
Proof.
  intros Hok [V1 V2 V3 V4 V5 V6]. assert (n ∈ L) as Hn by (apply V2; set_solver). assert (n ∉ done) as Hnd by (apply NoDup_app in V1 as (_ & Hd & _); intros Hin; apply (Hd n Hin); set_solver).
  assert (forall c, c ∈ L -> missing done (deps c) = (missing (done ++ [n]) (deps c) + occ c (children n))%nat) as Hm by (intros c Hc; rewrite (go_edges Hok n c) by done; by apply missing_snoc).
  assert (NoDup (done ++ [n])) as Hnd1 by (apply NoDup_app in V1 as (? & Hd & [Hq _]%NoDup_cons); apply NoDup_app; split_and!; [done|set_solver|apply NoDup_singleton]).
  assert (Z.of_nat (visits (done ++ [n])) < 2 ^ 64) as Hb by (apply visits_bound; [done|done|set_solver]).
  assert (visits (done ++ [n]) = visits done + length (children n))%nat as Ev by (unfold visits; rewrite sum_list_with_app; cbn; lia).
  destruct (visit_children_spec (children n) (visits done) ind q (fun c => missing done (deps c))) as (ind' & new & E & Ho & Hnn & Hi & Hnew).
  { intros c Hc. split_and!; [by apply V3|rewrite Hm by done; lia|]. pose proof (missing_le done (deps c)). pose proof (go_size Hok c Hc). lia. }
  { done. } { by rewrite <- Ev. }
  exists ind', new. split; [done|]. assert (forall c, c ∈ L -> missing done (deps c) = 0%nat -> occ c (children n) = 0%nat) as Hz by (intros c Hc E0; specialize (Hm c Hc); lia).
  assert (forall c, c ∈ new -> c ∉ done ++ n :: q) as Hfresh.
  { intros c Hc Hin. apply Hnew in Hc as (HcL & Hpos & Eq). assert (missing done (deps c) = 0%nat) as E0 by by apply V4. lia. }
  assert (done ++ n :: q ≡ₚ (done ++ [n]) ++ q) as Ep by by rewrite <- app_assoc.
  split.
  - rewrite app_assoc. apply NoDup_app. split_and!; [by rewrite <- Ep| |done]. intros c Hc Hc'. apply (Hfresh c Hc'). by rewrite Ep.
  - intros c [Hc|[Hc|Hc]%elem_of_app]%elem_of_app; [set_solver|apply V2; set_solver|]. by apply Hnew in Hc as (? & _).
  - intros c Hc. rewrite (Hi c Hc). do 2 f_equal. rewrite (Hm c Hc). lia.
  - intros c Hc. rewrite app_assoc, elem_of_app, <- Ep, (V4 c Hc), (Hnew c). pose proof (Hm c Hc). split; [intros [?|(_ & _ & ?)]; lia|]. intros E0. destruct (decide (missing done (deps c) = 0%nat)); [by left|right; split_and!; [done|lia|lia]].
  - apply topological_snoc; [done|]. apply missing_0, V4; [done|set_solver].
  - by rewrite Ev.
Qed.

Lemma visit_nodes_spec fuel ind q done :
  graph_ok -> visiting ind q done -> (length L <= length done + fuel)%nat -> exists ind' l, visit_nodes fuel ns ind q done = Some l /\ visiting ind' [] l.
Proof.
  intros Hok. revert ind q done. induction fuel as [|fuel IH]; intros ind q done Hv Hf; destruct q as [|n q]; cbn [visit_nodes]; [by exists ind, done| |by exists ind, done|].
  - exfalso. pose proof (vs_nodup _ _ _ Hv) as Hnd. pose proof (NoDup_submseteq _ _ Hnd (vs_in _ _ _ Hv)) as Hs. apply submseteq_length in Hs. rewrite length_app in Hs. cbn in Hs. lia.
  - destruct (visit_step ind n q done Hok Hv) as (ind' & new & -> & Hv'). apply (IH ind'); [done|]. rewrite length_app. cbn. lia.
Qed.

Lemma root_nodes_spec l ind q :
  NoDup l -> exists ind', root_nodes ns l ind q = (ind', q ++ filter (fun n => missing [] (deps n) = 0%nat) l) /\
    (forall n, n ∈ l -> ind' !! n = Some (Z.of_nat (missing [] (deps n)))) /\ forall n, n ∉ l -> ind' !! n = ind !! n.
Proof.
  revert ind q. induction l as [|n l IH]; intros ind q Hnd; cbn [root_nodes]; [exists ind; rewrite app_nil_r; split_and!; [done|set_solver|done]|].
  apply NoDup_cons in Hnd as [Hn Hnd]. destruct (IH (<[n := Z.of_nat (length (deps n))]> ind) (if Z.of_nat (length (deps n)) =? 0 then q ++ [n] else q) Hnd) as (ind' & E & H1 & H2).
  exists ind'. rewrite E, filter_cons, missing_nil. split_and!.
  - f_equal. destruct (Z.eqb_spec (Z.of_nat (length (deps n))) 0); [rewrite decide_True by lia; by rewrite <- app_assoc|by rewrite decide_False by lia].
  - intros i [->|Hi]%elem_of_cons; [|by apply H1]. rewrite (H2 n Hn), lookup_insert_eq. by rewrite missing_nil.
  - intros i [Hi1 Hi2]%not_elem_of_cons. rewrite (H2 i Hi2). by rewrite lookup_insert_ne.
Qed.

Definition acyclic : Prop := exists rank : nat -> nat, forall n d, n ∈ L -> d ∈ deps n -> (rank d < rank n)%nat.

(** At the end of the loop, what has not been visited is on or behind a cycle. *)
Lemma visited_all ind l : graph_ok -> visiting ind [] l -> acyclic -> l ≡ₚ L.
Proof.
  intros Hok [V1 V2 V3 V4 V5 V6] [rank Hr]. rewrite app_nil_r in *. assert (forall m n, (rank n < m)%nat -> n ∈ L -> n ∈ l) as Hall.
  { induction m as [|m IH]; intros n Hlt Hn; [lia|]. apply (V4 n Hn), missing_0. intros d Hd. apply IH; [|by apply (go_deps Hok n)].
    specialize (Hr n d Hn Hd). lia. }
  apply NoDup_Permutation; [done|apply Hok|]. intros n. split; [apply V2|]. intros Hn. by apply (Hall (S (rank n))); [lia|].
Qed.

(** The position of a node in a topological order is a rank. *)
Lemma topological_acyclic l : NoDup l -> l ≡ₚ L -> topological l -> acyclic.
Proof.
  intros Hnd Hp Ht. exists (fun n => match list_find (fun x => x = n) l with Some (i, _) => i | None => 0%nat end). intros n d Hn Hd. rewrite <- Hp in Hn.
  apply list_elem_of_split in Hn as (l1 & l2 & E). pose proof (Ht l1 n l2 E d Hd) as Hd1. apply list_elem_of_split in Hd1 as (k1 & k2 & ->). subst l.
  apply NoDup_app in Hnd as (Hk & Hsep & _). assert (n ∉ k1 ++ d :: k2) as Hn1 by (intros Hin; apply (Hsep n Hin); set_solver). assert (d ∉ k1) as Hd1 by (apply NoDup_app in Hk as (_ & Hs & _); intros Hin; apply (Hs d Hin); set_solver).
  assert (forall (k : list nat) (x : nat) r, x ∉ k -> list_find (fun y => y = x) (k ++ x :: r) = Some (length k, x)) as Hfind.
  { intros k x r Hx. apply list_find_Some. split_and!; [by rewrite list_lookup_middle|done|]. intros j y Hy Hlt -> . rewrite lookup_app_l in Hy by done. apply Hx. by eapply list_elem_of_lookup_2. }
  rewrite (Hfind (k1 ++ d :: k2) n l2 Hn1). rewrite <- app_assoc. cbn [app]. rewrite (Hfind k1 d _ Hd1), length_app. cbn. lia.
Qed.

Lemma ordered_nodes_spec :
  graph_ok -> match get_ordered_nodes ns L with
  | inl l => l ≡ₚ L /\ topological l
  | inr e => e = hip_error hipErrorGraphExecUpdateFailure /\ ~ acyclic
  end.
Proof.
  intros Hok. unfold get_ordered_nodes. destruct (root_nodes_spec L ∅ [] (go_nodup Hok)) as (ind & -> & H1 & H2). cbn [app]. set (q := filter _ L).
  assert (visiting ind q []) as Hv.
  { split; cbn [app].
    - apply NoDup_filter, Hok.
    - intros n Hn. by apply list_elem_of_filter in Hn as [_ ?].
    - done.
    - intros n Hn. unfold q. rewrite list_elem_of_filter. naive_solver.
    - intros l1 n l2 E. by destruct l1.
    - intros c Hc. left. by rewrite H2. }
  destruct (visit_nodes_spec (length L) ind q [] Hok Hv) as (ind' & l & -> & Hl); [cbn; lia|].
  destruct (Nat.eqb_spec (length l) (length L)) as [El|El].
  - split; [|apply Hl]. destruct Hl as [V1 V2 _ _ _ _]. rewrite app_nil_r in *. pose proof (NoDup_submseteq _ _ V1 V2) as Hs. by apply submseteq_length_Permutation; [|lia].
  - split; [done|]. intros Ha. apply El. by rewrite (visited_all ind' l Hok Hl Ha).
Qed.

(** C23: For any nodes with consistent edges, the order of the nodes that an instance of a graph is
    made from has every node once and behind all nodes that it depends on; the call fails
    exactly when the dependencies have a cycle, and it always comes to an end.  Lists of
    kernels of earlier instances, which have become children of the nodes, do not disturb it. *)
Theorem ordered_nodes_exact :
  graph_ok ->
  (acyclic -> exists l, get_ordered_nodes ns L = inl l /\ l ≡ₚ L /\ topological l) /\
  (~ acyclic -> get_ordered_nodes ns L = inr (hip_error hipErrorGraphExecUpdateFailure)).
Proof.
  intros Hok. pose proof (ordered_nodes_spec Hok) as Hs. destruct (get_ordered_nodes ns L) as [l|e].
  - destruct Hs as [Hp Ht]. split; [by exists l|]. intros Hn. destruct Hn. apply (topological_acyclic l); [|done|done]. rewrite Hp. apply Hok.
  - destruct Hs as [-> Hn]. by split.
Qed.
End order.

(** A diamond, and two nodes that depend on each other. *)
Definition diamond : list graph_node := [GraphNode 0 [] [1; 2] true; GraphNode 1 [0] [3] true; GraphNode 2 [0] [3] true; GraphNode 3 [1; 2] [] true]%nat.
Definition ring : list graph_node := [GraphNode 0 [1] [1] true; GraphNode 1 [0] [0] true]%nat.

Ltac each_node :=
  repeat match goal with
  | H : _ ∈ [] |- _ => by apply not_elem_of_nil in H
  | H : _ ∈ _ :: _ |- _ => apply elem_of_cons in H as [->|H]
  end.

Lemma ordered_nodes_exact_witness :
  graph_ok diamond [3; 2; 1; 0]%nat /\ graph_ok ring [0; 1]%nat /\
  ((acyclic diamond [3; 2; 1; 0]%nat -> exists l, get_ordered_nodes diamond [3; 2; 1; 0]%nat = inl l /\ l ≡ₚ [3; 2; 1; 0]%nat /\ topological diamond l) /\
   (~ acyclic diamond [3; 2; 1; 0]%nat -> get_ordered_nodes diamond [3; 2; 1; 0]%nat = inr (hip_error hipErrorGraphExecUpdateFailure))) /\
  ((acyclic ring [0; 1]%nat -> exists l, get_ordered_nodes ring [0; 1]%nat = inl l /\ l ≡ₚ [0; 1]%nat /\ topological ring l) /\
   (~ acyclic ring [0; 1]%nat -> get_ordered_nodes ring [0; 1]%nat = inr (hip_error hipErrorGraphExecUpdateFailure))).
Proof.
  assert (graph_ok diamond [3; 2; 1; 0]%nat) as H1.
  { split; [by apply (bool_decide_unpack _)|intros n d Hn; each_node; cbn; set_solver|intros n c Hn Hc; each_node; reflexivity|intros n Hn; each_node; cbn; lia|by vm_compute]. }
  assert (graph_ok ring [0; 1]%nat) as H2.
  { split; [by apply (bool_decide_unpack _)|intros n d Hn; each_node; cbn; set_solver|intros n c Hn Hc; each_node; reflexivity|intros n Hn; each_node; cbn; lia|by vm_compute]. }
  split_and!; [done|done|apply (ordered_nodes_exact diamond [3; 2; 1; 0]%nat H1)..|apply (ordered_nodes_exact ring [0; 1]%nat H2)|apply (ordered_nodes_exact ring [0; 1]%nat H2)].
Defined.
