(* ===== verification/HipGraphBuild.v ===== *)
(** Graphs as an application builds them: after any calls that create graphs, add nodes, make and
    destroy instances, the nodes of every graph have consistent edges and no cycles. *)

From S2P Require Import Prelude HipStream HipGraph HipGraphOrder.

(** * Invariant *)

Record gok (g : gworld) : Prop := {
  gk_graph : forall h l, graphs g !! h = Some (Some l) -> NoDup l;
  gk_node : forall h l n, graphs g !! h = Some (Some l) -> n ∈ l ->
    exists x, gnodes g !! n = Some x /\ alive x = true /\ runs g !! m_cmd x = None /\ (m_cmd x < length (commands (runtime g)))%nat /\
      forall d, d ∈ m_deps_list x -> d ∈ l /\ (d < n)%nat;
  gk_edges : forall n x c y, gnodes g !! n = Some x -> gnodes g !! c = Some y -> occ c (m_children x) = occ n (m_deps_list y);
  gk_range : forall n x i, gnodes g !! n = Some x -> i ∈ m_children x \/ i ∈ m_deps_list x -> (i < length (gnodes g))%nat;
  gk_runs : forall c, is_Some (runs g !! c) -> (c < length (commands (runtime g)))%nat;
  gk_cmd : forall n x, gnodes g !! n = Some x -> (m_cmd x < length (commands (runtime g)))%nat;
  gk_inj : forall n x i y, gnodes g !! n = Some x -> gnodes g !! i = Some y -> m_cmd x = m_cmd y -> n = i;
}.

(** The node is a list of kernels. *)
Definition is_list (g : gworld) (n : nat) : Prop := exists x, gnodes g !! n = Some x /\ is_Some (runs g !! m_cmd x).

Lemma list_not_in_graph g n h l : gok g -> is_list g n -> graphs g !! h = Some (Some l) -> n ∉ l.
Proof.
  intros Hg (x & Hx & [r Hr]) Hl Hn. destruct (gk_node _ Hg h l n Hl Hn) as (y & Hy & _ & E & _). congruence.
Qed.

Lemma lookup_add_dep a b ns i :
  add_dep_node a b ns !! i = (fun x => (if decide (i = a) then add_dep b else id) ((if decide (i = b) then add_child a else id) x)) <$> ns !! i.
Proof.
  unfold add_dep_node. destruct (decide (i = a)) as [->|Ha].
  - rewrite list_lookup_alter_eq. destruct (decide (a = b)) as [->|Hb]; [by rewrite list_lookup_alter_eq, <- option_fmap_compose|rewrite list_lookup_alter_ne by done; by destruct (ns !! a)].
  - rewrite list_lookup_alter_ne by done. destruct (decide (i = b)) as [->|Hb]; [by rewrite list_lookup_alter_eq|rewrite list_lookup_alter_ne by done; by destruct (ns !! i)].
Qed.

Lemma occ_snoc x l y : occ x (l ++ [y]) = (occ x l + (if decide (y = x) then 1 else 0))%nat.
Proof. unfold occ. rewrite filter_app, length_app, filter_cons, filter_nil. by destruct (decide (y = x)). Qed.

(** What a node is after [add_dep_node]. *)
Lemma add_dep_lookup a b ns i x' :
  add_dep_node a b ns !! i = Some x' -> exists x, ns !! i = Some x /\ m_cmd x' = m_cmd x /\ alive x' = alive x /\
    m_deps_list x' = m_deps_list x ++ (if decide (i = a) then [b] else []) /\ m_children x' = m_children x ++ (if decide (i = b) then [a] else []).
Proof.
  rewrite lookup_add_dep. destruct (ns !! i) as [x|]; [|done]. intros [= <-]. exists x. split; [done|].
  destruct (decide (i = a)), (decide (i = b)); cbn; rewrite ?app_nil_r; done.
Qed.

Lemma occ_app x l k : occ x (l ++ k) = (occ x l + occ x k)%nat.
Proof. unfold occ. by rewrite filter_app, length_app. Qed.

Lemma gok_add_dep g a b :
  gok g -> is_Some (gnodes g !! a) -> is_Some (gnodes g !! b) -> (forall h l, graphs g !! h = Some (Some l) -> a ∈ l -> b ∈ l /\ (b < a)%nat) -> gok (on_nodes (add_dep_node a b) g).
Proof.
  intros [K1 K2 K3 K4 K5 K6 K7] Ha Hb Hab. assert (length (add_dep_node a b (gnodes g)) = length (gnodes g)) as El by (unfold add_dep_node; by rewrite !length_alter).
  split; [done| | | |done| |].
  - intros h l n Hl Hn. destruct (K2 h l n Hl Hn) as (x & Hx & A1 & A2 & A3 & A4). cbn. rewrite lookup_add_dep, Hx. eexists. split; [reflexivity|].
    assert (forall f : graph_node -> graph_node, f = add_child a \/ f = id -> m_cmd (f x) = m_cmd x /\ alive (f x) = alive x /\ m_deps_list (f x) = m_deps_list x) as Hf by by intros f [->| ->].
    destruct (Hf (if decide (n = b) then add_child a else id)) as (E1 & E2 & E3); [destruct (decide (n = b)); auto|]. set (y := (if decide (n = b) then _ else _) x) in *.
    destruct (decide (n = a)) as [->|]; cbn; rewrite E1, E2, E3; (split_and!; [done..|]); [|done]. intros d [Hd|Hd]%elem_of_app; [by apply A4|].
    apply list_elem_of_singleton in Hd as ->. by eapply Hab.
  - intros n x' c y'. cbn. intros Hx' Hy'. destruct (add_dep_lookup _ _ _ _ _ Hx') as (x & Hx & _ & _ & _ & ->). destruct (add_dep_lookup _ _ _ _ _ Hy') as (y & Hy & _ & _ & -> & _).
    rewrite !occ_app, (K3 n x c y Hx Hy). f_equal. unfold occ. destruct (decide (n = b)) as [->|], (decide (c = a)) as [->|]; rewrite ?filter_cons, ?filter_nil; cbn; rewrite ?decide_True, ?decide_False by done; done.
  - intros n x' i. cbn. rewrite El. intros Hx'. destruct (add_dep_lookup _ _ _ _ _ Hx') as (x & Hx & _ & _ & -> & ->).
    intros [[Hi|Hi]%elem_of_app|[Hi|Hi]%elem_of_app]; [by eapply K4; [|left]| |by eapply K4; [|right]|].
    + destruct (decide (n = b)); [|set_solver]. apply list_elem_of_singleton in Hi as ->. destruct Ha as [? Ha]. by eapply lookup_lt_Some.
    + destruct (decide (n = a)); [|set_solver]. apply list_elem_of_singleton in Hi as ->. destruct Hb as [? Hb]. by eapply lookup_lt_Some.
  - intros n x' Hx'. destruct (add_dep_lookup _ _ _ _ _ Hx') as (x & Hx & -> & _). by eapply K6.
  - intros n x' i y' Hx' Hy'. destruct (add_dep_lookup _ _ _ _ _ Hx') as (x & Hx & -> & _), (add_dep_lookup _ _ _ _ _ Hy') as (y & Hy & -> & _). by apply K7.
Qed.

(** * Making an instance *)

(** What is never taken away while an instance is made. *)
Record gext (g g' : gworld) : Prop := {
  ge_graphs : graphs g' = graphs g;
  ge_nodes : forall n x, gnodes g !! n = Some x -> exists x', gnodes g' !! n = Some x' /\ m_cmd x' = m_cmd x;
  ge_runs : forall c, is_Some (runs g !! c) -> is_Some (runs g' !! c);
}.

#[export] Instance gext_preorder : PreOrder gext.
Proof.
  split; [intros g; split; [done|intros n x Hx; by exists x|done]|]. intros g1 g2 g3 [H1 H2 H3] [H4 H5 H6]. split; [congruence| |auto].
  intros n x Hx. destruct (H2 n x Hx) as (y & Hy & E1), (H5 n y Hy) as (z & Hz & E2). exists z. split; [done|congruence].
Qed.

Lemma ext_some g g' n : gext g g' -> is_Some (gnodes g !! n) -> is_Some (gnodes g' !! n).
Proof. intros He [x Hx]. destruct (ge_nodes _ _ He n x Hx) as (y & Hy & _). by exists y. Qed.

Lemma ext_list g g' n : gext g g' -> is_list g n -> is_list g' n.
Proof. intros He (x & Hx & Hr). destruct (ge_nodes _ _ He n x Hx) as (y & Hy & E). exists y. split; [done|]. rewrite E. by apply (ge_runs _ _ He). Qed.

Lemma list_some g n : is_list g n -> is_Some (gnodes g !! n).
Proof. intros (x & Hx & _). by exists x. Qed.

Definition builds {A} (m : G A) (g : gworld) (Q : A -> gworld -> Prop) : Prop :=
  wp m (fun a g' => gok g' /\ gext g g' /\ Q a g') (fun _ g' => gok g' /\ gext g g') g.

Lemma builds_ret {A} (a : A) g Q : gok g -> Q a g -> builds (ret a) g Q.
Proof. intros. by apply wp_ret. Qed.

Lemma builds_raise {A} e g (Q : A -> gworld -> Prop) : gok g -> builds (raise e) g Q.
Proof. intros. by apply wp_raise. Qed.

Lemma builds_bind {A B} (m : G A) (k : A -> G B) g Q Q' :
  builds m g Q -> (forall a g', gok g' -> gext g g' -> Q a g' -> builds (k a) g' Q') -> builds (bind m k) g Q'.
Proof.
  intros Hm Hk. apply wp_bind. eapply wp_mono; [exact Hm| |done]. cbn. intros a g' (Hg & He & HQ).
  eapply wp_mono; [by apply (Hk a g')| |]; cbn; [intros ? g'' (? & ? & ?)|intros ? g'' (? & ?)]; (split_and?; [done|by etrans|..]); done.
Qed.

Lemma builds_node {A} n (k : graph_node -> G A) g Q : gok g -> (forall x, gnodes g !! n = Some x -> builds (k x) g Q) -> builds (bind (get_node n) k) g Q.
Proof. intros Hg Hk. unfold builds, wp, bind, get_node. destruct (gnodes g !! n) as [x|] eqn:E; [apply (Hk x eq_refl)|done]. Qed.

Lemma builds_cmd {A} c (k : command -> G A) g Q : gok g -> (forall x, commands (runtime g) !! c = Some x -> builds (k x) g Q) -> builds (bind (lift (get_cmd c)) k) g Q.
Proof.
  intros Hg Hk. assert (on_runtime (fun _ => runtime g) g = g) as Eg by by destruct g. unfold builds, wp, bind, lift, get_cmd.
  destruct (commands (runtime g) !! c) as [x|] eqn:E; rewrite Eg; [apply (Hk x eq_refl)|done].
Qed.

Lemma gok_new_node g c :
  gok g -> (c < length (commands (runtime g)))%nat -> (forall n x, gnodes g !! n = Some x -> m_cmd x <> c) -> gok (on_nodes (fun l => l ++ [new_node c]) g).
Proof.
  intros [K1 K2 K3 K4 K5 K6 K7] Hc Hnew. assert (forall n x', (gnodes g ++ [new_node c]) !! n = Some x' -> gnodes g !! n = Some x' \/ (n = length (gnodes g) /\ x' = new_node c)) as Hb.
  { intros n x' [Hx|[Hle Hx]]%lookup_app_Some; [by left|]. apply list_lookup_singleton_Some in Hx as [E <-]. right. split; [lia|done]. }
  assert (forall n x, gnodes g !! n = Some x -> occ (length (gnodes g)) (m_children x) = 0%nat /\ occ (length (gnodes g)) (m_deps_list x) = 0%nat) as Hno.
  { intros n x Hx. split; apply Nat.le_0_r, Nat.nlt_ge; intros Hin%occ_elem; [pose proof (K4 n x _ Hx (or_introl Hin))|pose proof (K4 n x _ Hx (or_intror Hin))]; lia. }
  split; [done| | | |done| |].
  - intros h l n Hl Hn. destruct (K2 h l n Hl Hn) as (x & Hx & ?). exists x. split; [by apply lookup_app_l_Some|done].
  - intros n x i y Hx Hy. destruct (Hb n x Hx) as [Hx'|[-> ->]], (Hb i y Hy) as [Hy'|[-> ->]]; [by apply K3|by apply (Hno n x)|symmetry; by apply (Hno i y)|done].
  - intros n x i Hx Hi. cbn. rewrite length_app. destruct (Hb n x Hx) as [Hx'|[-> ->]]; [pose proof (K4 n x i Hx' Hi); lia|cbn in Hi; set_solver].
  - intros n x Hx. destruct (Hb n x Hx) as [Hx'|[-> ->]]; [by eapply K6|done].
  - intros n x i y Hx Hy E. destruct (Hb n x Hx) as [Hx'|[-> ->]], (Hb i y Hy) as [Hy'|[-> ->]]; [by eapply K7|by destruct (Hnew n x Hx')|by destruct (Hnew i y Hy')|done].
Qed.

Lemma gok_runtime g w : gok g -> (length (commands (runtime g)) <= length (commands w))%nat -> gok (on_runtime (fun _ => w) g).
Proof.
  intros [K1 K2 K3 K4 K5 K6 K7] Hle. split; [done| |done|done| | |done].
  - intros h l n Hl Hn. destruct (K2 h l n Hl Hn) as (x & Hx & A1 & A2 & A3 & A4). exists x. split_and!; [done..|cbn; lia|done].
  - intros c Hc. specialize (K5 c Hc). cbn. lia.
  - intros n x Hx. specialize (K6 n x Hx). cbn. lia.
Qed.

Section instance.
Context (get_hw_ctx : nat -> option nat).

Lemma builds_dep g a b (Q : unit -> gworld -> Prop) :
  gok g -> is_list g a -> is_Some (gnodes g !! b) -> Q tt (on_nodes (add_dep_node a b) g) -> builds (modify (on_nodes (add_dep_node a b))) g Q.
Proof.
  intros Hg Ha Hb HQ. apply wp_modify. split_and!; [|split; [done| |done]|done].
  - apply gok_add_dep; [done|by apply list_some|done|]. intros h l Hl Hin. by destruct (list_not_in_graph g a h l Hg Ha Hl).
  - intros n x Hx. cbn. rewrite lookup_add_dep, Hx. eexists. split; [reflexivity|]. by destruct (decide (n = a)), (decide (n = b)).
Qed.

Lemma builds_resolve m kl ds g :
  gok g -> is_list g kl -> (forall d l, m !! d = Some l -> is_Some (gnodes g !! l)) -> builds (resolve m kl ds) g (fun _ _ => True).
Proof.
  revert g. induction ds as [|d ds IH]; intros g Hg Hkl Hm; cbn [resolve]; [by apply builds_ret|].
  apply builds_node; [done|]. intros x Hx. apply builds_cmd; [done|]. intros cmd _. eapply (builds_bind _ _ _ (fun _ _ => True)).
  - destruct (negb _); [by apply builds_dep; [| |exists x|]|]. destruct (m !! d) as [l|] eqn:El; [|by apply builds_dep; [| |exists x|]].
    destruct (l =? kl)%nat; [by apply builds_ret|]. by apply builds_dep; [| |eapply Hm|].
  - intros _ g' Hg' He _. apply IH; [done|by eapply ext_list|]. intros i l Hi. eapply ext_some; [done|by eapply Hm].
Qed.

Lemma gok_runs_new g c r : gok g -> (forall h l n x, graphs g !! h = Some (Some l) -> n ∈ l -> gnodes g !! n = Some x -> m_cmd x <> c) -> (c < length (commands (runtime g)))%nat -> gok (on_runs (<[c := r]>) g).
Proof.
  intros [K1 K2 K3 K4 K5 K6 K7] Hc Hlt. split; [done| |done|done| |done|done].
  - intros h l n Hl Hn. destruct (K2 h l n Hl Hn) as (x & Hx & A1 & A2 & A3 & A4). exists x. split_and!; [done|done| |done|done]. cbn. rewrite lookup_insert_ne; [done|]. symmetry. by eapply Hc.
  - intros i. cbn. destruct (decide (i = c)) as [->|]; [done|]. rewrite lookup_insert_ne by done. apply K5.
Qed.

Lemma builds_new_list ctx g : gok g -> builds (new_list ctx) g (fun n g' => is_list g' n).
Proof.
  intros Hg. unfold new_list. set (cmd := set_cached false _). set (c := length (commands (runtime g))). set (w := on_commands (fun l => l ++ [cmd]) (runtime g)).
  set (g1 := on_runtime (fun _ => w) g). set (g2 := on_runs (<[c := (ctx, [])]>) g1). set (g3 := on_nodes (fun l => l ++ [new_node c]) g2).
  assert (length (commands w) = S c) as Ew by (cbn; rewrite length_app; cbn; lia).
  assert (gok g1) as Hg1 by (apply gok_runtime; [done|rewrite Ew; lia]).
  assert (gok g2) as Hg2.
  { apply gok_runs_new; [done| |change (commands (runtime g1)) with (commands w); lia]. intros h l n x Hl Hn Hx E. destruct (gk_node _ Hg h l n Hl Hn) as (y & Hy & _ & _ & Hlt & _). cbn in Hx. assert (y = x) as -> by congruence. lia. }
  change (gok g3 /\ gext g g3 /\ is_list g3 (length (gnodes g))). split_and!; [apply gok_new_node; [done|change (commands (runtime g2)) with (commands w); lia|intros n x Hx; pose proof (gk_cmd _ Hg n x Hx); subst c; lia]| |].
  - split; [done| |].
    + intros n x Hx. exists x. split; [by apply lookup_app_l_Some|done].
    + intros i Hi. cbn. destruct (decide (i = c)) as [->|]; [by rewrite lookup_insert_eq|by rewrite lookup_insert_ne].
  - exists (new_node c). split; [by apply list_lookup_middle|]. cbn. by rewrite lookup_insert_eq.
Qed.

Lemma builds_add_run kl c g : gok g -> builds (add_run kl c) g (fun _ _ => True).
Proof.
  intros Hg. apply builds_node; [done|]. intros x Hx. apply wp_modify. assert (forall i, is_Some (alter (fun '(ctx, l) => (ctx, l ++ [c])) (m_cmd x) (runs g) !! i) <-> is_Some (runs g !! i)) as Ha.
  { intros i. destruct (decide (i = m_cmd x)) as [->|]; [rewrite lookup_alter_eq; apply fmap_is_Some|by rewrite lookup_alter_ne]. }
  split_and!; [|split; [done|by intros n y Hy; exists y|by intros i; apply Ha]|done]. destruct Hg as [K1 K2 K3 K4 K5 K6 K7]. split; [done| |done|done| |done|done].
  - intros h l n Hl Hn. destruct (K2 h l n Hl Hn) as (y & Hy & A1 & A2 & A3 & A4). exists y. split_and!; [done|done| |done|done]. cbn. apply eq_None_not_Some. intros Hs%Ha. by rewrite A2 in Hs; destruct Hs.
  - intros i Hi%Ha. by apply K5.
Qed.

Lemma builds_group ordered nl m g :
  gok g -> (forall n, n ∈ nl -> is_Some (gnodes g !! n)) -> (forall d l, m !! d = Some l -> is_Some (gnodes g !! l)) -> builds (group get_hw_ctx ordered nl m) g (fun _ _ => True).
Proof.
  revert nl m g. induction ordered as [|n ordered IH]; intros nl m g Hg Hnl Hm; cbn [group]; [by apply builds_ret|].
  apply builds_node; [done|]. intros x Hx. apply builds_cmd; [done|]. intros cmd _. destruct (negb _).
  { apply IH; [done| |done]. intros i [Hi|Hi]%elem_of_app; [by apply Hnl|]. apply list_elem_of_singleton in Hi as ->. by exists x. }
  destruct (get_hw_ctx (m_cmd x)) as [ctx|]; [|by apply builds_raise].
  eapply (builds_bind _ _ _ (fun o g' => g' = g /\ forall kl, o = Some kl -> is_list g kl)).
  { unfold last_list. destruct (last nl) as [i|]; [|by apply builds_ret]. apply builds_node; [done|]. intros y Hy.
    unfold builds, wp, bind, gets, ret. destruct (runs g !! m_cmd y) as [[c' ?]|] eqn:Er; (split_and!; [done|done|done|]); [|done].
    destruct (c' =? ctx)%nat; [|done]. intros kl [= <-]. exists y. by split. }
  intros o ? _ _ [-> Ho]. eapply (builds_bind _ _ _ (fun r g' => is_list g' r.1 /\ forall i, i ∈ r.2 -> is_Some (gnodes g' !! i))).
  { destruct o as [kl|].
    - eapply builds_bind; [by apply builds_add_run|]. intros _ g1 Hg1 He1 _. apply builds_ret; [done|]. cbn. split; [eapply ext_list; [done|by apply Ho]|]. intros i Hi. by eapply ext_some, Hnl.
    - eapply builds_bind; [by apply builds_new_list|]. intros kl g1 Hg1 He1 Hkl. eapply builds_bind; [by apply builds_add_run|]. intros _ g2 Hg2 He2 _. apply builds_ret; [done|]. cbn.
      assert (is_list g2 kl) as Hkl2 by by eapply ext_list. split; [done|]. intros i [Hi|Hi]%elem_of_app; [eapply ext_some; [|by apply Hnl]; by etrans|]. apply list_elem_of_singleton in Hi as ->. by apply list_some. }
  intros [kl nl'] g1 Hg1 He1 [Hkl Hnl']. cbn in Hkl, Hnl'. assert (forall d l, <[n := kl]> m !! d = Some l -> is_Some (gnodes g1 !! l)) as Hm1.
  { intros d l. destruct (decide (d = n)) as [->|]; [rewrite lookup_insert_eq; intros [= <-]; by apply list_some|rewrite lookup_insert_ne by done; intros Hl; by eapply ext_some, Hm]. }
  eapply builds_bind; [by apply builds_resolve|]. intros _ g2 Hg2 He2 _. apply IH; [done| |].
  - intros i Hi. by eapply ext_some, Hnl'.
  - intros d l Hl. by eapply ext_some, Hm1.
Qed.

Lemma builds_init l g : gok g -> builds (init_exec get_hw_ctx l) g (fun _ _ => True).
Proof. intros Hg. unfold init_exec. apply wp_bind, wp_gets. destruct (get_ordered_nodes _ _); [apply builds_group; [done|set_solver|done]|by apply builds_raise]. Qed.
End instance.

(** * Calls of the application *)

Inductive graph_call :=
| GraphCreate | GraphDestroy (h : nat) | AddKernel (h : nat) (ds : list nat) | AddEmpty (h : nat) (ds : list nat) | AddMemcpy (h : nat) (ds : list nat) (count : Z)
| AddMemset (h : nat) (ds : list nat) (offset mem_size element_size width height : Z) | AddEventRecord (h : nat) (ds : list nat) (ev : nat)
| AddEventWait (h : nat) (ds : list nat) (ev : nat) | Instantiate (h : nat) | ExecDestroy (e : nat).

(** The handles of nodes that a call uses. *)
Definition handles (a : graph_call) : list nat :=
  match a with
  | AddKernel _ ds | AddEmpty _ ds | AddMemcpy _ ds _ | AddMemset _ ds _ _ _ _ _ | AddEventRecord _ ds _ | AddEventWait _ ds _ => ds
  | _ => []
  end.

Definition drop_result {A} (m : G A) : G unit := _ <- m ;; ret tt.

Section calls.
Context (get_hw_ctx : nat -> option nat).

Definition run_graph (a : graph_call) : G unit :=
  match a with
  | GraphCreate => drop_result hip_graph_create
  | GraphDestroy h => hip_graph_destroy h
  | AddKernel h ds => drop_result (hip_graph_add_kernel_node h ds)
  | AddEmpty h ds => drop_result (hip_graph_add_empty_node h ds)
  | AddMemcpy h ds count => drop_result (hip_graph_add_memcpy_node_1d h ds count)
  | AddMemset h ds offset mem_size element_size width height => drop_result (hip_graph_add_memset_node h ds offset mem_size element_size width height)
  | AddEventRecord h ds ev => drop_result (hip_graph_add_event_record_node h ds ev)
  | AddEventWait h ds ev => drop_result (hip_graph_add_event_wait_node h ds ev)
  | Instantiate h => drop_result (hip_graph_instantiate get_hw_ctx h)
  | ExecDestroy e => hip_graph_exec_destroy e
  end.

Definition world_after {A} (r : result gworld stop A) : gworld := match r with Ok _ g | Err _ g => g end.

(** An application only has handles of nodes that exist.  Between its calls on graphs the
    runtime may change in any way, as long as commands are not forgotten. *)
Inductive graph_reach : gworld -> Prop :=
| gr_empty w : graph_reach (GWorld w [] [] [] ∅)
| gr_call a g : graph_reach g -> Forall (fun d => (d < length (gnodes g))%nat) (handles a) -> graph_reach (world_after (run_graph a g))
| gr_runtime w g : graph_reach g -> (length (commands (runtime g)) <= length (commands w))%nat -> graph_reach (on_runtime (fun _ => w) g).

(** The call ends in a world with the invariant. *)
Definition stays {A} (m : G A) (g : gworld) : Prop := wp m (fun _ g' => gok g') (fun _ g' => gok g') g.

Lemma stays_builds {A} (m : G A) g Q : builds m g Q -> stays m g.
Proof. intros Hm. eapply wp_mono; [exact Hm| |]; cbn; naive_solver. Qed.

Lemma stays_bind {A B} (m : G A) (k : A -> G B) g : stays m g -> (forall a g', gok g' -> stays (k a) g') -> stays (bind m k) g.
Proof. intros Hm Hk. apply wp_bind. eapply wp_mono; [exact Hm| |done]. cbn. intros a g' Hg. by apply Hk. Qed.

Lemma stays_ret {A} (a : A) g : gok g -> stays (ret a) g.
Proof. intros. by apply wp_ret. Qed.

Lemma stays_drop {A} (m : G A) g : stays m g -> stays (drop_result m) g.
Proof. intros Hm. apply stays_bind; [done|]. intros a g' Hg. by apply stays_ret. Qed.

Lemma some_add_dep a b ns n : is_Some (ns !! n) -> is_Some (add_dep_node a b ns !! n).
Proof. intros Hn. rewrite lookup_add_dep. by apply fmap_is_Some. Qed.

(** The dependencies of a node that has just been made. *)
Lemma stays_dependencies h n ds l0 g :
  gok g -> is_Some (gnodes g !! n) -> graphs g !! h = Some (Some (l0 ++ [n])) -> Forall (fun d => (d < n)%nat) ds ->
  (forall h' l, graphs g !! h' = Some (Some l) -> n ∈ l -> h' = h) -> stays (add_node_dependencies h n ds) g.
Proof.
  revert g. induction ds as [|d ds IH]; intros g Hg Hn Hl Hds Huniq; [by apply stays_ret|]. apply Forall_cons in Hds as [Hd Hds].
  unfold add_node_dependencies. cbn [for_each]. apply wp_bind, wp_bind. unfold wp at 1, get_graph. rewrite Hl. case_bool_decide as Hin; [|by apply wp_raise]. apply wp_modify.
  apply IH; [|by apply some_add_dep|done|done|done].
  apply gok_add_dep; [done|done| |].
  - destruct (gk_node _ Hg h _ d Hl Hin) as (x & Hx & _). by exists x.
  - intros h' l Hl' Hnl. assert (h' = h) as -> by by eapply Huniq. rewrite Hl in Hl'. injection Hl' as <-. done.
Qed.

Lemma graph_nodes_below g h l n : gok g -> graphs g !! h = Some (Some l) -> n ∈ l -> (n < length (gnodes g))%nat.
Proof. intros Hg Hl Hn. destruct (gk_node _ Hg h l n Hl Hn) as (x & Hx & _). by eapply lookup_lt_Some. Qed.

(** A new node with a command of its own joins a graph. *)
Lemma gok_join g h l0 c :
  gok g -> graphs g !! h = Some (Some l0) -> runs g !! c = None -> (c < length (commands (runtime g)))%nat -> (forall n x, gnodes g !! n = Some x -> m_cmd x <> c) ->
  gok (on_graphs (alter (fmap (fun l => l ++ [length (gnodes g)])) h) (on_nodes (fun l => l ++ [new_node c]) g)).
Proof.
  intros Hg Hl Hr Hc Hnew. pose proof (gok_new_node g c Hg Hc Hnew) as [K1 K2 K3 K4 K5 K6 K7]. set (n := length (gnodes g)).
  assert (forall h' l, alter (fmap (fun l => l ++ [n])) h (graphs g) !! h' = Some (Some l) -> graphs g !! h' = Some (Some l) \/ (h' = h /\ l = l0 ++ [n])) as Hb.
  { intros h' l. destruct (decide (h' = h)) as [->|]; [|rewrite list_lookup_alter_ne by done; by left]. rewrite list_lookup_alter_eq, Hl. intros [= <-]. by right. }
  split; [| |done|done|done|done|done].
  - intros h' l Hl'. destruct (Hb h' l Hl') as [?|[-> ->]]; [by eapply K1|]. apply NoDup_app. split_and!; [by eapply (gk_graph _ Hg)| |apply NoDup_singleton].
    intros i Hi ->%list_elem_of_singleton. pose proof (graph_nodes_below g h l0 _ Hg Hl Hi). subst n. lia.
  - intros h' l i Hl' Hi. destruct (Hb h' l Hl') as [?|[-> ->]]; [by eapply K2|]. apply elem_of_app in Hi as [Hi|Hi].
    + destruct (K2 h l0 i Hl Hi) as (x & Hx & A1 & A2 & A3 & A4). exists x. split_and!; [done..|]. intros d Hd. destruct (A4 d Hd). split; [set_solver|done].
    + apply list_elem_of_singleton in Hi as ->. exists (new_node c). split_and!; [by apply list_lookup_middle|done|done|done|]. cbn. set_solver.
Qed.

Lemma stays_add h x ds g : gok g -> Forall (fun d => (d < length (gnodes g))%nat) ds -> stays (hip_graph_add_node h x ds) g.
Proof.
  intros Hg Hds. apply wp_bind. unfold wp at 1, get_graph. destruct (graphs g !! h) as [[l0|]|] eqn:Hl; [|done|done].
  set (c := length (commands (runtime g))). set (w := on_commands (fun l => l ++ [set_cached false x]) (runtime g)). set (g1 := on_runtime (fun _ => w) g).
  assert (length (commands w) = S c) as Ew by (cbn; rewrite length_app; cbn; lia). assert (gok g1) as Hg1 by (apply gok_runtime; [done|rewrite Ew; lia]).
  set (n := length (gnodes g)). set (g2 := on_graphs (alter (fmap (fun l => l ++ [n])) h) (on_nodes (fun l => l ++ [new_node c]) g1)).
  assert (gok g2) as Hg2.
  { apply (gok_join g1 h l0 c Hg1 Hl); [|change (commands (runtime g1)) with (commands w); lia|intros i y Hy; pose proof (gk_cmd _ Hg i y Hy); subst c; lia]. apply eq_None_not_Some. intros Hs%(gk_runs _ Hg). subst c. lia. }
  change (stays (add_node_dependencies h n ds ;;; ret n) g2). apply stays_bind; [|intros _ g' Hg'; by apply stays_ret].
  apply (stays_dependencies h n ds l0); [done|exists (new_node c); by apply list_lookup_middle|cbn; by rewrite list_lookup_alter_eq, Hl|done|].
  intros h' l. cbn. destruct (decide (h' = h)) as [->|]; [done|]. rewrite list_lookup_alter_ne by done. intros Hl' Hin. pose proof (graph_nodes_below g h' l n Hg Hl' Hin). subst n. lia.
Qed.

Lemma stays_lift {A} (m : H A) g : gok g -> (match m (runtime g) with Ok _ w | Err _ w => w end) = runtime g -> stays (lift m) g.
Proof.
  intros Hg Hm. unfold stays, wp, lift. assert (on_runtime (fun _ => runtime g) g = g) as E by by destruct g.
  destruct (m (runtime g)) as [a w|e w]; rewrite Hm, E; done.
Qed.

Lemma stays_get_graph {A} h (k : list nat -> G A) g : gok g -> (forall l, stays (k l) g) -> stays (bind (get_graph h) k) g.
Proof. intros Hg Hk. unfold stays, wp, bind, get_graph. destruct (graphs g !! h) as [[l|]|]; [apply Hk|done|done]. Qed.

(** An event of the cache. *)
Lemma stays_event {A} ev e (k : nat -> G A) g : gok g -> (forall i, stays (k i) g) -> stays (bind (lift (find_event ev e)) k) g.
Proof.
  intros Hg Hk. assert (on_runtime (fun _ => runtime g) g = g) as E by by destruct g. unfold stays, wp, bind, lift, find_event, bind, gets, raise, ret.
  destruct (commands (runtime g) !! ev) as [x|]; [destruct (cached x && bool_decide (ctype x = event))|]; rewrite E; [apply Hk|done|done].
Qed.

Lemma stays_kill g n : gok g -> is_list g n -> gok (on_nodes (alter (set_alive false) n) g).
Proof.
  intros Hg Hn. pose proof Hg as [K1 K2 K3 K4 K5 K6 K7]. assert (forall i x', alter (set_alive false) n (gnodes g) !! i = Some x' ->
    exists x, gnodes g !! i = Some x /\ m_children x' = m_children x /\ m_deps_list x' = m_deps_list x /\ m_cmd x' = m_cmd x) as Hb.
  { intros i x'. destruct (decide (i = n)) as [->|]; [rewrite list_lookup_alter_eq|rewrite list_lookup_alter_ne by done; by exists x'].
    destruct (gnodes g !! n) as [x|]; [|done]. intros [= <-]. by exists x. }
  split; [done| | | |done| |].
  - intros h l i Hl Hi. cbn. rewrite list_lookup_alter_ne; [by eapply K2|]. intros ->. by eapply list_not_in_graph.
  - intros i x' c y' Hx' Hy'. destruct (Hb i x' Hx') as (x & Hx & -> & _), (Hb c y' Hy') as (y & Hy & _ & -> & _). by apply K3.
  - intros i x' j Hx' Hj. cbn. rewrite length_alter. destruct (Hb i x' Hx') as (x & Hx & E1 & E2 & _). rewrite E1, E2 in Hj. by eapply K4.
  - intros i x' Hx'. destruct (Hb i x' Hx') as (x & Hx & _ & _ & ->). by eapply K6.
  - intros i x' c y' Hx' Hy'. destruct (Hb i x' Hx') as (x & Hx & _ & _ & ->), (Hb c y' Hy') as (y & Hy & _ & _ & ->). by apply K7.
Qed.

Lemma stays_graphs g f : gok g -> (forall h l, f (graphs g) !! h = Some (Some l) -> l = [] \/ graphs g !! h = Some (Some l)) -> gok (on_graphs f g).
Proof.
  intros [K1 K2 K3 K4 K5 K6 K7] Hf. split; [| |done|done|done|done|done].
  - intros h l Hl. destruct (Hf h l Hl) as [->|]; [by apply NoDup_nil_2|by eapply K1].
  - intros h l n Hl Hn. destruct (Hf h l Hl) as [->|]; [set_solver|by eapply K2].
Qed.

Lemma stays_run a g : gok g -> Forall (fun d => (d < length (gnodes g))%nat) (handles a) -> stays (run_graph a) g.
Proof.
  intros Hg Hds. destruct a; cbn [run_graph handles] in *.
  - apply stays_drop. apply wp_bind, wp_gets, wp_bind, wp_modify, wp_ret. apply stays_graphs; [done|]. intros h l [Hl|[_ Hl]]%lookup_app_Some; [by right|].
    apply list_lookup_singleton_Some in Hl as [_ [= <-]]. by left.
  - apply wp_modify, stays_graphs; [done|]. intros i l. destruct (decide (i = h)) as [->|]; [rewrite list_lookup_alter_eq; by destruct (graphs g !! h)|rewrite list_lookup_alter_ne by done; by right].
  - by apply stays_drop, stays_add.
  - by apply stays_drop, stays_add.
  - apply stays_drop. unfold hip_graph_add_memcpy_node_1d. apply wp_bind. assert (on_runtime (fun _ => runtime g) g = g) as E by by destruct g. unfold wp at 1, lift, throw_if, raise, ret.
    destruct (count =? 0); rewrite E; [done|by apply stays_add].
  - apply stays_drop, stays_get_graph; [done|]. intros _. destruct (memset_size _ _ _ _ _) as [[|]|]; [by apply stays_add|by apply wp_raise|by apply wp_raise].
  - apply stays_drop, stays_get_graph; [done|]. intros _. apply stays_event; [done|]. intros i. by apply stays_add.
  - apply stays_drop, stays_get_graph; [done|]. intros _. apply stays_event; [done|]. intros i. by apply stays_add.
  - apply stays_drop, stays_get_graph; [done|]. intros l. apply stays_bind; [by eapply stays_builds, builds_init|]. intros ex g' Hg'. apply wp_bind, wp_gets, wp_bind, wp_modify, wp_ret. by destruct Hg'.
  - apply wp_bind, wp_gets. apply (stays_bind _ _ g); [|intros _ g' Hg'; apply wp_modify; by destruct Hg']. apply (wp_for_each gok); [done|]. intros n g' _ Hg'.
    apply wp_bind. unfold wp at 1, get_node. destruct (gnodes g' !! n) as [x|] eqn:Hx; [|done]. apply wp_bind, wp_gets. destruct (runs g' !! m_cmd x) as [r|] eqn:Er; [|by apply wp_ret].
    apply wp_modify, stays_kill; [done|]. exists x. split; [done|]. by rewrite Er.
Qed.

Lemma graph_reach_ok g : graph_reach g -> gok g.
Proof.
  induction 1 as [w|a g Hr IH Hds|w g Hr IH Hle].
  - split; try done; cbn. intros c [? Hc]. by rewrite lookup_empty in Hc.
  - pose proof (stays_run a g IH Hds) as Hs. unfold stays, wp in Hs. by destruct (run_graph a g).
  - by apply gok_runtime.
Qed.
End calls.
