(* ===== verification/HipGraphPlaces.v ===== *)
(** Instances of graphs: where the command of a node is run, and that the dependencies of kernels
    are kept when kernels are grouped into lists. *)

From S2P Require Import Prelude HipStream HipGraph HipGraphOrder HipGraphBuild.

(** * Positions *)

Definition before (a b : nat) (l : list nat) : Prop := exists l1 l2, l = l1 ++ b :: l2 /\ a ∈ l1.

Lemma before_app a b l k : before a b l -> before a b (l ++ k).
Proof. intros (l1 & l2 & -> & Ha). exists l1, (l2 ++ k). by rewrite <- app_assoc. Qed.

Lemma before_last a b l : a ∈ l -> before a b (l ++ [b]).
Proof. intros Ha. by exists l, []. Qed.

Definition place (m : gmap nat nat) (d : nat) : nat := default d (m !! d).

(** A change of the dependencies of one node. *)
Record deps_only (kl : nat) (g g' : gworld) : Prop := {
  do_runtime : runtime g' = runtime g;
  do_runs : runs g' = runs g;
  do_back : forall n x, gnodes g !! n = Some x -> exists x', gnodes g' !! n = Some x' /\ m_cmd x' = m_cmd x;
  do_other : forall n, n <> kl -> get_deps_list (gnodes g') n = get_deps_list (gnodes g) n;
  do_self : get_deps_list (gnodes g) kl ⊆ get_deps_list (gnodes g') kl;
}.

#[export] Instance deps_only_preorder kl : PreOrder (deps_only kl).
Proof.
  split; [intros g; split; try done; intros n x Hx; by exists x|]. intros g1 g2 g3 [H1 H2 H3 H4 H5] [K1 K2 K3 K4 K5]. split; [congruence..| | |].
  - intros n x Hx. destruct (H3 n x Hx) as (y & Hy & E1), (K3 n y Hy) as (z & Hz & E2). exists z. split; [done|congruence].
  - intros n Hn. by rewrite K4, H4.
  - set_solver.
Qed.

Lemma get_deps_add a b ns n : is_Some (ns !! a) -> get_deps_list (add_dep_node a b ns) n = get_deps_list ns n ++ (if decide (n = a) then [b] else []).
Proof.
  intros Ha. unfold get_deps_list. rewrite lookup_add_dep. destruct (ns !! n) as [x|] eqn:E.
  - destruct (decide (n = a)), (decide (n = b)); cbn; rewrite ?app_nil_r; done.
  - destruct (decide (n = a)) as [->|]; [|done]. rewrite E in Ha. by destruct Ha.
Qed.

Lemma deps_only_add kl b g : is_Some (gnodes g !! kl) -> deps_only kl g (on_nodes (add_dep_node kl b) g).
Proof.
  intros Hk. split; [done|done| | |].
  - intros n x Hx. cbn. rewrite lookup_add_dep, Hx. eexists. split; [reflexivity|]. by destruct (decide (n = kl)), (decide (n = b)).
  - intros n Hn. cbn. rewrite get_deps_add, decide_False by done. by rewrite app_nil_r.
  - cbn. rewrite get_deps_add by done. set_solver.
Qed.

(** The node runs a kernel. *)
Definition kernel_node (g : gworld) (n : nat) : Prop :=
  exists x cmd, gnodes g !! n = Some x /\ commands (runtime g) !! m_cmd x = Some cmd /\ ctype cmd = kernel_start.

Lemma resolve_spec m kl ds g :
  is_Some (gnodes g !! kl) -> (forall d, d ∈ ds -> ~ kernel_node g d -> m !! d = None) ->
  wp (resolve m kl ds) (fun _ g' => deps_only kl g g' /\ (forall d, d ∈ ds -> place m d = kl \/ place m d ∈ get_deps_list (gnodes g') kl) /\ (forall i, i ∈ get_deps_list (gnodes g') kl -> i ∈ get_deps_list (gnodes g) kl \/ i ∈ (place m <$> ds))) (fun _ _ => True) g.
Proof.
  revert g. induction ds as [|d ds IH]; intros g Hkl Hm; cbn [resolve]; [apply wp_ret; split_and!; [done|set_solver|by left]|].
  apply wp_bind. unfold wp at 1, get_node. destruct (gnodes g !! d) as [x|] eqn:Hx; [|done]. apply wp_bind. unfold wp at 1, lift, get_cmd.
  assert (on_runtime (fun _ => runtime g) g = g) as Eg by by destruct g. destruct (commands (runtime g) !! m_cmd x) as [cmd|] eqn:Hc; [|done]. rewrite Eg.
  apply wp_bind. apply (wp_mono _ (fun _ g1 => deps_only kl g g1 /\ (place m d = kl \/ place m d ∈ get_deps_list (gnodes g1) kl) /\ forall i, i ∈ get_deps_list (gnodes g1) kl -> i ∈ get_deps_list (gnodes g) kl \/ i = place m d) _ (fun _ _ => True)); [| |done].
  - assert (forall b, deps_only kl g (on_nodes (add_dep_node kl b) g) /\ b ∈ get_deps_list (gnodes (on_nodes (add_dep_node kl b) g)) kl /\ forall i, i ∈ get_deps_list (gnodes (on_nodes (add_dep_node kl b) g)) kl -> i ∈ get_deps_list (gnodes g) kl \/ i = b) as Hadd.
    { intros b. split; [by apply deps_only_add|]. cbn. rewrite get_deps_add, decide_True by done. set_solver. }
    unfold place. case_bool_decide as Ht; cbn [negb].
    + destruct (m !! d) as [l|] eqn:El; cbn; [destruct (Nat.eqb_spec l kl) as [->|]; [apply wp_ret; split_and!; [done|by left|by left]|]|]; apply wp_modify; (split_and!; [apply Hadd|right; apply Hadd|apply Hadd]).
    + rewrite Hm; [|apply elem_of_cons; by left|intros (x' & cmd' & ? & ? & ?); congruence]. cbn. apply wp_modify. split_and!; [apply Hadd|right; apply Hadd|apply Hadd].
  - intros _ g1 (Hd1 & Hp & Hu). eapply wp_mono; [apply IH| |done].
    + destruct Hkl as [y Hy]. destruct (do_back _ _ _ Hd1 kl y Hy) as (z & Hz & _). by exists z.
    + intros i Hi Hk. apply Hm; [set_solver|]. intros (x' & cmd' & Hx' & Hc' & Ht). apply Hk. destruct (do_back _ _ _ Hd1 i x' Hx') as (z & Hz & Ez). exists z, cmd'. by rewrite Ez, (do_runtime _ _ _ Hd1).
    + cbn. intros _ g2 (Hd2 & Hp2 & Hu2). split_and!; [by etrans| |].
      * intros i [->|Hi]%elem_of_cons; [|by apply Hp2]. destruct Hp as [?|Hp]; [by left|right]. by apply (do_self _ _ _ Hd2).
      * intros i Hi. csimpl. destruct (Hu2 i Hi) as [Hi2|?]; [|right; set_solver]. destruct (Hu i Hi2) as [?| ->]; [by left|right; set_solver].
Qed.

(** * Grouping *)

Definition cmd_of (g : gworld) (n : nat) : nat := default 0%nat (m_cmd <$> gnodes g !! n).
Definition runs_of (g : gworld) (kl : nat) : list nat := default [] (snd <$> runs g !! cmd_of g kl).

(** What is kept while the nodes [L] of a graph are grouped. *)
Record frame (L : list nat) (g g' : gworld) : Prop := {
  fr_ext : gext g g';
  fr_cmds : forall c x, commands (runtime g) !! c = Some x -> commands (runtime g') !! c = Some x;
  fr_deps : forall n, n ∈ L -> get_deps_list (gnodes g') n = get_deps_list (gnodes g) n;
  fr_more : forall n, get_deps_list (gnodes g) n ⊆ get_deps_list (gnodes g') n;
  fr_runs : forall kl, is_list g kl -> runs_of g kl `prefix_of` runs_of g' kl;
}.

#[export] Instance frame_preorder L : PreOrder (frame L).
Proof.
  split; [by intros g; split|]. intros g1 g2 g3 [H1 H2 H3 H4 H5] [K1 K2 K3 K4 K5]. split; [by etrans|auto| |set_solver|].
  - intros n Hn. by rewrite K3, H3.
  - intros kl Hk. etrans; [by apply H5|]. apply K5. by eapply ext_list.
Qed.

Lemma ext_cmd_of g g' n : gext g g' -> is_Some (gnodes g !! n) -> cmd_of g' n = cmd_of g n.
Proof. intros He [x Hx]. destruct (ge_nodes _ _ He n x Hx) as (y & Hy & E). unfold cmd_of. rewrite Hx, Hy. done. Qed.

Lemma before_prefix a b l k : l `prefix_of` k -> before a b l -> before a b k.
Proof. intros [k' ->]. apply before_app. Qed.

(** The node is a list of kernels with a command of this type. *)
Definition kernel_list (g : gworld) (n : nat) : Prop := is_list g n /\ exists cmd, commands (runtime g) !! cmd_of g n = Some cmd /\ ctype cmd = kernel_list_start.

Lemma frame_kernel_list L g g' n : frame L g g' -> kernel_list g n -> kernel_list g' n.
Proof.
  intros Hf [Hl (cmd & Hc & Ht)]. split; [eapply ext_list; [apply Hf|done]|]. exists cmd. split; [|done]. rewrite (ext_cmd_of g g' n); [by apply Hf|apply Hf|by apply list_some].
Qed.

Section places.
Context (get_hw_ctx : nat -> option nat) (g0 : gworld) (L : list nat).
Abbreviation deps0 n := (get_deps_list (gnodes g0) n).

(** The nodes [P] have been grouped into [nl]. *)
Record placing (P nl : list nat) (m : gmap nat nat) (g : gworld) : Prop := {
  pl_ok : gok g;
  pl_frame : frame L g0 g;
  pl_nodup : NoDup nl;
  pl_nl : forall i, i ∈ nl -> (i ∈ P /\ ~ kernel_node g0 i) \/ kernel_list g i;
  pl_some : forall i, i ∈ nl -> is_Some (gnodes g !! i);
  pl_kernel : forall n, n ∈ P -> kernel_node g0 n -> is_Some (m !! n);
  pl_other : forall n, n ∈ P -> ~ kernel_node g0 n -> n ∈ nl;
  pl_map : forall n kl, m !! n = Some kl -> n ∈ P /\ kernel_node g0 n /\ kl ∈ nl /\ is_list g kl /\ cmd_of g0 n ∈ runs_of g kl;
  pl_rel : forall n kl d, m !! n = Some kl -> d ∈ deps0 n -> place m d = kl \/ (before (place m d) kl nl /\ place m d ∈ get_deps_list (gnodes g) kl);
  pl_plain : forall n d, n ∈ P -> ~ kernel_node g0 n -> d ∈ deps0 n -> ~ kernel_node g0 d -> before d n nl;
  pl_runs : forall n kl d, m !! n = Some kl -> m !! d = Some kl -> d ∈ deps0 n -> before (cmd_of g0 d) (cmd_of g0 n) (runs_of g kl);
}.

Lemma placing_frame P nl m g g' : placing P nl m g -> frame L g g' -> gok g' -> placing P nl m g'.
Proof.
  intros [P1 P2 P3 P4 P5 P6 P7 P8 P9 P11 P10] Hf Hg. assert (forall i, is_list g i -> is_list g' i) as Hl by (intros i; apply ext_list, Hf).
  split; [done|by etrans|done| | |done|done| | |done|].
  - intros i Hi. destruct (P4 i Hi); [by left|right]. by eapply frame_kernel_list.
  - intros i Hi. eapply ext_some; [apply Hf|by apply P5].
  - intros n kl Hm. destruct (P8 n kl Hm) as (A1 & A2 & A3 & A4 & A5). split_and!; [done|done|done|by apply Hl|]. destruct (fr_runs _ _ _ Hf kl A4) as [k ->]. set_solver.
  - intros n kl d Hm Hd. destruct (P9 n kl d Hm Hd) as [?|[B1 B2]]; [by left|right]. split; [done|by apply (fr_more _ _ _ Hf)].
  - intros n kl d Hm Hm' Hd. eapply before_prefix; [|by apply P10]. apply Hf. by eapply P8.
Qed.

Lemma kernel_frame g n : frame L g0 g -> is_Some (gnodes g0 !! n) -> (forall x, gnodes g0 !! n = Some x -> is_Some (commands (runtime g0) !! m_cmd x)) -> kernel_node g n <-> kernel_node g0 n.
Proof.
  intros Hf [x Hx] Hc. destruct (Hc x Hx) as [cmd Hcmd]. destruct (ge_nodes _ _ (fr_ext _ _ _ Hf) n x Hx) as (y & Hy & E). pose proof (fr_cmds _ _ _ Hf _ _ Hcmd) as Hcmd'.
  split; intros (z & cmd' & Hz & Hcz & Ht).
  - assert (z = y) as -> by congruence. rewrite E in Hcz. exists x, cmd. split_and!; [done|done|congruence].
  - assert (z = x) as -> by congruence. exists y, cmd. rewrite E. split_and!; [done|done|congruence].
Qed.

Lemma frame_deps_only kl g g' : graphs g' = graphs g -> kl ∉ L -> deps_only kl g g' -> frame L g g'.
Proof.
  intros Hgr Hkl [D1 D2 D3 D4 D5]. split.
  - split; [done|done|]. by rewrite D2.
  - by rewrite D1.
  - intros n Hn. apply D4. by intros ->.
  - intros n. destruct (decide (n = kl)) as [->|Hne]; [done|by rewrite D4].
  - intros i (x & Hx & _). unfold runs_of, cmd_of. destruct (D3 i x Hx) as (y & Hy & E). rewrite D2, Hx, Hy. cbn. by rewrite E.
Qed.

Lemma add_run_spec kl c g x :
  gnodes g !! kl = Some x -> is_Some (runs g !! m_cmd x) ->
  exists g', add_run kl c g = Ok tt g' /\ frame L g g' /\ gnodes g' = gnodes g /\ graphs g' = graphs g /\ runs_of g' kl = runs_of g kl ++ [c].
Proof.
  intros Hx [[ctx l] Hr]. set (f := fun '((ctx, l) : nat * list nat) => (ctx, l ++ [c])). exists (on_runs (alter f (m_cmd x)) g).
  assert (runs_of (on_runs (alter f (m_cmd x)) g) kl = runs_of g kl ++ [c]) as E by (unfold runs_of, cmd_of; cbn; rewrite Hx; cbn; rewrite lookup_alter_eq, Hr; done).
  split_and!; [unfold add_run, bind, get_node; by rewrite Hx| |done|done|done]. split; [split; [done|by intros n y Hy; exists y|]|done|done|done|].
  - intros i [r Hi]. cbn. destruct (decide (i = m_cmd x)) as [->|]; [rewrite lookup_alter_eq, Hi; by eexists|rewrite lookup_alter_ne by done; by exists r].
  - intros i (y & Hy & [r Hi]). unfold runs_of, cmd_of. cbn. rewrite Hy. cbn. destruct (decide (m_cmd y = m_cmd x)) as [Ey|]; [|by rewrite lookup_alter_ne].
    rewrite Ey, lookup_alter_eq, Hr. cbn. by exists [c].
Qed.

Lemma new_list_spec ctx g :
  gok g -> exists g', new_list ctx g = Ok (length (gnodes g)) g' /\ frame L g g' /\ graphs g' = graphs g /\ gok g' /\ kernel_list g' (length (gnodes g)) /\
    (forall n, is_Some (gnodes g !! n) -> get_deps_list (gnodes g') n = get_deps_list (gnodes g) n) /\ get_deps_list (gnodes g') (length (gnodes g)) = [].
Proof.
  intros Hg. pose proof (builds_new_list ctx g Hg) as Hb. unfold builds, wp in Hb. set (c := length (commands (runtime g))).
  set (w := on_commands (fun l => l ++ [set_cached false (new_command kernel_list_start)]) (runtime g)).
  set (g3 := on_nodes (fun l => l ++ [new_node c]) (on_runs (<[c := (ctx, [])]>) (on_runtime (fun _ => w) g))).
  assert (new_list ctx g = Ok (length (gnodes g)) g3) as E by done. rewrite E in Hb. destruct Hb as (Hg3 & He3 & Hl3). assert (forall n x, gnodes g !! n = Some x -> gnodes g3 !! n = Some x) as Hn by (intros n x; apply lookup_app_l_Some).
  assert (gnodes g3 !! length (gnodes g) = Some (new_node c)) as Hnew by by apply list_lookup_middle.
  exists g3. split; [done|]. split; [|split_and!; [done|done|split; [done|]| |unfold get_deps_list; by rewrite Hnew]].
  3: { intros n [x Hx]. unfold get_deps_list. by rewrite Hx, (Hn n x Hx). }
  2: { exists (set_cached false (new_command kernel_list_start)). split; [|done]. unfold cmd_of. rewrite Hnew. by apply list_lookup_middle. }
  split; [done|intros i x; apply lookup_app_l_Some| | |].
  - intros n _. unfold get_deps_list. destruct (gnodes g !! n) as [x|] eqn:Ex; [by rewrite (Hn n x Ex)|]. destruct (gnodes g3 !! n) as [y|] eqn:Ey; [|done].
    apply lookup_app_Some in Ey as [Ey|[_ Ey]]; [cbn in Ey; congruence|]. by apply list_lookup_singleton_Some in Ey as [_ <-].
  - intros n. unfold get_deps_list. destruct (gnodes g !! n) as [x|] eqn:Ex; [by rewrite (Hn n x Ex)|set_solver].
  - intros i (x & Hx & Hr). unfold runs_of, cmd_of. rewrite Hx, (Hn i x Hx). cbn. rewrite lookup_insert_ne; [done|]. pose proof (gk_runs _ Hg _ Hr). subst c. cbn. lia.
Qed.

(** A node that is not a kernel. *)
Lemma placing_other P nl m g n :
  placing P nl m g -> deps0 n ⊆ P -> is_Some (gnodes g !! n) -> n ∉ nl -> ~ kernel_node g0 n -> placing (P ++ [n]) (nl ++ [n]) m g.
Proof.
  intros [P1 P2 P3 P4 P5 P6 P7 P8 P9 P11 P10] Hdn Hn Hnl Hk. split; [done|done| | | | | | | | |done].
  - apply NoDup_app. split_and!; [done|set_solver|apply NoDup_singleton].
  - intros i [Hi|Hi]%elem_of_app; [destruct (P4 i Hi) as [[? ?]|?]; [left; set_solver|by right]|]. apply list_elem_of_singleton in Hi as ->. left. split; [set_solver|done].
  - intros i [Hi|Hi]%elem_of_app; [by apply P5|]. by apply list_elem_of_singleton in Hi as ->.
  - intros i [Hi|Hi]%elem_of_app Hki; [by apply P6|]. by apply list_elem_of_singleton in Hi as ->.
  - intros i [Hi|Hi]%elem_of_app Hki; [specialize (P7 i Hi Hki); set_solver|set_solver].
  - intros i kl Hm. destruct (P8 i kl Hm) as (A1 & A2 & A3 & A4 & A5). split_and!; [set_solver|done|set_solver|done|done].
  - intros i kl d Hm Hd. destruct (P9 i kl d Hm Hd) as [?|[B1 B2]]; [by left|right]. split; [by apply before_app|done].
  - intros i d [Hi|Hi]%elem_of_app Hki Hd Hkd; [by apply before_app, P11|]. apply list_elem_of_singleton in Hi as ->. apply before_last, P7; [by apply Hdn|done].
Qed.

Lemma place_in P nl m g d : placing P nl m g -> d ∈ P -> place m d ∈ nl.
Proof.
  intros Hp Hd. unfold place. destruct (m !! d) as [k|] eqn:Ed; cbn; [by destruct (pl_map _ _ _ _ Hp d k Ed) as (_ & _ & ? & _)|].
  apply (pl_other _ _ _ _ Hp); [done|]. intros Hk. destruct (pl_kernel _ _ _ _ Hp d Hd Hk) as [? ?]. congruence.
Qed.

(** A kernel joins the last list of kernels. *)
Lemma placing_new P nl m g n kl nl' l0 :
  placing P nl m g -> n ∉ P -> kernel_node g0 n -> deps0 n ⊆ P -> (forall d, d ∈ P -> deps0 d ⊆ P) ->
  nl' ++ [kl] = nl \/ nl' ++ [kl] = nl ++ [kl] -> NoDup (nl' ++ [kl]) -> kernel_list g kl -> l0 ++ [cmd_of g0 n] `prefix_of` runs_of g kl ->
  (forall d, m !! d = Some kl -> cmd_of g0 d ∈ l0) ->
  (forall d, d ∈ deps0 n -> place (<[n := kl]> m) d = kl \/ place (<[n := kl]> m) d ∈ get_deps_list (gnodes g) kl) ->
  placing (P ++ [n]) (nl' ++ [kl]) (<[n := kl]> m) g.
Proof.
  intros Hp. pose proof Hp as [P1 P2 P3 P4 P5 P6 P7 P8 P9 P11 P10]. intros Hn Hk Hd Hcl Hnl Hnd Hkl Hpre Hl0 Hres.
  assert (forall i, i ∈ nl -> i ∈ nl' ++ [kl]) as Hsub by (destruct Hnl as [E|E]; rewrite E; set_solver).
  assert (forall i, i ∈ nl' ++ [kl] -> i ∈ nl \/ i = kl) as Hsup by (destruct Hnl as [E|E]; rewrite E; set_solver).
  assert (forall a b, before a b nl -> before a b (nl' ++ [kl])) as Hbef by (destruct Hnl as [E|E]; rewrite E; [done|]; intros a b; apply before_app).
  assert (forall d, d ∈ P -> place (<[n := kl]> m) d = place m d) as Hpl by (intros d HdP; unfold place; rewrite lookup_insert_ne; [done|]; by intros ->).
  assert (m !! n = None) as Hmn by (apply eq_None_not_Some; intros [k Hm]; by destruct (P8 n k Hm) as (? & _)).
  assert (forall i k, <[n := kl]> m !! i = Some k -> (i = n /\ k = kl) \/ (i ∈ P /\ m !! i = Some k)) as Hm'.
  { intros i k. destruct (decide (i = n)) as [->|]; [rewrite lookup_insert_eq; intros [= <-]; by left|rewrite lookup_insert_ne by done]. intros Hm. right. split; [by destruct (P8 i k Hm) as (? & _)|done]. }
  split; [done|done|done| | | | | | | |].
  - intros i Hi. destruct (Hsup i Hi) as [Hi'| ->]; [|by right]. destruct (P4 i Hi') as [[? ?]|?]; [left; set_solver|by right].
  - intros i Hi. destruct (Hsup i Hi) as [Hi'| ->]; [by apply P5|by apply list_some, Hkl].
  - intros i [Hi|Hi]%elem_of_app Hki; [|apply list_elem_of_singleton in Hi as ->; by rewrite lookup_insert_eq]. rewrite lookup_insert_ne by (intros ->; done). by apply P6.
  - intros i [Hi|Hi]%elem_of_app Hki; [by apply Hsub, P7|]. by apply list_elem_of_singleton in Hi as ->.
  - intros i k Hm. destruct (Hm' i k Hm) as [[-> ->]|[HiP Hm0]].
    + split_and!; [set_solver|done|set_solver|apply Hkl|]. destruct Hpre as [r ->]. set_solver.
    + destruct (P8 i k Hm0) as (A1 & A2 & A3 & A4 & A5). split_and!; [set_solver|done|by apply Hsub|done|done].
  - intros i k d Hm Hdi. destruct (Hm' i k Hm) as [[-> ->]|[HiP Hm0]].
    + destruct (decide (place (<[n := kl]> m) d = kl)) as [E|E]; [by left|right]. destruct (Hres d Hdi) as [?|Hin]; [done|]. split; [|done].
      assert (d ∈ P) as HdP by by apply Hd. rewrite (Hpl d HdP) in *. assert (place m d ∈ nl) as Hin' by by eapply place_in.
      apply Hsub, elem_of_app in Hin' as [Hin'|Hin']; [by apply before_last|set_solver].
    + assert (d ∈ P) as HdP by by apply (Hcl i HiP). rewrite (Hpl d HdP). destruct (P9 i k d Hm0 Hdi) as [?|[B1 B2]]; [by left|right]. split; [by apply Hbef|done].
  - intros i d [Hi|Hi]%elem_of_app Hki Hdi Hkd; [by apply Hbef, P11|]. by apply list_elem_of_singleton in Hi as ->.
  - intros i k d Hm Hmd Hdi. destruct (Hm' i k Hm) as [[-> ->]|[HiP Hm0]].
    + assert (d ∈ P) as HdP by by apply Hd. rewrite lookup_insert_ne in Hmd by (intros ->; done). eapply before_prefix; [exact Hpre|]. apply before_last. by apply Hl0.
    + assert (d ∈ P) as HdP by by apply (Hcl i HiP). rewrite lookup_insert_ne in Hmd by (intros ->; done). by apply P10.
Qed.

(** The list of a kernel. *)
Definition join (nl : list nat) (ctx c : nat) : G (nat * list nat) :=
  o <- last_list nl ctx ;;
  match o with
  | Some kl => add_run kl c ;;; ret (kl, nl)
  | None => kl <- new_list ctx ;; add_run kl c ;;; ret (kl, nl ++ [kl])
  end.

Lemma last_list_spec nl ctx g :
  (forall i, i ∈ nl -> is_Some (gnodes g !! i)) ->
  exists o, last_list nl ctx g = Ok o g /\ forall kl, o = Some kl -> is_list g kl /\ exists nl', nl = nl' ++ [kl].
Proof.
  intros Hs. unfold last_list. destruct (last nl) as [i|] eqn:El; [|by exists None]. apply last_Some in El as [nl' ->]. destruct (Hs i ltac:(set_solver)) as [x Hx].
  unfold bind, get_node, gets, ret. rewrite Hx. eexists. split; [reflexivity|]. intros kl Hkl. destruct (runs g !! m_cmd x) as [[c l]|] eqn:Er; [|done].
  destruct (c =? ctx)%nat; [|done]. injection Hkl as <-. split; [exists x; split; [done|by rewrite Er]|by exists nl'].
Qed.

Lemma join_spec P nl m g ctx c :
  placing P nl m g -> (forall i, is_list g i -> i ∉ L) -> P ⊆ L ->
  exists kl nl' g1 l0, join nl ctx c g = Ok (kl, nl' ++ [kl]) g1 /\ frame L g g1 /\ graphs g1 = graphs g /\ gok g1 /\ kernel_list g1 kl /\
    (nl' ++ [kl] = nl \/ nl' ++ [kl] = nl ++ [kl]) /\ NoDup (nl' ++ [kl]) /\ runs_of g1 kl = l0 ++ [c] /\ (forall d, m !! d = Some kl -> cmd_of g0 d ∈ l0) /\
    (forall i, i ∈ nl -> get_deps_list (gnodes g1) i = get_deps_list (gnodes g) i) /\ (kl ∉ nl -> get_deps_list (gnodes g1) kl = []).
Proof.
  intros Hp Hgr HPL. pose proof Hp as [P1 P2 P3 P4 P5 P6 P7 P8 P9 P11 P10]. destruct (last_list_spec nl ctx g P5) as (o & Eo & Ho). unfold join, bind at 1. rewrite Eo. destruct o as [kl|].
  - destruct (Ho kl eq_refl) as [Hkl [nl' ->]]. pose proof Hkl as (x & Hx & Hr). assert (kernel_list g kl) as Hkl'.
    { destruct (P4 kl ltac:(set_solver)) as [[HkP Hnk]|?]; [|done]. exfalso. apply (Hgr kl); [done|by apply HPL]. } destruct (add_run_spec kl c g x Hx Hr) as (g1 & E1 & F1 & N1 & G1 & R1).
    exists kl, nl', g1, (runs_of g kl). unfold bind. rewrite E1. split_and!; [done|done|done| |by eapply frame_kernel_list|by left|done|done|by intros d Hd; apply (P8 d kl Hd)|by rewrite N1|set_solver].
    pose proof (builds_add_run kl c g P1) as Hb. unfold builds, wp in Hb. rewrite E1 in Hb. apply Hb.
  - destruct (new_list_spec ctx g P1) as (g1 & E1 & F1 & G1 & K1 & Hkl & D1 & D1'). set (kl := length (gnodes g)) in *. pose proof Hkl as [(x & Hx & Hr) _].
    destruct (add_run_spec kl c g1 x Hx Hr) as (g2 & E2 & F2 & N2 & G2 & R2). exists kl, nl, g2, (runs_of g1 kl). unfold bind. rewrite E1, E2.
    assert (kl ∉ nl) as Hfresh by (intros Hin; destruct (P5 kl Hin) as [y Hy%lookup_lt_Some]; subst kl; lia).
    split_and!; [done|by etrans|congruence| |by eapply frame_kernel_list|by right|apply NoDup_app; split_and!; [done|set_solver|apply NoDup_singleton]|done| | |].
    + pose proof (builds_add_run kl c g1 K1) as Hb. unfold builds, wp in Hb. rewrite E2 in Hb. apply Hb.
    + intros d Hd. destruct (P8 d kl Hd) as (_ & _ & Hin & _). done.
    + intros i Hi. rewrite N2. apply D1. by apply P5.
    + intros _. rewrite N2. apply D1'.
Qed.

(** The lists depend on nodes of the instance only. *)
Definition closed (nl : list nat) (g : gworld) : Prop := forall i, i ∈ nl -> is_list g i -> get_deps_list (gnodes g) i ⊆ nl.

Lemma closed_step nl nl' kl g g1 g2 (ps : list nat) :
  closed nl g -> nl' ++ [kl] = nl \/ nl' ++ [kl] = nl ++ [kl] -> (forall i, i ∈ nl -> get_deps_list (gnodes g1) i = get_deps_list (gnodes g) i) -> (kl ∉ nl -> get_deps_list (gnodes g1) kl = []) ->
  deps_only kl g1 g2 -> (forall i, i ∈ nl -> is_list g2 i -> is_list g i) -> (forall i, i ∈ get_deps_list (gnodes g2) kl -> i ∈ get_deps_list (gnodes g1) kl \/ i ∈ ps) -> (forall i, i ∈ ps -> i ∈ nl' ++ [kl]) -> closed (nl' ++ [kl]) g2.
Proof.
  intros Hcd Hnl Hsame Hnew D2 Hl Hup Hps. assert (forall i, i ∈ nl -> i ∈ nl' ++ [kl]) as Hsub by (destruct Hnl as [E|E]; rewrite E; set_solver).
  assert (forall i, i ∈ nl' ++ [kl] -> i ∈ nl \/ i = kl) as Hsup by (destruct Hnl as [E|E]; rewrite E; set_solver).
  intros i Hi Hil j Hj. destruct (decide (i = kl)) as [->|Hne].
  - destruct (Hup j Hj) as [Hj1|?]; [|by apply Hps]. destruct (decide (kl ∈ nl)) as [Hin|Hin]; [|rewrite Hnew in Hj1 by done; set_solver].
    rewrite Hsame in Hj1 by done. apply Hsub. by apply (Hcd kl); [|apply Hl|].
  - rewrite (do_other _ _ _ D2) in Hj by done. destruct (Hsup i Hi) as [Hin|?]; [|done]. rewrite Hsame in Hj by done. apply Hsub. by apply (Hcd i); [|apply Hl|].
Qed.

Context (h : nat) (o : list nat).
Context (Hg0 : gok g0) (HL : graphs g0 !! h = Some (Some L)) (Ho : o ≡ₚ L) (Ht : topological (gnodes g0) o).

Lemma ordered_node P n rest :
  o = P ++ n :: rest -> n ∈ L /\ n ∉ P /\ deps0 n ⊆ P /\ (forall d, d ∈ P -> deps0 d ⊆ P) /\ P ⊆ L.
Proof.
  intros E. assert (NoDup o) as Hnd by (rewrite Ho; by eapply (gk_graph _ Hg0)). split_and!.
  - rewrite <- Ho, E. set_solver.
  - rewrite E in Hnd. apply NoDup_app in Hnd as (_ & Hd & _). intros Hin. apply (Hd n Hin). set_solver.
  - by eapply Ht.
  - intros d Hd. apply list_elem_of_split in Hd as (l1 & l2 & ->). rewrite <- app_assoc in E. pose proof (Ht l1 d _ E). set_solver.
  - intros d Hd. rewrite <- Ho, E. set_solver.
Qed.

Lemma group_spec rest P nl m g :
  o = P ++ rest -> placing P nl m g -> closed nl g -> wp (group get_hw_ctx rest nl m) (fun ex g' => exists m', placing o ex m' g' /\ closed ex g') (fun _ _ => True) g.
Proof.
  revert P nl m g. induction rest as [|n rest IH]; intros P nl m g E Hp Hcd; cbn [group]; [apply wp_ret; exists m; by rewrite E, app_nil_r|].
  destruct (ordered_node P n rest E) as (HnL & HnP & Hdeps & Hcl & HPL). pose proof (pl_frame _ _ _ _ Hp) as Hf. pose proof (pl_ok _ _ _ _ Hp) as Hg.
  destruct (gk_node _ Hg0 h L n HL HnL) as (x0 & Hx0 & _ & _ & Hlt & _). apply lookup_lt_is_Some in Hlt as [cmd Hcmd].
  destruct (ge_nodes _ _ (fr_ext _ _ _ Hf) n x0 Hx0) as (x & Hx & Ex). pose proof (fr_cmds _ _ _ Hf _ _ Hcmd) as Hcmd'. rewrite <- Ex in Hcmd'.
  assert (graphs g !! h = Some (Some L)) as HLg by (by rewrite (ge_graphs _ _ (fr_ext _ _ _ Hf))).
  assert (forall i, is_list g i -> i ∉ L) as Hnotin by (intros i Hi; by eapply list_not_in_graph).
  assert (m_deps_list x = deps0 n) as Ed by (rewrite <- (fr_deps _ _ _ Hf n HnL); unfold get_deps_list; by rewrite Hx).
  assert (cmd_of g0 n = m_cmd x) as Ec by (unfold cmd_of; by rewrite Hx0).
  assert (kernel_node g0 n <-> ctype cmd = kernel_start) as Hkn.
  { split; [intros (y & cmd' & Hy & Hc' & Hty); congruence|]. intros Hty. by exists x0, cmd. }
  apply wp_bind. unfold wp at 1, get_node. rewrite Hx. apply wp_bind. unfold wp at 1, lift, get_cmd. rewrite Hcmd'. replace (on_runtime (fun _ => runtime g) g) with g by by destruct g.
  case_bool_decide as Hty; cbn [negb].
  2: { apply (IH (P ++ [n])); [by rewrite <- app_assoc| |]. 2: { intros i [Hi|Hi]%elem_of_app Hl; [pose proof (Hcd i Hi Hl); set_solver|]. apply list_elem_of_singleton in Hi as ->. by destruct (Hnotin n Hl). }
       apply placing_other; [done|done|by exists x| |by rewrite Hkn]. intros Hin. destruct (pl_nl _ _ _ _ Hp n Hin) as [[? _]|[Hl _]]; [done|]. by apply (Hnotin n Hl). }
  destruct (get_hw_ctx (m_cmd x)) as [ctx|]; [|by apply wp_raise].
  destruct (join_spec P nl m g ctx (m_cmd x) Hp Hnotin HPL) as (kl & nl' & g1 & l0 & E1 & F1 & G1 & K1 & Hkl & Hnl & Hnd & R1 & Hl0 & Hsame & Hnew).
  assert (wp (resolve (<[n := kl]> m) kl (m_deps_list x) ;;; group get_hw_ctx rest (nl' ++ [kl]) (<[n := kl]> m)) (fun ex g' => exists m', placing o ex m' g' /\ closed ex g') (fun _ _ => True) g1) as Hrest.
  { assert (graphs g1 !! h = Some (Some L)) as HL1 by by rewrite G1. assert (kl ∉ L) as HklL by (eapply list_not_in_graph; [exact K1|apply Hkl|done]).
    pose proof (placing_frame _ _ _ _ _ Hp F1 K1) as Hp1. apply wp_bind. pose proof (resolve_spec (<[n := kl]> m) kl (m_deps_list x) g1 (list_some _ _ (proj1 Hkl))) as Hrs.
    assert (builds (resolve (<[n := kl]> m) kl (m_deps_list x)) g1 (fun _ _ => True)) as Hb.
    { apply builds_resolve; [done|apply Hkl|]. intros d l. destruct (decide (d = n)) as [->|]; [rewrite lookup_insert_eq; intros [= <-]; by apply list_some, Hkl|rewrite lookup_insert_ne by done].
      intros Hm. apply (pl_some _ _ _ _ Hp1). by destruct (pl_map _ _ _ _ Hp1 d l Hm) as (_ & _ & ? & _). }
    unfold builds, wp in Hb, Hrs |- *. destruct (resolve _ _ _ g1) as [u g2|e g2]; [|done]. destruct Hb as (K2 & X2 & _). destruct Hrs as (D2 & Hres & Hup).
    { intros d Hd Hnk. rewrite Ed in Hd. rewrite lookup_insert_ne by (intros <-; by apply HnP, Hdeps). apply eq_None_not_Some. intros [k Hm]. apply Hnk.
      destruct (pl_map _ _ _ _ Hp1 d k Hm) as (_ & (y & cy & Hy & Hcy & Hty') & _). destruct (ge_nodes _ _ (fr_ext _ _ _ (pl_frame _ _ _ _ Hp1)) d y Hy) as (z & Hz & Ez).
      exists z, cy. rewrite Ez. split_and!; [done|by apply (fr_cmds _ _ _ (pl_frame _ _ _ _ Hp1))|done]. }
    pose proof (frame_deps_only kl g1 g2 (ge_graphs _ _ X2) HklL D2) as F2. pose proof (placing_frame _ _ _ _ _ Hp1 F2 K2) as Hp2.
    assert (placing (P ++ [n]) (nl' ++ [kl]) (<[n := kl]> m) g2) as Hp3.
    { eapply (placing_new P nl m g2 n kl nl' l0); [done|done|by apply Hkn|done|done|done|done|by eapply frame_kernel_list| |done|by rewrite <- Ed]. rewrite Ec, <- R1. by apply F2, Hkl. }
    apply (IH (P ++ [n])); [by rewrite <- app_assoc|done|]. eapply closed_step; [exact Hcd|exact Hnl|exact Hsame|exact Hnew|exact D2| |exact Hup|].
    - intros i Hi Hl. destruct (pl_nl _ _ _ _ Hp i Hi) as [[HiP _]|[? _]]; [|done]. destruct (list_not_in_graph g2 i h L K2 Hl); [by rewrite (ge_graphs _ _ X2)|by apply HPL].
    - intros i (d & -> & Hd)%list_elem_of_fmap. eapply place_in; [exact Hp3|]. rewrite Ed in Hd. specialize (Hdeps d Hd). set_solver. }
  unfold join, bind at 1 in E1. apply wp_bind. unfold wp at 1. destruct (last_list nl ctx g) as [o' g'|]; [|done]. apply wp_bind. unfold wp at 1. rewrite E1. done.
Qed.
End places.
