(* ===== verification/HipGraphRun.v ===== *)
(** The task of a launched graph: a node without events is started only when the lists of kernels
    and the copies among its dependencies have ended. *)

From S2P Require Import Prelude HipStream HipGraph HipGraphOrder HipGraphBuild HipGraphPlaces.

(** * Commands without events *)

Definition quiet_types : list cmd_type := [kernel_start; mem_cpy; kernel_list_start; empty].
Definition work_types : list cmd_type := [mem_cpy; kernel_list_start].

Section run.
Context (start_ok run_ok : nat -> bool).

(** One command has changed, and the history has grown. *)
Record touches (c : nat) (h : list action) (x x' : command) (w w' : world) : Prop := {
  tc_streams : streams w' = streams w;
  tc_other : forall i, i <> c -> commands w' !! i = commands w !! i;
  tc_self : commands w' !! c = Some x';
  tc_type : ctype x' = ctype x;
  tc_history : history w' = history w ++ h;
}.

Lemma touches_cmd c f x w h :
  commands w !! c = Some x -> ctype (f x) = ctype x -> touches c h x (f x) w (on_commands (alter f c) (on_history (fun l => l ++ h) w)).
Proof.
  intros Hx Ht. split; [done| | |done|done].
  - intros i Hi. cbn. by rewrite list_lookup_alter_ne.
  - cbn. by rewrite list_lookup_alter_eq, Hx.
Qed.

Lemma touches_none c x w : commands w !! c = Some x -> touches c [] x x w w.
Proof. intros Hx. split; [done|done|done|done|by rewrite app_nil_r]. Qed.

Lemma touches_state c f x w : commands w !! c = Some x -> ctype (f x) = ctype x -> touches c [] x (f x) w (on_commands (alter f c) w).
Proof.
  intros Hx Ht. split; [done| | |done|by rewrite app_nil_r].
  - intros i Hi. cbn. by rewrite list_lookup_alter_ne.
  - cbn. by rewrite list_lookup_alter_eq, Hx.
Qed.

Lemma call_command o c w :
  run_call start_ok run_ok o c w = match o with
    | Submit => submit_command start_ok (call start_ok run_ok (4 * length (commands w) + 3)) c w
    | Wait => wait_command run_ok (call start_ok run_ok (4 * length (commands w) + 3)) c w end.
Proof. unfold run_call, fuel_of. replace (4 * length (commands w) + 4)%nat with (S (4 * length (commands w) + 3)) by lia. by destruct o. Qed.

(** What waiting for a command without an error has done. *)
Lemma wait_quiet c x w :
  commands w !! c = Some x -> ctype x ∈ quiet_types ->
  wp (run_call start_ok run_ok Wait c) (fun _ w' => exists h x', touches c h x x' w w' /\ (h = [] \/ h = [Done c]) /\
    (ctype x = mem_cpy -> h = [Done c]) /\
    (ctype x = kernel_list_start -> (cstate x = running -> h = [Done c] /\ cstate x' = completed) /\ (cstate x = completed -> x' = x))) (fun _ w' => history w' = history w) w.
Proof.
  intros Hx Ht. unfold wp. rewrite call_command. unfold wait_command, bind at 1, get_cmd. rewrite Hx.
  assert (ctype x = kernel_start \/ ctype x = mem_cpy \/ ctype x = kernel_list_start \/ ctype x = empty) as [E|[E|[E|E]]] by (unfold quiet_types in Ht; set_solver); rewrite E.
  - unfold kernel_start_wait. destruct (cstate x) eqn:Es; try (exists [], x; split_and!; [by apply touches_none|by left|done|done]).
    destruct (run_ok c); [|done]. exists [Done c]. eexists. split_and!; [by apply touches_cmd|by right|done|done].
  - unfold memcpy_wait. destruct (m_handle x); [|done]. exists [Done c]. eexists. split_and!; [by apply touches_cmd|by right|done|done].
  - unfold kernel_list_start_wait. destruct (cstate x) eqn:Es; try (exists [], x; split_and!; [by apply touches_none|by left|done|done]).
    destruct (run_ok c); [|done]. exists [Done c]. eexists. split_and!; [by apply touches_cmd|by right|done|done].
  - exists [], x. split_and!; [by apply touches_none|by left|done|done].
Qed.

(** What submitting a command that has been reset has done. *)
Lemma submit_quiet c x w :
  commands w !! c = Some x -> ctype x ∈ [mem_cpy; kernel_list_start; empty] -> cstate x = init ->
  wp (run_call start_ok run_ok Submit c) (fun _ w' => exists h x', touches c h x x' w w' /\ (h = [] \/ h = [Start c]) /\ (ctype x <> empty -> h = [Start c]) /\ (ctype x = kernel_list_start -> cstate x' = running)) (fun _ w' => history w' = history w) w.
Proof.
  intros Hx Ht Hs. unfold wp. rewrite call_command. unfold submit_command, bind at 1, get_cmd. rewrite Hx.
  assert (ctype x = mem_cpy \/ ctype x = kernel_list_start \/ ctype x = empty) as [E|[E|E]] by set_solver; rewrite E.
  - exists [Start c]. eexists. split_and!; [by apply touches_cmd|by right|done|done].
  - unfold kernel_list_start_submit. rewrite Hs. destruct (start_ok c); [|done]. exists [Start c]. eexists. split_and!; [by apply touches_cmd|by right|done|done].
  - exists []. eexists. split_and!; [by apply touches_state|by left|done|done].
Qed.

Lemma enqueue_quiet s c x w :
  commands w !! c = Some x -> ctype x ∈ [mem_cpy; kernel_list_start; empty] -> cstate x = init -> (forall z, streams w !! s = Some z -> m_top_event z = None) ->
  wp (enqueue (run_call start_ok run_ok) s c) (fun _ w' => exists h x', (h = [] \/ h = [Start c]) /\ (ctype x <> empty -> h = [Start c]) /\ (ctype x = kernel_list_start -> cstate x' = running) /\
    (forall i, i <> c -> commands w' !! i = commands w !! i) /\ commands w' !! c = Some x' /\ ctype x' = ctype x /\ history w' = history w ++ h /\
    (forall z, streams w' !! s = Some z -> m_top_event z = None)) (fun _ w' => history w' = history w) w.
Proof.
  intros Hx Ht Hs Htop. unfold wp, enqueue, with_lock. case_bool_decide; [done|]. unfold bind at 1, get_stm. cbn [streams on_held].
  destruct (streams w !! s) as [z|] eqn:Hz; [|done]. rewrite (Htop z eq_refl). unfold bind.
  pose proof (submit_quiet c x (on_held (cons (m_cmd_lock s)) w) Hx Ht Hs) as Hq. unfold wp in Hq. destruct (run_call _ _ Submit c _) as [b w1|]; [|done].
  destruct Hq as (h & x' & [T1 T2 T3 T4 T5] & Hh & Hn & Hk). exists h, x'. split_and!; [done|done|done|exact T2|exact T3|exact T4|exact T5|].
  intros z'. cbn. rewrite T1. cbn. rewrite list_lookup_alter_eq, Hz. intros [= <-]. exact (Htop z eq_refl).
Qed.

(** * The nodes of an instance *)

(** The command is started and, later, has ended. *)
Definition started_and_done (c : nat) (h : list action) : Prop := exists h1 h2 h3, h = h1 ++ Start c :: h2 ++ Done c :: h3.

Lemma started_and_done_app c h k : started_and_done c h -> started_and_done c (h ++ k).
Proof. intros (h1 & h2 & h3 & ->). exists h1, h2, (h3 ++ k). by rewrite <- !app_assoc, <- app_comm_cons, <- app_assoc. Qed.

Lemma started_and_done_last c h : Start c ∈ h -> started_and_done c (h ++ [Done c]).
Proof. intros (h1 & h2 & ->)%list_elem_of_split. exists h1, h2, []. by rewrite <- app_assoc. Qed.

Context (s : nat) (g0 : gworld) (t0 : nat -> option cmd_type).
Abbreviation cmd := (cmd_of g0).
Abbreviation node_type n := (t0 (cmd n)).

(** Dependencies, among the nodes [P], that are works. *)
Definition awaits (P : list nat) (n d : nat) : Prop := d ∈ P /\ d ∈ get_deps_list (gnodes g0) n /\ exists t, node_type d = Some t /\ t ∈ work_types.

(** The nodes [P] have been executed, which has left the actions [hs]. *)
Record ran (P : list nat) (hs : list action) (g : gworld) : Prop := {
  rn_nodes : gnodes g = gnodes g0;
  rn_history : history (runtime g) = history (runtime g0) ++ hs;
  rn_top : forall z, streams (runtime g) !! s = Some z -> m_top_event z = None;
  rn_types : forall c, ctype <$> commands (runtime g) !! c = t0 c;
  rn_start : forall c, Start c ∈ hs -> c ∈ (cmd <$> P);
  rn_work : forall n t, n ∈ P -> node_type n = Some t -> t ∈ work_types -> Start (cmd n) ∈ hs;
  rn_list : forall n x, n ∈ P -> commands (runtime g) !! cmd n = Some x -> ctype x = kernel_list_start -> cstate x = running \/ (cstate x = completed /\ started_and_done (cmd n) hs);
}.

(** Nothing starts before the works that it depends on have ended. *)
Definition in_order (ex : list nat) (hs : list action) : Prop :=
  forall l1 n l2 d h1 h2, ex = l1 ++ n :: l2 -> awaits l1 n d -> hs = h1 ++ Start (cmd n) :: h2 -> started_and_done (cmd d) h1.

Lemma split_before {A} (a : A) (h k h1 h2 : list A) : h ++ k = h1 ++ a :: h2 -> a ∉ k -> exists h3, h = h1 ++ a :: h3.
Proof.
  intros [(l & -> & E)|(l & -> & ->)]%app_eq_inv Hk; [|set_solver]. destruct l as [|b l]; [exfalso; apply Hk; cbn in E; set_solver|].
  injection E as <- ->. by exists l.
Qed.

Lemma in_order_more ex hs k : in_order ex hs -> (forall c, Start c ∉ k) -> in_order ex (hs ++ k).
Proof. intros Ho Hk l1 n l2 d h1 h2 E Ha Eh. destruct (split_before _ _ _ _ _ Eh (Hk _)) as [h3 ->]. by eapply Ho. Qed.

Lemma in_order_start ex P n rest hs :
  NoDup (cmd <$> ex) -> ex = P ++ n :: rest -> in_order ex hs -> Start (cmd n) ∉ hs -> (forall d, awaits P n d -> started_and_done (cmd d) hs) -> in_order ex (hs ++ [Start (cmd n)]).
Proof.
  intros Hnd E Ho Hs Hd l1 i l2 d h1 h2 E' Ha Eh. destruct (decide (cmd i = cmd n)) as [Ec|Ec].
  - assert (length l1 = length P) as El.
    { apply (NoDup_lookup (cmd <$> ex) _ _ (cmd n) Hnd); rewrite list_lookup_fmap; [rewrite E', list_lookup_middle by done; cbn; by rewrite Ec|by rewrite E, list_lookup_middle]. }
    rewrite E in E'. apply app_inj_1 in E' as [<- [= <- _]]; [|done]. assert (h1 = hs) as ->; [|by apply Hd].
    apply app_eq_inv in Eh as [(l & -> & El')|(l & -> & El')]; (destruct l as [|b l]; [by rewrite app_nil_r|]).
    + injection El' as <- _. set_solver.
    + injection El' as _ El'. by destruct l.
  - apply split_before in Eh as [h3 ->]; [by eapply Ho|]. intros [= Ei]%list_elem_of_singleton. done.
Qed.

Lemma ran_wait P hs g d y t :
  ran P hs g -> gnodes g0 !! d = Some y -> t0 (m_cmd y) = Some t -> t ∈ quiet_types ->
  wp (lift (run_call start_ok run_ok Wait (m_cmd y))) (fun _ g' => exists k, ran P (hs ++ k) g' /\ (forall c, Start c ∉ k) /\ (d ∈ P -> t ∈ work_types -> started_and_done (cmd d) (hs ++ k)))
    (fun _ g' => history (runtime g') = history (runtime g0) ++ hs) g.
Proof.
  intros [R1 R2 R3 R4 R5 R6 R7] Hy Ht Hq. assert (cmd d = m_cmd y) as Ed by (unfold cmd_of; by rewrite Hy). pose proof (R4 (m_cmd y)) as Hx. rewrite Ht in Hx.
  destruct (commands (runtime g) !! m_cmd y) as [x|] eqn:Ex; [|done]. injection Hx as <-. pose proof (wait_quiet (m_cmd y) x (runtime g) Ex Hq) as Hw.
  unfold wp, lift in *. destruct (run_call _ _ Wait _ _) as [b w'|e w']; cbn; [|by rewrite Hw]. destruct Hw as (k & x' & [T1 T2 T3 T4 T5] & Hk & Hc & Hl). exists k.
  assert (forall c, Start c ∉ k) as Hns by (destruct Hk as [->| ->]; set_solver). split; [|split; [done|]].
  - split; [done|cbn; by rewrite T5, R2, <- app_assoc|cbn; by rewrite T1| | | |].
    + intros c. cbn. rewrite <- R4. destruct (decide (c = m_cmd y)) as [->|Hne]; [|by rewrite T2]. rewrite T3, Ex. cbn. by rewrite T4.
    + intros c [Hc'|Hc']%elem_of_app; [by apply R5|by destruct (Hns c)].
    + intros n t Hn Hnt Htw. apply elem_of_app. left. by eapply R6.
    + intros n z Hn. cbn. destruct (decide (cmd n = m_cmd y)) as [En|Hne].
      * rewrite En, T3. intros [= <-] Htz. rewrite T4 in Htz. destruct (Hl Htz) as [Hrun Hcom]. destruct (R7 n x Hn) as [Hs|[Hs Hsd]]; [by rewrite En|done| |].
        -- destruct (Hrun Hs) as [-> Hc']. right. split; [done|]. rewrite <- En. apply started_and_done_last. eapply R6; [done|by rewrite En|]. rewrite Htz. unfold work_types. set_solver.
        -- rewrite (Hcom Hs). right. split; [done|]. rewrite <- En. by apply started_and_done_app.
      * rewrite T2 by done. intros Hz Htz. destruct (R7 n z Hn Hz Htz) as [?|[? ?]]; [by left|right]. split; [done|by apply started_and_done_app].
  - intros HdP Hwt. assert (Start (cmd d) ∈ hs) as Hst by (eapply R6; [done|by rewrite Ed|done]). unfold work_types in Hwt. assert (ctype x = mem_cpy \/ ctype x = kernel_list_start) as [E|E] by set_solver.
    + rewrite (Hc E), <- Ed. by apply started_and_done_last.
    + destruct (Hl E) as [Hrun Hcom]. destruct (R7 d x HdP) as [Hs|[Hs Hsd]]; [by rewrite Ed|done| |by apply started_and_done_app]. destruct (Hrun Hs) as [-> _]. rewrite <- Ed. by apply started_and_done_last.
Qed.

Lemma ran_waits P hs g n ds :
  ran P hs g -> (forall d, d ∈ ds -> exists y t, gnodes g0 !! d = Some y /\ t0 (m_cmd y) = Some t /\ t ∈ quiet_types) ->
  wp (for_each ds (fun d => y <- get_node d ;; _ <- lift (run_call start_ok run_ok Wait (m_cmd y)) ;; ret tt))
    (fun _ g' => exists k, ran P (hs ++ k) g' /\ (forall c, Start c ∉ k) /\ (forall d, d ∈ ds -> awaits P n d -> started_and_done (cmd d) (hs ++ k)))
    (fun _ g' => exists k, history (runtime g') = history (runtime g0) ++ hs ++ k /\ forall c, Start c ∉ k) g.
Proof.
  revert hs g. induction ds as [|d ds IH]; intros hs g Hr Hds; cbn [for_each].
  - apply wp_ret. exists []. rewrite app_nil_r. split_and!; [done|set_solver|set_solver].
  - destruct (Hds d ltac:(set_solver)) as (y & t & Hy & Ht & Hq). apply wp_bind, wp_bind. unfold wp at 1, get_node. rewrite (rn_nodes _ _ _ Hr), Hy. apply wp_bind.
    eapply wp_mono; [by eapply ran_wait| |].
    + intros b g1 (k & Hr1 & Hk & Hsd). apply wp_ret. eapply wp_mono; [apply IH; [exact Hr1|set_solver]| |].
      * cbn. intros _ g2 (k2 & Hr2 & Hk2 & Hsd2). exists (k ++ k2). rewrite app_assoc. split_and!; [done|set_solver|]. intros i [->|Hi]%elem_of_cons Ha; [|by apply Hsd2].
        apply started_and_done_app, Hsd; [apply Ha|]. destruct Ha as (_ & _ & t' & Ht' & Hw). unfold cmd_of in Ht'. rewrite Hy in Ht'. cbn in Ht'. by assert (t = t') as -> by congruence.
      * cbn. intros _ g2 (k2 & E2 & Hk2). exists (k ++ k2). rewrite E2, !app_assoc. split; [done|set_solver].
    + cbn. intros _ g1 E. exists []. rewrite app_nil_r. split; [done|set_solver].
Qed.

Lemma wp_lift_modify f (Q : unit -> gworld -> Prop) R g : Q tt (on_runtime f g) -> wp (lift (modify f)) Q R g.
Proof. done. Qed.

Lemma ran_reset P hs g n : ran P hs g -> cmd n ∉ cmd <$> P -> ran P hs (on_runtime (on_commands (alter (set_state_of init) (cmd n))) g).
Proof.
  intros [R1 R2 R3 R4 R5 R6 R7] Hn. split; [done|done|done| |done|done|].
  - intros c. cbn. rewrite <- R4. destruct (decide (c = cmd n)) as [->|]; [rewrite list_lookup_alter_eq; by destruct (commands _ !! _)|by rewrite list_lookup_alter_ne].
  - intros i x Hi. cbn. rewrite list_lookup_alter_ne; [by apply R7|]. intros E. apply Hn. rewrite E. by apply list_elem_of_fmap_2.
Qed.

Lemma ran_enqueue P hs g n x :
  ran P hs g -> commands (runtime g) !! cmd n = Some x -> ctype x ∈ [mem_cpy; kernel_list_start; empty] -> cstate x = init -> cmd n ∉ cmd <$> P ->
  wp (lift (enqueue (run_call start_ok run_ok) s (cmd n))) (fun _ g' => exists k, ran (P ++ [n]) (hs ++ k) g' /\ (k = [] \/ k = [Start (cmd n)]))
    (fun _ g' => history (runtime g') = history (runtime g0) ++ hs) g.
Proof.
  intros [R1 R2 R3 R4 R5 R6 R7] Hx Ht Hs Hn. pose proof (enqueue_quiet s (cmd n) x (runtime g) Hx Ht Hs R3) as He. unfold wp, lift in *.
  destruct (enqueue _ _ _ _) as [u w'|e w']; cbn; [|by rewrite He]. destruct He as (k & x' & Hk & Hw & Hl & Ho & Hx' & Ht' & Eh & Htop). exists k. split; [|done].
  assert (forall i, i ∈ P -> cmd i <> cmd n) as Hne by (intros i Hi E; apply Hn; rewrite <- E; by apply list_elem_of_fmap_2).
  split; [done|cbn; by rewrite Eh, R2, <- app_assoc|done| | | |].
  - intros c. cbn. rewrite <- R4. destruct (decide (c = cmd n)) as [->|]; [|by rewrite Ho]. rewrite Hx, Hx'. cbn. by rewrite Ht'.
  - intros c [Hc|Hc]%elem_of_app; rewrite fmap_app; apply elem_of_app; [left; by apply R5|right]. destruct Hk as [->| ->]; set_solver.
  - intros i t [Hi|Hi]%elem_of_app Hit Hiw; apply elem_of_app; [left; by eapply R6|right]. apply list_elem_of_singleton in Hi as ->. rewrite Hw; [set_solver|].
    intros E. rewrite <- R4, Hx in Hit. cbn in Hit. rewrite E in Hit. injection Hit as <-. unfold work_types in Hiw. set_solver.
  - intros i z [Hi|Hi]%elem_of_app; cbn.
    + rewrite Ho by by apply Hne. intros Hz Htz. destruct (R7 i z Hi Hz Htz) as [?|[? ?]]; [by left|right]. split; [done|by apply started_and_done_app].
    + apply list_elem_of_singleton in Hi as ->. rewrite Hx'. intros [= <-] Htz. left. apply Hl. congruence.
Qed.

(** * Instances *)

(** An instance without events. *)
Record quiet_exec (ex : list nat) : Prop := {
  qe_nodup : NoDup (cmd <$> ex);
  qe_node : forall n, n ∈ ex -> exists x t, gnodes g0 !! n = Some x /\ t0 (m_cmd x) = Some t /\ t ∈ [mem_cpy; kernel_list_start; empty];
  qe_deps : forall n d, n ∈ ex -> d ∈ get_deps_list (gnodes g0) n -> exists y t, gnodes g0 !! d = Some y /\ t0 (m_cmd y) = Some t /\ t ∈ quiet_types;
}.

Definition history_in_order (ex : list nat) (g : gworld) : Prop := exists hs, history (runtime g) = history (runtime g0) ++ hs /\ in_order ex hs.

Lemma ran_node ex P n rest hs g :
  quiet_exec ex -> ex = P ++ n :: rest -> ran P hs g -> in_order ex hs ->
  wp (execute_node start_ok run_ok s n) (fun _ g' => exists hs', ran (P ++ [n]) hs' g' /\ in_order ex hs') (fun _ => history_in_order ex) g.
Proof.
  intros [Q1 Q2 Q3] E Hr Ho. destruct (Q2 n ltac:(set_solver)) as (x & t & Hx & Ht & Hty). assert (cmd n = m_cmd x) as Ec by (unfold cmd_of; by rewrite Hx).
  assert (cmd n ∉ cmd <$> P) as Hfresh by (rewrite E, fmap_app, fmap_cons in Q1; apply NoDup_app in Q1 as (_ & Hd & _); intros Hin; apply (Hd _ Hin); set_solver).
  assert (forall g1 hs1, ran P hs1 g1 -> exists cm, commands (runtime g1) !! m_cmd x = Some cm /\ ctype cm = t) as Hcm.
  { intros g1 hs1 Hr1. pose proof (rn_types _ _ _ Hr1 (m_cmd x)) as E1. rewrite Ht in E1. destruct (commands (runtime g1) !! m_cmd x) as [cm|]; [|done]. injection E1 as E1. by exists cm. }
  unfold execute_node. apply wp_bind. unfold wp at 1, get_node. rewrite (rn_nodes _ _ _ Hr), Hx. apply wp_bind. unfold wp at 1, lift, get_cmd.
  destruct (Hcm g hs Hr) as (cm & Hc & Ect). rewrite Hc. replace (on_runtime (fun _ => runtime g) g) with g by by destruct g.
  assert (is_event_node (ctype cm) = false) as -> by (rewrite Ect; clear -Hty; assert (t = mem_cpy \/ t = kernel_list_start \/ t = empty) as [->|[->| ->]] by set_solver; done).
  apply wp_bind, wp_ret, wp_bind. assert (get_deps_list (gnodes g0) n = m_deps_list x) as Ed by (unfold get_deps_list; by rewrite Hx).
  eapply wp_mono; [apply (ran_waits P hs g n (m_deps_list x) Hr); intros d Hd; apply (Q3 n); [set_solver|by rewrite Ed]| |cbn; intros _ g1 (k & Ek & Hk); exists (hs ++ k); split; [done|by apply in_order_more]].
  cbn. intros _ g1 (k & Hr1 & Hk & Hsd). pose proof (in_order_more ex hs k Ho Hk) as Ho1. pose proof (ran_reset P (hs ++ k) g1 n Hr1 Hfresh) as Hr2. rewrite Ec in Hr2. apply wp_bind.
  apply wp_lift_modify.
  destruct (Hcm g1 _ Hr1) as (c1 & Hc1 & Ec1). rewrite <- Ec in *. eapply wp_mono; [eapply (ran_enqueue P (hs ++ k) _ n (set_state_of init c1) Hr2); [cbn; by rewrite list_lookup_alter_eq, Hc1|cbn; by rewrite Ec1|done|done]| |].
  - cbn. intros _ g3 (k3 & Hr3 & Hk3). exists ((hs ++ k) ++ k3). split; [done|]. destruct Hk3 as [->| ->]; [by rewrite app_nil_r|]. eapply in_order_start; [done|done|done| |].
    + intros Hin. by apply Hfresh, (rn_start _ _ _ Hr1).
    + intros d Ha. apply Hsd; [|done]. rewrite <- Ed. apply Ha.
  - cbn. intros _ g3 E3. by exists (hs ++ k).
Qed.

Lemma ran_all ex P rest hs g :
  quiet_exec ex -> ex = P ++ rest -> ran P hs g -> in_order ex hs -> wp (execute start_ok run_ok s rest) (fun _ => history_in_order ex) (fun _ => history_in_order ex) g.
Proof.
  intros Hq. revert P hs g. induction rest as [|n rest IH]; intros P hs g E Hr Ho; unfold execute; cbn [for_each].
  - apply wp_ret. exists hs. split; [apply Hr|done].
  - apply wp_bind. eapply wp_mono; [by eapply ran_node| |done]. cbn. intros _ g1 (hs1 & Hr1 & Ho1). apply (IH (P ++ [n]) hs1); [by rewrite <- app_assoc|done|done].
Qed.
End run.
