(* ===== verification/HipGraphTheorems.v ===== *)
(** Graphs of an application: their order, an instance of a graph, and a launch of it; and
    behaviours of graphs that their users do not expect, as runs of the model. *)

From S2P Require Import Prelude HipStream HipCalls HipGraph HipGraphOrder HipGraphBuild HipGraphPlaces HipGraphRun.

(** * Order *)

Lemma occ_filter (P : nat -> Prop) `{!forall x, Decision (P x)} c l : P c -> occ c (filter P l) = occ c l.
Proof.
  intros Hc. unfold occ. induction l as [|x l IH]; [done|]. rewrite (filter_cons P). destruct (decide (P x)) as [Hx|Hx].
  - rewrite !filter_cons. destruct (decide (x = c)); cbn; by rewrite IH.
  - rewrite IH, filter_cons, decide_False; [done|]. by intros ->.
Qed.

(** Counters of 64 bits do not overflow. *)
Record counts_fit (ns : list graph_node) (l : list nat) : Prop := {
  cf_deps : forall n, n ∈ l -> Z.of_nat (length (get_deps_list ns n)) < 2 ^ 64;
  cf_total : Z.of_nat (sum_list_with (fun n => length (get_children ns n)) l) < 2 ^ 64;
}.

Lemma gok_graph_ok g h l : gok g -> graphs g !! h = Some (Some l) -> counts_fit (gnodes g) l -> graph_ok (gnodes g) l.
Proof.
  intros Hg Hl [Hd Ht]. split; [by eapply (gk_graph _ Hg)| | |done|done].
  - intros n d Hn Hin. destruct (gk_node _ Hg h l n Hl Hn) as (x & Hx & _ & _ & _ & A4). unfold get_deps_list in Hin. rewrite Hx in Hin. by apply A4.
  - intros n c Hn Hc. destruct (gk_node _ Hg h l n Hl Hn) as (x & Hx & _), (gk_node _ Hg h l c Hl Hc) as (y & Hy & Ay & _).
    unfold get_children, get_deps_list. rewrite Hx, Hy. change (occ c (filter (fun i => is_alive (gnodes g) i = true) (m_children x)) = occ n (m_deps_list y)). rewrite (occ_filter (fun i => is_alive (gnodes g) i = true)); [by apply (gk_edges _ Hg)|]. unfold is_alive. by rewrite Hy.
Qed.

Lemma gok_acyclic g h l : gok g -> graphs g !! h = Some (Some l) -> acyclic (gnodes g) l.
Proof.
  intros Hg Hl. exists id. intros n d Hn Hin. destruct (gk_node _ Hg h l n Hl Hn) as (x & Hx & _ & _ & _ & A4). unfold get_deps_list in Hin. rewrite Hx in Hin. by apply A4.
Qed.

Section order.
Context (get_hw_ctx : nat -> option nat).

Lemma reach_ordered g h l :
  graph_reach get_hw_ctx g -> graphs g !! h = Some (Some l) -> counts_fit (gnodes g) l ->
  exists o, get_ordered_nodes (gnodes g) l = inl o /\ o ≡ₚ l /\ topological (gnodes g) o.
Proof.
  intros Hr Hl Hc. pose proof (graph_reach_ok _ g Hr) as Hg. pose proof (ordered_nodes_spec (gnodes g) l (gok_graph_ok g h l Hg Hl Hc)) as Hs.
  destruct (get_ordered_nodes (gnodes g) l) as [o|e]; [by exists o|]. destruct Hs as [_ Hn]. by destruct Hn; apply (gok_acyclic g h).
Qed.

(** C39: However an application builds a graph, with failed calls, earlier instances and destroyed
    ones, its nodes can always be put in order: each of them once, behind all its
    dependencies; the error of a cycle never occurs. *)
Theorem graphs_always_ordered g h l :
  graph_reach get_hw_ctx g -> graphs g !! h = Some (Some l) -> counts_fit (gnodes g) l ->
  exists o, get_ordered_nodes (gnodes g) l = inl o /\ o ≡ₚ l /\ topological (gnodes g) o.
Proof. apply reach_ordered. Qed.

(** * Instances *)

Lemma instance_placing g h l :
  graph_reach get_hw_ctx g -> graphs g !! h = Some (Some l) -> counts_fit (gnodes g) l ->
  wp (init_exec get_hw_ctx l) (fun ex g1 => exists o m, o ≡ₚ l /\ placing g l o ex m g1 /\ closed ex g1) (fun _ _ => True) g.
Proof.
  intros Hr Hl Hc. destruct (reach_ordered g h l Hr Hl Hc) as (o & Eo & Ho & Ht). pose proof (graph_reach_ok _ g Hr) as Hg. unfold init_exec. apply wp_bind, wp_gets. rewrite Eo.
  eapply wp_mono; [eapply (group_spec get_hw_ctx g l h o Hg Hl Ho Ht o [] [] ∅ g); [done| |by intros i Hi%not_elem_of_nil]| |done].
  - split; [done|done|apply NoDup_nil_2|..]; try (by intros i Hi%not_elem_of_nil); try (intros n kl; rewrite lookup_empty; done).
    by intros n d Hn%not_elem_of_nil.
  - cbn. intros ex g1 (m & Hp & Hcl). by exists o, m.
Qed.

(** * Launches *)

Definition type_of (g : gworld) (n : nat) : option cmd_type := ctype <$> commands (runtime g) !! cmd_of g n.

(** The command of node [n] of a graph is run by node [p] of an instance. *)
Definition placed (g g1 : gworld) (ex : list nat) (n p : nat) : Prop :=
  p ∈ ex /\ ((kernel_node g n /\ cmd_of g n ∈ runs_of g1 p) \/ (~ kernel_node g n /\ p = n)).

Section launch.
Context (g : gworld) (h : nat) (l : list nat) (Hg : gok g) (Hl : graphs g !! h = Some (Some l)).
Context (Hq : forall n, n ∈ l -> exists t, type_of g n = Some t /\ t ∈ [kernel_start; mem_cpy; empty]).

Lemma graph_node_type n : n ∈ l -> exists x cm, gnodes g !! n = Some x /\ commands (runtime g) !! m_cmd x = Some cm /\ ctype cm ∈ [kernel_start; mem_cpy; empty].
Proof.
  intros Hn. destruct (gk_node _ Hg h l n Hl Hn) as (x & Hx & _), (Hq n Hn) as (t & Ht & Htin). unfold type_of, cmd_of in Ht. rewrite Hx in Ht. cbn in Ht.
  destruct (commands (runtime g) !! m_cmd x) as [cm|] eqn:E; [|done]. injection Ht as <-. by exists x, cm.
Qed.

Lemma instance_node o ex m g1 i : o ≡ₚ l -> placing g l o ex m g1 -> i ∈ ex ->
  exists x cm, gnodes g1 !! i = Some x /\ commands (runtime g1) !! m_cmd x = Some cm /\ ctype cm ∈ [mem_cpy; kernel_list_start; empty].
Proof.
  intros Ho Hp Hi. destruct (pl_nl _ _ _ _ _ _ Hp i Hi) as [[HiP Hnk]|[Hil (cm & Hc & Ht)]].
  - destruct (graph_node_type i) as (x & cm & Hx & Hc & Ht); [by rewrite <- Ho|]. destruct (ge_nodes _ _ (fr_ext _ _ _ (pl_frame _ _ _ _ _ _ Hp)) i x Hx) as (y & Hy & E).
    exists y, cm. rewrite E. split_and!; [done|by apply (fr_cmds _ _ _ (pl_frame _ _ _ _ _ _ Hp))|]. assert (ctype cm <> kernel_start) by (intros Ek; apply Hnk; by exists x, cm). set_solver.
  - destruct (list_some _ _ Hil) as [x Hx]. unfold cmd_of in Hc. rewrite Hx in Hc. exists x, cm. split_and!; [done|done|]. rewrite Ht. set_solver.
Qed.

Lemma instance_quiet o ex m g1 g2 :
  o ≡ₚ l -> placing g l o ex m g1 -> closed ex g1 -> gnodes g2 = gnodes g1 ->
  (forall c x, commands (runtime g1) !! c = Some x -> ctype <$> commands (runtime g2) !! c = Some (ctype x)) -> quiet_exec g2 (fun c => ctype <$> commands (runtime g2) !! c) ex.
Proof.
  intros Ho Hp Hcl En Et. pose proof (pl_frame _ _ _ _ _ _ Hp) as Hf. split.
  - apply (NoDup_fmap_2_strong _); [|by apply (pl_nodup _ _ _ _ _ _ Hp)]. intros i j Hi Hj E. destruct (instance_node o ex m g1 i Ho Hp Hi) as (x & _ & Hx & _), (instance_node o ex m g1 j Ho Hp Hj) as (y & _ & Hy & _).
    unfold cmd_of in E. rewrite En, Hx, Hy in E. by eapply (gk_inj _ (pl_ok _ _ _ _ _ _ Hp)).
  - intros i Hi. destruct (instance_node o ex m g1 i Ho Hp Hi) as (x & cm & Hx & Hc & Ht). exists x, (ctype cm). by rewrite En, (Et _ cm Hc).
  - intros i d Hi. rewrite En. destruct (pl_nl _ _ _ _ _ _ Hp i Hi) as [[HiP Hnk]|[Hil _]].
    + assert (i ∈ l) as HiL by by rewrite <- Ho. rewrite (fr_deps _ _ _ Hf i HiL). intros Hd. destruct (gk_node _ Hg h l i Hl HiL) as (y & Hy & _ & _ & _ & Hdy).
      unfold get_deps_list in Hd. rewrite Hy in Hd. destruct (Hdy d Hd) as [HdL _]. destruct (graph_node_type d HdL) as (x & cm & Hx & Hc & Ht).
      destruct (ge_nodes _ _ (fr_ext _ _ _ Hf) d x Hx) as (z & Hz & E). exists z, (ctype cm). rewrite E, (Et _ cm (fr_cmds _ _ _ Hf _ _ Hc)). split_and!; [done|done|]. unfold quiet_types. set_solver.
    + intros Hd. destruct (instance_node o ex m g1 d Ho Hp (Hcl i Hi Hil d Hd)) as (x & cm & Hx & Hc & Ht). exists x, (ctype cm). rewrite (Et _ cm Hc). split_and!; [done|done|]. unfold quiet_types. set_solver.
Qed.

(** Where a node and its dependency are run. *)
Lemma instance_edge o ex m g1 n d :
  o ≡ₚ l -> placing g l o ex m g1 -> n ∈ l -> d ∈ get_deps_list (gnodes g) n -> kernel_node g n \/ ~ kernel_node g d ->
  exists p q, placed g g1 ex n p /\ placed g g1 ex d q /\
    ((p = q /\ before (cmd_of g d) (cmd_of g n) (runs_of g1 p)) \/ (before q p ex /\ q ∈ get_deps_list (gnodes g1) p)).
Proof.
  intros Ho Hp Hn Hd Hk. assert (n ∈ o) as HnO by by rewrite Ho.
  assert (d ∈ o) as HdO. { rewrite Ho. destruct (gk_node _ Hg h l n Hl Hn) as (y & Hy & _ & _ & _ & Hdy). unfold get_deps_list in Hd. rewrite Hy in Hd. by apply Hdy. }
  assert (forall i kl, m !! i = Some kl -> placed g g1 ex i kl) as Hin by (intros i kl Hm; destruct (pl_map _ _ _ _ _ _ Hp i kl Hm) as (_ & ? & ? & _ & ?); split; [done|by left]).
  assert (forall i, i ∈ o -> ~ kernel_node g i -> placed g g1 ex i i /\ place m i = i) as Hout.
  { intros i Hi Hki. split; [split; [by apply (pl_other _ _ _ _ _ _ Hp)|by right]|]. unfold place. destruct (m !! i) as [kl|] eqn:E; [|done]. by destruct (pl_map _ _ _ _ _ _ Hp i kl E) as (_ & ? & _). }
  assert (placed g g1 ex d (place m d)) as Hpd.
  { unfold place. destruct (m !! d) as [kl|] eqn:E; [by apply Hin|]. apply Hout; [done|]. intros Hkd. destruct (pl_kernel _ _ _ _ _ _ Hp d HdO Hkd). congruence. }
  destruct (m !! n) as [kl|] eqn:Em.
  - exists kl, (place m d). split_and!; [by apply Hin|done|]. destruct (pl_rel _ _ _ _ _ _ Hp n kl d Em Hd) as [E|?]; [left|by right]. split; [done|].
    eapply (pl_runs _ _ _ _ _ _ Hp); [done| |done]. unfold place in E. destruct (m !! d) as [k|] eqn:Ed; cbn in E; [by rewrite E|]. subst kl.
    destruct (pl_map _ _ _ _ _ _ Hp n d Em) as (_ & _ & _ & Hil & _). assert (d ∉ l) as []; [|by rewrite <- Ho]. eapply list_not_in_graph; [apply Hp|done|]. by rewrite (ge_graphs _ _ (fr_ext _ _ _ (pl_frame _ _ _ _ _ _ Hp))).
  - assert (~ kernel_node g n) as Hkn by (intros Hkn; destruct (pl_kernel _ _ _ _ _ _ Hp n HnO Hkn); congruence). destruct Hk as [?|Hkd]; [done|].
    exists n, d. split_and!; [by apply Hout|by apply Hout|right]. split; [by apply (pl_plain _ _ _ _ _ _ Hp)|]. by rewrite (fr_deps _ _ _ (pl_frame _ _ _ _ _ _ Hp) n Hn).
Qed.

Lemma placed_work o ex m g1 d q :
  o ≡ₚ l -> placing g l o ex m g1 -> d ∈ l -> type_of g d ∈ [Some kernel_start; Some mem_cpy] -> placed g g1 ex d q -> exists t, type_of g1 q = Some t /\ t ∈ work_types.
Proof.
  intros Ho Hp Hd Ht [Hq' Hpl]. pose proof (pl_frame _ _ _ _ _ _ Hp) as Hf. destruct Hpl as [[Hk Hr]|[Hnk ->]].
  - destruct (pl_nl _ _ _ _ _ _ Hp q Hq') as [[HqP _]|[_ (cm & Hc & Htc)]]; [|exists kernel_list_start; unfold type_of; rewrite Hc; cbn; rewrite Htc; split; [done|unfold work_types; set_solver]].
    destruct (gk_node _ (pl_ok _ _ _ _ _ _ Hp) h l q) as (x & Hx & _ & Hn & _); [by rewrite (ge_graphs _ _ (fr_ext _ _ _ Hf))|by rewrite <- Ho|].
    assert (cmd_of g1 q = m_cmd x) as Eq by (unfold cmd_of; by rewrite Hx). unfold runs_of in Hr. rewrite Eq, Hn in Hr. by apply not_elem_of_nil in Hr.
  - destruct (graph_node_type d Hd) as (x & cm & Hx & Hc & _). destruct (ge_nodes _ _ (fr_ext _ _ _ Hf) d x Hx) as (y & Hy & E). unfold type_of, cmd_of in Ht |- *. rewrite Hx in Ht. cbn in Ht. rewrite Hc in Ht.
    rewrite Hy. cbn. rewrite E, (fr_cmds _ _ _ Hf _ _ Hc). exists (ctype cm). split; [done|]. cbn in Ht. unfold work_types. apply elem_of_cons in Ht as [[= Ht]|[= Ht]%list_elem_of_singleton]; [by destruct Hnk; exists x, cm|rewrite Ht; set_solver].
Qed.
End launch.

Context (start_ok run_ok : nat -> bool).

Lemma run_in_order s ex g2 (t0 := fun c => ctype <$> commands (runtime g2) !! c) :
  quiet_exec g2 t0 ex -> (forall z, streams (runtime g2) !! s = Some z -> m_top_event z = None) ->
  exists hs, history (runtime (world_after (execute start_ok run_ok s ex g2))) = history (runtime g2) ++ hs /\ in_order g2 t0 ex hs.
Proof.
  intros Hq Htop. pose proof (ran_all start_ok run_ok s g2 t0 ex [] ex [] g2 Hq eq_refl) as Hw. unfold wp in Hw. destruct (execute _ _ s ex g2); apply Hw.
  1,3: split; [done|by rewrite app_nil_r|done|done|by intros c Hc%not_elem_of_nil|by intros n t Hn%not_elem_of_nil|by intros n x Hn%not_elem_of_nil].
  all: intros l1 n l2 d h1 h2 _ _ E; by destruct h1.
Qed.

(** C22: A launch keeps the dependencies of a graph without events.  Let [d] be a kernel or a copy
    that node [n] depends on, where [n] is a kernel if [d] is one.  In the instance both are
    run by some node.  Either it is the same list of kernels, in which [d] is before [n]; or, in each
    launch of the instance, whatever fails in it, the node of [n] starts only after that of [d]
    has been started and has ended in this launch. *)
Theorem launch_keeps_dependencies s g h l ex g1 g2 :
  graph_reach get_hw_ctx g -> graphs g !! h = Some (Some l) -> counts_fit (gnodes g) l ->
  (forall n, n ∈ l -> exists t, type_of g n = Some t /\ t ∈ [kernel_start; mem_cpy; empty]) ->
  init_exec get_hw_ctx l g = Ok ex g1 ->
  gnodes g2 = gnodes g1 -> (forall c x, commands (runtime g1) !! c = Some x -> ctype <$> commands (runtime g2) !! c = Some (ctype x)) ->
  (forall z, streams (runtime g2) !! s = Some z -> m_top_event z = None) ->
  exists hs, history (runtime (world_after (execute start_ok run_ok s ex g2))) = history (runtime g2) ++ hs /\
    forall n d, n ∈ l -> d ∈ get_deps_list (gnodes g) n -> type_of g d ∈ [Some kernel_start; Some mem_cpy] -> kernel_node g n \/ ~ kernel_node g d ->
      exists p q, placed g g1 ex n p /\ placed g g1 ex d q /\
        ((p = q /\ before (cmd_of g d) (cmd_of g n) (runs_of g1 p)) \/
         (forall h1 h2, hs = h1 ++ Start (cmd_of g1 p) :: h2 -> started_and_done (cmd_of g1 q) h1)).
Proof.
  intros Hr Hl Hc Hty Hi En Ec Htop. pose proof (graph_reach_ok _ g Hr) as Hg. pose proof (instance_placing g h l Hr Hl Hc) as Hp. unfold wp in Hp. rewrite Hi in Hp. destruct Hp as (o & m & Ho & Hp & Hcl).
  pose proof (instance_quiet g h l Hg Hl Hty o ex m g1 g2 Ho Hp Hcl En Ec) as Hq. destruct (run_in_order s ex g2 Hq Htop) as (hs & Eh & Hord). exists hs. split; [done|].
  intros n d Hn Hd Htd Hk. destruct (instance_edge g h l Hg Hl o ex m g1 n d Ho Hp Hn Hd Hk) as (p & q & Hpn & Hpd & Hrel). exists p, q. split_and!; [done|done|]. destruct Hrel as [?|[(l1 & l2 & Eex & Hq1) Hqd]]; [by left|right].
  assert (d ∈ l) as HdL. { destruct (gk_node _ Hg h l n Hl Hn) as (y & Hy & _ & _ & _ & Hdy). unfold get_deps_list in Hd. rewrite Hy in Hd. by apply Hdy. }
  destruct (placed_work g h l Hg Hl Hty o ex m g1 d q Ho Hp HdL Htd Hpd) as (t & Ht & Hw). assert (forall i, cmd_of g2 i = cmd_of g1 i) as Ecm by (intros i; unfold cmd_of; by rewrite En).
  intros h1 h2 E. rewrite <- (Ecm p) in E. rewrite <- (Ecm q). eapply (Hord l1 p l2 q); [done| |exact E]. split_and!; [done|by rewrite En|]. exists t. split; [|done]. rewrite Ecm. unfold type_of in Ht. destruct (commands (runtime g1) !! cmd_of g1 q) as [cm|] eqn:Eq; [|done]. injection Ht as <-. by apply Ec.
Qed.
End order.

(** * A graph *)

Section build.
Context (get_hw_ctx : nat -> option nat).

(** A sequence of calls. *)
Fixpoint build_graph (calls : list graph_call) (g : gworld) : gworld := match calls with [] => g | a :: calls' => build_graph calls' (world_after (run_graph get_hw_ctx a g)) end.
Fixpoint handles_exist (calls : list graph_call) (g : gworld) : bool :=
  match calls with [] => true | a :: calls' => forallb (fun d => (d <? length (gnodes g))%nat) (handles a) && handles_exist calls' (world_after (run_graph get_hw_ctx a g)) end.

Lemma build_reach calls g : graph_reach get_hw_ctx g -> handles_exist calls g = true -> graph_reach get_hw_ctx (build_graph calls g).
Proof.
  revert g. induction calls as [|a calls IH]; intros g Hr; [done|]. cbn. intros [Hh Hc]%andb_prop. apply IH; [|done]. apply gr_call; [done|].
  apply Forall_forall. intros d Hd. rewrite forallb_forall in Hh. apply Nat.ltb_lt, Hh. by apply list_elem_of_In.
Qed.
End build.

Definition one_context (_ : nat) : option nat := Some 7%nat.
Definition succeeds (_ : nat) : bool := true.
Definition one_stream : gworld := GWorld (World [] [Stream false false true [] None] [] [] 0) [] [] [] ∅.

(** Two copies and three kernels. *)
Definition five_nodes : gworld := build_graph one_context [GraphCreate; AddMemcpy 0 [] 64; AddKernel 0 [0]; AddKernel 0 [1]; AddMemcpy 0 [0] 64; AddKernel 0 [2; 3]]%nat one_stream.

Lemma five_nodes_reach : graph_reach one_context five_nodes.
Proof. apply build_reach; [apply gr_empty|by vm_compute]. Qed.

Lemma five_nodes_graph : graphs five_nodes !! 0%nat = Some (Some [0; 1; 2; 3; 4]%nat).
Proof. by vm_compute. Qed.

Lemma five_nodes_fit : counts_fit (gnodes five_nodes) [0; 1; 2; 3; 4]%nat.
Proof. split; [intros n Hn; each_node; by vm_compute|by vm_compute]. Qed.

Lemma graphs_always_ordered_witness :
  exists o, get_ordered_nodes (gnodes five_nodes) [0; 1; 2; 3; 4]%nat = inl o /\ o ≡ₚ [0; 1; 2; 3; 4]%nat /\ topological (gnodes five_nodes) o.
Proof. apply (graphs_always_ordered one_context five_nodes 0 [0; 1; 2; 3; 4]%nat); [apply five_nodes_reach|apply five_nodes_graph|apply five_nodes_fit]. Defined.

(** Its instance: the copies, a list of one kernel, and one of two. *)
Definition five_nodes_exec : list nat := [0; 5; 3; 6]%nat.
Definition five_nodes_after : gworld := world_after (init_exec one_context [0; 1; 2; 3; 4]%nat five_nodes).

Lemma launch_keeps_dependencies_witness :
  history (runtime (world_after (execute succeeds succeeds 0 five_nodes_exec five_nodes_after))) = [Start 0; Done 0; Start 5; Done 0; Start 3; Done 5; Done 3; Start 6]%nat /\
  exists hs, history (runtime (world_after (execute succeeds succeeds 0 five_nodes_exec five_nodes_after))) = history (runtime five_nodes_after) ++ hs /\
    forall n d, n ∈ [0; 1; 2; 3; 4]%nat -> d ∈ get_deps_list (gnodes five_nodes) n -> type_of five_nodes d ∈ [Some kernel_start; Some mem_cpy] ->
      kernel_node five_nodes n \/ ~ kernel_node five_nodes d ->
      exists p q, placed five_nodes five_nodes_after five_nodes_exec n p /\ placed five_nodes five_nodes_after five_nodes_exec d q /\
        ((p = q /\ before (cmd_of five_nodes d) (cmd_of five_nodes n) (runs_of five_nodes_after p)) \/
         (forall h1 h2, hs = h1 ++ Start (cmd_of five_nodes_after p) :: h2 -> started_and_done (cmd_of five_nodes_after q) h1)).
Proof.
  split; [by vm_compute|].
  apply (launch_keeps_dependencies one_context succeeds succeeds 0 five_nodes 0 [0; 1; 2; 3; 4]%nat five_nodes_exec five_nodes_after five_nodes_after);
    [apply five_nodes_reach|apply five_nodes_graph|apply five_nodes_fit| |by vm_compute|done|by intros c x ->|].
  - intros n Hn. each_node; (eexists; split; [by vm_compute|set_solver]).
  - intros z. vm_compute. by intros [= <-].
Defined.

(** * Behaviours that users do not expect *)

Definition launched (start_ok run_ok : nat -> bool) (g : gworld) (l : list nat) : list action :=
  match init_exec one_context l g with Ok ex g1 => history (runtime (world_after (execute start_ok run_ok 0 ex g1))) | Err _ _ => [] end.

(** A copy that depends on a kernel waits for the command of the kernel, which is never
    submitted: the list that runs the kernel, command 2, has not ended when the copy starts. *)
Example copy_does_not_wait_for_kernel :
  launched succeeds succeeds (build_graph one_context [GraphCreate; AddKernel 0 []; AddMemcpy 0 [0] 64]%nat one_stream) [0; 1]%nat = [Start 2; Start 1]%nat.
Proof. by vm_compute. Qed.

(** An empty node is no barrier for the kernels that it depends on, which belong to two
    hardware contexts here: all three lists run at once. *)
Example empty_node_is_no_barrier :
  let two c := Some (if (c =? 1)%nat then 1%nat else 0%nat) in
  let g := build_graph two [GraphCreate; AddKernel 0 []; AddKernel 0 []; AddEmpty 0 [0; 1]; AddKernel 0 [2]]%nat one_stream in
  match init_exec two [0; 1; 2; 3]%nat g with Ok ex g1 => history (runtime (world_after (execute succeeds succeeds 0 ex g1))) | Err _ _ => [] end = [Start 4; Start 5; Start 6]%nat.
Proof. by vm_compute. Qed.

(** When a list of kernels cannot be started, the nodes after it are not run, and neither the
    launch nor [hipStreamSynchronize] reports it. *)
Example failed_launch_is_silent :
  let g := build_graph one_context [GraphCreate; AddMemcpy 0 [] 64; AddKernel 0 [0]; AddMemcpy 0 [1] 64; Instantiate 0]%nat one_stream in
  let start_ok c := negb (c =? 3)%nat in
  match (hip_graph_launch start_ok succeeds 0 (Some 0%nat) ;;; lift (hip_stream_synchronize start_ok succeeds (Some 0%nat))) g with
  | Ok _ g' => execs g' = [[0; 3; 2]]%nat /\ history (runtime g') = [Start 0; Done 0; Done 0]%nat
  | Err _ _ => False
  end.
Proof. by vm_compute. Qed.

(** A call that fails for a dependency of another graph leaves its node in the graph. *)
Example failed_add_keeps_node :
  match (build_graph one_context [GraphCreate; GraphCreate; AddKernel 0 []; AddKernel 1 []]%nat one_stream) with
  | g => match hip_graph_add_kernel_node 0 [0; 1]%nat g with
         | Err std_error g' => graphs g' = [Some [0; 2]; Some [1]]%nat /\ get_deps_list (gnodes g') 2 = [0%nat]
         | _ => False
         end
  end.
Proof. by vm_compute. Qed.

(** An element size of 0 divides by zero, and the size of a fill wraps around. *)
Example memset_zero_divides : memset_size 0 64 0 16 1 = None.
Proof. by vm_compute. Qed.

Example memset_size_wraps : memset_size 0 64 4 (2 ^ 62 + 1) 1 = Some (inl 4).
Proof. by vm_compute. Qed.

(** A stream that waits for an event behind the kernel of another stream, and a graph of two kernels of
    different contexts, that is launched into the stream: both lists of kernels wait for the event, and
    once it is complete list 6 starts while list 5, that it depends on, is running. *)
Definition two_contexts (c : nat) : option nat := Some (c mod 2)%nat.
Definition waiting_stream : list api :=
  [StreamCreate 1; StreamCreate 1; EventCreate; LaunchKernel (Some 1%nat); EventRecord 0 (Some 1%nat); StreamWaitEvent (Some 0%nat) 0 0].
Definition launched_waiting : option (list action) :=
  w ← play succeeds succeeds waiting_stream empty_world;
  match init_exec two_contexts [0; 1]%nat (build_graph two_contexts [GraphCreate; AddKernel 0 []; AddKernel 0 [0]]%nat (GWorld w [] [] [] ∅)) with
  | Ok ex g => history <$> play succeeds succeeds [EventSynchronize 0] (runtime (world_after (execute succeeds succeeds 0 ex g)))
  | Err _ _ => None
  end.

Example launch_after_wait : launched_waiting = Some [Start 1; Done 1; Start 5; Start 6]%nat.
Proof. by vm_compute. Qed.
