(* ===== verification/KdsEnv.v ===== *)
(** Commands of the kernel domain scheduler, registers of a compute unit, and the operations that
    an implementation of a compute unit provides, [core/common/drv]: [kds_command.h] and
    [struct xcu_funcs] of [xrt_cu.h].

    A command is its index in the list of all commands.  The calls of [notify_host] are kept
    in a list.  The device is a parameter: the value that a register is read with, given all
    accesses before. *)

From S2P Require Import Prelude.

(** * Commands *)

Inductive kds_status := KDS_NEW | KDS_QUEUED | KDS_RUNNING | KDS_COMPLETED | KDS_ERROR | KDS_ABORT | KDS_TIMEOUT | KDS_SKCRASHED.
#[export] Instance kds_status_eq_dec : EqDecision kds_status.
Proof. solve_decision. Defined.

Definition kds_status_num (s : kds_status) : nat :=
  match s with
  | KDS_NEW => 0 | KDS_QUEUED => 1 | KDS_RUNNING => 2 | KDS_COMPLETED => 3 | KDS_ERROR => 4 | KDS_ABORT => 5 | KDS_TIMEOUT => 6 | KDS_SKCRASHED => 7
  end.

Inductive kds_opcode := OP_NONE | OP_CONFIG | OP_START | OP_ABORT | OP_CONFIG_SK | OP_START_SK | OP_CLK_CALIB | OP_VALIDATE | OP_GET_STAT.
#[export] Instance kds_opcode_eq_dec : EqDecision kds_opcode.
Proof. solve_decision. Defined.

Inductive payload := REGMAP | KEY_VAL | XGQ_CMD.

(** [info] is the payload as words of 32 bits, [isize] its size in bytes. *)
Record kds_command := KdsCommand {
  client : nat;
  status : kds_status;
  opcode : kds_opcode;
  payload_type : payload;
  info : list Z;
  isize : Z;
  exec_bo_handle : Z;
  timestamp_enabled : bool;
  timestamp : list Z;
}.

Definition set_xstatus (s : kds_status) (c : kds_command) : kds_command :=
  KdsCommand (client c) s (opcode c) (payload_type c) (info c) (isize c) (exec_bo_handle c) (timestamp_enabled c) (timestamp c).
Definition set_timestamp (l : list Z) (c : kds_command) : kds_command :=
  KdsCommand (client c) (status c) (opcode c) (payload_type c) (info c) (isize c) (exec_bo_handle c) (timestamp_enabled c) l.

(** * Registers *)

(** A register that has been read or written, or words that have been written to the
    memory for descriptors. *)
Inductive access := Rd (reg val : Z) | Wr (reg val : Z) | Slot (offset : Z) (words : list Z).
#[export] Instance access_eq_dec : EqDecision access.
Proof. solve_decision. Defined.

Record kenv := KEnv {
  xcmds : list kds_command;
  bus : list access;
  host : list (nat * kds_status);
  ktime : Z;
}.

Definition on_xcmds (f : list kds_command -> list kds_command) (e : kenv) : kenv := KEnv (f (xcmds e)) (bus e) (host e) (ktime e).
Definition on_bus (f : list access -> list access) (e : kenv) : kenv := KEnv (xcmds e) (f (bus e)) (host e) (ktime e).
Definition on_host (f : list (nat * kds_status) -> list (nat * kds_status)) (e : kenv) : kenv := KEnv (xcmds e) (bus e) (f (host e)) (ktime e).
Definition set_ktime (t : Z) (e : kenv) : kenv := KEnv (xcmds e) (bus e) (host e) t.

Definition set_status (c : nat) (s : kds_status) (e : kenv) : kenv := on_xcmds (alter (set_xstatus s) c) e.

(** Time advances when it is read. *)
Definition set_xcmd_timestamp (c : nat) (s : kds_status) (e : kenv) : kenv :=
  match xcmds e !! c with
  | Some x => if timestamp_enabled x then set_ktime (ktime e + 1) (on_xcmds (alter (set_timestamp (<[kds_status_num s := ktime e]> (timestamp x))) c) e) else e
  | None => e
  end.

Definition notify_host (c : nat) (s : kds_status) (e : kenv) : kenv := on_host (fun l => l ++ [(c, s)]) e.

Section registers.
Context (device : list access -> Z -> Z).

Definition cu_read32 (reg : Z) (e : kenv) : Z * kenv := let v := u32 (device (bus e) reg) in (v, on_bus (fun l => l ++ [Rd reg v]) e).
Definition cu_write32 (reg val : Z) (e : kenv) : kenv := on_bus (fun l => l ++ [Wr (u32 reg) (u32 val)]) e.
Definition cu_writes (l : list (Z * Z)) (e : kenv) : kenv := fold_left (fun e '(reg, val) => cu_write32 reg val e) l e.
End registers.

Definition CU_AP_START : Z := 1.
Definition CU_AP_DONE : Z := 2.
Definition CU_AP_IDLE : Z := 4.
Definition CU_AP_CONTINUE : Z := 16.
Definition CU_AP_SW_RESET : Z := 256.
Definition CU_AP_CRASHED : Z := 4294967295.
Definition CU_INTR_DONE : Z := 1.
Definition CU_INTR_READY : Z := 2.
Definition EBUSY : Z := 16.
Definition EINVAL : Z := 22.

Record xcu_status := XcuStatus { num_done : Z; num_ready : Z; new_status : Z; st_rcode : Z }.

(** * Compute units *)

(** [struct xcu_funcs], for the functions that the scheduler calls. *)
Class XcuFuncs (C : Type) := {
  alloc_credit : C -> Z * C;
  free_credit : Z -> C -> C;
  peek_credit : C -> Z;
  start : C -> kenv -> C * kenv;
  check : bool -> xcu_status -> C -> kenv -> xcu_status * C * kenv;
  submit_config : nat -> C -> kenv -> Z * C * kenv;
  get_complete : C -> option nat * C;
  abort : (kds_command -> bool) -> C -> kenv -> Z * C * kenv;
  enable_intr : Z -> C -> kenv -> C * kenv;
  disable_intr : Z -> C -> kenv -> C * kenv;
  clear_intr : C -> kenv -> Z * C * kenv;
}.

(** A command but for its status and its times. *)
Definition command_frame (x : kds_command) : kds_command := set_timestamp [] (set_xstatus KDS_NEW x).

Definition stat (e : kenv) (i : nat) : option kds_status := status <$> xcmds e !! i.

(** What the functions leave of the commands. *)
Record env_step (e e' : kenv) : Prop := {
  es_host : host e' = host e;
  es_cmds : forall c, command_frame <$> xcmds e' !! c = command_frame <$> xcmds e !! c;
}.

(** Only registers have been accessed. *)
Record env_same (e e' : kenv) : Prop := {
  en_host : host e' = host e;
  en_cmds : xcmds e' = xcmds e;
}.

#[export] Instance env_step_preorder : PreOrder env_step.
Proof. split; [by intros e; split|]. intros e1 e2 e3 [H1 H2] [K1 K2]. split; [congruence|]. intros c. by rewrite K2, H2. Qed.

#[export] Instance env_same_preorder : PreOrder env_same.
Proof. split; [by intros e; split|]. intros e1 e2 e3 [H1 H2] [K1 K2]. split; congruence. Qed.

Lemma env_same_step e e' : env_same e e' -> env_step e e'.
Proof. intros [H1 H2]. split; [done|]. intros c. by rewrite H2. Qed.

Lemma env_same_stat e e' i : env_same e e' -> stat e' i = stat e i.
Proof. intros [_ H]. unfold stat. by rewrite H. Qed.

Lemma env_same_bus f e : env_same e (on_bus f e).
Proof. by split. Qed.

Lemma env_same_writes l e : env_same e (cu_writes l e).
Proof. unfold cu_writes. revert e. induction l as [|[reg val] l IH]; intros e; [done|]. etrans; [|apply IH]. by split. Qed.

Lemma lookup_set_status c s e i : xcmds (set_status c s e) !! i = (if decide (i = c) then set_xstatus s else id) <$> xcmds e !! i.
Proof. cbn. destruct (decide (i = c)) as [->|]; [by rewrite list_lookup_alter_eq|rewrite list_lookup_alter_ne by done; by destruct (xcmds e !! i)]. Qed.

Lemma env_step_status c s e : env_step e (set_status c s e).
Proof. split; [done|]. intros i. rewrite lookup_set_status. by destruct (decide (i = c)), (xcmds e !! i). Qed.

Lemma stat_set_status c s e i : stat (set_status c s e) i = if decide (i = c) then (fun _ => s) <$> stat e i else stat e i.
Proof. unfold stat. rewrite lookup_set_status. by destruct (decide (i = c)), (xcmds e !! i). Qed.

Create HintDb kds.
#[export] Hint Resolve env_same_bus env_same_writes env_same_step env_step_status : kds.

(** A matching function does not look at the status and the times. *)
Definition framed (m : kds_command -> bool) : Prop := forall x y, command_frame x = command_frame y -> m x = m y.

(** Commands have moved from the submitted to the completed ones, in order, and have got the
    status [s]. *)
Record list_moves (s : kds_status) (sub com sub' com' : list nat) (e e' : kenv) : Prop := {
  lm_step : env_step e e';
  lm_lists : com' ++ sub' = com ++ sub;
  lm_prefix : com `prefix_of` com';
  lm_other : forall i, i ∉ sub -> stat e' i = stat e i;
  lm_each : forall i, stat e' i = stat e i \/ stat e' i = (fun _ => s) <$> stat e i;
  lm_status : forall i, i ∈ com' -> i ∈ com \/ stat e' i = (fun _ => s) <$> stat e i;
}.

Lemma list_moves_same s sub com e e' : env_same e e' -> list_moves s sub com sub com e e'.
Proof. intros He. split; [by apply env_same_step|done|done| | |by left]; intros i; [intros _|left]; by apply env_same_stat. Qed.

Lemma list_moves_left s sub com sub' com' e e' i : list_moves s sub com sub' com' e e' -> i ∈ sub' -> i ∈ sub.
Proof. intros [_ A3 [k Hk] _ _ _] Hi. rewrite Hk, <- app_assoc in A3. apply app_inv_head in A3. rewrite <- A3. set_solver. Qed.

Lemma list_moves_trans s sub1 com1 sub2 com2 sub3 com3 e1 e2 e3 :
  list_moves s sub1 com1 sub2 com2 e1 e2 -> list_moves s sub2 com2 sub3 com3 e2 e3 -> list_moves s sub1 com1 sub3 com3 e1 e3.
Proof.
  intros HA HB. pose proof HA as [A1 A3 A4 A5 A6 A7]. pose proof HB as [B1 B3 B4 B5 B6 B7].
  assert (forall i, stat e2 i = (fun _ => s) <$> stat e1 i -> stat e3 i = (fun _ => s) <$> stat e1 i) as Hset by (intros i E; destruct (B6 i) as [->| ->]; rewrite E; [done|by destruct (stat e1 i)]).
  split; [by etrans|congruence|by etrans| | |].
  - intros i Hi. rewrite B5; [by apply A5|]. intros Hin. apply Hi. by eapply list_moves_left.
  - intros i. destruct (A6 i) as [E|E]; [rewrite <- E; apply B6|right; by apply Hset].
  - intros i Hi. destruct (B7 i Hi) as [Hi2|E]; [destruct (A7 i Hi2) as [?|E]; [by left|right; by apply Hset]|]. right. rewrite E. destruct (A6 i) as [->| ->]; [done|by destruct (stat e1 i)].
Qed.

Lemma list_moves_first s i l com e : list_moves s (i :: l) com l (com ++ [i]) e (set_status i s e).
Proof.
  split; [apply env_step_status|by rewrite <- app_assoc|by exists [i]| | |].
  - intros j Hj. rewrite stat_set_status, decide_False; [done|]. intros ->. set_solver.
  - intros j. rewrite stat_set_status. destruct (decide (j = i)); [by right|by left].
  - intros j [Hj|Hj]%elem_of_app; [by left|right]. apply list_elem_of_singleton in Hj as ->. by rewrite stat_set_status, decide_True.
Qed.

(** The loop of an abort over the submitted commands: those that match go to the completed
    ones. *)
Fixpoint abort_matching (m : kds_command -> bool) (l kept k : list nat) (e : kenv) : list nat * list nat * kenv :=
  match l with
  | [] => (kept, k, e)
  | i :: l' =>
      match xcmds e !! i with
      | Some x => if m x then abort_matching m l' kept (k ++ [i]) (set_status i KDS_TIMEOUT e) else abort_matching m l' (kept ++ [i]) k e
      | None => abort_matching m l' (kept ++ [i]) k e
      end
  end.

Lemma abort_matching_spec m l kept k e :
  let '(l', k', e') := abort_matching m l kept k e in
  env_step e e' /\ k' ++ l' ≡ₚ k ++ kept ++ l /\ k `prefix_of` k' /\ (forall i, i ∉ l -> stat e' i = stat e i) /\
  (forall i, stat e' i = stat e i \/ stat e' i = (fun _ => KDS_TIMEOUT) <$> stat e i) /\
  (forall i, i ∈ k' -> i ∈ k \/ stat e' i = (fun _ => KDS_TIMEOUT) <$> stat e i).
Proof.
  revert kept k e. induction l as [|i l IH]; intros kept k e; cbn [abort_matching]; [rewrite app_nil_r; split_and!; try done; by left|].
  assert (k ++ (kept ++ [i]) ++ l ≡ₚ k ++ kept ++ i :: l) as Ep by by rewrite <- app_assoc.
  destruct (xcmds e !! i) as [x|]; [destruct (m x)|].
  - specialize (IH kept (k ++ [i]) (set_status i KDS_TIMEOUT e)). destruct (abort_matching m l kept (k ++ [i]) _) as [[l' k'] e']. destruct IH as (A1 & A2 & A3 & A4 & A5 & A6).
    assert (forall j, stat (set_status i KDS_TIMEOUT e) j = stat e j \/ stat (set_status i KDS_TIMEOUT e) j = (fun _ => KDS_TIMEOUT) <$> stat e j) as Hs by (intros j; rewrite stat_set_status; destruct (decide (j = i)); [by right|by left]).
    assert (forall j, stat (set_status i KDS_TIMEOUT e) j = (fun _ => KDS_TIMEOUT) <$> stat e j -> stat e' j = (fun _ => KDS_TIMEOUT) <$> stat e j) as Hset by (intros j E; destruct (A5 j) as [->| ->]; rewrite E; [done|by destruct (stat e j)]).
    split_and!; [etrans; [apply env_step_status|done]| |etrans; [by exists [i]|done]| | |].
    + rewrite A2, <- app_assoc. solve_Permutation.
    + intros j Hj. rewrite A4, stat_set_status, decide_False; [done| |]; set_solver.
    + intros j. destruct (Hs j) as [E|E]; [rewrite <- E; apply A5|right; by apply Hset].
    + intros j Hj. destruct (A6 j Hj) as [[Hjk|Hji]%elem_of_app|E]; [by left| |].
      * right. apply Hset. apply list_elem_of_singleton in Hji as ->. by rewrite stat_set_status, decide_True.
      * right. rewrite E. destruct (Hs j) as [->| ->]; [done|by destruct (stat e j)].
  - specialize (IH (kept ++ [i]) k e). destruct (abort_matching m l (kept ++ [i]) k e) as [[l' k'] e']. destruct IH as (A1 & A2 & A3 & A4 & A5 & A6). split_and!; [done|by rewrite A2, Ep|done|set_solver|done|done].
  - specialize (IH (kept ++ [i]) k e). destruct (abort_matching m l (kept ++ [i]) k e) as [[l' k'] e']. destruct IH as (A1 & A2 & A3 & A4 & A5 & A6). split_and!; [done|by rewrite A2, Ep|done|set_solver|done|done].
Qed.

Lemma abort_matching_rest m l kept k e :
  framed m -> (forall i x, i ∈ kept -> xcmds e !! i = Some x -> m x = false) ->
  let '(l', _, _) := abort_matching m l kept k e in forall i x, i ∈ l' -> xcmds e !! i = Some x -> m x = false.
Proof.
  intros Hm. revert kept k e. induction l as [|i l IH]; intros kept k e Hk; cbn [abort_matching]; [done|]. destruct (xcmds e !! i) as [x|] eqn:E; [destruct (m x) eqn:Em|].
  - specialize (IH kept (k ++ [i]) (set_status i KDS_TIMEOUT e)). destruct (abort_matching m l kept (k ++ [i]) _) as [[l' k'] e']. intros j y Hj Hy.
    assert (forall j z, xcmds e !! j = Some z -> exists z', xcmds (set_status i KDS_TIMEOUT e) !! j = Some z' /\ m z' = m z) as Hz.
    { intros j' z Hz. rewrite lookup_set_status, Hz. destruct (decide (j' = i)); [|by exists z]. exists (set_xstatus KDS_TIMEOUT z). split; [done|by apply Hm]. }
    destruct (Hz j y Hy) as (y' & Hy' & <-). eapply IH; [|exact Hj|exact Hy']. intros j2 z2 Hj2 Hz2. rewrite lookup_set_status in Hz2. destruct (xcmds e !! j2) as [z|] eqn:Ez; [|done]. cbn in Hz2.
    rewrite <- (Hk j2 z Hj2 Ez). apply Hm. injection Hz2 as <-. by destruct (decide (j2 = i)).
  - apply IH. intros j y [Hj|Hj]%elem_of_app Hy; [by apply (Hk j)|]. apply list_elem_of_singleton in Hj as ->. congruence.
  - apply IH. intros j y [Hj|Hj]%elem_of_app Hy; [by apply (Hk j)|]. apply list_elem_of_singleton in Hj as ->. congruence.
Qed.

(** What a compute unit promises to the scheduler.  It holds commands that have been submitted, in
    their order, and ones that have completed, and it has a number of credits.  HLS compute units and
    fast adapters keep these laws.  The other implementations do not: the credit of
    [cu_xgq.c] never decreases, and [cu_scu.c] completes commands of a soft kernel that has crashed
    with [KDS_SKCRASHED].  What is proved from the laws says nothing about these two. *)
Class XcuLaws (C : Type) `{XcuFuncs C} := {
  submitted : C -> list nat;
  completed : C -> list nat;
  law_alloc c : let '(n, c') := alloc_credit c in
    submitted c' = submitted c /\ completed c' = completed c /\ n = peek_credit c /\ peek_credit c' = (if peek_credit c =? 0 then 0 else s32 (peek_credit c - 1));
  law_free n c : submitted (free_credit n c) = submitted c /\ completed (free_credit n c) = completed c;
  law_start c e : let '(c', e') := start c e in
    submitted c' = submitted c /\ completed c' = completed c /\ peek_credit c' = peek_credit c /\ env_same e e';
  law_check f s c e : let '(_, c', e') := check f s c e in
    env_step e e' /\ peek_credit c' = peek_credit c /\ completed c' ++ submitted c' = completed c ++ submitted c /\ completed c `prefix_of` completed c' /\
    (forall i, i ∉ submitted c -> stat e' i = stat e i) /\ (forall i, i ∈ completed c' -> i ∈ completed c \/ stat e' i = (fun _ => KDS_COMPLETED) <$> stat e i);
  law_submit i c e : let '(r, c', e') := submit_config i c e in
    env_same e e' /\ peek_credit c' = peek_credit c /\ completed c' = completed c /\ submitted c' = submitted c ++ (if r =? 0 then [i] else []);
  law_complete c : let '(o, c') := get_complete c in
    submitted c' = submitted c /\ peek_credit c' = peek_credit c /\ completed c = option_list o ++ completed c' /\ (o = None -> completed c = []);
  law_abort m c e : framed m -> let '(_, c', e') := abort m c e in
    env_step e e' /\ completed c' ++ submitted c' ≡ₚ completed c ++ submitted c /\ completed c `prefix_of` completed c' /\
    (forall i, i ∉ submitted c -> stat e' i = stat e i) /\ (forall i, i ∈ completed c' -> i ∈ completed c \/ stat e' i = (fun _ => KDS_TIMEOUT) <$> stat e i) /\
    (forall i x, i ∈ submitted c' -> xcmds e !! i = Some x -> m x = false);
  law_enable i c e : let '(c', e') := enable_intr i c e in
    submitted c' = submitted c /\ completed c' = completed c /\ peek_credit c' = peek_credit c /\ env_same e e';
  law_disable i c e : let '(c', e') := disable_intr i c e in
    submitted c' = submitted c /\ completed c' = completed c /\ peek_credit c' = peek_credit c /\ env_same e e';
  law_clear c e : let '(_, c', e') := clear_intr c e in
    submitted c' = submitted c /\ completed c' = completed c /\ peek_credit c' = peek_credit c /\ env_same e e';
}.
