(* ===== verification/KdsHls.v ===== *)
(** Compute units of the HLS kind, [core/common/drv/cu_hls.c], with the protocols
    [ap_ctrl_hs] and [ap_ctrl_chain].

    [kds_echo], the content of memory behind the payload of a command, and the device are
    parameters. *)

From S2P Require Import Prelude KdsEnv.

Definition CTRL : Z := 0.
Definition GIE : Z := 4.
Definition IER : Z := 8.
Definition ISR : Z := 12.
Definition ARGS : Z := 16.

(** Counters are ints and [done] is unsigned. *)
Record xrt_cu_hls := XrtCuHls {
  max_credits : Z;
  credits : Z;
  run_cnts : Z;
  ctrl_chain : bool;
  sw_reset : bool;
  done_irq : Z;
  hls_submitted : list nat;
  hls_completed : list nat;
}.

Definition set_credits (n : Z) (c : xrt_cu_hls) : xrt_cu_hls := XrtCuHls (max_credits c) n (run_cnts c) (ctrl_chain c) (sw_reset c) (done_irq c) (hls_submitted c) (hls_completed c).
Definition set_run_cnts (n : Z) (c : xrt_cu_hls) : xrt_cu_hls := XrtCuHls (max_credits c) (credits c) n (ctrl_chain c) (sw_reset c) (done_irq c) (hls_submitted c) (hls_completed c).
Definition set_done (n : Z) (c : xrt_cu_hls) : xrt_cu_hls := XrtCuHls (max_credits c) (credits c) (run_cnts c) (ctrl_chain c) (sw_reset c) n (hls_submitted c) (hls_completed c).
Definition set_lists (l k : list nat) (c : xrt_cu_hls) : xrt_cu_hls := XrtCuHls (max_credits c) (credits c) (run_cnts c) (ctrl_chain c) (sw_reset c) (done_irq c) l k.

Definition bit (v m : Z) : bool := negb (Z.land v m =? 0).

Definition cu_move_to_complete (s : kds_status) (c : xrt_cu_hls) (e : kenv) : xrt_cu_hls * kenv :=
  match hls_submitted c with
  | [] => (c, e)
  | i :: l => (set_lists l (hls_completed c ++ [i]) (set_run_cnts (s32 (run_cnts c - 1)) c), set_status i s e)
  end.

Fixpoint move_to_complete (n : nat) (s : kds_status) (c : xrt_cu_hls) (e : kenv) : xrt_cu_hls * kenv :=
  match n with O => (c, e) | S n' => let '(c', e') := cu_move_to_complete s c e in move_to_complete n' s c' e' end.

Definition cu_hls_alloc_credit (c : xrt_cu_hls) : Z * xrt_cu_hls := if credits c =? 0 then (0, c) else (credits c, set_credits (s32 (credits c - 1)) c).
Definition cu_hls_free_credit (count : Z) (c : xrt_cu_hls) : xrt_cu_hls :=
  let n := s32 (credits c + count) in set_credits (if max_credits c <? n then max_credits c else n) c.
Definition cu_hls_peek_credit (c : xrt_cu_hls) : Z := credits c.

Section hls.
Context (kds_echo : bool) (past : nat -> Z) (device : list access -> Z -> Z).

(** A word of a payload, and of what follows it. *)
Definition word (data : list Z) (i : Z) : Z := default (past (Z.to_nat i)) (data !! Z.to_nat i).

Definition consecutive (data : list Z) (first num_reg : Z) : list (Z * Z) := (fun i => (ARGS + i * 4, word data (first + i))) <$> seqZ 0 num_reg.
(** [for (i = 0; i < num_reg; i += 2)]. *)
Definition pairs (data : list Z) (first num_reg : Z) : list (Z * Z) := (fun i => (word data (first + 2 * i), word data (first + 2 * i + 1))) <$> seqZ 0 ((num_reg + 1) / 2).

(** The header of a command of XGQ: an opcode of 16 bits and a count of 15; the header has 8
    bytes, and the type of the pairs one word more. *)
Definition hdr_opcode (data : list Z) : Z := Z.land (word data 0) 65535.
Definition hdr_count (data : list Z) : Z := Z.land (Z.shiftr (word data 0) 16) 32767.
Definition XGQ_CMD_OP_START_CUIDX : Z := 256.
Definition XGQ_CMD_OP_START_CUIDX_KV : Z := 258.

Definition cu_hls_xgq_start (data : list Z) (e : kenv) : kenv := cu_writes (consecutive data 2 (u32 (u64 (hdr_count data) / 4))) e.
Definition cu_hls_xgq_start_kv (data : list Z) (e : kenv) : kenv := cu_writes (pairs data 2 (u32 (u64 (hdr_count data - 4) / 4))) e.

Definition cu_hls_configure (x : kds_command) (e : kenv) : Z * kenv :=
  if kds_echo then (0, e) else
  let num_reg := isize x / 4 in
  match payload_type x with
  | REGMAP => (0, cu_writes (consecutive (info x) 0 num_reg) e)
  | KEY_VAL => (0, cu_writes (pairs (info x) 0 num_reg) e)
  | XGQ_CMD =>
      if hdr_opcode (info x) =? XGQ_CMD_OP_START_CUIDX then (0, cu_hls_xgq_start (info x) e) else
      if hdr_opcode (info x) =? XGQ_CMD_OP_START_CUIDX_KV then (0, cu_hls_xgq_start_kv (info x) e) else (- EINVAL, e)
  end.

Definition cu_hls_start (c : xrt_cu_hls) (e : kenv) : xrt_cu_hls * kenv :=
  let c' := set_run_cnts (s32 (run_cnts c + 1)) c in if kds_echo then (c', e) else (c', cu_write32 CTRL CU_AP_START e).

Definition cu_hls_ctrl_hs_check (force : bool) (s : xcu_status) (c : xrt_cu_hls) (e : kenv) : xcu_status * xrt_cu_hls * kenv :=
  if negb force && (run_cnts c =? 0) then (s, c, e) else
  let '(ctrl_reg, e1) := cu_read32 device CTRL e in
  let d := bit ctrl_reg CU_AP_DONE in
  let '(c2, e2) := if d then cu_move_to_complete KDS_COMPLETED c e1 else (c, e1) in
  (XcuStatus (if d then 1 else 0) (if d then 1 else 0) ctrl_reg (st_rcode s), c2, e2).

Definition cu_hls_ctrl_chain_check (force : bool) (s : xcu_status) (c : xrt_cu_hls) (e : kenv) : xcu_status * xrt_cu_hls * kenv :=
  let used_credit := u32 (max_credits c - credits c) in
  if negb force && (used_credit =? 0) && (run_cnts c =? 0) then (s, c, e) else
  let done_reg := done_irq c in
  let c1 := set_done 0 c in
  let '(ctrl_reg, e1) := cu_read32 device CTRL e in
  let ready_reg := if negb (used_credit =? 0) && negb (bit ctrl_reg CU_AP_START) then 1 else 0 in
  let '(done_reg2, e2) := if bit ctrl_reg CU_AP_DONE then (u32 (done_reg + 1), cu_write32 CTRL CU_AP_CONTINUE e1) else (done_reg, e1) in
  let '(c3, e3) := move_to_complete (Z.to_nat done_reg2) KDS_COMPLETED c1 e2 in
  (XcuStatus done_reg2 ready_reg ctrl_reg (st_rcode s), c3, e3).

Definition cu_hls_check (force : bool) (s : xcu_status) (c : xrt_cu_hls) (e : kenv) : xcu_status * xrt_cu_hls * kenv :=
  if kds_echo then let '(c', e') := cu_move_to_complete KDS_COMPLETED c e in (XcuStatus 1 1 CU_AP_IDLE (st_rcode s), c', e') else
  if ctrl_chain c then cu_hls_ctrl_chain_check force s c e else cu_hls_ctrl_hs_check force s c e.

Definition cu_hls_enable_intr (intr_type : Z) (c : xrt_cu_hls) (e : kenv) : xrt_cu_hls * kenv := (c, cu_write32 IER intr_type (cu_write32 GIE 1 e)).
Definition cu_hls_disable_intr (intr_type : Z) (c : xrt_cu_hls) (e : kenv) : xrt_cu_hls * kenv :=
  let '(orig, e1) := cu_read32 device IER e in (c, cu_write32 IER (Z.land orig (u32 (Z.lnot intr_type))) (cu_write32 GIE 0 e1)).

Definition cu_hls_clear_intr (c : xrt_cu_hls) (e : kenv) : Z * xrt_cu_hls * kenv :=
  let '(isr, e1) := cu_read32 device ISR e in
  if negb (max_credits c =? 1) then (isr, c, e1) else
  let '(c2, e2) :=
    if ctrl_chain c && bit isr CU_INTR_DONE then
      let '(ctrl_reg, e2) := cu_read32 device CTRL e1 in
      if bit ctrl_reg CU_AP_DONE then (set_done (u32 (done_irq c + 1)) c, cu_write32 CTRL CU_AP_CONTINUE e2) else (c, e2)
    else (c, e1) in
  (isr, c2, cu_write32 ISR isr e2).

Definition cu_hls_reset (e : kenv) : kenv := cu_write32 CTRL CU_AP_SW_RESET e.
Definition cu_hls_reset_done (e : kenv) : bool * kenv := let '(ctrl_reg, e1) := cu_read32 device CTRL e in (negb (bit ctrl_reg CU_AP_SW_RESET), e1).

(** The loop that polls for the end of a reset, at most 10000 times; the result is the time
    that is left. *)
Fixpoint reset_wait (n : nat) (e : kenv) : Z * kenv :=
  match n with
  | O => (0, e)
  | S n' => let '(d, e1) := cu_hls_reset_done e in if d then (Z.of_nat n' * 1000, e1) else reset_wait n' e1
  end.

Definition cu_hls_submit_config (i : nat) (c : xrt_cu_hls) (e : kenv) : Z * xrt_cu_hls * kenv :=
  match xcmds e !! i with
  | None => (- EINVAL, c, e)
  | Some x =>
      let '(r, e1) := cu_hls_configure x e in
      if r =? 0 then (0, set_lists (hls_submitted c ++ [i]) (hls_completed c) c, e1) else (r, c, e1)
  end.

Definition cu_hls_get_complete (c : xrt_cu_hls) : option nat * xrt_cu_hls :=
  match hls_completed c with [] => (None, c) | i :: l => (Some i, set_lists (hls_submitted c) l c) end.

Definition cu_hls_abort (m : kds_command -> bool) (c : xrt_cu_hls) (e : kenv) : Z * xrt_cu_hls * kenv :=
  let '(ret, c1, e1) :=
    if sw_reset c then
      let '(time, e1) := reset_wait (Z.to_nat 10000) (cu_hls_reset e) in
      if 0 <=? time then (0, set_credits (max_credits c) c, e1) else (- EBUSY, c, e1)
    else (- EBUSY, c, e) in
  let '(l, k, e2) := abort_matching m (hls_submitted c1) [] (hls_completed c1) e1 in
  (ret, set_lists l k c1, e2).

#[export] Instance hls_funcs : XcuFuncs xrt_cu_hls := {
  alloc_credit := cu_hls_alloc_credit; free_credit := cu_hls_free_credit; peek_credit := cu_hls_peek_credit;
  start := cu_hls_start; check := cu_hls_check; submit_config := cu_hls_submit_config; get_complete := cu_hls_get_complete; abort := cu_hls_abort;
  enable_intr := cu_hls_enable_intr; disable_intr := cu_hls_disable_intr; clear_intr := cu_hls_clear_intr;
}.

(** [xrt_cu_hls_init]. *)
Definition hls_init (chain reset : bool) : xrt_cu_hls := XrtCuHls 1 1 0 chain reset 0 [] [].

(** * What an HLS compute unit promises *)

(** Commands have moved, and credits have not. *)
Record moves (s : kds_status) (c c' : xrt_cu_hls) (e e' : kenv) : Prop := {
  mv_credits : credits c' = credits c;
  mv_max : max_credits c' = max_credits c;
  mv_moves : list_moves s (hls_submitted c) (hls_completed c) (hls_submitted c') (hls_completed c') e e';
}.

Lemma moves_same s c e e' : env_same e e' -> moves s c c e e'.
Proof. intros He. split; [done|done|by apply list_moves_same]. Qed.

Lemma moves_done s n c e e' : env_same e e' -> moves s c (set_done n c) e e'.
Proof. intros He. by destruct (moves_same s c e e' He). Qed.

Lemma moves_trans s c1 c2 c3 e1 e2 e3 : moves s c1 c2 e1 e2 -> moves s c2 c3 e2 e3 -> moves s c1 c3 e1 e3.
Proof. intros [A1 A2 A3] [B1 B2 B3]. split; [congruence|congruence|by eapply list_moves_trans]. Qed.

Lemma moves_one s c e : let '(c', e') := cu_move_to_complete s c e in moves s c c' e e'.
Proof. unfold cu_move_to_complete. destruct (hls_submitted c) as [|i l] eqn:E; [by apply moves_same|]. split; cbn; [done|done|]. rewrite E. apply list_moves_first. Qed.

Lemma moves_many n s c e : let '(c', e') := move_to_complete n s c e in moves s c c' e e'.
Proof.
  revert c e. induction n as [|n IH]; intros c e; cbn [move_to_complete]; [by apply moves_same|]. pose proof (moves_one s c e) as H1. destruct (cu_move_to_complete s c e) as [c1 e1].
  specialize (IH c1 e1). destruct (move_to_complete n s c1 e1) as [c2 e2]. by eapply moves_trans.
Qed.

Lemma reset_wait_same n e : let '(_, e') := reset_wait n e in env_same e e'.
Proof.
  revert e. induction n as [|n IH]; intros e; cbn [reset_wait]; [done|]. unfold cu_hls_reset_done, cu_read32. cbn. destruct (negb _); [apply env_same_bus|].
  specialize (IH (on_bus (fun l => l ++ [Rd CTRL (u32 (device (bus e) CTRL))]) e)). destruct (reset_wait n _) as [t e']. etrans; [apply env_same_bus|done].
Qed.

Lemma configure_same x e : env_same e (snd (cu_hls_configure x e)).
Proof. unfold cu_hls_configure, cu_hls_xgq_start, cu_hls_xgq_start_kv. destruct kds_echo; [done|]. destruct (payload_type x); repeat case_match; cbn; auto with kds; reflexivity. Qed.

Lemma hls_check_moves f s c e : let '(_, c', e') := cu_hls_check f s c e in moves KDS_COMPLETED c c' e e'.
Proof.
  unfold cu_hls_check. destruct kds_echo; [pose proof (moves_one KDS_COMPLETED c e) as Hm; by destruct (cu_move_to_complete _ c e)|]. destruct (ctrl_chain c).
  - unfold cu_hls_ctrl_chain_check, cu_read32. destruct (negb f && (u32 (max_credits c - credits c) =? 0) && (run_cnts c =? 0)); [by apply moves_same|]. cbn [fst snd]. set (v := u32 _). set (e1 := on_bus _ e).
    destruct (bit v CU_AP_DONE).
    + pose proof (moves_many (Z.to_nat (u32 (done_irq c + 1))) KDS_COMPLETED (set_done 0 c) (cu_write32 CTRL CU_AP_CONTINUE e1)) as Hm. destruct (move_to_complete _ _ _ _) as [c3 e3].
      eapply moves_trans; [|exact Hm]. apply moves_done. etrans; apply env_same_bus.
    + pose proof (moves_many (Z.to_nat (done_irq c)) KDS_COMPLETED (set_done 0 c) e1) as Hm. destruct (move_to_complete _ _ _ _) as [c3 e3].
      eapply moves_trans; [|exact Hm]. apply moves_done, env_same_bus.
  - unfold cu_hls_ctrl_hs_check, cu_read32. destruct (negb f && (run_cnts c =? 0)); [by apply moves_same|]. set (v := u32 _). set (e1 := on_bus _ e). destruct (bit v CU_AP_DONE); [|apply moves_same, env_same_bus].
    pose proof (moves_one KDS_COMPLETED c e1) as Hm. destruct (cu_move_to_complete _ c e1) as [c2 e2]. eapply moves_trans; [|exact Hm]. apply moves_same, env_same_bus.
Qed.

Lemma hls_abort_spec m c e :
  framed m -> let '(_, c', e') := cu_hls_abort m c e in
  env_step e e' /\ hls_completed c' ++ hls_submitted c' ≡ₚ hls_completed c ++ hls_submitted c /\ hls_completed c `prefix_of` hls_completed c' /\
  (forall i, i ∉ hls_submitted c -> stat e' i = stat e i) /\ (forall i, i ∈ hls_completed c' -> i ∈ hls_completed c \/ stat e' i = (fun _ => KDS_TIMEOUT) <$> stat e i) /\
  (forall i x, i ∈ hls_submitted c' -> xcmds e !! i = Some x -> m x = false).
Proof.
  intros Hm. unfold cu_hls_abort. set (r := if sw_reset c then _ else _).
  assert (env_same e (snd r) /\ hls_submitted (snd (fst r)) = hls_submitted c /\ hls_completed (snd (fst r)) = hls_completed c) as (Hs & E1 & E2).
  { subst r. destruct (sw_reset c); [|done]. pose proof (reset_wait_same (Z.to_nat 10000) (cu_hls_reset e)) as Hr. destruct (reset_wait _ _) as [t e1].
    assert (env_same e e1) by (etrans; [apply env_same_bus|done]). by destruct (0 <=? t). }
  destruct r as [[r1 c1] e1]. cbn in *. pose proof (abort_matching_spec m (hls_submitted c1) [] (hls_completed c1) e1) as Ha. pose proof (abort_matching_rest m (hls_submitted c1) [] (hls_completed c1) e1 Hm) as Hr.
  destruct (abort_matching _ _ _ _ _) as [[l k] e2]. cbn. destruct Ha as (A1 & A2 & A3 & A4 & A5 & A6). rewrite E1, E2 in *. cbn in A2.
  split_and!; [etrans; [by apply env_same_step|done]|done|done| | |].
  - intros i Hi. rewrite A4 by done. by apply env_same_stat.
  - intros i Hi. rewrite <- (env_same_stat e e1 i Hs). by apply A6.
  - intros i x Hi Hx. apply (Hr ltac:(set_solver) i x Hi). by rewrite (en_cmds _ _ Hs).
Qed.

#[export, refine] Instance hls_laws : XcuLaws xrt_cu_hls := { submitted := hls_submitted; completed := hls_completed }.
Proof.
  - intros c. cbn. unfold cu_hls_alloc_credit, cu_hls_peek_credit. destruct (credits c =? 0) eqn:E; cbn; rewrite ?E; split_and!; try done; lia.
  - intros n c. done.
  - intros c e. cbn. unfold cu_hls_start. destruct kds_echo; split_and!; auto with kds; done.
  - intros f s c e. cbn. pose proof (hls_check_moves f s c e) as Hm. destruct (cu_hls_check f s c e) as [[s' c'] e']. destruct Hm as [M1 M2 []]. split_and!; done.
  - intros i c e. cbn. unfold cu_hls_submit_config. destruct (xcmds e !! i) as [x|]; [|by rewrite app_nil_r]. pose proof (configure_same x e) as Hs. destruct (cu_hls_configure x e) as [r e1].
    destruct (r =? 0) eqn:E; [done|]. rewrite E. by rewrite app_nil_r.
  - intros c. cbn. unfold cu_hls_get_complete. by destruct (hls_completed c) as [|i l] eqn:E.
  - intros m c e Hm. cbn. apply (hls_abort_spec m c e Hm).
  - intros i c e. by cbn.
  - intros i c e. by cbn.
  - intros c e. cbn. unfold cu_hls_clear_intr, cu_read32. repeat (case_match; simplify_eq; cbn in * ); split_and!; try done; repeat first [apply env_same_bus|etrans; [apply env_same_bus|]].
Defined.
End hls.
