(* ===== verification/KdsFa.v ===== *)
(** Compute units with a fast adapter, [core/common/drv/fast_adapter.c], a second implementation
    of the interface.  Whether memory for descriptors has been mapped is a flag; its words
    are written to the bus. *)

From S2P Require Import Prelude KdsEnv.

Definition MSWR : Z := 0.
Definition LSWR : Z := 4.
Definition FA_ISR : Z := 8.
Definition FA_IER : Z := 12.
Definition TCR : Z := 20.

Record xrt_cu_fa := XrtCuFa {
  cmdmem : bool;
  paddr : Z;
  slot_sz : Z;
  num_slots : Z;
  head_slot : Z;
  desc_msw : Z;
  task_cnt : Z;
  fa_max_credits : Z;
  fa_credits : Z;
  fa_run_cnts : Z;
  check_count : Z;
  fa_submitted : list nat;
  fa_completed : list nat;
}.

Definition set_fa_credits (n : Z) (c : xrt_cu_fa) : xrt_cu_fa :=
  XrtCuFa (cmdmem c) (paddr c) (slot_sz c) (num_slots c) (head_slot c) (desc_msw c) (task_cnt c) (fa_max_credits c) n (fa_run_cnts c) (check_count c) (fa_submitted c) (fa_completed c).
Definition set_fa_lists (l k : list nat) (c : xrt_cu_fa) : xrt_cu_fa :=
  XrtCuFa (cmdmem c) (paddr c) (slot_sz c) (num_slots c) (head_slot c) (desc_msw c) (task_cnt c) (fa_max_credits c) (fa_credits c) (fa_run_cnts c) (check_count c) l k.
Definition set_fa_run_cnts (n : Z) (c : xrt_cu_fa) : xrt_cu_fa :=
  XrtCuFa (cmdmem c) (paddr c) (slot_sz c) (num_slots c) (head_slot c) (desc_msw c) (task_cnt c) (fa_max_credits c) (fa_credits c) n (check_count c) (fa_submitted c) (fa_completed c).
Definition set_fa_desc (h m : Z) (c : xrt_cu_fa) : xrt_cu_fa :=
  XrtCuFa (cmdmem c) (paddr c) (slot_sz c) (num_slots c) h m (task_cnt c) (fa_max_credits c) (fa_credits c) (fa_run_cnts c) (check_count c) (fa_submitted c) (fa_completed c).
Definition set_fa_tasks (n k : Z) (c : xrt_cu_fa) : xrt_cu_fa :=
  XrtCuFa (cmdmem c) (paddr c) (slot_sz c) (num_slots c) (head_slot c) (desc_msw c) n (fa_max_credits c) (fa_credits c) (fa_run_cnts c) k (fa_submitted c) (fa_completed c).

Definition fa_move_to_complete (s : kds_status) (c : xrt_cu_fa) (e : kenv) : xrt_cu_fa * kenv :=
  match fa_submitted c with [] => (c, e) | i :: l => (set_fa_lists l (fa_completed c ++ [i]) c, set_status i s e) end.
Fixpoint fa_moves_to_complete (n : nat) (s : kds_status) (c : xrt_cu_fa) (e : kenv) : xrt_cu_fa * kenv :=
  match n with O => (c, e) | S n' => let '(c', e') := fa_move_to_complete s c e in fa_moves_to_complete n' s c' e' end.

Definition cu_fa_alloc_credit (c : xrt_cu_fa) : Z * xrt_cu_fa := if fa_credits c =? 0 then (0, c) else (fa_credits c, set_fa_credits (s32 (fa_credits c - 1)) c).
(** The number of slots is unsigned. *)
Definition cu_fa_free_credit (count : Z) (c : xrt_cu_fa) : xrt_cu_fa :=
  let n := s32 (fa_credits c + count) in
  let m := s32 (if num_slots c <? u32 (fa_max_credits c) then num_slots c else fa_max_credits c) in
  set_fa_credits (if m <? n then m else n) c.
Definition cu_fa_peek_credit (c : xrt_cu_fa) : Z := fa_credits c.

Section fa.
Context (kds_echo : bool) (past : nat -> Z) (device : list access -> Z -> Z).

Definition fa_word (data : list Z) (i : Z) : Z := default (past (Z.to_nat i)) (data !! Z.to_nat i).

Definition cu_fa_configure (x : kds_command) (c : xrt_cu_fa) (e : kenv) : Z * kenv :=
  if kds_echo || negb (cmdmem c) then (0, e) else
  let rest := (fun i => fa_word (info x) (1 + i)) <$> seqZ 0 (u64 (isize x - 4) / 4) in
  (0, on_bus (fun l => l ++ [Slot (head_slot c + 4) rest; Slot (head_slot c) [fa_word (info x) 0]]) e).

Definition cu_fa_start (c : xrt_cu_fa) (e : kenv) : xrt_cu_fa * kenv :=
  let msw := Z.shiftr (paddr c) 32 in
  let lsw := u32 (paddr c) in
  let c1 := set_fa_run_cnts (s32 (fa_run_cnts c + 1)) c in
  if kds_echo || negb (cmdmem c) then (c1, e) else
  let e1 := if msw =? desc_msw c then e else cu_write32 MSWR msw e in
  let e2 := cu_write32 LSWR (lsw + head_slot c) e1 in
  let h := u32 (head_slot c + slot_sz c) in
  (set_fa_desc (if h =? u32 (slot_sz c * num_slots c) then 0 else h) msw c1, e2).

Definition cu_fa_check (force : bool) (s : xcu_status) (c : xrt_cu_fa) (e : kenv) : xcu_status * xrt_cu_fa * kenv :=
  if kds_echo || negb (cmdmem c) then (XcuStatus 1 1 (new_status s) (st_rcode s), set_fa_run_cnts (s32 (fa_run_cnts c - 1)) c, e) else
  if negb force && (fa_run_cnts c =? 0) then (s, c, e) else
  let '(task_count, e1) := cu_read32 device TCR e in
  let d := u32 (task_count - task_cnt c) in
  let c1 := set_fa_run_cnts (s32 (fa_run_cnts c - d)) (set_fa_tasks task_count (u64 (check_count c + 1)) c) in
  let '(c2, e2) := fa_moves_to_complete (Z.to_nat d) KDS_COMPLETED c1 e1 in
  (XcuStatus d d (new_status s) (st_rcode s), c2, e2).

Definition cu_fa_enable_intr (_ : Z) (c : xrt_cu_fa) (e : kenv) : xrt_cu_fa * kenv := (c, cu_write32 FA_IER 1 e).
Definition cu_fa_disable_intr (_ : Z) (c : xrt_cu_fa) (e : kenv) : xrt_cu_fa * kenv := (c, cu_write32 FA_IER 0 e).
Definition cu_fa_clear_intr (c : xrt_cu_fa) (e : kenv) : Z * xrt_cu_fa * kenv := let '(v, e1) := cu_read32 device FA_ISR e in (v, c, e1).

Definition cu_fa_submit_config (i : nat) (c : xrt_cu_fa) (e : kenv) : Z * xrt_cu_fa * kenv :=
  match xcmds e !! i with
  | None => (- EINVAL, c, e)
  | Some x => let '(r, e1) := cu_fa_configure x c e in if r =? 0 then (0, set_fa_lists (fa_submitted c ++ [i]) (fa_completed c) c, e1) else (r, c, e1)
  end.

Definition cu_fa_get_complete (c : xrt_cu_fa) : option nat * xrt_cu_fa :=
  match fa_completed c with [] => (None, c) | i :: l => (Some i, set_fa_lists (fa_submitted c) l c) end.

Definition cu_fa_abort (m : kds_command -> bool) (c : xrt_cu_fa) (e : kenv) : Z * xrt_cu_fa * kenv :=
  let '(l, k, e1) := abort_matching m (fa_submitted c) [] (fa_completed c) e in (- EBUSY, set_fa_lists l k c, e1).

#[export] Instance fa_funcs : XcuFuncs xrt_cu_fa := {
  alloc_credit := cu_fa_alloc_credit; free_credit := cu_fa_free_credit; peek_credit := cu_fa_peek_credit;
  start := cu_fa_start; check := cu_fa_check; submit_config := cu_fa_submit_config; get_complete := cu_fa_get_complete; abort := cu_fa_abort;
  enable_intr := cu_fa_enable_intr; disable_intr := cu_fa_disable_intr; clear_intr := cu_fa_clear_intr;
}.

(** [xrt_cu_fa_init] with a FIFO of this depth, and [xrt_fa_cfg_update]. *)
Definition fa_init (depth tasks msw : Z) : xrt_cu_fa := XrtCuFa false 0 0 0 0 msw tasks depth depth 0 0 [] [].
Definition xrt_fa_cfg_update (bar dev slot_size slots : Z) (c : xrt_cu_fa) : xrt_cu_fa :=
  if bar =? 0 then XrtCuFa false 0 0 0 (head_slot c) (desc_msw c) (task_cnt c) (fa_max_credits c) (fa_credits c) (fa_run_cnts c) (check_count c) (fa_submitted c) (fa_completed c)
  else XrtCuFa true dev slot_size slots (head_slot c) (desc_msw c) (task_cnt c) (fa_max_credits c) (s32 (if slots <? u32 (fa_max_credits c) then slots else fa_max_credits c)) (fa_run_cnts c) (check_count c) (fa_submitted c) (fa_completed c).

(** * What it promises *)

Lemma fa_moves n s c e : let '(c', e') := fa_moves_to_complete n s c e in
  fa_credits c' = fa_credits c /\ list_moves s (fa_submitted c) (fa_completed c) (fa_submitted c') (fa_completed c') e e'.
Proof.
  revert c e. induction n as [|n IH]; intros c e; cbn [fa_moves_to_complete]; [split; [done|by apply list_moves_same]|]. unfold fa_move_to_complete. destruct (fa_submitted c) as [|i l] eqn:E.
  - specialize (IH c e). by rewrite E in IH.
  - specialize (IH (set_fa_lists l (fa_completed c ++ [i]) c) (set_status i s e)). destruct (fa_moves_to_complete n s _ _) as [c2 e2]. destruct IH as [I1 I2]. split; [done|]. eapply list_moves_trans; [apply list_moves_first|exact I2].
Qed.

Lemma fa_check_moves f s c e : let '(_, c', e') := cu_fa_check f s c e in
  fa_credits c' = fa_credits c /\ list_moves KDS_COMPLETED (fa_submitted c) (fa_completed c) (fa_submitted c') (fa_completed c') e e'.
Proof.
  unfold cu_fa_check, cu_read32. destruct (kds_echo || negb (cmdmem c)); [split; [done|by apply list_moves_same]|]. destruct (negb f && (fa_run_cnts c =? 0)); [split; [done|by apply list_moves_same]|].
  set (v := u32 (device _ _)). set (c1 := set_fa_run_cnts _ _). set (e1 := on_bus _ e). pose proof (fa_moves (Z.to_nat (u32 (v - task_cnt c))) KDS_COMPLETED c1 e1) as Hm. destruct (fa_moves_to_complete _ _ c1 e1) as [c2 e2]. destruct Hm as [M1 M2].
  split; [done|]. eapply list_moves_trans; [|exact M2]. apply list_moves_same, env_same_bus.
Qed.

#[export, refine] Instance fa_laws : XcuLaws xrt_cu_fa := { submitted := fa_submitted; completed := fa_completed }.
Proof.
  - intros c. cbn. unfold cu_fa_alloc_credit, cu_fa_peek_credit. destruct (fa_credits c =? 0) eqn:E; cbn; rewrite ?E; split_and!; try done; lia.
  - intros n c. done.
  - intros c e. cbn. unfold cu_fa_start. destruct (kds_echo || negb (cmdmem c)); [by split_and!|]. split_and!; try done. etrans; [|apply env_same_bus]. destruct (_ =? _); [done|apply env_same_bus].
  - intros f s c e. cbn. pose proof (fa_check_moves f s c e) as Hm. destruct (cu_fa_check f s c e) as [[s' c'] e']. destruct Hm as [M1 []]. split_and!; done.
  - intros i c e. cbn. unfold cu_fa_submit_config. destruct (xcmds e !! i) as [x|]; [|by rewrite app_nil_r]. unfold cu_fa_configure. by destruct (kds_echo || negb (cmdmem c)).
  - intros c. cbn. unfold cu_fa_get_complete. by destruct (fa_completed c) as [|i l] eqn:E.
  - intros m c e Hm. cbn. unfold cu_fa_abort. pose proof (abort_matching_spec m (fa_submitted c) [] (fa_completed c) e) as Ha. pose proof (abort_matching_rest m (fa_submitted c) [] (fa_completed c) e Hm) as Hr.
    destruct (abort_matching _ _ _ _ _) as [[l k] e1]. destruct Ha as (A1 & A2 & A3 & A4 & A5 & A6). split_and!; try done. apply Hr. set_solver.
  - intros i c e. by cbn.
  - intros i c e. by cbn.
  - intros c e. by cbn.
Defined.
End fa.
