(* ===== verification/KdsCu.v ===== *)
(** The scheduler of a compute unit, [core/common/drv/xrt_cu.c]: its queues of pending, running,
    submitted and completed commands, the functions that process them, the calls of other
    threads, the routine that polls a compute unit, and the log of debugging.

    The implementation of the compute unit is any instance of [XcuFuncs].  Lists are
    sequences of commands with their counters, as in the code; [list_move_tail] takes a command from
    the queue it is in.  An empty list whose first entry is used, and a command that does not
    exist, are faults. *)

From S2P Require Import Prelude KdsEnv.

(** * State *)

(** Entries of the log by their offset in the buffer. *)
Record circ_buf := CircBuf { head : Z; tail : Z; buf : gmap Z (Z * Z * Z) }.

Record xrt_cu_stats := XrtCuStats {
  stats_enabled : bool;
  max_sq_length : Z;
  sq_total : Z;
  sq_count : Z;
  idle : bool;
  usage_curr : Z;
  idle_total : Z;
  idle_start : Z;
  idle_end : Z;
}.

Record xrt_cu {C : Type} := XrtCu {
  core : C;
  kenvs : kenv;
  pq : list nat;
  num_pq : Z;
  hpq : list nat;
  num_hpq : Z;
  comp : nat;
  rq : list nat;
  num_rq : Z;
  num_sq : Z;
  cq : list nat;
  num_cq : Z;
  sem : nat;
  sem_cu : nat;
  stop : bool;
  bad_state : bool;
  done_cnt : Z;
  ready_cnt : Z;
  cu_status : Z;
  rcode : Z;
  events : list nat;
  tick : Z;
  start_tick : Z;
  force_intr : bool;
  thread : bool;
  poll_count : Z;
  poll_threshold : Z;
  interrupt_used : bool;
  sleep_cnt : Z;
  max_running : Z;
  stats : xrt_cu_stats;
  debug : bool;
  crc_buf : circ_buf;
}.
Arguments xrt_cu : clear implicits.

Inductive kfault := bad_list | kds_fuel.

Section setters.
Context {C : Type}.
Implicit Types x : xrt_cu C.

Definition on_core (f : C -> C) x : xrt_cu C := XrtCu _ (f (core x)) (kenvs x) (pq x) (num_pq x) (hpq x) (num_hpq x) (comp x) (rq x) (num_rq x) (num_sq x) (cq x) (num_cq x) (sem x) (sem_cu x) (stop x) (bad_state x) (done_cnt x) (ready_cnt x) (cu_status x) (rcode x) (events x) (tick x) (start_tick x) (force_intr x) (thread x) (poll_count x) (poll_threshold x) (interrupt_used x) (sleep_cnt x) (max_running x) (stats x) (debug x) (crc_buf x).
Definition on_kenvs (f : kenv -> kenv) x : xrt_cu C := XrtCu _ (core x) (f (kenvs x)) (pq x) (num_pq x) (hpq x) (num_hpq x) (comp x) (rq x) (num_rq x) (num_sq x) (cq x) (num_cq x) (sem x) (sem_cu x) (stop x) (bad_state x) (done_cnt x) (ready_cnt x) (cu_status x) (rcode x) (events x) (tick x) (start_tick x) (force_intr x) (thread x) (poll_count x) (poll_threshold x) (interrupt_used x) (sleep_cnt x) (max_running x) (stats x) (debug x) (crc_buf x).
Definition on_pq (f : list nat -> list nat) x : xrt_cu C := XrtCu _ (core x) (kenvs x) (f (pq x)) (num_pq x) (hpq x) (num_hpq x) (comp x) (rq x) (num_rq x) (num_sq x) (cq x) (num_cq x) (sem x) (sem_cu x) (stop x) (bad_state x) (done_cnt x) (ready_cnt x) (cu_status x) (rcode x) (events x) (tick x) (start_tick x) (force_intr x) (thread x) (poll_count x) (poll_threshold x) (interrupt_used x) (sleep_cnt x) (max_running x) (stats x) (debug x) (crc_buf x).
Definition on_num_pq (f : Z -> Z) x : xrt_cu C := XrtCu _ (core x) (kenvs x) (pq x) (f (num_pq x)) (hpq x) (num_hpq x) (comp x) (rq x) (num_rq x) (num_sq x) (cq x) (num_cq x) (sem x) (sem_cu x) (stop x) (bad_state x) (done_cnt x) (ready_cnt x) (cu_status x) (rcode x) (events x) (tick x) (start_tick x) (force_intr x) (thread x) (poll_count x) (poll_threshold x) (interrupt_used x) (sleep_cnt x) (max_running x) (stats x) (debug x) (crc_buf x).
Definition on_hpq (f : list nat -> list nat) x : xrt_cu C := XrtCu _ (core x) (kenvs x) (pq x) (num_pq x) (f (hpq x)) (num_hpq x) (comp x) (rq x) (num_rq x) (num_sq x) (cq x) (num_cq x) (sem x) (sem_cu x) (stop x) (bad_state x) (done_cnt x) (ready_cnt x) (cu_status x) (rcode x) (events x) (tick x) (start_tick x) (force_intr x) (thread x) (poll_count x) (poll_threshold x) (interrupt_used x) (sleep_cnt x) (max_running x) (stats x) (debug x) (crc_buf x).
Definition on_num_hpq (f : Z -> Z) x : xrt_cu C := XrtCu _ (core x) (kenvs x) (pq x) (num_pq x) (hpq x) (f (num_hpq x)) (comp x) (rq x) (num_rq x) (num_sq x) (cq x) (num_cq x) (sem x) (sem_cu x) (stop x) (bad_state x) (done_cnt x) (ready_cnt x) (cu_status x) (rcode x) (events x) (tick x) (start_tick x) (force_intr x) (thread x) (poll_count x) (poll_threshold x) (interrupt_used x) (sleep_cnt x) (max_running x) (stats x) (debug x) (crc_buf x).
Definition on_comp (f : nat -> nat) x : xrt_cu C := XrtCu _ (core x) (kenvs x) (pq x) (num_pq x) (hpq x) (num_hpq x) (f (comp x)) (rq x) (num_rq x) (num_sq x) (cq x) (num_cq x) (sem x) (sem_cu x) (stop x) (bad_state x) (done_cnt x) (ready_cnt x) (cu_status x) (rcode x) (events x) (tick x) (start_tick x) (force_intr x) (thread x) (poll_count x) (poll_threshold x) (interrupt_used x) (sleep_cnt x) (max_running x) (stats x) (debug x) (crc_buf x).
Definition on_rq (f : list nat -> list nat) x : xrt_cu C := XrtCu _ (core x) (kenvs x) (pq x) (num_pq x) (hpq x) (num_hpq x) (comp x) (f (rq x)) (num_rq x) (num_sq x) (cq x) (num_cq x) (sem x) (sem_cu x) (stop x) (bad_state x) (done_cnt x) (ready_cnt x) (cu_status x) (rcode x) (events x) (tick x) (start_tick x) (force_intr x) (thread x) (poll_count x) (poll_threshold x) (interrupt_used x) (sleep_cnt x) (max_running x) (stats x) (debug x) (crc_buf x).
Definition on_num_rq (f : Z -> Z) x : xrt_cu C := XrtCu _ (core x) (kenvs x) (pq x) (num_pq x) (hpq x) (num_hpq x) (comp x) (rq x) (f (num_rq x)) (num_sq x) (cq x) (num_cq x) (sem x) (sem_cu x) (stop x) (bad_state x) (done_cnt x) (ready_cnt x) (cu_status x) (rcode x) (events x) (tick x) (start_tick x) (force_intr x) (thread x) (poll_count x) (poll_threshold x) (interrupt_used x) (sleep_cnt x) (max_running x) (stats x) (debug x) (crc_buf x).
Definition on_num_sq (f : Z -> Z) x : xrt_cu C := XrtCu _ (core x) (kenvs x) (pq x) (num_pq x) (hpq x) (num_hpq x) (comp x) (rq x) (num_rq x) (f (num_sq x)) (cq x) (num_cq x) (sem x) (sem_cu x) (stop x) (bad_state x) (done_cnt x) (ready_cnt x) (cu_status x) (rcode x) (events x) (tick x) (start_tick x) (force_intr x) (thread x) (poll_count x) (poll_threshold x) (interrupt_used x) (sleep_cnt x) (max_running x) (stats x) (debug x) (crc_buf x).
Definition on_cq (f : list nat -> list nat) x : xrt_cu C := XrtCu _ (core x) (kenvs x) (pq x) (num_pq x) (hpq x) (num_hpq x) (comp x) (rq x) (num_rq x) (num_sq x) (f (cq x)) (num_cq x) (sem x) (sem_cu x) (stop x) (bad_state x) (done_cnt x) (ready_cnt x) (cu_status x) (rcode x) (events x) (tick x) (start_tick x) (force_intr x) (thread x) (poll_count x) (poll_threshold x) (interrupt_used x) (sleep_cnt x) (max_running x) (stats x) (debug x) (crc_buf x).
Definition on_num_cq (f : Z -> Z) x : xrt_cu C := XrtCu _ (core x) (kenvs x) (pq x) (num_pq x) (hpq x) (num_hpq x) (comp x) (rq x) (num_rq x) (num_sq x) (cq x) (f (num_cq x)) (sem x) (sem_cu x) (stop x) (bad_state x) (done_cnt x) (ready_cnt x) (cu_status x) (rcode x) (events x) (tick x) (start_tick x) (force_intr x) (thread x) (poll_count x) (poll_threshold x) (interrupt_used x) (sleep_cnt x) (max_running x) (stats x) (debug x) (crc_buf x).
Definition on_sem (f : nat -> nat) x : xrt_cu C := XrtCu _ (core x) (kenvs x) (pq x) (num_pq x) (hpq x) (num_hpq x) (comp x) (rq x) (num_rq x) (num_sq x) (cq x) (num_cq x) (f (sem x)) (sem_cu x) (stop x) (bad_state x) (done_cnt x) (ready_cnt x) (cu_status x) (rcode x) (events x) (tick x) (start_tick x) (force_intr x) (thread x) (poll_count x) (poll_threshold x) (interrupt_used x) (sleep_cnt x) (max_running x) (stats x) (debug x) (crc_buf x).
Definition on_sem_cu (f : nat -> nat) x : xrt_cu C := XrtCu _ (core x) (kenvs x) (pq x) (num_pq x) (hpq x) (num_hpq x) (comp x) (rq x) (num_rq x) (num_sq x) (cq x) (num_cq x) (sem x) (f (sem_cu x)) (stop x) (bad_state x) (done_cnt x) (ready_cnt x) (cu_status x) (rcode x) (events x) (tick x) (start_tick x) (force_intr x) (thread x) (poll_count x) (poll_threshold x) (interrupt_used x) (sleep_cnt x) (max_running x) (stats x) (debug x) (crc_buf x).
Definition on_stop (f : bool -> bool) x : xrt_cu C := XrtCu _ (core x) (kenvs x) (pq x) (num_pq x) (hpq x) (num_hpq x) (comp x) (rq x) (num_rq x) (num_sq x) (cq x) (num_cq x) (sem x) (sem_cu x) (f (stop x)) (bad_state x) (done_cnt x) (ready_cnt x) (cu_status x) (rcode x) (events x) (tick x) (start_tick x) (force_intr x) (thread x) (poll_count x) (poll_threshold x) (interrupt_used x) (sleep_cnt x) (max_running x) (stats x) (debug x) (crc_buf x).
Definition on_bad_state (f : bool -> bool) x : xrt_cu C := XrtCu _ (core x) (kenvs x) (pq x) (num_pq x) (hpq x) (num_hpq x) (comp x) (rq x) (num_rq x) (num_sq x) (cq x) (num_cq x) (sem x) (sem_cu x) (stop x) (f (bad_state x)) (done_cnt x) (ready_cnt x) (cu_status x) (rcode x) (events x) (tick x) (start_tick x) (force_intr x) (thread x) (poll_count x) (poll_threshold x) (interrupt_used x) (sleep_cnt x) (max_running x) (stats x) (debug x) (crc_buf x).
Definition on_done_cnt (f : Z -> Z) x : xrt_cu C := XrtCu _ (core x) (kenvs x) (pq x) (num_pq x) (hpq x) (num_hpq x) (comp x) (rq x) (num_rq x) (num_sq x) (cq x) (num_cq x) (sem x) (sem_cu x) (stop x) (bad_state x) (f (done_cnt x)) (ready_cnt x) (cu_status x) (rcode x) (events x) (tick x) (start_tick x) (force_intr x) (thread x) (poll_count x) (poll_threshold x) (interrupt_used x) (sleep_cnt x) (max_running x) (stats x) (debug x) (crc_buf x).
Definition on_ready_cnt (f : Z -> Z) x : xrt_cu C := XrtCu _ (core x) (kenvs x) (pq x) (num_pq x) (hpq x) (num_hpq x) (comp x) (rq x) (num_rq x) (num_sq x) (cq x) (num_cq x) (sem x) (sem_cu x) (stop x) (bad_state x) (done_cnt x) (f (ready_cnt x)) (cu_status x) (rcode x) (events x) (tick x) (start_tick x) (force_intr x) (thread x) (poll_count x) (poll_threshold x) (interrupt_used x) (sleep_cnt x) (max_running x) (stats x) (debug x) (crc_buf x).
Definition on_cu_status (f : Z -> Z) x : xrt_cu C := XrtCu _ (core x) (kenvs x) (pq x) (num_pq x) (hpq x) (num_hpq x) (comp x) (rq x) (num_rq x) (num_sq x) (cq x) (num_cq x) (sem x) (sem_cu x) (stop x) (bad_state x) (done_cnt x) (ready_cnt x) (f (cu_status x)) (rcode x) (events x) (tick x) (start_tick x) (force_intr x) (thread x) (poll_count x) (poll_threshold x) (interrupt_used x) (sleep_cnt x) (max_running x) (stats x) (debug x) (crc_buf x).
Definition on_rcode (f : Z -> Z) x : xrt_cu C := XrtCu _ (core x) (kenvs x) (pq x) (num_pq x) (hpq x) (num_hpq x) (comp x) (rq x) (num_rq x) (num_sq x) (cq x) (num_cq x) (sem x) (sem_cu x) (stop x) (bad_state x) (done_cnt x) (ready_cnt x) (cu_status x) (f (rcode x)) (events x) (tick x) (start_tick x) (force_intr x) (thread x) (poll_count x) (poll_threshold x) (interrupt_used x) (sleep_cnt x) (max_running x) (stats x) (debug x) (crc_buf x).
Definition on_events (f : list nat -> list nat) x : xrt_cu C := XrtCu _ (core x) (kenvs x) (pq x) (num_pq x) (hpq x) (num_hpq x) (comp x) (rq x) (num_rq x) (num_sq x) (cq x) (num_cq x) (sem x) (sem_cu x) (stop x) (bad_state x) (done_cnt x) (ready_cnt x) (cu_status x) (rcode x) (f (events x)) (tick x) (start_tick x) (force_intr x) (thread x) (poll_count x) (poll_threshold x) (interrupt_used x) (sleep_cnt x) (max_running x) (stats x) (debug x) (crc_buf x).
Definition on_tick (f : Z -> Z) x : xrt_cu C := XrtCu _ (core x) (kenvs x) (pq x) (num_pq x) (hpq x) (num_hpq x) (comp x) (rq x) (num_rq x) (num_sq x) (cq x) (num_cq x) (sem x) (sem_cu x) (stop x) (bad_state x) (done_cnt x) (ready_cnt x) (cu_status x) (rcode x) (events x) (f (tick x)) (start_tick x) (force_intr x) (thread x) (poll_count x) (poll_threshold x) (interrupt_used x) (sleep_cnt x) (max_running x) (stats x) (debug x) (crc_buf x).
Definition on_start_tick (f : Z -> Z) x : xrt_cu C := XrtCu _ (core x) (kenvs x) (pq x) (num_pq x) (hpq x) (num_hpq x) (comp x) (rq x) (num_rq x) (num_sq x) (cq x) (num_cq x) (sem x) (sem_cu x) (stop x) (bad_state x) (done_cnt x) (ready_cnt x) (cu_status x) (rcode x) (events x) (tick x) (f (start_tick x)) (force_intr x) (thread x) (poll_count x) (poll_threshold x) (interrupt_used x) (sleep_cnt x) (max_running x) (stats x) (debug x) (crc_buf x).
Definition on_force_intr (f : bool -> bool) x : xrt_cu C := XrtCu _ (core x) (kenvs x) (pq x) (num_pq x) (hpq x) (num_hpq x) (comp x) (rq x) (num_rq x) (num_sq x) (cq x) (num_cq x) (sem x) (sem_cu x) (stop x) (bad_state x) (done_cnt x) (ready_cnt x) (cu_status x) (rcode x) (events x) (tick x) (start_tick x) (f (force_intr x)) (thread x) (poll_count x) (poll_threshold x) (interrupt_used x) (sleep_cnt x) (max_running x) (stats x) (debug x) (crc_buf x).
Definition on_thread (f : bool -> bool) x : xrt_cu C := XrtCu _ (core x) (kenvs x) (pq x) (num_pq x) (hpq x) (num_hpq x) (comp x) (rq x) (num_rq x) (num_sq x) (cq x) (num_cq x) (sem x) (sem_cu x) (stop x) (bad_state x) (done_cnt x) (ready_cnt x) (cu_status x) (rcode x) (events x) (tick x) (start_tick x) (force_intr x) (f (thread x)) (poll_count x) (poll_threshold x) (interrupt_used x) (sleep_cnt x) (max_running x) (stats x) (debug x) (crc_buf x).
Definition on_poll_count (f : Z -> Z) x : xrt_cu C := XrtCu _ (core x) (kenvs x) (pq x) (num_pq x) (hpq x) (num_hpq x) (comp x) (rq x) (num_rq x) (num_sq x) (cq x) (num_cq x) (sem x) (sem_cu x) (stop x) (bad_state x) (done_cnt x) (ready_cnt x) (cu_status x) (rcode x) (events x) (tick x) (start_tick x) (force_intr x) (thread x) (f (poll_count x)) (poll_threshold x) (interrupt_used x) (sleep_cnt x) (max_running x) (stats x) (debug x) (crc_buf x).
Definition on_poll_threshold (f : Z -> Z) x : xrt_cu C := XrtCu _ (core x) (kenvs x) (pq x) (num_pq x) (hpq x) (num_hpq x) (comp x) (rq x) (num_rq x) (num_sq x) (cq x) (num_cq x) (sem x) (sem_cu x) (stop x) (bad_state x) (done_cnt x) (ready_cnt x) (cu_status x) (rcode x) (events x) (tick x) (start_tick x) (force_intr x) (thread x) (poll_count x) (f (poll_threshold x)) (interrupt_used x) (sleep_cnt x) (max_running x) (stats x) (debug x) (crc_buf x).
Definition on_interrupt_used (f : bool -> bool) x : xrt_cu C := XrtCu _ (core x) (kenvs x) (pq x) (num_pq x) (hpq x) (num_hpq x) (comp x) (rq x) (num_rq x) (num_sq x) (cq x) (num_cq x) (sem x) (sem_cu x) (stop x) (bad_state x) (done_cnt x) (ready_cnt x) (cu_status x) (rcode x) (events x) (tick x) (start_tick x) (force_intr x) (thread x) (poll_count x) (poll_threshold x) (f (interrupt_used x)) (sleep_cnt x) (max_running x) (stats x) (debug x) (crc_buf x).
Definition on_sleep_cnt (f : Z -> Z) x : xrt_cu C := XrtCu _ (core x) (kenvs x) (pq x) (num_pq x) (hpq x) (num_hpq x) (comp x) (rq x) (num_rq x) (num_sq x) (cq x) (num_cq x) (sem x) (sem_cu x) (stop x) (bad_state x) (done_cnt x) (ready_cnt x) (cu_status x) (rcode x) (events x) (tick x) (start_tick x) (force_intr x) (thread x) (poll_count x) (poll_threshold x) (interrupt_used x) (f (sleep_cnt x)) (max_running x) (stats x) (debug x) (crc_buf x).
Definition on_max_running (f : Z -> Z) x : xrt_cu C := XrtCu _ (core x) (kenvs x) (pq x) (num_pq x) (hpq x) (num_hpq x) (comp x) (rq x) (num_rq x) (num_sq x) (cq x) (num_cq x) (sem x) (sem_cu x) (stop x) (bad_state x) (done_cnt x) (ready_cnt x) (cu_status x) (rcode x) (events x) (tick x) (start_tick x) (force_intr x) (thread x) (poll_count x) (poll_threshold x) (interrupt_used x) (sleep_cnt x) (f (max_running x)) (stats x) (debug x) (crc_buf x).
Definition on_stats (f : xrt_cu_stats -> xrt_cu_stats) x : xrt_cu C := XrtCu _ (core x) (kenvs x) (pq x) (num_pq x) (hpq x) (num_hpq x) (comp x) (rq x) (num_rq x) (num_sq x) (cq x) (num_cq x) (sem x) (sem_cu x) (stop x) (bad_state x) (done_cnt x) (ready_cnt x) (cu_status x) (rcode x) (events x) (tick x) (start_tick x) (force_intr x) (thread x) (poll_count x) (poll_threshold x) (interrupt_used x) (sleep_cnt x) (max_running x) (f (stats x)) (debug x) (crc_buf x).
Definition on_debug (f : bool -> bool) x : xrt_cu C := XrtCu _ (core x) (kenvs x) (pq x) (num_pq x) (hpq x) (num_hpq x) (comp x) (rq x) (num_rq x) (num_sq x) (cq x) (num_cq x) (sem x) (sem_cu x) (stop x) (bad_state x) (done_cnt x) (ready_cnt x) (cu_status x) (rcode x) (events x) (tick x) (start_tick x) (force_intr x) (thread x) (poll_count x) (poll_threshold x) (interrupt_used x) (sleep_cnt x) (max_running x) (stats x) (f (debug x)) (crc_buf x).
Definition on_crc_buf (f : circ_buf -> circ_buf) x : xrt_cu C := XrtCu _ (core x) (kenvs x) (pq x) (num_pq x) (hpq x) (num_hpq x) (comp x) (rq x) (num_rq x) (num_sq x) (cq x) (num_cq x) (sem x) (sem_cu x) (stop x) (bad_state x) (done_cnt x) (ready_cnt x) (cu_status x) (rcode x) (events x) (tick x) (start_tick x) (force_intr x) (thread x) (poll_count x) (poll_threshold x) (interrupt_used x) (sleep_cnt x) (max_running x) (stats x) (debug x) (f (crc_buf x)).
End setters.

(** * Operations *)

Definition CIRC_BUF_SIZE : Z := 8192.
Definition xrt_cu_log_size : Z := 16.
Definition CU_LOG_STAGE_RQ : Z := 1.
Definition CU_LOG_STAGE_ISR : Z := 2.
Definition CU_LOG_STAGE_SQ : Z := 3.
Definition CU_LOG_STAGE_CQ : Z := 4.

(** [CIRC_CNT], [CIRC_SPACE] and [CIRC_CNT_TO_END] of the kernel, for a size that is a power
    of 2. *)
Definition CIRC_CNT (head tail : Z) : Z := Z.land (u64 (head - tail)) (CIRC_BUF_SIZE - 1).
Definition CIRC_SPACE (head tail : Z) : Z := CIRC_CNT tail (head + 1).
Definition CIRC_CNT_TO_END (head tail : Z) : Z :=
  let e := CIRC_BUF_SIZE - tail in let n := Z.land (u64 (head + e)) (CIRC_BUF_SIZE - 1) in if n <? e then n else e.

(** A new entry; the stage and the command have 32 bits. *)
Definition circ_produce (stage cmd ts : Z) (b : circ_buf) : circ_buf :=
  let full := CIRC_SPACE (head b) (tail b) <? xrt_cu_log_size in
  let tail1 := if full then let t := tail b + xrt_cu_log_size in if CIRC_BUF_SIZE <=? t then 0 else t else tail b in
  let h := head b + xrt_cu_log_size in
  CircBuf (if CIRC_BUF_SIZE <=? h then 0 else h) tail1 (<[head b := (u32 stage, u32 cmd, ts)]> (buf b)).

(** [xrt_cu_circ_consume_all] for a size in whole entries: the offsets that are copied, and the
    buffer. *)
Definition xrt_cu_circ_consume_all (size : Z) (b : circ_buf) : list Z * circ_buf :=
  let cnt := CIRC_CNT (head b) (tail b) in
  let cnt_to_end := CIRC_CNT_TO_END (head b) (tail b) in
  let nread := if size <? cnt then size else cnt in
  let offsets (from n : Z) := (fun i => from + i * xrt_cu_log_size) <$> seqZ 0 (n / xrt_cu_log_size) in
  if nread <=? cnt_to_end then (offsets (tail b) nread, CircBuf (head b) (tail b + nread) (buf b))
  else (offsets (tail b) cnt_to_end ++ offsets 0 (nread - cnt_to_end), CircBuf (head b) (nread - cnt_to_end) (buf b)).

Section scheduler.
Context {C : Type} `{XcuFuncs C}.

Abbreviation K := (M (xrt_cu C) kfault).

Definition on_env (f : kenv -> kenv) : K unit := modify (on_kenvs f).

(** A function of the compute unit. *)
Definition funcs {A} (f : C -> kenv -> A * C * kenv) : K A := fun x =>
  let '(a, c, e) := f (core x) (kenvs x) in Ok a (on_core (fun _ => c) (on_kenvs (fun _ => e) x)).
Definition funcs_ (f : C -> kenv -> C * kenv) : K unit := funcs (fun c e => let '(c', e') := f c e in (tt, c', e')).

Definition get_xcmd (c : nat) : K kds_command := fun x => match xcmds (kenvs x) !! c with Some y => Ok y x | None => Err bad_list x end.

Definition first_entry (l : list nat) : K nat := match l with c :: _ => ret c | [] => raise bad_list end.

Definition xrt_cu_circ_produce (stage cmd : Z) : K unit :=
  d <- gets debug ;;
  when d (t <- gets (fun x => ktime (kenvs x)) ;; on_env (set_ktime (t + 1)) ;;; modify (on_crc_buf (circ_produce stage cmd t))).

(** ** Interrupts and credits *)

Definition xrt_cu_switch_to_interrupt : K unit := funcs_ (enable_intr (Z.lor CU_INTR_DONE CU_INTR_READY)) ;;; modify (on_interrupt_used (fun _ => true)).
Definition xrt_cu_switch_to_poll : K unit := funcs_ (disable_intr (Z.lor CU_INTR_DONE CU_INTR_READY)) ;;; modify (on_interrupt_used (fun _ => false)).

Definition xrt_cu_get_credit : K Z := funcs (fun c e => let '(n, c') := alloc_credit c in (n, c', e)).
Definition xrt_cu_put_credit (count : Z) : K unit := modify (on_core (free_credit count)).
Definition is_zero_credit : K bool := gets (fun x => peek_credit (core x) =? 0).

(** [__xrt_cu_check]. *)
Definition xrt_cu_check_with (force : bool) : K unit :=
  s <- funcs (check force (XcuStatus 0 0 0 0)) ;;
  modify (on_done_cnt (fun n => u32 (n + num_done s))) ;;;
  modify (on_ready_cnt (fun n => u32 (n + num_ready s))) ;;;
  modify (on_cu_status (fun st => if st =? CU_AP_CRASHED then st else new_status s)) ;;;
  modify (on_rcode (fun _ => st_rcode s)).
Definition xrt_cu_check : K unit := xrt_cu_check_with false.
Definition xrt_cu_check_force : K unit := xrt_cu_check_with true.

(** ** Statistics *)

Definition on_stat (f : xrt_cu_stats -> xrt_cu_stats) : K unit := modify (on_stats (fun s => if stats_enabled s then f s else s)).

Definition xrt_cu_incr_ecmd_count : K unit :=
  on_stat (fun s => XrtCuStats (stats_enabled s) (max_sq_length s) (sq_total s) (sq_count s) (idle s) (u64 (usage_curr s + 1)) (idle_total s) (idle_start s) (idle_end s)).

Definition xrt_cu_incr_sq_count : K unit :=
  n <- gets num_sq ;;
  on_stat (fun s => XrtCuStats (stats_enabled s) (max_sq_length s) (u32 (sq_total s + n)) (u32 (sq_count s + 1)) (idle s) (usage_curr s) (idle_total s) (idle_start s) (idle_end s)).

Definition xrt_cu_idle_start : K unit :=
  x <- gets id ;;
  if negb (stats_enabled (stats x)) then ret tt else
  if (0 <? num_sq x) || (0 <? num_rq x) || (0 <? num_pq x) then ret tt else
  on_env (set_ktime (ktime (kenvs x) + 1)) ;;;
  on_stat (fun s => XrtCuStats (stats_enabled s) (max_sq_length s) (sq_total s) (sq_count s) true (usage_curr s) (idle_total s) (ktime (kenvs x)) (idle_end s)).

Definition xrt_cu_idle_end : K unit :=
  x <- gets id ;;
  if negb (stats_enabled (stats x)) then ret tt else
  if (num_pq x =? 0) && (num_sq x =? 0) && (num_rq x =? 0) then ret tt else
  if negb (idle (stats x)) then ret tt else
  on_env (set_ktime (ktime (kenvs x) + 1)) ;;;
  on_stat (fun s => XrtCuStats (stats_enabled s) (max_sq_length s) (sq_total s) (sq_count s) false (usage_curr s) (u64 (idle_total s + (ktime (kenvs x) - idle_start s))) (idle_start s) (ktime (kenvs x))).

(** ** Queues *)

Definition first_event_client_or_null : K (option nat) := l <- gets events ;; ret (hd_error l).

(** [move_to_queue] to the queue of completed commands. *)
Definition move_to_cq (c : nat) : K unit := modify (on_cq (fun l => l ++ [c])) ;;; modify (on_num_cq (fun n => u32 (n + 1))).

Definition abort_client (cl : nat) (x : kds_command) : bool := (client x =? cl)%nat.
Definition abort_handle (handle : Z) (x : kds_command) : bool := exec_bo_handle x =? handle.

Definition complete_first : K unit :=
  l <- gets cq ;;
  c <- first_entry l ;;
  y <- get_xcmd c ;;
  on_env (set_xcmd_timestamp c (status y)) ;;;
  xrt_cu_circ_produce CU_LOG_STAGE_CQ (Z.of_nat c) ;;;
  modify (on_bad_state (fun _ => bool_decide (status y = KDS_SKCRASHED))) ;;;
  on_env (notify_host c (status y)) ;;;
  xrt_cu_incr_ecmd_count ;;;
  modify (on_cq tl) ;;;
  modify (on_num_cq (fun n => u32 (n - 1))).

Fixpoint complete_all (fuel : nat) : K unit :=
  n <- gets num_cq ;;
  if n =? 0 then ret tt else
  match fuel with O => raise kds_fuel | S fuel' => complete_first ;;; complete_all fuel' end.

Definition process_cq : K unit := n <- gets num_cq ;; complete_all (Z.to_nat n).

(** The loop that takes completed commands from the compute unit; there are at most as many as
    have been submitted. *)
Fixpoint collect (log : nat -> K unit) (fuel : nat) : K unit :=
  o <- funcs (fun c e => let '(o, c') := get_complete c in (o, c', e)) ;;
  match o with
  | None => ret tt
  | Some c =>
      match fuel with
      | O => raise kds_fuel
      | S fuel' => log c ;;; move_to_cq c ;;; modify (on_num_sq (fun n => u32 (n - 1))) ;;; collect log fuel'
      end
  end.

Definition CU_EXEC_DEFAULT_TTL : Z := 2.

(** The commands of a client that is closing have some time to complete. *)
Definition abort_closing (cl : nat) : K unit :=
  x <- gets id ;;
  if start_tick x =? 0 then modify (on_start_tick (fun _ => u32 (tick x))) else
  if u32 (u32 (tick x) - start_tick x) <? CU_EXEC_DEFAULT_TTL then ret tt else
  r <- funcs (abort (abort_client cl)) ;;
  (if r =? 0 then ret tt else modify (on_bad_state (fun _ => true))) ;;;
  modify (on_start_tick (fun _ => 0)).

(** [__process_sq]. *)
Definition process_submitted : K unit :=
  r <- gets ready_cnt ;;
  when (negb (r =? 0)) (xrt_cu_put_credit r ;;; modify (on_ready_cnt (fun _ => 0))) ;;;
  n <- gets num_sq ;;
  if n =? 0 then ret tt else
  o <- first_event_client_or_null ;;
  match o with Some cl => abort_closing cl | None => ret tt end ;;;
  collect (fun c => xrt_cu_circ_produce CU_LOG_STAGE_SQ (Z.of_nat c)) (Z.to_nat n) ;;;
  xrt_cu_idle_start.

Definition process_sq : K unit :=
  n <- gets num_sq ;;
  z <- is_zero_credit ;;
  if (n =? 0) && negb z then ret tt else
  xrt_cu_check ;;; process_submitted.

(** The loop over the running commands when a client is closing. *)
Fixpoint abort_running (cl : nat) (l : list nat) : K unit :=
  match l with
  | [] => ret tt
  | c :: l' =>
      y <- get_xcmd c ;;
      bad <- gets bad_state ;;
      when ((client y =? cl)%nat || bad) (
        on_env (set_status c KDS_ABORT) ;;;
        modify (on_rq (filter (fun i => i <> c))) ;;; move_to_cq c ;;; modify (on_num_rq (fun n => u32 (n - 1)))) ;;;
      abort_running cl l'
  end.

Definition start_first : K bool :=
  l <- gets rq ;;
  c <- first_entry l ;;
  n <- xrt_cu_get_credit ;;
  if n =? 0 then ret false else
  r <- funcs (submit_config c) ;;
  if negb (r =? 0) then xrt_cu_put_credit 1 ;;; ret false else
  modify (on_rq tl) ;;;
  funcs_ start ;;;
  t <- gets thread ;;
  when t (
    modify (on_poll_count (fun _ => 0)) ;;;
    b <- gets (fun x => negb (force_intr x) && interrupt_used x) ;;
    when b xrt_cu_switch_to_poll) ;;;
  on_env (set_xcmd_timestamp c KDS_RUNNING) ;;;
  xrt_cu_circ_produce CU_LOG_STAGE_RQ (Z.of_nat c) ;;;
  modify (on_num_sq (fun n => u32 (n + 1))) ;;;
  modify (on_num_rq (fun n => u32 (n - 1))) ;;;
  k <- gets num_sq ;;
  modify (on_stats (fun s => XrtCuStats (stats_enabled s) (if max_sq_length s <? k then k else max_sq_length s) (sq_total s) (sq_count s) (idle s) (usage_curr s) (idle_total s) (idle_start s) (idle_end s))) ;;;
  ret true.

Definition process_rq : K bool :=
  n <- gets num_rq ;;
  if n =? 0 then ret false else
  o <- first_event_client_or_null ;;
  match o with
  | Some cl => l <- gets rq ;; abort_running cl l ;;; ret false
  | None => start_first
  end.

Definition process_pq : K unit :=
  n <- gets num_pq ;;
  if n =? 0 then ret tt else
  xrt_cu_idle_end ;;;
  l <- gets pq ;;
  modify (on_rq (fun k => k ++ l)) ;;;
  modify (on_pq (fun _ => [])) ;;;
  modify (on_num_rq (fun k => u32 (k + n))) ;;;
  modify (on_num_pq (fun _ => 0)) ;;;
  k <- gets num_rq ;;
  modify (on_max_running (fun m => if m <? k then k else m)).

(** The first running command with this handle. *)
Fixpoint find_handle (handle : Z) (l : list nat) : K (option nat) :=
  match l with
  | [] => ret None
  | c :: l' => y <- get_xcmd c ;; if exec_bo_handle y =? handle then ret (Some c) else find_handle handle l'
  end.

Definition try_abort_cmd (abort_cmd : nat) : K unit :=
  y <- get_xcmd abort_cmd ;;
  handle <- match info y with h :: _ => ret (u32 h) | [] => raise bad_list end ;;
  l <- gets rq ;;
  o <- find_handle handle l ;;
  match o with
  | Some c =>
      on_env (set_status abort_cmd KDS_COMPLETED) ;;;
      on_env (set_status c KDS_ABORT) ;;;
      modify (on_rq (filter (fun i => i <> c))) ;;; move_to_cq c ;;; modify (on_num_rq (fun n => u32 (n - 1)))
  | None =>
      n <- gets num_sq ;;
      if n =? 0 then ret tt else
      r <- funcs (abort (abort_handle handle)) ;;
      (if r =? 0 then on_env (set_status abort_cmd KDS_COMPLETED)
       else modify (on_bad_state (fun _ => true)) ;;; on_env (set_status abort_cmd KDS_TIMEOUT)) ;;;
      collect (fun _ => ret tt) (Z.to_nat n)
  end.

Fixpoint process_high (l : list nat) : K unit :=
  match l with
  | [] => ret tt
  | c :: l' =>
      y <- get_xcmd c ;;
      when (bool_decide (opcode y = OP_ABORT)) (try_abort_cmd c) ;;;
      modify (on_hpq tl) ;;; modify (on_num_hpq (fun n => u32 (n - 1))) ;;;
      process_high l'
  end.

Definition process_hpq : K unit :=
  n <- gets num_hpq ;;
  if n =? 0 then ret tt else
  l <- gets hpq ;;
  process_high l ;;;
  modify (on_comp S).

Inductive xcu_process_result := XCU_IDLE | XCU_BUSY.

(** [while (process_rq(xcu));] *)
Fixpoint process_rq_all (fuel : nat) : K unit :=
  r <- process_rq ;;
  if negb r then ret tt else match fuel with O => raise kds_fuel | S fuel' => process_rq_all fuel' end.

Definition xrt_cu_process_queues : K xcu_process_result :=
  process_pq ;;;
  n <- gets num_rq ;;
  process_rq_all (Z.to_nat n) ;;;
  process_cq ;;;
  process_sq ;;;
  process_hpq ;;;
  x <- gets id ;;
  ret (if (num_rq x =? 0) && (num_sq x =? 0) && (num_cq x =? 0) then XCU_IDLE else XCU_BUSY).

(** * Calls of other threads *)

Definition xrt_cu_submit (c : nat) : K unit :=
  modify (on_pq (fun l => l ++ [c])) ;;;
  modify (on_num_pq (fun n => u32 (n + 1))) ;;;
  n <- gets num_pq ;;
  when (n =? 1) (modify (on_sem S)).

(** Without the wait for the completion; compute units without a protocol ([CTRL_NONE]) have no
    such commands. *)
Definition xrt_cu_hpq_submit (ctrl_none : bool) (c : nat) : K unit :=
  if ctrl_none then ret tt else
  modify (on_hpq (fun l => l ++ [c])) ;;;
  modify (on_num_hpq (fun n => u32 (n + 1))) ;;;
  modify (on_sem S).

Definition xrt_cu_abort (cl : nat) : K unit := modify (on_events (fun l => if bool_decide (cl ∈ l) then l else l ++ [cl])).

(** The first entry of the client is removed. *)
Fixpoint remove_first (cl : nat) (l : list nat) : list nat := match l with [] => [] | x :: l' => if (x =? cl)%nat then l' else x :: remove_first cl l' end.
Definition xrt_cu_abort_done (cl : nat) : K bool := modify (on_events (remove_first cl)) ;;; gets bad_state.

Definition cu_timer : K unit := modify (on_tick (fun t => s32 (t + 1))).

(** [cu_isr] of [subdev/cu.c]. *)
Definition cu_isr : K unit :=
  xrt_cu_circ_produce CU_LOG_STAGE_ISR 0 ;;;
  _ <- funcs (fun c e => clear_intr c e) ;;
  modify (on_sem_cu S).

(** [launched]: the kernel has created the thread.  [IS_ERR] is 1 for an error. *)
Definition xrt_cu_start_thread (launched : bool) : K Z :=
  t <- gets thread ;;
  if t : bool then ret 0 else
  modify (on_stop (fun _ => false)) ;;;
  modify (on_sem (fun _ => O)) ;;;
  modify (on_sem_cu (fun _ => O)) ;;;
  modify (on_tick (fun _ => 0)) ;;;
  modify (on_thread (fun _ => launched)) ;;;
  ret (if launched then 0 else 1).

(** [xrt_cu_init] and the start of the thread; [core] has been initialised. *)
Definition CU_DEFAULT_POLL_THRESHOLD : Z := 300.
Definition xrt_cu_init (c : C) (e : kenv) (has_thread : bool) : xrt_cu C :=
  XrtCu _ c e [] 0 [] 0 O [] 0 0 [] 0 O O false false 0 0 0 0 [] 0 0 false has_thread 0 CU_DEFAULT_POLL_THRESHOLD false 0 0
    (XrtCuStats false 0 0 0 false 0 0 0 0) false (CircBuf 0 0 ∅).
End scheduler.
