(* ===== verification/KdsInvariant.v ===== *)
(** What every function of the scheduler of a compute unit keeps: counters agree with the queues, no
    command is lost, duplicated or touched outside of the queues, and without aborts the
    commands stay in the order in which they have been submitted. *)

From S2P Require Import Prelude KdsEnv KdsCu.

Section invariant.
Context {C : Type} `{XcuLaws C}.
Implicit Types x : xrt_cu C.

Abbreviation K := (M (xrt_cu C) kfault).

(** All commands, the ones that the host has been told of first. *)
Definition order x : list nat := (fst <$> host (kenvs x)) ++ cq x ++ completed (core x) ++ submitted (core x) ++ rq x ++ pq x.

(** The commands that are not told of yet. *)
Definition queued x : list nat := cq x ++ completed (core x) ++ submitted (core x) ++ rq x ++ pq x.

(** Counters may be ahead of their queues while commands move. *)
Record kinv (dr ds dc : Z) x : Prop := {
  ki_pq : num_pq x = Z.of_nat (length (pq x));
  ki_rq : num_rq x = Z.of_nat (length (rq x)) + dr;
  ki_sq : num_sq x = Z.of_nat (length (submitted (core x)) + length (completed (core x))) + ds;
  ki_cq : num_cq x = Z.of_nat (length (cq x)) + dc;
  ki_hpq : num_hpq x = Z.of_nat (length (hpq x));
  ki_bound : Z.of_nat (length (queued x)) < 2 ^ 31;
  ki_hbound : Z.of_nat (length (hpq x)) < 2 ^ 31;
  ki_nodup : NoDup (order x);
  ki_some : forall c, c ∈ queued x -> is_Some (xcmds (kenvs x) !! c);
  ki_high : forall c, c ∈ hpq x -> exists y, xcmds (kenvs x) !! c = Some y /\ info y <> [];
}.

(** What the scheduler leaves alone. *)
Record kframe x x' : Prop := {
  kf_events : events x' = events x;
  kf_tick : tick x' = tick x;
  kf_sem : sem x' = sem x;
  kf_stop : stop x' = stop x;
  kf_thread : thread x' = thread x;
  kf_hpq : hpq x = [] -> hpq x' = [];
  kf_cmds : forall c, command_frame <$> xcmds (kenvs x') !! c = command_frame <$> xcmds (kenvs x) !! c;
  kf_host : host (kenvs x) `prefix_of` host (kenvs x');
}.

#[export] Instance kframe_preorder : PreOrder kframe.
Proof.
  split; [by intros x; split|]. intros x1 x2 x3 [A2 A3 A4 A5 A6 A7 A8 A9] [B2 B3 B4 B5 B6 B7 B8 B9]. split; [congruence..|auto| |by etrans]. intros c. by rewrite B8, A8.
Qed.

(** No client is closing, and no command is to be aborted. *)
Definition calm x : Prop := events x = [] /\ hpq x = [].

(** Commands that have completed without an error. *)
Definition good x : Prop :=
  (forall c, c ∈ cq x ++ completed (core x) -> stat (kenvs x) c = Some KDS_COMPLETED) /\ Forall (fun p => snd p = KDS_COMPLETED) (host (kenvs x)).

Record kstep x x' : Prop := {
  ks_frame : kframe x x';
  ks_order : order x' ≡ₚ order x;
  ks_calm : calm x -> order x' = order x;
  ks_good : calm x -> good x -> good x';
}.

Lemma kframe_calm x x' : kframe x x' -> calm x -> calm x'.
Proof. intros [F2 _ _ _ _ F7 _ _] [C1 C2]. split; [congruence|auto]. Qed.

#[export] Instance kstep_preorder : PreOrder kstep.
Proof.
  split; [by intros x; split|]. intros x1 x2 x3 [A1 A2 A3 A4] [B1 B2 B3 B4]. split; [by etrans|by rewrite B2| |].
  - intros Hc. rewrite B3 by by eapply kframe_calm. by apply A3.
  - intros Hc Hg. apply B4; [by eapply kframe_calm|by apply A4].
Qed.

(** The change of a state in nothing that matters for the queues. *)
Record agree x x' : Prop := {
  ag_frame : kframe x x';
  ag_pq : pq x' = pq x;
  ag_lists : cq x' = cq x /\ rq x' = rq x /\ hpq x' = hpq x /\ submitted (core x') = submitted (core x) /\ completed (core x') = completed (core x);
  ag_nums : num_pq x' = num_pq x /\ num_rq x' = num_rq x /\ num_sq x' = num_sq x /\ num_cq x' = num_cq x /\ num_hpq x' = num_hpq x;
  ag_host : host (kenvs x') = host (kenvs x);
  ag_stat : forall c, stat (kenvs x') c = stat (kenvs x) c;
}.

#[export] Instance agree_preorder : PreOrder agree.
Proof.
  split; [by intros x; split|]. intros x1 x2 x3 [A1 A0 (A2 & A3 & A4 & A5 & A6) (A7 & A8 & A9 & A10 & A11) A12 A13] [B1 B0 (B2 & B3 & B4 & B5 & B6) (B7 & B8 & B9 & B10 & B11) B12 B13].
  split; [by etrans|congruence|split_and!; congruence|split_and!; congruence|congruence|]. intros c. by rewrite B13, A13.
Qed.

Lemma agree_order x x' : agree x x' -> order x' = order x /\ queued x' = queued x.
Proof. intros [F A0 (A2 & A3 & A4 & A5 & A6) _ A12 _]. unfold order, queued. by rewrite A2, A3, A5, A6, A12, A0. Qed.

Lemma frame_some x x' c : kframe x x' -> is_Some (xcmds (kenvs x) !! c) -> is_Some (xcmds (kenvs x') !! c).
Proof. intros F [y Hy]. pose proof (kf_cmds _ _ F c) as E. rewrite Hy in E. destruct (xcmds (kenvs x') !! c); [by eexists|done]. Qed.

Lemma frame_high x x' c : kframe x x' -> (exists y, xcmds (kenvs x) !! c = Some y /\ info y <> []) -> exists y, xcmds (kenvs x') !! c = Some y /\ info y <> [].
Proof.
  intros F (y & Hy & Hi). pose proof (kf_cmds _ _ F c) as E. rewrite Hy in E. destruct (xcmds (kenvs x') !! c) as [z|]; [|done]. exists z. split; [done|]. injection E as E. intros Ez. apply Hi. congruence.
Qed.

Lemma agree_kinv dr ds dc x x' : agree x x' -> kinv dr ds dc x -> kinv dr ds dc x'.
Proof.
  intros Ha [I1 I2 I3 I4 I5 I6 I6' I7 I8 I9]. destruct (agree_order x x' Ha) as [Eo Eq]. destruct Ha as [F Ep (A2 & A3 & A4 & A5 & A6) (A7 & A8 & A9 & A10 & A11) A12 A13].
  split; rewrite ?A2, ?A3, ?A4, ?A5, ?A6, ?A7, ?A8, ?A9, ?A10, ?A11, ?Ep, ?Eo, ?Eq; try done.
  - intros c Hc. eapply frame_some; [done|by apply I8].
  - intros c Hc. eapply frame_high; [done|by apply I9].
Qed.

Lemma agree_kstep x x' : agree x x' -> kstep x x'.
Proof.
  intros Ha. destruct (agree_order x x' Ha) as [Eo _]. destruct Ha as [F _ (A2 & A3 & A4 & A5 & A6) _ A12 A13]. split; [done|by rewrite Eo|done|].
  intros _ [G1 G2]. split; [|by rewrite A12]. intros c. rewrite A2, A6, A13. apply G1.
Qed.

(** * Neutral operations *)

Definition agrees x x' : Prop := agree x x' /\ start_tick x' = start_tick x.

#[export] Instance agrees_preorder : PreOrder agrees.
Proof. split; [by intros x; split|]. intros x1 x2 x3 [A1 A2] [B1 B2]. split; [by etrans|congruence]. Qed.

Definition mild x x' : Prop := agrees x x' /\ core x' = core x.

#[export] Instance mild_preorder : PreOrder mild.
Proof. split; [by intros x; split|]. intros x1 x2 x3 [A1 A2] [B1 B2]. split; [by etrans|congruence]. Qed.

(** Operations that change the state as [R] says. *)
Definition within {A} (R : xrt_cu C -> xrt_cu C -> Prop) (m : K A) : Prop := forall x, wp m (fun _ x' => R x x') no_err x.
Abbreviation neutral := (within agrees).

Section within.
Context (R : xrt_cu C -> xrt_cu C -> Prop) `{!PreOrder R}.

Lemma within_ret {A} (a : A) : within R (ret a).
Proof. intros x. apply wp_ret. reflexivity. Qed.

Lemma within_bind {A B} (m : K A) (k : A -> K B) : within R m -> (forall a, within R (k a)) -> within R (bind m k).
Proof. intros Hm Hk x. apply wp_bind. eapply wp_mono; [apply Hm| |done]. cbn. intros a x1 H1. eapply wp_mono; [apply Hk| |done]. cbn. intros b x2 H2. by etrans. Qed.

Lemma within_gets {A} (f : xrt_cu C -> A) : within R (gets f).
Proof. intros x. apply wp_gets. reflexivity. Qed.

Lemma within_modify f : (forall x, R x (f x)) -> within R (modify f).
Proof. intros Hf x. apply wp_modify, Hf. Qed.

Lemma within_when b m : within R m -> within R (when b m).
Proof. intros Hm. destruct b; [apply Hm|apply within_ret]. Qed.

Lemma within_if {A} (b : bool) (m1 m2 : K A) : within R m1 -> within R m2 -> within R (if b then m1 else m2).
Proof. by destruct b. Qed.
End within.

Lemma mild_neutral {A} (m : K A) : within mild m -> neutral m.
Proof. intros Hm x. eapply wp_mono; [apply Hm| |done]. by intros a x' [? _]. Qed.

Lemma stamp_env c s e :
  host (set_xcmd_timestamp c s e) = host e /\ forall i, command_frame <$> xcmds (set_xcmd_timestamp c s e) !! i = command_frame <$> xcmds e !! i /\ stat (set_xcmd_timestamp c s e) i = stat e i.
Proof.
  unfold set_xcmd_timestamp, stat. destruct (xcmds e !! c) as [y|] eqn:E; [|done]. destruct (timestamp_enabled y); [|done]. split; [done|]. intros i. cbn.
  destruct (decide (i = c)) as [->|]; [by rewrite list_lookup_alter_eq, E|by rewrite list_lookup_alter_ne].
Qed.

Lemma mild_stamp c s : within mild (on_env (set_xcmd_timestamp c s)).
Proof.
  apply within_modify. intros x. destruct (stamp_env c s (kenvs x)) as [E1 E2]. split; [|done]. split; [|done]. split; [split; try done|done|done|done|done|]; cbn; [|by rewrite E1|]; intros i; apply E2.
Qed.

Lemma mild_log a b : within mild (xrt_cu_circ_produce a b).
Proof.
  unfold xrt_cu_circ_produce. apply within_bind; [apply _|apply within_gets, _|]. intros d. apply within_when, within_bind; [apply _..|apply within_gets, _|]. intros t.
  apply within_bind; [apply _|by apply within_modify|]. intros _. by apply within_modify.
Qed.

Lemma mild_stat f : within mild (on_stat f).
Proof. by apply within_modify. Qed.

Lemma mild_idle_start : within mild xrt_cu_idle_start.
Proof.
  unfold xrt_cu_idle_start. apply within_bind; [apply _|apply within_gets, _|]. intros y. repeat (apply within_if; [apply within_ret, _|]).
  apply within_bind; [apply _|by apply within_modify|intros _; apply mild_stat].
Qed.

Lemma mild_idle_end : within mild xrt_cu_idle_end.
Proof.
  unfold xrt_cu_idle_end. apply within_bind; [apply _|apply within_gets, _|]. intros y. repeat (apply within_if; [apply within_ret, _|]).
  apply within_bind; [apply _|by apply within_modify|intros _; apply mild_stat].
Qed.

(** A function of the compute unit that only accesses registers. *)
Lemma neutral_funcs {A} (f : C -> kenv -> A * C * kenv) :
  (forall c e, let '(_, c', e') := f c e in submitted c' = submitted c /\ completed c' = completed c /\ env_same e e') -> neutral (funcs f).
Proof.
  intros Hf x. unfold wp, funcs. specialize (Hf (core x) (kenvs x)). destruct (f (core x) (kenvs x)) as [[a c'] e']. destruct Hf as (E1 & E2 & [E3 E4]).
  split; [|done]. split; [split; try done; cbn; [by rewrite E4|by rewrite E3]|done|done|done|done|]. intros c. unfold stat. cbn. by rewrite E4.
Qed.

Lemma neutral_enable : neutral xrt_cu_switch_to_interrupt.
Proof.
  apply within_bind; [apply _| |intros _; by apply within_modify]. apply neutral_funcs. intros c e. pose proof (law_enable (Z.lor CU_INTR_DONE CU_INTR_READY) c e) as Hl. destruct (enable_intr _ c e). by destruct Hl as (? & ? & _ & ?).
Qed.

Lemma neutral_disable : neutral xrt_cu_switch_to_poll.
Proof.
  apply within_bind; [apply _| |intros _; by apply within_modify]. apply neutral_funcs. intros c e. pose proof (law_disable (Z.lor CU_INTR_DONE CU_INTR_READY) c e) as Hl. destruct (disable_intr _ c e). by destruct Hl as (? & ? & _ & ?).
Qed.

Lemma neutral_start : neutral (funcs_ start).
Proof. apply neutral_funcs. intros c e. pose proof (law_start c e) as Hl. destruct (start c e). by destruct Hl as (? & ? & _ & ?). Qed.

Lemma neutral_put n : neutral (xrt_cu_put_credit n).
Proof. apply within_modify. intros x. destruct (law_free n (core x)) as [E1 E2]. by split; [split|]. Qed.

Lemma neutral_get : neutral xrt_cu_get_credit.
Proof. apply neutral_funcs. intros c e. pose proof (law_alloc c) as Hl. destruct (alloc_credit c). by destruct Hl as (? & ? & _). Qed.
End invariant.
