(* ===== verification/KdsSteps.v ===== *)
(** The functions that process the queues of a compute unit keep the invariant and end without a
    fault, whatever the device does. *)

From S2P Require Import Prelude KdsEnv KdsCu KdsInvariant.

Section steps.
Context {C : Type} `{XcuLaws C}.
Implicit Types x : xrt_cu C.

Abbreviation K := (M (xrt_cu C) kfault).
Abbreviation neutral := (within agrees).

(** The function ends in a state with the invariant that [Q] holds of. *)
Definition keeps {A} (m : K A) x (Q : A -> xrt_cu C -> Prop) : Prop :=
  wp m (fun a x' => kinv 0 0 0 x' /\ kstep x x' /\ pq x' = pq x /\ Q a x') no_err x.

Lemma kkeeps_ret {A} (a : A) x (Q : A -> xrt_cu C -> Prop) : kinv 0 0 0 x -> Q a x -> keeps (ret a) x Q.
Proof. intros Hi Hq. by apply wp_ret. Qed.

Lemma keeps_mono {A} (m : K A) x (Q Q' : A -> xrt_cu C -> Prop) : keeps m x Q -> (forall a x', Q a x' -> Q' a x') -> keeps m x Q'.
Proof. intros Hm Hq. eapply wp_mono; [exact Hm| |done]. cbn. intros a x' (? & ? & ? & ?). split_and!; auto. Qed.

Lemma kkeeps_bind {A B} (m : K A) (k : A -> K B) x Q Q' :
  keeps m x Q -> (forall a x', kinv 0 0 0 x' -> kstep x x' -> Q a x' -> keeps (k a) x' Q') -> keeps (bind m k) x Q'.
Proof.
  intros Hm Hk. apply wp_bind. eapply wp_mono; [exact Hm| |done]. cbn. intros a x1 (I1 & S1 & P1 & Q1). eapply wp_mono; [by apply Hk| |done]. cbn. intros b x2 (I2 & S2 & P2 & Q2).
  split_and!; [done|by etrans|congruence|done].
Qed.

Lemma keeps_neutral {A} (m : K A) x : neutral m -> kinv 0 0 0 x -> keeps m x (fun _ x' => agrees x x').
Proof. intros Hm Hi. eapply wp_mono; [apply Hm| |done]. cbn. intros a x' Ha. pose proof Ha as [Ha' _]. split_and!; [by eapply agree_kinv|by apply agree_kstep|apply Ha'|done]. Qed.

Lemma wp_within {A B} (R : xrt_cu C -> xrt_cu C -> Prop) (m : K A) (k : A -> K B) x (Q : B -> xrt_cu C -> Prop) F : within R m -> (forall a x', R x x' -> wp (k a) Q F x') -> wp (bind m k) Q F x.
Proof. intros Hm Hk. apply wp_bind. eapply wp_mono; [apply Hm|exact Hk|done]. Qed.

Lemma kkeeps_gets {A B} (f : xrt_cu C -> A) (k : A -> K B) x Q : keeps (k (f x)) x Q -> keeps (bind (gets f) k) x Q.
Proof. done. Qed.

(** * The compute unit is checked *)

(** The lists of the compute unit change, and what they hold does not. *)
Lemma core_change dr ds dc x c' e' s :
  kinv dr ds dc x -> env_step (kenvs x) e' -> completed c' ++ submitted c' ≡ₚ completed (core x) ++ submitted (core x) ->
  (forall i, i ∉ submitted (core x) -> stat e' i = stat (kenvs x) i) ->
  (forall i, i ∈ completed c' -> i ∈ completed (core x) \/ stat e' i = (fun _ => s) <$> stat (kenvs x) i) ->
  (calm x -> s = KDS_COMPLETED /\ completed c' ++ submitted c' = completed (core x) ++ submitted (core x)) ->
  let x' := on_core (fun _ => c') (on_kenvs (fun _ => e') x) in kinv dr ds dc x' /\ kstep x x'.
Proof.
  intros [I1 I2 I3 I4 I5 I6 I6' I7 I8 I9] [E1 E2] Hp Ho Hs Hc x'. assert (kframe x x') as Hf by (split; try done; cbn; by rewrite E1).
  assert (queued x' ≡ₚ queued x) as Eq. { unfold queued; cbn. rewrite (app_assoc (completed c')), Hp. by rewrite !app_assoc. }
  assert (order x' ≡ₚ order x) as Eo. { change (order x') with ((fst <$> host e') ++ queued x'). change (order x) with ((fst <$> host (kenvs x)) ++ queued x). by rewrite E1, Eq. }
  pose proof (Permutation_length Hp) as Hl. rewrite !length_app in Hl. split; split.
  - done.
  - done.
  - cbn. rewrite I3. lia.
  - done.
  - done.
  - by rewrite Eq.
  - done.
  - by rewrite Eo.
  - intros c Hc'. rewrite Eq in Hc'. eapply frame_some; [exact Hf|by apply I8].
  - intros c Hc'. eapply frame_high; [exact Hf|by apply I9].
  - exact Hf.
  - exact Eo.
  - intros Hcalm. destruct (Hc Hcalm) as [_ E]. unfold order; cbn. rewrite E1, (app_assoc (completed c')), E. by rewrite <- !app_assoc.
  - intros Hcalm [G1 G2]. destruct (Hc Hcalm) as [-> _]. split; [|cbn; by rewrite E1]. intros c Hc'. cbn in Hc' |- *.
    assert (forall i, i ∈ cq x ++ completed (core x) -> i ∉ submitted (core x)) as Hdis.
    { intros i Hi Hi'. unfold order in I7. rewrite (app_assoc (cq x)) in I7. apply NoDup_app in I7 as (_ & _ & I7). apply NoDup_app in I7 as (_ & I7 & _). apply (I7 i Hi). set_solver. }
    apply elem_of_app in Hc' as [Hc'|Hc']; [rewrite Ho; [apply G1; set_solver|apply Hdis; set_solver]|]. destruct (Hs c Hc') as [Hin|E]; [rewrite Ho; [apply G1; set_solver|apply Hdis; set_solver]|].
    rewrite E. destruct (I8 c) as [y Hy]; [|unfold stat; by rewrite Hy]. rewrite <- Eq. unfold queued; cbn. set_solver.
Qed.

(** What is kept when only the compute unit changes. *)
Record same_queues x x' : Prop := {
  sq_rq : rq x' = rq x;
  sq_cq : cq x' = cq x;
  sq_hpq : hpq x' = hpq x;
  sq_nums : num_rq x' = num_rq x /\ num_cq x' = num_cq x /\ num_sq x' = num_sq x /\ num_pq x' = num_pq x /\ num_hpq x' = num_hpq x;
}.

#[export] Instance same_queues_preorder : PreOrder same_queues.
Proof. split; [by intros x; split|]. intros x1 x2 x3 [A1 A2 A3 (A4 & A5 & A6 & A7 & A8)] [B1 B2 B3 (B4 & B5 & B6 & B7 & B8)]. split; [congruence..|split_and!; congruence]. Qed.

Lemma agree_queues x x' : agree x x' -> same_queues x x'.
Proof. intros [_ _ (A2 & A3 & A4 & _) (A7 & A8 & A9 & A10 & A11) _ _]. by split. Qed.

Lemma keeps_check force x : kinv 0 0 0 x -> keeps (xrt_cu_check_with force) x (fun _ x' => same_queues x x' /\ start_tick x' = start_tick x /\ peek_credit (core x') = peek_credit (core x)).
Proof.
  intros Hi. unfold xrt_cu_check_with, keeps. apply wp_bind. unfold wp at 1, funcs. pose proof (law_check force (XcuStatus 0 0 0 0) (core x) (kenvs x)) as Hl. destruct (check force _ (core x) (kenvs x)) as [[s c'] e'].
  destruct Hl as (L1 & L2 & L3 & L4 & L5 & L6). destruct (core_change 0 0 0 x c' e' KDS_COMPLETED Hi L1) as [Hi' Hs']; [by rewrite L3|done|done|done|].
  do 3 (apply wp_bind, wp_modify). apply wp_modify. set (x1 := on_core _ _) in *. assert (forall f1 f2 f3 f4, agree x1 (on_rcode f4 (on_cu_status f3 (on_ready_cnt f2 (on_done_cnt f1 x1))))) as Ha by done.
  split_and!; [eapply agree_kinv; [apply Ha|done]|etrans; [done|apply agree_kstep, Ha]|done|by split|done|done].
Qed.

(** * Commands are told of *)

Lemma u32_pred n : 0 < n < 2 ^ 32 -> u32 (n - 1) = n - 1.
Proof. intros Hn. apply u32_small. lia. Qed.

Lemma length_queued x : Z.of_nat (length (queued x)) = Z.of_nat (length (cq x)) + Z.of_nat (length (completed (core x))) + Z.of_nat (length (submitted (core x))) + Z.of_nat (length (rq x)) + Z.of_nat (length (pq x)).
Proof. unfold queued. rewrite !length_app. lia. Qed.

(** The first command of [cq] has been told of. *)
Lemma told_first x c l y :
  kinv 0 0 0 x -> cq x = c :: l -> xcmds (kenvs x) !! c = Some y ->
  forall x', (forall i, command_frame <$> xcmds (kenvs x') !! i = command_frame <$> xcmds (kenvs x) !! i) -> (forall i, stat (kenvs x') i = stat (kenvs x) i) ->
  host (kenvs x') = host (kenvs x) ++ [(c, status y)] -> cq x' = l -> num_cq x' = u32 (num_cq x - 1) -> num_rq x' = num_rq x -> num_sq x' = num_sq x -> num_pq x' = num_pq x -> num_hpq x' = num_hpq x ->
  rq x' = rq x -> hpq x' = hpq x -> pq x' = pq x -> submitted (core x') = submitted (core x) -> completed (core x') = completed (core x) -> events x' = events x -> tick x' = tick x -> sem x' = sem x -> stop x' = stop x -> thread x' = thread x ->
  kinv 0 0 0 x' /\ kstep x x'.
Proof.
  intros Hi Hcq Hy x' Hfr Hst Hh Hc' Hnc Hnr Hns Hnp Hnh Hrq Hhq Hpq Hsu Hco Hev Hti Hse Hstop Hth. pose proof (length_queued x) as Hlen. destruct Hi as [I1 I2 I3 I4 I5 I6 I6' I7 I8 I9].
  assert (kframe x x') as Hf by (split; try done; [by rewrite Hhq|rewrite Hh; by exists [(c, status y)]]).
  assert (queued x = c :: queued x') as Eq by (unfold queued; by rewrite Hcq, Hc', Hco, Hsu, Hrq, Hpq).
  assert (order x' = order x) as Eo.
  { change (order x') with ((fst <$> host (kenvs x')) ++ queued x'). change (order x) with ((fst <$> host (kenvs x)) ++ queued x). by rewrite Hh, Eq, fmap_app, <- app_assoc. }
  rewrite Hcq in I4, Hlen. cbn in I4, Hlen. split; split.
  - congruence.
  - by rewrite Hnr, Hrq.
  - by rewrite Hns, Hco, Hsu.
  - rewrite Hnc, I4, Hc', u32_pred by lia. lia.
  - by rewrite Hnh, Hhq.
  - rewrite Eq in I6. cbn in I6. lia.
  - by rewrite Hhq.
  - by rewrite Eo.
  - intros i Hin. eapply frame_some; [done|]. apply I8. rewrite Eq. by right.
  - intros i Hin. eapply frame_high; [done|]. apply I9. by rewrite <- Hhq.
  - done.
  - by rewrite Eo.
  - done.
  - intros _ [G1 G2]. split; [intros i Hin; rewrite Hst; apply G1; rewrite Hcq; rewrite Hc', Hco in Hin; set_solver|]. rewrite Hh. apply Forall_app. split; [done|]. apply Forall_singleton. cbn.
    specialize (G1 c). rewrite Hcq in G1. unfold stat in G1. rewrite Hy in G1. assert (Some (status y) = Some KDS_COMPLETED) as [= E] by (apply G1; set_solver). done.
Qed.

Lemma keeps_complete_first x : kinv 0 0 0 x -> cq x <> [] -> keeps complete_first x (fun _ x' => cq x' = tl (cq x) /\ rq x' = rq x /\ core x' = core x /\ hpq x' = hpq x /\ start_tick x' = start_tick x /\ (fst <$> host (kenvs x')) = (fst <$> host (kenvs x)) ++ take 1 (cq x)).
Proof.
  intros Hi Hne. destruct (cq x) as [|c l] eqn:Ecq; [done|]. unfold complete_first, keeps. apply wp_bind, wp_gets. rewrite Ecq. apply wp_bind, wp_ret.
  destruct (ki_some _ _ _ _ Hi c) as [y Hy]; [unfold queued; rewrite Ecq; set_solver|]. apply wp_bind. unfold wp at 1, get_xcmd. rewrite Hy.
  eapply wp_within; [apply mild_stamp|]. intros _ x1 A1. eapply wp_within; [apply mild_log|]. intros _ x2 A2. assert (mild x x2) as [[[F P (L1 & L2 & L3 & L4 & L5) (N1 & N2 & N3 & N4 & N5) Hh Hs] Hst] Hc] by by etrans. clear A1 A2 x1.
  repeat (apply wp_bind, wp_modify). apply wp_modify. set (x' := on_num_cq _ _).
  destruct (told_first x c l y Hi Ecq Hy x') as [Hi' Hs']; subst x'; cbn; try done; try apply F; [by rewrite Hh|by rewrite L1, Ecq|by rewrite N4|].
  split_and!; [done|done|done|by rewrite L1, Ecq|done|done|done|done|]. cbn. by rewrite Hh, fmap_app.
Qed.

Lemma keeps_complete_all n x : kinv 0 0 0 x -> length (cq x) = n -> keeps (complete_all n) x (fun _ x' => cq x' = [] /\ rq x' = rq x /\ core x' = core x /\ hpq x' = hpq x /\ start_tick x' = start_tick x /\ (fst <$> host (kenvs x')) = (fst <$> host (kenvs x)) ++ cq x).
Proof.
  revert x. induction n as [|n IH]; intros x Hi Hn; cbn [complete_all]; apply kkeeps_gets; rewrite (ki_cq _ _ _ _ Hi), Hn, Z.add_0_r.
  - apply kkeeps_ret; [done|]. apply nil_length_inv in Hn. rewrite Hn, app_nil_r. by split_and!.
  - destruct (Z.eqb_spec (Z.of_nat (S n)) 0) as [E|_]; [lia|]. eapply kkeeps_bind; [apply keeps_complete_first; [done|intros E0; by rewrite E0 in Hn]|]. cbn. intros _ x1 Hi1 _ (E1 & E2 & E3 & E4 & E5 & E6).
    eapply keeps_mono; [apply IH; [done|rewrite E1; by destruct (cq x); [|injection Hn]]|]. cbn. intros _ x2 (F1 & F2 & F3 & F4 & F5 & F6). split_and!; [congruence..|]. rewrite F6, E6, E1, <- app_assoc. by destruct (cq x).
Qed.

Lemma keeps_process_cq x : kinv 0 0 0 x -> keeps process_cq x (fun _ x' => cq x' = [] /\ rq x' = rq x /\ core x' = core x /\ hpq x' = hpq x /\ start_tick x' = start_tick x /\ (fst <$> host (kenvs x')) = (fst <$> host (kenvs x)) ++ cq x).
Proof. intros Hi. apply kkeeps_gets, keeps_complete_all; [done|]. rewrite (ki_cq _ _ _ _ Hi). lia. Qed.

(** * Completed commands are collected *)

(** A command goes from the compute unit to [cq]. *)
Lemma collected x c c' :
  kinv 0 0 0 x -> submitted c' = submitted (core x) -> completed (core x) = c :: completed c' ->
  forall x', mild (on_core (fun _ => c') x) x' -> let x2 := on_num_sq (fun n => u32 (n - 1)) (on_num_cq (fun n => u32 (n + 1)) (on_cq (fun l => l ++ [c]) x')) in kinv 0 0 0 x2 /\ kstep x x2.
Proof.
  intros Hi Hs Hc x' [[[F P (L1 & L2 & L3 & L4 & L5) (N1 & N2 & N3 & N4 & N5) Hh Hst] _] Hco] x2. cbn in *. pose proof (length_queued x) as Hlen. destruct Hi as [I1 I2 I3 I4 I5 I6 I6' I7 I8 I9].
  assert (kframe x x2) as Hf by (destruct F; by split). rewrite Hc in I3, Hlen. cbn in I3, Hlen.
  assert (queued x2 = queued x) as Eq by (unfold queued; cbn; by rewrite L1, L2, P, Hco, Hc, Hs, <- app_assoc).
  assert (order x2 = order x) as Eo by (change (order x2) with ((fst <$> host (kenvs x')) ++ queued x2); by rewrite Hh, Eq).
  split; split.
  - cbn. congruence.
  - cbn. congruence.
  - cbn. rewrite N3, I3, Hco, Hs, u32_pred by lia. lia.
  - cbn. rewrite N4, I4, L1, length_app, u32_small by lia. cbn. lia.
  - cbn. congruence.
  - by rewrite Eq.
  - cbn. by rewrite L3.
  - by rewrite Eo.
  - intros i Hin. rewrite Eq in Hin. eapply frame_some; [done|by apply I8].
  - intros i Hin. cbn in Hin. rewrite L3 in Hin. eapply frame_high; [done|by apply I9].
  - done.
  - by rewrite Eo.
  - done.
  - intros _ [G1 G2]. split; [|cbn; by rewrite Hh]. intros i Hin. change (kenvs x2) with (kenvs x'). rewrite Hst. apply G1. cbn in Hin. rewrite Hc, L1, Hco in *. set_solver.
Qed.

Definition collects (x x' : xrt_cu C) : Prop :=
  completed (core x') = [] /\ submitted (core x') = submitted (core x) /\ cq x' = cq x ++ completed (core x) /\ rq x' = rq x /\ hpq x' = hpq x /\ peek_credit (core x') = peek_credit (core x) /\ start_tick x' = start_tick x.

Lemma keeps_collect log n x : (forall c, within mild (log c)) -> kinv 0 0 0 x -> (length (completed (core x)) <= n)%nat -> keeps (collect log n) x (fun _ => collects x).
Proof.
  intros Hlog. revert x. induction n as [|n IH]; intros x Hi Hn; cbn [collect]; unfold keeps; apply wp_bind; unfold wp at 1, funcs; pose proof (law_complete (core x)) as Hl; destruct (get_complete (core x)) as [o c'];
    destruct Hl as (L1 & L2 & L3 & L4); (destruct o as [c|]; cbn in L3; [|
      specialize (L4 eq_refl); apply wp_ret; set (x1 := on_core _ _); assert (agree x x1) as Ha by (split; try done; split_and!; try done; cbn; congruence);
      unfold collects; split_and!; [by eapply agree_kinv|by apply agree_kstep|done|cbn; congruence|done|cbn; by rewrite L4, app_nil_r|done|done|done|done]]).
  - rewrite L3 in Hn. cbn in Hn. lia.
  - eapply wp_within; [apply Hlog|]. intros _ x1 Hm. unfold move_to_cq. apply wp_bind, wp_bind, wp_modify, wp_modify, wp_bind, wp_modify.
    destruct (collected x c c' Hi L1 L3 x1 Hm) as [Hi2 Hs2]. set (x2 := on_num_sq _ _) in *. destruct Hm as [[[F P (M1 & M2 & M3 & M4 & M5) _ Hh Hst] Htk] Hco].
    eapply wp_mono; [apply (IH x2); [done|cbn; rewrite Hco; rewrite L3 in Hn; cbn in *; lia]| |done]. cbn. intros _ x3 (Hi3 & Hs3 & P3 & R1 & R2 & R3 & R4 & R5 & R6 & R7). cbn in *.
    unfold collects. split_and!; [done|by etrans|congruence|done|by rewrite R2, Hco|rewrite R3, M1, Hco, L3; by rewrite <- app_assoc|congruence|congruence|by rewrite R6, Hco|congruence].
Qed.

(** * Aborts *)

Lemma framed_client cl : framed (abort_client cl).
Proof. intros [] [] E. by injection E as -> _ _ _ _ _ _. Qed.

Lemma framed_handle h : framed (abort_handle h).
Proof. intros [] [] E. by injection E as _ _ _ _ _ -> _. Qed.

(** The compute unit gives up commands; then [x] is not calm. *)
Lemma keeps_abort m x :
  framed m -> kinv 0 0 0 x -> ~ calm x ->
  keeps (funcs (abort m)) x (fun _ x' => same_queues x x' /\ bad_state x' = bad_state x /\ start_tick x' = start_tick x /\ (forall i y, i ∈ submitted (core x') -> xcmds (kenvs x) !! i = Some y -> m y = false)).
Proof.
  intros Hm Hi Hc. unfold keeps, wp, funcs. pose proof (law_abort m (core x) (kenvs x) Hm) as Hl. destruct (abort m (core x) (kenvs x)) as [[r c'] e']. destruct Hl as (L1 & L2 & L3 & L4 & L5 & L6).
  destruct (core_change 0 0 0 x c' e' KDS_TIMEOUT Hi L1 L2 L4 L5 ltac:(done)) as [Hi' Hs']. split_and!; [done|done|done|by split|done|done|done].
Qed.

Lemma keeps_agree f x (Q : unit -> xrt_cu C -> Prop) : agree x (f x) -> kinv 0 0 0 x -> Q tt (f x) -> keeps (modify f) x Q.
Proof. intros Ha Hi Hq. apply wp_modify. split_and!; [by eapply agree_kinv|by apply agree_kstep|apply Ha|done]. Qed.

(** The time of a closing client is over. *)
Definition overdue x : Prop := start_tick x <> 0 /\ CU_EXEC_DEFAULT_TTL <= u32 (u32 (tick x) - start_tick x).

Lemma keeps_abort_closing cl x :
  kinv 0 0 0 x -> ~ calm x ->
  keeps (abort_closing cl) x (fun _ x' => same_queues x x' /\ (start_tick x = 0 -> start_tick x' = u32 (tick x)) /\
    (overdue x -> forall i y, i ∈ submitted (core x') -> xcmds (kenvs x) !! i = Some y -> client y <> cl)).
Proof.
  intros Hi Hc. unfold abort_closing. apply kkeeps_gets. unfold id. destruct (Z.eqb_spec (start_tick x) 0) as [E|E]; [apply keeps_agree; [done|done|]; split_and!; [by split|done|by intros [? _]]|].
  destruct (Z.ltb_spec (u32 (u32 (tick x) - start_tick x)) CU_EXEC_DEFAULT_TTL) as [El|El]; [apply kkeeps_ret; [done|]; split_and!; [done|done|intros [_ ?]; lia]|].
  eapply kkeeps_bind; [by apply (keeps_abort (abort_client cl)); [apply framed_client|..]|]. cbn. intros r x1 Hi1 _ (Q1 & _ & _ & Hcl).
  eapply kkeeps_bind; [instantiate (1 := fun _ x2 => same_queues x1 x2 /\ core x2 = core x1); destruct (r =? 0); [by apply kkeeps_ret|by apply keeps_agree]|].
  cbn. intros _ x2 Hi2 _ [Q2 Hco]. apply keeps_agree; [done|done|]. split_and!; [etrans; [done|]; etrans; [done|]; by split|done|].
  intros _ i y Hi' Hy. cbn in Hi'. rewrite Hco in Hi'. specialize (Hcl i y Hi' Hy). unfold abort_client in Hcl. by apply Nat.eqb_neq.
Qed.

(** * Queues *)

Definition no_submitted_of (cl : nat) (x x' : xrt_cu C) : Prop := forall i y, i ∈ submitted (core x') -> xcmds (kenvs x) !! i = Some y -> client y <> cl.

Record settles (x x' : xrt_cu C) : Prop := {
  st_rq : rq x' = rq x;
  st_hpq : hpq x' = hpq x;
  st_completed : completed (core x') = [];
  st_cq : cq x `prefix_of` cq x';
  st_overdue : forall cl l, events x = cl :: l -> overdue x -> no_submitted_of cl x x';
}.

Lemma not_calm x cl l : events x = cl :: l -> ~ calm x.
Proof. intros E [E' _]. congruence. Qed.

Lemma frame_cmd x x' i y : kframe x x' -> xcmds (kenvs x) !! i = Some y -> exists y', xcmds (kenvs x') !! i = Some y' /\ command_frame y' = command_frame y.
Proof. intros F Hy. pose proof (kf_cmds _ _ F i) as E. rewrite Hy in E. destruct (xcmds (kenvs x') !! i) as [y'|]; [|done]. exists y'. split; [done|exact (inj Some _ _ E)]. Qed.

Lemma same_client y y' : command_frame y' = command_frame y -> client y' = client y.
Proof. intros E. change (client (command_frame y') = client (command_frame y)). by rewrite E. Qed.

Lemma keeps_process_submitted x : kinv 0 0 0 x -> keeps process_submitted x (fun _ => settles x).
Proof.
  intros Hi. unfold process_submitted. apply kkeeps_gets. eapply kkeeps_bind; [apply (keeps_neutral (when _ _)); [|done]; apply within_when; [apply _|]; apply within_bind; [apply _|apply neutral_put|intros _; by apply within_modify]|].
  cbn. intros _ x1 Hi1 Hs1 [A1 T1]. apply kkeeps_gets. pose proof (ki_sq _ _ _ _ Hi1) as Hsq. pose proof A1 as [F1 P1 (L1 & L2 & L3 & L4 & L5) _ _ _].
  destruct (Z.eqb_spec (num_sq x1) 0) as [E|E].
  { apply kkeeps_ret; [done|]. rewrite E in Hsq. split; [done|done|by apply nil_length_inv; lia|by rewrite L1|]. intros cl l _ _ i y Hin. assert (submitted (core x1) = []) as Es by (apply nil_length_inv; lia). rewrite Es in Hin. by apply not_elem_of_nil in Hin. }
  unfold first_event_client_or_null. apply kkeeps_gets. eapply kkeeps_bind.
  { instantiate (1 := fun _ x2 => same_queues x1 x2 /\ forall cl l, events x1 = cl :: l -> overdue x1 -> no_submitted_of cl x1 x2). destruct (events x1) as [|cl l] eqn:Ee; cbn [hd_error]; [by apply kkeeps_ret|].
    eapply keeps_mono; [apply keeps_abort_closing; [done|by eapply not_calm]|]. cbn. intros _ x2 (Q1 & _ & Q3). split; [done|]. intros cl' l' [= <- <-]. exact Q3. }
  cbn. intros _ x2 Hi2 Hs2 [Q2 O2]. eapply kkeeps_bind; [apply keeps_collect; [intros c; apply mild_log|done|]|].
  { pose proof (ki_sq _ _ _ _ Hi2). destruct (sq_nums _ _ Q2) as (_ & _ & E2 & _). lia. }
  cbn. intros _ x3 Hi3 Hs3 (C1 & C2 & C3 & C4 & C5 & C6 & C7). eapply keeps_mono; [apply (keeps_neutral xrt_cu_idle_start); [|done]; intros x'; eapply wp_mono; [apply mild_idle_start| |done]; by intros a x'' [? _]|].
  cbn. intros _ x4 [[F4 P4 (M1 & M2 & M3 & M4 & M5) _ _ _] _]. destruct Q2 as [Q2r Q2c Q2h _]. split; [congruence|congruence|congruence| |].
  - rewrite M1, C3, Q2c, L1. by exists (completed (core x2)).
  - intros cl l Ee [O1 O1'] i y Hin Hy. rewrite M4, C2 in Hin. destruct (frame_cmd x x1 i y F1 Hy) as (y1 & Hy1 & Ey). rewrite <- (same_client _ _ Ey).
    eapply (O2 cl l); [by rewrite (kf_events _ _ F1)|split; [by rewrite T1|by rewrite (kf_tick _ _ F1), T1]|exact Hin|exact Hy1].
Qed.

Lemma keeps_process_sq x : kinv 0 0 0 x -> keeps process_sq x (fun _ => settles x).
Proof.
  intros Hi. unfold process_sq, is_zero_credit. do 2 apply kkeeps_gets. destruct ((num_sq x =? 0) && _) eqn:E.
  - apply andb_prop in E as [E _]. apply Z.eqb_eq in E. pose proof (ki_sq _ _ _ _ Hi) as Hsq. rewrite E in Hsq. apply kkeeps_ret; [done|].
    assert (submitted (core x) = []) as Es by (apply nil_length_inv; lia). split; [done|done|apply nil_length_inv; lia|done|]. intros cl l _ _ i y Hin. rewrite Es in Hin. by apply not_elem_of_nil in Hin.
  - eapply kkeeps_bind; [by apply keeps_check|]. cbn. intros _ x1 Hi1 Hs1 ([Q1 Q2 Q3 _] & T1 & _). eapply keeps_mono; [by apply keeps_process_submitted|]. cbn. intros _ x2 [S1 S2 S3 S4 S5].
    split; [congruence|congruence|done|by rewrite <- Q2|]. intros cl l Ee [O1 O2] i y Hin Hy. pose proof (ks_frame _ _ Hs1) as F1. destruct (frame_cmd x x1 i y F1 Hy) as (y1 & Hy1 & Ey). rewrite <- (same_client _ _ Ey).
    eapply (S5 cl l); [by rewrite (kf_events _ _ F1)|split; [by rewrite T1|by rewrite (kf_tick _ _ F1), T1]|done|done].
Qed.

Lemma remove_absent (c : nat) (l : list nat) : c ∉ l -> filter (fun i => i <> c) l = l.
Proof. induction l as [|i l IH]; intros Hc; [done|]. rewrite filter_cons, decide_True by set_solver. f_equal. apply IH. set_solver. Qed.

Lemma remove_one (c : nat) (l : list nat) : NoDup l -> c ∈ l -> c :: filter (fun i => i <> c) l ≡ₚ l.
Proof.
  induction 1 as [|i l Hi Hn IH]; [by intros ?%not_elem_of_nil|]. intros [->|Hc]%elem_of_cons; rewrite filter_cons.
  - rewrite decide_False by auto. f_equiv. by rewrite remove_absent.
  - rewrite decide_True by (intros ->; done). rewrite <- (IH Hc) at 2. apply Permutation_swap.
Qed.

Lemma order_rq x : kinv 0 0 0 x -> NoDup (rq x).
Proof. intros Hi. pose proof (ki_nodup _ _ _ _ Hi) as Hn. unfold order in Hn. do 4 (apply NoDup_app in Hn as (_ & _ & Hn)). by apply NoDup_app in Hn as (? & _ & _). Qed.

Lemma order_queued x : order x = (fst <$> host (kenvs x)) ++ queued x.
Proof. done. Qed.

(** A running command is given up; [x] is not calm. *)
Definition cancel_rq (c : nat) x : xrt_cu C :=
  on_num_rq (fun n => u32 (n - 1)) (on_num_cq (fun n => u32 (n + 1)) (on_cq (fun l => l ++ [c]) (on_rq (filter (fun i => i <> c)) (on_kenvs (set_status c KDS_ABORT) x)))).

Lemma given_up c x : kinv 0 0 0 x -> c ∈ rq x -> ~ calm x -> kinv 0 0 0 (cancel_rq c x) /\ kstep x (cancel_rq c x).
Proof.
  intros Hi Hc Hnc. pose proof (remove_one c (rq x) (order_rq x Hi) Hc) as Hp. pose proof (length_queued x) as Hlen. pose proof (Permutation_length Hp) as Hl. cbn in Hl. destruct Hi as [I1 I2 I3 I4 I5 I6 I6' I7 I8 I9].
  assert (kframe x (cancel_rq c x)) as Hf by (split; try done; apply env_step_status).
  assert (queued (cancel_rq c x) ≡ₚ queued x) as Eq. { unfold queued; cbn. rewrite <- Hp at 2. rewrite <- !app_assoc. f_equiv. cbn. rewrite !Permutation_middle. solve_Permutation. }
  assert (order (cancel_rq c x) ≡ₚ order x) as Eo by (rewrite !order_queued, Eq; done).
  split; split.
  - done.
  - cbn. rewrite I2, u32_pred by lia. lia.
  - done.
  - cbn. rewrite I4, length_app, u32_small by lia. cbn. lia.
  - done.
  - by rewrite Eq.
  - done.
  - by rewrite Eo.
  - intros i Hin. rewrite Eq in Hin. eapply frame_some; [done|by apply I8].
  - intros i Hin. eapply frame_high; [done|by apply I9].
  - done.
  - done.
  - done.
  - done.
Qed.

Record aborts (cl : nat) (l : list nat) (x x' : xrt_cu C) : Prop := {
  ar_core : core x' = core x;
  ar_hpq : hpq x' = hpq x;
  ar_start : start_tick x' = start_tick x;
  ar_cq : cq x `prefix_of` cq x';
  ar_rq : forall i, i ∈ rq x' -> i ∈ rq x;
  ar_left : forall i y, i ∈ rq x' -> i ∈ l -> xcmds (kenvs x) !! i = Some y -> client y <> cl;
}.

Lemma keeps_abort_running cl l x : kinv 0 0 0 x -> ~ calm x -> NoDup l -> (forall i, i ∈ l -> i ∈ rq x) -> keeps (abort_running cl l) x (fun _ => aborts cl l x).
Proof.
  revert x. induction l as [|c l IH]; intros x Hi Hnc Hnd Hl; cbn [abort_running]; [apply kkeeps_ret; [done|]; split; try done; by intros i y _ ?%not_elem_of_nil|].
  apply NoDup_cons in Hnd as [Hcl Hnd]. destruct (ki_some _ _ _ _ Hi c) as [y Hy]; [unfold queued; specialize (Hl c); set_solver|]. unfold keeps. apply wp_bind. unfold wp at 1, get_xcmd. rewrite Hy. apply wp_bind, wp_gets.
  destruct ((client y =? cl)%nat || bad_state x) eqn:Ec; cbn [when].
  - unfold move_to_cq. repeat first [apply wp_bind|apply wp_modify]. change (wp (abort_running cl l) (fun (_ : unit) x' => kinv 0 0 0 x' /\ kstep x x' /\ pq x' = pq x /\ aborts cl (c :: l) x x') no_err (cancel_rq c x)).
    destruct (given_up c x Hi (Hl c ltac:(set_solver)) Hnc) as [Hi1 Hs1]. eapply wp_mono; [apply IH; [done| |done|]| |done].
    + intros Hc. apply Hnc. destruct Hc. by split.
    + intros i Hin. cbn. apply list_elem_of_filter. split; [by intros ->|apply Hl; set_solver].
    + cbn. intros _ x' (Hi' & Hs' & P' & [A1 A2 A3 A4 A5 A6]). split_and!; [done|by etrans|done|]. split; [done|done|done|etrans; [by exists [c]|done]| |].
      * intros i Hin. specialize (A5 i Hin). cbn in A5. by apply list_elem_of_filter in A5 as [_ ?].
      * intros i z Hin [->|Hin']%elem_of_cons Hz; [specialize (A5 _ Hin); cbn in A5; by apply list_elem_of_filter in A5 as [? _]|].
        destruct (frame_cmd x (cancel_rq c x) i z (ks_frame _ _ Hs1) Hz) as (z' & Hz' & Ez). rewrite <- (same_client _ _ Ez). by eapply A6.
  - eapply wp_mono; [apply IH; [done|done|done|set_solver]| |done]. cbn. intros _ x' (Hi' & Hs' & P' & [A1 A2 A3 A4 A5 A6]). split_and!; [done|done|done|]. split; [done..|].
    intros i z Hin [->|Hin']%elem_of_cons Hz; [|by eapply A6]. apply orb_false_iff in Ec as [Ec _]. apply Nat.eqb_neq in Ec. congruence.
Qed.

(** * Commands are started *)

(** The first running command has gone to the compute unit; counters follow. *)
Lemma started_first x c l c' e' :
  kinv 0 0 0 x -> rq x = c :: l -> submitted c' = submitted (core x) ++ [c] -> completed c' = completed (core x) -> env_same (kenvs x) e' ->
  let x1 := on_rq tl (on_core (fun _ => c') (on_kenvs (fun _ => e') x)) in kinv 1 (-1) 0 x1 /\ kstep x x1.
Proof.
  intros [I1 I2 I3 I4 I5 I6 I6' I7 I8 I9] Hrq Hsu Hco [E1 E2] x1.
  assert (kframe x x1) as Hf by (split; try done; cbn; [by rewrite E2|by rewrite E1]).
  assert (queued x1 = queued x) as Eq by (unfold queued; cbn; by rewrite Hrq, Hsu, Hco, <- app_assoc).
  assert (order x1 = order x) as Eo by (change (order x1) with ((fst <$> host e') ++ queued x1); by rewrite E1, Eq).
  split; split.
  - done.
  - cbn. rewrite I2, Hrq. cbn. lia.
  - cbn. rewrite I3, Hsu, Hco, length_app. cbn. lia.
  - done.
  - done.
  - by rewrite Eq.
  - done.
  - by rewrite Eo.
  - intros i Hin. rewrite Eq in Hin. eapply frame_some; [done|by apply I8].
  - intros i Hin. eapply frame_high; [done|by apply I9].
  - done.
  - by rewrite Eo.
  - done.
  - intros _ [G1 G2]. split; [|cbn; by rewrite E1]. intros i Hin. unfold stat. cbn. rewrite E2. apply G1. cbn in Hin. by rewrite Hco in Hin.
Qed.

Lemma counted x : kinv 1 (-1) 0 x -> let x' := on_num_rq (fun n => u32 (n - 1)) (on_num_sq (fun n => u32 (n + 1)) x) in kinv 0 0 0 x' /\ kstep x x'.
Proof.
  intros [I1 I2 I3 I4 I5 I6 I6' I7 I8 I9] x'. pose proof (length_queued x) as Hlen. split; [|by split]. split; try done; cbn.
  - rewrite I2, u32_pred by lia. lia.
  - rewrite I3, u32_small by lia. lia.
Qed.

Record starts (b : bool) (x x' : xrt_cu C) : Prop := {
  sf_cq : cq x' = cq x;
  sf_hpq : hpq x' = hpq x;
  sf_start : start_tick x' = start_tick x;
  sf_completed : completed (core x') = completed (core x);
  sf_moves : submitted (core x') ++ rq x' = submitted (core x) ++ rq x;
  sf_length : length (rq x) = ((if b then 1 else 0) + length (rq x'))%nat;
}.

Lemma agrees_starts x x' : agrees x x' -> starts false x x'.
Proof. intros [[_ _ (L1 & L2 & L3 & L4 & L5) _ _ _] T]. split; [done..| |]; by rewrite L2, ?L4. Qed.

Lemma keeps_start_first x : kinv 0 0 0 x -> rq x <> [] -> keeps start_first x (fun b => starts b x).
Proof.
  intros Hi Hne. destruct (rq x) as [|c l] eqn:Erq; [done|]. unfold start_first. apply kkeeps_gets. rewrite Erq. unfold keeps. apply wp_bind, wp_ret. eapply wp_within; [apply neutral_get|].
  intros n x1 [A1 T1]. pose proof (agree_kinv _ _ _ _ _ A1 Hi) as Hi1. pose proof (agree_kstep _ _ A1) as Hs1. pose proof (agrees_starts x x1 (conj A1 T1)) as Hst1. pose proof (ag_pq _ _ A1) as P1.
  destruct (n =? 0); [by apply wp_ret|]. apply wp_bind. unfold wp at 1, funcs. pose proof (law_submit c (core x1) (kenvs x1)) as Hl. destruct (submit_config c (core x1) (kenvs x1)) as [[r c'] e']. destruct Hl as (L1 & L2 & L3 & L4).
  destruct A1 as [_ _ (M1 & M2 & M3 & M4 & M5) _ _ _]. set (x2 := on_core _ _). destruct (r =? 0) eqn:Er; cbn [negb].
  - apply wp_bind, wp_modify. destruct (started_first x1 c l c' e' Hi1) as [Hi3 Hs3]; [congruence|done|done|done|]. subst x2. set (x3 := on_rq tl _) in *.
    eapply wp_within; [apply neutral_start|]. intros _ x4 A4. apply wp_bind, wp_gets.
    eapply wp_within; [instantiate (1 := agrees); apply within_when; [apply _|]; apply within_bind; [apply _|by apply within_modify|]; intros _; apply within_bind; [apply _|apply within_gets, _|]; intros b; apply within_when; [apply _|apply neutral_disable]|].
    intros _ x5 A5. eapply wp_within; [apply mild_stamp|]. intros _ x6 [A6 _]. eapply wp_within; [apply mild_log|]. intros _ x7 [A7 _].
    assert (agrees x3 x7) as [A T] by (etrans; [exact A4|]; etrans; [exact A5|]; by etrans). clear A4 A5 A6 A7.
    destruct (counted x7 (agree_kinv _ _ _ _ _ A Hi3)) as [Hi8 Hs8]. apply wp_bind, wp_modify, wp_bind, wp_modify, wp_bind, wp_gets, wp_bind, wp_modify, wp_ret. set (x8 := on_num_rq _ _) in *.
    assert (forall f, agree x8 (on_stats f x8)) as A8 by done. pose proof A as [F P (N1 & N2 & N3 & N4 & N5) _ _ _]. split_and!.
    + eapply agree_kinv; [apply A8|done].
    + etrans; [exact Hs1|]. etrans; [exact Hs3|]. etrans; [apply agree_kstep; exact A|]. etrans; [exact Hs8|apply agree_kstep, A8].
    + cbn. rewrite P. done.
    + split; cbn; [by rewrite N1|by rewrite N3|by rewrite T|by rewrite N5; cbn; rewrite L3|rewrite N2, N4; cbn; rewrite L4, M4, M2, Erq, <- app_assoc; done|rewrite N2; cbn; by rewrite M2, Erq].
  - eapply wp_within; [apply neutral_put|]. intros _ x3 A3. apply wp_ret. assert (agrees x1 x2) as A2.
    { split; [|done]. destruct L1 as [E1 E2]. split; [split; try done; cbn; [by rewrite E2|by rewrite E1]|done|split_and!; try done; cbn; by rewrite L4, app_nil_r|done|done|]. intros i. unfold stat. cbn. by rewrite E2. }
    assert (agrees x1 x3) as A by by etrans. pose proof A as [A' T']. split_and!; [by eapply agree_kinv|etrans; [exact Hs1|by apply agree_kstep]|rewrite (ag_pq _ _ A'); done|].
    destruct (agrees_starts x1 x3 A) as [B1 B2 B3 B4 B5 B6], Hst1 as [D1 D2 D3 D4 D5 D6]. split; [congruence..|]. cbn in *. congruence.
Qed.

Record runs_rq (b : bool) (x x' : xrt_cu C) : Prop := {
  rr_hpq : hpq x' = hpq x;
  rr_start : start_tick x' = start_tick x;
  rr_cq : cq x `prefix_of` cq x';
  rr_length : b = true -> length (rq x) = S (length (rq x'));
  rr_idle : events x = [] -> cq x' = cq x /\ completed (core x') = completed (core x) /\ submitted (core x') ++ rq x' = submitted (core x) ++ rq x;
  rr_events : forall cl l, events x = cl :: l -> b = false /\ core x' = core x /\ forall i y, i ∈ rq x' -> xcmds (kenvs x) !! i = Some y -> client y <> cl;
}.

Lemma keeps_process_rq x : kinv 0 0 0 x -> keeps process_rq x (fun b => runs_rq b x).
Proof.
  intros Hi. unfold process_rq. apply kkeeps_gets. destruct (Z.eqb_spec (num_rq x) 0) as [E|E].
  - pose proof (ki_rq _ _ _ _ Hi) as Hr. apply kkeeps_ret; [done|]. assert (rq x = []) as Er by (apply nil_length_inv; lia). split; try done. intros cl l _. split_and!; [done|done|]. intros i y Hin. rewrite Er in Hin. by apply not_elem_of_nil in Hin.
  - unfold first_event_client_or_null. apply kkeeps_gets. destruct (events x) as [|cl l] eqn:Ee; cbn [hd_error].
    + eapply keeps_mono; [apply keeps_start_first; [done|]|].
      { intros Er. apply E. rewrite (ki_rq _ _ _ _ Hi), Er. done. }
      cbn. intros b x' [S1 S2 S3 S4 S5 S6]. split; [done|done|by rewrite S1|by intros ->|done|congruence].
    + apply kkeeps_gets. eapply kkeeps_bind; [apply (keeps_abort_running cl (rq x)); [done|by eapply not_calm|by apply order_rq|done]|]. cbn. intros _ x' Hi' _ [A1 A2 A3 A4 A5 A6].
      apply kkeeps_ret; [done|]. split; [done|done|done|done|congruence|]. intros cl' l' E'. rewrite Ee in E'. injection E' as <- <-. split_and!; [done|done|]. intros i y Hin. by apply A6; [|apply A5].
Qed.

(** The loop that starts as many commands as possible. *)
Lemma keeps_process_rq_all n x :
  kinv 0 0 0 x -> (length (rq x) <= n)%nat ->
  keeps (process_rq_all n) x (fun _ x' => hpq x' = hpq x /\ start_tick x' = start_tick x /\ cq x `prefix_of` cq x' /\
    (events x = [] -> cq x' = cq x /\ completed (core x') = completed (core x) /\ submitted (core x') ++ rq x' = submitted (core x) ++ rq x) /\
    (forall cl l, events x = cl :: l -> core x' = core x /\ forall i y, i ∈ rq x' -> xcmds (kenvs x) !! i = Some y -> client y <> cl)).
Proof.
  revert x. induction n as [|n IH]; intros x Hi Hn; cbn [process_rq_all]; (eapply kkeeps_bind; [by apply keeps_process_rq|]); cbn; intros b x1 Hi1 Hs1 [R1 R2 R3 R4 R5 R6].
  - destruct b; cbn [negb]; [specialize (R4 eq_refl); lia|]. apply kkeeps_ret; [done|]. split_and!; [done|done|done|done|]. intros cl l E. by destruct (R6 cl l E).
  - destruct b; cbn [negb].
    2: { apply kkeeps_ret; [done|]. split_and!; [done|done|done|done|]. intros cl l E. by destruct (R6 cl l E). }
    specialize (R4 eq_refl). assert (events x1 = events x) as Ee by apply Hs1. eapply keeps_mono; [apply IH; [done|lia]|]. cbn. intros _ x2 (Q1 & Q2 & Q3 & Q4 & Q5). split_and!; [congruence|congruence|by etrans| |].
    + intros E. destruct (R5 E) as (E1 & E2 & E3). destruct Q4 as (F1 & F2 & F3); [congruence|]. split_and!; congruence.
    + intros cl l E. by destruct (R6 cl l E) as (? & _).
Qed.

Lemma process_pq_spec x :
  kinv 0 0 0 x -> wp process_pq (fun _ x' => kinv 0 0 0 x' /\ kstep x x' /\ pq x' = [] /\ rq x' = rq x ++ pq x /\ cq x' = cq x /\ hpq x' = hpq x /\ core x' = core x /\ start_tick x' = start_tick x) no_err x.
Proof.
  intros Hi. unfold process_pq. apply wp_bind, wp_gets. pose proof (ki_pq _ _ _ _ Hi) as Hp. destruct (Z.eqb_spec (num_pq x) 0) as [E|E].
  { apply wp_ret. assert (pq x = []) as Ep by (apply nil_length_inv; lia). split_and!; [done|done|done|by rewrite Ep, app_nil_r|done..]. }
  eapply wp_within; [apply mild_idle_end|]. intros _ x1 [[A1 T1] C1]. pose proof (agree_kinv _ _ _ _ _ A1 Hi) as Hi1. pose proof (agree_kstep _ _ A1) as Hs1. destruct A1 as [F1 P1 (L1 & L2 & L3 & L4 & L5) (N1 & N2 & N3 & N4 & N5) _ _].
  apply wp_bind, wp_gets, wp_bind, wp_modify, wp_bind, wp_modify, wp_bind, wp_modify, wp_bind, wp_modify, wp_bind, wp_gets, wp_modify. set (x2 := on_max_running _ _).
  pose proof (length_queued x1) as Hlen. destruct Hi1 as [I1 I2 I3 I4 I5 I6 I6' I7 I8 I9].
  assert (queued x2 = queued x1) as Eq by (unfold queued; cbn; by rewrite app_nil_r). assert (order x2 = order x1) as Eo by (change (order x2) with ((fst <$> host (kenvs x1)) ++ queued x2); by rewrite Eq).
  assert (kinv 0 0 0 x2) as Hi2.
  { split; try done; [cbn; rewrite length_app, I2, Hp, <- P1, u32_small by lia; lia|by rewrite Eq|by rewrite Eo|intros i; rewrite Eq; apply I8]. }
  split_and!; [done|etrans; [exact Hs1|]|done|cbn; by rewrite L2, P1|done..]. split; [by split|by rewrite Eo|done|done].
Qed.

(** * Commands of high priority *)

Lemma status_step c st x : kinv 0 0 0 x -> ~ calm x -> let x' := on_kenvs (set_status c st) x in kinv 0 0 0 x' /\ kstep x x'.
Proof.
  intros [I1 I2 I3 I4 I5 I6 I6' I7 I8 I9] Hn x'. assert (kframe x x') as Hf by (split; try done; apply env_step_status). split; [split; try done|by split].
  - intros i Hin. eapply frame_some; [exact Hf|by apply I8].
  - intros i Hin. eapply frame_high; [exact Hf|by apply I9].
Qed.

Lemma find_handle_spec h l x : (forall i, i ∈ l -> is_Some (xcmds (kenvs x) !! i)) -> exists o, find_handle h l x = Ok o x /\ forall c, o = Some c -> c ∈ l.
Proof.
  induction l as [|i l IH]; intros Hl; [by exists None|]. cbn [find_handle]. destruct (Hl i ltac:(set_solver)) as [y Hy]. unfold bind, get_xcmd. rewrite Hy. destruct (exec_bo_handle y =? h); [exists (Some i); split; [done|]; intros c [= <-]; set_solver|].
  destruct IH as (o & Eo & Ho); [set_solver|]. exists o. split; [done|]. intros c Hc. specialize (Ho c Hc). set_solver.
Qed.

Lemma keeps_status c st x : kinv 0 0 0 x -> ~ calm x -> keeps (on_env (set_status c st)) x (fun _ x' => x' = on_kenvs (set_status c st) x).
Proof. intros Hi Hn. apply wp_modify. destruct (status_step c st x Hi Hn) as [Hi' Hs']. split_and!; done. Qed.

Lemma keeps_try_abort c x : kinv 0 0 0 x -> c ∈ hpq x -> keeps (try_abort_cmd c) x (fun _ x' => hpq x' = hpq x).
Proof.
  intros Hi Hc. destruct (ki_high _ _ _ _ Hi c Hc) as (y & Hy & Hinfo). assert (~ calm x) as Hn by (intros [_ E]; rewrite E in Hc; by apply not_elem_of_nil in Hc).
  unfold try_abort_cmd, keeps. apply wp_bind. unfold wp at 1, get_xcmd. rewrite Hy. apply wp_bind. destruct (info y) as [|hd tl]; [done|]. apply wp_ret, wp_bind, wp_gets, wp_bind.
  destruct (find_handle_spec (u32 hd) (rq x) x) as (o & Eo & Ho); [intros i Hin; apply (ki_some _ _ _ _ Hi); unfold queued; set_solver|]. unfold wp at 1. rewrite Eo. destruct o as [r|].
  - change (keeps (on_env (set_status c KDS_COMPLETED) ;;; on_env (set_status r KDS_ABORT) ;;; modify (on_rq (filter (fun i => i <> r))) ;;; move_to_cq r ;;; modify (on_num_rq (fun n => u32 (n - 1)))) x (fun _ x' => hpq x' = hpq x)).
    eapply kkeeps_bind; [by apply keeps_status|]. cbn. intros _ x1 Hi1 _ ->. unfold move_to_cq, keeps. repeat first [apply wp_bind|apply wp_modify].
    set (x1 := on_kenvs (set_status c KDS_COMPLETED) x) in *. destruct (given_up r x1 Hi1 (Ho r eq_refl)) as [Hi2 Hs2]; [intros Hcalm; apply Hn, Hcalm|]. split_and!; done.
  - apply wp_bind, wp_gets. destruct (Z.eqb_spec (num_sq x) 0) as [E|E]; [by apply wp_ret|].
    change (keeps (r <- funcs (abort (abort_handle (u32 hd))) ;; (if r =? 0 then on_env (set_status c KDS_COMPLETED) else modify (on_bad_state (fun _ => true)) ;;; on_env (set_status c KDS_TIMEOUT)) ;;; collect (fun _ => ret tt) (Z.to_nat (num_sq x))) x (fun _ x' => hpq x' = hpq x)).
    eapply kkeeps_bind; [by apply keeps_abort; [apply framed_handle|..]|]. cbn. intros r x1 Hi1 Hs1 ([Q1 Q2 Q3 (_ & _ & Q4 & _)] & _).
    assert (~ calm x1) as Hn1 by (intros [_ E1]; apply Hn; split; [|congruence]; rewrite Q3 in E1; by rewrite E1 in Hc; apply not_elem_of_nil in Hc).
    eapply kkeeps_bind; [instantiate (1 := fun _ x2 => hpq x2 = hpq x1 /\ core x2 = core x1 /\ num_sq x2 = num_sq x1); destruct (r =? 0)|].
    + eapply keeps_mono; [by apply keeps_status|]. by cbn; intros _ x2 ->.
    + eapply (kkeeps_bind _ _ _ (fun _ x2 => hpq x2 = hpq x1 /\ core x2 = core x1 /\ num_sq x2 = num_sq x1 /\ ~ calm x2)); [by apply keeps_agree|]. cbn. intros _ x2 Hi2 _ (E1 & E2 & E3 & E4). eapply keeps_mono; [by apply keeps_status|]. by cbn; intros _ x3 ->.
    + cbn. intros _ x2 Hi2 _ (E1 & E2 & E3). eapply keeps_mono; [apply keeps_collect; [intros i; apply within_ret, _|done|]|]; [pose proof (ki_sq _ _ _ _ Hi2); lia|]. cbn. intros _ x3 (_ & _ & _ & _ & E5 & _). congruence.
Qed.
End steps.
