(* ===== verification/KdsRuns.v ===== *)
(** Runs of a compute unit: rounds of polling, the thread [xrt_cu_intr_thread] of
    [core/common/drv/xrt_cu.c] as steps between the points where it may sleep, and rounds or steps
    of it in any order with the calls of other threads, the timer and interrupts. *)

From S2P Require Import Prelude KdsEnv KdsCu KdsInvariant KdsSteps.

Section rounds.
Context {C : Type} `{XcuLaws C}.
Implicit Types x : xrt_cu C.

Abbreviation K := (M (xrt_cu C) kfault).

(** * Commands of high priority *)

Lemma popped x c l : kinv 0 0 0 x -> hpq x = c :: l -> let x' := on_num_hpq (fun n => u32 (n - 1)) (on_hpq tl x) in kinv 0 0 0 x' /\ kstep x x'.
Proof.
  intros [I1 I2 I3 I4 I5 I6 I6' I7 I8 I9] Hh x'. rewrite Hh in I5, I6'. cbn in I5, I6'. split.
  - split; try done; cbn; rewrite ?Hh; cbn; [rewrite I5, u32_pred by lia; lia|lia|]. intros i Hin. apply I9. rewrite Hh. by right.
  - split; [|done|by intros [_ E]; rewrite Hh in E|by intros [_ E]; rewrite Hh in E]. split; try done. cbn. by rewrite Hh.
Qed.

Lemma keeps_process_high l x : kinv 0 0 0 x -> hpq x = l -> keeps (process_high l) x (fun _ x' => hpq x' = []).
Proof.
  revert x. induction l as [|c l IH]; intros x Hi Hh; cbn [process_high]; [by apply kkeeps_ret|]. destruct (ki_high _ _ _ _ Hi c) as (y & Hy & Hinfo); [rewrite Hh; set_solver|].
  unfold keeps. apply wp_bind. unfold wp at 1, get_xcmd. rewrite Hy. fold (keeps (when (bool_decide (opcode y = OP_ABORT)) (try_abort_cmd c) ;;; modify (on_hpq tl) ;;; modify (on_num_hpq (fun n => u32 (n - 1))) ;;; process_high l) x (fun _ x' => hpq x' = [])).
  eapply (kkeeps_bind _ _ _ (fun _ x1 => hpq x1 = hpq x)); [case_bool_decide; [apply keeps_try_abort; [done|rewrite Hh; set_solver]|by apply kkeeps_ret]|].
  intros _ x1 Hi1 _ H1. destruct (popped x1 c l Hi1) as [Hi2 Hs2]; [congruence|]. unfold keeps. apply wp_bind, wp_modify, wp_bind, wp_modify. eapply wp_mono; [apply IH; [done|cbn; by rewrite H1, Hh]| |done].
  cbn. intros _ x3 (Hi3 & Hs3 & P3 & H3). split_and!; [done|by etrans|done|done].
Qed.

Lemma keeps_process_hpq x : kinv 0 0 0 x -> keeps process_hpq x (fun _ x' => hpq x' = [] /\ (hpq x = [] -> x' = x)).
Proof.
  intros Hi. unfold process_hpq. apply kkeeps_gets. destruct (Z.eqb_spec (num_hpq x) 0) as [E|E].
  - apply kkeeps_ret; [done|]. split; [|done]. apply nil_length_inv. pose proof (ki_hpq _ _ _ _ Hi). lia.
  - apply kkeeps_gets. eapply kkeeps_bind; [by apply keeps_process_high|]. cbn. intros _ x1 Hi1 _ H1. apply keeps_agree; [done|done|]. split; [done|]. intros Hh. destruct E. by rewrite (ki_hpq _ _ _ _ Hi), Hh.
Qed.

(** * A round *)

(** No command of the client is in a queue but that of completed commands. *)
Definition left_behind (cl : nat) x : Prop := forall i y, i ∈ submitted (core x) ++ rq x ++ pq x -> xcmds (kenvs x) !! i = Some y -> client y <> cl.

Record round (x x' : xrt_cu C) : Prop := {
  rd_inv : kinv 0 0 0 x';
  rd_step : kstep x x';
  rd_pq : pq x' = [];
  rd_completed : hpq x = [] -> completed (core x') = [];
  rd_told : forall c, c ∈ cq x -> c ∈ (fst <$> host (kenvs x'));
  rd_overdue : forall cl l, hpq x = [] -> events x = cl :: l -> overdue x -> left_behind cl x';
}.

Lemma prefix_fst (l k : list (nat * kds_status)) c : l `prefix_of` k -> c ∈ (fst <$> l) -> c ∈ (fst <$> k).
Proof. intros [r ->]. rewrite fmap_app. set_solver. Qed.

Lemma process_queues_round x : kinv 0 0 0 x -> wp xrt_cu_process_queues (fun r x' => round x x' /\ (r = XCU_IDLE <-> rq x' = [] /\ cq x' = [] /\ completed (core x') = [] /\ submitted (core x') = [])) no_err x.
Proof.
  intros Hi. unfold xrt_cu_process_queues. apply wp_bind. eapply wp_mono; [by apply process_pq_spec| |done]. cbn. intros _ x1 (I1 & S1 & P1 & R1 & C1 & H1 & K1 & T1). apply wp_bind, wp_gets, wp_bind.
  eapply wp_mono; [apply (keeps_process_rq_all (Z.to_nat (num_rq x1)) x1 I1); rewrite (ki_rq _ _ _ _ I1); lia| |done]. cbn. intros _ x2 (I2 & S2 & P2 & H2 & T2 & C2 & _ & E2). apply wp_bind.
  eapply wp_mono; [by apply keeps_process_cq| |done]. cbn. intros _ x3 (I3 & S3 & P3 & C3 & R3 & K3 & H3 & T3 & D3). apply wp_bind.
  eapply wp_mono; [by apply keeps_process_sq| |done]. cbn. intros _ x4 (I4 & S4 & P4 & [R4 H4 K4 C4 O4]). apply wp_bind.
  eapply wp_mono; [by apply keeps_process_hpq| |done]. cbn. intros _ x5 (I5 & S5 & P5 & H5 & E5). apply wp_bind, wp_gets, wp_ret. unfold id.
  assert (kstep x x5) as S by (etrans; [exact S1|]; etrans; [exact S2|]; etrans; [exact S3|]; by etrans).
  assert (hpq x = [] -> x5 = x4) as E54 by (intros Hh; apply E5; congruence). split; [split; [done|done|congruence| | |]|].
  - intros Hh. by rewrite E54.
  - intros c Hc. rewrite <- C1 in Hc. eapply (prefix_fst (host (kenvs x3))); [etrans; [apply S4|apply S5]|]. rewrite D3. destruct C2 as [k C2]. rewrite C2. set_solver.
  - intros cl l Hh Ee [O1 O2] i y Hin Hy. rewrite E54 in Hin, Hy by done.
    assert (forall xa, kframe xa x4 -> exists ya, xcmds (kenvs xa) !! i = Some ya /\ client ya = client y) as Hback.
    { intros xa Fa. pose proof (kf_cmds _ _ Fa i) as Ec. rewrite Hy in Ec. destruct (xcmds (kenvs xa) !! i) as [ya|]; [|done]. exists ya. split; [done|]. apply same_client. symmetry. exact (inj Some _ _ Ec). }
    assert (kframe x3 x4) as F34 by apply S4. assert (kframe x1 x4) as F14 by (etrans; [apply S2|]; etrans; [apply S3|done]). rewrite P4, P3, P2, P1, app_nil_r in Hin. apply elem_of_app in Hin as [Hin|Hin].
    + destruct (Hback x3 F34) as (ya & Hya & <-). eapply (O4 cl l); [rewrite (kf_events _ _ (ks_frame _ _ S3)), (kf_events _ _ (ks_frame _ _ S2)), (kf_events _ _ (ks_frame _ _ S1)); done| |done|done].
      split; [congruence|]. rewrite (kf_tick _ _ (ks_frame _ _ S3)), (kf_tick _ _ (ks_frame _ _ S2)), (kf_tick _ _ (ks_frame _ _ S1)), T3, T2, T1. done.
    + destruct (Hback x1 F14) as (ya & Hya & <-). rewrite R4, R3 in Hin. destruct (E2 cl l) as [_ E2']; [by rewrite (kf_events _ _ (ks_frame _ _ S1))|]. by eapply E2'.
  - pose proof (ki_rq _ _ _ _ I5). pose proof (ki_cq _ _ _ _ I5). pose proof (ki_sq _ _ _ _ I5). rewrite <- !length_zero_iff_nil.
    destruct (Z.eqb_spec (num_rq x5) 0), (Z.eqb_spec (num_sq x5) 0), (Z.eqb_spec (num_cq x5) 0); cbn; split; try done; try (intros (? & ? & ? & ?); lia). intros _. lia.
Qed.
End rounds.

(** * Calls of other threads *)

(** * Calls of other threads *)

Inductive kcall :=
| NewCommand (y : kds_command) | SubmitCommand (c : nat) | HighCommand (c : nat) | AbortClient (cl : nat) | AbortDone (cl : nat) | Timer | Interrupt.

Definition sends (a : kcall) : list nat := match a with SubmitCommand c => [c] | _ => [] end.
Definition aborting (a : kcall) : bool := match a with HighCommand _ | AbortClient _ => true | _ => false end.

Section runs.
Context {C : Type} `{XcuLaws C}.
Implicit Types x : xrt_cu C.

Abbreviation K := (M (xrt_cu C) kfault).

Definition run_kcall (a : kcall) : K unit :=
  match a with
  | NewCommand y => on_env (on_xcmds (fun l => l ++ [y]))
  | SubmitCommand c => xrt_cu_submit c
  | HighCommand c => xrt_cu_hpq_submit false c
  | AbortClient cl => xrt_cu_abort cl
  | AbortDone cl => _ <- xrt_cu_abort_done cl ;; ret tt
  | Timer => cu_timer
  | Interrupt => cu_isr
  end.

(** A command is submitted once, and there are fewer than 2^31 of them at a time. *)
Definition call_ok (a : kcall) x : Prop :=
  match a with
  | SubmitCommand c => c ∉ order x /\ is_Some (xcmds (kenvs x) !! c) /\ Z.of_nat (length (queued x)) + 1 < 2 ^ 31
  | HighCommand c => (exists y, xcmds (kenvs x) !! c = Some y /\ info y <> []) /\ Z.of_nat (length (hpq x)) + 1 < 2 ^ 31
  | _ => True
  end.

Record called (a : kcall) (x x' : xrt_cu C) : Prop := {
  cl_inv : kinv 0 0 0 x';
  cl_order : order x' = order x ++ sends a;
  cl_calm : aborting a = false -> calm x -> good x -> calm x' /\ good x';
  cl_core : submitted (core x') = submitted (core x) /\ completed (core x') = completed (core x) /\ rq x' = rq x /\ cq x' = cq x;
  cl_sem : (sem x <= sem x')%nat;
  cl_pq : pq x' = pq x \/ pq x <> [] \/ (0 < sem x')%nat;
  cl_hpq : hpq x' = hpq x \/ (0 < sem x')%nat;
  cl_stop : stop x' = stop x;
  cl_host : host (kenvs x') = host (kenvs x);
}.

(** The state has changed in the clients to abort, the time and the semaphores only. *)
Lemma called_other a x x' :
  kinv 0 0 0 x -> sends a = [] -> (aborting a = false -> events x = [] -> events x' = []) -> sem x' = sem x -> stop x' = stop x ->
  (cq x' = cq x /\ rq x' = rq x /\ hpq x' = hpq x /\ pq x' = pq x /\ submitted (core x') = submitted (core x) /\ completed (core x') = completed (core x)) ->
  (num_pq x' = num_pq x /\ num_rq x' = num_rq x /\ num_sq x' = num_sq x /\ num_cq x' = num_cq x /\ num_hpq x' = num_hpq x) ->
  host (kenvs x') = host (kenvs x) -> (forall i y, xcmds (kenvs x) !! i = Some y -> xcmds (kenvs x') !! i = Some y) -> called a x x'.
Proof.
  intros [I1 I2 I3 I4 I5 I6 I6' I7 I8 I9] Hs He Hsem Hstop (L1 & L2 & L3 & L4 & L5 & L6) (N1 & N2 & N3 & N4 & N5) Hh Hc.
  assert (queued x' = queued x) as Eq by (unfold queued; by rewrite L1, L2, L4, L5, L6). assert (order x' = order x) as Eo by (change (order x') with ((fst <$> host (kenvs x')) ++ queued x'); by rewrite Hh, Eq).
  split; [|by rewrite Eo, Hs, app_nil_r| |done|lia|by left|by left|done|done].
  - split; rewrite ?L1, ?L2, ?L3, ?L4, ?L5, ?L6, ?N1, ?N2, ?N3, ?N4, ?N5, ?Eq, ?Eo; try done.
    + intros c Hin. destruct (I8 c Hin) as [y Hy]. exists y. by apply Hc.
    + intros c Hin. destruct (I9 c Hin) as (y & Hy & Hi). exists y. split; [by apply Hc|done].
  - intros Ha [C1 C2] [G1 G2]. split; [split; [by apply He|congruence]|]. split; [|by rewrite Hh]. intros c. rewrite L1, L6. intros Hin. specialize (G1 c Hin). unfold stat in *. destruct (xcmds (kenvs x) !! c) as [y|] eqn:Ey; [|done]. by rewrite (Hc c y Ey).
Qed.

Lemma neutral_clear : within agrees (funcs (A := Z) (fun c e => clear_intr c e) : K Z).
Proof. apply neutral_funcs. intros c e. pose proof (law_clear c e) as Hl. destruct (clear_intr c e) as [[v c'] e']. by destruct Hl as (? & ? & _ & ?). Qed.

Lemma call_keeps a x : kinv 0 0 0 x -> call_ok a x -> wp (run_kcall a) (fun _ => called a x) no_err x.
Proof.
  intros Hi Hok. destruct a as [y|c|c|cl|cl| |]; cbn [run_kcall].
  - apply wp_modify. apply called_other; try done. cbn. intros i z Hz. by apply lookup_app_l_Some.
  - destruct Hok as (Hf & Hsome & Hb). unfold xrt_cu_submit. apply wp_bind, wp_modify, wp_bind, wp_modify, wp_bind, wp_gets. destruct Hi as [I1 I2 I3 I4 I5 I6 I6' I7 I8 I9]. pose proof (length_queued x) as Hlen.
    assert (forall f, let x' := on_sem f (on_num_pq (fun n => u32 (n + 1)) (on_pq (fun l => l ++ [c]) x)) in (sem x <= f (sem x))%nat -> pq x <> [] \/ (0 < f (sem x))%nat -> called (SubmitCommand c) x x') as Hc.
    { intros f x' Hs Hp. assert (queued x' = queued x ++ [c]) as Eq by (unfold queued; cbn; by rewrite !app_assoc). assert (order x' = order x ++ [c]) as Eo by (change (order x') with ((fst <$> host (kenvs x)) ++ queued x'); by rewrite Eq, app_assoc).
      split; [|done| |done|done|by right|by left|done|done].
      - split; try done.
        + cbn. rewrite I1, length_app, u32_small by lia. cbn. lia.
        + rewrite Eq, length_app. cbn. lia.
        + rewrite Eo. apply NoDup_app. split_and!; [done|set_solver|apply NoDup_singleton].
        + intros i. rewrite Eq. intros [Hin|Hin]%elem_of_app; [by apply I8|]. apply list_elem_of_singleton in Hin as ->. done.
      - intros _ Hcalm Hg. by split. }
    cbn. rewrite I1. destruct (decide (pq x = [])) as [Ep|Ep].
    + rewrite Ep. cbn [length]. replace (u32 (Z.of_nat 0 + 1) =? 1) with true by done. apply wp_modify. apply (Hc S); [lia|right; lia].
    + apply wp_when; intros _; [apply wp_modify; apply (Hc S); [lia|right; lia]|apply (Hc (fun n => n)); [lia|by left]].
  - destruct Hok as [Hsome Hb]. unfold xrt_cu_hpq_submit. apply wp_bind, wp_modify, wp_bind, wp_modify, wp_modify. destruct Hi as [I1 I2 I3 I4 I5 I6 I6' I7 I8 I9].
    split; [|by cbn; rewrite app_nil_r|done|done|cbn; lia|by left|right; cbn; lia|done|done]. split; try done; cbn.
    + rewrite I5, length_app, u32_small by lia. cbn. lia.
    + rewrite length_app. cbn. lia.
    + intros i [Hin|Hin]%elem_of_app; [by apply I9|]. by apply list_elem_of_singleton in Hin as ->.
  - apply wp_modify. by apply called_other.
  - apply wp_bind. unfold xrt_cu_abort_done. apply wp_bind, wp_modify, wp_gets, wp_ret. apply called_other; try done. cbn. by intros _ ->.
  - apply wp_modify. by apply called_other.
  - unfold cu_isr. eapply wp_within; [apply mild_log|]. intros _ x1 [[A1 _] _]. eapply wp_within; [apply neutral_clear|]. intros v x2 [A2 _]. apply wp_modify. assert (agree x x2) as A by by etrans. clear A1 A2.
    pose proof (agree_kinv _ _ _ _ _ A Hi) as Hi2. pose proof (agree_kstep _ _ A) as Hs2. destruct (agree_order _ _ A) as [Eo _]. pose proof A as [F P (L1 & L2 & L3 & L4 & L5) _ Hh _]. split; [|cbn; rewrite app_nil_r; exact Eo| |done|cbn; by rewrite (kf_sem _ _ F)|by left|by left|apply F|done].
    + by destruct Hi2.
    + intros _ Hc Hg. split; [exact (kframe_calm _ _ F Hc)|exact (ks_good _ _ Hs2 Hc Hg)].
Qed.
End runs.

(** * The thread of a compute unit *)

(** Where the thread is: at the top of its loop, in [down_timeout(&xcu->sem_cu)], before
    [process_hpq], in [down_interruptible(&xcu->sem)], before [process_pq], or at its end. *)
Inductive place_of_thread := AtTop | AtCu | AtHigh | AtSem | AtPending | Ended.
#[export] Instance place_eq_dec : EqDecision place_of_thread.
Proof. solve_decision. Defined.

Section thread.
Context {C : Type} `{XcuFuncs C}.
Implicit Types x : xrt_cu C.

Abbreviation K := (M (xrt_cu C) kfault).

Definition at_top : K place_of_thread :=
  s <- gets stop ;;
  if s : bool then funcs_ (disable_intr (Z.lor CU_INTR_DONE CU_INTR_READY)) ;;; ret Ended else
  r <- process_rq ;;
  if r : bool then ret AtTop else
  process_cq ;;;
  n <- gets num_sq ;;
  z <- is_zero_credit ;;
  if (n =? 0) && negb z then ret AtHigh else
  i <- gets interrupt_used ;;
  if negb i then
    process_sq ;;;
    modify (on_poll_count (fun n => u32 (n + 1))) ;;;
    b <- gets (fun x => poll_threshold x <=? poll_count x) ;;
    when b xrt_cu_switch_to_interrupt ;;;
    ret AtHigh
  else
    xrt_cu_check ;;;
    b <- gets (fun x => (done_cnt x =? 0) || (ready_cnt x =? 0)) ;;
    if b : bool then modify (on_sleep_cnt (fun n => u32 (n + 1))) ;;; ret AtCu
    else process_submitted ;;; ret AtHigh.

(** [down_timeout] has ended, with the semaphore or by the timeout. *)
Definition at_cu : K place_of_thread := modify (on_sem_cu pred) ;;; xrt_cu_check ;;; process_submitted ;;; ret AtHigh.

Definition at_high : K place_of_thread :=
  process_hpq ;;;
  x <- gets id ;;
  if negb (num_rq x =? 0) then ret AtTop else
  if (num_sq x =? 0) && (num_cq x =? 0) then when (num_pq x =? 0) xrt_cu_check_force ;;; ret AtSem
  else ret AtPending.

Definition at_sem : K place_of_thread := modify (on_sem pred) ;;; ret AtPending.
Definition at_pending : K place_of_thread := process_pq ;;; ret AtTop.

Definition thread_step (p : place_of_thread) : K place_of_thread :=
  match p with AtTop => at_top | AtCu => at_cu | AtHigh => at_high | AtSem => at_sem | AtPending => at_pending | Ended => ret Ended end.

(** The thread goes on, unless it waits for the semaphore. *)
Definition enabled (p : place_of_thread) x : Prop := p = AtSem -> (0 < sem x)%nat.

End thread.

(** * Runs *)

Section runs.
Context {C : Type} `{XcuLaws C}.
Implicit Types x : xrt_cu C.

Abbreviation K := (M (xrt_cu C) kfault).

(** A compute unit that has been initialised, with empty queues; it is polled, or its thread has been
    started at the same time.  A thread that is started later, when the compute unit has been polled
    ([xrt_cu_cfg_update]), is not part of the runs: it may find pending commands that do not wake it up. *)
Inductive fresh : option place_of_thread -> xrt_cu C -> Prop :=
| fr_polled c e : submitted c = [] -> completed c = [] -> host e = [] -> fresh None (xrt_cu_init c e false)
| fr_thread c e : submitted c = [] -> completed c = [] -> host e = [] -> fresh (Some AtTop) (xrt_cu_init c e true).

Section from.
Context (p0 : option place_of_thread) (x0 : xrt_cu C).

(** The runs from a state, with the calls that have been made. *)
Inductive kruns : list kcall -> option place_of_thread -> xrt_cu C -> Prop :=
| kr_start : kruns [] p0 x0
| kr_call t p x a x' : kruns t p x -> call_ok a x -> run_kcall a x = Ok tt x' -> kruns (t ++ [a]) p x'
| kr_poll t x r x' : kruns t None x -> xrt_cu_process_queues x = Ok r x' -> kruns t None x'
| kr_thread t p x p' x' : kruns t (Some p) x -> enabled p x -> thread_step p x = Ok p' x' -> kruns t (Some p') x'.
End from.

Definition sent (t : list kcall) : list nat := t ≫= sends.

(** * Steps of the thread *)

(** What a step of the thread does: it only takes pending commands at their place. *)
Record walks (p p' : place_of_thread) (x x' : xrt_cu C) : Prop := {
  wk_inv : kinv 0 0 0 x';
  wk_order : order x' ≡ₚ order x;
  wk_calm : calm x -> good x -> calm x' /\ good x' /\ order x' = order x;
  wk_sem : p <> AtSem -> sem x' = sem x;
  wk_pq : pq x' = pq x \/ pq x' = [];
  wk_hpq : p' = AtSem -> hpq x' = [];
  wk_pending : p = AtPending -> pq x' = [];
  wk_next : p = AtSem -> p' = AtPending;
  wk_idle : p' = AtSem -> rq x' = [] /\ cq x' = [] /\ submitted (core x') = [] /\ completed (core x') = [];
}.

Definition rests x : Prop := hpq x = [] /\ rq x = [] /\ cq x = [] /\ submitted (core x) = [] /\ completed (core x) = [].

Lemma keeps_walks (m : K place_of_thread) p x : p <> AtSem -> p <> AtPending -> keeps m x (fun p' x' => p' = AtSem -> rests x') -> wp m (fun p' => walks p p' x) no_err x.
Proof.
  intros Hp Hp' Hm. eapply wp_mono; [exact Hm| |done]. cbn. intros p' x' (Hi & Hs & Hq & Hf).
  split; [done|apply Hs| |intros _; apply Hs|by left|intros E; by apply Hf|done|done|intros E; by apply Hf]. intros Hc Hg. split_and!; [exact (kframe_calm _ _ (ks_frame _ _ Hs) Hc)|exact (ks_good _ _ Hs Hc Hg)|by apply Hs].
Qed.

Lemma keeps_seq {A B} (m : K A) (k : A -> K B) x Q Q' : keeps m x Q -> (forall a x', kinv 0 0 0 x' -> keeps (k a) x' Q') -> keeps (bind m k) x Q'.
Proof. intros Hm Hk. eapply kkeeps_bind; [exact Hm|]. intros a x' Hi _ _. by apply Hk. Qed.

Lemma keeps_top x : kinv 0 0 0 x -> keeps at_top x (fun p' x' => p' = AtSem -> rests x').
Proof.
  intros Hi. unfold at_top. apply kkeeps_gets. destruct (stop x).
  { eapply keeps_seq; [apply (keeps_neutral (funcs_ _)); [|done]; apply neutral_funcs; intros c e; pose proof (law_disable (Z.lor CU_INTR_DONE CU_INTR_READY) c e) as Hl; destruct (disable_intr _ c e); by destruct Hl as (? & ? & _ & ?)|]. intros _ x1 Hi1. by apply kkeeps_ret. }
  eapply keeps_seq; [by apply keeps_process_rq|]. intros [|] x1 Hi1; [by apply kkeeps_ret|]. eapply keeps_seq; [by apply keeps_process_cq|]. intros _ x2 Hi2. unfold is_zero_credit. do 2 apply kkeeps_gets. destruct ((num_sq x2 =? 0) && _); [by apply kkeeps_ret|].
  apply kkeeps_gets. destruct (negb (interrupt_used x2)).
  - eapply keeps_seq; [by apply keeps_process_sq|]. intros _ x3 Hi3. eapply keeps_seq; [by apply (keeps_agree _ _ (fun _ _ => True))|]. intros _ x4 Hi4. apply kkeeps_gets.
    eapply keeps_seq; [apply (keeps_neutral (when _ _)); [apply within_when; [apply _|apply neutral_enable]|done]|]. intros _ x5 Hi5. by apply kkeeps_ret.
  - eapply keeps_seq; [by apply keeps_check|]. intros _ x3 Hi3. apply kkeeps_gets. destruct (_ || _).
    + eapply keeps_seq; [by apply (keeps_agree _ _ (fun _ _ => True))|]. intros _ x4 Hi4. by apply kkeeps_ret.
    + eapply keeps_seq; [by apply keeps_process_submitted|]. intros _ x4 Hi4. by apply kkeeps_ret.
Qed.

Lemma keeps_cu x : kinv 0 0 0 x -> keeps at_cu x (fun p' x' => p' = AtSem -> rests x').
Proof.
  intros Hi. unfold at_cu. eapply keeps_seq; [by apply (keeps_agree _ _ (fun _ _ => True))|]. intros _ x1 Hi1. eapply keeps_seq; [by apply keeps_check|]. intros _ x2 Hi2.
  eapply keeps_seq; [by apply keeps_process_submitted|]. intros _ x3 Hi3. by apply kkeeps_ret.
Qed.

Lemma keeps_high x : kinv 0 0 0 x -> keeps at_high x (fun p' x' => p' = AtSem -> rests x').
Proof.
  intros Hi. unfold at_high. eapply kkeeps_bind; [by apply keeps_process_hpq|]. intros _ x1 Hi1 _ [Hh _]. apply kkeeps_gets. unfold id. destruct (Z.eqb_spec (num_rq x1) 0) as [Er|Er]; cbn [negb]; [|by apply kkeeps_ret].
  pose proof (ki_rq _ _ _ _ Hi1). pose proof (ki_sq _ _ _ _ Hi1). pose proof (ki_cq _ _ _ _ Hi1). destruct (Z.eqb_spec (num_sq x1) 0) as [Es|Es]; cbn [andb]; [|by apply kkeeps_ret]. destruct (Z.eqb_spec (num_cq x1) 0) as [Ec|Ec]; [|by apply kkeeps_ret].
  assert (rests x1) as Hr by (split_and!; [done|apply nil_length_inv; lia..]).
  eapply (kkeeps_bind _ _ _ (fun _ x2 => rests x2)); [|intros _ x2 Hi2 _ Hr2; by apply kkeeps_ret]. destruct (num_pq x1 =? 0); cbn [when]; [|by apply kkeeps_ret].
  unfold keeps. eapply wp_mono; [by apply keeps_check| |done]. cbn. intros _ x2 (Hi2 & Hs2 & P2 & [Q1 Q2 Q3 (Q4 & Q5 & Q6 & _)] & _). split_and!; [done|done|done|]. pose proof (ki_sq _ _ _ _ Hi2).
  split_and!; [by rewrite Q3|rewrite Q1; apply Hr|rewrite Q2; apply Hr|apply nil_length_inv; lia|apply nil_length_inv; lia].
Qed.

Lemma step_walks p x : kinv 0 0 0 x -> wp (thread_step p) (fun p' => walks p p' x) no_err x.
Proof.
  intros Hi. destruct p; cbn [thread_step].
  - apply keeps_walks; [done|done|by apply keeps_top].
  - apply keeps_walks; [done|done|by apply keeps_cu].
  - apply keeps_walks; [done|done|by apply keeps_high].
  - unfold at_sem. apply wp_bind, wp_modify, wp_ret. assert (kinv 0 0 0 (on_sem pred x)) by by destruct Hi. split; try done; by left.
  - unfold at_pending. apply wp_bind. eapply wp_mono; [by apply process_pq_spec| |done]. cbn. intros _ x' (Hi' & Hs & Hq & _). apply wp_ret.
    split; try done; [apply Hs| |intros _; apply Hs|by right]. intros Hc Hg. split_and!; [exact (kframe_calm _ _ (ks_frame _ _ Hs) Hc)|exact (ks_good _ _ Hs Hc Hg)|by apply Hs].
  - apply wp_ret. split; try done; by left.
Qed.

(** * What runs keep *)

Record run_inv (t : list kcall) (p : option place_of_thread) (x : xrt_cu C) : Prop := {
  ri_inv : kinv 0 0 0 x;
  ri_order : order x ≡ₚ sent t;
  ri_calm : forallb (fun a => negb (aborting a)) t = true -> calm x /\ good x /\ order x = sent t;
  ri_pending : forall q, p = Some q -> pq x <> [] -> (0 < sem x)%nat \/ q = AtPending;
  ri_high : p = Some AtSem -> hpq x <> [] -> (0 < sem x)%nat;
  ri_idle : p = Some AtSem -> rq x = [] /\ cq x = [] /\ submitted (core x) = [] /\ completed (core x) = [];
}.

Lemma init_run c e b p : submitted c = [] -> completed c = [] -> host e = [] -> p <> Some AtSem -> run_inv [] p (xrt_cu_init c e b).
Proof.
  intros Hs Hc Hh Hp. assert (order (xrt_cu_init c e b) = []) as Eo by (unfold order; cbn; by rewrite Hs, Hc, Hh). assert (queued (xrt_cu_init c e b) = []) as Eq by (unfold queued; cbn; by rewrite Hs, Hc).
  split; [|by rewrite Eo| |done|done|done].
  - split; try done; [cbn; by rewrite Hs, Hc|by rewrite Eq|by rewrite Eo; apply NoDup_nil_2|intros i; by rewrite Eq; intros ?%not_elem_of_nil|by intros i ?%not_elem_of_nil].
  - intros _. split_and!; [done| |done]. split; cbn; [rewrite Hc; by intros i ?%not_elem_of_nil|by rewrite Hh].
Qed.

Lemma fresh_run p x : fresh p x -> run_inv [] p x.
Proof. intros [c e Hs Hc Hh|c e Hs Hc Hh]; by apply init_run. Qed.

Lemma runs_inv p0 x0 t p x : fresh p0 x0 -> kruns p0 x0 t p x -> run_inv t p x.
Proof.
  intros Hf. induction 1 as [|t p x a x' Hr [I1 I2 I3 I4 I5 I6] Hok E|t x r x' Hr [I1 I2 I3 I4 I5 I6] E|t p x p' x' Hr [I1 I2 I3 I4 I5 I6] He E].
  - by apply fresh_run.
  - pose proof (call_keeps a x I1 Hok) as Hk. unfold wp in Hk. rewrite E in Hk. destruct Hk as [K1 K2 K3 (K4 & K5 & K6 & K7) K8 K9 K10 K11]. split.
    + done.
    + rewrite K2, I2. unfold sent. by rewrite bind_app, bind_singleton.
    + rewrite forallb_app. intros [Ht Ha]%andb_prop. destruct (I3 Ht) as (C1 & C2 & C3). cbn in Ha. rewrite andb_true_r in Ha. apply negb_true_iff in Ha. destruct (K3 Ha C1 C2). split_and!; [done|done|]. rewrite K2, C3. unfold sent. by rewrite bind_app, bind_singleton.
    + intros q Hq Hne. destruct K9 as [K9|[K9|K9]]; [rewrite K9 in Hne; destruct (I4 q Hq Hne) as [?|?]; [left; lia|by right]|destruct (I4 q Hq K9) as [?|?]; [left; lia|by right]|by left].
    + intros Hp Hne. destruct K10 as [K10|K10]; [|done]. rewrite K10 in Hne. specialize (I5 Hp Hne). lia.
    + intros Hp. rewrite K4, K5, K6, K7. by apply I6.
  - pose proof (process_queues_round x I1) as Hk. unfold wp in Hk. rewrite E in Hk. destruct Hk as [[K1 K2 K3 K4 K5 K6] _]. split; [done|by rewrite (ks_order _ _ K2)| |done|done|done].
    intros Ht. destruct (I3 Ht) as (C1 & C2 & C3). split_and!; [exact (kframe_calm _ _ (ks_frame _ _ K2) C1)|exact (ks_good _ _ K2 C1 C2)|by rewrite (ks_calm _ _ K2 C1)].
  - pose proof (step_walks p x I1) as Hk. unfold wp in Hk. rewrite E in Hk. destruct Hk as [K1 K2 K3 K4 K5 K6 K7 K8 K9]. split; [done|by rewrite K2| | | |].
    + intros Ht. destruct (I3 Ht) as (C1 & C2 & C3). destruct (K3 C1 C2) as (D1 & D2 & D3). split_and!; [done|done|congruence].
    + intros q [= <-] Hne. destruct (decide (p = AtSem)) as [->|Hp]; [right; by apply K8|]. destruct K5 as [K5|K5]; [|done]. rewrite K5 in Hne. destruct (I4 p eq_refl Hne) as [?|Hp']; [left; rewrite K4 by done; lia|]. destruct Hne. rewrite <- K5. by apply K7.
    + intros [= ->] Hne. by destruct Hne; apply K6.
    + intros [= ->]. by apply K9.
Qed.
End runs.
