(* ===== verification/KdsProtocol.v ===== *)
(** The protocol [ap_ctrl_hs] of an HLS compute unit: whatever the threads and the device do, the
    driver configures and starts the compute unit only when it does not run. *)

From S2P Require Import Prelude KdsEnv KdsHls KdsCu KdsInvariant KdsSteps KdsRuns.

(** * The compute unit as the driver sees it *)

(** The compute unit runs from its start until it is seen to be done, or reset. *)
Definition busy_step (b : bool) (a : access) : bool :=
  match a with
  | Wr reg v => if reg =? CTRL then if v =? CU_AP_START then true else if v =? CU_AP_SW_RESET then false else b else b
  | Rd reg v => if (reg =? CTRL) && bit v CU_AP_DONE then false else b
  | Slot _ _ => b
  end.
Definition busy (l : list access) : bool := fold_left busy_step l false.
Arguments busy : simpl never.

Definition configures (a : access) : bool :=
  match a with Wr reg v => (ARGS <=? reg) || ((reg =? CTRL) && (v =? CU_AP_START)) | _ => false end.

Definition legal (l : list access) : Prop := forall l1 a l2, l = l1 ++ a :: l2 -> configures a = true -> busy l1 = false.

Lemma busy_snoc l a : busy (l ++ [a]) = busy_step (busy l) a.
Proof. unfold busy. by rewrite fold_left_app. Qed.

Lemma legal_snoc l a : legal l -> (configures a = true -> busy l = false) -> legal (l ++ [a]).
Proof.
  intros Hl Ha l1 b l2 E Hb. destruct l2 as [|b2 l2' _] using rev_ind.
  - apply app_inj_tail in E as [-> ->]. by apply Ha.
  - rewrite app_comm_cons, app_assoc in E. apply app_inj_tail in E as [-> ->]. by eapply Hl.
Qed.

(** * Payloads *)

Section protocol.
Context (past : nat -> Z) (device : list access -> Z -> Z).

(** The device is done only when it has been running, as the documentation of the control
    register says: [ap_done] is cleared when it is read. *)
Definition honest : Prop := forall l, busy l = false -> bit (u32 (device l CTRL)) CU_AP_DONE = false.

(** What a command writes to the compute unit. *)
Definition config_writes (y : kds_command) : list (Z * Z) :=
  match payload_type y with
  | REGMAP => consecutive past (info y) 0 (isize y / 4)
  | KEY_VAL => pairs past (info y) 0 (isize y / 4)
  | XGQ_CMD =>
      if hdr_opcode past (info y) =? XGQ_CMD_OP_START_CUIDX then consecutive past (info y) 2 (u32 (u64 (hdr_count past (info y)) / 4)) else
      if hdr_opcode past (info y) =? XGQ_CMD_OP_START_CUIDX_KV then pairs past (info y) 2 (u32 (u64 (hdr_count past (info y) - 4) / 4)) else []
  end.

(** Its registers are arguments, not the control registers. *)
Definition tame (y : kds_command) : Prop := Forall (fun p => ARGS <= u32 (fst p)) (config_writes y).

Lemma configure_writes y e : snd (cu_hls_configure false past y e) = cu_writes (config_writes y) e.
Proof. unfold cu_hls_configure, config_writes, cu_hls_xgq_start, cu_hls_xgq_start_kv. destruct (payload_type y); [done|done|]. by repeat case_match. Qed.

Lemma writes_legal l e : Forall (fun p => ARGS <= u32 (fst p)) l -> legal (bus e) -> busy (bus e) = false -> legal (bus (cu_writes l e)) /\ busy (bus (cu_writes l e)) = false.
Proof.
  revert e. induction l as [|[reg v] l IH]; intros e Hl Hg Hb; [done|]. apply Forall_cons in Hl as [Hr Hl]. cbn. apply (IH (cu_write32 reg v e)); [done|by apply legal_snoc|]. change (busy (bus e ++ [Wr (u32 reg) (u32 v)]) = false). rewrite busy_snoc. cbn [busy_step].
  destruct (Z.eqb_spec (u32 reg) CTRL) as [E|_]; [|done]. unfold ARGS, CTRL in *. cbn in Hr. lia.
Qed.

Abbreviation hls := xrt_cu_hls.
#[local] Existing Instance hls_funcs.
#[local] Instance funcs_here : XcuFuncs hls := hls_funcs false past device.
#[local] Instance laws_here : XcuLaws hls := hls_laws false past device.
Implicit Types x : xrt_cu hls.

(** One credit: it is with the driver, on its way back, or the compute unit runs. *)
Record one_credit x : Prop := {
  oc_chain : ctrl_chain (core x) = false;
  oc_max : max_credits (core x) = 1;
  oc_legal : legal (bus (kenvs x));
  oc_credit : if busy (bus (kenvs x)) then credits (core x) = 0 /\ ready_cnt x = 0 else 0 <= credits (core x) /\ 0 <= ready_cnt x /\ credits (core x) + ready_cnt x = 1;
  oc_tame : forall c y, xcmds (kenvs x) !! c = Some y -> tame y;
}.

(** * What does not touch the credit *)

Abbreviation K := (M (xrt_cu hls) kfault).

Record still x x' : Prop := {
  sl_core : credits (core x') = credits (core x) /\ max_credits (core x') = max_credits (core x) /\ ctrl_chain (core x') = ctrl_chain (core x);
  sl_ready : ready_cnt x' = ready_cnt x;
  sl_busy : busy (bus (kenvs x')) = busy (bus (kenvs x));
  sl_legal : legal (bus (kenvs x)) -> legal (bus (kenvs x'));
  sl_cmds : forall c, command_frame <$> xcmds (kenvs x') !! c = command_frame <$> xcmds (kenvs x) !! c;
}.

#[export] Instance still_preorder : PreOrder still.
Proof.
  split; [by intros x; split|]. intros x1 x2 x3 [(A1 & A2 & A3) A4 A5 A6 A7] [(B1 & B2 & B3) B4 B5 B6 B7]. split; [split_and!; congruence|congruence|congruence|auto|]. intros c. by rewrite B7, A7.
Qed.

Lemma tame_frame y y' : command_frame y' = command_frame y -> tame y -> tame y'.
Proof.
  intros E. assert (payload_type y' = payload_type y /\ info y' = info y /\ isize y' = isize y) as (E1 & E2 & E3).
  { split_and!; [exact (f_equal payload_type E)|exact (f_equal info E)|exact (f_equal isize E)]. }
  unfold tame, config_writes. by rewrite E1, E2, E3.
Qed.

Lemma tame_cmds e e' : (forall c, command_frame <$> xcmds e' !! c = command_frame <$> xcmds e !! c) -> (forall c y, xcmds e !! c = Some y -> tame y) -> forall c y, xcmds e' !! c = Some y -> tame y.
Proof.
  intros Hf Ht c y Hy. specialize (Hf c). rewrite Hy in Hf. destruct (xcmds e !! c) as [z|] eqn:Ez; [|done]. eapply tame_frame; [exact (inj Some _ _ Hf)|by eapply Ht].
Qed.

Lemma still_credit x x' : still x x' -> one_credit x -> one_credit x'.
Proof.
  intros [(S1 & S2 & S3) S4 S5 S6 S7] [O1 O2 O3 O4 O5]. split; [congruence|congruence|auto| |by eapply tame_cmds]. by rewrite S5, S1, S4.
Qed.

Definition stills {A} (m : K A) : Prop := forall x, wp m (fun _ x' => still x x') (fun _ _ => True) x.

Lemma stills_ret {A} (a : A) : stills (ret a).
Proof. intros x. apply wp_ret. done. Qed.
Lemma stills_raise {A} e : stills (raise e : K A).
Proof. intros x. by apply wp_raise. Qed.
Lemma stills_bind {A B} (m : K A) (k : A -> K B) : stills m -> (forall a, stills (k a)) -> stills (bind m k).
Proof. intros Hm Hk x. apply wp_bind. eapply wp_mono; [apply Hm| |done]. cbn. intros a x1 H1. eapply wp_mono; [apply Hk| |done]. cbn. intros b x2 H2. by etrans. Qed.
Lemma stills_gets {A} (f : xrt_cu hls -> A) : stills (gets f).
Proof. intros x. apply wp_gets. done. Qed.
Lemma stills_modify f : (forall x, still x (f x)) -> stills (modify f).
Proof. intros Hf x. apply wp_modify, Hf. Qed.
Lemma stills_when b m : stills m -> stills (when b m).
Proof. intros Hm. destruct b; [apply Hm|apply stills_ret]. Qed.
Lemma stills_get c : stills (get_xcmd c).
Proof. intros x. unfold wp, get_xcmd. by destruct (xcmds (kenvs x) !! c). Qed.

Lemma still_env f x : (forall e, busy (bus (f e)) = busy (bus e) /\ (legal (bus e) -> legal (bus (f e))) /\ forall c, command_frame <$> xcmds (f e) !! c = command_frame <$> xcmds e !! c) -> still x (on_kenvs f x).
Proof. intros Hf. destruct (Hf (kenvs x)) as (A1 & A2 & A3). by split. Qed.

Lemma stills_stamp c s : stills (on_env (set_xcmd_timestamp c s)).
Proof.
  apply stills_modify. intros x. apply still_env. intros e. assert (bus (set_xcmd_timestamp c s e) = bus e) as -> by (unfold set_xcmd_timestamp; by repeat case_match). split_and!; [done|done|]. intros i. by apply stamp_env.
Qed.

Lemma stills_status c s : stills (on_env (set_status c s)).
Proof. apply stills_modify. intros x. apply still_env. intros e. split_and!; [done|done|]. apply env_step_status. Qed.

(** The registers of interrupts. *)
Lemma still_registers e l :
  (forall a, a ∈ l -> (exists r v, a = Wr r v /\ r < ARGS /\ r <> CTRL) \/ exists r v, a = Rd r v /\ r <> CTRL) -> busy (bus e ++ l) = busy (bus e) /\ (legal (bus e) -> legal (bus e ++ l)).
Proof.
  revert e. induction l as [|a l IH] using rev_ind; intros e Hl; [by rewrite app_nil_r|]. destruct (IH e) as [Hb Hg]; [set_solver|]. rewrite app_assoc, busy_snoc, Hb.
  destruct (Hl a ltac:(set_solver)) as [(r & v & -> & Hr & Hc)|(r & v & -> & Hc)]; cbn [busy_step]; apply Z.eqb_neq in Hc; rewrite Hc; (split; [done|]); intros H1; apply legal_snoc; [by apply Hg| |by apply Hg|done].
  cbn. rewrite Hc. destruct (Z.leb_spec ARGS r); [lia|done].
Qed.

Lemma still_funcs {A} (f : hls -> kenv -> A * hls * kenv) :
  (forall c e, let '(_, c', e') := f c e in ctrl_chain c = false -> (credits c' = credits c /\ max_credits c' = max_credits c /\ ctrl_chain c' = ctrl_chain c) /\ xcmds e' = xcmds e /\ busy (bus e') = busy (bus e) /\ (legal (bus e) -> legal (bus e'))) ->
  forall x, ctrl_chain (core x) = false -> wp (funcs f) (fun _ x' => still x x') (fun _ _ => True) x.
Proof.
  intros Hf x Hc. unfold wp, funcs. specialize (Hf (core x) (kenvs x)). destruct (f (core x) (kenvs x)) as [[a c'] e']. destruct (Hf Hc) as (H1 & H2 & H3 & H4). split; try done. cbn. by rewrite H2.
Qed.

Ltac stills_tac :=
  repeat first
  [ apply stills_ret | apply stills_raise | apply stills_gets | apply stills_get | apply stills_stamp | apply stills_status | assumption
  | apply stills_bind; [|intros ?] | apply stills_when | apply stills_modify; intros ?; by split
  | match goal with
    | |- stills (if ?b then _ else _) => destruct b
    | |- stills (match ?o with _ => _ end) => destruct o
    | H : forall _, stills _ |- stills _ => apply H
    end ].

Lemma stills_log a b : stills (xrt_cu_circ_produce a b).
Proof. unfold xrt_cu_circ_produce, on_env. stills_tac. Qed.

Lemma stills_idle_start : stills xrt_cu_idle_start.
Proof. unfold xrt_cu_idle_start, on_env, on_stat. stills_tac. Qed.

Lemma stills_idle_end : stills xrt_cu_idle_end.
Proof. unfold xrt_cu_idle_end, on_env, on_stat. stills_tac. Qed.

Lemma stills_process_pq : stills process_pq.
Proof. unfold process_pq. stills_tac; apply stills_idle_end. Qed.

Lemma stills_complete_all n : stills (complete_all n).
Proof.
  assert (stills complete_first) as H1.
  { unfold complete_first, first_entry, xrt_cu_incr_ecmd_count, on_stat. stills_tac; first [apply stills_log|apply stills_modify; intros x; by apply still_env]. }
  induction n as [|n IH]; cbn [complete_all]; stills_tac.
Qed.

Lemma stills_collect log n : (forall c, stills (log c)) -> stills (collect log n).
Proof.
  intros Hl. induction n as [|n IH]; cbn [collect]; (apply stills_bind; [intros x; unfold wp, funcs; cbn; unfold cu_hls_get_complete; by destruct (hls_completed (core x))|]); intros o; unfold move_to_cq; stills_tac.
Qed.

Lemma stills_abort_running cl l : stills (abort_running cl l).
Proof. induction l as [|c l IH]; cbn [abort_running]; unfold move_to_cq; stills_tac. Qed.

Lemma stills_find h l : stills (find_handle h l).
Proof. induction l as [|c l IH]; cbn [find_handle]; stills_tac. Qed.

(** * What moves the credit *)

Context (Hhonest : honest).

Definition idle_credit x : Prop := one_credit x /\ ready_cnt x = 0.

(** The function keeps [P] and establishes [Q], if it does not fault. *)
Definition brings {A} (P : xrt_cu hls -> Prop) (m : K A) (Q : xrt_cu hls -> Prop) : Prop := forall x, P x -> wp m (fun _ x' => Q x') (fun _ _ => True) x.

Lemma brings_bind {A B} P Q R (m : K A) (k : A -> K B) : brings P m Q -> (forall a, brings Q (k a) R) -> brings P (bind m k) R.
Proof. intros Hm Hk x Hx. apply wp_bind. eapply wp_mono; [by apply Hm| |done]. intros a x1 H1. by apply Hk. Qed.

Lemma wp_brings {A} P Q (m : K A) x : P x -> brings P m Q -> wp m (fun _ x' => Q x') (fun _ _ => True) x.
Proof. intros Hx Hm. by apply Hm. Qed.

Lemma brings_gets {A B} P Q (f : xrt_cu hls -> A) (k : A -> K B) : (forall x, P x -> wp (k (f x)) (fun _ x' => Q x') (fun _ _ => True) x) -> brings P (bind (gets f) k) Q.
Proof. intros Hk x Hx. by apply wp_bind, wp_gets, Hk. Qed.

Lemma brings_ret {A} P (a : A) : brings P (ret a) P.
Proof. intros x Hx. by apply wp_ret. Qed.

Lemma stills_one {A} (m : K A) : stills m -> brings one_credit m one_credit.
Proof. intros Hm x Hx. eapply wp_mono; [apply Hm| |done]. intros a x' Hs. eapply still_credit; [exact Hs|done]. Qed.

Lemma still_idle x x' : still x x' -> idle_credit x -> idle_credit x'.
Proof. intros Hs [H1 H2]. split; [eapply still_credit; [exact Hs|done]|by rewrite (sl_ready _ _ Hs)]. Qed.

Lemma stills_idle {A} (m : K A) : stills m -> brings idle_credit m idle_credit.
Proof. intros Hm x Hx. eapply wp_mono; [apply Hm| |done]. intros a x' Hs. eapply still_idle; [exact Hs|done]. Qed.

Lemma idle_one {A} (m : K A) P : brings P m idle_credit -> brings P m one_credit.
Proof. intros Hm x Hx. eapply wp_mono; [by apply Hm| |done]. by intros a x' [? _]. Qed.

Lemma one_cases x : one_credit x -> 0 <= ready_cnt x <= 1 /\ 0 <= credits (core x) <= 1.
Proof. intros Hx. pose proof (oc_credit _ Hx). destruct (busy _); lia. Qed.

Lemma moved_frame c e : let '(c', e') := cu_move_to_complete KDS_COMPLETED c e in
  credits c' = credits c /\ max_credits c' = max_credits c /\ ctrl_chain c' = ctrl_chain c /\ bus e' = bus e /\ forall i, command_frame <$> xcmds e' !! i = command_frame <$> xcmds e !! i.
Proof. unfold cu_move_to_complete. destruct (hls_submitted c); [done|]. split_and!; try done. apply env_step_status. Qed.

Lemma brings_check f : brings one_credit (xrt_cu_check_with f) one_credit.
Proof.
  intros x Hx. pose proof (one_cases x Hx) as Hr. destruct Hx as [O1 O2 O3 O4 O5]. unfold xrt_cu_check_with. apply wp_bind. unfold wp at 1, funcs. cbn. unfold cu_hls_check. rewrite O1. unfold cu_hls_ctrl_hs_check, cu_read32.
  destruct (negb f && (run_cnts (core x) =? 0)).
  { repeat (apply wp_bind, wp_modify). apply wp_modify. split; cbn; try done. rewrite Z.add_0_r, u32_small by lia. done. }
  set (v := u32 (device (bus (kenvs x)) CTRL)). destruct (bit v CU_AP_DONE) eqn:Hd.
  - assert (busy (bus (kenvs x)) = true) as Hb by (destruct (busy (bus (kenvs x))) eqn:Hb; [done|]; specialize (Hhonest _ Hb); unfold v in Hd; congruence). rewrite Hb in O4. destruct O4 as [O4 O4'].
    pose proof (moved_frame (core x) (on_bus (fun l => l ++ [Rd CTRL v]) (kenvs x))) as Hm. destruct (cu_move_to_complete _ _ _) as [c2 e2]. destruct Hm as (M1 & M2 & M3 & M4 & M5). cbn in M4, M5.
    repeat (apply wp_bind, wp_modify). apply wp_modify. split; cbn; [congruence|congruence|rewrite M4; by apply legal_snoc| |by eapply tame_cmds].
    rewrite M4, busy_snoc. cbn [busy_step]. change (CTRL =? CTRL) with true. rewrite Hd. cbn. rewrite M1, O4, O4'. change (u32 (0 + 1)) with 1. lia.
  - repeat (apply wp_bind, wp_modify). apply wp_modify. split; cbn; try done; [by apply legal_snoc|]. rewrite busy_snoc. cbn [busy_step]. rewrite Hd, andb_false_r, Z.add_0_r, u32_small by lia. done.
Qed.

(** A reset, with the polls that follow it. *)
Lemma reset_wait_bus n e : busy (bus e) = false -> legal (bus e) -> let '(_, e') := reset_wait device n e in busy (bus e') = false /\ legal (bus e') /\ xcmds e' = xcmds e.
Proof.
  revert e. induction n as [|n IH]; intros e Hb Hl; cbn [reset_wait]; [done|]. unfold cu_hls_reset_done, cu_read32. set (v := u32 _). set (e1 := on_bus _ e).
  assert (busy (bus e1) = false /\ legal (bus e1)) as [Hb1 Hl1]. { cbn. rewrite busy_snoc. cbn [busy_step]. rewrite Hb. split; [by destruct (_ && _)|by apply legal_snoc]. }
  destruct (negb _); [done|]. specialize (IH e1 Hb1 Hl1). by destruct (reset_wait device n e1).
Qed.

(** The time that is left is never negative, even if the reset does not end. *)
Lemma reset_wait_time n e : 0 <= fst (reset_wait device n e).
Proof. revert e. induction n as [|n IH]; intros e; cbn [reset_wait]; [done|]. destruct (cu_hls_reset_done device e) as [d e1]. destruct d; [cbn; lia|apply IH]. Qed.

Lemma abort_matching_env m l kept k e : let '(_, _, e') := abort_matching m l kept k e in bus e' = bus e /\ forall i, command_frame <$> xcmds e' !! i = command_frame <$> xcmds e !! i.
Proof.
  revert kept k e. induction l as [|c l IH]; intros kept k e; cbn [abort_matching]; [done|]. destruct (xcmds e !! c) as [y|]; [|apply IH]. destruct (m y); [|apply IH].
  specialize (IH kept (k ++ [c]) (set_status c KDS_TIMEOUT e)). destruct (abort_matching _ _ _ _ _) as [[l' k'] e']. destruct IH as [E1 E2]. split; [done|]. intros i. rewrite E2. apply env_step_status.
Qed.

Lemma brings_abort m : brings idle_credit (funcs (abort m)) idle_credit.
Proof.
  intros x [[O1 O2 O3 O4 O5] Hr]. unfold wp, funcs. cbn. unfold cu_hls_abort. set (r := if sw_reset (core x) then _ else _).
  assert (max_credits (snd (fst r)) = 1 /\ ctrl_chain (snd (fst r)) = false /\ legal (bus (snd r)) /\ xcmds (snd r) = xcmds (kenvs x) /\ if busy (bus (snd r)) then credits (snd (fst r)) = 0 else credits (snd (fst r)) = 1) as (R1 & R2 & R3 & R4 & R5).
  { subst r. destruct (sw_reset (core x)); [|split_and!; try done; cbn; destruct (busy _); lia]. pose proof (reset_wait_bus (Z.to_nat 10000) (cu_hls_reset (kenvs x))) as Hw. pose proof (reset_wait_time (Z.to_nat 10000) (cu_hls_reset (kenvs x))) as Ht. destruct (reset_wait _ _ _) as [t e1]. cbn in Ht. destruct Hw as (W1 & W2 & W3).
    - cbn. by rewrite busy_snoc.
    - cbn. by apply legal_snoc.
    - apply Z.leb_le in Ht. rewrite Ht. cbn. by rewrite W1. }
  destruct r as [[r1 c1] e1]. cbn in R1, R2, R3, R4, R5. pose proof (abort_matching_env m (hls_submitted c1) [] (hls_completed c1) e1) as Ha. destruct (abort_matching _ _ _ _ _) as [[l k] e2]. destruct Ha as [A1 A2].
  split; [|done]. split; cbn; [done|done|by rewrite A1| |].
  - rewrite A1, Hr. destruct (busy (bus e1)); lia.
  - eapply tame_cmds; [exact A2|]. by rewrite R4.
Qed.

Lemma brings_process_submitted : brings one_credit process_submitted idle_credit.
Proof.
  unfold process_submitted. apply brings_gets. intros x Hx. pose proof (one_cases x Hx) as Hr. apply wp_bind.
  eapply (wp_mono _ (fun _ x' => idle_credit x') _ (fun _ _ => True)); [| |done].
  - destruct Hx as [O1 O2 O3 O4 O5]. destruct (Z.eqb_spec (ready_cnt x) 0) as [E|E]; cbn [negb when]; [by apply wp_ret; split|]. apply wp_bind, wp_modify, wp_modify. split; [|done]. split; cbn; try done.
    destruct (busy _); [lia|]. replace (s32 (credits (core x) + ready_cnt x)) with 1 by (replace (credits (core x) + ready_cnt x) with 1 by lia; done). rewrite O2. cbn. lia.
  - intros _ x1 Hx1. apply wp_bind, wp_gets. destruct (num_sq x1 =? 0); [by apply wp_ret|]. apply (wp_brings idle_credit); [done|]. apply (brings_bind _ idle_credit); [apply stills_idle; unfold first_event_client_or_null; stills_tac|].
    intros o. apply (brings_bind _ idle_credit).
    + destruct o as [cl|]; [|apply brings_ret]. unfold abort_closing. apply brings_gets. intros x2 Hx2. destruct (_ =? 0); [apply wp_modify; by eapply still_idle; [|exact Hx2]; split|]. destruct (_ <? _); [by apply wp_ret|].
      apply (wp_brings idle_credit); [done|]. apply (brings_bind _ idle_credit); [apply brings_abort|]. intros r. apply stills_idle. destruct (r =? 0); stills_tac.
    + intros _. apply (brings_bind _ idle_credit); [apply stills_idle, stills_collect; intros c; apply stills_log|]. intros _. apply stills_idle, stills_idle_start.
Qed.

Lemma brings_process_sq : brings one_credit process_sq idle_credit.
Proof.
  unfold process_sq, is_zero_credit. apply brings_gets. intros x Hx. apply wp_bind, wp_gets. cbn. unfold cu_hls_peek_credit. destruct ((num_sq x =? 0) && negb (credits (core x) =? 0)) eqn:E.
  - apply wp_ret. split; [done|]. apply andb_prop in E as [_ E]. apply negb_true_iff, Z.eqb_neq in E. pose proof (oc_credit _ Hx). destruct (busy _); lia.
  - apply (wp_brings one_credit); [done|]. apply (brings_bind _ one_credit); [apply brings_check|intros _; apply brings_process_submitted].
Qed.

Lemma brings_funcs_still {A} (f : hls -> kenv -> A * hls * kenv) P :
  (forall x x', still x x' -> P x -> P x') -> (forall x, P x -> ctrl_chain (core x) = false) ->
  (forall c e, let '(_, c', e') := f c e in ctrl_chain c = false -> (credits c' = credits c /\ max_credits c' = max_credits c /\ ctrl_chain c' = ctrl_chain c) /\ xcmds e' = xcmds e /\ busy (bus e') = busy (bus e) /\ (legal (bus e) -> legal (bus e'))) ->
  brings P (funcs f) P.
Proof. intros HP Hc Hf x Hx. eapply wp_mono; [apply (still_funcs f Hf); by apply Hc| |done]. intros a x' Hs. eapply HP; [exact Hs|done]. Qed.

Lemma disable_still n c e : let '(_, c', e') := (let '(c', e') := cu_hls_disable_intr device n c e in (tt, c', e')) in
  ctrl_chain c = false -> (credits c' = credits c /\ max_credits c' = max_credits c /\ ctrl_chain c' = ctrl_chain c) /\ xcmds e' = xcmds e /\ busy (bus e') = busy (bus e) /\ (legal (bus e) -> legal (bus e')).
Proof.
  cbn. intros _. set (v := u32 (device _ _)). set (n' := u32 (Z.land _ _)). rewrite <- !app_assoc. destruct (still_registers e [Rd IER v; Wr (u32 GIE) (u32 0); Wr (u32 IER) n']) as [H1 H2]; [|by split_and!].
  intros a Ha. apply elem_of_cons in Ha as [->|Ha]; [right; by eexists _, _|]. left. apply elem_of_cons in Ha as [->|Ha]; [by eexists _, _|]. apply list_elem_of_singleton in Ha as ->. by eexists _, _.
Qed.

Lemma enable_still n c e : let '(_, c', e') := (let '(c', e') := cu_hls_enable_intr n c e in (tt, c', e')) in
  ctrl_chain c = false -> (credits c' = credits c /\ max_credits c' = max_credits c /\ ctrl_chain c' = ctrl_chain c) /\ xcmds e' = xcmds e /\ busy (bus e') = busy (bus e) /\ (legal (bus e) -> legal (bus e')).
Proof.
  cbn. intros _. rewrite <- !app_assoc. destruct (still_registers e [Wr (u32 GIE) (u32 1); Wr (u32 IER) (u32 n)]) as [H1 H2]; [|by split_and!].
  intros a Ha. left. apply elem_of_cons in Ha as [->|Ha]; [by eexists _, _|]. apply list_elem_of_singleton in Ha as ->. by eexists _, _.
Qed.

Lemma clear_still c e : let '(_, c', e') := cu_hls_clear_intr device c e in
  ctrl_chain c = false -> (credits c' = credits c /\ max_credits c' = max_credits c /\ ctrl_chain c' = ctrl_chain c) /\ xcmds e' = xcmds e /\ busy (bus e') = busy (bus e) /\ (legal (bus e) -> legal (bus e')).
Proof.
  unfold cu_hls_clear_intr, cu_read32. set (v := u32 _). destruct (negb (max_credits c =? 1)).
  - intros _. destruct (still_registers e [Rd ISR v]) as [H1 H2]; [|by split_and!]. intros a Ha. right. apply list_elem_of_singleton in Ha as ->. by eexists _, _.
  - destruct (ctrl_chain c) eqn:Ec; cbn [andb]; [by repeat case_match|]. intros _. cbn. rewrite <- app_assoc. destruct (still_registers e [Rd ISR v; Wr (u32 ISR) (u32 v)]) as [H1 H2]; [|by split_and!].
    intros a Ha. apply elem_of_cons in Ha as [->|Ha]; [right; by eexists _, _|]. left. apply list_elem_of_singleton in Ha as ->. by eexists _, _.
Qed.

Lemma switch_poll_brings P : (forall x x', still x x' -> P x -> P x') -> (forall x, P x -> ctrl_chain (core x) = false) -> brings P xrt_cu_switch_to_poll P.
Proof.
  intros HP Hc. unfold xrt_cu_switch_to_poll. apply (brings_bind _ P); [apply brings_funcs_still; [done|done|intros c e; apply disable_still]|]. intros _ x Hx. apply wp_modify. eapply HP; [|exact Hx]. by split.
Qed.

Lemma switch_interrupt_brings P : (forall x x', still x x' -> P x -> P x') -> (forall x, P x -> ctrl_chain (core x) = false) -> brings P xrt_cu_switch_to_interrupt P.
Proof.
  intros HP Hc. unfold xrt_cu_switch_to_interrupt. apply (brings_bind _ P); [apply brings_funcs_still; [done|done|intros c e; apply enable_still]|]. intros _ x Hx. apply wp_modify. eapply HP; [|exact Hx]. by split.
Qed.

Lemma one_chain x : one_credit x -> ctrl_chain (core x) = false.
Proof. apply oc_chain. Qed.

(** What follows the start of a command. *)
Lemma brings_after_start c : brings one_credit (
  t <- gets thread ;;
  when t (
    modify (on_poll_count (fun _ => 0)) ;;;
    b <- gets (fun x => negb (force_intr x) && interrupt_used x) ;;
    when b xrt_cu_switch_to_poll) ;;;
  on_env (set_xcmd_timestamp c KDS_RUNNING) ;;;
  xrt_cu_circ_produce CU_LOG_STAGE_RQ (Z.of_nat c) ;;;
  modify (on_num_sq (fun n => u32 (n + 1))) ;;;
  modify (on_num_rq (fun n => u32 (n - 1))) ;;;
  k <- gets num_sq ;;
  modify (on_stats (fun s => XrtCuStats (stats_enabled s) (if max_sq_length s <? k then k else max_sq_length s) (sq_total s) (sq_count s) (idle s) (usage_curr s) (idle_total s) (idle_start s) (idle_end s))) ;;;
  ret true) one_credit.
Proof.
  apply brings_gets. intros x Hx. apply (wp_brings one_credit); [done|]. apply (brings_bind _ one_credit).
  - destruct (thread x); cbn [when]; [|apply brings_ret]. apply (brings_bind _ one_credit); [apply stills_one; stills_tac|]. intros _. apply brings_gets. intros x1 Hx1. destruct (_ && _); cbn [when]; [|by apply wp_ret].
    apply (wp_brings one_credit); [done|]. apply switch_poll_brings; [intros; by eapply still_credit|apply one_chain].
  - intros _. apply stills_one. stills_tac.
Qed.

Lemma brings_start_first : brings one_credit start_first one_credit.
Proof.
  unfold start_first. apply brings_gets. intros x Hx. apply wp_bind. destruct (rq x) as [|c l]; [done|]. apply wp_ret, wp_bind. pose proof (one_cases x Hx) as Hr. unfold wp at 1, xrt_cu_get_credit, funcs. cbn. unfold cu_hls_alloc_credit.
  destruct (Z.eqb_spec (credits (core x)) 0) as [E|E]; [rewrite Z.eqb_refl; apply wp_ret; by destruct Hx|]. apply Z.eqb_neq in E as E'. rewrite E'.
  assert (credits (core x) = 1) as Ec by lia. rewrite Ec. change (s32 (1 - 1)) with 0. destruct Hx as [O1 O2 O3 O4 O5]. destruct (busy (bus (kenvs x))) eqn:Hb; [lia|]. assert (ready_cnt x = 0) as Er by lia.
  apply wp_bind. unfold wp at 1, funcs. cbn. unfold cu_hls_submit_config. destruct (xcmds (kenvs x) !! c) as [y|] eqn:Ey.
  2: { cbn. apply wp_bind, wp_modify, wp_ret. split; cbn; try done. rewrite O2, Hb, Er. done. }
  pose proof (configure_writes y (kenvs x)) as Ew. pose proof (writes_legal (config_writes y) (kenvs x) (O5 c y Ey) O3 Hb) as [Hl Hb2]. rewrite <- Ew in Hl, Hb2.
  assert (xcmds (snd (cu_hls_configure false past y (kenvs x))) = xcmds (kenvs x)) as Ex by apply (configure_same false past y (kenvs x)). destruct (cu_hls_configure false past y (kenvs x)) as [r e1]. cbn in Hl, Hb2, Ex. destruct (r =? 0) eqn:Err; rewrite ?Err; cbn [negb].
  - change (0 =? 0) with true. cbn [negb]. apply wp_bind, wp_modify, wp_bind. unfold wp at 1, funcs_, funcs. cbn. apply (wp_brings one_credit); [|apply brings_after_start]. split; cbn; try done.
    + by apply legal_snoc.
    + rewrite busy_snoc. cbn. done.
    + rewrite Ex. done.
  - apply wp_bind, wp_modify, wp_ret. split; cbn; try done; [by rewrite O2, Hb2, Er|by rewrite Ex].
Qed.

Lemma brings_process_rq : brings one_credit process_rq one_credit.
Proof.
  unfold process_rq. apply brings_gets. intros x Hx. destruct (_ =? 0); [by apply wp_ret|]. apply wp_bind, wp_bind, wp_gets, wp_ret. destruct (hd_error _) as [cl|]; [|by apply brings_start_first].
  apply (wp_brings one_credit); [done|]. apply stills_one. stills_tac. apply stills_abort_running.
Qed.

Lemma brings_process_rq_all n : brings one_credit (process_rq_all n) one_credit.
Proof. induction n as [|n IH]; cbn [process_rq_all]; (apply (brings_bind _ one_credit); [apply brings_process_rq|]); intros b; destruct b; cbn [negb]; first [apply brings_ret|done]. Qed.

Lemma brings_process_cq : brings one_credit process_cq one_credit.
Proof. unfold process_cq. apply stills_one. stills_tac. apply stills_complete_all. Qed.

Lemma brings_try_abort c : brings idle_credit (try_abort_cmd c) idle_credit.
Proof.
  unfold try_abort_cmd. apply (brings_bind _ idle_credit); [apply stills_idle; stills_tac|]. intros y. apply (brings_bind _ idle_credit); [apply stills_idle; stills_tac|]. intros h. apply (brings_bind _ idle_credit); [apply stills_idle; stills_tac|]. intros l.
  apply (brings_bind _ idle_credit); [apply stills_idle, stills_find|]. intros o. destruct o as [r|]; [apply stills_idle; unfold move_to_cq; stills_tac|]. apply brings_gets. intros x Hx. destruct (_ =? 0); [by apply wp_ret|].
  apply (wp_brings idle_credit); [done|]. apply (brings_bind _ idle_credit); [apply brings_abort|]. intros r. apply stills_idle. apply stills_bind; [destruct (r =? 0); stills_tac|]. intros _. apply stills_collect. intros c'. apply stills_ret.
Qed.

Lemma brings_process_hpq : brings idle_credit process_hpq idle_credit.
Proof.
  assert (forall l, brings idle_credit (process_high l) idle_credit) as Hl.
  { induction l as [|c l IH]; cbn [process_high]; [apply brings_ret|]. apply (brings_bind _ idle_credit); [apply stills_idle; stills_tac|]. intros y. apply (brings_bind _ idle_credit).
    - case_bool_decide; cbn [when]; [apply brings_try_abort|apply brings_ret].
    - intros _. apply (brings_bind _ idle_credit); [apply stills_idle; stills_tac|]. intros _. apply (brings_bind _ idle_credit); [apply stills_idle; stills_tac|]. by intros _. }
  unfold process_hpq. apply brings_gets. intros x Hx. destruct (_ =? 0); [by apply wp_ret|]. apply (wp_brings idle_credit); [done|]. apply (brings_bind _ idle_credit); [apply stills_idle; stills_tac|]. intros l.
  apply (brings_bind _ idle_credit); [apply Hl|]. intros _. apply stills_idle. stills_tac.
Qed.

Lemma brings_process_queues : brings one_credit xrt_cu_process_queues one_credit.
Proof.
  unfold xrt_cu_process_queues. apply (brings_bind _ one_credit); [apply stills_one, stills_process_pq|]. intros _. apply (brings_bind _ one_credit); [apply stills_one; stills_tac|]. intros n. apply (brings_bind _ one_credit); [apply brings_process_rq_all|]. intros _.
  apply (brings_bind _ one_credit); [apply brings_process_cq|]. intros _. apply (brings_bind _ idle_credit); [apply brings_process_sq|]. intros _. apply idle_one. apply (brings_bind _ idle_credit); [apply brings_process_hpq|]. intros _. apply stills_idle. stills_tac.
Qed.

(** * The thread *)

(** The credit is not on its way back before [process_hpq]. *)
Definition credit_at (p : place_of_thread) x : Prop := one_credit x /\ (p = AtHigh -> ready_cnt x = 0).

Definition goes (P : xrt_cu hls -> Prop) (m : K place_of_thread) : Prop := forall x, P x -> wp m credit_at (fun _ _ => True) x.

Lemma goes_bind {A} P Q (m : K A) (k : A -> K place_of_thread) : brings P m Q -> (forall a, goes Q (k a)) -> goes P (bind m k).
Proof. intros Hm Hk x Hx. apply wp_bind. eapply wp_mono; [by apply Hm| |done]. intros a x1 H1. by apply Hk. Qed.

Lemma goes_gets {A} P (f : xrt_cu hls -> A) (k : A -> K place_of_thread) : (forall x, P x -> wp (k (f x)) credit_at (fun _ _ => True) x) -> goes P (bind (gets f) k).
Proof. intros Hk x Hx. by apply wp_bind, wp_gets, Hk. Qed.

Lemma goes_ret p : p <> AtHigh -> goes one_credit (ret p).
Proof. intros Hp x Hx. by apply wp_ret. Qed.

Lemma goes_idle p : goes idle_credit (ret p).
Proof. intros x [H1 H2]. by apply wp_ret. Qed.

Lemma wp_goes P (m : K place_of_thread) x : P x -> goes P m -> wp m credit_at (fun _ _ => True) x.
Proof. intros Hx Hm. by apply Hm. Qed.

Lemma top_goes : goes one_credit at_top.
Proof.
  unfold at_top. apply goes_gets. intros x Hx. destruct (stop x).
  { apply (wp_goes one_credit); [done|]. apply (goes_bind _ one_credit); [|intros _; by apply goes_ret]. apply brings_funcs_still; [intros; by eapply still_credit|apply one_chain|intros c e; apply disable_still]. }
  apply (wp_goes one_credit); [done|]. apply (goes_bind _ one_credit); [apply brings_process_rq|]. intros b. destruct b; [by apply goes_ret|]. apply (goes_bind _ one_credit); [apply brings_process_cq|]. intros _.
  unfold is_zero_credit. apply goes_gets. intros x1 Hx1. apply wp_bind, wp_gets. cbn. unfold cu_hls_peek_credit. destruct ((num_sq x1 =? 0) && negb (credits (core x1) =? 0)) eqn:E.
  { apply wp_ret. split; [done|]. intros _. apply andb_prop in E as [_ E]. apply negb_true_iff, Z.eqb_neq in E. pose proof (oc_credit _ Hx1). destruct (busy _); lia. }
  apply wp_bind, wp_gets. destruct (negb (interrupt_used x1)); apply (wp_goes one_credit); try done.
  - apply (goes_bind _ idle_credit); [apply brings_process_sq|]. intros _. apply (goes_bind _ idle_credit); [apply stills_idle; stills_tac|]. intros _. apply (goes_bind _ idle_credit); [apply stills_idle; stills_tac|]. intros b.
    apply (goes_bind _ idle_credit); [|intros _; apply goes_idle]. destruct b; cbn [when]; [|apply brings_ret]. apply switch_interrupt_brings; [apply still_idle|intros y [Hy _]; by apply one_chain].
  - apply (goes_bind _ one_credit); [apply brings_check|]. intros _. apply goes_gets. intros x2 Hx2. destruct (_ || _); apply (wp_goes one_credit); try done.
    + apply (goes_bind _ one_credit); [apply stills_one; stills_tac|intros _; by apply goes_ret].
    + apply (goes_bind _ idle_credit); [apply brings_process_submitted|intros _; apply goes_idle].
Qed.

Lemma step_goes p x : credit_at p x -> wp (thread_step p) credit_at (fun _ _ => True) x.
Proof.
  intros [Hx Hr]. destruct p; cbn [thread_step].
  - by apply top_goes.
  - apply (wp_goes one_credit); [done|]. unfold at_cu. apply (goes_bind _ one_credit); [apply stills_one; stills_tac|]. intros _. apply (goes_bind _ one_credit); [apply brings_check|]. intros _. apply (goes_bind _ idle_credit); [apply brings_process_submitted|intros _; apply goes_idle].
  - apply (wp_goes idle_credit); [by split; [|apply Hr]|]. unfold at_high. apply (goes_bind _ idle_credit); [apply brings_process_hpq|]. intros _. apply goes_gets. intros x1 [Hx1 Hr1]. destruct (negb _); [by apply wp_ret|]. destruct (_ && _); [|by apply wp_ret].
    apply (wp_goes one_credit); [done|]. apply (goes_bind _ one_credit); [|intros _; by apply goes_ret]. unfold id. destruct (num_pq x1 =? 0); cbn [when]; [apply brings_check|apply brings_ret].
  - apply (wp_goes one_credit); [done|]. apply (goes_bind _ one_credit); [apply stills_one; stills_tac|intros _; by apply goes_ret].
  - apply (wp_goes one_credit); [done|]. apply (goes_bind _ one_credit); [apply stills_one, stills_process_pq|intros _; by apply goes_ret].
  - by apply wp_ret.
Qed.

Definition tame_call (a : kcall) : Prop := match a with NewCommand y => tame y | _ => True end.

Lemma call_credit a x : tame_call a -> one_credit x -> wp (run_kcall a) (fun _ x' => one_credit x' /\ ready_cnt x' = ready_cnt x) (fun _ _ => True) x.
Proof.
  intros Ha Hx. assert (forall m : K unit, stills m -> wp m (fun _ x' => one_credit x' /\ ready_cnt x' = ready_cnt x) (fun _ _ => True) x) as Hs.
  { intros m Hm. eapply wp_mono; [apply Hm| |done]. cbn. intros _ x' H1. split; [by eapply still_credit; [exact H1|]|apply H1]. }
  destruct a as [y|c|c|cl|cl| |]; cbn [run_kcall].
  - apply wp_modify. destruct Hx as [O1 O2 O3 O4 O5]. split; [|done]. split; cbn; try done. intros c z [Hz|[_ Hz]]%lookup_app_Some; [by eapply O5|]. by apply list_lookup_singleton_Some in Hz as [_ <-].
  - apply Hs. unfold xrt_cu_submit. stills_tac.
  - apply Hs. unfold xrt_cu_hpq_submit. stills_tac.
  - apply Hs. unfold xrt_cu_abort. stills_tac.
  - apply Hs. unfold xrt_cu_abort_done. stills_tac.
  - apply Hs. unfold cu_timer. stills_tac.
  - unfold cu_isr. apply wp_bind. eapply wp_mono; [apply stills_log| |done]. cbn. intros _ x1 S1. apply wp_bind. eapply wp_mono; [apply (still_funcs (fun c e => cu_hls_clear_intr device c e)); [intros c e; apply clear_still|]| |done].
    + rewrite <- (oc_chain _ Hx). apply S1.
    + cbn. intros v x2 S2. apply wp_modify. assert (still x x2) as S by by etrans. split; [|apply S]. eapply still_credit; [|exact Hx]. etrans; [exact S|by split].
Qed.

Lemma runs_credit p0 x0 t p x :
  one_credit x0 -> p0 <> Some AtHigh -> Forall tame_call t -> kruns p0 x0 t p x -> one_credit x /\ (p = Some AtHigh -> ready_cnt x = 0).
Proof.
  intros H0 Hp0 Ht Hr. revert Ht. induction Hr as [|t p x a x' Hr IH Hok E|t x r x' Hr IH E|t p x p' x' Hr IH He E]; intros Ht.
  - by split.
  - apply Forall_app in Ht as [Ht Ha]. apply Forall_inv in Ha. destruct (IH Ht) as [I1 I2]. pose proof (call_credit a x Ha I1) as Hc. unfold wp in Hc. rewrite E in Hc. destruct Hc as [H1 H2]. split; [done|]. intros Hp. rewrite H2. by apply I2.
  - destruct (IH Ht) as [I1 I2]. pose proof (brings_process_queues x I1) as Hc. unfold wp in Hc. rewrite E in Hc. by split.
  - destruct (IH Ht) as [I1 I2]. assert (credit_at p x) as Hc by (split; [done|intros ->; by apply I2]). pose proof (step_goes p x Hc) as Hw. unfold wp in Hw. rewrite E in Hw. destruct Hw as [H1 H2]. split; [done|]. intros [= ->]. by apply H2.
Qed.
End protocol.
