(* ===== verification/KdsTheorems.v ===== *)
(** The scheduler of compute units: no command is lost, a sleeping thread has nothing to do, a
    client that closes gets its commands back, and the protocol of HLS compute units; and
    behaviours that users do not expect, as runs of the model. *)

From S2P Require Import Prelude KdsEnv KdsHls KdsFa KdsCu KdsInvariant KdsSteps KdsRuns KdsProtocol.

(** * Any compute unit *)

Section scheduler.
Context {C : Type} `{XcuLaws C}.
Implicit Types x : xrt_cu C.

(** C19: For every implementation of a compute unit that keeps the laws [XcuLaws], as HLS compute units and
    fast adapters do, from initialisation on, polled or with a thread started then, and in all
    interleavings with the calls of other threads, timers and interrupts: the commands that have been
    submitted are those that the host has been told of, each once, and those in the queues.  If
    nothing is aborted, the order is the one of submission, and every command that the host
    is told of was reported as completed.  The scheduler never faults. *)
Theorem kds_commands_conserved p0 x0 t p x :
  fresh p0 x0 -> kruns p0 x0 t p x ->
  (fst <$> host (kenvs x)) ++ queued x ≡ₚ sent t /\ NoDup ((fst <$> host (kenvs x)) ++ queued x) /\
  (forallb (fun a => negb (aborting a)) t = true -> (fst <$> host (kenvs x)) ++ queued x = sent t /\ Forall (fun q => snd q = KDS_COMPLETED) (host (kenvs x))) /\
  (exists r x', xrt_cu_process_queues x = Ok r x') /\ (forall q, exists q' x', thread_step q x = Ok q' x').
Proof.
  intros Hf Hr. destruct (runs_inv p0 x0 t p x Hf Hr) as [I1 I2 I3 _ _ _]. split_and!; [exact I2|exact (ki_nodup _ _ _ _ I1)| | |].
  - intros Ht. destruct (I3 Ht) as (_ & [_ G] & E). by split.
  - pose proof (process_queues_round x I1) as Hw. unfold wp in Hw. destruct (xrt_cu_process_queues x) as [r x'|]; [by exists r, x'|done].
  - intros q. pose proof (step_walks q x I1) as Hw. unfold wp in Hw. destruct (thread_step q x) as [q' x'|]; [by exists q', x'|done].
Qed.

(** C20: No wake-up is lost when the thread is started at the initialisation of the compute unit, while its
    queues are empty: when the thread sleeps, and no one has raised its semaphore, the
    host has been told of every command that has been submitted, and no command of high priority
    waits. *)
Theorem sleeping_thread_idle x0 t x :
  fresh (Some AtTop) x0 -> kruns (Some AtTop) x0 t (Some AtSem) x -> sem x = 0%nat -> (fst <$> host (kenvs x)) ≡ₚ sent t /\ hpq x = [].
Proof.
  intros Hf Hr Hs. destruct (runs_inv _ x0 t _ x Hf Hr) as [I1 I2 _ I4 I5 I6]. destruct (I6 eq_refl) as (E1 & E2 & E3 & E4).
  assert (pq x = []) as E5. { destruct (decide (pq x = [])) as [?|Hne]; [done|]. destruct (I4 AtSem eq_refl Hne) as [?|?]; [lia|done]. }
  assert (hpq x = []) as E6. { destruct (decide (hpq x = [])) as [?|Hne]; [done|]. specialize (I5 eq_refl Hne). lia. }
  split; [|done]. rewrite <- I2. unfold order. by rewrite E1, E2, E3, E4, E5, !app_nil_r.
Qed.

(** C27: Whatever the device does, the client at the head of the list of closing clients gets its
    commands back: once the time of its commands is over, and no command of high priority waits,
    after two rounds of polling the host has been told of all of them. *)
Theorem closing_client_released x0 t x r1 x1 r2 x2 cl l :
  fresh None x0 -> kruns None x0 t None x -> hpq x = [] -> events x = cl :: l -> overdue x ->
  xrt_cu_process_queues x = Ok r1 x1 -> xrt_cu_process_queues x1 = Ok r2 x2 ->
  forall c y, c ∈ sent t -> xcmds (kenvs x2) !! c = Some y -> client y = cl -> c ∈ (fst <$> host (kenvs x2)).
Proof.
  intros Hf Hr Hh He Ho E1 E2 c y Hc Hy Hcl. destruct (runs_inv _ x0 t _ x Hf Hr) as [I1 I2 _ _ _ _]. pose proof (process_queues_round x I1) as Hw1. unfold wp in Hw1. rewrite E1 in Hw1. destruct Hw1 as [[J1 S1 P1 K1 T1 O1] _].
  pose proof (process_queues_round x1 J1) as Hw2. unfold wp in Hw2. rewrite E2 in Hw2. destruct Hw2 as [[J2 S2 P2 K2 T2 O2] _].
  assert (c ∈ order x1) as Hin by by rewrite (ks_order _ _ S1), I2. unfold order in Hin. rewrite (K1 Hh) in Hin. apply elem_of_app in Hin as [Hin|Hin]; [by eapply prefix_fst; [apply (kf_host _ _ (ks_frame _ _ S2))|]|].
  apply elem_of_app in Hin as [Hin|Hin]; [by apply T2|]. cbn in Hin. pose proof (kf_cmds _ _ (ks_frame _ _ S2) c) as Ec. rewrite Hy in Ec. destruct (xcmds (kenvs x1) !! c) as [z|] eqn:Ez; [|done].
  destruct (O1 cl l Hh He Ho c z Hin Ez). rewrite <- Hcl. apply same_client. symmetry. exact (inj Some _ _ Ec).
Qed.
End scheduler.

(** * HLS compute units *)

Section hls.
Context (past : nat -> Z) (device : list access -> Z -> Z).
#[local] Instance funcs_hls : XcuFuncs xrt_cu_hls := hls_funcs false past device.
#[local] Instance laws_hls : XcuLaws xrt_cu_hls := hls_laws false past device.

(** C21: The protocol [ap_ctrl_hs] is respected: in every run, with aborts and resets, the
    arguments of the compute unit are written and it is started only when it has been seen to be done,
    or reset, since its last start; for a device that is done only when it has been started, and
    commands that do not write the control registers. *)
Theorem hls_started_when_done reset p0 t p x :
  honest device -> p0 = None \/ p0 = Some AtTop -> Forall (tame_call past) t ->
  kruns p0 (xrt_cu_init (hls_init false reset) (KEnv [] [] [] 0) (bool_decide (p0 = Some AtTop))) t p x -> legal (bus (kenvs x)).
Proof.
  intros Hh Hp Ht Hr. eapply (runs_credit past device Hh p0 _ t p x) in Hr as [Hc _]; [apply Hc| |by destruct Hp as [->| ->]|done].
  split; cbn; try done. intros l1 a l2 E. by destruct l1.
Qed.
End hls.

(** * Runs *)

Section play.
Context {C : Type} `{XcuLaws C}.
Implicit Types x : xrt_cu C.

Definition call_okb (a : kcall) x : bool :=
  match a with
  | SubmitCommand c => bool_decide (c ∉ order x) && bool_decide (is_Some (xcmds (kenvs x) !! c)) && (Z.of_nat (length (queued x)) + 1 <? 2 ^ 31)
  | HighCommand c => match xcmds (kenvs x) !! c with Some y => negb (bool_decide (info y = [])) | None => false end && (Z.of_nat (length (hpq x)) + 1 <? 2 ^ 31)
  | _ => true
  end.

Lemma call_okb_ok a x : call_okb a x = true -> call_ok a x.
Proof.
  destruct a; cbn; try done.
  - intros [[H1 H2]%andb_prop H3]%andb_prop. apply bool_decide_eq_true in H1, H2. apply Z.ltb_lt in H3. done.
  - intros [H1 H2]%andb_prop. apply Z.ltb_lt in H2. split; [|done]. destruct (xcmds (kenvs x) !! c) as [y|]; [|done]. apply negb_true_iff, bool_decide_eq_false in H1. by exists y.
Qed.

(** A sequence of calls, and of rounds or steps of the thread. *)
Fixpoint play_kds (l : list (option kcall)) (s : list kcall * option place_of_thread * xrt_cu C) : option (list kcall * option place_of_thread * xrt_cu C) :=
  match l with
  | [] => Some s
  | o :: l' =>
      let '(t, p, x) := s in
      match o, p with
      | Some a, _ => if call_okb a x then match run_kcall a x with Ok _ x' => play_kds l' (t ++ [a], p, x') | Err _ _ => None end else None
      | None, None => match xrt_cu_process_queues x with Ok _ x' => play_kds l' (t, p, x') | Err _ _ => None end
      | None, Some q => if bool_decide (q = AtSem) && (sem x =? 0)%nat then None else match thread_step q x with Ok q' x' => play_kds l' (t, Some q', x') | Err _ _ => None end
      end
  end.

Lemma play_kruns p0 x0 l t p x t' p' x' : kruns p0 x0 t p x -> play_kds l (t, p, x) = Some (t', p', x') -> kruns p0 x0 t' p' x'.
Proof.
  revert t p x. induction l as [|o l IH]; intros t p x Hr; cbn [play_kds]; [by intros [= <- <- <-]|]. destruct o as [a|].
  - destruct (call_okb a x) eqn:Ha; [|done]. destruct (run_kcall a x) as [[] x1|] eqn:E; [|done]. apply IH. eapply kr_call; [exact Hr|by apply call_okb_ok|exact E].
  - destruct p as [q|].
    + destruct (bool_decide (q = AtSem) && (sem x =? 0)%nat) eqn:He; [done|]. destruct (thread_step q x) as [q' x1|] eqn:E; [|done]. apply IH. eapply kr_thread; [exact Hr| |exact E].
      intros ->. rewrite bool_decide_true in He by done. cbn in He. apply Nat.eqb_neq in He. lia.
    + destruct (xrt_cu_process_queues x) as [r x1|] eqn:E; [|done]. apply IH. by eapply kr_poll.
Qed.

Definition played (l : list (option kcall)) (p : option place_of_thread) x : list kcall * option place_of_thread * xrt_cu C := default ([], p, x) (play_kds l ([], p, x)).

Lemma played_runs l p x : bool_decide (is_Some (play_kds l ([], p, x))) = true -> kruns p x (fst (fst (played l p x))) (snd (fst (played l p x))) (snd (played l p x)).
Proof.
  intros [[[t' p'] x'] E]%bool_decide_eq_true. unfold played. rewrite E. cbn. eapply play_kruns; [apply kr_start|exact E].
Qed.
End play.

(** Devices that are done at once, and never. *)
Definition quick_device (l : list access) (reg : Z) : Z := if (reg =? CTRL) && busy l then CU_AP_DONE else CU_AP_IDLE.
Definition stuck_device (l : list access) (reg : Z) : Z := CU_AP_START.

Definition a_command (cl : nat) (handle : Z) : kds_command := KdsCommand cl KDS_NEW OP_START REGMAP [17; 18] 8 handle false (repeat 0 8).
Definition zeros (_ : nat) : Z := 0.

Definition quick_start (b : bool) : xrt_cu xrt_cu_hls := xrt_cu_init (hls_init false true) (KEnv [] [] [] 0) b.

(** Three commands, of which the thread has told the host when it sleeps. *)
Definition thread_calls : list (option kcall) :=
  map (fun i => Some (NewCommand (a_command 0 (Z.of_nat i)))) (seq 0 3) ++ [Some (SubmitCommand 0); Some (SubmitCommand 1)] ++ replicate 3 None ++ [Some (SubmitCommand 2)] ++ replicate 13 None.

#[local] Instance funcs_quick : XcuFuncs xrt_cu_hls := hls_funcs false zeros quick_device.
#[local] Instance laws_quick : XcuLaws xrt_cu_hls := hls_laws false zeros quick_device.

Lemma quick_honest : honest quick_device.
Proof. intros l Hl. unfold quick_device. rewrite Hl, andb_false_r. done. Qed.

Lemma quick_fresh_thread : fresh (Some AtTop) (quick_start true).
Proof. by apply fr_thread. Qed.

(** The run of the thread. *)
Definition thread_run : list kcall * option place_of_thread * xrt_cu xrt_cu_hls := played thread_calls (Some AtTop) (quick_start true).

Lemma thread_run_runs : kruns (Some AtTop) (quick_start true) (fst (fst thread_run)) (snd (fst thread_run)) (snd thread_run).
Proof. apply (played_runs thread_calls (Some AtTop) (quick_start true)). by vm_compute. Qed.

Lemma kds_commands_conserved_witness :
  sent (fst (fst thread_run)) = [0; 1; 2]%nat /\ host (kenvs (snd thread_run)) = [(0, KDS_COMPLETED); (1, KDS_COMPLETED); (2, KDS_COMPLETED)]%nat /\
  (fst <$> host (kenvs (snd thread_run))) ++ queued (snd thread_run) ≡ₚ sent (fst (fst thread_run)) /\ NoDup ((fst <$> host (kenvs (snd thread_run))) ++ queued (snd thread_run)) /\
  (forallb (fun a => negb (aborting a)) (fst (fst thread_run)) = true -> (fst <$> host (kenvs (snd thread_run))) ++ queued (snd thread_run) = sent (fst (fst thread_run)) /\ Forall (fun q => snd q = KDS_COMPLETED) (host (kenvs (snd thread_run)))) /\
  (exists r x', xrt_cu_process_queues (snd thread_run) = Ok r x') /\ (forall q, exists q' x', thread_step q (snd thread_run) = Ok q' x').
Proof.
  split; [by vm_compute|]. split; [by vm_compute|].
  exact (kds_commands_conserved (Some AtTop) (quick_start true) (fst (fst thread_run)) (snd (fst thread_run)) (snd thread_run) quick_fresh_thread thread_run_runs).
Defined.

Lemma thread_run_asleep : snd (fst thread_run) = Some AtSem /\ sem (snd thread_run) = 0%nat.
Proof. by vm_compute. Qed.

Lemma thread_asleep_runs : kruns (Some AtTop) (quick_start true) (fst (fst thread_run)) (Some AtSem) (snd thread_run).
Proof. destruct thread_run_asleep as [<- _]. apply thread_run_runs. Qed.

Lemma sleeping_thread_idle_witness : (fst <$> host (kenvs (snd thread_run))) ≡ₚ sent (fst (fst thread_run)) /\ hpq (snd thread_run) = [].
Proof. exact (sleeping_thread_idle (quick_start true) (fst (fst thread_run)) (snd thread_run) quick_fresh_thread thread_asleep_runs (proj2 thread_run_asleep)). Defined.

Lemma thread_run_tame : Forall (tame_call zeros) (fst (fst thread_run)).
Proof.
  assert (fst (fst thread_run) = [NewCommand (a_command 0 0); NewCommand (a_command 0 1); NewCommand (a_command 0 2); SubmitCommand 0; SubmitCommand 1; SubmitCommand 2]) as -> by by vm_compute.
  repeat apply Forall_cons_2; try done; repeat constructor; done.
Qed.

Lemma thread_run_starts : length (filter (fun a => a = Wr CTRL CU_AP_START) (bus (kenvs (snd thread_run)))) = 3%nat.
Proof. by vm_compute. Qed.

Lemma thread_run_from : kruns (Some AtTop) (xrt_cu_init (hls_init false true) (KEnv [] [] [] 0) (bool_decide (Some AtTop = Some AtTop))) (fst (fst thread_run)) (snd (fst thread_run)) (snd thread_run).
Proof. rewrite bool_decide_true by done. apply thread_run_runs. Qed.

Lemma hls_started_when_done_witness : legal (bus (kenvs (snd thread_run))) /\ length (filter (fun a => a = Wr CTRL CU_AP_START) (bus (kenvs (snd thread_run)))) = 3%nat.
Proof.
  split; [|apply thread_run_starts].
  exact (hls_started_when_done zeros quick_device true (Some AtTop) (fst (fst thread_run)) (snd (fst thread_run)) (snd thread_run) quick_honest (or_intror eq_refl) thread_run_tame thread_run_from).
Defined.

(** A compute unit that hangs. *)
Section stuck.
#[local] Instance funcs_stuck : XcuFuncs xrt_cu_hls := hls_funcs false zeros stuck_device.
#[local] Instance laws_stuck : XcuLaws xrt_cu_hls := hls_laws false zeros stuck_device.

Definition stuck_start : xrt_cu xrt_cu_hls := xrt_cu_init (hls_init false false) (KEnv [] [] [] 0) false.

(** Two commands of client 5, the first of which runs; the client closes. *)
Definition stuck_calls : list (option kcall) :=
  [Some (NewCommand (a_command 5 0)); Some (NewCommand (a_command 5 1)); Some (SubmitCommand 0); Some (SubmitCommand 1); None; Some Timer; Some (AbortClient 5); None; Some Timer; Some Timer].
Definition stuck_run : list kcall * option place_of_thread * xrt_cu xrt_cu_hls := played stuck_calls None stuck_start.

Definition round_of (x : xrt_cu xrt_cu_hls) : xrt_cu xrt_cu_hls := match xrt_cu_process_queues x with Ok _ x' => x' | Err _ x' => x' end.
Definition stuck_1 : xrt_cu xrt_cu_hls := round_of (snd stuck_run).
Definition stuck_2 : xrt_cu xrt_cu_hls := round_of stuck_1.

Lemma stuck_fresh : fresh None stuck_start.
Proof. by apply fr_polled. Qed.

Lemma stuck_runs : kruns None stuck_start (fst (fst stuck_run)) None (snd stuck_run).
Proof. assert (snd (fst stuck_run) = None) as <- by by vm_compute. apply (played_runs stuck_calls None stuck_start). by vm_compute. Qed.

Lemma stuck_closing : hpq (snd stuck_run) = [] /\ events (snd stuck_run) = [5%nat] /\ overdue (snd stuck_run) /\ hls_submitted (core (snd stuck_run)) = [0%nat].
Proof. split_and!; [by vm_compute|by vm_compute|by split; vm_compute|by vm_compute]. Qed.

Lemma stuck_rounds : xrt_cu_process_queues (snd stuck_run) = Ok XCU_BUSY stuck_1 /\ xrt_cu_process_queues stuck_1 = Ok XCU_IDLE stuck_2.
Proof. by vm_compute. Qed.

Lemma stuck_told : host (kenvs stuck_2) = [(1, KDS_ABORT); (0, KDS_TIMEOUT)]%nat.
Proof. by vm_compute. Qed.

Lemma closing_client_released_witness :
  host (kenvs stuck_2) = [(1, KDS_ABORT); (0, KDS_TIMEOUT)]%nat /\
  forall c y, c ∈ sent (fst (fst stuck_run)) -> xcmds (kenvs stuck_2) !! c = Some y -> client y = 5%nat -> c ∈ (fst <$> host (kenvs stuck_2)).
Proof.
  split; [apply stuck_told|].
  exact (closing_client_released stuck_start (fst (fst stuck_run)) (snd stuck_run) XCU_BUSY stuck_1 XCU_IDLE stuck_2 5 [] stuck_fresh stuck_runs (proj1 stuck_closing) (proj1 (proj2 stuck_closing)) (proj1 (proj2 (proj2 stuck_closing))) (proj1 stuck_rounds) (proj2 stuck_rounds)).
Defined.
End stuck.

(** * Behaviours that users do not expect *)

(** [time >= 0] holds also when the reset has never ended: an abort of a compute unit with a
    software reset always succeeds, and the credit comes back. *)
Lemma reset_always_succeeds (device : list access -> Z -> Z) m c e : sw_reset c = true ->
  let '(r, c', _) := cu_hls_abort device m c e in r = 0 /\ credits c' = max_credits c.
Proof.
  intros Hr. unfold cu_hls_abort. rewrite Hr. pose proof (reset_wait_time device (Z.to_nat 10000) (cu_hls_reset e)) as Ht. destruct (reset_wait _ _ _) as [t e1]. cbn in Ht. apply Z.leb_le in Ht. rewrite Ht.
  destruct (abort_matching _ _ _ _ _) as [[l k] e2]. done.
Qed.

Section stuck.
#[local] Instance stuck_funcs : XcuFuncs xrt_cu_hls := hls_funcs false zeros stuck_device.
#[local] Instance stuck_laws : XcuLaws xrt_cu_hls := hls_laws false zeros stuck_device.

(** A compute unit that hangs is found to be bad when a client closes; the next round of the
    completed commands forgets it, so that [xrt_cu_abort_done] reports a good one. *)
Example bad_state_forgotten : bad_state stuck_1 = true /\ bad_state stuck_2 = false.
Proof. by vm_compute. Qed.

(** The command that was given up is still counted as running. *)
Example aborted_still_counted : hls_submitted (core stuck_2) = [] /\ run_cnts (core stuck_2) = 1.
Proof. by vm_compute. Qed.

(** Two threads that wait for commands of high priority get one completion for both. *)
Example two_waiters_one_completion :
  let '(_, _, x) := played [Some (NewCommand (a_command 0 0)); Some (HighCommand 0); Some (HighCommand 0); None; None] None stuck_start in hpq x = [] /\ comp x = 1%nat.
Proof. by vm_compute. Qed.

(** A command that cannot be configured stays in front of the queue, and blocks all others. *)
Definition bad_opcode : kds_command := KdsCommand 0 KDS_NEW OP_START XGQ_CMD [0] 4 0 false [].

Example bad_command_blocks :
  let '(_, _, x) := played ([Some (NewCommand bad_opcode); Some (NewCommand (a_command 1 1)); Some (SubmitCommand 0); Some (SubmitCommand 1)] ++ replicate 10 None) None stuck_start in
  rq x = [0; 1]%nat /\ host (kenvs x) = [] /\ bus (kenvs x) = [].
Proof. by vm_compute. Qed.
End stuck.

(** A request to abort the command with handle 99, which is not on this compute unit, resets it
    while it runs command 0; the request counts as completed, and command 0 never ends. *)
Definition abort_request (handle : Z) : kds_command := KdsCommand 9 KDS_NEW OP_ABORT REGMAP [handle] 4 0 false [].

Definition slow_device (l : list access) (reg : Z) : Z := if (reg =? CTRL) && busy l && (20 <? length l)%nat then CU_AP_DONE else CU_AP_IDLE.

Section slow.
#[local] Instance slow_funcs : XcuFuncs xrt_cu_hls := hls_funcs false zeros slow_device.
#[local] Instance slow_laws : XcuLaws xrt_cu_hls := hls_laws false zeros slow_device.

Example abort_resets_other_commands :
  let '(_, _, x) := played ([Some (NewCommand (a_command 1 1)); Some (NewCommand (abort_request 99)); Some (SubmitCommand 0); None; Some (HighCommand 1)] ++ replicate 30 None) None (quick_start false) in
  stat (kenvs x) 1 = Some KDS_COMPLETED /\ Wr CTRL CU_AP_SW_RESET ∈ bus (kenvs x) /\ hls_submitted (core x) = [0%nat] /\ host (kenvs x) = [].
Proof. vm_compute. split_and!; [done| |done|done]. set_solver. Qed.

(** A thread that is started when a command is pending sleeps without a wake-up, and further
    commands do not wake it up. *)
Example started_thread_sleeps :
  match run_kcall (NewCommand (a_command 1 1)) (quick_start false) with
  | Ok _ x1 => match run_kcall (SubmitCommand 0) x1 with
    | Ok _ x2 => match xrt_cu_start_thread true x2 with
      | Ok r x3 =>
        let '(_, p, x) := played ([None; None] ++ [Some (NewCommand (a_command 1 2)); Some (SubmitCommand 1)]) (Some AtTop) x3 in
        r = 0 /\ p = Some AtSem /\ sem x = 0%nat /\ pq x = [0; 1]%nat
      | Err _ _ => False
      end
    | Err _ _ => False
    end
  | Err _ _ => False
  end.
Proof. by vm_compute. Qed.
End slow.

(** A thread that cannot be created is reported with 1, and not with a negative error. *)
Example thread_error : match xrt_cu_start_thread false (quick_start false) with Ok r _ => r = 1 | Err _ _ => False end.
Proof. by vm_compute. Qed.

(** A command with pairs whose count is 0 writes 2^31 registers. *)
Lemma empty_pairs_wrap past : hdr_opcode past [XGQ_CMD_OP_START_CUIDX_KV] = XGQ_CMD_OP_START_CUIDX_KV /\ u32 (u64 (hdr_count past [XGQ_CMD_OP_START_CUIDX_KV] - 4) / 4) = 4294967295.
Proof. done. Qed.

Section echo.
#[local] Instance echo_funcs : XcuFuncs xrt_cu_fa := fa_funcs true zeros stuck_device.
#[local] Instance echo_laws : XcuLaws xrt_cu_fa := fa_laws true zeros stuck_device.

(** In echo mode, or without memory for descriptors, commands of a fast adapter never
    complete. *)
Example fast_adapter_echo_hangs :
  let '(_, _, x) := played ([Some (NewCommand (a_command 1 1)); Some (SubmitCommand 0)] ++ replicate 10 None) None (xrt_cu_init (fa_init 16 0 0) (KEnv [] [] [] 0) false) in
  host (kenvs x) = [] /\ fa_submitted (core x) = [0%nat].
Proof. by vm_compute. Qed.
End echo.

(** * The log *)

Definition entries (b : circ_buf) : Z := CIRC_CNT (head b) (tail b) / xrt_cu_log_size.
Definition produce_many (n : nat) (b : circ_buf) : circ_buf := Nat.iter n (circ_produce 1 0 0) b.

(** When the log has been read up to the end of the buffer, it loses all entries once it is
    full. *)
Example full_log_is_empty :
  let b1 := snd (xrt_cu_circ_consume_all 65536 (produce_many 511 (CircBuf 0 0 ∅))) in
  let b2 := snd (xrt_cu_circ_consume_all 65536 (produce_many 1 b1)) in
  tail b2 = CIRC_BUF_SIZE /\ entries (produce_many 511 b2) = 511 /\ entries (produce_many 512 b2) = 0.
Proof. by vm_compute. Qed.
