(* ===== verification/KdsExec.v ===== *)
(** Execution buffers in the xocl driver: the check of a packet that an application submits, its
    conversion to a command of the scheduler, and the way of an argument from a run object of the
    host to the registers of an HLS compute unit ([xocl_kds.c], [kds_core.c], [ert.h]).

    An execution buffer is a list of bytes.  Accesses outside the copy of the packet or the payload of a
    command, and a write through the null pointer of a payload without words, are faults. *)

From Stdlib Require Import Sorted.
From S2P Require Import Prelude Bytes CppStd XclbinXml XrtKernel XrtRun XrtPacket XrtInvariant XrtPreserve XrtStart XrtFa XrtTheorems XrtErt KdsEnv KdsHls.

(** * Packets *)

Definition ERT_CONFIGURE : Z := 2.
Definition ERT_EXIT : Z := 3.
Definition ERT_ABORT : Z := 4.
Definition ERT_EXEC_WRITE : Z := 5.
Definition ERT_CU_STAT : Z := 6.
Definition ERT_START_COPYBO : Z := 7.
Definition ERT_SK_CONFIG : Z := 8.
Definition ERT_CLK_CALIB : Z := 13.
Definition ERT_MB_VALIDATE : Z := 14.
Definition ERT_START_KEY_VAL : Z := 15.
Definition ERT_ACCESS_TEST_C : Z := 16.
Definition ERT_START_DPU : Z := 18.
Definition ERT_START_NPU : Z := 20.
Definition ERT_START_NPU_PREEMPT : Z := 21.
Definition ERT_START_NPU_PREEMPT_ELF : Z := 22.

Definition pcount (m : list Z) : Z := pkt_count (header m).
Definition pextra (m : list Z) : Z := pkt_extra_cu_masks (header m).
Definition popcode (m : list Z) : Z := pkt_opcode (header m).
Definition stat_enabled (m : list Z) : bool := pkt_bit4 (header m) =? 1.

(** [data[i]] of a packet; a start command has its first CU mask in front of its own data. *)
Definition pdata (m : list Z) (i : Z) : Z := word_at m (Z.to_nat (4 + 4 * i)).

Definition ert_valid_opcode (m : list Z) : bool :=
  let op := popcode m in
  if op =? ERT_START_CU then pextra m + 1 + 4 <=? pcount m else
  if op =? ERT_START_DPU then 1 + pextra m + 6 <=? pcount m else
  if op =? ERT_CMD_CHAIN then pcount m =? (pdata m 0 * 8 + 24) / 4 else
  if op =? ERT_START_NPU then 1 + pextra m + 4 <=? pcount m else
  if (op =? ERT_START_NPU_PREEMPT) || (op =? ERT_START_NPU_PREEMPT_ELF) then 1 + pextra m + 10 <=? pcount m else
  if op =? ERT_START_KEY_VAL then pextra m + 1 <=? pcount m else
  if op =? ERT_EXEC_WRITE then pextra m + 1 + 6 <=? pcount m else
  if op =? ERT_START_FA then pextra m + 1 <=? pcount m else
  if op =? ERT_SK_START then pextra m + 1 + 1 <=? pcount m else
  if op =? ERT_CONFIGURE then u32 (5 + pdata m 1) <=? pcount m else
  if op =? ERT_START_COPYBO then pcount m =? 16 else
  if op =? ERT_INIT_CU then pextra m + 9 + 4 <=? pcount m else
  if op =? ERT_SK_CONFIG then pcount m =? 28 * pdata m 0 / 4 + 1 else
  (op =? ERT_CLK_CALIB) || (op =? ERT_MB_VALIDATE) || (op =? ERT_ACCESS_TEST_C) || (op =? ERT_CU_STAT) || (op =? ERT_EXIT) || (op =? ERT_ABORT).

(** [ert_start_kernel_timestamps], and the size of the times of 12 states. *)
Definition timestamps_offset (m : list Z) : Z := (4 * pcount m + 4 + 7) / 8 * 8.
Definition timestamps_size : Z := 96.

Definition get_size_with_timestamps_or_zero (m : list Z) : Z :=
  let op := popcode m in
  if ((op =? ERT_START_CU) || (op =? ERT_EXEC_WRITE) || (op =? ERT_START_FA) || (op =? ERT_SK_START)) && stat_enabled m then timestamps_offset m + timestamps_size else 0.

(** Settings of the scheduler: no embedded scheduler, a scheduler on the processor, a remote
    scheduler behind queues (XGQ), and the size of the slots of an embedded one. *)
Record settings := Settings { ert_disable : bool; ps_sched_on : bool; xgq_enable : bool; slot_size : option Z }.

(** The buffer of the application, and the copy of the driver if the packet is valid. *)
Definition copy_and_validate_execbuf (k : settings) (orig : list Z) : list Z * option (list Z) :=
  let orig' := set_word 0 (set_state ERT_CMD_STATE_NEW (header orig)) orig in
  let pkg_size := 4 + 4 * pcount orig' in
  let size := Z.of_nat (length orig') in
  if size <? pkg_size then (orig', None) else
  let ecmd := take (Z.to_nat pkg_size) orig' ++ replicate (Z.to_nat (size - pkg_size)) 0 in
  if negb (ert_valid_opcode ecmd) then (orig', None) else
  if size <? get_size_with_timestamps_or_zero ecmd then (orig', None) else
  if xgq_enable k then (orig', Some ecmd) else
  match slot_size k with
  | Some n => if (0 <? n) && (n <? pkg_size) then (orig', None) else (orig', Some ecmd)
  | None => (orig', Some ecmd)
  end.

(** * Commands *)

Inductive kds_type := KDS_CU | KDS_SCU | KDS_ERT.

(** A command as the driver makes it from a packet. *)
Record exec_cmd := ExecCmd {
  e_type : kds_type;
  e_opcode : kds_opcode;
  e_payload : payload;
  cu_mask : list Z;
  e_info : list Z;
  e_isize : Z;
  e_timestamps : bool;
}.

(** A word at byte [p]; an access outside the copy of the packet is a fault. *)
Definition load (m : list Z) (p : Z) : option Z :=
  if (0 <=? p) && (p + 4 <=? Z.of_nat (length m)) then Some (word_at m (Z.to_nat p)) else None.
Definition store (p v : Z) (m : list Z) : option (list Z) :=
  if (0 <=? p) && (p + 4 <=? Z.of_nat (length m)) then Some (set_word (Z.to_nat p) v m) else None.

Fixpoint store_all (l : list (Z * Z)) (m : list Z) : option (list Z) :=
  match l with [] => Some m | (p, v) :: l' => store p v m ≫= store_all l' end.

(** The words [data[i]] of a packet. *)
Definition load_data (l : list Z) (m : list Z) : option (list Z) := mapM (fun i => load m (4 + 4 * i)) l.

(** [memcpy] of [size] bytes at [from] to a payload of [cap] words, that are 0 before. *)
Definition memcpy_info (m : list Z) (from cap size : Z) : option (list Z) :=
  if (from + size <=? Z.of_nat (length m)) && (size <=? 4 * cap)
  then Some (words_at m (Z.to_nat from) (Z.to_nat (size / 4)) ++ replicate (Z.to_nat (cap - size / 4)) 0) else None.

(** What the conversions of start commands share; [skip] words of the payload are left out.
    The payload has been allocated for [cap] words. *)
Definition start_ecmd2xcmd (t : kds_type) (op : kds_opcode) (p : payload) (skip cap : Z) (m : list Z) : option exec_cmd :=
  let num_mask := 1 + pextra m in
  let isize := u32 (pcount m - num_mask - skip) * 4 in
  load_data (seqZ 0 num_mask) m ≫= fun masks =>
  memcpy_info m (8 + 4 * (skip + pextra m)) cap isize ≫= fun l =>
  Some (ExecCmd t op p masks l isize (stat_enabled m)).

Definition start_krnl_ecmd2xcmd (t : kds_type) (cap : Z) (m : list Z) : option exec_cmd := start_ecmd2xcmd t OP_START REGMAP 4 cap m.
Definition start_krnl_kv_ecmd2xcmd (t : kds_type) (cap : Z) (m : list Z) : option exec_cmd := start_ecmd2xcmd t OP_START KEY_VAL 0 cap m.
Definition start_fa_ecmd2xcmd (cap : Z) (m : list Z) : option exec_cmd := start_ecmd2xcmd KDS_CU OP_START REGMAP 0 cap m.
Definition start_skrnl_ecmd2xcmd (t : kds_type) (cap : Z) (m : list Z) : option exec_cmd := start_ecmd2xcmd t OP_START_SK REGMAP 0 cap m.

(** The handle is the word at byte 8; without words the payload is a null pointer. *)
Definition abort_ecmd2xcmd (t : kds_type) (cap : Z) (m : list Z) : option exec_cmd :=
  load m 8 ≫= fun h =>
  if cap =? 0 then None else Some (ExecCmd t OP_ABORT REGMAP [] (h :: replicate (Z.to_nat (cap - 1)) 0) (4 * cap) false).

(** [data[i] = data[i + 6]] of a start command, from the last CU mask on. *)
Fixpoint shift_words (n : nat) (i : Z) (m : list Z) : option (list Z) :=
  match n with
  | O => Some m
  | S n' => load m (8 + 4 * (i + 6)) ≫= fun w => store (8 + 4 * i) w m ≫= shift_words n' (i + 1)
  end.

Definition convert_exec_write2key_val (m : list Z) : option (list Z) :=
  shift_words (Z.to_nat (pcount m - 7 - pextra m)) (pextra m) m ≫= fun m' =>
  store 0 (set_count (pcount m - 6) (header m')) m'.

Definition plain (t : kds_type) (op : kds_opcode) (cap : Z) : exec_cmd := ExecCmd t op REGMAP [] (replicate (Z.to_nat cap) 0) (4 * cap) false.

(** [Dropped]: the call returns 0, and the command is freed without having been added. *)
Inductive exec_outcome := Invalid (err : Z) | Completed | Add (c : exec_cmd) | Dropped | Fault.

Definition add_or_fault (o : option exec_cmd) : exec_outcome := match o with Some c => Add c | None => Fault end.

(** ** Copies of buffers *)

Definition KDMA_BLOCK_SIZE : Z := 64.
Definition ENOENT : Z := 2.
Definition EADDRNOTAVAIL : Z := 99.

(** A buffer object: where it starts in the memory of the device, if it is there, and its size. *)
Record gem_bo := GemBo { mm_start : option Z; gem_size : Z }.

(** The buffer objects of the client, the compute units of which the last are copy engines,
    and the result of [xocl_copy_import_bo], which copies to or from another device. *)
Record copy_env := CopyEnv { gem_lookup : Z -> option gem_bo; num_cus : Z; num_cdma : Z; copy_import_bo : list Z -> Z }.

Definition get_bo_paddr (env : copy_env) (bo_hdl off size : Z) : Z + Z :=
  match gem_lookup env bo_hdl with
  | None => inl (- ENOENT)
  | Some g =>
      match mm_start g with
      | None => inl (- EADDRNOTAVAIL)
      | Some a => if (gem_size g <=? off) || (gem_size g <? u64 (off + size)) then inl (- EINVAL) else inr (u64 (a + off))
      end
  end.

(** The fields of the packet of a copy; [arg] is a pointer at byte 72. *)
Definition ert_fill_copybo_cmd (src_bo dst_bo src_offset dst_offset size : Z) (m : list Z) : option (list Z) :=
  let h := set_type 0 (set_opcode ERT_START_COPYBO (set_count 16 (set_extra_cu_masks 3 (set_state ERT_CMD_STATE_NEW (header m))))) in
  store_all ([(0, h)] ++ ((fun '(i, v) => (4 + 4 * i, v)) <$>
    [(0, 0); (1, 0); (2, 0); (3, 0); (8, u32 src_offset); (9, Z.land (Z.shiftr src_offset 32) 0xFFFFFFFF); (10, src_bo);
     (11, u32 dst_offset); (12, Z.land (Z.shiftr dst_offset 32) 0xFFFFFFFF); (13, dst_bo); (14, u32 size); (15, 0)]) ++ [(72, 0); (76, 0)]) m.

(** [cu_mask[i / 32] |= 1 << (i % 32)] for [n] compute units from [i] on. *)
Fixpoint mask_cdma (n : nat) (i : Z) (m : list Z) : option (list Z) :=
  match n with
  | O => Some m
  | S n' => load m (4 + 4 * (i / 32)) ≫= fun w => store (4 + 4 * (i / 32)) (u32 (Z.lor w (Z.shiftl 1 (i mod 32)))) m ≫= mask_cdma n' (i + 1)
  end.

(** What [copybo_ecmd2xcmd] returns: an error, 1 for a copy that has been made, or a command
    for a copy engine. *)
Inductive copy_outcome := CopyError (err : Z) | CopyDone | CopyStart (c : option exec_cmd).

Definition copybo_ecmd2xcmd (env : copy_env) (t : kds_type) (cap : Z) (m : list Z) : copy_outcome :=
  match load_data [8; 9; 10; 11; 12; 13; 14] m with
  | Some [src_lo; src_hi; src_hdl; dst_lo; dst_hi; dst_hdl; sz] =>
      let src_off := Z.lor (Z.shiftl src_hi 32) src_lo in
      let dst_off := Z.lor (Z.shiftl dst_hi 32) dst_lo in
      let src := get_bo_paddr env src_hdl src_off sz in
      let dst := get_bo_paddr env dst_hdl dst_off sz in
      let import := let err := copy_import_bo env m in if err <? 0 then CopyError err else CopyDone in
      match src, dst with
      | inl e, _ => if negb (e =? - EADDRNOTAVAIL) then CopyError e else
          match dst with inl e' => if negb (e' =? - EADDRNOTAVAIL) then CopyError e' else CopyError (- EINVAL) | inr _ => import end
      | inr _, inl e' => if negb (e' =? - EADDRNOTAVAIL) then CopyError e' else import
      | inr src_addr, inr dst_addr =>
          if num_cdma env =? 0 then CopyError (- EINVAL) else
          if negb (u64 (dst_addr + dst_off) mod KDMA_BLOCK_SIZE =? 0) || negb (u64 (src_addr + src_off) mod KDMA_BLOCK_SIZE =? 0) || negb (sz mod KDMA_BLOCK_SIZE =? 0)
          then CopyError (- EINVAL) else
          CopyStart (ert_fill_copybo_cmd 0 0 src_addr dst_addr (sz / KDMA_BLOCK_SIZE) m ≫= fun m1 =>
            mask_cdma (Z.to_nat (num_cdma env)) (num_cus env - num_cdma env) m1 ≫= fun m2 =>
            store 0 (set_type ERT_CU (set_opcode ERT_START_CU (header m2))) m2 ≫= start_krnl_ecmd2xcmd t cap)
      end
  | _ => CopyStart None
  end.

(** ** Commands for a remote scheduler *)

Definition XGQ_CMD_OP_START_CUIDX : Z := 0x100.
Definition XGQ_CMD_OP_START_CUIDX_KV : Z := 0x102.
Definition XGQ_CMD_OP_CLOCK_CALIB : Z := 0x10c.
Definition XGQ_CMD_OP_ACCESS_VALID : Z := 0x10d.
Definition XGQ_CMD_OP_DATA_INTEGRITY : Z := 0x10e.
Definition DOMAIN_PL : Z := 0.
Definition DOMAIN_PS : Z := 1.

(** [xgq_cmd_sq_hdr] of a new entry: two words. *)
Definition xgq_cmd_sq_hdr (opc count domain : Z) : list Z :=
  [Z.lor opc (Z.lor (Z.shiftl (count mod 2 ^ 15) 16) (Z.shiftl 1 31)); Z.shiftl domain 28].

(** What the conversions of start commands share: the header of the entry, and the payload of the
    packet without its first [skip] words, go to a payload of [cap] words. *)
Definition xgq_exec_convert_start (opc domain skip cap : Z) (m : list Z) : option (list Z * Z) :=
  let size := 4 * (pcount m - (1 + pextra m) - skip) in
  let from := 8 + 4 * (skip + pextra m) in
  if (0 <=? size) && (from + size <=? Z.of_nat (length m)) && (8 + size <=? 4 * cap)
  then Some (xgq_cmd_sq_hdr opc size domain ++ words_at m (Z.to_nat from) (Z.to_nat (size / 4)) ++ replicate (Z.to_nat (cap - 2 - size / 4)) 0, 8 + size) else None.

Definition xgq_exec_convert_start_cu_cmd (cap : Z) (m : list Z) : option (list Z * Z) := xgq_exec_convert_start XGQ_CMD_OP_START_CUIDX DOMAIN_PL 4 cap m.
Definition xgq_exec_convert_start_scu_cmd (cap : Z) (m : list Z) : option (list Z * Z) := xgq_exec_convert_start XGQ_CMD_OP_START_CUIDX DOMAIN_PS 0 cap m.
Definition xgq_exec_convert_start_kv_cu_cmd (cap : Z) (m : list Z) : option (list Z * Z) := xgq_exec_convert_start XGQ_CMD_OP_START_CUIDX_KV 0 0 cap m.

(** An entry that is only a header; [isize] is the size that the command is given. *)
Definition xgq_exec_convert_hdr (opc cap isize : Z) (m : list Z) : option (list Z * Z) :=
  if 8 <=? 4 * cap then Some (xgq_cmd_sq_hdr opc (4 * pcount m) 0 ++ replicate (Z.to_nat (cap - 2)) 0, isize) else None.

Definition xgq_exec_convert_clock_calib_cmd (cap : Z) (m : list Z) : option (list Z * Z) := xgq_exec_convert_hdr XGQ_CMD_OP_CLOCK_CALIB cap (8 + 4 * pcount m) m.
Definition xgq_exec_convert_accessible_cmd (cap : Z) (m : list Z) : option (list Z * Z) := xgq_exec_convert_hdr XGQ_CMD_OP_ACCESS_VALID cap (8 + 4 * pcount m) m.
Definition xgq_exec_convert_data_integrity_cmd (cap : Z) (m : list Z) : option (list Z * Z) := xgq_exec_convert_hdr XGQ_CMD_OP_DATA_INTEGRITY cap 16 m.

(** A start command with the masks of the packet, and one without masks. *)
Definition xgq_started (t : kds_type) (op : kds_opcode) (conv : list Z -> option (list Z * Z)) (m : list Z) : option exec_cmd :=
  load_data (seqZ 0 (1 + pextra m)) m ≫= fun masks => conv m ≫= fun '(l, isize) => Some (ExecCmd t op REGMAP masks l isize (stat_enabled m)).
Definition xgq_plain (op : kds_opcode) (conv : list Z -> option (list Z * Z)) (m : list Z) : option exec_cmd :=
  conv m ≫= fun '(l, isize) => Some (ExecCmd KDS_ERT op REGMAP [] l isize false).

Definition xocl_fill_payload_xgq (k : settings) (env : copy_env) (m : list Z) : exec_outcome :=
  let op := popcode m in
  let cap := pcount m in
  if (op =? ERT_CONFIGURE) || (op =? ERT_SK_CONFIG) then Completed else
  if op =? ERT_SK_START then add_or_fault (xgq_started KDS_SCU OP_START_SK (xgq_exec_convert_start_scu_cmd cap) m) else
  if op =? ERT_START_CU then add_or_fault (xgq_started KDS_CU OP_START (xgq_exec_convert_start_cu_cmd cap) m) else
  if op =? ERT_CLK_CALIB then add_or_fault (xgq_plain OP_CLK_CALIB (xgq_exec_convert_clock_calib_cmd cap) m) else
  if op =? ERT_ACCESS_TEST_C then add_or_fault (xgq_plain OP_VALIDATE (xgq_exec_convert_data_integrity_cmd cap) m) else
  if op =? ERT_MB_VALIDATE then add_or_fault (xgq_plain OP_VALIDATE (xgq_exec_convert_accessible_cmd cap) m) else
  if (op =? ERT_EXEC_WRITE) || (op =? ERT_START_KEY_VAL) then
    add_or_fault ((if negb (ps_sched_on k) && (op =? ERT_EXEC_WRITE) then convert_exec_write2key_val m else Some m) ≫= xgq_started KDS_CU OP_START (xgq_exec_convert_start_kv_cu_cmd cap)) else
  if op =? ERT_START_COPYBO then
    match copybo_ecmd2xcmd env KDS_CU cap m with CopyError e => Invalid e | CopyDone => Completed | CopyStart (Some _) => Dropped | CopyStart None => Fault end else
  Invalid (- EINVAL).

(** [xocl_command_ioctl] for a valid packet. *)
Definition xocl_command (k : settings) (env : copy_env) (m : list Z) : exec_outcome :=
  let op := popcode m in
  let cap := pcount m in
  let t := if ert_disable k then KDS_CU else KDS_ERT in
  if xgq_enable k then xocl_fill_payload_xgq k env m else
  if (op =? ERT_CONFIGURE) || (op =? ERT_SK_CONFIG) then Completed else
  if op =? ERT_START_CU then add_or_fault (start_krnl_ecmd2xcmd t cap m) else
  if op =? ERT_EXEC_WRITE then add_or_fault ((if ps_sched_on k then Some m else convert_exec_write2key_val m) ≫= start_krnl_kv_ecmd2xcmd t cap) else
  if op =? ERT_START_KEY_VAL then add_or_fault (start_krnl_kv_ecmd2xcmd t cap m) else
  if op =? ERT_START_FA then add_or_fault (start_fa_ecmd2xcmd cap m) else
  if op =? ERT_START_COPYBO then
    match copybo_ecmd2xcmd env t cap m with CopyError e => Invalid e | CopyDone => Completed | CopyStart o => add_or_fault o end else
  if op =? ERT_SK_START then (if ert_disable k then Invalid (- EINVAL) else add_or_fault (start_skrnl_ecmd2xcmd t cap m)) else
  if op =? ERT_CLK_CALIB then Add (plain t OP_CLK_CALIB cap) else
  if (op =? ERT_MB_VALIDATE) || (op =? ERT_ACCESS_TEST_C) then Add (plain t OP_VALIDATE cap) else
  if op =? ERT_CU_STAT then Add (plain t OP_GET_STAT cap) else
  if op =? ERT_ABORT then add_or_fault (abort_ecmd2xcmd t cap m) else
  Invalid (- EINVAL).

(** The command of the scheduler. *)
Definition kds_command_of (cl : nat) (handle : Z) (c : exec_cmd) : kds_command :=
  KdsCommand cl KDS_NEW (e_opcode c) (e_payload c) (e_info c) (e_isize c) handle (e_timestamps c) (replicate 8 0).

(** * CU masks *)

(** The loop over the bits of mask [i]; a mask has 32 of them. *)
Fixpoint mask_bits (n : nat) (i j mask : Z) : list Z :=
  match n with
  | O => []
  | S n' =>
      if mask =? 0 then [] else
      if Z.land mask 1 =? 0 then mask_bits n' i (j + 1) (Z.shiftr mask 1)
      else u8 (i * 32 + j) :: mask_bits n' i (j + 1) (Z.shiftr mask 1)
  end.

Fixpoint masks_to_idx (i : Z) (masks : list Z) : list Z :=
  match masks with [] => [] | mask :: l => mask_bits 32 i 0 mask ++ masks_to_idx (i + 1) l end.

Definition cu_mask_to_cu_idx (masks : list Z) : list Z := masks_to_idx 0 masks.

(** * A valid packet *)

Definition driver_copy (orig : list Z) : list Z :=
  let orig' := set_word 0 (set_state ERT_CMD_STATE_NEW (header orig)) orig in
  let pkg_size := 4 + 4 * pcount orig' in
  take (Z.to_nat pkg_size) orig' ++ replicate (Z.to_nat (Z.of_nat (length orig') - pkg_size)) 0.

Lemma copy_cases k orig o m :
  copy_and_validate_execbuf k orig = (o, Some m) ->
  m = driver_copy orig /\ 4 + 4 * pcount o <= Z.of_nat (length o) /\ o = set_word 0 (set_state ERT_CMD_STATE_NEW (header orig)) orig /\
  ert_valid_opcode m = true /\ get_size_with_timestamps_or_zero m <= Z.of_nat (length o).
Proof.
  unfold copy_and_validate_execbuf. cbv zeta. fold (driver_copy orig). set (o' := set_word 0 _ orig).
  destruct (Z.ltb_spec (Z.of_nat (length o')) (4 + 4 * pcount o')); [by intros [=]|].
  destruct (ert_valid_opcode (driver_copy orig)) eqn:Ev; cbn [negb]; [|by intros [=]].
  destruct (Z.ltb_spec (Z.of_nat (length o')) (get_size_with_timestamps_or_zero (driver_copy orig))); [by intros [=]|].
  destruct (xgq_enable k); [intros [= <- <-]; done|].
  destruct (slot_size k) as [n|]; [destruct ((0 <? n) && (n <? 4 + 4 * pcount o')); [by intros [=]|]|]; intros [= <- <-]; done.
Qed.

Lemma pcount_range m : 0 <= pcount m < 2048.
Proof. apply (get_bits_range 12 11). lia. Qed.

Lemma pextra_range m : 0 <= pextra m < 4.
Proof. apply (get_bits_range 10 2). lia. Qed.

Section copy.
Context (orig : list Z) (Hb : bytes orig) (Hl : 4096 <= Z.of_nat (length orig)).
Let o := set_word 0 (set_state ERT_CMD_STATE_NEW (header orig)) orig.

Lemma new_header_range : 0 <= set_state ERT_CMD_STATE_NEW (header orig) < 2 ^ 32.
Proof. apply set_field_range; [lia..|]. by apply header_range. Qed.

Lemma copy_orig_header : header o = set_state ERT_CMD_STATE_NEW (header orig).
Proof. unfold header, o. apply word_at_set_word; [lia|apply new_header_range]. Qed.

Lemma copy_orig_count : pcount o = pcount orig.
Proof. unfold pcount. rewrite copy_orig_header. by fields. Qed.

Hypothesis Hfit : 4 + 4 * pcount orig <= Z.of_nat (length orig).

Lemma copy_length : length (driver_copy orig) = length orig.
Proof.
  unfold driver_copy. cbv zeta. fold o. rewrite copy_orig_count, length_app, length_take, length_replicate. unfold o. rewrite length_set_word. pose proof (pcount_range orig). lia.
Qed.

Lemma copy_byte i : (i < Z.to_nat (4 + 4 * pcount orig))%nat -> byte_at (driver_copy orig) i = byte_at o i.
Proof.
  intros Hi. unfold driver_copy, byte_at. cbv zeta. fold o. rewrite copy_orig_count. rewrite lookup_app_l by (rewrite length_take; unfold o; rewrite length_set_word; lia).
  by rewrite lookup_take_lt.
Qed.

Lemma copy_header : header (driver_copy orig) = set_state ERT_CMD_STATE_NEW (header orig).
Proof. rewrite <- copy_orig_header. unfold header. apply word_at_ext. intros i Hi. apply copy_byte. pose proof (pcount_range orig). lia. Qed.

Lemma copy_word p : (4 <= p)%nat -> (p + 4 <= Z.to_nat (4 + 4 * pcount orig))%nat -> word_at (driver_copy orig) p = word_at orig p.
Proof.
  intros Hp Hq. transitivity (word_at o p); [apply word_at_ext; intros i Hi; apply copy_byte; lia|]. unfold o. apply word_at_set_word_ne; lia.
Qed.

Lemma copy_bytes : bytes (driver_copy orig).
Proof.
  unfold driver_copy. cbv zeta. apply Forall_app. split; [apply Forall_take, bytes_set_word; [lia|done]|]. apply Forall_replicate. lia.
Qed.

Lemma copy_fields : pcount (driver_copy orig) = pcount orig /\ pextra (driver_copy orig) = pextra orig /\ popcode (driver_copy orig) = popcode orig /\ stat_enabled (driver_copy orig) = stat_enabled orig.
Proof. unfold pcount, pextra, popcode, stat_enabled. rewrite copy_header. by fields. Qed.
End copy.

(** * Conversions stay in bounds *)

Lemma load_ok m p : 0 <= p -> p + 4 <= Z.of_nat (length m) -> load m p = Some (word_at m (Z.to_nat p)).
Proof. intros H1 H2. unfold load. by rewrite (proj2 (Z.leb_le _ _) H1), (proj2 (Z.leb_le _ _) H2). Qed.

Lemma store_ok p v m : 0 <= p -> p + 4 <= Z.of_nat (length m) -> store p v m = Some (set_word (Z.to_nat p) v m).
Proof. intros H1 H2. unfold store. by rewrite (proj2 (Z.leb_le _ _) H1), (proj2 (Z.leb_le _ _) H2). Qed.

Lemma load_data_ok l m : Forall (fun i => 0 <= i /\ 8 + 4 * i <= Z.of_nat (length m)) l -> load_data l m = Some ((fun i => pdata m i) <$> l).
Proof.
  induction 1 as [|i l [H1 H2] _ IH]; [done|]. unfold load_data in *. cbn. rewrite load_ok by lia. cbn. by rewrite IH.
Qed.

Lemma load_masks_ok m : 4 + 4 * pcount m <= Z.of_nat (length m) -> 1 + pextra m <= pcount m ->
  load_data (seqZ 0 (1 + pextra m)) m = Some ((fun i => pdata m i) <$> seqZ 0 (1 + pextra m)).
Proof. intros Hf Hv. apply load_data_ok, Forall_forall. intros i ?%elem_of_seqZ. lia. Qed.

(** Stores behind the header. *)
Lemma header_store p v m : 4 <= p -> p + 4 <= Z.of_nat (length m) -> header (set_word (Z.to_nat p) v m) = header m.
Proof. intros. unfold header. apply word_at_set_word_ne; lia. Qed.

Lemma store_all_ok l m :
  Forall (fun q => 4 <= fst q /\ fst q + 4 <= Z.of_nat (length m)) l ->
  exists m', store_all l m = Some m' /\ length m' = length m /\ header m' = header m.
Proof.
  revert m. induction l as [|[p v] l IH]; intros m Hl; cbn [store_all]; [by exists m|]. inversion Hl as [|? ? [H1 H2] Hl']; subst. cbn in H1, H2.
  rewrite store_ok by lia. cbn. destruct (IH (set_word (Z.to_nat p) v m)) as (m' & -> & L & Hh); [by rewrite length_set_word|].
  exists m'. rewrite L, length_set_word, Hh, header_store by lia. done.
Qed.

Lemma start_in_bounds t op p skip cap m :
  0 <= skip -> 4 + 4 * pcount m <= Z.of_nat (length m) -> 1 + pextra m + skip <= pcount m -> pcount m <= cap ->
  is_Some (start_ecmd2xcmd t op p skip cap m).
Proof.
  intros Hs Hf Hv Hc. pose proof (pcount_range m). pose proof (pextra_range m). unfold start_ecmd2xcmd, memcpy_info. rewrite u32_small, load_masks_ok by lia. cbn.
  rewrite (proj2 (Z.leb_le _ _)), (proj2 (Z.leb_le _ _)) by lia. by eexists.
Qed.

Lemma shift_words_ok n i m :
  0 <= i -> 8 + 4 * (i + 6 + Z.of_nat n) <= Z.of_nat (length m) ->
  exists m', shift_words n i m = Some m' /\ length m' = length m /\ header m' = header m.
Proof.
  revert i m. induction n as [|n IH]; intros i m Hi Hl; cbn [shift_words]; [by exists m|]. rewrite load_ok by lia. cbn [mbind option_bind]. rewrite store_ok by lia. cbn [mbind option_bind].
  destruct (IH (i + 1) (set_word (Z.to_nat (8 + 4 * i)) (word_at m (Z.to_nat (8 + 4 * (i + 6)))) m)) as (m' & -> & L & Hh); [lia|rewrite length_set_word; lia|].
  exists m'. rewrite L, length_set_word, Hh, header_store by lia. done.
Qed.

Lemma exec_write_converted m :
  bytes m -> 4 + 4 * pcount m <= Z.of_nat (length m) -> pextra m + 1 + 6 <= pcount m ->
  exists m', convert_exec_write2key_val m = Some m' /\ length m' = length m /\ pcount m' = pcount m - 6 /\ pextra m' = pextra m.
Proof.
  intros Hb Hf Hv. pose proof (pcount_range m) as Hc. pose proof (pextra_range m) as He. unfold convert_exec_write2key_val.
  destruct (shift_words_ok (Z.to_nat (pcount m - 7 - pextra m)) (pextra m) m) as (m1 & -> & Hl & Hh); [lia|lia|]. cbn [mbind option_bind].
  rewrite store_ok by lia. eexists. split; [done|]. rewrite length_set_word. split; [done|].
  assert (0 <= set_count (pcount m - 6) (header m1) < 2 ^ 32) as Hr by (rewrite Hh; apply set_field_range; [lia..|by apply header_range]).
  assert (header (set_word (Z.to_nat 0) (set_count (pcount m - 6) (header m1)) m1) = set_count (pcount m - 6) (header m)) as E by (unfold header at 1; rewrite word_at_set_word by (lia || done); by rewrite Hh).
  unfold pcount, pextra in *. rewrite E. by fields.
Qed.

(** ** Copies *)

(** A device has at most 128 compute units. *)
Definition cus_ok (env : copy_env) : Prop := 0 <= num_cdma env <= num_cus env /\ num_cus env <= 128.

Lemma mask_cdma_ok n i m :
  4096 <= Z.of_nat (length m) -> 0 <= i -> i + Z.of_nat n <= 128 ->
  exists m', mask_cdma n i m = Some m' /\ length m' = length m /\ header m' = header m.
Proof.
  revert i m. induction n as [|n IH]; intros i m Hl Hi Hn; cbn [mask_cdma]; [by exists m|].
  assert (0 <= i / 32 < 4) by (split; [apply Z.div_pos; lia|apply Z.div_lt_upper_bound; lia]). rewrite load_ok by lia. cbn [mbind option_bind]. rewrite store_ok by lia. cbn [mbind option_bind].
  set (m1 := set_word _ _ m). assert (length m1 = length m) as L1 by apply length_set_word. destruct (IH (i + 1) m1) as (m' & -> & L & Hh); [lia|lia|lia|]. exists m'. unfold m1 in *. rewrite L, L1, Hh, header_store by lia. done.
Qed.

Lemma fill_copybo_ok sb db so d sz m :
  bytes m -> 4096 <= Z.of_nat (length m) ->
  exists m', ert_fill_copybo_cmd sb db so d sz m = Some m' /\ length m' = length m /\ 0 <= header m' < 2 ^ 32 /\ pcount m' = 16 /\ pextra m' = 3.
Proof.
  intros Hb Hl. unfold ert_fill_copybo_cmd. cbv zeta. set (h := set_type _ _). cbn [app store_all]. rewrite store_ok by lia. cbn [mbind option_bind].
  assert (0 <= h < 2 ^ 32) as Hr by (unfold h; repeat (apply set_field_range; [lia..|]); by apply header_range).
  assert (header (set_word (Z.to_nat 0) h m) = h) as Hh by (unfold header; apply word_at_set_word; [lia|done]).
  match goal with |- context [store_all ?l ?x] => destruct (store_all_ok l x) as (m' & -> & L & E) end.
  { rewrite length_set_word. repeat (apply Forall_cons; split; [cbn; lia|]). apply Forall_nil. done. }
  exists m'. rewrite L, length_set_word. unfold pcount, pextra. rewrite E, Hh. clear -Hr. split_and!; [done|done|apply Hr|apply Hr|unfold h; clear; by fields|unfold h; clear; by fields].
Qed.

Lemma copybo_in_bounds env t cap m :
  cus_ok env -> bytes m -> 4096 <= Z.of_nat (length m) -> 16 <= cap -> copybo_ecmd2xcmd env t cap m <> CopyStart None.
Proof.
  intros [H1 H2] Hb Hl Hc. unfold copybo_ecmd2xcmd. rewrite load_data_ok by (repeat (apply Forall_cons; split; [lia|]); by apply Forall_nil). cbn [fmap list_fmap].
  set (src := get_bo_paddr _ _ _ _). set (dst := get_bo_paddr _ _ _ _). destruct src as [e|a], dst as [e'|a']; try (by repeat case_match).
  destruct (_ =? 0); [done|]. destruct (_ || _); [done|]. intros [= HF]. revert HF.
  destruct (fill_copybo_ok 0 0 a a' (pdata m 14 / KDMA_BLOCK_SIZE) m Hb Hl) as (m1 & -> & L1 & R1 & C1 & X1). cbn [mbind option_bind].
  destruct (mask_cdma_ok (Z.to_nat (num_cdma env)) (num_cus env - num_cdma env) m1) as (m2 & -> & L2 & E2); [lia..|]. cbn [mbind option_bind]. rewrite store_ok by lia. cbn [mbind option_bind].
  set (h := set_type _ _). set (m3 := set_word _ h m2). assert (0 <= h < 2 ^ 32) as Hr by (unfold h; rewrite E2; repeat (apply set_field_range; [lia..|]); done).
  assert (header m3 = h) as Hh by (unfold header, m3; apply word_at_set_word; [lia|done]).
  assert (pcount m3 = 16 /\ pextra m3 = 3) as [C3 X3] by (unfold pcount, pextra in *; rewrite Hh; unfold h; rewrite E2; by fields).
  assert (length m3 = length m2) as L3 by apply length_set_word.
  destruct (start_in_bounds t OP_START REGMAP 4 cap m3) as [c Hs]; [lia..|]. unfold start_krnl_ecmd2xcmd. by rewrite Hs.
Qed.

(** ** Commands for a remote scheduler *)

Lemma xgq_start_faults t op opc dom skip cap m :
  4 + 4 * pcount m <= Z.of_nat (length m) -> 0 <= skip -> 1 + pextra m + skip <= pcount m ->
  add_or_fault (xgq_started t op (xgq_exec_convert_start opc dom skip cap) m) = Fault <-> cap < pcount m + 1 - pextra m - skip.
Proof.
  intros Hf Hs Hv. pose proof (pextra_range m). unfold xgq_started. rewrite load_masks_ok by lia. cbn [mbind option_bind]. unfold xgq_exec_convert_start.
  rewrite (proj2 (Z.leb_le 0 _)), (proj2 (Z.leb_le _ (Z.of_nat (length m)))) by lia. cbn [andb].
  destruct (Z.leb_spec (8 + 4 * (pcount m - (1 + pextra m) - skip)) (4 * cap)); cbn; (split; intros ?; [try discriminate|]; done || lia).
Qed.

Lemma xgq_plain_faults op conv opc cap isize m :
  conv m = xgq_exec_convert_hdr opc cap isize m -> add_or_fault (xgq_plain op conv m) = Fault <-> cap < 2.
Proof. unfold xgq_plain, xgq_exec_convert_hdr. intros ->. destruct (Z.leb_spec 8 (4 * cap)); cbn; (split; intros ?; [try discriminate|]; done || lia). Qed.

(** Where the driver writes outside the payload of a command. *)
Definition overruns (k : settings) (m : list Z) : Prop :=
  if xgq_enable k then
    (popcode m ∈ [ERT_CLK_CALIB; ERT_ACCESS_TEST_C; ERT_MB_VALIDATE] /\ pcount m < 2) \/
    ((popcode m ∈ [ERT_SK_START; ERT_START_KEY_VAL] \/ (popcode m = ERT_EXEC_WRITE /\ ps_sched_on k = true)) /\ pextra m = 0)
  else popcode m = ERT_ABORT /\ pcount m = 0.

Lemma kds_faults k env m :
  bytes m -> 4096 <= Z.of_nat (length m) -> cus_ok env -> 4 + 4 * pcount m <= Z.of_nat (length m) -> ert_valid_opcode m = true -> xgq_enable k = false ->
  xocl_command k env m = Fault <-> popcode m = ERT_ABORT /\ pcount m = 0.
Proof.
  intros Hb Hl He Hf Hv Hx. unfold xocl_command. rewrite Hx.
  assert (forall t op p skip cap x, 0 <= skip -> 4 + 4 * pcount x <= Z.of_nat (length x) -> 1 + pextra x + skip <= pcount x -> pcount x <= cap -> add_or_fault (start_ecmd2xcmd t op p skip cap x) <> Fault) as Hs.
  { intros t op p skip cap x A1 A2 A3 A4. destruct (start_in_bounds t op p skip cap x A1 A2 A3 A4) as [c ->]. done. }
  pose proof (exec_write_converted m Hb Hf) as Hw. pose proof (copybo_in_bounds env (if ert_disable k then KDS_CU else KDS_ERT) (pcount m) m He Hb Hl) as Hcp. unfold ert_valid_opcode in Hv. cbv zeta in *. remember (popcode m) as op eqn:Eop. clear Eop.
  split.
  - intros HF. destruct (Z.eqb_spec op ERT_ABORT) as [Ea|Ea].
    + split; [done|]. rewrite Ea in HF. cbn in HF. unfold abort_ecmd2xcmd in HF. rewrite load_ok in HF by lia. cbn [mbind option_bind] in HF. destruct (Z.eqb_spec (pcount m) 0); done.
    + exfalso. revert HF Hv.
      destruct (Z.eqb_spec op ERT_CONFIGURE) as [->|N1]; [done|]. destruct (Z.eqb_spec op ERT_SK_CONFIG) as [->|N2]; [done|]. cbn [orb].
      destruct (Z.eqb_spec op ERT_START_CU) as [->|N3]; [intros HF Hv%Z.leb_le; revert HF; apply Hs; lia|].
      destruct (Z.eqb_spec op ERT_EXEC_WRITE) as [->|N4].
      { intros HF Hv. cbn in Hv. apply Z.leb_le in Hv. destruct (Hw Hv) as (m' & W0 & W1 & W2 & W3). revert HF. rewrite W0. destruct (ps_sched_on k); cbn [mbind option_bind]; apply Hs; lia. }
      destruct (Z.eqb_spec op ERT_START_KEY_VAL) as [->|N5]; [intros HF Hv; cbn in Hv; apply Z.leb_le in Hv; revert HF; apply Hs; lia|].
      destruct (Z.eqb_spec op ERT_START_FA) as [->|N6]; [intros HF Hv; cbn in Hv; apply Z.leb_le in Hv; revert HF; apply Hs; lia|].
      destruct (Z.eqb_spec op ERT_START_COPYBO) as [->|N7].
      { intros HF Hv. cbn in Hv. apply Z.eqb_eq in Hv. specialize (Hcp ltac:(lia)). destruct (copybo_ecmd2xcmd _ _ _ _) as [| |[c|]]; done. }
      destruct (Z.eqb_spec op ERT_SK_START) as [->|N8]; [intros HF Hv; cbn in Hv; apply Z.leb_le in Hv; revert HF; destruct (ert_disable k); [done|apply Hs; lia]|].
      repeat case_match; done.
  - intros [-> Ec]. cbn. unfold abort_ecmd2xcmd. rewrite load_ok by lia. cbn [mbind option_bind]. by rewrite Ec.
Qed.

Lemma xgq_faults k env m :
  bytes m -> 4096 <= Z.of_nat (length m) -> cus_ok env -> 4 + 4 * pcount m <= Z.of_nat (length m) -> ert_valid_opcode m = true ->
  xocl_fill_payload_xgq k env m = Fault <->
    (popcode m ∈ [ERT_CLK_CALIB; ERT_ACCESS_TEST_C; ERT_MB_VALIDATE] /\ pcount m < 2) \/
    ((popcode m ∈ [ERT_SK_START; ERT_START_KEY_VAL] \/ (popcode m = ERT_EXEC_WRITE /\ ps_sched_on k = true)) /\ pextra m = 0).
Proof.
  intros Hb Hl He Hf Hv. pose proof (pextra_range m) as Hex. unfold xocl_fill_payload_xgq.
  pose proof (exec_write_converted m Hb Hf) as Hw. pose proof (copybo_in_bounds env KDS_CU (pcount m) m He Hb Hl) as Hcp. unfold ert_valid_opcode in Hv. cbv zeta in *. remember (popcode m) as op eqn:Eop. clear Eop.
  assert (forall l, (op ∈ l) <-> existsb (Z.eqb op) l = true) as Hin.
  { intros l. rewrite existsb_exists. setoid_rewrite Z.eqb_eq. setoid_rewrite list_elem_of_In. naive_solver. }
  rewrite !Hin. clear Hin. revert Hv.
  destruct (Z.eqb_spec op ERT_CONFIGURE) as [->|N1]; [cbn; naive_solver|]. destruct (Z.eqb_spec op ERT_SK_CONFIG) as [->|N2]; [cbn; naive_solver|]. cbn [orb].
  destruct (Z.eqb_spec op ERT_SK_START) as [->|N3].
  { intros Hv. cbn in Hv |- *. apply Z.leb_le in Hv. unfold xgq_exec_convert_start_scu_cmd. rewrite xgq_start_faults by lia. split; [intros; right; split; [by left|lia]|intros [[? _]|[_ ?]]; [done|lia]]. }
  destruct (Z.eqb_spec op ERT_START_CU) as [->|N4].
  { intros Hv%Z.leb_le. unfold xgq_exec_convert_start_cu_cmd. rewrite xgq_start_faults by lia. cbn. split; [lia|]. intros [[? _]|[[?|[? _]] _]]; done. }
  destruct (Z.eqb_spec op ERT_CLK_CALIB) as [->|N5]; [intros _; rewrite (xgq_plain_faults _ (xgq_exec_convert_clock_calib_cmd (pcount m)) _ _ _ m eq_refl); cbn; naive_solver|].
  destruct (Z.eqb_spec op ERT_ACCESS_TEST_C) as [->|N6]; [intros _; rewrite (xgq_plain_faults _ (xgq_exec_convert_data_integrity_cmd (pcount m)) _ _ _ m eq_refl); cbn; naive_solver|].
  destruct (Z.eqb_spec op ERT_MB_VALIDATE) as [->|N7]; [intros _; rewrite (xgq_plain_faults _ (xgq_exec_convert_accessible_cmd (pcount m)) _ _ _ m eq_refl); cbn; naive_solver|].
  destruct (Z.eqb_spec op ERT_EXEC_WRITE) as [->|N8].
  { intros Hv. cbn in Hv. apply Z.leb_le in Hv. destruct (Hw Hv) as (m' & W0 & W1 & W2 & W3). rewrite W0. cbn [orb]. unfold xgq_exec_convert_start_kv_cu_cmd. destruct (ps_sched_on k); cbn [negb andb mbind option_bind Z.eqb ERT_EXEC_WRITE Pos.eqb].
    - rewrite xgq_start_faults by lia. cbn. split; [intros; right; split; [by right|lia]|intros [[? _]|[_ ?]]; [done|lia]].
    - rewrite xgq_start_faults by lia. cbn. split; [lia|]. intros [[? _]|[[?|[_ ?]] _]]; done. }
  destruct (Z.eqb_spec op ERT_START_KEY_VAL) as [->|N9].
  { intros Hv. cbn in Hv. apply Z.leb_le in Hv. cbn [orb andb]. rewrite andb_false_r. cbn [mbind option_bind]. unfold xgq_exec_convert_start_kv_cu_cmd. rewrite xgq_start_faults by lia. cbn. split; [intros; right; split; [by left|lia]|intros [[? _]|[_ ?]]; [done|lia]]. }
  cbn [existsb orb]. rewrite (proj2 (Z.eqb_neq op ERT_CLK_CALIB)), (proj2 (Z.eqb_neq op ERT_ACCESS_TEST_C)), (proj2 (Z.eqb_neq op ERT_MB_VALIDATE)), (proj2 (Z.eqb_neq op ERT_SK_START)), (proj2 (Z.eqb_neq op ERT_START_KEY_VAL)) by done. cbn [orb].
  destruct (Z.eqb_spec op ERT_START_COPYBO) as [->|N10]; [|naive_solver].
  intros Hv. cbn in Hv. apply Z.eqb_eq in Hv. specialize (Hcp ltac:(lia)). destruct (copybo_ecmd2xcmd _ _ _ _) as [| |[c|]]; naive_solver.
Qed.

(** C31: The conversion of a packet that the driver accepts to a command, whatever an application has put in
    the packet: every read and write of the conversion is within the copy of the packet and within the
    payload that has been allocated for the command, exactly except in two cases.  Without XGQ, a request to abort a
    command without any words has a null pointer as its payload.  With XGQ, the header of a queue entry does not fit a payload of
    less than two words, and the entry of a start command with pairs or of a soft kernel is one word too long when the
    packet has one CU mask. *)
Theorem exec_in_bounds k env orig o m :
  bytes orig -> 4096 <= Z.of_nat (length orig) -> cus_ok env -> copy_and_validate_execbuf k orig = (o, Some m) ->
  xocl_command k env m = Fault <-> overruns k m.
Proof.
  intros Hb Hl He Hc. destruct (copy_cases k orig o m Hc) as (-> & Hf & -> & Hv & _). rewrite copy_orig_count, length_set_word in Hf by done.
  pose proof (copy_length orig Hb Hl) as Hlen. pose proof (copy_bytes orig Hb Hl) as Hbm. destruct (copy_fields orig Hb Hl Hf) as (E1 & _). rewrite <- E1, <- Hlen in Hf. rewrite <- Hlen in Hl.
  set (m := driver_copy orig) in *. clearbody m. clear Hc E1 Hlen. unfold overruns. destruct (xgq_enable k) eqn:Hx; [|by apply kds_faults]. unfold xocl_command. rewrite Hx. by apply xgq_faults.
Qed.


(** The times that the driver writes behind an accepted packet of these kinds when it completes
    are in the buffer. *)
Lemma timestamps_fit k orig o m :
  bytes orig -> 4096 <= Z.of_nat (length orig) -> copy_and_validate_execbuf k orig = (o, Some m) -> stat_enabled orig = true ->
  popcode orig ∈ [ERT_START_CU; ERT_EXEC_WRITE; ERT_START_FA; ERT_SK_START] -> timestamps_offset o + timestamps_size <= Z.of_nat (length o).
Proof.
  intros Hb Hl Hc Hs Ho. destruct (copy_cases k orig o m Hc) as (-> & Hf & -> & _ & Ht). pose proof (copy_orig_count orig Hb Hl) as Eo. rewrite Eo, length_set_word in Hf.
  destruct (copy_fields orig Hb Hl Hf) as (E1 & _ & E3 & E4). unfold timestamps_offset in *. rewrite Eo. revert Ht. unfold get_size_with_timestamps_or_zero, timestamps_offset. cbv zeta. rewrite E1, E3, E4, Hs, andb_true_r.
  rewrite !elem_of_cons, elem_of_nil in Ho. destruct Ho as [-> | [-> | [-> | [-> | []]]]]; done.
Qed.

(** * CU masks *)

Lemma mask_bits_spec n i j mask :
  0 <= i -> 0 <= j -> 0 <= mask < 2 ^ Z.of_nat n -> i * 32 + j + Z.of_nat n <= 256 ->
  StronglySorted Z.lt (mask_bits n i j mask) /\ forall x, x ∈ mask_bits n i j mask <-> exists b, 0 <= b < Z.of_nat n /\ Z.testbit mask b = true /\ x = i * 32 + j + b.
Proof.
  revert j mask. induction n as [|n IH]; intros j mask Hi Hj Hm Hb; cbn [mask_bits]; [split; [constructor|]; intros x; split; [by intros ?%elem_of_nil|intros (b & ? & _); lia]|].
  destruct (Z.eqb_spec mask 0) as [->|Hne]; [split; [constructor|]; intros x; split; [by intros ?%elem_of_nil|intros (b & _ & E & _); by rewrite Z.testbit_0_l in E]|].
  assert (0 <= Z.shiftr mask 1 < 2 ^ Z.of_nat n) as Hm' by (rewrite Z.shiftr_div_pow2 by lia; rewrite Nat2Z.inj_succ, Z.pow_succ_r in Hm by lia; split; [apply Z.div_pos; lia|apply Z.div_lt_upper_bound; lia]).
  destruct (IH (j + 1) (Z.shiftr mask 1) Hi ltac:(lia) Hm' ltac:(lia)) as [IH1 IH2].
  assert (forall x, x ∈ mask_bits n i (j + 1) (Z.shiftr mask 1) <-> exists b, 1 <= b < Z.of_nat (S n) /\ Z.testbit mask b = true /\ x = i * 32 + j + b) as Hrest.
  { intros x. rewrite IH2. split; intros (b & B1 & B2 & B3); [exists (b + 1)|exists (b - 1)]; (split; [lia|]); rewrite ?testbit_shiftr in * by lia; (split; [|lia]); rewrite <- B2; f_equal; lia. }
  assert (Z.land mask 1 = b2z (Z.testbit mask 0)) as El. { change 1 with (Z.ones 1). rewrite Z.land_ones by lia. change (2 ^ 1) with 2. rewrite <- Z.bit0_mod. by destruct (Z.testbit mask 0). }
  rewrite El. destruct (Z.testbit mask 0) eqn:E0; cbn [b2z Z.eqb].
  - assert (u8 (i * 32 + j) = i * 32 + j) as -> by (unfold u8; apply Z.mod_small; lia). split.
    + constructor; [done|]. apply Forall_forall. intros x (b & ? & _ & ->)%Hrest. lia.
    + intros x. rewrite elem_of_cons, Hrest. split; [intros [->|(b & ? & ? & ->)]; [exists 0; split_and!; [lia|lia|done|lia]|by exists b; split_and!; try lia]|].
      intros (b & B1 & B2 & ->). destruct (Z.eq_dec b 0) as [->|]; [left; lia|right; exists b; split_and!; [lia|lia|done|done]].
  - split; [done|]. intros x. rewrite Hrest. split; intros (b & B1 & B2 & ->); exists b; (split; [|done]); [lia|]. destruct (Z.eq_dec b 0) as [->|]; [congruence|lia].
Qed.

Lemma sorted_app (l1 l2 : list Z) b : StronglySorted Z.lt l1 -> StronglySorted Z.lt l2 -> Forall (fun x => x < b) l1 -> Forall (fun x => b <= x) l2 -> StronglySorted Z.lt (l1 ++ l2).
Proof.
  intros H1 H2 F1 F2. induction H1 as [|x l1 H1 IH Hx]; [done|]. inversion F1; subst. cbn. constructor; [by apply IH|]. apply Forall_app. split; [done|]. eapply Forall_impl; [exact F2|]. cbn. lia.
Qed.

Lemma masks_to_idx_spec i masks :
  0 <= i -> Forall (fun w => 0 <= w < 2 ^ 32) masks -> i + Z.of_nat (length masks) <= 8 ->
  StronglySorted Z.lt (masks_to_idx i masks) /\
  forall x, x ∈ masks_to_idx i masks <-> i * 32 <= x < (i + Z.of_nat (length masks)) * 32 /\ Z.testbit (default 0 (masks !! Z.to_nat (x / 32 - i))) (x mod 32) = true.
Proof.
  intros Hi Hw. revert i Hi. induction Hw as [|w l Hw Hl IH]; intros i Hi Hlen; cbn [masks_to_idx length] in *; [split; [constructor|]; intros x; split; [by intros ?%elem_of_nil|lia]|].
  destruct (mask_bits_spec 32 i 0 w Hi ltac:(lia) Hw ltac:(lia)) as [S1 M1]. destruct (IH (i + 1) ltac:(lia) ltac:(lia)) as [S2 M2]. split.
  - apply (sorted_app _ _ ((i + 1) * 32)); [done|done| |]; apply Forall_forall; intros x Hx; [apply M1 in Hx as (b & ? & _ & ->); lia|apply M2 in Hx as [? _]; lia].
  - intros x. rewrite elem_of_app, M1, M2. split.
    + intros [(b & B1 & B2 & ->)|[B1 B2]]; (split; [lia|]).
      * replace (i * 32 + 0 + b) with (b + i * 32) by lia. rewrite Z.div_add, Z.div_small, Z.mod_add, Z.mod_small by lia. replace (Z.to_nat (0 + i - i)) with 0%nat by lia. done.
      * rewrite <- B2. f_equal. replace (Z.to_nat (x / 32 - i)) with (S (Z.to_nat (x / 32 - (i + 1)))); [done|]. assert (i + 1 <= x / 32) by (apply Z.div_le_lower_bound; lia). lia.
    + intros [B1 B2]. destruct (Z.ltb_spec x ((i + 1) * 32)) as [Hx|Hx].
      * left. assert (x / 32 = i) as E by (symmetry; apply (Z.div_unique _ _ _ (x - i * 32)); lia). rewrite E, Z.sub_diag in B2. cbn in B2. exists (x mod 32). pose proof (Z.div_mod x 32). pose proof (Z.mod_pos_bound x 32). split_and!; [lia|lia|done|lia].
      * right. split; [lia|]. rewrite <- B2. f_equal. assert (i + 1 <= x / 32) by (apply Z.div_le_lower_bound; lia). replace (Z.to_nat (x / 32 - i)) with (S (Z.to_nat (x / 32 - (i + 1)))) by lia. done.
Qed.

(** The indices of a packet are those of the bits of its masks, in order. *)
Lemma cu_mask_to_cu_idx_spec masks :
  Forall (fun w => 0 <= w < 2 ^ 32) masks -> (length masks <= 8)%nat ->
  StronglySorted Z.lt (cu_mask_to_cu_idx masks) /\
  forall x, x ∈ cu_mask_to_cu_idx masks <-> 0 <= x < 32 * Z.of_nat (length masks) /\ Z.testbit (default 0 (masks !! Z.to_nat (x / 32))) (x mod 32) = true.
Proof.
  intros Hw Hl. destruct (masks_to_idx_spec 0 masks ltac:(lia) Hw ltac:(lia)) as [S M]. split; [done|]. intros x. unfold cu_mask_to_cu_idx. rewrite M. replace (x / 32 - 0) with (x / 32) by lia. split; intros [? ?]; (split; [lia|done]).
Qed.

(** * Registers *)

(** The value that has been written to a register last. *)
Definition last_write (l : list access) (reg : Z) : option Z :=
  fold_left (fun o a => match a with Wr r v => if r =? reg then Some v else o | _ => o end) l None.

Lemma last_write_here l1 l2 reg v : (forall w, Wr reg w ∉ l2) -> last_write (l1 ++ Wr reg v :: l2) reg = Some v.
Proof.
  intros Hn. unfold last_write. rewrite fold_left_app. cbn. rewrite Z.eqb_refl. set (f := fun o a => _).
  induction l2 as [|a l2 IH]; [done|]. cbn [fold_left]. assert (f (Some v) a = Some v) as ->; [|apply IH; set_solver].
  destruct a as [r w|r w|]; try done. cbn. destruct (Z.eqb_spec r reg) as [->|]; [|done]. destruct (Hn w). set_solver.
Qed.

Lemma bus_writes l e : bus (cu_writes l e) = bus e ++ ((fun q => Wr (u32 (fst q)) (u32 (snd q))) <$> l).
Proof.
  unfold cu_writes. revert e. induction l as [|[reg val] l IH]; intros e; cbn; [by rewrite app_nil_r|]. rewrite IH. cbn. by rewrite <- app_assoc.
Qed.

Lemma consecutive_write past data n i e :
  0 <= i < n -> n < 1024 -> last_write (bus (cu_writes (consecutive past data 0 n) e) ++ [Wr CTRL CU_AP_START]) (ARGS + 4 * i) = Some (u32 (word past data i)).
Proof.
  intros Hi Hn. rewrite bus_writes. unfold consecutive. rewrite <- list_fmap_compose. set (g := _ ∘ _). set (reg := ARGS + 4 * i).
  assert ((g <$> seqZ 0 n) !! Z.to_nat i = Some (Wr reg (u32 (word past data i)))) as Hk.
  { rewrite list_lookup_fmap, (lookup_seqZ_lt 0 n (Z.to_nat i)) by lia. replace (0 + Z.of_nat (Z.to_nat i)) with i by lia. cbn. unfold g, reg, ARGS. cbn. rewrite u32_small by lia. f_equal. f_equal. lia. }
  rewrite <- (take_drop_middle _ _ _ Hk), <- !app_assoc. cbn. rewrite app_assoc. apply last_write_here. intros w. rewrite elem_of_app. intros [Hin|Hin].
  - apply list_elem_of_lookup in Hin as [x Hx]. rewrite lookup_drop, list_lookup_fmap in Hx. destruct (seqZ 0 n !! (S (Z.to_nat i) + x)%nat) as [y|] eqn:Ey; [|done]. apply lookup_seqZ in Ey as [-> ?]. cbn in Hx. injection Hx as E _.
    unfold reg, ARGS in E. rewrite u32_small in E by lia. lia.
  - apply list_elem_of_singleton in Hin. unfold reg, ARGS, CTRL in Hin. injection Hin as E _. lia.
Qed.

(** The fields of a start command. *)
Lemma start_fields t op p skip cap m :
  0 <= skip -> 4 + 4 * pcount m <= Z.of_nat (length m) -> 1 + pextra m + skip <= pcount m -> pcount m <= cap ->
  exists c, start_ecmd2xcmd t op p skip cap m = Some c /\ e_type c = t /\ e_opcode c = op /\ e_payload c = p /\
    e_isize c = 4 * (pcount m - (1 + pextra m) - skip) /\ cu_mask c = (fun i => pdata m i) <$> seqZ 0 (1 + pextra m) /\
    forall i, 0 <= i < pcount m - (1 + pextra m) - skip -> e_info c !! Z.to_nat i = Some (pdata m (1 + skip + pextra m + i)).
Proof.
  intros Hs Hf Hv Hc. pose proof (pcount_range m). pose proof (pextra_range m). unfold start_ecmd2xcmd, memcpy_info. rewrite u32_small, load_masks_ok by lia. cbn [mbind option_bind].
  rewrite (proj2 (Z.leb_le _ _)), (proj2 (Z.leb_le _ _)) by lia. eexists. split; [done|]. split_and!; cbn; try done; [lia|]. intros i Hi.
  rewrite Z.div_mul by lia. rewrite lookup_app_l by (rewrite length_words_at; lia). rewrite lookup_words_at by lia. unfold pdata. do 2 f_equal. lia.
Qed.

(** * From the host to the compute unit *)

(** The packet of a register map kernel is accepted, and becomes a start command with the
    register map behind the control registers, and the masks of the packet. *)
Lemma start_cu_command k env r :
  run_ok r -> setter_of (r_kernel r) = Some HS -> 4 <= k_regmap_size (r_kernel r) -> ert_disable k = true -> xgq_enable k = false -> slot_size k = None ->
  stat_enabled (buf r) = false \/ timestamps_offset (buf r) + timestamps_size <= allocation_size ->
  exists o m c, copy_and_validate_execbuf k (buf r) = (o, Some m) /\ xocl_command k env m = Add c /\
    e_type c = KDS_CU /\ e_opcode c = OP_START /\ e_payload c = REGMAP /\ e_isize c = 4 * (k_regmap_size (r_kernel r) - 4) /\
    cu_mask c = (fun i => pdata (buf r) i) <$> seqZ 0 (num_cumasks (r_kernel r)) /\
    forall i, 0 <= i < k_regmap_size (r_kernel r) - 4 -> e_info c !! Z.to_nat i = Some (pdata (buf r) (num_cumasks (r_kernel r) + 4 + i)).
Proof.
  intros H Hs Hreg Hd Hxg Hn Ht. pose proof (ro_packet r H) as [[Hl Hb] (Hr & Hty & Hop & Hco & Hex)]. fold (buf r) in *. pose proof (ro_kernel r H) as Hk. pose proof (ko_masks _ Hk) as Hm. pose proof (ro_fits r H) as Hf.
  unfold fits, allocation_size in *. set (nm := num_cumasks (r_kernel r)) in *. set (nr := k_regmap_size (r_kernel r)) in *.
  assert (opcode_of (r_kernel r) = ERT_START_CU) as Eop by (unfold opcode_of, setter_of in *; destruct (k_type (r_kernel r)); try done; by case_decide).
  rewrite Eop in Hop. assert (4096 <= Z.of_nat (length (buf r))) as Hl' by lia. assert (pcount (buf r) = nm + nr) as Ec by done. assert (pextra (buf r) = nm - 1) as Ee by done.
  assert (4 + 4 * pcount (buf r) <= Z.of_nat (length (buf r))) as Hfit by lia. destruct (copy_fields (buf r) Hb Hl' Hfit) as (E1 & E2 & E3 & E4). pose proof (copy_length (buf r) Hb Hl') as Elen.
  assert (popcode (driver_copy (buf r)) = ERT_START_CU) as Ep by (rewrite E3; exact Hop).
  assert (ert_valid_opcode (driver_copy (buf r)) = true) as Ev by (unfold ert_valid_opcode; rewrite Ep, E1, E2; cbn; apply Z.leb_le; lia).
  destruct (start_fields KDS_CU OP_START REGMAP 4 (pcount (driver_copy (buf r))) (driver_copy (buf r))) as (c & Hc & C1 & C2 & C3 & C4 & C5 & C6); [lia|rewrite E1, Elen; lia|rewrite E1, E2; lia|lia|].
  exists (set_word 0 (set_state ERT_CMD_STATE_NEW (header (buf r))) (buf r)), (driver_copy (buf r)), c. rewrite C1, C2, C3, C4, C5, E1, E2. split_and!; [| |done|done|done|lia| |].
  - unfold copy_and_validate_execbuf. cbv zeta. fold (driver_copy (buf r)). rewrite copy_orig_count by done. rewrite length_set_word, Ev, Hxg, Hn. cbn [negb]. rewrite (proj2 (Z.ltb_ge _ _)) by lia. rewrite (proj2 (Z.ltb_ge _ _)); [done|].
    unfold get_size_with_timestamps_or_zero, timestamps_offset in *. cbv zeta. rewrite Ep, E1, E4. destruct Ht as [->|Ht]; [rewrite andb_false_r; lia|]. destruct (_ && _); lia.
  - unfold xocl_command. cbv zeta. rewrite Hxg, Ep, Hd. cbn [Z.eqb ERT_CONFIGURE ERT_SK_CONFIG ERT_START_CU orb]. unfold start_krnl_ecmd2xcmd. by rewrite Hc.
  - replace (1 + pextra (buf r)) with nm by lia. apply list_fmap_ext. intros j x [-> ?]%lookup_seqZ. unfold pdata. apply copy_word; try done; lia.
  - intros i Hi. rewrite C6 by lia. f_equal. unfold pdata. rewrite copy_word by (try done; lia). f_equal. lia.
Qed.

(** C3: An argument that the host sets reaches the compute unit through the driver.  When the
    application sets an argument of a register map kernel and starts the run, the driver accepts the
    packet; its command names the compute units of the packet's masks; and a compute unit that is
    configured with the command and started has every word of the argument's value in the
    register at the argument's offset when it starts. *)
Theorem run_args_reach_cu_kds k env i a v r r1 r2 past :
  run_ok r -> setter_of (r_kernel r) = Some HS -> 4 <= k_regmap_size (r_kernel r) ->
  zlookup (k_args (r_kernel r)) i = Some a -> bytes v -> Z.of_nat (length v) = size a ->
  in_payload (r_kernel r) a -> 16 <= offset a -> offset a mod 4 = 0 -> size a mod 4 = 0 ->
  set_arg_at_index i v r = Ok tt r1 -> XrtRun.start true r1 = Ok tt r2 ->
  ert_disable k = true -> xgq_enable k = false -> slot_size k = None -> stat_enabled (buf r2) = false \/ timestamps_offset (buf r2) + timestamps_size <= allocation_size ->
  exists o m c, copy_and_validate_execbuf k (buf r2) = (o, Some m) /\ xocl_command k env m = Add c /\ e_type c = KDS_CU /\
    (forall cu, cu ∈ cu_mask_to_cu_idx (cu_mask c) <-> 0 <= cu < 32 * num_cumasks (r_kernel r) /\ mask_bit (buf r2) cu = true) /\
    forall cl handle x h e, xcmds e !! x = Some (kds_command_of cl handle c) ->
      let '(ret, h1, e1) := cu_hls_submit_config false past x h e in
      let '(h2, e2) := cu_hls_start false h1 e1 in
      ret = 0 /\ last (bus e2) = Some (Wr CTRL CU_AP_START) /\
      forall j, 0 <= j < size a / 4 -> last_write (bus e2) (offset a + 4 * j) = Some (word_at v (Z.to_nat (4 * j))).
Proof.
  intros H Hs Hreg Hi Hv Hl Hin Hoff Hoff4 Hsz4 Hset Hst Hd Hxg Hn Ht.
  destruct (set_arg_at_index_value _ _ _ _ _ Hi Hset) as [Ha Hset']. destruct (set_arg_value_inside r a v H (or_introl Hs) (run_arg_ok r a H Ha) Hv) as (r1' & Hrun & H1 & S1 & _); [unfold in_payload in Hin; lia|].
  assert (r1' = r1) as -> by congruence. clear Hrun. destruct (start_Ok true r1 r2 H1 Hst) as (H2 & _ & _ & K2 & _). rewrite (proj1 S1) in K2.
  pose proof (ko_masks _ (ro_kernel r H)) as Hm. pose proof (ro_fits r H) as Hf. unfold fits, allocation_size in Hf.
  destruct (start_cu_command k env r2 H2) as (o & m & c & C1 & C2 & C3 & C4 & C5 & C6 & C7 & C8); [by rewrite K2|by rewrite K2|done|done|done|done|]. rewrite K2 in C6, C7, C8.
  set (nm := num_cumasks (r_kernel r)) in *. set (nr := k_regmap_size (r_kernel r)) in *. exists o, m, c. split_and!; [done|done|done| |].
  - intros cu. pose proof (ro_packet r2 H2) as [[_ Hb2] _]. fold (buf r2) in Hb2.
    destruct (cu_mask_to_cu_idx_spec (cu_mask c)) as [_ M]; [rewrite C7; apply Forall_fmap, Forall_true; intros y; by apply word_at_range|rewrite C7, length_fmap, length_seqZ; lia|].
    rewrite M, C7, length_fmap, length_seqZ. replace (Z.of_nat (Z.to_nat nm)) with nm by lia. unfold mask_bit. split; intros [A B]; (split; [done|]); revert B; rewrite list_lookup_fmap.
    all: assert (0 <= cu / 32 < nm) by (split; [apply Z.div_pos; lia|apply Z.div_lt_upper_bound; lia]); rewrite lookup_seqZ_lt by lia; replace (0 + Z.of_nat (Z.to_nat (cu / 32))) with (cu / 32) by lia; done.
  - intros cl handle x h e Hx. unfold cu_hls_submit_config. rewrite Hx. unfold cu_hls_configure, kds_command_of. cbn [payload_type isize info e_payload]. rewrite C5, C6.
    replace (4 * (nr - 4) / 4) with (nr - 4) by (rewrite Z.mul_comm, Z.div_mul; lia). cbn [Z.eqb]. unfold cu_hls_start. split; [done|]. cbn [bus cu_write32 on_bus]. split; [by rewrite last_snoc|].
    intros j Hj. pose proof Hin as Hin'. unfold in_payload, payload_bytes in Hin'. fold nr in Hin'. rewrite (proj2 (Z.eqb_neq _ _)) in Hin' by lia.
    assert (0 <= j /\ 4 * j + 4 <= size a) as [Hj0 Hj4] by (clear -Hj Hsz4; Z.div_mod_to_equations; lia). set (q := (offset a - 16) / 4 + j).
    assert (offset a + 4 * j = ARGS + 4 * q) as Hq by (unfold q, ARGS; clear -Hoff4; Z.div_mod_to_equations; lia). unfold ARGS in Hq.
    rewrite Hq. pose proof (consecutive_write past (e_info c) (nr - 4) q e ltac:(lia) ltac:(lia)) as Hw. unfold ARGS in Hw. change (u32 CTRL) with CTRL. change (u32 CU_AP_START) with CU_AP_START. rewrite Hw. f_equal.
    unfold word. rewrite C8 by lia. cbn [default]. unfold pdata. replace (Z.to_nat (4 + 4 * (nm + 4 + q))) with (Z.to_nat (4 * (1 + nm + 4 + q))) by lia.
    rewrite (started_arg_word a v r r1 r2 (1 + nm + 4 + q) j); try done; try lia. apply u32_small, word_at_range, Hv.
Qed.

(** * Witnesses *)

Definition kds_mode : settings := Settings true false false None.
Definition xgq_mode : settings := Settings true false true None.

(** A device with four compute units, the last of which copies, and two buffers of 4096 bytes. *)
Definition ex_env : copy_env :=
  CopyEnv (fun h => if h =? 1 then Some (GemBo (Some 0x10000) 4096) else if h =? 2 then Some (GemBo (Some 0x20000) 4096) else None) 4 1 (fun _ => 0).
Definition ex_command : exec_cmd := match copy_and_validate_execbuf kds_mode (buf ex_running) with (_, Some m) => match xocl_command kds_mode ex_env m with Add c => c | _ => plain KDS_CU OP_NONE 0 end | _ => plain KDS_CU OP_NONE 0 end.

Lemma run_args_reach_cu_kds_witness :
  exists o m c, copy_and_validate_execbuf kds_mode (buf ex_running) = (o, Some m) /\ xocl_command kds_mode ex_env m = Add c /\ c = ex_command /\ cu_mask_to_cu_idx (cu_mask c) = [0; 33] /\
    forall h e, xcmds e !! 0%nat = Some (kds_command_of 0 7 c) ->
      let '(ret, h1, e1) := cu_hls_submit_config false (fun _ => 0) 0 h e in let '(h2, e2) := cu_hls_start false h1 e1 in last_write (bus e2) (0x1C + 4 * 0) = Some 0xDEADBEEF.
Proof.
  pose proof (run_args_reach_cu_kds kds_mode ex_env 1 (ex_arg 1 0x1C 4 0 false) ex_value ex_run ex_set ex_running (fun _ => 0) ex_run_ok) as Hw.
  specialize (Hw ltac:(conc) ltac:(range) ltac:(conc) ltac:(each) ltac:(conc) ltac:(range)).
  specialize (Hw ltac:(range) ltac:(conc) ltac:(conc) ltac:(conc) ltac:(conc) ltac:(conc) ltac:(conc) ltac:(conc) ltac:(left; conc)).
  destruct Hw as (o & m & c & C1 & C2 & _ & _ & Hj). exists o, m, c.
  assert (c = ex_command) as Ec by (unfold ex_command; rewrite C1, C2; reflexivity). split; [exact C1|]. split; [exact C2|]. split; [exact Ec|]. split; [rewrite Ec; conc|]. intros h e Hx. specialize (Hj 0%nat 7 0%nat h e Hx).
  destruct (cu_hls_submit_config false (fun _ => 0) 0 h e) as [[q h1] e1]. destruct (cu_hls_start false h1 e1) as [h2 e2]. destruct Hj as (_ & _ & Hj).
  replace (Some 0xDEADBEEF) with (Some (word_at ex_value (Z.to_nat (4 * 0)))) by conc. exact (Hj 0 ltac:(range)).
Defined.

Lemma ex_running_buf : bytes (buf ex_running) /\ 4096 <= Z.of_nat (length (buf ex_running)).
Proof.
  split; [|vm_compute; discriminate]. assert (forallb (fun b => (0 <=? b) && (b <? 2 ^ 8)) (buf ex_running) = true) as Hf by conc.
  apply Forall_forall. intros b Hb. apply list_elem_of_In in Hb. rewrite forallb_forall in Hf. specialize (Hf b Hb). lia.
Qed.

Definition ex_packets : list Z * option (list Z) := copy_and_validate_execbuf kds_mode (buf ex_running).
Definition ex_copy : list Z := default [] (snd ex_packets).

Lemma exec_in_bounds_witness : xocl_command kds_mode ex_env ex_copy <> Fault.
Proof.
  intros HF. assert (copy_and_validate_execbuf kds_mode (buf ex_running) = (fst ex_packets, Some ex_copy)) as Hc by conc.
  assert (cus_ok ex_env) as He by (vm_compute; intuition discriminate).
  pose proof (proj1 (exec_in_bounds kds_mode ex_env (buf ex_running) (fst ex_packets) ex_copy (proj1 ex_running_buf) (proj2 ex_running_buf) He Hc) HF) as [Ha _]. vm_compute in Ha. discriminate.
Defined.

(** * Behaviours that are not expected *)

Definition packet_of (op count : Z) (stat : bool) : list Z :=
  set_word 0 (set_opcode op (set_count count (set_bit4 (b2z stat) 1))) (replicate 4096 0).

(** A request to abort a command, without words, is accepted and writes to a null pointer. *)
Example empty_abort_faults : exists m, copy_and_validate_execbuf kds_mode (packet_of ERT_ABORT 0 false) = (packet_of ERT_ABORT 0 false, Some m) /\ xocl_command kds_mode ex_env m = Fault.
Proof. exists (packet_of ERT_ABORT 0 false). by vm_compute. Qed.

(** A start command with pairs that asks for times is accepted when there is no room for them: the
    driver writes them behind the buffer. *)
Example pairs_times_outside :
  let m := packet_of ERT_START_KEY_VAL 1023 true in
  snd (copy_and_validate_execbuf kds_mode m) = Some m /\ stat_enabled m = true /\ timestamps_offset m = Z.of_nat (length m).
Proof. by vm_compute. Qed.

(** With XGQ, the entry of a start command with pairs and one CU mask is one word longer than
    the payload that has been allocated for it. *)
Example pairs_entry_too_long :
  let m := packet_of ERT_START_KEY_VAL 5 false in
  snd (copy_and_validate_execbuf xgq_mode m) = Some m /\ xocl_command xgq_mode ex_env m = Fault.
Proof. by vm_compute. Qed.

(** With XGQ, the size of a clock calibration is that of its packet and a header, which is more than
    its payload. *)
Example calibration_size :
  let m := packet_of ERT_CLK_CALIB 2 false in
  match xocl_command xgq_mode ex_env m with Add c => e_isize c = 16 /\ length (e_info c) = 2%nat | _ => False end.
Proof. by vm_compute. Qed.

(** A copy of 64 bytes between two buffers of the device, from offset [off] of the first. *)
Definition copy_packet (off : Z) : list Z :=
  set_words 36 [off; 0; 1; 0; 0; 2; 64] (packet_of ERT_START_COPYBO 16 false).

(** The copy engine gets the addresses of the buffers and the number of blocks. *)
Example copy_starts_engine :
  match xocl_command kds_mode ex_env (copy_packet 64) with
  | Add c => cu_mask_to_cu_idx (cu_mask c) = [3] /\ take 8 (e_info c) = [0x10040; 0; 0; 0x20000; 0; 0; 1; 0]
  | _ => False
  end.
Proof. by vm_compute. Qed.

(** The check of the alignment adds the offset twice: a source address that is not a multiple of 64 passes. *)
Example copy_unaligned_passes :
  match xocl_command kds_mode ex_env (copy_packet 32) with
  | Add c => head (e_info c) = Some 0x10020 /\ 0x10020 mod KDMA_BLOCK_SIZE = 32
  | _ => False
  end.
Proof. by vm_compute. Qed.

(** With XGQ, such a copy is accepted and dropped: no one is told. *)
Example copy_dropped : xocl_command xgq_mode ex_env (copy_packet 64) = Dropped.
Proof. by vm_compute. Qed.
