(* ===== verification/OclNdrange.v ===== *)
(** NDRange kernels: the work sizes of [xocl/api/clEnqueueNDRangeKernel.cpp] and
    the execution context of [xocl/core/execution_context.cpp], which starts one
    run object per work group, a bounded number at a time, and starts more work
    groups as runs complete.

    Run objects are reached through the interface [RunApi]; the context holds
    handles to them, so that a run object in [m_freeruns] or [m_activeruns] is
    the same object that was started.  [m_mutex] is held by [execute] and by the
    first part of [done]; each of the two is one step. *)

From S2P Require Import Prelude Bytes CppStd OclEvent XrtKernel.

(** * Work sizes *)

(** What the checks ask about: the [api_checks] option, the errors of the checks
    of handles and kernel arguments, the work group sizes of the kernel's meta
    data and the limits of the device. *)
Record enqueue_env := EnqueueEnv {
  api_checks : bool;
  handle_error : option string;
  compile_wgs_range : list Z;
  max_wgs_range : list Z;
  device_address_bits : Z;
  device_max_work_group_size : Z;
  device_max_work_item_sizes : list Z;
}.

(** [a[i]] of an array the caller provides. *)
Definition elem (l : list Z) (i : Z) : Z := default 0 (zlookup l i).

Definition any_of (p : Z -> bool) (l : list Z) : bool := existsb p l.

Definition wg_size_error (case : string) : exn :=
  xrt_error (String.append "CL_INVALID_WORK_GROUP_SIZE case " case).

Definition check_dim (env : enqueue_env) (gsz : list Z) (lsz : option (list Z)) (d : Z) : fallible unit :=
  let reqd := any_of (fun sz => negb (sz =? 0)) (compile_wgs_range env) in
  match lsz with
  | Some l =>
      if elem l d =? 0 then raise (wg_size_error "0") else
      if negb (elem gsz d mod elem l d =? 0) then raise (wg_size_error "1") else
      if reqd && negb (elem l d =? elem (compile_wgs_range env) d) then raise (wg_size_error "2") else ret tt
  | None => if reqd then raise (wg_size_error "2") else ret tt
  end.

(** [sizeof(size_t) > address bits * 8] compares bytes with bits. *)
Definition validOrError (env : enqueue_env) (work_dim : Z) (gsz lsz : option (list Z)) : fallible unit :=
  if negb (api_checks env) then ret tt else
  match handle_error env with
  | Some msg => raise (xrt_error msg)
  | None =>
      if (work_dim <? 1) || (3 <? work_dim) then raise (xrt_error "CL_INVALID_WORK_DIMENSION") else
      match gsz with
      | None => raise (xrt_error "CL_INVALID_GLOBAL_WORK_SIZE")
      | Some g =>
          let g' := take (Z.to_nat work_dim) g in
          if any_of (fun sz => sz =? 0) g' then raise (xrt_error "CL_INVALID_GLOBAL_WORK_SIZE") else
          let devicemax := u64 (Z.shiftl 1 (device_address_bits env)) - 1 in
          if (u32 (device_address_bits env * 8) <? 8) && any_of (fun sz => devicemax <? sz) g'
          then raise (xrt_error "CL_INVALID_GLOBAL_WORK_SIZE") else
          for_range (Z.to_nat work_dim) 0 (check_dim env g lsz)
      end
  end.

(** The first [work_dim] elements of an array, the rest from [d]. *)
Definition fill3 (work_dim : Z) (l : option (list Z)) (d : Z) : list Z :=
  match l with
  | Some l => (fun i => if i <? work_dim then elem l i else d) <$> [0; 1; 2]
  | None => [d; d; d]
  end.

(** The work group size the runtime picks: the largest whose sides divide the
    global size and stay within the limits.  The state of the loops is the size
    picked so far and its volume [best_wg_size]. *)
Definition candidate (max_wg_size total_size x y z : Z) : M (list Z * Z) exn unit :=
  s <- gets id ;;
  let v := u64 (u64 (x * y) * z) in
  when ((snd s <? v) && (v <=? max_wg_size) && (v <=? total_size) && (total_size mod v =? 0))
    (modify (fun _ => ([x; y; z], v))).

Definition pick_local (max_wg_size : Z) (gsz dim_max : list Z) : M (list Z * Z) exn unit :=
  let total_size := u64 (u64 (elem gsz 0 * elem gsz 1) * elem gsz 2) in
  let upto d := Z.to_nat (elem dim_max d) in
  for_range (upto 2) 1 (fun z => when (elem gsz 2 mod z =? 0) (
    for_range (upto 1) 1 (fun y => when (elem gsz 1 mod y =? 0) (
      for_range (upto 0) 1 (fun x => when (elem gsz 0 mod x =? 0) (
        candidate max_wg_size total_size x y z)))))).

Definition max_set (env : enqueue_env) : bool := any_of (fun sz => negb (sz =? 0)) (max_wgs_range env).
Definition max_total (env : enqueue_env) : bool :=
  negb (elem (max_wgs_range env) 0 =? 0) && (elem (max_wgs_range env) 1 =? 0) && (elem (max_wgs_range env) 2 =? 0).

Definition max_wg_size_of (env : enqueue_env) : Z :=
  if negb (max_set env) then device_max_work_group_size env
  else if max_total env then elem (max_wgs_range env) 0 else size_max.

Definition dim_max_of (env : enqueue_env) (work_dim : Z) (gsz : list Z) : list Z :=
  (fun d => if d <? work_dim
            then Z.min (elem (if max_set env && negb (max_total env) then max_wgs_range env
                              else device_max_work_item_sizes env) d) (elem gsz d)
            else 1) <$> [0; 1; 2].

(** The checks that follow the choice of the work group size. *)
Definition check_local (env : enqueue_env) (lsz : list Z) : fallible unit :=
  if negb (api_checks env) then ret tt else
  let num_workitems := u64 (u64 (elem lsz 0 * elem lsz 1) * elem lsz 2) in
  let reqd := any_of (fun sz => negb (sz =? 0)) (compile_wgs_range env) in
  (if negb (max_set env) && negb reqd && (device_max_work_group_size env <? num_workitems)
   then raise (wg_size_error "4") else ret tt) ;;;
  if negb (max_set env) then ret tt else
  if max_total env then
    if elem (max_wgs_range env) 0 <? num_workitems then raise (wg_size_error "5") else ret tt
  else for_range 3 0 (fun d =>
    if elem (max_wgs_range env) d <? elem lsz d then raise (wg_size_error "6") else ret tt).

(** The offset, global size and local size with which the execution context of
    an enqueued kernel is constructed. *)
Definition enqueue_sizes (env : enqueue_env) (work_dim : Z) (goff gsz lsz : option (list Z))
    : fallible (list Z * list Z * list Z) :=
  validOrError env work_dim gsz lsz ;;;
  let off3 := fill3 work_dim goff 0 in
  let gsz3 := fill3 work_dim gsz 1 in
  let loc3 := match lsz with
    | Some _ => fill3 work_dim lsz 1
    | None =>
        match pick_local (max_wg_size_of env) gsz3 (dim_max_of env work_dim gsz3) ([1; 1; 1], 1) with
        | Ok _ s | Err _ s => fst s
        end
    end in
  check_local env loc3 ;;;
  ret (off3, gsz3, loc3).

(** * Execution contexts *)

(** What the context uses of run objects: a clone on an execution buffer from
    the cache, setting an argument that need not be one the user sets, adding
    the completion callback (the result is what the call runs at once), starting,
    whether the command is running, and its completion by the device (the result
    is the callbacks to run). *)
Class RunApi (R : Type) := {
  run_clone : list Z -> R -> exn + R;
  run_set_arg : Z -> list Z -> M R exn unit;
  run_add_callback : M R exn (list Z);
  run_start : bool -> M R exn unit;
  run_busy : R -> bool;
  run_notify : M R exn (list Z);
}.

Inductive rtinfo_type := rt_dim | rt_goff | rt_gsize | rt_lsize | rt_ngrps | rt_gid | rt_lid | rt_grid | rt_printf.

(** One dimension of the work: index [d] of the arrays [m_goffset], [m_gsize],
    [m_lsize], [m_cu_global_id] and [m_cu_group_id]. *)
Record dimension := Dimension {
  m_goffset : Z;
  m_gsize : Z;
  m_lsize : Z;
  m_cu_global_id : Z;
  m_cu_group_id : Z;
}.

Definition at_group (gid grp : Z) (d : dimension) : dimension :=
  Dimension (m_goffset d) (m_gsize d) (m_lsize d) gid grp.

(** A start of a work group, as the debug trace shows it: the run, the group,
    its first work item, and the run object that was started. *)
Record started (R : Type) := Started {
  st_run : nat;
  st_group : list Z;
  st_global : list Z;
  st_object : R;
}.
Arguments Started {R}.
Arguments st_run {R}.
Arguments st_group {R}.
Arguments st_global {R}.
Arguments st_object {R}.

(** The context; run objects live in [runs], by handle.  [statuses] and [starts]
    record the calls of [event::set_status] and of [run.start()]. *)
Record context (R : Type) := Context_ {
  m_dim : nat;
  m_work : list dimension;
  m_num_cus : Z;
  m_control : control_type;
  m_run : nat;
  m_freeruns : list nat;
  m_activeruns : gset nat;
  m_active : Z;
  m_done : bool;
  runs : list R;
  statuses : list Z;
  starts : list (started R);
}.
Arguments Context_ {R}.
Arguments m_dim {R}.
Arguments m_work {R}.
Arguments m_num_cus {R}.
Arguments m_control {R}.
Arguments m_run {R}.
Arguments m_freeruns {R}.
Arguments m_activeruns {R}.
Arguments m_active {R}.
Arguments m_done {R}.
Arguments runs {R}.
Arguments statuses {R}.
Arguments starts {R}.

(** What a callback thread has still to do: the part of [done] under the mutex,
    [execute], or [event::set_status(CL_COMPLETE)]. *)
Inductive thread := Callback (key : nat) | Resume | Finish.

#[export] Instance thread_eq_dec : EqDecision thread.
Proof. solve_decision. Defined.

Section context.
Context {R : Type} `{RunApi R}.

(** The rtinfo and printf arguments of the kernel (argument index, and for
    printf the address of its buffer if there is one), the execution buffers the
    cache hands out and whether the hardware queue takes a submission. *)
Context (rtinfo : list (rtinfo_type * Z)) (printf : list (Z * option Z)).
Context (cache : nat -> list Z) (submits : nat -> bool).

Definition set_work (w : list dimension) (d : bool) (c : context R) : context R :=
  Context_ (m_dim c) w (m_num_cus c) (m_control c) (m_run c) (m_freeruns c) (m_activeruns c)
    (m_active c) d (runs c) (statuses c) (starts c).
Definition set_runs (l : list R) (c : context R) : context R :=
  Context_ (m_dim c) (m_work c) (m_num_cus c) (m_control c) (m_run c) (m_freeruns c) (m_activeruns c)
    (m_active c) (m_done c) l (statuses c) (starts c).
Definition set_lists (free : list nat) (active : gset nat) (n : Z) (c : context R) : context R :=
  Context_ (m_dim c) (m_work c) (m_num_cus c) (m_control c) (m_run c) free active
    n (m_done c) (runs c) (statuses c) (starts c).
Definition event_set_status (s : Z) (c : context R) : context R :=
  Context_ (m_dim c) (m_work c) (m_num_cus c) (m_control c) (m_run c) (m_freeruns c) (m_activeruns c)
    (m_active c) (m_done c) (runs c) (statuses c ++ [s]) (starts c).
Definition add_start (e : started R) (c : context R) : context R :=
  Context_ (m_dim c) (m_work c) (m_num_cus c) (m_control c) (m_run c) (m_freeruns c) (m_activeruns c)
    (m_active c) (m_done c) (runs c) (statuses c) (starts c ++ [e]).

(** A call of a method of the run object [h]. *)
Definition on_handle {A} (h : nat) (m : M R exn A) : M (context R) exn A := fun c =>
  match runs c !! h with
  | None => Err bad_read c
  | Some r =>
      match m r with
      | Ok x r' => Ok x (set_runs (<[h := r']> (runs c)) c)
      | Err e r' => Err e (set_runs (<[h := r']> (runs c)) c)
      end
  end.

(** ** Arguments of a work group *)

Definition set_rtinfo_arg1 (h : nat) (idx value : Z) : M (context R) exn unit :=
  on_handle h (run_set_arg idx (le_bytes 8 value)).

Definition set_rtinfo_arg3 (h : nat) (idx : Z) (value3 : list Z) : M (context R) exn unit :=
  for_range 3 0 (fun i => set_rtinfo_arg1 h (i + idx) (elem value3 i)).

Definition num_workgroups (w : list dimension) : list Z :=
  (fun d => if m_lsize d =? 0 then 0 else m_gsize d / m_lsize d) <$> w.

(** The arguments of a kind and their values. *)
Definition rtinfo_values (dim : nat) (w : list dimension) (t : rtinfo_type) : option (list Z) :=
  match t with
  | rt_dim => Some [Z.of_nat dim]
  | rt_goff => Some (m_goffset <$> w)
  | rt_gsize => Some (m_gsize <$> w)
  | rt_lsize => Some (m_lsize <$> w)
  | rt_ngrps => Some (num_workgroups w)
  | rt_gid => Some (m_cu_global_id <$> w)
  | rt_lid => Some [0; 0; 0]
  | rt_grid => Some (m_cu_group_id <$> w)
  | rt_printf => None
  end.

(** The segment of the printf buffer of the work group. *)
Definition printf_offset (w : list dimension) : Z :=
  let lws := elem (m_lsize <$> w) in
  let gws := elem (m_gsize <$> w) in
  let grp := elem (m_cu_group_id <$> w) in
  let local_buffer_size := u64 (u64 (u64 (lws 0 * lws 1) * lws 2) * 2048) in
  let group_x_size := gws 0 / lws 0 in
  let group_y_size := gws 1 / lws 1 in
  let group_id := u64 (grp 0 + u64 (group_x_size * grp 1) + u64 (u64 (group_y_size * group_x_size) * grp 2)) in
  u64 (group_id * local_buffer_size).

Definition set_rtinfo_printf (h : nat) (idx : Z) (buffer : option Z) : M (context R) exn unit :=
  match buffer with
  | None => ret tt
  | Some addr =>
      w <- gets m_work ;;
      if (elem (m_lsize <$> w) 0 =? 0) || (elem (m_lsize <$> w) 1 =? 0)
      then raise (runtime_error "division by zero")
      else set_rtinfo_arg1 h idx (u64 (addr + printf_offset w))
  end.

Definition set_rtinfo_args (h : nat) : M (context R) exn unit :=
  for_each rtinfo (fun a =>
    dim <- gets m_dim ;; w <- gets m_work ;;
    match fst a, rtinfo_values dim w (fst a) with
    | rt_dim, _ => set_rtinfo_arg1 h (snd a) (Z.of_nat dim)
    | _, Some v => set_rtinfo_arg3 h (snd a) v
    | _, None => raise (runtime_error "internal error: rtinfo may not contain printf arg")
    end) ;;;
  for_each printf (fun a => set_rtinfo_printf h (fst a) (snd a)).

(** ** Run objects *)

Definition get_free_run : M (context R) exn nat :=
  c <- gets id ;;
  match last (m_freeruns c) with
  | Some h =>
      modify (fun c => set_lists (take (length (m_freeruns c) - 1) (m_freeruns c)) (m_activeruns c) (m_active c) c) ;;;
      ret h
  | None =>
      match runs c !! m_run c with
      | None => raise bad_read
      | Some r =>
          match run_clone (cache (length (runs c))) r with
          | inl e => raise e
          | inr r' =>
              modify (fun c => set_runs (runs c ++ [r']) c) ;;;
              on_handle (length (runs c)) run_add_callback ;;;
              ret (length (runs c))
          end
      end
  end.

Definition mark_active (h : nat) : M (context R) exn unit :=
  modify (fun c => set_lists (m_freeruns c) ({[h]} ∪ m_activeruns c) (u64 (m_active c + 1)) c).

Definition mark_inactive (key : nat) : M (context R) exn unit :=
  c <- gets id ;;
  if decide (key ∈ m_activeruns c) then
    modify (fun c => set_lists (m_freeruns c ++ [key]) (m_activeruns c ∖ {[key]}) (u64 (m_active c - 1)) c)
  else raise (runtime_error "unexpected error, no active run").

(** ** Work groups *)

(** The next work group; [true] when there is none. *)
Fixpoint next_group (n : nat) (w : list dimension) : list dimension * bool :=
  match n, w with
  | S n', d :: w' =>
      if u64 (m_cu_global_id d + m_lsize d) <? m_gsize d
      then (at_group (u64 (m_cu_global_id d + m_lsize d)) (m_cu_group_id d + 1) d :: w', false)
      else let '(r, b) := next_group n' w' in (at_group (m_goffset d) 0 d :: r, b)
  | _, _ => (w, true)
  end.

Definition update_work : M (context R) exn unit :=
  modify (fun c => let '(w, b) := next_group (m_dim c) (m_work c) in set_work w (m_done c || b) c).

Definition start : M (context R) exn unit :=
  w <- gets m_work ;;
  when (forallb (fun d => m_cu_group_id d =? 0) w) (modify (event_set_status CL_RUNNING)) ;;;
  h <- get_free_run ;;
  set_rtinfo_args h ;;;
  update_work ;;;
  mark_active h ;;;
  n <- gets (fun c => length (starts c)) ;;
  on_handle h (run_start (submits n)) ;;;
  modify (fun c => match runs c !! h with
    | Some r => add_start (Started h (m_cu_group_id <$> w) (m_cu_global_id <$> w) r) c
    | None => c
    end).

Definition limit (c : context R) : Z :=
  u64 ((if decide (m_control c = ctrl_chain) then 20 else 2) * m_num_cus c).

(** [for (i = m_active; !m_done && i < limit; ++i)] *)
Fixpoint start_loop (n : nat) : M (context R) exn unit :=
  match n with
  | O => ret tt
  | S n' => d <- gets m_done ;; if d : bool then ret tt else start ;;; start_loop n'
  end.

Definition execute : M (context R) exn bool :=
  c <- gets id ;;
  if m_done c then ret true else
  start_loop (Z.to_nat (limit c - m_active c)) ;;;
  gets m_done.

(** The part of [done] under the mutex: whether the context is done. *)
Definition done_locked (key : nat) : M (context R) exn bool :=
  mark_inactive key ;;;
  gets (fun c => (m_active c =? 0) && m_done c).

Definition initial_work (work_dim : nat) (goff gsz lsz : list Z) : list dimension :=
  (fun d : nat => if (d <? work_dim)%nat
    then Dimension (elem goff (Z.of_nat d)) (elem gsz (Z.of_nat d)) (elem lsz (Z.of_nat d)) 0 0
    else Dimension 0 1 1 0 0) <$> [0; 1; 2]%nat.

(** The constructor, from the clone it makes of the kernel's run object, after
    the kernel's buffer arguments were set in it. *)
Definition execution_context (work_dim : nat) (goff gsz lsz : list Z) (num_cus : Z)
    (control : control_type) (r : R) : M unit exn (context R) :=
  match run_add_callback r with
  | Err e _ => raise e
  | Ok _ r' =>
      ret (Context_ work_dim (initial_work work_dim goff gsz lsz) num_cus control 0 [0%nat] ∅ 0 false [r'] [] [])
  end.

Definition get_num_work_groups (c : context R) : Z :=
  foldl (fun num d => if m_lsize d =? 0 then num else u64 (num * (m_gsize d / m_lsize d))) 1 (m_work c).

(** ** Threads

    The event's action calls [execute]; a completed run calls [done] for its key
    on one of [threads] callback threads: first the part under the mutex, then
    either [event::set_status(CL_COMPLETE)] or [execute]. *)
Record conf := Conf {
  ctx : context R;
  pending : list thread;
  launched : bool;
}.

Context (threads : nat).

Inductive step : conf -> conf -> Prop :=
| step_execute c p b c' :
    execute c = Ok b c' -> step (Conf c p false) (Conf c' p true)
| step_notify c p l h r cbs c' :
    runs c !! h = Some r -> run_busy r = true -> (length p < threads)%nat ->
    on_handle h run_notify c = Ok cbs c' ->
    step (Conf c p l) (Conf c' (p ++ (const (Callback h) <$> cbs)) l)
| step_callback c p1 p2 l h b c' :
    done_locked h c = Ok b c' ->
    step (Conf c (p1 ++ Callback h :: p2) l) (Conf c' (p1 ++ (if b : bool then Finish else Resume) :: p2) l)
| step_resume c p1 p2 l b c' :
    execute c = Ok b c' -> step (Conf c (p1 ++ Resume :: p2) l) (Conf c' (p1 ++ p2) l)
| step_finish c p1 p2 l :
    step (Conf c (p1 ++ Finish :: p2) l) (Conf (event_set_status CL_COMPLETE c) (p1 ++ p2) l).
End context.
