(* ===== verification/OclGroups.v ===== *)
(** Work groups of an NDRange: the order in which [execution_context::update_work]
    visits them.  The group identifiers count in the mixed radix given by the
    numbers of groups per dimension, the first dimension fastest, so that the
    [k]-th group is [group_at k]; every group of the range is visited once.  And the work sizes
    of an enqueued kernel: what [clEnqueueNDRangeKernel] accepts, and the work group size it
    picks when the application gives none. *)

From S2P Require Import Prelude CppStd XrtKernel OclNdrange.

(** * Mixed radix numbers *)

Definition volume (ns : list Z) : Z := foldr Z.mul 1 ns.

Fixpoint group_at (ns : list Z) (k : Z) : list Z :=
  match ns with
  | [] => []
  | n :: ns' => k mod n :: group_at ns' (k / n)
  end.

Fixpoint group_number (ns g : list Z) : Z :=
  match ns, g with
  | n :: ns', x :: g' => x + n * group_number ns' g'
  | _, _ => 0
  end.

Definition in_range (ns g : list Z) : Prop := Forall2 (fun n x => 0 <= x < n) ns g.

Lemma volume_pos ns : Forall (fun n => 0 < n) ns -> 0 < volume ns.
Proof. induction 1; cbn; [lia|]. unfold volume in *. nia. Qed.

Lemma group_number_range ns g : in_range ns g -> 0 <= group_number ns g < volume ns.
Proof. induction 1; cbn; [lia|]. unfold volume in *. nia. Qed.

Lemma group_at_number ns g : in_range ns g -> group_at ns (group_number ns g) = g.
Proof.
  induction 1 as [|n x ns g Hx Hg IH]; [done|]. cbn [group_at group_number].
  rewrite (Z.mul_comm n), Z.mod_add, Z.div_add, Z.mod_small, Z.div_small, Z.add_0_l, IH by lia. done.
Qed.

Lemma group_at_spec ns k :
  Forall (fun n => 0 < n) ns -> 0 <= k < volume ns ->
  in_range ns (group_at ns k) /\ group_number ns (group_at ns k) = k.
Proof.
  intros H. revert k. induction H as [|n ns Hn H IH]; intros k Hk; cbn [group_at group_number].
  { cbn in Hk. split; [constructor|lia]. }
  change (volume (n :: ns)) with (n * volume ns) in Hk.
  destruct (IH (k / n)) as [IH1 IH2].
  { split; [apply Z.div_pos; lia|apply Z.div_lt_upper_bound; lia]. }
  split; [constructor; [apply Z.mod_pos_bound; lia|done]|].
  rewrite IH2. pose proof (Z.div_mod k n). lia.
Qed.

(** The groups of a range, in the order of the numbers. *)
Definition all_groups (ns : list Z) : list (list Z) :=
  (fun k : nat => group_at ns (Z.of_nat k)) <$> seq 0 (Z.to_nat (volume ns)).

Lemma all_groups_spec ns :
  Forall (fun n => 0 < n) ns -> NoDup (all_groups ns) /\ forall g, g ∈ all_groups ns <-> in_range ns g.
Proof.
  intros H. unfold all_groups. split.
  - apply NoDup_fmap_2_strong; [|apply NoDup_seq]. intros i j Hi Hj Heq.
    apply elem_of_seq in Hi, Hj. apply (f_equal (group_number ns)) in Heq.
    destruct (group_at_spec ns (Z.of_nat i) H) as [_ Hi']; [lia|].
    destruct (group_at_spec ns (Z.of_nat j) H) as [_ Hj']; [lia|]. lia.
  - intros g. rewrite list_elem_of_fmap. split.
    + intros (k & -> & Hk). apply elem_of_seq in Hk. apply group_at_spec; [done|lia].
    + intros Hg. exists (Z.to_nat (group_number ns g)). pose proof (group_number_range _ _ Hg).
      rewrite Z2Nat.id, group_at_number by (done || lia). split; [done|]. apply elem_of_seq. lia.
Qed.

(** * The work of a context *)

Definition groups (d : dimension) : Z := m_gsize d / m_lsize d.

(** A dimension with no offset, in whole work groups. *)
Definition whole (d : dimension) : Prop :=
  m_goffset d = 0 /\ 0 < m_lsize d /\ 0 < m_gsize d < 2 ^ 64 /\ (m_lsize d | m_gsize d).

Definition at_a_group (d : dimension) : Prop :=
  whole d /\ 0 <= m_cu_group_id d < groups d /\ m_cu_global_id d = m_cu_group_id d * m_lsize d.

(** A dimension past [m_dim]. *)
Definition unused (d : dimension) : Prop := d = Dimension 0 1 1 0 0.

Definition work_ok (n : nat) (w : list dimension) : Prop := Forall at_a_group w /\ Forall unused (drop n w).

Definition same_range (w w' : list dimension) : Prop :=
  (m_goffset <$> w') = (m_goffset <$> w) /\ (m_gsize <$> w') = (m_gsize <$> w) /\ (m_lsize <$> w') = (m_lsize <$> w).

#[export] Instance same_range_preorder : PreOrder same_range.
Proof. split; [done|]. intros x y z (A1 & A2 & A3) (B1 & B2 & B3). unfold same_range. split_and!; congruence. Qed.

Definition position (w : list dimension) : Z := group_number (groups <$> w) (m_cu_group_id <$> w).

Lemma position_cons d w : position (d :: w) = m_cu_group_id d + groups d * position w.
Proof. done. Qed.

Lemma volume_cons d w : volume (groups <$> d :: w) = groups d * volume (groups <$> w).
Proof. done. Qed.

Lemma groups_at gid grp d : groups (at_group gid grp d) = groups d.
Proof. done. Qed.

Lemma groups_pos d : whole d -> 0 < groups d.
Proof.
  intros (_ & Hl & Hg & [q Hq]). unfold groups. rewrite Hq, Z.div_mul by lia. nia.
Qed.

Lemma groups_whole d : whole d -> groups d * m_lsize d = m_gsize d.
Proof. intros (_ & Hl & Hg & [q Hq]). unfold groups. rewrite Hq, Z.div_mul by lia. lia. Qed.

Lemma work_groups_pos w : Forall at_a_group w -> Forall (fun n => 0 < n) (groups <$> w).
Proof. intros H. apply Forall_fmap. eapply Forall_impl; [done|]. intros d [Hd _]. by apply groups_pos. Qed.

Lemma work_in_range w : Forall at_a_group w -> in_range (groups <$> w) (m_cu_group_id <$> w).
Proof. induction 1 as [|d w [_ [Hd _]] H IH]; cbn; constructor; done. Qed.

Lemma same_range_groups w w' : same_range w w' -> (groups <$> w') = (groups <$> w).
Proof.
  revert w'. induction w as [|d w IH]; intros [|d' w'] (H1 & H2 & H3); try done.
  cbn in *. injection H1 as H1 H1'. injection H2 as H2 H2'. injection H3 as H3 H3'.
  unfold groups at 1 3. rewrite H2, H3. f_equal. apply IH. done.
Qed.

(** The [k]-th group of the range is the one at position [k]. *)
Lemma group_of_position w : Forall at_a_group w -> m_cu_group_id <$> w = group_at (groups <$> w) (position w).
Proof. intros H. unfold position. by rewrite group_at_number by by apply work_in_range. Qed.

Lemma global_of_group w : Forall at_a_group w -> m_cu_global_id <$> w = zip_with Z.mul (m_cu_group_id <$> w) (m_lsize <$> w).
Proof. induction 1 as [|d w (_ & _ & Hd) H IH]; [done|]. cbn. by rewrite Hd, IH. Qed.

Lemma first_group w : Forall at_a_group w -> forallb (fun d => m_cu_group_id d =? 0) w = (position w =? 0).
Proof.
  induction 1 as [|d w (Hw & Hd & _) H IH]; [done|]. cbn [forallb]. rewrite IH.
  unfold position. cbn [fmap list_fmap group_number]. fold (position w).
  pose proof (group_number_range _ _ (work_in_range w H)) as Hr. fold (position w) in Hr.
  pose proof (groups_pos d Hw).
  destruct (Z.eqb_spec (position w) 0); destruct (Z.eqb_spec (m_cu_group_id d) 0); cbn; nia.
Qed.

(** A dimension that cannot advance is at its last group. *)
Lemma last_group d :
  at_a_group d -> u64 (m_cu_global_id d + m_lsize d) = (m_cu_group_id d + 1) * m_lsize d /\
  ((u64 (m_cu_global_id d + m_lsize d) <? m_gsize d) = (m_cu_group_id d + 1 <? groups d)).
Proof.
  intros (Hw & Hg & Hid). pose proof (groups_whole d Hw) as Hq. destruct Hw as (_ & Hl & Hs & _).
  assert (u64 (m_cu_global_id d + m_lsize d) = (m_cu_group_id d + 1) * m_lsize d) as ->.
  { rewrite u64_small; [lia|]. nia. }
  split; [done|]. destruct (Z.ltb_spec (m_cu_group_id d + 1) (groups d)); nia.
Qed.

Lemma at_group_advance d :
  at_a_group d -> m_cu_group_id d + 1 < groups d ->
  at_a_group (at_group ((m_cu_group_id d + 1) * m_lsize d) (m_cu_group_id d + 1) d).
Proof. intros (Hw & Hg & Hid) Hlt. split; [done|]. split; [unfold groups in *; cbn; lia|done]. Qed.

Lemma at_group_reset d : whole d -> at_a_group (at_group (m_goffset d) 0 d).
Proof.
  intros Hw. pose proof (groups_pos d Hw). split; [done|]. split; [unfold groups in *; cbn; lia|].
  cbn. destruct Hw as (-> & _). lia.
Qed.

Lemma next_group_spec n w w' b :
  work_ok n w -> next_group n w = (w', b) ->
  work_ok n w' /\ same_range w w' /\
  (if b : bool then position w + 1 = volume (groups <$> w) /\ position w' = 0
   else position w' = position w + 1).
Proof.
  revert n w' b. induction w as [|d w IH]; intros n w' b [Hw Hu] Hn.
  { assert (w' = [] /\ b = true) as [-> ->] by (destruct n; cbn in Hn; by injection Hn).
    split; [done|]. split; done. }
  inversion Hw as [|? ? Hd Hw']; subst. destruct n as [|n].
  { cbn in Hn. injection Hn as <- <-. split; [done|]. split; [done|].
    clear IH Hd Hw. assert (forall l, Forall unused l -> position l = 0 /\ volume (groups <$> l) = 1) as Hall.
    { induction 1 as [|x l -> Hl [I1 I2]]; [done|]. unfold position, volume in *. cbn. rewrite I1, I2. done. }
    rewrite drop_0 in Hu. apply Hall in Hu as [-> ->]. done. }
  cbn [next_group] in Hn. destruct (last_group d Hd) as [Hid Hlt]. rewrite Hid in Hn. rewrite Hid in Hlt.
  rewrite Hlt in Hn. rewrite volume_cons, position_cons.
  destruct (Z.ltb_spec (m_cu_group_id d + 1) (groups d)) as [Hnext|Hlast].
  - injection Hn as <- <-. split; [split; [constructor; [by apply at_group_advance|done]|done]|].
    split; [done|]. rewrite position_cons, groups_at. cbn. lia.
  - destruct (next_group n w) as [r b'] eqn:Hrec. injection Hn as <- <-.
    destruct (IH n r b' (conj Hw' Hu) Hrec) as ([Hr Hru] & Hs & Hb).
    split; [split; [constructor; [apply at_group_reset; by destruct Hd|done]|done]|].
    split; [destruct Hs as (S1 & S2 & S3); unfold same_range; cbn; by rewrite S1, S2, S3|].
    rewrite position_cons, groups_at. cbn [m_cu_group_id at_group].
    destruct Hd as (Hwd & Hg & _). destruct b'; [destruct Hb as [Hb ->]; rewrite <- Hb|rewrite Hb]; nia.
Qed.

(** ** The work of a new context *)

Lemma initial_groups n goff gsz lsz : m_cu_group_id <$> initial_work n goff gsz lsz = replicate 3 0.
Proof. by destruct n as [|[|[|n]]]. Qed.

Lemma initial_work_ok n goff gsz lsz :
  Forall whole (initial_work n goff gsz lsz) -> work_ok n (initial_work n goff gsz lsz).
Proof.
  intros H. split.
  - apply Forall_forall. intros d Hd. assert (whole d) as Hw by (rewrite Forall_forall in H; by apply H).
    pose proof (groups_pos d Hw). unfold initial_work in Hd. apply list_elem_of_fmap in Hd as (i & Hi & _).
    assert (m_cu_group_id d = 0 /\ m_cu_global_id d = 0) as [E1 E2] by (rewrite Hi; by destruct (i <? n)%nat).
    split; [done|]. rewrite E1, E2. lia.
  - destruct n as [|[|[|n]]]; cbn; rewrite ?drop_nil; repeat (apply Forall_cons; split; [done|]); by apply Forall_nil.
Qed.

(** [get_num_work_groups] is the number of groups of the range. *)
Lemma num_work_groups_volume {R} (c : context R) :
  Forall whole (m_work c) -> volume (groups <$> m_work c) < 2 ^ 64 ->
  get_num_work_groups c = volume (groups <$> m_work c).
Proof.
  intros Hw Hv. unfold get_num_work_groups. rewrite <- (Z.mul_1_l (volume _)) in Hv |- *.
  assert (0 < 1) as Ha by lia. revert Ha Hv. generalize 1 as a.
  induction Hw as [|d w Hd Hw IH]; intros a Ha Hv; [cbn; lia|]. rewrite volume_cons in *. cbn [foldl].
  pose proof (groups_pos d Hd). assert (0 < volume (groups <$> w)).
  { apply volume_pos, Forall_fmap. eapply Forall_impl; [done|]. apply groups_pos. }
  destruct (Z.eqb_spec (m_lsize d) 0) as [Hz|_]; [destruct Hd as (_ & ? & _); lia|].
  fold (groups d). rewrite u64_small, IH by nia. lia.
Qed.

(** * The work sizes of an enqueued kernel *)

(** * The choice of the work group size *)

Section pick.
Context (max : Z) (g dmax : list Z).
Hypothesis g_pos : forall d, 0 <= d < 3 -> 0 < elem g d.
Hypothesis g_fits : elem g 0 * elem g 1 * elem g 2 < 2 ^ 64.
Hypothesis dmax_ok : forall d, 0 <= d < 3 -> elem dmax d <= elem g d.

Let total : Z := elem g 0 * elem g 1 * elem g 2.

(** The sizes the loops visit. *)
Definition side (d x : Z) : Prop := 1 <= x <= elem dmax d /\ (x | elem g d).
Definition box (x y z : Z) : Prop := side 0 x /\ side 1 y /\ side 2 z.

(** A size that may be picked, with its volume. *)
Definition picked (s : list Z * Z) : Prop :=
  exists x y z, fst s = [x; y; z] /\ snd s = x * y * z /\
    (box x y z /\ x * y * z <= max \/ x = 1 /\ y = 1 /\ z = 1).

(** The sizes visited so far do not have a larger volume. *)
Definition best (P : Z -> Z -> Z -> Prop) (s : list Z * Z) : Prop :=
  picked s /\ forall x y z, box x y z -> P x y z -> x * y * z <= max -> x * y * z <= snd s.

Lemma box_volume x y z : box x y z -> u64 (u64 (x * y) * z) = x * y * z /\ 0 < x * y * z <= total /\ (x * y * z | total).
Proof.
  intros ((Hx & [a Ha]) & (Hy & [b Hb]) & (Hz & [c Hc])).
  pose proof (g_pos 0 ltac:(lia)). pose proof (g_pos 1 ltac:(lia)). pose proof (g_pos 2 ltac:(lia)).
  pose proof (dmax_ok 0 ltac:(lia)). pose proof (dmax_ok 1 ltac:(lia)). pose proof (dmax_ok 2 ltac:(lia)).
  assert (0 < x * y <= elem g 0 * elem g 1) as Hxy by nia.
  assert (0 < x * y * z <= total) as Hv by (unfold total; nia).
  unfold total in *. rewrite (u64_small (x * y)) by nia. rewrite u64_small by nia. split; [done|]. split; [done|].
  exists (a * b * c). rewrite Ha, Hb, Hc. ring.
Qed.

Lemma candidate_spec x y z P s :
  box x y z -> best P s ->
  wp (candidate max total x y z) (fun _ => best (fun x' y' z' => P x' y' z' \/ x' = x /\ y' = y /\ z' = z)) no_err s.
Proof.
  intros Hb [Hp Hbest]. destruct (box_volume x y z Hb) as (Hu & Hv & Hd). unfold candidate. rewrite Hu.
  apply wp_bind, wp_gets. cbv zeta. unfold id. apply wp_when; intros Hc.
  - apply wp_modify. apply andb_true_iff in Hc as [[[H1 H2]%andb_true_iff _]%andb_true_iff _].
    apply Z.ltb_lt in H1. apply Z.leb_le in H2. split.
    + exists x, y, z. split; [done|]. split; [done|]. left. done.
    + cbn [snd]. intros x' y' z' Hb' [HP|(-> & -> & ->)] Hm; [|lia]. specialize (Hbest _ _ _ Hb' HP Hm). lia.
  - split; [done|]. intros x' y' z' Hb' [HP|(-> & -> & ->)] Hm; [by apply Hbest|].
    destruct (Z.leb_spec (x * y * z) (snd s)); [done|]. exfalso.
    apply not_true_iff_false in Hc. apply Hc.
    rewrite (proj2 (Z.ltb_lt _ _)), (proj2 (Z.leb_le _ max)), (proj2 (Z.leb_le _ total)) by lia.
    cbn. apply Z.eqb_eq, Z.mod_divide; [lia|done].
Qed.

Lemma best_weaken P Q s : best P s -> (forall x y z, box x y z -> Q x y z -> P x y z) -> best Q s.
Proof. intros [Hp Hb] HQ. split; [done|]. intros x y z Hbx HQx. by apply Hb, HQ. Qed.

(** A loop over the sides of one dimension. *)
Lemma sides_spec d (body : Z -> M (list Z * Z) exn unit) (Q : Z -> Z -> Z -> Prop) (sel : Z -> Z -> Z -> Z) s :
  0 <= d < 3 -> (forall x y z, box x y z -> side d (sel x y z)) ->
  (forall i P s, side d i -> best P s ->
     wp (body i) (fun _ => best (fun x y z => P x y z \/ sel x y z = i /\ Q x y z)) no_err s) ->
  forall P, best P s ->
  wp (for_range (Z.to_nat (elem dmax d)) 1 (fun i => when (elem g d mod i =? 0) (body i)))
    (fun _ => best (fun x y z => P x y z \/ Q x y z)) no_err s.
Proof.
  intros Hd Hsel Hbody P H0.
  eapply wp_mono; [apply (wp_for_range (fun i => best (fun x y z => P x y z \/ sel x y z < i /\ Q x y z)))| |done].
  - eapply best_weaken; [done|]. intros x y z Hb [?|[Hlt _]]; [done|]. destruct (Hsel _ _ _ Hb) as [? _]. lia.
  - intros i s' Hi Hs'. apply wp_when; intros Hc.
    + apply Z.eqb_eq, Z.mod_divide in Hc; [|lia].
      eapply wp_mono; [apply Hbody; [split; [lia|done]|exact Hs']| |done].
      intros [] s'' Hs''. eapply best_weaken; [done|]. intros x y z Hb [?|[Hlt HQ]]; [tauto|].
      destruct (decide (sel x y z = i)); [tauto|]. left. right. split; [lia|done].
    + eapply best_weaken; [done|]. intros x y z Hb [?|[Hlt HQ]]; [tauto|]. right. split; [|done].
      destruct (decide (sel x y z = i)) as [He|]; [|lia]. exfalso. apply Z.eqb_neq in Hc. apply Hc.
      destruct (Hsel _ _ _ Hb) as [? Hdv]. rewrite He in Hdv. apply Z.mod_divide; [lia|done].
  - intros [] s' Hs'. eapply best_weaken; [done|]. intros x y z Hb [?|HQ]; [tauto|]. right. split; [|done].
    destruct (Hsel _ _ _ Hb) as [? _]. lia.
Qed.

Lemma pick_local_spec :
  exists s, pick_local max g dmax ([1; 1; 1], 1) = Ok tt s /\ best (fun _ _ _ => True) s.
Proof.
  assert (u64 (u64 (elem g 0 * elem g 1) * elem g 2) = total) as Ht.
  { pose proof (g_pos 0 ltac:(lia)). pose proof (g_pos 1 ltac:(lia)). pose proof (g_pos 2 ltac:(lia)).
    unfold total. rewrite (u64_small (elem g 0 * elem g 1)) by nia. apply u64_small. nia. }
  assert (wp (pick_local max g dmax) (fun _ => best (fun _ _ _ => True)) no_err ([1; 1; 1], 1)) as Hw.
  { unfold pick_local. rewrite Ht.
    eapply wp_mono; [apply (sides_spec 2 _ (fun _ _ _ => True) (fun _ _ z => z)) with (P := fun _ _ _ => False)| |done].
    - lia.
    - intros x y z Hb. apply Hb.
    - intros z P s Hz Hs.
      eapply wp_mono; [apply (sides_spec 1 _ (fun _ _ z' => z' = z) (fun _ y _ => y)) with (P := P)| |done];
        [lia|intros x y z' Hb; apply Hb| |done|].
      + intros y P1 s1 Hy Hs1.
        eapply wp_mono; [apply (sides_spec 0 _ (fun _ y' z' => y' = y /\ z' = z) (fun x _ _ => x)) with (P := P1)| |done];
          [lia|intros x y' z' Hb; apply Hb| |done|].
        * intros x P2 s2 Hx Hs2. eapply wp_mono; [by apply candidate_spec| |done].
          intros [] s3 Hs3. eapply best_weaken; [done|]. naive_solver.
        * intros [] s2 Hs2. eapply best_weaken; [done|]. naive_solver.
      + intros [] s1 Hs1. eapply best_weaken; [done|]. naive_solver.
    - split; [|done]. exists 1, 1, 1. split; [done|]. split; [done|]. by right.
    - intros [] s Hs. eapply best_weaken; [done|]. naive_solver. }
  apply wp_Ok in Hw as ([] & s & Hs & Hb). by exists s.
Qed.
End pick.

(** * What is accepted *)

Lemma for_range_Ok {E} n lo (body : Z -> M unit E unit) :
  for_range n lo body tt = Ok tt tt -> forall i, lo <= i < lo + Z.of_nat n -> body i tt = Ok tt tt.
Proof.
  revert lo. induction n as [|n IH]; intros lo Hr i Hi; [lia|]. cbn [for_range] in Hr. unfold bind in Hr.
  destruct (body lo tt) as [[] []|] eqn:Hb; [|done]. destruct (decide (i = lo)) as [->|]; [done|].
  apply (IH (lo + 1)); [done|lia].
Qed.

Lemma any_of_false p l : any_of p l = false -> Forall (fun x => p x = false) l.
Proof. induction l as [|x l IH]; [done|]. cbn. intros [? ?]%orb_false_iff. constructor; auto. Qed.

Lemma elem_lookup l d : 0 <= d < Z.of_nat (length l) -> l !! Z.to_nat d = Some (elem l d).
Proof.
  intros Hd. unfold elem. destruct (zlookup_in_range l d Hd) as [x Hx]. rewrite Hx.
  by apply zlookup_Some in Hx as [_ ->].
Qed.

Lemma elem_fill3 n l d x : 0 <= x < 3 -> elem (fill3 n (Some l) d) x = if x <? n then elem l x else d.
Proof. intros Hx. assert (x = 0 \/ x = 1 \/ x = 2) as [->|[->| ->]] by lia; done. Qed.

Lemma validOrError_accepts env n g lsz :
  api_checks env = true -> n <= Z.of_nat (length g) -> validOrError env n (Some g) lsz tt = Ok tt tt ->
  1 <= n <= 3 /\ forall d, 0 <= d < n ->
    elem g d <> 0 /\ forall l, lsz = Some l -> elem l d <> 0 /\ elem g d mod elem l d = 0.
Proof.
  intros Hc Hlen Hv. unfold validOrError in Hv. rewrite Hc in Hv. cbn [negb] in Hv.
  destruct (handle_error env); [done|]. destruct ((n <? 1) || (3 <? n)) eqn:Hn; [done|].
  destruct (any_of _ (take (Z.to_nat n) g)) eqn:Hz; [done|]. destruct (_ && _); [done|].
  apply orb_false_iff in Hn as [Hn1 Hn2]. apply Z.ltb_ge in Hn1, Hn2. split; [lia|]. intros d Hd.
  apply any_of_false in Hz. rewrite Forall_lookup in Hz. split.
  - apply Z.eqb_neq. apply (Hz (Z.to_nat d)). rewrite lookup_take_lt by lia. apply elem_lookup. lia.
  - intros l ->. pose proof (for_range_Ok _ _ _ Hv d ltac:(lia)) as Hb. unfold check_dim in Hb.
    destruct (Z.eqb_spec (elem l d) 0); [done|]. split; [done|].
    destruct (Z.eqb_spec (elem g d mod elem l d) 0); [done|]. done.
Qed.

(** The array a [size_t*] argument points to. *)
Definition size_array (n : Z) (l : list Z) : Prop :=
  n <= Z.of_nat (length l) /\ Forall (fun x => 0 <= x < 2 ^ 64) l.

Lemma size_array_elem n l d : size_array n l -> 0 <= d < n -> 0 <= elem l d < 2 ^ 64.
Proof.
  intros [Hn Hl] Hd. rewrite Forall_lookup in Hl. apply (Hl (Z.to_nat d)). apply elem_lookup. lia.
Qed.

Definition no_offset (goff : option (list Z)) : Prop := forall l d, goff = Some l -> elem l d = 0.

Lemma elem_no_offset n goff d : no_offset goff -> 0 <= d < 3 -> elem (fill3 n goff 0) d = 0.
Proof.
  intros Hz Hd. destruct goff as [l|].
  - rewrite elem_fill3 by done. rewrite (Hz l d eq_refl). by destruct (_ <? _).
  - assert (d = 0 \/ d = 1 \/ d = 2) as [->|[->| ->]] by lia; done.
Qed.

Lemma elem_dim_max env n g d : 0 <= d < 3 -> (forall d, 0 <= d < 3 -> 0 < elem g d) -> elem (dim_max_of env n g) d <= elem g d.
Proof.
  intros Hd Hg. assert (elem (dim_max_of env n g) d = if d <? n
            then Z.min (elem (if max_set env && negb (max_total env) then max_wgs_range env
                              else device_max_work_item_sizes env) d) (elem g d) else 1) as ->.
  { assert (d = 0 \/ d = 1 \/ d = 2) as [->|[->| ->]] by lia; done. }
  specialize (Hg d Hd). destruct (d <? n); lia.
Qed.

(** The work group size of an accepted call, as chosen by the application or by
    the runtime. *)
Definition local_of (env : enqueue_env) (n : Z) (g : list Z) (lsz : option (list Z)) (l : list Z) : Prop :=
  match lsz with
  | Some l0 => l = fill3 n (Some l0) 1
  | None => exists v, best (max_wg_size_of env) (fill3 n (Some g) 1)
      (dim_max_of env n (fill3 n (Some g) 1)) (fun _ _ _ => True) (l, v)
  end.

Lemma local_of_divides env n g lsz l :
  1 <= n <= 3 -> size_array n g -> (forall l0, lsz = Some l0 -> size_array n l0) ->
  (forall d, 0 <= d < n -> 0 < elem g d /\ forall l0, lsz = Some l0 -> elem l0 d <> 0 /\ elem g d mod elem l0 d = 0) ->
  local_of env n g lsz l ->
  forall d, 0 <= d < n -> 0 < elem l d /\ (elem l d | elem g d).
Proof.
  intros Hn Hg Hl Hd Hloc d Hdn. destruct (Hd d Hdn) as [Hpos Hmod]. unfold local_of in Hloc.
  destruct lsz as [l0|].
  - subst l. rewrite elem_fill3, (proj2 (Z.ltb_lt _ _)) by lia. destruct (Hmod l0 eq_refl) as [H1 H2].
    pose proof (size_array_elem n l0 d (Hl l0 eq_refl) Hdn). split; [lia|]. by apply Z.mod_divide.
  - destruct Hloc as (v & (x & y & z & Hf & _ & Hb) & _). cbn [fst] in Hf. subst l.
    assert (elem (fill3 n (Some g) 1) d = elem g d) as He by (rewrite elem_fill3, (proj2 (Z.ltb_lt _ _)) by lia; done).
    destruct Hb as [[((Hx & Dx) & (Hy & Dy) & (Hz & Dz)) _]|(-> & -> & ->)].
    + assert (d = 0 \/ d = 1 \/ d = 2) as [->|[->| ->]] by lia; rewrite He in *;
        [change (elem [x; y; z] 0) with x|change (elem [x; y; z] 1) with y|change (elem [x; y; z] 2) with z];
        (split; [clear -Hx Hy Hz; lia|done]).
    + assert (d = 0 \/ d = 1 \/ d = 2) as [->|[->| ->]] by lia; (split; [done|apply Z.divide_1_l]).
Qed.

Lemma enqueue_accepts env n goff g lsz off g3 l :
  api_checks env = true -> size_array n g -> (forall l0, lsz = Some l0 -> size_array n l0) ->
  (lsz = None -> let f := elem (fill3 n (Some g) 1) in f 0 * f 1 * f 2 < 2 ^ 64) ->
  enqueue_sizes env n goff (Some g) lsz tt = Ok (off, g3, l) tt ->
  1 <= n <= 3 /\ off = fill3 n goff 0 /\ g3 = fill3 n (Some g) 1 /\ local_of env n g lsz l /\
  forall d, 0 <= d < n -> 0 < elem g d < 2 ^ 64 /\ 0 < elem l d /\ (elem l d | elem g d).
Proof.
  intros Hc Hg Hl Hv He. unfold enqueue_sizes, bind, ret in He.
  destruct (validOrError env n (Some g) lsz tt) as [[] []|] eqn:Hval; [|done].
  destruct (check_local _ _ tt) as [[] []|]; [|done]. injection He as <- <- Hle.
  destruct (validOrError_accepts env n g lsz Hc (proj1 Hg) Hval) as [Hn Hd].
  assert (forall d, 0 <= d < n -> 0 < elem g d < 2 ^ 64) as Hpos.
  { intros d Hdn. pose proof (size_array_elem n g d Hg Hdn). destruct (Hd d Hdn). lia. }
  assert (local_of env n g lsz l) as Hloc.
  { unfold local_of. destruct lsz as [l0|]; [done|].
    assert (forall d, 0 <= d < 3 -> 0 < elem (fill3 n (Some g) 1) d) as Hg3.
    { intros d Hd3. rewrite elem_fill3 by done. destruct (Z.ltb_spec d n); [apply Hpos|]; lia. }
    destruct (pick_local_spec (max_wg_size_of env) (fill3 n (Some g) 1) (dim_max_of env n (fill3 n (Some g) 1)))
      as (s & Hs & Hb); [done|by apply Hv|intros d Hd3; by apply elem_dim_max|].
    assert (match pick_local (max_wg_size_of env) (fill3 n (Some g) 1) (dim_max_of env n (fill3 n (Some g) 1)) ([1; 1; 1], 1)
      with Ok _ s | Err _ s => fst s end = l) as Hle' by exact Hle.
    rewrite Hs in Hle'. exists (snd s). rewrite <- Hle'. by destruct s. }
  split; [exact Hn|]. split_and!; try done. intros d Hdn. split; [by apply Hpos|].
  eapply local_of_divides; [exact Hn|done|done| |done|done]. intros d' Hd'. split; [by apply Hpos|by apply Hd].
Qed.

(** The work of an accepted call without offset is in whole work groups. *)
Lemma enqueue_whole env n goff g lsz off g3 l :
  api_checks env = true -> size_array n g -> (forall l0, lsz = Some l0 -> size_array n l0) ->
  (lsz = None -> let f := elem (fill3 n (Some g) 1) in f 0 * f 1 * f 2 < 2 ^ 64) -> no_offset goff ->
  enqueue_sizes env n goff (Some g) lsz tt = Ok (off, g3, l) tt ->
  Forall whole (initial_work (Z.to_nat n) off g3 l).
Proof.
  intros Hc Hg Hl Hv Hno He. destruct (enqueue_accepts env n goff g lsz off g3 l Hc Hg Hl Hv He)
    as (Hn & -> & -> & _ & Hd).
  apply Forall_forall. intros x Hx. unfold initial_work in Hx. apply list_elem_of_fmap in Hx as (d & -> & Hin).
  assert (d < 3)%nat as Hd3 by set_solver by lia.
  destruct (Nat.ltb_spec d (Z.to_nat n)) as [Hlt|]; unfold whole; cbn [m_goffset m_gsize m_lsize].
  - rewrite elem_no_offset, elem_fill3, (proj2 (Z.ltb_lt _ _)) by (done || lia).
    destruct (Hd (Z.of_nat d)) as (H1 & H2 & H3); [lia|]. done.
  - split_and!; try lia. apply Z.divide_refl.
Qed.
