(* ===== verification/OclContext.v ===== *)
(** Execution contexts against the interface of run objects: the laws a run
    object obeys ([RunLaws]), the invariant of a context and of the threads that
    work on it, and its preservation by every step. *)

From stdpp Require Import relations.
From S2P Require Import Prelude Bytes CppStd OclEvent XrtKernel OclNdrange OclGroups.

(** * The contract of run objects

    [run_arg r i] are the bytes of argument [i]; [run_armed] says that exactly
    the completion callback is registered; [good_buffer] are the buffers a cache
    may hand out. *)
Class RunLaws (R : Type) `{RunApi R} := {
  run_valid : R -> Prop;
  run_armed : R -> Prop;
  run_fresh : R -> Prop;
  run_arg : R -> Z -> list Z;
  good_buffer : list Z -> Prop;
  law_clone b r : run_valid r -> good_buffer b ->
    exists r', run_clone b r = inr r' /\ run_valid r' /\ run_fresh r' /\ forall i, run_arg r' i = run_arg r i;
  law_add_callback r : run_valid r -> run_fresh r ->
    exists r', run_add_callback r = Ok [] r' /\ run_valid r' /\ run_armed r' /\ run_busy r' = false /\
      forall i, run_arg r' i = run_arg r i;
  law_set_arg i v r : run_valid r -> run_armed r -> run_busy r = false ->
    run_arg r i <> [] -> (length (run_arg r i) <= length v)%nat -> bytes v ->
    exists r', run_set_arg i v r = Ok tt r' /\ run_valid r' /\ run_armed r' /\ run_busy r' = false /\
      run_arg r' i = take (length (run_arg r i)) v /\ forall j, j <> i -> run_arg r' j = run_arg r j;
  law_start r : run_valid r -> run_armed r -> run_busy r = false ->
    exists r', run_start true r = Ok tt r' /\ run_valid r' /\ run_armed r' /\ run_busy r' = true /\
      forall i, run_arg r' i = run_arg r i;
  law_notify r : run_valid r -> run_armed r -> run_busy r = true ->
    exists cb r', run_notify r = Ok [cb] r' /\ run_valid r' /\ run_armed r' /\ run_busy r' = false /\
      forall i, run_arg r' i = run_arg r i;
}.

Section context.
Context {R : Type} {api : RunApi R} {laws : RunLaws R}.
Context (rtinfo : list (rtinfo_type * Z)) (printf : list (Z * option Z)).
Context (cache : nat -> list Z).
Hypothesis cache_ok : forall n, good_buffer (cache n).

Let submits : nat -> bool := fun _ => true.

(** * Arguments of a work group *)

(** The (argument, value) pairs a work group sets, and their arguments. *)
Definition rtinfo_write (dim : nat) (w : list dimension) (a : rtinfo_type * Z) : list (Z * Z) :=
  match fst a, rtinfo_values dim w (fst a) with
  | rt_dim, _ => [(snd a, Z.of_nat dim)]
  | _, Some v => (fun i => (i + snd a, elem v i)) <$> [0; 1; 2]
  | _, None => []
  end.
Definition printf_write (w : list dimension) (a : Z * option Z) : list (Z * Z) :=
  match snd a with None => [] | Some addr => [(fst a, u64 (addr + printf_offset w))] end.
Definition writes (dim : nat) (w : list dimension) : list (Z * Z) :=
  (rtinfo ≫= rtinfo_write dim w) ++ (printf ≫= printf_write w).

Definition rtinfo_index (a : rtinfo_type * Z) : list Z :=
  match fst a with rt_dim => [snd a] | _ => (fun i => i + snd a) <$> [0; 1; 2] end.
Definition indices : list Z :=
  (rtinfo ≫= rtinfo_index) ++ (printf ≫= fun a => if snd a is Some _ then [fst a] else []).

(** The run object of the kernel: the length of every argument, and the values
    of those the context does not set. *)
Context (base : Z -> list Z).
Hypothesis no_printf : Forall (fun a => fst a <> rt_printf) rtinfo.
Hypothesis indices_nodup : NoDup indices.
Hypothesis indices_ok : Forall (fun i => base i <> [] /\ (length (base i) <= 8)%nat) indices.

Lemma rtinfo_write_index dim w l :
  Forall (fun a => fst a <> rt_printf) l -> (fst <$> (l ≫= rtinfo_write dim w)) = l ≫= rtinfo_index.
Proof.
  induction 1 as [|a l Ha Hl IH]; [done|]. cbn [mbind list_bind]. rewrite fmap_app, IH. f_equal.
  by destruct a as [[] i].
Qed.

Lemma printf_write_index w (l : list (Z * option Z)) :
  (fst <$> (l ≫= printf_write w)) = l ≫= fun a => if snd a is Some _ then [fst a] else [].
Proof.
  induction l as [|a l IH]; [done|]. cbn [mbind list_bind]. rewrite fmap_app, IH. f_equal.
  by destruct a as [i []].
Qed.

Lemma writes_indices dim w : (fst <$> writes dim w) = indices.
Proof. unfold writes, indices. by rewrite fmap_app, rtinfo_write_index, printf_write_index. Qed.

Definition run_inv (r : R) : Prop :=
  run_valid r /\ run_armed r /\ (forall j, length (run_arg r j) = length (base j)) /\
  forall j, j ∉ indices -> run_arg r j = base j.

(** The arguments of the work group [w] are set in [r]. *)
Definition args_of (dim : nat) (w : list dimension) (r : R) : Prop :=
  forall i v, (i, v) ∈ writes dim w -> run_arg r i = take (length (base i)) (le_bytes 8 v).

Lemma on_handle_ok {A} h (m : M R exn A) c r x r' :
  runs c !! h = Some r -> m r = Ok x r' -> on_handle h m c = Ok x (set_runs (<[h := r']> (runs c)) c).
Proof. intros Hh Hm. unfold on_handle. by rewrite Hh, Hm. Qed.

Definition set1 (h : nat) (p : Z * Z) : M (context R) exn unit := set_rtinfo_arg1 h (fst p) (snd p).

(** Setting an argument of a run leaves the rest of the context alone. *)
Lemma set1_frame h p c c' u : set1 h p c = Ok u c' -> m_dim c' = m_dim c /\ m_work c' = m_work c.
Proof.
  unfold set1, set_rtinfo_arg1, on_handle. destruct (runs c !! h) as [r|]; [|done].
  destruct (run_set_arg _ _ r); [|done]. by injection 1 as _ <-.
Qed.

Lemma set1_list_frame h l c c' u :
  for_each l (set1 h) c = Ok u c' -> m_dim c' = m_dim c /\ m_work c' = m_work c.
Proof.
  revert c. induction l as [|p l IH]; intros c; cbn [for_each].
  { unfold ret. by injection 1 as _ <-. }
  unfold bind. destruct (set1 h p c) as [u1 c1|] eqn:Hp; [|done]. intros Hl.
  destruct (set1_frame _ _ _ _ _ Hp) as [<- <-]. by apply IH.
Qed.

Lemma single_ret {S E A} (f : A -> M S E unit) x s : for_each [x] f s = f x s.
Proof. cbn. unfold bind, ret. by destruct (f x s) as [[]|]. Qed.

(** A loop whose body sets a list of arguments that depends on the work. *)
Lemma for_each_writes {A} h (l : list A) body (wr : A -> list (Z * Z)) c :
  (forall a c', a ∈ l -> m_dim c' = m_dim c -> m_work c' = m_work c ->
    body a c' = for_each (wr a) (set1 h) c') ->
  for_each l body c = for_each (l ≫= wr) (set1 h) c.
Proof.
  revert c. induction l as [|a l IH]; intros c Hb; [done|]. cbn [mbind list_bind for_each].
  rewrite for_each_app. unfold bind at 1. rewrite (Hb a c) by set_solver.
  destruct (for_each (wr a) (set1 h) c) as [u c'|] eqn:Ha; [|done].
  destruct (set1_list_frame _ _ _ _ _ Ha) as [Ed Ew]. apply IH.
  intros b c'' Hin D W. apply Hb; [set_solver|congruence..].
Qed.

Lemma set_rtinfo_args_writes h c :
  elem (m_lsize <$> m_work c) 0 <> 0 -> elem (m_lsize <$> m_work c) 1 <> 0 ->
  set_rtinfo_args rtinfo printf h c = for_each (writes (m_dim c) (m_work c)) (set1 h) c.
Proof.
  intros H0 H1. unfold set_rtinfo_args, writes. rewrite for_each_app. unfold bind at 1.
  rewrite (for_each_writes h rtinfo _ (rtinfo_write (m_dim c) (m_work c))).
  2:{ intros a c' Ha <- <-. rewrite Forall_forall in no_printf. specialize (no_printf a Ha).
      destruct a as [[] i]; try done; unfold bind at 1 2, gets; cbn [fst snd rtinfo_values rtinfo_write]; try done.
      unfold rtinfo_write. cbn [fst snd]. by rewrite single_ret. }
  destruct (for_each (rtinfo ≫= _) (set1 h) c) as [u c'|] eqn:Hr; [|done].
  destruct (set1_list_frame _ _ _ _ _ Hr) as [Ed Ew]. rewrite <- Ew in *.
  apply (for_each_writes h printf _ (printf_write (m_work c'))). intros [i [addr|]] c'' _ _ Ew'; [|done].
  unfold set_rtinfo_printf, printf_write, bind, gets. cbn [fst snd]. rewrite Ew', single_ret.
  rewrite (proj2 (Z.eqb_neq _ _) H0), (proj2 (Z.eqb_neq _ _) H1). done.
Qed.

(** Setting a list of distinct arguments of a run that is not running. *)
Lemma set_list_spec h l c r :
  runs c !! h = Some r -> run_valid r -> run_armed r -> run_busy r = false -> NoDup (fst <$> l) ->
  Forall (fun p => run_arg r (fst p) <> [] /\ (length (run_arg r (fst p)) <= 8)%nat) l ->
  exists r', for_each l (set1 h) c = Ok tt (set_runs (<[h := r']> (runs c)) c) /\
    run_valid r' /\ run_armed r' /\ run_busy r' = false /\
    (forall i v, (i, v) ∈ l -> run_arg r' i = take (length (run_arg r i)) (le_bytes 8 v)) /\
    forall j, j ∉ (fst <$> l) -> run_arg r' j = run_arg r j.
Proof.
  revert c r. induction l as [|[i v] l IH]; intros c r Hh V A B N F.
  { exists r. rewrite list_insert_id by done. split; [by destruct c|]. split_and!; try done.
    intros i v Hin. by apply not_elem_of_nil in Hin. }
  inversion F as [|? ? [F1 F2] F']; subst. cbn [fst] in F1, F2.
  rewrite fmap_cons in N. apply NoDup_cons in N as [Hi N]. cbn [fst] in Hi.
  destruct (law_set_arg i (le_bytes 8 v) r V A B F1) as (r1 & Hr1 & V1 & A1 & B1 & E1 & Fr1);
    [by rewrite length_le_bytes|apply bytes_le_bytes|].
  assert (set1 h (i, v) c = Ok tt (set_runs (<[h := r1]> (runs c)) c)) as Hset
    by by apply (on_handle_ok h _ c r).
  pose proof (lookup_lt_Some _ _ _ Hh) as Hlt.
  destruct (IH (set_runs (<[h := r1]> (runs c)) c) r1) as (r2 & Hr2 & V2 & A2 & B2 & E2 & Fr2);
    [by apply list_lookup_insert_eq|done..| |].
  { rewrite Forall_forall in F' |- *. intros p Hp. rewrite Fr1; [by apply F'|].
    intros <-. apply Hi. by apply list_elem_of_fmap_2. }
  exists r2. split.
  { cbn [for_each]. unfold bind. rewrite Hset, Hr2. unfold set_runs. cbn. by rewrite list_insert_insert_eq. }
  split_and!; try done.
  - intros i' v' [[= -> ->]|Hin]%elem_of_cons; [by rewrite Fr2|].
    rewrite (E2 _ _ Hin), Fr1; [done|]. intros ->. apply Hi. change i with (fst (i, v')). by apply list_elem_of_fmap_2.
  - intros j [Hj1 Hj2]%not_elem_of_cons. rewrite Fr2, Fr1; done.
Qed.

Lemma set_rtinfo_args_spec h c r :
  runs c !! h = Some r -> run_inv r -> run_busy r = false ->
  elem (m_lsize <$> m_work c) 0 <> 0 -> elem (m_lsize <$> m_work c) 1 <> 0 ->
  exists r', set_rtinfo_args rtinfo printf h c = Ok tt (set_runs (<[h := r']> (runs c)) c) /\
    run_inv r' /\ run_busy r' = false /\ args_of (m_dim c) (m_work c) r'.
Proof.
  intros Hh (V & A & L & Fr) B H0 H1. rewrite set_rtinfo_args_writes by done.
  destruct (set_list_spec h (writes (m_dim c) (m_work c)) c r) as (r' & Hr & V' & A' & B' & E' & Fr');
    [done..|by rewrite writes_indices| |].
  { rewrite Forall_forall. intros p Hp.
    assert (fst p ∈ indices) as Hi by (rewrite <- (writes_indices (m_dim c) (m_work c)); by apply list_elem_of_fmap_2).
    rewrite Forall_forall in indices_ok. destruct (indices_ok _ Hi) as [I1 I2]. rewrite L. split; [|done].
    intros He. apply I1. apply nil_length_inv. by rewrite <- L, He. }
  exists r'. split; [done|]. rewrite writes_indices in Fr'. unfold run_inv. split_and!; try done.
  - intros j. destruct (decide (j ∈ indices)) as [Hj|Hj]; [|by rewrite Fr'].
    rewrite <- (writes_indices (m_dim c) (m_work c)) in Hj. apply list_elem_of_fmap in Hj as ([i v] & -> & Hj).
    cbn [fst]. rewrite (E' _ _ Hj), length_take, length_le_bytes, L.
    rewrite Forall_forall in indices_ok.
    destruct (indices_ok i) as [_ ?]; [|lia]. rewrite <- (writes_indices (m_dim c) (m_work c)).
    change i with (fst (i, v)). by apply list_elem_of_fmap_2.
  - intros j Hj. by rewrite Fr', Fr.
  - intros i v Hin. by rewrite (E' _ _ Hin), L.
Qed.

(** * The invariant of a context

    The work is the range of [w0], whose last dimensions are unused past
    [dim0]. *)

Context (dim0 : nat) (w0 : list dimension) (cus : Z) (ctl : control_type).
Hypothesis w0_ok : work_ok dim0 w0.
Hypothesis w0_dims : length w0 = 3%nat.
Hypothesis cus_ok : 0 < cus <= max_cus.

Definition range : list Z := groups <$> w0.
Definition lim : Z := (if decide (ctl = ctrl_chain) then 20 else 2) * cus.

(** The work of the context when it starts the group [g]. *)
Definition work_of (g : list Z) : list dimension :=
  zip_with (fun d x => at_group (x * m_lsize d) x d) w0 g.

Record entry_ok (k : nat) (e : started R) : Prop := {
  eo_group : st_group e = group_at range (Z.of_nat k);
  eo_global : st_global e = zip_with Z.mul (st_group e) (m_lsize <$> w0);
  eo_run : run_inv (st_object e);
  eo_args : args_of dim0 (work_of (st_group e)) (st_object e);
}.

Record ctx_inv (c : context R) : Prop := {
  ci_dim : m_dim c = dim0;
  ci_work : work_ok dim0 (m_work c);
  ci_range : same_range w0 (m_work c);
  ci_cus : m_num_cus c = cus;
  ci_ctl : m_control c = ctl;
  ci_run : (m_run c < length (runs c))%nat;
  ci_runs : Forall run_inv (runs c);
  ci_free : NoDup (m_freeruns c);
  ci_idle h : h ∈ m_freeruns c ->
    h ∉ m_activeruns c /\ exists r, runs c !! h = Some r /\ run_busy r = false;
  ci_active h : h ∈ m_activeruns c ->
    exists r e, runs c !! h = Some r /\ e ∈ starts c /\ st_run e = h /\ (forall i, run_arg r i = run_arg (st_object e) i);
  ci_count : m_active c = Z.of_nat (size (m_activeruns c));
  ci_bound : m_active c <= lim;
  ci_done : Z.of_nat (length (starts c)) = if m_done c then volume range else position (m_work c);
  ci_starts k e : starts c !! k = Some e -> entry_ok k e;
}.

Lemma lim_range : 0 < lim < 2 ^ 64.
Proof. unfold lim, max_cus in *. destruct (decide _); lia. Qed.

Lemma limit_eq c : ctx_inv c -> limit c = lim.
Proof. intros I. unfold limit. rewrite (ci_ctl c I), (ci_cus c I). apply u64_small. pose proof lim_range. unfold lim in *. lia. Qed.

Lemma work_of_groups w : Forall at_a_group w -> same_range w0 w -> w = work_of (m_cu_group_id <$> w).
Proof.
  unfold work_of. clear w0_ok w0_dims. intros Hw. revert w0.
  induction Hw as [|d w (_ & _ & Hd) Hw IH]; intros [|d0 w1] (S1 & S2 & S3); try done.
  cbn in *. injection S1 as S1 S1'. injection S2 as S2 S2'. injection S3 as S3 S3'.
  f_equal; [|by apply IH]. destruct d, d0. cbn in *. subst. done.
Qed.

Lemma local_nonzero c i : ctx_inv c -> (i < 3)%nat -> elem (m_lsize <$> m_work c) (Z.of_nat i) <> 0.
Proof.
  intros I Hi. destruct (ci_range c I) as (_ & _ & ->). unfold elem. rewrite zlookup_nat, list_lookup_fmap.
  destruct (lookup_lt_is_Some_2 w0 i) as [d Hd]; [by rewrite w0_dims|]. rewrite Hd. cbn.
  destruct w0_ok as [Ha _]. rewrite Forall_forall in Ha.
  destruct (Ha d (list_elem_of_lookup_2 _ _ _ Hd)) as ((_ & ? & _) & _). lia.
Qed.

(** ** Run objects *)

(** What [get_free_run] hands out: a run that is not active, from the list or
    new. *)
Record free_run (c : context R) (h : nat) (r : R) (free : list nat) (rs : list R) : Prop := {
  fr_lookup : rs !! h = Some r;
  fr_inv : run_inv r;
  fr_busy : run_busy r = false;
  fr_active : h ∉ m_activeruns c;
  fr_nodup : NoDup free;
  fr_other : h ∉ free;
  fr_subset : forall x, x ∈ free -> x ∈ m_freeruns c;
  fr_runs : rs = runs c \/ h = length (runs c) /\ rs = runs c ++ [r];
}.

Lemma get_free_run_spec c :
  ctx_inv c -> exists h r free rs,
    get_free_run cache c = Ok h (set_lists free (m_activeruns c) (m_active c) (set_runs rs c)) /\
    free_run c h r free rs.
Proof.
  intros I. unfold get_free_run, bind, gets, id. pose proof (ci_free c I) as Hnd.
  destruct (last (m_freeruns c)) as [h|] eqn:Hl.
  - apply last_Some in Hl as [l Hl]. rewrite Hl in Hnd.
    apply NoDup_app in Hnd as (Hnd & Hh & _).
    destruct (ci_idle c I h) as (Hna & r & Hr & Hb); [rewrite Hl; set_solver|].
    exists h, r, l, (runs c). split.
    { unfold modify, ret. rewrite Hl, length_app, take_app_length' by (cbn; lia). by destruct c. }
    split; try done; [| |rewrite Hl; set_solver|by left].
    + pose proof (ci_runs c I) as Hrs. rewrite Forall_forall in Hrs. by eapply Hrs, list_elem_of_lookup_2.
    + intros Hin. apply (Hh h Hin). set_solver.
  - apply last_None in Hl. destruct (lookup_lt_is_Some_2 (runs c) (m_run c) (ci_run c I)) as [r0 Hr0].
    pose proof (ci_runs c I) as Hrs. rewrite Forall_forall in Hrs.
    destruct (Hrs r0 (list_elem_of_lookup_2 _ _ _ Hr0)) as (V & A & L & Fr).
    destruct (law_clone (cache (length (runs c))) r0 V (cache_ok _)) as (r1 & Hc & V1 & F1 & E1).
    destruct (law_add_callback r1 V1 F1) as (r2 & Ha & V2 & A2 & B2 & E2).
    exists (length (runs c)), r2, [], (runs c ++ [r2]). rewrite Hr0, Hc. split.
    { unfold modify at 1. unfold on_handle. cbn [runs set_runs].
      rewrite list_lookup_middle, Ha by done. unfold ret. unfold set_lists, set_runs. cbn.
      rewrite insert_app_r_alt, Nat.sub_diag by done. cbn. by rewrite Hl. }
    split; try done; [by rewrite list_lookup_middle| | |constructor|set_solver|set_solver|by right].
    + unfold run_inv. split_and!; [done..| |]; intros j; rewrite ?E2, ?E1; [apply L|apply Fr].
    + intros Hin. destruct (ci_active c I _ Hin) as (r & e & Hr & _). apply lookup_lt_Some in Hr. lia.
Qed.
(** ** Starting a work group *)

Definition is_busy (c : context R) (h : nat) : Prop := exists r, runs c !! h = Some r /\ run_busy r = true.

(** What changes when a work group is started on run [h]. *)
Record group_started (c c' : context R) (h : nat) : Prop := {
  gs_inactive : h ∉ m_activeruns c;
  gs_active : m_activeruns c' = {[h]} ∪ m_activeruns c;
  gs_count : m_active c' = m_active c + 1;
  gs_starts : exists e, starts c' = starts c ++ [e] /\ st_run e = h;
  gs_status : statuses c' = statuses c ++ (if starts c is [] then [CL_RUNNING] else []);
  gs_busy x : is_busy c' x <-> x = h \/ is_busy c x;
}.

Lemma run_inv_args r r' :
  run_inv r -> run_valid r' -> run_armed r' -> (forall i, run_arg r' i = run_arg r i) -> run_inv r'.
Proof.
  intros (_ & _ & L & Fr) V A E. unfold run_inv. split_and!; [done..| |]; intros j; rewrite E; [apply L|apply Fr].
Qed.

(** The context after [start]. *)
Definition after_start (c : context R) (h : nat) (free : list nat) (rs : list R) (r : R) : context R :=
  let '(w, b) := next_group (m_dim c) (m_work c) in
  Context_ (m_dim c) w (m_num_cus c) (m_control c) (m_run c) free ({[h]} ∪ m_activeruns c)
    (u64 (m_active c + 1)) (m_done c || b) (<[h := r]> rs)
    (statuses c ++ (if starts c is [] then [CL_RUNNING] else []))
    (starts c ++ [Started h (m_cu_group_id <$> m_work c) (m_cu_global_id <$> m_work c) r]).

Lemma start_runs c :
  ctx_inv c -> m_done c = false ->
  exists h r0 free rs r, free_run c h r0 free rs /\
    start rtinfo printf cache submits c = Ok tt (after_start c h free rs r) /\
    run_inv r /\ run_busy r = true /\ args_of dim0 (m_work c) r.
Proof.
  intros I Hd. pose proof (ci_work c I) as [Hw _]. pose proof (ci_done c I) as Hp. rewrite Hd in Hp.
  set (c0 := event_set_status CL_RUNNING c).
  set (c1 := if starts c is [] then c0 else c).
  assert (when (forallb (fun d => m_cu_group_id d =? 0) (m_work c)) (modify (event_set_status CL_RUNNING)) c
    = Ok tt c1 :> result _ exn _) as Hfirst.
  { rewrite first_group, <- Hp by done. unfold when, c1, c0. by destruct (starts c). }
  assert (ctx_inv c1) as I1 by (unfold c1, c0; destruct (starts c) eqn:Hs; [destruct I; by split|done]).
  destruct (get_free_run_spec c1 I1) as (h & r0 & free & rs & Hget & F).
  destruct F as [F1 F2 F3 F4 F5 F6 F7 F8]. set (c2 := set_lists free _ _ _) in Hget.
  assert (m_dim c2 = m_dim c /\ m_work c2 = m_work c /\ runs c2 = rs) as (D2 & W2 & R2)
    by (unfold c2, c1, c0; by destruct (starts c)).
  destruct (set_rtinfo_args_spec h c2 r0) as (r1 & Hset & V1 & B1 & G1); [by rewrite R2|done..| | |].
  { rewrite W2. apply (local_nonzero c 0 I). lia. }
  { rewrite W2. apply (local_nonzero c 1 I). lia. }
  pose proof (lookup_lt_Some _ _ _ F1) as Hlt.
  destruct V1 as (V1 & A1 & L1). destruct (law_start r1 V1 A1 B1) as (r2 & Hst & V2 & A2 & B2 & E2).
  exists h, r0, free, rs, r2. rewrite W2, D2, (ci_dim c I) in G1. split; [|split].
  { assert (m_activeruns c1 = m_activeruns c /\ m_freeruns c1 = m_freeruns c /\ runs c1 = runs c) as (E1 & E3 & E4)
      by (unfold c1, c0; by destruct (starts c)). rewrite E1 in F4. rewrite E3 in F7. rewrite E4 in F8. done. }
  2:{ split; [by apply (run_inv_args r1)|]. split; [done|]. intros i v Hin. by rewrite E2, (G1 _ _ Hin). }
  unfold start. unfold bind, gets at 1. rewrite Hfirst. unfold bind. rewrite Hget, Hset.
  unfold update_work, mark_active, modify, gets, after_start.
  cbn [set_runs set_lists set_work c2 m_dim m_work runs m_activeruns m_freeruns m_active m_done starts statuses].
  assert (m_dim c1 = m_dim c /\ m_work c1 = m_work c) as [Ed Ew] by (unfold c1, c0; by destruct (starts c)).
  rewrite Ed, Ew. destruct (next_group (m_dim c) (m_work c)) as [w b].
  unfold on_handle. cbn [set_runs set_lists set_work c2 m_dim m_work runs m_activeruns m_freeruns m_active m_done starts statuses].
  rewrite list_lookup_insert_eq by done. unfold submits. rewrite Hst. cbn [set_runs set_lists set_work runs].
  rewrite list_lookup_insert_eq by (by rewrite length_insert). rewrite list_insert_insert_eq.
  unfold add_start. cbn. unfold c1, c0. destruct (starts c) eqn:Hs; cbn; by rewrite Hs, ?app_nil_r.
Qed.
(** The fields of a context that is given explicitly. *)
Ltac ctx_simpl :=
  cbn [m_dim m_work m_num_cus m_control m_run m_freeruns m_activeruns m_active m_done runs statuses starts
       set_work set_runs set_lists event_set_status add_start].

Lemma lookup_free_run c h r0 free rs x r :
  free_run c h r0 free rs -> x <> h -> rs !! x = Some r <-> runs c !! x = Some r.
Proof.
  intros F Hx. destruct (fr_runs _ _ _ _ _ F) as [->|[-> ->]]; [done|].
  destruct (decide (x < length (runs c))%nat) as [Hlt|Hge].
  - by rewrite lookup_app_l.
  - rewrite lookup_app_r, !lookup_ge_None_2 by (cbn; lia). done.
Qed.

Lemma start_spec c :
  ctx_inv c -> m_done c = false -> m_active c < lim ->
  exists c' h, start rtinfo printf cache submits c = Ok tt c' /\ ctx_inv c' /\ group_started c c' h.
Proof.
  intros I Hd Hlim. destruct (start_runs c I Hd) as (h & r0 & free & rs & r & F & Hrun & V & B & G).
  unfold after_start in Hrun. destruct (next_group (m_dim c) (m_work c)) as [w b] eqn:Hn.
  pose proof (ci_dim c I) as Ed. rewrite Ed in Hn. pose proof (ci_work c I) as Hw.
  destruct (next_group_spec dim0 _ _ _ Hw Hn) as (Hw' & Hs' & Hpos).
  pose proof (lookup_lt_Some _ _ _ (fr_lookup _ _ _ _ _ F)) as Hlt. pose proof lim_range.
  pose proof (ci_count c I) as Hcnt. pose proof (ci_done c I) as Hk. rewrite Hd in Hk. rewrite Hd in Hrun. cbn [orb] in Hrun.
  assert (u64 (m_active c + 1) = m_active c + 1) as Hu by (apply u64_small; lia). rewrite Hu in Hrun.
  pose proof (same_range_groups _ _ (ci_range c I)) as Hgr. fold range in Hgr.
  set (e := Started h _ _ r) in Hrun. eexists _, h. split; [exact Hrun|]. split.
  - split; ctx_simpl.
    + done.
    + done.
    + by etrans; [apply (ci_range c I)|].
    + apply (ci_cus c I).
    + apply (ci_ctl c I).
    + rewrite length_insert. pose proof (ci_run c I). destruct (fr_runs _ _ _ _ _ F) as [->|[_ ->]]; [done|].
      rewrite length_app. lia.
    + apply Forall_insert; [|done]. pose proof (ci_runs c I).
      destruct (fr_runs _ _ _ _ _ F) as [->|[_ ->]]; [done|]. apply Forall_app. split; [done|].
      constructor; [apply (fr_inv _ _ _ _ _ F)|done].
    + apply (fr_nodup _ _ _ _ _ F).
    + intros x Hx. assert (x <> h) as Hne by (intros ->; by apply (fr_other _ _ _ _ _ F)).
      destruct (ci_idle c I x (fr_subset _ _ _ _ _ F x Hx)) as (Ha & rx & Hrx & Hbx).
      split; [set_solver|]. exists rx. rewrite list_lookup_insert_ne by done.
      split; [by apply (lookup_free_run _ _ _ _ _ _ _ F Hne)|done].
    + intros x Hx. destruct (decide (x = h)) as [->|Hne].
      * exists r, e. rewrite list_lookup_insert_eq by done. split_and!; [done|set_solver|done|done].
      * destruct (ci_active c I x) as (rx & ex & Hrx & Hex & E1 & E2); [set_solver|].
        exists rx, ex. rewrite list_lookup_insert_ne by done.
        split_and!; [by apply (lookup_free_run _ _ _ _ _ _ _ F Hne)|set_solver|done|done].
    + rewrite size_union, size_singleton by (pose proof (fr_active _ _ _ _ _ F); set_solver). lia.
    + lia.
    + rewrite length_app. cbn. destruct b; [destruct Hpos as [Hpos _]; rewrite <- Hgr, <- Hpos|rewrite Hpos]; lia.
    + intros k e' [Hke|[Hle Hke]]%lookup_app_Some; [by apply (ci_starts c I)|].
      apply list_lookup_singleton_Some in Hke as [Hke <-].
      assert (Z.of_nat k = position (m_work c)) as Hkp by lia.
      pose proof (group_of_position _ (proj1 Hw)) as Hgp. rewrite Hgr in Hgp.
      destruct (ci_range c I) as (_ & _ & Hls). subst e. split; cbn [st_group st_global st_object].
      * by rewrite Hkp.
      * rewrite global_of_group by apply (proj1 Hw). by rewrite Hls.
      * done.
      * by rewrite <- work_of_groups by (apply (proj1 Hw) || apply (ci_range c I)).
  - split; ctx_simpl.
    + apply (fr_active _ _ _ _ _ F).
    + done.
    + done.
    + by exists e.
    + done.
    + intros x. unfold is_busy. ctx_simpl. destruct (decide (x = h)) as [->|Hne].
      * rewrite list_lookup_insert_eq by done. split; [by left|]. intros _. by exists r.
      * rewrite list_lookup_insert_ne by done. setoid_rewrite (lookup_free_run _ _ _ _ _ _ _ F Hne). naive_solver.
Qed.
(** ** Executing, and completion of a run *)

Record groups_started (c c' : context R) (hs : list nat) : Prop := {
  gss_nodup : NoDup hs;
  gss_inactive h : h ∈ hs -> h ∉ m_activeruns c;
  gss_active : m_activeruns c' = list_to_set hs ∪ m_activeruns c;
  gss_count : m_active c' = m_active c + Z.of_nat (length hs);
  gss_starts : exists es, starts c' = starts c ++ es /\ st_run <$> es = hs;
  gss_status : statuses c' = statuses c ++ (if starts c is [] then (if hs is [] then [] else [CL_RUNNING]) else []);
  gss_busy x : is_busy c' x <-> x ∈ hs \/ is_busy c x;
}.

Lemma groups_started_refl c : groups_started c c [].
Proof.
  split; [constructor|set_solver|set_solver|cbn; lia|exists []; by rewrite app_nil_r| |set_solver].
  destruct (starts c); by rewrite app_nil_r.
Qed.

Lemma groups_started_cons c c1 c2 h hs :
  group_started c c1 h -> groups_started c1 c2 hs -> groups_started c c2 (h :: hs).
Proof.
  intros [A1 A2 A3 (e & A4 & A4') A5 A6] [B1 B2 B3 B4 (es & B5 & B5') B6 B7]. split.
  - constructor; [|done]. intros Hin. apply (B2 h Hin). rewrite A2. set_solver.
  - intros x [->|Hx]%elem_of_cons; [done|]. specialize (B2 x Hx). set_solver.
  - rewrite B3, A2. set_solver.
  - rewrite B4, A3. cbn. lia.
  - exists (e :: es). rewrite B5, A4, <- app_assoc. cbn. by rewrite A4', B5'.
  - rewrite B6, A5, A4. destruct (starts c); cbn; by rewrite app_nil_r.
  - intros x. rewrite B7, A6. set_solver.
Qed.

Lemma start_loop_spec n c :
  ctx_inv c -> Z.of_nat n <= lim - m_active c ->
  exists c' hs, start_loop rtinfo printf cache submits n c = Ok tt c' /\ ctx_inv c' /\ groups_started c c' hs /\
    (m_done c' = true \/ length hs = n) /\ (m_done c = false -> n <> 0%nat -> hs <> []).
Proof.
  revert c. induction n as [|n IH]; intros c I Hn; cbn [start_loop].
  { exists c, []. split_and!; [done..|apply groups_started_refl|by right|done]. }
  unfold bind, gets. destruct (m_done c) eqn:Hd.
  { exists c, []. split_and!; [done..|apply groups_started_refl|by left|done]. }
  destruct (start_spec c I Hd) as (c1 & h & Hs & I1 & G1); [lia|]. rewrite Hs.
  destruct (IH c1 I1) as (c2 & hs & Hl & I2 & G2 & Hend & _).
  { rewrite (gs_count _ _ _ G1). lia. }
  exists c2, (h :: hs). split_and!; [done..|by eapply groups_started_cons| |done].
  cbn. destruct Hend as [?| ->]; [by left|by right].
Qed.

Lemma execute_spec c :
  ctx_inv c ->
  exists b c' hs, execute rtinfo printf cache submits c = Ok b c' /\ ctx_inv c' /\ groups_started c c' hs /\
    (m_done c = true -> c' = c /\ hs = []) /\ (m_done c = false -> m_activeruns c' <> ∅).
Proof.
  intros I. unfold execute, bind, gets, id. destruct (m_done c) eqn:Hd.
  { exists true, c, []. split_and!; [done..|apply groups_started_refl|done|done]. }
  pose proof (limit_eq c I) as Hlim. pose proof (ci_bound c I). pose proof (ci_count c I) as Hc. pose proof lim_range.
  destruct (start_loop_spec (Z.to_nat (limit c - m_active c)) c I) as (c' & hs & Hl & I' & G & Hend & Hne); [lia|].
  rewrite Hl. exists (m_done c'), c', hs. split_and!; [done..|]. intros _. rewrite (gss_active _ _ _ G).
  destruct (decide (m_activeruns c = ∅)) as [He|He]; [|set_solver].
  destruct hs as [|h hs]; [|set_solver]. exfalso. apply Hne; [done| |done].
  rewrite He, size_empty in Hc. lia.
Qed.

Lemma done_locked_spec h c :
  ctx_inv c -> h ∈ m_activeruns c -> ~ is_busy c h ->
  exists c', done_locked h c = Ok (bool_decide (m_activeruns c' = ∅) && m_done c') c' /\ ctx_inv c' /\
    m_activeruns c' = m_activeruns c ∖ {[h]} /\ runs c' = runs c /\ starts c' = starts c /\
    statuses c' = statuses c /\ m_done c' = m_done c.
Proof.
  intros I Hin Hb. destruct (ci_active c I h Hin) as (r & e & Hr & _).
  pose proof (ci_count c I) as Hc. pose proof (ci_bound c I). pose proof lim_range.
  assert (size (m_activeruns c) = S (size (m_activeruns c ∖ {[h]}))) as Hsz.
  { rewrite size_difference, size_singleton by set_solver.
    pose proof (size_singleton (C := gset nat) h). pose proof (subseteq_size {[h]} (m_activeruns c)). set_solver by lia. }
  assert (u64 (m_active c - 1) = Z.of_nat (size (m_activeruns c ∖ {[h]}))) as Hu by (rewrite u64_small; lia).
  unfold done_locked, mark_inactive, bind, gets, id. rewrite decide_True by done. unfold modify. eexists. split.
  { f_equal. ctx_simpl. f_equal. rewrite Hu. apply eq_true_iff_eq. rewrite Z.eqb_eq, bool_decide_eq_true.
    split; intros He; [apply leibniz_equiv, size_empty_inv; lia|by rewrite He, size_empty]. }
  split; [|done]. split; ctx_simpl; try apply I.
  - pose proof (ci_free c I). apply NoDup_app. split; [done|]. split; [|apply NoDup_singleton].
    intros x Hx Hxh. apply list_elem_of_singleton in Hxh as ->. by destruct (ci_idle c I h Hx).
  - intros x [Hx|Hx]%elem_of_app.
    + destruct (ci_idle c I x Hx) as [? ?]. set_solver.
    + apply list_elem_of_singleton in Hx as ->. split; [set_solver|]. exists r. split; [done|].
      destruct (run_busy r) eqn:Hrb; [|done]. destruct Hb. by exists r.
  - intros x Hx. apply (ci_active c I). set_solver.
  - done.
  - lia.
Qed.

Lemma notify_spec h c r :
  ctx_inv c -> runs c !! h = Some r -> run_busy r = true ->
  exists cb c', on_handle h run_notify c = Ok [cb] c' /\ ctx_inv c' /\
    m_activeruns c' = m_activeruns c /\ starts c' = starts c /\ statuses c' = statuses c /\
    m_done c' = m_done c /\ forall x, is_busy c' x <-> x <> h /\ is_busy c x.
Proof.
  intros I Hr Hb. pose proof (ci_runs c I) as Hrs. rewrite Forall_forall in Hrs.
  pose proof (Hrs r (list_elem_of_lookup_2 _ _ _ Hr)) as Vr. destruct Vr as (V & A & _).
  destruct (law_notify r V A Hb) as (cb & r' & Hn & V' & A' & B' & E').
  pose proof (lookup_lt_Some _ _ _ Hr) as Hlt.
  eexists cb, _. split; [by apply (on_handle_ok h _ c r)|]. split.
  - split; ctx_simpl; try apply I.
    + rewrite length_insert. apply I.
    + apply Forall_insert; [apply I|]. apply (run_inv_args r); [|done..]. by eapply Hrs, list_elem_of_lookup_2.
    + intros x Hx. destruct (ci_idle c I x Hx) as (Ha & rx & Hrx & Hbx). split; [done|].
      exists rx. rewrite list_lookup_insert_ne by (intros ->; congruence). done.
    + intros x Hx. destruct (ci_active c I x Hx) as (rx & e & Hrx & He & E1 & E2).
      destruct (decide (x = h)) as [->|Hne]; [|exists rx, e; by rewrite list_lookup_insert_ne].
      exists r', e. rewrite list_lookup_insert_eq by done. split_and!; [done..|].
      assert (rx = r) as -> by congruence. intros i. by rewrite E', E2.
  - split_and!; [done..|]. intros x. unfold is_busy. ctx_simpl. destruct (decide (x = h)) as [->|Hne].
    + rewrite list_lookup_insert_eq by done. split; [|by intros [? _]].
      intros (r1 & Hr1 & Hb1). injection Hr1 as <-. congruence.
    + rewrite list_lookup_insert_ne by done. split; [done|by intros [_ ?]].
Qed.
(** * The invariant of the threads *)

Context (threads : nat).

Definition key_of (t : thread) : option nat := if t is Callback h then Some h else None.
Definition keys (p : list thread) : list nat := omap key_of p.
Definition finishes (p : list thread) : nat := length (omap (fun t => if t is Finish then Some tt else None) p).
Definition is_over (c : context R) : bool := bool_decide (m_activeruns c = ∅) && m_done c.

(** A run is active from its start until its callback has been handled; the
    event completes once, when the context is over. *)
Record conf_inv (x : conf) : Prop := {
  cf_ctx : ctx_inv (ctx x);
  cf_keys : NoDup (keys (pending x));
  cf_active h : h ∈ m_activeruns (ctx x) <-> is_busy (ctx x) h \/ h ∈ keys (pending x);
  cf_idle h : h ∈ keys (pending x) -> ~ is_busy (ctx x) h;
  cf_status : exists n, (n + finishes (pending x) = if is_over (ctx x) then 1 else 0)%nat /\
    statuses (ctx x) = (if starts (ctx x) is [] then [] else [CL_RUNNING]) ++ replicate n CL_COMPLETE;
  cf_progress : launched x = true -> m_done (ctx x) = false -> m_activeruns (ctx x) = ∅ -> Resume ∈ pending x;
}.

Lemma keys_app p q : keys (p ++ q) = keys p ++ keys q.
Proof. apply omap_app. Qed.

Lemma keys_snoc p h : keys (p ++ [Callback h]) = keys p ++ [h].
Proof. apply keys_app. Qed.

Lemma finishes_app p q : finishes (p ++ q) = (finishes p + finishes q)%nat.
Proof. unfold finishes. by rewrite omap_app, length_app. Qed.

(** [execute], from the event's action or from a callback thread, which
    [p] and [p'] describe. *)
Lemma execute_inv c p l c' b p' l' :
  conf_inv (Conf c p l) -> execute rtinfo printf cache submits c = Ok b c' ->
  keys p' = keys p -> finishes p' = finishes p -> conf_inv (Conf c' p' l').
Proof.
  intros [I K A D (n & Hn & Hst) P] He Hk Hf. cbn [ctx pending launched] in *.
  destruct (execute_spec c I) as (b' & c'' & hs & He' & I' & G & Hdone & Hmore).
  rewrite He in He'. injection He' as <- <-. split; cbn [ctx pending launched]; [done|by rewrite Hk| | | |].
  - intros h. rewrite Hk, (gss_active _ _ _ G), (gss_busy _ _ _ G), elem_of_union, elem_of_list_to_set, A. tauto.
  - intros h. rewrite Hk, (gss_busy _ _ _ G). intros Hin [Hh|Hh]; [|by apply (D h)].
    apply (gss_inactive _ _ _ G h Hh). apply A. by right.
  - rewrite Hf. destruct (m_done c) eqn:Hd.
    + destruct Hdone as [-> ->]; [done|]. by exists n.
    + exists n. unfold is_over in *. rewrite Hd, andb_false_r in Hn. rewrite bool_decide_eq_false_2 by by apply Hmore.
      split; [done|]. assert (n = 0%nat) as -> by lia. cbn in *. rewrite app_nil_r in *.
      rewrite (gss_status _ _ _ G), Hst. destruct (gss_starts _ _ _ G) as (es & -> & <-).
      destruct (starts c); [by destruct es|done].
  - intros _ Hd Hact. destruct (m_done c) eqn:Hd'; [|by destruct Hmore].
    destruct Hdone as [-> _]; congruence.
Qed.

Lemma step_inv x y : conf_inv x -> step rtinfo printf cache submits threads x y -> conf_inv y.
Proof.
  intros Hx Hs. destruct Hs as [c p b c' He|c p l h r cbs c' Hr Hb _ Hn|c p1 p2 l h b c' Hd|c p1 p2 l b c' He|c p1 p2 l].
  - by eapply execute_inv.
  - destruct Hx as [I K A D (n & Hn' & Hst) P]. cbn [ctx pending launched] in *.
    destruct (notify_spec h c r I Hr Hb) as (cb & c'' & Hn'' & I' & E1 & E2 & E3 & E4 & E5).
    rewrite Hn in Hn''. injection Hn'' as -> <-. cbn [fmap list_fmap const].
    assert (is_busy c h) as Hbusy by by exists r.
    split; cbn [ctx pending launched]; [done| | | | |].
    + rewrite keys_snoc. apply NoDup_app. split; [done|]. split; [|apply NoDup_singleton].
      intros z Hz Hzh. apply list_elem_of_singleton in Hzh as ->. by apply (D h).
    + intros z. rewrite keys_snoc, E1, E5, A, elem_of_app, list_elem_of_singleton.
      destruct (decide (z = h)) as [->|]; tauto.
    + intros z. rewrite keys_snoc, E5, elem_of_app, list_elem_of_singleton. specialize (D z). tauto.
    + exists n. unfold is_over in *. rewrite E1, E2, E3, E4, finishes_app. cbn. rewrite Nat.add_0_r. done.
    + rewrite E1, E4. intros H1 H2 H3. apply elem_of_app. left. by apply P.
  - destruct Hx as [I K A D (n & Hn & Hst) P]. cbn [ctx pending launched] in *.
    rewrite keys_app in K, A, D. cbn in K, A, D. rewrite finishes_app in Hn. cbn in Hn.
    destruct (done_locked_spec h c I) as (c'' & Hd' & I' & E1 & E2 & E3 & E4 & E5); [apply A; set_solver|apply D; set_solver|].
    rewrite Hd in Hd'. injection Hd' as Hbb <-. unfold is_over in *.
    rewrite bool_decide_eq_false_2 in Hn by (specialize (A h); set_solver).
    assert (n = 0 /\ finishes p1 = 0 /\ finishes p2 = 0)%nat as (-> & F1 & F2) by (cbn in Hn; unfold finishes in *; lia).
    assert (keys (p1 ++ (if b then Finish else Resume) :: p2) = keys p1 ++ keys p2) as Hk
      by (rewrite keys_app; by destruct b).
    apply NoDup_app in K as (K1 & K2 & K3). apply NoDup_cons in K3 as [K3 K4].
    split; cbn [ctx pending launched]; [done| | | | |].
    + rewrite Hk. apply NoDup_app. set_solver.
    + intros z. rewrite Hk, E1. unfold is_busy. rewrite E2. fold (is_busy c z).
      specialize (A z). specialize (D z). destruct (decide (z = h)) as [->|Hne]; set_solver.
    + intros z. rewrite Hk. unfold is_busy. rewrite E2. intros Hz. apply D. set_solver.
    + exists 0%nat. unfold is_over. rewrite E3, E4, finishes_app, <- Hbb. split; [|done].
      destruct b; cbn; unfold finishes in *; cbn; lia.
    + intros _ Hdn Hact. destruct b; [|set_solver]. rewrite Hdn, andb_false_r in Hbb. done.
  - eapply execute_inv; [done|done|by rewrite !keys_app|by rewrite !finishes_app].
  - destruct Hx as [I K A D (n & Hn & Hst) P]. cbn [ctx pending launched] in *.
    rewrite keys_app in K, A, D. cbn in K, A, D. rewrite finishes_app in Hn.
    assert (keys (p1 ++ p2) = keys p1 ++ keys p2) as Hk by apply keys_app.
    split; cbn [ctx pending launched]; ctx_simpl; rewrite ?Hk; try done.
    + destruct I. by split.
    + exists (S n). split; [rewrite finishes_app; unfold finishes, is_over in *; cbn in *; lia|].
      rewrite Hst, <- app_assoc. f_equal. symmetry. apply (replicate_S_end n).
    + intros H1 H2 H3. specialize (P H1 H2 H3). set_solver.
Qed.
(** * Progress and termination *)

Let stepping : conf -> conf -> Prop := step rtinfo printf cache submits threads.

Lemma volume_range_pos : 0 < volume range.
Proof. apply volume_pos, work_groups_pos, w0_ok. Qed.

Lemma starts_bound c : ctx_inv c -> Z.of_nat (length (starts c)) <= volume range.
Proof.
  intros I. rewrite (ci_done c I). destruct (m_done c); [done|].
  pose proof (group_number_range _ _ (work_in_range _ (proj1 (ci_work c I)))) as Hr.
  rewrite (same_range_groups _ _ (ci_range c I)) in Hr. fold range in Hr.
  unfold position. rewrite (same_range_groups _ _ (ci_range c I)). fold range. lia.
Qed.

(** Every thread can go on, and so can the device while a run is busy. *)
Definition at_end (x : conf (R := R)) : Prop :=
  pending x = [] /\ m_activeruns (ctx x) = ∅ /\ m_done (ctx x) = true.

Lemma progress x : (0 < threads)%nat -> conf_inv x -> at_end x \/ exists y, stepping x y.
Proof.
  intros Ht [I K A D _ P]. destruct x as [c p l]. cbn [ctx pending launched] in *. unfold stepping.
  destruct (execute_spec c I) as (b & ce & hs & He & _).
  destruct l; [|right; eexists; by eapply step_execute].
  destruct p as [|[h| |] p].
  - destruct (decide (m_activeruns c = ∅)) as [Ha|[h Hh]%set_choose_L].
    + left. split_and!; [done..|]. cbn [ctx]. destruct (m_done c) eqn:Hd; [done|].
      specialize (P eq_refl eq_refl Ha). set_solver.
    + right. apply A in Hh as [(r & Hr & Hb)|Hh]; [|by apply elem_of_nil in Hh].
      destruct (notify_spec h c r I Hr Hb) as (cb & c' & Hn & _). eexists. by eapply step_notify.
  - right. destruct (done_locked_spec h c I) as (c' & Hd & _); [apply A; set_solver|apply D; set_solver|].
    eexists. eapply (step_callback _ _ _ _ _ c [] p). exact Hd.
  - right. eexists. eapply (step_resume _ _ _ _ _ c [] p). exact He.
  - right. eexists. apply (step_finish _ _ _ _ _ c [] p).
Qed.

(** What is left to do. *)
Definition remaining (x : conf (R := R)) : Z :=
  4 * (volume range - Z.of_nat (length (starts (ctx x)))) + 3 * m_active (ctx x)
  - 2 * Z.of_nat (length (keys (pending x))) + Z.of_nat (length (pending x)) + (if launched x then 0 else 1).

Lemma remaining_nonneg x : conf_inv x -> 0 <= remaining x.
Proof.
  intros [I K A D _ _]. pose proof (starts_bound _ I). unfold remaining. pose proof (ci_count _ I) as Hc.
  assert (length (keys (pending x)) <= size (m_activeruns (ctx x)))%nat as Hk.
  { rewrite <- (size_list_to_set (C := gset nat)) by done. apply subseteq_size. intros h Hh.
    apply A. right. by apply elem_of_list_to_set in Hh. }
  destruct (launched x); lia.
Qed.

Lemma execute_remaining c p l c' b p' (l' : bool) :
  conf_inv (Conf c p l) -> execute rtinfo printf cache submits c = Ok b c' -> keys p' = keys p ->
  Z.of_nat (length p') + (if l' then 0 else 1) < Z.of_nat (length p) + (if l then 0 else 1) ->
  remaining (Conf c' p' l') < remaining (Conf c p l).
Proof.
  intros [I _ _ _ _ _] He Hk Hlt. cbn [ctx] in I.
  destruct (execute_spec c I) as (b' & c'' & hs & He' & _ & G & _). rewrite He in He'. injection He' as <- <-.
  unfold remaining. cbn [ctx pending launched]. rewrite Hk, (gss_count _ _ _ G).
  destruct (gss_starts _ _ _ G) as (es & -> & <-). rewrite length_app, length_fmap. lia.
Qed.

Lemma step_remaining x y : conf_inv x -> stepping x y -> remaining y < remaining x.
Proof.
  intros Hx Hs. destruct Hs as [c p b c' He|c p l h r cbs c' Hr Hb _ Hn|c p1 p2 l h b c' Hd|c p1 p2 l b c' He|c p1 p2 l].
  - eapply execute_remaining; [done..|lia].
  - destruct Hx as [I K A D _ _]. cbn [ctx pending launched] in *.
    destruct (notify_spec h c r I Hr Hb) as (cb & c'' & Hn'' & I' & E1 & E2 & _).
    rewrite Hn in Hn''. injection Hn'' as -> <-. unfold remaining. cbn [ctx pending launched].
    cbn [fmap list_fmap const]. rewrite keys_snoc, !length_app, E2, (ci_count _ I), (ci_count _ I'), E1. cbn. lia.
  - destruct Hx as [I K A D _ _]. cbn [ctx pending launched] in *. rewrite keys_app in A, D. cbn in A, D.
    destruct (done_locked_spec h c I) as (c'' & Hd' & I' & E1 & _ & E3 & _); [apply A; set_solver|apply D; set_solver|].
    rewrite Hd in Hd'. injection Hd' as _ <-. unfold remaining. cbn [ctx pending launched].
    assert (h ∈ m_activeruns c) as Hh by (apply A; set_solver).
    rewrite !keys_app, !length_app, E3, (ci_count _ I), (ci_count _ I'), E1.
    rewrite (size_difference _ {[h]}), size_singleton by set_solver.
    pose proof (subseteq_size {[h]} (m_activeruns c) ltac:(set_solver)) as Hsz. rewrite size_singleton in Hsz.
    destruct b; cbn [keys omap list_omap key_of length]; lia.
  - eapply execute_remaining; [done|done|by rewrite !keys_app|]. rewrite !length_app. cbn [length]. lia.
  - unfold remaining. cbn [ctx pending launched]. ctx_simpl. rewrite !keys_app, !length_app.
    change (keys (Finish :: p2)) with (keys p2). cbn [length]. lia.
Qed.
Lemma steps_inv n x y :
  conf_inv x -> nsteps stepping n x y -> conf_inv y /\ remaining y + Z.of_nat n <= remaining x.
Proof.
  intros Hx Hn. induction Hn as [x|n x y z Hs Hn IH]; [split; [done|lia]|].
  pose proof (step_inv _ _ Hx Hs) as Hy. pose proof (step_remaining _ _ Hx Hs).
  destruct (IH Hy) as [Hz ?]. split; [done|]. lia.
Qed.

(** The new context. *)
Lemma initial_inv goff gsz lsz r :
  w0 = initial_work dim0 goff gsz lsz -> run_valid r -> run_fresh r -> (forall i, run_arg r i = base i) ->
  exists c, execution_context dim0 goff gsz lsz cus ctl r tt = Ok c tt /\ conf_inv (Conf c [] false) /\
    remaining (Conf c [] false) = 4 * volume range + 1.
Proof.
  intros Hw V F A. destruct (law_add_callback r V F) as (r1 & Hr & V1 & A1 & B1 & E1).
  unfold execution_context. rewrite Hr, <- Hw. eexists. split; [done|].
  assert (m_cu_group_id <$> w0 = replicate 3 0) as Hz.
  { rewrite Hw. apply initial_groups. }
  assert (position w0 = 0) as Hpos.
  { unfold position. rewrite Hz. generalize (groups <$> w0). intros [|? [|? [|? [|? ?]]]]; cbn; lia. }
  pose proof lim_range. pose proof volume_range_pos as Hvol. split.
  - split; cbn [ctx pending launched]; [|constructor| | | |done].
    + split; ctx_simpl; try done; [cbn; lia| |apply NoDup_singleton| |lia].
      * constructor; [|done]. unfold run_inv. split_and!; [done..| |]; intros j; by rewrite E1, A.
      * intros h Hh. apply list_elem_of_singleton in Hh as ->. split; [set_solver|]. by exists r1.
    + intros h. ctx_simpl. split; [set_solver|]. intros [(r' & Hr' & Hb)|Hh]; [|by apply elem_of_nil in Hh].
      destruct h; cbn in Hr'; [injection Hr' as <-; congruence|done].
    + intros h Hh. by apply elem_of_nil in Hh.
    + exists 0%nat. unfold is_over. ctx_simpl. by rewrite andb_false_r.
  - unfold remaining. cbn. unfold range. lia.
Qed.

(** What every run of the threads comes to. *)
Lemma over_complete x :
  conf_inv x -> at_end x ->
  statuses (ctx x) = [CL_RUNNING; CL_COMPLETE] /\ (st_group <$> starts (ctx x)) = all_groups range.
Proof.
  intros [I _ _ _ (n & Hn & Hst) _] (Hp & Ha & Hd). unfold is_over in Hn. rewrite Hp, Hd, bool_decide_eq_true_2 in Hn by done. cbn in Hn.
  assert (n = 1%nat) as -> by lia. pose proof (ci_done _ I) as Hk. rewrite Hd in Hk.
  pose proof volume_range_pos. split.
  - rewrite Hst. destruct (starts (ctx x)); [cbn in Hk; lia|done].
  - unfold all_groups. rewrite <- Hk, Nat2Z.id. apply list_eq. intros k. rewrite !list_lookup_fmap.
    destruct (starts (ctx x) !! k) as [e|] eqn:He.
    + rewrite lookup_seq_lt by by eapply lookup_lt_Some. cbn. f_equal. apply (eo_group _ _ (ci_starts _ I _ _ He)).
    + apply lookup_ge_None in He. by rewrite lookup_seq_ge.
Qed.

(** The threads can run to the end from any state. *)
Lemma can_end x : (0 < threads)%nat -> conf_inv x -> exists y, rtc stepping x y /\ conf_inv y /\ at_end y.
Proof.
  intros Ht Hx. remember (Z.to_nat (remaining x)) as m eqn:Hm. revert x Hx Hm.
  induction m as [m IH] using lt_wf_ind. intros x Hx ->.
  destruct (progress x Ht Hx) as [He|[y Hs]]; [by exists x|].
  pose proof (step_inv _ _ Hx Hs) as Hy. pose proof (step_remaining _ _ Hx Hs). pose proof (remaining_nonneg _ Hy).
  destruct (IH (Z.to_nat (remaining y)) ltac:(lia) y Hy eq_refl) as (z & Hz & Hend).
  exists z. split; [by eapply rtc_l|done].
Qed.

(** The groups that were started so far are the first of the range. *)
Lemma starts_prefix c :
  ctx_inv c -> (st_group <$> starts c) = take (length (starts c)) (all_groups range).
Proof.
  intros I. pose proof (starts_bound c I). unfold all_groups. apply list_eq. intros k.
  rewrite list_lookup_fmap. destruct (starts c !! k) as [e|] eqn:He.
  - pose proof (lookup_lt_Some _ _ _ He). rewrite lookup_take_lt, list_lookup_fmap, lookup_seq_lt by lia. cbn.
    f_equal. apply (eo_group _ _ (ci_starts _ I _ _ He)).
  - apply lookup_ge_None in He. by rewrite lookup_take_ge.
Qed.

(** ** One callback thread

    With a single callback thread nothing is pending when the event completes. *)
Record calm (x : conf (R := R)) : Prop := {
  cm_one : (length (pending x) <= 1)%nat;
  cm_new : launched x = false -> pending x = [] /\ starts (ctx x) = [] /\ m_activeruns (ctx x) = ∅;
  cm_over : CL_COMPLETE ∈ statuses (ctx x) -> pending x = [] /\ launched x = true;
}.

Lemma complete_over x : conf_inv x -> CL_COMPLETE ∈ statuses (ctx x) -> is_over (ctx x) = true /\ starts (ctx x) <> [].
Proof.
  intros [I _ _ _ (n & Hn & Hst) _] Hc. rewrite Hst in Hc.
  assert (n <> 0%nat) as Hn0.
  { intros ->. destruct (starts (ctx x)); cbn in Hc; [by apply elem_of_nil in Hc|].
    apply list_elem_of_singleton in Hc. done. }
  destruct (is_over (ctx x)) eqn:Ho; [|lia]. split; [done|]. intros Hs.
  unfold is_over in Ho. apply andb_true_iff in Ho as [_ Hd]. pose proof (ci_done _ I) as Hk.
  rewrite Hd, Hs in Hk. pose proof volume_range_pos. cbn in Hk. lia.
Qed.
Lemma calm_stop x y : conf_inv x -> calm x -> CL_COMPLETE ∈ statuses (ctx x) -> ~ stepping x y.
Proof.
  intros Hx [_ _ Hover] Hc Hs. destruct (Hover Hc) as [Hp Hl].
  destruct (complete_over x Hx Hc) as [Ho _]. unfold is_over in Ho. apply andb_true_iff in Ho as [Ha _].
  apply bool_decide_eq_true in Ha. pose proof (cf_active x Hx) as A.
  destruct Hs as [c p b c' He|c p l h r cbs c' Hr Hb _ Hn|c p1 p2 l h b c' Hd|c p1 p2 l b c' He|c p1 p2 l];
    cbn [ctx pending launched] in *; [done| |by destruct p1..].
  assert (h ∈ m_activeruns c) as Hh by (apply A; left; by exists r). set_solver.
Qed.

Lemma started_not_complete c c' hs :
  groups_started c c' hs -> CL_COMPLETE ∈ statuses c' -> CL_COMPLETE ∈ statuses c.
Proof.
  intros G Hc. rewrite (gss_status _ _ _ G) in Hc. apply elem_of_app in Hc as [?|Hc]; [done|].
  assert (CL_COMPLETE ∈ [CL_RUNNING]) as Hr by (destruct (starts c); [destruct hs|]; set_solver).
  by apply list_elem_of_singleton in Hr.
Qed.

Lemma step_calm x y : threads = 1%nat -> conf_inv x -> calm x -> stepping x y -> calm y.
Proof.
  intros Ht Hx Hq Hs.
  assert (CL_COMPLETE ∉ statuses (ctx x)) as Hnc by (intros Hc; by eapply calm_stop).
  pose proof Hq as [H1 Hnew _]. pose proof (cf_ctx x Hx) as I. pose proof (cf_active x Hx) as A.
  pose proof (cf_idle x Hx) as D.
  destruct Hs as [c p b c' He|c p l h r cbs c' Hr Hb Hlt Hn|c p1 p2 l h b c' Hd|c p1 p2 l b c' He|c p1 p2 l];
    cbn [ctx pending launched] in *.
  - destruct Hnew as (-> & _); [done|]. destruct (execute_spec c I) as (b' & c'' & hs & He' & _ & G & _).
    rewrite He in He'. injection He' as <- <-. split; cbn [ctx pending launched]; [cbn; lia|done|].
    intros Hc. by destruct Hnc; eapply started_not_complete.
  - destruct (notify_spec h c r I Hr Hb) as (cb & c'' & Hn' & _ & E1 & _ & E3 & _).
    rewrite Hn in Hn'. injection Hn' as -> <-.
    assert (p = []) as -> by (destruct p; [done|cbn in Hlt; lia]).
    assert (h ∈ m_activeruns c) as Hh by (apply A; left; by exists r).
    split; cbn [ctx pending launched]; [cbn; lia| |by rewrite E3].
    intros ->. destruct Hnew as (_ & _ & He); [done|]. set_solver.
  - rewrite keys_app in A, D.
    destruct (done_locked_spec h c I) as (c'' & Hd' & _ & _ & _ & _ & E4 & _); [apply A; cbn; set_solver|apply D; cbn; set_solver|].
    rewrite Hd in Hd'. injection Hd' as _ <-.
    split; cbn [ctx pending launched]; [by rewrite !length_app in *| |by rewrite E4].
    intros ->. destruct Hnew as [He _]; [done|]. by destruct p1.
  - destruct (execute_spec c I) as (b' & c'' & hs & He' & _ & G & _).
    rewrite He in He'. injection He' as <- <-. rewrite length_app in H1. cbn in H1.
    split; cbn [ctx pending launched]; [rewrite length_app; lia|intros ->; destruct Hnew as [? _]; [done|]; by destruct p1|].
    intros Hc. by destruct Hnc; eapply started_not_complete.
  - rewrite length_app in H1. cbn in H1. destruct p1; [|cbn in H1; lia]. destruct p2; [|cbn in H1; lia].
    split; cbn [ctx pending launched]; [cbn; lia| |].
    + intros ->. destruct Hnew as [? _]; done.
    + intros _. split; [done|]. destruct l; [done|]. destruct Hnew as [? _]; done.
Qed.

Lemma steps_calm x y :
  threads = 1%nat -> conf_inv x -> calm x -> rtc stepping x y -> conf_inv y /\ calm y.
Proof.
  intros Ht Hx Hq Hs. induction Hs as [x|x y z Hs _ IH]; [done|].
  apply IH; [by eapply step_inv|by eapply step_calm].
Qed.
End context.
