(* ===== verification/OclRuns.v ===== *)
(** Run objects of [xrt_kernel.cpp] as the run objects of an execution context:
    the operations of [RunApi] by those of [XrtRun], and the laws the context
    relies on, for kernels whose arguments are registers of the register map. *)

From S2P Require Import Prelude Bytes OclEvent OclNdrange OclGroups OclContext CppStd XclbinXml XrtKernel XrtRun XrtPacket XrtInvariant XrtPreserve XrtStart.

(** The identity of the callback that calls [run_done] with the context. *)
Definition run_done_callback : Z := 0.

(** The device completes a command: it writes the state to the packet and the
    command is notified. *)
Definition complete_run : M run exn (list Z) :=
  on_packet (upd_header (set_state ERT_CMD_STATE_COMPLETED)) ;;;
  on_command (command_notify ERT_CMD_STATE_COMPLETED).

#[export] Instance xrt_run_api : RunApi run := {
  run_clone b r := clone_run r b;
  run_set_arg := int_set_arg_at_index;
  run_add_callback := on_command (add_callback run_done_callback);
  run_start := XrtRun.start;
  run_busy r := negb (c_done (r_cmd r));
  run_notify := complete_run;
}.

(** A run of a register map kernel, all of whose arguments lie in the register
    map and do not overlap. *)
Record xrt_valid (r : run) : Prop := {
  xv_ok : run_ok r;
  xv_hs : hs_kernel (r_kernel r);
  xv_regmap : k_regmap_size (r_kernel r) <> 0;
  xv_inside : Forall (in_payload (r_kernel r)) (k_args (r_kernel r));
  xv_disjoint i j a b : i <> j -> zlookup (k_args (r_kernel r)) i = Some a ->
    zlookup (k_args (r_kernel r)) j = Some b -> regs_disjoint a b;
  xv_runlist : runlist_counter r = 0;
}.

Definition xrt_arg (r : run) (i : Z) : list Z :=
  match zlookup (k_args (r_kernel r)) i with Some a => arg_bytes r a | None => [] end.

Lemma zlookup_elem {A} (l : list A) i x : zlookup l i = Some x -> x ∈ l.
Proof. intros [_ H]%zlookup_Some. by eapply list_elem_of_lookup_2. Qed.

Section args.
Context (r : run) (a : kernel_argument).
Hypothesis r_ok : xrt_valid r.
Hypothesis a_in : a ∈ k_args (r_kernel r).

Lemma xrt_arg_ok : arg_ok a.
Proof. apply (run_arg_ok r); [apply r_ok|done]. Qed.

Lemma xrt_arg_inside : in_payload (r_kernel r) a.
Proof. pose proof (xv_inside r r_ok) as Hf. rewrite Forall_forall in Hf. by apply Hf. Qed.

(** The bytes of an argument, as a part of the payload. *)
Lemma xrt_arg_payload : arg_bytes r a = bytes_at (payload r) (Z.to_nat (offset a)) (Z.to_nat (size a)).
Proof.
  pose proof xrt_arg_ok as (Ho & Hs & _). pose proof xrt_arg_inside as Hin. pose proof (xv_ok r r_ok) as H.
  pose proof (payload_bytes_range _ (ro_kernel r H) (ro_fits r H)). pose proof (data_byte_eq r H).
  pose proof (ko_masks _ (ro_kernel r H)). unfold in_payload, allocation_size, arg_bytes, payload in *.
  apply list_eq. intros k. rewrite !lookup_bytes_at. case_decide; [|done].
  rewrite decide_True by (unfold allocation_size; lia). f_equal. lia.
Qed.

Lemma xrt_arg_length : length (arg_bytes r a) = Z.to_nat (size a).
Proof.
  pose proof xrt_arg_ok as (Ho & Hs & _). pose proof xrt_arg_inside as Hin. pose proof (xv_ok r r_ok) as H.
  pose proof (payload_bytes_range _ (ro_kernel r H) (ro_fits r H)). pose proof (data_byte_eq r H).
  pose proof (ko_masks _ (ro_kernel r H)). destruct (run_room r H) as [Hl _].
  unfold in_payload, allocation_size in *. apply length_bytes_at. lia.
Qed.
End args.

(** A step that keeps the kernel and the payload keeps the arguments. *)
Lemma xrt_keep r r' :
  xrt_valid r -> run_ok r' -> r_kernel r' = r_kernel r -> runlist_counter r' = 0 ->
  xrt_valid r' /\ (payload r' = payload r -> forall i, xrt_arg r' i = xrt_arg r i).
Proof.
  intros V H K L. assert (xrt_valid r') as V'.
  { destruct V. split; rewrite ?K; done. }
  split; [done|]. intros P i. unfold xrt_arg. rewrite K. destruct (zlookup (k_args (r_kernel r)) i) as [a|] eqn:Ha; [|done].
  apply zlookup_elem in Ha. rewrite !xrt_arg_payload by (try rewrite K; done). by rewrite P.
Qed.

(** * The laws *)

Definition xrt_fresh (r : run) : Prop :=
  c_done (r_cmd r) = true /\ c_callbacks (r_cmd r) = [] /\ pkt_state (header (buf r)) = ERT_CMD_STATE_NEW.

Definition xrt_armed (r : run) : Prop := c_callbacks (r_cmd r) = [run_done_callback].

Lemma xrt_clone b r :
  xrt_valid r -> packet_room b ->
  exists r', clone_run r b = inr r' /\ xrt_valid r' /\ xrt_fresh r' /\ forall i, xrt_arg r' i = xrt_arg r i.
Proof.
  intros V Hb. destruct (clone_run_ok r b (xv_ok r V) Hb (xv_regmap r V))
    as (r' & Hr & H' & K & _ & D & S & _ & L & A).
  exists r'. split; [done|]. destruct (xrt_keep r r' V H' K L) as [V' _]. split; [done|]. split.
  - split_and!; [done| |done]. unfold clone_run in Hr. destruct (clone_command_data _ _); [|done].
    by injection Hr as <-.
  - intros i. unfold xrt_arg. rewrite K. destruct (zlookup (k_args (r_kernel r)) i) as [a|] eqn:Ha; [|done].
    apply zlookup_elem in Ha. apply A; [by apply (xrt_arg_ok r)|by apply (xrt_arg_inside r)].
Qed.

Lemma xrt_add_callback r :
  xrt_valid r -> xrt_fresh r ->
  exists r', on_command (add_callback run_done_callback) r = Ok [] r' /\ xrt_valid r' /\ xrt_armed r' /\
    negb (c_done (r_cmd r')) = false /\ forall i, xrt_arg r' i = xrt_arg r i.
Proof.
  intros V (D & C & S). unfold on_command, add_callback, bind, gets, id, modify, ret.
  rewrite D, andb_false_r. unfold buf in S. rewrite S. eexists. split; [done|].
  destruct (xrt_keep r (set_cmd (set_callbacks (c_callbacks (r_cmd r) ++ [run_done_callback]) (r_cmd r)) r) V)
    as [V' A]; [by apply run_ok_command; [apply xv_ok|]|done|apply V|].
  split; [done|]. split; [unfold xrt_armed; cbn; by rewrite C|]. split; [cbn; by rewrite D|]. by apply A.
Qed.

Lemma xrt_set_arg i v r :
  xrt_valid r -> xrt_armed r -> negb (c_done (r_cmd r)) = false ->
  xrt_arg r i <> [] -> (length (xrt_arg r i) <= length v)%nat -> bytes v ->
  exists r', int_set_arg_at_index i v r = Ok tt r' /\ xrt_valid r' /\ xrt_armed r' /\
    negb (c_done (r_cmd r')) = false /\
    xrt_arg r' i = take (length (xrt_arg r i)) v /\ forall j, j <> i -> xrt_arg r' j = xrt_arg r j.
Proof.
  intros V Ar B. unfold xrt_arg at 1 2 4. destruct (zlookup (k_args (r_kernel r)) i) as [a|] eqn:Ha; [|done].
  intros _ Hl Hv. pose proof (zlookup_elem _ _ _ Ha) as Hin. pose proof (xrt_arg_ok r a V Hin) as Haok.
  pose proof (xrt_arg_inside r a V Hin) as Hp. rewrite (xrt_arg_length r a V Hin) in *.
  pose proof Haok as (Ho & Hs & _). pose proof (xv_ok r V) as H. unfold in_payload in Hp.
  destruct (set_arg_value_inside r a v H (xv_hs r V) Haok Hv) as (r' & Hrun & H' & S' & D' & B'); [lia|].
  rewrite Z.min_l in B' by lia.
  exists r'. split.
  { unfold int_set_arg_at_index, get_arg, at_, bind, gets, id. rewrite Ha. unfold ret at 1. done. }
  pose proof S' as (K & _ & _ & _ & _ & L & Dn & C).
  destruct (xrt_keep r r' V H' K) as [V' _]; [rewrite L; apply V|].
  pose proof (payload_bytes_range _ (ro_kernel r H) (ro_fits r H)). pose proof (data_byte_eq r H).
  pose proof (ko_masks _ (ro_kernel r H)). destruct (run_room r H) as [Hlen _]. unfold allocation_size in *.
  assert (length (take (Z.to_nat (size a)) v) = Z.to_nat (size a)) as Ht by (rewrite length_take; lia).
  split; [done|]. split; [unfold xrt_armed; by rewrite C|]. split; [by rewrite Dn|]. split.
  - unfold xrt_arg. rewrite K, Ha. unfold arg_bytes. rewrite D', B'. rewrite <- Ht at 2.
    apply bytes_at_put_bytes. lia.
  - intros j Hj. unfold xrt_arg. rewrite K. destruct (zlookup (k_args (r_kernel r)) j) as [b|] eqn:Hb; [|done].
    apply (arg_bytes_frame r r' a b (take (Z.to_nat (size a)) v)); [done|lia|done|apply (xrt_arg_ok r b V), (zlookup_elem _ _ _ Hb)|lia|lia| |done].
    by apply (xv_disjoint r V i j).
Qed.

Lemma xrt_start r :
  xrt_valid r -> xrt_armed r -> negb (c_done (r_cmd r)) = false ->
  exists r', XrtRun.start true r = Ok tt r' /\ xrt_valid r' /\ xrt_armed r' /\ negb (c_done (r_cmd r')) = true /\
    forall i, xrt_arg r' i = xrt_arg r i.
Proof.
  intros V Ar D. apply negb_false_iff in D. destruct (prep_start_spec r (xv_ok r V)) as (r1 & Hrun & Hp).
  destruct Hp as (H1 & _ & _ & K1 & _ & P1 & L1 & D1 & C1).
  set (r2 := set_cmd (set_done false (set_managed (negb (length (c_callbacks (r_cmd r1)) =? 0)%nat) (r_cmd r1))) r1).
  exists r2. split.
  { unfold XrtRun.start, bind at 1, gets, id. rewrite (xv_runlist r V). cbn [Z.eqb negb]. unfold bind. rewrite Hrun.
    unfold on_command, command_run, bind, gets, modify, ret, id. by rewrite D1, D. }
  destruct (xrt_keep r r2 V) as [V2 A2]; [by apply run_ok_command|done|cbn; rewrite L1; apply V|].
  split; [done|]. split; [unfold xrt_armed; cbn; by rewrite C1|]. split; [done|]. by apply A2.
Qed.

Lemma xrt_notify r :
  xrt_valid r -> xrt_armed r -> negb (c_done (r_cmd r)) = true ->
  exists cb r', complete_run r = Ok [cb] r' /\ xrt_valid r' /\ xrt_armed r' /\ negb (c_done (r_cmd r')) = false /\
    forall i, xrt_arg r' i = xrt_arg r i.
Proof.
  intros V Ar D. apply negb_true_iff in D. pose proof (xv_ok r V) as H. pose proof (ro_packet r H) as [_ Hh].
  destruct (run_ok_header r (set_state ERT_CMD_STATE_COMPLETED (header (buf r))) H) as (H1 & P1 & _); [by apply hdr_ok_state|].
  set (r1 := set_cmd _ r) in H1. set (r2 := set_cmd (set_done true (r_cmd r1)) r1).
  exists run_done_callback, r2. split.
  { unfold complete_run, bind at 1. unfold on_packet, on_command, in_execbuf, upd_header, modify.
    fold (buf r). fold r1. unfold command_notify, bind, gets, id. change (c_done (r_cmd r1)) with (c_done (r_cmd r)). rewrite D.
    cbn [Z.ltb orb]. unfold ret. unfold xrt_armed in Ar. cbn. rewrite Ar. done. }
  destruct (xrt_keep r r2 V) as [V2 A2]; [by apply run_ok_command|done|apply V|].
  split; [done|]. split; [done|]. split; [done|]. apply A2. unfold payload.
  change (data_byte r2) with (data_byte r). pose proof (data_byte_eq r H). pose proof (ko_masks _ (ro_kernel r H)).
  change (buf r2) with (set_word 0 (set_state ERT_CMD_STATE_COMPLETED (header (buf r))) (buf r)).
  apply (agree_bytes _ _ _ _ _ _ (proj2 P1)). lia.
Qed.

#[export] Instance xrt_run_laws : RunLaws run := {
  run_valid := xrt_valid;
  run_armed := xrt_armed;
  run_fresh := xrt_fresh;
  run_arg := xrt_arg;
  good_buffer := packet_room;
  law_clone := xrt_clone;
  law_add_callback := xrt_add_callback;
  law_set_arg := xrt_set_arg;
  law_start := xrt_start;
  law_notify := xrt_notify;
}.
