(* ===== verification/OclNdrangeTheorems.v ===== *)
(** Properties of NDRange kernels: an accepted call of [clEnqueueNDRangeKernel]
    executes every work group exactly once, with its own arguments, a bounded
    number of runs at a time, and completes its event once. *)

From stdpp Require Import relations.
From S2P Require Import Prelude Bytes OclEvent OclNdrange OclGroups OclContext CppStd XclbinXml XrtKernel XrtRun XrtPacket XrtInvariant XrtPreserve XrtStart XrtTheorems OclRuns.

(** The run object, the arguments the context sets and the buffers of the cache,
    as the context of an enqueued kernel has them: every argument the context
    sets is an argument of the kernel of at most eight bytes, and no two are the
    same. *)
Record enqueued (rtinfo : list (rtinfo_type * Z)) (printf : list (Z * option Z)) (cache : nat -> list Z)
    (cus : Z) (r : run) : Prop := {
  en_valid : xrt_valid r;
  en_fresh : xrt_fresh r;
  en_cache k : packet_room (cache k);
  en_rtinfo : Forall (fun a => fst a <> rt_printf) rtinfo;
  en_nodup : NoDup (indices rtinfo printf);
  en_sizes : Forall (fun i => xrt_arg r i <> [] /\ (length (xrt_arg r i) <= 8)%nat) (indices rtinfo printf);
  en_cus : 0 < cus <= max_cus;
}.

(** Every submission is accepted by the hardware queue. *)
Definition accepted : nat -> bool := fun _ => true.

Lemma initial_length n off g l : length (initial_work n off g l) = 3%nat.
Proof. done. Qed.

Section ndrange.
Context (rtinfo : list (rtinfo_type * Z)) (printf : list (Z * option Z)) (cache : nat -> list Z).
Context (n : nat) (off g l : list Z) (cus : Z) (ctl : control_type) (r : run) (threads : nat).

Let w0 : list dimension := initial_work n off g l.
Let steps : conf -> conf -> Prop := step rtinfo printf cache accepted threads.
Let inv : conf -> Prop := conf_inv rtinfo printf (xrt_arg r) n w0 cus ctl.

Hypothesis en : enqueued rtinfo printf cache cus r.
Hypothesis w0_whole : Forall whole w0.

(** The side conditions of the lemmas on contexts. *)
Ltac side := solve [apply en | by apply initial_work_ok | done].

Lemma ndrange_init :
  exists c, execution_context n off g l cus ctl r tt = Ok c tt /\ inv (Conf c [] false) /\
    remaining w0 (Conf c [] false) = 4 * volume (groups <$> w0) + 1.
Proof. eapply initial_inv with (base := xrt_arg r) (w0 := w0) (cache := cache); side. Qed.

Lemma ndrange_steps k x y : inv x -> nsteps steps k x y -> inv y /\ remaining w0 y + Z.of_nat k <= remaining w0 x.
Proof. eapply steps_inv; side. Qed.

Lemma ndrange_nonneg x : inv x -> 0 <= remaining w0 x.
Proof. intros Hx. eapply remaining_nonneg; try exact Hx; side. Qed.

Lemma ndrange_end x : inv x -> (0 < threads)%nat -> exists y, rtc steps x y /\ inv y /\ at_end y.
Proof. intros Hx Ht. eapply can_end; side. Qed.

Lemma ndrange_complete x :
  inv x -> at_end x ->
  statuses (ctx x) = [CL_RUNNING; CL_COMPLETE] /\ (st_group <$> starts (ctx x)) = all_groups (groups <$> w0).
Proof. intros Hx Hend. eapply over_complete with (w0 := w0); try exact Hx; side. Qed.

Lemma ndrange_stuck x : inv x -> (0 < threads)%nat -> (forall y, ~ steps x y) -> at_end x.
Proof.
  intros Hx Ht Hno.
  assert (at_end x \/ exists y, steps x y) as [?|[y Hy]]; [|done|by destruct (Hno y)].
  eapply progress; try exact Hx; side.
Qed.

Lemma ndrange_reachable c x :
  execution_context n off g l cus ctl r tt = Ok c tt -> rtc steps (Conf c [] false) x -> inv x.
Proof.
  intros Hc Hx. destruct ndrange_init as (c' & Hc' & H0 & _). rewrite Hc in Hc'. injection Hc' as <-.
  apply rtc_nsteps in Hx as [k Hx]. by apply (ndrange_steps _ _ _ H0 Hx).
Qed.
End ndrange.

(** With one callback thread nothing touches a context whose event is complete. *)
Lemma calm_init n off g l cus ctl r c :
  execution_context n off g l cus ctl r tt = Ok c tt -> calm (Conf c [] false).
Proof.
  unfold execution_context. destruct (run_add_callback r) as [cb r'|]; [|done]. unfold ret. injection 1 as <-.
  split; cbn [ctx pending launched]; [cbn; lia|done|]. intros Hc. by apply elem_of_nil in Hc.
Qed.

(** * Theorems *)

(** C2: an accepted NDRange call runs to completion.  Take a call of
    [clEnqueueNDRangeKernel] without global offset that the runtime accepts, with
    the work group size of the application or the one the runtime picks, and the
    execution context it constructs.  Under every interleaving of the thread
    that launches it, of the completions of runs by the device and of the
    callback threads, at most four steps per work group (and one) are possible;
    from every configuration that is reached the threads can go on to one in
    which the event was set running and then complete, once each, and in which
    every work group of the range was started exactly once, as many as
    [get_num_work_groups] reports; and when no thread can go on that is the
    configuration. *)
Theorem ndrange_completes env d goff gsz lsz off g l rtinfo printf cache cus ctl r threads c k x :
  api_checks env = true -> size_array d gsz -> (forall l0, lsz = Some l0 -> size_array d l0) ->
  (lsz = None -> let f := elem (fill3 d (Some gsz) 1) in f 0 * f 1 * f 2 < 2 ^ 64) -> no_offset goff ->
  enqueue_sizes env d goff (Some gsz) lsz tt = Ok (off, g, l) tt ->
  enqueued rtinfo printf cache cus r -> (0 < threads)%nat ->
  execution_context (Z.to_nat d) off g l cus ctl r tt = Ok c tt ->
  nsteps (step rtinfo printf cache accepted threads) k (Conf c [] false) x ->
  let ns := groups <$> initial_work (Z.to_nat d) off g l in
  let done (y : conf) := statuses (ctx y) = [CL_RUNNING; CL_COMPLETE] /\ m_activeruns (ctx y) = ∅ /\
    NoDup (st_group <$> starts (ctx y)) /\
    (forall w, w ∈ (st_group <$> starts (ctx y)) <-> in_range ns w) /\
    (volume ns < 2 ^ 64 -> Z.of_nat (length (starts (ctx y))) = get_num_work_groups c) in
  Z.of_nat k <= 4 * volume ns + 1 /\
  (exists y, rtc (step rtinfo printf cache accepted threads) x y /\ done y) /\
  ((forall y, ~ step rtinfo printf cache accepted threads x y) -> done x).
Proof.
  intros Hc Hg Hl Hv Hno He En Ht Hctx Hk ns fin.
  pose proof (enqueue_whole env d goff gsz lsz off g l Hc Hg Hl Hv Hno He) as Hw.
  destruct (ndrange_init _ _ _ _ _ _ _ _ ctl _ En Hw) as (c' & Hctx' & H0 & Hrem).
  rewrite Hctx in Hctx'. injection Hctx' as <-.
  destruct (ndrange_steps _ _ _ _ _ _ _ _ ctl _ threads En Hw _ _ _ H0 Hk) as [Hx Hle].
  assert (forall y, conf_inv rtinfo printf (xrt_arg r) (Z.to_nat d) (initial_work (Z.to_nat d) off g l) cus ctl y ->
    at_end y -> fin y) as Hfin.
  { intros y Hy Hend. edestruct ndrange_complete as [Hst Hgr]; [exact Hw|exact Hy|exact Hend|]. unfold fin.
    rewrite Hgr. destruct (all_groups_spec ns) as [A1 A2]; [by apply work_groups_pos, initial_work_ok|].
    destruct Hend as (_ & Ha & _). split_and!; [done..|]. intros Hvol.
    assert (m_work c = initial_work (Z.to_nat d) off g l) as Hwc.
    { unfold execution_context in Hctx. destruct (run_add_callback r); [|done]. by injection Hctx as <-. }
    rewrite num_work_groups_volume by by rewrite Hwc. rewrite Hwc. fold ns.
    rewrite <- (length_fmap st_group), Hgr. unfold all_groups. rewrite length_fmap, length_seq.
    rewrite Z2Nat.id; [done|]. apply Z.lt_le_incl, volume_pos, work_groups_pos, initial_work_ok, Hw. }
  split; [|split].
  - fold ns in Hrem. assert (0 <= remaining (initial_work (Z.to_nat d) off g l) x); [|lia].
    by eapply ndrange_nonneg.
  - destruct (ndrange_end _ _ _ _ _ _ _ _ ctl _ threads En Hw _ Hx Ht) as (y & Hs & Hy & Hend). exists y. auto.
  - intros Hstuck. apply Hfin; [done|]. by eapply (ndrange_stuck _ _ _ _ _ _ _ _ ctl _ threads En Hw).
Qed.

(** C14: what a work group runs with.  Let the range have no global offset and be whole work
    groups in every dimension, and let the hardware queue accept every submission.  In every configuration that is reached, the
    work groups started so far are the first of the range in row-major order; a
    group was started with the identifiers of its first work item, with the
    run-time information of its own group and dimension in the kernel's
    arguments, and with all other arguments as they are in the run object of
    the kernel; an active run still has the arguments it was started with; and
    at most twice (for AP_CTRL_CHAIN, twenty times) as many runs are active as
    there are compute units. *)
Theorem ndrange_starts rtinfo printf cache n off g l cus ctl r threads c x :
  enqueued rtinfo printf cache cus r -> Forall whole (initial_work n off g l) ->
  execution_context n off g l cus ctl r tt = Ok c tt ->
  rtc (step rtinfo printf cache accepted threads) (Conf c [] false) x ->
  let w0 := initial_work n off g l in
  (st_group <$> starts (ctx x)) = take (length (starts (ctx x))) (all_groups (groups <$> w0)) /\
  (forall e, e ∈ starts (ctx x) ->
     st_global e = zip_with Z.mul (st_group e) (m_lsize <$> w0) /\
     (forall i v, (i, v) ∈ writes rtinfo printf n (work_of w0 (st_group e)) ->
        xrt_arg (st_object e) i = take (length (xrt_arg r i)) (le_bytes 8 v)) /\
     forall i, i ∉ indices rtinfo printf -> xrt_arg (st_object e) i = xrt_arg r i) /\
  (forall h, h ∈ m_activeruns (ctx x) ->
     exists r' e, runs (ctx x) !! h = Some r' /\ e ∈ starts (ctx x) /\ st_run e = h /\
       forall i, xrt_arg r' i = xrt_arg (st_object e) i) /\
  Z.of_nat (base.size (m_activeruns (ctx x))) <= (if decide (ctl = ctrl_chain) then 20 else 2) * cus.
Proof.
  intros En Hw Hctx Hx w0.
  pose proof (ndrange_reachable _ _ _ _ _ _ _ _ ctl _ threads En Hw c x Hctx Hx) as Hinv.
  pose proof (cf_ctx _ _ _ _ _ _ _ _ Hinv) as I. split_and!.
  - eapply starts_prefix with (w0 := w0); try exact I; solve [done | by apply initial_work_ok].
  - intros e [k Hk]%list_elem_of_lookup. destruct (ci_starts _ _ _ _ _ _ _ _ I k e Hk) as [_ Hgl (_ & _ & _ & Hr) Ha].
    split_and!; [done|exact Ha|exact Hr].
  - apply (ci_active _ _ _ _ _ _ _ _ I).
  - rewrite <- (ci_count _ _ _ _ _ _ _ _ I). apply (ci_bound _ _ _ _ _ _ _ _ I).
Qed.

(** The context is not used after its event is complete.  The event owns the
    context and may be deleted once it is complete; when the callbacks of the
    runs are called by one thread, no step of any thread is possible in a
    configuration whose event is complete. *)
Theorem context_unused_after_complete rtinfo printf cache n off g l cus ctl r c x y :
  enqueued rtinfo printf cache cus r -> Forall whole (initial_work n off g l) ->
  execution_context n off g l cus ctl r tt = Ok c tt ->
  rtc (step rtinfo printf cache accepted 1) (Conf c [] false) x ->
  CL_COMPLETE ∈ statuses (ctx x) -> ~ step rtinfo printf cache accepted 1 x y.
Proof.
  intros En Hw Hctx Hx Hdone.
  pose proof (ndrange_reachable _ _ _ _ _ _ _ _ ctl _ 1 En Hw c _ Hctx (rtc_refl _ _)) as H0.
  assert (conf_inv rtinfo printf (xrt_arg r) n (initial_work n off g l) cus ctl x /\ calm x) as [Hinv Hcalm].
  { eapply steps_calm; try exact Hx; try exact H0; try (by eapply calm_init).
    all: solve [apply En | by apply initial_work_ok | done]. }
  eapply calm_stop; try exact Hinv; solve [done | apply En | by apply initial_work_ok].
Qed.

(** Work group sizes.  The work sizes of an accepted call are those of the
    application, with unit size in the dimensions past [work_dim]; every side of
    the work group is positive and divides the side of the range; and when the
    application gives no work group size, the one the runtime picks has the
    largest volume of all whose sides divide the range and respect the limits of
    kernel and device. *)
Theorem enqueue_sizes_accepted env d goff gsz lsz off g l :
  api_checks env = true -> size_array d gsz -> (forall l0, lsz = Some l0 -> size_array d l0) ->
  (lsz = None -> let f := elem (fill3 d (Some gsz) 1) in f 0 * f 1 * f 2 < 2 ^ 64) ->
  enqueue_sizes env d goff (Some gsz) lsz tt = Ok (off, g, l) tt ->
  1 <= d <= 3 /\ off = fill3 d goff 0 /\ g = fill3 d (Some gsz) 1 /\
  (forall i, 0 <= i < d -> 0 < elem gsz i < 2 ^ 64 /\ 0 < elem l i /\ (elem l i | elem gsz i)) /\
  match lsz with
  | Some l0 => l = fill3 d (Some l0) 1
  | None => exists x y z, l = [x; y; z] /\
      forall x' y' z', box g (dim_max_of env d g) x' y' z' -> x' * y' * z' <= max_wg_size_of env ->
        x' * y' * z' <= x * y * z
  end.
Proof.
  intros Hc Hg Hl Hv He. destruct (enqueue_accepts env d goff gsz lsz off g l Hc Hg Hl Hv He)
    as (Hd & -> & -> & Hloc & Hall).
  split; [exact Hd|]. split_and!; [done..|]. unfold local_of in Hloc. destruct lsz as [l0|]; [done|].
  destruct Hloc as (v & (x & y & z & Hf & Hs & _) & Hb). cbn [fst snd] in *. subst.
  exists x, y, z. split; [done|]. intros x' y' z' Hbox Hm. by apply Hb.
Qed.

(** Global offsets.  In a two-dimensional range whose first offset reaches
    into the last work group of a row, only the first row is started in full:
    after it [update_work] starts a row at the offset, and of every other row
    only its first work group is started. *)
Theorem offset_loses_groups o0 o1 g0 g1 l0 l1 k :
  g0 <= u64 (o0 + l0) ->
  let w := Nat.iter k (fun w => fst (next_group 2 w)) (initial_work 2 [o0; o1] [g0; g1] [l0; l1]) in
  0 < elem (m_cu_group_id <$> w) 1 -> elem (m_cu_group_id <$> w) 0 = 0.
Proof.
  intros Hg w Hw.
  assert (exists a b u gid grp, w = [Dimension o0 g0 l0 gid grp; a; b] /\ m_cu_group_id a = u /\
    (0 < u -> gid = o0 /\ grp = 0)) as (a & b & u & gid & grp & Heq & Hu & Hz).
  { unfold w. clear w Hw. induction k as [|k (a & b & u & gid & grp & IH & Hu & Hz)].
    { eexists _, _, 0, 0, 0. split; [done|]. split; [done|]. lia. }
    rewrite Nat.iter_succ, IH. cbn [next_group m_cu_global_id m_lsize m_gsize].
    destruct (Z.ltb_spec (u64 (gid + l0)) g0) as [Hlt|Hge].
    - eexists a, b, u, _, _. split; [done|]. split; [done|]. intros Hpos. destruct (Hz Hpos) as [-> _]. lia.
    - destruct (u64 (m_cu_global_id a + m_lsize a) <? m_gsize a); eexists _, b, _, _, _; (split; [done|]); done. }
  rewrite Heq in *. cbn in *. by apply Hz; subst.
Qed.

(** * Witnesses

    A kernel whose second argument is the number of dimensions, on a range of two
    by two work groups. *)

Definition ex_rtinfo : list (rtinfo_type * Z) := [(rt_dim, 1)].
Definition ex_env : enqueue_env := EnqueueEnv true None [0; 0; 0] [0; 0; 0] 64 2 [4096; 4096; 4096].

Lemma ex_valid : xrt_valid ex_run.
Proof.
  split; [exact ex_run_ok|left; conc|conc; discriminate|each| |conc].
  intros i j a b Hij Hi Hj. apply zlookup_Some in Hi as [Hir Hi], Hj as [Hjr Hj].
  change (k_args (r_kernel ex_run)) with ex_args in *. unfold ex_args in *. cbn in Hir, Hjr.
  assert (i = 0 /\ j = 1 \/ i = 1 /\ j = 0) as [[-> ->]|[-> ->]] by lia; cbn in Hi, Hj;
    injection Hi as <-; injection Hj as <-; [left|right]; range.
Qed.

Lemma ex_enqueued : enqueued ex_rtinfo [] (fun _ => replicate 4096 0) 2 ex_run.
Proof.
  split; [exact ex_valid|split_and!; conc|intros _; exact ex_room|each|apply NoDup_singleton| |range].
  apply Forall_singleton. split; [conc; discriminate|vm_compute; lia].
Qed.

Definition ex_context : context run :=
  match execution_context 2 [0; 0; 0] [4; 2; 1] [2; 1; 1] 2 ctrl_hs ex_run tt with
  | Ok c _ => c
  | Err _ _ => Context_ 0 [] 0 ctrl_hs 0 [] ∅ 0 false [] [] []
  end.

Lemma ndrange_completes_witness :
  exists y, rtc (step ex_rtinfo [] (fun _ => replicate 4096 0) accepted 1) (Conf ex_context [] false) y /\
    statuses (ctx y) = [CL_RUNNING; CL_COMPLETE] /\ [1; 1; 0] ∈ (st_group <$> starts (ctx y)).
Proof.
  destruct (ndrange_completes ex_env 2 None [4; 2] None [0; 0; 0] [4; 2; 1] [2; 1; 1] ex_rtinfo []
    (fun _ => replicate 4096 0) 2 ctrl_hs ex_run 1 ex_context 0 (Conf ex_context [] false))
    as (_ & (y & Hy & Hst & _ & _ & Hall & _) & _).
  - reflexivity.
  - split; [range|each].
  - discriminate.
  - intros _. vm_compute. reflexivity.
  - discriminate.
  - vm_compute. reflexivity.
  - exact ex_enqueued.
  - lia.
  - reflexivity.
  - apply nsteps_O.
  - exists y. split; [exact Hy|]. split; [exact Hst|]. apply Hall. repeat constructor; vm_compute; discriminate.
Defined.

Lemma ex_whole : Forall whole (initial_work 2 [0; 0; 0] [4; 2; 1] [2; 1; 1]).
Proof.
  repeat (apply Forall_cons; split); [..|by apply Forall_nil]; (split_and!; [range..|]);
    [by exists 2|by exists 2|by exists 1].
Qed.

(** The configuration after the event's action has called [execute]. *)
Definition ex_executed : conf (R := run) :=
  Conf (match execute ex_rtinfo [] (fun _ => replicate 4096 0) accepted ex_context with Ok _ c | Err _ c => c end)
    [] true.

Lemma ex_executed_step : step ex_rtinfo [] (fun _ => replicate 4096 0) accepted 1 (Conf ex_context [] false) ex_executed.
Proof. apply step_execute with (b := true). vm_compute. reflexivity. Qed.

Lemma ndrange_starts_witness :
  (st_group <$> starts (ctx ex_executed)) = [[0; 0; 0]; [1; 0; 0]; [0; 1; 0]; [1; 1; 0]] /\
  forall e, e ∈ starts (ctx ex_executed) -> xrt_arg (st_object e) 1 = [2; 0; 0; 0].
Proof.
  destruct (ndrange_starts ex_rtinfo [] (fun _ => replicate 4096 0) 2 [0; 0; 0] [4; 2; 1] [2; 1; 1] 2 ctrl_hs ex_run 1
    ex_context ex_executed ex_enqueued ex_whole eq_refl (rtc_once _ _ ex_executed_step)) as (Hg & Hargs & _).
  split; [rewrite Hg; vm_compute; reflexivity|].
  intros e He. destruct (Hargs e He) as (_ & Ha & _). rewrite (Ha 1 2); [vm_compute; reflexivity|].
  apply list_elem_of_singleton. reflexivity.
Defined.

Lemma context_unused_after_complete_witness :
  exists x, CL_COMPLETE ∈ statuses (ctx x) /\
    forall y, ~ step ex_rtinfo [] (fun _ => replicate 4096 0) accepted 1 x y.
Proof.
  destruct (ndrange_end ex_rtinfo [] (fun _ => replicate 4096 0) 2 [0; 0; 0] [4; 2; 1] [2; 1; 1] 2 ctrl_hs ex_run 1
    ex_enqueued ex_whole (Conf ex_context [] false)) as (x & Hx & Hi & He).
  - exact (ndrange_reachable ex_rtinfo [] (fun _ => replicate 4096 0) 2 [0; 0; 0] [4; 2; 1] [2; 1; 1] 2 ctrl_hs ex_run 1
      ex_enqueued ex_whole ex_context (Conf ex_context [] false) eq_refl (rtc_refl _ _)).
  - lia.
  - assert (CL_COMPLETE ∈ statuses (ctx x)) as Hst.
    { destruct (ndrange_complete _ _ _ _ _ _ _ _ _ ex_whole x Hi He) as [-> _]. right. left. }
    exists x. split; [exact Hst|]. intros y.
    exact (context_unused_after_complete ex_rtinfo [] (fun _ => replicate 4096 0) 2 [0; 0; 0] [4; 2; 1] [2; 1; 1] 2
      ctrl_hs ex_run ex_context x y ex_enqueued ex_whole eq_refl Hx Hst).
Defined.

Lemma enqueue_sizes_accepted_witness :
  (exists x y z, [2; 1; 1] = [x; y; z] /\ forall x' y' z',
    box [4; 2; 1] (dim_max_of ex_env 2 [4; 2; 1]) x' y' z' -> x' * y' * z' <= 2 -> x' * y' * z' <= x * y * z) /\
  elem [2; 1; 1] 0 = 2.
Proof.
  destruct (enqueue_sizes_accepted ex_env 2 None [4; 2] None [0; 0; 0] [4; 2; 1] [2; 1; 1])
    as (_ & _ & _ & _ & Hb); [reflexivity|split; [range|each]|discriminate|intros _; vm_compute; reflexivity|vm_compute; reflexivity|].
  split; [exact Hb|reflexivity].
Defined.

(** The work group [(1, 1)] of the same range is never started when the offset is
    that of the second work group of a row. *)
Lemma offset_loses_groups_witness :
  in_range (groups <$> initial_work 2 [2; 0] [4; 2] [2; 1]) [1; 1; 0] /\
  forall k, (m_cu_group_id <$> Nat.iter k (fun w => fst (next_group 2 w)) (initial_work 2 [2; 0] [4; 2] [2; 1]))
    <> [1; 1; 0].
Proof.
  split; [repeat constructor; vm_compute; discriminate|]. intros k Hk.
  pose proof (offset_loses_groups 2 0 4 2 2 1 k ltac:(vm_compute; discriminate)) as H. cbv zeta in H.
  rewrite Hk in H. discriminate H. reflexivity.
Defined.
